(* ===== verification/_CoqProject ===== *)
-Q . S2P
Prelude.v
GoStrings.v
Event.v
Base64.v
RingBuffer.v
RingBufferProofs.v
Isolation.v
IsolationProofs.v
Binary64.v
Ueba.v
Glob.v
Isolator.v
CommandLine.v
CommandLineProofs.v
ProcessChain.v
ProcessChainProofs.v
SigmaFields.v
SigmaFieldsProofs.v
CustomRules.v
CustomRulesProofs.v
StatAnomaly.v
Ip.v
IocMatcher.v
IocMatcherProofs.v
Remediation.v
RemediationProofs.v
Suppression.v
Sequence.v
Detection.v
DetectionProofs.v
Containment.v
SequenceProofs.v
Sigma.v
SigmaProofs.v
Builtins1.v
Builtins2.v
Builtins3.v
Builtins4.v
BuiltinRules.v
RuleEngine.v
Digest.v
Ja3.v
Ja3Proofs.v
Correlation.v
CorrelationProofs.v
Files.v
Tamper.v
TamperProofs.v
Watchdog.v
WatchdogProofs.v
Access.v
AlertPipeline.v
AlertPipelineProofs.v
DnsHeuristics.v
Findings.v
FindingsProofs.v
Baseline.v
Beacon.v
BeaconProofs.v
EnginePipeline.v
EnginePipelineProofs.v
BlockRanges.v
BlockRangesProofs.v
Wfp.v
WfpProofs.v
AgentIsolation.v
AgentIsolationProofs.v
FileQuarantine.v
Commands.v
CommandsProofs.v
ResponseActions.v
Transport.v
TransportProofs.v
Ingestion.v
IngestionProofs.v
Dedup.v
Updater.v
RetroHunt.v
RetroHuntProofs.v
UninstallGuard.v
