(* ===== verification/Prelude.v ===== *)
(** * Kizashi: a verification library for the EDR agent and server

    Kizashi is an endpoint detection and response platform.  An agent on every
    host collects events, keeps them in a disk-backed spool while the server is
    unreachable, and carries out commands: isolating the host, quarantining a
    file, updating itself under a supervisor.  The server takes the events in,
    evaluates rules and detectors over them, turns matches into alerts, correlates
    those into incidents, and may isolate an endpoint behind a safety valve.  This
    library models that code (Go, under src/) and proves what makes it correct.

    ** Shared files

    - [Prelude.v]: time as nanoseconds, machine integers with their wrap-around,
      computations that may panic ([go], [go_index], [go_slice]), functions with
      an [error] result ([res]), lists, automation.
    - [GoStrings.v], [Glob.v], [Ip.v]: what the code calls of Go's
      [strings], [strconv], [fmt], [time], [path/filepath], [net/url], [net].
    - [Event.v]: flattened events ([map[string]interface{}]), their numbers and
      [%v]; the platform gate that both rule engines share.
    - [Base64.v]: Base64, UTF-8 and UTF-16.  [Digest.v]: MD5, SHA-256, hexadecimal.
    - [Binary64.v]: [float64] and package [math], by the executable IEEE-754
      specification of the Standard Library.
    - [Files.v]: the file operations of package [os] and paths.

    ** The agent (src/agent)

    - [RingBuffer.v]: the offline spool, internal/transport/buffer.go, and the loop
      that drains it.  [Transport.v]: reconnection with its backoff, the watchdog of
      the receiving half and the acknowledgements, internal/transport/grpc_client.go.
    - [AgentIsolation.v]: internal/response/executor.go, internal/heartbeat, and
      what cmd/agent/main.go does with the answer of a heartbeat, over an interface
      of the isolation manager.  [BlockRanges.v], [Wfp.v]: that manager on Windows,
      internal/platform/windows/isolate_{wfp,firewall_policy}.go, with the check of
      the allow list on the server (ingestion/allow_ips.go).  [FileQuarantine.v]: the
      quarantine of files in the same package.
    - [Tamper.v]: self-protection findings, their spool and the integrity monitor,
      internal/tamper.  [Watchdog.v]: the supervisor, cmd/watchdog.  [Updater.v]:
      internal/updater, composed with the supervisor.  [UninstallGuard.v]: the
      uninstall password, internal/uninstallguard and cmd/agent/uninstallauth.go,
      with the table it comes from, server store/uninstall_protection.go.
    - [Ja3.v]: TLS fingerprints, internal/ja3, and the parser of captured packets,
      internal/netparse/tlspacket.go.

    ** The server (src/server/internal)

    Events in, commands out:
    - [Ingestion.v]: ingestion/handler.go, a batch of an agent as rows, devices and
      messages.  [Commands.v]: store/rules.go, cmd/ingestion/main.go and
      ingestion/command_dispatcher.go, a command from the store to the executor of
      [AgentIsolation.v].  [ResponseActions.v]: store/response_actions.go, the
      record of commands, closed by the acknowledgements that [Transport.v] sends.

    The path of an event through detection:
    - [EnginePipeline.v]: detection/engine.go, one message of the detection server;
      [AlertPipeline.v]: detection/alert_pipeline.go, one message of the API server.
      They flatten an event ([SigmaFields.v]), undo the obfuscation of its command
      line ([CommandLine.v]) and ask the detectors.
    - Rules: [Sigma.v] (sigma_evaluator.go, sigma_category.go), the built-in rules
      [Builtins1.v] to [Builtins4.v] with [BuiltinRules.v] (sigma_builtins.go),
      [RuleEngine.v] (rules/rule_engine.go, logsource_index.go,
      condition_wildcard.go), [Sequence.v] (rules/sequence_engine.go),
      [CustomRules.v] (custom_rules.go), [IocMatcher.v] (ioc_matcher.go).
    - Detectors: [Beacon.v] (rules/beacon_detector.go, c2_fusion.go),
      [DnsHeuristics.v] (dns_exfil.go, dns_dga.go), [Findings.v] (findings that need
      no rule), [ProcessChain.v] (ml/process_chain.go, process_lineage.go,
      parent_resolver.go), [StatAnomaly.v] (anomaly_detector.go), [Ueba.v]
      (ml/ueba_scorer.go, isolation_forest.go), [Baseline.v] (behavioral).
    - The past: [RetroHunt.v] (scheduler/retro_rule_hunter.go, retro_ioc_hunter.go and
      the table of store/ioc.go), rules and indicators that came after the events.
    - From a match to its alert: [Detection.v] (engine.go after the matchers, the
      playbooks, the risk monitor), [Suppression.v] (suppression_matcher.go),
      [Dedup.v] (dedup/alert_dedup.go), [Correlation.v] (correlation).

    Containment and access:
    - [Isolation.v]: the safety valve, isolation/guard.go and isolation.go.
      [Isolator.v]: what its callers may rely on, as a class with laws, discharged
      for the gatekeeper.  [Remediation.v]: remediation.  [Containment.v]: the
      unattended isolations of both servers over their gatekeepers (the risk monitor
      of [Detection.v] goes past them: it writes the status of the agent).
    - [Access.v]: the rate limiter, the token blocklist and the account cache, auth.

    A file named [XProofs.v] holds the theorems about [X.v].

    ** How the parts meet

    An event goes from the agent over [Transport.v] (through [RingBuffer.v] when
    the connection is down) to [Ingestion.v], whose messages are the input of
    [EnginePipeline.v] and [AlertPipeline.v].  These call the rule engines and
    detectors and hand each match to [Detection.v], which isolates through the
    class of [Isolator.v].  A command that the gatekeeper publishes goes through
    [Commands.v] to the executor of [AgentIsolation.v], which is written against
    the class [IsolationManager] and, on Windows, runs [Wfp.v] over a host whose
    [netsh] satisfies [WindowsHost].  Its acknowledgement returns over [Transport.v]
    to [ResponseActions.v].

    ** What the theorems show

    - Spool and connection: every operation acts on the spool as on a FIFO queue;
      acknowledgements taken while cut off reach the server; a half-open stream is
      noticed; reconnecting is no storm as long as the backoff has numbers left.
    - Endpoint: over the documented behaviour of [netsh] and the registry, a release
      puts the rules and the default policy of a Windows host back as they were, the
      blocked ranges are the complement of the allow list, a command is acknowledged as done exactly
      when the rules were read back, a heartbeat reconciles the endpoint with the
      database, a quarantined file comes back, an update never loses the agent, the
      password of the tenant decides whether it may be removed.
    - Ingestion and delivery: a finding survives its encoding, a bad event costs
      only itself, the fields that rules name reach them under those names, every
      command that is relayed arrives.
    - TLS: no input makes a parser panic, and the fingerprint of every well-formed
      ClientHello is that of its fields.
    - Rules: a condition in which [and] and [or] are not mixed without parentheses
      means its expression; verdicts do not depend on the
      iteration order of maps; every built-in rule can fire; which events are
      reported under which rules, sequences, chains, cadences and indicators.
    - Alerts: what a match leads to on every branch; what the duplicate window,
      the threshold rules and the correlation windows forget is never missed; a
      merge of duplicates loses no alert; both servers read one event alike, but for
      names that two of its fields claim.
    - Containment: how many hosts the gatekeepers cut off in an hour, which rules an
      alert executes after any history of alerts, and that what was sent is what was
      recorded.
    - The past: what a pass of the retroactive hunters finds when nothing fails or is
      cut off, and that as the tables are filled the indicator hunter finds nothing.

    Beside these each file has theorems about what goes wrong where the code
    handles less than it promises: a byte counter that drifts, a backoff that
    overflows, a command whose [Send] failed, duplicates that pile up.

    ** Conventions and bounds

    Strings are bytes and case folding is ASCII ([GoStrings.v]).  [int] is
    unbounded where the code stays far from its limits and wraps where it is
    written with [wrap_u64] or [wrap_i64].  A [float64] of an event is its
    shortest decimal; where the code computes with floats, they are the doubles of
    [Binary64.v].  A Go map is a [gmap], or an association list whose order is
    the order of one iteration, so that a theorem about every list is one about
    every iteration order.  A critical section is one step; the clock reading is
    an argument; where the code holds no lock between two accesses there are two
    steps.  Logging and metrics are left out.

    Loops that are not structural run with fuel: the number of segments of the
    spool for making room; any number of rounds for draining it, and
    [drain_completes] says how many empty it; twice the number of tokens and two
    for the condition parser, which [condition_means_its_expression] shows to be
    enough; the length of the record and one for the extensions of a handshake,
    enough by [client_hello_fingerprint]; the length of the text for the
    replacement of wildcards, whose every turn consumes a byte; the number of
    stage fields and one for counting the stages of a kill chain; the number of
    entries for the ancestry of a process.  The supervisor and the loop that
    reconnects run for as many turns as they are given, and [crash_limit_exact]
    says when the first stops by itself.

    Code outside the repository is a parameter with what is relied on as
    hypotheses: AES-GCM, regular expressions, YAML and JSON codecs, the Sigma
    library, the Unicode tables, random draws, and what a database, a message bus,
    a file system or [netsh] answers.

    ** Not modelled

    SQL beyond the statements named above and the HTTP handlers: input, output and
    encoding around the modelled decisions.  The sensors of the operating systems
    (ETW, audit logs, drivers), killing processes, forensic collection and
    scanners: their effect is outside the code.  Notification, mail and feed
    clients, the command-line client, developer tools, process start-up and wiring,
    telemetry and metrics exporters, licence checks, and the user interface. *)

From Stdlib Require Import ZArith Lia.
From stdpp Require Export base gmap strings list fin_maps.
From stdpp Require Import options.

Declare Scope kz_scope.
Delimit Scope kz_scope with kz.
#[global] Open Scope Z_scope.
#[global] Open Scope kz_scope.

(** ** Time

    [time.Time] and [time.Duration] are nanosecond counts; [t.Before(u)] is
    [t < u], [t.After(u)] is [u < t], [t.Sub(u)] is [t - u]. *)
Abbreviation time := Z (only parsing).
Abbreviation duration := Z (only parsing).

Definition millisecond : duration := 1000000.
Definition second : duration := 1000 * millisecond.
Definition minute : duration := 60 * second.
Definition hour : duration := 60 * minute.

(** ** Machine integers

    [wrap_u64] and [wrap_i64] are the conversions Go applies to the result of
    unsigned and signed 64-bit arithmetic. *)
Definition wrap_u64 (z : Z) : Z := z mod 2 ^ 64.
Definition wrap_i64 (z : Z) : Z := (z + 2 ^ 63) mod 2 ^ 64 - 2 ^ 63.

Definition is_u64 (z : Z) : Prop := 0 <= z < 2 ^ 64.
Definition is_i64 (z : Z) : Prop := - 2 ^ 63 <= z < 2 ^ 63.

Lemma wrap_u64_id z : is_u64 z → wrap_u64 z = z.
Proof. unfold is_u64, wrap_u64. intros. by apply Z.mod_small. Qed.

Lemma wrap_i64_id z : is_i64 z → wrap_i64 z = z.
Proof. unfold is_i64, wrap_i64. intros. rewrite Z.mod_small; lia. Qed.

Lemma wrap_u64_range z : is_u64 (wrap_u64 z).
Proof. unfold is_u64, wrap_u64. apply Z.mod_pos_bound. lia. Qed.

(** ** Computations that may panic

    Go indexes and slices are checked: an index outside the slice is a run-time
    panic.  [go A] is the result of such a computation. *)
Inductive go (A : Type) : Type :=
| Ret (a : A)
| Panic.
Arguments Ret {A} a.
Arguments Panic {A}.

#[export] Instance go_ret : MRet go := @Ret.
#[export] Instance go_bind : MBind go := λ A B f m,
  match m with Ret a => f a | Panic => Panic end.

(** The computation returns (it does not panic). *)
Definition returns {A} (m : go A) : Prop := ∃ a, m = Ret a.

Lemma returns_ret {A} (a : A) : returns (Ret a).
Proof. by exists a. Qed.

Lemma returns_bind {A B} (m : go A) (f : A → go B) :
  returns m → (∀ a, m = Ret a → returns (f a)) → returns (m ≫= f).
Proof. intros [a ->] Hf. by apply Hf. Qed.

(** A checked index [b[i]] and a checked slice [b[i:j]] (whose capacity is its
    length). *)
Definition go_index {A} (b : list A) (i : Z) : go A :=
  if (i <? 0) then Panic else
  match b !! Z.to_nat i with Some x => Ret x | None => Panic end.

Definition go_slice {A} (b : list A) (i j : Z) : go (list A) :=
  if (0 <=? i) && (i <=? j) && (j <=? Z.of_nat (length b))
  then Ret (take (Z.to_nat (j - i)) (drop (Z.to_nat i) b))
  else Panic.

Definition zlen {A} (b : list A) : Z := Z.of_nat (length b).

Lemma zlen_nonneg {A} (b : list A) : 0 <= zlen b.
Proof. unfold zlen. lia. Qed.

Lemma zlen_app {A} (a b : list A) : zlen (a ++ b) = zlen a + zlen b.
Proof. unfold zlen. rewrite length_app. lia. Qed.

Lemma go_index_returns {A} (b : list A) i :
  0 <= i < zlen b → returns (go_index b i).
Proof.
  unfold zlen, go_index. intros Hi.
  destruct (Z.ltb_spec i 0); [lia|].
  destruct (b !! Z.to_nat i) eqn:E; [apply returns_ret|].
  apply lookup_ge_None in E. lia.
Qed.

Lemma go_slice_returns {A} (b : list A) i j :
  0 <= i → i <= j → j <= zlen b →
  go_slice b i j = Ret (take (Z.to_nat (j - i)) (drop (Z.to_nat i) b)).
Proof.
  unfold zlen, go_slice. intros.
  destruct (Z.leb_spec 0 i), (Z.leb_spec i j),
    (Z.leb_spec j (Z.of_nat (length b))); simpl; try lia; done.
Qed.

Lemma go_slice_length {A} (b s : list A) i j :
  go_slice b i j = Ret s → zlen s = j - i.
Proof.
  unfold zlen, go_slice. intros H.
  destruct (Z.leb_spec 0 i), (Z.leb_spec i j),
    (Z.leb_spec j (Z.of_nat (length b))); simpl in H; simplify_eq.
  rewrite length_take, length_drop. lia.
Qed.

(** Functions with an [error] result. *)
Inductive res (A : Type) : Type :=
| Ok (a : A)
| Err (e : string).
Arguments Ok {A} a.
Arguments Err {A} e.

#[export] Instance res_ret : MRet res := @Ok.
#[export] Instance res_bind : MBind res := λ A B f m,
  match m with Ok a => f a | Err e => Err e end.

Definition res_option {A} (r : res A) : option A :=
  match r with Ok a => Some a | Err _ => None end.

(** ** Sums over lists *)
Definition sum_Z (l : list Z) : Z := foldr Z.add 0 l.

Lemma sum_Z_app l1 l2 : sum_Z (l1 ++ l2) = sum_Z l1 + sum_Z l2.
Proof. induction l1; simpl; [done|]. unfold sum_Z in *. lia. Qed.

Lemma sum_Z_nonneg l : Forall (λ x, 0 <= x) l → 0 <= sum_Z l.
Proof. induction 1; simpl; [done|]. unfold sum_Z in *. lia. Qed.

(** ** Lists *)
Lemma omap_cons_eq {A B} (f : A → option B) (x : A) (l : list A) :
  omap f (x :: l) = match f x with Some y => y :: omap f l | None => omap f l end.
Proof. done. Qed.

Lemma omap_ext_in {A B} (f g : A → option B) (l : list A) :
  (∀ x, x ∈ l → f x = g x) → omap f l = omap g l.
Proof.
  induction l as [|x l IH]; intros H; [done|].
  assert (omap f l = omap g l) as Hl by (apply IH; set_solver).
  rewrite !omap_cons_eq, Hl, H by set_solver. done.
Qed.

Lemma filter_ext_in {A} (P Q : A → Prop) `{!∀ x, Decision (P x), !∀ x, Decision (Q x)} (l : list A) :
  (∀ x, x ∈ l → P x ↔ Q x) → filter P l = filter Q l.
Proof.
  induction l as [|x l IH]; intros Hl; [done|]. rewrite !filter_cons, IH by set_solver.
  pose proof (Hl x ltac:(by left)). repeat case_decide; tauto.
Qed.

Lemma filter_all {A} (P : A → Prop) `{!∀ x, Decision (P x)} l : Forall P l → filter P l = l.
Proof. induction 1; [done|]. rewrite filter_cons_True by done. by f_equal. Qed.
Lemma filter_none {A} (P : A → Prop) `{!∀ x, Decision (P x)} l : Forall (λ x, ¬ P x) l → filter P l = [].
Proof. induction 1; [done|]. by rewrite filter_cons_False. Qed.

Lemma take_app_len {A} (a b : list A) n : n = length a → take n (a ++ b) = a.
Proof. intros ->. by rewrite take_app_length. Qed.

Lemma drop_app_len {A} (a b : list A) n : n = length a → drop n (a ++ b) = b.
Proof. intros ->. by rewrite drop_app_length. Qed.

(** ** Automation *)
Create HintDb kz.
#[export] Hint Resolve zlen_nonneg returns_ret wrap_u64_range : kz.

(** Case analysis on the boolean comparisons of the goal and context. *)
Ltac case_cmp :=
  repeat match goal with
  | |- context [Z.ltb ?a ?b] => destruct (Z.ltb_spec a b)
  | |- context [Z.leb ?a ?b] => destruct (Z.leb_spec a b)
  | |- context [Z.eqb ?a ?b] => destruct (Z.eqb_spec a b)
  | H : context [Z.ltb ?a ?b] |- _ => destruct (Z.ltb_spec a b)
  | H : context [Z.leb ?a ?b] |- _ => destruct (Z.leb_spec a b)
  | H : context [Z.eqb ?a ?b] |- _ => destruct (Z.eqb_spec a b)
  end.

(** Destruct the innermost [match]/[if] scrutinees of the goal, keeping the
    equations. *)
Ltac case_goal :=
  repeat (case_match; simpl in *; simplify_eq).
