(* ===== verification/GoStrings.v ===== *)
(** * Strings of the Go standard library

    The functions of Go's [strings], [strconv] and [fmt] packages that the
    modelled code calls, on byte strings ([string] is a list of bytes).  The
    case mappings and the white-space test are the ASCII ones: the non-ASCII
    bytes of a UTF-8 sequence are left as they are, so the models agree with the
    code on ASCII text and do not fold the case of non-ASCII letters. *)

From Stdlib Require Import Ascii.
From S2P Require Import Prelude.

#[local] Open Scope string_scope.
#[local] Open Scope Z_scope.
#[local] Open Scope kz_scope.

#[global] Arguments String.append : simpl nomatch.

(** Byte [n], for the characters a string literal cannot write. *)
Definition chr (n : nat) : ascii := ascii_of_nat n.

(** The length of a Go string in bytes, [len(s)]. *)
Definition slen (s : string) : Z := Z.of_nat (String.length s).

(** ** Characters *)
Definition is_space (c : ascii) : bool :=
  let n := nat_of_ascii c in
  ((9 <=? n)%nat && (n <=? 13)%nat) || (n =? 32)%nat.

Definition lower_char (c : ascii) : ascii :=
  let n := nat_of_ascii c in
  if ((65 <=? n)%nat && (n <=? 90)%nat) then ascii_of_nat (n + 32) else c.

Definition upper_char (c : ascii) : ascii :=
  let n := nat_of_ascii c in
  if ((97 <=? n)%nat && (n <=? 122)%nat) then ascii_of_nat (n - 32) else c.

Definition is_digit (c : ascii) : bool :=
  let n := nat_of_ascii c in (48 <=? n)%nat && (n <=? 57)%nat.

Definition digit_value (c : ascii) : Z := Z.of_nat (nat_of_ascii c) - 48.

Fixpoint string_map (f : ascii → ascii) (s : string) : string :=
  match s with
  | EmptyString => EmptyString
  | String c s' => String (f c) (string_map f s')
  end.

(** ** Case: [strings.ToLower], [strings.ToUpper], [strings.EqualFold] *)
Definition to_lower (s : string) : string := string_map lower_char s.
Definition to_upper (s : string) : string := string_map upper_char s.
Definition equal_fold (s t : string) : bool := String.eqb (to_lower s) (to_lower t).

(** ** Search *)
Fixpoint has_prefix (s p : string) {struct p} : bool :=
  match p, s with
  | EmptyString, _ => true
  | String c p', String d s' => Ascii.eqb c d && has_prefix s' p'
  | String _ _, EmptyString => false
  end.

Fixpoint contains (s sub : string) : bool :=
  has_prefix s sub ||
  match s with EmptyString => false | String _ s' => contains s' sub end.

Fixpoint sdrop (n : nat) (s : string) {struct n} : string :=
  match n, s with
  | O, _ => s
  | S n', String _ s' => sdrop n' s'
  | S _, EmptyString => EmptyString
  end.

Fixpoint stake (n : nat) (s : string) {struct n} : string :=
  match n, s with
  | O, _ => EmptyString
  | S n', String c s' => String c (stake n' s')
  | S _, EmptyString => EmptyString
  end.

Definition has_suffix (s p : string) : bool :=
  (String.length p <=? String.length s)%nat &&
  String.eqb (sdrop (String.length s - String.length p) s) p.

Definition trim_prefix (s p : string) : string :=
  if has_prefix s p then sdrop (String.length p) s else s.

Definition trim_suffix (s p : string) : string :=
  if has_suffix s p then stake (String.length s - String.length p) s else s.

(** Does some character of [s] satisfy [f] ([strings.ContainsAny])? *)
Fixpoint contains_char (f : ascii → bool) (s : string) : bool :=
  match s with
  | EmptyString => false
  | String c s' => f c || contains_char f s'
  end.

(** ** White space: [strings.TrimSpace], [strings.Fields] *)
Fixpoint trim_left (s : string) : string :=
  match s with
  | String c s' => if is_space c then trim_left s' else s
  | EmptyString => EmptyString
  end.

Fixpoint trim_right (s : string) : string :=
  match s with
  | EmptyString => EmptyString
  | String c s' =>
      match trim_right s' with
      | EmptyString => if is_space c then EmptyString else String c EmptyString
      | r => String c r
      end
  end.

Definition trim_space (s : string) : string := trim_right (trim_left s).

Definition snoc (s : string) (c : ascii) : string := s +:+ String c EmptyString.

Fixpoint fields_go (s cur : string) : list string :=
  let flush rest := if String.eqb cur "" then rest else cur :: rest in
  match s with
  | EmptyString => flush []
  | String c s' =>
      if is_space c then flush (fields_go s' EmptyString) else fields_go s' (snoc cur c)
  end.
Definition fields (s : string) : list string := fields_go s EmptyString.

(** ** Splitting and joining *)
Fixpoint split_go (sep : ascii) (s cur : string) : list string :=
  match s with
  | EmptyString => [cur]
  | String c s' =>
      if Ascii.eqb c sep then cur :: split_go sep s' EmptyString
      else split_go sep s' (snoc cur c)
  end.
(** [strings.Split(s, sep)] for a one-character separator. *)
Definition split_on (sep : ascii) (s : string) : list string := split_go sep s EmptyString.

(** [strings.Cut(s, sep)]: the text before and after the first separator. *)
Fixpoint cut_go (sep : ascii) (s cur : string) : option (string * string) :=
  match s with
  | EmptyString => None
  | String c s' =>
      if Ascii.eqb c sep then Some (cur, s') else cut_go sep s' (snoc cur c)
  end.
Definition cut (sep : ascii) (s : string) : option (string * string) :=
  cut_go sep s EmptyString.

(** The text after the last character satisfying [f], all of [s] when none does
    ([s[strings.LastIndexAny(s, …)+1:]]). *)
Fixpoint after_last (f : ascii → bool) (s : string) : string :=
  match s with
  | EmptyString => EmptyString
  | String c s' =>
      if contains_char f s' then after_last f s'
      else if f c then s' else s
  end.

Fixpoint join (sep : string) (l : list string) : string :=
  match l with
  | [] => ""
  | [s] => s
  | s :: l' => s +:+ sep +:+ join sep l'
  end.

(** ** Decimal numbers: [strconv.Itoa], [%d], [%020d], [Sscanf("%d")] *)
Fixpoint digits_go (fuel : nat) (n : Z) (acc : string) : string :=
  match fuel with
  | O => acc
  | S f =>
      let acc' := String (ascii_of_nat (Z.to_nat (48 + n mod 10))) acc in
      if n <? 10 then acc' else digits_go f (n / 10) acc'
  end.
Definition itoa (n : Z) : string :=
  if n <? 0 then String "-" (digits_go (S (Z.to_nat (Z.log2 (- n)))) (- n) "")
  else digits_go (S (Z.to_nat (Z.log2 n))) n "".

Fixpoint repeat_char (c : ascii) (n : nat) : string :=
  match n with O => EmptyString | S n' => String c (repeat_char c n') end.

Definition pad0 (w : nat) (s : string) : string :=
  repeat_char "0" (w - String.length s) +:+ s.

(** The longest digit prefix, read as a number onto [acc]. *)
Fixpoint scan_digits (s : string) (acc : Z) : Z * string :=
  match s with
  | String c s' => if is_digit c then scan_digits s' (10 * acc + digit_value c) else (acc, s)
  | EmptyString => (acc, EmptyString)
  end.

(** An unsigned decimal at the head of [s]: at least one digit, and the value
    fits 64 bits. *)
Definition scan_u64 (s : string) : option (Z * string) :=
  match trim_left s with
  | String c s' =>
      if is_digit c then
        let '(n, rest) := scan_digits (String c s') 0 in
        if n <? 2 ^ 64 then Some (n, rest) else None
      else None
  | EmptyString => None
  end.

(** ** [time.Duration.String] *)

(** [fmtFrac]: the decimal fraction of [v] / 10^[prec] without trailing zeros,
    in front of [acc], and the integer part. *)
Fixpoint fmt_frac (prec : nat) (v : Z) (shown : bool) (acc : string) : Z * string :=
  match prec with
  | O => (v, if shown then String "." acc else acc)
  | S p =>
      let digit := v mod 10 in
      let shown := shown || negb (digit =? 0) in
      fmt_frac p (v / 10) shown
        (if shown then String (ascii_of_nat (Z.to_nat (48 + digit))) acc else acc)
  end.

Definition micro_sign : string := String (chr 194) (String (chr 181) EmptyString).

Definition duration_string (d : duration) : string :=
  let u := Z.abs d in
  let body :=
    if d =? 0 then "0s"
    else if u <? second then
      if u <? 1000 then itoa u +:+ "ns"
      else if u <? millisecond then
        let '(v, f) := fmt_frac 3 u false "" in itoa v +:+ f +:+ micro_sign +:+ "s"
      else let '(v, f) := fmt_frac 6 u false "" in itoa v +:+ f +:+ "ms"
    else
      let '(s, f) := fmt_frac 9 u false "s" in
      let m := s / 60 in
      let h := m / 60 in
      (if 0 <? h then itoa h +:+ "h" else "") +:+
      (if 0 <? m then itoa (m mod 60) +:+ "m" else "") +:+
      itoa (s mod 60) +:+ f
  in if d <? 0 then String "-" body else body.

Example duration_string_examples :
  duration_string (30 * minute) = "30m0s" /\ duration_string hour = "1h0m0s" /\
  duration_string 1500000000 = "1.5s" /\ duration_string 2500000 = "2.5ms".
Proof. by vm_compute. Qed.

(** ** [time.ParseDuration]

    A sign and a sequence of decimals with units; the fraction of a unit is
    truncated to nanoseconds. *)
Fixpoint scan_unit (s : string) : string * string :=
  match s with
  | String c s' =>
      if is_digit c || Ascii.eqb c "." then (EmptyString, s)
      else let '(u, r) := scan_unit s' in (String c u, r)
  | EmptyString => (EmptyString, EmptyString)
  end.

Definition unit_of (u : string) : option duration :=
  if String.eqb u "ns" then Some 1
  else if String.eqb u "us" || String.eqb u (micro_sign +:+ "s")
          || String.eqb u (String (chr 206) (String (chr 188) "s")) then Some 1000
  else if String.eqb u "ms" then Some millisecond
  else if String.eqb u "s" then Some second
  else if String.eqb u "m" then Some minute
  else if String.eqb u "h" then Some hour
  else None.

Fixpoint parse_duration_go (fuel : nat) (s : string) (d : Z) : option Z :=
  match s, fuel with
  | EmptyString, _ => Some d
  | _, O => None
  | _, S fuel =>
      let '(v, s1) := scan_digits s 0 in
      let pre := negb (slen s1 =? slen s) in
      let '(f, k, s2) :=
        match s1 with
        | String c s1' =>
            if Ascii.eqb c "." then
              let '(f, r) := scan_digits s1' 0 in (f, slen s1' - slen r, r)
            else (0, 0, s1)
        | EmptyString => (0, 0, s1)
        end in
      if negb pre && (k =? 0) then None else
      let '(u, s3) := scan_unit s2 in
      if String.eqb u "" then None else
      match unit_of u with
      | None => None
      | Some unit =>
          let d' := d + (v * unit + f * unit / 10 ^ k) in
          if 2 ^ 63 <? d' then None else parse_duration_go fuel s3 d'
      end
  end.

Definition parse_duration (s : string) : option duration :=
  let '(neg, s1) :=
    match s with
    | String c s' => if Ascii.eqb c "-" then (true, s') else
                     if Ascii.eqb c "+" then (false, s') else (false, s)
    | EmptyString => (false, s)
    end in
  if String.eqb s1 "0" then Some 0 else
  if String.eqb s1 "" then None else
  match parse_duration_go (String.length s1) s1 0 with
  | None => None
  | Some d =>
      if neg : bool then Some (- d) else if 2 ^ 63 - 1 <? d then None else Some d
  end.

Example parse_duration_examples :
  parse_duration "60s" = Some minute /\ parse_duration "1h30m" = Some (90 * minute) /\
  parse_duration "1.5s" = Some 1500000000 /\ parse_duration "5x" = None /\
  parse_duration "-5m" = Some (- (5 * minute)) /\ parse_duration "5 m" = None.
Proof. by vm_compute. Qed.

(** ** Lemmas *)
Lemma append_nil_r s : s +:+ "" = s.
Proof. induction s; simpl; congruence. Qed.

Lemma append_assoc a b c : a +:+ (b +:+ c) = (a +:+ b) +:+ c.
Proof. induction a; simpl; congruence. Qed.

Lemma append_length a b :
  String.length (a +:+ b) = (String.length a + String.length b)%nat.
Proof. induction a; simpl; congruence. Qed.

Lemma has_prefix_spec s p : has_prefix s p = true ↔ ∃ t, s = p +:+ t.
Proof.
  revert s. induction p as [|c p IH]; intros s.
  - split; [intros _; by exists s | done].
  - destruct s as [|d s]; simpl.
    + split; [discriminate | intros [t Ht]; discriminate].
    + rewrite andb_true_iff, Ascii.eqb_eq, IH. split.
      * intros [-> [t ->]]. by exists t.
      * intros [t Ht]. injection Ht as -> ->. split; [done|]. by exists t.
Qed.

Lemma has_prefix_app p t : has_prefix (p +:+ t) p = true.
Proof. apply has_prefix_spec. by exists t. Qed.

Lemma contains_spec s sub : contains s sub = true ↔ ∃ a b, s = a +:+ sub +:+ b.
Proof.
  induction s as [|c s IH]; simpl.
  - rewrite orb_false_r, has_prefix_spec. split.
    + intros [t Ht]. by exists "", t.
    + intros (a & b & H). destruct a; [|done]. exists b. done.
  - rewrite orb_true_iff, has_prefix_spec, IH. split.
    + intros [[t Ht]|(a & b & ->)].
      * by exists "", t.
      * by exists (String c a), b.
    + intros (a & b & H). destruct a as [|c' a].
      * left. by exists b.
      * right. injection H as -> ->. by exists a, b.
Qed.

Lemma contains_app_l s a b : contains s b = true → contains (a +:+ s) b = true.
Proof.
  rewrite !contains_spec. intros (x & y & ->). exists (a +:+ x), y.
  by rewrite append_assoc.
Qed.

Lemma contains_app_r s a b : contains s b = true → contains (s +:+ a) b = true.
Proof.
  rewrite !contains_spec. intros (x & y & ->). exists x, (y +:+ a).
  by rewrite <- !append_assoc.
Qed.

Lemma contains_empty s : contains s "" = true.
Proof. destruct s; done. Qed.

Lemma sdrop_append a b : sdrop (String.length a) (a +:+ b) = b.
Proof. induction a; done. Qed.

Lemma stake_append a b : stake (String.length a) (a +:+ b) = a.
Proof. induction a; simpl; [by destruct b | congruence]. Qed.

Lemma stake_sdrop n s : stake n s +:+ sdrop n s = s.
Proof.
  revert s. induction n; intros [|c s]; simpl; try done. by rewrite IHn.
Qed.

Lemma has_suffix_spec s p : has_suffix s p = true ↔ ∃ t, s = t +:+ p.
Proof.
  unfold has_suffix. rewrite andb_true_iff, Nat.leb_le, String.eqb_eq. split.
  - intros [_ H]. exists (stake (String.length s - String.length p) s).
    rewrite <- (stake_sdrop (String.length s - String.length p) s) at 1.
    by rewrite H.
  - intros [t ->]. rewrite append_length. split; [lia|].
    replace (String.length t + String.length p - String.length p)%nat
      with (String.length t) by lia.
    apply sdrop_append.
Qed.

Lemma to_lower_append a b : to_lower (a +:+ b) = to_lower a +:+ to_lower b.
Proof. unfold to_lower. induction a; simpl; congruence. Qed.

Lemma lower_char_idem c : lower_char (lower_char c) = lower_char c.
Proof. destruct c as [[] [] [] [] [] [] [] []]; reflexivity. Qed.

Lemma to_lower_idem s : to_lower (to_lower s) = to_lower s.
Proof. unfold to_lower. induction s; simpl; [done|]. rewrite lower_char_idem. congruence. Qed.

Lemma to_lower_length s : String.length (to_lower s) = String.length s.
Proof. unfold to_lower. induction s; simpl; congruence. Qed.

Lemma to_lower_empty s : to_lower s = "" → s = "".
Proof. by destruct s. Qed.

(** Blanks. *)
Abbreviation has_space := (contains_char is_space) (only parsing).

Lemma trim_right_id s : has_space s = false → trim_right s = s.
Proof.
  induction s as [|c s IH]; [done|]. cbn [contains_char]. intros [Hc Hs]%orb_false_iff.
  cbn [trim_right]. rewrite IH by done. rewrite Hc. by destruct s.
Qed.

Lemma trim_space_id s : has_space s = false → trim_space s = s.
Proof.
  intros H. unfold trim_space. replace (trim_left s) with s; [by apply trim_right_id|].
  destruct s as [|c s]; [done|]. cbn [contains_char] in H. apply orb_false_iff in H as [Hc _].
  cbn [trim_left]. by rewrite Hc.
Qed.

Lemma lower_space c : is_space (lower_char c) = is_space c.
Proof. by destruct c as [[] [] [] [] [] [] [] []]; vm_compute. Qed.

Lemma trim_left_lower s : trim_left (to_lower s) = to_lower (trim_left s).
Proof.
  induction s as [|c s IH]; [done|]. change (to_lower (String c s)) with (String (lower_char c) (to_lower s)).
  cbn [trim_left]. rewrite lower_space. by destruct (is_space c).
Qed.

Lemma trim_right_lower s : trim_right (to_lower s) = to_lower (trim_right s).
Proof.
  induction s as [|c s IH]; [done|]. change (to_lower (String c s)) with (String (lower_char c) (to_lower s)).
  cbn [trim_right]. rewrite IH, lower_space. destruct (trim_right s); simpl; [|done]. by destruct (is_space c).
Qed.

Lemma trim_lower s : trim_space (to_lower s) = to_lower (trim_space s).
Proof. unfold trim_space. by rewrite trim_left_lower, trim_right_lower. Qed.

Lemma equal_fold_refl s : equal_fold s s = true.
Proof. apply String.eqb_refl. Qed.

Lemma equal_fold_sym s t : equal_fold s t = equal_fold t s.
Proof. apply String.eqb_sym. Qed.

Lemma equal_fold_spec s t : equal_fold s t = true ↔ to_lower s = to_lower t.
Proof. apply String.eqb_eq. Qed.

(** *** Decimal numbers *)
Lemma digit_char d : 0 <= d < 10 →
  is_digit (ascii_of_nat (Z.to_nat (48 + d))) = true ∧
  digit_value (ascii_of_nat (Z.to_nat (48 + d))) = d.
Proof.
  intros Hd. unfold is_digit, digit_value.
  rewrite nat_ascii_embedding by lia. split; [|lia].
  apply andb_true_iff. rewrite !Nat.leb_le. lia.
Qed.

Lemma scan_digits_go fuel n acc k :
  0 <= n → 0 <= Z.of_nat fuel → n < 10 ^ Z.of_nat fuel →
  (0 < fuel)%nat →
  scan_digits (digits_go fuel n acc) 0 = k ↔ scan_digits acc n = k.
Proof.
  revert n acc. induction fuel as [|f IH]; intros n acc Hn _ Hlt Hf; [lia|].
  cbn [digits_go].
  destruct (digit_char (n mod 10)) as [Hd Hv]; [apply Z.mod_pos_bound; lia|].
  destruct (Z.ltb_spec n 10) as [Hs|Hs].
  - cbn [scan_digits]. rewrite Hd, Hv, Z.mod_small by lia.
    by replace (10 * 0 + n) with n by lia.
  - assert (n / 10 < 10 ^ Z.of_nat f) as Hq.
    { apply Z.div_lt_upper_bound; [lia|].
      rewrite Nat2Z.inj_succ, Z.pow_succ_r in Hlt by lia. lia. }
    assert (0 < f)%nat.
    { destruct f; [|lia]. simpl in Hq. pose proof (Z.div_le_lower_bound n 10 1). lia. }
    rewrite IH by (try lia; apply Z.div_pos; lia).
    cbn [scan_digits]. rewrite Hd, Hv.
    replace (10 * (n / 10) + n mod 10) with n; [done|].
    pose proof (Z.div_mod n 10). lia.
Qed.

Lemma digits_fuel n : 0 <= n →
  n < 10 ^ Z.of_nat (S (Z.to_nat (Z.log2 n))).
Proof.
  intros Hn. rewrite Nat2Z.inj_succ, Z2Nat.id by apply Z.log2_nonneg.
  destruct (Z.eq_dec n 0) as [->|]; [simpl; lia|].
  pose proof (Z.log2_spec n ltac:(lia)) as [_ H].
  eapply Z.lt_le_trans; [exact H|].
  apply Z.pow_le_mono_l. lia.
Qed.

(** [strconv.Itoa] and then scanning gives the number back, whatever follows it,
    when what follows does not start with a digit. *)
Definition starts_with_digit (s : string) : bool :=
  match s with String c _ => is_digit c | EmptyString => false end.

Lemma digits_go_append fuel n acc rest :
  digits_go fuel n acc +:+ rest = digits_go fuel n (acc +:+ rest).
Proof.
  revert n acc. induction fuel; intros n acc; simpl; [done|].
  destruct (n <? 10); [done|]. by rewrite IHfuel.
Qed.

Lemma scan_itoa n rest : 0 <= n → starts_with_digit rest = false →
  scan_digits (itoa n +:+ rest) 0 = (n, rest).
Proof.
  intros Hn Hr. unfold itoa. destruct (Z.ltb_spec n 0); [lia|].
  rewrite digits_go_append.
  apply scan_digits_go; [lia|lia|by apply digits_fuel|lia|].
  simpl. destruct rest as [|c r]; simpl in *; [done|]. by rewrite Hr.
Qed.

Lemma scan_pad0 w s acc : acc = 0 →
  scan_digits (pad0 w s) acc = scan_digits s 0.
Proof.
  intros ->. unfold pad0.
  induction (w - String.length s)%nat as [|k IH]; simpl; [done|]. apply IH.
Qed.

(** Splitting undoes joining when no part has the separator. *)
Lemma split_go_sep sep l rest cur : contains_char (Ascii.eqb sep) l = false →
  split_go sep (l +:+ String sep rest) cur = (cur +:+ l) :: split_go sep rest "".
Proof.
  revert cur. induction l as [|c l IH]; intros cur H.
  - rewrite append_nil_r. simpl. by rewrite Ascii.eqb_refl.
  - cbn [contains_char] in H. apply orb_false_iff in H as [Hc Hl].
    cbn [String.append split_go]. rewrite Ascii.eqb_sym, Hc, IH by done.
    unfold snoc. by rewrite <- append_assoc.
Qed.

Lemma split_go_last sep l cur : contains_char (Ascii.eqb sep) l = false →
  split_go sep l cur = [cur +:+ l].
Proof.
  revert cur. induction l as [|c l IH]; intros cur H; [by rewrite append_nil_r|].
  cbn [contains_char] in H. apply orb_false_iff in H as [Hc Hl].
  cbn [split_go]. rewrite Ascii.eqb_sym, Hc, IH by done. unfold snoc. by rewrite <- append_assoc.
Qed.

Lemma split_join sep ls : ls ≠ [] → Forall (λ l, contains_char (Ascii.eqb sep) l = false) ls →
  split_on sep (join (String sep "") ls) = ls.
Proof.
  unfold split_on. intros Hne Hls. induction Hls as [|l ls Hl Hls IH]; [done|].
  destruct ls as [|l' ls]; [cbn [join]; by rewrite split_go_last|].
  change (join (String sep "") (l :: l' :: ls)) with (l +:+ String sep (join (String sep "") (l' :: ls))).
  rewrite split_go_sep by done. by rewrite IH.
Qed.

Lemma contains_char_append f a b :
  contains_char f (a +:+ b) = contains_char f a || contains_char f b.
Proof. induction a as [|c a IH]; [done|]. simpl. by rewrite IH, orb_assoc. Qed.

Lemma cut_go_clean sep a rest cur : contains_char (Ascii.eqb sep) a = false →
  cut_go sep (a +:+ String sep rest) cur = Some (cur +:+ a, rest).
Proof.
  revert cur. induction a as [|c a IH]; intros cur Ha; cbn [String.append cut_go].
  - by rewrite append_nil_r, Ascii.eqb_refl.
  - cbn [contains_char] in Ha. apply orb_false_iff in Ha as [Hc Ha].
    rewrite Ascii.eqb_sym, Hc, IH by done. unfold snoc. by rewrite <-append_assoc.
Qed.

Lemma cut_clean sep a rest : contains_char (Ascii.eqb sep) a = false →
  cut sep (a +:+ String sep rest) = Some (a, rest).
Proof. intros Ha. unfold cut. by rewrite cut_go_clean. Qed.

(** ** Texts joined with a NUL *)
Definition nul_char : ascii := ascii_of_nat 0.
Definition no_nul (s : string) : bool := negb (contains_char (Ascii.eqb nul_char) s).

Lemma split_at_nul a b x y : no_nul a = true → no_nul b = true →
  a +:+ String nul_char x = b +:+ String nul_char y → a = b ∧ x = y.
Proof.
  unfold no_nul. revert b. induction a as [|c a IH]; intros [|d b] Ha Hb E.
  - by injection E as ->.
  - injection E as <- _. done.
  - injection E as -> _. done.
  - cbn [contains_char] in Ha, Hb. rewrite negb_orb in Ha, Hb.
    apply andb_true_iff in Ha as [_ Ha], Hb as [_ Hb]. injection E as -> E.
    by destruct (IH b Ha Hb E) as [-> ->].
Qed.
