(* ===== verification/Event.v ===== *)
(** * Flattened events

    The [map[string]interface{}] values the detection code works on, and the
    parts of [fmt] and [strconv] it applies to them.  A Go map is a list of
    entries with distinct keys; the order of the list is the order in which one
    [range] loop visits it, so a theorem about any list is a theorem about any
    iteration order.

    A [float64] is represented by its shortest decimal, [m] times ten to the
    [e] with [m] not a multiple of ten: distinct finite values have distinct
    shortest decimals and are ordered like them.  NaN and the infinities, which
    JSON cannot carry, are left out.

    At the end, the platform gate that both rule engines share. *)

From Stdlib Require Import Ascii Mergesort.
From S2P Require Import Prelude GoStrings.

#[local] Open Scope string_scope.
#[local] Open Scope list_scope.
#[local] Open Scope Z_scope.

(** ** Values *)
Inductive value :=
| VNil
| VBool (b : bool)
| VInt (z : Z)
| VFloat (m e : Z)
| VStr (s : string)
| VList (l : list value)
| VMap (l : list (string * value)).

Abbreviation gomap A := (list (string * A)) (only parsing).
Abbreviation event := (list (string * value)) (only parsing).

(** [m[k]] with the [ok] result. *)
Fixpoint get {A} (m : list (string * A)) (k : string) : option A :=
  match m with
  | [] => None
  | (k', v) :: m' => if String.eqb k' k then Some v else get m' k
  end.

(** The first entry whose key is [k] up to case. *)
Fixpoint get_fold {A} (m : list (string * A)) (k : string) : option A :=
  match m with
  | [] => None
  | (k', v) :: m' => if String.eqb (to_lower k') (to_lower k) then Some v else get_fold m' k
  end.

(** A key occurs once. *)
Definition keys {A} (m : list (string * A)) : list string := m.*1.

(** [s, _ := m[k].(string)]. *)
Definition get_str (m : event) (k : string) : option string :=
  match get m k with Some (VStr s) => Some s | _ => None end.
Definition str_or_empty (m : event) (k : string) : string :=
  match get_str m k with Some s => s | None => "" end.

(** ** Floating-point numbers as decimals *)
Definition exponent_text (x : Z) : string :=
  (if x <? 0 then "-" else "+") +:+ pad0 2 (itoa (Z.abs x)).

Definition zeros (n : Z) : string := repeat_char (chr 48) (Z.to_nat n).

(** [strconv.FormatFloat(f, 'g', -1, 64)]: scientific notation from 10^6 up and
    below 10^-4. *)
Definition format_float (m e : Z) : string :=
  if m =? 0 then "0" else
  let d := itoa (Z.abs m) in
  let nd := slen d in
  let dp := nd + e in
  let x := dp - 1 in
  let body :=
    if (x <? -4) || (6 <=? x) then
      stake 1 d +:+ (if 1 <? nd then "." +:+ sdrop 1 d else "") +:+ "e" +:+ exponent_text x
    else if dp <=? 0 then "0." +:+ zeros (- dp) +:+ d
    else if nd <=? dp then d +:+ zeros (dp - nd)
    else stake (Z.to_nat dp) d +:+ "." +:+ sdrop (Z.to_nat dp) d in
  (if m <? 0 then "-" else "") +:+ body.

Example format_float_examples :
  format_float 15 (-1) = "1.5" ∧ format_float 1 6 = "1e+06" ∧
  format_float 123456 0 = "123456" ∧ format_float 1234567 0 = "1.234567e+06" ∧
  format_float (-25) (-3) = "-0.025" ∧ format_float 1 2 = "100".
Proof. by vm_compute. Qed.

(** Comparison of decimals. *)
Definition dec_scale (e lo : Z) (m : Z) : Z := m * 10 ^ (e - lo).
Definition dec_ltb (a b : Z * Z) : bool :=
  let lo := Z.min a.2 b.2 in dec_scale a.2 lo a.1 <? dec_scale b.2 lo b.1.
Definition dec_leb (a b : Z * Z) : bool :=
  let lo := Z.min a.2 b.2 in dec_scale a.2 lo a.1 <=? dec_scale b.2 lo b.1.

(** [strconv.ParseFloat] on decimal syntax: sign, digits, fraction, exponent. *)
Definition scan_sign (s : string) : bool * string :=
  match s with
  | String c s' => if Ascii.eqb c "-" then (true, s') else
                   if Ascii.eqb c "+" then (false, s') else (false, s)
  | EmptyString => (false, s)
  end.

Definition parse_exponent (s : string) : option Z :=
  match s with
  | EmptyString => Some 0
  | String c s' =>
      if Ascii.eqb (lower_char c) "e" then
        let '(neg, s') := scan_sign s' in
        if starts_with_digit s' then
          let '(x, rest) := scan_digits s' 0 in
          if String.eqb rest "" then Some (if neg : bool then - x else x) else None
        else None
      else None
  end.

Definition parse_float (s : string) : option (Z * Z) :=
  let '(neg, s1) := scan_sign s in
  let '(n, s2) := scan_digits s1 0 in
  let int_digits := slen s1 - slen s2 in
  let '(n, frac_digits, s3) :=
    match s2 with
    | String c s2' =>
        if Ascii.eqb c "." then let '(n', r) := scan_digits s2' n in (n', slen s2' - slen r, r)
        else (n, 0, s2)
    | EmptyString => (n, 0, s2)
    end in
  if int_digits + frac_digits =? 0 then None else
  match parse_exponent s3 with
  | Some x => Some (if neg : bool then - n else n, x - frac_digits)
  | None => None
  end.

(** [strconv.Atoi]. *)
Definition atoi (s : string) : option Z :=
  let '(neg, s1) := scan_sign s in
  if starts_with_digit s1 then
    let '(n, rest) := scan_digits s1 0 in
    let n := if neg : bool then - n else n in
    if String.eqb rest "" && (- 2 ^ 63 <=? n) && (n <? 2 ^ 63) then Some n else None
  else None.

(** ** [fmt.Sprintf("%v", v)] *)
Fixpoint insert_by {A} (x : string * A) (l : list (string * A)) : list (string * A) :=
  match l with
  | [] => [x]
  | y :: l' => if String.leb x.1 y.1 then x :: l else y :: insert_by x l'
  end.
Definition sort_keys {A} (l : list (string * A)) : list (string * A) := foldr insert_by [] l.

Fixpoint sprint (v : value) : string :=
  match v with
  | VNil => "<nil>"
  | VBool b => if b then "true" else "false"
  | VInt z => itoa z
  | VFloat m e => format_float m e
  | VStr s => s
  | VList l => "[" +:+ join " " (map sprint l) +:+ "]"
  | VMap l =>
      "map[" +:+
      join " " ((λ p : string * string, p.1 +:+ ":" +:+ p.2)
                  <$> sort_keys (map (λ p, (p.1, sprint p.2)) l)) +:+ "]"
  end.

Example sprint_example :
  sprint (VMap [("b", VList [VInt 1; VNil]); ("a", VStr "x")]) = "map[a:x b:[1 <nil>]]".
Proof. by vm_compute. Qed.

(** ** Order of iteration *)
Lemma get_Some_elem {A} (m : list (string * A)) k v : get m k = Some v → (k, v) ∈ m.
Proof.
  induction m as [|[k' v'] m IH]; simpl; [done|].
  destruct (String.eqb_spec k' k) as [->|]; [intros [= ->]; set_solver|].
  intros H. apply IH in H. set_solver.
Qed.

Lemma get_None_keys {A} (m : list (string * A)) k : get m k = None ↔ k ∉ keys m.
Proof.
  unfold keys. induction m as [|[k' v'] m IH]; simpl; [set_solver|].
  destruct (String.eqb_spec k' k) as [->|]; [set_solver|].
  rewrite IH. set_solver.
Qed.

Lemma elem_get {A} (m : list (string * A)) k v :
  NoDup (keys m) → (k, v) ∈ m → get m k = Some v.
Proof.
  unfold keys. induction m as [|[k' v'] m IH]; simpl; intros Hnd Hin; [set_solver|].
  apply NoDup_cons in Hnd as [Hk Hnd]. apply elem_of_cons in Hin as [[= -> ->]|Hin].
  - by rewrite String.eqb_refl.
  - destruct (String.eqb_spec k' k) as [->|]; [|by apply IH].
    destruct Hk. apply list_elem_of_fmap. by exists (k, v).
Qed.

(** Lookup does not depend on the order of the entries. *)
Lemma get_perm {A} (m m' : list (string * A)) k :
  NoDup (keys m) → m ≡ₚ m' → get m k = get m' k.
Proof.
  intros Hnd Hp. assert (NoDup (keys m')) as Hnd'.
  { unfold keys in *. by rewrite <- Hp. }
  destruct (get m k) as [v|] eqn:E.
  - symmetry. apply elem_get; [done|]. rewrite <- Hp. by apply get_Some_elem.
  - symmetry. apply get_None_keys. unfold keys. rewrite <- Hp. by apply get_None_keys in E.
Qed.

(** The same for lookup up to case, when no two keys differ by case only. *)
Lemma get_fold_get {A} (m : list (string * A)) k :
  get_fold m k = get ((λ p, (to_lower p.1, p.2)) <$> m) (to_lower k).
Proof. induction m as [|[k' v] m IH]; simpl; [done|]. by rewrite IH. Qed.

Definition fold_distinct {A} (m : list (string * A)) : Prop := NoDup (to_lower <$> keys m).

Lemma fold_distinct_keys {A} (m : list (string * A)) : fold_distinct m → NoDup (keys m).
Proof. apply NoDup_fmap_1. Qed.

Lemma get_fold_perm {A} (m m' : list (string * A)) k :
  fold_distinct m → m ≡ₚ m' → get_fold m k = get_fold m' k.
Proof.
  intros Hd Hp. rewrite !get_fold_get. apply get_perm; [|by rewrite Hp].
  replace (keys _) with (to_lower <$> keys m); [exact Hd|].
  unfold keys. clear. induction m as [|[q v] m IH]; [done|]. simpl. f_equal. exact IH.
Qed.

Lemma existsb_perm {A} (f : A → bool) (l l' : list A) : l ≡ₚ l' → existsb f l = existsb f l'.
Proof.
  induction 1; simpl; [done|by f_equal|by rewrite !orb_assoc, (orb_comm (f y))|congruence].
Qed.

Lemma forallb_perm {A} (f : A → bool) (l l' : list A) : l ≡ₚ l' → forallb f l = forallb f l'.
Proof.
  induction 1; simpl; [done|by f_equal|by rewrite !andb_assoc, (andb_comm (f y))|congruence].
Qed.

(** ** The platform gate *)
(** [canonPlatform] and [platformMatchesEvent] of
    [server/internal/detection/rules/rule_engine.go], shared by both rule engines. *)
Definition canonPlatform (p : string) : string :=
  let s := to_lower (trim_space p) in
  if String.eqb s "linux" then "linux"
  else if String.eqb s "windows" || String.eqb s "win" then "windows"
  else if String.eqb s "macos" || String.eqb s "darwin" || String.eqb s "osx"
          || String.eqb s "macosx" || String.eqb s "mac" then "macos"
  else "".

Definition platformMatchesEvent (rulePlatforms : list string) (eventPlatform : string) : bool :=
  if (length rulePlatforms =? 0)%nat then true else
  let ep := canonPlatform eventPlatform in
  if String.eqb ep "" then true else
  existsb (λ rp, String.eqb (canonPlatform rp) ep) rulePlatforms.

Lemma canonPlatform_idem p : canonPlatform (canonPlatform p) = canonPlatform p.
Proof. unfold canonPlatform. repeat case_match; done. Qed.

(** The gate only removes a rule whose labels all name another recognized
    system. *)
Lemma platform_gated rps ep : platformMatchesEvent rps ep = false ↔
  rps ≠ [] ∧ canonPlatform ep ≠ "" ∧ ∀ rp, rp ∈ rps → canonPlatform rp ≠ canonPlatform ep.
Proof.
  unfold platformMatchesEvent. destruct rps as [|rp rps]; [naive_solver|]. cbn [length Nat.eqb].
  destruct (String.eqb_spec (canonPlatform ep) "") as [->|Hne]; [naive_solver|].
  rewrite <- not_true_iff_false, existsb_exists. split.
  - intros H. split_and!; [done..|]. intros q Hq E. apply H. exists q.
    rewrite E, String.eqb_refl. split; [|done]. by apply list_elem_of_In.
  - intros (_ & _ & H) (q & Hq & E). apply String.eqb_eq in E. apply (H q); [|done].
    by apply list_elem_of_In.
Qed.
