(* ===== verification/Base64.v ===== *)
(** * Encodings: Base64, UTF-8 and UTF-16

    [encoding/base64.StdEncoding] and [base64Offsets] of
    [server/internal/detection/sigma_evaluator.go], with the theorem that makes
    the transform useful: an encoded payload is found whatever its alignment.  The
    parts of [unicode/utf8], [unicode/utf16] and string conversions the command-line
    normalisation uses: code points are [Z], a string is its bytes. *)

From Stdlib Require Import Ascii.
From S2P Require Import Prelude GoStrings.

#[local] Open Scope string_scope.
#[local] Open Scope list_scope.
#[local] Open Scope Z_scope.

Definition byte_of (c : ascii) : Z := Z.of_nat (nat_of_ascii c).

(** The character of a 6-bit value. *)
Definition b64_char (n : Z) : ascii :=
  chr (Z.to_nat
    (if n <? 26 then 65 + n
     else if n <? 52 then 97 + (n - 26)
     else if n <? 62 then 48 + (n - 52)
     else if n =? 62 then 43 else 47)).

(** The four 6-bit groups of three bytes. *)
Definition g0 (a : ascii) : ascii := b64_char (Z.shiftr (byte_of a) 2).
Definition g1 (a b : ascii) : ascii :=
  b64_char (Z.lor (Z.shiftl (Z.land (byte_of a) 3) 4) (Z.shiftr (byte_of b) 4)).
Definition g2 (b c : ascii) : ascii :=
  b64_char (Z.lor (Z.shiftl (Z.land (byte_of b) 15) 2) (Z.shiftr (byte_of c) 6)).
Definition g3 (c : ascii) : ascii := b64_char (Z.land (byte_of c) 63).

Definition nul : ascii := chr 0.

(** [base64.StdEncoding.EncodeToString]. *)
Fixpoint b64 (s : string) : string :=
  match s with
  | EmptyString => EmptyString
  | String a EmptyString => String (g0 a) (String (g1 a nul) "==")
  | String a (String b EmptyString) => String (g0 a) (String (g1 a b) (String (g2 b nul) "="))
  | String a (String b (String c r)) =>
      String (g0 a) (String (g1 a b) (String (g2 b c) (String (g3 c) (b64 r))))
  end.

Example b64_examples :
  b64 "Man" = "TWFu" ∧ b64 "Ma" = "TWE=" ∧ b64 "M" = "TQ==" ∧
  b64 "http://" = "aHR0cDovLw==".
Proof. by vm_compute. Qed.

(** ** [base64Offsets] *)
Definition startOffset (i : nat) : Z := match i with O => 0 | S O => 2 | _ => 3 end.
Definition endOffset (r : Z) : Z := if r =? 0 then 0 else if r =? 1 then -3 else -2.

Definition base64Offset (value : string) (i : nat) : option string :=
  let enc := b64 (repeat_char " " i +:+ value) in
  let start := startOffset i in
  let eo := endOffset ((slen value + Z.of_nat i) mod 3) in
  let end_ := if eo <? 0 then slen enc + eo else slen enc in
  if (start <? 0) || (end_ <? start) || (slen enc <? end_) then None
  else Some (sdrop (Z.to_nat start) (stake (Z.to_nat end_) enc)).

Definition base64Offsets (value : string) : list string :=
  omap (base64Offset value) [0%nat; 1%nat; 2%nat].

Example base64Offsets_example :
  base64Offsets "http://" = ["aHR0cDovL"; "h0dHA6Ly"; "odHRwOi8v"].
Proof. by vm_compute. Qed.

(** ** Alignment *)
Lemma string_ind3 (P : string → Prop) :
  P "" → (∀ a, P (String a "")) → (∀ a b, P (String a (String b ""))) →
  (∀ a b c r, P r → P (String a (String b (String c r)))) → ∀ s, P s.
Proof.
  intros H0 H1 H2 H3.
  assert (∀ s, P s ∧ (∀ a, P (String a s)) ∧ (∀ a b, P (String a (String b s)))) as H.
  { induction s as [|c s (IH0 & IH1 & IH2)]; split_and!; auto. }
  intros s. apply H.
Qed.

Lemma append_empty_l s : "" +:+ s = s.
Proof. done. Qed.

Lemma b64_cons3 a b c r :
  b64 (String a (String b (String c r)))
  = String (g0 a) (String (g1 a b) (String (g2 b c) (String (g3 c) (b64 r)))).
Proof. done. Qed.

(** Whole groups encode on their own. *)
Lemma b64_app x r : (String.length x mod 3 = 0)%nat → b64 (x +:+ r) = b64 x +:+ b64 r.
Proof.
  induction x as [|a|a b|a b c x IH] using string_ind3; intros H; try done.
  change ((S (S (S (String.length x)))) mod 3 = 0)%nat in H.
  replace (S (S (S (String.length x)))) with (String.length x + 1 * 3)%nat in H by lia.
  rewrite Nat.Div0.mod_add in H.
  change (String a (String b (String c x)) +:+ r) with (String a (String b (String c (x +:+ r)))).
  rewrite !b64_cons3, (IH H). done.
Qed.

(** How many characters of the encoding of [n] bytes do not depend on what
    follows them. *)
Definition settled (s : string) : nat := (8 * String.length s / 6)%nat.

Lemma settled_cons3 a b c r : settled (String a (String b (String c r))) = (4 + settled r)%nat.
Proof.
  unfold settled. change (String.length (String a (String b (String c r))))
    with (3 + String.length r)%nat.
  replace (8 * (3 + String.length r))%nat with (4 * 6 + 8 * String.length r)%nat by lia.
  rewrite Nat.div_add_l by lia. done.
Qed.

(** The settled characters are a prefix of the encoding of any extension. *)
Lemma b64_settled v y : ∃ t, b64 (v +:+ y) = stake (settled v) (b64 v) +:+ t.
Proof.
  induction v as [|a|a b|a b c v [t IH]] using string_ind3.
  - by exists (b64 y).
  - change (settled (String a "")) with 1%nat.
    destruct y as [|b [|c y]]; simpl; by eexists.
  - change (settled (String a (String b ""))) with 2%nat.
    destruct y as [|c y]; simpl; by eexists.
  - exists t. rewrite settled_cons3.
    change (String a (String b (String c v)) +:+ y) with (String a (String b (String c (v +:+ y)))).
    rewrite !b64_cons3, IH. done.
Qed.

(** The end of the slice is the settled part. *)
Lemma b64_length_mod s :
  slen (b64 s) + endOffset (slen s mod 3) = Z.of_nat (settled s) ∧ endOffset (slen s mod 3) <= 0.
Proof.
  induction s as [|a|a b|a b c s [IH1 IH2]] using string_ind3; [by vm_compute..|].
  rewrite settled_cons3, b64_cons3. unfold slen in *. cbn [String.length].
  replace (Z.of_nat (S (S (S (String.length s))))) with (Z.of_nat (String.length s) + 1 * 3) by lia.
  rewrite Z.mod_add by lia. lia.
Qed.

Lemma slen_repeat i s : slen (repeat_char " " i +:+ s) = slen s + Z.of_nat i.
Proof. unfold slen. rewrite append_length. induction i; simpl; lia. Qed.

Lemma base64Offset_slice value i w : base64Offset value i = Some w →
  startOffset i <= Z.of_nat (settled (repeat_char " " i +:+ value)) ∧
  w = sdrop (Z.to_nat (startOffset i))
        (stake (settled (repeat_char " " i +:+ value)) (b64 (repeat_char " " i +:+ value))).
Proof.
  unfold base64Offset. rewrite <- slen_repeat.
  pose proof (b64_length_mod (repeat_char " " i +:+ value)) as [H1 H2].
  set (s := repeat_char " " i +:+ value) in *.
  assert ((if endOffset (slen s mod 3) <? 0 then slen (b64 s) + endOffset (slen s mod 3)
           else slen (b64 s)) = Z.of_nat (settled s)) as ->.
  { destruct (Z.ltb_spec (endOffset (slen s mod 3)) 0); lia. }
  destruct (_ || _) eqn:E; [done|]. intros [= <-]. rewrite Nat2Z.id.
  apply orb_false_iff in E as [E _]. apply orb_false_iff in E as [_ E]. split; [lia|done].
Qed.

Lemma settled_ge_start v i : (1 <= String.length v)%nat → (i < 3)%nat →
  startOffset i <= Z.of_nat (settled (repeat_char " " i +:+ v)).
Proof.
  intros Hv Hi. unfold settled. rewrite append_length.
  assert (String.length (repeat_char " " i) = i) as -> by (induction i; simpl; lia).
  assert (8 * (i + 1) / 6 <= 8 * (i + String.length v) / 6)%nat.
  { apply Nat.Div0.div_le_mono. lia. }
  destruct i as [|[|[|]]]; simpl in *; try lia.
Qed.

Lemma base64Offset_some v i : (1 <= String.length v)%nat → (i < 3)%nat →
  is_Some (base64Offset v i).
Proof.
  intros Hv Hi. pose proof (settled_ge_start v i Hv Hi) as Hs. unfold base64Offset.
  rewrite <- slen_repeat. pose proof (b64_length_mod (repeat_char " " i +:+ v)) as [H1 H2].
  set (s := repeat_char " " i +:+ v) in *.
  destruct (_ || _) eqn:E; [|by eexists].
  assert (0 <= startOffset i) by (destruct i as [|[|]]; simpl; lia).
  destruct (Z.ltb_spec (endOffset (slen s mod 3)) 0);
    repeat (apply orb_true_iff in E as [E|E]); lia.
Qed.

(** The middle of the encoding does not depend on the bytes before it. *)
Lemma slice_prefix_irrelevant x1 v y i : String.length x1 = i → (i < 3)%nat →
  (1 <= String.length v)%nat →
  ∃ p t, b64 (x1 +:+ v +:+ y) =
    p +:+ sdrop (Z.to_nat (startOffset i))
            (stake (settled (repeat_char " " i +:+ v)) (b64 (repeat_char " " i +:+ v))) +:+ t.
Proof.
  intros Hx Hi Hv. destruct x1 as [|a1 [|a2 [|]]]; simpl in Hx; subst i; try lia.
  - destruct (b64_settled v y) as [t H]. exists "", t. exact H.
  - destruct v as [|b [|c r]]; [simpl in Hv; lia| |].
    + exists (b64 (String a1 (String b "" +:+ y))), "". by rewrite append_nil_r.
    + destruct (b64_settled r y) as [t H].
      exists (String (g0 a1) (String (g1 a1 b) "")), t.
      change (repeat_char " " 1 +:+ String b (String c r)) with (String " " (String b (String c r))).
      rewrite settled_cons3, b64_cons3.
      change (String a1 "" +:+ String b (String c r) +:+ y)
        with (String a1 (String b (String c (r +:+ y)))).
      rewrite b64_cons3, H. done.
  - destruct v as [|c r]; [simpl in Hv; lia|].
    destruct (b64_settled r y) as [t H].
    exists (String (g0 a1) (String (g1 a1 a2) (String (g2 a2 c) ""))), t.
    change (repeat_char " " 2 +:+ String c r) with (String " " (String " " (String c r))).
    rewrite settled_cons3, b64_cons3.
    change (String a1 (String a2 "") +:+ String c r +:+ y)
      with (String a1 (String a2 (String c (r +:+ y)))).
    rewrite b64_cons3, H. done.
Qed.

Lemma split_mod3 x : ∃ x0 x1, x = x0 +:+ x1 ∧ (String.length x0 mod 3 = 0)%nat ∧
  String.length x1 = (String.length x mod 3)%nat.
Proof.
  induction x as [|a|a b|a b c x (x0 & x1 & E & H0 & H1)] using string_ind3.
  - by exists "", "".
  - by exists "", (String a "").
  - by exists "", (String a (String b "")).
  - exists (String a (String b (String c x0))), x1. split; [by rewrite E at 1|].
    cbn [String.length].
    replace (S (S (S (String.length x0)))) with (String.length x0 + 1 * 3)%nat by lia.
    replace (S (S (S (String.length x)))) with (String.length x + 1 * 3)%nat by lia.
    by rewrite !Nat.Div0.mod_add.
Qed.

(** C39: for a non-empty value, whatever precedes and follows it before encoding,
    one of its offset patterns occurs in the Base64 text: a payload is found at
    every alignment. *)
Theorem base64offset_finds_payload x v y : v ≠ "" →
  ∃ w, w ∈ base64Offsets v ∧ contains (b64 (x +:+ v +:+ y)) w = true.
Proof.
  intros Hne. assert (1 <= String.length v)%nat as Hv by (destruct v; simpl; [done|lia]).
  destruct (split_mod3 x) as (x0 & x1 & -> & H0 & H1).
  set (i := (String.length (x0 +:+ x1) mod 3)%nat) in *.
  assert (i < 3)%nat as Hi by (apply Nat.mod_upper_bound; lia).
  destruct (base64Offset_some v i Hv Hi) as [w Hw]. exists w. split.
  - unfold base64Offsets. apply list_elem_of_omap. exists i. split; [|done].
    destruct i as [|[|[|]]]; [set_solver..|lia].
  - destruct (base64Offset_slice v i w Hw) as [_ ->].
    rewrite <- append_assoc, b64_app by done. apply contains_app_l.
    destruct (slice_prefix_irrelevant x1 v y i H1 Hi Hv) as (p & t & ->).
    apply contains_spec. by exists p, t.
Qed.

(** A one-byte value has the empty pattern among its offsets: it matches any
    text. *)
Lemma one_byte_value_matches_all c s : ∃ w, w ∈ base64Offsets (String c "") ∧ contains s w = true.
Proof.
  exists "". split; [|apply contains_empty]. apply list_elem_of_omap. exists 1%nat.
  split; [set_solver|]. by vm_compute.
Qed.

Lemma base64offset_finds_payload_witness :
  contains (b64 "x-IEX(New") "JRVgo" = true ∧
  ∃ w, w ∈ base64Offsets "IEX(" ∧ contains (b64 ("x-" +:+ "IEX(" +:+ "New")) w = true.
Proof. split; [reflexivity|]. apply (base64offset_finds_payload "x-" "IEX(" "New"). discriminate. Defined.

(** ** UTF-8 and UTF-16 *)
Definition replacement : Z := 0xFFFD.

Definition is_surrogate (r : Z) : bool := (0xD800 <=? r) && (r <=? 0xDFFF).

Definition byte (n : Z) : ascii := chr (Z.to_nat n).

(** [utf8.AppendRune]: what is not a scalar value becomes U+FFFD. *)
Definition encode_rune (r : Z) : string :=
  let r := if (r <? 0) || (0x10FFFF <? r) || is_surrogate r then replacement else r in
  if r <=? 0x7F then String (byte r) "" else
  if r <=? 0x7FF then
    String (byte (0xC0 + Z.shiftr r 6)) (String (byte (0x80 + Z.land r 0x3F)) "") else
  if r <=? 0xFFFF then
    String (byte (0xE0 + Z.shiftr r 12))
      (String (byte (0x80 + Z.land (Z.shiftr r 6) 0x3F)) (String (byte (0x80 + Z.land r 0x3F)) ""))
  else
    String (byte (0xF0 + Z.shiftr r 18))
      (String (byte (0x80 + Z.land (Z.shiftr r 12) 0x3F))
        (String (byte (0x80 + Z.land (Z.shiftr r 6) 0x3F))
          (String (byte (0x80 + Z.land r 0x3F)) ""))).

(** [string(runes)]. *)
Fixpoint encode_runes (rs : list Z) : string :=
  match rs with [] => "" | r :: rs' => encode_rune r +:+ encode_runes rs' end.

(** [utf8.DecodeRune]: the code point and its width, [None] for a byte that starts
    no valid encoding. *)
Definition in_range (lo hi : Z) (c : ascii) : bool := (lo <=? byte_of c) && (byte_of c <=? hi).
Definition cont (c : ascii) : bool := in_range 0x80 0xBF c.
Definition low6 (c : ascii) : Z := Z.land (byte_of c) 0x3F.

Definition decode_rune (s : string) : option (Z * nat) :=
  match s with
  | EmptyString => None
  | String a s1 =>
      let x := byte_of a in
      if x <=? 0x7F then Some (x, 1%nat) else
      match s1 with
      | EmptyString => None
      | String b s2 =>
          if in_range 0xC2 0xDF a then
            if cont b then Some (Z.shiftl (x - 0xC0) 6 + low6 b, 2%nat) else None
          else
          match s2 with
          | EmptyString => None
          | String c s3 =>
              if in_range 0xE0 0xEF a then
                if in_range (if x =? 0xE0 then 0xA0 else 0x80) (if x =? 0xED then 0x9F else 0xBF) b
                   && cont c
                then Some (Z.shiftl (x - 0xE0) 12 + Z.shiftl (low6 b) 6 + low6 c, 3%nat) else None
              else
              match s3 with
              | EmptyString => None
              | String d _ =>
                  if in_range 0xF0 0xF4 a &&
                     in_range (if x =? 0xF0 then 0x90 else 0x80) (if x =? 0xF4 then 0x8F else 0xBF) b
                     && cont c && cont d
                  then Some (Z.shiftl (x - 0xF0) 18 + Z.shiftl (low6 b) 12
                             + Z.shiftl (low6 c) 6 + low6 d, 4%nat)
                  else None
              end
          end
      end
  end.

(** The runes of a [range] loop: an invalid byte is U+FFFD, one byte wide.  The
    fuel is the number of bytes. *)
Fixpoint runes_go (fuel : nat) (s : string) : list (option Z) :=
  match fuel, s with
  | S f, String _ s' =>
      match decode_rune s with
      | Some (r, w) => Some r :: runes_go f (sdrop w s)
      | None => None :: runes_go f s'
      end
  | _, _ => []
  end.

Definition runes (s : string) : list (option Z) := runes_go (String.length s) s.

(** [strings.ToValidUTF8(s, "")]. *)
Definition to_valid_utf8 (s : string) : string := encode_runes (omap id (runes s)).

(** ** UTF-16, little endian *)
Definition high_surrogate (u : Z) : bool := (0xD800 <=? u) && (u <? 0xDC00).
Definition low_surrogate (u : Z) : bool := (0xDC00 <=? u) && (u <? 0xE000).

(** [utf16.Decode]. *)
Fixpoint utf16_decode (us : list Z) : list Z :=
  match us with
  | [] => []
  | u :: us' =>
      if high_surrogate u then
        match us' with
        | v :: us'' =>
            if low_surrogate v
            then (Z.shiftl (u - 0xD800) 10 + (v - 0xDC00) + 0x10000) :: utf16_decode us''
            else replacement :: utf16_decode us'
        | [] => [replacement]
        end
      else if low_surrogate u then replacement :: utf16_decode us'
      else u :: utf16_decode us'
  end.

(** The 16-bit units of the bytes. *)
Fixpoint units (s : string) : list Z :=
  match s with
  | String a (String b s') => Z.lor (byte_of a) (Z.shiftl (byte_of b) 8) :: units s'
  | _ => []
  end.

(** The UTF-16LE text of characters below 128. *)
Fixpoint widen (s : string) : string :=
  match s with EmptyString => "" | String a s' => String a (String (chr 0) (widen s')) end.

Definition ascii_only (s : string) : bool := negb (contains_char (λ c, 0x7F <? byte_of c) s).

Lemma byte_of_range a : 0 <= byte_of a < 256.
Proof. unfold byte_of. pose proof (nat_ascii_bounded a). lia. Qed.

Lemma units_widen s : ascii_only s = true → encode_runes (utf16_decode (units (widen s))) = s.
Proof.
  unfold ascii_only. induction s as [|a s IH]; [done|]. cbn [contains_char widen units].
  rewrite negb_orb. intros [Ha Hs]%andb_true_iff. pose proof (byte_of_range a) as Hr.
  apply negb_true_iff, Z.ltb_ge in Ha.
  replace (Z.lor (byte_of a) (Z.shiftl (byte_of (chr 0)) 8)) with (byte_of a)
    by (change (byte_of (chr 0)) with 0; by rewrite Z.shiftl_0_l, Z.lor_0_r).
  assert (high_surrogate (byte_of a) = false) as E1 by (unfold high_surrogate; lia).
  assert (low_surrogate (byte_of a) = false) as E2 by (unfold low_surrogate; lia).
  cbn [utf16_decode]. rewrite E1, E2. cbn [encode_runes]. rewrite IH by done.
  unfold encode_rune, is_surrogate.
  replace ((byte_of a <? 0) || (0x10FFFF <? byte_of a) ||
    ((0xD800 <=? byte_of a) && (byte_of a <=? 0xDFFF))) with false by lia.
  destruct (Z.leb_spec (byte_of a) 0x7F); [|lia]. unfold byte, byte_of, chr.
  by rewrite Nat2Z.id, ascii_nat_embedding.
Qed.

Lemma widen_length s : String.length (widen s) = (2 * String.length s)%nat.
Proof. induction s as [|a s IH]; simpl in *; [done|lia]. Qed.
