(* ===== verification/RingBuffer.v ===== *)
(** * The agent's offline spool

    [agent/internal/transport/buffer.go]: a disk-backed ring of event batches,
    one file per batch, and the loop of [grpc_client.go] that drains it.  The
    directory is a finite map from the sequence number in a file's name to the
    file's bytes; file-system failures are inputs of the operations. *)

From S2P Require Import Prelude GoStrings.

#[local] Open Scope Z_scope.

Abbreviation bytes := (list Z).

(** ** State *)
Record RingBuffer := mkRingBuffer {
  dir_ok : bool;              (** the directory exists *)
  disk : gmap Z bytes;        (** [segmentPath seq] ↦ the bytes of the file *)
  max_bytes : Z;
  max_files : Z;
  shrink_at : Z;
  key : option bytes;         (** 32-byte AES-256 key; [None] = plaintext *)
  used : Z;
  head : Z;
  tail : Z;
  peak_files : Z
}.

Definition default_max_files : Z := 10000.
Definition default_shrink_at : Z := 1000.

(** What the operating system does to one call of an operation. *)
Record Faults := mkFaults {
  stat_fails : Z → bool;
  remove_fails : Z → bool;
  open_fails : Z → bool;
  header_written : Z → option nat;   (** [Some k]: the write fails after [k] bytes *)
  payload_written : Z → option nat;
  nonce : option bytes;              (** [None]: reading the random source failed *)
  mkdir_fails : bool;
  remove_all_fails : bool
}.

Definition no_faults (n : bytes) : Faults :=
  mkFaults (λ _, false) (λ _, false) (λ _, false) (λ _, None) (λ _, None)
    (Some n) false false.

(** ** Little-endian length prefix *)
Fixpoint le_bytes (k : nat) (n : Z) : bytes :=
  match k with O => [] | S k' => n mod 256 :: le_bytes k' (n / 256) end.
Definition put_uint64 (n : Z) : bytes := le_bytes 8 n.

Fixpoint le_value (b : bytes) : Z :=
  match b with [] => 0 | x :: b' => x + 256 * le_value b' end.

(** [f.Read] into a zeroed slice of [n] bytes: the bytes read, then zeros. *)
Definition zero_fill (n : Z) (b : bytes) : bytes :=
  b ++ replicate (Z.to_nat n - length b) 0.

(** Allocation limit of [make] on a 64-bit platform, and the most one [Read]
    of a file returns. *)
Definition max_alloc : Z := 2 ^ 48.
Definition max_read : Z := 2 ^ 30.

Section Buffer.
(** AES-GCM ([crypto/cipher]): [Seal] and [Open] under a key and a nonce. *)
Context (gcm_seal : bytes → bytes → bytes → bytes).
Context (gcm_open : bytes → bytes → bytes → option bytes).

Definition nonce_size : nat := 12.

Definition aes_key_ok (k : bytes) : bool :=
  let n := zlen k in (n =? 16) || (n =? 24) || (n =? 32).

Definition encrypt_gcm (φ : Faults) (k plaintext : bytes) : res bytes :=
  if negb (aes_key_ok k) then Err "invalid key size" else
  match nonce φ with
  | None => Err "random source"
  | Some n => Ok (n ++ gcm_seal k n plaintext)
  end.

Definition decrypt_gcm (k ciphertext : bytes) : res bytes :=
  if negb (aes_key_ok k) then Err "invalid key size" else
  if (length ciphertext <? nonce_size)%nat then Err "ciphertext too short" else
  match gcm_open k (take nonce_size ciphertext) (drop nonce_size ciphertext) with
  | Some p => Ok p
  | None => Err "message authentication failed"
  end.

(** *** Files *)
Definition segment_name (seq : Z) : string := pad0 20 (itoa seq) +:+ ".buf".

Definition write_segment (φ : Faults) (rb : RingBuffer) (seq : Z) (data : bytes)
    : gmap Z bytes * option string :=
  match (match key rb with
         | None => Ok data
         | Some k => encrypt_gcm φ k data
         end) with
  | Err e => (disk rb, Some e)
  | Ok payload =>
      if negb (dir_ok rb) || open_fails φ seq then (disk rb, Some "open") else
      let hdr := put_uint64 (zlen payload) in
      match header_written φ seq with
      | Some k => (<[seq := take k hdr]> (disk rb), Some "write")
      | None =>
          match payload_written φ seq with
          | Some k => (<[seq := hdr ++ take k payload]> (disk rb), Some "write")
          | None => (<[seq := hdr ++ payload]> (disk rb), None)
          end
      end
  end.

Definition read_segment (φ : Faults) (rb : RingBuffer) (seq : Z) : go (res bytes) :=
  if negb (dir_ok rb) || open_fails φ seq then Ret (Err "open") else
  match disk rb !! seq with
  | None => Ret (Err "open")
  | Some content =>
      let hdr := take 8 content in
      if (length hdr =? 0)%nat then Ret (Err "EOF") else
      let size := le_value (zero_fill 8 hdr) in
      if max_alloc <? size then Panic else
      let got := take (Z.to_nat (Z.min size max_read)) (drop 8 content) in
      if (0 <? size) && (length got =? 0)%nat then Ret (Err "EOF") else
      let payload := zero_fill size got in
      match key rb with
      | None => Ret (Ok payload)
      | Some k =>
          match decrypt_gcm k payload with
          | Ok plain => Ret (Ok plain)
          | Err e => Ret (Err e)
          end
      end
  end.

(** [os.Stat], then [os.Remove], of the segment at the head; the result of
    [Remove] is ignored. *)
Definition remove_head (φ : Faults) (rb : RingBuffer) : RingBuffer :=
  let seq := head rb in
  let used' :=
    match disk rb !! seq with
    | Some c => if stat_fails φ seq then used rb else used rb + - (zlen c + 8)
    | None => used rb
    end in
  let disk' := if remove_fails φ seq then disk rb else delete seq (disk rb) in
  mkRingBuffer (dir_ok rb) disk' (max_bytes rb) (max_files rb) (shrink_at rb)
    (key rb) used' (wrap_u64 (head rb + 1)) (tail rb) (peak_files rb).

Definition drop_oldest (φ : Faults) (rb : RingBuffer) : res RingBuffer :=
  if tail rb <=? head rb then Err "buffer empty" else Ok (remove_head φ rb).

(** *** Write *)
Definition needs_room (needed : Z) (rb : RingBuffer) : bool :=
  ((max_bytes rb <? used rb + needed) ||
   ((0 <? max_files rb) && (max_files rb <=? wrap_u64 (tail rb - head rb)))) &&
  (head rb <? tail rb).

Fixpoint make_room (fuel : nat) (φ : Faults) (needed : Z) (rb : RingBuffer) : RingBuffer :=
  match fuel with
  | O => rb
  | S f =>
      if needs_room needed rb then
        match drop_oldest φ rb with
        | Ok rb' => make_room f φ needed rb'
        | Err _ => rb
        end
      else rb
  end.

Definition write (φ : Faults) (rb : RingBuffer) (data : bytes) : RingBuffer * option string :=
  let needed := zlen data + 8 in
  let rb := make_room (Z.to_nat (tail rb - head rb)) φ needed rb in
  let '(disk', err) := write_segment φ rb (tail rb) data in
  match err with
  | Some e =>
      (mkRingBuffer (dir_ok rb) disk' (max_bytes rb) (max_files rb) (shrink_at rb)
         (key rb) (used rb) (head rb) (tail rb) (peak_files rb), Some e)
  | None =>
      let tail' := wrap_u64 (tail rb + 1) in
      let n := wrap_u64 (tail' - head rb) in
      (mkRingBuffer (dir_ok rb) disk' (max_bytes rb) (max_files rb) (shrink_at rb)
         (key rb) (used rb + needed) (head rb) tail' (Z.max n (peak_files rb)), None)
  end.

(** *** ReadBatch: up to [n] segments from [seq]; the error result of the Go
    function is [nil] on every path. *)
Fixpoint read_from (n : nat) (φ : Faults) (rb : RingBuffer) (seq : Z) : go (list bytes) :=
  match n with
  | O => Ret []
  | S n' =>
      if seq <? tail rb then
        r ← read_segment φ rb seq;
        match r with
        | Err _ => Ret []
        | Ok data => rest ← read_from n' φ rb (wrap_u64 (seq + 1)); Ret (data :: rest)
        end
      else Ret []
  end.
Definition read_batch (n : nat) (φ : Faults) (rb : RingBuffer) : go (list bytes) :=
  read_from n φ rb (head rb).

(** *** Ack *)
Definition shrink_if_drained (φ : Faults) (rb : RingBuffer) : RingBuffer :=
  if negb (head rb =? tail rb) || (peak_files rb <? shrink_at rb) then rb else
  if remove_all_fails φ then rb else
  if mkdir_fails φ then
    mkRingBuffer false ∅ (max_bytes rb) (max_files rb) (shrink_at rb)
      (key rb) (used rb) (head rb) (tail rb) (peak_files rb)
  else
    mkRingBuffer true ∅ (max_bytes rb) (max_files rb) (shrink_at rb)
      (key rb) 0 0 0 0.

Fixpoint ack_loop (n : nat) (φ : Faults) (rb : RingBuffer) : RingBuffer :=
  match n with
  | O => rb
  | S n' => if head rb <? tail rb then ack_loop n' φ (remove_head φ rb) else rb
  end.
Definition ack (n : nat) (φ : Faults) (rb : RingBuffer) : RingBuffer :=
  shrink_if_drained φ (ack_loop n φ rb).

Definition len (rb : RingBuffer) : Z := wrap_u64 (tail rb - head rb).
Definition bytes_used (rb : RingBuffer) : Z := used rb.

Record Metrics := mkMetrics { buffered : Z; m_bytes_used : Z; timestamp : time }.
Definition metrics (now : time) (rb : RingBuffer) : Metrics :=
  mkMetrics (len rb) (bytes_used rb) now.

(** *** recover: the counters from a directory listing (name, size when the
    entry's [Info] succeeds); [None] = the directory could not be read. *)
Definition parse_name (name : string) : option Z :=
  if negb (has_suffix name ".buf") then None else
  match scan_u64 name with
  | Some (seq, rest) => if has_prefix rest ".buf" then Some seq else None
  | None => None
  end.

Definition recover_step (acc : Z * Z * Z * bool) (e : string * option Z)
    : Z * Z * Z * bool :=
  let '(mn, mx, total, found) := acc in
  match parse_name e.1 with
  | None => acc
  | Some seq =>
      (if seq <? mn then seq else mn,
       if mx <? seq then seq else mx,
       match e.2 with Some sz => total + (sz + 8) | None => total end,
       true)
  end.

Definition recover (entries : option (list (string * option Z))) (rb : RingBuffer)
    : RingBuffer :=
  match entries with
  | None => rb
  | Some es =>
      let '(mn, mx, total, found) := foldl recover_step (2 ^ 64 - 1, 0, 0, false) es in
      if (found : bool) then
        mkRingBuffer (dir_ok rb) (disk rb) (max_bytes rb) (max_files rb)
          (shrink_at rb) (key rb) total mn (wrap_u64 (mx + 1)) (peak_files rb)
      else rb
  end.

(** What [os.ReadDir] lists of the segments on disk. *)
Definition dir_entries (d : gmap Z bytes) : list (string * option Z) :=
  (λ p : Z * bytes, (segment_name p.1, Some (zlen p.2))) <$> map_to_list d.

Definition new_ring_buffer (φ : Faults) (d : gmap Z bytes)
    (entries : option (list (string * option Z))) (max_mb : Z) (k : option bytes)
    : res RingBuffer :=
  if mkdir_fails φ then Err "create buffer dir" else
  Ok (recover entries
       (mkRingBuffer true d (max_mb * 1024 * 1024) default_max_files
          default_shrink_at k 0 0 0 0)).

Definition new_encrypted_ring_buffer (φ : Faults) (d : gmap Z bytes)
    (entries : option (list (string * option Z))) (max_mb : Z) (k : bytes)
    : res RingBuffer :=
  if negb (zlen k =? 32) then Err "encryption key must be 32 bytes" else
  new_ring_buffer φ d entries max_mb (Some k).

(** ** drainBuffer ([grpc_client.go])

    [decodes raw] is whether [protojson.Unmarshal] accepts the batch;
    [send i] whether the [i]-th send of this drain succeeds ([None]: there is
    no stream).  The result lists what was sent, in order. *)
Definition batch_size : nat := 50.

Section Drain.
Context (decodes : bytes → bool) (φ : Faults).

Fixpoint drain_batch (raws : list bytes) (send : list (option bool)) (rb : RingBuffer)
    : RingBuffer * list bytes * list (option bool) * bool :=
  match raws with
  | [] => (rb, [], send, true)
  | raw :: raws' =>
      if negb (decodes raw) then drain_batch raws' send (ack 1 φ rb) else
      match send with
      | Some true :: send' =>
          let '(rb', out, s', go_on) := drain_batch raws' send' (ack 1 φ rb) in
          (rb', raw :: out, s', go_on)
      | Some false :: send' => (rb, [], send', false)
      | _ => (rb, [], send, false)
      end
  end.

Fixpoint drain (fuel : nat) (send : list (option bool)) (rb : RingBuffer)
    : go (RingBuffer * list bytes) :=
  match fuel with
  | O => Ret (rb, [])
  | S f =>
      raws ← read_batch batch_size φ rb;
      match raws with
      | [] => Ret (rb, [])
      | _ =>
          let '(rb', out, send', go_on) := drain_batch raws send rb in
          if negb go_on then Ret (rb', out) else
          if (length raws <? batch_size)%nat then Ret (rb', out) else
          r ← drain f send' rb';
          Ret (r.1, out ++ r.2)
      end
  end.
End Drain.
End Buffer.
