(* ===== verification/RingBufferProofs.v ===== *)
(** * Correctness of the offline spool

    The spool refines a FIFO queue: [contents] is the abstraction function, and
    each operation that meets no file-system failure acts on it as the queue
    operation.  The second part is what the byte counter does, what happens at a
    segment that cannot be read, and the restart. *)

From Stdlib Require Import Ascii.
From S2P Require Import Prelude GoStrings RingBuffer.

#[local] Open Scope Z_scope.

(** ** Byte codecs *)
Lemma le_bytes_length k n : length (le_bytes k n) = k.
Proof. revert n. induction k; simpl; [done|]. intros. by rewrite IHk. Qed.

Lemma le_value_bytes k n : 0 <= n < 256 ^ Z.of_nat k → le_value (le_bytes k n) = n.
Proof.
  revert n. induction k as [|k IH]; intros n Hn; [simpl in *; lia|].
  cbn [le_bytes le_value].
  rewrite Nat2Z.inj_succ, Z.pow_succ_r in Hn by lia.
  rewrite IH.
  - pose proof (Z.div_mod n 256). lia.
  - split; [apply Z.div_pos; lia | apply Z.div_lt_upper_bound; lia].
Qed.

Lemma put_uint64_length n : length (put_uint64 n) = 8%nat.
Proof. apply le_bytes_length. Qed.

Lemma put_uint64_zlen n : zlen (put_uint64 n) = 8.
Proof. unfold zlen. by rewrite put_uint64_length. Qed.

Lemma zero_fill_id n b : zlen b = n → zero_fill n b = b.
Proof.
  unfold zlen, zero_fill. intros <-.
  rewrite Nat2Z.id, Nat.sub_diag. apply app_nil_r.
Qed.

(** The documented behaviour of AES-GCM the proofs rely on: opening what was
    sealed under the same key and nonce gives the plaintext back, and sealing
    adds a 16-byte tag. *)
Class GCM (gcm_seal : bytes → bytes → bytes → bytes)
    (gcm_open : bytes → bytes → bytes → option bytes) : Prop := {
  gcm_open_seal : ∀ k n p, gcm_open k n (gcm_seal k n p) = Some p;
  gcm_seal_length : ∀ k n p, zlen (gcm_seal k n p) = zlen p + 16
}.

Section Proofs.
Context (gcm_seal : bytes → bytes → bytes → bytes).
Context (gcm_open : bytes → bytes → bytes → option bytes).
Context `{!GCM gcm_seal gcm_open}.

(** ** The invariant *)
Definition payload_decodes (k : option bytes) (p d : bytes) : Prop :=
  match k with
  | None => p = d
  | Some k => decrypt_gcm gcm_open k p = Ok d
  end.

Definition stored (rb : RingBuffer) (seq : Z) (d : bytes) : Prop :=
  ∃ p, disk rb !! seq = Some (put_uint64 (zlen p) ++ p) ∧
       zlen p <= max_read ∧ payload_decodes (key rb) p d.

Record wf (rb : RingBuffer) : Prop := {
  wf_dir : dir_ok rb = true;
  wf_head : 0 <= head rb;
  wf_order : head rb <= tail rb;
  wf_tail : tail rb < 2 ^ 64;
  wf_stored : ∀ s, head rb <= s < tail rb → ∃ d, stored rb s d;
  wf_only : ∀ s, is_Some (disk rb !! s) → head rb <= s < tail rb;
  wf_key : ∀ k, key rb = Some k → aes_key_ok k = true
}.

(** The abstraction function: the batches in the spool, oldest first. *)
Definition segment_data (rb : RingBuffer) (seq : Z) : option bytes :=
  match read_segment gcm_open (no_faults []) rb seq with
  | Ret (Ok d) => Some d
  | _ => None
  end.
Definition contents (rb : RingBuffer) : list bytes :=
  omap (segment_data rb) (seqZ (head rb) (tail rb - head rb)).

Lemma read_stored n rb s d :
  dir_ok rb = true → stored rb s d →
  read_segment gcm_open (no_faults n) rb s = Ret (Ok d).
Proof.
  intros Hdir (p & Hp & Hlen & Hdec).
  unfold read_segment. rewrite Hdir, Hp.
  cbn [negb orb open_fails no_faults].
  rewrite take_app_len, drop_app_len by (by rewrite put_uint64_length).
  rewrite put_uint64_length. cbn [Nat.eqb].
  rewrite zero_fill_id by apply put_uint64_zlen.
  pose proof (zlen_nonneg p). unfold max_read in *.
  unfold put_uint64. rewrite le_value_bytes by (simpl; lia).
  unfold max_alloc. destruct (Z.ltb_spec (2 ^ 48) (zlen p)); [lia|].
  unfold max_read. rewrite Z.min_l by lia.
  rewrite firstn_all2 by (unfold zlen; lia).
  rewrite zero_fill_id by done.
  destruct ((0 <? zlen p) && (length p =? 0)%nat) eqn:E.
  { apply andb_true_iff in E as [E1 E2]. apply Nat.eqb_eq in E2.
    unfold zlen in E1. rewrite E2 in E1. done. }
  unfold payload_decodes in Hdec. destruct (key rb); [|by subst].
  by rewrite Hdec.
Qed.

Lemma segment_data_stored rb s d :
  dir_ok rb = true → stored rb s d → segment_data rb s = Some d.
Proof. intros ??. unfold segment_data. by rewrite (read_stored [] rb s d). Qed.

(** [segment_data] only looks at the file, the key and the directory flag. *)
Lemma segment_data_ext rb rb' s :
  dir_ok rb' = dir_ok rb → key rb' = key rb → disk rb' !! s = disk rb !! s →
  segment_data rb' s = segment_data rb s.
Proof. intros Hd Hk Hf. unfold segment_data, read_segment. by rewrite Hd, Hk, Hf. Qed.

Lemma stored_ext rb rb' s d :
  key rb' = key rb → disk rb' !! s = disk rb !! s → stored rb s d → stored rb' s d.
Proof. intros Hk Hf (p & H & ?). exists p. by rewrite Hf, Hk. Qed.

Lemma contents_length rb : wf rb → zlen (contents rb) = tail rb - head rb.
Proof.
  intros W. unfold contents, zlen.
  assert (∀ l : list Z, (∀ s, s ∈ l → ∃ d, stored rb s d) →
    length (omap (segment_data rb) l) = length l) as Hl.
  { induction l as [|x l IH]; intros H; [done|].
    destruct (H x) as [d Hd]; [set_solver|].
    rewrite omap_cons_eq, (segment_data_stored rb x d) by (done || apply W).
    cbn [length]. rewrite IH; [done | intros; apply H; set_solver]. }
  rewrite Hl.
  - rewrite length_seqZ. pose proof (wf_order rb W). lia.
  - intros s Hs. apply (wf_stored rb W). apply elem_of_seqZ in Hs. lia.
Qed.

(** *** Removing the head *)
Record same_config (rb rb' : RingBuffer) : Prop := {
  sc_max_bytes : max_bytes rb' = max_bytes rb;
  sc_max_files : max_files rb' = max_files rb;
  sc_key : key rb' = key rb
}.

Lemma same_config_refl rb : same_config rb rb.
Proof. done. Qed.

Lemma same_config_trans a b c : same_config a b → same_config b c → same_config a c.
Proof. intros [???] [???]. split; congruence. Qed.

Lemma contents_cons rb : wf rb → head rb < tail rb →
  ∃ d, stored rb (head rb) d ∧
    contents rb = d :: omap (segment_data rb)
                        (seqZ (head rb + 1) (tail rb - (head rb + 1))).
Proof.
  intros W Hlt. destruct (wf_stored rb W (head rb)) as [d Hd]; [lia|].
  exists d. split; [done|]. unfold contents.
  rewrite seqZ_cons by lia.
  rewrite omap_cons_eq, (segment_data_stored rb _ d) by (done || apply W).
  unfold Z.succ. by replace (Z.pred (tail rb - head rb)) with (tail rb - (head rb + 1)) by lia.
Qed.

Lemma remove_head_spec n rb : wf rb → head rb < tail rb →
  let rb' := remove_head (no_faults n) rb in
  wf rb' ∧ head rb' = head rb + 1 ∧ tail rb' = tail rb ∧
  contents rb' = drop 1 (contents rb) ∧ same_config rb rb'.
Proof.
  intros W Hlt. destruct (contents_cons rb W Hlt) as (d & Hd & ->).
  pose proof (wf_tail rb W). pose proof (wf_head rb W).
  assert (wrap_u64 (head rb + 1) = head rb + 1) as Hw
    by (apply wrap_u64_id; unfold is_u64; lia).
  unfold remove_head. cbn zeta. simpl. rewrite Hw.
  split_and!; [|done|done| |done].
  - destruct W. split; simpl; try done; try lia.
    + intros s Hs. destruct (wf_stored0 s) as [e He]; [lia|].
      exists e. eapply stored_ext; [| |exact He]; simpl; [done|].
      rewrite lookup_delete_ne; [done|lia].
    + intros s [c Hc]. apply lookup_delete_Some in Hc as [? Hc].
      specialize (wf_only0 s (mk_is_Some _ _ Hc)). lia.
  - unfold contents. simpl. rewrite drop_0. apply omap_ext_in.
    intros s Hs. apply elem_of_seqZ in Hs.
    apply segment_data_ext; simpl; [done|done|].
    rewrite lookup_delete_ne; [done|lia].
Qed.

(** *** Making room *)
Lemma needs_room_nonempty needed rb : needs_room needed rb = true → head rb < tail rb.
Proof. unfold needs_room. rewrite andb_true_iff. intros [_ H]. lia. Qed.

Lemma make_room_spec n needed fuel rb :
  wf rb → tail rb - head rb <= Z.of_nat fuel →
  let rb' := make_room fuel (no_faults n) needed rb in
  wf rb' ∧ same_config rb rb' ∧ tail rb' = tail rb ∧ head rb <= head rb' ∧
  contents rb' = drop (Z.to_nat (head rb' - head rb)) (contents rb) ∧
  needs_room needed rb' = false ∧
  (needs_room needed rb = false → rb' = rb).
Proof.
  revert rb. induction fuel as [|f IH]; intros rb W Hf; cbn zeta.
  - simpl. pose proof (wf_order rb W).
    assert (needs_room needed rb = false) as Hn.
    { destruct (needs_room needed rb) eqn:E; [|done].
      apply needs_room_nonempty in E. lia. }
    rewrite Z.sub_diag, drop_0. split_and!; auto using same_config_refl; lia.
  - cbn [make_room]. destruct (needs_room needed rb) eqn:E.
    + pose proof (needs_room_nonempty _ _ E) as Hlt.
      unfold drop_oldest. destruct (Z.leb_spec (tail rb) (head rb)); [lia|].
      destruct (remove_head_spec n rb W Hlt) as (W1 & Hh & Ht & Hc & Hsc).
      destruct (IH (remove_head (no_faults n) rb)) as (W2 & Hs & Ht2 & Hh2 & Hc2 & Hn & _);
        [done|lia|].
      split; [done|]. split; [by eapply same_config_trans|].
      split; [congruence|]. split; [lia|]. split; [|done].
      rewrite Hc2, Hc, drop_drop. f_equal. lia.
    + rewrite Z.sub_diag, drop_0. split_and!; auto using same_config_refl; lia.
Qed.

(** *** The bytes of one segment *)
Definition overhead (k : option bytes) : Z :=
  match k with None => 0 | Some _ => 28 end.

Lemma encrypt_decrypt n k d :
  aes_key_ok k = true → length n = nonce_size →
  ∃ p, encrypt_gcm gcm_seal (no_faults n) k d = Ok p ∧
    decrypt_gcm gcm_open k p = Ok d ∧ zlen p = zlen d + 28.
Proof.
  intros Hk Hn. exists (n ++ gcm_seal k n d).
  unfold encrypt_gcm, decrypt_gcm. rewrite Hk. simpl negb. cbn iota.
  split; [done|]. rewrite length_app, Hn.
  destruct (Nat.ltb_spec (nonce_size + length (gcm_seal k n d)) nonce_size); [lia|].
  rewrite take_app_len, drop_app_len, gcm_open_seal by done. split; [done|].
  pose proof (gcm_seal_length k n d). unfold zlen in *.
  rewrite length_app, Hn. unfold nonce_size. lia.
Qed.

Lemma write_segment_spec n rb seq d :
  dir_ok rb = true → (∀ k, key rb = Some k → aes_key_ok k = true) →
  length n = nonce_size →
  ∃ p, write_segment gcm_seal (no_faults n) rb seq d
         = (<[seq := put_uint64 (zlen p) ++ p]> (disk rb), None) ∧
    payload_decodes (key rb) p d ∧ zlen p = zlen d + overhead (key rb).
Proof.
  intros Hdir Hkey Hn. unfold write_segment, payload_decodes, overhead.
  destruct (key rb) as [k|].
  - destruct (encrypt_decrypt n k d (Hkey k eq_refl) Hn) as (p & -> & ? & ?).
    exists p. by rewrite Hdir.
  - exists d. rewrite Hdir. split; [done|]. split; [done|lia].
Qed.

(** ** The specification: a FIFO queue of batches *)

(** The admission test of [Write] before anything is dropped. *)
Definition fits (rb : RingBuffer) (d : bytes) : Prop := needs_room (zlen d + 8) rb = false.

Record writable (n : bytes) (rb : RingBuffer) (d : bytes) : Prop := {
  wr_nonce : length n = nonce_size;
  wr_tail : tail rb + 1 < 2 ^ 64;
  wr_size : zlen d + overhead (key rb) <= max_read
}.

Lemma write_spec n rb d : wf rb → writable n rb d →
  ∃ rb' k, write gcm_seal (no_faults n) rb d = (rb', None) ∧ wf rb' ∧
    contents rb' = drop k (contents rb) ++ [d] ∧
    (fits rb d → k = 0%nat) ∧
    (used rb' <= max_bytes rb ∧ (0 < max_files rb → len rb' <= max_files rb)
     ∨ contents rb' = [d]) ∧
    tail rb' = tail rb + 1 ∧ same_config rb rb'.
Proof.
  intros W [Hn Ht Hsz]. unfold write.
  pose proof (wf_order rb W). pose proof (wf_head rb W).
  destruct (make_room_spec n (zlen d + 8) (Z.to_nat (tail rb - head rb)) rb W)
    as (W1 & Hs & Ht1 & Hh1 & Hc1 & Hnr & Hfit); [lia|].
  set (r := make_room _ _ _ _) in *. cbn zeta.
  destruct (write_segment_spec n r (tail r) d) as (p & -> & Hdec & Hp);
    [apply W1|apply W1|done|].
  pose proof (wf_order r W1). pose proof (wf_head r W1).
  assert (wrap_u64 (tail r + 1) = tail r + 1) as Hw
    by (apply wrap_u64_id; unfold is_u64; lia).
  assert (wrap_u64 (tail r + 1 - head r) = tail r + 1 - head r) as Hw2
    by (apply wrap_u64_id; unfold is_u64; lia).
  rewrite Hw, Hw2. eexists _, (Z.to_nat (head r - head rb)). split; [done|].
  match goal with |- wf ?x ∧ _ => set (rb' := x) end.
  assert (stored rb' (tail r) d) as Hnew.
  { exists p. subst rb'. simpl. rewrite lookup_insert_eq.
    destruct Hs as [_ _ Hk]. rewrite Hk in Hp. split; [done|]. split; [lia|done]. }
  assert (contents rb' = contents r ++ [d]) as Hc.
  { unfold contents. subst rb'. simpl.
    replace (tail r + 1 - head r) with ((tail r - head r) + 1) by lia.
    rewrite seqZ_app, omap_app by lia.
    replace (head r + (tail r - head r)) with (tail r) by lia. f_equal.
    - apply omap_ext_in. intros s Hin. apply elem_of_seqZ in Hin.
      apply segment_data_ext; simpl; [done..|]. rewrite lookup_insert_ne; [done|lia].
    - rewrite seqZ_cons, omap_cons_eq by lia.
      rewrite (segment_data_stored _ _ d) by (done || apply W1). done. }
  split; [|split; [|split; [|split; [|split; [simpl; lia|]]]]].
  - destruct W1. split; simpl; try done; try lia.
    + intros s Hin. destruct (decide (s = tail r)) as [->|Hne]; [by exists d|].
      destruct (wf_stored0 s) as [e He]; [lia|]. exists e.
      eapply stored_ext; [| |exact He]; simpl; [done|]. by rewrite lookup_insert_ne.
    + intros s [c Hin]. destruct (decide (s = tail r)) as [->|Hne]; [lia|].
      rewrite lookup_insert_ne in Hin by done.
      specialize (wf_only0 s (mk_is_Some _ _ Hin)). lia.
  - by rewrite Hc, Hc1.
  - intros Hf. rewrite (Hfit Hf). by rewrite Z.sub_diag.
  - unfold needs_room in Hnr. apply andb_false_iff in Hnr as [Hnr|Hnr].
    + left. apply orb_false_iff in Hnr as [Hb Hm]. destruct Hs as [Hsb Hsm _].
      rewrite Hsb in Hb. rewrite Hsm in Hm. split; [subst rb'; simpl; lia|]. intros Hpos.
      unfold len. subst rb'. simpl. rewrite Hw2.
      rewrite wrap_u64_id in Hm by (unfold is_u64; lia).
      apply andb_false_iff in Hm as [Hm|Hm]; lia.
    + right. rewrite Hc. unfold contents.
      replace (tail r - head r) with 0 by lia. done.
  - destruct Hs. split; subst rb'; simpl; congruence.
Qed.

(** *** Reading *)
Lemma read_from_spec n m rb seq : wf rb → head rb <= seq <= tail rb →
  read_from gcm_open m (no_faults n) rb seq
    = Ret (take m (omap (segment_data rb) (seqZ seq (tail rb - seq)))).
Proof.
  intros W. revert seq. induction m as [|m IH]; intros seq Hs; [done|].
  cbn [read_from]. destruct (Z.ltb_spec seq (tail rb)).
  - destruct (wf_stored rb W seq) as [d Hd]; [lia|].
    rewrite (read_stored n rb seq d) by (done || apply W). simpl.
    pose proof (wf_tail rb W). pose proof (wf_head rb W).
    rewrite wrap_u64_id by (unfold is_u64; lia).
    rewrite IH by lia.
    rewrite (seqZ_cons seq), omap_cons_eq, (segment_data_stored rb seq d)
      by (done || lia || apply W).
    unfold Z.succ. replace (Z.pred (tail rb - seq)) with (tail rb - (seq + 1)) by lia. done.
  - rewrite seqZ_nil by lia. done.
Qed.

Lemma read_batch_contents n m rb : wf rb →
  read_batch gcm_open m (no_faults n) rb = Ret (take m (contents rb)).
Proof.
  intros W. unfold read_batch. apply read_from_spec; [done|].
  pose proof (wf_order rb W). lia.
Qed.

(** *** Acknowledging *)
Lemma ack_loop_spec n m rb : wf rb →
  let rb' := ack_loop m (no_faults n) rb in
  wf rb' ∧ contents rb' = drop m (contents rb) ∧ same_config rb rb' ∧
  peak_files rb' = peak_files rb ∧ shrink_at rb' = shrink_at rb.
Proof.
  revert rb. induction m as [|m IH]; intros rb W; cbn zeta; cbn [ack_loop].
  - rewrite drop_0. split_and!; auto using same_config_refl.
  - destruct (Z.ltb_spec (head rb) (tail rb)) as [Hlt|Hge].
    + destruct (remove_head_spec n rb W Hlt) as (W1 & _ & _ & Hc & Hs).
      destruct (IH _ W1) as (W2 & Hc2 & Hs2 & Hp & Hk).
      split_and!; [done| |by eapply same_config_trans|by rewrite Hp|by rewrite Hk].
      rewrite Hc2, Hc, drop_drop. done.
    + pose proof (contents_length rb W) as Hl. unfold zlen in Hl.
      assert (contents rb = []) as -> by (apply nil_length_inv; lia).
      rewrite drop_nil. split_and!; auto using same_config_refl.
Qed.

Lemma wf_empty_disk rb : wf rb → head rb = tail rb → disk rb = ∅.
Proof.
  intros W He. apply map_empty. intros s. apply eq_None_not_Some.
  intros Hs. apply (wf_only rb W) in Hs. lia.
Qed.

Lemma shrink_spec n rb : wf rb →
  let rb' := shrink_if_drained (no_faults n) rb in
  wf rb' ∧ contents rb' = contents rb ∧ same_config rb rb'.
Proof.
  intros W. cbn zeta. unfold shrink_if_drained.
  destruct (negb (head rb =? tail rb) || (peak_files rb <? shrink_at rb)) eqn:E;
    [by split_and!|].
  apply orb_false_iff in E as [E _]. apply negb_false_iff, Z.eqb_eq in E. simpl.
  split_and!; [| |done].
  - destruct W. split; simpl; try done; try lia. intros s [c Hs]. done.
  - unfold contents. simpl. replace (tail rb - head rb) with 0 by lia. done.
Qed.

Lemma ack_spec n m rb : wf rb →
  let rb' := ack m (no_faults n) rb in
  wf rb' ∧ contents rb' = drop m (contents rb) ∧ same_config rb rb'.
Proof.
  intros W. cbn zeta. unfold ack.
  destruct (ack_loop_spec n m rb W) as (W1 & Hc1 & Hs1 & _).
  destruct (shrink_spec n _ W1) as (W2 & Hc2 & Hs2).
  split_and!; [done|congruence|by eapply same_config_trans].
Qed.

(** ** The byte counter *)

(** What [recover] would count for the files on disk. *)
Definition disk_total (d : gmap Z bytes) : Z :=
  map_fold (λ _ c acc, zlen c + 8 + acc) 0 d.

Lemma disk_total_insert d s c : d !! s = None →
  disk_total (<[s := c]> d) = zlen c + 8 + disk_total d.
Proof. intros H. unfold disk_total. rewrite map_fold_insert_L; [done|intros; lia|done]. Qed.

Lemma disk_total_delete d s c : d !! s = Some c →
  disk_total (delete s d) = disk_total d - (zlen c + 8).
Proof.
  intros H. rewrite <- (insert_delete_id d s c H) at 2.
  rewrite disk_total_insert by apply lookup_delete_eq. lia.
Qed.

Definition balance (rb : RingBuffer) : Z := used rb - disk_total (disk rb).

Lemma remove_head_balance n rb : wf rb → head rb < tail rb →
  balance (remove_head (no_faults n) rb) = balance rb.
Proof.
  intros W Hlt. destruct (wf_stored rb W (head rb)) as (d & p & Hp & _); [lia|].
  unfold balance, remove_head. simpl. rewrite Hp.
  rewrite (disk_total_delete _ _ _ Hp). lia.
Qed.

Lemma make_room_balance n needed fuel rb : wf rb →
  balance (make_room fuel (no_faults n) needed rb) = balance rb.
Proof.
  revert rb. induction fuel as [|f IH]; intros rb W; [done|].
  cbn [make_room]. destruct (needs_room needed rb) eqn:E; [|done].
  pose proof (needs_room_nonempty _ _ E) as Hlt.
  unfold drop_oldest. destruct (Z.leb_spec (tail rb) (head rb)); [lia|].
  destruct (remove_head_spec n rb W Hlt) as (W1 & _).
  rewrite IH by done. by apply remove_head_balance.
Qed.

Lemma ack_loop_balance n m rb : wf rb →
  balance (ack_loop m (no_faults n) rb) = balance rb.
Proof.
  revert rb. induction m as [|m IH]; intros rb W; [done|]. cbn [ack_loop].
  destruct (Z.ltb_spec (head rb) (tail rb)) as [Hlt|]; [|done].
  destruct (remove_head_spec n rb W Hlt) as (W1 & _).
  rewrite IH by done. by apply remove_head_balance.
Qed.

Lemma write_balance n rb d : wf rb → writable n rb d →
  balance (write gcm_seal (no_faults n) rb d).1 = balance rb - (8 + overhead (key rb)).
Proof.
  intros W [Hn Ht Hsz]. unfold write.
  destruct (make_room_spec n (zlen d + 8) (Z.to_nat (tail rb - head rb)) rb W)
    as (W1 & [_ _ Hk] & Ht1 & _); [pose proof (wf_order rb W); lia|].
  pose proof (make_room_balance n (zlen d + 8) (Z.to_nat (tail rb - head rb)) rb W) as Hb.
  set (r := make_room _ _ _ _) in *. cbn zeta.
  destruct (write_segment_spec n r (tail r) d) as (p & -> & _ & Hp);
    [apply W1|apply W1|done|]. cbn [fst].
  rewrite <- Hb, <- Hk. unfold balance. cbn [used disk].
  rewrite disk_total_insert.
  - rewrite zlen_app, put_uint64_zlen. lia.
  - apply eq_None_not_Some. intros Hs. apply (wf_only r W1) in Hs. lia.
Qed.

(** A run of successful writes and of acknowledgements during which the spool
    stays under the size that triggers the directory rebuild; [w] counts the
    writes. *)
Inductive run : RingBuffer → Z → RingBuffer → Prop :=
| run_nil rb : run rb 0 rb
| run_write n rb w rb1 d :
    run rb w rb1 → writable n rb1 d →
    peak_files (write gcm_seal (no_faults n) rb1 d).1 < shrink_at rb1 →
    run rb (w + 1) (write gcm_seal (no_faults n) rb1 d).1
| run_ack n m rb w rb1 :
    run rb w rb1 → run rb w (ack m (no_faults n) rb1).

Lemma write_config n rb d : wf rb → writable n rb d →
  shrink_at (write gcm_seal (no_faults n) rb d).1 = shrink_at rb.
Proof.
  intros W _.
  assert (∀ fuel needed r, shrink_at (make_room fuel (no_faults n) needed r) = shrink_at r)
    as Hm.
  { induction fuel as [|f IH]; intros needed r; [done|]. cbn [make_room].
    destruct (needs_room needed r); [|done]. unfold drop_oldest.
    destruct (tail r <=? head r); [done|]. by rewrite IH. }
  unfold write. cbn zeta. destruct (write_segment _ _ _ _ _) as [dk [e|]]; simpl; apply Hm.
Qed.

Lemma run_invariant rb w rb' : run rb w rb' → wf rb → peak_files rb < shrink_at rb →
  wf rb' ∧ peak_files rb' < shrink_at rb' ∧ key rb' = key rb ∧
  balance rb' = balance rb - (8 + overhead (key rb)) * w.
Proof.
  induction 1 as [rb|n rb w rb1 d Hr IH Hw Hp|n m rb w rb1 Hr IH]; intros W Hs.
  - split_and!; [done..|lia].
  - destruct (IH W Hs) as (W1 & Hp1 & Hk1 & Hb1).
    destruct (write_spec n rb1 d W1 Hw) as (rb2 & k & E & W2 & _ & _ & _ & _ & [_ _ Hk2]).
    pose proof (write_balance n rb1 d W1 Hw) as Hb.
    pose proof (write_config n rb1 d W1 Hw) as Hc.
    rewrite E in *. simpl in *. split_and!; [done|congruence|congruence|].
    rewrite Hb, Hb1, Hk1. lia.
  - destruct (IH W Hs) as (W1 & Hp1 & Hk1 & Hb1).
    destruct (ack_spec n m rb1 W1) as (W2 & _ & [_ _ Hk2]).
    destruct (ack_loop_spec n m rb1 W1) as (_ & _ & [_ _ Hk3] & Hp3 & Hs3).
    assert (ack m (no_faults n) rb1 = ack_loop m (no_faults n) rb1) as E.
    { unfold ack, shrink_if_drained. rewrite Hp3, Hs3.
      destruct (Z.ltb_spec (peak_files rb1) (shrink_at rb1)); [|lia].
      by rewrite orb_true_r. }
    split_and!; [done|by rewrite E, Hp3, Hs3|congruence|].
    rewrite E, ack_loop_balance by done. done.
Qed.

(** ** Draining *)
Lemma filter_app_take {A} (P : A → bool) (l : list A) k :
  filter (λ x, P x) l = filter (λ x, P x) (take k l) ++ filter (λ x, P x) (drop k l).
Proof. by rewrite <- filter_app, take_drop. Qed.

Lemma drain_batch_spec n decodes raws send rb rest : wf rb →
  contents rb = raws ++ rest →
  ∃ rb' out send' go_on,
    drain_batch decodes (no_faults n) raws send rb = (rb', out, send', go_on) ∧
    wf rb' ∧ same_config rb rb' ∧
    filter (λ r, decodes r) (contents rb) = out ++ filter (λ r, decodes r) (contents rb') ∧
    (go_on = true → contents rb' = rest) ∧
    ((∃ m, send = replicate m (Some true) ∧ (length raws <= m)%nat) →
      go_on = true ∧ ∃ m', send' = replicate m' (Some true) ∧
        (length rest + length send <= length rest + length raws + m')%nat).
Proof.
  revert send rb. induction raws as [|raw raws IH]; intros send rb W Hc.
  - exists rb, [], send, true. simpl in *. split_and!; auto using same_config_refl.
    intros [m [-> Hm]]. split; [done|]. exists m. split; [done|].
    rewrite length_replicate. lia.
  - destruct (ack_spec n 1 rb W) as (W1 & Hc1 & Hs1).
    rewrite Hc in Hc1. cbn [drop app] in Hc1. rewrite drop_0 in Hc1.
    cbn [drain_batch]. destruct (decodes raw) eqn:Hd; cbn [negb].
    + destruct send as [|[[]|] send].
      * exists rb, [], [], false. split_and!; auto using same_config_refl; [done|].
        intros [[|m] [Hm Hle]]; [simpl in Hle; lia|done].
      * destruct (IH send _ W1 Hc1) as (rb' & out & send' & g & -> & W' & Hs' & Hf & Hg & Hm).
        exists rb', (raw :: out), send', g.
        split_and!; [done|done|by eapply same_config_trans| |done|].
        -- rewrite Hc. cbn [app]. rewrite filter_cons_True by (by rewrite Hd).
           rewrite <- Hc1, Hf. done.
        -- intros [[|m] [E Hle]]; [done|]. injection E as ->.
           destruct Hm as [-> (m' & -> & Hle')]; [exists m; split; [done|simpl in Hle; lia]|].
           split; [done|]. exists m'. split; [done|]. simpl in *. lia.
      * exists rb, [], send, false. split_and!; auto using same_config_refl; [done|].
        intros [[|m] [Hm Hle]]; done.
      * exists rb, [], (None :: send), false. split_and!; auto using same_config_refl; [done|].
        intros [[|m] [Hm Hle]]; done.
    + destruct (IH send _ W1 Hc1) as (rb' & out & send' & g & -> & W' & Hs' & Hf & Hg & Hm).
      exists rb', out, send', g.
      split_and!; [done|done|by eapply same_config_trans| |done|].
      * rewrite Hc. cbn [app]. rewrite filter_cons_False by (rewrite Hd; intros []). rewrite <- Hc1, Hf. done.
      * intros (m & -> & Hle).
        destruct Hm as [-> (m' & -> & Hle')]; [exists m; split; [done|simpl in Hle; lia]|].
        split; [done|]. exists m'. split; [done|]. simpl in *. lia.
Qed.

Lemma drain_conserves n decodes fuel send rb : wf rb →
  ∃ rb' out, drain gcm_open decodes (no_faults n) fuel send rb = Ret (rb', out) ∧
    wf rb' ∧
    filter (λ r, decodes r) (contents rb) = out ++ filter (λ r, decodes r) (contents rb').
Proof.
  revert send rb. induction fuel as [|f IH]; intros send rb W; [by exists rb, []|].
  cbn [drain]. rewrite (read_batch_contents n batch_size rb W). cbn [mbind go_bind].
  destruct (take batch_size (contents rb)) as [|raw raws] eqn:Et; [by exists rb, []|].
  destruct (drain_batch_spec n decodes (raw :: raws) send rb (drop batch_size (contents rb)))
    as (rb' & out & send' & g & -> & W' & _ & Hf & _); [done| |].
  { by rewrite <- Et, take_drop. }
  destruct (negb g); [by exists rb', out|].
  destruct (length (raw :: raws) <? batch_size)%nat; [by exists rb', out|].
  destruct (IH send' rb' W') as (rb2 & out2 & -> & W2 & Hf2). cbn.
  exists rb2, (out ++ out2). split_and!; [done|done|].
  by rewrite Hf, Hf2, app_assoc.
Qed.

Lemma drain_empties n decodes fuel m rb : wf rb →
  (length (contents rb) <= m)%nat → (length (contents rb) < fuel * batch_size)%nat →
  ∃ rb', drain gcm_open decodes (no_faults n) fuel (replicate m (Some true)) rb
           = Ret (rb', filter (λ r, decodes r) (contents rb)) ∧
    contents rb' = [].
Proof.
  revert m rb. induction fuel as [|f IH]; intros m rb W Hm Hf; [lia|].
  cbn [drain]. rewrite (read_batch_contents n batch_size rb W). cbn [mbind go_bind].
  destruct (take batch_size (contents rb)) as [|raw raws] eqn:Et.
  { assert (contents rb = []) as E.
    { by destruct (contents rb). }
    exists rb. rewrite E. done. }
  assert (length (raw :: raws) <= length (contents rb))%nat as Hlen.
  { rewrite <- Et, length_take. lia. }
  destruct (drain_batch_spec n decodes (raw :: raws) (replicate m (Some true)) rb
              (drop batch_size (contents rb)))
    as (rb' & out & send' & g & -> & W' & _ & Hfl & Hg & Hall); [done| |].
  { by rewrite <- Et, take_drop. }
  destruct Hall as [-> (m' & -> & Hm')]; [exists m; split; [done|lia]|].
  specialize (Hg eq_refl). cbn [negb]. rewrite Hg in Hfl.
  destruct (Nat.ltb_spec (length (raw :: raws)) batch_size) as [Hs|Hs].
  - exists rb'. rewrite Hg. rewrite <- Et, length_take in Hs.
    rewrite drop_ge in * by lia. rewrite Hfl, filter_nil, app_nil_r. done.
  - assert (batch_size <= length (contents rb))%nat as Hb.
    { rewrite <- Et, length_take in Hs. lia. }
    destruct (IH m' rb' W') as (rb2 & -> & He).
    + rewrite Hg, length_drop. rewrite length_replicate in Hm'.
      rewrite <- Et, length_take in Hm'. lia.
    + rewrite Hg, length_drop. lia.
    + exists rb2. split; [|done]. cbn. by rewrite Hfl, Hg.
Qed.

(** ** Restart *)
Lemma starts_with_digit_digits f n acc : 0 <= n →
  starts_with_digit (digits_go (S f) n acc) = true.
Proof.
  revert n acc. induction f as [|f IH]; intros n acc Hn; cbn [digits_go].
  - destruct (n <? 10); apply digit_char; apply Z.mod_pos_bound; lia.
  - destruct (n <? 10); [apply digit_char; apply Z.mod_pos_bound; lia|].
    apply IH. apply Z.div_pos; lia.
Qed.

Lemma trim_left_digit s : starts_with_digit s = true → trim_left s = s.
Proof.
  destruct s as [|c s]; [done|]. simpl. unfold is_digit, is_space.
  set (n := Ascii.nat_of_ascii c). intros H. apply andb_true_iff in H as [H1 H2].
  apply Nat.leb_le in H1, H2.
  assert ((n <=? 13)%nat = false) as -> by (apply Nat.leb_gt; lia).
  assert ((n =? 32)%nat = false) as -> by (apply Nat.eqb_neq; lia).
  by rewrite andb_false_r.
Qed.

Lemma parse_segment_name s : is_u64 s → parse_name (segment_name s) = Some s.
Proof.
  intros Hs. unfold parse_name, segment_name.
  assert (has_suffix (pad0 20 (itoa s) +:+ ".buf") ".buf" = true) as ->
    by (apply has_suffix_spec; by eexists).
  cbn [negb]. unfold scan_u64.
  assert (starts_with_digit (itoa s) = true) as Hd.
  { unfold itoa. destruct (Z.ltb_spec s 0); [destruct Hs; lia|].
    apply starts_with_digit_digits. apply Hs. }
  assert (∀ k : nat, starts_with_digit (repeat_char "0"%char k +:+ itoa s +:+ ".buf") = true) as Hk.
  { intros [|k]; [|done]. destruct (itoa s); [done|]. exact Hd. }
  unfold pad0. rewrite <- append_assoc. rewrite trim_left_digit by apply Hk.
  specialize (Hk (20 - String.length (itoa s))%nat).
  assert (scan_digits (repeat_char "0"%char (20 - String.length (itoa s)) +:+ itoa s +:+ ".buf") 0
          = (s, ".buf")) as Hscan.
  { induction (20 - String.length (itoa s))%nat as [|k IHk]; simpl.
    - apply scan_itoa; [apply Hs|done].
    - rewrite <- IHk; [done|]. destruct k; [|done]. simpl. destruct (itoa s); [done|exact Hd]. }
  destruct (repeat_char "0"%char (20 - String.length (itoa s)) +:+ itoa s +:+ ".buf"); [done|].
  simpl in Hk. rewrite Hk, Hscan. destruct Hs.
  destruct (Z.ltb_spec s (2 ^ 64)); [done|lia].
Qed.

Lemma recover_step_segment mn mx t f s (n : Z) : is_u64 s →
  recover_step (mn, mx, t, f) (segment_name s, Some n)
  = (Z.min mn s, Z.max mx s, t + (n + 8), true).
Proof.
  intros Hs. unfold recover_step. cbn [fst snd]. rewrite parse_segment_name by done.
  f_equal; f_equal; f_equal; case_match; lia.
Qed.

Lemma recover_fold (l : list (Z * bytes)) mn mx t f :
  Forall (λ p, is_u64 p.1) l →
  foldl recover_step (mn, mx, t, f)
    ((λ p : Z * bytes, (segment_name p.1, Some (zlen p.2))) <$> l)
  = (foldl Z.min mn (l.*1), foldl Z.max mx (l.*1),
     foldl (λ a c, a + (zlen c + 8)) t (l.*2), f || negb (length l =? 0)%nat).
Proof.
  revert mn mx t f. induction l as [|[s c] l IH]; intros mn mx t f H.
  - by destruct f.
  - inversion_clear H. rewrite fmap_cons. cbn [foldl fst snd].
    rewrite recover_step_segment, IH by done. by rewrite orb_true_r.
Qed.

Lemma foldl_min_le l mn : foldl Z.min mn l <= mn ∧ (∀ x, x ∈ l → foldl Z.min mn l <= x).
Proof.
  revert mn. induction l as [|y l IH]; intros mn; simpl; [split; [lia|set_solver]|].
  destruct (IH (Z.min mn y)) as [H1 H2]. split; [lia|].
  intros x Hx. apply elem_of_cons in Hx as [->|Hx]; [lia|auto].
Qed.

Lemma foldl_max_ge l mx : mx <= foldl Z.max mx l ∧ (∀ x, x ∈ l → x <= foldl Z.max mx l).
Proof.
  revert mx. induction l as [|y l IH]; intros mx; simpl; [split; [lia|set_solver]|].
  destruct (IH (Z.max mx y)) as [H1 H2]. split; [lia|].
  intros x Hx. apply elem_of_cons in Hx as [->|Hx]; [lia|auto].
Qed.

Lemma foldl_min_glb l mn b : b <= mn → (∀ x, x ∈ l → b <= x) → b <= foldl Z.min mn l.
Proof.
  revert mn. induction l as [|y l IH]; intros mn Hb H; simpl; [done|].
  apply IH; [|set_solver]. specialize (H y). set_unfold. lia.
Qed.

Lemma foldl_max_lub l mx b : mx <= b → (∀ x, x ∈ l → x <= b) → foldl Z.max mx l <= b.
Proof.
  revert mx. induction l as [|y l IH]; intros mx Hb H; simpl; [done|].
  apply IH; [|set_solver]. specialize (H y). set_unfold. lia.
Qed.

Lemma foldl_total (l : list (Z * bytes)) t :
  foldl (λ a c, a + (zlen c + 8)) t (l.*2) = t + foldr (λ p a, zlen p.2 + 8 + a) 0 l.
Proof. revert t. induction l as [|[s c] l IH]; intros t; simpl; [lia|]. rewrite IH. lia. Qed.

Lemma disk_total_list d :
  disk_total d = foldr (λ p a, zlen p.2 + 8 + a) 0 (map_to_list d).
Proof.
  unfold disk_total. rewrite map_fold_foldr. induction (map_to_list d) as [|[s c] l IH];
    simpl; [done|]. unfold uncurry in *. simpl. by rewrite IH.
Qed.

Lemma recover_counters rb rb0 : wf rb → head rb < tail rb →
  let rb' := recover (Some (dir_entries (disk rb))) rb0 in
  head rb' = head rb ∧ tail rb' = tail rb ∧ used rb' = disk_total (disk rb) ∧
  disk rb' = disk rb0 ∧ key rb' = key rb0 ∧ dir_ok rb' = dir_ok rb0.
Proof.
  intros W Hlt. cbn zeta. unfold recover, dir_entries.
  assert (∀ x, x ∈ (map_to_list (disk rb)).*1 ↔ head rb <= x < tail rb) as Hin.
  { intros x. rewrite list_elem_of_fmap. split.
    - intros ([s c] & -> & Hs). apply elem_of_map_to_list in Hs.
      apply (wf_only rb W). by exists c.
    - intros Hx. destruct (wf_stored rb W x Hx) as (d & p & Hp & _).
      eexists (x, _). split; [done|]. by apply elem_of_map_to_list. }
  pose proof (wf_head rb W). pose proof (wf_tail rb W).
  rewrite recover_fold.
  2:{ apply Forall_forall. intros [s c] Hs. apply elem_of_map_to_list in Hs.
      pose proof (wf_only rb W s (mk_is_Some _ _ Hs)). unfold is_u64. simpl. lia. }
  assert (length (map_to_list (disk rb)) ≠ 0%nat) as Hne.
  { intros E. apply nil_length_inv in E. rewrite E in Hin. simpl in Hin.
    destruct (Hin (head rb)) as [_ Hx]. specialize (Hx ltac:(lia)). set_solver. }
  apply Nat.eqb_neq in Hne. rewrite Hne. cbn [negb orb head tail used disk key dir_ok].
  pose proof (foldl_min_le (map_to_list (disk rb)).*1 (2 ^ 64 - 1)) as [_ Hmin].
  pose proof (foldl_max_ge (map_to_list (disk rb)).*1 0) as [_ Hmax].
  pose proof (Hmin (head rb) ltac:(apply Hin; lia)).
  pose proof (Hmax (tail rb - 1) ltac:(apply Hin; lia)).
  pose proof (foldl_min_glb (map_to_list (disk rb)).*1 (2 ^ 64 - 1) (head rb) ltac:(lia)
                ltac:(intros x Hx; apply Hin in Hx; lia)).
  pose proof (foldl_max_lub (map_to_list (disk rb)).*1 0 (tail rb - 1) ltac:(lia)
                ltac:(intros x Hx; apply Hin in Hx; lia)).
  split_and!; [lia| |rewrite foldl_total, disk_total_list; lia|done..].
  rewrite wrap_u64_id by (unfold is_u64; lia). lia.
Qed.


(** ** The queue and its operations *)
Inductive op :=
| OWrite (n d : bytes)      (** [Write d], drawing the nonce [n] *)
| OAck (m : nat)
| ORead (m : nat).

Definition exec (rb : RingBuffer) (o : op) : go (RingBuffer * list bytes) :=
  match o with
  | OWrite n d => Ret ((write gcm_seal (no_faults n) rb d).1, [])
  | OAck m => Ret (ack m (no_faults []) rb, [])
  | ORead m => b ← read_batch gcm_open m (no_faults []) rb; Ret (rb, b)
  end.

Fixpoint execs (rb : RingBuffer) (os : list op) : go (RingBuffer * list (list bytes)) :=
  match os with
  | [] => Ret (rb, [])
  | o :: os' => r ← exec rb o; r' ← execs r.1 os'; Ret (r'.1, r.2 :: r'.2)
  end.

(** The specification: a queue that may forget its oldest batches to take a
    new one. *)
Inductive queue_step : list bytes → op → list bytes → list bytes → Prop :=
| q_write q n d k : queue_step q (OWrite n d) [] (drop k q ++ [d])
| q_ack q m : queue_step q (OAck m) [] (drop m q)
| q_read q m : queue_step q (ORead m) (take m q) q.

Inductive queue_run : list bytes → list op → list (list bytes) → list bytes → Prop :=
| qr_nil q : queue_run q [] [] q
| qr_cons q o out q1 os outs q2 :
    queue_step q o out q1 → queue_run q1 os outs q2 →
    queue_run q (o :: os) (out :: outs) q2.

Definition op_ok (k : option bytes) (o : op) : Prop :=
  match o with
  | OWrite n d => length n = nonce_size ∧ zlen d + overhead k <= max_read
  | _ => True
  end.

Lemma ack_tail n m rb : wf rb → tail (ack m (no_faults n) rb) <= tail rb.
Proof.
  intros W. pose proof (wf_head rb W). pose proof (wf_order rb W).
  assert (∀ m rb, tail (ack_loop m (no_faults n) rb) = tail rb) as Ht.
  { clear. induction m as [|m IH]; intros rb; [done|]. cbn [ack_loop].
    destruct (head rb <? tail rb); [|done]. by rewrite IH. }
  unfold ack, shrink_if_drained. case_match; [by rewrite Ht|]. simpl. lia.
Qed.

Lemma exec_spec rb o : wf rb → op_ok (key rb) o → tail rb + 1 < 2 ^ 64 →
  ∃ rb' out, exec rb o = Ret (rb', out) ∧ wf rb' ∧ key rb' = key rb ∧
    tail rb' <= tail rb + 1 ∧ queue_step (contents rb) o out (contents rb').
Proof.
  intros W Hok Ht. destruct o as [n d|m|m]; cbn [exec].
  - destruct Hok as [Hn Hd].
    destruct (write_spec n rb d W) as (rb' & k & E & W' & Hc & _ & _ & Ht' & [_ _ Hk]);
      [by split|].
    rewrite E. eexists _, _. split_and!; [done..|simpl; lia|]. simpl. rewrite Hc. constructor.
  - destruct (ack_spec [] m rb W) as (W' & Hc & [_ _ Hk]).
    pose proof (ack_tail [] m rb W).
    eexists _, _. split_and!; [done..|lia|]. rewrite Hc. constructor.
  - rewrite read_batch_contents by done. eexists _, _.
    split_and!; [done..|lia|constructor].
Qed.

Lemma execs_spec rb os : wf rb → Forall (op_ok (key rb)) os →
  tail rb + zlen os < 2 ^ 64 →
  ∃ rb' outs, execs rb os = Ret (rb', outs) ∧ wf rb' ∧
    queue_run (contents rb) os outs (contents rb').
Proof.
  revert rb. induction os as [|o os IH]; intros rb W Hok Ht.
  - exists rb, []. split_and!; [done..|constructor].
  - inversion_clear Hok. unfold zlen in *. cbn [length] in Ht.
    destruct (exec_spec rb o) as (rb1 & out & E & W1 & Hk & Ht1 & Hq); [done..|lia|].
    destruct (IH rb1) as (rb2 & outs & E2 & W2 & Hq2); [done|by rewrite Hk|lia|].
    exists rb2, (out :: outs). cbn [execs]. rewrite E. cbn. rewrite E2.
    split_and!; [done..|by econstructor].
Qed.

Lemma recover_contents rb rb0 : wf rb → head rb < tail rb →
  disk rb0 = disk rb → key rb0 = key rb → dir_ok rb0 = true →
  contents (recover (Some (dir_entries (disk rb))) rb0) = contents rb.
Proof.
  intros W Hlt Hd Hk Ho.
  destruct (recover_counters rb rb0 W Hlt) as (Hh & Ht & _ & Hd' & Hk' & Ho').
  unfold contents. rewrite Hh, Ht. apply omap_ext_in. intros x _.
  apply segment_data_ext; [rewrite Ho', Ho; symmetry; apply W|congruence..].
Qed.

Lemma read_unreadable φ rb m e :
  read_segment gcm_open φ rb (head rb) = Ret (Err e) →
  read_batch gcm_open m φ rb = Ret [].
Proof.
  intros He. unfold read_batch. destruct m; cbn [read_from]; [done|].
  destruct (head rb <? tail rb); [|done]. by rewrite He.
Qed.

(** ** Properties *)

(** C1: any sequence of writes, acknowledgements and batch reads on a
    well-formed spool returns (no panic), leaves it well formed, and its
    outputs and final contents are those of a FIFO queue that may only forget
    its oldest batches when a new one is written. *)
Theorem spool_refines_queue rb os : wf rb → Forall (op_ok (key rb)) os →
  tail rb + zlen os < 2 ^ 64 →
  ∃ rb' outs, execs rb os = Ret (rb', outs) ∧ wf rb' ∧
    queue_run (contents rb) os outs (contents rb').
Proof. apply execs_spec. Qed.

(** [Write] succeeds when the file system does; nothing is dropped when the
    batch fits; afterwards the byte counter and the segment count are within
    the caps, or the new batch is the only one left. *)
Theorem write_bounded n rb d : wf rb → writable n rb d →
  ∃ rb' k, write gcm_seal (no_faults n) rb d = (rb', None) ∧
    contents rb' = drop k (contents rb) ++ [d] ∧
    (fits rb d → k = 0%nat) ∧
    (used rb' <= max_bytes rb ∧ (0 < max_files rb → len rb' <= max_files rb)
     ∨ contents rb' = [d]).
Proof.
  intros W Hw. destruct (write_spec n rb d W Hw) as (rb' & k & ? & ? & ? & ? & ? & _).
  by exists rb', k.
Qed.

(** Whatever the sends return and however long the drain runs, the
    decodable batches of the spool are the ones sent, in order and each once,
    followed by the ones still in the spool. *)
Theorem drain_no_loss n decodes fuel send rb : wf rb →
  ∃ rb' out, drain gcm_open decodes (no_faults n) fuel send rb = Ret (rb', out) ∧
    wf rb' ∧
    filter (λ r, decodes r) (contents rb) = out ++ filter (λ r, decodes r) (contents rb').
Proof. apply drain_conserves. Qed.

(** When every send succeeds, a drain that runs for more rounds than a
    fiftieth of the spool sends every decodable batch and leaves it empty. *)
Theorem drain_completes n decodes fuel m rb : wf rb →
  (length (contents rb) <= m)%nat → (length (contents rb) < fuel * batch_size)%nat →
  ∃ rb', drain gcm_open decodes (no_faults n) fuel (replicate m (Some true)) rb
           = Ret (rb', filter (λ r, decodes r) (contents rb)) ∧
    contents rb' = [].
Proof. apply drain_empties. Qed.

(** A spool whose head segment cannot be read is never drained past it:
    the drain returns at once, having sent nothing and removed nothing, for
    any number of rounds and any state of the connection; the batches behind
    the head stay where they are. *)
Theorem drain_stuck_at_unreadable φ decodes fuel send rb e :
  read_segment gcm_open φ rb (head rb) = Ret (Err e) →
  drain gcm_open decodes φ fuel send rb = Ret (rb, []).
Proof.
  intros He. destruct fuel; cbn [drain]; [done|].
  by rewrite (read_unreadable φ rb batch_size e He).
Qed.

(** Over any run of successful writes and acknowledgements that never
    rebuilds the directory, the byte counter falls short of what the files on
    disk account for by 8 bytes per write, and by 36 when the spool is
    encrypted: a spool filled and drained ends with a negative counter. *)
Theorem byte_counter_drifts rb w rb' :
  run rb w rb' → wf rb → peak_files rb < shrink_at rb →
  used rb' - disk_total (disk rb')
  = used rb - disk_total (disk rb) - (8 + overhead (key rb)) * w.
Proof.
  intros Hr W Hs. destruct (run_invariant rb w rb' Hr W Hs) as (_ & _ & _ & Hb).
  exact Hb.
Qed.

(** A restart over the directory of a non-empty spool restores its head,
    its tail and its contents, and sets the byte counter to the size of the
    files plus 8 bytes each. *)
Theorem restart_restores rb max_mb : wf rb → head rb < tail rb →
  ∃ rb', new_ring_buffer (no_faults []) (disk rb) (Some (dir_entries (disk rb)))
           max_mb (key rb) = Ok rb' ∧
    head rb' = head rb ∧ tail rb' = tail rb ∧ contents rb' = contents rb ∧
    used rb' = disk_total (disk rb).
Proof.
  intros W Hlt. unfold new_ring_buffer. cbn [mkdir_fails no_faults].
  eexists. split; [done|].
  match goal with |- context [recover _ ?r] => set (rb0 := r) end.
  destruct (recover_counters rb rb0 W Hlt) as (Hh & Ht & Hu & _).
  split_and!; [done..| |done]. by apply recover_contents.
Qed.
End Proofs.

(** ** Witnesses *)
Definition toy_seal (k n p : bytes) : bytes := p ++ replicate 16 0.
Definition toy_open (k n c : bytes) : option bytes := Some (take (length c - 16) c).

#[export] Instance toy_gcm : GCM toy_seal toy_open.
Proof.
  split; intros k n p; unfold toy_open, toy_seal.
  - rewrite length_app, length_replicate, Nat.add_sub. by rewrite take_app_length.
  - by rewrite zlen_app.
Qed.

Definition toy_key : bytes := replicate 32 7.
Definition toy_nonce : bytes := replicate 12 1.
Definition toy_empty (k : option bytes) : RingBuffer :=
  mkRingBuffer true ∅ 70 2 1000 k 0 0 0 0.

Lemma toy_empty_wf k : (∀ b, k = Some b → aes_key_ok b = true) → wf toy_open (toy_empty k).
Proof. intros Hk. split; simpl; try done; try lia. intros s [c Hs]. done. Qed.

Lemma toy_writable k d rb : tail rb < 10 → key rb = k → zlen d < 100 →
  writable toy_nonce rb d.
Proof.
  intros Ht Hk Hd. split; [done|lia|]. unfold overhead, max_read. case_match; lia.
Qed.

(** An encrypted spool holding two batches, and a plain one. *)
Definition toy_two : RingBuffer :=
  (write toy_seal (no_faults toy_nonce)
    (write toy_seal (no_faults toy_nonce) (toy_empty (Some toy_key)) [1; 2]).1 [3]).1.

Lemma toy_two_wf : wf toy_open toy_two.
Proof.
  unfold toy_two.
  set (r0 := toy_empty (Some toy_key)).
  assert (wf toy_open r0) as W0 by (apply toy_empty_wf; intros b [= <-]; reflexivity).
  destruct (write_spec toy_seal toy_open toy_nonce r0 [1; 2] W0)
    as (r1 & k1 & E1 & W1 & _ & _ & _ & Ht & [_ _ Hk]).
  { by apply (toy_writable (Some toy_key)). }
  rewrite E1. cbn [fst].
  destruct (write_spec toy_seal toy_open toy_nonce r1 [3] W1) as (r2 & k2 & E2 & W2 & _).
  { apply (toy_writable (key r1)); [rewrite Ht; reflexivity|done..]. }
  by rewrite E2.
Qed.

Lemma spool_refines_queue_witness :
  ∃ rb' outs,
    execs toy_seal toy_open toy_two
      [ORead 5; OWrite toy_nonce [4; 4]; ORead 5; OAck 1; ORead 1] = Ret (rb', outs) ∧
    wf toy_open rb' ∧
    queue_run (contents toy_open toy_two)
      [ORead 5; OWrite toy_nonce [4; 4]; ORead 5; OAck 1; ORead 1] outs
      (contents toy_open rb').
Proof.
  apply (spool_refines_queue toy_seal toy_open).
  - apply toy_two_wf.
  - repeat constructor; vm_compute; done.
  - vm_compute. done.
Defined.

Lemma write_bounded_witness :
  ∃ rb' k, write toy_seal (no_faults toy_nonce) toy_two [5] = (rb', None) ∧
    contents toy_open rb' = drop k (contents toy_open toy_two) ++ [[5]] ∧
    (fits toy_two [5] → k = 0%nat) ∧
    (used rb' <= max_bytes toy_two ∧ (0 < max_files toy_two → len rb' <= max_files toy_two)
     ∨ contents toy_open rb' = [[5]]).
Proof.
  apply (write_bounded toy_seal toy_open).
  - apply toy_two_wf.
  - split; vm_compute; done.
Defined.

Lemma drain_no_loss_witness :
  ∃ rb' out, drain toy_open (λ r, (length r =? 1)%nat) (no_faults []) 3 [Some false] toy_two
      = Ret (rb', out) ∧
    wf toy_open rb' ∧
    filter (λ r, (length r =? 1)%nat) (contents toy_open toy_two)
    = out ++ filter (λ r, (length r =? 1)%nat) (contents toy_open rb').
Proof.
  apply (drain_no_loss toy_seal toy_open [] (λ r, (length r =? 1)%nat) 3 [Some false]).
  apply toy_two_wf.
Defined.

Lemma drain_completes_witness :
  ∃ rb', drain toy_open (λ _, true) (no_faults []) 1 (replicate 2 (Some true)) toy_two
           = Ret (rb', filter (λ r, true) (contents toy_open toy_two)) ∧
    contents toy_open rb' = [].
Proof.
  apply (drain_completes toy_seal toy_open [] (λ _, true) 1 2).
  - apply toy_two_wf.
  - vm_compute. lia.
  - vm_compute. lia.
Defined.

(** The same spool after a restart that lost the key. *)
Definition toy_lost_key : RingBuffer :=
  mkRingBuffer true (<[0 := put_uint64 5]> (disk toy_two)) 70 2 1000 (Some toy_key) 0 0 2 2.

Lemma drain_stuck_at_unreadable_witness :
  drain toy_open (λ _, true) (no_faults []) 7 [Some true; Some true] toy_lost_key
  = Ret (toy_lost_key, []).
Proof. apply (drain_stuck_at_unreadable toy_open _ _ _ _ _ "EOF"). reflexivity. Defined.

Lemma byte_counter_drifts_witness :
  let r1 := (write toy_seal (no_faults toy_nonce) (toy_empty None) [1; 2; 3]).1 in
  let r2 := ack 1 (no_faults []) r1 in
  disk r2 = ∅ ∧ used r2 - disk_total (disk r2) = -8.
Proof.
  cbn zeta. split; [reflexivity|].
  apply (byte_counter_drifts toy_seal toy_open (toy_empty None) (0 + 1)).
  - apply run_ack, run_write; [apply run_nil| |reflexivity].
    by apply (toy_writable None).
  - apply toy_empty_wf. done.
  - reflexivity.
Defined.

Lemma restart_restores_witness :
  ∃ rb', new_ring_buffer (no_faults []) (disk toy_two) (Some (dir_entries (disk toy_two)))
           100 (key toy_two) = Ok rb' ∧
    head rb' = head toy_two ∧ tail rb' = tail toy_two ∧
    contents toy_open rb' = contents toy_open toy_two ∧
    used rb' = disk_total (disk toy_two).
Proof.
  apply (restart_restores toy_seal toy_open).
  - apply toy_two_wf.
  - reflexivity.
Defined.
