(* ===== verification/Isolation.v ===== *)
(** * Isolation of endpoints

    [server/internal/isolation/guard.go] and [isolation.go]: the safety valve
    (cooldown, hourly budget, dry run) and the Gatekeeper, the only code that
    takes an endpoint off the network or puts it back.  The command bus and the
    audit table are the environment: each call is given what they answer, and
    produces the list of the calls made to them, in order. *)

From S2P Require Import Prelude GoStrings.

#[local] Open Scope string_scope.
#[local] Open Scope list_scope.
#[local] Open Scope Z_scope.

(** ** The guard *)
Definition DefaultCooldown : duration := 30 * minute.
Definition DefaultHourlyBudget : Z := 3.
Definition budgetWindow : duration := hour.

Record guard := mkGuard {
  cooldown : duration;
  budget : Z;
  window : duration;
  dryRun : bool;
  lastByAgent : gmap string time;
  recent : list time
}.

Definition newGuard (cd : duration) (b : Z) (dry : bool) : guard :=
  mkGuard (if cd <=? 0 then DefaultCooldown else cd)
    (if b <=? 0 then DefaultHourlyBudget else b) budgetWindow dry ∅ [].

Record verdict := mkVerdict { v_allow : bool; v_reason : string }.

Definition cooldown_reason (g : guard) : string :=
  "同じ端末を " +:+ duration_string (cooldown g)
  +:+ " 以内に再度隔離しようとしました（冷却期間中）".
Definition budget_reason (g : guard) : string :=
  "直近 " +:+ duration_string (window g)
  +:+ " の自動隔離が上限に達しました（サーキットブレーカー作動）".

Definition in_cooldown (g : guard) (now : time) (agent : string) : bool :=
  match lastByAgent g !! agent with
  | Some last => now - last <? cooldown g
  | None => false
  end.

(** [recent] without the entries that left the window. *)
Definition kept (g : guard) (now : time) : list time :=
  filter (λ t, now - window g < t) (recent g).

Definition set_recent (g : guard) (r : list time) : guard :=
  mkGuard (cooldown g) (budget g) (window g) (dryRun g) (lastByAgent g) r.

Definition allow (g : guard) (now : time) (agent : string) : guard * verdict :=
  if in_cooldown g now agent then (g, mkVerdict false (cooldown_reason g)) else
  let g := set_recent g (kept g now) in
  if budget g <=? zlen (recent g) then (g, mkVerdict false (budget_reason g)) else
  (mkGuard (cooldown g) (budget g) (window g) (dryRun g)
     (<[agent := now]> (lastByAgent g)) (recent g ++ [now]),
   mkVerdict true "").

(** ** Requests and results *)
Abbreviation Origin := string (only parsing).
Definition OriginManual : Origin := "manual".
Definition OriginQuarantineAction : Origin := "quarantine_action".
Definition OriginRule : Origin := "auto_rule".
Definition OriginPlaybook : Origin := "playbook".
Definition OriginAITriage : Origin := "ai_triage".
Definition OriginRemediation : Origin := "remediation".

Definition Unattended (o : Origin) : bool := negb (String.eqb o OriginManual).

Abbreviation Outcome := string (only parsing).
Definition OutcomeDispatched : Outcome := "dispatched".
Definition OutcomeDryRun : Outcome := "dry_run".
Definition OutcomeRefused : Outcome := "refused".
Definition OutcomeDisabled : Outcome := "disabled".
Definition OutcomeExempt : Outcome := "exempt".

Definition Executed (o : Outcome) : bool := String.eqb o OutcomeDispatched.

Record Request := mkRequest {
  AgentID : string;
  Reason : string;
  AlertID : string;
  req_Origin : Origin;
  TriggeredBy : string;
  Label : string;
  Hostname : string
}.

Record Result := mkResult { r_Outcome : Outcome; ActionID : string; r_Reason : string }.

Definition statusPending : string := "pending".
Definition statusDispatched : string := "dispatched".
Definition statusFailure : string := "failure".
Definition statusSuppressed : string := "suppressed".
Definition ErrNoAgent : string := "isolation: agent id is required".

(** ** The environment: [CommandSender] and [ActionRecorder] *)
Inductive Call :=
| Record_ (agent action status by_ : string) (details : gmap string string)
| Complete (id status err : string)
| IsolateEndpoint (agent reason alert command actor : string)
| UnisolateEndpoint (agent reason command : string).

(** What the environment answers during one request: the clock, the id (or the
    error) of [Record], the error (if any) of the send. *)
Record Env := mkEnv {
  now : time;
  record_answer : res string;
  send_answer : option string
}.

Record Gatekeeper := mkGatekeeper {
  has_commands : bool;        (** [commands != nil] *)
  has_actions : bool;         (** [actions != nil] *)
  g_guard : guard;
  unattendedEnabled : bool;
  exempt : list string;
  hostnameFor : option (string → string)
}.

Record Config := mkConfig {
  UnattendedEnabled : bool;
  Cooldown : duration;
  HourlyBudget : Z;
  DryRun : bool;
  Exempt : list string;
  HostnameResolver : option (string → string)
}.

Definition New (commands actions : bool) (cfg : Config) : Gatekeeper :=
  mkGatekeeper commands actions (newGuard (Cooldown cfg) (HourlyBudget cfg) (DryRun cfg))
    (UnattendedEnabled cfg) (Exempt cfg) (HostnameResolver cfg).

Fixpoint IsExempt (l : list string) (hostname agentID : string) : bool :=
  match l with
  | [] => false
  | ex :: l' =>
      let ex := trim_space ex in
      if String.eqb ex "" then IsExempt l' hostname agentID else
      if String.eqb ex agentID || (negb (String.eqb hostname "") && equal_fold ex hostname)
      then true else IsExempt l' hostname agentID
  end.

Definition actorOf (req : Request) : string :=
  if String.eqb (TriggeredBy req) "" then req_Origin req else TriggeredBy req.

(** ** Audit rows *)
Definition record (e : Env) (g : Gatekeeper) (req : Request) (action status : string)
    (extra : gmap string string) : string * list Call :=
  if negb (has_actions g) then ("", []) else
  let details : gmap string string := {[ "reason" := Reason req; "origin" := req_Origin req ]} in
  let details := if String.eqb (AlertID req) "" then details
                 else <["alert_id" := AlertID req]> details in
  let details := if String.eqb (Label req) "" then details
                 else <["label" := Label req]> details in
  let details := extra ∪ details in
  (match record_answer e with Ok id => id | Err _ => "" end,
   [Record_ (AgentID req) action status (actorOf req) details]).

Definition complete (g : Gatekeeper) (id status err : string) : list Call :=
  if negb (has_actions g) || String.eqb id "" then [] else [Complete id status err].

Definition suppress (e : Env) (g : Gatekeeper) (req : Request) (outcome : Outcome)
    (reason : string) : Result * list Call :=
  let '(id, calls) := record e g req "isolate" statusSuppressed
    {[ "outcome" := outcome; "reason" := reason; "origin" := req_Origin req;
       "label" := Label req ]} in
  (mkResult outcome id reason, calls).

(** ** Isolate *)
Record Reply := mkReply { result : Result; error : option string }.

Definition with_guard (g : Gatekeeper) (gd : guard) : Gatekeeper :=
  mkGatekeeper (has_commands g) (has_actions g) gd (unattendedEnabled g) (exempt g)
    (hostnameFor g).

Definition isolate_defaults (req : Request) : Request :=
  let o := if String.eqb (req_Origin req) "" then OriginRemediation else req_Origin req in
  mkRequest (AgentID req) (if String.eqb (Reason req) "" then o else Reason req)
    (AlertID req) o (TriggeredBy req) (Label req) (Hostname req).

Definition exempt_host (g : Gatekeeper) (req : Request) : string :=
  match hostnameFor g with
  | Some f => if String.eqb (Hostname req) "" then f (AgentID req) else Hostname req
  | None => Hostname req
  end.

Definition is_exempt_request (g : Gatekeeper) (req : Request) : bool :=
  (0 <? zlen (exempt g)) && IsExempt (exempt g) (exempt_host g req) (AgentID req).

(** The safety valves of an unattended request: the guard afterwards, and the
    suppression they decide. *)
Definition valves (e : Env) (g : Gatekeeper) (req : Request)
    : guard * option (Outcome * string) :=
  if negb (Unattended (req_Origin req)) then (g_guard g, None) else
  if negb (unattendedEnabled g) then
    (g_guard g, Some (OutcomeDisabled, "AUTO_RESPONSE_ENABLED=false のため無人隔離は行いません")) else
  if is_exempt_request g req then
    (g_guard g, Some (OutcomeExempt, "AUTO_ISOLATE_EXEMPT に含まれるため隔離しません")) else
  let '(gd, v) := allow (g_guard g) (now e) (AgentID req) in
  if negb (v_allow v) then (gd, Some (OutcomeRefused, v_reason v)) else
  if dryRun gd then (gd, Some (OutcomeDryRun, "AUTO_ISOLATE_DRY_RUN=true のため記録のみ")) else
  (gd, None).

Definition dispatch_isolate (e : Env) (g : Gatekeeper) (req : Request) : Reply * list Call :=
  let '(id, calls) := record e g req "isolate" statusPending ∅ in
  let sent := [IsolateEndpoint (AgentID req) (Reason req) (AlertID req) id (actorOf req)] in
  match send_answer e with
  | Some err =>
      (mkReply (mkResult OutcomeDisabled id err)
         (Some ("isolation: dispatch to " +:+ AgentID req +:+ ": " +:+ err)),
       calls ++ sent ++ complete g id statusFailure err)
  | None =>
      (mkReply (mkResult OutcomeDispatched id "") None,
       calls ++ sent ++ complete g id statusDispatched "")
  end.

Definition Isolate (e : Env) (g : Gatekeeper) (req : Request) : Gatekeeper * Reply * list Call :=
  if String.eqb (AgentID req) "" then (g, mkReply (mkResult "" "" "") (Some ErrNoAgent), []) else
  let req := isolate_defaults req in
  let '(gd, stop) := valves e g req in
  let g := with_guard g gd in
  match stop with
  | Some (outcome, reason) =>
      let '(r, calls) := suppress e g req outcome reason in (g, mkReply r None, calls)
  | None =>
      if negb (has_commands g) then
        let '(r, calls) :=
          suppress e g req OutcomeDisabled "コマンド送出先が構成されていません" in
        (g, mkReply r None, calls)
      else let '(r, calls) := dispatch_isolate e g req in (g, r, calls)
  end.

(** A nil [*Gatekeeper]. *)
Definition not_configured : Reply :=
  mkReply (mkResult OutcomeDisabled "" "隔離経路が構成されていません") None.

Definition Isolate_ptr (e : Env) (g : option Gatekeeper) (req : Request)
    : option Gatekeeper * Reply * list Call :=
  match g with
  | None => (None, not_configured, [])
  | Some g => let '(g', r, calls) := Isolate e g req in (Some g', r, calls)
  end.

Definition DryRun_ptr (g : option Gatekeeper) : bool :=
  match g with Some g => dryRun (g_guard g) | None => false end.

(** ** Unisolate *)
Definition unisolate_defaults (req : Request) : Request :=
  mkRequest (AgentID req) (if String.eqb (Reason req) "" then "隔離解除" else Reason req)
    (AlertID req) (if String.eqb (req_Origin req) "" then OriginManual else req_Origin req)
    (TriggeredBy req) (Label req) (Hostname req).

Definition Unisolate (e : Env) (g : Gatekeeper) (req : Request) : Reply * list Call :=
  if String.eqb (AgentID req) "" then (mkReply (mkResult "" "" "") (Some ErrNoAgent), []) else
  let req := unisolate_defaults req in
  if negb (has_commands g) then
    let '(r, calls) := suppress e g req OutcomeDisabled "コマンド送出先が構成されていません" in
    (mkReply r None, calls)
  else
    let '(id, calls) := record e g req "unisolate" statusPending ∅ in
    let sent := [UnisolateEndpoint (AgentID req) (Reason req) id] in
    match send_answer e with
    | Some err =>
        (mkReply (mkResult OutcomeDisabled id err)
           (Some ("isolation: unisolate dispatch to " +:+ AgentID req +:+ ": " +:+ err)),
         calls ++ sent ++ complete g id statusFailure err)
    | None =>
        (mkReply (mkResult OutcomeDispatched id "") None,
         calls ++ sent ++ complete g id statusDispatched "")
    end.

Definition Unisolate_ptr (e : Env) (g : option Gatekeeper) (req : Request)
    : Reply * list Call :=
  match g with None => (not_configured, []) | Some g => Unisolate e g req end.
