(* ===== verification/IsolationProofs.v ===== *)
(** * The isolation safety valve holds for the fleet

    Over any sequence of isolation requests from any origins: unattended
    isolations respect the hourly budget and the per-endpoint cooldown, a
    request is dispatched exactly when the configuration and the valves let it,
    and every decision leaves one audit row, written before the command. *)

From S2P Require Import Prelude GoStrings Isolation.

#[local] Open Scope string_scope.
#[local] Open Scope list_scope.
#[local] Open Scope Z_scope.

(** ** One decision of the guard *)
Definition full (g : guard) (t : time) : bool := budget g <=? zlen (kept g t).

Definition same_settings (g g' : guard) : Prop :=
  cooldown g' = cooldown g ∧ budget g' = budget g ∧ window g' = window g ∧
  dryRun g' = dryRun g.

Lemma allow_spec g t a :
  let '(g', v) := allow g t a in
  same_settings g g' ∧
  v_allow v = negb (in_cooldown g t a) && negb (full g t) ∧
  (v_allow v = true → recent g' = kept g t ++ [t] ∧ lastByAgent g' = <[a := t]> (lastByAgent g)) ∧
  (v_allow v = false → (recent g' = recent g ∨ recent g' = kept g t) ∧
     lastByAgent g' = lastByAgent g).
Proof.
  unfold allow, full. destruct (in_cooldown g t a); simpl.
  { split_and!; [done..| |]; intros; [done|]. split; [by left|done]. }
  destruct (budget g <=? zlen (kept g t)); simpl.
  - split_and!; [done..| |]; intros; [done|]. split; [by right|done].
  - split_and!; done.
Qed.

(** How many of [l] are later than [x]. *)
Definition later (x : time) (l : list time) : Z := zlen (filter (λ t, x < t) l).

Lemma later_app x l1 l2 : later x (l1 ++ l2) = later x l1 + later x l2.
Proof. unfold later. by rewrite filter_app, zlen_app. Qed.

Lemma later_nonneg x l : 0 <= later x l.
Proof. apply zlen_nonneg. Qed.

Lemma later_kept g t x : t - window g <= x → later x (kept g t) = later x (recent g).
Proof.
  intros Hx. unfold later, kept. rewrite list_filter_filter. f_equal.
  apply list_filter_iff. intros y. lia.
Qed.

Lemma later_mono x y l : x <= y → later y l <= later x l.
Proof.
  intros Hxy. unfold later, zlen. induction l as [|t l IH]; [done|].
  rewrite !filter_cons. repeat case_decide; simpl; lia.
Qed.

(** ** What has been sent *)
Definition is_isolate (c : Call) : bool :=
  match c with IsolateEndpoint _ _ _ _ _ => true | _ => false end.

Definition sends (calls : list Call) : bool := existsb is_isolate calls.

(** The unattended isolation commands put on the bus by a sequence of requests,
    with their times. *)
Definition unattended_send (e : Env) (req : Request) (calls : list Call) : list (time * string) :=
  if Unattended (req_Origin (isolate_defaults req)) && sends calls
  then [(now e, AgentID req)] else [].

Fixpoint serve (g : Gatekeeper) (rs : list (Env * Request))
    : Gatekeeper * list (time * string) :=
  match rs with
  | [] => (g, [])
  | (e, req) :: rs' =>
      let '(g1, _, calls) := Isolate e g req in
      let '(g2, s) := serve g1 rs' in
      (g2, unattended_send e req calls ++ s)
  end.

(** The clock of the process does not go back. *)
Fixpoint clock_from (t : time) (rs : list (Env * Request)) : Prop :=
  match rs with [] => True | (e, _) :: rs' => t <= now e ∧ clock_from (now e) rs' end.

(** ** The fleet invariant *)
Definition in_window (w t x : Z) : Prop := t - w < x ≤ t.
#[export] Instance in_window_dec w t x : Decision (in_window w t x).
Proof. unfold in_window. apply _. Defined.

Definition within (w t : Z) (S : list (time * string)) : Z :=
  zlen (filter (λ p, in_window w t p.1) S).

Definition spaced (cd : Z) (S : list (time * string)) : Prop :=
  ∀ i j t1 t2 a, (i < j)%nat → S !! i = Some (t1, a) → S !! j = Some (t2, a) → t1 + cd <= t2.

Record fleet (g : guard) (last : time) (S : list (time * string)) : Prop := {
  fl_past : ∀ p, p ∈ S → p.1 <= last;
  fl_counted : ∀ x, last - window g <= x → later x S.*1 <= later x (recent g);
  fl_agent : ∀ p, p ∈ S → ∃ l, lastByAgent g !! p.2 = Some l ∧ p.1 <= l;
  fl_budget : ∀ t, within (window g) t S <= budget g;
  fl_cooldown : spaced (cooldown g) S
}.

Lemma within_snoc w t S x :
  within w t (S ++ [x]) = within w t S + (if decide (in_window w t x.1) then 1 else 0).
Proof.
  unfold within. rewrite filter_app, zlen_app, filter_cons, filter_nil.
  by case_decide.
Qed.

Lemma within_later w t S : within w t S <= later (t - w) S.*1.
Proof.
  unfold within, later, zlen. induction S as [|p S IH]; [done|].
  rewrite fmap_cons, !filter_cons. unfold in_window in *.
  repeat case_decide; simpl; lia.
Qed.

Lemma spaced_snoc cd S t a : spaced cd S →
  (∀ p, p ∈ S → p.2 = a → p.1 + cd <= t) → spaced cd (S ++ [(t, a)]).
Proof.
  intros HS Ha i j t1 t2 b Hij Hi Hj.
  apply lookup_snoc_Some in Hj as [[Hj Hj']|[-> [= <- <-]]].
  - rewrite lookup_app_l in Hi by lia. eauto.
  - rewrite lookup_app_l in Hi by lia. apply (Ha (t1, a)); [|done].
    by eapply list_elem_of_lookup_2.
Qed.

Lemma fleet_new cd b dry last : fleet (newGuard cd b dry) last [].
Proof.
  split; simpl; try set_solver; try done.
  intros t. unfold within, zlen. simpl. case_cmp; [done|lia].
Qed.

(** The invariant survives a decision that sends nothing, at any later time. *)
Lemma fleet_refused g g' last t S : fleet g last S → last <= t → same_settings g g' →
  (recent g' = recent g ∨ recent g' = kept g t) → lastByAgent g' = lastByAgent g →
  fleet g' t S.
Proof.
  intros [Hp Hc Ha Hb Hs] Ht (Ecd & Eb & Ew & _) Hr Hl. split; rewrite ?Ew, ?Eb, ?Ecd, ?Hl; auto.
  - intros p Hin. specialize (Hp p Hin). lia.
  - intros x Hx. specialize (Hc x ltac:(lia)). destruct Hr as [-> | ->]; [done|].
    by rewrite later_kept by lia.
Qed.

(** An allowed decision, whether or not the command goes out afterwards. *)
Lemma fleet_allowed g g' last t a S sent : 0 <= window g → fleet g last S → last <= t →
  same_settings g g' → in_cooldown g t a = false → full g t = false →
  recent g' = kept g t ++ [t] → lastByAgent g' = <[a := t]> (lastByAgent g) →
  fleet g' t (S ++ (if sent : bool then [(t, a)] else [])).
Proof.
  intros Hw [Hp Hc Ha Hb Hs] Ht (Ecd & Eb & Ew & _) Hcd Hf Hr Hl.
  assert (∀ x, t - window g <= x → later x S.*1 <= later x (kept g t)) as Hc'.
  { intros x Hx. rewrite later_kept by done. apply Hc. lia. }
  assert (∀ p, p ∈ S → ∃ l, <[a:=t]> (lastByAgent g) !! p.2 = Some l ∧ p.1 <= l) as Ha'.
  { intros p Hin. destruct (decide (p.2 = a)) as [->|Hne].
    - exists t. rewrite lookup_insert_eq. split; [done|]. specialize (Hp p Hin). lia.
    - rewrite lookup_insert_ne by done. by apply Ha. }
  split; rewrite ?Ew, ?Eb, ?Ecd, ?Hl, ?Hr.
  - intros p Hin. apply elem_of_app in Hin as [Hin|Hin].
    + specialize (Hp p Hin). lia.
    + destruct sent; [|set_solver]. apply list_elem_of_singleton in Hin as ->. simpl. lia.
  - intros x Hx. rewrite fmap_app, !later_app. specialize (Hc' x Hx).
    pose proof (later_nonneg x [t]).
    destruct sent; simpl; [lia|]. change (later x []) with 0. lia.
  - intros p Hin. apply elem_of_app in Hin as [Hin|Hin]; [by apply Ha'|].
    destruct sent; [|set_solver]. apply list_elem_of_singleton in Hin as ->.
    exists t. simpl. rewrite lookup_insert_eq. by split.
  - intros u. destruct sent; [|by rewrite app_nil_r]. rewrite within_snoc. simpl.
    specialize (Hb u). case_decide as Hin; [|lia]. unfold in_window in Hin.
    pose proof (within_later (window g) u S). pose proof (Hc' (t - window g) ltac:(lia)).
    pose proof (later_mono (t - window g) (u - window g) S.*1 ltac:(lia)).
    unfold full in Hf. assert (later (t - window g) (kept g t) <= zlen (kept g t)).
    { unfold later, zlen. pose proof (length_filter (λ y, t - window g < y) (kept g t)). lia. }
    lia.
  - destruct sent; [|by rewrite app_nil_r]. apply spaced_snoc; [done|].
    intros p Hin <-. destruct (Ha p Hin) as (l & El & Hle).
    unfold in_cooldown in Hcd. rewrite El in Hcd. lia.
Qed.

(** ** One request *)
Lemma sends_app a b : sends (a ++ b) = sends a || sends b.
Proof. apply existsb_app. Qed.

Lemma sends_record e g req action status extra :
  sends (record e g req action status extra).2 = false.
Proof. unfold record. by destruct (has_actions g). Qed.

Lemma sends_complete g id status err : sends (complete g id status err) = false.
Proof. unfold complete. by case_match. Qed.

Lemma sends_suppress e g req o r : sends (suppress e g req o r).2 = false.
Proof.
  unfold suppress. pose proof (sends_record e g req "isolate" statusSuppressed
    {["outcome" := o; "reason" := r; "origin" := req_Origin req; "label" := Label req]}).
  by destruct (record _ _ _ _ _ _).
Qed.

Lemma sends_dispatch e g req : sends (dispatch_isolate e g req).2 = true.
Proof.
  unfold dispatch_isolate. pose proof (sends_record e g req "isolate" statusPending ∅).
  destruct (record _ _ _ _ _ _) as [id calls]. simpl in *.
  destruct (send_answer e); simpl; rewrite sends_app; apply orb_true_r.
Qed.

(** What [Isolate] does to the guard and whether it puts a command on the bus. *)
Lemma isolate_shape e g req :
  let '(g', r, calls) := Isolate e g req in
  let req' := isolate_defaults req in
  let '(gd, stop) := valves e g req' in
  if String.eqb (AgentID req) "" then g' = g ∧ calls = []
  else g' = with_guard g gd ∧
       sends calls = match stop with Some _ => false | None => has_commands g end.
Proof.
  unfold Isolate. destruct (String.eqb (AgentID req) "") eqn:E.
  { by destruct (valves e g (isolate_defaults req)). }
  destruct (valves e g (isolate_defaults req)) as [gd [[o r]|]].
  - pose proof (sends_suppress e (with_guard g gd) (isolate_defaults req) o r).
    by destruct (suppress _ _ _ _ _).
  - change (has_commands (with_guard g gd)) with (has_commands g).
    destruct (has_commands g); simpl.
    + pose proof (sends_dispatch e (with_guard g gd) (isolate_defaults req)).
      by destruct (dispatch_isolate _ _ _).
    + pose proof (sends_suppress e (with_guard g gd) (isolate_defaults req)
        OutcomeDisabled "コマンド送出先が構成されていません").
      by destruct (suppress _ _ _ _ _).
Qed.

(** When the valves let an unattended request through. *)
Definition valves_open (e : Env) (g : Gatekeeper) (req : Request) : bool :=
  unattendedEnabled g && negb (is_exempt_request g req) &&
  negb (in_cooldown (g_guard g) (now e) (AgentID req)) && negb (full (g_guard g) (now e)) &&
  negb (dryRun (g_guard g)).

Lemma valves_spec e g req :
  let '(gd, stop) := valves e g req in
  same_settings (g_guard g) gd ∧
  (Unattended (req_Origin req) = false → gd = g_guard g ∧ stop = None) ∧
  (Unattended (req_Origin req) = true → (stop = None ↔ valves_open e g req = true) ∧
    ((stop ≠ None ∧ (recent gd = recent (g_guard g) ∨ recent gd = kept (g_guard g) (now e)) ∧
        lastByAgent gd = lastByAgent (g_guard g))
     ∨ (in_cooldown (g_guard g) (now e) (AgentID req) = false ∧
        full (g_guard g) (now e) = false ∧
        recent gd = kept (g_guard g) (now e) ++ [now e] ∧
        lastByAgent gd = <[AgentID req := now e]> (lastByAgent (g_guard g))))).
Proof.
  unfold valves, valves_open.
  destruct (Unattended (req_Origin req)); cbn [negb]; [|by split_and!].
  destruct (unattendedEnabled g); simpl; [|split_and!; [done..|]; intros _; split; [done|left; by eauto]].
  destruct (is_exempt_request g req); simpl; [split_and!; [done..|]; intros _; split; [done|left; by eauto]|].
  pose proof (allow_spec (g_guard g) (now e) (AgentID req)) as Ha.
  destruct (allow _ _ _) as [gd v]. destruct Ha as (Hs & Hv & Ht & Hf). rewrite <- Hv.
  destruct (v_allow v) eqn:Ev; simpl.
  - destruct (Ht eq_refl) as [Hr Hl]. symmetry in Hv. apply andb_true_iff in Hv as [H1 H2].
    apply negb_true_iff in H1, H2. assert (dryRun gd = dryRun (g_guard g)) as Hd by apply Hs.
    rewrite Hd. destruct (dryRun (g_guard g)); (split_and!; [done..|]; intros _; split; [done|]);
      right; done.
  - destruct (Hf eq_refl) as [Hr Hl]. split_and!; [done..|]. intros _. split; [done|]. left. done.
Qed.

Lemma same_settings_trans a b c : same_settings a b → same_settings b c → same_settings a c.
Proof. unfold same_settings. intuition congruence. Qed.

Lemma fleet_isolate e g req last S : 0 <= window (g_guard g) →
  fleet (g_guard g) last S → last <= now e →
  let '(g', _, calls) := Isolate e g req in
  same_settings (g_guard g) (g_guard g') ∧
  fleet (g_guard g') (now e) (S ++ unattended_send e req calls).
Proof.
  intros Hw Hfl Ht. pose proof (isolate_shape e g req) as Hi.
  destruct (Isolate e g req) as [[g' r] calls]. cbn zeta in Hi.
  pose proof (valves_spec e g (isolate_defaults req)) as Hv.
  destruct (valves e g (isolate_defaults req)) as [gd stop].
  destruct Hv as (Hs & Hm & Hu). unfold unattended_send.
  assert (fleet (g_guard g) (now e) S) as Hrefl.
  { apply (fleet_refused (g_guard g) (g_guard g) last); [done..|by left|done]. }
  destruct (String.eqb (AgentID req) "").
  { destruct Hi as [-> ->]. rewrite andb_false_r, app_nil_r. done. }
  destruct Hi as [-> ->]. cbn [g_guard with_guard]. split; [done|].
  destruct (Unattended (req_Origin (isolate_defaults req))); cbn [andb].
  - destruct (Hu eq_refl) as [_ [(Hstop & Hr & Hl)|(Hc & Hf & Hr & Hl)]].
    + destruct stop; [|done]. rewrite app_nil_r. by apply (fleet_refused (g_guard g) gd last).
    + by eapply (fleet_allowed (g_guard g) gd last).
  - destruct (Hm eq_refl) as [-> _]. by rewrite app_nil_r.
Qed.

Lemma fleet_serve g rs last S : 0 <= window (g_guard g) →
  fleet (g_guard g) last S → clock_from last rs →
  let '(g', s) := serve g rs in
  same_settings (g_guard g) (g_guard g') ∧
  ∃ last', fleet (g_guard g') last' (S ++ s).
Proof.
  revert g last S. induction rs as [|[e req] rs IH]; intros g last S Hw Hfl Hc.
  - simpl. rewrite app_nil_r. split; [done|]. by exists last.
  - destruct Hc as [Hle Hc]. cbn [serve].
    pose proof (fleet_isolate e g req last S Hw Hfl Hle) as H1.
    destruct (Isolate e g req) as [[g1 r] calls]. destruct H1 as [Hs1 H1].
    assert (window (g_guard g1) = window (g_guard g)) as Ew by apply Hs1.
    specialize (IH g1 (now e) (S ++ unattended_send e req calls) ltac:(lia) H1 Hc).
    destruct (serve g1 rs) as [g2 s]. destruct IH as [Hs2 [last' H2]].
    split; [by eapply same_settings_trans|]. exists last'. by rewrite app_assoc.
Qed.

Lemma fleet_from_new cm ac cfg rs t0 : clock_from t0 rs →
  let g := g_guard (New cm ac cfg) in
  let s := (serve (New cm ac cfg) rs).2 in
  (∀ t, within hour t s <= budget g) ∧ spaced (cooldown g) s.
Proof.
  intros Hc. cbn zeta.
  pose proof (fleet_serve (New cm ac cfg) rs t0 []) as H.
  destruct (serve (New cm ac cfg) rs) as [g' s].
  destruct H as [Hs [last' [_ _ _ Hb Hcd]]]; [unfold New; simpl; done|apply fleet_new|done|].
  destruct Hs as (E1 & E2 & E3 & _). cbn [app snd] in *.
  rewrite E1 in Hcd. rewrite E2, E3 in Hb. split; [|done]. exact Hb.
Qed.

(** ** Properties *)

(** C7: whatever the sequence of requests and their origins, while the clock
    does not go back, the number of unattended isolation commands a gatekeeper
    puts on the bus in any window of one hour is at most its hourly budget. *)
Theorem fleet_budget cm ac cfg rs t0 : clock_from t0 rs →
  ∀ t, within hour t (serve (New cm ac cfg) rs).2
       <= (if HourlyBudget cfg <=? 0 then DefaultHourlyBudget else HourlyBudget cfg).
Proof. intros Hc. by destruct (fleet_from_new cm ac cfg rs t0 Hc). Qed.

(** Under the same conditions two unattended isolations of the same endpoint
    are at least the cooldown apart. *)
Theorem endpoint_cooldown cm ac cfg rs t0 : clock_from t0 rs →
  spaced (if Cooldown cfg <=? 0 then DefaultCooldown else Cooldown cfg)
    (serve (New cm ac cfg) rs).2.
Proof. intros Hc. by destruct (fleet_from_new cm ac cfg rs t0 Hc). Qed.

(** A request that names an endpoint puts the isolation command on the bus
    exactly when a command sender is configured and either a person asked for it
    or every valve is open (automation enabled, endpoint not exempt, out of
    cooldown, budget left, not a dry run); a person's request does not touch the
    guard; the reported outcome is "dispatched" exactly when the command went
    out and the send succeeded. *)
Theorem isolate_decision e g req : AgentID req ≠ "" →
  let '(g', r, calls) := Isolate e g req in
  let req' := isolate_defaults req in
  sends calls = has_commands g &&
                (negb (Unattended (req_Origin req')) || valves_open e g req') ∧
  (Unattended (req_Origin req') = false → g' = g) ∧
  Executed (r_Outcome (result r)) =
    sends calls && match send_answer e with None => true | Some _ => false end.
Proof.
  intros Hne. pose proof (isolate_shape e g req) as Hi. unfold Isolate in *.
  apply String.eqb_neq in Hne. rewrite Hne in *.
  pose proof (valves_spec e g (isolate_defaults req)) as Hv.
  assert (∀ gd o r, Executed (r_Outcome (suppress e (with_guard g gd) (isolate_defaults req) o r).1)
            = Executed o) as Hsup.
  { intros gd o r. unfold suppress. by destruct (record _ _ _ _ _ _). }
  destruct (valves e g (isolate_defaults req)) as [gd stop] eqn:Ev.
  destruct Hv as (_ & Hm & Hu).
  assert (match stop with Some (o, _) => Executed o = false | None => True end) as Hex.
  { clear -Ev. unfold valves in Ev. repeat (case_match; simplify_eq; try done). }
  assert (match stop with None => true | Some _ => false end
    = negb (Unattended (req_Origin (isolate_defaults req))) || valves_open e g (isolate_defaults req))
    as Hstop.
  { destruct (Unattended _); simpl.
    - destruct (Hu eq_refl) as [Hiff _]. clear -Hiff; destruct stop, (valves_open _ _ _); naive_solver.
    - by destruct (Hm eq_refl) as [_ ->]. }
  rewrite <- Hstop.
  assert (Unattended (req_Origin (isolate_defaults req)) = false → with_guard g gd = g) as Hg.
  { intros Hun. destruct (Hm Hun) as [-> _]. by destruct g. }
  destruct stop as [[o rs]|].
  - specialize (Hsup gd o rs). destruct (suppress _ _ _ _ _) as [r calls]. destruct Hi as [_ ->].
    rewrite andb_false_r. split_and!; [done..|]. simpl in *. by rewrite Hsup.
  - change (has_commands (with_guard g gd)) with (has_commands g) in *.
    rewrite andb_true_r. destruct (has_commands g) eqn:Ehc; simpl in *.
    + unfold dispatch_isolate in *. destruct (record _ _ _ _ _ _).
      destruct (send_answer e); destruct Hi as [_ ->]; by split_and!.
    + specialize (Hsup gd OutcomeDisabled "コマンド送出先が構成されていません").
      destruct (suppress _ _ _ _ _) as [r calls]. destruct Hi as [_ ->].
      by split_and!.
Qed.

(** One audit row at the head of the calls, and no other row after it. *)
Definition one_row (agent action status by_ : string) (calls : list Call)
    (details : gmap string string) (rest : list Call) : Prop :=
  calls = Record_ agent action status by_ details :: rest ∧
  (∀ a b c d m, Record_ a b c d m ∉ rest).

Lemma record_row e g req action status extra : has_actions g = true →
  ∃ details id, record e g req action status extra
      = (id, [Record_ (AgentID req) action status (actorOf req) details]) ∧
    (∀ i, record_answer e = Ok i → id = i) ∧
    (extra !! "reason" = None → details !! "reason" = Some (Reason req)) ∧
    (extra !! "origin" = None → details !! "origin" = Some (req_Origin req)) ∧
    (∀ k v, extra !! k = Some v → details !! k = Some v).
Proof.
  intros Ha. unfold record. rewrite Ha. cbn [negb]. eexists _, _. split; [done|].
  split_and!.
  - by intros i ->.
  - intros Hx. rewrite lookup_union_r by done. repeat case_match; by simplify_map_eq.
  - intros Hx. rewrite lookup_union_r by done. repeat case_match; by simplify_map_eq.
  - intros k v Hk. by apply lookup_union_Some_l.
Qed.

(** With an audit store every decided request writes exactly one row, before
    anything else, for the endpoint and under the actor the command carries; the
    row is "suppressed" and nothing follows it, or it is "pending" and is
    followed by the command, carrying the row's id, and by the row's completion
    as dispatched or failed according to the send. *)
Theorem isolate_audited e g req id : AgentID req ≠ "" → has_actions g = true →
  record_answer e = Ok id → id ≠ "" →
  let '(_, r, calls) := Isolate e g req in
  let req' := isolate_defaults req in
  ActionID (result r) = id ∧
  ∃ status details rest,
    one_row (AgentID req) "isolate" status (actorOf req') calls details rest ∧
    details !! "origin" = Some (req_Origin req') ∧
    ((status = statusSuppressed ∧ rest = [] ∧
        details !! "outcome" = Some (r_Outcome (result r)))
     ∨ (status = statusPending ∧
        rest = [IsolateEndpoint (AgentID req) (Reason req') (AlertID req) id (actorOf req');
                match send_answer e with
                | None => Complete id statusDispatched ""
                | Some err => Complete id statusFailure err
                end])).
Proof.
  intros Hne Ha Hid Hidne. unfold Isolate. apply String.eqb_neq in Hne, Hidne. rewrite Hne.
  destruct (valves e g (isolate_defaults req)) as [gd stop].
  assert (∀ o rs, let '(r, calls) := suppress e (with_guard g gd) (isolate_defaults req) o rs in
     ActionID r = id ∧ r_Outcome r = o ∧ ∃ details,
     one_row (AgentID req) "isolate" statusSuppressed (actorOf (isolate_defaults req)) calls details []
     ∧ details !! "origin" = Some (req_Origin (isolate_defaults req))
     ∧ details !! "outcome" = Some o) as Hsup.
  { intros o rs. unfold suppress.
    edestruct (record_row e (with_guard g gd) (isolate_defaults req) "isolate" statusSuppressed)
      as (details & id' & -> & Hi & _ & _ & Hx); [done|]. rewrite (Hi id Hid).
    split_and!; [done..|]. exists details. split_and!; [split; [done|set_solver]| |];
      apply Hx; by simplify_map_eq. }
  destruct stop as [[o rs]|].
  - specialize (Hsup o rs). destruct (suppress _ _ _ _ _) as [r calls].
    destruct Hsup as (? & <- & details & ? & ? & ?). split; [done|]. eexists _, _, _; eauto 10.
  - change (has_commands (with_guard g gd)) with (has_commands g).
    destruct (has_commands g); cbn [negb].
    + unfold dispatch_isolate.
      destruct (record_row e (with_guard g gd) (isolate_defaults req) "isolate" statusPending ∅)
        as (details & id' & -> & Hi & _ & Ho & _); [done|]. rewrite (Hi id Hid).
      unfold complete. cbn [has_actions with_guard]. rewrite Ha, Hidne. cbn [negb orb].
      destruct (send_answer e); (split; [done|]); eexists _, details, _;
        (split; [split; [done|set_solver]|]); (split; [by apply Ho|]); by right.
    + specialize (Hsup OutcomeDisabled "コマンド送出先が構成されていません").
      destruct (suppress _ _ _ _ _) as [r calls].
      destruct Hsup as (? & <- & details & ? & ? & ?). split; [done|]. eexists _, _, _; eauto 10.
Qed.

(** An un-isolation that finds no command sender writes a row that says
    "isolate". *)
Lemma unisolate_suppressed_as_isolate e g req : AgentID req ≠ "" →
  has_commands g = false → has_actions g = true →
  ∃ details by_, (Unisolate e g req).2
    = [Record_ (AgentID req) "isolate" statusSuppressed by_ details].
Proof.
  intros Hne Hc Ha. unfold Unisolate. apply String.eqb_neq in Hne. rewrite Hne, Hc. simpl.
  unfold suppress.
  edestruct (record_row e g (unisolate_defaults req) "isolate" statusSuppressed)
    as (details & id & -> & _); [done|]. by eexists _, _.
Qed.

(** ** Witnesses *)
Definition toy_config : Config :=
  mkConfig true 0 1 false [" Bastion "] (Some (λ a, if String.eqb a "a9" then "bastion" else "")).
Definition toy_env (t : time) : Env := mkEnv t (Ok "row-1") None.
Definition toy_request (a : string) (o : Origin) : Request := mkRequest a "" "" o "" "r1" "".
Definition toy_requests : list (Env * Request) :=
  [(toy_env 0, toy_request "a1" OriginRule); (toy_env minute, toy_request "a2" OriginRule);
   (toy_env (2 * minute), toy_request "a3" OriginManual);
   (toy_env (3 * minute), toy_request "a9" OriginRule);
   (toy_env (2 * hour), toy_request "a1" OriginPlaybook)].

Example toy_serve :
  (serve (New true true toy_config) toy_requests).2 = [(0, "a1"); (2 * hour, "a1")].
Proof. by vm_compute. Qed.

Lemma fleet_budget_witness :
  within hour 0 (serve (New true true toy_config) toy_requests).2 = 1 ∧
  ∀ t, within hour t (serve (New true true toy_config) toy_requests).2 <= 1.
Proof.
  split; [reflexivity|].
  apply (fleet_budget true true toy_config toy_requests 0).
  vm_compute. repeat split; intros H; discriminate H.
Defined.

Lemma endpoint_cooldown_witness :
  spaced DefaultCooldown (serve (New true true toy_config) toy_requests).2.
Proof.
  apply (endpoint_cooldown true true toy_config toy_requests 0).
  vm_compute. repeat split; intros H; discriminate H.
Defined.

Lemma isolate_decision_witness :
  let '(g', r, calls) :=
    Isolate (toy_env 5) (New true true toy_config) (toy_request "a1" "") in
  let req' := isolate_defaults (toy_request "a1" "") in
  sends calls = true &&
                (negb (Unattended (req_Origin req')) ||
                 valves_open (toy_env 5) (New true true toy_config) req') ∧
  (Unattended (req_Origin req') = false → g' = New true true toy_config) ∧
  Executed (r_Outcome (result r)) = sends calls && true.
Proof.
  apply (isolate_decision (toy_env 5) (New true true toy_config) (toy_request "a1" "")).
  discriminate.
Defined.

Lemma isolate_audited_witness :
  let '(_, r, calls) :=
    Isolate (toy_env 5) (New true true toy_config) (toy_request "a1" OriginRule) in
  let req' := isolate_defaults (toy_request "a1" OriginRule) in
  ActionID (result r) = "row-1" ∧
  ∃ status details rest,
    one_row "a1" "isolate" status (actorOf req') calls details rest ∧
    details !! "origin" = Some (req_Origin req') ∧
    ((status = statusSuppressed ∧ rest = [] ∧
        details !! "outcome" = Some (r_Outcome (result r)))
     ∨ (status = statusPending ∧
        rest = [IsolateEndpoint "a1" (Reason req') "" "row-1" (actorOf req');
                Complete "row-1" statusDispatched ""])).
Proof.
  apply (isolate_audited (toy_env 5) (New true true toy_config) (toy_request "a1" OriginRule) "row-1");
    [discriminate|reflexivity|reflexivity|discriminate].
Defined.
