(* ===== verification/Binary64.v ===== *)
(** * Floating-point numbers

    Go's [float64] as IEEE-754 binary64, by the executable specification of the
    Standard Library ([SpecFloat]: round to nearest, ties to even), and the
    functions of package [math] the code uses.  [Log] and [Log2] are the portable
    implementations, operation by operation, without fused multiply-adds. *)

From Stdlib Require Export SpecFloat.
From S2P Require Import Prelude.

#[local] Open Scope Z_scope.

Abbreviation f64 := spec_float (only parsing).
Abbreviation prec64 := 53 (only parsing).
Abbreviation emax64 := 1024 (only parsing).

Definition fadd (x y : f64) : f64 := SFadd prec64 emax64 x y.
Definition fsub (x y : f64) : f64 := SFsub prec64 emax64 x y.
Definition fmul (x y : f64) : f64 := SFmul prec64 emax64 x y.
Definition fdiv (x y : f64) : f64 := SFdiv prec64 emax64 x y.
Definition flt (x y : f64) : bool := SFltb x y.
Definition fle (x y : f64) : bool := SFleb x y.
Definition feq (x y : f64) : bool := SFeqb x y.

Definition fzero : f64 := S754_zero false.

(** [float64(n)] and [m * 2^e]. *)
Definition fint (n : Z) : f64 := binary_normalize prec64 emax64 n 0 false.
Definition fbin (m e : Z) : f64 := binary_normalize prec64 emax64 m e false.

(** The literal [n / d]: a decimal literal is the nearest float, and so is the
    quotient of two integers that are exact. *)
Definition fdec (n d : Z) : f64 := fdiv (fint n) (fint d).

(** [int(f)]: truncation toward zero, of a number within the range of [int]. *)
Definition ftrunc (f : f64) : Z :=
  match f with
  | S754_finite s m e =>
      let a := if 0 <=? e then Z.pos m * 2 ^ e else Z.pos m / 2 ^ (- e) in
      if s then - a else a
  | _ => 0
  end.

(** [math.Min]. *)
Definition fmin (x y : f64) : f64 :=
  match x, y with
  | S754_infinity true, _ | _, S754_infinity true => S754_infinity true
  | S754_nan, _ | _, S754_nan => S754_nan
  | S754_zero sx, S754_zero _ => if sx then x else y
  | _, _ => if flt x y then x else y
  end.

(** [math.Frexp]: [x] as a fraction in [1/2, 1) and an exponent. *)
Definition frexp (x : f64) : f64 * Z := SFfrexp prec64 emax64 x.

Definition Ln2Hi : f64 := fbin 0x162E42FEE00000 (-53).
Definition Ln2Lo : f64 := fbin 0x1A39EF35793C76 (-85).
Definition L1 : f64 := fbin 0x15555555555593 (-53).
Definition L2 : f64 := fbin 0x1999999997FA04 (-54).
Definition L3 : f64 := fbin 0x12492494229359 (-54).
Definition L4 : f64 := fbin 0x1C71C51D8E78AF (-55).
Definition L5 : f64 := fbin 0x17466496CB03DE (-55).
Definition L6 : f64 := fbin 0x139A09D078C69F (-55).
Definition L7 : f64 := fbin 0x12F112DF3E5244 (-55).
(** [Sqrt2 / 2] and [1 / Ln2], constants the compiler rounds once. *)
Definition half_sqrt2 : f64 := fbin 0x16A09E667F3BCD (-53).
Definition inv_ln2 : f64 := fbin 0x171547652B82FE (-52).

(** [math.Log] of a positive number. *)
Definition flog (x : f64) : f64 :=
  let '(f1, ki) := frexp x in
  let '(f1, ki) := if flt f1 half_sqrt2 then (fmul f1 (fint 2), ki - 1) else (f1, ki) in
  let f := fsub f1 (fint 1) in
  let k := fint ki in
  let s := fdiv f (fadd (fint 2) f) in
  let s2 := fmul s s in
  let s4 := fmul s2 s2 in
  let t1 := fmul s2 (fadd L1 (fmul s4 (fadd L3 (fmul s4 (fadd L5 (fmul s4 L7)))))) in
  let t2 := fmul s4 (fadd L2 (fmul s4 (fadd L4 (fmul s4 L6)))) in
  let R := fadd t1 t2 in
  let hfsq := fmul (fmul (fdec 1 2) f) f in
  fsub (fmul k Ln2Hi)
    (fsub (fsub hfsq (fadd (fmul s (fadd hfsq R)) (fmul k Ln2Lo))) f).

(** [math.Log2] of a positive number: exact on powers of two. *)
Definition flog2 (x : f64) : f64 :=
  let '(frac, e) := frexp x in
  if feq frac (fdec 1 2) then fint (e - 1)
  else fadd (fmul (flog frac) inv_ln2) (fint e).

Example float_examples :
  feq (fdec 15 100) (fdiv (fint 3) (fint 20)) = true ∧
  feq (flog2 (fint 8)) (fint 3) = true ∧ feq (flog2 (fdec 1 16)) (fint (-4)) = true ∧
  fle (fdec 158496250072 100000000000) (flog2 (fint 3)) = true ∧
  fle (flog2 (fint 3)) (fdec 158496250073 100000000000) = true ∧
  feq (fadd (fdec 1 10) (fdec 2 10)) (fdec 3 10) = false ∧ ftrunc (fdec (-7) 2) = -3.
Proof. by vm_compute. Qed.

(** What [math.Min] returns is not above its second argument. *)
Lemma flt_irrefl_false x : flt x x = false.
Proof.
  unfold flt, SFltb. destruct x as [[]|[]| |[] m e]; try done; simpl;
    rewrite Z.compare_refl; unfold Pos.compare; rewrite Pos.compare_cont_refl; done.
Qed.

Lemma fmin_bound x y : y ≠ S754_infinity true → flt y (fmin x y) = false.
Proof.
  intros Hy. unfold fmin.
  assert (flt y y = false) as Hyy by apply flt_irrefl_false.
  assert (flt x y = true → flt y x = false) as Hasym.
  { unfold flt, SFltb. destruct x as [[]|[]| |[] m e], y as [[]|[]| |[] m' e']; try done; simpl;
      rewrite (Z.compare_antisym e e'); destruct (e ?= e')%Z eqn:E; try done; simpl;
      change (Pos.compare_cont Eq m' m) with (m' ?= m)%positive;
      change (Pos.compare_cont Eq m m') with (m ?= m')%positive;
      rewrite (Pos.compare_antisym m m'); destruct (m ?= m')%positive; done. }
  destruct x as [sx|[]| |sx mx ex], y as [sy|[]| |sy my ey]; try done;
    try (match goal with |- context [if flt ?a ?b then _ else _] => destruct (flt a b) eqn:E end;
         [by apply Hasym|done]).
  by destruct sx.
Qed.

(** ** Integers as floats *)
Lemma shr_1_m r : 0 <= shr_m r → shr_m (shr_1 r) = shr_m r / 2 ∧ 0 <= shr_m (shr_1 r).
Proof.
  destruct r as [[|[p|p|]|p] b s]; simpl; intros H; try done; split; try done.
  - change (Z.pos p~1) with (2 * Z.pos p + 1). rewrite Z.mul_comm, Z.div_add_l by lia. done.
  - change (Z.pos p~0) with (2 * Z.pos p). by rewrite Z.mul_comm, Z.div_mul by lia.
Qed.

Lemma iter_shr_m p r : 0 <= shr_m r →
  shr_m (SpecFloat.iter_pos shr_1 p r) = shr_m r / 2 ^ Z.pos p ∧ 0 <= shr_m (SpecFloat.iter_pos shr_1 p r).
Proof.
  revert r. induction p as [p IH|p IH|]; intros r Hr; cbn [SpecFloat.iter_pos].
  - destruct (shr_1_m r Hr) as [E1 H1]. destruct (IH _ H1) as [E2 H2]. destruct (IH _ H2) as [E3 H3].
    split; [|done]. rewrite E3, E2, E1, !Z.div_div by lia. f_equal.
    replace (Z.pos p~1) with (1 + Z.pos p + Z.pos p) by lia. rewrite !Z.pow_add_r by lia. lia.
  - destruct (IH _ Hr) as [E2 H2]. destruct (IH _ H2) as [E3 H3].
    split; [|done]. rewrite E3, E2, Z.div_div by lia. f_equal.
    replace (Z.pos p~0) with (Z.pos p + Z.pos p) by lia. rewrite !Z.pow_add_r by lia. lia.
  - apply shr_1_m, Hr.
Qed.

Lemma digits2_lower p : 2 ^ (Z.pos (digits2_pos p) - 1) <= Z.pos p.
Proof.
  induction p as [p IH|p IH|]; cbn [digits2_pos]; [| |done];
    rewrite Pos2Z.inj_succ; replace (Z.succ (Z.pos (digits2_pos p)) - 1) with
      (Z.succ (Z.pos (digits2_pos p) - 1)) by lia; rewrite Z.pow_succ_r by lia; lia.
Qed.

(** Bringing a positive mantissa to 53 bits does not lose it. *)
Lemma shr_fexp_positive m e l : 0 < m → -1074 <= e →
  0 < shr_m (shr_fexp prec64 emax64 m e l).1 ∧ -1074 <= (shr_fexp prec64 emax64 m e l).2.
Proof.
  intros Hm He. unfold shr_fexp, shr, fexp, emin. destruct m as [|p|p]; try lia. cbn [Zdigits2].
  set (d := Z.pos (digits2_pos p)).
  assert (shr_m (shr_record_of_loc (Z.pos p) l) = Z.pos p) as El by (by destruct l as [|[]]).
  destruct (Z.max (d + e - 53) (3 - 1024 - 53) - e) as [|n|n] eqn:En; cbn [fst snd]; rewrite ?El; [lia| |lia].
  destruct (iter_shr_m n (shr_record_of_loc (Z.pos p) l)) as [E _]; [by rewrite El|].
  rewrite E, El. split; [|lia].
  assert (Z.pos n = d - 53) as Hn by lia. pose proof (digits2_lower p) as Hp. fold d in Hp.
  assert (0 < Z.pos p / 2 ^ Z.pos n); [|done]. apply Z.div_str_pos.
  pose proof (Z.pow_le_mono_r 2 (Z.pos n) (d - 1)). lia.
Qed.

Lemma round_positive mx lx : 0 < mx → 0 < round_nearest_even mx lx.
Proof. intros H. destruct lx as [|[]]; simpl; try lia. destruct (Z.even mx); lia. Qed.

Lemma fint_positive n : 0 < n →
  (∃ m e, fint n = S754_finite false m e) ∨ fint n = S754_infinity false.
Proof.
  intros Hn. destruct n as [|p|p]; try lia. unfold fint, binary_normalize, binary_round.
  destruct (shl_align p 0 _) as [mz ez] eqn:Es.
  assert (-1074 <= ez) as Hez.
  { unfold shl_align, fexp, emin in Es. destruct (_ - 0) as [|q|q] eqn:Eq; simplify_eq; lia. }
  unfold binary_round_aux.
  destruct (shr_fexp_positive (Z.pos mz) ez loc_Exact) as [H1 H2]; [lia|done|].
  destruct (shr_fexp prec64 emax64 (Z.pos mz) ez loc_Exact) as [r e']. cbn [fst snd] in *.
  pose proof (round_positive (shr_m r) (loc_of_shr_record r) H1) as Hr.
  destruct (shr_fexp_positive _ e' loc_Exact Hr H2) as [H3 _].
  destruct (shr_fexp prec64 emax64 (round_nearest_even _ _) e' loc_Exact) as [r' e'']. cbn [fst] in H3.
  destruct (shr_m r') as [|m|m]; try lia. destruct (_ <=? _); [left; by eexists _, _|by right].
Qed.

(** Zero divided by a positive integer. *)
Lemma fdiv_zero n : 0 < n → fdiv fzero (fint n) = fzero.
Proof. intros H. by destruct (fint_positive n H) as [(m & e & ->)| ->]. Qed.
