(* ===== verification/Ueba.v ===== *)
(** * Entity behaviour: the risk score and its isolation forest

    [server/internal/ml/ueba_scorer.go] and [isolation_forest.go]: the profile of
    every entity, its 0-100 risk score, and the forest of random trees the score
    consults once it is trained.  The random generator is a supply of choices
    given to the training; [math.Pow(2, x)] is the parameter [exp2]. *)

From S2P Require Import Prelude GoStrings Binary64.

#[local] Open Scope string_scope.
#[local] Open Scope list_scope.
#[local] Open Scope Z_scope.

(** ** Isolation trees *)
Inductive iNode :=
| Leaf (size : Z)
| Split (splitFeature : nat) (splitValue : f64) (left right : iNode).

Record IsolationForest := mkIsolationForest {
  trees : list iNode;
  numTrees : Z;
  sampleSize : Z;
  trained : bool
}.

Definition NewIsolationForest (n s : Z) : IsolationForest :=
  mkIsolationForest [] (if n <=? 0 then 100 else n) (if s <=? 0 then 256 else s) false.

Abbreviation row := (list f64) (only parsing).

(** [row[feat]]: the rows are the vectors of [profileToVector], whose length is
    the number of features ([profileToVector_length]), so the index is valid. *)
Definition at_feature (r : row) (feat : nat) : f64 := default S754_nan (r !! feat).

(** One draw: [rand.Intn] as an unreduced number, [rand.Float64]. *)
Abbreviation supply := (nat → Z * f64) (only parsing).

Definition min_max (feat : nat) (first : row) (rows : list row) : f64 * f64 :=
  foldl (λ mm r,
    let v := at_feature r feat in
    (if flt v mm.1 then v else mm.1, if flt mm.2 v then v else mm.2))
    (at_feature first feat, at_feature first feat) rows.

(** [height] levels are left before [maxHeight]; the supply is consumed from
    index [k] on, and the next free index is returned. *)
Fixpoint buildTree (levels : nat) (draws : supply) (k : nat) (data : list row) : iNode * nat :=
  match levels, data with
  | S levels', first :: (_ :: _) as rest =>
      let numFeatures := length first in
      if (numFeatures =? 0)%nat then (Leaf (zlen data), k) else
      let feat := Z.to_nat ((draws k).1 mod Z.of_nat numFeatures) in
      let '(minVal, maxVal) := min_max feat first (tl data) in
      if feq minVal maxVal then (Leaf (zlen data), S k) else
      let splitVal := fadd minVal (fmul (draws k).2 (fsub maxVal minVal)) in
      let goes_left r := flt (at_feature r feat) splitVal in
      let '(l, k1) := buildTree levels' draws (S k) (List.filter goes_left data) in
      let '(r, k2) := buildTree levels' draws k1 (List.filter (λ r, negb (goes_left r)) data) in
      (Split feat splitVal l r, k2)
  | _, _ => (Leaf (zlen data), k)
  end.

Definition gamma : f64 := fdec 5772156649 10000000000.

Definition cFactor (n : Z) : f64 :=
  if n <=? 1 then fzero else
  let h := fadd (flog (fint (n - 1))) gamma in
  fsub (fmul (fint 2) h) (fdiv (fmul (fint 2) (fint (n - 1))) (fint n)).

Fixpoint pathLength (t : iNode) (sample : row) (depth : Z) : f64 :=
  match t with
  | Leaf size => fadd (fint depth) (cFactor size)
  | Split feat v l r =>
      if flt (at_feature sample feat) v then pathLength l sample (depth + 1)
      else pathLength r sample (depth + 1)
  end.

(** [int(math.Ceil(x))] of a number that is not negative. *)
Definition fceil (x : f64) : Z := if feq (fint (ftrunc x)) x then ftrunc x else ftrunc x + 1.

Definition maxHeight (f : IsolationForest) : nat := Z.to_nat (fceil (flog2 (fint (sampleSize f)))).

(** [subsample]: the rows at the first [size] indices of a random permutation. *)
Definition subsample (data : list row) (size : Z) (perm : list nat) : list row :=
  if zlen data <=? size then data
  else (λ i, default [] (data !! i)) <$> take (Z.to_nat size) perm.

Fixpoint grow (n : nat) (f : IsolationForest) (draws : supply) (perms : nat → list nat)
    (i k : nat) (data : list row) : list iNode :=
  match n with
  | O => []
  | S n' =>
      let '(t, k') := buildTree (maxHeight f) draws k (subsample data (sampleSize f) (perms i)) in
      t :: grow n' f draws perms (S i) k' data
  end.

Definition Train (draws : supply) (perms : nat → list nat) (data : list row)
    (f : IsolationForest) : IsolationForest :=
  match data with
  | [] => f
  | _ => mkIsolationForest (grow (Z.to_nat (numTrees f)) f draws perms 0 0 data)
           (numTrees f) (sampleSize f) true
  end.

Definition avgPathLen (f : IsolationForest) (sample : row) : f64 :=
  fdiv (foldl (λ acc t, fadd acc (pathLength t sample 0)) fzero (trees f))
    (fint (zlen (trees f))).

(** ** Profiles *)
Record UserProfile := mkUserProfile {
  EntityType : string;
  LoginHours : list Z;
  TypicalSrcIPs : gmap string Z;
  AlertCount : Z;
  FailedLogins : Z;
  DataTransferGB : f64;
  RiskScore : f64
}.

Record UserBehaviorFeatures := mkFeatures {
  LoginHour : Z;
  SrcIP : string;
  NewAlerts : Z;
  f_FailedLogins : Z;
  f_DataTransferGB : f64;
  IsOffHours : bool;
  IsNewLocation : bool;
  PrivilegeEscal : bool;
  MassDownload : bool
}.

Record UEBAScorer := mkUEBAScorer {
  profiles : gmap string UserProfile;
  forest : IsolationForest
}.

Definition NewUEBAScorer : UEBAScorer := mkUEBAScorer ∅ (NewIsolationForest 100 256).

Definition flag (b : bool) : f64 := if b then fint 1 else fzero.

Definition profileToVector (p : UserProfile) (f : UserBehaviorFeatures) : row :=
  [fint (LoginHour f); flag (IsOffHours f); flag (IsNewLocation f); flag (PrivilegeEscal f);
   flag (MassDownload f); fint (AlertCount p); fint (FailedLogins p); DataTransferGB p;
   fint (Z.of_nat (size (TypicalSrcIPs p)))].

Section Scoring.
Context (exp2 : f64 → f64).

Definition Score (f : IsolationForest) (sample : row) : f64 :=
  if negb (trained f) || (zlen (trees f) =? 0) then fdec 1 2 else
  let cn := cFactor (sampleSize f) in
  if feq cn fzero then fdec 1 2 else
  exp2 (fdiv (SFopp (avgPathLen f sample)) cn).

Definition add_if (b : bool) (n : Z) (score : f64) : f64 :=
  if b then fadd score (fint n) else score.

Definition computeRiskScore (fo : IsolationForest) (p : UserProfile) (c : UserBehaviorFeatures)
    : f64 :=
  let score := add_if (IsOffHours c) 20 fzero in
  let score := add_if (IsNewLocation c) 15 score in
  let score := fadd score (fmin (fmul (fint (FailedLogins p)) (fint 10)) (fint 30)) in
  let score := add_if (PrivilegeEscal c) 25 score in
  let score := add_if (MassDownload c) 20 score in
  let score := fadd score (fmin (fint (AlertCount p)) (fint 20)) in
  let score :=
    if flt (fint 10) (DataTransferGB p) then fadd score (fint 20) else
    if flt (fint 1) (DataTransferGB p) then fadd score (fint 10) else score in
  let score :=
    if trained fo then
      let a := Score fo (profileToVector p c) in
      if flt (fdec 1 2) a then fadd score (fmul (fsub a (fdec 1 2)) (fint 60)) else score
    else score in
  fmin score (fint 100).

Definition new_profile (ty : string) : UserProfile :=
  mkUserProfile ty (replicate 24 0) ∅ 0 0 fzero fzero.

Definition UpdateProfile (id ty : string) (c : UserBehaviorFeatures) (s : UEBAScorer)
    : UEBAScorer :=
  let p := default (new_profile ty) (profiles s !! id) in
  let hours :=
    if (0 <=? LoginHour c) && (LoginHour c <? 24)
    then alter (λ n, n + 1) (Z.to_nat (LoginHour c)) (LoginHours p) else LoginHours p in
  let ips :=
    if String.eqb (SrcIP c) "" then TypicalSrcIPs p
    else <[SrcIP c := default 0 (TypicalSrcIPs p !! SrcIP c) + 1]> (TypicalSrcIPs p) in
  let p := mkUserProfile (EntityType p) hours ips (AlertCount p + NewAlerts c)
             (FailedLogins p + f_FailedLogins c)
             (fadd (DataTransferGB p) (f_DataTransferGB c)) (RiskScore p) in
  let p := mkUserProfile (EntityType p) (LoginHours p) (TypicalSrcIPs p) (AlertCount p)
             (FailedLogins p) (DataTransferGB p) (computeRiskScore (forest s) p c) in
  mkUEBAScorer (<[id := p]> (profiles s)) (forest s).

Definition GetRiskScore (s : UEBAScorer) (id : string) : f64 :=
  match profiles s !! id with Some p => RiskScore p | None => fzero end.

Definition no_features : UserBehaviorFeatures :=
  mkFeatures 0 "" 0 0 fzero false false false false.

(** [ps] are the profiles in the order of one iteration over the map. *)
Definition TrainOnProfiles (draws : supply) (perms : nat → list nat) (ps : list UserProfile)
    (s : UEBAScorer) : UEBAScorer :=
  if zlen ps <? 10 then s else
  mkUEBAScorer (profiles s)
    (Train draws perms ((λ p, profileToVector p no_features) <$> ps) (forest s)).

(** ** Lemmas *)
Lemma profileToVector_length p c : length (profileToVector p c) = 9%nat.
Proof. done. Qed.

(** The score reported after an update is the one of that update, and never
    exceeds 100. *)
Lemma risk_at_most_100 id ty c s :
  flt (fint 100) (GetRiskScore (UpdateProfile id ty c s) id) = false.
Proof.
  unfold GetRiskScore, UpdateProfile. cbn zeta. simpl. rewrite lookup_insert_eq. simpl.
  apply fmin_bound. discriminate.
Qed.

(** The leaves of a tree hold the rows it was built from, each once. *)
Fixpoint leaf_total (t : iNode) : Z :=
  match t with Leaf n => n | Split _ _ l r => leaf_total l + leaf_total r end.
Fixpoint tree_height (t : iNode) : nat :=
  match t with Leaf _ => 0 | Split _ _ l r => S (Nat.max (tree_height l) (tree_height r)) end.

Lemma filter_partition {A} (f : A → bool) (l : list A) :
  zlen (List.filter f l) + zlen (List.filter (λ x, negb (f x)) l) = zlen l.
Proof.
  unfold zlen. induction l as [|x l IH]; simpl; [done|]. destruct (f x); simpl; lia.
Qed.

Lemma buildTree_partitions levels draws k data :
  leaf_total (buildTree levels draws k data).1 = zlen data ∧
  (tree_height (buildTree levels draws k data).1 <= levels)%nat.
Proof.
  revert k data. induction levels as [|levels IH]; intros k data; [simpl; split; [done|lia]|].
  destruct data as [|first [|second rest]]; [simpl; split; [done|lia]..|].
  cbn [buildTree]. destruct (_ =? 0)%nat; [simpl; split; [done|lia]|].
  destruct (min_max _ _ _) as [lo hi]. destruct (feq lo hi); [simpl; split; [done|lia]|].
  set (f := λ r, flt (at_feature r _) _). set (data := first :: second :: rest).
  pose proof (IH (S k) (List.filter f data)) as [S1 H1].
  destruct (buildTree levels draws (S k) _) as [l k1]. cbn [fst] in *.
  pose proof (IH k1 (List.filter (λ r, negb (f r)) data)) as [S2 H2].
  destruct (buildTree levels draws k1 _) as [r k2]. cbn [fst leaf_total tree_height] in *.
  rewrite S1, S2. split; [apply filter_partition|lia].
Qed.
End Scoring.

(** The forest compares the path length with that of a full sample of 256 rows
    even when it was trained on fewer: ten identical profiles, none of which can
    be isolated at all, all have a path length below it, and the score's exponent
    is above -1, that of the neutral score 0.5. *)
Definition ten_profiles : list (list f64) :=
  replicate 10 (profileToVector (new_profile "agent") no_features).
Example small_forest_calls_everyone_anomalous :
  let f := Train (λ _, (0, fdec 1 2)) (λ _, []) ten_profiles (NewIsolationForest 3 256) in
  let x := profileToVector (new_profile "agent") no_features in
  flt (avgPathLen f x) (cFactor 256) = true ∧
  flt (fint (-1)) (fdiv (SFopp (avgPathLen f x)) (cFactor 256)) = true.
Proof. by vm_compute. Qed.
