(* ===== verification/Glob.v ===== *)
(** * Shell patterns

    [filepath.Match] of Go's standard library on Unix, as the code uses it to
    match host names: [*], [?], character classes and escapes, on bytes.  A
    malformed pattern is an error, and the callers take an error for "does not
    match".  [glob_prefix] and [glob_literal] say what the documented uses of the
    patterns ("dc-*", a plain name) match. *)

From Stdlib Require Import Ascii.
From S2P Require Import Prelude GoStrings.

#[local] Open Scope string_scope.
#[local] Open Scope list_scope.
#[local] Open Scope Z_scope.

Definition separator : ascii := "/"%char.

Inductive item :=
| Lit (c : ascii)
| AnyChar
| Class_ (negated : bool) (ranges : list (ascii * ascii)).

(** [getEsc]: one character of a class, which must not be its last. *)
Definition get_esc (s : string) : option (ascii * string) :=
  match s with
  | EmptyString => None
  | String c s' =>
      if Ascii.eqb c "-" || Ascii.eqb c "]" then None else
      if Ascii.eqb c "\" then
        match s' with
        | String d (String e r) => Some (d, String e r)
        | _ => None
        end
      else match s' with EmptyString => None | _ => Some (c, s') end
  end.

(** The ranges of a class up to the closing bracket, which cannot come first. *)
Fixpoint class_ranges (fuel : nat) (s : string) (acc : list (ascii * ascii))
    : option (list (ascii * ascii) * string) :=
  match fuel with
  | O => None
  | S f =>
      match s with
      | String c s' =>
          if Ascii.eqb c "]" && negb (zlen acc =? 0) then Some (acc, s') else
          match get_esc s with
          | None => None
          | Some (lo, String d r) =>
              if Ascii.eqb d "-" then
                match get_esc r with
                | None => None
                | Some (hi, r') => class_ranges f r' (acc ++ [(lo, hi)])
                end
              else class_ranges f (String d r) (acc ++ [(lo, lo)])
          | Some (_, EmptyString) => None
          end
      | EmptyString => None
      end
  end.

(** A pattern without stars outside classes. *)
Fixpoint parse_chunk (fuel : nat) (s : string) : option (list item) :=
  match fuel, s with
  | _, EmptyString => Some []
  | O, _ => None
  | S f, String c s' =>
      if Ascii.eqb c "[" then
        let '(neg, r) :=
          match s' with
          | String d r => if Ascii.eqb d "^" then (true, r) else (false, s')
          | EmptyString => (false, s')
          end in
        match class_ranges f r [] with
        | None => None
        | Some (rs, r') => cons (Class_ neg rs) <$> parse_chunk f r'
        end
      else if Ascii.eqb c "?" then cons AnyChar <$> parse_chunk f s'
      else if Ascii.eqb c "\" then
        match s' with
        | EmptyString => None
        | String d r => cons (Lit d) <$> parse_chunk f r
        end
      else cons (Lit c) <$> parse_chunk f s'
  end.

Definition char_leb (a b : ascii) : bool := (nat_of_ascii a <=? nat_of_ascii b)%nat.

Definition item_matches (i : item) (c : ascii) : bool :=
  match i with
  | Lit d => Ascii.eqb c d
  | AnyChar => negb (Ascii.eqb c separator)
  | Class_ neg rs =>
      xorb neg (existsb (λ r : ascii * ascii, char_leb r.1 c && char_leb c r.2) rs)
  end.

Fixpoint match_items (its : list item) (s : string) : option string :=
  match its, s with
  | [], _ => Some s
  | i :: its', String c s' => if item_matches i c then match_items its' s' else None
  | _ :: _, EmptyString => None
  end.

Definition matchChunk (chunk s : string) : res (option string) :=
  match parse_chunk (String.length chunk) chunk with
  | None => Err "syntax error in pattern"
  | Some its => Ok (match_items its s)
  end.

(** [scanChunk]: the stars at the head, the chunk up to the next star outside a
    class, and the rest. *)
Fixpoint scan_stars (s : string) : bool * string :=
  match s with
  | String c s' => if Ascii.eqb c "*" then (true, (scan_stars s').2) else (false, s)
  | EmptyString => (false, s)
  end.

Fixpoint scan_body (fuel : nat) (inrange : bool) (s : string) : string * string :=
  match fuel, s with
  | S f, String c s' =>
      if Ascii.eqb c "\" then
        match s' with
        | String d s'' =>
            let '(a, b) := scan_body f inrange s'' in (String c (String d a), b)
        | EmptyString => (s, EmptyString)
        end
      else if Ascii.eqb c "*" && negb inrange then (EmptyString, s)
      else
        let inrange := if Ascii.eqb c "[" then true else
                       if Ascii.eqb c "]" then false else inrange in
        let '(a, b) := scan_body f inrange s' in (String c a, b)
  | _, _ => (EmptyString, s)
  end.

Definition scanChunk (s : string) : bool * string * string :=
  let '(star, r) := scan_stars s in
  let '(chunk, rest) := scan_body (String.length r) false r in (star, chunk, rest).

(** The chunk after a star, at the first later position where it fits: the last
    chunk must reach the end of the name. *)
Fixpoint match_after_star (chunk : string) (last : bool) (name : string) : option string :=
  match name with
  | EmptyString => None
  | String c name' =>
      if Ascii.eqb c separator then None else
      match matchChunk chunk name' with
      | Ok (Some t) =>
          if last && negb (String.eqb t "") then match_after_star chunk last name' else Some t
      | _ => match_after_star chunk last name'
      end
  end.

(** [Match]; [None]: the pattern is malformed.  Once a chunk does not match, the
    answer is "no" whether or not the rest of the pattern is well formed. *)
Fixpoint match_go (fuel : nat) (pattern name : string) : option bool :=
  match fuel, pattern with
  | _, EmptyString => Some (String.eqb name "")
  | O, _ => None
  | S f, _ =>
      let '(star, chunk, rest) := scanChunk pattern in
      if star && String.eqb chunk "" then Some (negb (contains_char (Ascii.eqb separator) name))
      else
        match matchChunk chunk name with
        | Err _ => None
        | Ok r =>
            let here :=
              match r with
              | Some t => if String.eqb t "" || negb (String.eqb rest "") then Some t else None
              | None => None
              end in
            match here with
            | Some t => match_go f rest t
            | None =>
                match (if star then match_after_star chunk (String.eqb rest "") name else None) with
                | Some t => match_go f rest t
                | None => Some false
                end
            end
        end
  end.

Definition Match (pattern name : string) : option bool :=
  match_go (String.length pattern) pattern name.

(** [matched, _ := filepath.Match(pattern, name)]. *)
Definition matched (pattern name : string) : bool :=
  match Match pattern name with Some b => b | None => false end.

Example Match_examples :
  Match "dc-*" "dc-01" = Some true ∧ Match "dc-*" "adc-01" = Some false ∧
  Match "prod-db-?" "prod-db-1" = Some true ∧ Match "*-db-*" "prod-db-1" = Some true ∧
  Match "h[a-c]1" "hb1" = Some true ∧ Match "h[^a-c]1" "hb1" = Some false ∧
  Match "dc-[" "dc-[" = None ∧ Match "a*" "a/b" = Some false ∧ Match "\*x" "*x" = Some true ∧
  Match "*a*b" "xaxxb" = Some true ∧ Match "" "" = Some true ∧ Match "[]a]" "]" = None.
Proof. by vm_compute. Qed.

(** ** Plain text and prefixes *)
Definition plain_char (c : ascii) : bool :=
  negb (Ascii.eqb c "[" || Ascii.eqb c "?" || Ascii.eqb c "\" || Ascii.eqb c "*" || Ascii.eqb c "]").

Fixpoint plain (s : string) : bool :=
  match s with EmptyString => true | String c s' => plain_char c && plain s' end.

Fixpoint lits (s : string) : list item :=
  match s with EmptyString => [] | String c s' => Lit c :: lits s' end.

Lemma plain_char_spec c : plain_char c = true →
  Ascii.eqb c "[" = false ∧ Ascii.eqb c "?" = false ∧ Ascii.eqb c "\" = false ∧
  Ascii.eqb c "*" = false ∧ Ascii.eqb c "]" = false.
Proof.
  unfold plain_char. rewrite negb_true_iff, !orb_false_iff. tauto.
Qed.

Lemma parse_plain p fuel : plain p = true → (String.length p <= fuel)%nat →
  parse_chunk fuel p = Some (lits p).
Proof.
  revert fuel. induction p as [|c p IH]; intros [|fuel] Hp Hf; simpl in *; try done; [lia|].
  apply andb_true_iff in Hp as [Hc Hp]. apply plain_char_spec in Hc as (-> & -> & -> & _).
  by rewrite IH by (done || lia).
Qed.

Lemma match_lits p s :
  match_items (lits p) s = if has_prefix s p then Some (sdrop (String.length p) s) else None.
Proof.
  revert s. induction p as [|c p IH]; intros s; [by destruct s|].
  destruct s as [|d s]; [done|]. simpl. rewrite (Ascii.eqb_sym d c).
  destruct (Ascii.eqb c d); [apply IH|done].
Qed.

Lemma scan_body_plain p r fuel : plain p = true →
  (String.length p + String.length r <= fuel)%nat → (r = "" ∨ ∃ r', r = String "*" r') →
  scan_body fuel false (p +:+ r) = (p, r).
Proof.
  revert fuel. induction p as [|c p IH]; intros fuel Hp Hf Hr; simpl in *.
  - destruct Hr as [->|[r' ->]]; destruct fuel; simpl in *; try done; lia.
  - destruct fuel as [|fuel]; [lia|]. simpl.
    apply andb_true_iff in Hp as [Hc Hp]. apply plain_char_spec in Hc as (-> & _ & -> & -> & ->).
    simpl. by rewrite IH by (done || lia).
Qed.

Lemma scan_stars_plain p r : plain p = true → p ≠ "" → scan_stars (p +:+ r) = (false, p +:+ r).
Proof.
  destruct p as [|c p]; [done|]. intros Hp _. simpl in *.
  apply andb_true_iff in Hp as [Hc _]. by apply plain_char_spec in Hc as (_ & _ & _ & -> & _).
Qed.

Lemma matchChunk_plain p name : plain p = true →
  matchChunk p name = Ok (if has_prefix name p then Some (sdrop (String.length p) name) else None).
Proof. intros Hp. unfold matchChunk. rewrite parse_plain by done. by rewrite match_lits. Qed.

(** A literal prefix followed by a star: the names with that prefix and no path
    separator after it. *)
Lemma glob_prefix p name : plain p = true → p ≠ "" →
  matched (p +:+ "*") name =
  has_prefix name p && negb (contains_char (Ascii.eqb separator) (sdrop (String.length p) name)).
Proof.
  intros Hp Hne. unfold matched, Match. rewrite append_length.
  destruct p as [|c p]; [done|]. cbn [String.length Nat.add match_go].
  change (String c p +:+ "*") with (String c (p +:+ "*")).
  cbn [match_go]. change (String c (p +:+ "*")) with (String c p +:+ "*").
  unfold scanChunk. rewrite scan_stars_plain by done.
  rewrite scan_body_plain by (rewrite ?append_length; simpl; eauto with lia).
  cbn [andb]. rewrite matchChunk_plain by done.
  destruct (has_prefix name (String c p)); [|done]. cbn [andb].
  rewrite orb_true_r. rewrite Nat.add_comm. reflexivity.
Qed.

(** A plain name matches itself only. *)
Lemma glob_literal p name : plain p = true → p ≠ "" → matched p name = String.eqb name p.
Proof.
  intros Hp Hne. unfold matched, Match.
  destruct p as [|c p]; [done|]. cbn [String.length match_go].
  pose proof (scan_stars_plain (String c p) "" Hp Hne) as Hs. rewrite append_nil_r in Hs.
  pose proof (scan_body_plain (String c p) "" (String.length (String c p)) Hp) as Hb.
  rewrite append_nil_r in Hb. unfold scanChunk. rewrite Hs, Hb by (simpl; auto with lia).
  cbn [andb]. rewrite matchChunk_plain by done.
  destruct (has_prefix name (String c p)) eqn:E.
  - apply has_prefix_spec in E as [t ->]. rewrite sdrop_append. simpl (negb _). rewrite orb_false_r.
    destruct (String.eqb_spec t "") as [->|Ht].
    + rewrite append_nil_r, String.eqb_refl. by destruct p.
    + symmetry. apply String.eqb_neq. intros Heq. apply Ht.
      apply (f_equal String.length) in Heq. rewrite append_length in Heq. destruct t; [done|].
      simpl in *. lia.
  - symmetry. apply String.eqb_neq. intros ->. by rewrite (has_prefix_app _ "") in E || (
      pose proof (has_prefix_app (String c p) "") as H; rewrite append_nil_r in H; congruence).
Qed.
