(* ===== verification/Isolator.v ===== *)
(** * What the other components ask of the safety valve

    The Go interface [Isolator] of server/internal/remediation/engine.go and
    server/internal/detection/isolator.go, whose value is always the gatekeeper of
    [Isolation.v].  The components that decide to isolate are modelled against
    the class [Isolator]; [IsolatorOk] is what they rely on; the instances at the
    end discharge it for the gatekeeper, and [reach_in_budget] shows that
    nothing a client of the interface does exceeds the gatekeeper's budget. *)

From S2P Require Import Prelude GoStrings Isolation IsolationProofs.

#[local] Open Scope string_scope.
#[local] Open Scope list_scope.
#[local] Open Scope Z_scope.

(** A command the bus accepted for an endpoint. *)
Inductive Command := Cut (agent : string) | Rejoin (agent : string).

#[export] Instance Command_eq_dec : EqDecision Command.
Proof. solve_decision. Defined.

Class Isolator (I : Type) := {
  isolate : I → Request → I * Reply;
  unisolate : I → Request → I * Reply;
  bus : I → list Command
}.

(** A command goes out exactly when the outcome says so, for the endpoint of the
    request, and never together with an error. *)
Class IsolatorOk (I : Type) `{Isolator I} := {
  isolate_bus i req :
    bus (isolate i req).1 = bus i ++
      (if Executed (r_Outcome (result (isolate i req).2)) then [Cut (AgentID req)] else []);
  isolate_error i req :
    error (isolate i req).2 ≠ None → Executed (r_Outcome (result (isolate i req).2)) = false;
  unisolate_bus i req :
    bus (unisolate i req).1 = bus i ++
      (if Executed (r_Outcome (result (unisolate i req).2)) then [Rejoin (AgentID req)] else []);
  unisolate_error i req :
    error (unisolate i req).2 ≠ None →
    Executed (r_Outcome (result (unisolate i req).2)) = false
}.

(** ** What a client may do to it *)
Section Client.
Context {I : Type} `{!Isolator I}.

(** One call, whose isolations carry an automated origin. *)
Inductive automated : I → I → Prop :=
| automated_isolate i req :
    Unattended (req_Origin (isolate_defaults req)) = true → automated i (isolate i req).1
| automated_unisolate i req : automated i (unisolate i req).1.

Context `{!IsolatorOk I}.

(** The bus only grows. *)
Lemma automated_bus i i' : automated i i' → ∃ cs, bus i' = bus i ++ cs.
Proof. destruct 1; rewrite ?isolate_bus, ?unisolate_bus; eauto. Qed.

Lemma automated_bus_rtc i i' : rtc automated i i' → ∃ cs, bus i' = bus i ++ cs.
Proof.
  induction 1 as [i|i1 i2 i3 H1 _ [cs IH]]; [exists []; by rewrite app_nil_r|].
  destruct (automated_bus _ _ H1) as [cs1 E]. exists (cs1 ++ cs). by rewrite IH, E, app_assoc.
Qed.
End Client.

(** ** The gatekeeper as an isolator

    The clock and the answers of the database and of the command bus, turn by
    turn, are [oracle]; [cuts] are the unattended isolations the bus accepted, with
    their times. *)
Record Live := mkLive {
  gk : Gatekeeper;
  oracle : nat → Env;
  turn : nat;
  accepted : list Command;
  cuts : list (time * string)
}.

Definition live (g : Gatekeeper) (o : nat → Env) : Live := mkLive g o 0 [] [].

Definition env (l : Live) : Env := oracle l (turn l).

Definition live_isolate (l : Live) (req : Request) : Live * Reply :=
  let '(g, r, _) := Isolate (env l) (gk l) req in
  let ok := Executed (r_Outcome (result r)) in
  (mkLive g (oracle l) (S (turn l))
     (accepted l ++ (if ok then [Cut (AgentID req)] else []))
     (cuts l ++ (if ok && Unattended (req_Origin (isolate_defaults req))
                 then [(now (env l), AgentID req)] else [])), r).

Definition live_unisolate (l : Live) (req : Request) : Live * Reply :=
  let '(r, _) := Unisolate (env l) (gk l) req in
  (mkLive (gk l) (oracle l) (S (turn l))
     (accepted l ++ (if Executed (r_Outcome (result r)) then [Rejoin (AgentID req)] else []))
     (cuts l), r).

#[export] Instance live_isolator : Isolator Live :=
  {| isolate := live_isolate; unisolate := live_unisolate; bus := accepted |}.

(** ** The gatekeeper keeps the promises *)
Lemma suppress_outcome e g req o r : r_Outcome (suppress e g req o r).1 = o.
Proof. unfold suppress. by destruct (record _ _ _ _ _ _). Qed.

Lemma valves_outcome e g req gd o r : valves e g req = (gd, Some (o, r)) → Executed o = false.
Proof. unfold valves. intros H. repeat (case_match; simplify_eq; try done). Qed.

(** Executed means that the command was put on the bus and accepted. *)
Lemma isolate_executed e g req :
  let '(_, r, calls) := Isolate e g req in
  (Executed (r_Outcome (result r)) = true → error r = None ∧ sends calls = true).
Proof.
  unfold Isolate. destruct (String.eqb (AgentID req) ""); [done|].
  destruct (valves e g (isolate_defaults req)) as [gd [[o rs]|]] eqn:Ev.
  - pose proof (suppress_outcome e (with_guard g gd) (isolate_defaults req) o rs).
    destruct (suppress _ _ _ _ _) as [r calls]. simpl in *. subst o.
    by rewrite (valves_outcome _ _ _ _ _ _ Ev).
  - destruct (has_commands (with_guard g gd)); cbn [negb].
    + pose proof (sends_dispatch e (with_guard g gd) (isolate_defaults req)) as Hs.
      unfold dispatch_isolate in *. destruct (record _ _ _ _ _ _) as [id cs].
      by destruct (send_answer e).
    + pose proof (suppress_outcome e (with_guard g gd) (isolate_defaults req)
        OutcomeDisabled "コマンド送出先が構成されていません") as Ho.
      destruct (suppress _ _ _ _ _) as [r calls]. simpl in *. by rewrite Ho.
Qed.

Lemma unisolate_executed e g req :
  let '(r, _) := Unisolate e g req in
  error r ≠ None → Executed (r_Outcome (result r)) = false.
Proof.
  unfold Unisolate. destruct (String.eqb (AgentID req) ""); [done|].
  destruct (has_commands g); cbn [negb].
  - destruct (record _ _ _ _ _ _) as [id cs]. by destruct (send_answer e).
  - by destruct (suppress _ _ _ _ _).
Qed.

#[export] Instance live_ok : IsolatorOk Live.
Proof.
  split; intros l req; cbn [isolate unisolate bus live_isolator].
  - unfold live_isolate. by destruct (Isolate _ _ _) as [[g r] calls].
  - unfold live_isolate. pose proof (isolate_executed (env l) (gk l) req) as H.
    destruct (Isolate _ _ _) as [[g r] calls]. simpl. intros He.
    destruct (Executed _); [|done]. by destruct (H eq_refl).
  - unfold live_unisolate. by destruct (Unisolate _ _ _) as [r calls].
  - unfold live_unisolate. pose proof (unisolate_executed (env l) (gk l) req) as H.
    by destruct (Unisolate _ _ _) as [r calls].
Qed.

(** ** Automation stays in the budget *)

(** The process clock does not go back from turn to turn. *)
Definition steady (o : nat → Env) : Prop := ∀ n, now (o n) <= now (o (S n)).

Definition live_inv (o : nat → Env) (gd : guard) (l : Live) : Prop :=
  oracle l = o ∧ same_settings gd (g_guard (gk l)) ∧
  ∃ last S, last <= now (o (turn l)) ∧ fleet (g_guard (gk l)) last S ∧ cuts l `sublist_of` S.

Lemma within_sublist w t S S' : S `sublist_of` S' → within w t S <= within w t S'.
Proof.
  unfold within, zlen. induction 1 as [|x S S' _ IH|x S S' _ IH]; [done| |];
    rewrite ?filter_cons; repeat case_decide; simpl; lia.
Qed.

Lemma live_inv_step o gd l l' : steady o → 0 <= window gd →
  live_inv o gd l → automated l l' → live_inv o gd l'.
Proof.
  intros Ho Hw (Eo & Hs & last & S & Hl & Hf & Hsub) Hstep.
  pose proof (Ho (turn l)) as Htick.
  assert (window (g_guard (gk l)) = window gd) as Ew by apply Hs.
  destruct Hstep as [l req Hu|l req]; cbn [isolate unisolate live_isolator].
  - unfold live_isolate, env. rewrite Eo.
    pose proof (fleet_isolate (o (turn l)) (gk l) req last S ltac:(lia) Hf Hl) as H.
    pose proof (isolate_executed (o (turn l)) (gk l) req) as Hx.
    destruct (Isolate _ _ _) as [[g r] calls]. destruct H as [Hs' Hf'].
    split; [done|]. split; [by eapply same_settings_trans|].
    cbn [cuts gk turn oracle fst snd].
    eexists _, _. split; [exact Htick|]. split; [exact Hf'|].
    rewrite Hu, andb_true_r. unfold unattended_send. rewrite Hu. cbn [andb].
    destruct (Executed _).
    + destruct (Hx eq_refl) as [_ ->]. by apply sublist_app.
    + rewrite app_nil_r. by apply sublist_inserts_r.
  - unfold live_unisolate. destruct (Unisolate _ _ _) as [r calls].
    split; [done|]. split; [done|]. exists last, S. simpl. split; [lia|done].
Qed.

Lemma live_inv_reach o gd l l' : steady o → 0 <= window gd →
  rtc automated l l' → live_inv o gd l → live_inv o gd l'.
Proof. intros Ho Hw. induction 1; eauto using live_inv_step. Qed.

Lemma live_inv_new cm ac cfg o :
  live_inv o (g_guard (New cm ac cfg)) (live (New cm ac cfg) o).
Proof.
  split; [done|]. split; [done|]. exists (now (o 0%nat)), []. split; [simpl; lia|].
  split; [apply fleet_new|apply sublist_nil_l].
Qed.

(** Whatever a client does through the interface, at most [HourlyBudget]
    unattended isolations are accepted in any hour. *)
Lemma reach_in_budget cm ac cfg o l : steady o → rtc automated (live (New cm ac cfg) o) l →
  ∀ t, within hour t (cuts l)
       <= (if HourlyBudget cfg <=? 0 then DefaultHourlyBudget else HourlyBudget cfg).
Proof.
  intros Ho Hr t.
  assert (0 <= window (g_guard (New cm ac cfg))) as Hw by (unfold New; simpl; done).
  destruct (live_inv_reach _ _ _ _ Ho Hw Hr (live_inv_new cm ac cfg o))
    as (_ & (_ & Eb & Ew & _) & last & S & _ & [_ _ _ Hb _] & Hsub).
  etrans; [by apply within_sublist|]. specialize (Hb t). rewrite Eb, Ew in Hb. exact Hb.
Qed.
