(* ===== verification/CommandLine.v ===== *)
(** * Command-line de-obfuscation

    [server/internal/detection/commandline_normalize.go]: the pre-pass that appends
    to a command line what the shell would make of it, so that rules matching a
    substring also see obfuscated commands and encoded PowerShell payloads.
    [is_print] is [unicode.IsPrint] on code points above the ASCII range. *)

From Stdlib Require Import Ascii.
From S2P Require Import Prelude GoStrings Event Base64.

#[local] Open Scope string_scope.
#[local] Open Scope list_scope.
#[local] Open Scope Z_scope.

Definition newline : ascii := chr 10.
Definition quote1 : ascii := "'".
Definition quote2 : ascii := chr 34.
Definition backtick : ascii := "`".

(** ** Escapes *)
Definition obfuscation_char (c : ascii) : bool :=
  Ascii.eqb c "^" || Ascii.eqb c backtick || Ascii.eqb c quote2 || Ascii.eqb c quote1.

Fixpoint drop_chars (f : ascii → bool) (s : string) : string :=
  match s with
  | EmptyString => EmptyString
  | String c s' => if f c then drop_chars f s' else String c (drop_chars f s')
  end.

Definition deobfuscateCommandLine (raw : string) : string :=
  if contains_char obfuscation_char raw
  then join " " (fields (drop_chars obfuscation_char raw)) else "".

(** ** Concatenation: a quote, a plus with white space around it, a quote *)
Definition re_blank (c : ascii) : bool := is_space c && negb (Ascii.eqb c (chr 11)).
Definition is_quote (c : ascii) : bool := Ascii.eqb c quote1 || Ascii.eqb c quote2.

Fixpoint skip_blank (s : string) : string :=
  match s with String c s' => if re_blank c then skip_blank s' else s | EmptyString => s end.

(** What follows a joint at the head of the string. *)
Definition joint (s : string) : option string :=
  match s with
  | String q s1 =>
      if is_quote q then
        match skip_blank s1 with
        | String p s2 =>
            if Ascii.eqb p "+" then
              match skip_blank s2 with
              | String r s3 => if is_quote r then Some s3 else None
              | EmptyString => None
              end
            else None
        | EmptyString => None
        end
      else None
  | EmptyString => None
  end.

(** [concatRe.ReplaceAllString(s, "")]; the fuel is the length. *)
Fixpoint remove_joints (fuel : nat) (s : string) : string :=
  match fuel, s with
  | S f, String c s' =>
      match joint s with Some rest => remove_joints f rest | None => String c (remove_joints f s') end
  | _, _ => s
  end.

Definition collapseConcatenation (s : string) : string :=
  if contains_char (Ascii.eqb "+") s then
    let out := remove_joints (String.length s) s in
    if String.eqb out s then "" else out
  else "".

(** ** Character codes *)
Fixpoint strip_prefix_fold (p s : string) : option string :=
  match p, s with
  | EmptyString, _ => Some s
  | String a p', String c s' =>
      if Ascii.eqb (lower_char c) a then strip_prefix_fold p' s' else None
  | String _ _, EmptyString => None
  end.

Definition hex_value (c : ascii) : option Z :=
  let n := byte_of (lower_char c) in
  if is_digit c then Some (n - 48) else
  if (97 <=? n) && (n <=? 102) then Some (n - 87) else None.

Fixpoint scan_hex (s : string) (acc : Z) (seen : bool) : option (Z * string) :=
  match s with
  | String c s' =>
      match hex_value c with
      | Some d => scan_hex s' (acc * 16 + d) true
      | None => if seen then Some (acc, s) else None
      end
  | EmptyString => if seen then Some (acc, s) else None
  end.

Definition skip_paren (s : string) : string :=
  match s with String c s' => if Ascii.eqb c "(" then s' else s | EmptyString => s end.

(** A cast at the head: the number and what follows it. *)
Definition char_cast (s : string) : option (Z * string) :=
  match strip_prefix_fold "[char]" s with
  | None => None
  | Some s1 =>
      let s2 := skip_blank (skip_paren (skip_blank s1)) in
      let hex := match strip_prefix_fold "0x" s2 with
                 | Some s3 => scan_hex s3 0 false
                 | None => None
                 end in
      match hex with
      | Some r => Some r
      | None =>
          match s2 with
          | String c _ => if is_digit c then Some (scan_digits s2 0) else None
          | EmptyString => None
          end
      end
  end.

(** [FindAllStringSubmatch]. *)
Fixpoint char_codes (fuel : nat) (s : string) : list Z :=
  match fuel, s with
  | S f, String _ s' =>
      match char_cast s with
      | Some (n, rest) => n :: char_codes f rest
      | None => char_codes f s'
      end
  | _, _ => []
  end.

(** A number beyond 32 bits is a [ParseInt] error, and skipped like those out of
    the Unicode range. *)
Definition decodeCharCodes (s : string) : string :=
  let ns := char_codes (String.length s) s in
  if zlen ns <? 3 then ""
  else encode_runes (List.filter (λ n, (0 <? n) && (n <=? 0x10FFFF)) ns).

(** ** Encoded PowerShell *)
Definition encFlags : list string :=
  [" -encodedcommand "; " -encodedcommand"; " -enc "; " -enc"; " -ec "; " -ec"; " -e "].

Fixpoint index_go (s sub : string) (k : nat) : option nat :=
  if has_prefix s sub then Some k else
  match s with String _ s' => index_go s' sub (S k) | EmptyString => None end.
Definition index_of (s sub : string) : option nat := index_go s sub 0.

Fixpoint first_flag (low : string) (fs : list string) : option nat :=
  match fs with
  | [] => None
  | f :: fs' =>
      match index_of low f with
      | Some p => Some (p + String.length f)%nat
      | None => first_flag low fs'
      end
  end.

Fixpoint drop_left (f : ascii → bool) (s : string) : string :=
  match s with String c s' => if f c then drop_left f s' else s | EmptyString => s end.
Fixpoint take_until (f : ascii → bool) (s : string) : string :=
  match s with
  | String c s' => if f c then EmptyString else String c (take_until f s')
  | EmptyString => EmptyString
  end.
(** [strings.Trim] with a set of characters. *)
Fixpoint drop_right (f : ascii → bool) (s : string) : string :=
  match s with
  | EmptyString => EmptyString
  | String c s' =>
      match drop_right f s' with
      | EmptyString => if f c then EmptyString else String c EmptyString
      | r => String c r
      end
  end.

Definition blank_or_tab (c : ascii) : bool := Ascii.eqb c " " || Ascii.eqb c (chr 9).
Definition token_end (c : ascii) : bool :=
  blank_or_tab c || Ascii.eqb c (chr 13) || Ascii.eqb c newline.

(** The argument of the flag. *)
Definition encoded_token (cmd : string) : option string :=
  match first_flag (to_lower cmd) encFlags with
  | None => None
  | Some i =>
      let rest := drop_left blank_or_tab (sdrop i cmd) in
      let tok := drop_right is_quote (drop_left is_quote (take_until token_end rest)) in
      if (String.length tok <? 8)%nat then None else Some tok
  end.

(** *** Base64 decoding; carriage returns and newlines cannot occur in a token *)
Definition b64_value (c : ascii) : option Z :=
  let n := byte_of c in
  if (65 <=? n) && (n <=? 90) then Some (n - 65) else
  if (97 <=? n) && (n <=? 122) then Some (n - 71) else
  if (48 <=? n) && (n <=? 57) then Some (n + 4) else
  if n =? 43 then Some 62 else if n =? 47 then Some 63 else None.

Definition d0 (x y : Z) : ascii := byte (Z.lor (Z.shiftl x 2) (Z.shiftr y 4)).
Definition d1 (y z : Z) : ascii := byte (Z.lor (Z.shiftl (Z.land y 15) 4) (Z.shiftr z 2)).
Definition d2 (z w : Z) : ascii := byte (Z.lor (Z.shiftl (Z.land z 3) 6) w).

(** [padded] is [StdEncoding], otherwise [RawStdEncoding]; spare bits at the end
    are ignored. *)
Fixpoint b64_decode (padded : bool) (s : string) : option string :=
  match s with
  | EmptyString => Some ""
  | String a (String b t) =>
      match b64_value a, b64_value b with
      | Some x, Some y =>
          match t with
          | EmptyString => if padded then None else Some (String (d0 x y) "")
          | String c t' =>
              if padded && Ascii.eqb c "=" then
                if String.eqb t' "=" then Some (String (d0 x y) "") else None
              else
              match b64_value c with
              | None => None
              | Some z =>
                  match t' with
                  | EmptyString =>
                      if padded then None else Some (String (d0 x y) (String (d1 y z) ""))
                  | String d r =>
                      if padded && Ascii.eqb d "=" then
                        if String.eqb r "" then Some (String (d0 x y) (String (d1 y z) "")) else None
                      else
                      match b64_value d with
                      | None => None
                      | Some w =>
                          match b64_decode padded r with
                          | Some out => Some (String (d0 x y) (String (d1 y z) (String (d2 z w) out)))
                          | None => None
                          end
                      end
                  end
              end
          end
      | _, _ => None
      end
  | String _ EmptyString => None
  end.

Definition utf16LEToString (b : string) : string :=
  if (String.length b <? 2)%nat || negb (Nat.even (String.length b)) then ""
  else encode_runes (utf16_decode (units b)).

Section Normalize.
Context (is_print : Z → bool).

Definition printable (r : option Z) : bool :=
  match r with
  | None => false
  | Some r =>
      (r =? 10) || (r =? 13) || (r =? 9) ||
      ((if r <? 0x80 then (0x20 <=? r) && (r <=? 0x7E) else is_print r) && (r <? 0xFFFD))
  end.

Definition isPlausibleText (s : string) : bool :=
  if (String.length s <? 4)%nat then false else
  let rs := runes s in
  (0 <? zlen rs) && (85 <=? zlen (List.filter printable rs) * 100 / zlen rs).

Definition decodeEncodedPowerShell (cmd : string) : string :=
  match encoded_token cmd with
  | None => ""
  | Some tok =>
      let decoded := match b64_decode true tok with
                     | Some data => Some data
                     | None => b64_decode false tok
                     end in
      match decoded with
      | None => ""
      | Some data =>
          let s := utf16LEToString data in
          if isPlausibleText s then s else
          let s := to_valid_utf8 data in
          if isPlausibleText s then s else ""
      end
  end.

(** ** The augmented command line *)
Definition appendIfNew (parts : list string) (s : string) : list string :=
  if String.eqb s "" || existsb (String.eqb s) parts then parts else parts ++ [s].

Definition augmentCommandLine (raw : string) : string :=
  let parts := [raw] in
  let d := deobfuscateCommandLine raw in
  let parts := if String.eqb d raw then parts else appendIfNew parts d in
  let c := collapseConcatenation raw in
  let parts := if String.eqb c "" then parts
               else appendIfNew (appendIfNew parts c) (deobfuscateCommandLine c) in
  let cc := decodeCharCodes raw in
  let parts := if String.eqb cc "" then parts else appendIfNew parts cc in
  let dec := decodeEncodedPowerShell raw in
  let parts := if String.eqb dec "" then parts
               else appendIfNew (appendIfNew (appendIfNew parts dec) (deobfuscateCommandLine dec))
                      (collapseConcatenation dec) in
  join (String newline "") parts.

Definition cmdlineKeys : list string := ["command_line"; "commandLine"; "CommandLine"].

(** [flat[k] = v] and the fallible reading of the event are those of [Event.v]. *)
Fixpoint set_key (ev : event) (k : string) (v : value) : event :=
  match ev with
  | [] => [(k, v)]
  | (k', v') :: ev' => if String.eqb k' k then (k, v) :: ev' else (k', v') :: set_key ev' k v
  end.

Definition has_key (ev : event) (k : string) : bool :=
  match get ev k with Some _ => true | None => false end.

(** The first non-empty text under one of the keys. *)
Definition first_text (ev : event) (ks : list string) : string :=
  default "" (head (List.filter (λ s, negb (String.eqb s "")) (str_or_empty ev <$> ks))).

Definition normalizeCommandLine (ev : event) : event :=
  if has_key ev "_cmdline_normalized" then ev else
  let raw := first_text ev cmdlineKeys in
  if String.eqb raw "" then ev else
  let aug := augmentCommandLine raw in
  let ev := set_key ev "_cmdline_normalized" (VBool true) in
  if String.eqb aug raw then ev else
  let ev := foldl (λ ev k, if has_key ev k then set_key ev k (VStr aug) else ev) ev cmdlineKeys in
  set_key ev "CommandLine" (VStr aug).
End Normalize.

Example deobfuscation_examples :
  deobfuscateCommandLine "w^h^o^a^mi  /all" = "whoami /all" ∧
  collapseConcatenation "'wh' + 'oami'" = "'whoami'" ∧
  decodeCharCodes "[char]0x68+[CHAR] ( 105)+[char]33" = "hi!" ∧
  decodeEncodedPowerShell (λ _, true) ("powershell -EnC " +:+ b64 (widen "whoami")) = "whoami".
Proof. by vm_compute. Qed.
