(* ===== verification/CommandLineProofs.v ===== *)
(** * Command-line de-obfuscation: theorems

    The pre-pass loses no match where the command-line fields agree, sees through
    inserted escape and quote characters, and finds the text of an encoded
    PowerShell command. *)

From Stdlib Require Import Ascii.
From S2P Require Import Prelude GoStrings Event Base64 CommandLine.

#[local] Open Scope string_scope.
#[local] Open Scope list_scope.
#[local] Open Scope Z_scope.

(** ** Strings *)
Lemma contains_trans s t u : contains s t = true → contains t u = true → contains s u = true.
Proof.
  rewrite !contains_spec. intros (a & b & ->) (c & d & ->). exists (a +:+ c), (d +:+ b).
  by rewrite <-!append_assoc.
Qed.

Lemma contains_refl s : contains s s = true.
Proof. apply contains_spec. exists "", "". by rewrite append_nil_r. Qed.

Lemma join_contains sep l x : x ∈ l → contains (join sep l) x = true.
Proof.
  induction l as [|y l IH]; [set_solver|]. intros [->|Hx]%elem_of_cons.
  - destruct l; [apply contains_refl|]. simpl. apply contains_app_r, contains_refl.
  - destruct l as [|z l]; [set_solver|]. simpl. by apply contains_app_l, contains_app_l, IH.
Qed.

Lemma join_head sep x l : has_prefix (join sep (x :: l)) x = true.
Proof.
  apply has_prefix_spec. destruct l as [|y l]; [exists ""; by rewrite append_nil_r|].
  by eexists.
Qed.

(** ** The parts of the augmented line *)
Lemma append_if_new_mem parts s : s ≠ "" → s ∈ appendIfNew parts s.
Proof.
  intros Hs. unfold appendIfNew. destruct (String.eqb_spec s ""); [done|]. simpl.
  destruct (existsb _ _) eqn:E; [|set_solver].
  apply existsb_exists in E as (y & Hy & ->%String.eqb_eq). by apply list_elem_of_In.
Qed.

Lemma append_if_new_incl parts s : ∃ l, appendIfNew parts s = parts ++ l.
Proof.
  unfold appendIfNew. destruct (_ || _); [exists []; by rewrite app_nil_r|by eexists].
Qed.

(** Every stage extends the list. *)
Definition extends (l l' : list string) : Prop := ∃ m, l' = l ++ m.
#[export] Instance extends_pre : PreOrder extends.
Proof.
  split; [intros l; exists []; by rewrite app_nil_r|].
  intros l1 l2 l3 [m ->] [m' ->]. exists (m ++ m'). by rewrite app_assoc.
Qed.

Lemma extends_mem l l' x : extends l l' → x ∈ l → x ∈ l'.
Proof. intros [m ->]. set_solver. Qed.

Lemma extends_if (b : bool) l l' : extends l l' → extends l (if b then l else l').
Proof. by destruct b. Qed.

Section Augment.
Context (is_print : Z → bool).

(** The line starts with the original and contains what each decoder found. *)
Lemma augment_parts raw : ∃ parts, augmentCommandLine is_print raw = join (String newline "") (raw :: parts) ∧
  (deobfuscateCommandLine raw ≠ "" → deobfuscateCommandLine raw ∈ raw :: parts) ∧
  (decodeEncodedPowerShell is_print raw ≠ "" → decodeEncodedPowerShell is_print raw ∈ raw :: parts).
Proof.
  unfold augmentCommandLine. cbn zeta.
  set (d := deobfuscateCommandLine raw). set (c := collapseConcatenation raw).
  set (cc := decodeCharCodes raw). set (dec := decodeEncodedPowerShell is_print raw).
  set (p1 := if String.eqb d raw then _ else _).
  set (p2 := if String.eqb c "" then _ else _).
  set (p3 := if String.eqb cc "" then _ else _).
  set (p4 := if String.eqb dec "" then _ else _).
  assert (extends [raw] p1) as H1 by (apply extends_if, append_if_new_incl).
  assert (extends p1 p2) as H2.
  { apply extends_if. etrans; apply append_if_new_incl. }
  assert (extends p2 p3) as H3 by (apply extends_if, append_if_new_incl).
  assert (extends p3 p4) as H4.
  { apply extends_if. etrans; [apply append_if_new_incl|]. etrans; apply append_if_new_incl. }
  assert (extends p1 p4) as H14 by (etrans; [exact H2|]; etrans; [exact H3|exact H4]).
  assert (extends [raw] p4) as [parts E] by (etrans; [exact H1|exact H14]).
  exists parts. simpl in E. rewrite E. split; [done|]. rewrite <- E. split; intros Hne.
  - apply (extends_mem p1); [exact H14|]. unfold p1.
    destruct (String.eqb_spec d raw) as [->|]; [left|by apply append_if_new_mem].
  - unfold p4. destruct (String.eqb_spec dec ""); [done|].
    eapply extends_mem; [apply append_if_new_incl|]. eapply extends_mem; [apply append_if_new_incl|].
    by apply append_if_new_mem.
Qed.

Lemma augment_prefix raw : has_prefix (augmentCommandLine is_print raw) raw = true.
Proof. destruct (augment_parts raw) as (parts & -> & _). apply join_head. Qed.

(** ** Inserted characters *)
Inductive obfuscated : string → string → Prop :=
| ob_nil : obfuscated "" ""
| ob_keep c w raw : obfuscated w raw → obfuscated (String c w) (String c raw)
| ob_insert c w raw : obfuscation_char c = true → obfuscated w raw → obfuscated w (String c raw).

Lemma drop_obfuscated w raw : obfuscated w raw → contains_char obfuscation_char w = false →
  drop_chars obfuscation_char raw = w.
Proof.
  induction 1 as [|c w raw _ IH|c w raw Hc _ IH]; cbn [contains_char drop_chars]; [done| |].
  - intros [-> Hw]%orb_false_iff. by rewrite IH.
  - rewrite Hc. apply IH.
Qed.

Lemma obfuscated_same w raw : obfuscated w raw → contains_char obfuscation_char raw = false → raw = w.
Proof.
  induction 1 as [|c w raw _ IH|c w raw Hc _ IH]; cbn [contains_char]; [done| |].
  - intros [_ H]%orb_false_iff. by rewrite IH.
  - by rewrite Hc.
Qed.

(** Whatever escape and quote characters are inserted into a command whose words
    are separated by single blanks, the augmented line contains the command. *)
Theorem obfuscation_undone w raw : obfuscated w raw →
  contains_char obfuscation_char w = false → join " " (fields w) = w →
  contains (augmentCommandLine is_print raw) w = true.
Proof.
  intros Ho Hw Ht. destruct (decide (w = "")) as [->|Hne]; [apply contains_empty|].
  destruct (augment_parts raw) as (parts & -> & Hd & _). apply join_contains.
  destruct (contains_char obfuscation_char raw) eqn:E.
  - assert (deobfuscateCommandLine raw = w) as Er.
    { unfold deobfuscateCommandLine. by rewrite E, (drop_obfuscated w raw). }
    rewrite Er in Hd. by apply Hd.
  - rewrite (obfuscated_same w raw Ho E). left.
Qed.

(** ** Events *)
Lemma get_set_same ev k v : get (set_key ev k v) k = Some v.
Proof.
  induction ev as [|[k' v'] ev IH]; simpl; [by rewrite String.eqb_refl|].
  destruct (String.eqb_spec k' k) as [->|]; simpl; [by rewrite String.eqb_refl|].
  by destruct (String.eqb_spec k' k).
Qed.

Lemma get_set_other ev k v k2 : k2 ≠ k → get (set_key ev k v) k2 = get ev k2.
Proof.
  intros Hne. induction ev as [|[k' v'] ev IH]; simpl.
  - by destruct (String.eqb_spec k k2).
  - destruct (String.eqb_spec k' k) as [->|]; simpl; [by destruct (String.eqb_spec k k2)|].
    by destruct (String.eqb_spec k' k2).
Qed.

(** Writing the augmented line under the keys that are present. *)
Lemma write_present ev ks x k :
  get (foldl (λ ev k, if has_key ev k then set_key ev k x else ev) ev ks) k
  = if bool_decide (k ∈ ks) && has_key ev k then Some x else get ev k.
Proof.
  revert ev. induction ks as [|k0 ks IH]; intros ev; [done|]. cbn [foldl]. rewrite IH.
  destruct (decide (k = k0)) as [->|Hne].
  - rewrite (bool_decide_eq_true_2 (k0 ∈ k0 :: ks)) by left. simpl.
    destruct (has_key ev k0) eqn:Eh; unfold has_key in *.
    + rewrite get_set_same. by destruct (bool_decide _).
    + destruct (get ev k0); [done|]. by destruct (bool_decide _).
  - assert (∀ b : bool, get (if b then set_key ev k0 x else ev) k = get ev k) as Hg
      by (intros []; [by apply get_set_other|done]).
    replace (bool_decide (k ∈ k0 :: ks)) with (bool_decide (k ∈ ks))
      by (apply bool_decide_ext; set_solver).
    set (e := if has_key ev k0 then _ else _).
    assert (has_key e k = has_key ev k) as -> by (unfold has_key at 1; unfold e; by rewrite Hg).
    unfold e. by rewrite Hg.
Qed.

(** When the command-line fields of an event agree, the pre-pass changes no
    other field (but for its mark) and only extends those: whatever substring a
    rule found in a field it still finds. *)
Theorem normalize_only_extends ev k v :
  (∀ k' v', k' ∈ cmdlineKeys → get ev k' = Some v' →
     v' = VStr "" ∨ v' = VStr (first_text ev cmdlineKeys)) →
  k ≠ "_cmdline_normalized" → get ev k = Some v →
  get (normalizeCommandLine is_print ev) k = Some v ∨
  ∃ s s', v = VStr s ∧ get (normalizeCommandLine is_print ev) k = Some (VStr s') ∧
    has_prefix s' s = true.
Proof.
  intros Hagree Hk Hv. unfold normalizeCommandLine. destruct (has_key ev _); [by left|].
  set (raw := first_text ev cmdlineKeys) in *. destruct (String.eqb_spec raw ""); [by left|].
  destruct (String.eqb _ raw); [left; by rewrite get_set_other|].
  assert (k ∈ cmdlineKeys → ∃ s s', v = VStr s ∧
    Some (VStr (augmentCommandLine is_print raw)) = Some (VStr s') ∧ has_prefix s' s = true) as Hkey.
  { intros Hin. destruct (Hagree k v Hin Hv) as [->| ->]; eexists _, _; split_and!; try done.
    apply augment_prefix. }
  destruct (decide (k = "CommandLine")) as [->|Hc].
  - right. rewrite get_set_same. apply Hkey. do 2 right. left.
  - rewrite get_set_other, write_present by done.
    destruct (bool_decide_reflect (k ∈ cmdlineKeys)) as [Hin|Hin]; simpl.
    + unfold has_key. rewrite get_set_other by done. rewrite Hv. right. by apply Hkey.
    + left. by rewrite get_set_other.
Qed.

(** Where they do not agree, a field is overwritten by the augmented form of
    another. *)
Lemma disagreeing_field_is_lost :
  get (normalizeCommandLine is_print [("command_line", VStr "net^stat"); ("CommandLine", VStr "whoami")])
    "CommandLine" = Some (VStr ("net^stat" +:+ String newline "netstat")).
Proof. vm_compute. reflexivity. Qed.
End Augment.

Lemma obfuscation_undone_witness :
  obfuscated "whoami /all" (String quote2 "wh^oa`mi'' /all") ∧
  contains (augmentCommandLine (λ _, true) (String quote2 "wh^oa`mi'' /all")) "whoami /all" = true.
Proof.
  assert (obfuscated "whoami /all" (String quote2 "wh^oa`mi'' /all")) as H.
  { repeat first [apply ob_nil | apply ob_keep | apply ob_insert; [reflexivity|]]. }
  split; [exact H|]. apply (obfuscation_undone _ _ _ H); reflexivity.
Defined.

Lemma normalize_only_extends_witness :
  let ev := [("CommandLine", VStr "net^stat -an"); ("pid", VInt 4)] in
  first_text ev cmdlineKeys = "net^stat -an" ∧
  (get (normalizeCommandLine (λ _, true) ev) "CommandLine" = Some (VStr "net^stat -an") ∨
   ∃ s s', VStr "net^stat -an" = VStr s ∧
     get (normalizeCommandLine (λ _, true) ev) "CommandLine" = Some (VStr s') ∧ has_prefix s' s = true).
Proof.
  cbn zeta. split; [reflexivity|]. apply normalize_only_extends; [|discriminate|reflexivity].
  intros k v Hk. unfold cmdlineKeys in Hk. simpl.
  repeat (apply elem_of_cons in Hk as [->|Hk]); [discriminate|discriminate| |by apply elem_of_nil in Hk].
  intros [= <-]. by right.
Defined.

(** ** Base64 *)
Lemma small_bits v k n : 0 <= v < 2 ^ k → 0 <= k <= n → Z.testbit v n = false.
Proof.
  intros Hv Hn. destruct (decide (v = 0)) as [->|]; [apply Z.bits_0|].
  apply Z.bits_above_log2; [lia|]. apply Z.log2_lt_pow2; [lia|].
  pose proof (Z.pow_le_mono_r 2 k n). lia.
Qed.

Lemma pack_high u v k : 0 <= k → 0 <= v < 2 ^ k → Z.shiftr (Z.lor (Z.shiftl u k) v) k = u.
Proof.
  intros Hk Hv. apply Z.bits_inj'. intros n Hn.
  rewrite Z.shiftr_spec, Z.lor_spec, Z.shiftl_spec, (small_bits v k) by lia.
  rewrite orb_false_r. f_equal. lia.
Qed.

Lemma pack_low u v k : 0 <= k → 0 <= v < 2 ^ k → Z.land (Z.lor (Z.shiftl u k) v) (Z.ones k) = v.
Proof.
  intros Hk Hv. rewrite Z.land_ones by done. apply Z.bits_inj'. intros n Hn.
  destruct (Z.ltb_spec n k).
  - rewrite Z.mod_pow2_bits_low, Z.lor_spec, Z.shiftl_spec_low by lia. done.
  - rewrite Z.mod_pow2_bits_high, (small_bits v k) by lia. done.
Qed.

Lemma unpack a k : 0 <= k → Z.lor (Z.shiftl (Z.shiftr a k) k) (Z.land a (Z.ones k)) = a.
Proof.
  intros Hk. rewrite Z.land_ones by done. apply Z.bits_inj'. intros n Hn. rewrite Z.lor_spec.
  destruct (Z.ltb_spec n k).
  - by rewrite Z.mod_pow2_bits_low, Z.shiftl_spec_low by lia.
  - rewrite Z.mod_pow2_bits_high, Z.shiftl_spec, Z.shiftr_spec by lia.
    rewrite orb_false_r. f_equal. lia.
Qed.

Lemma high_bits_range a k m : 0 <= k → 0 <= m → 0 <= a < 2 ^ (k + m) → 0 <= Z.shiftr a k < 2 ^ m.
Proof.
  intros Hk Hm Ha. rewrite Z.shiftr_div_pow2 by done. rewrite Z.pow_add_r in Ha by done.
  split; [apply Z.div_pos; lia|]. apply Z.div_lt_upper_bound; lia.
Qed.

Lemma low_bits_range a k : 0 <= k → 0 <= Z.land a (Z.ones k) < 2 ^ k.
Proof. intros. rewrite Z.land_ones by done. apply Z.mod_pos_bound. lia. Qed.

Lemma b64_value_char n : 0 <= n < 64 → b64_value (b64_char n) = Some n.
Proof.
  intros Hn. assert (forallb (λ k, bool_decide (b64_value (b64_char (Z.of_nat k)) = Some (Z.of_nat k)))
    (seq 0 64) = true) as H by (vm_compute; done).
  rewrite forallb_forall in H. specialize (H (Z.to_nat n)). rewrite Z2Nat.id in H by lia.
  eapply bool_decide_eq_true_1, H, in_seq. lia.
Qed.

Lemma b64_char_not_pad n : 0 <= n < 64 → Ascii.eqb (b64_char n) "=" = false.
Proof.
  intros Hn. pose proof (b64_value_char n Hn) as E. destruct (Ascii.eqb_spec (b64_char n) "=") as [Ec|]; [|done].
  by rewrite Ec in E.
Qed.

Lemma pack_range u v k m : 0 <= k → 0 <= u < 2 ^ m → 0 <= m → 0 <= v < 2 ^ k →
  0 <= Z.lor (Z.shiftl u k) v < 2 ^ (m + k).
Proof.
  intros Hk Hu Hm Hv. assert (0 <= Z.lor (Z.shiftl u k) v).
  { apply Z.lor_nonneg. split; [apply Z.shiftl_nonneg|]; lia. }
  split; [done|]. destruct (decide (Z.lor (Z.shiftl u k) v = 0)) as [->|]; [lia|].
  apply Z.log2_lt_pow2; [lia|]. apply Z.nle_gt. intros Hl.
  pose proof (Z.bit_log2 (Z.lor (Z.shiftl u k) v)) as Hb.
  rewrite Z.lor_spec, Z.shiftl_spec, (small_bits u m), (small_bits v k) in Hb by lia.
  discriminate Hb. lia.
Qed.

Lemma byte_byte_of a : byte (byte_of a) = a.
Proof. unfold byte, byte_of, chr. by rewrite Nat2Z.id, ascii_nat_embedding. Qed.

Section Groups.
Context (a b c : ascii).
Let A := byte_of_range a.
Let B := byte_of_range b.
Let C := byte_of_range c.

Lemma group0 : 0 <= Z.shiftr (byte_of a) 2 < 64.
Proof. apply (high_bits_range _ 2 6); lia. Qed.
Lemma group1 : 0 <= Z.lor (Z.shiftl (Z.land (byte_of a) 3) 4) (Z.shiftr (byte_of b) 4) < 64.
Proof. apply (pack_range _ _ 4 2); try lia; [apply (low_bits_range _ 2)|apply (high_bits_range _ 4 4)]; lia. Qed.
Lemma group2 : 0 <= Z.lor (Z.shiftl (Z.land (byte_of b) 15) 2) (Z.shiftr (byte_of c) 6) < 64.
Proof. apply (pack_range _ _ 2 4); try lia; [apply (low_bits_range _ 4)|apply (high_bits_range _ 6 2)]; lia. Qed.
Lemma group3 : 0 <= Z.land (byte_of c) 63 < 64.
Proof. apply (low_bits_range _ 6). lia. Qed.

Lemma first_byte : d0 (Z.shiftr (byte_of a) 2)
  (Z.lor (Z.shiftl (Z.land (byte_of a) 3) 4) (Z.shiftr (byte_of b) 4)) = a.
Proof.
  unfold d0. rewrite pack_high by (try apply (high_bits_range _ 4 4); lia).
  change 3 with (Z.ones 2). by rewrite (unpack (byte_of a) 2), byte_byte_of by lia.
Qed.
Lemma second_byte : d1 (Z.lor (Z.shiftl (Z.land (byte_of a) 3) 4) (Z.shiftr (byte_of b) 4))
  (Z.lor (Z.shiftl (Z.land (byte_of b) 15) 2) (Z.shiftr (byte_of c) 6)) = b.
Proof.
  unfold d1. change 15 with (Z.ones 4). rewrite (pack_low _ _ 4), pack_high by (try apply (high_bits_range _ 4 4); try apply (high_bits_range _ 6 2); lia).
  by rewrite (unpack (byte_of b) 4), byte_byte_of by lia.
Qed.
Lemma third_byte : d2 (Z.lor (Z.shiftl (Z.land (byte_of b) 15) 2) (Z.shiftr (byte_of c) 6))
  (Z.land (byte_of c) 63) = c.
Proof.
  unfold d2. change 3 with (Z.ones 2). change 63 with (Z.ones 6). rewrite (pack_low _ _ 2) by (try apply (high_bits_range _ 6 2); lia).
  by rewrite (unpack (byte_of c) 6), byte_byte_of by lia.
Qed.
End Groups.

Lemma b64_round_trip s : b64_decode true (b64 s) = Some s.
Proof.
  induction s as [|a|a b|a b c s IH] using string_ind3; [done| | |].
  - cbn [b64 b64_decode]. unfold g0, g1.
    rewrite !b64_value_char by (apply group0 || apply group1). cbn [andb Ascii.eqb].
    by rewrite first_byte.
  - cbn [b64 b64_decode]. unfold g0, g1, g2.
    rewrite !b64_value_char, b64_char_not_pad by (apply group0 || apply group1 || apply group2).
    simpl. by rewrite first_byte, second_byte.
  - rewrite b64_cons3. cbn [b64_decode]. unfold g0, g1, g2, g3.
    rewrite !b64_value_char, !b64_char_not_pad
      by (apply group0 || apply group1 || apply group2 || apply group3).
    simpl. by rewrite IH, first_byte, second_byte, third_byte.
Qed.

(** The characters of an encoding. *)
Lemma b64_alphabet f s : (∀ n, 0 <= n < 64 → f (b64_char n) = false) → f "="%char = false →
  contains_char f (b64 s) = false.
Proof.
  intros Hf Hp. induction s as [|a|a b|a b c s IH] using string_ind3; [done| | |].
  - simpl. unfold g0, g1. by rewrite !Hf, Hp by (apply group0 || apply group1).
  - simpl. unfold g0, g1, g2. by rewrite !Hf, Hp by (apply group0 || apply group1 || apply group2).
  - rewrite b64_cons3. simpl. unfold g0, g1, g2, g3.
    by rewrite !Hf, IH by (apply group0 || apply group1 || apply group2 || apply group3).
Qed.

Lemma sextets (f : ascii → bool) :
  forallb (λ k, negb (f (b64_char (Z.of_nat k)))) (seq 0 64) = true →
  ∀ n, 0 <= n < 64 → f (b64_char n) = false.
Proof.
  intros H n Hn. rewrite forallb_forall in H. specialize (H (Z.to_nat n)).
  rewrite Z2Nat.id in H by lia. apply negb_true_iff, H, in_seq. lia.
Qed.

Lemma b64_clean f s :
  forallb (λ k, negb (f (b64_char (Z.of_nat k)))) (seq 0 64) = true → f "="%char = false →
  contains_char f (b64 s) = false.
Proof. intros H. by apply b64_alphabet, sextets. Qed.

Lemma b64_length_ge s : (String.length s <= String.length (b64 s))%nat.
Proof.
  induction s as [|a|a b|a b c s IH] using string_ind3; [simpl; lia..|].
  rewrite b64_cons3. simpl. lia.
Qed.

(** ** Finding the argument *)
Lemma contains_char_map f g s : contains_char f (string_map g s) = contains_char (λ c, f (g c)) s.
Proof. induction s as [|c s IH]; simpl; [done|by rewrite IH]. Qed.

Lemma no_prefix_char f c s p : f c = true → contains_char f s = false →
  has_prefix s (String c p) = false.
Proof.
  intros Hc. destruct s as [|d s]; simpl; [done|]. intros [Hd _]%orb_false_iff.
  destruct (Ascii.eqb_spec d c) as [->|]; [congruence|]. by destruct (Ascii.eqb_spec c d).
Qed.

(** No flag starts in a text without blanks. *)
Lemma index_no_blank s p k : contains_char (Ascii.eqb " ") s = false →
  index_go s (String " " p) k = None.
Proof.
  revert k. induction s as [|c s IH]; intros k Hs; [done|].
  cbn [index_go]. rewrite (no_prefix_char (Ascii.eqb " ")) by done.
  apply IH. simpl in Hs. by apply orb_false_iff in Hs as [_ ?].
Qed.

(** No flag starts in what precedes it, when that does not contain [" -e"]. *)
Lemma index_skips pre t p k : contains pre " -e" = false →
  index_go (pre +:+ String " " t) (" -e" +:+ p) k = index_go (String " " t) (" -e" +:+ p) (String.length pre + k).
Proof.
  revert k. induction pre as [|c pre IH]; intros k Hp; [done|].
  change (String c pre +:+ String " " t) with (String c (pre +:+ String " " t)). cbn [index_go].
  assert (has_prefix (String c (pre +:+ String " " t)) (" -e" +:+ p) = false) as ->.
  { cbn [contains] in Hp. apply orb_false_iff in Hp as [Hp _].
    apply not_true_is_false. intros [u E]%has_prefix_spec.
    destruct pre as [|d [|e pre]]; [by injection E..|]. injection E as -> -> -> _. done. }
  rewrite IH by (cbn [contains] in Hp; by apply orb_false_iff in Hp as [_ ?]).
  cbn [String.length]. by rewrite Nat.add_succ_r.
Qed.

Definition ps_flag : string := " -enc ".

Lemma flag_position pre s : contains (to_lower pre) " -e" = false →
  first_flag (to_lower (pre +:+ ps_flag +:+ b64 s)) encFlags
  = Some (String.length pre + String.length ps_flag)%nat.
Proof.
  intros Hp. rewrite !to_lower_append. set (low := to_lower (b64 s)).
  assert (contains_char (Ascii.eqb " ") low = false) as Hb.
  { unfold low, to_lower. rewrite contains_char_map. by apply b64_clean. }
  assert (contains_char (Ascii.eqb "-") low = false) as Hd.
  { unfold low, to_lower. rewrite contains_char_map. by apply b64_clean. }
  clearbody low.
  assert (∀ q k, index_go (" -enc " +:+ low) (" -e" +:+ String "n" (String "c" (String "o" q))) k = None) as Hlong.
  { intros q k. cbn. destruct low as [|c low]; [done|]. cbn in Hd. cbn.
    apply orb_false_iff in Hd as [Hc _].
    rewrite Hc. cbn [andb].
    exact (index_no_blank (String c low) ("-enco" +:+ q) (6 + k) Hb). }
  unfold encFlags, first_flag, index_of.
  change (to_lower ps_flag +:+ low) with (String " " ("-enc " +:+ low)).
  change " -encodedcommand " with (" -e" +:+ "ncodedcommand ").
  change " -encodedcommand" with (" -e" +:+ "ncodedcommand").
  change " -enc " with (" -e" +:+ "nc ").
  rewrite !index_skips by done. rewrite !to_lower_length.
  change (String " " ("-enc " +:+ low)) with (" -enc " +:+ low).
  rewrite !Hlong. simpl. f_equal. lia.
Qed.

Lemma drop_left_none f s : contains_char f s = false → drop_left f s = s.
Proof. destruct s as [|c s]; simpl; [done|]. by intros [-> _]%orb_false_iff. Qed.

Lemma take_until_all f s : contains_char f s = false → take_until f s = s.
Proof.
  induction s as [|c s IH]; simpl; [done|]. intros [-> Hs]%orb_false_iff. by rewrite IH.
Qed.

Lemma drop_right_none f s : contains_char f s = false → drop_right f s = s.
Proof.
  induction s as [|c s IH]; simpl; [done|]. intros [Hc Hs]%orb_false_iff. rewrite IH, Hc by done.
  by destruct s.
Qed.

Lemma encoded_token_found pre s : contains (to_lower pre) " -e" = false →
  (8 <= String.length s)%nat → encoded_token (pre +:+ ps_flag +:+ b64 s) = Some (b64 s).
Proof.
  intros Hp Hl. unfold encoded_token. rewrite flag_position by done.
  rewrite append_assoc, <-append_length, sdrop_append.
  rewrite (drop_left_none blank_or_tab) by by apply b64_clean.
  rewrite take_until_all by by apply b64_clean.
  rewrite (drop_left_none is_quote) by by apply b64_clean.
  rewrite drop_right_none by by apply b64_clean.
  pose proof (b64_length_ge s). destruct (Nat.ltb_spec (String.length (b64 s)) 8); [lia|done].
Qed.

(** ** Readable text *)
Definition readable (c : ascii) : bool :=
  let n := byte_of c in ((32 <=? n) && (n <=? 126)) || (n =? 10) || (n =? 13) || (n =? 9).
Definition readable_text (s : string) : bool := negb (contains_char (λ c, negb (readable c)) s).

Lemma readable_cons c s : readable_text (String c s) = readable c && readable_text s.
Proof. unfold readable_text. simpl. by rewrite negb_orb, negb_involutive. Qed.

Lemma readable_ascii s : readable_text s = true → ascii_only s = true.
Proof.
  unfold ascii_only. induction s as [|c s IH]; [done|]. rewrite readable_cons. simpl.
  intros [Hc Hs]%andb_true_iff. rewrite negb_orb, IH, andb_true_r by done. unfold readable in Hc. lia.
Qed.

Fixpoint byte_runes (s : string) : list (option Z) :=
  match s with EmptyString => [] | String c s' => Some (byte_of c) :: byte_runes s' end.

Lemma runes_ascii s : ascii_only s = true → runes s = byte_runes s.
Proof.
  unfold ascii_only, runes. induction s as [|c s IH]; [done|]. simpl. rewrite negb_orb.
  intros [Hc Hs]%andb_true_iff. apply negb_true_iff, Z.ltb_ge in Hc.
  destruct (Z.leb_spec (byte_of c) 127); [|lia]. simpl. by rewrite <-IH.
Qed.

Section Found.
Context (is_print : Z → bool).

Lemma readable_printable s : readable_text s = true →
  List.filter (printable is_print) (byte_runes s) = byte_runes s.
Proof.
  induction s as [|c s IH]; [done|]. rewrite readable_cons. intros [Hc Hs]%andb_true_iff.
  cbn [byte_runes List.filter]. rewrite IH by done.
  assert (printable is_print (Some (byte_of c)) = true) as ->; [|done].
  unfold readable in Hc. unfold printable. destruct (Z.ltb_spec (byte_of c) 0x80); lia.
Qed.

Lemma readable_plausible s : readable_text s = true → (4 <= String.length s)%nat →
  isPlausibleText is_print s = true.
Proof.
  intros Hr Hl. unfold isPlausibleText. destruct (Nat.ltb_spec (String.length s) 4); [lia|].
  rewrite runes_ascii, readable_printable by (try apply readable_ascii; done).
  assert (0 < zlen (byte_runes s)) by (destruct s; simpl in *; unfold zlen; simpl; lia).
  rewrite Z.mul_comm, Z.div_mul by lia. lia.
Qed.

Lemma encoded_decodes pre p : contains (to_lower pre) " -e" = false →
  readable_text p = true → (4 <= String.length p)%nat →
  decodeEncodedPowerShell is_print (pre +:+ ps_flag +:+ b64 (widen p)) = p.
Proof.
  intros Hp Hr Hl. unfold decodeEncodedPowerShell.
  pose proof (widen_length p) as Hw. rewrite encoded_token_found by (done || lia).
  rewrite b64_round_trip. unfold utf16LEToString. rewrite Hw.
  destruct (Nat.ltb_spec (2 * String.length p) 2); [lia|]. rewrite Nat.even_mul. cbn [negb orb].
  rewrite units_widen by by apply readable_ascii. cbn. by rewrite readable_plausible.
Qed.

(** The text of a command passed to PowerShell with [-enc], as Base64 of
    UTF-16, occurs in the augmented command line, whatever precedes the flag. *)
Theorem encoded_powershell_found pre p : contains (to_lower pre) " -e" = false →
  readable_text p = true → (4 <= String.length p)%nat →
  contains (augmentCommandLine is_print (pre +:+ ps_flag +:+ b64 (widen p))) p = true.
Proof.
  intros Hp Hr Hl. destruct (augment_parts is_print (pre +:+ ps_flag +:+ b64 (widen p)))
    as (parts & -> & _ & Hd). rewrite encoded_decodes in Hd by done.
  apply join_contains, Hd. by destruct p; [simpl in Hl; lia|].
Qed.
End Found.

Lemma encoded_powershell_found_witness :
  contains (to_lower "powershell.exe -nop -w hidden") " -e" = false ∧
  contains (augmentCommandLine (λ _, true)
    ("powershell.exe -nop -w hidden" +:+ ps_flag +:+ b64 (widen "IEX (whoami)"))) "IEX (whoami)" = true.
Proof.
  split; [by vm_compute|].
  apply encoded_powershell_found; [by vm_compute|by vm_compute|simpl; lia].
Defined.
