(* ===== verification/ProcessChain.v ===== *)
(** * Process ancestry

    [server/internal/ml/process_chain.go], [process_lineage.go], the process part of
    [behavioral_engine.go], and [server/internal/detection/parent_resolver.go]: a
    cache of the recent processes of every agent, the ancestry of a new process in
    it, the rules over parent and child and over whole chains, and the resolution
    of a parent's image.  A pid is a [uint32], and a key of the cache; the clock is
    an argument. *)

From Stdlib Require Import Ascii.
From S2P Require Import Prelude GoStrings Event CommandLine.

#[local] Open Scope string_scope.
#[local] Open Scope list_scope.
#[local] Open Scope Z_scope.

(** ** Chains *)
Record cachedProc := mkProc {
  p_pid : Z;
  p_ppid : Z;
  p_name : string;
  p_cmdline : string;
  addedAt : time
}.

Record chainStep := mkStep { st_name : string; st_cmdline : string }.

Definition hop (name : string) : chainStep := mkStep name "".
Definition hopCmd (name cmdline : string) : chainStep := mkStep name cmdline.

Record chainRule := mkChainRule {
  ch_id : string;
  ch_pattern : list chainStep;
  ch_reason : string;
  ch_severity : string;
  ch_mitre : string
}.

Record ChainDetection := mkChainDetection {
  cd_RuleID : string;
  cd_Reason : string;
  cd_Severity : string;
  cd_MITRE : string;
  cd_Chain : list string
}.

Definition chainDepth : nat := 8.
Definition procCacheTTL : duration := 30 * minute.

Abbreviation proc_cache := (gmap Z cachedProc) (only parsing).

Record ProcessChainEngine := mkChainEngine {
  procs : gmap string (gmap Z cachedProc);
  ch_rules : list chainRule;
  maxAge : duration
}.

(** [strings.HasSuffix] covers equality. *)
Definition step_matches (s : chainStep) (p : cachedProc) : bool :=
  let cmd_ok := String.eqb (st_cmdline s) "" || contains (p_cmdline p) (to_lower (st_cmdline s)) in
  if String.eqb (st_name s) "" then cmd_ok else
  (has_suffix (p_name p) (to_lower (st_name s)) || String.eqb (p_name p) (to_lower (st_name s)))
  && cmd_ok.

(** The steps still to be found after the processes, in order. *)
Fixpoint consume (pattern : list chainStep) (ps : list cachedProc) : list chainStep :=
  match pattern, ps with
  | s :: pattern', p :: ps' =>
      if step_matches s p then consume pattern' ps' else consume pattern ps'
  | _, _ => pattern
  end.

Definition matchesChain (pattern : list chainStep) (chain : list cachedProc) : bool :=
  if zlen chain <? zlen pattern then false else
  match consume pattern (reverse chain) with [] => true | _ => false end.

Definition baseProcess (name : string) : string :=
  after_last (λ c, Ascii.eqb c "\" || Ascii.eqb c "/") name.

Definition evict_procs (now : time) (age : duration) (c : proc_cache) : proc_cache :=
  filter (λ kv, now - age <= addedAt kv.2) c.

Fixpoint buildChain (depth : nat) (c : proc_cache) (visited : gset Z) (cur : Z)
    : list cachedProc :=
  match depth with
  | O => []
  | S depth' =>
      match c !! cur with
      | None => []
      | Some p =>
          if decide (cur ∈ visited) then [] else
          p :: (if (p_ppid p =? 0) || (p_ppid p =? cur) then []
                else buildChain depth' c ({[cur]} ∪ visited) (p_ppid p))
      end
  end.

Definition agent_procs (e : ProcessChainEngine) (agent : string) : proc_cache :=
  default ∅ (procs e !! agent).

Definition detection_of (chain : list cachedProc) (r : chainRule) : ChainDetection :=
  mkChainDetection (ch_id r) (ch_reason r) (ch_severity r) (ch_mitre r)
    (reverse (p_name <$> chain)).

Definition Analyze (now : time) (agent : string) (pid ppid : Z) (name cmdline : string)
    (e : ProcessChainEngine) : ProcessChainEngine * list ChainDetection :=
  let c := evict_procs now (maxAge e) (agent_procs e agent) in
  let c := <[pid := mkProc pid ppid (to_lower (baseProcess name)) (to_lower cmdline) now]> c in
  let e := mkChainEngine (<[agent := c]> (procs e)) (ch_rules e) (maxAge e) in
  let chain := buildChain chainDepth c ∅ pid in
  if zlen chain <? 2 then (e, []) else
  (e, detection_of chain <$> List.filter (λ r, matchesChain (ch_pattern r) chain) (ch_rules e)).

Definition LookupName (e : ProcessChainEngine) (agent : string) (pid : Z) : string :=
  match agent_procs e agent !! pid with Some p => p_name p | None => "" end.

(** ** Parent and child *)
Record lineageRule := mkLineageRule {
  li_parent : string;
  li_child : string;
  li_reason : string;
  li_severity : string
}.

Record AnalysisResult := mkAnalysisResult {
  IsSuspicious : bool;
  ar_Reason : string;
  ar_Severity : string;
  ar_Rule : string
}.

Definition not_suspicious : AnalysisResult := mkAnalysisResult false "" "" "".

Definition arrow : string := " → ".

Definition lineage_match (parent child : string) (r : lineageRule) : bool :=
  let rp := to_lower (li_parent r) in
  let rc := to_lower (li_child r) in
  (String.eqb parent rp || String.eqb (parent +:+ ".exe") rp) &&
  (String.eqb child rc || String.eqb (child +:+ ".exe") rc).

Definition AnalyzeLineage (rs : list lineageRule) (parentProcess childProcess : string)
    : AnalysisResult :=
  let parent := to_lower (trim_suffix parentProcess ".exe") in
  let child := to_lower (trim_suffix childProcess ".exe") in
  match List.find (lineage_match parent child) rs with
  | Some r => mkAnalysisResult true (li_reason r) (li_severity r)
                (li_parent r +:+ arrow +:+ li_child r)
  | None => not_suspicious
  end.

Definition AddLineageRule (parent child reason severity : string) (rs : list lineageRule)
    : list lineageRule :=
  rs ++ [mkLineageRule (to_lower parent) (to_lower child) reason severity].

(** ** Both, for one process event *)
Record BehavioralDetection := mkBehavioral {
  bd_Type : string;
  bd_Severity : string;
  bd_Message : string;
  bd_AgentID : string;
  bd_Details : list (string * string)
}.

Definition lineage_detection (agent parent child : string) (r : AnalysisResult)
    : BehavioralDetection :=
  mkBehavioral "suspicious_process_lineage" (ar_Severity r) (ar_Reason r) agent
    [("parent", parent); ("child", child); ("rule", ar_Rule r)].

Definition chain_detection (agent : string) (d : ChainDetection) : BehavioralDetection :=
  mkBehavioral "suspicious_process_chain" (cd_Severity d) (cd_Reason d) agent
    [("rule_id", cd_RuleID d); ("mitre", cd_MITRE d); ("chain", join arrow (cd_Chain d))].

Record Behavioral := mkBehavioralEngine {
  ProcessLineage : list lineageRule;
  Chain : ProcessChainEngine
}.

Definition ProcessEvent (now : time) (agent parent child : string) (pid ppid : Z)
    (cmdline : string) (b : Behavioral) : Behavioral * list BehavioralDetection :=
  let r := AnalyzeLineage (ProcessLineage b) parent child in
  let ds := if IsSuspicious r then [lineage_detection agent parent child r] else [] in
  if pid =? 0 then (b, ds) else
  let '(ch, hits) := Analyze now agent pid ppid child cmdline (Chain b) in
  (mkBehavioralEngine (ProcessLineage b) ch, ds ++ (chain_detection agent <$> hits)).

(** ** The parent resolver *)
Record parentEntry := mkParentEntry { pe_image : string; pe_ts : time }.

Abbreviation parentResolver := (gmap string (gmap Z parentEntry)) (only parsing).

Definition parentResolverTTL : duration := 30 * minute.

Definition evict_parents (now : time) (agent : string) (r : parentResolver) : parentResolver :=
  alter (filter (λ kv : Z * parentEntry, now - parentResolverTTL <= pe_ts kv.2)) agent r.

Definition remember (now : time) (agent : string) (pid : Z) (image : string) (r : parentResolver)
    : parentResolver :=
  <[agent := <[pid := mkParentEntry image now]> (default ∅ (r !! agent))]> r.

Definition record_parent (now : time) (agent : string) (pid : Z) (image : string)
    (r : parentResolver) : parentResolver :=
  if (pid =? 0) || String.eqb image "" then r
  else remember now agent pid image (evict_parents now agent r).

Definition lookup_parent (r : parentResolver) (agent : string) (pid : Z) : string :=
  match r !! agent with
  | Some c => match c !! pid with Some pe => pe_image pe | None => "" end
  | None => ""
  end.

Definition hasParent (ev : event) : bool :=
  existsb (λ k, negb (String.eqb (str_or_empty ev k) ""))
    ["parent_image"; "parent_name"; "parent_process"; "parentImagePath"; "parent_image_path";
     "ParentImage"].

(** [uint64] of a number that is not negative, cut off towards zero. *)
Definition trunc_dec (m e : Z) : Z := if 0 <=? e then m * 10 ^ e else m / 10 ^ (- e).

(** [strconv.ParseUint(s, 10, 64)] without its errors. *)
Definition parse_uint (s : string) : option Z :=
  if String.eqb s "" || contains_char (λ c, negb (is_digit c)) s then None else
  let n := (scan_digits s 0).1 in if n <? 2 ^ 64 then Some n else None.

(** A number beyond the range of [uint64] is left out: Go leaves its conversion
    from [float64] to the implementation. *)
Definition eventUint (ev : event) (key : string) : option Z :=
  match get ev key with
  | Some (VFloat m e) => if m <? 0 then None else Some (trunc_dec m e)
  | Some (VInt z) => Some (wrap_u64 z)
  | Some (VStr s) => parse_uint s
  | _ => None
  end.

Definition enrich_parent (now : time) (ev : event) (r : parentResolver) : event * parentResolver :=
  let image := first_text ev ["Image"; "image_path"; "imagePath"; "processName"; "process_name"] in
  let agent := str_or_empty ev "agent_id" in
  let r := evict_parents now agent r in
  let r := match eventUint ev "pid" with
           | Some pid => if String.eqb image "" then r else remember now agent pid image r
           | None => r
           end in
  let parent := match eventUint ev "ppid" with
                | Some ppid => lookup_parent r agent ppid
                | None => ""
                end in
  (if hasParent ev || String.eqb parent "" then ev
   else set_key ev "parent_process" (VStr parent), r).

(** ** The built-in rules *)
Definition builtinChainRules : list chainRule :=
  [mkChainRule "chain-T1566.001-a"
     [hop "winword.exe"; hop "cmd.exe"; hop "powershell.exe"]
     "Office macro spawned cmd which spawned PowerShell (spearphishing execution)"
     "critical" "T1566.001";
   mkChainRule "chain-T1566.001-b"
     [hop "excel.exe"; hop "cmd.exe"; hop "powershell.exe"]
     "Excel macro spawned cmd then PowerShell (macro execution chain)"
     "critical" "T1566.001";
   mkChainRule "chain-T1566.001-c"
     [hop "outlook.exe"; hop "winword.exe"; hop "powershell.exe"]
     "Email attachment opened in Word then spawned PowerShell"
     "critical" "T1566.001";
   mkChainRule "chain-T1203-a"
     [hop "chrome.exe"; hop "powershell.exe"; hop "certutil.exe"]
     "Browser spawned PowerShell then certutil (exploit + download)"
     "critical" "T1203";
   mkChainRule "chain-T1203-b"
     [hop "iexplore.exe"; hop "cmd.exe"; hop "powershell.exe"]
     "Internet Explorer spawned cmd then PowerShell (browser exploit chain)"
     "critical" "T1203";
   mkChainRule "chain-T1021.001"
     [hop "mstsc.exe"; hop "cmd.exe"; hop "net.exe"]
     "RDP session spawned cmd then net.exe (lateral movement recon)"
     "high" "T1021.001";
   mkChainRule "chain-T1059.001"
     [hop "powershell.exe"; hop "certutil.exe"; hop "cmd.exe"]
     "PowerShell invoked certutil (LOLBin download) then cmd"
     "high" "T1059.001";
   mkChainRule "chain-T1053.005"
     [hop "svchost.exe"; hop "cmd.exe"; hop "powershell.exe"]
     "svchost (task scheduler) spawned cmd then PowerShell (scheduled task abuse)"
     "high" "T1053.005";
   mkChainRule "chain-T1569.002"
     [hop "services.exe"; hop "cmd.exe"; hop "net.exe"]
     "Windows services spawned cmd then net.exe (service-based lateral movement)"
     "high" "T1569.002";
   mkChainRule "chain-T1055"
     [hop "explorer.exe"; hop "cmd.exe"; hop "powershell.exe"]
     "Explorer spawned cmd then PowerShell (possible process injection in explorer)"
     "high" "T1055";
   mkChainRule "chain-T1547.001"
     [hop "powershell.exe"; hop "reg.exe"]
     "PowerShell spawned reg.exe (autostart persistence via Run key)"
     "high" "T1547.001";
   mkChainRule "chain-T1003.001"
     [hop "cmd.exe"; hopCmd "rundll32.exe" "comsvcs"]
     "cmd spawned rundll32 with comsvcs.dll (LSASS memory dump via MiniDump)"
     "critical" "T1003.001";
   mkChainRule "chain-T1218.011"
     [hop "cmd.exe"; hop "rundll32.exe"; hop "cmd.exe"]
     "cmd → rundll32 → cmd chain (rundll32 proxy execution spawning new shell)"
     "high" "T1218.011";
   mkChainRule "chain-T1218"
     [hop "powershell.exe"; hop "mshta.exe"; hop "cmd.exe"]
     "PowerShell → mshta → cmd (LOLBin proxy execution chain)"
     "high" "T1218";
   mkChainRule "chain-T1505.003"
     [hop "w3wp.exe"; hop "cmd.exe"; hop "powershell.exe"]
     "IIS worker (w3wp) spawned cmd then PowerShell (web shell execution chain)"
     "critical" "T1505.003";
   mkChainRule "chain-T1490"
     [hop "cmd.exe"; hopCmd "vssadmin.exe" "delete shadows"]
     "cmd spawned vssadmin to delete shadow copies (ransomware pre-step)"
     "critical" "T1490";
   mkChainRule "chain-T1562.001"
     [hop "powershell.exe"; hopCmd "sc.exe" "windefend"]
     "PowerShell spawned sc.exe targeting WinDefend (disabling Windows Defender)"
     "critical" "T1562.001";
   mkChainRule "chain-T1566.001-d"
     [hop "winword.exe"; hop "powershell.exe"]
     "Word directly spawned PowerShell (malicious macro execution)"
     "critical" "T1566.001";
   mkChainRule "chain-T1566.001-e"
     [hop "excel.exe"; hop "powershell.exe"]
     "Excel directly spawned PowerShell (malicious macro execution)"
     "critical" "T1566.001";
   mkChainRule "chain-T1566.001-f"
     [hop "powerpnt.exe"; hop "powershell.exe"]
     "PowerPoint directly spawned PowerShell (malicious macro execution)"
     "critical" "T1566.001";
   mkChainRule "chain-T1566.001-g"
     [hop "winword.exe"; hop "wscript.exe"]
     "Word spawned WScript/CScript (macro launching a script payload)"
     "high" "T1566.001";
   mkChainRule "chain-T1218.005"
     [hop "mshta.exe"; hop "powershell.exe"]
     "mshta spawned PowerShell (HTA proxy execution stager)"
     "high" "T1218.005";
   mkChainRule "chain-T1047-a"
     [hop "wmiprvse.exe"; hop "powershell.exe"]
     "WmiPrvSE spawned PowerShell (remote WMI command execution)"
     "high" "T1047";
   mkChainRule "chain-T1047-b"
     [hop "wmiprvse.exe"; hop "cmd.exe"]
     "WmiPrvSE spawned cmd (remote WMI command execution)"
     "high" "T1047";
   mkChainRule "chain-T1021.006"
     [hop "wsmprovhost.exe"; hop "powershell.exe"]
     "WinRM host (wsmprovhost) spawned PowerShell (remote PowerShell execution)"
     "high" "T1021.006";
   mkChainRule "chain-T1505.003-b"
     [hop "w3wp.exe"; hop "powershell.exe"]
     "IIS worker (w3wp) directly spawned PowerShell (web shell execution)"
     "critical" "T1505.003";
   mkChainRule "chain-T1190-sql"
     [hop "sqlservr.exe"; hop "cmd.exe"]
     "SQL Server (sqlservr) spawned cmd (xp_cmdshell abuse / SQLi RCE)"
     "critical" "T1190"].

Definition NewProcessChainEngine : ProcessChainEngine :=
  mkChainEngine ∅ builtinChainRules procCacheTTL.

Definition builtinLineageRules : list lineageRule :=
  [mkLineageRule "winword.exe" "cmd.exe" "Office macro spawning cmd" "high";
   mkLineageRule "winword.exe" "powershell.exe" "Office macro spawning PowerShell" "critical";
   mkLineageRule "excel.exe" "cmd.exe" "Excel macro spawning cmd" "high";
   mkLineageRule "excel.exe" "powershell.exe" "Excel macro spawning PowerShell" "critical";
   mkLineageRule "outlook.exe" "cmd.exe" "Outlook spawning cmd" "high";
   mkLineageRule "outlook.exe" "powershell.exe" "Outlook spawning PowerShell" "critical";
   mkLineageRule "explorer.exe" "powershell.exe" "Explorer spawning PowerShell (unusual)" "medium";
   mkLineageRule "services.exe" "cmd.exe" "Services spawning cmd (lateral movement indicator)" "high";
   mkLineageRule "iexplore.exe" "cmd.exe" "IE spawning cmd (exploit indicator)" "critical";
   mkLineageRule "chrome.exe" "cmd.exe" "Chrome spawning cmd (exploit indicator)" "critical";
   mkLineageRule "schtasks.exe" "powershell.exe" "Scheduled task running PowerShell" "high";
   mkLineageRule "apache2" "bash" "Web server spawning shell (webshell)" "critical";
   mkLineageRule "nginx" "bash" "nginx spawning shell (webshell)" "critical";
   mkLineageRule "httpd" "sh" "httpd spawning shell (webshell)" "critical";
   mkLineageRule "python3" "bash" "Python spawning bash (possible exploit)" "medium";
   mkLineageRule "python" "bash" "Python spawning bash (possible exploit)" "medium";
   mkLineageRule "sudo" "bash" "sudo spawning bash (privilege escalation)" "high"].
