(* ===== verification/ProcessChainProofs.v ===== *)
(** * Process ancestry: theorems

    What a chain rule means, what the ancestry of a process is in the cache, and
    that a chain of processes is reported from its events alone. *)

From S2P Require Import Prelude GoStrings Event ProcessChain.

#[local] Open Scope string_scope.
#[local] Open Scope list_scope.
#[local] Open Scope Z_scope.

(** ** Rules over a chain *)
Lemma consume_sublist pattern ps : consume pattern ps = [] ↔
  ∃ hops, hops `sublist_of` ps ∧ Forall2 (λ s p, step_matches s p = true) pattern hops.
Proof.
  revert pattern. induction ps as [|p ps IH]; intros [|s pattern]; cbn [consume].
  - split; [|done]. exists []. by split.
  - split; [done|]. intros (hops & Hs & Hf). apply sublist_nil_r in Hs as ->. by inversion Hf.
  - split; [|done]. intros _. exists []. split; [apply sublist_nil_l|constructor].
  - destruct (step_matches s p) eqn:E; rewrite IH; split.
    + intros (hops & Hs & Hf). exists (p :: hops). split; by constructor.
    + intros (hops & Hs & Hf). inversion Hf as [|? h ? hops' Hm Hf' E1 E2]; subst.
      exists hops'. split; [|done]. apply sublist_cons_r in Hs as [Hs|(l & [= -> ->] & Hs)]; [|done].
      etrans; [|exact Hs]. by apply sublist_cons.
    + intros (hops & Hs & Hf). exists hops. split; [by constructor|done].
    + intros (hops & Hs & Hf). exists hops. split; [|done].
      apply sublist_cons_r in Hs as [Hs|(l & -> & Hs)]; [done|].
      inversion Hf; congruence.
Qed.

Lemma matchesChain_iff pattern chain : matchesChain pattern chain = true ↔
  ∃ hops, hops `sublist_of` reverse chain ∧ Forall2 (λ s p, step_matches s p = true) pattern hops.
Proof.
  unfold matchesChain. rewrite <- consume_sublist.
  destruct (Z.ltb_spec (zlen chain) (zlen pattern)) as [Hlt|_].
  - split; [done|]. rewrite consume_sublist. intros (hops & Hs & Hf).
    apply sublist_length in Hs. apply Forall2_length in Hf. rewrite length_reverse in Hs.
    unfold zlen in Hlt. lia.
  - by destruct (consume _ _).
Qed.

(** ** Ancestry in the cache

    A line of descent, the youngest first, as the cache records it. *)
Fixpoint path (c : gmap Z cachedProc) (ps : list cachedProc) : Prop :=
  match ps with
  | [] => True
  | p :: rest => c !! p_pid p = Some p ∧ path c rest ∧
      match rest with [] => True | q :: _ => p_ppid p = p_pid q ∧ p_ppid p ≠ 0 end
  end.

Lemma path_insert c ps pid p : path c ps → pid ∉ (p_pid <$> ps) → path (<[pid := p]> c) ps.
Proof.
  induction ps as [|q ps IH]; [done|]. intros (Hq & Hp & Hl) Hin. simpl in Hin.
  split; [rewrite lookup_insert_ne; [done|set_solver]|]. split; [apply IH; set_solver|done].
Qed.

Lemma path_evict now age c ps : path c ps → Forall (λ p, now - age <= addedAt p) ps →
  path (evict_procs now age c) ps.
Proof.
  induction ps as [|q ps IH]; [done|]. intros (Hq & Hp & Hl) [Ha Hf]%Forall_cons.
  split; [by apply map_lookup_filter_Some|]. by split; [apply IH|].
Qed.

Lemma buildChain_path depth c visited p ps : path c (p :: ps) → NoDup (p_pid <$> p :: ps) →
  (∀ q, q ∈ p :: ps → p_pid q ∉ visited) → (length (p :: ps) <= depth)%nat →
  ∃ more, buildChain depth c visited (p_pid p) = (p :: ps) ++ more.
Proof.
  revert depth visited p. induction ps as [|q ps IH]; intros [|depth] visited p (Hp & Hps & Hl) Hd Hv Hn;
    [simpl in Hn; lia| |simpl in Hn; lia|]; cbn [buildChain]; rewrite Hp;
    rewrite decide_False by (apply Hv; left).
  - eexists. reflexivity.
  - destruct Hl as [Hl Hl0]. rewrite !fmap_cons in Hd. apply NoDup_cons in Hd as [Hpd Hd].
    destruct (Z.eqb_spec (p_ppid p) 0); [done|].
    destruct (Z.eqb_spec (p_ppid p) (p_pid p)) as [E|_].
    { exfalso. apply Hpd. rewrite <- E, Hl. left. }
    destruct (IH depth ({[p_pid p]} ∪ visited) q) as [more E]; [done|done| |simpl in *; lia|].
    { intros x Hx. assert (p_pid x ∈ p_pid <$> q :: ps) as Hx' by (apply list_elem_of_fmap; eauto).
      assert (p_pid x ≠ p_pid p) by (intros Ex; by rewrite Ex in Hx'). assert (p_pid x ∉ visited) by (apply Hv; by right).
      set_solver. }
    exists more. simpl. by rewrite Hl, E.
Qed.

(** Conversely: what the walk returns is a line of descent of the process. *)
Lemma buildChain_sound depth c visited cur : (∀ k p, c !! k = Some p → p_pid p = k) →
  path c (buildChain depth c visited cur) ∧
  (length (buildChain depth c visited cur) <= depth)%nat ∧
  (∀ p, head (buildChain depth c visited cur) = Some p → c !! cur = Some p).
Proof.
  intros Hk. revert visited cur. induction depth as [|depth IH]; intros visited cur; [done|].
  cbn [buildChain]. destruct (c !! cur) as [p|] eqn:E; [|by split_and!; simpl; try lia].
  destruct (decide (cur ∈ visited)); [by split_and!; simpl; try lia|].
  pose proof (Hk _ _ E) as Hp.
  assert (path c [p] ∧ (length [p] <= S depth)%nat ∧ (∀ q, head [p] = Some q → Some p = Some q))
    as Hone by (simpl; rewrite Hp; repeat split; [done|lia|congruence]).
  destruct (Z.eqb_spec (p_ppid p) 0) as [|H0]; [exact Hone|].
  destruct (Z.eqb_spec (p_ppid p) cur); [exact Hone|]. clear Hone.
  simpl. destruct (IH ({[cur]} ∪ visited) (p_ppid p)) as (Hpath & Hlen & Hhead).
  split_and!; [by rewrite Hp|done| |lia|congruence].
  destruct (buildChain depth c _ _) as [|q rest]; [done|]. split; [|done].
  symmetry. apply Hk. by apply Hhead.
Qed.

(** ** From events to reports *)
Record spawn := mkSpawn { sp_time : time; sp_pid : Z; sp_name : string; sp_cmdline : string }.

Definition proc_of (parent : Z) (v : spawn) : cachedProc :=
  mkProc (sp_pid v) parent (to_lower (baseProcess (sp_name v))) (to_lower (sp_cmdline v)) (sp_time v).

(** Each process of the list starts the next one. *)
Fixpoint procs_of (parent : Z) (vs : list spawn) : list cachedProc :=
  match vs with [] => [] | v :: vs' => proc_of parent v :: procs_of (sp_pid v) vs' end.

(** The engine sees them in turn; the reports are those of the last one. *)
Fixpoint run (agent : string) (parent : Z) (vs : list spawn) (e : ProcessChainEngine)
    : ProcessChainEngine * list ChainDetection :=
  match vs with
  | [] => (e, [])
  | v :: vs' =>
      let '(e, ds) := Analyze (sp_time v) agent (sp_pid v) parent (sp_name v) (sp_cmdline v) e in
      match vs' with [] => (e, ds) | _ => run agent (sp_pid v) vs' e end
  end.

Lemma Analyze_spec now agent pid ppid name cmdline e :
  let c := <[pid := mkProc pid ppid (to_lower (baseProcess name)) (to_lower cmdline) now]>
             (evict_procs now (maxAge e) (agent_procs e agent)) in
  let chain := buildChain chainDepth c ∅ pid in
  let '(e', ds) := Analyze now agent pid ppid name cmdline e in
  agent_procs e' agent = c ∧ ch_rules e' = ch_rules e ∧ maxAge e' = maxAge e ∧
  (∀ other, other ≠ agent → procs e' !! other = procs e !! other) ∧
  ds = if zlen chain <? 2 then []
       else detection_of chain <$> List.filter (λ r, matchesChain (ch_pattern r) chain) (ch_rules e).
Proof.
  cbn zeta. unfold Analyze. set (c := <[pid := _]> _).
  assert (∀ rs ma, agent_procs (mkChainEngine (<[agent := c]> (procs e)) rs ma) agent = c) as Hc
    by (intros; unfold agent_procs; simpl; by rewrite lookup_insert_eq).
  assert (∀ other, other ≠ agent → <[agent := c]> (procs e) !! other = procs e !! other) as Ho
    by (intros; by apply lookup_insert_ne).
  destruct (zlen _ <? 2); by split_and!.
Qed.

(** *** The starts of a fleet, one after the other *)
Record start := mkStart { sa_agent : string; sa_parent : Z; sa_proc : spawn }.

Definition see (e : ProcessChainEngine) (s : start) : ProcessChainEngine * list ChainDetection :=
  Analyze (sp_time (sa_proc s)) (sa_agent s) (sp_pid (sa_proc s)) (sa_parent s) (sp_name (sa_proc s))
    (sp_cmdline (sa_proc s)) e.
Definition watch (e : ProcessChainEngine) (log : list start) : ProcessChainEngine :=
  foldl (λ e s, (see e s).1) e log.

(** The starts of a lineage: each process starts the next one. *)
Fixpoint lineage (agent : string) (parent : Z) (vs : list spawn) : list start :=
  match vs with [] => [] | v :: vs' => mkStart agent parent v :: lineage agent (sp_pid v) vs' end.

(** A start of this endpoint under one of these pids. *)
Definition under (agent : string) (pids : list Z) (s : start) : Prop :=
  sa_agent s = agent ∧ sp_pid (sa_proc s) ∈ pids.
#[export] Instance under_dec agent pids s : Decision (under agent pids s).
Proof. unfold under. apply _. Defined.

(** The process is one that the step of the rule asks for. *)
Definition fits (s : chainStep) (v : spawn) : Prop :=
  (st_name s ≠ "" → has_suffix (to_lower (baseProcess (sp_name v))) (to_lower (st_name s)) = true) ∧
  (st_cmdline s ≠ "" → contains (to_lower (sp_cmdline v)) (to_lower (st_cmdline s)) = true).

Lemma fits_matches s parent v : fits s v → step_matches s (proc_of parent v) = true.
Proof.
  intros [Hn Hc]. unfold step_matches, proc_of. cbn [p_name p_cmdline].
  destruct (String.eqb_spec (st_cmdline s) "") as [|Hc']; destruct (String.eqb_spec (st_name s) "") as [|Hn'];
    cbn [orb andb]; rewrite ?Hn, ?Hc by done; done.
Qed.

Lemma fitting_hops pattern hops parent vs : hops `sublist_of` vs → Forall2 fits pattern hops →
  ∃ ps, ps `sublist_of` procs_of parent vs ∧ Forall2 (λ s p, step_matches s p = true) pattern ps.
Proof.
  intros Hs. revert pattern parent. induction Hs as [|v hops vs Hs IH|v hops vs Hs IH]; intros pattern parent Hf.
  - inversion Hf. by exists [].
  - inversion Hf as [|s ? pattern' ? Hsv Hf']; subst. destruct (IH pattern' (sp_pid v) Hf') as (ps & Hps & Hm).
    exists (proc_of parent v :: ps). split; [by constructor|]. constructor; [by apply fits_matches|done].
  - destruct (IH pattern (sp_pid v) Hf) as (ps & Hps & Hm). exists ps. split; [by constructor|done].
Qed.

(** One start: the cache of its endpoint gains it, the other caches stay. *)
Lemma see_spec e s :
  let e' := (see e s).1 in
  agent_procs e' (sa_agent s) =
    <[sp_pid (sa_proc s) := proc_of (sa_parent s) (sa_proc s)]>
      (evict_procs (sp_time (sa_proc s)) (maxAge e) (agent_procs e (sa_agent s))) ∧
  ch_rules e' = ch_rules e ∧ maxAge e' = maxAge e ∧
  ∀ other, other ≠ sa_agent s → agent_procs e' other = agent_procs e other.
Proof.
  cbn zeta. unfold see.
  pose proof (Analyze_spec (sp_time (sa_proc s)) (sa_agent s) (sp_pid (sa_proc s)) (sa_parent s)
    (sp_name (sa_proc s)) (sp_cmdline (sa_proc s)) e) as H. cbn zeta in H.
  destruct (Analyze _ _ _ _ _ _ _) as [e' dets]. destruct H as (Hc & Hr & Hm & Ho & _). cbn [fst].
  split_and!; [exact Hc|done|done|]. intros other Hne. unfold agent_procs. by rewrite Ho.
Qed.

(** A line of descent stays in the cache while starts under other pids come in. *)
Lemma path_see agent T e s ds : path (agent_procs e agent) ds →
  (sa_agent s = agent → sp_time (sa_proc s) <= T) → Forall (λ p, T - maxAge e <= addedAt p) ds →
  ¬ under agent (p_pid <$> ds) s → path (agent_procs (see e s).1 agent) ds.
Proof.
  intros Hp Ht Ha Hu. destruct (see_spec e s) as (Hc & _ & _ & Ho).
  destruct (decide (agent = sa_agent s)) as [->|Hne]; [|by rewrite Ho].
  rewrite Hc. apply path_insert; [|intros Hin; by apply Hu]. apply path_evict; [done|].
  eapply Forall_impl; [exact Ha|]. specialize (Ht eq_refl). simpl. lia.
Qed.

Lemma procs_of_pids parent vs : p_pid <$> procs_of parent vs = sp_pid <$> vs.
Proof. revert parent. induction vs as [|v vs IH]; intros parent; [done|]. cbn. by rewrite IH. Qed.

(** The parent of the next process. *)
Definition next_parent (parent : Z) (vs : list spawn) : Z := default parent (last (sp_pid <$> vs)).

Lemma next_parent_cons parent v vs : next_parent parent (v :: vs) = next_parent (sp_pid v) vs.
Proof. unfold next_parent. rewrite fmap_cons, last_cons. by destruct (last (sp_pid <$> vs)). Qed.

Lemma lineage_snoc agent parent vs v :
  lineage agent parent (vs ++ [v]) = lineage agent parent vs ++ [mkStart agent (next_parent parent vs) v].
Proof.
  revert parent. induction vs as [|w vs IH]; intros parent; [done|]. cbn [app lineage].
  by rewrite IH, next_parent_cons.
Qed.

(** What is known of the cache while a lineage is coming in. *)
Record following (agent : string) (T : time) (rs : list chainRule) (age : duration) (ds : list cachedProc)
    (next : Z) (e : ProcessChainEngine) : Prop := {
  fo_path : path (agent_procs e agent) ds;
  fo_next : match ds with [] => True | q :: _ => next = p_pid q ∧ next ≠ 0 end;
  fo_age : Forall (λ p, T - maxAge e <= addedAt p) ds;
  fo_rules : ch_rules e = rs;
  fo_max : maxAge e = age
}.

Lemma following_step agent T rs age ds next e v : following agent T rs age ds next e →
  sp_pid v ∉ p_pid <$> ds → sp_pid v ≠ 0 → T - age <= sp_time v <= T →
  following agent T rs age (proc_of next v :: ds) (sp_pid v) (see e (mkStart agent next v)).1.
Proof.
  intros [Hp Hl Ha Hr Hm] Hn H0 Ht. destruct (see_spec e (mkStart agent next v)) as (Hc & Hr' & Hm' & _).
  cbn [sa_agent sa_proc sa_parent] in *.
  assert (path (agent_procs (see e (mkStart agent next v)).1 agent) ds) as Hp'.
  { apply (path_see agent T); [done|simpl; lia|done|]. by intros [_ Hin]. }
  split; [|done| |congruence|congruence].
  - split; [by rewrite Hc, lookup_insert_eq|]. split; [done|]. by destruct ds.
  - rewrite Hm'. constructor; [simpl; lia|done].
Qed.

Lemma watch_lineage agent T rs age pids log : ∀ parent vs ds e,
  following agent T rs age ds parent e →
  filter (under agent pids) log = lineage agent parent vs →
  (p_pid <$> ds) ++ (sp_pid <$> vs) ⊆ pids → NoDup ((p_pid <$> ds) ++ (sp_pid <$> vs)) →
  Forall (λ v, sp_pid v ≠ 0 ∧ T - age <= sp_time v) vs →
  Forall (λ s, sa_agent s = agent → sp_time (sa_proc s) <= T) log →
  following agent T rs age (reverse (procs_of parent vs) ++ ds) (next_parent parent vs) (watch e log).
Proof.
  induction log as [|s log IH]; intros parent vs ds e Hf Hlog Hin Hd Hv Ht.
  { destruct vs; [done|discriminate Hlog]. }
  apply Forall_cons in Ht as [Hts Ht]. rewrite filter_cons in Hlog. cbn [watch foldl]. case_decide as Hu.
  - destruct vs as [|v vs]; [discriminate Hlog|]. cbn [lineage] in Hlog. injection Hlog as -> Hlog.
    apply Forall_cons in Hv as [[Hv0 Hlo] Hv]. rewrite fmap_cons in Hin, Hd.
    rewrite next_parent_cons. cbn [procs_of]. rewrite reverse_cons, <- app_assoc. cbn [app].
    apply IH; [|done| |..|done|done].
    + apply following_step; [done| |done|].
      * intros Hx. apply NoDup_app in Hd as (_ & Hdis & _). apply (Hdis _ Hx). by left.
      * specialize (Hts eq_refl). simpl in Hts. lia.
    + rewrite fmap_cons. intros x Hx. apply Hin. simpl in Hx. set_solver.
    + rewrite fmap_cons. simpl. by rewrite <- Permutation_middle in Hd.
  - apply IH; [|done..]. destruct Hf as [Hp Hl Ha Hr Hm]. destruct (see_spec e s) as (_ & Hr' & Hm' & _).
    split; [|done|by rewrite Hm'|congruence|congruence].
    apply (path_see agent T); [done|done|done|]. intros [Hag Hx]. apply Hu. split; [done|]. apply Hin. set_solver.
Qed.

(** C31: two to eight processes of an endpoint start one another, under pids that are
    distinct and not reused by another start of that endpoint in the meantime, within
    the lifetime of the cache; before, between and in other caches any number of other
    processes of any endpoint start. When the last one starts, every rule whose steps
    are matched, in order, by some of them is reported, with the whole lineage. *)
Theorem chain_detected agent T parent vs log final e r hops : (2 <= length vs <= 8)%nat →
  NoDup (sp_pid <$> vs) → Forall (λ v, sp_pid v ≠ 0 ∧ T - maxAge e <= sp_time v) vs →
  Forall (λ s, sa_agent s = agent → sp_time (sa_proc s) <= T) (log ++ [final]) →
  filter (under agent (sp_pid <$> vs)) (log ++ [final]) = lineage agent parent vs →
  under agent (sp_pid <$> vs) final →
  r ∈ ch_rules e → hops `sublist_of` vs → Forall2 fits (ch_pattern r) hops →
  ∃ d before, d ∈ (see (watch e log) final).2 ∧
    d = mkChainDetection (ch_id r) (ch_reason r) (ch_severity r) (ch_mitre r)
          (before ++ ((λ v, to_lower (baseProcess (sp_name v))) <$> vs)).
Proof.
  intros Hn Hd Hv Ht Hlog Hfin Hr Hs Hf.
  destruct (fitting_hops (ch_pattern r) hops parent vs Hs Hf) as (ps & Hps & Hm). clear hops Hs Hf.
  destruct vs as [|v0 vs0 _] eqn:Evs using rev_ind; [simpl in Hn; lia|]. rename vs0 into us, v0 into v.
  rewrite filter_app, lineage_snoc in Hlog. rewrite filter_cons_True in Hlog by done.
  apply app_inj_2 in Hlog as [Hlog [= ->]]; [|done].
  apply Forall_app in Ht as [Ht [Htf _]%Forall_cons], Hv as [Hus [[Hv0 Hvl] _]%Forall_cons].
  specialize (Htf eq_refl). cbn [sa_proc] in Htf.
  rewrite fmap_app in Hd.
  assert (following agent T (ch_rules e) (maxAge e) [] parent e) as H0 by by split.
  assert (following agent T (ch_rules e) (maxAge e) (reverse (procs_of parent us)) (next_parent parent us) (watch e log))
    as H1.
  { rewrite <- (app_nil_r (reverse _)). eapply watch_lineage; [exact H0|exact Hlog| | |done|done].
    - rewrite fmap_app. set_solver.
    - by apply NoDup_app in Hd as (? & _). }
  assert (sp_pid v ∉ p_pid <$> reverse (procs_of parent us)) as Hnew.
  { rewrite fmap_reverse, procs_of_pids, elem_of_reverse. intros Hx. apply NoDup_app in Hd as (_ & Hdis & _).
    apply (Hdis _ Hx). by left. }
  pose proof (following_step _ _ _ _ _ _ _ v H1 Hnew Hv0 (conj Hvl Htf)) as [Hp _ _ _ _].
  assert (proc_of (next_parent parent us) v :: reverse (procs_of parent us) = reverse (procs_of parent (us ++ [v]))) as Eps.
  { clear. revert parent. induction us as [|w us IH]; intros parent; [done|].
    cbn [app procs_of]. rewrite !reverse_cons, <- IH, next_parent_cons. done. }
  unfold see in Hp |- *. cbn [sa_agent sa_proc sa_parent] in Hp |- *.
  pose proof (Analyze_spec (sp_time v) agent (sp_pid v) (next_parent parent us) (sp_name v) (sp_cmdline v) (watch e log)) as H.
  cbn zeta in H. destruct (Analyze _ _ _ _ _ _ _) as [e' dets]. destruct H as (Hc & _ & _ & _ & ->).
  cbn [fst snd] in *. rewrite <- Hc. rewrite (fo_rules _ _ _ _ _ _ _ H1).
  destruct (buildChain_path chainDepth _ ∅ _ _ Hp) as [more E].
  { rewrite Eps, fmap_reverse, procs_of_pids, fmap_app. by rewrite reverse_Permutation. }
  { set_solver. }
  { rewrite Eps, length_reverse, <- (length_fmap p_pid), procs_of_pids, length_fmap. unfold chainDepth. lia. }
  change (p_pid (proc_of (next_parent parent us) v)) with (sp_pid v) in E. rewrite E, Eps.
  set (chain := _ ++ more).
  assert (reverse chain = reverse more ++ procs_of parent (us ++ [v])) as Erev.
  { unfold chain. by rewrite reverse_app, reverse_involutive. }
  destruct (Z.ltb_spec (zlen chain) 2) as [Hlt|_].
  { exfalso. unfold zlen in Hlt. rewrite <- (length_reverse chain), Erev, length_app, <- (length_fmap p_pid (procs_of _ _)),
      procs_of_pids, length_fmap in Hlt. lia. }
  exists (detection_of chain r), (reverse (p_name <$> more)). split.
  - apply list_elem_of_fmap. exists r. split; [done|]. apply list_elem_of_In, filter_In.
    split; [by apply list_elem_of_In|]. apply matchesChain_iff. exists ps. split; [|done].
    rewrite Erev. by apply sublist_inserts_l.
  - unfold detection_of. f_equal. rewrite <-!fmap_reverse, Erev, fmap_app. f_equal.
    clear. revert parent. induction (us ++ [v]) as [|w ws IH]; intros parent; [done|]. cbn. by rewrite IH.
Qed.

(** A report names a rule of the engine and a chain of processes it matches,
    each the parent of the next in the cache, the last one the process of the
    event: at most eight processes, at least two. *)
Theorem chain_report_sound now agent pid ppid name cmdline e d :
  (∀ k p, agent_procs e agent !! k = Some p → p_pid p = k) →
  d ∈ (Analyze now agent pid ppid name cmdline e).2 →
  ∃ r chain, r ∈ ch_rules e ∧ cd_RuleID d = ch_id r ∧ cd_Chain d = p_name <$> reverse chain ∧
    path (agent_procs (Analyze now agent pid ppid name cmdline e).1 agent) chain ∧
    head (p_pid <$> chain) = Some pid ∧ (2 <= length chain <= chainDepth)%nat ∧
    ∃ hops, hops `sublist_of` reverse chain ∧
      Forall2 (λ s p, step_matches s p = true) (ch_pattern r) hops.
Proof.
  intros Hk. pose proof (Analyze_spec now agent pid ppid name cmdline e) as H. cbn zeta in H.
  destruct (Analyze _ _ _ _ _ _ _) as [e' ds]. destruct H as (Hc & _ & _ & _ & ->).
  cbn [fst snd].
  set (p := mkProc _ _ _ _ _) in *. set (c := <[pid := p]> _) in *. rewrite Hc.
  assert (∀ k q, c !! k = Some q → p_pid q = k) as Hkc.
  { intros k q [[<- <-]|[_ Hq]]%lookup_insert_Some; [done|].
    apply map_lookup_filter_Some in Hq as [Hq _]. by apply Hk. }
  destruct (buildChain_sound chainDepth c ∅ pid Hkc) as (Hp & Hlen & Hh).
  set (chain := buildChain _ _ _ _) in *. clearbody chain.
  destruct (Z.ltb_spec (zlen chain) 2) as [|Hge]; [set_solver|]. unfold zlen in Hge.
  intros (r & -> & Hin)%list_elem_of_fmap. apply list_elem_of_In, filter_In in Hin as [Hin Hm].
  exists r, chain. split; [by apply list_elem_of_In|]. split; [done|].
  split; [simpl; by rewrite fmap_reverse|]. split; [done|]. split; [|split; [lia|]].
  - destruct chain as [|q rest]; [simpl in Hge; lia|]. simpl.
    specialize (Hh q eq_refl). by rewrite (Hkc _ _ Hh).
  - by apply matchesChain_iff.
Qed.

(** Every process is cached under its own pid, from the start on. *)
Lemma keyed_Analyze now agent pid ppid name cmdline e other :
  (∀ a k p, agent_procs e a !! k = Some p → p_pid p = k) →
  ∀ k p, agent_procs (Analyze now agent pid ppid name cmdline e).1 other !! k = Some p →
    p_pid p = k.
Proof.
  intros Hk k p. pose proof (Analyze_spec now agent pid ppid name cmdline e) as H. cbn zeta in H.
  destruct (Analyze _ _ _ _ _ _ _) as [e' ds]. destruct H as (Hc & _ & _ & Ho & _). cbn [fst].
  destruct (decide (other = agent)) as [->|Hne].
  - rewrite Hc. intros [[<- <-]|[_ Hq]]%lookup_insert_Some; [done|].
    apply map_lookup_filter_Some in Hq as [Hq _]. by apply (Hk agent).
  - unfold agent_procs. rewrite (Ho other Hne). apply Hk.
Qed.

Lemma keyed_run agent vs parent e :
  (∀ a k p, agent_procs e a !! k = Some p → p_pid p = k) →
  ∀ a k p, agent_procs (run agent parent vs e).1 a !! k = Some p → p_pid p = k.
Proof.
  revert parent e. induction vs as [|v vs IH]; intros parent e Hk; [done|]. cbn [run].
  pose proof (λ a, keyed_Analyze (sp_time v) agent (sp_pid v) parent (sp_name v) (sp_cmdline v) e a Hk)
    as Hk'.
  destruct (Analyze _ _ _ _ _ _ _) as [e' ds]. destruct vs; [done|by apply IH].
Qed.

(** ** What the rules show *)
Definition word_macro : list spawn :=
  [mkSpawn 0 10 "C:\Office\WINWORD.EXE" "winword a.docm"; mkSpawn second 11 "conhost.exe" "";
   mkSpawn (2 * second) 12 "C:\Windows\System32\cmd.exe" "cmd /c x";
   mkSpawn (3 * second) 13 "PowerShell.exe" "powershell -w hidden"].

(** A chain is reported again for every later descendant: the last step of the
    pattern need not be the process of the event. *)
Lemma descendants_refire :
  "chain-T1566.001-a" ∈ cd_RuleID <$>
    (run "a1" 1 (word_macro ++ [mkSpawn (4 * second) 14 "notepad.exe" ""]) NewProcessChainEngine).2.
Proof. apply (bool_decide_eq_true_1 _). vm_compute. reflexivity. Qed.

(** The lineage rules compare whole names: with the parent's full image, which the
    engine prefers when it resolves a parent, they find nothing. *)
Lemma lineage_misses_full_path :
  IsSuspicious (AnalyzeLineage builtinLineageRules "WINWORD.EXE" "cmd.exe") = true ∧
  IsSuspicious (AnalyzeLineage builtinLineageRules "C:\Office\WINWORD.EXE" "cmd.exe") = false.
Proof. by vm_compute. Qed.

(** ** Witnesses *)
(** The macro, among a start of the same endpoint and one of another endpoint under
    the pid of its shell. *)
Lemma chain_detected_witness :
  let winword := mkSpawn 0 10 "C:\Office\WINWORD.EXE" "winword a.docm" in
  let conhost := mkSpawn second 11 "conhost.exe" "" in
  let cmd := mkSpawn (2 * second) 12 "C:\Windows\System32\cmd.exe" "cmd /c x" in
  let shell := mkSpawn (3 * second) 13 "PowerShell.exe" "powershell -w hidden" in
  let log := [mkStart "a1" 1 winword; mkStart "a1" 10 conhost; mkStart "a2" 1 (mkSpawn (2 * second) 12 "x.exe" "");
              mkStart "a1" 11 cmd; mkStart "a1" 10 (mkSpawn (3 * second) 40 "splwow64.exe" "")] in
  ∃ d before, d ∈ (see (watch NewProcessChainEngine log) (mkStart "a1" 12 shell)).2 ∧
    d = mkChainDetection "chain-T1566.001-a"
          "Office macro spawned cmd which spawned PowerShell (spearphishing execution)" "critical" "T1566.001"
          (before ++ ["winword.exe"; "conhost.exe"; "cmd.exe"; "powershell.exe"]).
Proof.
  intros winword conhost cmd shell log.
  apply (chain_detected "a1" (3 * second) 1 [winword; conhost; cmd; shell] log (mkStart "a1" 12 shell)
    NewProcessChainEngine
    (mkChainRule "chain-T1566.001-a" [hop "winword.exe"; hop "cmd.exe"; hop "powershell.exe"]
      "Office macro spawned cmd which spawned PowerShell (spearphishing execution)" "critical" "T1566.001")
    [winword; cmd; shell]).
  - simpl. lia.
  - apply (bool_decide_eq_true_1 _). vm_compute. reflexivity.
  - repeat constructor; vm_compute; discriminate.
  - repeat constructor; vm_compute; discriminate.
  - vm_compute. reflexivity.
  - apply (bool_decide_eq_true_1 _). vm_compute. reflexivity.
  - left.
  - apply sublist_skip, sublist_cons, sublist_skip, sublist_skip, sublist_nil.
  - repeat constructor; intros H; first [by destruct H | vm_compute; reflexivity].
Defined.

Lemma chain_report_sound_witness :
  let e := (run "a1" 1 (take 3 word_macro) NewProcessChainEngine).1 in
  ∃ d, d ∈ (Analyze (3 * second) "a1" 13 12 "PowerShell.exe" "" e).2 ∧
  ∃ r chain, r ∈ ch_rules e ∧ cd_RuleID d = ch_id r ∧ cd_Chain d = p_name <$> reverse chain ∧
    path (agent_procs (Analyze (3 * second) "a1" 13 12 "PowerShell.exe" "" e).1 "a1") chain ∧
    head (p_pid <$> chain) = Some 13 ∧ (2 <= length chain <= chainDepth)%nat ∧
    ∃ hops, hops `sublist_of` reverse chain ∧
      Forall2 (λ s p, step_matches s p = true) (ch_pattern r) hops.
Proof.
  cbn zeta. set (e := (run "a1" 1 (take 3 word_macro) NewProcessChainEngine).1).
  assert (∃ d, head (Analyze (3 * second) "a1" 13 12 "PowerShell.exe" "" e).2 = Some d) as [d Hd].
  { eexists. vm_compute. reflexivity. }
  assert (d ∈ (Analyze (3 * second) "a1" 13 12 "PowerShell.exe" "" e).2) as Hin.
  { by apply head_Some_elem_of. }
  exists d. split; [exact Hin|].
  refine (chain_report_sound (3 * second) "a1" 13 12 "PowerShell.exe" "" e d _ Hin).
  apply keyed_run. intros a k p. unfold agent_procs. simpl. rewrite lookup_empty. simpl.
  by rewrite lookup_empty.
Defined.
