(* ===== verification/SigmaFields.v ===== *)
(** * The fields of an event as the rules see them

    [flattenNormalizedEvent] and [addPipelineSigmaAliases] of
    [server/internal/detection/alert_pipeline.go]: the envelope of an event
    becomes one flat map, its fields are repeated under the names Sigma rules use,
    and what those rules expect in Sysmon's vocabulary is derived.

    The alias table is a Go map, visited in any order: [order] is the order of one
    visit.  A step that derives a field is its key with a function of the event. *)

From Stdlib Require Import Ascii.
From S2P Require Import Prelude GoStrings Event CommandLine ProcessChain.

#[local] Open Scope string_scope.
#[local] Open Scope list_scope.
#[local] Open Scope Z_scope.

(** ** The alias table *)
Abbreviation alias := (string * list string)%type (only parsing).

Definition aliases : list alias :=
  [("imagePath", ["Image"; "image"]);
   ("commandLine", ["CommandLine"]);
   ("processName", ["ProcessName"]);
   ("pid", ["ProcessId"]);
   ("dstIp", ["DestinationIp"; "dst_ip"]);
   ("dstPort", ["DestinationPort"; "dst_port"]);
   ("username", ["User"; "SubjectUserName"]);
   ("image_path", ["Image"; "image"]);
   ("command_line", ["CommandLine"]);
   ("process_name", ["ProcessName"]);
   ("ppid", ["ParentProcessId"]);
   ("dst_ip", ["DestinationIp"]);
   ("dst_port", ["DestinationPort"]);
   ("hostname", ["DestinationHostname"]);
   ("protocol", ["Protocol"]);
   ("src_ip", ["SourceIp"]);
   ("src_port", ["SourcePort"]);
   ("path", ["TargetFilename"; "FilePath"]);
   ("query", ["QueryName"]);
   ("action", ["Operation"; "EventType"]);
   ("operation", ["Operation"]);
   ("change_type", ["Operation"]);
   ("queryType", ["QueryType"; "record_type"]);
   ("query_type", ["QueryType"; "record_type"]);
   ("parent_image", ["ParentImage"]);
   ("parent_name", ["ParentImage"]);
   ("parentImagePath", ["ParentImage"]);
   ("parent_image_path", ["ParentImage"]);
   ("parentProcessName", ["ParentImage"]);
   ("parent_process", ["ParentImage"]);
   ("parentCommandLine", ["ParentCommandLine"]);
   ("parent_command_line", ["ParentCommandLine"]);
   ("source_image", ["SourceImage"]);
   ("target_image", ["TargetImage"]);
   ("source_pid", ["SourceProcessId"]);
   ("target_pid", ["TargetProcessId"]);
   ("access_mask", ["GrantedAccess"]);
   ("keyPath", ["TargetObject"]);
   ("key_path", ["TargetObject"]);
   ("value_data", ["Details"]);
   ("valueData", ["Details"]);
   ("image_loaded", ["ImageLoaded"]);
   ("signature_status", ["SignatureStatus"]);
   ("signer", ["Signer"; "Signature"]);
   ("signed", ["Signed"]);
   ("script_block_text", ["ScriptBlockText"]);
   ("payload", ["Payload"]);
   ("context_info", ["ContextInfo"]);
   ("pipe_name", ["PipeName"]);
   ("original_file_name", ["OriginalFileName"]);
   ("file_description", ["Description"]);
   ("product_name", ["Product"]);
   ("company_name", ["Company"]);
   ("integrity_level", ["IntegrityLevel"]);
   ("logon_id", ["LogonId"]);
   ("logon_type", ["LogonType"])].

Definition add_missing (v : value) (flat : event) (name : string) : event :=
  if has_key flat name then flat else set_key flat name v.

Definition alias_step (flat : event) (a : alias) : event :=
  match get flat a.1 with
  | Some v => foldl (add_missing v) flat a.2
  | None => flat
  end.

Definition apply_aliases (order : list alias) (flat : event) : event := foldl alias_step flat order.

(** ** Derived fields *)
Record derivation := mkDerivation {
  d_key : string;
  d_reads : list string;      (** the fields its value depends on *)
  d_guarded : bool;           (** it leaves a field alone that is there *)
  d_value : event → option value
}.

Definition derive (flat : event) (d : derivation) : event :=
  match d_value d flat with
  | Some v => set_key flat (d_key d) v
  | None => flat
  end.

(** [if _, exists := flat[key]; !exists]. *)
Definition unless_present (k : string) (flat : event) (o : option value) : option value :=
  if has_key flat k then None else o.

Definition labelled (label : string) (flat : event) (k : string) : list string :=
  let s := str_or_empty flat k in if String.eqb s "" then [] else [label +:+ s].

Definition hashes_value (flat : event) : option value :=
  unless_present "Hashes" flat
    match labelled "MD5=" flat "md5" ++ labelled "SHA1=" flat "sha1" ++ labelled "SHA256=" flat "sha256" with
    | [] => None
    | parts => Some (VStr (join "," parts))
    end.

Definition image_fallback (flat : event) : option value :=
  unless_present "Image" flat
    (let pn := str_or_empty flat "process_name" in
     if String.eqb pn "" then None else Some (VStr pn)).

Definition is_separator (c : ascii) : bool := Ascii.eqb c "\" || Ascii.eqb c "/".

Definition qualified_image (key : string) (flat : event) : option value :=
  let v := str_or_empty flat key in
  if String.eqb v "" || contains_char is_separator v then None
  else Some (VStr (String "\" v)).

Definition registry_event_type (flat : event) : option value :=
  unless_present "EventType" flat
    match get_str flat "operation" with
    | Some op =>
        if String.eqb op "modify" then Some (VStr "SetValue") else
        if String.eqb op "create" then Some (VStr "CreateKey") else
        if String.eqb op "delete" then Some (VStr "DeleteValue") else None
    | None => None
    end.

Definition registry_event_id (flat : event) : option value :=
  unless_present "EventID" flat
    (if has_key flat "key_path" then
       match get_str flat "operation" with
       | Some op =>
           if String.eqb op "modify" then Some (VStr "13") else
           if String.eqb op "create" || String.eqb op "delete" then Some (VStr "12") else None
       | None => None
       end
     else None).

(** [uint64(toFloat64(v))] of a number that is not negative. *)
Definition whole_number (v : value) : option Z :=
  match v with
  | VFloat m e => if m <? 0 then None else Some (trunc_dec m e)
  | VInt z => if z <? 0 then None else Some z
  | _ => None
  end.

Definition sigmaExposedAuthEventIDs : list Z := [4765; 4766].

Definition auth_event_id (flat : event) : option value :=
  unless_present "EventID" flat
    (if has_key flat "auth_method" then
       match get flat "event_id" with
       | Some v =>
           match whole_number v with
           | Some id => if existsb (Z.eqb id) sigmaExposedAuthEventIDs then Some (VStr (itoa id)) else None
           | None => None
           end
       | None => None
       end
     else None).

Definition target_object (flat : event) : option value :=
  let kp := str_or_empty flat "key_path" in
  let vn := str_or_empty flat "value_name" in
  if String.eqb kp "" || String.eqb vn "" then None else Some (VStr (kp +:+ "\" +:+ vn)).

Definition initiated (flat : event) : option value :=
  unless_present "Initiated" flat
    match get_str flat "direction" with
    | Some dir =>
        let d := to_lower dir in
        if existsb (String.eqb d) ["outbound"; "egress"; "out"] then Some (VStr "true") else
        if existsb (String.eqb d) ["inbound"; "ingress"; "in"] then Some (VStr "false") else None
    | None => None
    end.

Definition source_is_ipv6 (flat : event) : option value :=
  unless_present "SourceIsIpv6" flat
    (let src := str_or_empty flat "src_ip" in
     if String.eqb src "" then None
     else Some (VStr (if contains src ":" then "true" else "false"))).

Definition joinStringList (v : option value) : string :=
  match v with
  | Some (VList l) => join " " (omap (λ e, match e with VStr s => Some s | _ => None end) l)
  | _ => ""
  end.

Definition dns_answer (flat : event) : option value :=
  unless_present "answer" flat
    (let s := joinStringList (get flat "answers") in
     if String.eqb s "" then None else Some (VStr s)).

(** In the order of the code. *)
Definition derivations : list derivation :=
  [mkDerivation "Hashes" ["Hashes"; "md5"; "sha1"; "sha256"] true hashes_value;
   mkDerivation "Image" ["Image"; "process_name"] true image_fallback;
   mkDerivation "Image" ["Image"] false (qualified_image "Image");
   mkDerivation "ParentImage" ["ParentImage"] false (qualified_image "ParentImage");
   mkDerivation "EventType" ["EventType"; "operation"] true registry_event_type;
   mkDerivation "EventID" ["EventID"; "key_path"; "operation"] true registry_event_id;
   mkDerivation "EventID" ["EventID"; "auth_method"; "event_id"] true auth_event_id;
   mkDerivation "TargetObject" ["key_path"; "value_name"] false target_object;
   mkDerivation "Initiated" ["Initiated"; "direction"] true initiated;
   mkDerivation "SourceIsIpv6" ["SourceIsIpv6"; "src_ip"] true source_is_ipv6;
   mkDerivation "answer" ["answer"; "answers"] true dns_answer].

Section Pipeline.
Context (is_print : Z → bool).

Definition addPipelineSigmaAliases (order : list alias) (flat : event) : event :=
  foldl derive (apply_aliases order (normalizeCommandLine is_print flat)) derivations.

(** ** Flattening *)
Definition merge (flat sub : event) : event := foldl (λ f p, set_key f p.1 p.2) flat sub.

Definition metadata : list string := ["agent_id"; "hostname"; "platform"; "type"; "timestamp"].

Definition pick (envelope : event) (ks : list string) : event :=
  foldl (λ f k, match get envelope k with Some v => set_key f k v | None => f end) [] ks.

Definition get_map (m : event) (k : string) : option event :=
  match get m k with Some (VMap l) => Some l | _ => None end.

(** The first key that holds a map. *)
Definition first_map (m : event) (ks : list string) : option event :=
  head (omap (get_map m) ks).

(** The payload to merge: one of the three formats. *)
Definition payload_of (inner : event) : event :=
  match first_map inner ["process"; "file"; "network"; "dns"; "registry"; "auth"] with
  | Some sub => sub
  | None =>
      match get_map inner "Payload" with
      | Some p =>
          default inner (first_map p ["Process"; "File"; "Network"; "Dns"; "Registry"; "Auth"])
      | None => inner
      end
  end.

Definition flattenNormalizedEvent (order : list alias) (envelope : event) : event :=
  let flat := pick envelope metadata in
  match get_map envelope "data" with
  | None => flat
  | Some inner => addPipelineSigmaAliases order (merge flat (payload_of inner))
  end.
End Pipeline.

Example sigma_fields_example :
  let flat := flattenNormalizedEvent (λ _, true) aliases
    [("agent_id", VStr "a1"); ("hostname", VStr "pc"); ("type", VStr "process"); ("seq", VInt 1);
     ("data", VMap [("process_name", VStr "bitsadmin.exe"); ("command_line", VStr "b^itsadmin");
                    ("md5", VStr "00"); ("direction", VStr "Out")])] in
  get_str flat "Image" = Some "\bitsadmin.exe" ∧ get_str flat "Hashes" = Some "MD5=00" ∧
  get_str flat "CommandLine" = Some ("b^itsadmin" +:+ String newline "bitsadmin") ∧
  get_str flat "Initiated" = Some "true" ∧ get flat "seq" = None.
Proof. by vm_compute. Qed.
