(* ===== verification/SigmaFieldsProofs.v ===== *)
(** * The fields of an event: theorems

    Equality of events is equality of every lookup.  The pass over an event loses
    no field of the telemetry, can be repeated without effect, keeps the event a
    map, and does not depend on the iteration order of the alias table unless two
    fields of the event claim the same name. *)

From Stdlib Require Import Ascii.
From S2P Require Import Prelude GoStrings Event CommandLine CommandLineProofs ProcessChain SigmaFields.

#[local] Open Scope string_scope.
#[local] Open Scope list_scope.
#[local] Open Scope Z_scope.

(** ** Equality of events *)
Definition same (e e' : event) : Prop := ∀ k, get e k = get e' k.
Declare Scope event_scope.
Infix "≃" := same (at level 70) : event_scope.
#[local] Open Scope event_scope.

#[export] Instance same_equivalence : Equivalence same.
Proof. split; [done|by intros e e' H k|intros a b c H1 H2 k; by rewrite H1]. Qed.
#[export] Instance get_proper : Proper (same ==> eq ==> eq) (@get value).
Proof. intros e e' H k _ <-. apply H. Qed.
#[export] Instance has_key_proper : Proper (same ==> eq ==> eq) has_key.
Proof. intros e e' H k _ <-. unfold has_key. by rewrite H. Qed.
#[export] Instance set_key_proper : Proper (same ==> eq ==> eq ==> same) set_key.
Proof.
  intros e e' H k _ <- v _ <- k2. destruct (decide (k2 = k)) as [->|Hne].
  - by rewrite !get_set_same.
  - by rewrite !get_set_other.
Qed.

Lemma set_same_value e k v : get e k = Some v → set_key e k v ≃ e.
Proof.
  intros H k2. destruct (decide (k2 = k)) as [->|Hne]; [by rewrite get_set_same|by rewrite get_set_other].
Qed.

Lemma has_key_get e k : has_key e k = true ↔ is_Some (get e k).
Proof. unfold has_key. destruct (get e k); split; [by eexists|done|done|by intros []]. Qed.

Lemma no_key_get e k : has_key e k = false ↔ get e k = None.
Proof. unfold has_key. by destruct (get e k). Qed.

(** ** The alias pass *)
Lemma add_missing_get v e t k :
  get (add_missing v e t) k =
  match get e k with Some w => Some w | None => if decide (k = t) then Some v else None end.
Proof.
  unfold add_missing. destruct (has_key e t) eqn:E.
  - destruct (get e k) eqn:Ek; [done|]. destruct (decide (k = t)) as [->|]; [|done].
    apply has_key_get in E as [w E]. congruence.
  - apply no_key_get in E. destruct (decide (k = t)) as [->|Hne].
    + by rewrite get_set_same, E.
    + rewrite get_set_other by done. by destruct (get e k).
Qed.

Lemma add_all_get v ts e k :
  get (foldl (add_missing v) e ts) k =
  match get e k with Some w => Some w | None => if decide (k ∈ ts) then Some v else None end.
Proof.
  revert e. induction ts as [|t ts IH]; intros e; cbn [foldl].
  - rewrite decide_False by set_solver. by destruct (get e k).
  - rewrite IH, add_missing_get. destruct (get e k); [done|].
    destruct (decide (k = t)) as [->|Hne]; [by rewrite decide_True by left|].
    destruct (decide (k ∈ ts)); [by rewrite decide_True by by right|].
    rewrite decide_False; [done|]. by intros [?|?]%elem_of_cons.
Qed.

Lemma alias_step_get e a k :
  get (alias_step e a) k =
  match get e k with
  | Some w => Some w
  | None => if decide (k ∈ a.2) then get e a.1 else None
  end.
Proof.
  unfold alias_step. destruct (get e a.1) as [v|] eqn:E; [apply add_all_get|].
  destruct (get e k); [done|]. by destruct (decide _).
Qed.

Lemma alias_step_keeps e a k v : get e k = Some v → get (alias_step e a) k = Some v.
Proof. rewrite alias_step_get. by intros ->. Qed.

Lemma apply_aliases_keeps order e k v : get e k = Some v → get (apply_aliases order e) k = Some v.
Proof.
  revert e. unfold apply_aliases. induction order as [|a order IH]; intros e H; [done|].
  apply IH, alias_step_keeps, H.
Qed.

(** A value an alias gives to a name that is not there. *)
Definition candidate (table : list alias) (e : event) (t : string) (v : value) : Prop :=
  ∃ a, a ∈ table ∧ t ∈ a.2 ∧ get e a.1 = Some v.

(** An alias of an alias is one of the first field. *)
Definition transitive_table (table : list alias) : Prop :=
  ∀ a b, a ∈ table → b ∈ table → b.1 ∈ a.2 → ∀ t, t ∈ b.2 → t ∈ a.2.

Definition transitive_tableb (table : list alias) : bool :=
  forallb (λ a : alias, forallb (λ b : alias,
    negb (bool_decide (b.1 ∈ a.2)) || forallb (λ t, bool_decide (t ∈ a.2)) b.2) table) table.

Lemma transitive_table_spec table : transitive_tableb table = true → transitive_table table.
Proof.
  intros H a b Ha Hb Hin t Ht. unfold transitive_tableb in H.
  rewrite forallb_forall in H. specialize (H a (proj1 (list_elem_of_In _ _) Ha)).
  rewrite forallb_forall in H. specialize (H b (proj1 (list_elem_of_In _ _) Hb)).
  rewrite bool_decide_eq_true_2 in H by done. simpl in H.
  rewrite forallb_forall in H. specialize (H t (proj1 (list_elem_of_In _ _) Ht)).
  by apply bool_decide_eq_true_1 in H.
Qed.

Lemma aliases_transitive : transitive_table aliases.
Proof. apply transitive_table_spec. vm_compute. reflexivity. Qed.

Section Table.
Context (table : list alias) (Htrans : transitive_table table).

(** Where a visit has come to. *)
Definition between (e cur : event) : Prop :=
  (∀ k v, get e k = Some v → get cur k = Some v) ∧
  (∀ k v, get cur k = Some v → get e k = Some v ∨ get e k = None ∧ candidate table e k v).

Lemma between_step e cur a : a ∈ table → between e cur → between e (alias_step cur a).
Proof.
  intros Ha [Hk Hs]. split; [intros; by apply alias_step_keeps, Hk|].
  intros k v. rewrite alias_step_get. destruct (get cur k) as [w|] eqn:Ek.
  { intros [= <-]. by apply Hs. }
  destruct (decide (k ∈ a.2)) as [Hin|]; [|done]. intros Hv. right. split.
  - destruct (get e k) as [w|] eqn:Ee; [|done]. apply Hk in Ee. congruence.
  - destruct (Hs _ _ Hv) as [He|[_ (b & Hb & Hab & Hbv)]]; [by exists a|].
    exists b. split_and!; [done| |done]. by apply (Htrans b a).
Qed.

Lemma between_apply e order : order ⊆ table → between e (apply_aliases order e).
Proof.
  unfold apply_aliases. assert (between e e) as H by (split; [done|by left]). revert H.
  generalize e at 2 4 as cur. intros cur. revert cur.
  induction order as [|a order IH]; intros cur Hcur Hs; [done|].
  apply IH; [|set_solver]. apply between_step; [set_solver|done].
Qed.

(** Every name that has a candidate is there at the end. *)
Lemma apply_aliases_complete e order t v : table ⊆ order → candidate table e t v →
  is_Some (get (apply_aliases order e) t).
Proof.
  intros Hs (a & Ha & Ht & Hv). apply Hs in Ha. clear -Ha Ht Hv. revert e Hv. unfold apply_aliases.
  induction order as [|b order IH]; intros e Hv; [set_solver|]. cbn [foldl].
  apply elem_of_cons in Ha as [->|Ha]; [|by apply (IH Ha), alias_step_keeps].
  assert (∃ w, get (alias_step e b) t = Some w) as [w Hw].
  { rewrite alias_step_get. destruct (get e t) as [w|]; [by exists w|]. exists v.
    by rewrite decide_True. }
  exists w. by apply (apply_aliases_keeps order).
Qed.

(** No two fields of the event claim the name, where it is missing, with different
    values. *)
Definition undisputed (e : event) (t : string) : Prop :=
  get e t = None → ∀ v w, candidate table e t v → candidate table e t w → v = w.
Definition unambiguous (e : event) : Prop := ∀ t, undisputed e t.

Lemma apply_aliases_presence e o1 o2 k : o1 ≡ₚ table → o2 ≡ₚ table →
  has_key (apply_aliases o1 e) k = has_key (apply_aliases o2 e) k.
Proof.
  assert (∀ o, o ≡ₚ table → has_key (apply_aliases o e) k = true ↔
    has_key e k = true ∨ ∃ v, candidate table e k v) as H.
  { intros o Ho. destruct (between_apply e o) as [Hk Hs]; [intros x; by rewrite Ho|].
    rewrite !has_key_get. split.
    - intros [v Hv]. destruct (Hs _ _ Hv) as [He|[_ Hc]]; [left|right]; by exists v.
    - intros [[v Hv]|[v Hc]]; [exists v; by apply Hk|].
      eapply apply_aliases_complete; [intros x; by rewrite Ho|exact Hc]. }
  intros H1 H2. apply Bool.eq_iff_eq_true. by rewrite !H.
Qed.

Lemma apply_aliases_order_at e o1 o2 k : o1 ≡ₚ table → o2 ≡ₚ table → undisputed e k →
  get (apply_aliases o1 e) k = get (apply_aliases o2 e) k.
Proof.
  intros H1 H2 Hu. pose proof (apply_aliases_presence e o1 o2 k H1 H2) as Hp.
  destruct (between_apply e o1) as [K1 S1]; [intros x; by rewrite H1|].
  destruct (between_apply e o2) as [K2 S2]; [intros x; by rewrite H2|].
  destruct (get e k) as [v|] eqn:Ee; [by rewrite (K1 k v), (K2 k v)|]. unfold has_key in Hp.
  destruct (get (apply_aliases o1 e) k) as [v|] eqn:E1,
    (get (apply_aliases o2 e) k) as [w|] eqn:E2; [|done..].
  destruct (S1 k v E1) as [|[_ Hv]], (S2 k w E2) as [|[_ Hw]]; try congruence.
  f_equal. by apply (Hu Ee).
Qed.

Lemma apply_aliases_order e o1 o2 : o1 ≡ₚ table → o2 ≡ₚ table → unambiguous e →
  apply_aliases o1 e ≃ apply_aliases o2 e.
Proof. intros H1 H2 Hu k. apply apply_aliases_order_at; [done..|apply Hu]. Qed.

(** ** Repeating the visit *)
Definition closed_under (e : event) : Prop :=
  ∀ a t, a ∈ table → t ∈ a.2 → has_key e a.1 = true → has_key e t = true.

Lemma apply_aliases_closed e order : order ≡ₚ table → closed_under (apply_aliases order e).
Proof.
  intros Ho a t Ha Ht Hk. apply has_key_get in Hk as [v Hv]. apply has_key_get.
  destruct (between_apply e order) as [Hkeep Hs]; [intros x; by rewrite Ho|].
  assert (∀ v, candidate table e t v → is_Some (get (apply_aliases order e) t)) as Hc.
  { intros w. apply apply_aliases_complete. intros x. by rewrite Ho. }
  destruct (Hs _ _ Hv) as [He|[_ (b & Hb & Hab & Hbv)]]; [apply (Hc v); by exists a|].
  apply (Hc v). exists b. split_and!; [done| |done]. by apply (Htrans b a).
Qed.

Lemma add_all_present v e ts : (∀ t, t ∈ ts → has_key e t = true) → foldl (add_missing v) e ts = e.
Proof.
  induction ts as [|t ts IH]; intros H; [done|]. cbn [foldl]. unfold add_missing at 2.
  rewrite (H t) by left. apply IH. intros u Hu. apply H. by right.
Qed.

Lemma apply_aliases_closed_id e order : order ⊆ table → closed_under e → apply_aliases order e = e.
Proof.
  intros Hs Hc. unfold apply_aliases. induction order as [|a order IH]; [done|]. cbn [foldl].
  assert (alias_step e a = e) as ->; [|apply IH; set_solver].
  unfold alias_step. destruct (get e a.1) as [v|] eqn:E; [|done]. apply add_all_present.
  intros t Ht. apply (Hc a t); [set_solver|done|]. apply has_key_get. by exists v.
Qed.
End Table.

(** ** Derived fields *)
(** The value depends only on the fields a derivation reads, and a guarded one
    gives none when its field is there. *)
Definition well_declared (d : derivation) : Prop :=
  (∀ e e', (∀ k, k ∈ d_reads d → get e k = get e' k) → d_value d e = d_value d e') ∧
  (d_guarded d = true → ∀ e, has_key e (d_key d) = true → d_value d e = None).

Ltac reads_only :=
  let e := fresh in let e' := fresh in let H := fresh in
  intros e e' H; cbn [d_reads d_value] in *;
  unfold hashes_value, image_fallback, qualified_image, registry_event_type, registry_event_id,
    auth_event_id, target_object, initiated, source_is_ipv6, dns_answer, unless_present, labelled,
    str_or_empty, get_str, has_key; rewrite ?H by set_solver; done.

Ltac leaves_present :=
  let e := fresh in let H := fresh in
  intros _ e H; cbn [d_key d_value] in *;
  unfold hashes_value, image_fallback, registry_event_type, registry_event_id,
    auth_event_id, initiated, source_is_ipv6, dns_answer, unless_present; by rewrite H.

Lemma derivations_well_declared : Forall well_declared derivations.
Proof.
  unfold derivations.
  repeat first [apply Forall_nil_2 | apply Forall_cons_2; [split; [reads_only|first [done|leaves_present]]|]].
Qed.

Lemma derive_other e d k : k ≠ d_key d → get (derive e d) k = get e k.
Proof. intros H. unfold derive. destruct (d_value d e); [by apply get_set_other|done]. Qed.

Lemma derive_has e d k : has_key e k = true → has_key (derive e d) k = true.
Proof.
  rewrite !has_key_get. unfold derive. destruct (d_value d e) as [v|]; [|done].
  destruct (decide (k = d_key d)) as [->|Hne]; [by rewrite get_set_same|by rewrite get_set_other].
Qed.

Lemma derive_all_other e ds k : k ∉ d_key <$> ds → get (foldl derive e ds) k = get e k.
Proof.
  revert e. induction ds as [|d ds IH]; intros e; [done|]. rewrite fmap_cons. intros H.
  cbn [foldl]. rewrite IH by set_solver. apply derive_other. set_solver.
Qed.

Lemma derive_proper d e e' : well_declared d → e ≃ e' → derive e d ≃ derive e' d.
Proof.
  intros [Hl _] H. unfold derive. rewrite (Hl e e') by (intros; apply H).
  destruct (d_value d e'); [by rewrite H|done].
Qed.

Lemma derive_all_proper ds e e' : Forall well_declared ds → e ≃ e' →
  foldl derive e ds ≃ foldl derive e' ds.
Proof.
  intros Hw. revert e e'. induction Hw as [|d ds Hd _ IH]; intros e e' H; [done|].
  by apply IH, derive_proper.
Qed.

(** *** Two visits of the alias table
    A derived field depends on no name an alias gives but its own. *)
Definition alias_names : list string := aliases ≫= snd.

Lemma derivations_read_own_names :
  Forall (λ d, Forall (λ r, r = d_key d ∨ r ∉ alias_names) (d_reads d)) derivations.
Proof. apply (bool_decide_eq_true_1 _). vm_compute. reflexivity. Qed.

Lemma derive_at d e e' k : well_declared d → Forall (λ r, r = d_key d ∨ r ∉ alias_names) (d_reads d) →
  (∀ j, j ∉ alias_names → get e j = get e' j) → get e k = get e' k →
  get (derive e d) k = get (derive e' d) k.
Proof.
  intros [Hl _] Hr Hn Hk. destruct (decide (k = d_key d)) as [->|Hne]; [|by rewrite !derive_other].
  unfold derive. rewrite (Hl e e').
  - destruct (d_value d e'); [by rewrite !get_set_same|done].
  - rewrite Forall_forall in Hr. intros j Hj. destruct (Hr j Hj) as [->|]; auto.
Qed.

Lemma derive_all_at ds e e' k : Forall well_declared ds →
  Forall (λ d, Forall (λ r, r = d_key d ∨ r ∉ alias_names) (d_reads d)) ds →
  (∀ j, j ∉ alias_names → get e j = get e' j) → get e k = get e' k →
  get (foldl derive e ds) k = get (foldl derive e' ds) k.
Proof.
  intros Hw. revert e e'. induction Hw as [|d ds Hd _ IH]; intros e e' Hr Hn Hk; [done|].
  apply Forall_cons in Hr as [Hrd Hr]. cbn [foldl]. apply (IH _ _ Hr).
  - intros j Hj. by apply derive_at; auto.
  - by apply derive_at.
Qed.

(** A derivation that is not guarded keeps to its own field, or reads no name an
    alias gives. *)
Definition adds_alike (d : derivation) : Prop :=
  d_guarded d = true ∨ (∀ e, is_Some (d_value d e) → has_key e (d_key d) = true) ∨
  Forall (λ r, r ∉ alias_names) (d_reads d).

Lemma derivations_add_alike : Forall adds_alike derivations.
Proof.
  assert (∀ k e, is_Some (qualified_image k e) → has_key e k = true) as Hq.
  { intros k e [v H]. apply has_key_get. unfold qualified_image, str_or_empty, get_str in H.
    destruct (get e k); [by eexists|done]. }
  unfold derivations.
  repeat first [apply Forall_nil_2 | apply Forall_cons_2; [first [by left|right; left; apply Hq|
    right; right; apply (bool_decide_eq_true_1 _); vm_compute; reflexivity]|]].
Qed.

Lemma derive_presence_at d e k :
  has_key (derive e d) k = has_key e k || (bool_decide (k = d_key d) && bool_decide (is_Some (d_value d e))).
Proof.
  unfold derive, has_key. destruct (d_value d e) as [v|].
  - destruct (decide (k = d_key d)) as [->|Hne].
    + rewrite get_set_same, !bool_decide_eq_true_2 by eauto. by rewrite orb_true_r.
    + rewrite get_set_other, bool_decide_eq_false_2 by done. by rewrite orb_false_r.
  - rewrite (bool_decide_eq_false_2 (is_Some None)) by (by intros []). by rewrite andb_false_r, orb_false_r.
Qed.

Lemma derive_presence d e e' : well_declared d → adds_alike d →
  Forall (λ r, r = d_key d ∨ r ∉ alias_names) (d_reads d) →
  (∀ j, j ∉ alias_names → get e j = get e' j) → (∀ j, has_key e j = has_key e' j) →
  ∀ k, has_key (derive e d) k = has_key (derive e' d) k.
Proof.
  intros [Hl Hg] Ha Hr Hn Hh k. rewrite !derive_presence_at, Hh.
  destruct (decide (k = d_key d)) as [->|Hne]; [|by rewrite !(bool_decide_eq_false_2 (k = _))].
  destruct (has_key e' (d_key d)) eqn:E; [done|]. cbn [orb]. f_equal.
  destruct Ha as [Hd|[Ha|Ha]].
  - rewrite (Hl e e'); [done|]. rewrite Forall_forall in Hr. intros j Hj.
    destruct (Hr j Hj) as [->|]; [|auto]. apply no_key_get in E as E'. rewrite E'.
    apply no_key_get. by rewrite Hh.
  - rewrite !bool_decide_eq_false_2; [done|intros H; apply Ha in H..]; congruence || (rewrite Hh in H; congruence).
  - rewrite (Hl e e'); [done|]. rewrite Forall_forall in Ha. auto.
Qed.

Lemma derive_all_presence ds e e' : Forall well_declared ds → Forall adds_alike ds →
  Forall (λ d, Forall (λ r, r = d_key d ∨ r ∉ alias_names) (d_reads d)) ds →
  (∀ j, j ∉ alias_names → get e j = get e' j) → (∀ j, has_key e j = has_key e' j) →
  ∀ k, has_key (foldl derive e ds) k = has_key (foldl derive e' ds) k.
Proof.
  intros Hw. revert e e'. induction Hw as [|d ds Hd _ IH]; intros e e' Ha Hr Hn Hh; [done|].
  apply Forall_cons in Ha as [Had Ha], Hr as [Hrd Hr]. cbn [foldl]. apply IH; [done..| |].
  - intros j Hj. by apply derive_at; auto.
  - by apply derive_presence.
Qed.

(** *** Repeating the derivations *)
(** The derivation has nothing to change. *)
Definition stable (e : event) (d : derivation) : Prop :=
  ∀ v, d_value d e = Some v → get e (d_key d) = Some v.

Lemma stable_id e d : stable e d → derive e d ≃ e.
Proof.
  intros H. unfold derive. destruct (d_value d e) as [v|] eqn:E; [|done]. by apply set_same_value, H.
Qed.

Definition settles (d : derivation) : Prop := ∀ e, stable (derive e d) d.

Lemma guarded_settles d : well_declared d → d_guarded d = true → settles d.
Proof.
  intros [_ Hg] Hd e v Hv. unfold derive in *. destruct (d_value d e) as [w|] eqn:E; [|congruence].
  rewrite (Hg Hd) in Hv; [done|]. apply has_key_get. by rewrite get_set_same.
Qed.

Lemma qualified_settles k : settles (mkDerivation k [k] false (qualified_image k)).
Proof.
  intros e v. unfold derive. cbn [d_value d_key]. destruct (qualified_image k e) as [w|] eqn:E; [|congruence].
  unfold qualified_image in E. destruct (_ || _); [done|]. injection E as <-.
  unfold qualified_image, str_or_empty, get_str. rewrite get_set_same. simpl. done.
Qed.

Lemma derivations_settle : Forall settles derivations.
Proof.
  pose proof derivations_well_declared as H. unfold derivations in *.
  repeat match goal with
  | H : Forall well_declared (_ :: _) |- _ => apply Forall_cons in H as [? H]
  | |- Forall settles (_ :: _) => apply Forall_cons; split;
      [first [by apply guarded_settles | apply qualified_settles | idtac]|]
  | |- Forall settles [] => apply Forall_nil_2
  end.
  intros e v. unfold derive. cbn [d_value d_key]. destruct (target_object e) as [w|] eqn:E; [|congruence].
  unfold target_object, str_or_empty, get_str in *. rewrite !get_set_other by done. rewrite E.
  intros [= <-]. by rewrite get_set_same.
Qed.

(** A later derivation leaves an earlier one nothing to do. *)
Definition compatible (d d' : derivation) : bool :=
  (d_guarded d && String.eqb (d_key d) (d_key d')) || bool_decide (d_key d' ∉ d_key d :: d_reads d).

Lemma stable_derive e d d' : well_declared d → compatible d d' = true → stable e d → stable (derive e d') d.
Proof.
  intros [Hl Hg] Hc Hs. unfold compatible in Hc. apply orb_true_iff in Hc as [Hc|Hc].
  - apply andb_true_iff in Hc as [Hd Hk%String.eqb_eq]. unfold derive. destruct (d_value d' e) as [w|] eqn:E; [|done].
    intros v Hv. rewrite (Hg Hd) in Hv; [done|]. apply has_key_get. rewrite Hk, get_set_same. by eexists.
  - apply bool_decide_eq_true_1 in Hc. intros v Hv.
    rewrite (Hl _ e) in Hv by (intros k Hk; apply derive_other; set_solver).
    rewrite derive_other by set_solver. by apply Hs.
Qed.

Fixpoint ordered_pairs {A} (f : A → A → bool) (l : list A) : bool :=
  match l with [] => true | x :: l' => forallb (f x) l' && ordered_pairs f l' end.

Lemma derivations_stable ds e : Forall well_declared ds → Forall settles ds →
  ordered_pairs compatible ds = true → Forall (stable (foldl derive e ds)) ds.
Proof.
  revert e. induction ds as [|d ds IH]; intros e Hw Hs Hc; [done|].
  apply Forall_cons in Hw as [Hwd Hw], Hs as [Hsd Hs]. apply andb_true_iff in Hc as [Hcd Hc].
  constructor; [|by apply IH]. cbn [foldl]. specialize (Hsd e). revert Hsd. generalize (derive e d). clear -Hwd Hcd.
  induction ds as [|d' ds IH]; intros e He; [done|]. apply andb_true_iff in Hcd as [Hd' Hcd].
  apply (IH Hcd). by apply stable_derive.
Qed.

Lemma stable_all_id ds e : Forall well_declared ds → Forall (stable e) ds → foldl derive e ds ≃ e.
Proof.
  intros Hw Hs. induction ds as [|d ds IH]; [done|]. cbn [foldl].
  apply Forall_cons in Hw as [Hwd Hw], Hs as [Hsd Hs].
  rewrite (derive_all_proper ds _ e) by (done || by apply stable_id). by apply IH.
Qed.

(** ** The whole pass *)
Lemma first_text_none e ks : first_text e ks = "" ↔ ∀ k, k ∈ ks → str_or_empty e k = "".
Proof.
  unfold first_text. induction ks as [|k ks IH]; [split; [set_solver|done]|].
  cbn [fmap list_fmap List.filter]. destruct (String.eqb_spec (str_or_empty e k) "") as [E|E]; simpl.
  - rewrite IH. split; [intros H k' [->|Hk]%elem_of_cons; auto|intros H k' Hk; apply H; by right].
  - split; [done|]. intros H. by rewrite (H k) by left.
Qed.

Definition mark : string := "_cmdline_normalized".

(** The pre-pass has nothing to do. *)
Definition normalized (e : event) : Prop := has_key e mark = true ∨ first_text e cmdlineKeys = "".

Section Pass.
Context (is_print : Z → bool).
Abbreviation normalize := (normalizeCommandLine is_print).
Abbreviation pass := (addPipelineSigmaAliases is_print).

Lemma normalized_id e : normalized e → normalize e = e.
Proof.
  unfold normalizeCommandLine. fold mark. intros [->|H]; [done|]. destruct (has_key e mark); [done|].
  by rewrite H.
Qed.

Lemma normalize_normalized e : normalized (normalize e).
Proof.
  unfold normalizeCommandLine. fold mark. destruct (has_key e mark) eqn:E; [by left|].
  destruct (String.eqb_spec (first_text e cmdlineKeys) ""); [by right|]. left.
  destruct (String.eqb _ _); [apply has_key_get; rewrite get_set_same; by eexists|].
  apply has_key_get. rewrite get_set_other, write_present by done.
  by rewrite get_set_same.
Qed.

Lemma normalize_other e k : k ∉ mark :: cmdlineKeys → get (normalize e) k = get e k.
Proof.
  intros Hk. unfold normalizeCommandLine. fold mark. destruct (has_key e mark); [done|].
  destruct (String.eqb _ ""); [done|].
  destruct (String.eqb _ _); [apply get_set_other; set_solver|].
  rewrite get_set_other by (unfold cmdlineKeys in Hk; set_solver). rewrite write_present.
  rewrite bool_decide_eq_false_2 by set_solver. simpl. apply get_set_other. set_solver.
Qed.

(** A missing command line stays missing: its names are aliases of each other. *)
Definition command_names_closed (a : alias) : bool :=
  forallb (λ t, negb (bool_decide (t ∈ cmdlineKeys)) || bool_decide (a.1 ∈ cmdlineKeys)) a.2.

Lemma no_command_line order e : forallb command_names_closed order = true →
  first_text e cmdlineKeys = "" → first_text (apply_aliases order e) cmdlineKeys = "".
Proof.
  rewrite !first_text_none. revert e. unfold apply_aliases.
  induction order as [|a order IH]; intros e Hc H; [done|]. apply andb_true_iff in Hc as [Ha Hc].
  apply (IH _ Hc). intros k Hk. unfold str_or_empty, get_str in *. rewrite alias_step_get.
  destruct (get e k) eqn:E; [specialize (H k Hk); by rewrite E in H|].
  destruct (decide (k ∈ a.2)) as [Hin|]; [|done]. apply H.
  unfold command_names_closed in Ha. rewrite forallb_forall in Ha.
  specialize (Ha k (proj1 (list_elem_of_In _ _) Hin)). rewrite bool_decide_eq_true_2 in Ha by done.
  by apply bool_decide_eq_true_1 in Ha.
Qed.

Lemma aliases_command_names : forallb command_names_closed aliases = true.
Proof. vm_compute. reflexivity. Qed.

Definition derived_names : list string := d_key <$> derivations.

(** The result, taken apart. *)
Lemma pass_unfold order e :
  pass order e = foldl derive (apply_aliases order (normalize e)) derivations.
Proof. done. Qed.

Lemma pass_normalized order e : order ≡ₚ aliases → normalized (pass order e).
Proof.
  intros Ho. rewrite pass_unfold.
  assert (∀ k, k ∈ mark :: cmdlineKeys → get (foldl derive (apply_aliases order (normalize e)) derivations) k
    = get (apply_aliases order (normalize e)) k) as Hd.
  { intros k Hk. apply derive_all_other. revert k Hk. apply Forall_forall.
    apply (bool_decide_eq_true_1 _). vm_compute. reflexivity. }
  destruct (normalize_normalized e) as [H|H]; [left|right].
  - unfold has_key. rewrite Hd by left. apply has_key_get in H as [v H].
    by rewrite (apply_aliases_keeps _ _ _ _ H).
  - apply first_text_none. intros k Hk. unfold str_or_empty, get_str. rewrite Hd by by right.
    assert (forallb command_names_closed order = true) as Hc
      by (rewrite <- aliases_command_names; by apply forallb_perm).
    pose proof (no_command_line order _ Hc H) as Hf.
    rewrite first_text_none in Hf. by apply Hf.
Qed.

(** Fields no alias is taken from. *)
Lemma derived_no_source : Forall (λ a : alias, a.1 ∉ d_key <$> derivations) aliases.
Proof. apply (bool_decide_eq_true_1 _). vm_compute. reflexivity. Qed.

Lemma pass_closed order e : order ≡ₚ aliases → closed_under aliases (pass order e).
Proof.
  intros Ho a t Ha Ht. rewrite pass_unfold.
  pose proof (apply_aliases_closed aliases aliases_transitive (normalize e) order Ho a t Ha Ht) as H.
  pose proof derived_no_source as Hn. rewrite Forall_forall in Hn. specialize (Hn a Ha).
  unfold has_key at 1. rewrite derive_all_other by done. fold (has_key (apply_aliases order (normalize e)) a.1).
  intros Hk. specialize (H Hk). revert H. generalize (apply_aliases order (normalize e)). clear.
  induction derivations as [|d ds IH]; intros e H; [done|]. by apply IH, derive_has.
Qed.

(** The pass can be repeated, in whatever order the alias table is visited the
    second time: it changes no field any more. *)
Theorem pass_idempotent o1 o2 e : o1 ≡ₚ aliases → o2 ≡ₚ aliases → pass o2 (pass o1 e) ≃ pass o1 e.
Proof.
  intros H1 H2. rewrite (pass_unfold o2), normalized_id by by apply pass_normalized.
  rewrite (apply_aliases_closed_id aliases aliases_transitive) by
    first [intros x; by rewrite H2 | by apply pass_closed].
  apply stable_all_id; [apply derivations_well_declared|]. rewrite pass_unfold.
  apply derivations_stable; [apply derivations_well_declared|apply derivations_settle|].
  vm_compute. reflexivity.
Qed.

Lemma alias_names_spec t a : a ∈ aliases → t ∈ a.2 → t ∈ alias_names.
Proof. intros Ha Ht. apply list_elem_of_bind. by exists a. Qed.

Lemma visits_alike o1 o2 e : o1 ≡ₚ aliases → o2 ≡ₚ aliases →
  ∀ j, j ∉ alias_names → get (apply_aliases o1 e) j = get (apply_aliases o2 e) j.
Proof.
  intros H1 H2 j Hj. apply (apply_aliases_order_at aliases aliases_transitive); [done..|].
  intros _ v w (a & Ha & Ht & _). destruct Hj. by apply (alias_names_spec j a).
Qed.

(** Whatever the two orders, the same fields are there. *)
Lemma pass_presence o1 o2 e k : o1 ≡ₚ aliases → o2 ≡ₚ aliases →
  has_key (pass o1 e) k = has_key (pass o2 e) k.
Proof.
  intros H1 H2. rewrite !pass_unfold. apply derive_all_presence;
    [apply derivations_well_declared|apply derivations_add_alike|apply derivations_read_own_names|..].
  - by apply visits_alike.
  - intros j. by apply (apply_aliases_presence aliases aliases_transitive).
Qed.

(** A name that no two fields of the event claim with different values has the
    same value in any two orders. *)
Lemma pass_order_at o1 o2 e k : o1 ≡ₚ aliases → o2 ≡ₚ aliases →
  undisputed aliases (normalize e) k → get (pass o1 e) k = get (pass o2 e) k.
Proof.
  intros H1 H2 Hu. rewrite !pass_unfold.
  apply derive_all_at; [apply derivations_well_declared|apply derivations_read_own_names|..].
  - by apply visits_alike.
  - by apply (apply_aliases_order_at aliases aliases_transitive).
Qed.

(** Unless two fields of the event claim the same missing name with different
    values, the iteration order of the alias table does not matter. *)
Theorem pass_order_independent o1 o2 e : o1 ≡ₚ aliases → o2 ≡ₚ aliases →
  unambiguous aliases (normalize e) → pass o1 e ≃ pass o2 e.
Proof.
  intros H1 H2 Hu. rewrite !pass_unfold.
  apply derive_all_proper; [apply derivations_well_declared|].
  by apply (apply_aliases_order aliases aliases_transitive).
Qed.

(** The fields a name is an alias of. *)
Definition sources (t : string) : list string := fst <$> filter (λ a : alias, t ∈ a.2) aliases.

(** The name is given by aliases alone: no derivation and no pre-pass touches it or
    what it is taken from. *)
Definition plain_alias (t : string) : bool :=
  bool_decide (t ∉ d_key <$> derivations) && forallb (λ k, bool_decide (k ∉ mark :: cmdlineKeys)) (t :: sources t).

Lemma aliased_get order e t x : order ≡ₚ aliases → get e t = None →
  Forall (λ k, get e k = None ∨ get e k = Some x) (sources t) → Exists (λ k, get e k = Some x) (sources t) →
  get (apply_aliases order e) t = Some x.
Proof.
  intros Ho Hn Hall Hex.
  assert (∀ v, candidate aliases e t v → v = x) as Hv.
  { intros v (a & Ha & Ht & Hg). rewrite Forall_forall in Hall.
    destruct (Hall a.1) as [H|H]; [|congruence|congruence].
    apply list_elem_of_fmap. exists a. split; [done|]. by apply list_elem_of_filter. }
  apply Exists_exists in Hex as (k & Hk & Hg). unfold sources in Hk.
  apply list_elem_of_fmap in Hk as (a & -> & [Ht Ha]%list_elem_of_filter).
  destruct (apply_aliases_complete aliases e order t x) as [w Hw]; [intros y; by rewrite Ho|by exists a|].
  destruct (between_apply aliases aliases_transitive e order) as [_ Hs]; [intros y; by rewrite Ho|].
  rewrite Hw. f_equal. apply Hv. by destruct (Hs _ _ Hw) as [|[_ ?]]; [congruence|].
Qed.

(** A name that is missing takes the value of the fields it is an alias of, where
    these agree. *)
Lemma pass_alias order e t x : order ≡ₚ aliases → plain_alias t = true → get e t = None →
  Forall (λ k, get e k = None ∨ get e k = Some x) (sources t) → Exists (λ k, get e k = Some x) (sources t) →
  get (pass order e) t = Some x.
Proof.
  unfold plain_alias. rewrite andb_true_iff, bool_decide_eq_true, forallb_forall.
  intros Ho [Hd Hc] Hn Hall Hex. rewrite pass_unfold, derive_all_other by done.
  assert (∀ k, k ∈ t :: sources t → get (normalize e) k = get e k) as Hk.
  { intros k Hin. apply normalize_other, (bool_decide_eq_true_1 _), Hc. by apply list_elem_of_In. }
  apply aliased_get; [done|by rewrite Hk by left| |].
  - rewrite Forall_forall in Hall |- *. intros k Hin. rewrite Hk by by right. by apply Hall.
  - apply Exists_exists in Hex as (k & Hin & Hg). apply Exists_exists. exists k. split; [done|].
    by rewrite Hk by by right.
Qed.

(** No field of the event is lost or changed but the command line, which is
    extended, and the three fields given in Sysmon's form. *)
Theorem pass_keeps_fields order e k v :
  k ∉ ["Image"; "ParentImage"; "TargetObject"] → k ∉ cmdlineKeys → get e k = Some v →
  get (pass order e) k = Some v.
Proof.
  intros Hd Hc Hv. rewrite pass_unfold.
  assert (get (apply_aliases order (normalize e)) k = Some v) as H.
  { apply apply_aliases_keeps. destruct (decide (k = mark)) as [->|Hm]; [|rewrite normalize_other; [done|set_solver]].
    unfold normalizeCommandLine. fold mark.
    assert (has_key e mark = true) as -> by (apply has_key_get; by eexists). done. }
  revert H. generalize (apply_aliases order (normalize e)).
  assert (Forall (λ d, d_guarded d = true ∨ d_key d ∈ ["Image"; "ParentImage"; "TargetObject"]) derivations) as Hg.
  { apply (bool_decide_eq_true_1 _). vm_compute. reflexivity. }
  pose proof derivations_well_declared as Hw. clear -Hd Hg Hw.
  induction derivations as [|d ds IH]; intros e H; [done|].
  apply Forall_cons in Hg as [Hgd Hg], Hw as [[_ Hwd] Hw]. apply (IH Hg Hw).
  destruct (decide (k = d_key d)) as [->|Hne]; [|by rewrite derive_other].
  destruct Hgd as [Hgd|]; [|done]. unfold derive. rewrite (Hwd Hgd); [done|].
  apply has_key_get. by eexists.
Qed.

(** ** Images *)
Lemma derived_image e0 n : get e0 "Image" = Some (VStr n) → n ≠ "" →
  get (foldl derive e0 derivations) "Image" = Some (VStr (if contains_char is_separator n then n else "\" +:+ n)).
Proof.
  intros H Hne. unfold derivations. cbn [foldl].
  set (e1 := derive e0 _). assert (get e1 "Image" = Some (VStr n)) as H1 by (unfold e1; by rewrite derive_other).
  set (e2 := derive e1 _). assert (get e2 "Image" = Some (VStr n)) as H2.
  { unfold e2, derive, d_value, image_fallback, unless_present, has_key. by rewrite H1. }
  rewrite !(derive_other _ _ "Image") by done. clearbody e2.
  unfold derive, d_value, qualified_image, str_or_empty, get_str, d_key. rewrite H2.
  destruct (String.eqb_spec n ""); [done|]. cbn [orb].
  destruct (contains_char is_separator n); [done|]. by rewrite get_set_same.
Qed.

(** A bare name is given a separator, so that a rule on the end of a path sees it;
    a path is left alone. *)
Lemma image_aliased order e n : order ≡ₚ aliases → get e "Image" = None → n ≠ "" →
  Forall (λ k, get e k = None ∨ get e k = Some (VStr n)) (sources "Image") →
  Exists (λ k, get e k = Some (VStr n)) (sources "Image") →
  get (pass order e) "Image" = Some (VStr (if contains_char is_separator n then n else "\" +:+ n)).
Proof.
  intros Ho Hn Hne Hall Hex. rewrite pass_unfold. apply derived_image; [|done].
  assert (∀ k, k ∈ "Image" :: sources "Image" → get (normalize e) k = get e k) as Hk.
  { intros k Hin. apply normalize_other. revert k Hin. apply Forall_forall.
    apply (bool_decide_eq_true_1 _). vm_compute. reflexivity. }
  apply aliased_get; [done|by rewrite Hk by left| |].
  - rewrite Forall_forall in Hall |- *. intros k Hin. rewrite Hk by by right. by apply Hall.
  - apply Exists_exists in Hex as (k & Hin & Hg). apply Exists_exists. exists k. split; [done|].
    by rewrite Hk by by right.
Qed.

Lemma bare_image_qualified order e n : order ≡ₚ aliases →
  get e "Image" = Some (VStr n) → n ≠ "" →
  get (pass order e) "Image" = Some (VStr (if contains_char is_separator n then n else "\" +:+ n)).
Proof.
  intros Ho Hn Hne. rewrite pass_unfold. apply derived_image; [|done].
  apply apply_aliases_keeps. by rewrite normalize_other by (apply (bool_decide_eq_true_1 _); by vm_compute).
Qed.

Lemma derivations_split : derivations =
  take 7 derivations ++ mkDerivation "TargetObject" ["key_path"; "value_name"] false target_object
    :: drop 8 derivations.
Proof. reflexivity. Qed.

Lemma derive_once ds1 d ds2 e : d_key d ∉ d_key <$> ds2 →
  get (foldl derive e (ds1 ++ d :: ds2)) (d_key d) = get (derive (foldl derive e ds1) d) (d_key d).
Proof. intros H. rewrite foldl_app. cbn [foldl]. by apply derive_all_other. Qed.

(** A registry value is named by its key and its name. *)
Lemma registry_value_named order e kp vn : order ≡ₚ aliases → kp ≠ "" → vn ≠ "" →
  get e "key_path" = Some (VStr kp) → get e "value_name" = Some (VStr vn) →
  get (pass order e) "TargetObject" = Some (VStr (kp +:+ "\" +:+ vn)).
Proof.
  intros Ho Hkp Hvn Hk Hv. rewrite pass_unfold.
  assert (∀ k x, k ∈ ["key_path"; "value_name"] → get e k = Some x →
    get (apply_aliases order (normalize e)) k = Some x) as Ha.
  { intros k x Hin Hx. apply apply_aliases_keeps. rewrite normalize_other; [done|]. revert k Hin Hx.
    assert (Forall (λ k, k ∉ mark :: cmdlineKeys) ["key_path"; "value_name"]) as H
      by (apply (bool_decide_eq_true_1 _); vm_compute; reflexivity).
    rewrite Forall_forall in H. auto. }
  apply Ha in Hk; [|by left]. apply Ha in Hv; [|right; by left].
  revert Hk Hv. generalize (apply_aliases order (normalize e)). intros e0 Hk Hv.
  rewrite derivations_split.
  rewrite (derive_once _ (mkDerivation "TargetObject" ["key_path"; "value_name"] false target_object))
    by (apply (bool_decide_eq_true_1 _); vm_compute; reflexivity).
  assert (∀ k, k ∈ ["key_path"; "value_name"] → get (foldl derive e0 (take 7 derivations)) k = get e0 k) as Hkeep.
  { intros k Hin. apply derive_all_other. revert k Hin. apply Forall_forall.
    apply (bool_decide_eq_true_1 _). vm_compute. reflexivity. }
  pose proof (Hkeep "key_path" ltac:(by left)) as H1. pose proof (Hkeep "value_name" ltac:(right; by left)) as H2.
  revert H1 H2. generalize (foldl derive e0 (take 7 derivations)). intros e1 H1 H2.
  rewrite Hk in H1. rewrite Hv in H2. apply String.eqb_neq in Hkp, Hvn.
  assert (target_object e1 = Some (VStr (kp +:+ "\" +:+ vn))) as Ht
    by (unfold target_object, str_or_empty, get_str; by rewrite H1, H2, Hkp, Hvn).
  unfold derive. cbn [d_value d_key]. rewrite Ht. apply get_set_same.
Qed.

(** The command line, alone under one of its names, is extended. *)
Lemma command_line_extended order e c : order ≡ₚ aliases → get e mark = None →
  get e "command_line" = Some (VStr c) → get e "commandLine" = None → get e "CommandLine" = None →
  first_text e cmdlineKeys = c →
  ∃ s, get (pass order e) "CommandLine" = Some (VStr s) ∧ has_prefix s c = true.
Proof.
  intros Ho Hm Hc Hc2 Hc3 Hf.
  assert (∃ s, has_prefix s c = true ∧ (get (normalize e) "CommandLine" = Some (VStr s) ∨
    normalize e = e ∧ s = c ∨ normalize e = set_key e mark (VBool true) ∧ s = c)) as (s & Hp & Hs).
  { unfold normalizeCommandLine. fold mark. assert (has_key e mark = false) as -> by by apply no_key_get.
    rewrite Hf. destruct (String.eqb_spec c "") as [->|]; [exists ""; auto|].
    destruct (String.eqb_spec (augmentCommandLine is_print c) c) as [E|].
    - exists c. split; [rewrite <- (append_nil_r c) at 1; apply has_prefix_app|]. right; right. by split.
    - exists (augmentCommandLine is_print c). split; [apply augment_prefix|]. left. by rewrite get_set_same. }
  exists s. split; [|done]. rewrite pass_unfold, derive_all_other
    by (apply (bool_decide_eq_true_1 _); vm_compute; reflexivity).
  destruct Hs as [Hs|Hs]; [by apply apply_aliases_keeps|].
  assert (get (normalize e) "CommandLine" = None ∧ get (normalize e) "commandLine" = None ∧
    get (normalize e) "command_line" = Some (VStr s)) as (H1 & H2 & H3)
    by (destruct Hs as [[-> ->]|[-> ->]]; rewrite ?get_set_other by done; done).
  assert (sources "CommandLine" = ["commandLine"; "command_line"]) as Hso by (vm_compute; reflexivity).
  apply aliased_get; [done|done| |]; rewrite Hso.
  - constructor; [by left|]. constructor; [by right|constructor].
  - right. by left.
Qed.
End Pass.

(** What the fields of the event offer for a name. *)
Definition claims (table : list alias) (e : event) (k : string) : list value :=
  omap (λ a : alias, if bool_decide (k ∈ a.2) then get e a.1 else None) table.

Lemma one_claim table e k x : claims table e k = [x] → undisputed table e k.
Proof.
  intros H _. assert (∀ v, candidate table e k v → v = x) as Hx; [|intros v w ->%Hx ->%Hx; done].
  intros v (a & Ha & Hk & Hv). enough (v ∈ claims table e k) by (rewrite H in *; set_solver).
  apply list_elem_of_omap. exists a. split; [done|]. by rewrite bool_decide_eq_true_2.
Qed.

(** A check for events of texts. *)
Definition clash_free (e : event) (a b : alias) : bool :=
  match get e a.1, get e b.1 with
  | Some (VStr v), Some (VStr w) =>
      String.eqb v w || forallb (λ t, negb (bool_decide (t ∈ b.2))) a.2
  | Some _, Some _ => false
  | _, _ => true
  end.

Lemma clash_free_spec table e :
  forallb (λ a, forallb (clash_free e a) table) table = true → unambiguous table e.
Proof.
  intros H t _ v w (a & Ha & Hta & Hv) (b & Hb & Htb & Hw).
  rewrite forallb_forall in H. specialize (H a (proj1 (list_elem_of_In _ _) Ha)).
  rewrite forallb_forall in H. specialize (H b (proj1 (list_elem_of_In _ _) Hb)).
  unfold clash_free in H. rewrite Hv, Hw in H.
  destruct v; try done; destruct w; try done. apply orb_true_iff in H as [->%String.eqb_eq|H]; [done|].
  rewrite forallb_forall in H. specialize (H t (proj1 (list_elem_of_In _ _) Hta)).
  by rewrite bool_decide_eq_true_2 in H.
Qed.

(** ** What the pass shows *)
(** Both fields the ingestion writes for the parent claim [ParentImage]. *)
Lemma parent_image_depends_on_order :
  let ev := [("parent_image", VStr "C:\Windows\explorer.exe"); ("parent_name", VStr "explorer.exe")] in
  get (addPipelineSigmaAliases (λ _, true) aliases ev) "ParentImage" = Some (VStr "C:\Windows\explorer.exe") ∧
  get (addPipelineSigmaAliases (λ _, true) (reverse aliases) ev) "ParentImage" = Some (VStr "\explorer.exe").
Proof. by vm_compute. Qed.

(** The endpoint's own name becomes the destination of its connections. *)
Lemma own_host_is_destination :
  get (flattenNormalizedEvent (λ _, true) aliases
    [("hostname", VStr "pc-7"); ("type", VStr "network"); ("data", VMap [("dst_ip", VStr "198.51.100.7")])])
    "DestinationHostname" = Some (VStr "pc-7").
Proof. by vm_compute. Qed.

(** The name of the destination becomes that of the endpoint. *)
Lemma destination_is_own_host :
  get (flattenNormalizedEvent (λ _, true) aliases
    [("hostname", VStr "pc-7"); ("type", VStr "network"); ("data", VMap [("hostname", VStr "evil.example")])])
    "hostname" = Some (VStr "evil.example").
Proof. by vm_compute. Qed.

(** ** Witnesses *)
Definition sample_event : event :=
  [("image_path", VStr "certutil.exe"); ("command_line", VStr "c^ertutil -f"); ("operation", VStr "modify");
   ("key_path", VStr "HKCU\Run"); ("value_name", VStr "x"); ("hostname", VStr "pc-7")].

Lemma pass_idempotent_witness :
  reverse aliases ≡ₚ aliases ∧
  addPipelineSigmaAliases (λ _, true) (reverse aliases) (addPipelineSigmaAliases (λ _, true) aliases sample_event)
  ≃ addPipelineSigmaAliases (λ _, true) aliases sample_event.
Proof. split; [apply reverse_Permutation|]. apply pass_idempotent; [done|apply reverse_Permutation]. Defined.

Lemma pass_order_independent_witness :
  has_key (addPipelineSigmaAliases (λ _, true) aliases sample_event) "CommandLine" = true ∧
  addPipelineSigmaAliases (λ _, true) aliases sample_event
  ≃ addPipelineSigmaAliases (λ _, true) (reverse aliases) sample_event.
Proof.
  split; [vm_compute; reflexivity|]. apply pass_order_independent; [done|apply reverse_Permutation|].
  apply clash_free_spec. vm_compute. reflexivity.
Defined.

Lemma pass_keeps_fields_witness :
  get sample_event "key_path" = Some (VStr "HKCU\Run") ∧
  get (addPipelineSigmaAliases (λ _, true) aliases sample_event) "key_path" = Some (VStr "HKCU\Run").
Proof.
  split; [reflexivity|].
  apply pass_keeps_fields; [by apply (bool_decide_eq_true_1 _)..|reflexivity].
Defined.
