(* ===== verification/CustomRules.v ===== *)
(** * User-defined alert rules

    [server/internal/detection/custom_rules.go]: structured rules with a condition
    list, an event type and a threshold within a time window.  Go's regular
    expressions are the parameter [regexp_compile]; the reasons given for a rule
    that cannot fire are data, not text. *)

From S2P Require Import Prelude GoStrings Event.

#[local] Open Scope string_scope.
#[local] Open Scope list_scope.
#[local] Open Scope Z_scope.

Record CustomRuleCondition := mkCondition {
  cc_Field : string;
  cc_Operator : string;
  cc_Value : string
}.

Record CustomRule := mkCustomRule {
  cr_ID : string;
  cr_Name : string;
  cr_EventType : string;
  cr_Conditions : list CustomRuleCondition;
  cr_ThresholdCount : Z;
  cr_TimeWindowSeconds : Z;
  cr_Severity : Z;
  cr_AlertTitle : string;
  cr_AlertDescription : string;
  cr_MitreTags : list string
}.

Record CustomRuleMatch := mkCustomRuleMatch { cm_Rule : CustomRule; cm_Count : Z }.

Record CustomRuleEvaluator := mkEvaluator {
  custom_rules : list CustomRule;
  hits : gmap string (list time)
}.

Definition NewCustomRuleEvaluator : CustomRuleEvaluator := mkEvaluator [] ∅.
Definition RuleCount (e : CustomRuleEvaluator) : Z := zlen (custom_rules e).

Section Rules.
Context (regexp_compile : string → option (string → bool)).

(** ** Conditions *)
(** The entry of [compiled] for a condition. *)
Definition compileRegexCondition (c : CustomRuleCondition) : option (string → bool) :=
  if equal_fold (cc_Operator c) "regex" then regexp_compile (cc_Value c) else None.

Definition numericCompare (op got want : string) : bool :=
  match parse_float got, parse_float want with
  | Some g, Some w =>
      if String.eqb op "lt" then dec_ltb g w else
      if String.eqb op "lte" then dec_leb g w else
      if String.eqb op "gt" then dec_ltb w g else
      if String.eqb op "gte" then dec_leb w g else false
  | _, _ => false
  end.

Definition numeric_operators : list string := ["lt"; "lte"; "gt"; "gte"].

Definition conditionMatches (c : CustomRuleCondition) (re : option (string → bool)) (ev : event)
    : bool :=
  match get ev (cc_Field c) with
  | None => false
  | Some raw =>
      let got := sprint raw in
      let op := to_lower (cc_Operator c) in
      if String.eqb op "eq" || String.eqb op "" then equal_fold got (cc_Value c) else
      if String.eqb op "ne" then negb (equal_fold got (cc_Value c)) else
      if String.eqb op "contains" then contains (to_lower got) (to_lower (cc_Value c)) else
      if String.eqb op "regex" then match re with Some f => f got | None => false end else
      if existsb (String.eqb op) numeric_operators then numericCompare op got (cc_Value c)
      else false
  end.

Definition ruleMatchesEvent (r : CustomRule) (ev : event) : bool :=
  if negb (String.eqb (cr_EventType r) "") &&
     negb (equal_fold (str_or_empty ev "type") (cr_EventType r)) then false else
  match cr_Conditions r with
  | [] => false
  | cs => forallb (λ c, conditionMatches c (compileRegexCondition c) ev) cs
  end.

(** ** Evaluation *)
Definition hits_key (r : CustomRule) (agent : string) : string :=
  cr_ID r +:+ String (Ascii.ascii_of_nat 0) "" +:+ agent.

Definition window_of (r : CustomRule) : duration :=
  let w := wrap_i64 (cr_TimeWindowSeconds r * second) in if w <=? 0 then 5 * minute else w.

Definition kept_hits (now : time) (r : CustomRule) (ts : list time) : list time :=
  List.filter (λ t, now - window_of r <? t) ts ++ [now].

(** One rule of the loop. *)
Definition rule_turn (now : time) (agent : string) (ev : event) (r : CustomRule)
    (h : gmap string (list time)) : gmap string (list time) * option CustomRuleMatch :=
  if negb (ruleMatchesEvent r ev) then (h, None) else
  if cr_ThresholdCount r <=? 1 then (h, Some (mkCustomRuleMatch r 1)) else
  let key := hits_key r agent in
  let kept := kept_hits now r (default [] (h !! key)) in
  if cr_ThresholdCount r <=? zlen kept
  then (delete key h, Some (mkCustomRuleMatch r (zlen kept)))
  else (<[key := kept]> h, None).

Fixpoint rule_turns (now : time) (agent : string) (ev : event) (rs : list CustomRule)
    (h : gmap string (list time)) : gmap string (list time) * list CustomRuleMatch :=
  match rs with
  | [] => (h, [])
  | r :: rs' =>
      let '(h, m) := rule_turn now agent ev r h in
      let '(h, ms) := rule_turns now agent ev rs' h in
      (h, match m with Some m => m :: ms | None => ms end)
  end.

Definition evaluateAt (now : time) (ev : event) (e : CustomRuleEvaluator)
    : CustomRuleEvaluator * list CustomRuleMatch :=
  let '(h, ms) := rule_turns now (str_or_empty ev "agent_id") ev (custom_rules e) (hits e) in
  (mkEvaluator (custom_rules e) h, ms).

(** ** Rules that cannot fire *)
Inductive inert_reason :=
| BadRegexp (field value : string)
| NotANumber (field op value : string)
| UnknownOperator (field op : string).

Definition inert_condition (c : CustomRuleCondition) : list inert_reason :=
  let op := to_lower (trim_space (cc_Operator c)) in
  if String.eqb op "regex" then
    match regexp_compile (cc_Value c) with
    | Some _ => []
    | None => [BadRegexp (cc_Field c) (cc_Value c)]
    end
  else if existsb (String.eqb op) numeric_operators then
    match parse_float (trim_space (cc_Value c)) with
    | Some _ => []
    | None => [NotANumber (cc_Field c) op (cc_Value c)]
    end
  else if existsb (String.eqb op) ["eq"; "ne"; "contains"; ""] then []
  else [UnknownOperator (cc_Field c) (cc_Operator c)].

Definition inertReasons (cs : list CustomRuleCondition) : list inert_reason :=
  cs ≫= inert_condition.

(** A map by name: a later rule of the same name replaces an earlier one. *)
Definition inertRules (rs : list CustomRule) : gmap string (list inert_reason) :=
  foldl (λ out r, match inertReasons (cr_Conditions r) with
                  | [] => out
                  | why => <[cr_Name r := why]> out
                  end) ∅ rs.

Definition InertRules (e : CustomRuleEvaluator) : gmap string (list inert_reason) :=
  inertRules (custom_rules e).

(** ** Loading *)
(** A row: what scanning it gives, and its condition column when that is a list of
    conditions. *)
Inductive custom_row :=
| RowUnreadable
| Row (r : CustomRule) (conditions : option (list CustomRuleCondition)).

Definition with_conditions (r : CustomRule) (cs : list CustomRuleCondition) : CustomRule :=
  mkCustomRule (cr_ID r) (cr_Name r) (cr_EventType r) cs
    (if cr_ThresholdCount r <? 1 then 1 else cr_ThresholdCount r) (cr_TimeWindowSeconds r)
    (cr_Severity r) (cr_AlertTitle r) (cr_AlertDescription r) (cr_MitreTags r).

Definition load_row (row : custom_row) : option CustomRule :=
  match row with
  | Row r (Some cs) => Some (with_conditions r cs)
  | _ => None
  end.

(** What the query answers: it fails, or rows with the error met while reading. *)
Inductive custom_answer :=
| QueryFails (err : string)
| Rows (rows : list custom_row) (err : option string).

Definition LoadFromDB (pool : bool) (a : custom_answer) (e : CustomRuleEvaluator)
    : CustomRuleEvaluator * option string :=
  if negb pool then (e, None) else
  match a with
  | QueryFails err => (e, Some ("custom_alert_rules query: " +:+ err))
  | Rows _ (Some err) => (e, Some ("custom_alert_rules rows: " +:+ err))
  | Rows rows None => (mkEvaluator (omap load_row rows) ∅, None)
  end.
End Rules.

Example custom_rules_example :
  let cs := [mkCondition "type" "eq" "AUTH"; mkCondition "tries" "gte" "2.5"] in
  let r := mkCustomRule "r1" "brute" "auth" cs 2 60 7 "" "" [] in
  let ev n := [("type", VStr "auth"); ("agent_id", VStr "a"); ("tries", VInt n)] in
  let re := λ _ : string, @None (string → bool) in
  let e := mkEvaluator [r] ∅ in
  let '(e1, m1) := evaluateAt re 0 (ev 3) e in
  let '(e2, m2) := evaluateAt re (59 * second) (ev 4) e1 in
  let '(e3, m3) := evaluateAt re (60 * second) (ev 2) e2 in
  (m1, map cm_Count m2, m3, size (hits e2)) = ([], [2], [], 0%nat).
Proof. by vm_compute. Qed.
