(* ===== verification/CustomRulesProofs.v ===== *)
(** * User-defined alert rules: theorems

    A threshold rule fires as if it kept every hit of an endpoint since it last
    fired, whatever other rules and endpoints do; a rule reported as unable to fire
    indeed never matches, but not every rule that cannot fire is reported. *)

From Stdlib Require Import Ascii.
From S2P Require Import Prelude GoStrings Event CustomRules.

#[local] Open Scope string_scope.
#[local] Open Scope list_scope.
#[local] Open Scope Z_scope.

(** ** Keys *)
Lemma hits_key_inj r r' a a' : no_nul (cr_ID r) = true → no_nul (cr_ID r') = true →
  hits_key r a = hits_key r' a' → cr_ID r = cr_ID r' ∧ a = a'.
Proof. intros Hr Hr' E. by apply split_at_nul. Qed.

(** ** One rule *)
Section Rules.
Context (regexp_compile : string → option (string → bool)).
Abbreviation turn := (rule_turn regexp_compile).
Abbreviation turns := (rule_turns regexp_compile).
Abbreviation matches_event := (ruleMatchesEvent regexp_compile).

Lemma rule_turn_other now agent ev r h k : k ≠ hits_key r agent →
  (turn now agent ev r h).1 !! k = h !! k.
Proof.
  intros Hk. unfold rule_turn. destruct (negb _); [done|]. destruct (_ <=? 1); [done|].
  cbv zeta. destruct (_ <=? _); simpl; [by rewrite lookup_delete_ne|by rewrite lookup_insert_ne].
Qed.

(** The match has the rule's identity. *)
Lemma rule_turn_match now agent ev r h m : (turn now agent ev r h).2 = Some m → cm_Rule m = r.
Proof.
  unfold rule_turn. destruct (negb _); [done|]. destruct (_ <=? 1); [by intros [= <-]|].
  cbv zeta. destruct (_ <=? _); [by intros [= <-]|done].
Qed.

Lemma rule_turns_match now agent ev rs h m : m ∈ (turns now agent ev rs h).2 → cm_Rule m ∈ rs.
Proof.
  revert h. induction rs as [|r rs IH]; intros h; [set_solver|]. cbn [rule_turns].
  pose proof (rule_turn_match now agent ev r h) as Hm. destruct (turn now agent ev r h) as [h1 o].
  specialize (IH h1). destruct (turns now agent ev rs h1) as [h2 ms]. simpl in *.
  destruct o as [m0|]; [|intros Hin; right; by apply IH].
  intros [->|Hin]%elem_of_cons; [rewrite (Hm _ eq_refl); left|right; by apply IH].
Qed.

Lemma rule_turns_other now agent ev rs h k : k ∉ (λ r, hits_key r agent) <$> rs →
  (turns now agent ev rs h).1 !! k = h !! k.
Proof.
  revert h. induction rs as [|r rs IH]; intros h Hk; [done|]. cbn [rule_turns].
  rewrite fmap_cons in Hk. pose proof (rule_turn_other now agent ev r h k) as Ho.
  destruct (turn now agent ev r h) as [h1 o]. specialize (IH h1).
  destruct (turns now agent ev rs h1) as [h2 ms]. simpl in *. rewrite IH by set_solver.
  apply Ho. set_solver.
Qed.

(** ** The hits of one rule on one endpoint *)
Definition fired (r : CustomRule) (ms : list CustomRuleMatch) : bool :=
  existsb (λ m, String.eqb (cr_ID (cm_Rule m)) (cr_ID r)) ms.

Lemma fired_none r (rs : list CustomRule) ms : (∀ m, m ∈ ms → cm_Rule m ∈ rs) → cr_ID r ∉ cr_ID <$> rs → fired r ms = false.
Proof.
  intros H Hr. apply not_true_is_false. intros (m & Hm & E%String.eqb_eq)%existsb_exists.
  apply Hr. rewrite <-E. apply list_elem_of_fmap. exists (cm_Rule m). split; [done|].
  by apply H, list_elem_of_In.
Qed.

(** What the whole loop does to them is the turn of the rule. *)
Lemma rule_turns_at now agent ev rs h r : r ∈ rs → NoDup (cr_ID <$> rs) →
  Forall (λ r, no_nul (cr_ID r) = true) rs →
  fired r (turns now agent ev rs h).2 = bool_decide ((turn now agent ev r h).2 ≠ None) ∧
  (turns now agent ev rs h).1 !! hits_key r agent = (turn now agent ev r h).1 !! hits_key r agent.
Proof.
  revert h. induction rs as [|r0 rs IH]; intros h Hin Hnd Hn; [set_solver|].
  rewrite fmap_cons in Hnd. apply NoDup_cons in Hnd as [Hr0 Hnd]. apply Forall_cons in Hn as [Hn0 Hn].
  cbn [rule_turns]. pose proof (rule_turn_match now agent ev r0 h) as Hm.
  pose proof (λ k, rule_turn_other now agent ev r0 h k) as Ho.
  destruct (turn now agent ev r0 h) as [h1 o] eqn:E0.
  apply elem_of_cons in Hin as [->|Hin].
  - rewrite E0. pose proof (rule_turns_match now agent ev rs h1) as Hms.
    pose proof (rule_turns_other now agent ev rs h1 (hits_key r0 agent)) as Hk.
    destruct (turns now agent ev rs h1) as [h2 ms]. simpl in *. split.
    + pose proof (fired_none r0 rs ms Hms Hr0) as Hf. destruct o as [m|]; simpl; [|done].
      by rewrite (Hm m eq_refl), String.eqb_refl.
    + apply Hk. intros (r & E & Hr)%list_elem_of_fmap.
      rewrite Forall_forall in Hn. destruct (hits_key_inj r0 r agent agent) as [E' _]; auto.
      apply Hr0. rewrite E'. by apply list_elem_of_fmap_2.
  - assert (cr_ID r ≠ cr_ID r0) as Hne.
    { intros E. apply Hr0. rewrite <-E. by apply list_elem_of_fmap_2. }
    assert (hits_key r agent ≠ hits_key r0 agent) as Hke.
    { intros E. rewrite Forall_forall in Hn. destruct (hits_key_inj r r0 agent agent) as [E' _]; auto. }
    destruct (IH h1 Hin Hnd Hn) as [IHf IHk].
    assert ((turn now agent ev r h1).2 = (turn now agent ev r h).2 ∧
      (turn now agent ev r h1).1 !! hits_key r agent = (turn now agent ev r h).1 !! hits_key r agent)
      as [Et1 Et2].
    { specialize (Ho _ Hke). simpl in Ho. unfold rule_turn. destruct (negb _); [done|].
      destruct (_ <=? 1); [done|]. cbv zeta. rewrite Ho.
      destruct (_ <=? _); simpl; [by rewrite !lookup_delete_eq|by rewrite !lookup_insert_eq]. }
    rewrite Et1, Et2 in *. destruct (turns now agent ev rs h1) as [h2 ms]. simpl in *. split; [|done].
    destruct o as [m|]; simpl; [|done]. rewrite (Hm m eq_refl).
    by destruct (String.eqb_spec (cr_ID r0) (cr_ID r)); [congruence|].
Qed.

(** ** A stream of events *)
Fixpoint observe (r : CustomRule) (agent : string) (e : CustomRuleEvaluator) (qs : list (time * event))
    : list bool :=
  match qs with
  | [] => []
  | (now, ev) :: qs' =>
      let '(e', ms) := evaluateAt regexp_compile now ev e in
      (String.eqb (str_or_empty ev "agent_id") agent && fired r ms) :: observe r agent e' qs'
  end.

(** The specification: every hit since the rule last fired, those of the window
    counted. *)
Fixpoint expected (r : CustomRule) (agent : string) (acc : list time) (qs : list (time * event))
    : list bool :=
  match qs with
  | [] => []
  | (now, ev) :: qs' =>
      if String.eqb (str_or_empty ev "agent_id") agent && matches_event r ev then
        let acc := acc ++ [now] in
        if cr_ThresholdCount r <=? zlen (List.filter (λ t, now - window_of r <? t) acc)
        then true :: expected r agent [] qs'
        else false :: expected r agent acc qs'
      else false :: expected r agent acc qs'
  end.

Fixpoint clock_forward (last : time) (qs : list (time * event)) : Prop :=
  match qs with [] => True | q :: qs' => last <= q.1 ∧ clock_forward q.1 qs' end.

Lemma window_positive r : 0 < window_of r.
Proof. unfold window_of. cbv zeta. destruct (Z.leb_spec (wrap_i64 (cr_TimeWindowSeconds r * second)) 0); [done|lia]. Qed.

Lemma filter_later a b (l : list time) : a <= b →
  List.filter (λ t, b <? t) (List.filter (λ t, a <? t) l) = List.filter (λ t, b <? t) l.
Proof.
  intros H. induction l as [|t l IH]; [done|]. simpl. destruct (Z.ltb_spec a t); simpl; rewrite IH; [done|].
  destruct (Z.ltb_spec b t); [lia|done].
Qed.

(** The stored hits are those of the specification younger than some earlier
    cutoff. *)
Definition stored (r : CustomRule) (last : time) (l acc : list time) : Prop :=
  ∃ past, past <= last ∧ l = List.filter (λ t, past - window_of r <? t) acc.

Lemma stored_kept r last now l acc : stored r last l acc → last <= now →
  kept_hits now r l = List.filter (λ t, now - window_of r <? t) (acc ++ [now]).
Proof.
  intros (past & Hp & ->) Hn. unfold kept_hits. rewrite filter_later by lia.
  rewrite List.filter_app. f_equal. simpl. pose proof (window_positive r).
  by destruct (Z.ltb_spec (now - window_of r) now); [|lia].
Qed.

Lemma stored_later r last now l acc : stored r last l acc → last <= now → stored r now l acc.
Proof. intros (past & ? & ?) ?. exists past. split; [lia|done]. Qed.

Lemma agent_other_key r rs agent other : r ∈ rs → Forall (λ r, no_nul (cr_ID r) = true) rs →
  other ≠ agent → hits_key r agent ∉ (λ r, hits_key r other) <$> rs.
Proof.
  intros Hr Hn Hne (r' & E & Hr')%list_elem_of_fmap. rewrite Forall_forall in Hn.
  destruct (hits_key_inj r r' agent other) as [_ ->]; auto.
Qed.

(** C24: on a stream of events whose times do not go back, a threshold rule fires for
    an endpoint exactly when its hits there since it last fired, this one
    included, reach the threshold within the window: other rules and endpoints do
    not count, and pruning old hits loses none that does. *)
Theorem threshold_refines_history r agent rs qs last : r ∈ rs → NoDup (cr_ID <$> rs) →
  Forall (λ r, no_nul (cr_ID r) = true) rs → 1 < cr_ThresholdCount r → clock_forward last qs →
  observe r agent (mkEvaluator rs ∅) qs = expected r agent [] qs.
Proof.
  intros Hr Hnd Hn Ht. assert (stored r last (default [] ((∅ : gmap string (list time)) !! hits_key r agent)) []) as Hs.
  { rewrite lookup_empty. by exists last. }
  revert Hs. generalize (∅ : gmap string (list time)) as h. generalize ([] : list time) at 2 3 as acc.
  intros acc h. revert acc h last.
  induction qs as [|[now ev] qs IH]; intros acc h last Hs Hf; [done|]. destruct Hf as [Hle Hf]. simpl in Hle, Hf.
  cbn [observe expected]. unfold evaluateAt. cbn [custom_rules hits].
  destruct (String.eqb_spec (str_or_empty ev "agent_id") agent) as [->|Hne]; cbn [andb].
  - destruct (rule_turns_at now agent ev rs h r Hr Hnd Hn) as [Hfire Hkey].
    destruct (turns now agent ev rs h) as [h2 ms]. cbn [fst snd] in *. rewrite Hfire. clear Hfire.
    unfold rule_turn in *. destruct (matches_event r ev) eqn:Em; cbn [negb fst snd] in *.
    + destruct (Z.leb_spec (cr_ThresholdCount r) 1); [lia|]. cbv zeta in *.
      rewrite (stored_kept r last now _ acc Hs Hle) in *.
      destruct (_ <=? zlen _); cbn [fst snd] in *.
      * rewrite bool_decide_eq_true_2 by done. f_equal. apply (IH [] h2 now); [|done].
        rewrite Hkey, lookup_delete_eq. by exists now.
      * rewrite bool_decide_eq_false_2 by (by intros []). f_equal.
        apply (IH (acc ++ [now]) h2 now); [|done]. rewrite Hkey, lookup_insert_eq. exists now. split; [lia|done].
    + rewrite bool_decide_eq_false_2 by (by intros []). f_equal. apply (IH acc h2 now); [|done].
      rewrite Hkey. by apply (stored_later r last).
  - pose proof (rule_turns_other now (str_or_empty ev "agent_id") ev rs h (hits_key r agent)
      (agent_other_key r rs agent _ Hr Hn Hne)) as Hkey.
    destruct (turns now _ ev rs h) as [h2 ms]. simpl in Hkey. f_equal. apply (IH acc h2 now); [|done].
    rewrite Hkey. by apply (stored_later r last).
Qed.
End Rules.

(** ** Rules reported as unable to fire *)
(** A number has no space in it. *)
Lemma digit_not_space c : is_digit c = true → is_space c = false.
Proof. by destruct c as [[] [] [] [] [] [] [] []]; vm_compute. Qed.

Lemma scan_digits_space s a : has_space (scan_digits s a).2 = has_space s.
Proof.
  revert a. induction s as [|c s IH]; intros a; [done|]. cbn [scan_digits contains_char].
  destruct (is_digit c) eqn:E; [|done]. by rewrite IH, digit_not_space.
Qed.

Lemma scan_sign_space s : has_space (scan_sign s).2 = has_space s.
Proof.
  destruct s as [|c s]; [done|]. cbn [scan_sign].
  destruct (Ascii.eqb_spec c "-") as [->|]; [done|]. by destruct (Ascii.eqb_spec c "+") as [->|].
Qed.

Lemma parse_exponent_space s x : parse_exponent s = Some x → has_space s = false.
Proof.
  destruct s as [|c s]; [done|]. cbn [parse_exponent contains_char].
  destruct (Ascii.eqb_spec (lower_char c) "e") as [Ec|]; [|done]. rewrite <-(scan_sign_space s).
  destruct (scan_sign s) as [neg t]. destruct (starts_with_digit t); [|done].
  pose proof (scan_digits_space t 0) as Ht. destruct (scan_digits t 0) as [n rest]. simpl in *.
  destruct (String.eqb_spec rest "") as [->|]; [|done]. intros _.
  by rewrite <-Ht, <-lower_space, Ec.
Qed.

Lemma parse_float_space s f : parse_float s = Some f → has_space s = false.
Proof.
  unfold parse_float. rewrite <-(scan_sign_space s). destruct (scan_sign s) as [neg s1]. cbn [snd].
  pose proof (scan_digits_space s1 0) as H1. destruct (scan_digits s1 0) as [n s2]. cbn [snd] in H1.
  rewrite <-H1. destruct s2 as [|c t].
  - simpl. by destruct (_ =? 0).
  - destruct (Ascii.eqb_spec c ".") as [->|].
    + pose proof (scan_digits_space t n) as H2. destruct (scan_digits t n) as [n' r]. cbn [snd] in H2.
      destruct (_ =? 0); [done|]. destruct (parse_exponent r) eqn:E; [|done]. intros _.
      cbn [contains_char]. rewrite <-H2. by rewrite (parse_exponent_space _ _ E).
    + destruct (_ =? 0); [done|]. destruct (parse_exponent _) eqn:E; [|done]. intros _.
      by apply (parse_exponent_space _ _ E).
Qed.

Section Inert.
Context (regexp_compile : string → option (string → bool)).

Definition known_operators : list string :=
  ["eq"; "ne"; "contains"; ""; "regex"; "lt"; "lte"; "gt"; "gte"].

Lemma inert_condition_never c ev : inert_condition regexp_compile c ≠ [] →
  conditionMatches c (compileRegexCondition regexp_compile c) ev = false.
Proof.
  intros Hi. unfold conditionMatches. destruct (get ev (cc_Field c)) as [raw|]; [|done]. cbv zeta.
  destruct (decide (to_lower (cc_Operator c) ∈ known_operators)) as [Hk|Hk].
  - assert (to_lower (trim_space (cc_Operator c)) = to_lower (cc_Operator c)) as E.
    { rewrite <-trim_lower. apply trim_space_id. unfold known_operators in Hk.
      repeat (apply elem_of_cons in Hk as [->|Hk]; [done|]). by apply elem_of_nil in Hk. }
    unfold inert_condition in Hi. cbv zeta in Hi. rewrite E in Hi. clear E.
    unfold compileRegexCondition, equal_fold. unfold known_operators in Hk.
    repeat (apply elem_of_cons in Hk as [Hk|Hk];
      [rewrite Hk in *; simpl in *; try done;
       first [by destruct (regexp_compile (cc_Value c))
             |unfold numericCompare; destruct (parse_float (sprint raw)); [|done];
              destruct (parse_float (cc_Value c)) as [w|] eqn:Ew; [|done];
              rewrite trim_space_id in Hi by (by apply (parse_float_space _ w)); by rewrite Ew in Hi]|]).
    by apply elem_of_nil in Hk.
  - assert (∀ s, s ∈ known_operators → String.eqb (to_lower (cc_Operator c)) s = false) as Hne.
    { intros s Hs. apply String.eqb_neq. intros E. by rewrite E in Hk. }
    unfold known_operators in Hne. rewrite !Hne by set_solver. simpl.
    by rewrite !Hne by set_solver.
Qed.

(** C26: a rule the evaluator reports as unable to fire matches no event. *)
Theorem inert_rule_never_fires r ev : inertReasons regexp_compile (cr_Conditions r) ≠ [] →
  ruleMatchesEvent regexp_compile r ev = false.
Proof.
  intros H. unfold ruleMatchesEvent. destruct (_ && _); [done|].
  destruct (cr_Conditions r) as [|c0 cs]; [done|].
  apply not_true_is_false. rewrite forallb_forall. intros Hall. apply H.
  unfold inertReasons. clear H. revert Hall. generalize (c0 :: cs) as l. clear.
  induction l as [|c l IH]; intros Hall; [done|]. rewrite bind_cons, IH by (intros; apply Hall; by right).
  destruct (inert_condition regexp_compile c) eqn:E; [done|]. exfalso.
  assert (inert_condition regexp_compile c ≠ []) as Hc by (by rewrite E).
  specialize (Hall c (or_introl eq_refl)). rewrite inert_condition_never in Hall by done. done.
Qed.
End Inert.

(** A blank around the operator or the number is overlooked: the rule is not
    reported and never fires. *)
Lemma padded_operator_is_not_reported compile v ev :
  let r := mkCustomRule "r" "r" "" [mkCondition "user" " eq" v] 1 0 5 "" "" [] in
  inertReasons compile (cr_Conditions r) = [] ∧ ruleMatchesEvent compile r ev = false.
Proof.
  split; [done|]. unfold ruleMatchesEvent. simpl. unfold conditionMatches. simpl.
  by destruct (get ev "user").
Qed.

Lemma padded_number_is_not_reported compile ev :
  let r := mkCustomRule "r" "r" "" [mkCondition "bytes" "gt" " 100"] 1 0 5 "" "" [] in
  inertReasons compile (cr_Conditions r) = [] ∧ ruleMatchesEvent compile r ev = false.
Proof.
  split; [done|]. unfold ruleMatchesEvent. simpl. unfold conditionMatches. simpl.
  destruct (get ev "bytes") as [v|]; [|done]. unfold numericCompare.
  by destruct (parse_float (sprint v)).
Qed.

(** ** Witnesses *)
Definition brute : CustomRule :=
  mkCustomRule "r1" "brute" "auth" [mkCondition "ok" "eq" "false"] 2 60 7 "" "" [].
Definition failed_login (agent : string) : event :=
  [("type", VStr "auth"); ("agent_id", VStr agent); ("ok", VBool false)].

Lemma threshold_refines_history_witness :
  let qs := [(0, failed_login "a"); (second, failed_login "b"); (59 * second, failed_login "a");
             (60 * second, failed_login "a")] in
  observe (λ _, None) brute "a" (mkEvaluator [brute] ∅) qs = [false; false; true; false] ∧
  observe (λ _, None) brute "a" (mkEvaluator [brute] ∅) qs = expected (λ _, None) brute "a" [] qs.
Proof.
  split; [vm_compute; reflexivity|].
  apply (threshold_refines_history _ brute "a" [brute] _ 0).
  - left.
  - apply NoDup_singleton.
  - repeat constructor.
  - reflexivity.
  - repeat split; vm_compute; discriminate.
Defined.

Lemma inert_rule_never_fires_witness :
  inertReasons (λ _, None) [mkCondition "x" "gte" "ten"] = [NotANumber "x" "gte" "ten"] ∧
  ruleMatchesEvent (λ _, None) (mkCustomRule "r" "r" "" [mkCondition "x" "gte" "ten"] 1 0 5 "" "" [])
    [("x", VInt 11)] = false.
Proof. split; [reflexivity|]. apply inert_rule_never_fires. discriminate. Defined.
