(* ===== verification/StatAnomaly.v ===== *)
(** * Statistical anomalies

    [server/internal/detection/anomaly_detector.go] and the sampling of
    [checkUEBAAnomaly] in [alert_pipeline.go]: a running mean and deviation per
    user and metric (Welford's algorithm), in IEEE double arithmetic. *)

From Stdlib Require Import Ascii.
From S2P Require Import Prelude GoStrings Event Binary64.

#[local] Open Scope string_scope.
#[local] Open Scope list_scope.
#[local] Open Scope Z_scope.

(** [math.Sqrt] is correctly rounded. *)
Definition fsqrt (x : f64) : f64 := SFsqrt prec64 emax64 x.

Record MetricBaseline := mkBaseline {
  Mean : f64;
  StdDev : f64;
  Min : f64;
  Max : f64;
  SampleN : Z;
  m2 : f64;
  UpdatedAt : time
}.

Record AnomalyResult := mkAnomaly {
  MetricName : string;
  Baseline : f64;
  Actual : f64;
  ZScore : f64;
  IsAnomaly : bool;
  an_Severity : string
}.

Abbreviation baselines := (gmap string MetricBaseline) (only parsing).

Definition baselineKey (userKey metric : string) : string := userKey +:+ ":" +:+ metric.

Definition update (now : time) (value : f64) (b : MetricBaseline) : MetricBaseline :=
  let n := SampleN b + 1 in
  let delta := fsub value (Mean b) in
  let mean := fadd (Mean b) (fdiv delta (fint n)) in
  let delta2 := fsub value mean in
  let m2 := fadd (m2 b) (fmul delta delta2) in
  let sd := if 1 <? n then fsqrt (fdiv m2 (fint (n - 1))) else fzero in
  mkBaseline mean sd (if flt value (Min b) then value else Min b)
    (if flt (Max b) value then value else Max b) n m2 now.

Definition UpdateBaseline (now : time) (userKey metric : string) (value : f64) (d : baselines)
    : baselines :=
  let key := baselineKey userKey metric in
  let b := default (mkBaseline fzero fzero value value 0 fzero 0) (d !! key) in
  <[key := update now value b]> d.

Definition severity_of (absZ : f64) : bool * string :=
  if fle (fint 4) absZ then (true, "critical") else
  if fle (fint 3) absZ then (true, "high") else
  if fle (fint 2) absZ then (true, "medium") else (false, "low").

Definition CheckAnomaly (d : baselines) (userKey metric : string) (value : f64) : AnomalyResult :=
  match d !! baselineKey userKey metric with
  | None => mkAnomaly metric fzero value fzero false ""
  | Some b =>
      if SampleN b <? 3 then mkAnomaly metric fzero value fzero false "" else
      let z :=
        if flt fzero (StdDev b) then fdiv (fsub value (Mean b)) (StdDev b) else
        if flt (Mean b) value then fint 5 else fzero in
      let '(anomaly, severity) := severity_of (SFabs z) in
      mkAnomaly metric (Mean b) value z anomaly severity
  end.

(** ** Persistence *)
(** The columns of a stored baseline. *)
Record baseline_row := mkRow {
  row_user : string;
  row_metric : string;
  row_mean : f64;
  row_sd : f64;
  row_n : Z;
  row_updated : time
}.

Definition load_baseline (d : baselines) (r : baseline_row) : baselines :=
  <[baselineKey (row_user r) (row_metric r) :=
      mkBaseline (row_mean r) (row_sd r) fzero fzero (row_n r) fzero (row_updated r)]> d.

Definition LoadBaselinesFromDB (rows : list baseline_row) (d : baselines) : baselines :=
  foldl load_baseline d rows.

(** The key is split at its first colon. *)
Definition saved_row (kv : string * MetricBaseline) : option baseline_row :=
  match cut ":" kv.1 with
  | Some (u, m) => Some (mkRow u m (Mean kv.2) (StdDev kv.2) (SampleN kv.2) (UpdatedAt kv.2))
  | None => None
  end.

Definition SaveBaselinesToDB (d : baselines) : list baseline_row := omap saved_row (map_to_list d).

(** ** The samples of an event *)
(** The float of a decimal: the quotient is rounded once. *)
Definition f64_of_decimal (m e : Z) : f64 :=
  if 0 <=? e then fint (m * 10 ^ e) else
  match m with
  | 0 => fzero
  | _ => SFdiv prec64 emax64 (S754_finite (m <? 0) (Z.to_pos (Z.abs m)) 0)
           (S754_finite false (Z.to_pos (10 ^ (- e))) 0)
  end.

Definition toFloat64 (v : value) : option f64 :=
  match v with
  | VFloat m e => Some (f64_of_decimal m e)
  | VInt z => Some (fint z)
  | _ => None
  end.

Definition present (ev : event) (k : string) (s : string * f64) : list (string * f64) :=
  match get ev k with Some _ => [s] | None => [] end.

Definition failed_action (ev : event) : bool :=
  let act := str_or_empty ev "action" in String.eqb act "failed" || String.eqb act "failure".

Definition ueba_samples (hour : Z) (ev : event) : list (string * f64) :=
  present ev "process_name" ("process_exec_count", fint 1) ++
  present ev "imagePath" ("process_exec_count", fint 1) ++
  match get ev "bytes" with
  | Some v => match toFloat64 v with Some f => [("network_bytes", f)] | None => [] end
  | None => []
  end ++
  present ev "logon_type" ("login_hour", fint hour) ++
  present ev "query" ("dns_query_count", fint 1) ++
  present ev "file_path" ("file_op_count", fint 1) ++
  present ev "path" ("file_op_count", fint 1) ++
  (if failed_action ev then [("auth_fail_count", fint 1)] else []) ++
  present ev "process_name" ("exec_hour", fint hour).

Definition user_of (ev : event) : string :=
  let u := str_or_empty ev "username" in if String.eqb u "" then str_or_empty ev "user" else u.

Fixpoint check_samples (now : time) (user : string) (ss : list (string * f64)) (d : baselines)
    : baselines * list AnomalyResult :=
  match ss with
  | [] => (d, [])
  | (metric, v) :: ss' =>
      let d := UpdateBaseline now user metric v d in
      let r := CheckAnomaly d user metric v in
      let '(d, rs) := check_samples now user ss' d in
      (d, if IsAnomaly r then r :: rs else rs)
  end.

(** What is saved to [ueba_anomalies]. *)
Definition checkUEBAAnomaly (now : time) (hour : Z) (ev : event) (d : baselines)
    : baselines * list AnomalyResult :=
  if String.eqb (user_of ev) "" then (d, [])
  else check_samples now (user_of ev) (ueba_samples hour ev) d.

(** ** Metrics that count *)
Definition count_metrics : list string :=
  ["process_exec_count"; "dns_query_count"; "file_op_count"; "auth_fail_count"].

(** After any number of samples of 1. *)
Definition steady (b : MetricBaseline) : Prop :=
  Mean b = fint 1 ∧ StdDev b = fzero ∧ m2 b = fzero ∧ 1 <= SampleN b.

Lemma fint_one : fint 1 = S754_finite false 4503599627370496 (-52).
Proof. vm_compute. reflexivity. Qed.

Lemma update_steady now b : steady b → steady (update now (fint 1) b).
Proof.
  intros (Hm & Hs & H2 & Hn). unfold steady, update. cbv zeta. cbn [Mean StdDev m2 SampleN].
  rewrite Hm, H2. assert (fsub (fint 1) (fint 1) = fzero) as -> by (vm_compute; reflexivity).
  rewrite fdiv_zero by lia. assert (fadd (fint 1) fzero = fint 1) as -> by (vm_compute; reflexivity).
  assert (fsub (fint 1) (fint 1) = fzero) as -> by (vm_compute; reflexivity).
  assert (fadd fzero (fmul fzero fzero) = fzero) as -> by (vm_compute; reflexivity).
  destruct (Z.ltb_spec 1 (SampleN b + 1)); [|lia]. rewrite fdiv_zero by lia.
  split_and!; [done|by vm_compute|done|lia].
Qed.

Lemma update_first now : steady (update now (fint 1) (mkBaseline fzero fzero (fint 1) (fint 1) 0 fzero 0)).
Proof. split_and!; vm_compute; done. Qed.

Lemma steady_no_anomaly d user metric b : d !! baselineKey user metric = Some b → steady b →
  IsAnomaly (CheckAnomaly d user metric (fint 1)) = false.
Proof.
  intros Hb (Hm & Hs & _ & _). unfold CheckAnomaly. rewrite Hb. destruct (SampleN b <? 3); [done|].
  rewrite Hm, Hs. by vm_compute.
Qed.

(** *** Keys *)
Definition is_colon (c : ascii) : bool := Ascii.eqb ":" c.

Lemma split_colon a b m n : contains_char is_colon m = false → contains_char is_colon n = false →
  baselineKey a m = baselineKey b n → a = b ∧ m = n.
Proof.
  unfold baselineKey. intros Hm Hn. revert b. induction a as [|c a IH]; intros [|d b] E; simpl in E.
  - by injection E as ->.
  - injection E as <- ->. exfalso. clear -Hm. induction b as [|c b IH]; simpl in Hm; [done|].
    apply orb_false_iff in Hm as [_ Hm]. by apply IH.
  - injection E as -> <-. exfalso. clear -Hn. induction a as [|c a IH]; simpl in Hn; [done|].
    apply orb_false_iff in Hn as [_ Hn]. by apply IH.
  - injection E as -> E. by destruct (IH b E) as [-> ->].
Qed.

Definition plain_metric (m : string) : bool := negb (contains_char is_colon m).

(** Every count metric is steady. *)
Definition counts_steady (d : baselines) : Prop :=
  ∀ u m b, m ∈ count_metrics → d !! baselineKey u m = Some b → steady b.

Lemma count_metric_plain m : m ∈ count_metrics → contains_char is_colon m = false.
Proof. revert m. apply Forall_forall. repeat constructor. Qed.

(** A sample is one of a count metric, and then 1, or of another metric. *)
Definition sample_ok (s : string * f64) : Prop :=
  contains_char is_colon s.1 = false ∧ (s.1 ∈ count_metrics → s.2 = fint 1).

Lemma update_counts_steady now u m v d : sample_ok (m, v) → counts_steady d →
  counts_steady (UpdateBaseline now u m v d).
Proof.
  intros [Hp Hv] Hd u' m' b Hm'. unfold UpdateBaseline. cbv zeta.
  destruct (decide (baselineKey u' m' = baselineKey u m)) as [E|E].
  - rewrite E, lookup_insert_eq. intros [= <-].
    apply split_colon in E as [-> ->]; [|by apply count_metric_plain|done].
    cbn [fst snd] in Hv. rewrite (Hv Hm'). destruct (d !! baselineKey u m) as [b0|] eqn:E0; simpl.
    + by apply update_steady, (Hd u m).
    + apply update_first.
  - rewrite lookup_insert_ne by done. by apply Hd.
Qed.

Lemma check_samples_steady now u ss d : Forall sample_ok ss → counts_steady d →
  counts_steady (check_samples now u ss d).1 ∧
  Forall (λ r, MetricName r ∉ count_metrics) (check_samples now u ss d).2.
Proof.
  revert d. induction ss as [|[m v] ss IH]; intros d Hs Hd; [by split|].
  apply Forall_cons in Hs as [Hok Hs]. cbn [check_samples].
  pose proof (update_counts_steady now u m v d Hok Hd) as Hd'.
  assert (∃ b, UpdateBaseline now u m v d !! baselineKey u m = Some b) as [b Hb].
  { unfold UpdateBaseline. rewrite lookup_insert_eq. by eexists. }
  set (d1 := UpdateBaseline now u m v d) in *. clearbody d1.
  destruct (IH d1 Hs Hd') as [IH1 IH2]. destruct (check_samples now u ss d1) as [d2 rs]. cbn [fst snd] in *.
  split; [done|]. destruct (IsAnomaly (CheckAnomaly d1 u m v)) eqn:Ea; [|done]. constructor; [|done].
  intros Hin. assert (MetricName (CheckAnomaly d1 u m v) = m) as Em.
  { unfold CheckAnomaly. destruct (d1 !! _); [|done]. destruct (_ <? 3); [done|]. cbv zeta.
    by destruct (severity_of _). }
  rewrite Em in Hin. destruct Hok as [_ Hv]. cbn [fst snd] in Hv. rewrite (Hv Hin) in Ea.
  rewrite (steady_no_anomaly d1 u m b Hb) in Ea; [done|]. by apply (Hd' u m).
Qed.

Lemma present_ok ev k s : sample_ok s → Forall sample_ok (present ev k s).
Proof. intros H. unfold present. destruct (get ev k); [by apply Forall_singleton|apply Forall_nil_2]. Qed.

Lemma ueba_samples_ok hour ev : Forall sample_ok (ueba_samples hour ev).
Proof.
  assert (∀ m v, contains_char is_colon m = false → m ∉ count_metrics → sample_ok (m, v)) as Hother
    by (intros m v ? ?; split; [done|by intros]).
  assert (∀ m, m ∈ count_metrics → sample_ok (m, fint 1)) as Hcount
    by (intros m Hm; split; [by apply count_metric_plain|done]).
  unfold ueba_samples. repeat (apply Forall_app; split);
    try (apply present_ok; first [apply Hcount; by apply (bool_decide_eq_true_1 _)
                                 |apply Hother; [done|by apply (bool_decide_eq_true_1 _)]]).
  - destruct (get ev "bytes") as [v|]; [|by constructor]. destruct (toFloat64 v); [|by constructor].
    apply Forall_singleton, Hother; [done|]. by apply (bool_decide_eq_true_1 _).
  - destruct (failed_action ev); [|by constructor].
    apply Forall_singleton, Hcount. by apply (bool_decide_eq_true_1 _).
Qed.

(** A stream of events, with the times and hours they are handled at. *)
Fixpoint watch (qs : list (time * Z * event)) (d : baselines) : baselines * list AnomalyResult :=
  match qs with
  | [] => (d, [])
  | (now, hour, ev) :: qs' =>
      let '(d, rs) := checkUEBAAnomaly now hour ev d in
      let '(d, rs') := watch qs' d in (d, rs ++ rs')
  end.

(** Whatever events arrive, in whatever number and at whatever rate, no anomaly
    is ever reported on the count metrics: each event is a sample of 1, so their
    deviation is 0 and no sample exceeds the mean.  Only transferred bytes and the
    hours of logons and executions can be anomalous. *)
Theorem count_metrics_never_alert qs :
  Forall (λ r, MetricName r ∉ count_metrics) (watch qs ∅).2.
Proof.
  assert (counts_steady ∅) as H by (intros u m b _ Hb; by rewrite lookup_empty in Hb).
  revert H. generalize (∅ : baselines) as d.
  induction qs as [|[[now hour] ev] qs IH]; intros d Hd; [by constructor|]. cbn [watch].
  assert (counts_steady (checkUEBAAnomaly now hour ev d).1 ∧
    Forall (λ r, MetricName r ∉ count_metrics) (checkUEBAAnomaly now hour ev d).2) as [H1 H2].
  { unfold checkUEBAAnomaly. destruct (String.eqb _ ""); [by split|].
    apply check_samples_steady; [apply ueba_samples_ok|done]. }
  destruct (checkUEBAAnomaly now hour ev d) as [d1 rs]. cbn [fst snd] in *.
  specialize (IH d1 H1). destruct (watch qs d1) as [d2 rs']. simpl in *. by apply Forall_app.
Qed.

(** The spread is not stored: after a restart the deviation is computed from the
    new samples alone but divided by all of them, and an ordinary sample, less
    than half a deviation from the mean, is critical. *)
Example restart_forgets_spread :
  let old := mkBaseline (fint 10) (fint 5) (fint 1) (fint 20) 1000 (fint 24975) 0 in
  let d := <[baselineKey "u" "network_bytes" := old]> ∅ in
  let after d := CheckAnomaly (UpdateBaseline 0 "u" "network_bytes" (fint 12) d) "u" "network_bytes" (fint 12) in
  IsAnomaly (after d) = false ∧
  an_Severity (after (LoadBaselinesFromDB (SaveBaselinesToDB d) ∅)) = "critical".
Proof. by vm_compute. Qed.

(** A user whose name has a colon is stored under another name. *)
Example colon_in_user_name :
  row_user <$> SaveBaselinesToDB (UpdateBaseline 0 "corp:eve" "login_hour" (fint 3) ∅) = ["corp"].
Proof. by vm_compute. Qed.
