(* ===== verification/Ip.v ===== *)
(** * IP addresses and the host of a URL

    [ParseIP], [ParseCIDR] and [IPNet.Contains] of Go's package [net], as the
    indicator matcher uses them: addresses are lists of bytes.  At the end
    [net/url.Parse] and [URL.Hostname] as the agent uses them: from the text of a
    server address to the host in it, with the errors of the parser that decide
    whether there is one. *)

From Stdlib Require Import Ascii.
From S2P Require Import Prelude GoStrings CommandLine.

#[local] Open Scope string_scope.
#[local] Open Scope list_scope.
#[local] Open Scope Z_scope.

Abbreviation bytes := (list Z) (only parsing).

(** ** Parsing *)
(** A field of a dotted address: digits without a leading zero, at most 255. *)
Definition octet (s : string) : option Z :=
  if String.eqb s "" || contains_char (λ c, negb (is_digit c)) s then None else
  if has_prefix s "0" && negb (String.eqb s "0") then None else
  let n := (scan_digits s 0).1 in if n <=? 255 then Some n else None.

Definition parse_ipv4 (s : string) : option bytes :=
  match split_on "." s with
  | [a; b; c; d] =>
      match octet a, octet b, octet c, octet d with
      | Some a, Some b, Some c, Some d => Some [a; b; c; d]
      | _, _, _, _ => None
      end
  | _ => None
  end.

(** Up to four hexadecimal digits: their value, their number and what follows. *)
Fixpoint hex_group (s : string) (acc : Z) (n : nat) : option (Z * nat * string) :=
  match s with
  | String c s' =>
      match hex_value c with
      | Some d => if (3 <? n)%nat then None else hex_group s' (acc * 16 + d) (S n)
      | None => Some (acc, n, s)
      end
  | EmptyString => Some (acc, n, s)
  end.

(** The groups after those read so far: the bytes, where the ellipsis stands, and
    the rest of the text.  The fuel is the number of groups. *)
Fixpoint ipv6_groups (fuel : nat) (s : string) (ip : bytes) (ellipsis : option nat)
    : option (bytes * option nat * string) :=
  match fuel with
  | O => Some (ip, ellipsis, s)
  | S f =>
      match hex_group s 0 0 with
      | None | Some (_, O, _) => None
      | Some (acc, _, rest) =>
          if has_prefix rest "." then
            if match ellipsis with None => negb (length ip =? 12)%nat | Some _ => false end then None else
            if (16 <? length ip + 4)%nat then None else
            match parse_ipv4 s with
            | Some v4 => Some (ip ++ v4, ellipsis, "")
            | None => None
            end
          else
          let ip := ip ++ [Z.shiftr acc 8; Z.land acc 255] in
          match rest with
          | EmptyString => Some (ip, ellipsis, "")
          | String c rest =>
              if negb (Ascii.eqb c ":") then None else
              match rest with
              | EmptyString => None
              | String c' rest' =>
                  if Ascii.eqb c' ":" then
                    match ellipsis with
                    | Some _ => None
                    | None =>
                        match rest' with
                        | EmptyString => Some (ip, Some (length ip), "")
                        | _ => ipv6_groups f rest' ip (Some (length ip))
                        end
                    end
                  else ipv6_groups f rest ip ellipsis
              end
          end
      end
  end.

(** Without a zone, which [ParseIP] and [ParseCIDR] refuse. *)
Definition parse_ipv6 (s : string) : option bytes :=
  if contains s "%" then None else
  if String.eqb s "::" then Some (replicate 16 0) else
  let start := if has_prefix s "::" then ipv6_groups 8 (sdrop 2 s) [] (Some 0%nat)
               else ipv6_groups 8 s [] None in
  match start with
  | Some (ip, ellipsis, rest) =>
      if negb (String.eqb rest "") then None else
      if (length ip <? 16)%nat then
        match ellipsis with
        | Some k => Some (take k ip ++ replicate (16 - length ip) 0 ++ drop k ip)
        | None => None
        end
      else match ellipsis with Some _ => None | None => Some ip end
  | None => None
  end.

(** The first of the two separators decides the family. *)
Definition parse_addr (s : string) : option (bytes + bytes) :=
  let fix family t :=
    match t with
    | EmptyString => None
    | String c t' =>
        if Ascii.eqb c "." then Some true else if Ascii.eqb c ":" then Some false
        else if Ascii.eqb c "%" then None else family t'
    end in
  match family s with
  | Some true => inl <$> parse_ipv4 s
  | Some false => inr <$> parse_ipv6 s
  | None => None
  end.

Definition v4in6 : bytes := replicate 10 0 ++ [255; 255].

Definition as16 (a : bytes + bytes) : bytes :=
  match a with inl b => v4in6 ++ b | inr b => b end.

Definition ParseIP (s : string) : option bytes := as16 <$> parse_addr s.

Definition To4 (ip : bytes) : option bytes :=
  if (length ip =? 4)%nat then Some ip else
  if (length ip =? 16)%nat && bool_decide (take 12 ip = v4in6) then Some (drop 12 ip) else None.

(** ** Networks *)
Record IPNet := mkIPNet { net_IP : bytes; net_Mask : bytes }.

(** [CIDRMask]: [n] ones in front. *)
Fixpoint CIDRMask (n : Z) (len : nat) : bytes :=
  match len with
  | O => []
  | S len' => if 8 <=? n then 255 :: CIDRMask (n - 8) len' else (256 - 2 ^ (8 - n)) :: CIDRMask 0 len'
  end.

(** [IP.Mask] of a 16-byte address. *)
Definition ip_mask (ip mask : bytes) : bytes :=
  let ip := if (length mask =? 4)%nat && bool_decide (take 12 ip = v4in6) then drop 12 ip else ip in
  zip_with Z.land ip mask.

(** [dtoi]. *)
Definition prefix_length (s : string) : option Z :=
  if String.eqb s "" || contains_char (λ c, negb (is_digit c)) s then None else
  let n := (scan_digits s 0).1 in if 0xFFFFFF <=? n then None else Some n.

Definition ParseCIDR (s : string) : option IPNet :=
  match cut "/" s with
  | None => None
  | Some (addr, mask) =>
      match parse_addr addr, prefix_length mask with
      | Some a, Some n =>
          let len := match a with inl _ => 4%nat | inr _ => 16%nat end in
          if 8 * Z.of_nat len <? n then None
          else let m := CIDRMask n len in Some (mkIPNet (ip_mask (as16 a) m) m)
      | _, _ => None
      end
  end.

Definition networkNumberAndMask (n : IPNet) : option (bytes * bytes) :=
  let ip := default (net_IP n) (To4 (net_IP n)) in
  let m := net_Mask n in
  if negb ((length ip =? 4)%nat || (length ip =? 16)%nat) then None else
  if (length m =? 4)%nat then if (length ip =? 4)%nat then Some (ip, m) else None else
  if (length m =? 16)%nat then Some (ip, if (length ip =? 4)%nat then drop 12 m else m) else None.

Definition Contains (n : IPNet) (ip : bytes) : bool :=
  match networkNumberAndMask n with
  | None => false
  | Some (nn, m) =>
      let ip := default ip (To4 ip) in
      (length ip =? length nn)%nat &&
      bool_decide (zip_with Z.land nn m = zip_with Z.land ip m)
  end.

Example ip_examples :
  ParseIP "192.0.2.1" = Some (v4in6 ++ [192; 0; 2; 1]) ∧ ParseIP "192.0.2.01" = None ∧
  ParseIP "1.2.3" = None ∧ ParseIP "256.1.1.1" = None ∧ ParseIP "1.2.3.4." = None ∧
  ParseIP "2001:db8::1" = Some ([32; 1; 13; 184] ++ replicate 11 0 ++ [1]) ∧
  ParseIP "::ffff:1.2.3.4" = Some (v4in6 ++ [1; 2; 3; 4]) ∧ ParseIP "fe80::1%eth0" = None ∧
  ParseIP "1:2:3:4:5:6:7:8" = Some [0; 1; 0; 2; 0; 3; 0; 4; 0; 5; 0; 6; 0; 7; 0; 8] ∧
  ParseIP "1::2::3" = None ∧ ParseIP "1:2:3:4:5:6:7::8" = None ∧ ParseIP ":1" = None ∧
  ParseIP "::" = Some (replicate 16 0) ∧ ParseIP "1::" = Some ([0; 1] ++ replicate 14 0).
Proof. by vm_compute. Qed.

Example cidr_examples :
  let within c i := match ParseCIDR c, ParseIP i with Some n, Some a => Contains n a | _, _ => false end in
  (within "185.220.101.0/24" "185.220.101.77", within "185.220.101.0/24" "185.220.102.1",
   within "10.0.0.0/9" "10.127.0.1", within "2001:db8::/32" "2001:db8:ffff::1",
   within "10.0.0.0/8" "::ffff:10.1.1.1") = (true, false, true, true, true) ∧
  ParseCIDR "10.0.0.0/33" = None ∧ ParseCIDR "10.0.0.0" = None.
Proof. by vm_compute. Qed.

(** ** Ranges *)
(** The bytes as a number. *)
Fixpoint number (l : bytes) : Z :=
  match l with [] => 0 | x :: l' => x * 2 ^ (8 * Z.of_nat (length l')) + number l' end.

Definition is_byte (x : Z) : Prop := 0 <= x < 256.

Lemma number_range l : Forall is_byte l → 0 <= number l < 2 ^ (8 * Z.of_nat (length l)).
Proof.
  induction 1 as [|x l Hx _ IH]; [done|]. cbn [number length]. unfold is_byte in Hx.
  replace (8 * Z.of_nat (S (length l))) with (8 + 8 * Z.of_nat (length l)) by lia.
  rewrite Z.pow_add_r by lia. nia.
Qed.

Lemma mask_byte x j : is_byte x → 0 <= j <= 8 → Z.land x (256 - 2 ^ j) = x / 2 ^ j * 2 ^ j.
Proof.
  unfold is_byte. intros Hx Hj.
  assert (forallb (λ i, forallb (λ k,
    Z.land (Z.of_nat i) (256 - 2 ^ Z.of_nat k) =? Z.of_nat i / 2 ^ Z.of_nat k * 2 ^ Z.of_nat k)
    (seq 0 9)) (seq 0 256) = true) as H by (vm_compute; reflexivity).
  rewrite forallb_forall in H. specialize (H (Z.to_nat x) ltac:(apply in_seq; lia)).
  rewrite forallb_forall in H. specialize (H (Z.to_nat j) ltac:(apply in_seq; lia)).
  rewrite !Z2Nat.id in H by lia. by apply Z.eqb_eq.
Qed.

Lemma mask_zero a n : zip_with Z.land a (CIDRMask 0 n) = replicate (length a `min` n) 0.
Proof.
  revert a. induction n as [|n IH]; intros [|x a]; [done..|]. cbn [CIDRMask].
  change (8 <=? 0) with false. cbv iota. change (256 - 2 ^ (8 - 0)) with 0. cbn [zip_with length Nat.min replicate].
  by rewrite Z.land_0_r, IH.
Qed.

(** Masked bytes agree when the numbers agree above the mask. *)
Lemma mask_prefix a b n : length a = length b → Forall is_byte a → Forall is_byte b →
  0 <= n <= 8 * Z.of_nat (length a) →
  zip_with Z.land a (CIDRMask n (length a)) = zip_with Z.land b (CIDRMask n (length a)) ↔
  number a / 2 ^ (8 * Z.of_nat (length a) - n) = number b / 2 ^ (8 * Z.of_nat (length a) - n).
Proof.
  revert b n. induction a as [|x a IH]; intros [|y b] n Hl Ha Hb Hn; try done.
  injection Hl as Hl. apply Forall_cons in Ha as [Hx Ha], Hb as [Hy Hb].
  pose proof (number_range a Ha) as Ra. pose proof (number_range b Hb) as Rb.
  cbn [number length CIDRMask] in *. rewrite <-Hl in *. set (L := Z.of_nat (length a)) in *.
  replace (Z.of_nat (S (length a))) with (1 + L) in * by lia.
  destruct (Z.leb_spec 8 n) as [H8|H8]; cbn [zip_with].
  - assert (∀ z, is_byte z → Z.land z 255 = z) as E255.
    { intros z Hz. change 255 with (Z.ones 8). rewrite Z.land_ones by lia. by apply Z.mod_small. }
    rewrite !E255 by done. set (k := 8 * L - (n - 8)).
    replace (8 * (1 + L) - n) with k by lia.
    assert (∀ z N, (z * 2 ^ (8 * L) + N) / 2 ^ k = z * 2 ^ (8 * L - k) + N / 2 ^ k) as E.
    { intros z N. replace (2 ^ (8 * L)) with (2 ^ (8 * L - k) * 2 ^ k)
        by (rewrite <-Z.pow_add_r by lia; f_equal; lia).
      rewrite Z.mul_assoc, Z.div_add_l by lia. done. }
    rewrite !E. assert (∀ N, 0 <= N < 2 ^ (8 * L) → 0 <= N / 2 ^ k < 2 ^ (8 * L - k)) as B.
    { intros N HN. split; [apply Z.div_pos; lia|]. apply Z.div_lt_upper_bound; [lia|].
      rewrite <-Z.pow_add_r by lia. replace (k + (8 * L - k)) with (8 * L) by lia. lia. }
    pose proof (B _ Ra) as Ba. pose proof (B _ Rb) as Bb.
    specialize (IH b (n - 8) Hl Ha Hb ltac:(lia)). fold k in IH. split.
    + intros [= -> H]. f_equal. by apply IH.
    + intros H. assert (x = y ∧ number a / 2 ^ k = number b / 2 ^ k) as [-> H'].
      { apply (Z.div_mod_unique (2 ^ (8 * L - k))); [by left|by left|lia]. }
      f_equal. by apply IH.
  - rewrite !mask_byte by (done || lia). rewrite !mask_zero, Hl.
    replace (8 * (1 + L) - n) with (8 * L + (8 - n)) by lia.
    rewrite Z.pow_add_r, <-!Z.div_div, !Z.div_add_l, !(Z.div_small (number _)) by lia.
    rewrite !Z.add_0_r. split; [intros [= H]; nia|by intros ->].
Qed.

Lemma v4_bytes s a : parse_ipv4 s = Some a → length a = 4%nat ∧ Forall is_byte a.
Proof.
  assert (∀ t n, octet t = Some n → is_byte n) as H.
  { intros t n. unfold octet. destruct (_ || _) eqn:E; [done|]. destruct (_ && _); [done|]. cbv zeta.
    destruct (Z.leb_spec (scan_digits t 0).1 255); [|done]. intros [= <-]. split; [|lia].
    clear. enough (∀ acc, 0 <= acc → 0 <= (scan_digits t acc).1) by (apply H; lia).
    induction t as [|ch t IH]; intros acc Hacc; [done|]. cbn [scan_digits].
    destruct (is_digit ch) eqn:Ed; [|done]. apply IH. unfold is_digit, digit_value in *.
    apply andb_true_iff in Ed as [Ed%Nat.leb_le _]. lia. }
  unfold parse_ipv4. destruct (split_on "." s) as [|w [|x [|y [|z [|]]]]]; try done.
  destruct (octet w) eqn:Ew, (octet x) eqn:Ex, (octet y) eqn:Ey, (octet z) eqn:Ez; try done.
  intros [= <-]. split; [done|]. repeat constructor; naive_solver.
Qed.

Lemma CIDRMask_length n len : length (CIDRMask n len) = len.
Proof. revert n. induction len as [|len IH]; intros n; [done|]. simpl. by destruct (8 <=? n); simpl; rewrite IH. Qed.

Lemma to4_mapped b : length b = 4%nat → To4 (v4in6 ++ b) = Some b.
Proof.
  intros Hb. unfold To4. rewrite length_app, Hb. change (length v4in6 + 4 =? 4)%nat with false.
  change (length v4in6 + 4 =? 16)%nat with true. cbn [andb].
  rewrite take_app_length' by done. rewrite bool_decide_eq_true_2 by done. by rewrite drop_app_length' by done.
Qed.

Lemma mask_twice a m : zip_with Z.land (zip_with Z.land a m) m = zip_with Z.land a m.
Proof.
  revert m. induction a as [|x a IH]; intros [|y m]; [done..|]. cbn [zip_with].
  by rewrite IH, <-Z.land_assoc, Z.land_diag.
Qed.

(** a range of IPv4 addresses contains exactly the addresses that share its
    prefix. *)
Theorem ipv4_range_is_prefix s addr mask a n : cut "/" s = Some (addr, mask) →
  parse_addr addr = Some (inl a) → prefix_length mask = Some n → 0 <= n <= 32 →
  ∃ net, ParseCIDR s = Some net ∧
    ∀ b, length b = 4%nat → Forall is_byte b →
      Contains net (v4in6 ++ b) = true ↔ number a / 2 ^ (32 - n) = number b / 2 ^ (32 - n).
Proof.
  intros Hs Ha Hn Hr. unfold ParseCIDR. rewrite Hs, Ha, Hn. cbv zeta. change (8 * Z.of_nat 4) with 32.
  destruct (Z.ltb_spec 32 n); [lia|]. eexists. split; [done|]. intros b Hb Hbb.
  assert (length a = 4%nat ∧ Forall is_byte a) as [Hla Hba].
  { unfold parse_addr in Ha. destruct (_ addr) as [[]|]; try done.
    - destruct (parse_ipv4 addr) as [v|] eqn:E; [|done]. simpl in Ha. injection Ha as ->.
      by apply (v4_bytes addr).
    - by destruct (parse_ipv6 addr). }
  pose proof (mask_prefix a b n) as Hmp. rewrite Hla, Hb in Hmp. change (8 * Z.of_nat 4) with 32 in Hmp.
  rewrite <-Hmp by done. unfold Contains, networkNumberAndMask, ip_mask, as16. cbn [net_IP net_Mask].
  rewrite CIDRMask_length. cbn [Nat.eqb andb]. rewrite take_app_length' by done.
  rewrite bool_decide_eq_true_2 by done. rewrite drop_app_length' by done.
  set (za := zip_with Z.land a (CIDRMask n 4)).
  assert (length za = 4%nat) as Hlm by (unfold za; by rewrite length_zip_with, CIDRMask_length, Hla).
  assert (To4 za = Some za) as -> by (unfold To4; by rewrite Hlm).
  cbn [default from_option id]. rewrite Hlm. cbn [Nat.eqb orb negb]. rewrite to4_mapped by done.
  cbn [default from_option id]. rewrite Hb, Hlm. cbn [Nat.eqb andb]. unfold za. rewrite mask_twice.
  apply bool_decide_eq_true.
Qed.

Lemma ipv4_range_is_prefix_witness :
  parse_addr "10.64.0.0" = Some (inl [10; 64; 0; 0]) ∧
  ∃ net, ParseCIDR "10.64.0.0/10" = Some net ∧
    ∀ b, length b = 4%nat → Forall is_byte b →
      Contains net (v4in6 ++ b) = true ↔ number [10; 64; 0; 0] / 2 ^ (32 - 10) = number b / 2 ^ (32 - 10).
Proof.
  split; [reflexivity|].
  apply (ipv4_range_is_prefix "10.64.0.0/10" "10.64.0.0" "10" [10; 64; 0; 0] 10); [reflexivity..|lia].
Defined.

(** ** Parsed addresses are sixteen bytes *)
Lemma hex_value_range c d : hex_value c = Some d → 0 <= d < 16.
Proof.
  assert (forallb (λ n, match hex_value (ascii_of_nat n) with Some d => (0 <=? d) && (d <? 16) | None => true end)
    (seq 0 256) = true) as H by (vm_compute; reflexivity).
  rewrite forallb_forall in H. intros E.
  specialize (H (nat_of_ascii c) ltac:(apply in_seq; pose proof (nat_ascii_bounded c); lia)).
  rewrite ascii_nat_embedding, E in H. lia.
Qed.

Lemma hex_group_range s acc n v m rest : 0 <= acc < 16 ^ Z.of_nat n → (n <= 4)%nat →
  hex_group s acc n = Some (v, m, rest) → 0 <= v < 65536.
Proof.
  assert (∀ a k, 0 <= a < 16 ^ Z.of_nat k → (k <= 4)%nat → 0 <= a < 65536) as Hw.
  { intros a k Ha Hk. change 65536 with (16 ^ 4). split; [lia|]. eapply Z.lt_le_trans; [apply Ha|].
    apply Z.pow_le_mono_r; lia. }
  revert acc n. induction s as [|c s IH]; intros acc n Ha Hn; cbn [hex_group].
  - intros [= <- _ _]. by apply (Hw _ n).
  - destruct (hex_value c) as [d|] eqn:Ed; [|intros [= <- _ _]; by apply (Hw _ n)].
    destruct (Nat.ltb_spec 3 n); [done|]. apply IH; [|lia].
    apply hex_value_range in Ed. rewrite Nat2Z.inj_succ, Z.pow_succ_r by lia. lia.
Qed.

Lemma ipv6_groups_bytes fuel s ip e ip' e' rest : Forall is_byte ip → (length ip + 2 * fuel <= 16)%nat →
  ipv6_groups fuel s ip e = Some (ip', e', rest) → Forall is_byte ip' ∧ (length ip' <= 16)%nat.
Proof.
  revert s ip e. induction fuel as [|f IH]; intros s ip e Hip Hlen; cbn [ipv6_groups].
  { intros [= <- _ _]. split; [done|lia]. }
  destruct (hex_group s 0 0) as [[[acc m] r]|] eqn:Eg; [|done]. destruct m as [|m]; [done|].
  apply hex_group_range in Eg; [|simpl; lia|lia]. destruct (has_prefix r ".").
  - destruct e; [|destruct (negb _); [done|]]; (destruct (Nat.ltb_spec 16 (length ip + 4)); [done|]);
      (destruct (parse_ipv4 s) as [v4|] eqn:E4; [|done]); intros [= <- _ _];
      apply v4_bytes in E4 as [? ?]; (split; [by apply Forall_app|rewrite length_app; lia]).
  - cbv zeta. set (ip1 := ip ++ _).
    assert (Forall is_byte ip1) as H1.
    { apply Forall_app. split; [done|]. repeat constructor; unfold is_byte.
      - rewrite Z.shiftr_div_pow2 by lia. apply Z.div_pos; lia.
      - rewrite Z.shiftr_div_pow2 by lia. apply Z.div_lt_upper_bound; lia.
      - change 255 with (Z.ones 8). rewrite Z.land_ones by lia. by apply Z.mod_pos_bound.
      - change 255 with (Z.ones 8). rewrite Z.land_ones by lia. by apply Z.mod_pos_bound. }
    assert (length ip1 + 2 * f <= 16)%nat as H2 by (unfold ip1; rewrite length_app; simpl; lia).
    destruct r as [|c r]; [intros [= <- _ _]; split; [done|lia]|].
    destruct (negb _); [done|]. destruct r as [|c' r]; [done|]. destruct (Ascii.eqb c' ":").
    + destruct e; [done|]. destruct r; [intros [= <- _ _]; split; [done|lia]|by apply IH].
    + by apply IH.
Qed.

Lemma v6_bytes s a : parse_ipv6 s = Some a → length a = 16%nat ∧ Forall is_byte a.
Proof.
  assert (∀ n, Forall is_byte (replicate n 0)) as Hz by (intros; apply Forall_replicate; by split).
  unfold parse_ipv6. destruct (contains s "%"); [done|].
  destruct (String.eqb s "::"); [intros [= <-]; split; [done|apply (Hz 16%nat)]|]. cbv zeta.
  destruct (if has_prefix s "::" then _ else _) as [[[ip e] rest]|] eqn:Eg; [|done].
  assert (Forall is_byte ip ∧ (length ip <= 16)%nat) as [Hip Hlen].
  { destruct (has_prefix s "::"); eapply ipv6_groups_bytes; [| |exact Eg| | |exact Eg]; (constructor || simpl; lia). }
  destruct (negb _); [done|]. destruct (Nat.ltb_spec (length ip) 16).
  - destruct e as [k|]; [|done]. intros [= <-]. split.
    + rewrite !length_app, length_replicate. pose proof (f_equal length (take_drop k ip)) as Ht.
      rewrite length_app in Ht. lia.
    + rewrite !Forall_app. repeat split; [by apply Forall_take|apply Hz|by apply Forall_drop].
  - destruct e; [done|]. intros [= <-]. split; [lia|done].
Qed.

Lemma parse_ip_bytes s ip : ParseIP s = Some ip → length ip = 16%nat ∧ Forall is_byte ip.
Proof.
  unfold ParseIP, parse_addr. destruct (_ s) as [[]|]; try done.
  - destruct (parse_ipv4 s) as [a|] eqn:E; [|done]. intros [= <-]. apply v4_bytes in E as [Hl Hb].
    split; [simpl; lia|]. by repeat (constructor; [split; lia|]).
  - destruct (parse_ipv6 s) as [a|] eqn:E; [|done]. intros [= <-]. by apply v6_bytes in E.
Qed.

Lemma parse_addr_v4 s a : parse_addr s = Some (inl a) → length a = 4%nat ∧ Forall is_byte a.
Proof.
  unfold parse_addr. destruct (_ s) as [[]|]; try done.
  - destruct (parse_ipv4 s) as [v|] eqn:E; [|done]. simpl. intros [= <-]. by apply (v4_bytes s).
  - by destruct (parse_ipv6 s).
Qed.

(** Addresses of one length are told apart by their number. *)
Lemma number_inj a b : length a = length b → Forall is_byte a → Forall is_byte b →
  number a = number b → a = b.
Proof.
  revert b. induction a as [|x a IH]; intros [|y b] Hl Ha Hb; try done. injection Hl as Hl.
  apply Forall_cons in Ha as [Hx Ha], Hb as [Hy Hb]. cbn [number]. rewrite Hl. intros H.
  pose proof (number_range a Ha) as Ra. pose proof (number_range b Hb) as Rb. rewrite Hl in Ra.
  assert (x = y ∧ number a = number b) as [-> H'].
  { apply (Z.div_mod_unique (2 ^ (8 * Z.of_nat (length b)))); [by left|by left|lia]. }
  f_equal. by apply IH.
Qed.

(** ** The host of a URL

    Paths, queries and user names matter only where they make the parser fail. *)
Definition is_alpha (c : ascii) : bool :=
  let n := nat_of_ascii (lower_char c) in (97 <=? n)%nat && (n <=? 122)%nat.
Definition char_in (l : string) (c : ascii) : bool := contains_char (Ascii.eqb c) l.
Definition control (c : ascii) : bool := (nat_of_ascii c <? 32)%nat || (nat_of_ascii c =? 127)%nat.
Definition non_ascii (c : ascii) : bool := (128 <=? nat_of_ascii c)%nat.

(** [getScheme]: the scheme and the rest; no scheme where the text cannot start one. *)
Fixpoint scheme_go (s acc : string) : option (string * string) :=
  match s with
  | EmptyString => None
  | String c s' =>
      if is_alpha c then scheme_go s' (snoc acc c)
      else if is_digit c || char_in "+-." c then
        if String.eqb acc "" then None else scheme_go s' (snoc acc c)
      else if Ascii.eqb c ":" then Some (acc, s') else None
  end.

Definition getScheme (s : string) : option (string * string) :=
  match scheme_go s "" with
  | Some ("", _) => None
  | Some (scheme, rest) => Some (scheme, rest)
  | None => Some ("", s)
  end.

(** Every [%] is followed by two hexadecimal digits. *)
Fixpoint valid_escapes (s : string) : bool :=
  match s with
  | EmptyString => true
  | String "%" s' =>
      match s' with
      | String a (String b s'') =>
          match hex_value a, hex_value b with Some _, Some _ => valid_escapes s'' | _, _ => false end
      | _ => false
      end
  | String _ s' => valid_escapes s'
  end.

(** [unescape] of a host: only bytes outside ASCII may be escaped, and the
    characters that need escaping may not stand as they are. *)
Definition host_char (c : ascii) : bool :=
  is_alpha c || is_digit c || non_ascii c || char_in "-_.~!$&'()*+,;=:[]<>" c || (nat_of_ascii c =? 34)%nat.

Fixpoint unescape_host (s : string) : option string :=
  match s with
  | EmptyString => Some ""
  | String "%" s' =>
      match s' with
      | String a (String b s'') =>
          match hex_value a, hex_value b with
          | Some x, Some y =>
              if (x <? 8) && negb ((x =? 2) && (y =? 5)) then None
              else String (ascii_of_nat (Z.to_nat (16 * x + y))) <$> unescape_host s''
          | _, _ => None
          end
      | _ => None
      end
  | String c s' => if host_char c then String c <$> unescape_host s' else None
  end.

(** [validOptionalPort]. *)
Definition validOptionalPort (port : string) : bool :=
  match port with
  | EmptyString => true
  | String c ds => Ascii.eqb c ":" && negb (contains_char (λ d, negb (is_digit d)) ds)
  end.

(** The text before the last [c], and from it on. *)
Fixpoint cut_last (c : ascii) (s : string) : option (string * string) :=
  match s with
  | EmptyString => None
  | String d s' =>
      match cut_last c s' with
      | Some (a, b) => Some (String d a, b)
      | None => if Ascii.eqb c d then Some ("", s) else None
      end
  end.

(** [parseHost]; the zone of an IPv6 address is not decoded. *)
Definition parseHost (host : string) : option string :=
  if has_prefix host "[" then
    match cut_last "]" host with
    | None => None
    | Some (_, rest) => if validOptionalPort (sdrop 1 rest) then unescape_host host else None
    end
  else
    match cut_last ":" host with
    | Some (_, port) => if validOptionalPort port then unescape_host host else None
    | None => unescape_host host
    end.

Definition user_char (c : ascii) : bool := is_alpha c || is_digit c || char_in "-._:~!$&'()*+,;=%@" c.

Definition parseAuthority (authority : string) : option string :=
  match cut_last "@" authority with
  | None => parseHost authority
  | Some (userinfo, rest) =>
      match parseHost (sdrop 1 rest) with
      | Some h =>
          if negb (contains_char (λ c, negb (user_char c)) userinfo) && valid_escapes userinfo
          then Some h else None
      | None => None
      end
  end.

(** The text up to [c], and from [c] on. *)
Definition cut_at (c : ascii) (s : string) : string * string :=
  match cut c s with Some (a, _) => (a, sdrop (String.length a) s) | None => (s, "") end.

(** [Parse]: the [Host] of the result; [None] for an error. *)
Definition url_host (raw : string) : option string :=
  let '(u, frag) := cut_at "#" raw in
  if negb (valid_escapes (sdrop 1 frag)) then None else
  if contains_char control u then None else
  if String.eqb u "*" then Some "" else
  match getScheme u with
  | None => None
  | Some (scheme, rest) =>
      let '(rest, _) := cut_at "?" rest in
      if negb (has_prefix rest "/") then
        if negb (String.eqb scheme "") then Some ""
        else if contains_char (Ascii.eqb ":") (cut_at "/" rest).1 then None
        else if valid_escapes rest then Some "" else None
      else
        if negb (String.eqb scheme "") || negb (has_prefix rest "///") then
          if has_prefix rest "//" then
            let '(authority, path) := cut_at "/" (sdrop 2 rest) in
            match parseAuthority authority with
            | Some h => if valid_escapes path then Some h else None
            | None => None
            end
          else if valid_escapes rest then Some "" else None
        else if valid_escapes rest then Some "" else None
  end.

(** [stripPort]. *)
Definition url_hostname (host : string) : string :=
  if negb (contains_char (Ascii.eqb ":") host) then host else
  match cut "]" host with
  | Some (a, _) => trim_prefix a "["
  | None => (cut_at ":" host).1
  end.

Example url_examples :
  (url_hostname <$> url_host "https://edr.example.com:8443/x") = Some "edr.example.com" ∧
  (url_hostname <$> url_host "http://203.0.113.10:8080") = Some "203.0.113.10" ∧
  (url_hostname <$> url_host "http://[2001:db8::1]:8080/") = Some "2001:db8::1" ∧
  (url_hostname <$> url_host "https://a:b@h/p?q#f") = Some "h" ∧
  url_host "203.0.113.10:8080" = None ∧ url_host "edr.example.com" = Some "" ∧
  url_host "edr:8443" = Some "" ∧ url_host "http://h ost/" = None ∧ url_host ":x" = None ∧
  url_host "http://h:8o" = None ∧ url_host "http://h/%zz" = None.
Proof. by vm_compute. Qed.
