(* ===== verification/IocMatcher.v ===== *)
(** * Indicators of compromise

    [server/internal/detection/ioc_matcher.go]: the cache of active indicators and
    the match of an event's fields against it.  A map is the list of its entries in
    the order one loop visits them, so a theorem about any order of the lists of a
    matcher is one about any iteration order. *)

From S2P Require Import Prelude GoStrings Event Ip.

#[local] Open Scope string_scope.
#[local] Open Scope list_scope.
#[local] Open Scope Z_scope.

Record IOCRecord := mkIOC {
  ioc_ID : string;
  ioc_Type : string;
  ioc_Value : string;
  ioc_Description : string;
  ioc_Severity : Z;
  ioc_Confidence : Z
}.

Record IOCMatch := mkIOCMatch {
  im_IOC : IOCRecord;
  MatchedOn : string;
  im_Value : string
}.

Record cidrEntry := mkCidr { ce_net : IPNet; ce_rec : IOCRecord }.

Abbreviation ioc_map := (list (string * IOCRecord)) (only parsing).

Record IOCMatcher := mkMatcher {
  byType : list (string * ioc_map);
  cidrs : list cidrEntry;
  loadedAt : time
}.

Definition NewIOCMatcher : IOCMatcher := mkMatcher [] [] 0.

(** [m[k] = v]. *)
Fixpoint put {A} (m : list (string * A)) (k : string) (v : A) : list (string * A) :=
  match m with
  | [] => [(k, v)]
  | (k', v') :: m' => if String.eqb k' k then (k, v) :: m' else (k', v') :: put m' k v
  end.

(** ** Loading *)
(** An ["ip"] indicator that is a range. *)
Definition range_of (e : IOCRecord) : option IPNet :=
  if String.eqb (ioc_Type e) "ip" && contains (ioc_Value e) "/"
  then ParseCIDR (trim_space (ioc_Value e)) else None.

Definition of_type {A} (m : list (string * list A)) (t : string) : list A := default [] (get m t).

Definition add_entry (m : list (string * ioc_map) * list cidrEntry) (e : IOCRecord)
    : list (string * ioc_map) * list cidrEntry :=
  match range_of e with
  | Some net => (m.1, m.2 ++ [mkCidr net e])
  | None => (put m.1 (ioc_Type e) (put (of_type m.1 (ioc_Type e)) (to_lower (ioc_Value e)) e), m.2)
  end.

(** [None]: the loader fails, and the cache stays. *)
Definition refresh (now : time) (answer : option (list IOCRecord)) (m : IOCMatcher) : IOCMatcher :=
  match answer with
  | None => m
  | Some entries =>
      let '(byType, cidrs) := foldl add_entry ([], []) entries in mkMatcher byType cidrs now
  end.

(** ** Matching *)
Definition stringVal (ev : event) (k : string) : option string :=
  match get_str ev k with
  | Some s => if String.eqb s "" then None else Some s
  | None => None
  end.

Definition matchCIDR (m : IOCMatcher) (ipStr : string) : option IOCRecord :=
  match ParseIP (trim_space ipStr) with
  | None => None
  | Some ip => ce_rec <$> head (List.filter (λ c, Contains (ce_net c) ip) (cidrs m))
  end.

Definition ip_lookup (m : IOCMatcher) (val : string) : option IOCRecord :=
  match get (of_type (byType m) "ip") (to_lower val) with
  | Some rec => Some rec
  | None => matchCIDR m val
  end.

Definition domain_lookup (m : IOCMatcher) (val : string) : option IOCRecord :=
  let lower := to_lower (trim_suffix val ".") in
  match get (of_type (byType m) "domain") lower with
  | Some rec => Some rec
  | None =>
      snd <$> head (List.filter (λ p : string * IOCRecord, has_suffix lower ("." +:+ p.1))
                      (of_type (byType m) "domain"))
  end.

Definition hash_lookup (m : IOCMatcher) (val : string) : option IOCRecord :=
  get (of_type (byType m) "hash") (to_lower val).

Definition url_lookup (m : IOCMatcher) (val : string) : option IOCRecord :=
  snd <$> head (List.filter (λ p : string * IOCRecord, contains (to_lower val) p.1)
                  (of_type (byType m) "url")).

Definition ip_fields : list string := ["dstIp"; "dst_ip"; "DestinationIp"; "srcIp"; "src_ip"].
Definition domain_fields : list string := ["query"; "QueryName"; "hostname"; "Hostname"].
Definition hash_fields : list string :=
  ["sha256"; "sha256Hash"; "md5"; "md5Hash"; "fileSha256"; "fileHash"; "imageSha256"].
Definition url_fields : list string := ["url"; "URL"; "requestUrl"].

(** The matches of the fields of one class. *)
Definition scan (lookup : string → option IOCRecord) (ev : event) (fields : list string)
    : list IOCMatch :=
  omap (λ f, val ← stringVal ev f; rec ← lookup val; Some (mkIOCMatch rec f val)) fields.

Definition CheckEvent (m : IOCMatcher) (ev : event) : list IOCMatch :=
  if (zlen (byType m) =? 0) && (zlen (cidrs m) =? 0) then [] else
  scan (ip_lookup m) ev ip_fields ++
  scan (domain_lookup m) ev domain_fields ++
  scan (hash_lookup m) ev hash_fields ++
  scan (url_lookup m) ev url_fields.

Definition hashableEvent (ev : event) : bool :=
  let t := default "" (stringVal ev "event_type") in
  existsb (String.eqb t) ["process"; "file"; "image_load"].

(** How often the metric of absent hashes is raised. *)
Definition hash_absent (m : IOCMatcher) (ev : event) : bool :=
  negb (zlen (of_type (byType m) "hash") =? 0) &&
  forallb (λ f, bool_decide (stringVal ev f = None)) hash_fields && hashableEvent ev.

Definition CacheSize (m : IOCMatcher) : Z :=
  zlen (cidrs m) + foldr Z.add 0 ((λ p, zlen p.2) <$> byType m).
