(* ===== verification/IocMatcherProofs.v ===== *)
(** * Indicators of compromise: theorems

    After a refresh, whatever the iteration order of the maps, the fields of an
    event that are reported are exactly those an active indicator applies to, and
    the indicator named applies; a range contains the addresses that share its
    prefix. *)

From S2P Require Import Prelude GoStrings Event Ip IocMatcher.

#[local] Open Scope string_scope.
#[local] Open Scope list_scope.
#[local] Open Scope Z_scope.

(** ** Maps *)
Lemma get_put {A} (m : list (string * A)) k v k' :
  get (put m k v) k' = if decide (k' = k) then Some v else get m k'.
Proof.
  induction m as [|[q w] m IH]; simpl.
  - destruct (String.eqb_spec k k') as [->|]; [by rewrite decide_True|by rewrite decide_False].
  - destruct (String.eqb_spec q k) as [->|Hq]; simpl.
    + destruct (String.eqb_spec k k') as [->|]; [by rewrite decide_True|by rewrite decide_False].
    + rewrite IH. destruct (String.eqb_spec q k') as [->|]; [by rewrite decide_False|done].
Qed.

Lemma put_keys {A} (m : list (string * A)) k v : k ∈ keys m → keys (put m k v) = keys m.
Proof.
  unfold keys. induction m as [|[q w] m IH]; [set_solver|]. cbn [put fmap list_fmap fst]. intros H.
  destruct (String.eqb_spec q k) as [->|Hq]; cbn [fmap list_fmap fst]; [done|].
  rewrite IH; [done|]. by apply elem_of_cons in H as [->|].
Qed.

Lemma put_new {A} (m : list (string * A)) k v : k ∉ keys m → put m k v = m ++ [(k, v)].
Proof.
  unfold keys. induction m as [|[q w] m IH]; [done|]. cbn [put fmap list_fmap fst]. intros H.
  destruct (String.eqb_spec q k) as [->|Hq]; [by destruct H; left|]. rewrite IH by set_solver. done.
Qed.

Lemma put_distinct {A} (m : list (string * A)) k v : NoDup (keys m) → NoDup (keys (put m k v)).
Proof.
  intros H. destruct (decide (k ∈ keys m)) as [Hin|Hn]; [by rewrite put_keys|].
  rewrite put_new by done. unfold keys in *. rewrite fmap_app. apply NoDup_app.
  split_and!; [done|set_solver|apply NoDup_singleton].
Qed.

(** ** The cache *)
Definition cache := (list (string * ioc_map) * list cidrEntry)%type.

(** What the cache holds of the entries read so far. *)
Record caches (es : list IOCRecord) (c : cache) : Prop := {
  ca_sound : ∀ t k rec, get (of_type c.1 t) k = Some rec →
    rec ∈ es ∧ ioc_Type rec = t ∧ to_lower (ioc_Value rec) = k ∧ range_of rec = None;
  ca_complete : ∀ e, e ∈ es → range_of e = None →
    is_Some (get (of_type c.1 (ioc_Type e)) (to_lower (ioc_Value e)));
  ca_ranges : ∀ net e, mkCidr net e ∈ c.2 ↔ e ∈ es ∧ range_of e = Some net;
  ca_distinct : ∀ t, NoDup (keys (of_type c.1 t))
}.

Lemma caches_empty : caches [] ([], []).
Proof. split; [done|set_solver|set_solver|]. intros t. apply NoDup_nil_2. Qed.

Lemma of_type_put {A} (m : list (string * list A)) t l t' :
  of_type (put m t l) t' = if decide (t' = t) then l else of_type m t'.
Proof. unfold of_type. rewrite get_put. by destruct (decide _). Qed.

Lemma caches_add es c e : caches es c → caches (es ++ [e]) (add_entry c e).
Proof.
  intros [S C R D]. unfold add_entry. destruct (range_of e) as [net|] eqn:Er; split; cbn [fst snd].
  - intros t k rec H. destruct (S t k rec H) as (? & ? & ? & ?). split_and!; try done. set_solver.
  - intros e' [H| ->%list_elem_of_singleton]%elem_of_app Hr; [by apply C|congruence].
  - intros net' e'. rewrite !elem_of_app, !list_elem_of_singleton, R. split.
    + intros [[? ?]|[= -> ->]]; [split; [by left|done]|split; [by right|done]].
    + intros [[H| ->] Hr]; [by left|right]. congruence.
  - done.
  - intros t k rec. rewrite of_type_put. destruct (decide (t = ioc_Type e)) as [->|Hne].
    + rewrite get_put. destruct (decide (k = to_lower (ioc_Value e))) as [->|].
      * intros [= <-]. split_and!; [set_solver|done..].
      * intros H. destruct (S _ k rec H) as (? & ? & ? & ?). split_and!; try done. set_solver.
    + intros H. destruct (S t k rec H) as (? & ? & ? & ?). split_and!; try done. set_solver.
  - intros e' He' Hr. rewrite of_type_put.
    assert (e' = e ∨ is_Some (get (of_type c.1 (ioc_Type e')) (to_lower (ioc_Value e')))) as [->|H].
    { apply elem_of_app in He' as [H| ->%list_elem_of_singleton]; [right; by apply C|by left]. }
    + rewrite decide_True, get_put by done. by rewrite decide_True.
    + destruct (decide _) as [E|]; [|done]. rewrite get_put. destruct (decide _); [done|].
      by rewrite <-E.
  - intros net e'. rewrite elem_of_app, list_elem_of_singleton, R. split.
    + intros [H ?]. split; [by left|done].
    + intros [[H| ->] Hr]; [done|congruence].
  - intros t. rewrite of_type_put. destruct (decide _); [|done]. by apply put_distinct.
Qed.

Lemma refresh_caches now es m :
  caches es (byType (refresh now (Some es) m), cidrs (refresh now (Some es) m)).
Proof.
  assert (∀ done_ c, caches done_ c → caches (done_ ++ es) (foldl add_entry c es)) as H.
  { induction es as [|e es IH]; intros done_ c Hc; [by rewrite app_nil_r|]. cbn [foldl].
    replace (done_ ++ e :: es) with ((done_ ++ [e]) ++ es) by by rewrite <-app_assoc.
    by apply IH, caches_add. }
  specialize (H [] ([], []) caches_empty). simpl. by destruct (foldl add_entry ([], []) es).
Qed.

(** ** Iteration order *)
Definition reordered (m m' : IOCMatcher) : Prop :=
  Forall2 (λ p q : string * ioc_map, p.1 = q.1 ∧ p.2 ≡ₚ q.2) (byType m) (byType m') ∧
  cidrs m' = cidrs m.

Lemma reordered_type m m' t : reordered m m' → of_type (byType m) t ≡ₚ of_type (byType m') t.
Proof.
  intros [H _]. unfold of_type. induction H as [|[t1 l1] [t2 l2] b b' [E Hp] _ IH]; [done|].
  simpl in E, Hp. subst t2. simpl. by destruct (String.eqb t1 t).
Qed.

Lemma caches_reordered es m m' : caches es (byType m, cidrs m) → reordered m m' →
  caches es (byType m', cidrs m').
Proof.
  intros [S C R D] Hr. pose proof (λ t, reordered_type m m' t Hr) as Hp. destruct Hr as [_ ->].
  assert (∀ t k, get (of_type (byType m') t) k = get (of_type (byType m) t) k) as Hg.
  { intros t k. symmetry. by apply get_perm. }
  split; cbn [fst snd] in *.
  - intros t k rec. rewrite Hg. apply S.
  - intros e. rewrite Hg. apply C.
  - done.
  - intros t. unfold keys. rewrite <-(Hp t). apply D.
Qed.

(** ** What an indicator applies to *)
Definition indicates (e : IOCRecord) (f v : string) : bool :=
  let kind t := String.eqb (ioc_Type e) t in
  let value := to_lower (ioc_Value e) in
  (kind "ip" && existsb (String.eqb f) ip_fields &&
     match range_of e with
     | Some net => match ParseIP (trim_space v) with Some ip => Contains net ip | None => false end
     | None => String.eqb (to_lower v) value
     end) ||
  (kind "domain" && existsb (String.eqb f) domain_fields &&
     (let lower := to_lower (trim_suffix v ".") in
      String.eqb lower value || has_suffix lower ("." +:+ value))) ||
  (kind "hash" && existsb (String.eqb f) hash_fields && String.eqb (to_lower v) value) ||
  (kind "url" && existsb (String.eqb f) url_fields && contains (to_lower v) value).

(** A lookup that finds an indicator exactly when one of its kind applies. *)
Definition exact_for (es : list IOCRecord) (fs : list string) (lookup : string → option IOCRecord) : Prop :=
  ∀ f v, f ∈ fs →
    (∀ rec, lookup v = Some rec → rec ∈ es ∧ indicates rec f v = true) ∧
    (∀ e, e ∈ es → indicates e f v = true → is_Some (lookup v)).

Lemma head_filter_some {A} (P : A → bool) (l : list A) x :
  head (List.filter P l) = Some x → x ∈ l ∧ P x = true.
Proof.
  intros H. apply head_Some_elem_of in H. by apply list_elem_of_In, filter_In in H as [H%list_elem_of_In ?].
Qed.

Lemma head_filter_exists {A} (P : A → bool) (l : list A) x : x ∈ l → P x = true →
  is_Some (head (List.filter P l)).
Proof.
  intros Hx HP. assert (x ∈ List.filter P l) as H.
  { by apply list_elem_of_In, filter_In; split; [apply list_elem_of_In|]. }
  destruct (List.filter P l); [set_solver|by eexists].
Qed.

Lemma range_is_ip e net : range_of e = Some net → ioc_Type e = "ip".
Proof. unfold range_of. destruct (String.eqb_spec (ioc_Type e) "ip"); [done|done]. Qed.

(** An indicator applies to a field through its own kind only. *)
Definition field_kind (f : string) : string :=
  if existsb (String.eqb f) ip_fields then "ip" else
  if existsb (String.eqb f) domain_fields then "domain" else
  if existsb (String.eqb f) hash_fields then "hash" else
  if existsb (String.eqb f) url_fields then "url" else "".

Lemma fields_kinds :
  Forall (λ f, field_kind f = "ip" ∧ existsb (String.eqb f) domain_fields = false ∧
    existsb (String.eqb f) hash_fields = false ∧ existsb (String.eqb f) url_fields = false ∧
    existsb (String.eqb f) ip_fields = true) ip_fields ∧
  Forall (λ f, field_kind f = "domain" ∧ existsb (String.eqb f) ip_fields = false ∧
    existsb (String.eqb f) hash_fields = false ∧ existsb (String.eqb f) url_fields = false ∧
    existsb (String.eqb f) domain_fields = true) domain_fields ∧
  Forall (λ f, field_kind f = "hash" ∧ existsb (String.eqb f) ip_fields = false ∧
    existsb (String.eqb f) domain_fields = false ∧ existsb (String.eqb f) url_fields = false ∧
    existsb (String.eqb f) hash_fields = true) hash_fields ∧
  Forall (λ f, field_kind f = "url" ∧ existsb (String.eqb f) ip_fields = false ∧
    existsb (String.eqb f) domain_fields = false ∧ existsb (String.eqb f) hash_fields = false ∧
    existsb (String.eqb f) url_fields = true) url_fields.
Proof. split_and!; repeat constructor. Qed.

Section Lookups.
Context (es : list IOCRecord) (m : IOCMatcher) (Hm : caches es (byType m, cidrs m)).

Lemma indicates_ip e f v : f ∈ ip_fields → indicates e f v = true ↔
  ioc_Type e = "ip" ∧
  match range_of e with
  | Some net => ∃ ip, ParseIP (trim_space v) = Some ip ∧ Contains net ip = true
  | None => to_lower v = to_lower (ioc_Value e)
  end.
Proof.
  intros Hf. pose proof (proj1 fields_kinds) as H. rewrite Forall_forall in H.
  destruct (H f Hf) as (_ & E1 & E2 & E3 & E4). unfold indicates. cbv zeta.
  rewrite E1, E2, E3, E4, !andb_false_r, !andb_true_r, !orb_false_r, andb_true_iff, String.eqb_eq.
  destruct (range_of e) as [net|]; [|by rewrite String.eqb_eq].
  destruct (ParseIP (trim_space v)) as [ip|]; split; intros [? ?]; split; try done; by naive_solver.
Qed.

Lemma ip_exact : exact_for es ip_fields (ip_lookup m).
Proof.
  destruct Hm as [S C R D]. cbn [fst snd] in *. intros f v Hf. split.
  - intros rec. unfold ip_lookup. destruct (get _ (to_lower v)) as [r|] eqn:E.
    + intros [= ->]. destruct (S _ _ _ E) as (? & Ht & Hv & Hr). split; [done|].
      apply indicates_ip; [done|]. by rewrite Hr.
    + unfold matchCIDR. destruct (ParseIP (trim_space v)) as [ip|] eqn:Ei; [|done].
      destruct (head _) as [[net r]|] eqn:Eh; [|done]. intros [= ->].
      apply head_filter_some in Eh as [Hin Hc]. apply R in Hin as [Hin Hr]. split; [done|].
      apply indicates_ip; [done|]. rewrite Hr. split; [by apply (range_is_ip _ net)|by exists ip].
  - intros e He Hi. apply indicates_ip in Hi as [Ht Hi]; [|done]. unfold ip_lookup.
    destruct (get _ (to_lower v)) eqn:E; [by eexists|]. destruct (range_of e) as [net|] eqn:Er.
    + destruct Hi as (ip & Hp & Hc). unfold matchCIDR. rewrite Hp.
      destruct (head_filter_exists (λ c, Contains (ce_net c) ip) (cidrs m) (mkCidr net e)) as [c Hh];
        [by apply R|done|]. rewrite Hh. by eexists.
    + exfalso. destruct (C e He Er) as [r Hr]. rewrite Ht, <-Hi, E in Hr. done.
Qed.

Lemma indicates_domain e f v : f ∈ domain_fields → indicates e f v = true ↔
  ioc_Type e = "domain" ∧ let lower := to_lower (trim_suffix v ".") in
    lower = to_lower (ioc_Value e) ∨ has_suffix lower ("." +:+ to_lower (ioc_Value e)) = true.
Proof.
  intros Hf. pose proof (proj1 (proj2 fields_kinds)) as H. rewrite Forall_forall in H.
  destruct (H f Hf) as (_ & E1 & E2 & E3 & E4). unfold indicates. cbv zeta.
  rewrite E1, E2, E3, E4, !andb_false_r, !andb_true_r, !orb_false_r. cbn [andb orb]. rewrite ?orb_false_r.
  by rewrite andb_true_iff, orb_true_iff, !String.eqb_eq.
Qed.

Lemma not_range e t : ioc_Type e = t → t ≠ "ip" → range_of e = None.
Proof. intros <- Ht. unfold range_of. by destruct (String.eqb_spec (ioc_Type e) "ip"). Qed.

Lemma domain_exact : exact_for es domain_fields (domain_lookup m).
Proof.
  destruct Hm as [S C R D]. cbn [fst snd] in *. intros f v Hf. unfold domain_lookup. cbv zeta.
  set (lower := to_lower (trim_suffix v ".")). split.
  - intros rec. destruct (get _ lower) as [r|] eqn:E.
    + intros [= ->]. destruct (S _ _ _ E) as (? & Ht & Hv & Hr). split; [done|].
      apply indicates_domain; [done|]. split; [done|]. by left.
    + destruct (head _) as [[k r]|] eqn:Eh; [|done]. intros [= ->].
      apply head_filter_some in Eh as [Hin Hc]. apply elem_get in Hin; [|apply D].
      destruct (S _ _ _ Hin) as (? & Ht & Hv & Hr). split; [done|].
      apply indicates_domain; [done|]. split; [done|]. right. by rewrite Hv.
  - intros e He Hi. apply indicates_domain in Hi as [Ht Hi]; [|done]. cbv zeta in Hi. fold lower in Hi.
    destruct (get _ lower) eqn:E; [by eexists|].
    destruct (C e He) as [r Hr]; [by apply (not_range e "domain")|]. rewrite Ht in Hr.
    destruct Hi as [Hi|Hi]; [rewrite Hi in E; congruence|].
    destruct (head_filter_exists (λ p : string * IOCRecord, has_suffix lower ("." +:+ p.1))
      (of_type (byType m) "domain") (to_lower (ioc_Value e), r)) as [p Hh];
      [by apply get_Some_elem|done|]. rewrite Hh. by eexists.
Qed.

Lemma indicates_hash e f v : f ∈ hash_fields → indicates e f v = true ↔
  ioc_Type e = "hash" ∧ to_lower v = to_lower (ioc_Value e).
Proof.
  intros Hf. pose proof (proj1 (proj2 (proj2 fields_kinds))) as H. rewrite Forall_forall in H.
  destruct (H f Hf) as (_ & E1 & E2 & E3 & E4). unfold indicates. cbv zeta.
  rewrite E1, E2, E3, E4, !andb_false_r, !andb_true_r, !orb_false_r. cbn [andb orb]. rewrite ?orb_false_r.
  by rewrite andb_true_iff, !String.eqb_eq.
Qed.

Lemma hash_exact : exact_for es hash_fields (hash_lookup m).
Proof.
  destruct Hm as [S C R D]. cbn [fst snd] in *. intros f v Hf. unfold hash_lookup. split.
  - intros rec E. destruct (S _ _ _ E) as (? & Ht & Hv & Hr). split; [done|].
    by apply indicates_hash.
  - intros e He [Ht Hi]%indicates_hash; [|done].
    destruct (C e He) as [r Hr]; [by apply (not_range e "hash")|]. rewrite Ht, <-Hi in Hr. by exists r.
Qed.

Lemma indicates_url e f v : f ∈ url_fields → indicates e f v = true ↔
  ioc_Type e = "url" ∧ contains (to_lower v) (to_lower (ioc_Value e)) = true.
Proof.
  intros Hf. pose proof (proj2 (proj2 (proj2 fields_kinds))) as H. rewrite Forall_forall in H.
  destruct (H f Hf) as (_ & E1 & E2 & E3 & E4). unfold indicates. cbv zeta.
  rewrite E1, E2, E3, E4, !andb_false_r, !andb_true_r. cbn [andb orb].
  by rewrite andb_true_iff, String.eqb_eq.
Qed.

Lemma url_exact : exact_for es url_fields (url_lookup m).
Proof.
  destruct Hm as [S C R D]. cbn [fst snd] in *. intros f v Hf. unfold url_lookup. split.
  - intros rec. destruct (head _) as [[k r]|] eqn:Eh; [|done]. intros [= ->].
    apply head_filter_some in Eh as [Hin Hc]. apply elem_get in Hin; [|apply D].
    destruct (S _ _ _ Hin) as (? & Ht & Hv & Hr). split; [done|].
    apply indicates_url; [done|]. split; [done|]. by rewrite Hv.
  - intros e He [Ht Hi]%indicates_url; [|done].
    destruct (C e He) as [r Hr]; [by apply (not_range e "url")|]. rewrite Ht in Hr.
    destruct (head_filter_exists (λ p : string * IOCRecord, contains (to_lower v) p.1)
      (of_type (byType m) "url") (to_lower (ioc_Value e), r)) as [p Hh];
      [by apply get_Some_elem|done|]. rewrite Hh. by eexists.
Qed.

Lemma scan_elem lookup ev fs rec f v :
  mkIOCMatch rec f v ∈ scan lookup ev fs ↔ f ∈ fs ∧ stringVal ev f = Some v ∧ lookup v = Some rec.
Proof.
  unfold scan. rewrite list_elem_of_omap. split.
  - intros (f' & Hf & H). destruct (stringVal ev f') as [v'|] eqn:Ev; [|done]. simpl in H.
    destruct (lookup v') as [r|] eqn:El; [|done]. simpl in H. by injection H as -> -> ->.
  - intros (Hf & Hv & Hl). exists f. split; [done|]. rewrite Hv. simpl. by rewrite Hl.
Qed.

Lemma some_field e f v : indicates e f v = true →
  f ∈ ip_fields ∨ f ∈ domain_fields ∨ f ∈ hash_fields ∨ f ∈ url_fields.
Proof.
  assert (∀ l, existsb (String.eqb f) l = true → f ∈ l) as H.
  { intros l (x & Hx & ->%String.eqb_eq)%existsb_exists. by apply list_elem_of_In. }
  unfold indicates. cbv zeta. rewrite !orb_true_iff, !andb_true_iff. naive_solver.
Qed.

Lemma cache_empty : (zlen (byType m) =? 0) && (zlen (cidrs m) =? 0) = true → es = [].
Proof.
  unfold zlen. intros [H1 H2]%andb_true_iff. destruct es as [|e es'] eqn:E; [done|]. exfalso.
  destruct Hm as [S C R D]. cbn [fst snd] in *.
  destruct (byType m); [|by simpl in H1]. destruct (cidrs m); [|by simpl in H2].
  destruct (range_of e) as [net|] eqn:Er.
  - assert (mkCidr net e ∈ []) as Hin by (apply R; split; [left|done]). set_solver.
  - destruct (C e) as [r Hr]; [left|done|]. done.
Qed.

(** The matches of an event. *)
Lemma check_event_exact ev f v :
  (∀ rec, mkIOCMatch rec f v ∈ CheckEvent m ev →
     stringVal ev f = Some v ∧ rec ∈ es ∧ indicates rec f v = true) ∧
  (∀ e, e ∈ es → indicates e f v = true → stringVal ev f = Some v →
     ∃ rec, mkIOCMatch rec f v ∈ CheckEvent m ev).
Proof.
  pose proof ip_exact as Hi. pose proof domain_exact as Hd. pose proof hash_exact as Hh.
  pose proof url_exact as Hu. unfold CheckEvent.
  destruct (_ && _) eqn:Ez.
  { apply cache_empty in Ez. rewrite Ez. split; [set_solver|set_solver]. }
  split.
  - intros rec. rewrite !elem_of_app, !scan_elem.
    intros [(Hf & Hv & Hl)|[(Hf & Hv & Hl)|[(Hf & Hv & Hl)|(Hf & Hv & Hl)]]]; split; try done.
    + by apply (Hi f v Hf).
    + by apply (Hd f v Hf).
    + by apply (Hh f v Hf).
    + by apply (Hu f v Hf).
  - intros e He Hind Hv. destruct (some_field e f v Hind) as [Hf|[Hf|[Hf|Hf]]].
    + destruct (proj2 (Hi f v Hf) e He Hind) as [r Hr]. exists r. rewrite !elem_of_app, !scan_elem. by left.
    + destruct (proj2 (Hd f v Hf) e He Hind) as [r Hr]. exists r. rewrite !elem_of_app, !scan_elem. right. by left.
    + destruct (proj2 (Hh f v Hf) e He Hind) as [r Hr]. exists r. rewrite !elem_of_app, !scan_elem.
      do 2 right. by left.
    + destruct (proj2 (Hu f v Hf) e He Hind) as [r Hr]. exists r. rewrite !elem_of_app, !scan_elem.
      by do 3 right.
Qed.
End Lookups.

(** C25: after a refresh, in whatever order the maps are visited, a field is reported
    exactly when an active indicator applies to its value, and the indicator named
    is active and applies. *)
Theorem indicators_reported_exactly now es m0 m ev f v :
  reordered (refresh now (Some es) m0) m →
  (∀ rec, mkIOCMatch rec f v ∈ CheckEvent m ev →
     stringVal ev f = Some v ∧ rec ∈ es ∧ indicates rec f v = true) ∧
  (∀ e, e ∈ es → indicates e f v = true → stringVal ev f = Some v →
     ∃ rec, mkIOCMatch rec f v ∈ CheckEvent m ev).
Proof.
  intros Hr. apply check_event_exact.
  apply (caches_reordered es (refresh now (Some es) m0)); [apply refresh_caches|done].
Qed.

(** ** What the matcher shows *)
(** A trailing dot is cut from the queried name but not from the indicator: one
    that has it matches nothing. *)
Lemma dotted_domain_never_matches :
  let e := mkIOC "1" "domain" "evil.example." "" 8 90 in
  let m := refresh 0 (Some [e]) NewIOCMatcher in
  CheckEvent m [("query", VStr "evil.example.")] = [] ∧ CheckEvent m [("query", VStr "evil.example")] = [].
Proof. by vm_compute. Qed.

(** Of two indicators for nested domains, the iteration order decides which one is
    reported, and with it the severity. *)
Lemma nested_domains_by_chance :
  let outer := mkIOC "1" "domain" "example" "" 3 50 in
  let inner := mkIOC "2" "domain" "evil.example" "" 9 90 in
  let severities m := (λ h, ioc_Severity (im_IOC h)) <$> CheckEvent m [("query", VStr "x.evil.example")] in
  let m := refresh 0 (Some [outer; inner]) NewIOCMatcher in
  let m' := mkMatcher ((λ p, (p.1, reverse p.2)) <$> byType m) (cidrs m) 0 in
  reordered m m' ∧ severities m = [3] ∧ severities m' = [9].
Proof.
  cbv zeta. split; [|by vm_compute]. split; [|done]. cbn [byType].
  induction (byType (refresh _ _ _)) as [|[t l] b IH]; [constructor|]. rewrite fmap_cons.
  constructor; [|exact IH]. split; [done|]. simpl. by rewrite reverse_Permutation.
Qed.

(** An IPv6 address is compared as text unless the indicator is a range. *)
Lemma ipv6_spelling_matters :
  let m v := refresh 0 (Some [mkIOC "1" "ip" v "" 8 90]) NewIOCMatcher in
  let ev := [("dst_ip", VStr "2001:0db8::1")] in
  CheckEvent (m "2001:db8::1") ev = [] ∧ length (CheckEvent (m "2001:db8::1/128") ev) = 1%nat.
Proof. by vm_compute. Qed.

(** The count of events without a hash looks for a field the flat event of an
    endpoint does not have. *)
Lemma absent_hash_not_counted m ev : get_str ev "event_type" = None → hash_absent m ev = false.
Proof.
  intros H. unfold hash_absent, hashableEvent, stringVal. rewrite H. cbn. by rewrite andb_false_r.
Qed.

(** ** Witnesses *)
Definition toy_iocs : list IOCRecord :=
  [mkIOC "1" "ip" "185.220.101.0/24" "" 8 90; mkIOC "2" "domain" "Evil.example" "" 9 80].

Lemma indicators_reported_exactly_witness :
  let m := refresh 0 (Some toy_iocs) NewIOCMatcher in
  let ev := [("dst_ip", VStr "185.220.101.77"); ("query", VStr "c2.evil.EXAMPLE.")] in
  length (CheckEvent m ev) = 2%nat ∧
  (∀ rec, mkIOCMatch rec "dst_ip" "185.220.101.77" ∈ CheckEvent m ev →
     stringVal ev "dst_ip" = Some "185.220.101.77" ∧ rec ∈ toy_iocs ∧
     indicates rec "dst_ip" "185.220.101.77" = true) ∧
  (∀ e, e ∈ toy_iocs → indicates e "dst_ip" "185.220.101.77" = true →
     stringVal ev "dst_ip" = Some "185.220.101.77" →
     ∃ rec, mkIOCMatch rec "dst_ip" "185.220.101.77" ∈ CheckEvent m ev).
Proof.
  cbv zeta. split; [vm_compute; reflexivity|].
  apply (indicators_reported_exactly 0 toy_iocs NewIOCMatcher). split; [|reflexivity].
  induction (byType (refresh _ _ _)); constructor; [split; reflexivity|assumption].
Defined.
