(* ===== verification/Remediation.v ===== *)
(** * The auto-remediation engine

    [server/internal/remediation/engine.go] and [builtins.go]: the rules that an
    alert triggers, the exclusion list, the per-host cooldown, the actions, and
    the automatic rollback of an isolation.  Isolations go through the interface
    of [Isolator.v]; the answers of NATS, of the database and of a webhook during
    one rule execution are data ([Answers]).  The measured duration of an action
    and the database copy of the logs are left out. *)

From Stdlib Require Import Ascii.
From S2P Require Import Prelude GoStrings Isolation Isolator Glob.

#[local] Open Scope string_scope.
#[local] Open Scope list_scope.
#[local] Open Scope Z_scope.

Abbreviation params := (gmap string string) (only parsing).

Record RuleTrigger := mkRuleTrigger {
  EventType : string;
  MinSeverity : Z;
  Tags : list string;
  Conditions : params
}.

Record RemediationAction := mkRemediationAction {
  a_Type : string;
  Params : params;
  Delay : duration
}.

Record RemediationRule := mkRemediationRule {
  ID : string;
  Name : string;
  Enabled : bool;
  Trigger : RuleTrigger;
  Actions : list RemediationAction;
  Cooldown : duration;
  RollbackTimeout : duration
}.

Record ActionResult := mkActionResult {
  ActionType : string;
  Success : bool;
  Message : string
}.

Record ExecutionLog := mkExecutionLog {
  l_ID : string;
  RuleID : string;
  RuleName : string;
  TriggerID : string;
  l_AgentID : string;
  l_Actions : list ActionResult;
  Status : string;
  ExecutedAt : time;
  RollbackAt : option time;
  RollbackApproved : bool;
  RollbackDone : bool
}.

Record RemediationExclusion := mkRemediationExclusion {
  x_ID : string;
  HostnamePattern : string
}.

(** ** The outside world *)
Inductive Effect :=
| KillProcess (agent : string) (pid : Z) (reason : string)
| QuarantineFile (agent path alert : string)
| InsertAlert (agent title : string)
| Notification (payload : string)
| Webhook (method url : string) (timeout_seconds : Z) (extra : params).

(** What one action is told: the error of a publish, of an insert, of an HTTP
    request, or its status. *)
Record Answers := mkAnswers {
  publish : option string;
  insert : option string;
  http : res Z
}.

(** One execution of one rule: the clock when the cooldown is checked, when the
    execution starts and when it has ended, the fresh id, the answers. *)
Record Env := mkEnv {
  t_check : time;
  t_start : time;
  t_done : time;
  new_id : string;
  answers : nat → Answers
}.

(** A rollback goroutine: waiting for the timeout or the cancellation, or past
    the [select] by the timeout. *)
Record Timer := mkTimer {
  executionID : string;
  t_agent : string;
  due : time;
  cancelled : bool;
  fired : bool
}.

(** A delayed action's goroutine. *)
Record Delayed := mkDelayed {
  d_action : RemediationAction;
  d_agent : string;
  d_trigger : string;
  d_due : time
}.

Section Engine.
Context {I : Type} `{!Isolator I}.

Record Engine := mkEngine {
  rules : list RemediationRule;
  logs : list ExecutionLog;
  exclusions : list RemediationExclusion;
  exclusionsUnreadable : bool;
  lastExec : gmap string time;
  pendingRollbacks : gmap string string;   (** execution id to agent id *)
  isolator : option I;
  has_nats : bool;
  has_pool : bool;
  timers : list Timer;
  delayed : list Delayed;
  effects : list Effect
}.

Definition NewEngine (nats pool : bool) : Engine :=
  mkEngine [] [] [] false ∅ ∅ None nats pool [] [] [].

Definition set_rules (e : Engine) rs := mkEngine rs (logs e) (exclusions e)
  (exclusionsUnreadable e) (lastExec e) (pendingRollbacks e) (isolator e) (has_nats e)
  (has_pool e) (timers e) (delayed e) (effects e).
Definition set_logs (e : Engine) ls := mkEngine (rules e) ls (exclusions e)
  (exclusionsUnreadable e) (lastExec e) (pendingRollbacks e) (isolator e) (has_nats e)
  (has_pool e) (timers e) (delayed e) (effects e).
Definition set_exclusions (e : Engine) xs u := mkEngine (rules e) (logs e) xs u
  (lastExec e) (pendingRollbacks e) (isolator e) (has_nats e) (has_pool e) (timers e)
  (delayed e) (effects e).
Definition set_lastExec (e : Engine) m := mkEngine (rules e) (logs e) (exclusions e)
  (exclusionsUnreadable e) m (pendingRollbacks e) (isolator e) (has_nats e) (has_pool e)
  (timers e) (delayed e) (effects e).
Definition set_rollbacks (e : Engine) p ts := mkEngine (rules e) (logs e) (exclusions e)
  (exclusionsUnreadable e) (lastExec e) p (isolator e) (has_nats e) (has_pool e) ts
  (delayed e) (effects e).
Definition SetIsolator (i : I) (e : Engine) := mkEngine (rules e) (logs e) (exclusions e)
  (exclusionsUnreadable e) (lastExec e) (pendingRollbacks e) (Some i) (has_nats e)
  (has_pool e) (timers e) (delayed e) (effects e).
Definition set_delayed (e : Engine) ds := mkEngine (rules e) (logs e) (exclusions e)
  (exclusionsUnreadable e) (lastExec e) (pendingRollbacks e) (isolator e) (has_nats e)
  (has_pool e) (timers e) ds (effects e).
Definition emit (e : Engine) (x : Effect) := mkEngine (rules e) (logs e) (exclusions e)
  (exclusionsUnreadable e) (lastExec e) (pendingRollbacks e) (isolator e) (has_nats e)
  (has_pool e) (timers e) (delayed e) (effects e ++ [x]).

(** ** Rules *)
Fixpoint replace_rule (r : RemediationRule) (rs : list RemediationRule)
    : option (list RemediationRule) :=
  match rs with
  | [] => None
  | q :: rs' => if String.eqb (ID q) (ID r) then Some (r :: rs')
                else cons q <$> replace_rule r rs'
  end.

Definition AddRule (r : RemediationRule) (e : Engine) : Engine :=
  match replace_rule r (rules e) with
  | Some rs => set_rules e rs
  | None => set_rules e (rules e ++ [r])
  end.

Definition with_enabled (b : bool) (r : RemediationRule) : RemediationRule :=
  mkRemediationRule (ID r) (Name r) b (Trigger r) (Actions r) (Cooldown r) (RollbackTimeout r).

Fixpoint enable_first (id : string) (b : bool) (rs : list RemediationRule)
    : list RemediationRule :=
  match rs with
  | [] => []
  | r :: rs' => if String.eqb (ID r) id then with_enabled b r :: rs'
                else r :: enable_first id b rs'
  end.
Definition EnableRule (id : string) (b : bool) (e : Engine) : Engine :=
  set_rules e (enable_first id b (rules e)).

Definition GetRuleByID (e : Engine) (id : string) : option RemediationRule :=
  List.find (λ r, String.eqb (ID r) id) (rules e).

Definition triggerMatches (t : RuleTrigger) (eventType : string) (severity : Z)
    (tags : list string) : bool :=
  if negb (String.eqb (EventType t) "") && negb (equal_fold (EventType t) eventType) then false else
  if severity <? MinSeverity t then false else
  if (0 <? zlen (Tags t)) &&
     negb (existsb (λ rt, existsb (equal_fold rt) tags) (Tags t)) then false else
  true.

Definition DryRun (e : Engine) (eventType : string) (severity : Z) (tags : list string)
    : list string :=
  Name <$> filter (λ r, Enabled r && triggerMatches (Trigger r) eventType severity tags = true)
             (rules e).

(** ** Exclusions *)

(** What loading the table answered: the table is absent, a list of rows of
    which one may not be readable, or an error of the check, the query or the
    iteration. *)
Inductive Load :=
| NoTable
| Rows (l : list (option RemediationExclusion)) (iteration_error : option string)
| QueryError (err : string).

Fixpoint scan_rows (l : list (option RemediationExclusion)) : option (list RemediationExclusion) :=
  match l with
  | [] => Some []
  | None :: _ => None
  | Some x :: l' => cons x <$> scan_rows l'
  end.

Definition LoadExclusionsFromDB (answer : Load) (e : Engine) : Engine * option string :=
  if negb (has_pool e) then (e, None) else
  let unreadable err := (set_exclusions e (exclusions e) true, Some err) in
  match answer with
  | QueryError err => unreadable err
  | NoTable => (set_exclusions e [] false, None)
  | Rows l it =>
      match scan_rows l, it with
      | None, _ => unreadable "remediation: 除外行を読み取れませんでした"
      | _, Some err => unreadable ("remediation: 除外リストの走査に失敗しました: " +:+ err)
      | Some xs, None => (set_exclusions e xs false, None)
      end
  end.

Definition AddExclusion (fresh : string) (x : RemediationExclusion) (e : Engine) : Engine :=
  let x := if String.eqb (x_ID x) "" then mkRemediationExclusion fresh (HostnamePattern x) else x in
  set_exclusions e (exclusions e ++ [x]) (exclusionsUnreadable e).

Fixpoint remove_first (id : string) (l : list RemediationExclusion)
    : list RemediationExclusion * bool :=
  match l with
  | [] => ([], false)
  | x :: l' => if String.eqb (x_ID x) id then (l', true)
               else let '(r, f) := remove_first id l' in (x :: r, f)
  end.
Definition RemoveExclusion (id : string) (e : Engine) : Engine * bool :=
  let '(xs, found) := remove_first id (exclusions e) in
  (set_exclusions e xs (exclusionsUnreadable e), found).

Definition IsExcluded (e : Engine) (hostname : string) : bool :=
  if exclusionsUnreadable e then true else
  if String.eqb hostname "" then false else
  existsb (λ x, matched (HostnamePattern x) hostname) (exclusions e).

(** ** Actions *)
Definition param (m : params) (k : string) : string := default "" (m !! k).

(** [strconv.ParseUint(s, 10, 32)] with its error dropped, converted to 32 bits:
    zero for bad syntax, the largest value when out of range. *)
Definition parse_pid (s : string) : Z :=
  if starts_with_digit s then
    let '(n, rest) := scan_digits s 0 in
    if String.eqb rest "" then Z.min n (2 ^ 32 - 1) else 0
  else 0.

(** [fmt.Sscanf(s, "%d", &n)] with a positive result: blanks, a sign, digits
    that fit an [int]. *)
Fixpoint skip_blanks (s : string) : string :=
  match s with
  | String c s' => if is_space c && negb (Ascii.eqb c (chr 10)) then skip_blanks s' else s
  | EmptyString => EmptyString
  end.
Definition scan_timeout (s : string) : option Z :=
  let s := skip_blanks s in
  let s := if has_prefix s "+" then sdrop 1 s else s in
  if starts_with_digit s then
    let n := (scan_digits s 0).1 in
    if (0 <? n) && (n <? 2 ^ 63) then Some n else None
  else None.

Definition isolate_request (agent reason alert label : string) : Request :=
  mkRequest agent reason alert OriginRemediation "" label "".

Definition with_isolator (e : Engine) (i : I) : Engine := SetIsolator i e.

Definition actionIsolateNetwork (agent alert : string) (e : Engine) : Engine * bool * string :=
  match isolator e with
  | None => (e, false, "isolation gatekeeper not configured")
  | Some i =>
      let '(i', r) := isolate i (isolate_request agent "auto-remediation" alert "remediation") in
      let e := with_isolator e i' in
      match error r with
      | Some err => (e, false, "isolation dispatch failed: " +:+ err)
      | None =>
          if negb (Executed (r_Outcome (result r)))
          then (e, false, "isolation suppressed (" +:+ r_Outcome (result r) +:+ "): "
                            +:+ r_Reason (result r))
          else (e, true, "isolation command sent to agent " +:+ agent)
      end
  end.

Definition actionUnisolateNetwork (agent alert : string) (e : Engine) : Engine * bool * string :=
  match isolator e with
  | None => (e, false, "isolation gatekeeper not configured")
  | Some i =>
      let '(i', r) := unisolate i (isolate_request agent "auto-remediation rollback" alert
                                     "remediation rollback") in
      let e := with_isolator e i' in
      match error r with
      | Some err => (e, false, "un-isolation dispatch failed: " +:+ err)
      | None =>
          if negb (Executed (r_Outcome (result r)))
          then (e, false, "un-isolation suppressed (" +:+ r_Outcome (result r) +:+ "): "
                            +:+ r_Reason (result r))
          else (e, true, "un-isolation command sent to agent " +:+ agent)
      end
  end.

Definition after_publish (a : Answers) (e : Engine) (x : Effect) (ok : string)
    : Engine * bool * string :=
  let e := emit e x in
  match publish a with
  | Some err => (e, false, "NATS publish failed: " +:+ err)
  | None => (e, true, ok)
  end.

Definition actionKillProcess (a : Answers) (agent alert pid name : string) (e : Engine)
    : Engine * bool * string :=
  if negb (has_nats e) then (e, false, "NATS not available") else
  after_publish a e
    (KillProcess agent (parse_pid pid)
       ("auto-remediation (alert=" +:+ alert +:+ " process=" +:+ name +:+ ")"))
    ("kill process command sent (pid=" +:+ pid +:+ " name=" +:+ name +:+ ")").

Definition actionQuarantineFile (a : Answers) (agent alert path : string) (e : Engine)
    : Engine * bool * string :=
  if negb (has_nats e) then (e, false, "NATS not available") else
  after_publish a e (QuarantineFile agent path alert)
    ("quarantine command sent for " +:+ path).

Definition actionCreateAlert (a : Answers) (agent title : string) (e : Engine)
    : Engine * bool * string :=
  if negb (has_pool e) then (e, true, "alert creation skipped (no DB)") else
  let e := emit e (InsertAlert agent title) in
  match insert a with
  | Some err => (e, false, "DB insert failed: " +:+ err)
  | None => (e, true, "auto-remediation alert created")
  end.

Definition quoted (s : string) : string := String (chr 34) (s +:+ String (chr 34) "").

Definition notify_payload (agent trigger message : string) : string :=
  "{" +:+ quoted "type" +:+ ":" +:+ quoted "remediation_notify" +:+ ","
      +:+ quoted "agent_id" +:+ ":" +:+ quoted agent +:+ ","
      +:+ quoted "trigger_id" +:+ ":" +:+ quoted trigger +:+ ","
      +:+ quoted "message" +:+ ":" +:+ quoted message +:+ "}".

Definition actionNotify (a : Answers) (agent trigger message : string) (e : Engine)
    : Engine * bool * string :=
  if negb (has_nats e) then (e, true, "notification logged (NATS unavailable)") else
  after_publish a e (Notification (notify_payload agent trigger message)) "notification published".

Definition actionWebhook (a : Answers) (ps : params) (e : Engine) : Engine * bool * string :=
  let url := param ps "url" in
  if String.eqb url "" then (e, false, "webhook: url param is required") else
  let method := if String.eqb (param ps "method") "" then "POST" else param ps "method" in
  let timeoutSec :=
    match (if String.eqb (param ps "timeout_seconds") "" then None
           else scan_timeout (param ps "timeout_seconds")) with
    | Some n => n
    | None => 10
    end in
  let extra := delete "url" (delete "method" (delete "timeout_seconds" ps)) in
  let e := emit e (Webhook method url timeoutSec extra) in
  match http a with
  | Err err => (e, false, "webhook: HTTP request failed: " +:+ err)
  | Ok code =>
      if (code <? 200) || (300 <=? code)
      then (e, false, "webhook: server returned HTTP " +:+ itoa code)
      else (e, true, "webhook: delivered to " +:+ url +:+ " (HTTP " +:+ itoa code +:+ ")")
  end.

Definition action_body (a : Answers) (act : RemediationAction) (agent trigger : string)
    (e : Engine) : Engine * bool * string :=
  let t := a_Type act in
  let ps := Params act in
  if String.eqb t "isolate_network" then actionIsolateNetwork agent trigger e else
  if String.eqb t "un_isolate_network" then actionUnisolateNetwork agent trigger e else
  if String.eqb t "kill_process" then
    actionKillProcess a agent trigger (param ps "pid") (param ps "process_name") e else
  if String.eqb t "quarantine_file" then
    actionQuarantineFile a agent trigger (param ps "file_path") e else
  if String.eqb t "create_alert" then
    actionCreateAlert a agent
      (if String.eqb (param ps "title") "" then "Auto-remediation triggered alert"
       else param ps "title") e else
  if String.eqb t "notify" then actionNotify a agent trigger (param ps "message") e else
  if String.eqb t "webhook" then actionWebhook a ps e else
  (e, false, "unknown action type: " +:+ t).

Definition dispatchAction (a : Answers) (act : RemediationAction) (agent trigger : string)
    (e : Engine) : Engine * ActionResult :=
  let '(e, ok, msg) := action_body a act agent trigger e in
  (e, mkActionResult (a_Type act) ok msg).

(** ** Executing a rule *)
Fixpoint run_actions (an : nat → Answers) (k : nat) (acts : list RemediationAction)
    (agent trigger : string) (start : time) (e : Engine) : Engine * list ActionResult :=
  match acts with
  | [] => (e, [])
  | act :: acts' =>
      let '(e, r) :=
        if 0 <? Delay act then
          (set_delayed e (delayed e ++ [mkDelayed act agent trigger (start + Delay act)]),
           mkActionResult (a_Type act) true
             ("scheduled with " +:+ duration_string (Delay act) +:+ " delay"))
        else dispatchAction (an k) act agent trigger e in
      let '(e, rs) := run_actions an (S k) acts' agent trigger start e in
      (e, r :: rs)
  end.

Definition status_of (rs : list ActionResult) : string :=
  let ok := zlen (filter (λ r, Success r = true) rs) in
  if ok =? zlen rs then "success" else
  if ok =? 0 then "failed" else "partial".

Definition executeRule (v : Env) (r : RemediationRule) (trigger agent : string) (e : Engine)
    : Engine * ExecutionLog :=
  let '(e, rs) := run_actions (answers v) 0 (Actions r) agent trigger (t_start v) e in
  (e, mkExecutionLog (new_id v) (ID r) (Name r) trigger agent rs (status_of rs) (t_start v)
        (if 0 <? RollbackTimeout r then Some (t_start v + RollbackTimeout r) else None)
        false false).

Definition executionIsolated (l : ExecutionLog) : bool :=
  existsb (λ a, String.eqb (ActionType a) "isolate_network" && Success a) (l_Actions l).

Definition scheduleRollback (now timeout : time) (id agent : string) (e : Engine) : Engine :=
  set_rollbacks e (<[id := agent]> (pendingRollbacks e))
    (timers e ++ [mkTimer id agent (now + timeout) false false]).

(** ** Triggering *)
Definition cooldownKey (ruleID agentID : string) : string :=
  ruleID +:+ String (chr 0) agentID.

(** A key never written counts as the zero time, longer ago than any cooldown. *)
Definition in_cooldown (e : Engine) (now : time) (r : RemediationRule) (agent : string) : bool :=
  (0 <? Cooldown r) &&
  match lastExec e !! cooldownKey (ID r) agent with
  | Some last => now - last <? Cooldown r
  | None => false
  end.

Definition run_rule (v : Env) (r : RemediationRule) (alert agent : string) (e : Engine)
    : Engine * ExecutionLog :=
  let '(e, l) := executeRule v r alert agent e in
  let e := set_lastExec e (<[cooldownKey (ID r) agent := t_done v]> (lastExec e)) in
  let e := set_logs e (logs e ++ [l]) in
  let e := if (0 <? RollbackTimeout r) && executionIsolated l
           then scheduleRollback (t_done v) (RollbackTimeout r) (l_ID l) agent e else e in
  (e, l).

Fixpoint run_rules (vs : nat → Env) (k : nat) (rs : list RemediationRule)
    (alert agent : string) (severity : Z) (tags : list string) (e : Engine)
    : Engine * list ExecutionLog :=
  match rs with
  | [] => (e, [])
  | r :: rs' =>
      if negb (Enabled r) || negb (triggerMatches (Trigger r) "alert" severity tags)
         || in_cooldown e (t_check (vs k)) r agent
      then run_rules vs (S k) rs' alert agent severity tags e
      else
        let '(e, l) := run_rule (vs k) r alert agent e in
        let '(e, ls) := run_rules vs (S k) rs' alert agent severity tags e in
        (e, l :: ls)
  end.

Definition TriggerOnAlert (vs : nat → Env) (alert agent hostname : string) (severity : Z)
    (tags : list string) (e : Engine) : Engine * list ExecutionLog :=
  if IsExcluded e hostname then (e, []) else
  run_rules vs 0 (rules e) alert agent severity tags e.

(** The [limit] most recent executions, latest first. *)
Definition localLogs (e : Engine) (limit : Z) : list ExecutionLog :=
  take (Z.to_nat limit) (reverse (logs e)).

(** ** Rollback *)
Definition ListPendingRollbacks (e : Engine) : list (string * string) :=
  map_to_list (pendingRollbacks e).

(** Mark the first log with that id. *)
Fixpoint mark_first (id : string) (f : ExecutionLog → ExecutionLog) (l : list ExecutionLog)
    : list ExecutionLog :=
  match l with
  | [] => []
  | x :: l' => if String.eqb (l_ID x) id then f x :: l' else x :: mark_first id f l'
  end.

Definition approved_log (l : ExecutionLog) : ExecutionLog :=
  mkExecutionLog (l_ID l) (RuleID l) (RuleName l) (TriggerID l) (l_AgentID l) (l_Actions l)
    (Status l) (ExecutedAt l) (RollbackAt l) true (RollbackDone l).
Definition done_log (l : ExecutionLog) : ExecutionLog :=
  mkExecutionLog (l_ID l) (RuleID l) (RuleName l) (TriggerID l) (l_AgentID l) (l_Actions l)
    (Status l) (ExecutedAt l) (RollbackAt l) (RollbackApproved l) true.

Definition cancel_timer (id : string) (t : Timer) : Timer :=
  if String.eqb (executionID t) id
  then mkTimer (executionID t) (t_agent t) (due t) true (fired t) else t.
Definition fire_timer (t : Timer) : Timer :=
  mkTimer (executionID t) (t_agent t) (due t) (cancelled t) true.

Definition ApproveExecution (id : string) (e : Engine) : Engine * bool :=
  match pendingRollbacks e !! id with
  | None => (e, false)
  | Some _ =>
      let e := set_rollbacks e (delete id (pendingRollbacks e)) (cancel_timer id <$> timers e) in
      (set_logs e (mark_first id approved_log (logs e)), true)
  end.

(** The rest of a rollback goroutine whose [select] took the timeout. *)
Definition run_rollback (t : Timer) (e : Engine) : Engine :=
  let e := set_rollbacks e (delete (executionID t) (pendingRollbacks e)) (timers e) in
  let '(e, _, _) := actionUnisolateNetwork (t_agent t) (executionID t) e in
  set_logs e (mark_first (executionID t) done_log (logs e)).

(** ** Steps of the engine

    Everything that can happen: an alert, an approval, a configuration call, and
    the steps of the goroutines.  A rollback goroutine takes its [select] in one
    step and acts in another: an approval may come between the two.  The ids of
    executions are fresh ([uuid.New]). *)
Definition fresh_ids (vs : nat → Env) (e : Engine) : Prop :=
  (∀ j k, new_id (vs j) = new_id (vs k) → j = k) ∧
  ∀ k l, l ∈ logs e → l_ID l ≠ new_id (vs k).

Inductive step : Engine → Engine → Prop :=
| step_alert vs alert agent host sev tags e : fresh_ids vs e →
    step e (TriggerOnAlert vs alert agent host sev tags e).1
| step_approve id e : step e (ApproveExecution id e).1
| step_add r e : step e (AddRule r e)
| step_enable id b e : step e (EnableRule id b e)
| step_load answer e : step e (LoadExclusionsFromDB answer e).1
| step_exclude fresh x e : step e (AddExclusion fresh x e)
| step_include id e : step e (RemoveExclusion id e).1
| step_delayed a ds1 d ds2 e : delayed e = ds1 ++ d :: ds2 →
    step e (dispatchAction a (d_action d) (d_agent d) (d_trigger d)
              (set_delayed e (ds1 ++ ds2))).1
| step_timer_fires now ts1 t ts2 e : timers e = ts1 ++ t :: ts2 → fired t = false →
    due t <= now → step e (set_rollbacks e (pendingRollbacks e) (ts1 ++ fire_timer t :: ts2))
| step_timer_cancelled ts1 t ts2 e : timers e = ts1 ++ t :: ts2 → fired t = false →
    cancelled t = true → step e (set_rollbacks e (pendingRollbacks e) (ts1 ++ ts2))
| step_rollback ts1 t ts2 e : timers e = ts1 ++ t :: ts2 → fired t = true →
    step e (run_rollback t (set_rollbacks e (pendingRollbacks e) (ts1 ++ ts2))).
End Engine.

Arguments Engine : clear implicits.

(** ** The built-in rules *)
Definition act (t : string) (ps : list (string * string)) : RemediationAction :=
  mkRemediationAction t (list_to_map ps) 0.

Definition BuiltinRules : list RemediationRule :=
  [mkRemediationRule "rem-001-critical-isolate" "Critical Alert: Auto-Isolate Endpoint" true
     (mkRuleTrigger "alert" 9 [] ∅)
     [act "isolate_network" [("reason", "critical_severity_auto_isolation")];
      act "notify" [("message", "Endpoint automatically isolated due to critical severity alert")]]
     (15 * minute) 0;
   mkRemediationRule "rem-002-ransomware-response" "Ransomware: Isolate and Kill Process" true
     (mkRuleTrigger "alert" 8 ["ransomware"; "file_encryption"] ∅)
     [act "isolate_network" [("reason", "ransomware_containment")];
      act "kill_process" [("process_name", "suspicious"); ("reason", "ransomware_kill")];
      act "create_alert" [("title", "Ransomware auto-containment executed")];
      act "notify" [("message", "Ransomware detected: endpoint isolated and suspicious process killed")]]
     (30 * minute) 0;
   mkRemediationRule "rem-003-malware-quarantine" "Malware Hash Match: Quarantine File" true
     (mkRuleTrigger "alert" 7 ["malware"; "hash_match"; "ioc_match"] ∅)
     [act "quarantine_file" [("reason", "malware_hash_match")];
      act "notify" [("message", "Malicious file quarantined due to hash match")]]
     (5 * minute) 0;
   mkRemediationRule "rem-004-brute-force-block" "Brute Force: Block Source IP" true
     (mkRuleTrigger "alert" 6 ["brute_force"; "auth_failure"; "failed_login"] ∅)
     [act "notify" [("message", "Brute force detected: source IP block initiated after 10+ failures")];
      act "create_alert" [("title", "Brute force auto-block triggered")]]
     (10 * minute) 0].

Definition LoadBuiltins {I} (e : Engine I) : Engine I := foldl (λ e r, AddRule r e) e BuiltinRules.
