(* ===== verification/RemediationProofs.v ===== *)
(** * The auto-remediation engine does what its log says

    Which rules an alert executes after any history of alerts, the commands an execution puts on the bus
    against what its log reports, the exclusion list, and the rollback state
    machine over every reachable state; then the runs in which a host stays cut
    off, or is put back although an analyst kept it isolated. *)

From stdpp Require Import relations.
From S2P Require Import Prelude GoStrings Isolation IsolationProofs Isolator Glob Remediation.

#[local] Open Scope string_scope.
#[local] Open Scope list_scope.
#[local] Open Scope Z_scope.

Section Proofs.
Context {I : Type} `{!Isolator I}.
Implicit Types (e : Engine I) (l : ExecutionLog).

(** ** Cooldown keys *)
Lemma append_cancel_l a b c : a +:+ b = a +:+ c → b = c.
Proof. induction a; simpl; [done|]. intros [= H]. auto. Qed.

Definition no_nul (s : string) : Prop := contains_char (Ascii.eqb (chr 0)) s = false.

(** The separator occurs in no identifier, so keys do not collide. *)
Lemma cooldownKey_inj r1 a1 r2 a2 : no_nul r1 → no_nul r2 →
  cooldownKey r1 a1 = cooldownKey r2 a2 → r1 = r2 ∧ a1 = a2.
Proof.
  unfold cooldownKey, no_nul. revert r2.
  induction r1 as [|c r1 IH]; intros [|d r2] H1 H2 H; simpl in *.
  - by injection H.
  - injection H as <- _. discriminate H2.
  - injection H as -> _. discriminate H1.
  - injection H as -> H. apply orb_false_iff in H1 as [_ H1], H2 as [_ H2].
    by destruct (IH _ H1 H2 H) as [-> ->].
Qed.

Lemma append_cancel_r a b c : a +:+ c = b +:+ c → a = b.
Proof.
  revert b. induction a as [|x a IH]; intros [|y b] H; simpl in *; [done| | |].
  - apply (f_equal String.length) in H. simpl in H. rewrite append_length in H. lia.
  - apply (f_equal String.length) in H. simpl in H. rewrite append_length in H. lia.
  - injection H as -> H. f_equal. auto.
Qed.

Lemma cooldownKey_agent r1 r2 a : cooldownKey r1 a = cooldownKey r2 a → r1 = r2.
Proof. apply append_cancel_r. Qed.

(** ** What an action leaves alone *)

(** Everything but the isolator, the delayed actions and the effects. *)
Definition same_core e e' : Prop :=
  rules e' = rules e ∧ logs e' = logs e ∧ exclusions e' = exclusions e ∧
  exclusionsUnreadable e' = exclusionsUnreadable e ∧ lastExec e' = lastExec e ∧
  pendingRollbacks e' = pendingRollbacks e ∧ timers e' = timers e ∧
  has_nats e' = has_nats e ∧ has_pool e' = has_pool e.

Lemma same_core_refl e : same_core e e.
Proof. done. Qed.

Lemma same_core_trans e1 e2 e3 : same_core e1 e2 → same_core e2 e3 → same_core e1 e3.
Proof. unfold same_core. intuition congruence. Qed.

Ltac core := repeat case_match; simplify_eq; simpl; by repeat split.

Lemma isolate_core agent alert e : same_core e (actionIsolateNetwork agent alert e).1.1.
Proof. unfold actionIsolateNetwork. core. Qed.

Lemma unisolate_core agent alert e : same_core e (actionUnisolateNetwork agent alert e).1.1.
Proof. unfold actionUnisolateNetwork. core. Qed.

Lemma action_body_core a ac agent trigger e :
  same_core e (action_body a ac agent trigger e).1.1.
Proof.
  unfold action_body. cbn zeta.
  repeat case_match; try apply isolate_core; try apply unisolate_core; try done;
    unfold actionKillProcess, actionQuarantineFile, actionCreateAlert, actionNotify,
      actionWebhook, after_publish; cbn zeta; core.
Qed.

Lemma dispatch_core a ac agent trigger e :
  same_core e (dispatchAction a ac agent trigger e).1.
Proof.
  unfold dispatchAction. pose proof (action_body_core a ac agent trigger e).
  by destruct (action_body a ac agent trigger e) as [[e' ok] msg].
Qed.

Lemma run_actions_core an k acts agent trigger start e :
  same_core e (run_actions an k acts agent trigger start e).1.
Proof.
  revert k e. induction acts as [|ac acts IH]; intros k e; [done|]. cbn [run_actions].
  destruct (0 <? Delay ac).
  - specialize (IH (S k) (set_delayed e (delayed e ++ [mkDelayed ac agent trigger (start + Delay ac)]))).
    by destruct (run_actions _ _ _ _ _ _ _) as [e' rs].
  - pose proof (dispatch_core (an k) ac agent trigger e) as H1.
    destruct (dispatchAction (an k) ac agent trigger e) as [e1 r1].
    specialize (IH (S k) e1). destruct (run_actions _ _ _ _ _ _ _) as [e' rs].
    by eapply same_core_trans.
Qed.

(** ** Commands on the bus *)
Definition engine_bus e : list Command := match isolator e with Some i => bus i | None => [] end.

(** The command an action puts on the bus, going by what its result says. *)
Definition reported (agent : string) (ac : RemediationAction) (res : ActionResult) : list Command :=
  if negb (Success res) || (0 <? Delay ac) then [] else
  if String.eqb (a_Type ac) "isolate_network" then [Cut agent] else
  if String.eqb (a_Type ac) "un_isolate_network" then [Rejoin agent] else [].

Context `{!IsolatorOk I}.

Lemma isolate_reported agent alert e :
  let '(e', ok, _) := actionIsolateNetwork agent alert e in
  engine_bus e' = engine_bus e ++ (if ok : bool then [Cut agent] else []).
Proof.
  unfold actionIsolateNetwork, engine_bus.
  destruct (isolator e) as [i|] eqn:Ei; [|by rewrite Ei].
  pose proof (isolate_bus i (isolate_request agent "auto-remediation" alert "remediation")) as Hb.
  pose proof (isolate_error i (isolate_request agent "auto-remediation" alert "remediation")) as He.
  destruct (isolate _ _) as [i' rp]. simpl in *.
  destruct (error rp); simpl; [by rewrite Hb, He|].
  destruct (Executed _); simpl; by rewrite Hb.
Qed.

Lemma unisolate_reported agent alert e :
  let '(e', ok, _) := actionUnisolateNetwork agent alert e in
  engine_bus e' = engine_bus e ++ (if ok : bool then [Rejoin agent] else []).
Proof.
  unfold actionUnisolateNetwork, engine_bus.
  destruct (isolator e) as [i|] eqn:Ei; [|by rewrite Ei].
  pose proof (unisolate_bus i (isolate_request agent "auto-remediation rollback" alert
    "remediation rollback")) as Hb.
  pose proof (unisolate_error i (isolate_request agent "auto-remediation rollback" alert
    "remediation rollback")) as He.
  destruct (unisolate _ _) as [i' rp]. simpl in *.
  destruct (error rp); simpl; [by rewrite Hb, He|].
  destruct (Executed _); simpl; by rewrite Hb.
Qed.

Definition named (agent type : string) (ok : bool) : list Command :=
  if negb ok then [] else
  if String.eqb type "isolate_network" then [Cut agent] else
  if String.eqb type "un_isolate_network" then [Rejoin agent] else [].

Lemma reported_now agent ac res : Delay ac <= 0 →
  reported agent ac res = named agent (a_Type ac) (Success res).
Proof.
  intros Hd. unfold reported, named. assert ((0 <? Delay ac) = false) as -> by lia.
  by rewrite orb_false_r.
Qed.

Lemma action_body_reported a ac agent trigger e :
  let '(e', ok, _) := action_body a ac agent trigger e in
  engine_bus e' = engine_bus e ++ named agent (a_Type ac) ok.
Proof.
  unfold action_body, named. cbn zeta.
  destruct (String.eqb_spec (a_Type ac) "isolate_network") as [E|N1].
  { pose proof (isolate_reported agent trigger e) as H.
    destruct (actionIsolateNetwork _ _ _) as [[e' ok] m]. by destruct ok. }
  destruct (String.eqb_spec (a_Type ac) "un_isolate_network") as [E|N2].
  { pose proof (unisolate_reported agent trigger e) as H.
    destruct (actionUnisolateNetwork _ _ _) as [[e' ok] m]. by destruct ok. }
  unfold actionKillProcess, actionQuarantineFile, actionCreateAlert, actionNotify,
    actionWebhook, after_publish; cbn zeta.
  repeat case_match; simplify_eq; simpl; rewrite ?app_nil_r; done.
Qed.

Lemma dispatch_reported a ac agent trigger e : Delay ac <= 0 →
  let '(e', res) := dispatchAction a ac agent trigger e in
  engine_bus e' = engine_bus e ++ reported agent ac res ∧ ActionType res = a_Type ac.
Proof.
  intros Hd. unfold dispatchAction. pose proof (action_body_reported a ac agent trigger e) as H.
  destruct (action_body _ _ _ _ _) as [[e' ok] m]. by rewrite reported_now.
Qed.

Lemma run_actions_reported an k acts agent trigger start e :
  let '(e', rs) := run_actions an k acts agent trigger start e in
  engine_bus e' = engine_bus e ++ mjoin (zip_with (reported agent) acts rs) ∧
  ActionType <$> rs = a_Type <$> acts.
Proof.
  revert k e. induction acts as [|ac acts IH]; intros k e; cbn [run_actions].
  { simpl. by rewrite app_nil_r. }
  destruct (Z.ltb_spec 0 (Delay ac)) as [Hd|Hd].
  - specialize (IH (S k) (set_delayed e (delayed e ++ [mkDelayed ac agent trigger (start + Delay ac)]))).
    destruct (run_actions _ _ _ _ _ _ _) as [e' rs]. destruct IH as [-> H].
    cbn [zip_with mjoin list_join]. unfold reported at 2. simpl.
    assert ((0 <? Delay ac) = true) as -> by lia. split; [done|]. by f_equal.
  - pose proof (dispatch_reported (an k) ac agent trigger e Hd) as H1.
    destruct (dispatchAction (an k) ac agent trigger e) as [e1 r1]. destruct H1 as [H1 T1].
    specialize (IH (S k) e1). destruct (run_actions _ _ _ _ _ _ _) as [e' rs].
    destruct IH as [-> H]. rewrite H1. cbn [zip_with mjoin list_join].
    rewrite app_assoc. split; [done|]. simpl. by f_equal.
Qed.

(** ** One alert *)
Fixpoint numbered (k : nat) (rs : list RemediationRule) : list (nat * RemediationRule) :=
  match rs with [] => [] | r :: rs' => (k, r) :: numbered (S k) rs' end.

Lemma numbered_elem k rs p : p ∈ numbered k rs → p.2 ∈ rs.
Proof.
  revert k. induction rs as [|r rs IH]; intros k Hp; simpl in *; [set_solver|].
  apply elem_of_cons in Hp as [->|Hp]; [by left|right; eauto].
Qed.

(** The rules an alert executes: enabled, triggered, out of cooldown. *)
Definition runs (vs : nat → Env) (agent : string) (severity : Z) (tags : list string) e
    (p : nat * RemediationRule) : bool :=
  Enabled p.2 && triggerMatches (Trigger p.2) "alert" severity tags &&
  negb (in_cooldown e (t_check (vs p.1)) p.2 agent).

Definition ran vs agent severity tags e : list (nat * RemediationRule) :=
  filter (λ p, runs vs agent severity tags e p = true) (numbered 0 (rules e)).

(** A trigger fits: the event type is the trigger's, if it names one, the severity
    is high enough, and a tag is shared, if it names any, all up to case. *)
Definition fits (t : RuleTrigger) (eventType : string) (severity : Z) (tags : list string) : Prop :=
  (EventType t = "" ∨ to_lower (EventType t) = to_lower eventType) ∧
  MinSeverity t <= severity ∧
  (Tags t = [] ∨ ∃ a b, a ∈ Tags t ∧ b ∈ tags ∧ to_lower a = to_lower b).

Lemma triggerMatches_spec t eventType severity tags :
  triggerMatches t eventType severity tags = true ↔ fits t eventType severity tags.
Proof.
  assert (triggerMatches t eventType severity tags
    = (String.eqb (EventType t) "" || String.eqb (to_lower (EventType t)) (to_lower eventType))
      && (MinSeverity t <=? severity)
      && (bool_decide (Tags t = []) || existsb (λ rt, existsb (equal_fold rt) tags) (Tags t))) as ->.
  { unfold triggerMatches, equal_fold at 1. rewrite Z.leb_antisym.
    assert ((0 <? zlen (Tags t)) = negb (bool_decide (Tags t = []))) as ->.
    { destruct (Tags t); [done|]. by rewrite bool_decide_eq_false_2. }
    by destruct (String.eqb _ ""), (String.eqb _ _), (severity <? _), (bool_decide _), (existsb _ _). }
  unfold fits. rewrite !andb_true_iff, !orb_true_iff, !String.eqb_eq, Z.leb_le, bool_decide_eq_true.
  rewrite existsb_exists. setoid_rewrite existsb_exists. unfold equal_fold.
  setoid_rewrite String.eqb_eq. setoid_rewrite <- list_elem_of_In. naive_solver.
Qed.

Lemma status_of_spec rs :
  (status_of rs = "success" ↔ Forall (λ a, Success a = true) rs) ∧
  (status_of rs = "failed" ↔ rs ≠ [] ∧ Forall (λ a, Success a = false) rs) ∧
  (status_of rs = "partial" ↔
    (∃ a, a ∈ rs ∧ Success a = true) ∧ (∃ a, a ∈ rs ∧ Success a = false)).
Proof.
  assert (zlen (filter (λ r, Success r = true) rs) = zlen rs ↔ Forall (λ a, Success a = true) rs)
    as Hall.
  { unfold zlen. rewrite Nat2Z.inj_iff. induction rs as [|a rs IH]; [done|].
    rewrite filter_cons, Forall_cons. pose proof (length_filter (λ r, Success r = true) rs).
    destruct (decide (Success a = true)); simpl; [rewrite <- IH; naive_solver lia|].
    split; [lia|naive_solver]. }
  assert (zlen (filter (λ r, Success r = true) rs) = 0 ↔ Forall (λ a, Success a = false) rs)
    as Hnone.
  { unfold zlen. clear Hall. induction rs as [|a rs IH]; [done|]. rewrite filter_cons, Forall_cons.
    destruct (decide (Success a = true)) as [E|E]; simpl.
    - split; [lia|]. rewrite E. by intros [[=] _].
    - apply not_true_is_false in E. rewrite <- IH. naive_solver. }
  unfold status_of. cbn zeta. rewrite !Forall_forall in *.
  destruct (Z.eqb_spec (zlen (filter (λ r, Success r = true) rs)) (zlen rs)) as [Ea|Ea].
  { pose proof (proj1 Hall Ea) as Ea'. clear Ea. rename Ea' into Ea. split; [done|]. split; (split; [discriminate|]).
    - intros [Hne Hf]. destruct rs as [|a rs]; [done|].
      specialize (Ea a ltac:(by left)). specialize (Hf a ltac:(by left)). congruence.
    - intros [_ (a & Ha & E)]. specialize (Ea a Ha). congruence. }
  destruct (Z.eqb_spec (zlen (filter (λ r, Success r = true) rs)) 0) as [En|En].
  { pose proof (proj1 Hnone En) as En'. split; [|split].
    - split; [discriminate|]. intros Hf. by destruct (Ea (proj2 Hall Hf)).
    - split; [|done]. split; [|done]. intros ->. by apply Ea.
    - split; [discriminate|]. intros [(a & Ha & E) _]. specialize (En' a Ha). congruence. }
  assert (¬ Forall (λ a, Success a = true) rs ∧ ¬ Forall (λ a, Success a = false) rs) as [Ha Hn].
  { rewrite !Forall_forall. tauto. }
  apply (not_Forall_Exists (λ a, Success a = true)), Exists_exists in Ha as (x & Hx & Ex).
  apply (not_Forall_Exists (λ a, Success a = false)), Exists_exists in Hn as (y & Hy & Ey).
  apply not_true_is_false in Ex. apply not_false_is_true in Ey.
  split; [|split].
  - split; [discriminate|]. intros Hf. specialize (Hf x Hx). congruence.
  - split; [discriminate|]. intros [_ Hf]. specialize (Hf y Hy). congruence.
  - split; [|done]. intros _. split; [by exists y|by exists x].
Qed.

(** The log of an execution of rule [r]. *)
Record execution_of (v : Env) (r : RemediationRule) (alert agent : string) l : Prop := {
  eo_id : l_ID l = new_id v;
  eo_rule : RuleID l = ID r ∧ RuleName l = Name r;
  eo_trigger : TriggerID l = alert ∧ l_AgentID l = agent;
  eo_actions : ActionType <$> l_Actions l = a_Type <$> Actions r;
  eo_success : Status l = "success" ↔ Forall (λ a, Success a = true) (l_Actions l);
  eo_failed : Status l = "failed" ↔
    l_Actions l ≠ [] ∧ Forall (λ a, Success a = false) (l_Actions l);
  eo_partial : Status l = "partial" ↔
    (∃ a, a ∈ l_Actions l ∧ Success a = true) ∧ (∃ a, a ∈ l_Actions l ∧ Success a = false);
  eo_rollback : RollbackAt l ≠ None ↔ 0 < RollbackTimeout r;
  eo_fresh : RollbackApproved l = false ∧ RollbackDone l = false
}.

Definition commands_of (agent : string) (p : nat * RemediationRule) l : list Command :=
  mjoin (zip_with (reported agent) (Actions p.2) (l_Actions l)).

Lemma run_rule_spec v r alert agent e :
  let '(e', l) := run_rule v r alert agent e in
  execution_of v r alert agent l ∧ rules e' = rules e ∧ logs e' = logs e ++ [l] ∧
  exclusions e' = exclusions e ∧ exclusionsUnreadable e' = exclusionsUnreadable e ∧
  lastExec e' = <[cooldownKey (ID r) agent := t_done v]> (lastExec e) ∧
  engine_bus e' = engine_bus e ++ commands_of agent (0%nat, r) l ∧
  (if (0 <? RollbackTimeout r) && executionIsolated l
   then pendingRollbacks e' = <[l_ID l := agent]> (pendingRollbacks e) ∧
        timers e' = timers e ++ [mkTimer (l_ID l) agent (t_done v + RollbackTimeout r) false false]
   else pendingRollbacks e' = pendingRollbacks e ∧ timers e' = timers e).
Proof.
  unfold run_rule, executeRule, commands_of.
  pose proof status_of_spec as Hst.
  pose proof (run_actions_core (answers v) 0 (Actions r) agent alert (t_start v) e) as Hc.
  pose proof (run_actions_reported (answers v) 0 (Actions r) agent alert (t_start v) e) as Hr.
  destruct (run_actions _ _ _ _ _ _ _) as [e1 rs]. destruct Hr as [Hb Ht].
  destruct Hc as (E1 & E2 & E3 & E4 & E5 & E6 & E7 & _). cbn [fst] in *.
  destruct ((0 <? RollbackTimeout r) && _); simpl; rewrite ?E1, ?E2, ?E3, ?E4, ?E5, ?E6, ?E7;
    (split; [split; simpl; try done; [apply Hst..|];
       destruct (Z.ltb_spec 0 (RollbackTimeout r)); naive_solver lia|]);
    by repeat split.
Qed.

Lemma in_cooldown_insert e e' now r k t agent :
  lastExec e' = <[k := t]> (lastExec e) → cooldownKey (ID r) agent ≠ k →
  in_cooldown e' now r agent = in_cooldown e now r agent.
Proof. intros E Hk. unfold in_cooldown. by rewrite E, lookup_insert_ne by congruence. Qed.

(** The test of the loop is [runs]. *)
Lemma runs_guard vs k r agent sev tags e :
  negb (Enabled r) || negb (triggerMatches (Trigger r) "alert" sev tags)
    || in_cooldown e (t_check (vs k)) r agent = negb (runs vs agent sev tags e (k, r)).
Proof.
  unfold runs. cbn [fst snd].
  by destruct (Enabled r), (triggerMatches _ _ _ _), (in_cooldown _ _ _ _).
Qed.

(** An execution of one rule changes the verdict on no other. *)
Lemma runs_after vs agent sev tags e e1 k rs r t : ID r ∉ ID <$> rs →
  lastExec e1 = <[cooldownKey (ID r) agent := t]> (lastExec e) →
  filter (λ p, runs vs agent sev tags e1 p = true) (numbered k rs)
  = filter (λ p, runs vs agent sev tags e p = true) (numbered k rs).
Proof.
  intros Hr E. apply filter_ext_in. intros [j q] Hq. unfold runs. cbn [fst snd].
  rewrite (in_cooldown_insert e e1 _ q _ _ agent E); [done|].
  intros Hk%cooldownKey_agent. apply Hr. rewrite <- Hk. apply list_elem_of_fmap_2.
  by apply numbered_elem in Hq.
Qed.

Lemma run_rules_spec vs k rs alert agent sev tags e : NoDup (ID <$> rs) →
  let '(e', ls) := run_rules vs k rs alert agent sev tags e in
  let ps := filter (λ p, runs vs agent sev tags e p = true) (numbered k rs) in
  Forall2 (λ p l, execution_of (vs p.1) p.2 alert agent l) ps ls ∧
  rules e' = rules e ∧ logs e' = logs e ++ ls ∧
  exclusions e' = exclusions e ∧ exclusionsUnreadable e' = exclusionsUnreadable e ∧
  engine_bus e' = engine_bus e ++ mjoin (zip_with (commands_of agent) ps ls) ∧
  (∀ key, (∀ p, p ∈ ps → key ≠ cooldownKey (ID p.2) agent) → lastExec e' !! key = lastExec e !! key).
Proof.
  revert k e. induction rs as [|r rs IH]; intros k e Hnd; cbn [run_rules numbered].
  { simpl. rewrite !app_nil_r. by repeat split; [constructor|..]. }
  apply NoDup_cons in Hnd as [Hr Hnd]. rewrite filter_cons, runs_guard.
  destruct (runs vs agent sev tags e (k, r)) eqn:Eruns; cbn [negb]; [|by apply IH].
  pose proof (run_rule_spec (vs k) r alert agent e) as H1.
  destruct (run_rule _ _ _ _ _) as [e1 l].
  destruct H1 as (Hx & E1 & E2 & E3 & E4 & E5 & E6 & _).
  specialize (IH (S k) e1 Hnd). destruct (run_rules _ _ _ _ _ _ _ _) as [e' ls]. cbn zeta in IH.
  rewrite (runs_after vs agent sev tags e e1 (S k) rs r _ Hr E5) in IH.
  destruct IH as (F & R & L & X & U & B & K).
  destruct (decide (true = true)); [|done].
  repeat split; try congruence.
  - by constructor.
  - rewrite L, E2. by rewrite <- app_assoc.
  - rewrite B, E6. cbn [zip_with mjoin list_join]. by rewrite app_assoc.
  - intros key Hkey. rewrite K, E5; [|intros p Hp; apply Hkey; by right].
    apply lookup_insert_ne. apply not_eq_sym, (Hkey (k, r)). by left.
Qed.

Implicit Types (ls : list ExecutionLog) (ts : list (string * string * bool)).

(** ** The rollback state machine

    Its state: the logs, the pending table and, of each goroutine, its execution,
    its agent and whether it was cancelled. *)
Definition key (t : Timer) : string * string * bool := (executionID t, t_agent t, cancelled t).

(** An execution whose log says it isolated, under a rule with a timeout. *)
Definition isolating l : Prop := RollbackAt l ≠ None ∧ executionIsolated l = true.

Record rollback_ok (ls : list ExecutionLog) (p : gmap string string)
    (ts : list (string * string * bool)) : Prop := {
  rb_ids : NoDup (l_ID <$> ls);
  rb_timers : NoDup (ts.*1.*1);
  rb_timer i a c : (i, a, c) ∈ ts → ∃ l, l ∈ ls ∧ l_ID l = i ∧ l_AgentID l = a ∧
    isolating l ∧ RollbackDone l = false ∧ RollbackApproved l = c;
  rb_pending i a : p !! i = Some a ↔ (i, a, false) ∈ ts;
  rb_log l : l ∈ ls → isolating l → RollbackApproved l = false → RollbackDone l = false →
    (l_ID l, l_AgentID l, false) ∈ ts
}.

Lemma mark_first_ids id f ls : (∀ l, l_ID (f l) = l_ID l) →
  l_ID <$> mark_first id f ls = l_ID <$> ls.
Proof.
  intros Hf. induction ls as [|l ls IH]; simpl; [done|].
  destruct (String.eqb _ _); rewrite !fmap_cons; [by rewrite Hf|by f_equal].
Qed.

Lemma elem_mark_first id f ls x : NoDup (l_ID <$> ls) →
  x ∈ mark_first id f ls ↔
    (x ∈ ls ∧ l_ID x ≠ id) ∨ (∃ y, y ∈ ls ∧ l_ID y = id ∧ x = f y).
Proof.
  induction ls as [|l ls IH]; simpl; intros Hnd; [set_solver|].
  apply NoDup_cons in Hnd as [Hl Hnd]. specialize (IH Hnd).
  destruct (String.eqb_spec (l_ID l) id) as [E|E]; rewrite elem_of_cons, ?IH;
    setoid_rewrite elem_of_cons.
  - assert (∀ z, z ∈ ls → l_ID z ≠ id) as Hne.
    { intros z Hz Ez. apply Hl. rewrite E, <- Ez. by apply list_elem_of_fmap_2. }
    split; [intros [->|Hx]; eauto 10|].
    intros [[[->|Hx] Hxi]|(y & [->|Hy] & Ey & ->)]; [done|by right|by left|by destruct (Hne y)].
  - split; [intros [->|[[Hx Hxi]|(y & Hy & Ey & ->)]]; eauto 10|].
    intros [[[->|Hx] Hxi]|(y & [->|Hy] & Ey & ->)]; [by left|right; by left|done|].
    right. right. eauto.
Qed.

(** A new execution. *)
Lemma rollback_add ls p ts l : rollback_ok ls p ts →
  (∀ x, x ∈ ls → l_ID x ≠ l_ID l) → RollbackApproved l = false → RollbackDone l = false →
  (isolating l → rollback_ok (ls ++ [l]) (<[l_ID l := l_AgentID l]> p)
                   (ts ++ [(l_ID l, l_AgentID l, false)])) ∧
  (¬ isolating l → rollback_ok (ls ++ [l]) p ts).
Proof.
  intros [Hi Ht Hl Hp Hg] Hf Ha Hd.
  assert (NoDup (l_ID <$> (ls ++ [l]))) as Hi'.
  { rewrite fmap_app. apply NoDup_app. split_and!; [done| |simpl; apply NoDup_singleton].
    intros x (y & -> & Hy)%list_elem_of_fmap Hx%list_elem_of_singleton. by apply (Hf y). }
  assert (∀ i a c, (i, a, c) ∈ ts → i ≠ l_ID l) as Hnew.
  { intros i a c Hin ->. destruct (Hl _ _ _ Hin) as (x & Hx & E & _). by apply (Hf x). }
  assert (∀ i a c, (i, a, c) ∈ ts → ∃ x, x ∈ ls ++ [l] ∧ l_ID x = i ∧ l_AgentID x = a ∧
    isolating x ∧ RollbackDone x = false ∧ RollbackApproved x = c) as Hl'.
  { intros i a c Hin. destruct (Hl _ _ _ Hin) as (x & Hx & ?). exists x.
    split; [apply elem_of_app; by left|done]. }
  split; intros Hiso; split; try done.
  - rewrite !fmap_app. apply NoDup_app. split_and!; [done| |simpl; apply NoDup_singleton].
    intros i ([j a] & -> & (x & Ex & Hx)%list_elem_of_fmap)%list_elem_of_fmap Hin.
    destruct x as [[j' a'] c]. simpl in *. injection Ex as -> ->.
    apply list_elem_of_singleton in Hin. by apply (Hnew _ _ _ Hx).
  - intros i a c [Hin|Hin%list_elem_of_singleton]%elem_of_app; [by apply Hl'|].
    injection Hin as -> -> ->. exists l. split; [apply elem_of_app; right; by left|done].
  - intros i a. rewrite elem_of_app, list_elem_of_singleton, <- Hp.
    destruct (decide (i = l_ID l)) as [->|Hne].
    + rewrite lookup_insert_eq. split; [intros [= ->]; by right|].
      intros [Hin|[= ->]]; [|done]. apply Hp in Hin. by destruct (Hnew _ _ _ Hin).
    + rewrite lookup_insert_ne by done. naive_solver.
  - intros x [Hx|Hx%list_elem_of_singleton]%elem_of_app Hiso' Ha' Hd'; apply elem_of_app;
      [left; by apply Hg|subst x; right; by left].
  - intros x [Hx|Hx%list_elem_of_singleton]%elem_of_app Hiso' Ha' Hd'; [by apply Hg|by subst x].
Qed.

Definition cancel_key (id : string) (x : string * string * bool) : string * string * bool :=
  if String.eqb x.1.1 id then (x.1, true) else x.

Lemma elem_cancel id ts i a c : (i, a, c) ∈ cancel_key id <$> ts ↔
  (i ≠ id ∧ (i, a, c) ∈ ts) ∨ (i = id ∧ c = true ∧ ∃ c', (i, a, c') ∈ ts).
Proof.
  rewrite list_elem_of_fmap. unfold cancel_key. split.
  - intros ([[j b] d] & E & Hin). simpl in *.
    destruct (String.eqb_spec j id); simplify_eq; [right; eauto|by left].
  - intros [[Hne Hin]|(-> & -> & c' & Hin)].
    + exists (i, a, c). simpl. split; [|done]. by destruct (String.eqb_spec i id).
    + exists (id, a, c'). simpl. by rewrite String.eqb_refl.
Qed.

Lemma cancel_fst id ts : (cancel_key id <$> ts).*1 = ts.*1.
Proof.
  induction ts as [|[[i a] c] ts IH]; [done|]. rewrite !fmap_cons. f_equal; [|done].
  unfold cancel_key. by destruct (String.eqb _ _).
Qed.

Lemma rollback_approve ls p ts id a : rollback_ok ls p ts → p !! id = Some a →
  rollback_ok (mark_first id approved_log ls) (delete id p) (cancel_key id <$> ts).
Proof.
  intros [Hi Ht Hl Hp Hg] Hid.
  assert (∀ x, x ∈ mark_first id approved_log ls ↔
    (x ∈ ls ∧ l_ID x ≠ id) ∨ (∃ y, y ∈ ls ∧ l_ID y = id ∧ x = approved_log y)) as Hm.
  { intros x. by apply elem_mark_first. }
  split.
  - by rewrite mark_first_ids.
  - by rewrite cancel_fst.
  - intros i b c [[Hne Hin]|(-> & -> & c' & Hin)]%elem_cancel;
      destruct (Hl _ _ _ Hin) as (x & Hx & E & Eb & Hs & Hd & Hc).
    + exists x. split; [apply Hm; left; split; congruence|done].
    + exists (approved_log x). split; [apply Hm; right; eauto|]. by repeat split; try apply Hs.
  - intros i b. rewrite elem_cancel, lookup_delete_Some, Hp. naive_solver.
  - intros x [[Hx Hne]|(y & Hy & E & ->)]%Hm Hiso Ha Hd; [|done].
    apply elem_cancel. left. split; [done|]. by apply Hg.
Qed.

(** A cancelled goroutine ends. *)
Lemma rollback_cancelled ls p ts1 i a ts2 : rollback_ok ls p (ts1 ++ (i, a, true) :: ts2) →
  rollback_ok ls p (ts1 ++ ts2).
Proof.
  intros [Hi Ht Hl Hp Hg].
  assert (∀ x, x ∈ ts1 ++ (i, a, true) :: ts2 ↔ x = (i, a, true) ∨ x ∈ ts1 ++ ts2) as Hm by set_solver.
  split; [done| | | |].
  - rewrite !fmap_app in *. simpl in Ht. apply NoDup_app in Ht as (H1 & H2 & H3).
    apply NoDup_cons in H3 as [_ H3]. apply NoDup_app. set_solver.
  - intros j b c Hin. apply Hl, Hm. by right.
  - intros j b. rewrite Hp, Hm. split; [intros [[=]|]; done|by right].
  - intros x Hx Hs Ha Hd. destruct (proj1 (Hm _) (Hg x Hx Hs Ha Hd)) as [[=]|]; done.
Qed.

(** A rollback runs. *)
Lemma rollback_runs ls p ts1 i a c ts2 : rollback_ok ls p (ts1 ++ (i, a, c) :: ts2) →
  rollback_ok (mark_first i done_log ls) (delete i p) (ts1 ++ ts2).
Proof.
  intros [Hi Ht Hl Hp Hg].
  assert (∀ x, x ∈ mark_first i done_log ls ↔
    (x ∈ ls ∧ l_ID x ≠ i) ∨ (∃ y, y ∈ ls ∧ l_ID y = i ∧ x = done_log y)) as Hm'.
  { intros x. by apply elem_mark_first. }
  assert (∀ x, x ∈ ts1 ++ (i, a, c) :: ts2 ↔ x = (i, a, c) ∨ x ∈ ts1 ++ ts2) as Hm by set_solver.
  assert (NoDup ((ts1 ++ ts2).*1.*1) ∧ i ∉ (ts1 ++ ts2).*1.*1) as [Hnd Hni].
  { rewrite !fmap_app in *. simpl in Ht. apply NoDup_app in Ht as (H1 & H2 & H3).
    apply NoDup_cons in H3 as [H3 H4]. split; [apply NoDup_app; set_solver|]. set_solver. }
  assert (∀ j b d, (j, b, d) ∈ ts1 ++ ts2 → j ≠ i) as Hne.
  { intros j b d Hin ->. apply Hni. apply list_elem_of_fmap. exists (i, b). split; [done|].
    apply list_elem_of_fmap. by exists (i, b, d). }
  split; [by rewrite mark_first_ids|done| | |].
  - intros j b d Hin. pose proof (Hne _ _ _ Hin).
    destruct (Hl j b d) as (x & Hx & E & ?); [apply Hm; by right|].
    exists x. split; [apply Hm'; left; split; congruence|done].
  - intros j b. rewrite lookup_delete_Some, Hp, Hm. split.
    + intros [Hji [[= -> _ _]|Hin]]; done.
    + intros Hin. split; [apply not_eq_sym; by eapply Hne|by right].
  - intros x [[Hx Hxi]|(y & Hy & E & ->)]%Hm' Hs Ha Hd; [|done].
    destruct (proj1 (Hm _) (Hg x Hx Hs Ha Hd)) as [[= E _ _]|]; done.
Qed.

(** ** Every step keeps the state machine *)
Definition engine_rb e : Prop :=
  rollback_ok (logs e) (pendingRollbacks e) (key <$> timers e).

Definition rules_ok e : Prop := NoDup (ID <$> rules e).

Lemma same_core_rb e e' : same_core e e' → engine_rb e → engine_rb e'.
Proof. unfold engine_rb. by intros (_ & -> & _ & _ & _ & -> & -> & _). Qed.

Lemma run_rule_rb v r alert agent e : engine_rb e →
  (∀ x, x ∈ logs e → l_ID x ≠ new_id v) → engine_rb (run_rule v r alert agent e).1.
Proof.
  intros Hok Hfresh. pose proof (run_rule_spec v r alert agent e) as H.
  destruct (run_rule _ _ _ _ _) as [e' l]. cbn [fst].
  destruct H as ([Hid _ [_ Ha] _ _ _ _ Hrb [Hap Hdn]] & _ & Hl & _ & _ & _ & _ & Hs).
  destruct (rollback_add _ _ _ l Hok) as [Hyes Hno]; [by rewrite Hid|done..|].
  assert (isolating l ↔ (0 <? RollbackTimeout r) && executionIsolated l = true) as Hiso.
  { unfold isolating. rewrite Hrb, andb_true_iff, Z.ltb_lt. done. }
  unfold engine_rb. rewrite Hl. destruct (_ && _); destruct Hs as [-> ->].
  - rewrite fmap_app, <- Ha. by apply Hyes, Hiso.
  - apply Hno. rewrite Hiso. done.
Qed.

Lemma run_rules_rb vs k rs alert agent sev tags e :
  (∀ i j, new_id (vs i) = new_id (vs j) → i = j) →
  (∀ j x, (k <= j)%nat → x ∈ logs e → l_ID x ≠ new_id (vs j)) →
  engine_rb e → engine_rb (run_rules vs k rs alert agent sev tags e).1.
Proof.
  intros Hinj. revert k e. induction rs as [|r rs IH]; intros k e Hf Hok; [done|].
  cbn [run_rules]. destruct (_ || _ || _); [apply IH; [intros; apply Hf; [lia|done]|done]|].
  pose proof (run_rule_rb (vs k) r alert agent e Hok (λ x Hx, Hf k x (Nat.le_refl k) Hx)) as H1.
  pose proof (run_rule_spec (vs k) r alert agent e) as Hs.
  destruct (run_rule _ _ _ _ _) as [e1 l]. cbn [fst] in H1.
  destruct Hs as ([Hid _ _ _ _ _ _ _ _] & _ & Hl & _).
  specialize (IH (S k) e1). destruct (run_rules _ _ _ _ _ _ _ _) as [e' ls]. cbn [fst] in *.
  apply IH; [|done]. intros j x Hj Hx. rewrite Hl in Hx.
  apply elem_of_app in Hx as [Hx|Hx%list_elem_of_singleton]; [apply Hf; [lia|done]|].
  subst x. rewrite Hid. intros Heq%Hinj. lia.
Qed.

Lemma enable_first_ids id b rs : ID <$> enable_first id b rs = ID <$> rs.
Proof.
  induction rs as [|r rs IH]; simpl; [done|].
  destruct (String.eqb _ _); rewrite !fmap_cons; [done|by f_equal].
Qed.

Lemma replaced_rule_ids r rs :
  match replace_rule r rs with
  | Some rs' => ID <$> rs' = ID <$> rs
  | None => ID r ∉ ID <$> rs
  end.
Proof.
  induction rs as [|q rs IH]; simpl; [set_solver|].
  destruct (String.eqb_spec (ID q) (ID r)) as [E|E]; [by rewrite !fmap_cons, E|].
  destruct (replace_rule r rs); simpl in *; [by f_equal|]. set_solver.
Qed.

Lemma add_rule_ok r e : rules_ok e → rules_ok (AddRule r e).
Proof.
  unfold AddRule, rules_ok. pose proof (replaced_rule_ids r (rules e)) as H.
  destruct (replace_rule r (rules e)); simpl; [by rewrite H|].
  intros Hnd. rewrite fmap_app. apply NoDup_app. split_and!; [done| |apply NoDup_singleton].
  intros x Hx ->%list_elem_of_singleton. done.
Qed.

Lemma trigger_rules vs alert agent host sev tags e : rules_ok e →
  rules (TriggerOnAlert vs alert agent host sev tags e).1 = rules e.
Proof.
  intros Hnd. unfold TriggerOnAlert. destruct (IsExcluded e host); [done|].
  pose proof (run_rules_spec vs 0 (rules e) alert agent sev tags e Hnd) as H.
  destruct (run_rules _ _ _ _ _ _ _ _). naive_solver.
Qed.

Lemma rollback_core t e : rules (run_rollback t e) = rules e ∧
  logs (run_rollback t e) = mark_first (executionID t) done_log (logs e) ∧
  pendingRollbacks (run_rollback t e) = delete (executionID t) (pendingRollbacks e) ∧
  timers (run_rollback t e) = timers e.
Proof.
  unfold run_rollback.
  pose proof (unisolate_core (t_agent t) (executionID t)
    (set_rollbacks e (delete (executionID t) (pendingRollbacks e)) (timers e))) as Hc.
  destruct (actionUnisolateNetwork _ _ _) as [[e' ok] m]. simpl in *.
  destruct Hc as (E1 & E2 & _ & _ & _ & E3 & E4 & _). simpl in *. by rewrite E1, E2, E3, E4.
Qed.

Lemma step_rules_ok e e' : step e e' → rules_ok e → rules_ok e'.
Proof.
  destruct 1 as [vs al ag h sv tg e|id e|r e|id b e|an e|fr x e|id e|a ds1 d ds2 e|? ? ? ? e|? ? ? e
    |? t ? e]; intros Hok; unfold rules_ok in *; try done.
  - by rewrite trigger_rules.
  - unfold ApproveExecution. by destruct (_ !! _).
  - by apply add_rule_ok.
  - simpl. by rewrite enable_first_ids.
  - unfold LoadExclusionsFromDB. by repeat case_match.
  - unfold RemoveExclusion. by destruct (remove_first _ _).
  - destruct (dispatch_core a (d_action d) (d_agent d) (d_trigger d) (set_delayed e (ds1 ++ ds2)))
      as (-> & _). done.
  - by destruct (rollback_core t (set_rollbacks e (pendingRollbacks e) (ts1 ++ ts2))) as (-> & _).
Qed.

Lemma cancel_timer_key id t : key (cancel_timer id t) = cancel_key id (key t).
Proof. unfold cancel_timer, cancel_key, key. simpl. by destruct (String.eqb _ _). Qed.

Lemma step_rb e e' : step e e' → engine_rb e → engine_rb e'.
Proof.
  destruct 1 as [vs al ag h sv tg e [Hinj Hf]|id e|r e|id b e|an e|fr x e|id e|a ds1 d ds2 e
    |now ts1 t ts2 e Et|ts1 t ts2 e Et Hfi Hca|ts1 t ts2 e Et]; intros Hok; try done.
  - unfold TriggerOnAlert. destruct (IsExcluded e h); [done|]. apply run_rules_rb; eauto.
  - unfold ApproveExecution. destruct (_ !! _) as [a|] eqn:Ep; [|done].
    unfold engine_rb in *. simpl. rewrite <- list_fmap_compose.
    rewrite (list_fmap_ext (key ∘ cancel_timer id) (cancel_key id ∘ key)).
    + rewrite list_fmap_compose. by eapply rollback_approve.
    + intros i t _. apply cancel_timer_key.
  - unfold AddRule. by destruct (replace_rule _ _).
  - unfold LoadExclusionsFromDB. by repeat case_match.
  - unfold RemoveExclusion. by destruct (remove_first _ _).
  - by eapply same_core_rb; [apply dispatch_core|].
  - unfold engine_rb in *. rewrite Et in Hok. simpl. rewrite fmap_app in *. done.
  - unfold engine_rb in *. rewrite Et in Hok. simpl. rewrite fmap_app in *. cbn [fmap list_fmap] in Hok.
    replace (key t) with (executionID t, t_agent t, true) in Hok by (unfold key; by rewrite Hca).
    by eapply rollback_cancelled.
  - destruct (rollback_core t (set_rollbacks e (pendingRollbacks e) (ts1 ++ ts2))) as (_ & El & Ep & Ets).
    unfold engine_rb in *. rewrite El, Ep, Ets. simpl. rewrite Et in Hok. rewrite fmap_app in *.
    by eapply rollback_runs.
Qed.

(** A fresh engine, with or without rules, exclusions and an isolator. *)
Definition fresh e : Prop :=
  logs e = [] ∧ timers e = [] ∧ pendingRollbacks e = ∅ ∧ rules_ok e.

Lemma reach_rb e e' : rtc step e e' → engine_rb e → engine_rb e'.
Proof. induction 1; eauto using step_rb. Qed.

Lemma fresh_rb e : fresh e → engine_rb e.
Proof.
  intros (El & Et & Ep & _). unfold engine_rb. rewrite El, Et, Ep. split; simpl; try set_solver.
  - constructor.
  - constructor.
Qed.

(** ** A history of alerts *)
Record Arrival := mkArrival {
  ar_env : nat → Env;
  ar_alert : string;
  ar_agent : string;
  ar_host : string;
  ar_severity : Z;
  ar_tags : list string
}.

Definition arrive (a : Arrival) e : Engine I * list ExecutionLog :=
  TriggerOnAlert (ar_env a) (ar_alert a) (ar_agent a) (ar_host a) (ar_severity a) (ar_tags a) e.

Fixpoint respond (h : list Arrival) e : Engine I * list (list ExecutionLog) :=
  match h with
  | [] => (e, [])
  | a :: h' => let '(e, ls) := arrive a e in
               let '(e, past) := respond h' e in (e, ls :: past)
  end.

Lemma respond_snoc h a e : respond (h ++ [a]) e =
  let '(e1, past) := respond h e in let '(e2, ls) := arrive a e1 in (e2, past ++ [ls]).
Proof.
  revert e. induction h as [|b h IH]; intros e; cbn [respond app].
  { by destruct (arrive a e). }
  destruct (arrive b e) as [e1 ls]. rewrite IH. destruct (respond h e1) as [e2 past].
  by destruct (arrive a e2).
Qed.

(** The executions of a rule end in the order of the alerts. *)
Definition done_in_order (h : list Arrival) : Prop :=
  ∀ m n a b k, (m < n)%nat → h !! m = Some a → h !! n = Some b →
    t_done (ar_env a k) <= t_done (ar_env b k).

(** A host that is on the list, or any host when the list is not known. *)
Definition spared e (host : string) : Prop :=
  exclusionsUnreadable e = true ∨
  (host ≠ "" ∧ ∃ x, x ∈ exclusions e ∧ Match (HostnamePattern x) host = Some true).

(** [r], the [k]-th rule, was last executed for this agent, if ever, at least
    its cooldown before [now]. *)
Definition rested (h : list Arrival) (past : list (list ExecutionLog)) (k : nat)
    (r : RemediationRule) (agent : string) (now : time) : Prop :=
  ∀ m a ls, h !! m = Some a → past !! m = Some ls → ar_agent a = agent →
    ID r ∈ RuleID <$> ls → 0 < Cooldown r → Cooldown r <= now - t_done (ar_env a k).

Lemma IsExcluded_spec e host : IsExcluded e host = true ↔ spared e host.
Proof.
  unfold IsExcluded, spared. destruct (exclusionsUnreadable e); [naive_solver|].
  destruct (String.eqb_spec host ""); [naive_solver|].
  rewrite existsb_exists. setoid_rewrite <- list_elem_of_In. unfold matched.
  split.
  - intros (x & Hx & E). right. split; [done|]. exists x. split; [done|].
    destruct (Match _ _) as [[]|]; done.
  - intros [[=]|(_ & x & Hx & E)]. exists x. by rewrite E.
Qed.

Lemma numbered_lookup j rs k r : (k, r) ∈ numbered j rs ↔ (j <= k)%nat ∧ rs !! (k - j)%nat = Some r.
Proof.
  revert j. induction rs as [|q rs IH]; intros j; simpl; [set_solver|].
  rewrite elem_of_cons, IH. split.
  - intros [[= -> ->]|[Hj Hr]]; [by rewrite Nat.sub_diag|]. split; [lia|].
    by replace (k - j)%nat with (S (k - S j)) by lia.
  - intros [Hj Hr]. destruct (decide (k = j)) as [->|Hne].
    + rewrite Nat.sub_diag in Hr. left. by injection Hr as ->.
    + right. split; [lia|]. by replace (k - j)%nat with (S (k - S j)) in Hr by lia.
Qed.

Lemma numbered_snd j rs : (numbered j rs).*2 = rs.
Proof. revert j. induction rs as [|r rs IH]; intros j; simpl; [done|]. f_equal. apply IH. Qed.

Lemma filter_in_order {A B} (P : A * B → Prop) `{!∀ x, Decision (P x)} (l : list (A * B)) :
  (filter P l).*2 `sublist_of` l.*2.
Proof.
  induction l as [|x l IH]; [constructor|]. rewrite filter_cons.
  destruct (decide (P x)); cbn [fmap list_fmap]; by constructor.
Qed.

Lemma done_in_order_init h a : done_in_order (h ++ [a]) → done_in_order h.
Proof. intros Ho m n x y k Hmn Hx Hy. eapply Ho; eauto using lookup_app_l_Some. Qed.

(** What a history leaves in the table of last executions. *)
Definition remembers (rs : list RemediationRule) (h : list Arrival)
    (past : list (list ExecutionLog)) (m : gmap string time) : Prop :=
  ∀ k r agent, rs !! k = Some r →
    (∀ d, m !! cooldownKey (ID r) agent = Some d → ∃ n a ls, h !! n = Some a ∧
       past !! n = Some ls ∧ ar_agent a = agent ∧ ID r ∈ RuleID <$> ls ∧ t_done (ar_env a k) = d) ∧
    (∀ n a ls, h !! n = Some a → past !! n = Some ls → ar_agent a = agent →
       ID r ∈ RuleID <$> ls → ∃ d, m !! cooldownKey (ID r) agent = Some d ∧ t_done (ar_env a k) <= d).

Lemma cooled_spec h past e k r agent now rs :
  remembers rs h past (lastExec e) → rs !! k = Some r →
  in_cooldown e now r agent = false ↔ rested h past k r agent now.
Proof.
  intros Hrem Hk. destruct (Hrem k r agent Hk) as [Hin Hout]. unfold in_cooldown, rested.
  destruct (Z.ltb_spec 0 (Cooldown r)); cbn [andb]; [|split; [lia|done]].
  destruct (lastExec e !! cooldownKey (ID r) agent) as [d|].
  - rewrite Z.ltb_ge. split.
    + intros Hd n a ls Ha Hp Hag Hr _. destruct (Hout n a ls Ha Hp Hag Hr) as (? & [= <-] & ?). lia.
    + intros Hr. destruct (Hin d eq_refl) as (n & a & ls & Ha & Hp & Hag & Hid & <-). eauto.
  - split; [|done]. intros _ n a ls Ha Hp Hag Hr.
    by destruct (Hout n a ls Ha Hp Hag Hr) as (? & [=] & _).
Qed.

Lemma run_rules_last vs k rs alert agent sev tags e : NoDup (ID <$> rs) →
  let '(e', ls) := run_rules vs k rs alert agent sev tags e in
  ∀ p, p ∈ filter (λ p, runs vs agent sev tags e p = true) (numbered k rs) →
    lastExec e' !! cooldownKey (ID p.2) agent = Some (t_done (vs p.1)).
Proof.
  revert k e. induction rs as [|r rs IH]; intros k e Hnd; cbn [run_rules numbered].
  { intros p Hp. by apply list_elem_of_filter in Hp as [_ Hp%not_elem_of_nil]. }
  apply NoDup_cons in Hnd as [Hr Hnd]. rewrite filter_cons, runs_guard.
  destruct (runs vs agent sev tags e (k, r)) eqn:Eruns; cbn [negb]; [|by apply IH].
  pose proof (run_rule_spec (vs k) r alert agent e) as H1.
  destruct (run_rule _ _ _ _ _) as [e1 l].
  destruct H1 as (_ & _ & _ & _ & _ & E5 & _).
  specialize (IH (S k) e1 Hnd).
  pose proof (run_rules_spec vs (S k) rs alert agent sev tags e1 Hnd) as H2.
  destruct (run_rules _ _ _ _ _ _ _ _) as [e' ls]. cbn zeta in H2.
  destruct H2 as (_ & _ & _ & _ & _ & _ & K).
  rewrite (runs_after vs agent sev tags e e1 (S k) rs r _ Hr E5) in IH, K.
  intros p [->|Hp]%elem_of_cons; [|by apply IH]. cbn [fst snd]. rewrite K, E5.
  - apply lookup_insert_eq.
  - intros q [_ Hq%numbered_elem]%list_elem_of_filter E%cooldownKey_agent.
    apply Hr. rewrite E. by apply list_elem_of_fmap_2.
Qed.

(** One more alert: the executed rules get the time they were done, the others
    keep theirs. *)
Lemma remembers_snoc rs h past m m' a ls : remembers rs h past m → length past = length h →
  done_in_order (h ++ [a]) →
  (∀ k r agent, rs !! k = Some r →
    if decide (ar_agent a = agent ∧ ID r ∈ RuleID <$> ls)
    then m' !! cooldownKey (ID r) agent = Some (t_done (ar_env a k))
    else m' !! cooldownKey (ID r) agent = m !! cooldownKey (ID r) agent) →
  remembers rs (h ++ [a]) (past ++ [ls]) m'.
Proof.
  intros Hrem Hlen Ho Hm k r agent Hk. specialize (Hm k r agent Hk).
  assert (∀ n b bs, (h ++ [a]) !! n = Some b → (past ++ [ls]) !! n = Some bs →
    (h !! n = Some b ∧ past !! n = Some bs) ∨ (n = length h ∧ b = a ∧ bs = ls)) as Hcase.
  { intros n b bs Hb Hbs. destruct (decide (n < length h)%nat).
    - rewrite !lookup_app_l in * by lia. by left.
    - rewrite !lookup_app_r in * by lia. right. rewrite Hlen in Hbs.
      destruct (n - length h)%nat eqn:E; [|done]. simplify_eq/=. split; [lia|done]. }
  destruct (Hrem k r agent Hk) as [Hin Hout]. destruct (decide _) as [[Hag Hid]|Hno]; rewrite Hm.
  - split.
    + intros d [= <-]. exists (length h), a, ls. rewrite list_lookup_middle by done.
      by rewrite <- Hlen, list_lookup_middle.
    + intros n b bs Hb Hbs Hb' Hid'. eexists. split; [done|].
      destruct (Hcase n b bs Hb Hbs) as [[Hb1 _]|(-> & -> & ->)]; [|done].
      eapply (Ho n (length h)); [by eapply lookup_lt_Some|exact Hb|by rewrite list_lookup_middle].
  - split.
    + intros d Hd. destruct (Hin d Hd) as (n & b & bs & Hb & Hbs & ?). exists n, b, bs.
      by rewrite (lookup_app_l_Some h _ n b), (lookup_app_l_Some past _ n bs).
    + intros n b bs Hb Hbs Hb' Hid'.
      destruct (Hcase n b bs Hb Hbs) as [[? ?]|(-> & -> & ->)]; [eauto|by destruct Hno].
Qed.

Lemma arrive_last a e : rules_ok e → (∀ r, r ∈ rules e → no_nul (ID r)) →
  let '(e', ls) := arrive a e in
  rules e' = rules e ∧ exclusions e' = exclusions e ∧
  exclusionsUnreadable e' = exclusionsUnreadable e ∧
  ∀ k r agent, rules e !! k = Some r →
    if decide (ar_agent a = agent ∧ ID r ∈ RuleID <$> ls)
    then lastExec e' !! cooldownKey (ID r) agent = Some (t_done (ar_env a k))
    else lastExec e' !! cooldownKey (ID r) agent = lastExec e !! cooldownKey (ID r) agent.
Proof.
  intros Hnd Hnul. unfold arrive, TriggerOnAlert.
  destruct (IsExcluded e (ar_host a)).
  { split_and!; try done. intros k r agent _.
    destruct (decide _) as [[_ H%not_elem_of_nil]|]; done. }
  pose proof (run_rules_spec (ar_env a) 0 (rules e) (ar_alert a) (ar_agent a) (ar_severity a)
    (ar_tags a) e Hnd) as H1.
  pose proof (run_rules_last (ar_env a) 0 (rules e) (ar_alert a) (ar_agent a) (ar_severity a)
    (ar_tags a) e Hnd) as H2.
  destruct (run_rules _ _ _ _ _ _ _ _) as [e' ls]. cbn zeta in H1.
  destruct H1 as (F & R & _ & X & U & _ & K). split_and!; try done.
  assert (∀ p, p ∈ filter (λ p, runs (ar_env a) (ar_agent a) (ar_severity a) (ar_tags a) e p = true)
    (numbered 0 (rules e)) → rules e !! p.1 = Some p.2) as Hp.
  { intros [j q] [_ Hq]%list_elem_of_filter. apply numbered_lookup in Hq as [_ Hq].
    by rewrite Nat.sub_0_r in Hq. }
  revert F H2 K Hp.
  generalize (filter (λ p, runs (ar_env a) (ar_agent a) (ar_severity a) (ar_tags a) e p = true)
    (numbered 0 (rules e))).
  intros ps F H2 K Hp k r agent Hk.
  assert (∀ q, q ∈ ps → ID q.2 = ID r → q = (k, r)) as Huniq.
  { intros [j q] Hq E. cbn [snd] in E. pose proof (Hp _ Hq) as Hj. cbn [fst snd] in Hj.
    assert (j = k) as ->; [|congruence]. apply (NoDup_lookup _ j k (ID r) Hnd);
      rewrite list_lookup_fmap; [rewrite Hj; simpl; congruence|by rewrite Hk]. }
  destruct (decide _) as [[<- Hid]|Hno].
  - apply list_elem_of_fmap in Hid as (l & El & Hl).
    apply list_elem_of_lookup in Hl as [i Hi].
    destruct (Forall2_lookup_r _ _ _ _ _ F Hi) as (q & Hq & Hex).
    apply list_elem_of_lookup_2 in Hq. destruct (eo_rule _ _ _ _ _ Hex) as [Er _].
    rewrite (Huniq q Hq) in Hq by congruence. apply (H2 _ Hq).
  - apply K. intros q Hq E. pose proof (Hp q Hq) as Hj.
    apply cooldownKey_inj in E as [E1 ->];
      [|apply Hnul; by eapply list_elem_of_lookup_2..].
    apply Hno. split; [done|]. apply list_elem_of_lookup in Hq as [i Hi].
    destruct (Forall2_lookup_l _ _ _ _ _ F Hi) as (l & Hl & Hex).
    destruct (eo_rule _ _ _ _ _ Hex) as [Er _].
    rewrite E1, <- Er. apply list_elem_of_fmap_2. by eapply list_elem_of_lookup_2.
Qed.

Lemma respond_inv h e : rules_ok e → (∀ r, r ∈ rules e → no_nul (ID r)) → lastExec e = ∅ →
  done_in_order h →
  let '(e', past) := respond h e in
  rules e' = rules e ∧ exclusions e' = exclusions e ∧
  exclusionsUnreadable e' = exclusionsUnreadable e ∧ length past = length h ∧
  remembers (rules e) h past (lastExec e').
Proof.
  intros Hnd Hnul Hle. induction h as [|a h IH] using rev_ind; intros Ho.
  { simpl. split_and!; try done. intros k r agent _. rewrite Hle. split; [|done].
    intros d. by rewrite lookup_empty. }
  specialize (IH (done_in_order_init _ _ Ho)). rewrite respond_snoc.
  destruct (respond h e) as [e1 past]. destruct IH as (R & X & U & Hlen & Hrem).
  pose proof (arrive_last a e1) as H. unfold rules_ok in *. rewrite R in H.
  destruct (arrive a e1) as [e2 ls]. destruct (H Hnd Hnul) as (R2 & X2 & U2 & Hm).
  rewrite R2, X2, U2. split_and!; try done; [by rewrite !length_app, Hlen|].
  by eapply remembers_snoc.
Qed.

(** ** Properties *)

(** C34: over any history of alerts of any hosts, an alert of a host whose name fits a
    pattern of the exclusion list (or any alert at all, while the list could not
    be read) changes nothing.  Any other alert executes, in the order of the
    rules, exactly those that are enabled, whose trigger fits and that no earlier
    alert of the same host executed less than their cooldown ago.  It appends one
    log per execution, with the rule, the alert, one result per action, a rollback
    time exactly when the rule has a timeout, and a status that is "success" when
    every action succeeded, "failed" when there were some and all failed, and
    "partial" when some did and some did not; and the isolations and releases it
    puts on the bus are exactly those these logs report as done. *)
Theorem trigger_executes_exactly h a e :
  rules_ok e → (∀ r, r ∈ rules e → no_nul (ID r)) → lastExec e = ∅ → done_in_order (h ++ [a]) →
  let '(e1, past) := respond h e in
  let '(e2, ls) := arrive a e1 in
  (spared e (ar_host a) → e2 = e1 ∧ ls = []) ∧
  (¬ spared e (ar_host a) → ∃ ps,
     ps.*2 `sublist_of` rules e ∧
     (∀ k r, (k, r) ∈ ps ↔ rules e !! k = Some r ∧ Enabled r = true ∧
        fits (Trigger r) "alert" (ar_severity a) (ar_tags a) ∧
        rested h past k r (ar_agent a) (t_check (ar_env a k))) ∧
     Forall2 (λ p l, execution_of (ar_env a p.1) p.2 (ar_alert a) (ar_agent a) l) ps ls ∧
     logs e2 = logs e1 ++ ls ∧
     engine_bus e2 = engine_bus e1 ++ mjoin (zip_with (commands_of (ar_agent a)) ps ls)).
Proof.
  intros Hnd Hnul Hle Ho. pose proof (respond_inv h e Hnd Hnul Hle (done_in_order_init _ _ Ho)) as Hi.
  destruct (respond h e) as [e1 past]. destruct Hi as (Er & Ex & Eu & Hlen & Hlast).
  unfold arrive, TriggerOnAlert.
  assert (IsExcluded e1 (ar_host a) = IsExcluded e (ar_host a)) as ->
    by (unfold IsExcluded; by rewrite Ex, Eu).
  pose proof (IsExcluded_spec e (ar_host a)) as Hs.
  destruct (IsExcluded e (ar_host a)); [split; [done|]; intros Hn; by destruct (Hn (proj1 Hs eq_refl))|].
  assert (¬ spared e (ar_host a)) as Hns by (rewrite <- Hs; discriminate).
  pose proof (run_rules_spec (ar_env a) 0 (rules e1) (ar_alert a) (ar_agent a) (ar_severity a)
    (ar_tags a) e1) as H.
  destruct (run_rules _ _ _ _ _ _ _ _) as [e2 ls]. cbn zeta in H. rewrite Er in H.
  destruct (H Hnd) as (F & _ & L & _ & _ & B & _). split; [done|]. intros _.
  eexists. split_and!; [|intros k r|exact F|exact L|exact B].
  - rewrite <- (numbered_snd 0 (rules e)) at 2. apply filter_in_order.
  - rewrite list_elem_of_filter, numbered_lookup, Nat.sub_0_r. unfold runs. cbn [fst snd].
    rewrite !andb_true_iff, negb_true_iff, triggerMatches_spec.
    pose proof (cooled_spec h past e1 k r (ar_agent a) (t_check (ar_env a k)) (rules e) Hlast).
    pose proof (Nat.le_0_l k). tauto.
Qed.

(** With any isolator that keeps the promises of the interface, the commands
    an alert puts on the bus are, in order, exactly those its logs report: one
    isolation of the alerting host per immediate isolation reported as
    successful, one release per successful release, and nothing else; a refused,
    failed or suppressed isolation is never reported as successful. *)
Theorem log_matches_bus vs alert agent host sev tags e : rules_ok e →
  let '(e', ls) := TriggerOnAlert vs alert agent host sev tags e in
  engine_bus e' = engine_bus e ++
    (if IsExcluded e host then []
     else mjoin (zip_with (commands_of agent) (ran vs agent sev tags e) ls)).
Proof.
  intros Hnd. unfold TriggerOnAlert. destruct (IsExcluded e host); [by rewrite app_nil_r|].
  pose proof (run_rules_spec vs 0 (rules e) alert agent sev tags e Hnd) as H.
  destruct (run_rules _ _ _ _ _ _ _ _) as [e' ls]. cbn zeta in H.
  by destruct H as (_ & _ & _ & _ & _ & -> & _).
Qed.

(** In every reachable state an isolating execution under a rule with a
    rollback timeout is in the pending table exactly as long as it has been
    neither approved nor rolled back, and only an execution that was not rolled
    back has a goroutine left: each is rolled back at most once. *)
Theorem rollback_pending_iff e0 e l : fresh e0 → rtc step e0 e → l ∈ logs e → isolating l →
  (pendingRollbacks e !! l_ID l = Some (l_AgentID l) ↔
     RollbackApproved l = false ∧ RollbackDone l = false) ∧
  (∀ t, t ∈ timers e → executionID t = l_ID l → RollbackDone l = false) ∧
  (∀ l', l' ∈ logs e → l_ID l' = l_ID l → l' = l).
Proof.
  intros Hf Hr Hin Hiso. destruct (reach_rb _ _ Hr (fresh_rb _ Hf)) as [Hi Ht Hl Hp Hg].
  assert (∀ l', l' ∈ logs e → l_ID l' = l_ID l → l' = l) as Huniq.
  { intros l' Hin' E. apply list_elem_of_lookup in Hin as [j Hj], Hin' as [j' Hj'].
    assert (j' = j) as ->; [|congruence]. apply (NoDup_lookup _ j' j (l_ID l) Hi);
      rewrite list_lookup_fmap; [rewrite Hj'; simpl; congruence|by rewrite Hj]. }
  split_and!; [split| |done].
  - intros Hpe. apply Hp in Hpe. destruct (Hl _ _ _ Hpe) as (x & Hx & E & _ & _ & Hd & Ha).
    by rewrite <- (Huniq x Hx E).
  - intros [Ha Hd]. by apply Hp, Hg.
  - intros t Htin E. destruct (Hl (executionID t) (t_agent t) (cancelled t)) as
      (x & Hx & Ex & _ & _ & Hd & _); [by apply (list_elem_of_fmap_2 key)|].
    rewrite <- (Huniq x Hx); [done|congruence].
Qed.

(** Acting on one host never holds back the response on another: after an
    alert on one host, an alert on a different host executes the same rules as it
    would have without it. *)
Theorem hosts_are_independent vs ws al1 al2 a b h1 h2 s1 s2 tg1 tg2 e :
  rules_ok e → (∀ r, r ∈ rules e → no_nul (ID r)) → a ≠ b →
  RuleID <$> (TriggerOnAlert ws al2 b h2 s2 tg2 (TriggerOnAlert vs al1 a h1 s1 tg1 e).1).2
  = RuleID <$> (TriggerOnAlert ws al2 b h2 s2 tg2 e).2.
Proof.
  intros Hnd Hnul Hab.
  pose proof (trigger_rules vs al1 a h1 s1 tg1 e Hnd) as Er.
  assert (IsExcluded (TriggerOnAlert vs al1 a h1 s1 tg1 e).1 h2 = IsExcluded e h2 ∧
    (∀ r t, r ∈ rules e → in_cooldown (TriggerOnAlert vs al1 a h1 s1 tg1 e).1 t r b
                          = in_cooldown e t r b)) as [Ex Hcd].
  { unfold TriggerOnAlert. destruct (IsExcluded e h1); [done|].
    pose proof (run_rules_spec vs 0 (rules e) al1 a s1 tg1 e Hnd) as H.
    destruct (run_rules _ _ _ _ _ _ _ _) as [e1 ls]. cbn zeta in H. cbn [fst].
    destruct H as (_ & _ & _ & Xe & Ue & _ & K). split.
    - unfold IsExcluded. by rewrite Xe, Ue.
    - intros r t Hr. unfold in_cooldown. rewrite K; [done|]. intros p Hp Hk.
      apply list_elem_of_filter in Hp as [_ Hp].
      apply numbered_elem in Hp.
      apply cooldownKey_inj in Hk; [by destruct Hk|by apply Hnul..]. }
  revert Er Ex Hcd. generalize (TriggerOnAlert vs al1 a h1 s1 tg1 e).1. intros e1 Er Ex Hcd.
  unfold TriggerOnAlert. rewrite Ex, Er. destruct (IsExcluded e h2); [done|].
  pose proof (run_rules_spec ws 0 (rules e) al2 b s2 tg2 e Hnd) as H2.
  pose proof (run_rules_spec ws 0 (rules e) al2 b s2 tg2 e1 Hnd) as H1.
  destruct (run_rules ws 0 (rules e) al2 b s2 tg2 e) as [e2 ls2], (run_rules ws 0 (rules e) al2 b s2 tg2 e1)
    as [e3 ls3]. cbn zeta in *. destruct H1 as [F1 _], H2 as [F2 _]. cbn [snd].
  rewrite (filter_ext_in (λ p, runs ws b s2 tg2 e1 p = true) (λ p, runs ws b s2 tg2 e p = true)) in F1.
  - revert F1 F2. generalize (filter (λ p, runs ws b s2 tg2 e p = true) (numbered 0 (rules e))).
    intros ps F1. revert ls2. induction F1 as [|p l ps ls [_ [E1 _] _ _ _ _ _ _ _] _ IH]; intros ls2 F2;
      inversion F2 as [|? ? ? ? [_ [E2 _] _ _ _ _ _ _ _]]; simplify_eq; [done|].
    rewrite !fmap_cons. f_equal; [congruence|eauto].
  - intros [n r] Hr. unfold runs. cbn [fst snd]. rewrite Hcd; [done|].
    by apply numbered_elem in Hr.
Qed.

(** ** What goes wrong *)

(** A failed load stops every automatic action until a load succeeds. *)
Lemma unreadable_stops answer err vs alert agent host sev tags e :
  LoadExclusionsFromDB answer e = ((LoadExclusionsFromDB answer e).1, Some err) →
  let e1 := (LoadExclusionsFromDB answer e).1 in
  TriggerOnAlert vs alert agent host sev tags e1 = (e1, []).
Proof.
  unfold LoadExclusionsFromDB. intros H. cbn zeta.
  destruct (has_pool e); cbn [negb] in *; [|done].
  destruct answer as [|l [it|]|q]; simpl in *; try done; try (by destruct (scan_rows l)).
Qed.

(** [Conditions] of a trigger are never looked at. *)
Lemma conditions_ignored t c ty sev tags :
  triggerMatches (mkRuleTrigger (EventType t) (MinSeverity t) (Tags t) c) ty sev tags
  = triggerMatches t ty sev tags.
Proof. done. Qed.

(** A malformed pattern on the exclusion list excludes no host at all. *)
Lemma malformed_exclusion_ignored e host p :
  Match p host = None → exclusionsUnreadable e = false →
  exclusions e = [mkRemediationExclusion "x1" p] → IsExcluded e host = false.
Proof.
  intros Hm Hu Hx. unfold IsExcluded. rewrite Hu, Hx. simpl. unfold matched. rewrite Hm.
  by destruct (String.eqb host "").
Qed.

(** A host named by prefix is excluded. *)
Lemma prefix_exclusion e host p x : x ∈ exclusions e → HostnamePattern x = p +:+ "*" →
  plain p = true → p ≠ "" → host ≠ "" → has_prefix host p = true →
  contains_char (Ascii.eqb separator) host = false → IsExcluded e host = true.
Proof.
  intros Hx Ep Hp Hne Hh Hpre Hs. unfold IsExcluded. destruct (exclusionsUnreadable e); [done|].
  apply String.eqb_neq in Hh. rewrite Hh. apply existsb_exists. exists x.
  split; [by apply list_elem_of_In|]. rewrite Ep, glob_prefix by done. rewrite Hpre. simpl.
  apply negb_true_iff. apply has_prefix_spec in Hpre as [r ->]. rewrite sdrop_append.
  revert Hs. clear. induction p as [|c p IH]; simpl; [done|]. by intros [_ H]%orb_false_iff; auto.
Qed.
End Proofs.

(** ** Concrete runs *)
Definition toy_live : Live := live (New true true toy_config) (λ n, toy_env (Z.of_nat n * minute)).
Definition toy_answers : Answers := mkAnswers None None (Ok 200).
Definition toy_turn (t : time) (id : string) : Env :=
  mkEnv t t t id (λ _, toy_answers).
Definition toy_turns (k : nat) : Env := toy_turn 0 (repeat_char (chr 120) k).

Lemma toy_turns_fresh e : logs e = [] → fresh_ids (I:=Live) toy_turns e.
Proof.
  intros El. split; [|intros k l; rewrite El; set_solver].
  assert (∀ k, String.length (repeat_char (chr 120) k) = k) as Hlen.
  { induction k as [|k IH]; simpl; by f_equal. }
  intros i j H. by apply (f_equal String.length) in H; unfold toy_turns in H; simpl in H;
    rewrite !Hlen in H.
Qed.

Definition with_rules (rs : list RemediationRule) : Remediation.Engine Live :=
  SetIsolator toy_live (set_rules (NewEngine true true) rs).

Definition toy_rule (id : string) (delay rollback : duration) : RemediationRule :=
  mkRemediationRule id id true (mkRuleTrigger "" 5 [] ∅)
    [mkRemediationAction "isolate_network" ∅ delay] minute rollback.

(** The alerts of an indicator match carry the tags "ioc" and the indicator's
    type: of the built-in rules only the one without tags can react to them. *)
Lemma builtin_rules_miss_indicators ty sev :
  ty ∈ ["ip"; "domain"; "hash"; "url"] →
  DryRun (with_rules BuiltinRules) "alert" sev ["ioc"; ty]
  = if sev <? 9 then [] else ["Critical Alert: Auto-Isolate Endpoint"].
Proof.
  intros Hty. unfold DryRun, with_rules. cbn [rules SetIsolator set_rules].
  assert (∀ t, Tags t ≠ [] →
    existsb (λ rt, existsb (equal_fold rt) ["ioc"; ty]) (Tags t) = false →
    triggerMatches t "alert" sev ["ioc"; ty] = false) as Hno.
  { intros t Hne Hex. unfold triggerMatches. rewrite Hex. destruct (Tags t) as [|x l]; [done|].
    assert ((0 <? zlen (x :: l)) = true) as -> by (by apply Z.ltb_lt).
    by destruct (_ && _), (sev <? MinSeverity t). }
  assert (Forall (λ r, triggerMatches (Trigger r) "alert" sev ["ioc"; ty] = false) (tail BuiltinRules)) as Hrest.
  { rewrite !elem_of_cons, elem_of_nil in Hty.
    repeat (apply Forall_cons; split); [..|constructor];
      (apply Hno; [discriminate|destruct_or?; subst; by vm_compute]). }
  change BuiltinRules with (hd (toy_rule "" 0 0) BuiltinRules :: tail BuiltinRules).
  rewrite filter_cons, (filter_none _ (tail BuiltinRules)).
  2: { eapply Forall_impl; [exact Hrest|]. cbv beta. intros r ->. by rewrite andb_false_r. }
  cbn [hd BuiltinRules Enabled Trigger].
  cbn [andb]. unfold triggerMatches. cbn [EventType MinSeverity Tags].
  destruct (sev <? 9); reflexivity.
Qed.

(** The ransomware rule names no process id: it orders the endpoint to kill
    process 0, the command the dispatcher's comment calls harmful. *)
Example ransomware_rule_kills_pid_zero :
  effects (TriggerOnAlert toy_turns "al" "a1" "h1" 8 ["Ransomware"] (with_rules BuiltinRules)).1
  = [KillProcess "a1" 0 "auto-remediation (alert=al process=suspicious)";
     InsertAlert "a1" "Ransomware auto-containment executed";
     Notification (notify_payload "a1" "al"
       "Ransomware detected: endpoint isolated and suspicious process killed")].
Proof. by vm_compute. Qed.

(** An isolation delayed beyond the rollback timeout of its rule: the release
    comes first, the isolation after it, and nothing is left that would end it. *)
Lemma delayed_isolation_outlives_rollback :
  ∃ e, rtc step (with_rules [toy_rule "r" (10 * minute) (5 * minute)]) e ∧
    engine_bus e = [Rejoin "a1"; Cut "a1"] ∧ timers e = [] ∧ delayed e = [] ∧
    pendingRollbacks e = ∅.
Proof.
  eexists. split.
  - eapply rtc_l; [apply (step_alert toy_turns "al" "a1" "h1" 9 [])|].
    { by apply toy_turns_fresh. }
    eapply rtc_l; [apply (step_timer_fires (6 * minute) [] (mkTimer "" "a1" (5 * minute) false false) []);
      [by vm_compute|done|by vm_compute]|].
    eapply rtc_l; [apply (step_rollback [] (mkTimer "" "a1" (5 * minute) false true) []);
      [by vm_compute|done]|].
    eapply rtc_l; [apply (step_delayed toy_answers []
      (mkDelayed (mkRemediationAction "isolate_network" ∅ (10 * minute)) "a1" "al" (10 * minute)) []);
      by vm_compute|]. apply rtc_refl.
  - by vm_compute.
Qed.

(** An analyst's approval that comes between the timeout and the release: the
    call reports that the rollback was cancelled, and the host is put back on the
    network all the same. *)
Lemma approval_can_be_lost :
  ∃ e1 e2 e3, rtc step (with_rules [toy_rule "r" 0 (5 * minute)]) e1 ∧
    ApproveExecution "" e1 = (e2, true) ∧ rtc step e2 e3 ∧
    engine_bus e2 = [Cut "a1"] ∧ engine_bus e3 = [Cut "a1"; Rejoin "a1"] ∧
    (λ l, (RollbackApproved l, RollbackDone l)) <$> logs e3 = [(true, true)].
Proof.
  eexists _, _, _. split.
  - eapply rtc_l; [apply (step_alert toy_turns "al" "a1" "h1" 9 []); by apply toy_turns_fresh|].
    eapply rtc_l; [apply (step_timer_fires (6 * minute) [] (mkTimer "" "a1" (5 * minute) false false) []);
      [by vm_compute|done|by vm_compute]|]. apply rtc_refl.
  - split; [by vm_compute|]. split.
    + eapply rtc_l; [apply (step_rollback [] (mkTimer "" "a1" (5 * minute) true true) []);
        [by vm_compute|done]|]. apply rtc_refl.
    + by vm_compute.
Qed.

(** ** Witnesses *)
Definition toy_engine : Remediation.Engine Live :=
  with_rules [toy_rule "r1" 0 (5 * minute); toy_rule "r2" minute 0].

Lemma toy_engine_ok : rules_ok toy_engine.
Proof. unfold rules_ok. simpl. repeat constructor; set_solver. Qed.

(** Two rules with a cooldown of a minute, the second with a delayed isolation; the
    same alert of one host at 0, after half a minute and after an hour. *)
Definition toy_history : list Arrival :=
  (λ t, mkArrival (λ k, toy_turn t (repeat_char (chr 120) k)) "al" "a1" "h1" 9 [])
    <$> [0; minute `div` 2].
Definition toy_last : Arrival :=
  mkArrival (λ k, toy_turn (60 * minute) (repeat_char (chr 121) k)) "al" "a1" "h1" 9 [].

Lemma trigger_executes_exactly_witness :
  let '(e1, past) := respond toy_history toy_engine in
  let '(e2, ls) := arrive toy_last e1 in
  ((λ l : list ExecutionLog, RuleID <$> l) <$> past) = [["r1"; "r2"]; []] ∧ RuleID <$> ls = ["r1"; "r2"] ∧
  ∃ ps, ps.*2 `sublist_of` rules toy_engine ∧
     (∀ k r, (k, r) ∈ ps ↔ rules toy_engine !! k = Some r ∧ Enabled r = true ∧
        fits (Trigger r) "alert" 9 [] ∧
        rested toy_history past k r "a1" (60 * minute)) ∧
     Forall2 (λ p l, execution_of (ar_env toy_last p.1) p.2 "al" "a1" l) ps ls ∧
     logs e2 = logs e1 ++ ls ∧
     engine_bus e2 = engine_bus e1 ++ mjoin (zip_with (commands_of "a1") ps ls).
Proof.
  assert (let '(e1, past) := respond toy_history toy_engine in
    let '(e2, ls) := arrive toy_last e1 in
    ((λ l : list ExecutionLog, RuleID <$> l) <$> past) = [["r1"; "r2"]; []] ∧ RuleID <$> ls = ["r1"; "r2"]) as Hrun
    by (by vm_compute).
  assert (done_in_order (toy_history ++ [toy_last])) as Ho.
  { intros m n a b k Hmn Ha Hb. do 3 try destruct m as [|m]; do 3 try destruct n as [|n];
      try lia; try discriminate Ha; try discriminate Hb;
      injection Ha as <-; injection Hb as <-; vm_compute; discriminate. }
  assert (∀ r, r ∈ rules toy_engine → no_nul (ID r)) as Hn.
  { intros r Hr. apply elem_of_cons in Hr as [Hr|Hr%list_elem_of_singleton]; rewrite Hr; vm_compute; reflexivity. }
  pose proof (trigger_executes_exactly toy_history toy_last toy_engine toy_engine_ok Hn eq_refl Ho)
    as H.
  destruct (respond toy_history toy_engine) as [e1 past]. destruct (arrive toy_last e1) as [e2 ls].
  destruct Hrun as [H1 H2]. split; [exact H1|]. split; [exact H2|].
  apply H. intros [Hu|(_ & x & Hx & _)]; [discriminate Hu|]. by apply not_elem_of_nil in Hx.
Defined.

Lemma log_matches_bus_witness :
  let '(e', ls) := TriggerOnAlert toy_turns "al" "a1" "h1" 9 [] toy_engine in
  engine_bus e' = engine_bus toy_engine ++
    mjoin (zip_with (commands_of "a1") (ran toy_turns "a1" 9 [] toy_engine) ls).
Proof. apply (log_matches_bus toy_turns "al" "a1" "h1" 9 [] toy_engine toy_engine_ok). Defined.

Definition toy_triggered : Remediation.Engine Live :=
  (TriggerOnAlert toy_turns "al" "a1" "h1" 9 [] toy_engine).1.

Lemma rollback_pending_iff_witness :
  ∃ l, logs toy_triggered !! 0%nat = Some l ∧
  (pendingRollbacks toy_triggered !! l_ID l = Some (l_AgentID l) ↔
     RollbackApproved l = false ∧ RollbackDone l = false).
Proof.
  eexists. split; [vm_compute; reflexivity|].
  apply (rollback_pending_iff toy_engine toy_triggered).
  - split; [done|]. split; [done|]. split; [done|]. exact toy_engine_ok.
  - eapply rtc_l; [|apply rtc_refl]. apply step_alert. by apply toy_turns_fresh.
  - vm_compute. by left.
  - split; [discriminate|vm_compute; reflexivity].
Defined.

Lemma hosts_are_independent_witness :
  RuleID <$> (TriggerOnAlert toy_turns "al2" "a2" "h2" 9 [] toy_triggered).2
  = RuleID <$> (TriggerOnAlert toy_turns "al2" "a2" "h2" 9 [] toy_engine).2.
Proof.
  apply (hosts_are_independent toy_turns toy_turns "al" "al2" "a1" "a2" "h1" "h2" 9 9 [] []
    toy_engine); [exact toy_engine_ok| |discriminate].
  intros r Hr. apply elem_of_cons in Hr as [->|Hr]; [vm_compute; reflexivity|].
  apply list_elem_of_singleton in Hr as ->. vm_compute. reflexivity.
Defined.
