(* ===== verification/Suppression.v ===== *)
(** * Suppression rules

    [server/internal/detection/suppression_matcher.go] and
    [suppression_breadth.go]: which suppression rules are applied, and which
    alerts they hide.  Go's regular expressions are the parameter
    [regexp_compile]; the reasons shown to the operator are kept as data, not
    rendered. *)

From S2P Require Import Prelude GoStrings Event.

#[local] Open Scope string_scope.
#[local] Open Scope list_scope.
#[local] Open Scope Z_scope.

Abbreviation regex := (string → bool) (only parsing).

Record SuppressionRule := mkSuppressionRule {
  ID : string;
  Name : string;
  RuleName : string;
  Hostname : string;
  HostnameRegex : string;
  SeverityMax : Z;
  MITRETechnique : string;
  AgentID : string;
  CommandLine : string;
  ParentProcess : string;
  ExpiresAt : option time
}.

(** The columns of [StoredAlert] a suppression looks at. *)
Record StoredAlert := mkStoredAlert {
  a_RuleName : string;
  a_Hostname : string;
  a_Severity : Z;
  a_MITRETech : string;
  a_AgentID : string
}.

Record SuppressionContext := mkSuppressionContext {
  c_CommandLine : string;
  c_ParentImage : string
}.

(** The first of [keys] the event has as a non-empty string. *)
Fixpoint first_str (flat : event) (ks : list string) : string :=
  match ks with
  | [] => ""
  | k :: ks' =>
      match get_str flat k with
      | Some v => if String.eqb v "" then first_str flat ks' else v
      | None => first_str flat ks'
      end
  end.

Definition SuppressionContextFrom (flat : event) : SuppressionContext :=
  mkSuppressionContext
    (first_str flat ["command_line"; "commandLine"; "CommandLine"])
    (first_str flat ["parent_process"; "parentProcessName"; "parent_image_path";
                     "parentImagePath"; "ParentImage"]).

Inductive SuppressionBreadth := SuppressionNarrow | SuppressionWide | SuppressionCatchAll.

#[export] Instance SuppressionBreadth_eq_dec : EqDecision SuppressionBreadth.
Proof. solve_decision. Defined.

Definition breadth_string (b : SuppressionBreadth) : string :=
  match b with
  | SuppressionNarrow => "narrow"
  | SuppressionWide => "wide"
  | SuppressionCatchAll => "catch-all"
  end.

Definition maxAlertSeverity : Z := 10.
Definition hostnameRegexProbes : list string := ["prod-db-01"; "zz9-alpha"; "Q"].
Definition minCommandLineFragment : Z := 8.

(** Why a rule got its class. *)
Inductive Degenerate :=
| RuleNameOneChar (s : string)
| HostnameOneChar (s : string)
| RegexDoesNotCompile (s : string)
| RegexMatchesEveryProbe (s : string)
| TechniqueIsT
| CommandLineTooShort (s : string)
| ParentNotNarrowing (s : string)
| SeverityAtMaximum (n : Z).

Inductive Reason :=
| NoCondition
| AllDegenerate (d : list Degenerate)
| Specific (s : list string)
| NothingSpecific (d : list Degenerate) (populated : list string).

Section Matcher.
Context (regexp_compile : string → option regex).

(** ** The pattern cache *)
Abbreviation regex_cache := (list (string * option regex)) (only parsing).

Definition compileHostnameRegex_cached (cache : regex_cache) (pattern : string)
    : regex_cache * option regex :=
  if String.eqb pattern "" then (cache, None) else
  match get cache pattern with
  | Some re => (cache, re)
  | None => let re := regexp_compile pattern in ((pattern, re) :: cache, re)
  end.

(** What it returns, whatever the cache has seen ([cache_transparent]). *)
Definition compileHostnameRegex (pattern : string) : option regex :=
  if String.eqb pattern "" then None else regexp_compile pattern.

(** ** Breadth *)
Definition matchesAllProbes (re : regex) : bool := forallb re hostnameRegexProbes.

(** One populated condition: its name, and why it does not narrow, if so. *)
Definition condition (populated : bool) (name : string) (degenerate : option Degenerate)
    : list (string * option Degenerate) :=
  if populated then [(name, degenerate)] else [].

Definition nonempty (s : string) : bool := negb (String.eqb s "").

Definition regex_degenerate (hostRe : string) : option Degenerate :=
  match compileHostnameRegex hostRe with
  | None => Some (RegexDoesNotCompile hostRe)
  | Some re => if matchesAllProbes re then Some (RegexMatchesEveryProbe hostRe) else None
  end.

Definition conditions (r : SuppressionRule) : list (string * option Degenerate) :=
  let ruleName := trim_space (RuleName r) in
  let hostname := trim_space (Hostname r) in
  let hostRe := trim_space (HostnameRegex r) in
  let tech := to_upper (trim_space (MITRETechnique r)) in
  let agentID := trim_space (AgentID r) in
  let cmdline := trim_space (CommandLine r) in
  let parent := trim_space (ParentProcess r) in
  condition (nonempty ruleName) "rule_name"
    (if slen ruleName <=? 1 then Some (RuleNameOneChar ruleName) else None) ++
  condition (nonempty hostname) "hostname"
    (if slen hostname <=? 1 then Some (HostnameOneChar hostname) else None) ++
  condition (nonempty hostRe) "hostname_regex" (regex_degenerate hostRe) ++
  condition (nonempty tech) "mitre_technique"
    (if String.eqb tech "T" then Some TechniqueIsT else None) ++
  condition (nonempty cmdline) "command_line_contains"
    (if slen cmdline <? minCommandLineFragment then Some (CommandLineTooShort cmdline) else None) ++
  condition (nonempty parent) "parent_process"
    (if (slen parent <=? 1) || has_prefix parent "."
     then Some (ParentNotNarrowing parent) else None) ++
  condition (0 <? SeverityMax r) "severity_max"
    (if maxAlertSeverity <=? SeverityMax r then Some (SeverityAtMaximum (SeverityMax r)) else None) ++
  condition (nonempty agentID) "agent_id" None.

Definition specificConditions (ruleName hostname hostRe tech agentID : string)
    (severityMax : Z) : list string :=
  (if nonempty agentID then ["agent_id"] else []) ++
  (if nonempty hostRe then
     match compileHostnameRegex hostRe with
     | Some re => if matchesAllProbes re then [] else ["hostname_regex"]
     | None => []
     end
   else []) ++
  (if 4 <=? slen ruleName then ["rule_name"] else []) ++
  (if 3 <=? slen hostname then ["hostname"] else []) ++
  (if 5 <=? slen tech then ["mitre_technique"] else []) ++
  (if (1 <=? severityMax) && (severityMax <=? 3) then ["severity_max"] else []).

Definition ClassifySuppression (r : SuppressionRule) : SuppressionBreadth * Reason :=
  let cs := conditions r in
  let populated := cs.*1 in
  let degenerate := omap snd cs in
  if (length populated =? 0)%nat then (SuppressionCatchAll, NoCondition) else
  if (length degenerate =? length populated)%nat
  then (SuppressionCatchAll, AllDegenerate degenerate) else
  let specific :=
    specificConditions (trim_space (RuleName r)) (trim_space (Hostname r))
      (trim_space (HostnameRegex r)) (to_upper (trim_space (MITRETechnique r)))
      (trim_space (AgentID r)) (SeverityMax r) in
  if (0 <? length specific)%nat then (SuppressionNarrow, Specific specific) else
  (SuppressionWide, NothingSpecific degenerate populated).

(** ** Matching *)
Definition matches (r : SuppressionRule) (alert : StoredAlert) (sctx : SuppressionContext) : bool :=
  if decide ((ClassifySuppression r).1 = SuppressionCatchAll) then false else
  if nonempty (RuleName r) &&
     negb (contains (to_lower (a_RuleName alert)) (to_lower (RuleName r))) then false else
  if nonempty (Hostname r) &&
     negb (contains (to_lower (a_Hostname alert)) (to_lower (Hostname r))) then false else
  if nonempty (HostnameRegex r) &&
     negb (match compileHostnameRegex (HostnameRegex r) with
           | Some re => re (a_Hostname alert)
           | None => false
           end) then false else
  if (0 <? SeverityMax r) && (SeverityMax r <? a_Severity alert) then false else
  if nonempty (MITRETechnique r) &&
     negb (has_prefix (to_upper (a_MITRETech alert)) (to_upper (MITRETechnique r))) then false else
  if nonempty (AgentID r) && negb (String.eqb (a_AgentID alert) (AgentID r)) then false else
  if nonempty (CommandLine r) &&
     negb (contains (to_lower (c_CommandLine sctx)) (to_lower (CommandLine r))) then false else
  if nonempty (ParentProcess r) &&
     negb (has_suffix (to_lower (c_ParentImage sctx)) (to_lower (ParentProcess r))) then false else
  true.

(** ** The matcher *)
Record SuppressionMatcher := mkSuppressionMatcher {
  rules : list SuppressionRule;
  loadedAt : time
}.

Definition NewSuppressionMatcher : SuppressionMatcher := mkSuppressionMatcher [] 0.

(** [load], given what the loader returned: an error leaves the cached rules. *)
Definition load (now : time) (loaded : res (list SuppressionRule)) (m : SuppressionMatcher)
    : SuppressionMatcher * option string :=
  match loaded with
  | Err e => (m, Some e)
  | Ok rs =>
      (mkSuppressionMatcher
         (filter (λ r, (ClassifySuppression r).1 ≠ SuppressionCatchAll) rs) now, None)
  end.

Definition expired (now : time) (r : SuppressionRule) : bool :=
  match ExpiresAt r with Some t => t <? now | None => false end.

Fixpoint first_match (now : time) (rs : list SuppressionRule) (alert : StoredAlert)
    (sctx : SuppressionContext) : option SuppressionRule :=
  match rs with
  | [] => None
  | r :: rs' =>
      if expired now r then first_match now rs' alert sctx else
      if matches r alert sctx then Some r else first_match now rs' alert sctx
  end.

Definition IsSuppressed (now : time) (m : SuppressionMatcher) (alert : StoredAlert)
    (sctx : SuppressionContext) : bool * string * string :=
  match first_match now (rules m) alert sctx with
  | Some r => (true, Name r, ID r)
  | None => (false, "", "")
  end.

Definition Count (m : SuppressionMatcher) : Z := zlen (rules m).

(** ** Lemmas *)

(** The cache never changes an answer. *)
Definition cache_ok (cache : regex_cache) : Prop :=
  ∀ p re, get cache p = Some re → re = regexp_compile p.

Lemma cache_transparent cache p : cache_ok cache →
  (compileHostnameRegex_cached cache p).2 = compileHostnameRegex p ∧
  cache_ok (compileHostnameRegex_cached cache p).1.
Proof.
  intros Hc. unfold compileHostnameRegex_cached, compileHostnameRegex.
  destruct (String.eqb p "") eqn:E; [done|].
  destruct (get cache p) as [re|] eqn:G; simpl; [by split; [apply Hc|]|].
  split; [done|]. intros q re. simpl. destruct (String.eqb_spec p q) as [->|]; [by intros [= <-]|].
  apply Hc.
Qed.

Lemma nonempty_true s : nonempty s = true ↔ s ≠ "".
Proof. unfold nonempty. by rewrite negb_true_iff, String.eqb_neq. Qed.

Lemma trim_right_empty : trim_right "" = "".
Proof. done. Qed.

Lemma trim_space_nonempty s : nonempty (trim_space s) = true → nonempty s = true.
Proof. rewrite !nonempty_true. intros H ->. by apply H. Qed.

Lemma contains_of_empty s : s ≠ "" → contains "" s = false.
Proof. by destruct s. Qed.

Lemma has_prefix_of_empty s : s ≠ "" → has_prefix "" s = false.
Proof. by destruct s. Qed.

Lemma has_suffix_of_empty s : s ≠ "" → has_suffix "" s = false.
Proof. by destruct s. Qed.

Lemma to_lower_nonempty s : s ≠ "" → to_lower s ≠ "".
Proof. by destruct s. Qed.

Lemma to_upper_nonempty s : s ≠ "" → to_upper s ≠ "".
Proof. by destruct s. Qed.

Lemma elem_condition b n d c : c ∈ condition b n d → b = true ∧ c = (n, d).
Proof. unfold condition. destruct b; set_solver. Qed.

Lemma omap_snd_length {A B} (l : list (A * option B)) :
  (length (omap snd l) <= length l)%nat ∧
  (length (omap snd l) ≠ length l → ∃ a, (a, None) ∈ l).
Proof.
  induction l as [|[a [b|]] l [H1 H2]]; [done| |]; rewrite omap_cons_eq; simpl.
  - split; [lia|]. intros H. destruct H2 as [c Hc]; [lia|]. exists c. by right.
  - split; [lia|]. intros _. exists a. by left.
Qed.

(** A rule that is applied has a condition that narrows. *)
Lemma applied_condition r : (ClassifySuppression r).1 ≠ SuppressionCatchAll →
  ∃ n, (n, None) ∈ conditions r.
Proof.
  unfold ClassifySuppression. destruct (_ =? 0)%nat; [done|].
  destruct (Nat.eqb_spec (length (omap snd (conditions r))) (length (conditions r).*1)) as [|Hne];
    [done|]. intros _. apply omap_snd_length. by rewrite length_fmap in Hne.
Qed.

(** Every populated condition of a matching rule holds of the alert. *)
Record matched (r : SuppressionRule) (alert : StoredAlert) (sctx : SuppressionContext) : Prop := {
  m_rule : RuleName r ≠ "" → contains (to_lower (a_RuleName alert)) (to_lower (RuleName r)) = true;
  m_host : Hostname r ≠ "" → contains (to_lower (a_Hostname alert)) (to_lower (Hostname r)) = true;
  m_regex : HostnameRegex r ≠ "" →
    ∃ re, regexp_compile (HostnameRegex r) = Some re ∧ re (a_Hostname alert) = true;
  m_severity : 0 < SeverityMax r → a_Severity alert <= SeverityMax r;
  m_tech : MITRETechnique r ≠ "" →
    has_prefix (to_upper (a_MITRETech alert)) (to_upper (MITRETechnique r)) = true;
  m_agent : AgentID r ≠ "" → a_AgentID alert = AgentID r;
  m_cmdline : CommandLine r ≠ "" →
    contains (to_lower (c_CommandLine sctx)) (to_lower (CommandLine r)) = true;
  m_parent : ParentProcess r ≠ "" →
    has_suffix (to_lower (c_ParentImage sctx)) (to_lower (ParentProcess r)) = true
}.

Lemma guard_true (b c x : bool) :
  (if b && negb c then false else x) = true ↔ (b = true → c = true) ∧ x = true.
Proof. destruct b, c, x; simpl; naive_solver. Qed.

Lemma matches_spec r alert sctx :
  matches r alert sctx = true ↔
  (ClassifySuppression r).1 ≠ SuppressionCatchAll ∧ matched r alert sctx.
Proof.
  unfold matches. case_decide as Hc; [naive_solver|].
  assert (∀ s, compileHostnameRegex s = if String.eqb s "" then None else regexp_compile s) as Hr
    by done.
  assert (∀ P : Prop, P ↔ (ClassifySuppression r).1 ≠ SuppressionCatchAll ∧ P) as <- by tauto.
  assert (((0 <? SeverityMax r) && (SeverityMax r <? a_Severity alert))
    = ((0 <? SeverityMax r) && negb (a_Severity alert <=? SeverityMax r))) as ->.
  { f_equal. case_cmp; try done; lia. }
  rewrite !guard_true, !nonempty_true, Z.ltb_lt, Z.leb_le, String.eqb_eq.
  split.
  - intros (H1 & H2 & H3 & H4 & H5 & H6 & H7 & H8 & _). split; try done.
    intros Hne. specialize (H3 Hne). unfold compileHostnameRegex in H3.
    apply String.eqb_neq in Hne. rewrite Hne in H3.
    destruct (regexp_compile (HostnameRegex r)); [eauto|done].
  - intros [H1 H2 H3 H4 H5 H6 H7 H8]. split_and!; try done.
    intros Hne. destruct (H3 Hne) as (re & E & H). unfold compileHostnameRegex.
    apply String.eqb_neq in Hne. by rewrite Hne, E.
Qed.

Lemma first_match_Some now rs alert sctx r : first_match now rs alert sctx = Some r →
  r ∈ rs ∧ expired now r = false ∧ matches r alert sctx = true.
Proof.
  induction rs as [|q rs IH]; simpl; [done|].
  destruct (expired now q) eqn:Ee; [|destruct (matches q alert sctx) eqn:Em];
    try (intros H; destruct (IH H); set_solver).
  intros [= <-]. set_solver.
Qed.

Lemma first_match_None now rs alert sctx r : first_match now rs alert sctx = None →
  r ∈ rs → expired now r = false → matches r alert sctx = false.
Proof.
  induction rs as [|q rs IH]; simpl; [set_solver|].
  intros H Hin He. apply elem_of_cons in Hin as [->|Hin].
  - rewrite He in H. by destruct (matches q alert sctx).
  - apply IH; [|done..]. by destruct (expired now q), (matches q alert sctx).
Qed.

Lemma forallb_false {A} (f : A → bool) (l : list A) :
  forallb f l = false → ∃ x, x ∈ l ∧ f x = false.
Proof.
  induction l as [|x l IH]; simpl; [done|]. destruct (f x) eqn:E; simpl.
  - intros H. destruct (IH H) as (y & ? & ?). exists y. set_solver.
  - intros _. exists x. set_solver.
Qed.

(** ** Properties *)

(** After any load, an alert is reported as suppressed exactly when some rule
    of that load is not a catch-all, has not expired and has every one of its
    non-empty conditions met by the alert; the name and id reported are those of
    such a rule. *)
Theorem is_suppressed_iff now t rs m0 alert sctx :
  let m := (load t (Ok rs) m0).1 in
  ((IsSuppressed now m alert sctx).1.1 = true ↔
    ∃ r, r ∈ rs ∧ (ClassifySuppression r).1 ≠ SuppressionCatchAll ∧
      expired now r = false ∧ matched r alert sctx) ∧
  (∀ n i, IsSuppressed now m alert sctx = (true, n, i) →
    ∃ r, r ∈ rs ∧ Name r = n ∧ ID r = i ∧ matched r alert sctx).
Proof.
  cbn zeta. unfold IsSuppressed. simpl.
  set (kept := filter _ rs).
  assert (∀ r, r ∈ kept ↔ (ClassifySuppression r).1 ≠ SuppressionCatchAll ∧ r ∈ rs) as Hk.
  { intros r. unfold kept. by rewrite list_elem_of_filter. }
  destruct (first_match now kept alert sctx) as [r|] eqn:E; simpl.
  - apply first_match_Some in E as (Hi & He & Hm).
    apply Hk in Hi as [Hc Hin]. apply matches_spec in Hm as [_ Hm].
    split; [naive_solver|]. intros n j [= <- <-]. eauto.
  - split; [|done]. split; [done|]. intros (r & Hin & Hc & He & Hm).
    assert (matches r alert sctx = true) as Ht by by apply matches_spec.
    rewrite (first_match_None _ _ _ _ r E) in Ht; [done| |done]. by apply (proj2 (Hk r)).
Qed.

(** No rule that survives loading hides everything: for each there is an
    alert it does not match.  (The hostname pattern must not be one that
    surrounding white space changes the meaning of.) *)
Theorem applied_rule_spares_an_alert r :
  (ClassifySuppression r).1 ≠ SuppressionCatchAll →
  trim_space (HostnameRegex r) = HostnameRegex r →
  ∃ alert sctx, matches r alert sctx = false.
Proof.
  intros Hc Htrim. destruct (applied_condition r Hc) as [n Hn].
  assert (∀ alert sctx, ¬ matched r alert sctx → ∃ alert sctx, matches r alert sctx = false) as Hout.
  { intros alert sctx Hm. exists alert, sctx. apply not_true_is_false.
    rewrite matches_spec. tauto. }
  assert (∀ s, nonempty (trim_space s) = true → s ≠ "") as Htr.
  { intros s Hs. by apply nonempty_true, trim_space_nonempty. }
  set (a0 := mkStoredAlert "" "" (SeverityMax r + 1) "" (AgentID r +:+ "x")).
  set (c0 := mkSuppressionContext "" "").
  unfold conditions in Hn. rewrite Htrim in Hn.
  repeat (apply elem_of_app in Hn as [Hn|Hn]); apply elem_condition in Hn as [Hb Hn].
  - apply (Hout a0 c0). intros [H _ _ _ _ _ _ _]. apply Htr in Hb. specialize (H Hb). change (contains "" (to_lower (RuleName r)) = true) in H.
    rewrite contains_of_empty in H; [done|]. by apply to_lower_nonempty.
  - apply (Hout a0 c0). intros [_ H _ _ _ _ _ _]. apply Htr in Hb. specialize (H Hb). change (contains "" (to_lower (Hostname r)) = true) in H.
    rewrite contains_of_empty in H; [done|]. by apply to_lower_nonempty.
  - injection Hn as _ Hd. unfold regex_degenerate, compileHostnameRegex in Hd.
    pose proof Hb as Hb'. unfold nonempty in Hb'. apply negb_true_iff in Hb'. rewrite Hb' in Hd.
    destruct (regexp_compile (HostnameRegex r)) as [re|] eqn:Ere; [|done].
    destruct (matchesAllProbes re) eqn:Ep; [done|].
    unfold matchesAllProbes in Ep. destruct (forallb_false _ _ Ep) as (h & Hh & Hf).
    apply (Hout (mkStoredAlert "" h 0 "" "") c0). intros [_ _ H _ _ _ _ _].
    apply nonempty_true in Hb. destruct (H Hb) as (re' & E & Hm). simpl in Hm. congruence.
  - apply (Hout a0 c0). intros [_ _ _ _ H _ _ _].
    assert (MITRETechnique r ≠ "") as Hne by by (intros E; rewrite E in Hb).
    specialize (H Hne). change (has_prefix "" (to_upper (MITRETechnique r)) = true) in H.
    rewrite has_prefix_of_empty in H; [done|]. by apply to_upper_nonempty.
  - apply (Hout a0 c0). intros [_ _ _ _ _ _ H _]. apply Htr in Hb. specialize (H Hb). change (contains "" (to_lower (CommandLine r)) = true) in H.
    rewrite contains_of_empty in H; [done|]. by apply to_lower_nonempty.
  - apply (Hout a0 c0). intros [_ _ _ _ _ _ _ H]. apply Htr in Hb. specialize (H Hb). change (has_suffix "" (to_lower (ParentProcess r)) = true) in H.
    rewrite has_suffix_of_empty in H; [done|]. by apply to_lower_nonempty.
  - apply (Hout a0 c0). intros [_ _ _ H _ _ _ _]. simpl in H. lia.
  - apply (Hout a0 c0). intros [_ _ _ _ _ H _ _]. apply Htr in Hb. specialize (H Hb). simpl in H.
    apply (f_equal String.length) in H. rewrite append_length in H. simpl in H. lia.
Qed.
End Matcher.

(** ** Witnesses *)

(** A pattern engine that knows two patterns: [..] and [^k8s-]. *)
Definition toy_regexp (p : string) : option (string → bool) :=
  if String.eqb p ".." then Some (λ h, 2 <=? slen h) else
  if String.eqb p "^k8s-" then Some (λ h, has_prefix h "k8s-") else None.

Definition toy_rule (re name : string) (sev : Z) : SuppressionRule :=
  mkSuppressionRule "s1" "quiet" name "" re sev "" "" "" "" None.

(** [..] is classified as narrowing the fleet although it matches every hostname
    of two characters or more: the probes err in the direction the comment on
    them excludes. *)
Lemma broad_regex_is_narrow alert sctx : 2 <= slen (a_Hostname alert) →
  (ClassifySuppression toy_regexp (toy_rule ".." "" 0)).1 = SuppressionNarrow ∧
  matches toy_regexp (toy_rule ".." "" 0) alert sctx = true.
Proof.
  intros H. split; [reflexivity|]. apply matches_spec. split; [by vm_compute|].
  split; simpl; try done. intros _. eexists. split; [reflexivity|]. cbn beta. lia.
Qed.

Lemma is_suppressed_iff_witness :
  let m := (load toy_regexp 0 (Ok [toy_rule "^k8s-" "" 5; toy_rule "" "a" 0])
              NewSuppressionMatcher).1 in
  let alert := mkStoredAlert "r" "k8s-1" 4 "" "" in
  let sctx := mkSuppressionContext "" "" in
  IsSuppressed toy_regexp 9 m alert sctx = (true, "quiet", "s1") ∧
  ∃ r, r ∈ [toy_rule "^k8s-" "" 5; toy_rule "" "a" 0] ∧
    (ClassifySuppression toy_regexp r).1 ≠ SuppressionCatchAll ∧
    expired 9 r = false ∧ matched toy_regexp r alert sctx.
Proof.
  cbn zeta. split; [vm_compute; reflexivity|].
  apply (is_suppressed_iff toy_regexp 9 0 _ NewSuppressionMatcher
           (mkStoredAlert "r" "k8s-1" 4 "" "") (mkSuppressionContext "" "")).
  vm_compute. reflexivity.
Defined.

Lemma applied_rule_spares_an_alert_witness :
  ∃ alert sctx, matches toy_regexp (toy_rule "^k8s-" "a" 3) alert sctx = false.
Proof.
  apply (applied_rule_spares_an_alert toy_regexp (toy_rule "^k8s-" "a" 3)).
  - vm_compute. discriminate.
  - reflexivity.
Defined.
