(* ===== verification/Sequence.v ===== *)
(** * The sequence engine

    [server/internal/detection/rules/sequence_engine.go]: behavioral rules over
    time windows, as counts, distinct counts or staged kill chains.  The clock is
    an argument, as in [observeAt]. *)

From Stdlib Require Import Ascii.
From S2P Require Import Prelude GoStrings Event.

#[local] Open Scope string_scope.
#[local] Open Scope list_scope.
#[local] Open Scope Z_scope.

(** ** Rules ([rule_engine.go]) *)
Record DetectionRule := mkDetectionRule {
  r_ID : string;
  r_Name : string;
  r_Type : string;
  r_Platform : list string;
  r_Severity : Z;
  r_Content : string;
  r_Enabled : bool;
  r_AutoIsolate : bool;
  r_AutoKill : bool;
  r_MITRETags : list string
}.

Record RuleMatch := mkRuleMatch {
  RuleID : string;
  RuleName : string;
  RuleType : string;
  Severity : Z;
  Title : string;
  Description : string;
  MITRETags : list string;
  AutoIsolate : bool;
  AutoKill : bool;
  DedupKey : string
}.

(** ** State *)
Record timedEvent := mkTimedEvent {
  ts : time;
  agentID : string;
  eventType : string;
  fields : gmap string string
}.

Record sequenceStage := mkStage {
  tokens : list string;
  st_eventType : string;
  st_field : string;
  exclude : list string;
  excludeField : string
}.

Record sequenceRule := mkSequenceRule {
  rule : DetectionRule;
  window : duration;
  threshold : Z;
  eventTypeFilter : string;
  field : string;
  sq_value : string;
  valueAny : list string;
  groupBy : string;
  distinct : bool;
  distinctField : string;
  cooldown : duration;
  stages : list sequenceStage;
  ordered : bool
}.

Record SequenceEngine := mkSequenceEngine {
  rules : list sequenceRule;
  buffers : gmap string (list timedEvent);
  lastFire : gmap string time;
  maxWindow : duration;
  malformed : Z
}.

Definition NewSequenceEngine : SequenceEngine := mkSequenceEngine [] ∅ ∅ 0 0.

(** ** Parsing *)
Definition newline : ascii := chr 10.

Definition directive_line (out : gmap string string) (line : string) : gmap string string :=
  let line := trim_space line in
  if String.eqb line "" || has_prefix line "#" then out else
  match cut ":" line with
  | None => out
  | Some (k, v) => <[to_lower (trim_space k) := trim_space v]> out
  end.
Definition parseDirectives (content : string) : gmap string string :=
  foldl directive_line ∅ (split_on newline content).

Definition parseDuration (s : string) : option duration := parse_duration (trim_space s).

Definition parseValueAny (s : string) : list string :=
  let s := trim_space s in
  if String.eqb s "" then [] else
  filter (λ v, v ≠ "") ((λ part, to_lower (trim_space part)) <$> split_on "," s).

Definition directive (d : gmap string string) (k : string) : string := default "" (d !! k).

(** The largest [n] such that [stage_1] … [stage_n] are all present; at most
    [fuel] are looked at. *)
Fixpoint count_stages (fuel : nat) (d : gmap string string) (n : Z) : Z :=
  match fuel with
  | O => n - 1
  | S f =>
      match d !! ("stage_" +:+ itoa n) with
      | Some _ => count_stages f d (n + 1)
      | None => n - 1
      end
  end.

Definition parse_stage (d : gmap string string) (i : Z) : option sequenceStage :=
  let key suffix := "stage_" +:+ itoa i +:+ suffix in
  let tokens := parseValueAny (directive d (key "")) in
  match tokens with
  | [] => None
  | _ =>
      Some (mkStage tokens
        (trim_space (directive d (key "_event_type")))
        (to_lower (trim_space (directive d (key "_field"))))
        (parseValueAny (directive d (key "_exclude")))
        (to_lower (trim_space (directive d (key "_exclude_field")))))
  end.

Definition parseStages (d : gmap string string) (stagesStr : option string) : list sequenceStage :=
  match stagesStr with
  | None => []
  | Some s =>
      let n := match atoi (trim_space s) with
               | Some n => if n <? 1 then count_stages (S (size d)) d 1 else n
               | None => count_stages (S (size d)) d 1
               end in
      omap (parse_stage d) (seqZ 1 n)
  end.

Definition defaultSequenceCooldown : duration := 5 * minute.

(** The outcome of [parseSequenceRule]. *)
Inductive parsed :=
| Parsed (sr : sequenceRule)
| NotSequenceRule
| Malformed (why : string).

Definition parse_threshold (thresholdStr : option string) (stages : list sequenceStage) : option Z :=
  match thresholdStr with
  | None => Some (zlen stages)
  | Some t => match atoi (trim_space t) with
              | Some n => if n <? 1 then None else Some n
              | None => None
              end
  end.

Definition parse_cooldown (d : gmap string string) : duration :=
  match d !! "cooldown" with
  | Some cd => if String.eqb cd "" then defaultSequenceCooldown
               else match parseDuration cd with Some x => x | None => 0 end
  | None => defaultSequenceCooldown
  end.

Definition parseSequenceRule (r : DetectionRule) : parsed :=
  let d := parseDirectives (r_Content r) in
  match d !! "window" with
  | None => NotSequenceRule
  | Some windowStr =>
      if negb (bool_decide (is_Some (d !! "threshold"))) &&
         negb (bool_decide (is_Some (d !! "stages"))) then NotSequenceRule else
      match parseDuration windowStr with
      | None => Malformed "invalid window"
      | Some window =>
          let stages := parseStages d (d !! "stages") in
          match parse_threshold (d !! "threshold") stages with
          | None => Malformed "invalid threshold"
          | Some threshold =>
              if bool_decide (is_Some (d !! "stages")) && (zlen stages <? 2)
              then Malformed "staged rule needs at least 2 stages" else
              let g := trim_space (directive d "group_by") in
              Parsed (mkSequenceRule r window threshold
                (trim_space (directive d "event_type"))
                (to_lower (trim_space (directive d "field")))
                (to_lower (trim_space (directive d "value")))
                (parseValueAny (directive d "value_any"))
                (if String.eqb g "" then "agent_id" else g)
                (String.eqb (trim_space (directive d "distinct")) "true")
                (to_lower (trim_space (directive d "distinct_field")))
                (parse_cooldown d) stages
                (String.eqb (trim_space (directive d "ordered")) "true"))
          end
      end
  end.

(** ** Loading *)
Definition load_step (acc : list sequenceRule * duration * Z) (r : DetectionRule)
    : list sequenceRule * duration * Z :=
  let '(rs, mw, bad) := acc in
  if negb (String.eqb (r_Type r) "behavioral") || negb (r_Enabled r) then acc else
  match parseSequenceRule r with
  | NotSequenceRule => acc
  | Malformed _ => (rs, mw, bad + 1)
  | Parsed sr => (rs ++ [sr], if mw <? window sr then window sr else mw, bad)
  end.

Definition LoadRules (rs : list DetectionRule) (e : SequenceEngine) : SequenceEngine :=
  let '(rs, mw, bad) := foldl load_step ([], 0, 0) rs in
  mkSequenceEngine rs (buffers e) (lastFire e) mw bad.

(** ** Matching one event *)
Definition procBasename (s : string) : string :=
  trim_suffix (after_last (λ c, Ascii.eqb c "/" || Ascii.eqb c "\") (to_lower (trim_space s))) ".exe".

Definition value_any_matches (v want : string) : bool :=
  let w := to_lower (trim_space want) in
  if has_prefix w "." || contains_char (λ c, Ascii.eqb c " " || Ascii.eqb c (chr 9)) w
  then contains (to_lower v) w
  else String.eqb (procBasename v) (procBasename w).

Definition valueMatches (sr : sequenceRule) (v : string) : bool :=
  if negb (String.eqb (sq_value sr) "") && contains v (sq_value sr) then true else
  existsb (value_any_matches v) (valueAny sr).

Definition matchesFilter (sr : sequenceRule) (ev : timedEvent) : bool :=
  if negb (String.eqb (eventTypeFilter sr) "") &&
     negb (equal_fold (eventType ev) (eventTypeFilter sr)) then false else
  if negb (String.eqb (field sr) "") &&
     (negb (String.eqb (sq_value sr) "") || (0 <? zlen (valueAny sr))) then
    match fields ev !! field sr with
    | None => false
    | Some v => valueMatches sr v
    end
  else true.

Definition has_token (toks : list string) (v : string) : bool :=
  existsb (λ tok, negb (String.eqb tok "") && contains v tok) toks.

Definition stageMatches (st : sequenceStage) (v : string) : bool := has_token (tokens st) v.

Definition stageExcluded (st : sequenceStage) (stageField : string) (ev : timedEvent) : bool :=
  if (length (exclude st) =? 0)%nat then false else
  let f := if String.eqb (excludeField st) "" then stageField else excludeField st in
  match fields ev !! f with
  | None => false
  | Some v => has_token (exclude st) v
  end.

Definition stageEventField (sr : sequenceRule) (st : sequenceStage) (ev : timedEvent) : bool :=
  let evType := if String.eqb (st_eventType st) "" then eventTypeFilter sr else st_eventType st in
  if negb (String.eqb evType "") && negb (equal_fold (eventType ev) evType) then false else
  let f := if String.eqb (st_field st) "" then field sr else st_field st in
  match fields ev !! f with
  | None => false
  | Some v => if stageExcluded st f ev then false else stageMatches st v
  end.

(** ** Evaluating a buffer *)

(** The loops from the end of the buffer, which stop at the first event before
    [cutoff]; the argument is the reversed buffer. *)
Fixpoint count_back (sr : sequenceRule) (cutoff : time) (rbuf : list timedEvent) : Z :=
  match rbuf with
  | [] => 0
  | ev :: r =>
      if ts ev <? cutoff then 0
      else (if matchesFilter sr ev then 1 else 0) + count_back sr cutoff r
  end.

Fixpoint distinct_back (sr : sequenceRule) (df : string) (cutoff : time)
    (rbuf : list timedEvent) (seen : gset string) : gset string :=
  match rbuf with
  | [] => seen
  | ev :: r =>
      if ts ev <? cutoff then seen else
      distinct_back sr df cutoff r
        (if matchesFilter sr ev then
           match fields ev !! df with Some v => {[v]} ∪ seen | None => seen end
         else seen)
  end.

Fixpoint staged_ordered (sr : sequenceRule) (cutoff : time) (sts : list sequenceStage)
    (buf : list timedEvent) : bool :=
  match buf, sts with
  | [], _ => false
  | _, [] => false
  | ev :: buf', st :: sts' =>
      if (ts ev <? cutoff) || negb (stageEventField sr st ev)
      then staged_ordered sr cutoff sts buf'
      else match sts' with [] => true | _ => staged_ordered sr cutoff sts' buf' end
  end.

(** One event against the stages: the updated marks, the stages that remain, and
    whether none does. *)
Fixpoint mark_stages (sr : sequenceRule) (ev : timedEvent) (sts : list (sequenceStage * bool))
    (remaining : Z) : list (sequenceStage * bool) * Z * bool :=
  match sts with
  | [] => ([], remaining, false)
  | (st, done) :: sts' =>
      if done || negb (stageEventField sr st ev) then
        let '(ms, rem, fin) := mark_stages sr ev sts' remaining in ((st, done) :: ms, rem, fin)
      else if remaining - 1 =? 0 then ((st, true) :: sts', remaining - 1, true)
      else
        let '(ms, rem, fin) := mark_stages sr ev sts' (remaining - 1) in
        ((st, true) :: ms, rem, fin)
  end.

Fixpoint staged_any (sr : sequenceRule) (cutoff : time) (sts : list (sequenceStage * bool))
    (remaining : Z) (buf : list timedEvent) : bool :=
  match buf with
  | [] => false
  | ev :: buf' =>
      if ts ev <? cutoff then staged_any sr cutoff sts remaining buf' else
      let '(sts', remaining', fin) := mark_stages sr ev sts remaining in
      if fin : bool then true else staged_any sr cutoff sts' remaining' buf'
  end.

Definition evaluateStaged (sr : sequenceRule) (buf : list timedEvent) (cutoff : time) : bool :=
  if ordered sr then staged_ordered sr cutoff (stages sr) buf
  else staged_any sr cutoff ((λ st, (st, false)) <$> stages sr) (zlen (stages sr)) buf.

Definition evaluateSequenceRule (sr : sequenceRule) (buf : list timedEvent) (now : time) : bool :=
  let cutoff := now - window sr in
  if (0 <? length (stages sr))%nat then evaluateStaged sr buf cutoff else
  if distinct sr then
    let df := if String.eqb (distinctField sr) "" then field sr else distinctField sr in
    threshold sr <=? Z.of_nat (size (distinct_back sr df cutoff (reverse buf) ∅))
  else threshold sr <=? count_back sr cutoff (reverse buf).

(** ** Observing *)
Definition groupKeyFor (sr : sequenceRule) (te : timedEvent) : option string :=
  if String.eqb (groupBy sr) "" || String.eqb (groupBy sr) "agent_id"
  then Some (r_ID (rule sr) +:+ "|" +:+ agentID te) else
  let groupVal := default "" (fields te !! to_lower (groupBy sr)) in
  if String.eqb (trim_space groupVal) "" then None
  else Some (r_ID (rule sr) +:+ "|" +:+ groupBy sr +:+ "=" +:+ groupVal).

Definition groupKeysForEvent (rs : list sequenceRule) (te : timedEvent) : list string :=
  remove_dups (omap (λ sr, groupKeyFor sr te) rs).

Definition flattenToStrings (evt : event) : gmap string string :=
  foldl (λ m p, <[to_lower p.1 := to_lower (sprint p.2)]> m) ∅ evt.

Fixpoint pruneOlderThan (buf : list timedEvent) (cutoff : time) : list timedEvent :=
  match buf with
  | [] => []
  | ev :: buf' => if ts ev <? cutoff then pruneOlderThan buf' cutoff else buf
  end.

(** A loop over the keys that updates their buffers. *)
Definition touch (f : list timedEvent → list timedEvent) (ks : list string)
    (b : gmap string (list timedEvent)) : gmap string (list timedEvent) :=
  foldl (λ b gk, <[gk := f (default [] (b !! gk))]> b) b ks.

Definition sequenceMatchDescription (sr : sequenceRule) : string :=
  if (0 <? length (stages sr))%nat then
    "キルチェーン '" +:+ r_Name (rule sr) +:+ "' を検知: " +:+ itoa (zlen (stages sr))
    +:+ "段階の攻撃シーケンス(" +:+ (if ordered sr then "順序付き" else "順不同")
    +:+ ")が " +:+ duration_string (window sr) +:+ " 以内に連鎖しました"
  else
    "振る舞いルール '" +:+ r_Name (rule sr) +:+ "' に一致: " +:+ itoa (threshold sr)
    +:+ "件のイベントが " +:+ duration_string (window sr) +:+ " 以内に検出されました".

Definition sequence_match (sr : sequenceRule) : RuleMatch :=
  mkRuleMatch (r_ID (rule sr)) (r_Name (rule sr)) "behavioral" (r_Severity (rule sr))
    ("[BEHAVIORAL] " +:+ r_Name (rule sr)) (sequenceMatchDescription sr)
    (r_MITRETags (rule sr)) (r_AutoIsolate (rule sr)) (r_AutoKill (rule sr)) "".

Definition cooling (sr : sequenceRule) (lf : gmap string time) (gk : string) (now : time) : bool :=
  (0 <? cooldown sr) &&
  match lf !! gk with Some last => now - last <? cooldown sr | None => false end.

(** One rule of the evaluation loop: the fire times, and the rules fired. *)
Definition fire_step (b : gmap string (list timedEvent)) (te : timedEvent)
    (acc : gmap string time * list sequenceRule) (sr : sequenceRule)
    : gmap string time * list sequenceRule :=
  let '(lf, fired) := acc in
  match groupKeyFor sr te with
  | None => acc
  | Some gk =>
      match b !! gk with
      | None => acc
      | Some buf =>
          if cooling sr lf gk (ts te) then acc else
          if evaluateSequenceRule sr buf (ts te) then (<[gk := ts te]> lf, fired ++ [sr]) else acc
      end
  end.

Definition observe_event (e : SequenceEngine) (te : timedEvent) : SequenceEngine * list sequenceRule :=
  if (length (rules e) =? 0)%nat then (e, []) else
  let ks := groupKeysForEvent (rules e) te in
  let b := touch (λ buf, buf ++ [te]) ks (buffers e) in
  let b := touch (λ buf, pruneOlderThan buf (ts te - maxWindow e)) ks b in
  let '(lf, fired) := foldl (fire_step b te) (lastFire e, []) (rules e) in
  (mkSequenceEngine (rules e) b lf (maxWindow e) (malformed e), fired).

Definition observeAt (e : SequenceEngine) (agent etype : string) (evt : event) (now : time)
    : SequenceEngine * list RuleMatch :=
  let '(e', fired) := observe_event e (mkTimedEvent now agent etype (flattenToStrings evt)) in
  (e', sequence_match <$> fired).
