(* ===== verification/Detection.v ===== *)
(** * From a match to an alert and its response

    [server/internal/detection/engine.go] after the matchers have spoken: the
    duplicate window, the engine's own containment, the suppression rules, the
    anomaly score, saving, publishing, and rule-based isolation; with
    [self_remediation_suppression.go], [evidence.go], [playbook_runner.go] and
    [risk_action.go].  Isolations go through the interface of [Isolator.v].  What
    the database answers, the clock and the fresh identifiers of one match are
    data ([Turn]); publishing, notifying, forwarding and the like are effects, in
    order.  [hour_of] is the hour of a time in the zone of the process. *)

From S2P Require Import Prelude GoStrings Event Binary64 Ueba Isolation Isolator.
From S2P Require Import Suppression Sequence.

#[local] Open Scope string_scope.
#[local] Open Scope list_scope.
#[local] Open Scope Z_scope.

(** ** Alerts *)
Record Alert := mkAlert {
  al_ID : string;
  al_AgentID : string;
  al_Hostname : string;
  al_OS : string;
  al_RuleID : string;
  al_RuleName : string;
  al_Severity : Z;
  al_Status : string;
  al_Title : string;
  al_Description : string;
  al_EventIDs : list string;
  al_MITRETech : string;
  al_MITRETags : list string;
  al_AutoIsolate : bool;
  al_AnomalyScore : f64;
  al_CreatedAt : time
}.

(** What the suppression rules look at. *)
Definition suppression_view (a : Alert) : StoredAlert :=
  mkStoredAlert (al_RuleName a) (al_Hostname a) (al_Severity a) (al_MITRETech a) (al_AgentID a).

Definition with_score (a : Alert) (s : f64) : Alert :=
  mkAlert (al_ID a) (al_AgentID a) (al_Hostname a) (al_OS a) (al_RuleID a) (al_RuleName a)
    (al_Severity a) (al_Status a) (al_Title a) (al_Description a) (al_EventIDs a)
    (al_MITRETech a) (al_MITRETags a) (al_AutoIsolate a) s (al_CreatedAt a).

(** The fields of [EventEnvelope] an alert takes over. *)
Record Envelope := mkEnvelope {
  ev_AgentID : string;
  ev_Hostname : string;
  ev_Platform : string;
  ev_Type : string;
  ev_EventID : string
}.

Definition evidenceEventIDs (id : string) : list string :=
  if String.eqb id "" then [] else [id].

Definition sourceLabel (ruleType : string) : string :=
  if String.eqb ruleType "" then "unknown" else ruleType.

Definition alert_of (id : string) (created : time) (env : Envelope) (m : RuleMatch) : Alert :=
  mkAlert id (ev_AgentID env) (ev_Hostname env) (ev_Platform env) (RuleID m)
    (Sequence.RuleName m) (Severity m) "open" (Title m) (Description m)
    (evidenceEventIDs (ev_EventID env)) (match MITRETags m with t :: _ => t | [] => "" end)
    (MITRETags m) (AutoIsolate m) fzero created.

(** ** The duplicate window *)
Definition alertDedupWindow : duration := 5 * minute.
Definition alertDedupCap : Z := 100000.

Abbreviation dedup_map := (gmap string time) (only parsing).

Definition isDuplicateAlert (now : time) (key : string) (d : dedup_map) : dedup_map * bool :=
  let dup := match d !! key with Some last => now - last <? alertDedupWindow | None => false end in
  if dup then (d, true) else
  let d := if alertDedupCap <? Z.of_nat (size d) then ∅ else d in
  (<[key := now]> d, false).

Definition markBaselineSeen (key : string) (seen : gset string) : gset string * bool :=
  if decide (key ∈ seen) then (seen, false) else
  let seen := if 50000 <? Z.of_nat (size seen) then ∅ else seen in
  ({[key]} ∪ seen, true).

Definition nul : string := String (chr 0) "".

Definition dedup_key (a : Alert) (m : RuleMatch) : string :=
  let k := al_AgentID a +:+ nul +:+ al_Title a in
  if String.eqb (DedupKey m) "" then k else k +:+ nul +:+ DedupKey m.

(** ** The engine's own containment *)
Definition selfRemediationWindow : duration := 90 * second.

Definition firewallChangeMarkers : list string :=
  ["firewall rule added"; "firewall rule deleted"; "firewall rule modified"; "advfirewall";
   "netsh"; "ファイアウォール"].

Definition describesFirewallChange (a : Alert) : bool :=
  let hay := to_lower (al_RuleName a +:+ " " +:+ al_Title a) in
  existsb (contains hay) firewallChangeMarkers.

(** [configured]: the suppressor is not nil; [recent]: what [RecentContainment]
    answers for the agent and [selfRemediationWindow]. *)
Definition IsSelfInflicted (configured : bool) (recent : res bool) (a : Alert) : bool :=
  if negb configured || String.eqb (al_AgentID a) "" then false else
  if negb (describesFirewallChange a) then false else
  match recent with Err _ => false | Ok b => b end.

(** ** Configuration and wiring *)
Record EngineConfig := mkEngineConfig {
  AutoResponseEnabled : bool;
  AIAnalysisMinSeverity : Z;
  AIAnalysisMinAnomalyScore : f64;
  AutoIsolateSeverityThreshold : Z;
  UEBAAnomalyThreshold : f64
}.

(** Which optional parts the engine was given. *)
Record Wiring := mkWiring {
  w_nats : bool;
  w_siem : bool;
  w_notifier : bool;
  w_playbooks : bool;
  w_ai : bool;
  w_suppressionHit : bool;
  w_selfRemediation : bool;
  w_suppression : option SuppressionMatcher;
  w_GetRule : string → option DetectionRule;
  w_config : EngineConfig
}.

(** ** Effects *)
Record ResponseActionLog := mkResponseActionLog {
  ra_AlertID : string;
  ra_AgentID : string;
  ra_ActionType : string;
  ra_Reason : string;
  ra_ExecutedBy : string;
  ra_Success : bool
}.

(** What is handed over, in order: the answer of the store matters for an alert
    alone ([failed]); [logAction] discards that of [SaveResponseAction].
    [RunPlaybooks] and [AnalyzeThreat] start goroutines that hold the same
    gatekeeper; what they do to it is in [Containment.v]. *)
Inductive Effect :=
| SaveAlert (a : Alert) (failed : option string)
| IncrHitCount (ruleID : string)
| ForwardSIEM (a : Alert)
| PublishAlert (a : Alert)
| NotifyAlert (a : Alert)
| SaveResponseAction (l : ResponseActionLog)
| RunPlaybooks (a : Alert)
| AnalyzeThreat (a : Alert).

(** What the outside answers while one match is handled. *)
Record Turn := mkTurn {
  new_id : string;
  ueba_id : string;
  clock : time;
  recent_containment : res bool;
  save_error : option string;
  ueba_save_error : option string
}.

Section Engine.
Context {I : Type} `{!Isolator I}.
Context (regexp_compile : string → option (string → bool)).
Context (exp2 : f64 → f64) (hour_of : time → Z).

Record Engine := mkEngine {
  alertDedup : gmap string time;
  isolator : option I;
  ueba : option UEBAScorer;
  effects : list Effect
}.

Definition emit (e : Engine) (xs : list Effect) : Engine :=
  mkEngine (alertDedup e) (isolator e) (ueba e) (effects e ++ xs).
Definition set_dedup (e : Engine) (d : gmap string time) : Engine :=
  mkEngine d (isolator e) (ueba e) (effects e).
Definition set_isolator (e : Engine) (i : I) : Engine :=
  mkEngine (alertDedup e) (Some i) (ueba e) (effects e).
Definition set_ueba (e : Engine) (u : UEBAScorer) : Engine :=
  mkEngine (alertDedup e) (isolator e) (Some u) (effects e).

(** ** The anomaly score *)
Definition mentions (s : string) (subs : list string) : bool := existsb (contains s) subs.

Definition alert_features (a : Alert) : UserBehaviorFeatures :=
  let hour := hour_of (al_CreatedAt a) in
  let tag := to_lower (al_MITRETech a +:+ " " +:+ al_Title a) in
  mkFeatures hour "" 1
    (if mentions tag ["brute"; "t1110"; "login_failed"; "ログイン失敗"] then 1 else 0) fzero
    ((hour <? 6) || (22 <=? hour)) false
    (mentions tag ["privilege"; "権限昇格"; "t1068"; "t1134"; "t1548"])
    (mentions tag ["exfil"; "collection"; "t1048"; "大量"]).

Definition ueba_alert (w : Wiring) (t : Turn) (src : Alert) (risk : f64) : Alert :=
  let sev := if fle (fint 90) risk then 8 else if fle (fint 75) risk then 7 else 6 in
  mkAlert (ueba_id t) (al_AgentID src) (al_Hostname src) (al_OS src) ""
    "UEBA行動異常: 累積リスクスコア閾値超過" sev "open"
    ("[UEBA] エンティティの行動リスクが高水準 (スコア " +:+ itoa (ftrunc risk) +:+ "/100)")
    ("エージェント " +:+ al_AgentID src +:+ " の累積行動リスクスコアが " +:+ itoa (ftrunc risk)
       +:+ " に達し、設定閾値 " +:+ itoa (ftrunc (UEBAAnomalyThreshold (w_config w)))
       +:+ " を超過しました。個々のルールには現れないインサイダー脅威/侵害アカウントの兆候を示します。")
    [] "T1078" ["T1078"] false (fdiv risk (fint 100)) (al_CreatedAt src).

Definition maybeEmitUEBAAnomaly (w : Wiring) (t : Turn) (src : Alert) (risk : f64) (e : Engine)
    : Engine :=
  let th := UEBAAnomalyThreshold (w_config w) in
  if fle th fzero || flt risk th || String.eqb (al_AgentID src) "" then e else
  let '(d, dup) := isDuplicateAlert (clock t) ("ueba-anomaly|" +:+ al_AgentID src) (alertDedup e) in
  let e := set_dedup e d in
  if dup then e else emit e [SaveAlert (ueba_alert w t src risk) (ueba_save_error t)].

Definition enrichAnomalyScore (w : Wiring) (t : Turn) (a : Alert) (e : Engine) : Engine * Alert :=
  if String.eqb (al_AgentID a) "" || negb (feq (al_AnomalyScore a) fzero) then (e, a) else
  match ueba e with
  | None => (e, a)
  | Some u =>
      let u := UpdateProfile exp2 (al_AgentID a) "agent" (alert_features a) u in
      let risk := GetRiskScore u (al_AgentID a) in
      let e := maybeEmitUEBAAnomaly w t a risk (set_ueba e u) in
      (e, with_score a (fdiv risk (fint 100)))
  end.

(** ** Rule-based response *)
Definition auto_reason (label : string) (severity : Z) : string :=
  "ルールベース自動隔離: " +:+ label +:+ " (重大度: " +:+ itoa severity +:+ ")".

(** Whether the alert may isolate, and under which label. *)
Definition isolation_authority (w : Wiring) (a : Alert) (m : RuleMatch) : bool * string :=
  match w_GetRule w (al_RuleID a) with
  | Some r => if r_AutoIsolate r then (true, r_Name r)
              else (al_AutoIsolate a || AutoIsolate m, al_RuleName a)
  | None => (al_AutoIsolate a || AutoIsolate m, al_RuleName a)
  end.

Definition applyRuleBasedResponse (w : Wiring) (a : Alert) (m : RuleMatch) (e : Engine) : Engine :=
  if negb (AutoResponseEnabled (w_config w)) then e else
  let '(autoIsolate, ruleLabel) := isolation_authority w a m in
  if autoIsolate && (AutoIsolateSeverityThreshold (w_config w) <=? al_Severity a) then
    match isolator e with
    | None => e
    | Some i =>
        let reason := auto_reason ruleLabel (al_Severity a) in
        let '(i', r) := isolate i (mkRequest (al_AgentID a) reason (al_ID a) OriginRule ""
                                     ruleLabel (al_Hostname a)) in
        let e := set_isolator e i' in
        match error r with
        | Some _ => e
        | None =>
            if Executed (r_Outcome (result r))
            then emit e [SaveResponseAction
                   (mkResponseActionLog (al_ID a) (al_AgentID a) "isolate" reason "auto_rule" true)]
            else e
        end
    end
  else e.

(** ** One match *)
Definition when (b : bool) (x : Effect) : list Effect := if b then [x] else [].

Definition should_analyze (w : Wiring) (severity : Z) (score : f64) : bool :=
  (AIAnalysisMinSeverity (w_config w) <=? severity) ||
  (flt fzero (AIAnalysisMinAnomalyScore (w_config w)) &&
   fle (AIAnalysisMinAnomalyScore (w_config w)) score).

(** What follows a saved alert. *)
Definition after_save (w : Wiring) (a : Alert) (m : RuleMatch) (e : Engine) : Engine :=
  let e := emit e (when (w_siem w) (ForwardSIEM a) ++ when (w_nats w) (PublishAlert a) ++
                   when (w_notifier w && (5 <=? al_Severity a)) (NotifyAlert a)) in
  let e := applyRuleBasedResponse w a m e in
  emit e (when (w_playbooks w) (RunPlaybooks a) ++
          when (should_analyze w (Severity m) (al_AnomalyScore a) && w_ai w) (AnalyzeThreat a)).

Definition suppressed_by (w : Wiring) (t : Turn) (flat : event) (a : Alert) : option string :=
  match w_suppression w with
  | None => None
  | Some sm =>
      let '(b, _, id) := IsSuppressed regexp_compile (clock t) sm (suppression_view a)
                           (SuppressionContextFrom flat) in
      if b : bool then Some id else None
  end.

Definition noteSuppressionHit (w : Wiring) (id : string) (e : Engine) : Engine :=
  emit e (when (w_suppressionHit w) (IncrHitCount id)).

Definition handle_match (w : Wiring) (env : Envelope) (flat : event) (t : Turn) (m : RuleMatch)
    (e : Engine) : Engine :=
  let a := alert_of (new_id t) (clock t) env m in
  let '(d, dup) := isDuplicateAlert (clock t) (dedup_key a m) (alertDedup e) in
  let e := set_dedup e d in
  if dup then e else
  if IsSelfInflicted (w_selfRemediation w) (recent_containment t) a then e else
  match suppressed_by w t flat a with
  | Some id => noteSuppressionHit w id e
  | None =>
      let '(e, a) := enrichAnomalyScore w t a e in
      let e := emit e [SaveAlert a (save_error t)] in
      match save_error t with
      | Some _ => e
      | None => after_save w a m e
      end
  end.

(** The loop over the matches of one event. *)
Fixpoint handle_matches (w : Wiring) (env : Envelope) (flat : event) (ts : nat → Turn) (k : nat)
    (ms : list RuleMatch) (e : Engine) : Engine :=
  match ms with
  | [] => e
  | m :: ms' => handle_matches w env flat ts (S k) ms' (handle_match w env flat (ts k) m e)
  end.

(** ** Indicator matches: no duplicate window, no automatic isolation *)
Record IOCHit := mkIOCHit {
  ioc_Type : string;
  ioc_Severity : Z;
  ioc_Confidence : Z;
  ioc_Description : string;
  MatchedOn : string;
  ioc_Value : string
}.

Definition iocSeverity (h : IOCHit) : Z :=
  if (75 <=? ioc_Confidence h) && (ioc_Severity h <? 10) then ioc_Severity h + 1
  else ioc_Severity h.

Definition IOCAlertTitlePrefixJA : string := "既知IOC検出: ".

Definition ioc_alert (id : string) (created : time) (env : Envelope) (h : IOCHit) : Alert :=
  mkAlert id (ev_AgentID env) (ev_Hostname env) (ev_Platform env) ""
    ("IOCマッチ: " +:+ ioc_Type h) (iocSeverity h) "open"
    (IOCAlertTitlePrefixJA +:+ ioc_Value h)
    ("フィールド " +:+ MatchedOn h +:+ " が既知の脅威インジケーター (" +:+ ioc_Type h
       +:+ ") に一致しました。信頼度 " +:+ itoa (ioc_Confidence h) +:+ "/100。"
       +:+ ioc_Description h)
    [] "T1071" [] false fzero created.

Definition handle_ioc_hit (w : Wiring) (env : Envelope) (flat : event) (t : Turn) (h : IOCHit)
    (e : Engine) : Engine :=
  let a := ioc_alert (new_id t) (clock t) env h in
  match suppressed_by w t flat a with
  | Some id => noteSuppressionHit w id e
  | None =>
      let '(e, a) := enrichAnomalyScore w t a e in
      let e := emit e [SaveAlert a (save_error t)] in
      match save_error t with
      | Some _ => e
      | None =>
          emit e (when (w_nats w) (PublishAlert a) ++
                  when (w_notifier w && (5 <=? al_Severity a)) (NotifyAlert a) ++
                  when (w_playbooks w) (RunPlaybooks a) ++
                  when (should_analyze w (al_Severity a) (al_AnomalyScore a) && w_ai w)
                    (AnalyzeThreat a))
      end
  end.

(** ** Behavioural findings of the process chain *)
Definition severityStringToInt (s : string) : Z :=
  if String.eqb s "critical" then 10 else
  if String.eqb s "high" then 8 else
  if String.eqb s "medium" then 5 else
  if String.eqb s "low" then 3 else 5.

(** ** Playbooks *)
Record PlaybookAction := mkPlaybookAction {
  pa_Type : string;
  pa_Title : string;
  pa_Severity : Z;
  pa_Message : string;
  pa_UserID : string
}.

(** The parts of the runner that may be missing, and what its stores answer. *)
Record PlaybookEnv := mkPlaybookEnv {
  pb_incidents : option (res string * option string);   (** [Insert], [LinkAlert] *)
  pb_notifier : option (option string);
  pb_alerts : option (option string)
}.

Inductive PlaybookError := NotExecuted (outcome : string) | Failed (err : string).

Definition playbook_request (a : Alert) : Request :=
  mkRequest (al_AgentID a)
    ("プレイブック自動隔離: アラート " +:+ al_Title a +:+ " (重大度: " +:+ itoa (al_Severity a) +:+ ")")
    (al_ID a) OriginPlaybook "" (al_Title a) (al_Hostname a).

Definition runAction (p : PlaybookEnv) (a : Alert) (act : PlaybookAction) (i : option I)
    : option I * option PlaybookError :=
  let fail s := (i, Some (Failed s)) in
  let told r := match r with Some err => fail err | None => (i, None) end in
  if String.eqb (pa_Type act) "isolate_endpoint" then
    match i with
    | None => fail "isolation gatekeeper not configured"
    | Some g =>
        let '(g', r) := isolate g (playbook_request a) in
        (Some g', match error r with
                  | Some err => Some (Failed err)
                  | None => if Executed (r_Outcome (result r)) then None
                            else Some (NotExecuted (r_Outcome (result r)))
                  end)
    end
  else if String.eqb (pa_Type act) "create_incident" then
    match pb_incidents p with
    | None => fail "incident store not configured"
    | Some (Err err, _) => fail err
    | Some (Ok _, linked) => told linked
    end
  else if String.eqb (pa_Type act) "notify" then
    match pb_notifier p with None => fail "notifier not configured" | Some r => told r end
  else if String.eqb (pa_Type act) "assign_alert" then
    match pb_alerts p with
    | None => fail "alert store not configured"
    | Some r => if String.eqb (pa_UserID act) "" then fail "assign_alert に user_id が指定されていません"
                else told r
    end
  else fail ("unknown action type: " +:+ pa_Type act).

Record PlaybookRun := mkPlaybookRun {
  ActionsRun : list PlaybookAction;
  ErrorMsg : string;
  run_Success : bool
}.

(** The actions that were carried out, and the failures. *)
Fixpoint run_playbook (p : nat → PlaybookEnv) (k : nat) (a : Alert) (acts : list PlaybookAction)
    (i : option I) : option I * list PlaybookAction * list string :=
  match acts with
  | [] => (i, [], [])
  | act :: acts' =>
      let '(i, err) := runAction (p k) a act i in
      let '(i, done_, failures) := run_playbook p (S k) a acts' i in
      match err with
      | None => (i, act :: done_, failures)
      | Some (NotExecuted _) => (i, done_, failures)
      | Some (Failed s) => (i, done_, (pa_Type act +:+ ": " +:+ s) :: failures)
      end
  end.

Definition runActions (p : nat → PlaybookEnv) (a : Alert) (acts : list PlaybookAction)
    (i : option I) : option I * PlaybookRun :=
  let '(i, done_, failures) := run_playbook p 0 a acts i in
  (i, mkPlaybookRun done_ (join "; " failures) (match failures with [] => true | _ => false end)).
End Engine.

Arguments Engine : clear implicits.

(** ** The risk-score monitor *)
Record RiskActionMonitor := mkMonitor { failed : gset string }.

Inductive RiskAlert := Isolated (agent : string) (score : Z) | IsolationFailed (agent : string) (score : Z).

Definition markFailed (agent : string) (m : RiskActionMonitor) : RiskActionMonitor * bool :=
  if decide (agent ∈ failed m) then (m, false) else (mkMonitor ({[agent]} ∪ failed m), true).

(** [isolate_agent] is the commander: whether the isolation failed. *)
Fixpoint applyIsolations (isolate_failed : string → bool) (ms : list (string * Z))
    (m : RiskActionMonitor) : RiskActionMonitor * list RiskAlert :=
  match ms with
  | [] => (m, [])
  | (agent, score) :: ms' =>
      let '(m, out) :=
        if isolate_failed agent then
          let '(m, first) := markFailed agent m in
          (m, if first : bool then [IsolationFailed agent score] else [])
        else (mkMonitor (failed m ∖ {[agent]}), [Isolated agent score]) in
      let '(m, rest) := applyIsolations isolate_failed ms' m in
      (m, out ++ rest)
  end.
