(* ===== verification/DetectionProofs.v ===== *)
(** * From a match to an alert and its response: theorems

    Which matches become alerts after any history of matches, and what follows a
    saved one; the duplicate window against the history of accepted alerts; when the engine isolates, what
    it records about it, and that with the gatekeeper behind the interface it
    stays in the hourly budget. *)

From stdpp Require Import relations.
From S2P Require Import Prelude GoStrings Event Binary64 Ueba Isolation IsolationProofs Isolator.
From S2P Require Import Suppression Sequence Detection.

#[local] Open Scope string_scope.
#[local] Open Scope list_scope.
#[local] Open Scope Z_scope.

(** ** The duplicate window *)

(** A sequence of questions to the window, with their times; the accepted ones,
    latest first. *)
Fixpoint ask (qs : list (time * string)) (d : gmap string time) (acc : list (time * string))
    : gmap string time * list bool * list (time * string) :=
  match qs with
  | [] => (d, [], acc)
  | (t, k) :: qs' =>
      let '(d, b) := isDuplicateAlert t k d in
      let '(d, bs, acc) := ask qs' d (if b : bool then acc else (t, k) :: acc) in
      (d, b :: bs, acc)
  end.

(** The reference: repeat an alert that was accepted less than five minutes ago. *)
Definition recent (acc : list (time * string)) (t : time) (k : string) : bool :=
  existsb (λ p : time * string, String.eqb p.2 k && (t - p.1 <? alertDedupWindow)) acc.

Fixpoint reference (qs : list (time * string)) (acc : list (time * string)) : list bool :=
  match qs with
  | [] => []
  | (t, k) :: qs' =>
      let b := recent acc t k in b :: reference qs' (if b then acc else (t, k) :: acc)
  end.

Fixpoint forward (last : time) (qs : list (time * string)) : Prop :=
  match qs with [] => True | (t, _) :: qs' => last <= t ∧ forward t qs' end.

(** The table holds the latest accepted time of every key. *)
Record window_ok (last : time) (d : gmap string time) (acc : list (time * string)) : Prop := {
  wo_past t k : (t, k) ∈ acc → t <= last;
  wo_table k t : d !! k = Some t → (t, k) ∈ acc;
  wo_latest t k : (t, k) ∈ acc → ∃ t', d !! k = Some t' ∧ t <= t';
  wo_size : Z.of_nat (size d) <= zlen acc
}.

Lemma recent_spec last d acc t k : window_ok last d acc → last <= t →
  (match d !! k with Some l => t - l <? alertDedupWindow | None => false end) = recent acc t k.
Proof.
  intros [Hp Ht Hl _] Hle. apply eq_bool_prop_intro. rewrite !Is_true_true.
  unfold recent. rewrite existsb_exists. split.
  - destruct (d !! k) as [l|] eqn:E; [|done]. intros H. exists (l, k).
    split; [by apply list_elem_of_In, Ht|]. simpl. by rewrite String.eqb_refl.
  - intros ([t1 k1] & Hin & H). apply list_elem_of_In in Hin. simpl in H.
    apply andb_true_iff in H as [Hk H]. apply String.eqb_eq in Hk as ->.
    destruct (Hl _ _ Hin) as (t' & -> & Hle'). lia.
Qed.

Lemma window_ok_accept last d acc t k : window_ok last d acc → last <= t →
  window_ok t (<[k := t]> d) ((t, k) :: acc).
Proof.
  intros [Hp Ht Hl Hs] Hle. split.
  - intros t' k' [[= -> ->]|Hin]%elem_of_cons; [lia|]. apply Hp in Hin. lia.
  - intros k' t' [[-> ->]|[_ H]]%lookup_insert_Some; [by left|right; auto].
  - intros t' k' [[= -> ->]|Hin]%elem_of_cons.
    + exists t. by rewrite lookup_insert_eq.
    + destruct (decide (k = k')) as [->|Hne].
      * exists t. rewrite lookup_insert_eq. split; [done|]. apply Hp in Hin. lia.
      * rewrite lookup_insert_ne by done. auto.
  - pose proof (map_size_insert k t d) as E. rewrite E.
    unfold zlen in *. simpl. destruct (d !! k); simpl; lia.
Qed.

Lemma window_ok_later last last' d acc : window_ok last d acc → last <= last' →
  window_ok last' d acc.
Proof. intros [Hp Ht Hl Hs] Hle. split; auto. intros t k Hin. apply Hp in Hin. lia. Qed.

Lemma ask_reference qs d acc last : window_ok last d acc → forward last qs →
  zlen acc + zlen qs <= alertDedupCap → (ask qs d acc).1.2 = reference qs acc.
Proof.
  revert d acc last. induction qs as [|[t k] qs IH]; intros d acc last Hok Hf Hn; [done|].
  destruct Hf as [Hle Hf]. cbn [ask reference]. unfold isDuplicateAlert.
  rewrite (recent_spec last d acc t k Hok Hle).
  assert (zlen ((t, k) :: qs) = 1 + zlen qs) as Elen by (unfold zlen; rewrite length_cons; lia).
  pose proof (zlen_nonneg qs). destruct (recent acc t k).
  - specialize (IH d acc t (window_ok_later _ _ _ _ Hok Hle) Hf ltac:(lia)).
    destruct (ask qs d acc) as [[d' bs] acc']. simpl in *. by f_equal.
  - destruct (Z.ltb_spec alertDedupCap (Z.of_nat (size d))) as [Hbig|_].
    { pose proof (wo_size _ _ _ Hok). lia. }
    specialize (IH (<[k:=t]> d) ((t, k) :: acc) t (window_ok_accept _ _ _ _ _ Hok Hle) Hf).
    assert (zlen ((t, k) :: acc) = 1 + zlen acc) as Elen' by (unfold zlen; rewrite length_cons; lia).
    specialize (IH ltac:(lia)).
    destruct (ask qs (<[k:=t]> d) ((t, k) :: acc)) as [[d' bs] acc']. simpl in *. by f_equal.
Qed.

Lemma window_ok_empty last : window_ok last ∅ [].
Proof. split; set_solver. Qed.

(** While the clock does not go back, the engine's table answers like the full
    history for the first 100000 questions: an alert is dropped as a duplicate
    exactly when one with the same key was accepted less than five minutes
    before. *)
Theorem dedup_refines_history qs last : forward last qs → zlen qs <= alertDedupCap →
  (ask qs ∅ []).1.2 = reference qs [].
Proof.
  intros Hf Hn. apply (ask_reference qs ∅ [] last); [apply window_ok_empty|done|].
  change (zlen (@nil (time * string))) with 0. lia.
Qed.

(** Past the cap the table is emptied: a key accepted a moment ago is accepted
    again. *)
Lemma dedup_reset_forgets now d key last : alertDedupCap < Z.of_nat (size d) →
  d !! key = Some last → now - last < alertDedupWindow → ∀ other, d !! other = None →
  let d' := (isDuplicateAlert now other d).1 in
  other ≠ key → (isDuplicateAlert now key d').2 = false.
Proof.
  intros Hs Hk Hw other Ho. unfold isDuplicateAlert at 1. rewrite Ho. cbn [fst].
  destruct (Z.ltb_spec alertDedupCap (Z.of_nat (size d))); [|lia]. cbn zeta. intros Hne.
  unfold isDuplicateAlert. by rewrite lookup_insert_ne, lookup_empty by done.
Qed.

(** ** What becomes of a match *)
Section Engine.
Context {I : Type} `{!Isolator I, !IsolatorOk I}.
Context (regexp_compile : string → option (string → bool)).
Context (exp2 : f64 → f64) (hour_of : time → Z).

Implicit Types e : Engine I.

Abbreviation handle_match := (handle_match regexp_compile exp2 hour_of).
Abbreviation handle_matches := (handle_matches regexp_compile exp2 hour_of).
Abbreviation handle_ioc_hit := (handle_ioc_hit regexp_compile exp2 hour_of).
Abbreviation enrichAnomalyScore := (enrichAnomalyScore exp2 hour_of).
Abbreviation suppressed_by := (suppressed_by regexp_compile).

(** The commands the engine's isolator has accepted. *)
Definition cut_by e : list Command := match isolator e with Some i => bus i | None => [] end.

(** The conditions of an automatic isolation. *)
Definition may_isolate (w : Wiring) (a : Alert) (m : RuleMatch) : bool :=
  AutoResponseEnabled (w_config w) && (isolation_authority w a m).1 &&
  (AutoIsolateSeverityThreshold (w_config w) <=? al_Severity a).

Definition response_log (w : Wiring) (a : Alert) (m : RuleMatch) : ResponseActionLog :=
  mkResponseActionLog (al_ID a) (al_AgentID a) "isolate"
    (auto_reason (isolation_authority w a m).2 (al_Severity a)) "auto_rule" true.

(** The engine responded with an isolation, or it did nothing: what is recorded
    and what went out. *)
Inductive response (w : Wiring) (a : Alert) (m : RuleMatch) : list Effect → list Command → Prop :=
| no_response : response w a m [] []
| response_cut : may_isolate w a m = true →
    response w a m [SaveResponseAction (response_log w a m)] [Cut (al_AgentID a)].

Lemma emit_nil e : emit e [] = e.
Proof. destruct e. unfold emit. simpl. by rewrite app_nil_r. Qed.

Lemma applyRuleBasedResponse_spec w a m e :
  let e' := applyRuleBasedResponse w a m e in
  ∃ xs cs, effects e' = effects e ++ xs ∧ cut_by e' = cut_by e ++ cs ∧ response w a m xs cs.
Proof.
  cbn zeta. unfold applyRuleBasedResponse, cut_by.
  assert (∃ xs cs, effects e = effects e ++ xs ∧ cut_by e = cut_by e ++ cs ∧ response w a m xs cs)
    as Hnone by (exists [], []; rewrite !app_nil_r; auto using no_response).
  destruct (AutoResponseEnabled (w_config w)) eqn:En; cbn [negb]; [|exact Hnone].
  destruct (isolation_authority w a m) as [auto label] eqn:Ea.
  destruct (auto && _) eqn:Ec; [|exact Hnone].
  destruct (isolator e) as [i|] eqn:Ei; [|unfold cut_by in Hnone; by rewrite Ei in *].
  set (req := mkRequest _ _ _ _ _ _ _).
  pose proof (isolate_bus i req) as Hb. pose proof (isolate_error i req) as He.
  destruct (isolate i req) as [i' r]. simpl in Hb, He.
  destruct (error r) as [err|]; cbn [negb].
  - rewrite He, app_nil_r in Hb by done. exists [], []. simpl. rewrite !app_nil_r.
    split_and!; [done|done|apply no_response].
  - destruct (Executed _); simpl.
    + eexists _, _. split; [reflexivity|]. split; [exact Hb|].
      replace (auto_reason _ _) with (auto_reason (isolation_authority w a m).2 (al_Severity a))
        by by rewrite Ea. apply response_cut. unfold may_isolate. by rewrite En, Ea.
    + exists [], []. rewrite app_nil_r in Hb. rewrite !app_nil_r. split_and!; [done|done|apply no_response].
Qed.

(** The score changes the alert's score and the profile only; it may save an
    alert of its own. *)
Lemma enrich_spec w t a e :
  let '(e', b) := enrichAnomalyScore w t a e in
  ∃ s u, b = with_score a s ∧ effects e' = effects e ++ u ∧ isolator e' = isolator e ∧
    (u = [] ∨ ∃ risk, u = [SaveAlert (ueba_alert w t a risk) (ueba_save_error t)]).
Proof.
  assert (∃ s u, a = with_score a s ∧ effects e = effects e ++ u ∧ isolator e = isolator e ∧
    (u = [] ∨ ∃ risk, u = [SaveAlert (ueba_alert w t a risk) (ueba_save_error t)])) as Hnone.
  { exists (al_AnomalyScore a), []. rewrite app_nil_r. destruct a; simpl; auto. }
  unfold Detection.enrichAnomalyScore. destruct (_ || _); [exact Hnone|].
  destruct (ueba e) as [u|]; [|exact Hnone]. clear Hnone.
  set (u' := UpdateProfile _ _ _ _ _). set (risk := GetRiskScore _ _).
  unfold maybeEmitUEBAAnomaly.
  destruct (_ || _); [eexists _, []; rewrite app_nil_r; by auto|].
  destruct (isDuplicateAlert _ _ _) as [d dup]. destruct dup.
  - eexists _, []. rewrite app_nil_r. by auto.
  - eexists _, _. repeat split. eauto.
Qed.

(** It asks the duplicate table for the anomaly alert, or not at all. *)
Lemma enrich_dedup w t a e :
  let e' := (enrichAnomalyScore w t a e).1 in
  alertDedup e' = alertDedup e ∨
  alertDedup e' = (isDuplicateAlert (clock t) ("ueba-anomaly|" +:+ al_AgentID a) (alertDedup e)).1.
Proof.
  unfold Detection.enrichAnomalyScore. destruct (_ || _); [by left|].
  destruct (ueba e) as [u|]; [|by left]. unfold maybeEmitUEBAAnomaly. cbn [fst].
  destruct (_ || _); [by left|]. right. cbn [alertDedup set_ueba].
  by destruct (isDuplicateAlert _ _ _) as [d []].
Qed.

(** The effects of an alert that was saved, in order, with the response in its
    place. *)
Definition raised (w : Wiring) (b : Alert) (m : RuleMatch) (response : list Effect) : list Effect :=
  when (w_siem w) (ForwardSIEM b) ++ when (w_nats w) (PublishAlert b) ++
  when (w_notifier w && (5 <=? al_Severity b)) (NotifyAlert b) ++ response ++
  when (w_playbooks w) (RunPlaybooks b) ++
  when (should_analyze w (Severity m) (al_AnomalyScore b) && w_ai w) (AnalyzeThreat b).

Lemma after_save_spec w b m e :
  let e' := after_save w b m e in
  ∃ xs cs, effects e' = effects e ++ raised w b m xs ∧ cut_by e' = cut_by e ++ cs ∧
    response w b m xs cs.
Proof.
  cbn zeta. unfold after_save. set (e1 := emit e _).
  destruct (applyRuleBasedResponse_spec w b m e1) as (xs & cs & E1 & E2 & Hr).
  exists xs, cs. split; [|split; [exact E2|done]].
  cbn [emit effects]. rewrite E1. unfold e1, raised. simpl. by rewrite <-!app_assoc.
Qed.

(** ** A match after any history *)

(** One match to handle: its envelope, the fields of its event, and what the
    outside answers meanwhile. *)
Record Arrival := mkArrival {
  arr_turn : Turn;
  arr_env : Envelope;
  arr_fields : event;
  arr_match : RuleMatch
}.

Definition arrive w e (x : Arrival) : Engine I := handle_match w (arr_env x) (arr_fields x) (arr_turn x) (arr_match x) e.
Definition arrivals w e (l : list Arrival) : Engine I := foldl (arrive w) e l.

(** The same finding on the same endpoint. *)
Definition same_finding (x y : Arrival) : bool :=
  String.eqb (ev_AgentID (arr_env x)) (ev_AgentID (arr_env y)) &&
  String.eqb (Title (arr_match x)) (Title (arr_match y)) && String.eqb (DedupKey (arr_match x)) (DedupKey (arr_match y)).

(** It repeats one of [seen] of the last five minutes. *)
Definition repeats (seen : list Arrival) (x : Arrival) : bool :=
  existsb (λ y, same_finding x y && (clock (arr_turn x) - clock (arr_turn y) <? 5 * minute)) seen.

(** The arrivals that were no repeats, latest first. *)
Fixpoint told (seen l : list Arrival) : list Arrival :=
  match l with [] => seen | x :: l' => told (if repeats seen x then seen else x :: seen) l' end.

Definition named (x : Arrival) : Prop :=
  no_nul (ev_AgentID (arr_env x)) = true ∧ no_nul (Title (arr_match x)) = true.

Fixpoint in_time (last : time) (l : list Arrival) : Prop :=
  match l with [] => True | x :: l' => last <= clock (arr_turn x) ∧ in_time (clock (arr_turn x)) l' end.

(** *** The keys of the duplicate table *)
Definition arrival_key (x : Arrival) : string := dedup_key (alert_of "" 0 (arr_env x) (arr_match x)) (arr_match x).
Definition ueba_key (agent : string) : string := "ueba-anomaly|" +:+ agent.

Lemma no_nul_joined a b : no_nul (a +:+ String nul_char b) = false.
Proof. unfold no_nul. rewrite contains_char_append. cbn [contains_char]. by rewrite orb_true_r. Qed.

Lemma ueba_key_ne v m : no_nul (ev_AgentID v) = true →
  ueba_key (ev_AgentID v) ≠ dedup_key (alert_of "" 0 v m) m.
Proof.
  intros Hn E. apply (f_equal no_nul) in E.
  change (no_nul (ueba_key (ev_AgentID v))) with (no_nul (ev_AgentID v)) in E. rewrite Hn in E.
  unfold dedup_key in E. cbn [al_AgentID al_Title alert_of] in E. unfold nul in E. change (chr 0) with nul_char in E.
  destruct (String.eqb (DedupKey m) "") in E;
    rewrite <-?append_assoc in E; cbn [String.append] in E; by rewrite no_nul_joined in E.
Qed.

Lemma arrival_key_same x y : named x → named y →
  (arrival_key x = arrival_key y ↔ same_finding x y = true).
Proof.
  intros [Ha Ht] [Ha' Ht']. unfold same_finding. rewrite !andb_true_iff, !String.eqb_eq. split.
  - unfold arrival_key, dedup_key. cbn [al_AgentID al_Title alert_of]. unfold nul. change (chr 0) with nul_char.
    rewrite <-!append_assoc. cbn [String.append].
    destruct (String.eqb_spec (DedupKey (arr_match x)) ""), (String.eqb_spec (DedupKey (arr_match y)) "");
      intros E; rewrite <-?append_assoc in E; apply split_at_nul in E as [E1 E2]; try done.
    + split_and!; congruence.
    + rewrite E2, no_nul_joined in Ht. done.
    + rewrite <- E2, no_nul_joined in Ht'. done.
    + apply split_at_nul in E2 as [E2 E3]; [|done..]. done.
  - intros [[E1 E2] E3]. unfold arrival_key, dedup_key. cbn [al_AgentID al_Title alert_of].
    by rewrite E1, E2, E3.
Qed.

(** *** The table holds what was told *)
Definition remembers (last : time) e (seen : list Arrival) (n : Z) : Prop :=
  ∃ acc, window_ok last (alertDedup e) acc ∧ zlen acc <= n ∧
    ∀ y t, named y → (t, arrival_key y) ∈ acc ↔
      ∃ z, z ∈ seen ∧ clock (arr_turn z) = t ∧ same_finding y z = true.

Lemma isDuplicate_step last d acc t k : window_ok last d acc → last <= t → zlen acc <= alertDedupCap →
  isDuplicateAlert t k d = if recent acc t k then (d, true) else (<[k := t]> d, false).
Proof.
  intros Hok Hle Hn. unfold isDuplicateAlert. rewrite (recent_spec last d acc t k Hok Hle).
  destruct (recent acc t k); [done|]. pose proof (wo_size _ _ _ Hok).
  destruct (Z.ltb_spec alertDedupCap (Z.of_nat (size d))); [lia|done].
Qed.

Lemma recent_repeats acc seen x : named x →
  (∀ t, (t, arrival_key x) ∈ acc ↔ ∃ z, z ∈ seen ∧ clock (arr_turn z) = t ∧ same_finding x z = true) →
  recent acc (clock (arr_turn x)) (arrival_key x) = repeats seen x.
Proof.
  intros Hx Hacc. apply eq_bool_prop_intro. rewrite !Is_true_true.
  unfold recent, repeats. rewrite !existsb_exists. split.
  - intros ([t k] & Hin & H). apply list_elem_of_In in Hin. simpl in H.
    apply andb_true_iff in H as [->%String.eqb_eq Ht]. apply Hacc in Hin as (z & Hz & <- & Hs).
    exists z. split; [by apply list_elem_of_In|]. by rewrite Hs.
  - intros (z & Hz & H). apply list_elem_of_In in Hz. apply andb_true_iff in H as [Hs Ht].
    exists (clock (arr_turn z), arrival_key x). split; [|simpl; by rewrite String.eqb_refl].
    apply list_elem_of_In, Hacc. by exists z.
Qed.

Lemma remembers_ask last e seen n x : remembers last e seen n → last <= clock (arr_turn x) → named x →
  n <= alertDedupCap →
  ∃ d, isDuplicateAlert (clock (arr_turn x)) (arrival_key x) (alertDedup e) = (d, repeats seen x) ∧
    remembers (clock (arr_turn x)) (set_dedup e d) (if repeats seen x then seen else x :: seen) (n + 1).
Proof.
  intros (acc & Hok & Hn & Hacc) Hle Hx Hcap.
  rewrite (isDuplicate_step last _ acc) by (done || lia). rewrite (recent_repeats acc seen x Hx) by auto.
  destruct (repeats seen x).
  - exists (alertDedup e). split; [done|]. exists acc. split; [by eapply window_ok_later|]. split; [lia|done].
  - eexists. split; [done|]. exists ((clock (arr_turn x), arrival_key x) :: acc).
    split; [by eapply window_ok_accept|].
    assert (∀ p : time * string, zlen (p :: acc) = 1 + zlen acc) as ->
      by (intros; unfold zlen; rewrite length_cons; lia).
    split; [lia|]. intros y t Hy. rewrite elem_of_cons, Hacc by done. split.
    + intros [[= -> E]|(z & Hz & ?)]; [exists x|exists z; set_solver].
      split; [by left|]. split; [done|]. by apply arrival_key_same.
    + intros (z & [->|Hz]%elem_of_cons & <- & Hs); [left|right; eauto].
      f_equal. by apply arrival_key_same.
Qed.

(** The key of the anomaly alert is no finding's. *)
Lemma remembers_ueba t e seen n agent : remembers t e seen n → no_nul agent = true → n <= alertDedupCap →
  remembers t (set_dedup e (isDuplicateAlert t (ueba_key agent) (alertDedup e)).1) seen (n + 1).
Proof.
  intros (acc & Hok & Hn & Hacc) Ha Hcap. rewrite (isDuplicate_step t _ acc) by (done || lia).
  destruct (recent acc t (ueba_key agent)).
  - exists acc. split; [done|]. split; [lia|done].
  - exists ((t, ueba_key agent) :: acc). split; [by eapply window_ok_accept|].
    assert (∀ p : time * string, zlen (p :: acc) = 1 + zlen acc) as ->
      by (intros; unfold zlen; rewrite length_cons; lia).
    split; [lia|]. intros y t' Hy. rewrite elem_of_cons, Hacc by done. split; [|by right].
    intros [[= -> E]|]; [|done]. apply (f_equal no_nul) in E.
    change (no_nul (ueba_key agent)) with (no_nul agent) in E. rewrite Ha in E.
    unfold arrival_key, dedup_key, nul in E. change (chr 0) with nul_char in E.
    destruct (String.eqb _ "") in E; rewrite <-?append_assoc in E; cbn [String.append] in E;
      by rewrite no_nul_joined in E.
Qed.

(** *** What holds a match back *)
(** The engine's own containment moved the endpoint's firewall. *)
Definition own_containment w (x : Arrival) : Prop :=
  w_selfRemediation w = true ∧ ev_AgentID (arr_env x) ≠ "" ∧ recent_containment (arr_turn x) = Ok true ∧
  ∃ marker, marker ∈ ["firewall rule added"; "firewall rule deleted"; "firewall rule modified";
                      "advfirewall"; "netsh"; "ファイアウォール"] ∧
    contains (to_lower (Sequence.RuleName (arr_match x) +:+ " " +:+ Title (arr_match x))) marker = true.

(** A suppression rule in force has every condition met. *)
Definition suppressed w (x : Arrival) : Prop :=
  ∃ sm r, w_suppression w = Some sm ∧ r ∈ Suppression.rules sm ∧
    (ClassifySuppression regexp_compile r).1 ≠ SuppressionCatchAll ∧
    (∀ t, ExpiresAt r = Some t → clock (arr_turn x) <= t) ∧
    matched regexp_compile r
      (mkStoredAlert (Sequence.RuleName (arr_match x)) (ev_Hostname (arr_env x)) (Severity (arr_match x))
         (default "" (head (MITRETags (arr_match x)))) (ev_AgentID (arr_env x)))
      (SuppressionContextFrom (arr_fields x)).

Lemma own_containment_spec w x :
  IsSelfInflicted (w_selfRemediation w) (recent_containment (arr_turn x))
    (alert_of (new_id (arr_turn x)) (clock (arr_turn x)) (arr_env x) (arr_match x)) = true ↔ own_containment w x.
Proof.
  unfold IsSelfInflicted, own_containment, describesFirewallChange. cbn [al_AgentID al_RuleName al_Title alert_of].
  assert (∀ hay, existsb (contains hay) firewallChangeMarkers = true ↔
    ∃ marker, marker ∈ firewallChangeMarkers ∧ contains hay marker = true) as Hm.
  { intros hay. rewrite existsb_exists. by setoid_rewrite list_elem_of_In. }
  unfold firewallChangeMarkers in Hm. rewrite <- Hm. fold firewallChangeMarkers.
  destruct (w_selfRemediation w); cbn [negb orb]; [|naive_solver].
  destruct (String.eqb_spec (ev_AgentID (arr_env x)) ""); [naive_solver|].
  destruct (existsb _ _); cbn [negb]; [|naive_solver].
  destruct (recent_containment (arr_turn x)); naive_solver.
Qed.

Lemma suppressed_spec w x :
  is_Some (suppressed_by w (arr_turn x) (arr_fields x)
    (alert_of (new_id (arr_turn x)) (clock (arr_turn x)) (arr_env x) (arr_match x))) ↔ suppressed w x.
Proof.
  unfold Detection.suppressed_by, suppressed, IsSuppressed. destruct (w_suppression w) as [sm|].
  2:{ split; [by intros []|]. by intros (? & ? & ? & _). }
  set (sa := suppression_view _). set (sa' := mkStoredAlert _ _ _ _ _).
  assert (sa = sa') as -> by (unfold sa, sa', suppression_view, alert_of; cbn; by destruct (MITRETags (arr_match x))).
  assert (∀ r, expired (clock (arr_turn x)) r = false ↔ ∀ t, ExpiresAt r = Some t → clock (arr_turn x) <= t) as Hx.
  { intros r. unfold expired. destruct (ExpiresAt r) as [t|]; [|done]. rewrite Z.ltb_ge.
    split; [by intros H t' [= <-]|auto]. }
  destruct (first_match _ _ _ _ _) as [r|] eqn:E; cbn [fst].
  - apply first_match_Some in E as (Hi & He & Hm). apply matches_spec in Hm as [Hc Hm].
    split; [|by eexists]. intros _. exists sm, r. split_and!; [done..|by apply Hx|done].
  - split; [by intros []|]. intros (? & r & [= <-] & Hi & Hc & He%Hx & Hm).
    assert (matches regexp_compile r sa' (SuppressionContextFrom (arr_fields x)) = true) as Ht by by apply matches_spec.
    by rewrite (first_match_None _ _ _ _ _ r E) in Ht.
Qed.

(** *** What follows a match *)
(** Automatic response is on, the match or its rule asks for isolation, and it is
    severe enough. *)
Definition calls_for_isolation w (m : RuleMatch) : Prop :=
  AutoResponseEnabled (w_config w) = true ∧
  (AutoIsolate m = true ∨ ∃ r, w_GetRule w (RuleID m) = Some r ∧ r_AutoIsolate r = true) ∧
  AutoIsolateSeverityThreshold (w_config w) <= Severity m.

(** Under the name of the rule that asks for it. *)
Definition isolation_request w (x : Arrival) : Request :=
  let label := match w_GetRule w (RuleID (arr_match x)) with
               | Some r => if r_AutoIsolate r then r_Name r else Sequence.RuleName (arr_match x)
               | None => Sequence.RuleName (arr_match x)
               end in
  mkRequest (ev_AgentID (arr_env x))
    ("ルールベース自動隔離: " +:+ label +:+ " (重大度: " +:+ itoa (Severity (arr_match x)) +:+ ")")
    (new_id (arr_turn x)) OriginRule "" label (ev_Hostname (arr_env x)).

Lemma calls_spec w b m : al_RuleID b = RuleID m → al_AutoIsolate b = AutoIsolate m → al_Severity b = Severity m →
  may_isolate w b m = true ↔ calls_for_isolation w m.
Proof.
  intros E1 E2 E3. unfold may_isolate, calls_for_isolation, isolation_authority. rewrite E1, E2, E3.
  rewrite !andb_true_iff, Z.leb_le, orb_diag.
  destruct (w_GetRule w (RuleID m)) as [r|]; [|naive_solver].
  destruct (r_AutoIsolate r) eqn:Er; naive_solver congruence.
Qed.

Lemma applyRuleBasedResponse_calls w x b e :
  b = with_score (alert_of (new_id (arr_turn x)) (clock (arr_turn x)) (arr_env x) (arr_match x)) (al_AnomalyScore b) →
  let e' := applyRuleBasedResponse w b (arr_match x) e in
  alertDedup e' = alertDedup e ∧
  match isolator e with
  | None => isolator e' = None ∧ effects e' = effects e
  | Some i =>
      if may_isolate w b (arr_match x) then
        isolator e' = Some (isolate i (isolation_request w x)).1 ∧
        ∃ ls, effects e' = effects e ++ ls ∧ (ls = [] ∨ ∃ l, ls = [SaveResponseAction l])
      else isolator e' = Some i ∧ effects e' = effects e
  end.
Proof.
  intros Hb. cbn zeta. unfold applyRuleBasedResponse, may_isolate.
  destruct (AutoResponseEnabled (w_config w)); cbn [negb andb]; [|by destruct (isolator e)].
  assert (isolation_authority w b (arr_match x) =
    ((isolation_authority w b (arr_match x)).1, Label (isolation_request w x))) as Ea.
  { rewrite Hb. unfold isolation_authority, isolation_request. cbn [al_RuleID with_score alert_of].
    destruct (w_GetRule w (RuleID (arr_match x))) as [r|]; [|done]. by destruct (r_AutoIsolate r). }
  rewrite Ea. cbn [fst].
  destruct (_ && _); [|by destruct (isolator e)]. destruct (isolator e) as [i|] eqn:Ei; [|by rewrite Ei].
  set (req := mkRequest _ _ _ _ _ _ _).
  assert (req = isolation_request w x) as Er by (unfold req; by rewrite Hb). rewrite Er.
  destruct (isolate i _) as [i' r]. cbn [fst].
  destruct (error r); [|destruct (Executed _)]; (split; [done|]); (split; [done|]).
  - exists []. rewrite app_nil_r. by auto.
  - eexists. split; [reflexivity|]. eauto.
  - exists []. rewrite app_nil_r. by auto.
Qed.

(** The step of one match, its verdicts given. *)
Lemma arrive_spec w e x d dup :
  let a := alert_of (new_id (arr_turn x)) (clock (arr_turn x)) (arr_env x) (arr_match x) in
  isDuplicateAlert (clock (arr_turn x)) (arrival_key x) (alertDedup e) = (d, dup) →
  let e' := arrive w e x in
  (alertDedup e' = d ∨
   alertDedup e' = (isDuplicateAlert (clock (arr_turn x)) (ueba_key (ev_AgentID (arr_env x))) d).1) ∧
  if dup || IsSelfInflicted (w_selfRemediation w) (recent_containment (arr_turn x)) a
  then effects e' = effects e ∧ isolator e' = isolator e
  else match suppressed_by w (arr_turn x) (arr_fields x) a with
  | Some id => effects e' = effects e ++ when (w_suppressionHit w) (IncrHitCount id) ∧ isolator e' = isolator e
  | None =>
      ∃ s u, let b := with_score a s in
      (u = [] ∨ ∃ risk, u = [SaveAlert (ueba_alert w (arr_turn x) a risk) (ueba_save_error (arr_turn x))]) ∧
      match save_error (arr_turn x) with
      | Some err => effects e' = effects e ++ u ++ [SaveAlert b (Some err)] ∧ isolator e' = isolator e
      | None =>
          ∃ r, effects e' = effects e ++ u ++ SaveAlert b None :: raised w b (arr_match x) r ∧
          (r = [] ∨ ∃ l, r = [SaveResponseAction l]) ∧
          isolator e' = (λ i, if may_isolate w b (arr_match x) then (isolate i (isolation_request w x)).1 else i)
                          <$> isolator e
      end
  end.
Proof.
  intros a Hd. cbn zeta. unfold arrive, Detection.handle_match. fold a.
  change (dedup_key a (arr_match x)) with (arrival_key x). rewrite Hd.
  destruct dup; cbn [orb]; [by split; [left|]|].
  destruct (IsSelfInflicted _ _ _); [by split; [left|]|].
  destruct (suppressed_by _ _ _ _) as [id|]; [by split; [left|]|].
  pose proof (enrich_spec w (arr_turn x) a (set_dedup e d)) as H.
  pose proof (enrich_dedup w (arr_turn x) a (set_dedup e d)) as Hk.
  destruct (enrichAnomalyScore _ _ _ _) as [e1 b]. destruct H as (s & u & -> & E & Ei & Hu). cbn [fst] in Hk.
  destruct (save_error (arr_turn x)) as [err|].
  - split; [exact Hk|]. exists s, u. split; [done|]. cbn [emit effects isolator]. rewrite E. simpl.
    by rewrite <- app_assoc.
  - unfold after_save. set (e2 := emit (emit e1 _) _).
    destruct (applyRuleBasedResponse_calls w x (with_score a s) e2 eq_refl) as [H1 H2].
    set (e3 := applyRuleBasedResponse _ _ _ e2) in *. split; [cbn [emit alertDedup]; by rewrite H1|].
    exists s, u. split; [done|]. cbn [emit isolator effects].
    assert (isolator e2 = isolator e) as Ei2 by done. rewrite Ei2 in H2.
    assert (effects e2 = effects e ++ u ++ SaveAlert (with_score a s) None ::
      when (w_siem w) (ForwardSIEM (with_score a s)) ++ when (w_nats w) (PublishAlert (with_score a s)) ++
      when (w_notifier w && (5 <=? al_Severity (with_score a s))) (NotifyAlert (with_score a s))) as Ee2.
    { unfold e2. cbn [emit effects]. rewrite E. simpl. by rewrite <-!app_assoc. }
    unfold raised. destruct (isolator e) as [i|].
    + destruct (may_isolate w (with_score a s) (arr_match x)).
      * destruct H2 as (-> & ls & -> & Hl). exists ls. rewrite Ee2. split; [|done].
        rewrite <-!app_assoc. simpl. by rewrite <-!app_assoc.
      * destruct H2 as [-> ->]. exists []. rewrite Ee2. split; [|by split; [left|]].
        rewrite <-!app_assoc. simpl. by rewrite <-!app_assoc.
    + destruct H2 as [-> ->]. exists []. rewrite Ee2. split; [|by split; [left|]].
      rewrite <-!app_assoc. simpl. by rewrite <-!app_assoc.
Qed.

Lemma remembers_arrive w last e seen n x : remembers last e seen n → last <= clock (arr_turn x) →
  named x → n + 1 <= alertDedupCap →
  (∃ d, isDuplicateAlert (clock (arr_turn x)) (arrival_key x) (alertDedup e) = (d, repeats seen x)) ∧
  remembers (clock (arr_turn x)) (arrive w e x) (if repeats seen x then seen else x :: seen) (n + 2).
Proof.
  intros Hr Hle Hx Hn.
  destruct (remembers_ask last e seen n x Hr Hle Hx ltac:(lia)) as (d & Hd & Hr1).
  split; [by eexists|]. pose proof (arrive_spec w e x d _ Hd) as [Hk _].
  assert (∀ e1 e2 n1 sn, alertDedup e1 = alertDedup e2 → n1 <= n + 2 →
    remembers (clock (arr_turn x)) e1 sn n1 → remembers (clock (arr_turn x)) e2 sn (n + 2)) as Hmove.
  { intros e1 e2 n1 sn E Hn1 (acc & H1 & H2 & H3). exists acc. rewrite <- E. split; [done|]. split; [lia|done]. }
  destruct Hk as [Hk|Hk]; [eapply Hmove; [..|exact Hr1]; [done|lia]|].
  pose proof (remembers_ueba _ _ _ _ (ev_AgentID (arr_env x)) Hr1 (proj1 Hx) Hn) as Hr2.
  eapply Hmove; [..|exact Hr2]; [done|lia].
Qed.

Lemma arrivals_remember w l e seen n last : remembers last e seen n → in_time last l →
  Forall named l → n + 2 * zlen l <= alertDedupCap →
  ∃ last', remembers last' (arrivals w e l) (told seen l) (n + 2 * zlen l) ∧
    ∀ x, in_time last (l ++ [x]) → last' <= clock (arr_turn x).
Proof.
  revert e seen n last. induction l as [|y l IH]; intros e seen n last Hr Hf Hn Hc.
  - exists last. unfold zlen. simpl. rewrite Z.add_0_r. split; [done|]. by intros x [].
  - assert (zlen (y :: l) = 1 + zlen l) as El by (unfold zlen; rewrite length_cons; lia).
    pose proof (zlen_nonneg l). destruct Hf as [Hle Hf]. apply Forall_cons in Hn as [Hy Hn].
    destruct (remembers_arrive w last e seen n y Hr Hle Hy ltac:(lia)) as [_ Hr1].
    destruct (IH _ _ _ _ Hr1 Hf Hn ltac:(lia)) as (last' & Hr2 & Hl). exists last'.
    rewrite El. split; [by replace (n + 2 * (1 + zlen l)) with (n + 2 + 2 * zlen l) by lia|].
    intros x [_ Hx]. by apply Hl.
Qed.

Lemma remembers_none last e : alertDedup e = ∅ → remembers last e [] 0.
Proof.
  intros E. exists []. rewrite E. split; [apply window_ok_empty|]. split; [done|]. set_solver.
Qed.

(** The alert of a match. *)
Definition match_alert (x : Arrival) (score : f64) : Alert :=
  mkAlert (new_id (arr_turn x)) (ev_AgentID (arr_env x)) (ev_Hostname (arr_env x)) (ev_Platform (arr_env x))
    (RuleID (arr_match x)) (Sequence.RuleName (arr_match x)) (Severity (arr_match x)) "open" (Title (arr_match x))
    (Description (arr_match x)) (if String.eqb (ev_EventID (arr_env x)) "" then [] else [ev_EventID (arr_env x)])
    (default "" (head (MITRETags (arr_match x)))) (MITRETags (arr_match x)) (AutoIsolate (arr_match x)) score
    (clock (arr_turn x)).

Lemma elem_of_raised w b m r f : r = [] ∨ (∃ l, r = [SaveResponseAction l]) →
  (f = PublishAlert b → f ∈ raised w b m r ↔ w_nats w = true) ∧
  (f = NotifyAlert b → f ∈ raised w b m r ↔ w_notifier w = true ∧ 5 <= al_Severity b).
Proof.
  assert (∀ c g, f ∈ when c g ↔ c = true ∧ f = g) as Hw by (intros [] g; simpl; set_solver).
  intros Hr. unfold raised. rewrite !elem_of_app, !Hw, andb_true_iff, Z.leb_le.
  split; intros ->; destruct Hr as [->|[l ->]]; set_solver.
Qed.


(** ** What the log says of the isolations *)
Definition logged (xs : list Effect) : list Command :=
  omap (λ x, match x with SaveResponseAction l => Some (Cut (ra_AgentID l)) | _ => None end) xs.

Lemma logged_app xs ys : logged (xs ++ ys) = logged xs ++ logged ys.
Proof. apply omap_app. Qed.

Lemma logged_when c x : (match x with SaveResponseAction _ => False | _ => True end) →
  logged (when c x) = [].
Proof. destruct c; [|done]. by destruct x. Qed.

Lemma logged_raised w b m r : logged (raised w b m r) = logged r.
Proof. unfold raised. by rewrite !logged_app, !logged_when, !app_nil_r by done. Qed.

Lemma logged_response w b m r cs : response w b m r cs → logged r = cs.
Proof. by destruct 1. Qed.

(** [e'] did what its log adds to that of [e]. *)
Definition accounted e e' : Prop :=
  ∃ xs, effects e' = effects e ++ xs ∧ cut_by e' = cut_by e ++ logged xs.

Lemma accounted_nothing e d u : accounted e (mkEngine d (isolator e) u (effects e)).
Proof. exists []. by rewrite !app_nil_r. Qed.

Lemma accounted_trans e1 e2 e3 : accounted e1 e2 → accounted e2 e3 → accounted e1 e3.
Proof.
  intros (xs & E1 & E2) (ys & E3 & E4). exists (xs ++ ys).
  by rewrite E3, E1, E4, E2, logged_app, <-!app_assoc.
Qed.

Lemma accounted_emit e xs : logged xs = [] → accounted e (emit e xs).
Proof. intros H. exists xs. by rewrite H, app_nil_r. Qed.

Lemma accounted_enrich w t a e : accounted e (enrichAnomalyScore w t a e).1.
Proof.
  pose proof (enrich_spec w t a e) as H. destruct (enrichAnomalyScore _ _ _ _) as [e' b].
  destruct H as (s & u & -> & E & Ei & Hu). exists u. simpl.
  split; [done|]. unfold cut_by. rewrite Ei.
  by destruct Hu as [->|[risk ->]]; rewrite app_nil_r.
Qed.

Lemma accounted_after_save w b m e : accounted e (after_save w b m e).
Proof.
  destruct (after_save_spec w b m e) as (r & cs & E1 & E2 & Hr). exists (raised w b m r).
  by rewrite logged_raised, (logged_response _ _ _ _ _ Hr).
Qed.

Lemma accounted_match w env flat t m e : accounted e (handle_match w env flat t m e).
Proof.
  unfold Detection.handle_match. destruct (isDuplicateAlert _ _ _) as [d dup].
  assert (accounted e (set_dedup e d)) as Hd by apply accounted_nothing.
  destruct dup; [done|]. destruct (IsSelfInflicted _ _ _); [done|].
  eapply accounted_trans; [exact Hd|]. destruct (suppressed_by _ _ _ _) as [id|].
  { by apply accounted_emit, logged_when. }
  set (a := alert_of _ _ _ _).
  pose proof (accounted_enrich w t a (set_dedup e d)) as H.
  destruct (enrichAnomalyScore _ _ _ _) as [e1 b]. eapply accounted_trans; [exact H|].
  pose proof (accounted_emit e1 [SaveAlert b (save_error t)] eq_refl) as Hs.
  destruct (save_error t); [done|]. eapply accounted_trans; [exact Hs|apply accounted_after_save].
Qed.

Lemma accounted_ioc w env flat t h e : accounted e (handle_ioc_hit w env flat t h e).
Proof.
  unfold Detection.handle_ioc_hit. destruct (suppressed_by _ _ _ _) as [id|].
  { by apply accounted_emit, logged_when. }
  set (a := ioc_alert _ _ _ _). pose proof (accounted_enrich w t a e) as H.
  destruct (enrichAnomalyScore _ _ _ _) as [e1 b]. eapply accounted_trans; [exact H|].
  pose proof (accounted_emit e1 [SaveAlert b (save_error t)] eq_refl) as Hs.
  destruct (save_error t); [done|]. eapply accounted_trans; [exact Hs|].
  apply accounted_emit. by rewrite !logged_app, !logged_when by done.
Qed.

Lemma accounted_refl e : accounted e e.
Proof. exists []. by rewrite !app_nil_r. Qed.

Lemma accounted_matches w env flat ts k ms e : accounted e (handle_matches w env flat ts k ms e).
Proof.
  revert k e. induction ms as [|m ms IH]; intros k e; [apply accounted_refl|].
  cbn [Detection.handle_matches]. eapply accounted_trans; [apply accounted_match|apply IH].
Qed.

(** The response log and the command bus agree: whatever matches an event has,
    the endpoints the engine cut off are those of the isolation records it hands to the
    store, in order. *)
Theorem isolations_are_logged w env flat ts k ms e :
  let e' := handle_matches w env flat ts k ms e in
  ∃ xs, effects e' = effects e ++ xs ∧ cut_by e' = cut_by e ++ logged xs.
Proof. apply accounted_matches. Qed.

(** ** Only automated calls of the isolator *)
Definition isolators_reach (o o' : option I) : Prop :=
  match o, o' with Some i, Some i' => rtc automated i i' | None, None => True | _, _ => False end.

#[export] Instance isolators_reach_pre : PreOrder isolators_reach.
Proof.
  split; [intros [i|]; [apply rtc_refl|done]|].
  intros [i1|] [i2|] [i3|]; simpl; try done. by intros; etrans.
Qed.

Lemma applyRuleBasedResponse_reach w a m e :
  isolators_reach (isolator e) (isolator (applyRuleBasedResponse w a m e)).
Proof.
  unfold applyRuleBasedResponse. destruct (negb _); [done|].
  destruct (isolation_authority _ _ _) as [auto label]. destruct (auto && _); [|done].
  destruct (isolator e) as [i|] eqn:Ei; [|by rewrite Ei].
  set (req := mkRequest _ _ _ _ _ _ _). pose proof (automated_isolate i req eq_refl) as H.
  destruct (isolate i req) as [i' r]. destruct (error r); [|destruct (Executed _)];
    by apply rtc_once.
Qed.

Lemma enrich_isolator w t a e : isolator (enrichAnomalyScore w t a e).1 = isolator e.
Proof.
  pose proof (enrich_spec w t a e) as H. destruct (enrichAnomalyScore _ _ _ _) as [e' b].
  by destruct H as (s & u & _ & _ & Ei & _).
Qed.

Lemma handle_match_reach w env flat t m e :
  isolators_reach (isolator e) (isolator (handle_match w env flat t m e)).
Proof.
  unfold Detection.handle_match. destruct (isDuplicateAlert _ _ _) as [d dup].
  destruct dup; [done|]. destruct (IsSelfInflicted _ _ _); [done|].
  destruct (suppressed_by _ _ _ _) as [id|]; [done|]. set (a := alert_of _ _ _ _).
  pose proof (enrich_isolator w t a (set_dedup e d)) as H.
  destruct (enrichAnomalyScore _ _ _ _) as [e1 b]. simpl in H. rewrite <- H.
  destruct (save_error t); [done|]. unfold after_save. simpl.
  etrans; [|apply applyRuleBasedResponse_reach]. done.
Qed.

Lemma handle_matches_reach w env flat ts k ms e :
  isolators_reach (isolator e) (isolator (handle_matches w env flat ts k ms e)).
Proof.
  revert k e. induction ms as [|m ms IH]; intros k e; [done|]. cbn [Detection.handle_matches].
  etrans; [apply handle_match_reach|apply IH].
Qed.

Lemma handle_ioc_hit_isolator w env flat t h e :
  isolator (handle_ioc_hit w env flat t h e) = isolator e.
Proof.
  unfold Detection.handle_ioc_hit. destruct (suppressed_by _ _ _ _) as [id|]; [done|].
  set (a := ioc_alert _ _ _ _). pose proof (enrich_isolator w t a e) as H.
  destruct (enrichAnomalyScore _ _ _ _) as [e1 b]. by destruct (save_error t).
Qed.

Lemma runAction_reach p a act o : isolators_reach o (runAction p a act o).1.
Proof.
  unfold runAction. destruct (String.eqb _ _).
  - destruct o as [g|]; [|done].
    pose proof (automated_isolate g (playbook_request a) eq_refl) as H.
    destruct (isolate g _) as [g' r]. by apply rtc_once.
  - repeat case_match; done.
Qed.

Lemma run_playbook_reach p k a acts o : isolators_reach o (run_playbook p k a acts o).1.1.
Proof.
  revert k o. induction acts as [|act acts IH]; intros k o; [done|]. cbn [run_playbook].
  pose proof (runAction_reach (p k) a act o) as H1.
  destruct (runAction _ _ _ _) as [o1 err]. specialize (IH (S k) o1).
  destruct (run_playbook _ _ _ _ _) as [[o2 ds] fs].
  etrans; [exact H1|]. by destruct err as [[]|].
Qed.

Lemma runActions_reach p a acts o : isolators_reach o (runActions p a acts o).1.
Proof.
  unfold runActions. pose proof (run_playbook_reach p 0 a acts o) as H.
  by destruct (run_playbook _ _ _ _ _) as [[o2 ds] fs].
Qed.

(** ** A failed save silences the alert

    The duplicate key is recorded before the save; the error is not returned, so
    the message is acknowledged, and for five minutes nothing repeats it. *)
Lemma unsaved_alert_is_silenced w env flat t m e t' err :
  let a := alert_of (new_id t) (clock t) env m in
  (isDuplicateAlert (clock t) (dedup_key a m) (alertDedup e)).2 = false →
  save_error t = Some err → clock t' - clock t < alertDedupWindow →
  ueba e = None →
  let e1 := handle_match w env flat t m e in
  effects (handle_match w env flat t' m e1) = effects e1.
Proof.
  cbn zeta. intros Hd Hs Hc Hu. set (e1 := handle_match w env flat t m e).
  set (K := dedup_key _ m) in *.
  assert (alertDedup e1 !! K = Some (clock t)) as Hk.
  - unfold e1, Detection.handle_match. cbn zeta. fold K. revert Hd. unfold isDuplicateAlert.
    destruct (match _ !! _ with Some _ => _ | None => _ end); [done|]. intros _.
    set (d := <[_ := _]> _).
    assert (d !! K = Some (clock t)) as H by apply lookup_insert_eq.
    destruct (IsSelfInflicted _ _ _); [done|]. destruct (suppressed_by _ _ _ _); [done|].
    unfold Detection.enrichAnomalyScore. simpl. rewrite Hu, Hs. by destruct (_ || _).
  - unfold Detection.handle_match. cbn zeta. change (dedup_key (alert_of (new_id t') _ _ _) m) with K.
    unfold isDuplicateAlert. rewrite Hk.
    by destruct (Z.ltb_spec (clock t' - clock t) alertDedupWindow); [|lia].
Qed.
End Engine.

(** ** Playbooks *)
Section Playbooks.
Context {I : Type} `{!Isolator I, !IsolatorOk I}.

Definition bus_of (o : option I) : list Command := match o with Some i => bus i | None => [] end.

Definition cuts_of (agent : string) (acts : list PlaybookAction) : list Command :=
  omap (λ act, if String.eqb (pa_Type act) "isolate_endpoint" then Some (Cut agent) else None) acts.

Definition is_failure (err : option PlaybookError) : bool :=
  match err with Some (Failed _) => true | _ => false end.

Lemma runAction_bus p a act o :
  let '(o', err) := runAction p a act o in
  bus_of o' = bus_of o ++ match err with None => cuts_of (al_AgentID a) [act] | Some _ => [] end.
Proof.
  unfold runAction, cuts_of. simpl. destruct (String.eqb _ _).
  - destruct o as [g|]; [|done]. pose proof (isolate_bus g (playbook_request a)) as Hb.
    pose proof (isolate_error g (playbook_request a)) as He.
    destruct (isolate g _) as [g' r]. simpl in *. rewrite Hb.
    destruct (error r); [by rewrite He|by destruct (Executed _)].
  - repeat case_match; simplify_eq; by rewrite ?app_nil_r.
Qed.

(** How each action of a run ended. *)
Fixpoint outcomes (p : nat → PlaybookEnv) (k : nat) (a : Alert) (acts : list PlaybookAction)
    (o : option I) : list (option PlaybookError) :=
  match acts with
  | [] => []
  | act :: acts' =>
      let '(o, err) := runAction (p k) a act o in err :: outcomes p (S k) a acts' o
  end.

(** The actions that ended without an error. *)
Fixpoint carried_out (acts : list PlaybookAction) (errs : list (option PlaybookError))
    : list PlaybookAction :=
  match acts, errs with
  | act :: acts', None :: errs' => act :: carried_out acts' errs'
  | _ :: acts', Some _ :: errs' => carried_out acts' errs'
  | _, _ => []
  end.

Lemma run_playbook_spec p k a acts o :
  let '(o', ds, fs) := run_playbook p k a acts o in
  bus_of o' = bus_of o ++ cuts_of (al_AgentID a) ds ∧
  ds = carried_out acts (outcomes p k a acts o) ∧
  (fs = [] ↔ Forall (λ err, is_failure err = false) (outcomes p k a acts o)).
Proof.
  revert k o. induction acts as [|act acts IH]; intros k o.
  { simpl. rewrite app_nil_r. by repeat constructor. }
  cbn [run_playbook outcomes]. pose proof (runAction_bus (p k) a act o) as H.
  destruct (runAction _ _ _ _) as [o1 err]. specialize (IH (S k) o1).
  destruct (run_playbook _ _ _ _ _) as [[o2 ds] fs]. destruct IH as (E & -> & Hf).
  destruct err as [[]|]; rewrite Forall_cons, E, H; cbn [carried_out is_failure].
  - rewrite app_nil_r. naive_solver.
  - rewrite app_nil_r. naive_solver.
  - rewrite <-app_assoc. unfold cuts_of. rewrite <-omap_app. naive_solver.
Qed.

(** The record of a playbook run names exactly the actions that ended without
    an error, in order; the endpoints the run cut off are exactly its recorded
    isolations; and it is a success exactly when no action failed, an isolation
    the safety valve declined not being a failure. *)
Theorem playbook_reports_what_ran p a acts o :
  let '(o', run) := runActions p a acts o in
  ActionsRun run = carried_out acts (outcomes p 0 a acts o) ∧
  bus_of o' = bus_of o ++ cuts_of (al_AgentID a) (ActionsRun run) ∧
  (run_Success run = true ↔ Forall (λ err, is_failure err = false) (outcomes p 0 a acts o)).
Proof.
  unfold runActions. pose proof (run_playbook_spec p 0 a acts o) as H.
  destruct (run_playbook _ _ _ _ _) as [[o' ds] fs]. destruct H as (E & Hs & Hf).
  split_and!; [done|done|]. rewrite <-Hf. by destruct fs.
Qed.
End Playbooks.

(** ** Concrete runs *)
Definition toy_wiring : Wiring :=
  mkWiring true true true true false true true None (λ _, None)
    (mkEngineConfig true 7 fzero 9 (fint 85)).
Definition toy_detector : Engine Live :=
  mkEngine ∅ (Some (live (New true true toy_config) (λ n, toy_env (Z.of_nat n * minute)))) None [].
Definition toy_endpoint (agent : string) : Envelope := mkEnvelope agent "h" "linux" "process" "e1".
Definition toy_match : RuleMatch :=
  mkRuleMatch "r1" "rule" "sigma" 9 "title" "" ["T1059"] true false "".
Definition toy_answer (k : nat) : Detection.Turn :=
  mkTurn "a" "u" (Z.of_nat k) (Ok false) None None.

Lemma dedup_refines_history_witness :
  let qs := [(0, "k"); (minute, "k"); (6 * minute, "k")] in
  forward 0 qs ∧ (ask qs ∅ []).1.2 = reference qs [] ∧ reference qs [] = [false; true; false].
Proof.
  split; [by vm_compute|]. split; [|by vm_compute].
  apply (dedup_refines_history _ 0); by vm_compute.
Defined.

(** The isolation goes out once: the repeat is dropped. *)
Example detection_run :
  cut_by (handle_matches (λ _, None) (λ x, x) (λ _, 0) toy_wiring (toy_endpoint "a1") []
            toy_answer 0 [toy_match; toy_match] toy_detector) = [Cut "a1"].
Proof. vm_compute. reflexivity. Qed.

(** The second match of the same title is dropped, the one of another endpoint is
    answered with its isolation, which the budget declines. *)
Definition toy_arrival (agent : string) (k : nat) : Arrival :=
  mkArrival (toy_answer k) (toy_endpoint agent) [] toy_match.


Lemma isolations_are_logged_witness :
  let e' := handle_matches (λ _, None) (λ x, x) (λ _, 0) toy_wiring (toy_endpoint "a1") []
              toy_answer 0 [toy_match; toy_match] toy_detector in
  ∃ xs, effects e' = effects toy_detector ++ xs ∧ cut_by e' = cut_by toy_detector ++ logged xs.
Proof.
  apply (isolations_are_logged (λ _, None) (λ x, x) (λ _, 0) toy_wiring (toy_endpoint "a1") []
    toy_answer 0 [toy_match; toy_match] toy_detector).
Defined.

(** The second isolation is in the cooldown: neither a recorded action nor a
    failure. *)
Lemma playbook_reports_what_ran_witness :
  let p := λ _ : nat, mkPlaybookEnv None (Some None) None in
  let a := alert_of "a" 0 (toy_endpoint "a1") toy_match in
  let isolation := mkPlaybookAction "isolate_endpoint" "" 0 "" "" in
  let acts := [isolation; isolation; mkPlaybookAction "notify" "" 0 "" ""] in
  let '(o', run) := runActions p a acts (isolator toy_detector) in
  bus_of o' = [Cut "a1"] ∧ run_Success run = true ∧
  ActionsRun run = carried_out acts (outcomes p 0 a acts (isolator toy_detector)) ∧
  bus_of o' = bus_of (isolator toy_detector) ++ cuts_of "a1" (ActionsRun run) ∧
  (run_Success run = true ↔
     Forall (λ err, is_failure err = false) (outcomes p 0 a acts (isolator toy_detector))).
Proof.
  pose proof (playbook_reports_what_ran (λ _, mkPlaybookEnv None (Some None) None)
    (alert_of "a" 0 (toy_endpoint "a1") toy_match)
    [mkPlaybookAction "isolate_endpoint" "" 0 "" ""; mkPlaybookAction "isolate_endpoint" "" 0 "" "";
     mkPlaybookAction "notify" "" 0 "" ""] (isolator toy_detector)) as H.
  cbn zeta. destruct (runActions _ _ _ _) as [o' run] eqn:E. vm_compute in E. simplify_eq.
  split; [vm_compute; reflexivity|]. split; [reflexivity|exact H].
Defined.
