(* ===== verification/Containment.v ===== *)
(** * What isolates through the gatekeepers without being asked, together

    Two processes isolate on their own account: server/cmd/detection runs the
    detection engine and the playbooks over one gatekeeper, server/cmd/api the
    auto-remediation engine over another.  Their steps are put on top of the
    interface of [Isolator.v] here: whatever interleaving of matches, indicators,
    playbooks, remediation rules, delayed actions and rollbacks occurs, each
    process only makes automated calls, and so the number of endpoints cut off in
    an hour is bounded; the bound is the sum of the two budgets, and it is
    reached.  The risk monitor is not among the steps: it writes the status of the
    agent into the database (server/cmd/detection/adapter.go) and no gatekeeper counts
    what the heartbeat then isolates. *)

From stdpp Require Import relations.
From S2P Require Import Prelude GoStrings Event Binary64 Ueba Isolation IsolationProofs Isolator.
From S2P Require Import Glob Remediation RemediationProofs Suppression Sequence.
From S2P Require Import Detection DetectionProofs.

#[local] Open Scope string_scope.
#[local] Open Scope list_scope.
#[local] Open Scope Z_scope.

Section Processes.
Context {I : Type} `{!Isolator I}.
Context (regexp_compile : string → option (string → bool)).
Context (exp2 : f64 → f64) (hour_of : time → Z).

(** ** The detection process

    The playbooks and the AI triage hold the engine's own gatekeeper; what the AI
    asks for is any automated call. *)
Definition with_isolator (e : Detection.Engine I) (o : option I) : Detection.Engine I :=
  match o with Some i => Detection.set_isolator e i | None => e end.

Inductive process_step : Detection.Engine I → Detection.Engine I → Prop :=
| detect_matches w env flat ts ms e :
    process_step e (handle_matches regexp_compile exp2 hour_of w env flat ts 0 ms e)
| detect_indicator w env flat t h e :
    process_step e (handle_ioc_hit regexp_compile exp2 hour_of w env flat t h e)
| detect_playbook p a acts e :
    process_step e (with_isolator e (runActions p a acts (Detection.isolator e)).1)
| detect_triage i i' e : Detection.isolator e = Some i → automated i i' →
    process_step e (Detection.set_isolator e i').

Lemma isolator_with e o : isolators_reach (Detection.isolator e) o →
  Detection.isolator (with_isolator e o) = o.
Proof. by destruct o, (Detection.isolator e) eqn:E; simpl. Qed.

Lemma process_step_reach e e' : process_step e e' →
  isolators_reach (Detection.isolator e) (Detection.isolator e').
Proof.
  destruct 1 as [| |p a acts e|i i' e E Ha].
  - apply handle_matches_reach.
  - by rewrite handle_ioc_hit_isolator.
  - pose proof (runActions_reach p a acts (Detection.isolator e)) as H. by rewrite isolator_with.
  - rewrite E. by apply rtc_once.
Qed.

Lemma detection_reach e e' : rtc process_step e e' →
  isolators_reach (Detection.isolator e) (Detection.isolator e').
Proof. induction 1; [done|]. etrans; [by apply process_step_reach|done]. Qed.

(** ** The remediation engine of the api process *)
Implicit Types r : Remediation.Engine I.

Abbreviation gate r := (Remediation.isolator r).

Lemma isolate_network_reach agent alert r :
  isolators_reach (gate r) (gate (actionIsolateNetwork agent alert r).1.1).
Proof.
  unfold actionIsolateNetwork. destruct (gate r) as [i|] eqn:E; [|by simpl; rewrite E].
  set (req := isolate_request _ _ _ _). pose proof (automated_isolate i req eq_refl) as H.
  destruct (isolate i req) as [i' rep]. destruct (error rep); [|destruct (negb _)];
    by apply rtc_once.
Qed.

Lemma unisolate_network_reach agent alert r :
  isolators_reach (gate r) (gate (actionUnisolateNetwork agent alert r).1.1).
Proof.
  unfold actionUnisolateNetwork. destruct (gate r) as [i|] eqn:E; [|by simpl; rewrite E].
  set (req := isolate_request _ _ _ _). pose proof (automated_unisolate i req) as H.
  destruct (unisolate i req) as [i' rep]. destruct (error rep); [|destruct (negb _)];
    by apply rtc_once.
Qed.

Lemma action_body_reach a ac agent trigger r :
  isolators_reach (gate r) (gate (action_body a ac agent trigger r).1.1).
Proof.
  unfold action_body. cbn zeta.
  repeat case_match; try apply isolate_network_reach; try apply unisolate_network_reach; try done;
    unfold actionKillProcess, actionQuarantineFile, actionCreateAlert, actionNotify,
      actionWebhook, after_publish; cbn zeta; repeat case_match; simplify_eq; done.
Qed.

Lemma dispatch_reach a ac agent trigger r :
  isolators_reach (gate r) (gate (dispatchAction a ac agent trigger r).1).
Proof.
  unfold dispatchAction. pose proof (action_body_reach a ac agent trigger r).
  by destruct (action_body a ac agent trigger r) as [[r' ok] msg].
Qed.

Lemma run_actions_reach an k acts agent trigger start r :
  isolators_reach (gate r) (gate (run_actions an k acts agent trigger start r).1).
Proof.
  revert k r. induction acts as [|ac acts IH]; intros k r; [done|]. cbn [run_actions].
  destruct (0 <? Delay ac).
  - specialize (IH (S k) (set_delayed r (delayed r ++ [mkDelayed ac agent trigger (start + Delay ac)]))).
    by destruct (run_actions _ _ _ _ _ _ _) as [r' rs].
  - pose proof (dispatch_reach (an k) ac agent trigger r) as H1.
    destruct (dispatchAction (an k) ac agent trigger r) as [r1 x1].
    specialize (IH (S k) r1). destruct (run_actions _ _ _ _ _ _ _) as [r' rs].
    by etrans.
Qed.

Lemma run_rule_reach v x alert agent r :
  isolators_reach (gate r) (gate (run_rule v x alert agent r).1).
Proof.
  unfold run_rule, executeRule.
  pose proof (run_actions_reach (answers v) 0 (Actions x) agent alert (t_start v) r) as H.
  destruct (run_actions _ _ _ _ _ _ _) as [r' rs]. cbn zeta. by destruct (_ && _).
Qed.

Lemma run_rules_reach vs k xs alert agent sev tags r :
  isolators_reach (gate r) (gate (run_rules vs k xs alert agent sev tags r).1).
Proof.
  revert k r. induction xs as [|x xs IH]; intros k r; [done|]. cbn [run_rules].
  destruct (_ || _); [apply IH|].
  pose proof (run_rule_reach (vs k) x alert agent r) as H.
  destruct (run_rule _ _ _ _ _) as [r1 l]. specialize (IH (S k) r1).
  destruct (run_rules _ _ _ _ _ _ _ _) as [r2 ls]. by etrans.
Qed.

Lemma rollback_reach t r : isolators_reach (gate r) (gate (run_rollback t r)).
Proof.
  unfold run_rollback. set (r0 := set_rollbacks r _ _).
  pose proof (unisolate_network_reach (t_agent t) (executionID t) r0) as H.
  by destruct (actionUnisolateNetwork _ _ _) as [[r' ok] msg].
Qed.

Lemma remediation_step_reach r r' : Remediation.step r r' →
  isolators_reach (gate r) (gate r').
Proof.
  destruct 1; try done.
  - unfold TriggerOnAlert. destruct (IsExcluded _ _); [done|apply run_rules_reach].
  - unfold ApproveExecution. by destruct (_ !! _).
  - unfold AddRule. by repeat case_match.
  - unfold LoadExclusionsFromDB. by repeat (case_match; simplify_eq).
  - unfold RemoveExclusion. by repeat (case_match; simplify_eq).
  - etrans; [|apply dispatch_reach]. done.
  - etrans; [|apply rollback_reach]. done.
Qed.

Lemma remediation_reach r r' : rtc Remediation.step r r' → isolators_reach (gate r) (gate r').
Proof. induction 1; [done|]. etrans; [by apply remediation_step_reach|done]. Qed.
End Processes.

(** ** The bound *)
Definition budget_of (cfg : Config) : Z :=
  if HourlyBudget cfg <=? 0 then DefaultHourlyBudget else HourlyBudget cfg.

Lemma within_app w t xs ys : within w t (xs ++ ys) = within w t xs + within w t ys.
Proof. unfold within, zlen. rewrite filter_app, length_app. lia. Qed.

(** From start-up, whatever both processes do, at most the sum of their two
    hourly budgets of endpoints is cut off without a person asking in any hour. *)
Theorem containment_bounded regexp_compile exp2 hour_of cm1 ac1 cfg1 o1 cm2 ac2 cfg2 o2
    (e0 e : Detection.Engine Live) (r0 r : Remediation.Engine Live) l1 l2 :
  steady o1 → steady o2 →
  Detection.isolator e0 = Some (live (New cm1 ac1 cfg1) o1) →
  Remediation.isolator r0 = Some (live (New cm2 ac2 cfg2) o2) →
  rtc (process_step regexp_compile exp2 hour_of) e0 e → rtc Remediation.step r0 r →
  Detection.isolator e = Some l1 → Remediation.isolator r = Some l2 →
  ∀ t, within hour t (cuts l1 ++ cuts l2) <= budget_of cfg1 + budget_of cfg2.
Proof.
  intros Ho1 Ho2 E1 E2 H1 H2 El1 El2 t. rewrite within_app.
  apply detection_reach in H1. apply remediation_reach in H2.
  rewrite E1, El1 in H1. rewrite E2, El2 in H2.
  pose proof (reach_in_budget _ _ _ _ _ Ho1 H1 t).
  pose proof (reach_in_budget _ _ _ _ _ Ho2 H2 t). unfold budget_of. lia.
Qed.

(** The bound is reached: with a budget of one, the two processes cut off two
    endpoints in the same hour. *)
Definition toy_detected : Detection.Engine Live :=
  handle_matches (λ _, None) (λ x, x) (λ _, 0) toy_wiring (toy_endpoint "a2") [] toy_answer 0
    [toy_match] toy_detector.

Definition toy_gate (o : option Live) : Live := default toy_live o.

Lemma containment_bounded_witness :
  let cs := cuts (toy_gate (Detection.isolator toy_detected))
            ++ cuts (toy_gate (Remediation.isolator toy_triggered)) in
  within hour 0 cs = 2 ∧ budget_of toy_config = 1 ∧
  ∀ t, within hour t cs <= budget_of toy_config + budget_of toy_config.
Proof.
  split; [by vm_compute|]. split; [by vm_compute|].
  set (o n := toy_env (Z.of_nat n * minute)).
  assert (steady o) as Ho by (intros n; cbn [o now toy_env]; assert (0 <= minute) by done; nia).
  refine (containment_bounded (λ _, None) (λ x, x) (λ _, 0) true true toy_config o
    true true toy_config o toy_detector toy_detected toy_engine toy_triggered _ _ Ho Ho
    eq_refl eq_refl _ _ _ _).
  - apply rtc_once. apply (detect_matches _ _ _ toy_wiring (toy_endpoint "a2") [] toy_answer
      [toy_match] toy_detector).
  - apply rtc_once. apply step_alert. by apply toy_turns_fresh.
  - vm_compute. reflexivity.
  - vm_compute. reflexivity.
Defined.
