(* ===== verification/SequenceProofs.v ===== *)
(** * The sequence engine reads the right window

    The per-group buffers, pruned lazily and scanned from the end, refine the
    full history of events: a rule fires exactly when the events of its group in
    its window satisfy it and it is not cooling down.  Loaded rules never fire
    without an event, and a rule's alerts for one group are a cooldown apart. *)

From Stdlib Require Import Ascii Sorting.Sorted.
From S2P Require Import Prelude GoStrings Event Sequence.

#[local] Open Scope string_scope.
#[local] Open Scope list_scope.
#[local] Open Scope Z_scope.

(** ** What a rule asks of the events of a window *)
Definition window_events (cutoff : time) (evs : list timedEvent) : list timedEvent :=
  filter (λ ev, cutoff <= ts ev) evs.

(** The stages are matched, in order, by a subsequence of the events. *)
Definition kill_chain (sr : sequenceRule) (sts : list sequenceStage) (evs : list timedEvent) : Prop :=
  ∃ evs', evs' `sublist_of` evs ∧ Forall2 (λ st ev, stageEventField sr st ev = true) sts evs'.

Definition holds (sr : sequenceRule) (evs : list timedEvent) : Prop :=
  if (0 <? length (stages sr))%nat then
    if ordered sr then kill_chain sr (stages sr) evs
    else ∀ st, st ∈ stages sr → ∃ ev, ev ∈ evs ∧ stageEventField sr st ev = true
  else
    let matching := filter (λ ev, matchesFilter sr ev = true) evs in
    if distinct sr then
      let df := if String.eqb (distinctField sr) "" then field sr else distinctField sr in
      threshold sr <= Z.of_nat (size (list_to_set (omap (λ ev, fields ev !! df) matching) : gset string))
    else threshold sr <= zlen matching.

Abbreviation chronological := (StronglySorted (λ a b, ts a <= ts b)).

Lemma chronological_snoc evs x :
  chronological (evs ++ [x]) → chronological evs ∧ ∀ y, y ∈ evs → ts y <= ts x.
Proof.
  induction evs as [|e evs IH]; intros H; [split; [constructor|set_solver]|].
  apply StronglySorted_inv in H as [H1 H2]. destruct (IH H1) as [H3 H4].
  rewrite Forall_app in H2. destruct H2 as [H2 H5]. split; [by constructor|].
  intros y Hy. apply elem_of_cons in Hy as [->|Hy]; [|by apply H4].
  by inversion_clear H5.
Qed.

Lemma snoc_chronological evs x :
  chronological evs → (∀ y, y ∈ evs → ts y <= ts x) → chronological (evs ++ [x]).
Proof.
  induction 1 as [|e evs Hs IH Hf]; intros Hx; simpl; [repeat constructor|].
  constructor; [apply IH; set_solver|]. apply Forall_app. split; [done|].
  constructor; [|done]. apply Hx. set_solver.
Qed.

Lemma chronological_app_r a b : chronological (a ++ b) → chronological b.
Proof. induction a; [done|]. intros H. apply StronglySorted_inv in H as [H _]. auto. Qed.

Lemma chronological_app_l a b : chronological (a ++ b) → chronological a.
Proof.
  induction b as [|x b IH] using rev_ind; [by rewrite app_nil_r|].
  rewrite app_assoc. intros H. apply chronological_snoc in H as [H _]. auto.
Qed.

Lemma chronological_filter (P : timedEvent → Prop) `{!∀ x, Decision (P x)} evs :
  chronological evs → chronological (filter P evs).
Proof.
  induction 1 as [|e evs Hs IH Hf]; [constructor|]. rewrite filter_cons.
  case_decide; [|done]. constructor; [done|].
  rewrite Forall_forall in *. intros y Hy. apply list_elem_of_filter in Hy as [_ Hy]. auto.
Qed.

(** Old events in front do not change a window. *)
Lemma window_events_app_old cutoff pre evs :
  Forall (λ ev, ts ev < cutoff) pre → window_events cutoff (pre ++ evs) = window_events cutoff evs.
Proof.
  intros H. unfold window_events. rewrite filter_app.
  replace (filter _ pre) with (@nil timedEvent); [done|]. symmetry.
  induction H; [done|]. rewrite filter_cons. case_decide; [lia|done].
Qed.

Lemma window_events_old cutoff evs x : chronological (evs ++ [x]) → ts x < cutoff →
  window_events cutoff evs = [].
Proof.
  intros Hs Hx. apply chronological_snoc in Hs as [_ Hle].
  rewrite <- (app_nil_r evs) at 1. rewrite window_events_app_old; [done|].
  apply Forall_forall. intros y Hy. specialize (Hle y Hy). lia.
Qed.

(** ** The scans *)
Lemma count_back_spec sr cutoff buf : chronological buf →
  count_back sr cutoff (reverse buf)
  = zlen (filter (λ ev, matchesFilter sr ev = true) (window_events cutoff buf)).
Proof.
  induction buf as [|x buf IH] using rev_ind; intros Hs; [done|].
  rewrite reverse_snoc. cbn [count_back]. pose proof (chronological_snoc _ _ Hs) as [Hb _].
  unfold window_events at 1. rewrite filter_app. fold (window_events cutoff buf).
  rewrite (filter_cons (λ ev, cutoff <= ts ev)), filter_nil.
  destruct (Z.ltb_spec (ts x) cutoff) as [Hc|Hc].
  - rewrite decide_False by lia. by rewrite app_nil_r, (window_events_old _ _ _ Hs Hc).
  - rewrite decide_True by done. rewrite filter_app, zlen_app, (IH Hb), filter_cons, filter_nil.
    destruct (matchesFilter sr x); simpl; unfold zlen; simpl; lia.
Qed.

Lemma distinct_back_spec sr df cutoff buf seen : chronological buf →
  distinct_back sr df cutoff (reverse buf) seen
  = list_to_set (omap (λ ev, fields ev !! df)
      (filter (λ ev, matchesFilter sr ev = true) (window_events cutoff buf))) ∪ seen.
Proof.
  revert seen. induction buf as [|x buf IH] using rev_ind; intros seen Hs; [set_solver|].
  rewrite reverse_snoc. cbn [distinct_back]. pose proof (chronological_snoc _ _ Hs) as [Hb _].
  unfold window_events at 1. rewrite filter_app. fold (window_events cutoff buf).
  rewrite (filter_cons (λ ev, cutoff <= ts ev)), filter_nil.
  destruct (Z.ltb_spec (ts x) cutoff) as [Hc|Hc].
  - rewrite decide_False by lia. rewrite app_nil_r, (window_events_old _ _ _ Hs Hc). set_solver.
  - rewrite decide_True by done. rewrite (IH _ Hb), filter_app, omap_app, filter_cons, filter_nil.
    destruct (matchesFilter sr x); simpl; [|set_solver].
    destruct (fields x !! df); simpl; set_solver.
Qed.

Lemma staged_ordered_spec sr cutoff sts buf : sts ≠ [] →
  staged_ordered sr cutoff sts buf = true ↔ kill_chain sr sts (window_events cutoff buf).
Proof.
  unfold kill_chain, window_events. revert sts. induction buf as [|ev buf IH]; intros sts Hne.
  { simpl. split; [by destruct sts|]. intros (evs & Hs & Hf).
    apply sublist_nil_r in Hs as ->. by inversion Hf; subst. }
  destruct sts as [|st sts]; [done|]. cbn [staged_ordered].
  destruct (Z.ltb_spec (ts ev) cutoff) as [Hc|Hc]; cbn [orb].
  { rewrite IH, filter_cons_False by (done || lia). done. }
  rewrite filter_cons_True by done.
  destruct (stageEventField sr st ev) eqn:Em; cbn [negb].
  - assert (∀ evs', evs' `sublist_of` ev :: filter (λ e, cutoff <= ts e) buf →
      Forall2 (λ st ev, stageEventField sr st ev = true) (st :: sts) evs' →
      ∃ evs2, evs2 `sublist_of` filter (λ e, cutoff <= ts e) buf ∧
        Forall2 (λ st ev, stageEventField sr st ev = true) sts evs2) as Hdrop.
    { intros evs' Hs Hf. apply Forall2_cons_inv_l in Hf as (y & l' & Hy & Hl & ->).
      exists l'. split; [|done]. apply sublist_cons_r in Hs as [Hs|(l0 & Heq & Hs)]; [|by injection Heq as _ ->].
      etrans; [|exact Hs]. by apply sublist_cons. }
    destruct sts as [|st2 sts].
    + split; [intros _|done]. exists [ev]. split; [|by repeat constructor].
      by apply sublist_skip, sublist_nil_l.
    + rewrite IH by done. split.
      * intros (evs' & Hs & Hf). exists (ev :: evs'). split; [by apply sublist_skip|by constructor].
      * intros (evs' & Hs & Hf). by apply (Hdrop evs').
  - rewrite IH by done. split; intros (evs' & Hs & Hf).
    + exists evs'. split; [by apply sublist_cons|done].
    + exists evs'. split; [|done]. apply Forall2_cons_inv_l in Hf as (y & l' & Hy & Hl & ->).
      apply sublist_cons_r in Hs as [Hs|(l0 & Heq & Hs)]; [done|]. injection Heq as -> ->. by rewrite Em in Hy.
Qed.

(** *** Stages in any order *)
Definition open_stages (ms : list (sequenceStage * bool)) : list sequenceStage :=
  (filter (λ m, m.2 = false) ms).*1.

Lemma open_stages_cons st b ms :
  open_stages ((st, b) :: ms) = if b then open_stages ms else st :: open_stages ms.
Proof. unfold open_stages. rewrite filter_cons. by destruct b. Qed.

Abbreviation marks sr ev := (λ st, stageEventField sr st ev = true).
Abbreviation unmarks sr ev := (λ st, stageEventField sr st ev ≠ true).

Lemma mark_stages_spec sr ev ms rem : 1 <= rem →
  let k := zlen (filter (marks sr ev) (open_stages ms)) in
  k <= rem →
  let '(ms', rem', fin) := mark_stages sr ev ms rem in
  fin = (k =? rem) ∧
  (fin = false → open_stages ms' = filter (unmarks sr ev) (open_stages ms) ∧
     rem' = rem - k).
Proof.
  revert rem. induction ms as [|[st b] ms IH]; intros rem Hr; cbn zeta.
  { cbn [mark_stages]. change (zlen (filter (marks sr ev) (open_stages []))) with 0.
    intros _. split; [|intros _; split; [done|lia]]. symmetry. apply Z.eqb_neq. lia. }
  rewrite open_stages_cons. cbn [mark_stages]. destruct b; cbn [orb].
  { intros Hk. specialize (IH rem Hr Hk). destruct (mark_stages sr ev ms rem) as [[ms' rem'] fin].
    by rewrite open_stages_cons. }
  rewrite (filter_cons (marks sr ev)).
  destruct (stageEventField sr st ev) eqn:Em; cbn [negb].
  - rewrite decide_True by done. unfold zlen at 1 2 3. cbn [length]. rewrite Nat2Z.inj_succ.
    fold (zlen (filter (marks sr ev) (open_stages ms))). intros Hk.
    pose proof (zlen_nonneg (filter (marks sr ev) (open_stages ms))).
    destruct (Z.eqb_spec (rem - 1) 0) as [H1|H1].
    { split; [|done]. symmetry. apply Z.eqb_eq. lia. }
    specialize (IH (rem - 1) ltac:(lia) ltac:(lia)).
    destruct (mark_stages sr ev ms (rem - 1)) as [[ms' rem'] fin]. destruct IH as [-> Hf].
    split; [case_cmp; lia|]. intros Hfin. destruct (Hf Hfin) as [E ->].
    rewrite open_stages_cons, E, filter_cons, decide_False by (rewrite Em; naive_solver).
    split; [done|lia].
  - rewrite decide_False by done. intros Hk. specialize (IH rem Hr Hk).
    destruct (mark_stages sr ev ms rem) as [[ms' rem'] fin]. destruct IH as [-> Hf].
    split; [done|]. intros Hfin. destruct (Hf Hfin) as [E ->].
    rewrite open_stages_cons, E, filter_cons_True by (by rewrite Em). done.
Qed.

Lemma filter_split {A} (P : A → Prop) `{!∀ x, Decision (P x)} (l : list A) :
  zlen l = zlen (filter P l) + zlen (filter (λ x, ¬ P x) l).
Proof.
  unfold zlen. induction l as [|x l IH]; [done|]. rewrite !filter_cons.
  repeat case_decide; simpl; try tauto; lia.
Qed.

Lemma staged_any_spec sr cutoff ms rem buf :
  rem = zlen (open_stages ms) → 1 <= rem →
  staged_any sr cutoff ms rem buf = true ↔
  ∀ st, st ∈ open_stages ms → ∃ ev, ev ∈ window_events cutoff buf ∧ stageEventField sr st ev = true.
Proof.
  revert ms rem. induction buf as [|ev buf IH]; intros ms rem Hrem Hr.
  { simpl. split; [done|]. intros H. destruct (open_stages ms) as [|st l]; [subst rem; by vm_compute in Hr|].
    destruct (H st) as (ev & Hev & _); [by left|]. by apply elem_of_nil in Hev. }
  cbn [staged_any]. unfold window_events. rewrite filter_cons. fold (window_events cutoff buf).
  destruct (Z.ltb_spec (ts ev) cutoff) as [Hc|Hc].
  { rewrite decide_False by lia. by apply IH. }
  rewrite decide_True by done.
  assert (zlen (open_stages ms) = zlen (filter (marks sr ev) (open_stages ms))
    + zlen (filter (unmarks sr ev) (open_stages ms))) as Hsplit by apply filter_split.
  pose proof (zlen_nonneg (filter (unmarks sr ev) (open_stages ms))) as Hn.
  assert (zlen (filter (marks sr ev) (open_stages ms)) <= rem) as Hk.
  { rewrite Hrem, Hsplit. clear -Hn. lia. }
  pose proof (mark_stages_spec sr ev ms rem Hr Hk) as Hm. clear Hk.
  destruct (mark_stages sr ev ms rem) as [[ms' rem'] fin]. destruct Hm as [-> Hf].
  destruct (Z.eqb_spec (zlen (filter (marks sr ev) (open_stages ms))) rem) as [Hk|Hk].
  - split; [|done]. intros _ st Hst. exists ev. split; [by left|].
    destruct (stageEventField sr st ev) eqn:Em; [done|].
    assert (st ∈ filter (unmarks sr ev) (open_stages ms)) as Hin.
    { apply list_elem_of_filter. by rewrite Em. }
    destruct (filter (unmarks sr ev) (open_stages ms)); [set_solver|].
    unfold zlen in Hsplit, Hk, Hrem. simpl in Hsplit. lia.
  - destruct (Hf eq_refl) as [E ->]. rewrite (IH ms') by (rewrite ?E; lia). rewrite E. split.
    + intros H st Hst. destruct (stageEventField sr st ev) eqn:Em; [exists ev; split; [by left|done]|].
      destruct (H st) as (ev' & ? & ?); [apply list_elem_of_filter; by rewrite Em|].
      exists ev'. split; [by right|done].
    + intros H st Hst. apply list_elem_of_filter in Hst as [Hn' Hst].
      destruct (H st Hst) as (ev' & Hev & Hm). apply elem_of_cons in Hev as [->|Hev]; [done|eauto].
Qed.

Lemma open_stages_all sts : open_stages ((λ st, (st, false)) <$> sts) = sts.
Proof. unfold open_stages. induction sts; [done|]. simpl. by f_equal. Qed.

(** ** A buffer in order is read as the window of its events *)
Lemma evaluate_spec sr buf now : chronological buf →
  evaluateSequenceRule sr buf now = true ↔ holds sr (window_events (now - window sr) buf).
Proof.
  intros Hs. unfold evaluateSequenceRule, holds, evaluateStaged.
  destruct (Nat.ltb_spec 0 (length (stages sr))) as [Hl|Hl].
  - destruct (ordered sr).
    + apply staged_ordered_spec. by destruct (stages sr); [simpl in Hl; lia|].
    + rewrite staged_any_spec; rewrite ?open_stages_all; [done..|unfold zlen; lia].
  - destruct (distinct sr); cbn zeta.
    + rewrite distinct_back_spec, (right_id_L ∅ (∪)), Z.leb_le by done. done.
    + by rewrite count_back_spec, Z.leb_le.
Qed.

(** ** The buffers *)
Lemma pruneOlderThan_spec buf cutoff :
  ∃ pre, buf = pre ++ pruneOlderThan buf cutoff ∧ Forall (λ ev, ts ev < cutoff) pre.
Proof.
  induction buf as [|ev buf (pre & E & H)]; [by exists []|]. simpl.
  destruct (Z.ltb_spec (ts ev) cutoff).
  - exists (ev :: pre). split; [by rewrite E at 1|by constructor].
  - by exists [].
Qed.

Lemma touch_lookup f ks b gk : NoDup ks →
  touch f ks b !! gk = if decide (gk ∈ ks) then Some (f (default [] (b !! gk))) else b !! gk.
Proof.
  unfold touch. revert b. induction ks as [|k ks IH]; intros b Hnd; cbn [foldl].
  { by rewrite decide_False by apply not_elem_of_nil. }
  apply NoDup_cons in Hnd as [Hk Hnd]. rewrite IH by done.
  destruct (decide (gk = k)) as [->|Hne].
  - rewrite decide_False by done. rewrite decide_True by by left. by rewrite lookup_insert_eq.
  - rewrite !lookup_insert_ne by done. rewrite (decide_ext (gk ∈ k :: ks) (gk ∈ ks)); [done|].
    rewrite elem_of_cons. naive_solver.
Qed.

(** An event goes to the buffer [gk]. *)
Definition in_group (rs : list sequenceRule) (gk : string) (te : timedEvent) : Prop :=
  gk ∈ groupKeysForEvent rs te.
#[export] Instance in_group_dec rs gk te : Decision (in_group rs gk te).
Proof. unfold in_group. apply _. Defined.

Definition group_history (rs : list sequenceRule) (gk : string) (h : list timedEvent) :=
  filter (in_group rs gk) h.

Lemma in_group_spec rs gk te :
  in_group rs gk te ↔ ∃ sr, sr ∈ rs ∧ groupKeyFor sr te = Some gk.
Proof.
  unfold in_group, groupKeysForEvent. rewrite elem_of_remove_dups, list_elem_of_omap.
  naive_solver.
Qed.

(** The buffers hold, of the history of each group, all but events older than any
    window. *)
Record refines (e : SequenceEngine) (h : list timedEvent) (last : time) : Prop := {
  rf_sorted : chronological h;
  rf_past : ∀ te, te ∈ h → ts te <= last;
  rf_window : ∀ sr, sr ∈ rules e → window sr <= maxWindow e;
  rf_buffer : ∀ gk, ∃ pre,
    group_history (rules e) gk h = pre ++ default [] (buffers e !! gk) ∧
    Forall (λ ev, ts ev < last - maxWindow e) pre;
  rf_none : ∀ gk, buffers e !! gk = None → group_history (rules e) gk h = []
}.

Definition touched (e : SequenceEngine) (te : timedEvent) : gmap string (list timedEvent) :=
  touch (λ buf, pruneOlderThan buf (ts te - maxWindow e)) (groupKeysForEvent (rules e) te)
    (touch (λ buf, buf ++ [te]) (groupKeysForEvent (rules e) te) (buffers e)).

Lemma touched_lookup e te gk : touched e te !! gk =
  if decide (in_group (rules e) gk te)
  then Some (pruneOlderThan (default [] (buffers e !! gk) ++ [te]) (ts te - maxWindow e))
  else buffers e !! gk.
Proof.
  unfold touched. rewrite !touch_lookup by apply NoDup_remove_dups.
  by destruct (decide (gk ∈ _)) as [H|H], (decide (in_group (rules e) gk te)) as [H'|H'].
Qed.

Lemma observe_event_unfold e te : rules e ≠ [] →
  observe_event e te =
  let '(lf, fired) := foldl (fire_step (touched e te) te) (lastFire e, []) (rules e) in
  (mkSequenceEngine (rules e) (touched e te) lf (maxWindow e) (malformed e), fired).
Proof.
  intros H. unfold observe_event.
  assert ((length (rules e) =? 0)%nat = false) as ->; [|done].
  apply Nat.eqb_neq. intros E. by apply nil_length_inv in E.
Qed.

Lemma observe_event_state e te :
  let e' := (observe_event e te).1 in
  rules e' = rules e ∧ maxWindow e' = maxWindow e ∧
  (∀ gk, buffers e' !! gk = touched e te !! gk).
Proof.
  cbn zeta. unfold observe_event. destruct (length (rules e) =? 0)%nat eqn:E.
  - split_and!; [done..|]. intros gk. simpl. rewrite touched_lookup.
    apply Nat.eqb_eq, nil_length_inv in E. rewrite decide_False; [done|].
    rewrite in_group_spec, E. set_solver.
  - by destruct (foldl _ _ _).
Qed.

Lemma group_history_snoc rs gk h te : group_history rs gk (h ++ [te]) =
  group_history rs gk h ++ (if decide (in_group rs gk te) then [te] else []).
Proof. unfold group_history. rewrite filter_app, filter_cons, filter_nil. by case_decide. Qed.

(** The buffers after an event refine the history with it. *)
Lemma touched_refines e h last te : refines e h last → last <= ts te →
  ∀ gk, ∃ pre, group_history (rules e) gk (h ++ [te]) = pre ++ default [] (touched e te !! gk) ∧
    Forall (λ ev, ts ev < ts te - maxWindow e) pre.
Proof.
  intros [_ _ _ Hb _] Ht gk. destruct (Hb gk) as (pre & E & Hpre).
  rewrite group_history_snoc, E, touched_lookup.
  assert (Forall (λ ev, ts ev < ts te - maxWindow e) pre) as Hpre'.
  { eapply Forall_impl; [exact Hpre|]. simpl. lia. }
  case_decide; simpl; [|exists pre; by rewrite app_nil_r].
  destruct (pruneOlderThan_spec (default [] (buffers e !! gk) ++ [te]) (ts te - maxWindow e))
    as (pre2 & E2 & Hpre2).
  exists (pre ++ pre2). rewrite <- (app_assoc pre pre2), <- E2, app_assoc.
  split; [done|]. by apply Forall_app.
Qed.

Lemma refines_observe e h last te : refines e h last → last <= ts te →
  refines (observe_event e te).1 (h ++ [te]) (ts te).
Proof.
  intros R Ht. pose proof (observe_event_state e te) as (Er & Ew & Eb).
  pose proof (touched_refines e h last te R Ht) as Hb. destruct R as [Hs Hp Hw _ Hn].
  split; rewrite ?Er, ?Ew; [| |done| |].
  - apply snoc_chronological; [done|]. intros y Hy. specialize (Hp y Hy). lia.
  - intros y Hy. apply elem_of_app in Hy as [Hy|Hy]; [specialize (Hp y Hy); lia|].
    apply list_elem_of_singleton in Hy as ->. lia.
  - intros gk. rewrite Eb. apply Hb.
  - intros gk. rewrite Eb, touched_lookup, group_history_snoc.
    case_decide; [done|]. intros Hno. by rewrite (Hn gk Hno).
Qed.

Lemma load_step_window acc r : let '(rs, mw, _) := acc in
  0 <= mw ∧ (∀ sr, sr ∈ rs → window sr <= mw) →
  let '(rs', mw', _) := load_step acc r in 0 <= mw' ∧ ∀ sr, sr ∈ rs' → window sr <= mw'.
Proof.
  destruct acc as [[rs mw] bad]. intros [H0 H]. unfold load_step.
  destruct (_ || _); [done|]. destruct (parseSequenceRule r) as [sr| |]; [|done..].
  assert (∀ x, x ∈ rs ++ [sr] → x ∈ rs ∨ x = sr) as Hin by set_solver.
  destruct (Z.ltb_spec mw (window sr)); (split; [lia|]); intros x Hx;
    destruct (Hin x Hx) as [Hx'| ->]; try specialize (H x Hx'); lia.
Qed.

Lemma load_fold_window l acc : let '(rs, mw, _) := acc in
  0 <= mw ∧ (∀ sr, sr ∈ rs → window sr <= mw) →
  let '(rs', mw', _) := foldl load_step acc l in 0 <= mw' ∧ ∀ sr, sr ∈ rs' → window sr <= mw'.
Proof.
  revert acc. induction l as [|r l IH]; intros [[rs mw] bad] H; [done|]. cbn [foldl].
  pose proof (load_step_window (rs, mw, bad) r H) as H1.
  destruct (load_step (rs, mw, bad) r) as [[rs1 mw1] bad1]. apply (IH (rs1, mw1, bad1) H1).
Qed.

Lemma refines_loaded rs t : refines (LoadRules rs NewSequenceEngine) [] t.
Proof.
  unfold LoadRules. pose proof (load_fold_window rs ([], 0, 0)) as H. cbn beta iota in H.
  destruct (foldl load_step ([], 0, 0) rs) as [[rs' mw] bad].
  split; simpl; [constructor|set_solver|apply H; split; [done|set_solver]| |done].
  intros gk. exists []. split; [|constructor]. by rewrite lookup_empty.
Qed.

(** ** The rules fired by one event *)

(** Two rules never share a buffer. *)
Definition rule_id (sr : sequenceRule) : string := r_ID (rule sr).
Definition no_bar (s : string) : bool := negb (contains_char (λ c, Ascii.eqb c "|") s).
Record distinct_ids (rs : list sequenceRule) : Prop := {
  di_nodup : NoDup (rule_id <$> rs);
  di_bar : ∀ sr, sr ∈ rs → no_bar (rule_id sr) = true
}.

Lemma bar_inj a b x y : no_bar a = true → no_bar b = true →
  a +:+ "|" +:+ x = b +:+ "|" +:+ y → a = b.
Proof.
  unfold no_bar. revert b. induction a as [|c a IH]; intros [|d b]; simpl; intros Ha Hb H.
  - done.
  - injection H as <- _. by rewrite Ascii.eqb_refl in Hb.
  - injection H as -> _. by rewrite Ascii.eqb_refl in Ha.
  - injection H as -> H. f_equal. apply negb_true_iff, orb_false_iff in Ha as [_ Ha].
    apply negb_true_iff, orb_false_iff in Hb as [_ Hb].
    apply IH; [by rewrite Ha|by rewrite Hb|done].
Qed.

Lemma group_key_id sr te gk : groupKeyFor sr te = Some gk → ∃ x, gk = rule_id sr +:+ "|" +:+ x.
Proof.
  unfold groupKeyFor. destruct (_ || _); [intros [= <-]; by eexists|].
  destruct (String.eqb _ _); [done|]. intros [= <-]. by eexists.
Qed.

Lemma same_key_same_rule rs sr1 sr2 te1 te2 gk : distinct_ids rs →
  sr1 ∈ rs → sr2 ∈ rs → groupKeyFor sr1 te1 = Some gk → groupKeyFor sr2 te2 = Some gk → sr1 = sr2.
Proof.
  intros [Hnd Hb] H1 H2 G1 G2. apply group_key_id in G1 as [x ->]. apply group_key_id in G2 as [y G].
  apply bar_inj in G; [|by apply Hb..].
  apply list_elem_of_lookup in H1 as [i Hi], H2 as [j Hj].
  assert (i = j) as ->; [|congruence].
  eapply (NoDup_lookup _ _ _ (rule_id sr1) Hnd); rewrite list_lookup_fmap, ?Hi, ?Hj; simpl; congruence.
Qed.

(** Under distinct identifiers the group of a rule's key is the rule's own. *)
Lemma in_group_own rs sr te te' gk : distinct_ids rs → sr ∈ rs → groupKeyFor sr te = Some gk →
  in_group rs gk te' ↔ groupKeyFor sr te' = Some gk.
Proof.
  intros Hd Hsr Hg. rewrite in_group_spec. split; [|naive_solver].
  intros (sr' & Hsr' & Hg'). by rewrite (same_key_same_rule rs sr sr' te te' gk).
Qed.

(** The evaluation loop: a rule fires when it is not cooling and its buffer
    satisfies it; the others keep their fire times. *)
Definition fires (b : gmap string (list timedEvent)) (lf : gmap string time) (te : timedEvent)
    (sr : sequenceRule) : bool :=
  match groupKeyFor sr te with
  | None => false
  | Some gk =>
      match b !! gk with
      | None => false
      | Some buf => negb (cooling sr lf gk (ts te)) && evaluateSequenceRule sr buf (ts te)
      end
  end.

Lemma fire_step_fires b te lf fired sr :
  fire_step b te (lf, fired) sr =
  if fires b lf te sr then
    (<[default "" (groupKeyFor sr te) := ts te]> lf, fired ++ [sr]) else (lf, fired).
Proof.
  unfold fire_step, fires. destruct (groupKeyFor sr te) as [gk|]; [|done].
  destruct (b !! gk); [|done]. destruct (cooling sr lf gk (ts te)); [done|].
  by destruct (evaluateSequenceRule _ _ _).
Qed.

Lemma fires_ext b lf lf' te sr :
  (∀ gk, groupKeyFor sr te = Some gk → lf' !! gk = lf !! gk) → fires b lf' te sr = fires b lf te sr.
Proof.
  intros H. unfold fires. destruct (groupKeyFor sr te) as [gk|]; [|done].
  destruct (b !! gk); [|done]. unfold cooling. by rewrite (H gk eq_refl).
Qed.

Lemma distinct_ids_cons sr rs : distinct_ids (sr :: rs) →
  distinct_ids rs ∧ ∀ x te gk, x ∈ rs → groupKeyFor sr te = Some gk → groupKeyFor x te ≠ Some gk.
Proof.
  intros D. pose proof D as [Hnd Hb]. rewrite fmap_cons in Hnd.
  apply NoDup_cons in Hnd as [Hn Hnd]. split.
  - split; [done|]. intros x Hx. apply Hb. by right.
  - intros x te gk Hx Hg Hg'. apply Hn.
    rewrite (same_key_same_rule (sr :: rs) sr x te te gk) by (done || by left || by right).
    by apply list_elem_of_fmap_2.
Qed.

Lemma fire_fold b te rs lf fired : distinct_ids rs →
  let '(lf', fired') := foldl (fire_step b te) (lf, fired) rs in
  fired' = fired ++ filter (λ sr, fires b lf te sr = true) rs ∧
  (∀ sr gk, sr ∈ rs → fires b lf te sr = true → groupKeyFor sr te = Some gk →
     lf' !! gk = Some (ts te)) ∧
  (∀ gk, lf' !! gk = lf !! gk ∨ lf' !! gk = Some (ts te)).
Proof.
  revert lf fired. induction rs as [|sr rs IH]; intros lf fired D.
  { simpl. rewrite app_nil_r. split_and!; [done|set_solver|by left]. }
  apply distinct_ids_cons in D as [D Hk]. cbn [foldl]. rewrite fire_step_fires, filter_cons.
  destruct (fires b lf te sr) eqn:Ef.
  2:{ specialize (IH lf fired D). destruct (foldl _ _ _) as [lf' fired'].
      destruct IH as (E & H1 & H2). rewrite decide_False by done. split_and!; [done| |done].
      intros x gk Hx. apply elem_of_cons in Hx as [->|Hx]; [congruence|eauto]. }
  rewrite decide_True by done.
  destruct (groupKeyFor sr te) as [gk|] eqn:Eg; [|unfold fires in Ef; by rewrite Eg in Ef].
  simpl. specialize (IH (<[gk:=ts te]> lf) (fired ++ [sr]) D).
  assert (∀ x, x ∈ rs → fires b (<[gk:=ts te]> lf) te x = fires b lf te x) as Hext.
  { intros x Hx. apply fires_ext. intros gk' Hg. rewrite lookup_insert_ne; [done|].
    intros <-. by destruct (Hk x te gk Hx Eg). }
  destruct (foldl _ _ _) as [lf' fired']. destruct IH as (E & H1 & H2). split_and!.
  - rewrite E, <- app_assoc. simpl. do 2 f_equal. apply filter_ext_in.
    intros x Hx. by rewrite Hext.
  - intros x gk' Hx Hf Hg. apply elem_of_cons in Hx as [->|Hx].
    + rewrite Hg in Eg. simplify_eq. destruct (H2 gk) as [->| ->]; by rewrite ?lookup_insert_eq.
    + apply (H1 x gk'); [done|by rewrite Hext|done].
  - intros gk'. destruct (H2 gk') as [->| ->]; [|by right].
    destruct (decide (gk' = gk)) as [->|]; [right; by rewrite lookup_insert_eq|].
    left. by rewrite lookup_insert_ne.
Qed.

Lemma observe_event_fires e te : distinct_ids (rules e) →
  (observe_event e te).2 = filter (λ sr, fires (touched e te) (lastFire e) te sr = true) (rules e) ∧
  (∀ sr gk, sr ∈ (observe_event e te).2 → groupKeyFor sr te = Some gk →
     lastFire (observe_event e te).1 !! gk = Some (ts te)) ∧
  (∀ gk, lastFire (observe_event e te).1 !! gk = lastFire e !! gk
         ∨ lastFire (observe_event e te).1 !! gk = Some (ts te)).
Proof.
  intros D. destruct (decide (rules e = [])) as [E|E].
  { unfold observe_event. rewrite E. simpl. split_and!; [done|set_solver|by left]. }
  rewrite observe_event_unfold by done.
  pose proof (fire_fold (touched e te) te (rules e) (lastFire e) [] D) as H.
  destruct (foldl _ _ _) as [lf fired]. destruct H as (-> & H1 & H2). simpl.
  split_and!; [done| |done]. intros sr gk Hsr. apply list_elem_of_filter in Hsr as [? ?]. eauto.
Qed.

(** ** Histories *)
Fixpoint observe_all (e : SequenceEngine) (h : list timedEvent)
    : SequenceEngine * list (timedEvent * list sequenceRule) :=
  match h with
  | [] => (e, [])
  | te :: h' =>
      let '(e1, fired) := observe_event e te in
      let '(e2, log) := observe_all e1 h' in (e2, (te, fired) :: log)
  end.

Lemma observe_all_app e h1 h2 : observe_all e (h1 ++ h2) =
  let '(e1, l1) := observe_all e h1 in
  let '(e2, l2) := observe_all e1 h2 in (e2, l1 ++ l2).
Proof.
  revert e. induction h1 as [|te h1 IH]; intros e; simpl; [by destruct (observe_all e h2)|].
  destruct (observe_event e te) as [e1 f]. rewrite IH.
  destruct (observe_all e1 h1) as [e2 l1]. by destruct (observe_all e2 h2).
Qed.

Lemma refines_observe_all e h0 last h : refines e h0 last → chronological (h0 ++ h) →
  (∀ te, te ∈ h → last <= ts te) →
  ∃ last', refines (observe_all e h).1 (h0 ++ h) last' ∧
    (last' = last ∨ ∃ te, te ∈ h ∧ last' = ts te) ∧
    rules (observe_all e h).1 = rules e.
Proof.
  revert e h0 last. induction h as [|te h IH]; intros e h0 last R Hs Hl.
  { exists last. rewrite app_nil_r. split_and!; auto. }
  assert (refines (observe_event e te).1 (h0 ++ [te]) (ts te)) as R1.
  { apply (refines_observe e h0 last); [done|]. apply Hl. by left. }
  pose proof (observe_event_state e te) as (Er & _ & _). cbn [observe_all].
  destruct (observe_event e te) as [e1 fired]. simpl in *.
  assert (chronological ((h0 ++ [te]) ++ h)) as Hs' by by rewrite <- app_assoc.
  destruct (IH e1 (h0 ++ [te]) (ts te) R1 Hs') as (last' & R2 & Hl2 & Er2).
  { apply chronological_app_r, StronglySorted_inv in Hs as [_ Hf].
    rewrite Forall_forall in Hf. intros y Hy. by apply Hf. }
  destruct (observe_all e1 h) as [e2 log]. simpl in *. exists last'.
  rewrite <- app_assoc in R2. split; [exact R2|]. split; [|congruence].
  destruct Hl2 as [->|(y & Hy & ->)]; right; [exists te|exists y]; (split; [|done]); set_solver.
Qed.

Lemma loaded_refines rs h te : chronological (h ++ [te]) →
  let e := (observe_all (LoadRules rs NewSequenceEngine) h).1 in
  rules e = rules (LoadRules rs NewSequenceEngine) ∧
  ∃ last, refines e h last ∧ last <= ts te.
Proof.
  intros Hs. cbn zeta. pose proof (chronological_snoc _ _ Hs) as [Hh Hle].
  set (t0 := match h with [] => ts te | x :: _ => ts x end).
  destruct (refines_observe_all (LoadRules rs NewSequenceEngine) [] t0 h) as (last & R & Hl & E);
    [apply refines_loaded|done| |].
  { intros y Hy. unfold t0. destruct h as [|x h]; [set_solver|].
    apply StronglySorted_inv in Hh as [_ Hf]. rewrite Forall_forall in Hf.
    apply elem_of_cons in Hy as [->|Hy]; [lia|by apply Hf]. }
  split; [done|]. exists last. split; [done|].
  destruct Hl as [->|(y & Hy & ->)]; [|by apply Hle].
  unfold t0. destruct h as [|x h]; [lia|]. apply Hle. by left.
Qed.

Lemma group_history_own rs sr te gk h : distinct_ids rs → sr ∈ rs → groupKeyFor sr te = Some gk →
  group_history rs gk h = filter (λ x, groupKeyFor sr x = Some gk) h.
Proof. intros D Hsr Hg. apply filter_ext_in. intros x _. by eapply in_group_own. Qed.

(** What the buffer of a group says about a rule is what the history says. *)
Lemma evaluate_touched e h last te sr gk : refines e h last → last <= ts te →
  chronological (h ++ [te]) → distinct_ids (rules e) → sr ∈ rules e →
  groupKeyFor sr te = Some gk →
  ∃ buf, touched e te !! gk = Some buf ∧
    (evaluateSequenceRule sr buf (ts te) = true ↔
     holds sr (window_events (ts te - window sr)
                 (filter (λ x, groupKeyFor sr x = Some gk) (h ++ [te])))).
Proof.
  intros R Ht Hs D Hsr Hg. destruct (touched_refines e h last te R Ht gk) as (pre & E & Hpre).
  assert (in_group (rules e) gk te) as Hin by (apply in_group_spec; eauto).
  assert (∃ buf, touched e te !! gk = Some buf) as [buf Hbuf].
  { rewrite touched_lookup, decide_True by done. eauto. }
  exists buf. split; [done|]. rewrite Hbuf in E. simpl in E.
  rewrite (group_history_own _ sr te gk _ D Hsr Hg) in E. rewrite E, window_events_app_old.
  - apply evaluate_spec. apply (chronological_app_r pre). rewrite <- E.
    by apply chronological_filter.
  - pose proof (rf_window e h last R sr Hsr). eapply Forall_impl; [exact Hpre|]. simpl. lia.
Qed.

Lemma fires_after_last e h sr gk l : distinct_ids (rules e) →
  chronological h → (∀ te, te ∈ h → l <= ts te) → lastFire e !! gk = Some l →
  ∀ te f, (te, f) ∈ (observe_all e h).2 → sr ∈ f → groupKeyFor sr te = Some gk →
  l + cooldown sr <= ts te.
Proof.
  revert e l. induction h as [|te0 h IH]; intros e l D Hs Hl Hlf te f; cbn [observe_all].
  { intros H. by apply elem_of_nil in H. }
  pose proof (observe_event_state e te0) as (Er & _ & _).
  pose proof (observe_event_fires e te0 D) as (Ef & _ & Hf).
  destruct (observe_event e te0) as [e1 fired]. simpl in *.
  apply StronglySorted_inv in Hs as [Hs Hle]. rewrite Forall_forall in Hle.
  assert (l <= ts te0) as Hl0 by (apply Hl; by left).
  assert (∃ l1, lastFire e1 !! gk = Some l1 ∧ l <= l1 <= ts te0) as (l1 & Hl1 & Hb).
  { destruct (Hf gk) as [->| ->]; [exists l|exists (ts te0)]; (split; [done|lia]). }
  destruct (observe_all e1 h) as [e2 log] eqn:Eo. simpl.
  intros Hin Hsr Hg. apply elem_of_cons in Hin as [[= -> ->]|Hin].
  - rewrite Ef in Hsr. apply list_elem_of_filter in Hsr as [Hfire _].
    unfold fires, cooling in Hfire. rewrite Hg, Hlf in Hfire.
    destruct (touched e te0 !! gk); [|done]. case_cmp; simpl in *; try done; lia.
  - specialize (IH e1 l1). rewrite Er, Eo in IH. simpl in IH.
    specialize (IH D Hs (λ y Hy, Z.le_trans _ _ _ (proj2 Hb) (Hle y Hy)) Hl1 te f Hin Hsr Hg). lia.
Qed.

Lemma fires_spaced e h sr gk : distinct_ids (rules e) → chronological h →
  ∀ i j te1 te2 f1 f2, (i < j)%nat →
    (observe_all e h).2 !! i = Some (te1, f1) → (observe_all e h).2 !! j = Some (te2, f2) →
    sr ∈ f1 → sr ∈ f2 → groupKeyFor sr te1 = Some gk → groupKeyFor sr te2 = Some gk →
    ts te1 + cooldown sr <= ts te2.
Proof.
  revert e. induction h as [|te h IH]; intros e D Hs i j te1 te2 f1 f2 Hij; cbn [observe_all].
  { simpl. intros Hi. by rewrite lookup_nil in Hi. }
  pose proof (observe_event_state e te) as (Er & _ & _).
  pose proof (observe_event_fires e te D) as (_ & Hlf & _).
  destruct (observe_event e te) as [e1 fired]. simpl in *.
  apply StronglySorted_inv in Hs as [Hs Hle]. rewrite Forall_forall in Hle.
  assert (distinct_ids (rules e1)) as D1 by by rewrite Er.
  pose proof (IH e1 D1 Hs) as IH1. pose proof (fires_after_last e1 h sr gk (ts te) D1 Hs Hle) as Ha.
  destruct (observe_all e1 h) as [e2 log]. simpl in *.
  destruct j as [|j]; [lia|]. destruct i as [|i]; simpl.
  - intros [= -> ->] Hj Hf1 Hf2 Hg1 Hg2. apply (Ha (Hlf sr gk Hf1 Hg1) te2 f2); [|done..].
    by eapply list_elem_of_lookup_2.
  - apply (IH1 i j te1 te2 f1 f2). lia.
Qed.

(** ** Properties *)

(** C3: in an engine loaded with rules of distinct identifiers, after any
    chronological history of events, a rule fires on the next event exactly when
    the event belongs to one of its groups, the group is not cooling down, and
    the events of that group inside the rule's window (this one included) meet
    what the rule asks: enough matching events, enough distinct values, every
    stage, or the stages in order as a subsequence. *)
Theorem rule_fires_iff rs h te sr :
  let e := (observe_all (LoadRules rs NewSequenceEngine) h).1 in
  distinct_ids (rules e) → chronological (h ++ [te]) → sr ∈ rules e →
  sr ∈ (observe_event e te).2 ↔
  ∃ gk, groupKeyFor sr te = Some gk ∧ cooling sr (lastFire e) gk (ts te) = false ∧
    holds sr (window_events (ts te - window sr)
                (filter (λ x, groupKeyFor sr x = Some gk) (h ++ [te]))).
Proof.
  cbn zeta. intros D Hs Hsr. destruct (loaded_refines rs h te Hs) as (_ & last & R & Ht).
  destruct (observe_event_fires _ te D) as (-> & _). rewrite list_elem_of_filter. unfold fires.
  destruct (groupKeyFor sr te) as [gk|] eqn:Hg; [|naive_solver].
  destruct (evaluate_touched _ h last te sr gk R Ht Hs D Hsr Hg) as (buf & -> & Hev).
  rewrite andb_true_iff, negb_true_iff, Hev. naive_solver.
Qed.

(** Over any chronological history, two alerts of the same rule for the same
    group are at least the rule's cooldown apart. *)
Theorem alerts_are_spaced rs h sr gk i j te1 te2 f1 f2 :
  let e := LoadRules rs NewSequenceEngine in
  distinct_ids (rules e) → chronological h → (i < j)%nat →
  (observe_all e h).2 !! i = Some (te1, f1) → (observe_all e h).2 !! j = Some (te2, f2) →
  sr ∈ f1 → sr ∈ f2 → groupKeyFor sr te1 = Some gk → groupKeyFor sr te2 = Some gk →
  ts te1 + cooldown sr <= ts te2.
Proof. cbn zeta. intros D Hs. by apply fires_spaced. Qed.

(** A rule the parser accepts does not hold of an empty window: no
    malformed threshold or stage list turns into a rule that fires on anything. *)
Theorem parsed_rule_needs_events r sr now :
  parseSequenceRule r = Parsed sr → evaluateSequenceRule sr [] now = false.
Proof.
  unfold parseSequenceRule. destruct (_ !! "window") as [w|]; [|done].
  destruct (_ && _) eqn:E0; [done|]. destruct (parseDuration w); [|done].
  destruct (parse_threshold _ _) as [n|] eqn:Et; [|done].
  destruct (bool_decide _ && _) eqn:E1; [done|]. intros [= <-].
  unfold evaluateSequenceRule, evaluateStaged. simpl.
  destruct (parseStages _ _) as [|st sts] eqn:Es; simpl.
  - assert (0 < n) as Hn.
    { unfold parse_threshold in Et. destruct (parseDirectives (r_Content r) !! "threshold").
      - destruct (atoi _) as [k|]; [|done]. destruct (Z.ltb_spec k 1); simplify_eq. lia.
      - destruct (parseDirectives (r_Content r) !! "stages"); simpl in *; done. }
    assert (∀ b : bool, (if b then n <=? Z.of_nat (size (∅ : gset string)) else n <=? 0) = false)
      as Hb.
    { intros []; apply Z.leb_gt; [|done]. change (size (∅ : gset string)) with 0%nat. done. }
    apply Hb.
  - by destruct (String.eqb _ "true").
Qed.

(** A [cooldown] that does not parse is no cooldown at all. *)
Lemma cooldown_typo_disables d cd : d !! "cooldown" = Some cd → cd ≠ "" →
  parseDuration cd = None → parse_cooldown d = 0.
Proof.
  intros H Hne Hp. unfold parse_cooldown. rewrite H, Hp. apply String.eqb_neq in Hne. by rewrite Hne.
Qed.

(** ** Witnesses *)
Definition lines (l : list string) : string := join (String newline "") l.
Definition toy_rule (id content_ : string) : DetectionRule :=
  mkDetectionRule id "brute force" "behavioral" [] 7 content_ true false false [].
Definition toy_count : DetectionRule :=
  toy_rule "r1" "window: 60s
threshold: 2
event_type: auth
field: eventName
value: login_failure
cooldown: 5m".
Definition toy_chain : DetectionRule :=
  toy_rule "r2" "window: 10m
stages: 2
ordered: true
field: commandLine
stage_1: whoami, nltest
stage_2: psexec".
Definition toy_engine : SequenceEngine := LoadRules [toy_count; toy_chain] NewSequenceEngine.
Definition toy_event (t : time) (etype k v : string) : timedEvent :=
  mkTimedEvent t "a1" etype (flattenToStrings [(k, VStr v)]).
Definition toy_history : list timedEvent :=
  [toy_event 0 "auth" "eventName" "LOGIN_FAILURE"; toy_event second "process" "commandLine" "whoami /all";
   toy_event (2 * second) "auth" "eventName" "login_failure";
   toy_event (3 * second) "auth" "eventName" "login_failure"].
Definition toy_last : timedEvent := toy_event (400 * second) "process" "commandLine" "PsExec host".

Example toy_log : map (λ p, map rule_id p.2) (observe_all toy_engine (toy_history ++ [toy_last])).2
  = [[]; []; ["r1"]; []; ["r2"]].
Proof. by vm_compute. Qed.

Lemma toy_distinct : distinct_ids (rules toy_engine).
Proof.
  split; [vm_compute; repeat constructor; set_solver|].
  intros sr Hsr. assert (Forall (λ sr, no_bar (rule_id sr) = true) (rules toy_engine)) as H.
  { vm_compute. repeat constructor. }
  rewrite Forall_forall in H. by apply H.
Qed.

Lemma toy_chronological : chronological (toy_history ++ [toy_last]).
Proof. repeat constructor; vm_compute; done. Qed.

Lemma rule_fires_iff_witness :
  ∃ sr, rule_id sr = "r2" ∧
  ∃ gk, groupKeyFor sr toy_last = Some gk ∧
    cooling sr (lastFire (observe_all toy_engine toy_history).1) gk (ts toy_last) = false ∧
    holds sr (window_events (ts toy_last - window sr)
                (filter (λ x, groupKeyFor sr x = Some gk) (toy_history ++ [toy_last]))).
Proof.
  destruct (rules toy_engine) as [|s1 [|s2 [|]]] eqn:E; vm_compute in E; try discriminate E.
  exists s2. split; [by injection E as _ <-|].
  apply (rule_fires_iff [toy_count; toy_chain] toy_history toy_last s2).
  - exact toy_distinct.
  - exact toy_chronological.
  - injection E as _ <-. vm_compute. right. left.
  - injection E as _ <-. vm_compute. left.
Defined.

Lemma alerts_are_spaced_witness :
  ∃ sr te1 te2, 0 <= ts te1 ∧ ts te1 + cooldown sr <= ts te2 ∧ cooldown sr = 5 * minute.
Proof.
  set (h := [toy_event 0 "auth" "eventName" "login_failure";
             toy_event 1 "auth" "eventName" "login_failure";
             toy_event (6 * minute) "auth" "eventName" "login_failure";
             toy_event (6 * minute + 1) "auth" "eventName" "login_failure"]).
  destruct (observe_all toy_engine h).2 as [|p0 [|[te1 f1] [|p2 [|[te2 f2] [|]]]]] eqn:E;
    vm_compute in E; try discriminate E.
  injection E as _ Et1 Ef1 _ Et2 Ef2.
  destruct (rules toy_engine) as [|sr l] eqn:Er; vm_compute in Er; [discriminate Er|].
  injection Er as Esr _.
  exists sr, te1, te2. split; [by rewrite <- Et1|]. split; [|by rewrite <- Esr].
  apply (alerts_are_spaced [toy_count; toy_chain] h sr "r1|a1" 1 3 te1 te2 f1 f2).
  - exact toy_distinct.
  - repeat constructor; vm_compute; done.
  - lia.
  - rewrite <- Et1, <- Ef1. vm_compute. reflexivity.
  - rewrite <- Et2, <- Ef2. vm_compute. reflexivity.
  - rewrite <- Esr, <- Ef1. left.
  - rewrite <- Esr, <- Ef2. left.
  - rewrite <- Esr, <- Et1. vm_compute. reflexivity.
  - rewrite <- Esr, <- Et2. vm_compute. reflexivity.
Defined.

Lemma parsed_rule_needs_events_witness :
  ∃ sr, parseSequenceRule toy_chain = Parsed sr ∧ evaluateSequenceRule sr [] 0 = false.
Proof.
  destruct (parseSequenceRule toy_chain) as [sr| |] eqn:E; vm_compute in E; try discriminate E.
  exists sr. split; [reflexivity|].
  apply (parsed_rule_needs_events toy_chain sr 0). rewrite <- E. vm_compute. reflexivity.
Defined.
