(* ===== verification/Sigma.v ===== *)
(** * The Sigma evaluator

    [server/internal/detection/sigma_evaluator.go] and [sigma_category.go]: field
    matching with modifiers, the condition language, rule loading and event
    evaluation.  Go's [regexp] and [net] packages and the YAML parser are
    parameters.  A compiled matcher is a function from events to [bool], as in
    the source. *)

From Stdlib Require Import Ascii.
From S2P Require Import Prelude GoStrings Event Base64.

#[local] Open Scope string_scope.
#[local] Open Scope list_scope.
#[local] Open Scope Z_scope.

(** ** Rule types *)
Record SigmaLogSource := mkLogSource { Product : string; Category : string; Service : string }.

Record SigmaDetection := mkDetection {
  Selections : gomap value;
  Condition : string;
  Timeframe : string
}.

Record SigmaRule := mkSigmaRule {
  s_Title : string;
  s_Description : string;
  s_Status : string;
  s_Level : string;
  s_Tags : list string;
  LogSource : SigmaLogSource;
  Detection : SigmaDetection;
  FalsePositives : list string;
  DBSeverity : Z;
  s_Platform : list string
}.

Record SigmaMatch := mkSigmaMatch {
  RuleTitle : string;
  Level : string;
  Tags : list string;
  MatchedFields : event;
  s_Severity : Z
}.

Abbreviation matcher := (event → bool) (only parsing).

Record CompiledSigmaRule := mkCompiled { Rule : SigmaRule; Evaluate : matcher }.

(** The document [yaml.Unmarshal] fills. *)
Record sigmaYAMLDoc := mkYAMLDoc {
  y_Title : string;
  y_Description : string;
  y_Status : string;
  y_Level : string;
  y_Tags : list string;
  y_FalsePositives : value;
  y_LogSource : gomap string;
  y_Detection : gomap value
}.

(** ** Values and patterns *)
Definition stringify (v : value) : string :=
  match v with VNil => "" | VStr s => s | _ => sprint v end.

Definition normalisePatterns (modifier : string) (pattern : value) : list string * bool :=
  let requireAll := contains modifier "all" in
  match pattern with
  | VStr s => ([s], requireAll)
  | VList l => (sprint <$> l, requireAll)
  | VNil => ([""], requireAll)
  | v => ([sprint v], requireAll)
  end.

Definition modifierTokens (modifier : string) : list string :=
  if String.eqb modifier "" then [] else split_on "|" modifier.

Definition hasToken (toks : list string) (t : string) : bool := existsb (String.eqb t) toks.

Fixpoint comparisonToken (toks : list string) : string :=
  match toks with
  | [] => ""
  | t :: toks' =>
      if String.eqb t "contains" || String.eqb t "startswith" || String.eqb t "endswith"
         || String.eqb t "re" then t else comparisonToken toks'
  end.

Definition matchAnyOrAll (val : string) (patterns : list string) (requireAll : bool)
    (cmpFn : string → string → bool) : bool :=
  if requireAll then forallb (cmpFn val) patterns && (0 <? length patterns)%nat
  else existsb (cmpFn val) patterns.

Definition cmp_contains (v p : string) : bool := contains (to_lower v) (to_lower p).
Definition cmp_prefix (v p : string) : bool := has_prefix (to_lower v) (to_lower p).
Definition cmp_suffix (v p : string) : bool := has_suffix (to_lower v) (to_lower p).

(** *** Numbers *)
Definition toFloat (v : value) : option (Z * Z) :=
  match v with
  | VFloat m e => Some (m, e)
  | VInt z => Some (z, 0)
  | VStr s => parse_float (trim_space s)
  | _ => None
  end.

Definition numeric_op (op : string) (fv tv : Z * Z) : bool :=
  if String.eqb op "gt" then dec_ltb tv fv
  else if String.eqb op "gte" then dec_leb tv fv
  else if String.eqb op "lt" then dec_ltb fv tv
  else if String.eqb op "lte" then dec_leb fv tv
  else false.

Definition buildNumericMatch (op : string) (patterns : list string) (val : value) : bool :=
  match toFloat val with
  | None => false
  | Some fv =>
      existsb (λ p, match parse_float (trim_space p) with
                    | Some tv => numeric_op op fv tv
                    | None => false
                    end) patterns
  end.

Definition requireNumericThresholds (op : string) (patterns : list string) : option string :=
  if (length patterns =? 0)%nat then Some ("|" +:+ op +:+ " modifier has no threshold") else
  let bad := filter (λ p, parse_float (trim_space p) = None) patterns in
  if (length bad =? length patterns)%nat
  then Some ("|" +:+ op +:+ " modifier has no numeric threshold (got [" +:+ join " " bad +:+ "])")
  else None.

(** *** Encoded forms *)
Fixpoint replace_char (c : ascii) (by_ : string) (s : string) : string :=
  match s with
  | EmptyString => EmptyString
  | String d s' =>
      if Ascii.eqb c d then by_ +:+ replace_char c by_ s' else String d (replace_char c by_ s')
  end.

Definition dashes : list string := ["-"; "/"; "–"; "—"; "―"].

Definition windashVariants (p : string) : list string :=
  if contains_char (Ascii.eqb "-") p then (λ d, replace_char "-" d p) <$> dashes else [p].

Definition transform (toks : list string) (p : string) : list string :=
  (if hasToken toks "base64offset" then base64Offsets p
   else if hasToken toks "base64" then [b64 p] else []) ++
  (if hasToken toks "windash" then windashVariants p else []).

Definition transform_cmp (toks : list string) : string :=
  let cmp := comparisonToken toks in
  if String.eqb cmp "" then
    if hasToken toks "base64" && negb (hasToken toks "base64offset") && negb (hasToken toks "windash")
    then "equals" else "contains"
  else cmp.

Definition transform_fn (cmp : string) : string → string → bool :=
  if String.eqb cmp "startswith" then cmp_prefix
  else if String.eqb cmp "endswith" then cmp_suffix
  else if String.eqb cmp "equals" then equal_fold
  else cmp_contains.

Definition buildTransformMatch (toks patterns : list string) (requireAll : bool) (val : value) : bool :=
  matchAnyOrAll (stringify val) (mjoin (transform toks <$> patterns)) requireAll
    (transform_fn (transform_cmp toks)).

(** ** Fields *)
Definition parseFieldKey (key : string) : string * string :=
  match cut "|" key with
  | Some (f, m) => (f, to_lower m)
  | None => (key, "")
  end.

Definition findFieldCaseInsensitive (e : event) (field : string) : option value :=
  get_fold e field.

Definition field_value (e : event) (field : string) : option value :=
  match get e field with
  | Some v => Some v
  | None => findFieldCaseInsensitive e field
  end.

Section Sigma.
Context (regexp_compile : string → option (string → bool)).
Context (parse_cidr : string → option (string → bool)).  (** is this IP inside? *)
Context (is_ip : string → bool).
Context (yaml_unmarshal : string → res sigmaYAMLDoc).

Definition buildCIDRMatch (patterns : list string) (val : value) : bool :=
  let nets := omap (λ p, parse_cidr (trim_space p)) patterns in
  let ip := trim_space (stringify val) in
  if is_ip ip then existsb (λ n : string → bool, n ip) nets else false.

Fixpoint compile_all (patterns : list string) : res (list (string → bool)) :=
  match patterns with
  | [] => Ok []
  | p :: ps =>
      match regexp_compile p with
      | None => Err ("invalid regex '" +:+ p +:+ "'")
      | Some re => regs ← compile_all ps; Ok (re :: regs)
      end
  end.

Definition first_op (toks : list string) : option string :=
  head (filter (λ op, hasToken toks op = true) ["gte"; "lte"; "gt"; "lt"]).

Definition buildMatchFn (modifier : string) (pattern : value) : res (value → bool) :=
  let '(patterns, requireAll) := normalisePatterns modifier pattern in
  let toks := modifierTokens modifier in
  let compare (cmp : string → string → bool) : res (value → bool) :=
    Ok (λ val, matchAnyOrAll (stringify val) patterns requireAll cmp) in
  let contains_every : res (value → bool) :=
    Ok (λ val, forallb (cmp_contains (stringify val)) patterns) in
  if hasToken toks "cidr" then Ok (buildCIDRMatch patterns) else
  match first_op toks with
  | Some op =>
      match requireNumericThresholds op patterns with
      | Some err => Err err
      | None => Ok (buildNumericMatch op patterns)
      end
  | None =>
  if hasToken toks "base64offset" || hasToken toks "base64" || hasToken toks "windash"
  then Ok (buildTransformMatch toks patterns requireAll) else
  if String.eqb modifier "" || String.eqb modifier "contains" then compare cmp_contains else
  if String.eqb modifier "startswith" then compare cmp_prefix else
  if String.eqb modifier "endswith" then compare cmp_suffix else
  if String.eqb modifier "re" then
    regs ← compile_all patterns;
    Ok (λ val, let s := stringify val in
               if requireAll : bool then forallb (λ re : string → bool, re s) regs
               else existsb (λ re : string → bool, re s) regs)
  else
  if String.eqb modifier "all" then contains_every else
  if String.eqb modifier "contains|all" then contains_every else
  compare equal_fold
  end.

(** ** Selections *)
Record fieldCheck := mkCheck { ck_field : string; ck_modifier : string; matchFn : value → bool }.

Fixpoint compile_checks (m : gomap value) : res (list fieldCheck) :=
  match m with
  | [] => Ok []
  | (key, val) :: m' =>
      let '(field, modifier) := parseFieldKey key in
      match buildMatchFn modifier val with
      | Err e => Err ("field '" +:+ key +:+ "': " +:+ e)
      | Ok fn => cs ← compile_checks m'; Ok (mkCheck field modifier fn :: cs)
      end
  end.

Definition check_event (e : event) (c : fieldCheck) : bool :=
  match field_value e (ck_field c) with Some v => matchFn c v | None => false end.

Definition compileFieldMap (m : gomap value) : res matcher :=
  checks ← compile_checks m; Ok (λ e, forallb (check_event e) checks).

Fixpoint compile_items (l : list value) : res (list matcher) :=
  match l with
  | [] => Ok []
  | VMap m :: l' => fn ← compileFieldMap m; fns ← compile_items l'; Ok (fn :: fns)
  | _ :: l' => compile_items l'
  end.

Definition compileSelection (raw : value) : res matcher :=
  match raw with
  | VMap m => compileFieldMap m
  | VList l => fns ← compile_items l; Ok (λ e, existsb (λ fn : matcher, fn e) fns)
  | _ => Ok (λ _, false)
  end.

(** ** Conditions *)
Abbreviation selections := (gomap matcher) (only parsing).

Definition any_of (fns : list matcher) : matcher := λ e, existsb (λ fn : matcher, fn e) fns.
Definition all_of (fns : list matcher) : matcher :=
  λ e, forallb (λ fn : matcher, fn e) fns && (0 <? length fns)%nat.

Definition with_prefix (prefix : string) (sel : selections) : list matcher :=
  (filter (λ p, has_prefix (to_lower p.1) prefix = true) sel).*2.

(** [reOfPattern]: [^(\d+|all)\s+of\s+(\w+\*?)$]. *)
Definition re_space (c : ascii) : bool := is_space c && negb (Ascii.eqb c (chr 11)).
Definition word_char (c : ascii) : bool :=
  is_digit c || Ascii.eqb c "_" || negb (Ascii.eqb (lower_char c) (upper_char c)).

Fixpoint span (f : ascii → bool) (s : string) : string * string :=
  match s with
  | String c s' => if f c then let '(a, b) := span f s' in (String c a, b) else (EmptyString, s)
  | EmptyString => (EmptyString, EmptyString)
  end.

Definition nonempty (s : string) : bool := negb (String.eqb s "").

Definition reOfPattern (cond : string) : option (string * string) :=
  let '(q, r) := span (λ c, negb (re_space c)) cond in
  let '(sp1, r) := span re_space r in
  let '(of_, r) := span (λ c, negb (re_space c)) r in
  let '(sp2, r) := span re_space r in
  let '(w, r) := span word_char r in
  let digits := nonempty q && negb (contains_char (λ c, negb (is_digit c)) q) in
  if (digits || String.eqb q "all") && nonempty sp1 && String.eqb of_ "of" && nonempty sp2 &&
     nonempty w && (String.eqb r "" || String.eqb r "*")
  then Some (q, w +:+ r) else None.

Definition resolveSelection (name : string) (sel : selections) : matcher :=
  match get sel name with
  | Some fn => fn
  | None =>
      match get_fold sel name with
      | Some fn => fn
      | None =>
          if has_suffix name "*" then any_of (with_prefix (to_lower (trim_suffix name "*")) sel)
          else λ _, false
      end
  end.

Definition space_parens (s : string) : string :=
  replace_char ")" " ) " (replace_char "(" " ( " s).
Definition tokeniseCondition (cond : string) : list string := fields (space_parens cond).

(** The parser: the position is the list of the remaining tokens.  The [error]
    results of the Go functions are nil on every path.  The fuel bounds the
    depth of the calls; [parse_condition] gives enough ([SigmaProofs]). *)
Fixpoint parseTokens (fuel : nat) (sel : selections) (toks : list string) : matcher * list string :=
  match fuel with
  | O => (λ _, false, toks)
  | S f =>
      let '(fn, rest) := parsePrimary f sel toks in parseInfix f sel fn rest
  end
with parsePrimary (fuel : nat) (sel : selections) (toks : list string) : matcher * list string :=
  match fuel with
  | O => (λ _, false, toks)
  | S f =>
      match toks with
      | [] => (λ _, false, [])
      | tok :: toks' =>
          if String.eqb (to_lower tok) "not" then
            let '(inner, rest) := parsePrimary f sel toks' in (λ e, negb (inner e), rest)
          else if String.eqb tok "(" then
            let '(inner, rest) := parseTokens f sel toks' in
            match rest with
            | t :: rest' => if String.eqb t ")" then (inner, rest') else (inner, rest)
            | [] => (inner, rest)
            end
          else (resolveSelection tok sel, toks')
      end
  end
with parseInfix (fuel : nat) (sel : selections) (lhs : matcher) (toks : list string)
    : matcher * list string :=
  match fuel with
  | O => (lhs, toks)
  | S f =>
      match toks with
      | [] => (lhs, [])
      | tok :: toks' =>
          let t := to_lower tok in
          if String.eqb t "and" then
            let '(rhs, rest) := parsePrimary f sel toks' in
            parseInfix f sel (λ e, lhs e && rhs e) rest
          else if String.eqb t "or" then
            let '(rhs, rest) := parsePrimary f sel toks' in
            parseInfix f sel (λ e, lhs e || rhs e) rest
          else (lhs, toks)
      end
  end.

Definition enough (toks : list string) : nat := 2 * length toks + 2.

Definition parse_condition (sel : selections) (toks : list string) : matcher :=
  (parseTokens (enough toks) sel toks).1.

Definition compileConditionExpr (condition : string) (sel : selections) : matcher :=
  match reOfPattern (to_lower (trim_space condition)) with
  | Some (quantifier, target) =>
      let matchAll := String.eqb target "them" || String.eqb target "*" in
      let selected := if matchAll then sel.*2 else with_prefix (trim_suffix target "*") sel in
      if String.eqb quantifier "all" then all_of selected else any_of selected
  | None => parse_condition sel (tokeniseCondition condition)
  end.

Fixpoint compile_selections (l : gomap value) : res selections :=
  match l with
  | [] => Ok []
  | (name, raw) :: l' =>
      match compileSelection raw with
      | Err e => Err ("selection '" +:+ name +:+ "': " +:+ e)
      | Ok fn => fns ← compile_selections l'; Ok ((name, fn) :: fns)
      end
  end.

Definition compileSigmaCondition (rule : SigmaRule) : res matcher :=
  sel ← compile_selections (Selections (Detection rule));
  Ok (compileConditionExpr (trim_space (Condition (Detection rule))) sel).

(** ** Loading *)
Definition string_value (v : value) (old : string) : string :=
  match v with VStr s => s | _ => old end.

Definition detection_step (d : SigmaDetection) (p : string * value) : SigmaDetection :=
  let '(key, val) := p in
  if String.eqb key "condition" then
    mkDetection (Selections d) (string_value val (Condition d)) (Timeframe d)
  else if String.eqb key "timeframe" then
    mkDetection (Selections d) (Condition d) (string_value val (Timeframe d))
  else mkDetection (Selections d ++ [(key, val)]) (Condition d) (Timeframe d).

Definition false_positives (v : value) : list string :=
  match v with
  | VStr s => [s]
  | VList l => omap (λ fp, match fp with VStr s => Some s | _ => None end) l
  | _ => []
  end.

Definition parseSigmaYAML (content : string) : res SigmaRule :=
  match yaml_unmarshal content with
  | Err e => Err e
  | Ok doc =>
      let src k := default "" (get (y_LogSource doc) k) in
      let detection := foldl detection_step (mkDetection [] "" "") (y_Detection doc) in
      if String.eqb (y_Title doc) "" then Err "sigma rule missing title" else
      if String.eqb (Condition detection) ""
      then Err ("sigma rule '" +:+ y_Title doc +:+ "' missing condition") else
      Ok (mkSigmaRule (y_Title doc) (y_Description doc) (y_Status doc) (to_lower (y_Level doc))
            (y_Tags doc) (mkLogSource (src "product") (src "category") (src "service"))
            detection (false_positives (y_FalsePositives doc)) 0 [])
  end.

Abbreviation SigmaEvaluator := (list CompiledSigmaRule) (only parsing).
Definition NewSigmaEvaluator : SigmaEvaluator := [].

Definition LoadRule (content : string) (e : SigmaEvaluator) : res SigmaEvaluator :=
  match parseSigmaYAML content with
  | Err err => Err ("parse sigma rule: " +:+ err)
  | Ok rule =>
      match compileSigmaCondition rule with
      | Err err => Err ("compile sigma condition '" +:+ s_Title rule +:+ "': " +:+ err)
      | Ok fn => Ok (e ++ [mkCompiled rule fn])
      end
  end.

Fixpoint parseMITRETechFromTags (tags : list string) : string :=
  match tags with
  | [] => ""
  | tag :: tags' =>
      if has_prefix (to_lower tag) "attack.t" then to_upper (trim_prefix (to_lower tag) "attack.")
      else parseMITRETechFromTags tags'
  end.

Definition fallback_tags (tags fallback : list string) : list string :=
  if String.eqb (parseMITRETechFromTags tags) "" && (0 <? length fallback)%nat
  then tags ++ fallback else tags.

Definition loadDBRule (content : string) (fallback : list string) (dbSeverity : Z)
    (platform : list string) (e : SigmaEvaluator) : res SigmaEvaluator :=
  match parseSigmaYAML content with
  | Err err => Err ("parse sigma rule: " +:+ err)
  | Ok r =>
      let tags := fallback_tags (s_Tags r) fallback in
      let rule := mkSigmaRule (s_Title r) (s_Description r) (s_Status r) (s_Level r) tags
                    (LogSource r) (Detection r) (FalsePositives r) dbSeverity platform in
      match compileSigmaCondition rule with
      | Err err => Err ("compile sigma condition '" +:+ s_Title rule +:+ "': " +:+ err)
      | Ok fn => Ok (e ++ [mkCompiled rule fn])
      end
  end.

Definition LoadRuleWithFallbackTags (content : string) (fallback : list string)
    (e : SigmaEvaluator) : res SigmaEvaluator := loadDBRule content fallback 0 [] e.

Definition RuleCount (e : SigmaEvaluator) : Z := zlen e.
Definition ClearRules (e : SigmaEvaluator) : SigmaEvaluator := [].
Definition LoadedTitles (e : SigmaEvaluator) : gset string :=
  list_to_set ((λ r, s_Title (Rule r)) <$> e).

(** [loadSigmaRuleSet]: the evaluator, how many rules loaded, and the indices of
    those that did not. *)
Definition loadSigmaRuleSet (e : SigmaEvaluator) (rs : list string) : SigmaEvaluator * Z * list Z :=
  foldl (λ '(e, loaded, failures) '(i, content),
           match LoadRule content e with
           | Ok e' => (e', loaded + 1, failures)
           | Err _ => (e, loaded, failures ++ [i])
           end)
    (e, 0, []) (imap (λ i c, (Z.of_nat i, c)) rs).

(** [ReloadFromDB]: the successive rule sets an evaluation running meanwhile can
    see; the database rows come with their tags, severity and platforms. *)
Fixpoint load_states (loads : list (SigmaEvaluator → res SigmaEvaluator)) (e : SigmaEvaluator)
    : list SigmaEvaluator :=
  match loads with
  | [] => [e]
  | f :: fs => e :: load_states fs (match f e with Ok e' => e' | Err _ => e end)
  end.

Definition ReloadFromDB (builtins : list string)
    (rows : list (string * list string * Z * list string)) (e : SigmaEvaluator)
    : list SigmaEvaluator :=
  e :: load_states
         (((λ c, LoadRule c) <$> builtins) ++
          ((λ '(content, tags, sev, platform), loadDBRule content tags sev platform) <$> rows))
         (ClearRules e).

(** ** Evaluation *)
Definition eventTypeCategories : gomap (list string) :=
  [("process", ["process_creation"]); ("file", ["file_event"; "file_access"]);
   ("network", ["network_connection"]); ("dns", ["dns_query"]);
   ("registry", ["registry_event"]); ("auth", ["authentication"]);
   ("image_load", ["image_load"]); ("script", ["ps_script"]);
   ("credential_access", ["process_access"]);
   ("create_remote_thread", ["create_remote_thread"]);
   ("pipe_created", ["pipe_created"]); ("named_pipe", ["pipe_created"]);
   ("wmi_activity", ["wmi_event"]); ("ps_classic", ["ps_script"]);
   ("device_event", ["device_event"]); ("ps_module", ["ps_module"]);
   ("tamper", ["tamper"]); ("memory", [])].

Definition categoryCompatible (eventType ruleCategory : string) : bool :=
  if String.eqb ruleCategory "" then true else
  match get eventTypeCategories eventType with
  | None => false
  | Some cats => existsb (λ c, String.eqb c ruleCategory) cats
  end.

Definition gated (eventPlatform : string) (cr : CompiledSigmaRule) : bool :=
  (0 <? length (s_Platform (Rule cr)))%nat &&
  negb (platformMatchesEvent (s_Platform (Rule cr)) eventPlatform).

(** The matches, and the titles flagged as outside their category. *)
Fixpoint EvaluateEvent (rs : SigmaEvaluator) (ev : event) : list SigmaMatch * list string :=
  match rs with
  | [] => ([], [])
  | cr :: rs' =>
      let '(ms, flagged) := EvaluateEvent rs' ev in
      if gated (str_or_empty ev "platform") cr then (ms, flagged) else
      if Evaluate cr ev then
        (mkSigmaMatch (s_Title (Rule cr)) (s_Level (Rule cr)) (s_Tags (Rule cr)) ev
           (DBSeverity (Rule cr)) :: ms,
         if categoryCompatible (str_or_empty ev "type") (Category (LogSource (Rule cr)))
         then flagged else s_Title (Rule cr) :: flagged)
      else (ms, flagged)
  end.
End Sigma.
