(* ===== verification/SigmaProofs.v ===== *)
(** * The Sigma condition language means what it says, left to right

    The condition parser computes the denotation of the expression it reads;
    verdicts do not depend on the iteration order of Go maps; a rule with a
    numeric threshold that loads can fire; event evaluation reports exactly the
    rules that are not gated and match. *)

From Stdlib Require Import Ascii.
From S2P Require Import Prelude GoStrings Event Base64 Sigma.

#[local] Open Scope string_scope.
#[local] Open Scope list_scope.
#[local] Open Scope Z_scope.

(** ** Enough fuel *)
Section Parser.
Context (sel : list (string * (event → bool))).

Lemma parse_fuel n : ∀ m toks,
  ((2 * length toks + 2 <= n)%nat → (2 * length toks + 2 <= m)%nat →
     parseTokens n sel toks = parseTokens m sel toks ∧
     (length (parseTokens n sel toks).2 <= length toks)%nat) ∧
  ((2 * length toks + 1 <= n)%nat → (2 * length toks + 1 <= m)%nat →
     parsePrimary n sel toks = parsePrimary m sel toks ∧
     (length (parsePrimary n sel toks).2 <= length toks)%nat) ∧
  (∀ lhs, (2 * length toks + 1 <= n)%nat → (2 * length toks + 1 <= m)%nat →
     parseInfix n sel lhs toks = parseInfix m sel lhs toks ∧
     (length (parseInfix n sel lhs toks).2 <= length toks)%nat).
Proof.
  induction n as [|n IH]; intros m toks; [split_and!; intros; lia|].
  destruct m as [|m]; [split_and!; intros; lia|]. split_and!.
  - intros Hn Hm. cbn [parseTokens].
    destruct (IH m toks) as (_ & HP & _). destruct HP as [E L]; [lia..|]. rewrite <- E.
    destruct (parsePrimary n sel toks) as [fn rest]. cbn [snd] in L.
    destruct (IH m rest) as (_ & _ & HI). destruct (HI fn) as [E2 L2]; [lia..|].
    split; [done|lia].
  - intros Hn Hm. cbn [parsePrimary]. destruct toks as [|tok toks]; [done|]. cbn [length] in *.
    destruct (String.eqb (to_lower tok) "not"); [|destruct (String.eqb tok "("); [|simpl; auto]].
    + destruct (IH m toks) as (_ & HP & _). destruct HP as [E L]; [lia..|]. rewrite <- E.
      destruct (parsePrimary n sel toks). simpl in *. auto.
    + destruct (IH m toks) as (HT & _ & _). destruct HT as [E L]; [lia..|]. rewrite <- E.
      destruct (parseTokens n sel toks) as [fn [|t rest]]; simpl in *; [auto|].
      destruct (String.eqb t ")"); simpl; split; auto with lia.
  - intros lhs Hn Hm. cbn [parseInfix]. destruct toks as [|tok toks]; [done|]. cbn [length] in *.
    destruct (IH m toks) as (_ & HP & _). destruct HP as [E L]; [lia..|]. rewrite <- E.
    destruct (parsePrimary n sel toks) as [fn rest]. cbn [snd] in L.
    destruct (IH m rest) as (_ & _ & HI).
    destruct (String.eqb (to_lower tok) "and"); [|destruct (String.eqb (to_lower tok) "or"); [|done]];
      match goal with |- parseInfix n sel ?l rest = _ ∧ _ => destruct (HI l) as [E2 L2] end;
      try lia; (split; [done|lia]).
Qed.

(** The parsers without fuel. *)
Definition tk (toks : list string) := parseTokens (2 * length toks + 2) sel toks.
Definition pp (toks : list string) := parsePrimary (2 * length toks + 1) sel toks.
Definition pi (lhs : event → bool) (toks : list string) :=
  parseInfix (2 * length toks + 1) sel lhs toks.

Lemma tk_enough n toks : (2 * length toks + 2 <= n)%nat → parseTokens n sel toks = tk toks.
Proof.
  intros Hn. destruct (parse_fuel n (2 * length toks + 2) toks) as (H & _ & _).
  destruct H as [E _]; [lia..|]. exact E.
Qed.
Lemma pp_enough n toks : (2 * length toks + 1 <= n)%nat → parsePrimary n sel toks = pp toks.
Proof.
  intros Hn. destruct (parse_fuel n (2 * length toks + 1) toks) as (_ & H & _).
  destruct H as [E _]; [lia..|]. exact E.
Qed.
Lemma pi_enough n lhs toks : (2 * length toks + 1 <= n)%nat → parseInfix n sel lhs toks = pi lhs toks.
Proof.
  intros Hn. destruct (parse_fuel n (2 * length toks + 1) toks) as (_ & _ & H).
  destruct (H lhs) as [E _]; [lia..|]. exact E.
Qed.
Lemma pp_shrinks toks : (length (pp toks).2 <= length toks)%nat.
Proof.
  destruct (parse_fuel (2 * length toks + 1) (2 * length toks + 1) toks) as (_ & H & _).
  destruct H as [_ L]; [lia..|]. exact L.
Qed.

(** Unfold one call with more fuel than needed. *)
Lemma tk_eq toks : tk toks = let '(fn, rest) := pp toks in pi fn rest.
Proof.
  pose proof (pp_shrinks toks) as L. set (n := (2 * length toks + 2)%nat).
  rewrite <- (tk_enough (S n)) by lia. cbn [parseTokens]. rewrite (pp_enough n) by lia.
  destruct (pp toks) as [fn rest]. simpl in L. by apply pi_enough; lia.
Qed.

Lemma pp_not tok toks : to_lower tok = "not" →
  pp (tok :: toks) = let '(inner, rest) := pp toks in (λ e, negb (inner e), rest).
Proof.
  intros E. set (n := (2 * length toks + 2)%nat).
  rewrite <- (pp_enough (S n)) by (simpl; lia). cbn [parsePrimary]. rewrite E, String.eqb_refl.
  by rewrite (pp_enough n) by lia.
Qed.

Lemma pp_paren toks :
  pp ("(" :: toks) = let '(inner, rest) := tk toks in
    match rest with
    | t :: rest' => if String.eqb t ")" then (inner, rest') else (inner, rest)
    | [] => (inner, rest)
    end.
Proof.
  set (n := (2 * length toks + 2)%nat). rewrite <- (pp_enough (S n)) by (simpl; lia).
  cbn [parsePrimary]. change (to_lower "(" =? "not")%string with false.
  change ("(" =? "(")%string with true. cbn iota. by rewrite (tk_enough n) by lia.
Qed.

Lemma pp_name tok toks : to_lower tok ≠ "not" → tok ≠ "(" →
  pp (tok :: toks) = (resolveSelection tok sel, toks).
Proof.
  intros H1 H2. unfold pp. rewrite Nat.add_1_r. cbn [parsePrimary].
  apply String.eqb_neq in H1, H2. by rewrite H1, H2.
Qed.

Lemma pi_and lhs tok toks : to_lower tok = "and" →
  pi lhs (tok :: toks) = let '(rhs, rest) := pp toks in pi (λ e, lhs e && rhs e) rest.
Proof.
  intros E. pose proof (pp_shrinks toks) as L. set (n := (2 * length toks + 2)%nat).
  rewrite <- (pi_enough (S n)) by (simpl; lia). cbn [parseInfix]. rewrite E, String.eqb_refl.
  rewrite (pp_enough n) by lia. destruct (pp toks) as [fn rest]. simpl in L.
  by apply pi_enough; lia.
Qed.

Lemma pi_or lhs tok toks : to_lower tok = "or" →
  pi lhs (tok :: toks) = let '(rhs, rest) := pp toks in pi (λ e, lhs e || rhs e) rest.
Proof.
  intros E. pose proof (pp_shrinks toks) as L. set (n := (2 * length toks + 2)%nat).
  rewrite <- (pi_enough (S n)) by (simpl; lia). cbn [parseInfix]. rewrite E.
  change ("or" =? "and")%string with false. rewrite String.eqb_refl. cbn iota.
  rewrite (pp_enough n) by lia. destruct (pp toks) as [fn rest]. simpl in L.
  by apply pi_enough; lia.
Qed.

Lemma pi_stop lhs toks : match toks with [] => True | t :: _ => t = ")" end →
  pi lhs toks = (lhs, toks).
Proof. unfold pi. rewrite Nat.add_1_r. destruct toks as [|t toks]; [done|]. by intros ->. Qed.
End Parser.
#[local] Arguments tk : simpl never.
#[local] Arguments pp : simpl never.
#[local] Arguments pi : simpl never.

(** ** Expressions *)

(** Conditions as trees: an expression is an operand, or an expression, a
    connective and an operand; both connectives bind equally, to the left. *)
Inductive prim :=
| PSel (name : string)
| PNot (p : prim)
| PParen (e : expr)
with expr :=
| EPrim (p : prim)
| EAnd (e : expr) (p : prim)
| EOr (e : expr) (p : prim).

Scheme prim_mind := Induction for prim Sort Prop with expr_mind := Induction for expr Sort Prop.
Combined Scheme prim_expr_ind from prim_mind, expr_mind.

Fixpoint prim_tokens (p : prim) : list string :=
  match p with
  | PSel n => [n]
  | PNot p => "not" :: prim_tokens p
  | PParen e => "(" :: expr_tokens e ++ [")"]
  end
with expr_tokens (e : expr) : list string :=
  match e with
  | EPrim p => prim_tokens p
  | EAnd e p => expr_tokens e ++ "and" :: prim_tokens p
  | EOr e p => expr_tokens e ++ "or" :: prim_tokens p
  end.

Fixpoint prim_holds (sel : list (string * (event → bool))) (p : prim) (ev : event) : bool :=
  match p with
  | PSel n => resolveSelection n sel ev
  | PNot p => negb (prim_holds sel p ev)
  | PParen e => expr_holds sel e ev
  end
with expr_holds (sel : list (string * (event → bool))) (e : expr) (ev : event) : bool :=
  match e with
  | EPrim p => prim_holds sel p ev
  | EAnd e p => expr_holds sel e ev && prim_holds sel p ev
  | EOr e p => expr_holds sel e ev || prim_holds sel p ev
  end.

(** What the Sigma specification says such a text means: [not] binds its operand,
    [and] binds tighter than [or]. A chain of operands is a disjunction of
    conjunctions: [sigma_chain] keeps the value of the disjuncts already closed by
    an [or] and of the conjunction still open. *)
Fixpoint sigma_prim (sel : list (string * (event → bool))) (p : prim) (ev : event) : bool :=
  match p with
  | PSel n => resolveSelection n sel ev
  | PNot p => negb (sigma_prim sel p ev)
  | PParen e => let '(closed, open) := sigma_chain sel e ev in closed || open
  end
with sigma_chain (sel : list (string * (event → bool))) (e : expr) (ev : event) : bool * bool :=
  match e with
  | EPrim p => (false, sigma_prim sel p ev)
  | EAnd e p => let '(closed, open) := sigma_chain sel e ev in (closed, open && sigma_prim sel p ev)
  | EOr e p => let '(closed, open) := sigma_chain sel e ev in (closed || open, sigma_prim sel p ev)
  end.

Definition sigma_holds (sel : list (string * (event → bool))) (e : expr) (ev : event) : bool :=
  let '(closed, open) := sigma_chain sel e ev in closed || open.

(** No [and] follows an [or] of the same parenthesis level: every [or] to the left
    of an [and] stands in parentheses. *)
Fixpoint has_or (e : expr) : bool :=
  match e with EPrim _ => false | EAnd e _ => has_or e | EOr _ _ => true end.

Fixpoint prim_unmixed (p : prim) : bool :=
  match p with PSel _ => true | PNot p => prim_unmixed p | PParen e => unmixed e end
with unmixed (e : expr) : bool :=
  match e with
  | EPrim p => prim_unmixed p
  | EAnd e p => negb (has_or e) && unmixed e && prim_unmixed p
  | EOr e p => unmixed e && prim_unmixed p
  end.

Lemma no_or_none_closed sel e ev : has_or e = false → (sigma_chain sel e ev).1 = false.
Proof.
  induction e as [p|e IH p|e IH p]; simpl; [done| |done].
  intros H. specialize (IH H). by destruct (sigma_chain sel e ev).
Qed.

Lemma sigma_meaning sel ev :
  (∀ p, prim_unmixed p = true → prim_holds sel p ev = sigma_prim sel p ev) ∧
  (∀ e, unmixed e = true → expr_holds sel e ev = sigma_holds sel e ev).
Proof.
  unfold sigma_holds. apply prim_expr_ind; simpl.
  - done.
  - intros p IH H. by rewrite IH.
  - intros e IH H. by rewrite IH.
  - intros p IH H. by rewrite IH.
  - intros e IHe p IHp H. rewrite !andb_true_iff, negb_true_iff in H. destruct H as [[Hn He] Hp].
    pose proof (no_or_none_closed sel e ev Hn) as Hc. rewrite IHe, IHp by done.
    destruct (sigma_chain sel e ev) as [closed open]. simpl in Hc. by subst.
  - intros e IHe p IHp H. apply andb_true_iff in H as [He Hp]. rewrite IHe, IHp by done.
    by destruct (sigma_chain sel e ev).
Qed.

(** A selection name: one token, not a parenthesis and not [not]. *)
Definition name_ok (n : string) : bool :=
  negb (String.eqb n "") && negb (String.eqb (to_lower n) "not") &&
  negb (contains_char (λ c, is_space c || Ascii.eqb c "(" || Ascii.eqb c ")") n).

Fixpoint prim_ok (p : prim) : bool :=
  match p with PSel n => name_ok n | PNot p => prim_ok p | PParen e => expr_ok e end
with expr_ok (e : expr) : bool :=
  match e with
  | EPrim p => prim_ok p
  | EAnd e p => expr_ok e && prim_ok p
  | EOr e p => expr_ok e && prim_ok p
  end.

Lemma name_ok_spec n : name_ok n = true →
  n ≠ "" ∧ to_lower n ≠ "not" ∧ n ≠ "(" ∧
  contains_char (λ c, is_space c || Ascii.eqb c "(" || Ascii.eqb c ")") n = false.
Proof.
  unfold name_ok. rewrite !andb_true_iff, !negb_true_iff, !String.eqb_neq.
  intros [[H1 H2] H3]. split_and!; [done..| |done]. by intros ->.
Qed.

Lemma parse_tree sel :
  (∀ p, prim_ok p = true → ∀ rest, ∃ f,
     pp sel (prim_tokens p ++ rest) = (f, rest) ∧ ∀ ev, f ev = prim_holds sel p ev) ∧
  (∀ e, expr_ok e = true → ∀ rest, ∃ f,
     tk sel (expr_tokens e ++ rest) = pi sel f rest ∧ ∀ ev, f ev = expr_holds sel e ev).
Proof.
  apply prim_expr_ind; simpl.
  - intros n Hn rest. apply name_ok_spec in Hn as (_ & H1 & H2 & _).
    exists (resolveSelection n sel). by rewrite pp_name.
  - intros p IH Hp rest. destruct (IH Hp rest) as (f & E & Hf).
    rewrite pp_not, E by done. eexists. split; [done|]. intros ev. simpl. by rewrite Hf.
  - intros e IH He rest. destruct (IH He (")" :: rest)) as (f & E & Hf).
    rewrite <- app_assoc, pp_paren. simpl. rewrite E, pi_stop by done. by exists f.
  - intros p IH Hp rest. destruct (IH Hp rest) as (f & E & Hf). rewrite tk_eq, E. by exists f.
  - intros e IHe p IHp Hok rest. apply andb_true_iff in Hok as [He Hp].
    destruct (IHp Hp rest) as (g & Eg & Hg).
    destruct (IHe He ("and" :: prim_tokens p ++ rest)) as (f & E & Hf).
    rewrite <- app_assoc. simpl. rewrite E, pi_and, Eg by done.
    eexists. split; [done|]. intros ev. simpl. by rewrite Hf, Hg.
  - intros e IHe p IHp Hok rest. apply andb_true_iff in Hok as [He Hp].
    destruct (IHp Hp rest) as (g & Eg & Hg).
    destruct (IHe He ("or" :: prim_tokens p ++ rest)) as (f & E & Hf).
    rewrite <- app_assoc. simpl. rewrite E, pi_or, Eg by done.
    eexists. split; [done|]. intros ev. simpl. by rewrite Hf, Hg.
Qed.

Lemma parse_condition_holds sel e ev : expr_ok e = true →
  parse_condition sel (expr_tokens e) ev = expr_holds sel e ev.
Proof.
  intros He. destruct (proj2 (parse_tree sel) e He []) as (f & E & Hf).
  unfold parse_condition, enough. fold (tk sel (expr_tokens e)).
  rewrite app_nil_r in E. by rewrite E, pi_stop.
Qed.

(** ** The tokeniser *)
Lemma replace_char_append c b x y :
  replace_char c b (x +:+ y) = replace_char c b x +:+ replace_char c b y.
Proof.
  induction x as [|d x IH]; simpl; [done|]. destruct (Ascii.eqb c d); rewrite IH; [|done].
  by rewrite append_assoc.
Qed.

Lemma replace_char_id c b x : contains_char (Ascii.eqb c) x = false → replace_char c b x = x.
Proof.
  induction x as [|d x IH]; simpl; [done|]. intros H. apply orb_false_iff in H as [H1 H2].
  rewrite H1. by rewrite IH.
Qed.

Lemma space_parens_append x y : space_parens (x +:+ y) = space_parens x +:+ space_parens y.
Proof. unfold space_parens. by rewrite !replace_char_append. Qed.

Definition plain (w : string) : bool :=
  negb (contains_char (λ c, is_space c || Ascii.eqb c "(" || Ascii.eqb c ")") w).

Lemma contains_char_mono (f g : ascii → bool) w :
  (∀ c, g c = true → f c = true) → contains_char f w = false → contains_char g w = false.
Proof.
  intros Hfg. induction w as [|c w IH]; simpl; [done|]. intros H.
  apply orb_false_iff in H as [H1 H2]. rewrite (IH H2), orb_false_r.
  destruct (g c) eqn:E; [|done]. by rewrite (Hfg c E) in H1.
Qed.

Lemma space_parens_plain w : plain w = true → space_parens w = w.
Proof.
  unfold plain, space_parens. rewrite negb_true_iff. intros H.
  rewrite (replace_char_id "("), replace_char_id; [done| |];
    eapply contains_char_mono; try exact H; intros c Hc; apply Ascii.eqb_eq in Hc as <-;
    rewrite Ascii.eqb_refl, ?orb_true_r; done.
Qed.

Lemma snoc_append cur c w : snoc cur c +:+ w = cur +:+ String c w.
Proof. unfold snoc. by rewrite <- append_assoc. Qed.

Lemma fields_word w s cur : contains_char is_space w = false →
  fields_go (w +:+ s) cur = fields_go s (cur +:+ w).
Proof.
  revert cur. induction w as [|c w IH]; intros cur; simpl; [by rewrite append_nil_r|].
  intros H. apply orb_false_iff in H as [H1 H2]. rewrite H1, IH by done. by rewrite snoc_append.
Qed.

(** What may follow a token in the spaced text. *)
Definition breaks (s : string) : Prop := s = "" ∨ ∃ s', s = String " " s'.

Lemma fields_flush w s : w ≠ "" → breaks s → fields_go s w = w :: fields_go s "".
Proof.
  intros Hw [->|[s' ->]]; simpl; (destruct (String.eqb_spec w ""); [done|done]).
Qed.

Definition tok_ok (t : string) : bool :=
  negb (String.eqb t "") && (plain t || String.eqb t "(" || String.eqb t ")").

Lemma fields_token t s : tok_ok t = true → breaks s →
  fields_go (space_parens t +:+ s) "" = t :: fields_go s "".
Proof.
  unfold tok_ok. rewrite andb_true_iff, !orb_true_iff, negb_true_iff, String.eqb_neq, !String.eqb_eq.
  intros [Hne [[Hp| ->]| ->]] Hs; [|done..].
  rewrite space_parens_plain by done. rewrite fields_word.
  - by apply fields_flush.
  - unfold plain in Hp. apply negb_true_iff in Hp. eapply contains_char_mono; [|exact Hp].
    intros c Hc. cbn beta. by rewrite Hc.
Qed.

Lemma tokenise_join toks : Forall (λ t, tok_ok t = true) toks →
  tokeniseCondition (join " " toks) = toks.
Proof.
  unfold tokeniseCondition, fields. induction 1 as [|t toks Ht Hts IH]; [done|].
  destruct toks as [|t2 toks].
  - simpl join. rewrite <- (append_nil_r (space_parens t)). by rewrite fields_token by (done || by left).
  - change (join " " (t :: t2 :: toks)) with (t +:+ " " +:+ join " " (t2 :: toks)).
    rewrite !space_parens_append. change (space_parens " ") with " ".
    rewrite fields_token; [|done|right; by eexists].
    f_equal. exact IH.
Qed.

Lemma tokens_ok :
  (∀ p, prim_ok p = true → Forall (λ t, tok_ok t = true) (prim_tokens p)) ∧
  (∀ e, expr_ok e = true → Forall (λ t, tok_ok t = true) (expr_tokens e)).
Proof.
  apply prim_expr_ind; simpl.
  - intros n Hn. constructor; [|done]. apply name_ok_spec in Hn as (H1 & _ & _ & H2).
    unfold tok_ok, plain. apply String.eqb_neq in H1. by rewrite H1, H2.
  - intros p IH Hp. constructor; [done|auto].
  - intros e IH He. constructor; [done|]. apply Forall_app. split; [auto|by constructor].
  - auto.
  - intros e IHe p IHp Hok. apply andb_true_iff in Hok as [He Hp].
    apply Forall_app. split; [auto|]. constructor; [done|auto].
  - intros e IHe p IHp Hok. apply andb_true_iff in Hok as [He Hp].
    apply Forall_app. split; [auto|]. constructor; [done|auto].
Qed.

(** ** Matchers that agree

    [E] relates two events; matchers that agree on related events make conditions
    that do. *)
Section Agreement.
Context (E : event → event → Prop).

Definition agrees (f g : event → bool) : Prop := ∀ e e' : event, E e e' → f e = g e'.

Lemma any_agrees fns fns' : Forall2 agrees fns fns' → agrees (any_of fns) (any_of fns').
Proof.
  intros H e e' He. unfold any_of. induction H as [|f g l l' Hfg _ IH]; simpl; [done|].
  by rewrite IH, (Hfg e e').
Qed.

Lemma all_agrees fns fns' : Forall2 agrees fns fns' → agrees (all_of fns) (all_of fns').
Proof.
  intros H e e' He. unfold all_of. rewrite (Forall2_length _ _ _ H). f_equal.
  induction H as [|f g l l' Hfg _ IH]; simpl; [done|]. by rewrite IH, (Hfg e e').
Qed.

Lemma const_agrees b : agrees (λ _, b) (λ _, b).
Proof. done. Qed.

(** Compiled selections in any order. *)
Definition named_agrees (p q : string * (event → bool)) : Prop := p.1 = q.1 ∧ agrees p.2 q.2.
Definition sel_agrees (sel sel' : list (string * (event → bool))) : Prop :=
  fold_distinct sel ∧ ∃ mid, sel ≡ₚ mid ∧ Forall2 named_agrees mid sel'.

Lemma get_agrees (mid sel' : list (string * (event → bool))) n : Forall2 named_agrees mid sel' →
  option_Forall2 agrees (get mid n) (get sel' n).
Proof.
  induction 1 as [|[k f] [k' f'] l l' [Hk Hf] _ IH]; simpl in *; [constructor|]. subst k'.
  destruct (String.eqb k n); [by constructor|done].
Qed.

Lemma get_fold_agrees (mid sel' : list (string * (event → bool))) n : Forall2 named_agrees mid sel' →
  option_Forall2 agrees (get_fold mid n) (get_fold sel' n).
Proof.
  induction 1 as [|[k f] [k' f'] l l' [Hk Hf] _ IH]; simpl in *; [constructor|]. subst k'.
  destruct (String.eqb _ _); [by constructor|done].
Qed.

Lemma with_prefix_agrees p mid sel' : Forall2 named_agrees mid sel' →
  Forall2 agrees (with_prefix p mid) (with_prefix p sel').
Proof.
  unfold with_prefix. induction 1 as [|[k f] [k' f'] l l' [Hk Hf] _ IH]; simpl in *; [constructor|].
  subst k'. rewrite !filter_cons. simpl. case_decide; simpl; [by constructor|done].
Qed.

Lemma with_prefix_perm p (sel mid : list (string * (event → bool))) :
  sel ≡ₚ mid → with_prefix p sel ≡ₚ with_prefix p mid.
Proof. intros H. unfold with_prefix. by rewrite H. Qed.

Lemma any_perm_agrees fns mid fns' : fns ≡ₚ mid → Forall2 agrees mid fns' →
  agrees (any_of fns) (any_of fns').
Proof.
  intros Hp H e e' He. rewrite <- (any_agrees mid fns' H e e' He).
  by apply existsb_perm.
Qed.

Lemma all_perm_agrees fns mid fns' : fns ≡ₚ mid → Forall2 agrees mid fns' →
  agrees (all_of fns) (all_of fns').
Proof.
  intros Hp H e e' He. rewrite <- (all_agrees mid fns' H e e' He).
  unfold all_of. by rewrite (forallb_perm _ fns mid), Hp.
Qed.

Lemma resolve_agrees sel sel' n : sel_agrees sel sel' →
  agrees (resolveSelection n sel) (resolveSelection n sel').
Proof.
  intros (Hd & mid & Hp & Hf). unfold resolveSelection.
  rewrite (get_perm sel mid), (get_fold_perm sel mid) by auto using fold_distinct_keys.
  destruct (get_agrees mid sel' n Hf) as [f g Hfg|]; [done|].
  destruct (get_fold_agrees mid sel' n Hf) as [f g Hfg|]; [done|].
  destruct (has_suffix n "*"); [|done].
  eapply any_perm_agrees; [by apply with_prefix_perm|by apply with_prefix_agrees].
Qed.

Lemma parse_agrees sel sel' : sel_agrees sel sel' → ∀ n toks,
  ((parseTokens n sel toks).2 = (parseTokens n sel' toks).2 ∧
   agrees (parseTokens n sel toks).1 (parseTokens n sel' toks).1) ∧
  ((parsePrimary n sel toks).2 = (parsePrimary n sel' toks).2 ∧
   agrees (parsePrimary n sel toks).1 (parsePrimary n sel' toks).1) ∧
  (∀ f g, agrees f g → (parseInfix n sel f toks).2 = (parseInfix n sel' g toks).2 ∧
   agrees (parseInfix n sel f toks).1 (parseInfix n sel' g toks).1).
Proof.
  intros Hsel. induction n as [|n IH]; intros toks; [by split_and!|]. split; [|split].
  - cbn [parseTokens]. destruct (IH toks) as (_ & [Et A] & _).
    destruct (parsePrimary n sel toks) as [f r], (parsePrimary n sel' toks) as [g r'].
    simpl in Et, A. subst r'. by apply IH.
  - cbn [parsePrimary]. destruct toks as [|tok toks]; [split; [done|apply const_agrees]|].
    destruct (String.eqb _ "not"); [|destruct (String.eqb tok "("); [|by split; [|apply resolve_agrees]]].
    + destruct (IH toks) as (_ & [Et A] & _).
      destruct (parsePrimary n sel toks) as [f r], (parsePrimary n sel' toks) as [g r'].
      simpl in *. split; [done|]. intros e e' He. by rewrite (A e e').
    + destruct (IH toks) as ([Et A] & _).
      destruct (parseTokens n sel toks) as [f r], (parseTokens n sel' toks) as [g r'].
      simpl in Et, A. subst r'. destruct r as [|t r]; [done|]. by destruct (String.eqb t ")").
  - intros f g Hfg. cbn [parseInfix]. destruct toks as [|tok toks]; [by split|].
    destruct (IH toks) as (_ & [Et A] & _).
    destruct (parsePrimary n sel toks) as [f2 r], (parsePrimary n sel' toks) as [g2 r'].
    simpl in Et, A. subst r'.
    destruct (String.eqb _ "and"); [|destruct (String.eqb _ "or"); [|by split]];
      apply IH; intros e e' He; by rewrite (Hfg e e'), (A e e').
Qed.

Lemma condition_agrees c sel sel' : sel_agrees sel sel' →
  agrees (compileConditionExpr c sel) (compileConditionExpr c sel').
Proof.
  intros Hsel. unfold compileConditionExpr.
  destruct (reOfPattern _) as [[q t]|]; [|by apply parse_agrees].
  destruct Hsel as (_ & mid & Hp & Hf).
  assert (Forall2 agrees mid.*2 sel'.*2) as Ha.
  { clear -Hf. induction Hf as [|? ? ? ? [_ H] _ IH]; constructor; auto. }
  assert (sel.*2 ≡ₚ mid.*2) as Hp2 by by rewrite Hp.
  destruct (_ || _), (String.eqb q "all").
  - by eapply all_perm_agrees.
  - by eapply any_perm_agrees.
  - eapply all_perm_agrees; [by apply with_prefix_perm|by apply with_prefix_agrees].
  - eapply any_perm_agrees; [by apply with_prefix_perm|by apply with_prefix_agrees].
Qed.

End Agreement.

(** ** Iteration order *)

(** The same event, its fields listed in any order. *)
Definition reordered (e e' : event) : Prop := fold_distinct e ∧ e ≡ₚ e'.

(** Two matchers agree on every event, whatever order its fields are visited in. *)
Abbreviation agree := (agrees reordered).

Lemma field_value_perm e e' f : fold_distinct e → e ≡ₚ e' → field_value e f = field_value e' f.
Proof.
  intros Hd Hp. unfold field_value, findFieldCaseInsensitive.
  rewrite (get_perm e e'), (get_fold_perm e e'); auto using fold_distinct_keys.
Qed.

Lemma compile_checks_perm rc pc ip m m' cs : m ≡ₚ m' → compile_checks rc pc ip m = Ok cs →
  ∃ cs', compile_checks rc pc ip m' = Ok cs' ∧ cs ≡ₚ cs'.
Proof.
  intros Hp. revert cs. induction Hp as [|[k v] m m' Hp IH|[k1 v1] [k2 v2] m|m1 m2 m3 _ IH1 _ IH2];
    intros cs; simpl.
  - intros [= <-]. by exists [].
  - destruct (parseFieldKey k) as [f md]. destruct (buildMatchFn _ _ _ md v) as [fn|]; [|done].
    destruct (compile_checks rc pc ip m) as [cs0|]; [|done]. intros [= <-].
    destruct (IH cs0 eq_refl) as (cs' & -> & Hcs). eexists. split; [done|]. by constructor.
  - destruct (parseFieldKey k1) as [f1 md1], (parseFieldKey k2) as [f2 md2].
    destruct (buildMatchFn _ _ _ md1 v1), (buildMatchFn _ _ _ md2 v2); try done.
    destruct (compile_checks rc pc ip m) as [cs0|]; [|done]. intros [= <-].
    eexists. split; [done|]. constructor.
  - intros H. destruct (IH1 cs H) as (cs2 & H2 & P2). destruct (IH2 cs2 H2) as (cs3 & H3 & P3).
    exists cs3. split; [done|]. by rewrite P2.
Qed.

Lemma field_map_agree rc pc ip m m' f : m ≡ₚ m' → compileFieldMap rc pc ip m = Ok f →
  ∃ f', compileFieldMap rc pc ip m' = Ok f' ∧ agree f f'.
Proof.
  unfold compileFieldMap. intros Hp. destruct (compile_checks rc pc ip m) as [cs|] eqn:E; [|done].
  intros [= <-]. destruct (compile_checks_perm _ _ _ m m' cs Hp E) as (cs' & -> & Hcs).
  eexists. split; [done|]. intros e e' [Hd He]. rewrite (forallb_perm _ cs cs') by done.
  clear -Hd He. induction cs' as [|c cs IH]; simpl; [done|]. rewrite IH. f_equal.
  unfold check_event. by rewrite (field_value_perm e e').
Qed.

(** The same selection body, its field maps listed in any order. *)
Inductive body_perm : value → value → Prop :=
| bp_map m m' : m ≡ₚ m' → body_perm (VMap m) (VMap m')
| bp_list l l' : Forall2 item_perm l l' → body_perm (VList l) (VList l')
| bp_refl v : body_perm v v
with item_perm : value → value → Prop :=
| ip_map m m' : m ≡ₚ m' → item_perm (VMap m) (VMap m')
| ip_refl v : item_perm v v.

Lemma compile_items_agree rc pc ip l l' fns : Forall2 item_perm l l' →
  compile_items rc pc ip l = Ok fns →
  ∃ fns', compile_items rc pc ip l' = Ok fns' ∧ Forall2 agree fns fns'.
Proof.
  intros H. revert fns. induction H as [|v v' l l' Hv _ IH]; intros fns.
  { intros [= <-]. exists []. split; [done|constructor]. }
  assert (∀ m m', m ≡ₚ m' → compile_items rc pc ip (VMap m :: l) = Ok fns →
    ∃ fns', compile_items rc pc ip (VMap m' :: l') = Ok fns' ∧ Forall2 agree fns fns') as Hm.
  { intros m m' Hp. simpl. destruct (compileFieldMap rc pc ip m) as [f|] eqn:Ef; [|done].
    simpl. destruct (compile_items rc pc ip l) as [fs|]; [|done]. intros [= <-].
    destruct (field_map_agree _ _ _ m m' f Hp Ef) as (f' & -> & Hf).
    destruct (IH fs eq_refl) as (fs' & -> & Hfs). eexists. split; [done|]. by constructor. }
  destruct Hv as [m m' Hp|v]; [by apply Hm|].
  destruct v; try exact (IH fns). by apply Hm.
Qed.

Lemma compileSelection_agree rc pc ip v v' f : body_perm v v' →
  compileSelection rc pc ip v = Ok f →
  ∃ f', compileSelection rc pc ip v' = Ok f' ∧ agree f f'.
Proof.
  assert (∀ l l', Forall2 item_perm l l' → compileSelection rc pc ip (VList l) = Ok f →
    ∃ f', compileSelection rc pc ip (VList l') = Ok f' ∧ agree f f') as Hl.
  { intros l l' H. simpl. destruct (compile_items rc pc ip l) as [fns|] eqn:E; [|done].
    intros [= <-]. destruct (compile_items_agree _ _ _ l l' fns H E) as (fns' & -> & Hf).
    eexists. split; [done|]. by apply any_agrees. }
  intros [m m' Hp|l l' H|w]; [by apply field_map_agree|by apply Hl|].
  destruct w as [| | | | |l|m]; try (intros [= <-]; eexists; split; [done|apply const_agrees]).
  - apply Hl. apply Forall_Forall2_diag, Forall_true. constructor.
  - by apply field_map_agree.
Qed.

Lemma compile_selections_perm rc pc ip l l' sel : l ≡ₚ l' → compile_selections rc pc ip l = Ok sel →
  ∃ sel', compile_selections rc pc ip l' = Ok sel' ∧ sel ≡ₚ sel'.
Proof.
  intros Hp. revert sel. induction Hp as [|[k v] m m' Hp IH|[k1 v1] [k2 v2] m|m1 m2 m3 _ IH1 _ IH2];
    intros sel; simpl.
  - intros [= <-]. by exists [].
  - destruct (compileSelection _ _ _ v) as [fn|]; [|done].
    destruct (compile_selections rc pc ip m) as [s0|]; [|done]. intros [= <-].
    destruct (IH s0 eq_refl) as (s' & -> & Hs). eexists. split; [done|]. by constructor.
  - destruct (compileSelection _ _ _ v1), (compileSelection _ _ _ v2); try done.
    destruct (compile_selections rc pc ip m) as [s0|]; [|done]. intros [= <-].
    eexists. split; [done|]. constructor.
  - intros H. destruct (IH1 sel H) as (s2 & H2 & P2). destruct (IH2 s2 H2) as (s3 & H3 & P3).
    exists s3. split; [done|]. by rewrite P2.
Qed.

Lemma compile_selections_agree rc pc ip l l' sel :
  Forall2 (λ p q, p.1 = q.1 ∧ body_perm p.2 q.2) l l' → compile_selections rc pc ip l = Ok sel →
  ∃ sel', compile_selections rc pc ip l' = Ok sel' ∧ Forall2 (named_agrees reordered) sel sel'.
Proof.
  intros H. revert sel. induction H as [|[k v] [k' v'] l l' [Hk Hv] _ IH]; intros sel; simpl in *.
  { intros [= <-]. exists []. split; [done|constructor]. }
  subst k'. destruct (compileSelection rc pc ip v) as [f|] eqn:Ef; [|done].
  destruct (compile_selections rc pc ip l) as [s|]; [|done]. intros [= <-].
  destruct (compileSelection_agree _ _ _ v v' f Hv Ef) as (f' & -> & Hf).
  destruct (IH s eq_refl) as (s' & -> & Hs). eexists. split; [done|]. by constructor.
Qed.

Lemma compile_selections_keys rc pc ip l sel :
  compile_selections rc pc ip l = Ok sel → keys sel = keys l.
Proof.
  revert sel. induction l as [|[k v] l IH]; intros sel; simpl; [by intros [= <-]|].
  destruct (compileSelection _ _ _ v); [|done].
  destruct (compile_selections rc pc ip l) as [s|]; [|done]. intros [= <-].
  unfold keys in *. simpl. f_equal. by apply IH.
Qed.

(** ** A compiled rule in another order *)
Lemma compiled_reordered rc pc ip r r' mid f :
  Condition (Detection r') = Condition (Detection r) →
  fold_distinct (Selections (Detection r)) →
  Selections (Detection r) ≡ₚ mid →
  Forall2 (λ p q, p.1 = q.1 ∧ body_perm p.2 q.2) mid (Selections (Detection r')) →
  compileSigmaCondition rc pc ip r = Ok f →
  ∃ f', compileSigmaCondition rc pc ip r' = Ok f' ∧ agree f f'.
Proof.
  unfold compileSigmaCondition. intros -> Hd Hp Hb.
  destruct (compile_selections rc pc ip (Selections (Detection r))) as [sel|] eqn:E; [|done].
  intros [= <-]. destruct (compile_selections_perm _ _ _ _ mid sel Hp E) as (msel & Em & Hps).
  destruct (compile_selections_agree _ _ _ mid _ msel Hb Em) as (sel' & -> & Hf).
  eexists. split; [done|]. apply condition_agrees. split; [|by exists msel].
  unfold fold_distinct in *. by rewrite (compile_selections_keys _ _ _ _ _ E).
Qed.

(** ** The fields a rule looks at *)
Definition fields_of_map (m : list (string * value)) : list string :=
  (λ p : string * value, (parseFieldKey p.1).1) <$> m.

Definition fields_of (v : value) : list string :=
  match v with
  | VMap m => fields_of_map m
  | VList l => mjoin ((λ x, match x with VMap m => fields_of_map m | _ => [] end) <$> l)
  | _ => []
  end.

Definition rule_fields (sels : list (string * value)) : list string :=
  mjoin ((λ p : string * value, fields_of p.2) <$> sels).

(** Two events with the same values in these fields. *)
Definition same_on (fs : list string) (e e' : event) : Prop :=
  ∀ f, f ∈ fs → field_value e f = field_value e' f.

Lemma checks_fields rc pc ip m cs : compile_checks rc pc ip m = Ok cs →
  ∀ c, c ∈ cs → ck_field c ∈ fields_of_map m.
Proof.
  revert cs. induction m as [|[k v] m IH]; intros cs; simpl; [intros [= <-]; set_solver|].
  destruct (parseFieldKey k) as [f md]. destruct (buildMatchFn _ _ _ md v); [|done].
  destruct (compile_checks rc pc ip m) as [cs'|]; [|done]. intros [= <-] c Hc.
  apply elem_of_cons in Hc as [->|Hc]; [by left|right; by apply (IH cs')].
Qed.

Lemma field_map_fields rc pc ip m f fs : fields_of_map m ⊆ fs →
  compileFieldMap rc pc ip m = Ok f → agrees (same_on fs) f f.
Proof.
  unfold compileFieldMap. intros Hs. destruct (compile_checks rc pc ip m) as [cs|] eqn:E; [|done].
  intros [= <-] e e' He. pose proof (checks_fields _ _ _ _ _ E) as Hc. clear E.
  induction cs as [|c cs IH]; simpl; [done|]. rewrite IH by (intros; apply Hc; by right).
  f_equal. unfold check_event. rewrite (He (ck_field c)); [done|]. apply Hs, Hc. by left.
Qed.

Lemma selection_fields rc pc ip v f fs : fields_of v ⊆ fs →
  compileSelection rc pc ip v = Ok f → agrees (same_on fs) f f.
Proof.
  destruct v as [| | | | |l|m]; simpl; try (intros _ [= <-]; apply const_agrees).
  - intros Hs. destruct (compile_items rc pc ip l) as [fns|] eqn:E; [|done]. intros [= <-].
    apply any_agrees. revert fns Hs E. induction l as [|v l IH]; intros fns Hs; simpl.
    { intros [= <-]. constructor. }
    assert (∀ fns, compile_items rc pc ip l = Ok fns → Forall2 (agrees (same_on fs)) fns fns) as IH'.
    { intros fns'. apply IH. set_solver. }
    destruct v as [| | | | |l'|m]; try apply IH'.
    destruct (compileFieldMap rc pc ip m) as [f'|] eqn:Ef; [|done].
    destruct (compile_items rc pc ip l) as [fns'|]; [|done]. intros [= <-].
    constructor; [|by apply IH']. apply (field_map_fields rc pc ip m); [|done]. set_solver.
  - apply field_map_fields.
Qed.

(** The verdict of a rule depends on the fields its selections name only. *)
Lemma compiled_fields rc pc ip r f : fold_distinct (Selections (Detection r)) →
  compileSigmaCondition rc pc ip r = Ok f →
  agrees (same_on (rule_fields (Selections (Detection r)))) f f.
Proof.
  unfold compileSigmaCondition. intros Hd.
  destruct (compile_selections rc pc ip (Selections (Detection r))) as [sel|] eqn:E; [|done].
  intros [= <-]. apply condition_agrees. split.
  { unfold fold_distinct in *. by rewrite (compile_selections_keys _ _ _ _ _ E). }
  exists sel. split; [done|]. clear Hd.
  set (fs := rule_fields _). assert (rule_fields (Selections (Detection r)) ⊆ fs) as Hs by done.
  clearbody fs. revert sel Hs E.
  induction (Selections (Detection r)) as [|[k v] l IH]; intros sel Hs; simpl.
  { intros [= <-]. constructor. }
  destruct (compileSelection rc pc ip v) as [g|] eqn:Eg; [|done].
  destruct (compile_selections rc pc ip l) as [s|]; [|done]. intros [= <-].
  unfold rule_fields in Hs. simpl in Hs. constructor; [|apply IH; set_solver].
  split; [done|]. apply (selection_fields rc pc ip v); [|done]. set_solver.
Qed.

(** ** Events *)
Lemma evaluate_event_matches rs ev m : m ∈ (EvaluateEvent rs ev).1 ↔
  ∃ cr, cr ∈ rs ∧ gated (str_or_empty ev "platform") cr = false ∧ Evaluate cr ev = true ∧
    m = mkSigmaMatch (s_Title (Rule cr)) (s_Level (Rule cr)) (s_Tags (Rule cr)) ev
          (DBSeverity (Rule cr)).
Proof.
  induction rs as [|cr rs IH]; simpl; [set_solver|].
  destruct (EvaluateEvent rs ev) as [ms fl]. simpl in *.
  destruct (gated _ cr) eqn:Eg; [|destruct (Evaluate cr ev) eqn:Ee]; simpl.
  - rewrite IH. split; intros (c & Hc & ?); exists c; (split; [|done]); [by right|].
    apply elem_of_cons in Hc as [->|Hc]; [naive_solver congruence|done].
  - rewrite elem_of_cons, IH. split.
    + intros [->|(c & Hc & ?)]; [exists cr|exists c]; (split; [|done]); set_solver.
    + intros (c & Hc & H1 & H2 & H3). apply elem_of_cons in Hc as [->|Hc]; [by left|right; eauto].
  - rewrite IH. split; intros (c & Hc & ?); exists c; (split; [|done]); [by right|].
    apply elem_of_cons in Hc as [->|Hc]; [naive_solver congruence|done].
Qed.

Lemma gated_iff p cr : gated p cr = false ↔
  s_Platform (Rule cr) = [] ∨ canonPlatform p = "" ∨
  ∃ rp, rp ∈ s_Platform (Rule cr) ∧ canonPlatform rp = canonPlatform p.
Proof.
  unfold gated. destruct (s_Platform (Rule cr)) as [|q l] eqn:E; [naive_solver|].
  cbn [length Nat.ltb Nat.leb andb]. rewrite negb_false_iff.
  rewrite <- not_false_iff_true, platform_gated. split.
  - intros H. destruct (decide (canonPlatform p = "")); [by right; left|].
    destruct (decide (Exists (λ rp, canonPlatform rp = canonPlatform p) (q :: l))) as [Hx|Hx].
    + right. right. by apply Exists_exists in Hx.
    + exfalso. apply H. split_and!; [done..|]. intros rp Hrp Heq. apply Hx, Exists_exists. eauto.
  - naive_solver.
Qed.

Lemma dec_leb_refl x : dec_leb x x = true.
Proof. unfold dec_leb. apply Z.leb_refl. Qed.

Lemma dec_ltb_succ m e : dec_ltb (m, e) (m + 1, e) = true.
Proof.
  unfold dec_ltb, dec_scale. simpl. rewrite Z.min_id, Z.sub_diag. apply Z.ltb_lt. lia.
Qed.

Lemma first_op_cases toks op : first_op toks = Some op →
  op = "gte" ∨ op = "lte" ∨ op = "gt" ∨ op = "lt".
Proof.
  unfold first_op. intros H. apply head_Some in H as [l H].
  assert (op ∈ filter (λ op, hasToken toks op = true) ["gte"; "lte"; "gt"; "lt"]) as Hin
    by (rewrite H; by left).
  apply list_elem_of_filter in Hin as [_ Hin]. set_solver.
Qed.

Lemma thresholds_parse op ps : requireNumericThresholds op ps = None →
  ∃ p x, p ∈ ps ∧ parse_float (trim_space p) = Some x.
Proof.
  unfold requireNumericThresholds. destruct (length ps =? 0)%nat; [done|].
  destruct (Nat.eqb_spec (length (filter (λ p, parse_float (trim_space p) = None) ps)) (length ps))
    as [|Hne]; [done|]. intros _. induction ps as [|p ps IH]; [done|].
  rewrite filter_cons in Hne. destruct (parse_float (trim_space p)) as [x|] eqn:E.
  - exists p, x. split; [by left|done].
  - rewrite decide_True in Hne by done. simpl in Hne.
    destruct IH as (p' & x & Hp & Hx); [lia|]. exists p', x. split; [by right|done].
Qed.

Lemma numeric_op_satisfiable op x : op = "gte" ∨ op = "lte" ∨ op = "gt" ∨ op = "lt" →
  ∃ m e, numeric_op op (m, e) x = true.
Proof.
  destruct x as [m e]. intros [->|[->|[->| ->]]].
  - exists m, e. apply dec_leb_refl.
  - exists m, e. apply dec_leb_refl.
  - exists (m + 1), e. apply dec_ltb_succ.
  - exists (m - 1), e. unfold numeric_op. simpl.
    replace m with (m - 1 + 1) at 2 by lia. apply dec_ltb_succ.
Qed.

(** ** Properties *)


(** The verdict of a compiled rule does not depend on the order in which Go
    visits its maps (the selections, the fields of each selection, the fields of
    the event), provided no two selections and no two event fields differ by case
    only; compilation succeeds in one order when it does in another. *)
Theorem verdict_order_independent rc pc ip r r' mid f :
  Condition (Detection r') = Condition (Detection r) →
  fold_distinct (Selections (Detection r)) →
  Selections (Detection r) ≡ₚ mid →
  Forall2 (λ p q, p.1 = q.1 ∧ body_perm p.2 q.2) mid (Selections (Detection r')) →
  compileSigmaCondition rc pc ip r = Ok f →
  ∃ f', compileSigmaCondition rc pc ip r' = Ok f' ∧ agree f f'.
Proof. apply compiled_reordered. Qed.

(** An event is reported under a rule exactly when the rule's compiled
    condition holds of it and its platform labels, if any, include the event's
    system or the event's system is not recognized; the category check only
    flags, it removes no match. *)
Theorem evaluate_event_reports rs ev title :
  title ∈ (λ m, RuleTitle m) <$> (EvaluateEvent rs ev).1 ↔
  ∃ cr, cr ∈ rs ∧ s_Title (Rule cr) = title ∧ Evaluate cr ev = true ∧
    (s_Platform (Rule cr) = [] ∨ canonPlatform (str_or_empty ev "platform") = "" ∨
     ∃ rp, rp ∈ s_Platform (Rule cr) ∧
       canonPlatform rp = canonPlatform (str_or_empty ev "platform")).
Proof.
  rewrite list_elem_of_fmap. setoid_rewrite evaluate_event_matches. setoid_rewrite <- gated_iff.
  split.
  - intros (m & -> & cr & ? & ? & ? & ->). exists cr. by split_and!.
  - intros (cr & ? & <- & ? & ?). eexists. split; [|by exists cr; split_and!]. done.
Qed.

(** A field with a numeric modifier that compiles can fire: some event value
    satisfies it. *)
Theorem numeric_threshold_can_fire rc pc ip modifier pattern op f :
  hasToken (modifierTokens modifier) "cidr" = false →
  first_op (modifierTokens modifier) = Some op →
  buildMatchFn rc pc ip modifier pattern = Ok f → ∃ v, f v = true.
Proof.
  unfold buildMatchFn. intros -> Hop. rewrite Hop.
  destruct (normalisePatterns modifier pattern) as [ps all].
  destruct (requireNumericThresholds op ps) eqn:E; [done|]. intros [= <-].
  destruct (thresholds_parse op ps E) as (p & x & Hp & Hx).
  destruct (numeric_op_satisfiable op x (first_op_cases _ _ Hop)) as (m & e & Hm).
  exists (VFloat m e). unfold buildNumericMatch. simpl. apply existsb_exists. exists p.
  rewrite Hx. split; [by apply list_elem_of_In|done].
Qed.

(** ** Divergences *)
Definition toy_selections : list (string * (event → bool)) :=
  [("a", λ _, true); ("b", λ _, false); ("c", λ _, false)].

(** [and] does not bind tighter than [or]: where an [and] follows an [or], the
    evaluator's answer is not Sigma's. *)
Lemma and_or_equal_binding ev :
  let e := EAnd (EOr (EPrim (PSel "a")) (PSel "b")) (PSel "c") in
  join " " (expr_tokens e) = "a or b and c" ∧ sigma_holds toy_selections e ev = true ∧
  compileConditionExpr "a or b and c" toy_selections ev = false.
Proof. split_and!; reflexivity. Qed.

(** A quantifier inside a larger condition is read as a selection name, and the
    rest of the condition is dropped. *)
Lemma embedded_quantifier_never_fires (sel : list (string * (event → bool))) ev :
  get sel "1" = None → get_fold sel "1" = None →
  compileConditionExpr "1 of sel* and not filter" sel ev = false.
Proof.
  intros H1 H2. change (compileConditionExpr "1 of sel* and not filter" sel ev)
    with (resolveSelection "1" sel ev). unfold resolveSelection. by rewrite H1, H2.
Qed.

(** A JSON number of a million or more is compared as its scientific notation. *)
Lemma json_million_is_not_its_digits rc pc ip :
  ∃ f, buildMatchFn rc pc ip "" (VInt 5000000) = Ok f ∧ f (VFloat 5 6) = false ∧
    f (VInt 5000000) = true.
Proof. eexists. split; [reflexivity|]. by vm_compute. Qed.

(** During a reload there is a moment with no rule at all. *)
Lemma reload_has_a_gap rc pc ip yu builtins rows e ev :
  ∃ e', e' ∈ ReloadFromDB rc pc ip yu builtins rows e ∧ (EvaluateEvent e' ev).1 = [].
Proof.
  exists []. split; [|done]. unfold ReloadFromDB. right.
  destruct (_ ++ _); left.
Qed.

(** ** Witnesses *)
Definition toy_regexp (p : string) : option (string → bool) := Some (λ s, contains s p).
Definition toy_cidr (p : string) : option (string → bool) :=
  if String.eqb p "10.0.0.0/8" then Some (λ ip, has_prefix ip "10.") else None.
Definition toy_is_ip (s : string) : bool := has_prefix s "10.".

Definition toy_rule (sels : list (string * value)) : SigmaRule :=
  mkSigmaRule "Encoded PowerShell" "" "" "high" [] (mkLogSource "" "process_creation" "")
    (mkDetection sels "selection and not filter" "") [] 0 ["macos"; "Windows"].

Definition toy_fields : list (string * value) :=
  [("Image|endswith", VStr "powershell.exe"); ("CommandLine|contains", VList [VStr "-enc"])].
Definition toy_filter : list (string * value) := [("User", VStr "svc")].
Definition toy_event : event :=
  [("image", VStr "C:\PowerShell.exe"); ("commandline", VStr "x -ENC y"); ("user", VStr "bob");
   ("platform", VStr "windows"); ("type", VStr "process")].


Lemma verdict_order_independent_witness :
  ∃ f f', compileSigmaCondition toy_regexp toy_cidr toy_is_ip
            (toy_rule [("selection", VMap toy_fields); ("filter", VMap toy_filter)]) = Ok f ∧
    compileSigmaCondition toy_regexp toy_cidr toy_is_ip
      (toy_rule [("filter", VMap toy_filter); ("selection", VMap (reverse toy_fields))]) = Ok f' ∧
    agree f f' ∧ f toy_event = true.
Proof.
  eexists. refine (match verdict_order_independent toy_regexp toy_cidr toy_is_ip
    (toy_rule [("selection", VMap toy_fields); ("filter", VMap toy_filter)])
    (toy_rule [("filter", VMap toy_filter); ("selection", VMap (reverse toy_fields))])
    [("filter", VMap toy_filter); ("selection", VMap toy_fields)] _ _ _ _ _ _ with
    | ex_intro _ f' (conj H1 H2) => ex_intro _ f' (conj _ (conj H1 (conj H2 _)))
    end).
  - reflexivity.
  - unfold fold_distinct. repeat constructor; set_solver.
  - constructor.
  - constructor; [split; [reflexivity|apply bp_refl]|]. constructor; [|constructor].
    split; [reflexivity|]. apply bp_map. symmetry. apply reverse_Permutation.
  - reflexivity.
  - reflexivity.
  - vm_compute. reflexivity.
Defined.

Lemma numeric_threshold_can_fire_witness :
  ∃ f, buildMatchFn toy_regexp toy_cidr toy_is_ip "gt" (VList [VStr "ninety"; VInt 90]) = Ok f ∧
    ∃ v, f v = true.
Proof.
  eexists. split; [reflexivity|].
  apply (numeric_threshold_can_fire toy_regexp toy_cidr toy_is_ip "gt"
           (VList [VStr "ninety"; VInt 90]) "gt"); reflexivity.
Defined.
