(* ===== verification/Builtins1.v ===== *)
(** * Built-in Sigma rules 1 to 79

    The literals 1 to 79 of [builtinSigmaRules] in
    [server/internal/detection/sigma_builtins.go], each as the document
    [yaml.Unmarshal] makes of it: comments are gone, scalars are strings unless
    they read as a number, the keys keep their order. *)

From Stdlib Require Import Ascii.
From S2P Require Import Prelude GoStrings Event Base64 Sigma.

#[local] Open Scope string_scope.
#[local] Open Scope list_scope.
#[local] Open Scope Z_scope.

(** A YAML sequence of strings. *)
Definition one_of (l : list string) : value := VList (VStr <$> l).

Definition dquote : string := String (chr 34) "".

Definition mimikatz_credential_dumping_tool_detected : sigmaYAMLDoc := mkYAMLDoc
  "Mimikatz Credential Dumping Tool Detected"
  "Detects the execution of Mimikatz, a common credential-dumping tool."
  "stable" "critical"
  ["attack.t1003"; "attack.credential_access"]
  (one_of ["Authorised penetration testing"])
  [("product", "windows"); ("category", "process_creation")]
  [("selection", VMap
      [("CommandLine|contains", one_of
        ["sekurlsa"; "kerberos::"; "lsadump::"])]);
   ("selection_name", VMap
      [("Image|contains", VStr "mimikatz")]);
   ("condition", VStr "selection or selection_name")].

Definition lsass_memory_dump_via_process_access : sigmaYAMLDoc := mkYAMLDoc
  "LSASS Memory Dump via Process Access"
  "Detects suspicious access to lsass.exe that may indicate credential dumping."
  "stable" "high"
  ["attack.t1003.001"; "attack.credential_access"]
  (one_of ["Security monitoring tools"; "Antivirus software"])
  [("product", "windows"); ("category", "process_access")]
  [("selection", VMap
      [("TargetImage|contains", VStr "lsass.exe");
       ("GrantedAccess|contains", one_of
        ["0x1FFFFF"; "0x1F3FFF"; "0x1010"])]);
   ("condition", VStr "selection")].

Definition psexec_remote_execution : sigmaYAMLDoc := mkYAMLDoc
  "PsExec Remote Execution"
  "Detects PsExec usage, commonly used for lateral movement."
  "stable" "high"
  ["attack.t1021.002"; "attack.lateral_movement"]
  (one_of ["Legitimate remote administration by IT staff"])
  [("product", "windows"); ("category", "process_creation")]
  [("by_image", VMap
      [("Image|contains", one_of
        ["psexec.exe"; "psexec64.exe"; "psexesvc.exe"])]);
   ("by_flag", VMap
      [("CommandLine|contains", one_of
        ["accepteula"; "PSEXESVC"])]);
   ("condition", VStr "by_image or by_flag")].

Definition impacket_remote_execution : sigmaYAMLDoc := mkYAMLDoc
  "Impacket Remote Execution"
  "Detects Impacket's cross-platform remote-execution suite (psexec.py, smbexec.py, wmiexec.py, atexec.py, dcomexec.py) used for lateral movement over SMB/WMI/DCOM/scheduled-tasks from a Linux attacker host — missed by rules keyed on the Windows PsExec.exe binary."
  "stable" "high"
  ["attack.t1021.002"; "attack.lateral_movement"]
  (one_of ["Authorised red-team / administration using Impacket"])
  [("category", "process_creation")]
  [("impacket_exec", VMap
      [("CommandLine|contains", one_of
        ["psexec.py"; "smbexec.py"; "wmiexec.py"; "atexec.py"; "dcomexec.py"; "impacket-psexec";
         "impacket-smbexec"; "impacket-wmiexec"; "impacket-atexec"; "impacket-dcomexec"])]);
   ("condition", VStr "impacket_exec")].

Definition wmi_spawning_command_shell : sigmaYAMLDoc := mkYAMLDoc
  "WMI Spawning Command Shell"
  "Detects wmiprvse.exe spawning cmd.exe or powershell.exe, indicative of WMI-based lateral movement."
  "stable" "high"
  ["attack.t1021.006"; "attack.lateral_movement"]
  (one_of ["Legitimate WMI management scripts"])
  [("product", "windows"); ("category", "process_creation")]
  [("selection", VMap
      [("ParentImage|contains", VStr "wmiprvse.exe");
       ("Image|contains", one_of
        ["cmd.exe"; "powershell.exe"; "wscript.exe"; "cscript.exe"])]);
   ("condition", VStr "selection")].

Definition suspicious_scheduled_task_via_network_path : sigmaYAMLDoc := mkYAMLDoc
  "Suspicious Scheduled Task via Network Path"
  "Detects schtasks creating a task with a network path, often used for persistence."
  "stable" "high"
  ["attack.t1053.005"; "attack.persistence"]
  (one_of ["Legitimate administrative scheduled tasks using UNC paths"])
  [("product", "windows"); ("category", "process_creation")]
  [("selection", VMap
      [("Image|contains", VStr "schtasks.exe");
       ("CommandLine|contains|all", one_of
        ["/create"; "\\"])]);
   ("condition", VStr "selection")].

Definition scheduled_task_creation_via_schtasks : sigmaYAMLDoc := mkYAMLDoc
  "Scheduled Task Creation via schtasks"
  "Detects creation of a scheduled task via schtasks.exe — a common persistence/execution mechanism. Broader than the UNC-path rule above; medium level to reflect benign administrative use."
  "stable" "medium"
  ["attack.t1053.005"; "attack.persistence"; "attack.execution"]
  (one_of ["Legitimate administrative or software-installer scheduled tasks"])
  [("product", "windows"); ("category", "process_creation")]
  [("schtasks_create", VMap
      [("Image|contains", VStr "schtasks");
       ("CommandLine|contains", VStr "/create")]);
   ("schtasks_change", VMap
      [("Image|contains", VStr "schtasks");
       ("CommandLine|contains|all", one_of
        ["/change"; "/tr"])]);
   ("ps_register", VMap
      [("CommandLine|contains", one_of
        ["Register-ScheduledTask"; "Set-ScheduledTask"])]);
   ("condition", VStr "schtasks_create or schtasks_change or ps_register")].

Definition windows_event_log_cleared : sigmaYAMLDoc := mkYAMLDoc
  "Windows Event Log Cleared"
  "Detects the clearing of Windows event logs, often performed to cover tracks."
  "stable" "high"
  ["attack.t1070.001"; "attack.defense_evasion"]
  (one_of ["Legitimate log management automation"])
  [("product", "windows"); ("category", "process_creation")]
  [("selection_wevtutil", VMap
      [("Image|contains", VStr "wevtutil.exe");
       ("CommandLine|contains", one_of
        [" cl "; "clear-log"])]);
   ("selection_powershell", VMap
      [("CommandLine|contains", one_of
        ["Clear-EventLog"; "Remove-EventLog"])]);
   ("condition", VStr "selection_wevtutil or selection_powershell")].

Definition security_audit_log_cleared : sigmaYAMLDoc := mkYAMLDoc
  "Security Audit Log Cleared"
  "Detects clearing of the Windows Security audit log."
  "stable" "critical"
  ["attack.t1070.001"; "attack.defense_evasion"]
  (one_of ["Authorised log retention management"])
  [("product", "windows"); ("service", "security")]
  [("selection", VMap
      [("EventID", VInt 1102)]);
   ("condition", VStr "selection")].

Definition certutil_used_for_file_download : sigmaYAMLDoc := mkYAMLDoc
  "CertUtil Used for File Download"
  ("Detects certutil being used to download a file over the network (-urlcache / -verifyctl), a common LOLBin ingress technique. Scoped to the options that actually cause a fetch. -decode / -encode / -decodehex are purely local transforms and were previously listed here, so an entirely offline " +:+ dquote +:+ "certutil -decode a.b64 a.exe" +:+ dquote +:+ " raised an alert titled " +:+ dquote +:+ "for File Download" +:+ dquote +:+ " — a confirmed false positive in the 2026-07-18 benign battery. Those options now have their own rule (CertUtil Used for Local Base64 Decode, T1140) so the two behaviours stay distinguishable to an analyst.")
  "stable" "high"
  ["attack.t1105"; "attack.command_and_control"]
  (one_of ["Legitimate certificate management"])
  [("product", "windows"); ("category", "process_creation")]
  [("selection", VMap
      [("Image|contains", VStr "certutil.exe");
       ("CommandLine|contains", one_of
        ["-urlcache"; "-verifyctl"; "-split"; "/urlcache"; "/verifyctl"; "/split"])]);
   ("condition", VStr "selection")].

Definition certutil_used_for_local_base64_decode : sigmaYAMLDoc := mkYAMLDoc
  "CertUtil Used for Local Base64 Decode"
  "Detects certutil performing a local encode/decode transform (-decode / -encode / -decodehex) with no download option present. Commonly used to reconstitute a payload that was staged in text form to evade content inspection."
  "stable" "medium"
  ["attack.t1140"; "attack.defense_evasion"]
  (one_of ["Payload staging that deliberately names its output with a certificate extension"])
  [("product", "windows"); ("category", "process_creation")]
  [("selection", VMap
      [("Image|contains", VStr "certutil.exe");
       ("CommandLine|contains", one_of
        ["-decode"; "-encode"; "-decodehex"; "/decode"; "/encode"; "/decodehex"])]);
   ("download", VMap
      [("CommandLine|contains", one_of
        ["-urlcache"; "-verifyctl"; "/urlcache"; "/verifyctl"])]);
   ("certconv", VMap
      [("CommandLine|contains", one_of
        [".cer"; ".crt"; ".der"; ".pfx"; ".p7b"])]);
   ("condition", VStr "selection and not download and not certconv")].

Definition bitsadmin_used_for_file_download : sigmaYAMLDoc := mkYAMLDoc
  "BITSAdmin Used for File Download"
  "Detects bitsadmin being used to transfer files, a common LOLBin technique."
  "stable" "high"
  ["attack.t1105"; "attack.command_and_control"]
  (one_of ["Legitimate Windows Update or software distribution"])
  [("product", "windows"); ("category", "process_creation")]
  [("transfer", VMap
      [("Image|contains", VStr "bitsadmin.exe");
       ("CommandLine|contains", VStr "/transfer")]);
   ("addfile", VMap
      [("Image|contains", VStr "bitsadmin.exe");
       ("CommandLine|contains|all", one_of ["/addfile"]);
       ("CommandLine|contains", one_of
        ["http"; "ftp"])]);
   ("condition", VStr "transfer or addfile")].

Definition registry_run_key_persistence : sigmaYAMLDoc := mkYAMLDoc
  "Registry Run Key Persistence"
  "Detects modification of the Windows Run registry key for persistence."
  "stable" "high"
  ["attack.t1547.001"; "attack.t1112"; "attack.persistence"]
  (one_of ["Legitimate software installers"])
  [("product", "windows"); ("category", "process_creation")]
  [("selection", VMap
      [("Image|contains", VStr "reg.exe");
       ("CommandLine|contains|all", one_of
        ["add"; "CurrentVersion\Run"])]);
   ("ps_write_cmd", VMap
      [("CommandLine|contains", one_of
        ["Set-ItemProperty"; "New-ItemProperty"; "Set-Item"])]);
   ("ps_write_key", VMap
      [("CommandLine|contains", VStr "CurrentVersion\Run")]);
   ("condition", VStr "selection or (ps_write_cmd and ps_write_key)")].

Definition registry_modification_via_reg_exe : sigmaYAMLDoc := mkYAMLDoc
  "Registry Modification via reg.exe"
  "Detects generic registry modification via reg.exe add against HKCU/HKLM/HKU, covering the Modify Registry technique for arbitrary keys not matched by the dedicated high-value-key rules."
  "stable" "low"
  ["attack.t1112"; "attack.defense_evasion"]
  (one_of ["Legitimate software installers and configuration scripts"; "Administrative registry configuration via batch or GPO"])
  [("product", "windows"); ("category", "process_creation")]
  [("selection_reg", VMap
      [("Image|contains", VStr "reg.exe");
       ("CommandLine|contains", VStr " add ")]);
   ("selection_hive", VMap
      [("CommandLine|contains", one_of
        ["HKCU"; "HKLM"; "HKU\"; "HKEY_"])]);
   ("condition", VStr "selection_reg and selection_hive")].

Definition windows_defender_real_time_protection_disabled : sigmaYAMLDoc := mkYAMLDoc
  "Windows Defender Real-Time Protection Disabled"
  "Detects disabling of Windows Defender real-time monitoring."
  "stable" "critical"
  ["attack.t1562.001"; "attack.defense_evasion"]
  (one_of ["Authorised security testing or AV management"])
  [("product", "windows"); ("category", "process_creation")]
  [("selection", VMap
      [("CommandLine|contains|all", one_of
        ["Set-MpPreference"; "DisableRealtimeMonitoring"]);
       ("CommandLine|contains", one_of
        ["true"; " 1"])]);
   ("condition", VStr "selection")].

Definition windows_firewall_disabled_via_netsh : sigmaYAMLDoc := mkYAMLDoc
  "Windows Firewall Disabled via Netsh"
  "Detects disabling of Windows Firewall via netsh command."
  "stable" "critical"
  ["attack.t1562.004"; "attack.defense_evasion"]
  (one_of ["Authorised network configuration changes"])
  [("product", "windows"); ("category", "process_creation")]
  [("selection", VMap
      [("Image|contains", VStr "netsh.exe");
       ("CommandLine|contains|all", one_of
        ["advfirewall"; "allprofiles"; "state off"])]);
   ("condition", VStr "selection")].

Definition suid_bit_set_on_non_standard_binary : sigmaYAMLDoc := mkYAMLDoc
  "SUID Bit Set on Non-Standard Binary"
  "Detects chmod setting the SUID bit on a file, which could allow privilege escalation."
  "stable" "high"
  ["attack.t1166"; "attack.privilege_escalation"]
  (one_of ["Legitimate package installation (verify binary path)"])
  [("product", "linux"); ("category", "process_creation")]
  [("selection", VMap
      [("Image|contains", VStr "chmod");
       ("CommandLine|contains", one_of
        ["+s"; "u+s"; "4755"; "4777"])]);
   ("condition", VStr "selection")].

Definition pkexec_exploitation_attempt_cve_2021_4034 : sigmaYAMLDoc := mkYAMLDoc
  "Pkexec Exploitation Attempt (CVE-2021-4034)"
  "Detects exploitation patterns for the pkexec privilege escalation (PwnKit)."
  "stable" "critical"
  ["attack.t1068"; "attack.privilege_escalation"; "cve.2021-4034"]
  (one_of ["Unlikely in production; high-confidence indicator"])
  [("product", "linux"); ("category", "process_creation")]
  [("selection", VMap
      [("Image|contains", VStr "pkexec");
       ("CommandLine|contains", one_of
        ["GCONV_PATH"; "CHARSET"; "GIO_USE_VFS"])]);
   ("condition", VStr "selection")].

Definition suspicious_read_of_etc_shadow : sigmaYAMLDoc := mkYAMLDoc
  "Suspicious Read of /etc/shadow"
  "Detects reads of /etc/shadow, which stores hashed passwords and should only be accessed by privileged system tools."
  "stable" "high"
  ["attack.t1087.001"; "attack.discovery"]
  (one_of ["Shadow password management tools (passwd, chpasswd, useradd)"])
  [("product", "linux"); ("category", "file_access")]
  [("selection", VMap
      [("TargetFilename|contains", one_of ["/etc/shadow"])]);
   ("condition", VStr "selection")].

Definition etc_passwd : sigmaYAMLDoc := mkYAMLDoc
  "/etc/passwd ファイルへの書き込み"
  "/etc/passwd への書き込みはユーザー追加・権限昇格の試みを示す可能性がある。"
  "stable" "high"
  ["attack.t1098"; "attack.persistence"]
  (one_of ["useradd/adduser などのシステム管理コマンド"])
  [("product", "linux"); ("category", "file_event")]
  [("selection", VMap
      [("TargetFilename|contains", one_of ["/etc/passwd"]);
       ("Operation|contains", one_of
        ["write"; "modify"; "modified"; "create"; "created"])]);
   ("condition", VStr "selection")].

Definition bash : sigmaYAMLDoc := mkYAMLDoc
  "Bash リバースシェルの試み"
  "bash の /dev/tcp または stdout リダイレクトを使ったリバースシェル接続パターンを検知する。"
  "stable" "critical"
  ["attack.t1059.004"; "attack.execution"]
  (one_of ["承認済みペネトレーションテスト"])
  [("product", "linux"); ("category", "process_creation")]
  [("selection", VMap
      [("CommandLine|contains", one_of
        ["/dev/tcp/"; "/dev/udp/"; "bash -i >&"; "0>&1"])]);
   ("condition", VStr "selection")].

Definition ssh_authorized_keys : sigmaYAMLDoc := mkYAMLDoc
  "SSH authorized_keys への不審な書き込み"
  "authorized_keys ファイルへの書き込みは SSH バックドア設置の可能性がある。"
  "stable" "high"
  ["attack.t1098.004"; "attack.persistence"]
  (one_of ["正規の SSH 公開鍵管理 (ansible, terraform 等)"])
  [("product", "linux"); ("category", "file_event")]
  [("selection", VMap
      [("TargetFilename|contains", one_of [".ssh/authorized_keys"])]);
   ("condition", VStr "selection")].

Definition curl_wget_tmp : sigmaYAMLDoc := mkYAMLDoc
  "curl/wget による /tmp へのファイルダウンロード"
  "curl/wget で /tmp や /dev/shm にファイルを保存するパターンはマルウェアドロッパーに多用される。"
  "stable" "medium"
  ["attack.t1105"; "attack.command_and_control"]
  (one_of ["正規のソフトウェアインストールスクリプト"])
  [("product", "linux"); ("category", "process_creation")]
  [("selection_tool", VMap
      [("Image|contains", one_of
        ["curl"; "wget"])]);
   ("selection_dest", VMap
      [("CommandLine|contains", one_of
        ["/tmp/"; "/dev/shm/"; "/var/tmp/"])]);
   ("condition", VStr "selection_tool and selection_dest")].

Definition base64 : sigmaYAMLDoc := mkYAMLDoc
  "Base64 エンコードコマンドの実行"
  "Base64 デコードしてシェルに渡すパターンはコマンド難読化・マルウェアのペイロード展開に多用される。"
  "stable" "medium"
  ["attack.t1140"; "attack.defense_evasion"]
  (one_of ["正規のデプロイスクリプト"])
  [("product", "linux"); ("category", "process_creation")]
  [("selection", VMap
      [("CommandLine|contains", one_of
        ["base64 -d"; "base64 --decode"; "| base64"])]);
   ("condition", VStr "selection")].

Definition netcat_ncat : sigmaYAMLDoc := mkYAMLDoc
  "Netcat/ncat による不審な通信"
  "nc/ncat の実行はリバースシェルや不審なポートフォワーディングの可能性がある。"
  "stable" "high"
  ["attack.t1095"; "attack.command_and_control"]
  (one_of ["承認済みのネットワークデバッグ作業"])
  [("product", "linux"); ("category", "process_creation")]
  [("selection_image", VMap
      [("Image|contains", one_of
        ["/nc"; "/ncat"; "/netcat"; "/nc.traditional"])]);
   ("condition", VStr "selection_image")].

Definition tmp_dev_shm : sigmaYAMLDoc := mkYAMLDoc
  "/tmp または /dev/shm からの実行ファイル起動"
  "/tmp や /dev/shm から直接実行ファイルを起動するパターンはメモリ常駐型マルウェアに典型的。"
  "stable" "high"
  ["attack.t1059"; "attack.execution"]
  (one_of ["一時インストーラスクリプト"])
  [("product", "linux"); ("category", "process_creation")]
  [("selection", VMap
      [("Image|startswith", one_of
        ["/tmp/"; "/dev/shm/"; "/var/tmp/"])]);
   ("condition", VStr "selection")].

Definition linux_cron : sigmaYAMLDoc := mkYAMLDoc
  "Linux の疑わしい cron ジョブ追加"
  "ダウンロードや実行コマンドを含む cron ファイルの作成は永続化バックドアの可能性がある。"
  "stable" "high"
  ["attack.t1053.003"; "attack.persistence"]
  (one_of ["正規のバックアップスクリプト"])
  [("product", "linux"); ("category", "file_event")]
  [("cron_files", VMap
      [("TargetFilename|contains", one_of
        ["/etc/cron"; "/var/spool/cron"; "/etc/crontab"])]);
   ("suspicious_content", VMap
      [("Contents|contains", one_of
        ["curl "; "wget "; "bash -i"; "/dev/tcp/"; "nc -e"; "python -c"; "perl -e"])]);
   ("condition", VStr "cron_files and suspicious_content")].

Definition encoded_powershell_command_execution : sigmaYAMLDoc := mkYAMLDoc
  "Encoded PowerShell Command Execution"
  "Detects PowerShell run with an encoded command, commonly used to obfuscate payloads."
  "stable" "high"
  ["attack.t1059.001"; "attack.execution"; "attack.defense_evasion"]
  (one_of ["Rare legitimate automation using encoded commands"])
  [("product", "windows"); ("category", "process_creation")]
  [("selection", VMap
      [("Image|contains", one_of
        ["powershell"; "pwsh"]);
       ("CommandLine|contains", one_of
        [" -e "; " -ec "; " -en "; " -enc "; " -enco "; " -encod "; " -encode "; " -encoded ";
         " -encodedc "; " -encodedco "; " -encodedcom "; " -encodedcomm "; " -encodedcomma ";
         " -encodedcomman "; " -encodedcommand "; " /e "; " /ec "; " /en "; " /enc "; " /enco ";
         " /encod "; " /encode "; " /encoded "; " /encodedc "; " /encodedco "; " /encodedcom ";
         " /encodedcomm "; " /encodedcomma "; " /encodedcomman "; " /encodedcommand "])]);
   ("condition", VStr "selection")].

Definition volume_shadow_copy_deletion : sigmaYAMLDoc := mkYAMLDoc
  "Volume Shadow Copy Deletion"
  "Detects deletion of volume shadow copies, a common ransomware precursor."
  "stable" "critical"
  ["attack.t1490"; "attack.impact"]
  (one_of ["Legitimate backup software maintenance"])
  [("product", "windows"); ("category", "process_creation")]
  [("vssadmin", VMap
      [("Image|contains", one_of
        ["vssadmin.exe"; "wmic.exe"; "diskshadow.exe"]);
       ("CommandLine|contains", one_of
        ["delete shadows"; "shadowcopy delete"; "resize shadowstorage"])]);
   ("bcdedit", VMap
      [("Image|contains", VStr "bcdedit.exe");
       ("CommandLine|contains", one_of
        ["recoveryenabled no"; "bootstatuspolicy ignoreallfailures"])]);
   ("ps_wmi_obj", VMap
      [("CommandLine|contains", VStr "Win32_ShadowCopy")]);
   ("ps_wmi_del", VMap
      [("CommandLine|contains", one_of
        ["Remove-WmiObject"; "Remove-CimInstance"; ".Delete("; "Delete()"])]);
   ("wbadmin", VMap
      [("Image|contains", VStr "wbadmin.exe");
       ("CommandLine|contains", one_of
        ["delete catalog"; "delete systemstatebackup"; "delete backup"])]);
   ("condition", VStr "vssadmin or bcdedit or (ps_wmi_obj and ps_wmi_del) or wbadmin")].

Definition windows_service_creation_via_sc_exe : sigmaYAMLDoc := mkYAMLDoc
  "Windows Service Creation via sc.exe"
  "Detects creation OR binPath modification of a Windows service, often used for persistence or privilege escalation."
  "stable" "high"
  ["attack.t1543.003"; "attack.persistence"; "attack.privilege_escalation"]
  (one_of ["Legitimate software installation"])
  [("product", "windows"); ("category", "process_creation")]
  [("sc_create", VMap
      [("Image|contains", VStr "sc.exe");
       ("CommandLine|contains|all", one_of
        ["create"; "binpath"])]);
   ("sc_config", VMap
      [("Image|contains", VStr "sc.exe");
       ("CommandLine|contains|all", one_of
        ["config"; "binpath"])]);
   ("ps_newservice", VMap
      [("CommandLine|contains", VStr "New-Service")]);
   ("condition", VStr "sc_create or sc_config or ps_newservice")].

Definition local_account_creation : sigmaYAMLDoc := mkYAMLDoc
  "Local Account Creation"
  "Detects creation of a new local user account, often used for persistence."
  "stable" "medium"
  ["attack.t1136.001"; "attack.persistence"]
  (one_of ["Legitimate account provisioning by IT"])
  [("product", "windows"); ("category", "process_creation")]
  [("selection", VMap
      [("Image|contains", VStr "net");
       ("CommandLine|contains|all", one_of
        ["user"; "/add"])]);
   ("condition", VStr "selection")].

Definition mshta_suspicious_remote_execution : sigmaYAMLDoc := mkYAMLDoc
  "Mshta Suspicious Remote Execution"
  "Detects mshta.exe executing remote or scripted payloads (proxy execution LOLBin)."
  "stable" "high"
  ["attack.t1218.005"; "attack.defense_evasion"]
  (one_of ["Legacy HTA-based line-of-business applications"])
  [("product", "windows"); ("category", "process_creation")]
  [("selection", VMap
      [("Image|contains", VStr "mshta.exe");
       ("CommandLine|contains", one_of
        ["http"; "vbscript"; "javascript"; ".hta"; "about:"; "\Temp\"; "\AppData\";
         "\Users\Public\"; "\ProgramData\"])]);
   ("condition", VStr "selection")].

Definition rundll32_suspicious_proxy_execution : sigmaYAMLDoc := mkYAMLDoc
  "Rundll32 Suspicious Proxy Execution"
  "Detects rundll32.exe used to proxy script/remote execution (LOLBin abuse)."
  "stable" "high"
  ["attack.t1218.011"; "attack.defense_evasion"]
  (one_of ["Rare; rundll32 normally loads local DLLs from System32 by ordinal"])
  [("product", "windows"); ("category", "process_creation")]
  [("selection", VMap
      [("Image|contains", VStr "rundll32.exe");
       ("CommandLine|contains", one_of
        ["javascript"; "vbscript"; "mshtml"; "url.dll,OpenURL"; "url.dll,FileProtocolHandler";
         "pcwutl.dll,LaunchApplication"; "advpack.dll,LaunchINFSection";
         "advpack.dll,RegisterOCX"; "syssetup.dll,SetupInfObjectInstallAction";
         "zipfldr.dll,RouteTheCall"; "shell32.dll,ShellExec_RunDLL"; "\Temp\"; "\AppData\";
         "\Users\Public\"; "\ProgramData\"; "\\"])]);
   ("condition", VStr "selection")].

Definition lsass_memory_dump_via_comsvcs_dll : sigmaYAMLDoc := mkYAMLDoc
  "LSASS Memory Dump via comsvcs.dll"
  "Detects rundll32 invoking comsvcs.dll MiniDump to dump LSASS memory."
  "stable" "critical"
  ["attack.t1003.001"; "attack.credential_access"]
  (one_of ["None expected"])
  [("product", "windows"); ("category", "process_creation")]
  [("dll", VMap
      [("CommandLine|contains", VStr "comsvcs")]);
   ("method", VMap
      [("CommandLine|contains", one_of
        ["MiniDump"; "#24"])]);
   ("condition", VStr "dll and method")].

Definition lsass_memory_dump_via_tool_or_powershell : sigmaYAMLDoc := mkYAMLDoc
  "LSASS Memory Dump via Tool or PowerShell"
  "Detects LSASS-dumping tools and PowerShell cmdlets (nanodump, dumpert, HandleKatz, Out-Minidump, pypykatz, lsassy, SafetyKatz) used to harvest credentials from LSASS."
  "stable" "critical"
  ["attack.t1003.001"; "attack.credential_access"]
  (one_of ["None expected; these are dedicated credential-dumping tools"])
  [("product", "windows"); ("category", "process_creation")]
  [("tools", VMap
      [("CommandLine|contains", one_of
        ["nanodump"; "dumpert"; "handlekatz"; "Out-Minidump"; "pypykatz"; "lsassy";
         "safetykatz"; "Invoke-Mimikatz"; "rdrleakdiag"; "tttracer"])]);
   ("condition", VStr "tools")].

Definition registry_hive_dump_for_credential_access : sigmaYAMLDoc := mkYAMLDoc
  "Registry Hive Dump for Credential Access"
  "Detects dumping of SAM/SYSTEM/SECURITY registry hives, used to extract credentials."
  "stable" "high"
  ["attack.t1003.002"; "attack.credential_access"]
  (one_of ["Rare legitimate backup of registry hives"])
  [("product", "windows"); ("category", "process_creation")]
  [("selection", VMap
      [("Image|contains", VStr "reg");
       ("CommandLine|contains|all", one_of
        ["save"; "hklm\sam"])]);
   ("condition", VStr "selection")].

Definition lsa_secrets_dump_via_reg_save_security_hive : sigmaYAMLDoc := mkYAMLDoc
  "LSA Secrets Dump via reg save (SECURITY hive)"
  "Detects saving of the HKLM\SECURITY registry hive, which stores LSA secrets (service account passwords, cached secrets), for offline credential extraction."
  "experimental" "high"
  ["attack.t1003.004"; "attack.credential_access"]
  (one_of ["Rare legitimate backup of registry hives"])
  [("product", "windows"); ("category", "process_creation")]
  [("selection", VMap
      [("Image|contains", VStr "reg");
       ("CommandLine|contains|all", one_of
        ["save"; "hklm\security"])]);
   ("condition", VStr "selection")].

Definition cached_domain_credentials_dump_dcc2 : sigmaYAMLDoc := mkYAMLDoc
  "Cached Domain Credentials Dump (DCC2)"
  "Detects tools/commands that extract MSCache/DCC2 cached domain credentials (cachedump, gsecdump, mimikatz lsadump::cache)."
  "experimental" "high"
  ["attack.t1003.005"; "attack.credential_access"]
  (one_of ["None expected"])
  [("category", "process_creation")]
  [("selection", VMap
      [("CommandLine|contains", one_of
        ["cachedump"; "gsecdump"; "lsadump::cache"])]);
   ("condition", VStr "selection")].

Definition private_key_file_access_ssh_ppk : sigmaYAMLDoc := mkYAMLDoc
  "Private Key File Access (SSH/PPK)"
  "Detects reading or searching for private key material (id_rsa, id_dsa, id_ecdsa, id_ed25519, .ppk), a common precursor to credential theft and lateral movement."
  "experimental" "medium"
  ["attack.t1552.004"; "attack.credential_access"]
  (one_of ["Legitimate SSH key management, backups, or automation"])
  [("category", "process_creation")]
  [("selection", VMap
      [("CommandLine|contains", one_of
        ["id_rsa"; "id_dsa"; "id_ecdsa"; "id_ed25519"; ".ppk"])]);
   ("condition", VStr "selection")].

Definition llmnr_nbt_ns_poisoning_tool_responder_inveigh : sigmaYAMLDoc := mkYAMLDoc
  "LLMNR/NBT-NS Poisoning Tool (Responder/Inveigh)"
  "Detects execution of Responder or Inveigh, used for LLMNR/NBT-NS/mDNS poisoning to capture NetNTLM hashes (adversary-in-the-middle credential access)."
  "experimental" "high"
  ["attack.t1557.001"; "attack.credential_access"]
  (one_of ["Authorised penetration testing"])
  [("category", "process_creation")]
  [("selection", VMap
      [("CommandLine|contains", one_of
        ["Responder.py"; "Inveigh"; "Invoke-Inveigh"; "ntlmrelayx"; "ntlmrelayx.py"])]);
   ("condition", VStr "selection")].

Definition ntds_dit_extraction_via_ntdsutil : sigmaYAMLDoc := mkYAMLDoc
  "NTDS.dit Extraction via ntdsutil"
  "Detects extraction of the Active Directory database (NTDS.dit) for offline credential theft."
  "stable" "critical"
  ["attack.t1003.003"; "attack.credential_access"]
  (one_of ["Authorised domain controller backups"])
  [("product", "windows"); ("category", "process_creation")]
  [("ntdsutil", VMap
      [("Image|contains", VStr "ntdsutil");
       ("CommandLine|contains", one_of
        ["ifm"; "create full"])]);
   ("ntdsdit", VMap
      [("CommandLine|contains", VStr "ntds.dit")]);
   ("diskshadow_script", VMap
      [("CommandLine|contains|all", one_of ["diskshadow"]);
       ("CommandLine|contains", one_of
        ["/s"; "exec"])]);
   ("esentutl_vss", VMap
      [("CommandLine|contains|all", one_of ["esentutl"]);
       ("CommandLine|contains", one_of
        ["/vss"; "vss"])]);
   ("condition", VStr "ntdsutil or ntdsdit or diskshadow_script or esentutl_vss")].

Definition powershell_web_download_cradle : sigmaYAMLDoc := mkYAMLDoc
  "PowerShell Web Download Cradle"
  "Detects PowerShell downloading and executing remote content (download cradle)."
  "stable" "high"
  ["attack.t1071.001"; "attack.command_and_control"; "attack.execution"]
  (one_of ["Legitimate administrative scripts fetching resources"])
  [("product", "windows"); ("category", "process_creation")]
  [("selection", VMap
      [("Image|contains", VStr "powershell");
       ("CommandLine|contains", one_of
        ["downloadstring"; "downloadfile"; "downloaddata"; "net.webclient"; "invoke-webrequest";
         "invoke-restmethod"; "webrequest"; "openread"; "start-bitstransfer"])]);
   ("condition", VStr "selection")].

Definition dns_tunneling_and_c2 : sigmaYAMLDoc := mkYAMLDoc
  "DNS Tunneling and C2"
  "Detects DNS-based command-and-control and exfiltration tooling (dnscat2, iodine, dns2tcp, dnsteal, DNSExfiltrator), which smuggle data inside DNS queries to evade egress controls."
  "stable" "high"
  ["attack.t1071.004"; "attack.command_and_control"; "attack.exfiltration"]
  (one_of ["Rare; the named tools are not used by legitimate software"])
  [("product", "windows"); ("category", "process_creation")]
  [("tool_cmd", VMap
      [("CommandLine|contains", one_of
        ["dnscat"; "iodine"; "dns2tcp"; "dnsteal"; "DNSExfiltrator"; "Invoke-DnsExfil"])]);
   ("tool_image", VMap
      [("Image|contains", one_of
        ["dnscat"; "iodine"; "dns2tcp"])]);
   ("condition", VStr "tool_cmd or tool_image")].

Definition ftp_tftp_exfiltration_channel : sigmaYAMLDoc := mkYAMLDoc
  "FTP/TFTP Exfiltration Channel"
  "Detects scripted or command-line file transfer over FTP/TFTP/SCP used to exfiltrate data or stage tools (scripted ftp input files, tftp put, curl upload to ftp URLs, WinSCP/pscp scripted transfers)."
  "stable" "medium"
  ["attack.t1071.002"; "attack.exfiltration"]
  (one_of ["Legacy backup or deployment scripts using scripted FTP transfers"])
  [("product", "windows"); ("category", "process_creation")]
  [("ftp_scripted", VMap
      [("CommandLine|contains", one_of
        ["ftp -s:"; "ftp -n -s"])]);
   ("tftp_put", VMap
      [("CommandLine|contains|all", one_of
        ["tftp"; " put "])]);
   ("curl_ftp_upload", VMap
      [("CommandLine|contains|all", one_of
        ["ftp://"; "-T "])]);
   ("winscp_pscp", VMap
      [("CommandLine|contains", one_of
        ["winscp.com /command"; "winscp.exe /command"; "pscp -"])]);
   ("condition", VStr "ftp_scripted or tftp_put or curl_ftp_upload or winscp_pscp")].

Definition mail_protocol_exfiltration : sigmaYAMLDoc := mkYAMLDoc
  "Mail Protocol Exfiltration"
  "Detects data exfiltration or C2 over mail protocols (SMTP/IMAP) via command-line mailers with attachments — PowerShell Send-MailMessage with -Attachments, swaks --attach, sendemail -a, or curl to smtp/smtps URLs."
  "stable" "medium"
  ["attack.t1071.003"; "attack.exfiltration"]
  (one_of ["Monitoring or backup scripts emailing reports with attachments"])
  [("category", "process_creation")]
  [("ps_sendmail", VMap
      [("CommandLine|contains|all", one_of
        ["Send-MailMessage"; "-Attachment"])]);
   ("swaks", VMap
      [("CommandLine|contains|all", one_of
        ["swaks"; "--attach"])]);
   ("sendemail", VMap
      [("CommandLine|contains|all", one_of
        ["sendemail"; " -a "])]);
   ("curl_smtp", VMap
      [("CommandLine|contains", one_of
        ["curl smtp://"; "curl smtps://"; "--mail-from"])]);
   ("condition", VStr "ps_sendmail or swaks or sendemail or curl_smtp")].

Definition data_destruction_via_wiping_utility : sigmaYAMLDoc := mkYAMLDoc
  "Data Destruction via Wiping Utility"
  "Detects secure-wipe / data-destruction tooling that overwrites files or free space."
  "stable" "high"
  ["attack.t1485"; "attack.impact"]
  (one_of ["Authorised secure deletion of sensitive data"])
  [("product", "windows"); ("category", "process_creation")]
  [("cipher", VMap
      [("Image|contains", VStr "cipher.exe");
       ("CommandLine|contains", VStr "/w")]);
   ("sdelete", VMap
      [("Image|contains", VStr "sdelete")]);
   ("condition", VStr "cipher or sdelete")].

Definition credential_harvesting_via_file_search : sigmaYAMLDoc := mkYAMLDoc
  "Credential Harvesting via File Search"
  "Detects findstr/grep recursively searching files for password/credential keywords, a common unsecured-credentials discovery technique."
  "stable" "medium"
  ["attack.t1552.001"; "attack.credential_access"; "attack.discovery"]
  (one_of ["Administrators or developers legitimately searching configuration files"])
  [("category", "process_creation")]
  [("tool", VMap
      [("Image|contains", one_of
        ["findstr.exe"; "findstr"; "/grep"; "grep.exe"])]);
   ("keyword", VMap
      [("CommandLine|contains", one_of
        ["password"; "passwd"; "credential"; "secret"; "apikey"; "api_key"; "connectionstring"])]);
   ("recursive", VMap
      [("CommandLine|contains", one_of
        ["/s"; "/si"; "-r"; "-R"; "--recursive"])]);
   ("condition", VStr "tool and keyword and recursive")].

Definition regsvr32_scriptlet_remote_proxy_execution : sigmaYAMLDoc := mkYAMLDoc
  "Regsvr32 Scriptlet/Remote Proxy Execution"
  "Detects regsvr32 abused to execute remote or scriptlet (.sct) payloads (Squiblydoo)."
  "stable" "high"
  ["attack.t1218.010"; "attack.defense_evasion"]
  (one_of ["Rare legitimate COM registration of remote scriptlets"])
  [("product", "windows"); ("category", "process_creation")]
  [("selection", VMap
      [("Image|contains", VStr "regsvr32.exe");
       ("CommandLine|contains", one_of
        ["scrobj.dll"; "/i:http"; "/i:ftp"; ".sct"; "\Temp\"; "\AppData\"; "\Users\Public\";
         "\ProgramData\"; "\\"])]);
   ("condition", VStr "selection")].

Definition wmic_process_call_create : sigmaYAMLDoc := mkYAMLDoc
  "WMIC Process Call Create"
  ("Detects wmic spawning processes via " +:+ dquote +:+ "process call create" +:+ dquote +:+ ", used for execution and lateral movement.")
  "stable" "high"
  ["attack.t1047"; "attack.execution"]
  (one_of ["Legitimate administrative WMI scripting"])
  [("product", "windows"); ("category", "process_creation")]
  [("selection", VMap
      [("Image|contains", VStr "wmic.exe");
       ("CommandLine|contains|all", one_of
        ["process"; "call"; "create"])]);
   ("condition", VStr "selection")].

Definition wmi_event_subscription_registered_etw : sigmaYAMLDoc := mkYAMLDoc
  "WMI Event Subscription Registered (ETW)"
  "Detects registration of a WMI event subscription whose consumer executes code (CommandLineEventConsumer / ActiveScriptEventConsumer), observed from the WMI subsystem itself rather than from a wmic command line. Fileless persistence that survives reboot and leaves no parent process linking back to WMI."
  "stable" "high"
  ["attack.t1546.003"; "attack.persistence"; "attack.privilege_escalation"]
  (one_of ["Management suites that legitimately register command-line consumers"])
  [("product", "windows"); ("category", "wmi_event")]
  [("selection", VMap
      [("event_type", VStr "WmiBindingEvent")]);
   ("executing_consumer", VMap
      [("consumer|contains", one_of
        ["CommandLineEventConsumer"; "ActiveScriptEventConsumer"])]);
   ("condition", VStr "selection and executing_consumer")].

Definition cmstp_suspicious_execution : sigmaYAMLDoc := mkYAMLDoc
  "CMSTP Suspicious Execution"
  "Detects cmstp.exe used to proxy execution via malicious INF files, bypassing AppLocker/UAC. Requires the silent-install options (/s, /ns) that the LOLBAS technique depends on. An .inf argument is MANDATORY for every cmstp.exe invocation, so listing it as an independently-sufficient match meant any ordinary connection-manager profile install fired this rule."
  "stable" "high"
  ["attack.t1218.003"; "attack.defense_evasion"]
  (one_of ["Silent connection-manager profile deployment by a management tool"])
  [("product", "windows"); ("category", "process_creation")]
  [("selection", VMap
      [("Image|contains", VStr "cmstp.exe");
       ("CommandLine|contains", one_of
        ["/s"; "/ns"])]);
   ("condition", VStr "selection")].

Definition mavinject_process_injection : sigmaYAMLDoc := mkYAMLDoc
  "Mavinject Process Injection"
  "Detects mavinject.exe injecting a DLL into a running process (INJECTRUNNING), a LOLBin injection technique."
  "stable" "high"
  ["attack.t1055.001"; "attack.defense_evasion"; "attack.privilege_escalation"]
  (one_of ["None expected outside App-V environments"])
  [("product", "windows"); ("category", "process_creation")]
  [("selection", VMap
      [("Image|contains", VStr "mavinject.exe");
       ("CommandLine|contains", VStr "INJECTRUNNING")]);
   ("condition", VStr "selection")].

Definition installutil_proxy_execution : sigmaYAMLDoc := mkYAMLDoc
  "InstallUtil Proxy Execution"
  "Detects installutil.exe used to proxy code execution while suppressing output, a common .NET LOLBin technique. Keyed on the log-suppression options, which is what the description already claimed and what the LOLBAS invocation always carries. /u alone was previously an independently-sufficient match, so every ordinary .NET service uninstall fired this rule; the technique's own /U is still caught because it is accompanied by /logfile= and /LogToConsole=false."
  "stable" "medium"
  ["attack.t1218.004"; "attack.defense_evasion"]
  (one_of ["Build or deployment scripts that silence InstallUtil output"])
  [("product", "windows"); ("category", "process_creation")]
  [("selection", VMap
      [("Image|contains", VStr "installutil.exe");
       ("CommandLine|contains", one_of
        ["/logfile="; "/logtoconsole=false"])]);
   ("condition", VStr "selection")].

Definition usn_change_journal_deletion_via_fsutil : sigmaYAMLDoc := mkYAMLDoc
  "USN Change Journal Deletion via fsutil"
  "Detects deletion of the NTFS USN change journal, used to hinder forensic recovery of file activity."
  "stable" "high"
  ["attack.t1070.004"; "attack.defense_evasion"]
  (one_of ["Rare legitimate disk maintenance"])
  [("product", "windows"); ("category", "process_creation")]
  [("selection", VMap
      [("Image|contains", VStr "fsutil.exe");
       ("CommandLine|contains|all", one_of
        ["usn"; "deletejournal"])]);
   ("condition", VStr "selection")].

Definition esentutl_shadow_copy_sensitive_file_extraction : sigmaYAMLDoc := mkYAMLDoc
  "Esentutl Shadow Copy / Sensitive File Extraction"
  "Detects esentutl used with volume shadow copy paths to extract locked files such as ntds.dit or registry hives."
  "stable" "high"
  ["attack.t1003.003"; "attack.credential_access"]
  (one_of ["Authorised database maintenance using esentutl"])
  [("product", "windows"); ("category", "process_creation")]
  [("selection", VMap
      [("Image|contains", VStr "esentutl.exe");
       ("CommandLine|contains", one_of
        ["/vss"; "\\.\GLOBALROOT"; "ntds.dit"])]);
   ("condition", VStr "selection")].

Definition odbcconf_proxy_execution : sigmaYAMLDoc := mkYAMLDoc
  "Odbcconf Proxy Execution"
  "Detects odbcconf.exe used to load and execute a DLL via REGSVR, a LOLBin proxy-execution technique. Keyed on REGSVR, which is the action that actually loads the DLL. /a and .dll are standard syntax for EVERY odbcconf action (CONFIGSYSDSN, CONFIGDSN, INSTALLDRIVER...), so listing them as independently-sufficient matches meant routine ODBC driver configuration fired a high-severity proxy-execution alert."
  "stable" "high"
  ["attack.t1218.008"; "attack.defense_evasion"]
  (one_of ["Legitimate driver registration that genuinely uses REGSVR"])
  [("product", "windows"); ("category", "process_creation")]
  [("selection", VMap
      [("Image|contains", VStr "odbcconf.exe");
       ("CommandLine|contains", VStr "regsvr")]);
   ("condition", VStr "selection")].

Definition wscript_cscript_executing_script_from_temp : sigmaYAMLDoc := mkYAMLDoc
  "WScript/CScript Executing Script From Temp"
  "Detects Windows Script Host running .vbs/.js/.wsf scripts from temp/download/appdata locations, typical of phishing payloads."
  "stable" "high"
  ["attack.t1059.005"; "attack.t1059.007"; "attack.execution"]
  (one_of ["Legitimate logon or deployment scripts staged in those paths"])
  [("product", "windows"); ("category", "process_creation")]
  [("host", VMap
      [("Image|contains", one_of
        ["wscript.exe"; "cscript.exe"])]);
   ("script", VMap
      [("CommandLine|contains", one_of
        [".vbs"; ".js"; ".jse"; ".wsf"; ".vbe"])]);
   ("location", VMap
      [("CommandLine|contains", one_of
        ["\temp\"; "\appdata\"; "\downloads\"; "\public\"; "\programdata\"])]);
   ("condition", VStr "host and script and location")].

Definition lsass_memory_dump_via_procdump : sigmaYAMLDoc := mkYAMLDoc
  "LSASS Memory Dump via ProcDump"
  "Detects ProcDump (Sysinternals) used to dump lsass.exe memory for offline credential extraction."
  "stable" "critical"
  ["attack.t1003.001"; "attack.credential_access"]
  (one_of ["Authorised crash-dump collection of lsass for debugging"])
  [("product", "windows"); ("category", "process_creation")]
  [("procdump_named", VMap
      [("Image|contains", VStr "procdump");
       ("CommandLine|contains", VStr "lsass")]);
   ("procdump_flags", VMap
      [("CommandLine|contains|all", one_of ["lsass"]);
       ("CommandLine|contains", one_of
        [" -ma"; " -mp"])]);
   ("condition", VStr "procdump_named or procdump_flags")].

Definition msiexec_remote_msi_execution : sigmaYAMLDoc := mkYAMLDoc
  "Msiexec Remote MSI Execution"
  "Detects msiexec installing a package from a remote URL, a LOLBin proxy-execution / download technique."
  "stable" "high"
  ["attack.t1218.007"; "attack.defense_evasion"]
  (one_of ["Enterprise software deployment from trusted internal URLs"])
  [("product", "windows"); ("category", "process_creation")]
  [("selection", VMap
      [("Image|contains", VStr "msiexec.exe");
       ("CommandLine|contains", one_of
        ["http://"; "https://"; "ftp://"])]);
   ("condition", VStr "selection")].

Definition data_staged_in_password_protected_archive : sigmaYAMLDoc := mkYAMLDoc
  "Data Staged in Password-Protected Archive"
  "Detects archiving utilities creating password-protected archives, often used to stage data before exfiltration."
  "stable" "medium"
  ["attack.t1560.001"; "attack.collection"]
  (one_of ["Legitimate password-protected backups"])
  [("product", "windows"); ("category", "process_creation")]
  [("tool", VMap
      [("Image|contains", one_of
        ["rar.exe"; "winrar"; "7z.exe"; "7za.exe"; "7zg.exe"])]);
   ("protect", VMap
      [("CommandLine|contains", one_of
        [" -hp"; " -p"; "-hp"])]);
   ("condition", VStr "tool and protect")].

Definition data_exfiltration_via_rclone_or_megacmd : sigmaYAMLDoc := mkYAMLDoc
  "Data Exfiltration via Rclone or MEGAcmd"
  "Detects rclone or MEGAcmd copying/syncing data to cloud storage backends, the dominant exfiltration tooling in ransomware intrusions. Also catches rclone renamed to evade the binary-name check by keying on its command-line syntax."
  "stable" "high"
  ["attack.t1567.002"; "attack.exfiltration"]
  (one_of ["Sanctioned backup workflows that use rclone or MEGA"])
  [("product", "windows"); ("category", "process_creation")]
  [("selection", VMap
      [("Image|contains", VStr "rclone");
       ("CommandLine|contains", one_of
        ["copy"; "sync"; " mega"; ":b2"; ":s3"; "--transfers"; "--multi-thread"])]);
   ("cmdline_rclone", VMap
      [("CommandLine|contains|all", one_of ["rclone"]);
       ("CommandLine|contains", one_of
        ["copy"; "sync"; ":b2"; ":s3"; "--transfers"])]);
   ("mega_tools", VMap
      [("CommandLine|contains", one_of
        ["megatools"; "mega-put"; "MEGAcmd"; "mega-cmd"; "megacmdserver"])]);
   ("condition", VStr "selection or cmdline_rclone or mega_tools")].

Definition follina_msdt_code_execution : sigmaYAMLDoc := mkYAMLDoc
  "Follina MSDT Code Execution"
  ("Detects abuse of the Microsoft Support Diagnostic Tool (msdt.exe) for arbitrary code execution (CVE-2022-30190 " +:+ dquote +:+ "Follina" +:+ dquote +:+ ") — msdt invoked with IT_BrowseForFile/PCWDiagnostic or via the ms-msdt URI protocol handler, frequently spawned from an Office document.")
  "stable" "high"
  ["attack.t1218"; "attack.defense_evasion"; "attack.execution"]
  (one_of ["Legitimate Windows troubleshooting launched via msdt"])
  [("product", "windows"); ("category", "process_creation")]
  [("msdt", VMap
      [("CommandLine|contains|all", one_of ["msdt"]);
       ("CommandLine|contains", one_of
        ["IT_BrowseForFile"; "PCWDiagnostic"; "ms-msdt"])]);
   ("uri", VMap
      [("CommandLine|contains", VStr "ms-msdt:/id")]);
   ("condition", VStr "msdt or uri")].

Definition data_exfiltration_over_alternative_protocol : sigmaYAMLDoc := mkYAMLDoc
  "Data Exfiltration Over Alternative Protocol (Upload Tools)"
  "Detects file-upload invocations of common transfer tools to a remote host — curl -T/--upload-file/--data-binary, wget --post-file/--body-file, tftp PUT, the built-in ftp.exe client in unattended script mode (-s:), or PowerShell Invoke-WebRequest -InFile — a hallmark of exfiltration over an alternative protocol."
  "experimental" "medium"
  ["attack.t1048"; "attack.t1048.003"; "attack.exfiltration"]
  (one_of ["Legitimate scripted uploads or backups using curl/wget"; "Unattended ftp.exe batch jobs that are part of an established transfer process"])
  [("category", "process_creation")]
  [("curl", VMap
      [("Image|contains", VStr "curl");
       ("CommandLine|contains", one_of
        [" -T "; "--upload-file"; "--data-binary @"; "--data @"])]);
   ("wget", VMap
      [("Image|contains", VStr "wget");
       ("CommandLine|contains", one_of
        ["--post-file"; "--body-file"])]);
   ("tftp", VMap
      [("Image|contains", VStr "tftp");
       ("CommandLine|contains", VStr "put")]);
   ("ftp_script", VMap
      [("Image|endswith", VStr "\ftp.exe");
       ("CommandLine|contains", VStr "-s:")]);
   ("psupload", VMap
      [("CommandLine|contains|all", one_of
        ["invoke-webrequest"; "-infile"])]);
   ("condition", VStr "curl or wget or tftp or ftp_script or psupload")].

Definition network_tunneling_tool_execution : sigmaYAMLDoc := mkYAMLDoc
  "Network Tunneling Tool Execution"
  "Detects known tunneling/port-forwarding utilities (ngrok, plink reverse, chisel, frp, ligolo-ng) used for C2 or pivoting."
  "stable" "medium"
  ["attack.t1572"; "attack.command_and_control"]
  (one_of ["Authorised remote-access / debugging tunnels"])
  [("product", "windows"); ("category", "process_creation")]
  [("ngrok", VMap
      [("Image|contains", VStr "ngrok")]);
   ("chisel", VMap
      [("Image|contains", VStr "chisel")]);
   ("frp", VMap
      [("Image|contains", one_of
        ["frpc"; "frps"])]);
   ("plink", VMap
      [("Image|contains", VStr "plink");
       ("CommandLine|contains", one_of
        [" -R"; " -L"; " -D"])]);
   ("ligolo", VMap
      [("Image|contains", VStr "ligolo")]);
   ("condition", VStr "ngrok or chisel or frp or plink or ligolo")].

Definition remote_access_software_execution : sigmaYAMLDoc := mkYAMLDoc
  "Remote Access Software Execution"
  "Detects remote-access/RMM tools frequently abused for hands-on-keyboard access (AnyDesk, TeamViewer, ScreenConnect, Atera, Splashtop, Ammyy)."
  "stable" "medium"
  ["attack.t1219"; "attack.command_and_control"]
  (one_of ["Organisations that legitimately use these tools for IT support"])
  [("product", "windows"); ("category", "process_creation")]
  [("selection", VMap
      [("Image|contains", one_of
        ["anydesk"; "teamviewer"; "screenconnect"; "ateragent"; "splashtop"; "ammyy";
         "anyviewer"])]);
   ("condition", VStr "selection")].

Definition kerberoasting_via_rubeus : sigmaYAMLDoc := mkYAMLDoc
  "Kerberoasting via Rubeus"
  "Detects Rubeus or kerberoast/asreproast tradecraft used to request and crack Kerberos service tickets."
  "stable" "high"
  ["attack.t1558.003"; "attack.credential_access"]
  (one_of ["Authorised red-team / AD security assessments"])
  [("product", "windows"); ("category", "process_creation")]
  [("tool", VMap
      [("Image|contains", VStr "rubeus")]);
   ("technique", VMap
      [("CommandLine|contains", one_of
        ["kerberoast"; "asreproast"; "/tgtdeleg"; ".kirbi"; "GetUserSPNs"])]);
   ("condition", VStr "tool or technique")].

Definition as_rep_roasting : sigmaYAMLDoc := mkYAMLDoc
  "AS-REP Roasting"
  "Detects AS-REP roasting via PowerShell tradecraft (Invoke-ASREPRoast, Get-ASREPHash) or enumeration of accounts with Kerberos pre-authentication disabled (DONT_REQ_PREAUTH), which yields crackable AS-REP hashes without prior domain credentials. Complements the Rubeus-focused Kerberoasting rule."
  "stable" "high"
  ["attack.t1558.004"; "attack.credential_access"]
  (one_of ["Authorised AD security assessments enumerating pre-auth settings"])
  [("product", "windows"); ("category", "process_creation")]
  [("ps_asrep", VMap
      [("CommandLine|contains", one_of
        ["Invoke-ASREPRoast"; "Get-ASREPHash"; "ASREPRoast"; "GetNPUsers"])]);
   ("preauth_filter", VMap
      [("CommandLine|contains", one_of
        ["DONT_REQ_PREAUTH"; "DoesNotRequirePreAuth"; "PreauthNotRequired"])]);
   ("rubeus_asrep", VMap
      [("CommandLine|contains|all", one_of
        ["rubeus"; "asreproast"])]);
   ("condition", VStr "ps_asrep or preauth_filter or rubeus_asrep")].

Definition shell_history_credential_search : sigmaYAMLDoc := mkYAMLDoc
  "Shell History Credential Search"
  "Detects harvesting of credentials from shell and client history files — searching them for secret-bearing terms, or copying them off the host. Reading one's own history is ordinary recall and is deliberately NOT matched; the signal is the search term or the exfiltration verb, not the file access."
  "stable" "medium"
  ["attack.t1552.003"; "attack.credential_access"]
  (one_of ["An administrator auditing history files for leaked secrets as part of a cleanup"])
  [("product", "linux"); ("category", "process_creation")]
  [("history_file", VMap
      [("CommandLine|contains", one_of
        [".bash_history"; ".zsh_history"; ".sh_history"; ".mysql_history"; ".psql_history";
         ".rediscli_history"; ".history"; ".dbshell"])]);
   ("credential_terms", VMap
      [("CommandLine|contains", one_of
        ["pass"; "token"; "secret"; "credential"; "api_key"; "apikey"; "api-key"; "access_key";
         "accesskey"; "aws_"; "private_key"; "id_rsa"; "bearer"; "authorization"])]);
   ("exfil_verbs", VMap
      [("CommandLine|contains", one_of
        ["base64"; "strings "; "cp "; "mv "; "tar "; "curl"; "wget"; "nc -"])]);
   ("condition", VStr "history_file and (credential_terms or exfil_verbs)")].

Definition backup_catalog_deletion_via_wbadmin : sigmaYAMLDoc := mkYAMLDoc
  "Backup Catalog Deletion via wbadmin"
  "Detects deletion of the Windows backup catalog or system state backups, a ransomware recovery-inhibition step."
  "stable" "critical"
  ["attack.t1490"; "attack.impact"]
  (one_of ["Rare legitimate backup catalog maintenance"])
  [("product", "windows"); ("category", "process_creation")]
  [("selection", VMap
      [("Image|contains", VStr "wbadmin.exe");
       ("CommandLine|contains|all", one_of
        ["delete"; "catalog"])]);
   ("systemstate", VMap
      [("Image|contains", VStr "wbadmin.exe");
       ("CommandLine|contains", VStr "delete systemstatebackup")]);
   ("condition", VStr "selection or systemstate")].

Definition security_or_backup_service_tampering : sigmaYAMLDoc := mkYAMLDoc
  "Security or Backup Service Tampering"
  "Detects stopping/disabling/deleting of antivirus, EDR or backup services, a common ransomware pre-encryption step."
  "stable" "high"
  ["attack.t1489"; "attack.impact"]
  (one_of ["Authorised maintenance of security/backup agents"; "Planned database/service maintenance windows"])
  [("product", "windows"); ("category", "process_creation")]
  [("tool", VMap
      [("Image|contains", one_of
        ["net.exe"; "net1.exe"; "sc.exe"; "powershell"; "taskkill.exe"])]);
   ("action", VMap
      [("CommandLine|contains", one_of
        ["stop"; "delete"; "disabled"; "config"; "/f"])]);
   ("target", VMap
      [("CommandLine|contains", one_of
        ["defender"; "windefend"; "sense"; "sophos"; "crowdstrike"; "csagent"; "carbonblack";
         "mcafee"; "symantec"; "sentinel"; "veeam"; "backupexec"; "sqlwriter"; "mssql";
         "sqlserver"; "mysql"; "postgres"; "oracle"; "mongodb"; "msexchange"])]);
   ("condition", VStr "tool and action and target")].

Definition wmi_event_subscription_persistence : sigmaYAMLDoc := mkYAMLDoc
  "WMI Event Subscription Persistence"
  "Detects creation of WMI event subscriptions (filter/consumer/binding), a stealthy persistence mechanism."
  "stable" "high"
  ["attack.t1546.003"; "attack.persistence"; "attack.privilege_escalation"]
  (one_of ["Legitimate management software using WMI subscriptions (rare)"])
  [("product", "windows"); ("category", "process_creation")]
  [("selection", VMap
      [("CommandLine|contains", one_of
        ["__EventConsumer"; "__EventFilter"; "__FilterToConsumerBinding";
         "ActiveScriptEventConsumer"; "CommandLineEventConsumer"; "Register-WmiEvent";
         "Register-CimIndicationEvent"])]);
   ("condition", VStr "selection")].

Definition browser_credential_store_access : sigmaYAMLDoc := mkYAMLDoc
  "Browser Credential Store Access"
  ("Detects access to browser credential/cookie databases (Chrome/Edge " +:+ dquote +:+ "Login Data" +:+ dquote +:+ ", Firefox logins.json/key4.db), used for credential theft.")
  "stable" "high"
  ["attack.t1555.003"; "attack.credential_access"]
  (one_of ["Backup software copying entire browser profiles"])
  [("product", "windows"); ("category", "process_creation")]
  [("selection", VMap
      [("CommandLine|contains", one_of
        ["Login Data"; "logins.json"; "key4.db"; "key3.db"; "signons.sqlite"; "cookies.sqlite";
         "\Local State"])]);
   ("condition", VStr "selection")].

Definition uac_bypass_via_registry_hijack : sigmaYAMLDoc := mkYAMLDoc
  "UAC Bypass via Registry Hijack"
  "Detects registry hijack of protected-handler keys (ms-settings/mscfile/Folder/exefile shell open command) used to bypass UAC via auto-elevating binaries (fodhelper, eventvwr, sdclt, computerdefaults)."
  "stable" "high"
  ["attack.t1548.002"; "attack.privilege_escalation"; "attack.defense_evasion"]
  (one_of ["None expected; these handler keys are rarely modified legitimately"])
  [("product", "windows"); ("category", "registry_event")]
  [("selection", VMap
      [("TargetObject|contains", one_of
        ["\ms-settings\shell\open\command"; "\mscfile\shell\open\command";
         "\Folder\shell\open\command"; "\exefile\shell\open\command"])]);
   ("condition", VStr "selection")].

Definition signed_script_proxy_execution_via_pubprn : sigmaYAMLDoc := mkYAMLDoc
  "Signed Script Proxy Execution via PubPrn / Scriptlet Moniker"
  ("Detects abuse of the signed PubPrn.vbs script or a " +:+ dquote +:+ "script:" +:+ dquote +:+ " scriptlet moniker to proxy remote code execution past application control.")
  "stable" "high"
  ["attack.t1216.001"; "attack.defense_evasion"]
  (one_of ["Rare legitimate printer-provisioning automation using PubPrn"])
  [("product", "windows"); ("category", "process_creation")]
  [("pubprn", VMap
      [("CommandLine|contains", VStr "pubprn.vbs")]);
   ("scriptlet", VMap
      [("CommandLine|contains", one_of
        ["script:http"; "script:https"])]);
   ("condition", VStr "pubprn or scriptlet")].

Definition compiled_html_help_remote_execution_hh_exe : sigmaYAMLDoc := mkYAMLDoc
  "Compiled HTML Help Remote Execution (hh.exe)"
  "Detects hh.exe loading a remote payload (HTTP/FTP), a LOLBin proxy-execution technique using compiled HTML help."
  "stable" "high"
  ["attack.t1218.001"; "attack.defense_evasion"]
  (one_of ["Rare; hh.exe normally opens local .chm help files"])
  [("product", "windows"); ("category", "process_creation")]
  [("selection", VMap
      [("Image|contains", VStr "hh.exe");
       ("CommandLine|contains", one_of
        ["http://"; "https://"; "ftp://"])]);
   ("condition", VStr "selection")].

Definition office_application_spawning_script_interpreter : sigmaYAMLDoc := mkYAMLDoc
  "Office Application Spawning Script Interpreter"
  "Detects Office applications spawning a script interpreter or LOLBin (PowerShell/cmd/wscript/cscript/mshta/rundll32/regsvr32), a hallmark of malicious macro execution."
  "stable" "high"
  ["attack.t1566.001"; "attack.execution"]
  (one_of ["Rare legitimate Office add-ins that shell out"])
  [("product", "windows"); ("category", "process_creation")]
  [("parent", VMap
      [("ParentImage|contains", one_of
        ["winword.exe"; "excel.exe"; "powerpnt.exe"; "outlook.exe"; "mspub.exe"; "visio.exe";
         "onenote.exe"])]);
   ("child", VMap
      [("Image|contains", one_of
        ["powershell"; "cmd.exe"; "wscript.exe"; "cscript.exe"; "mshta.exe"; "rundll32.exe";
         "regsvr32.exe"])]);
   ("condition", VStr "parent and child")].

Definition untrusted_dll_loaded_from_user_writable_path : sigmaYAMLDoc := mkYAMLDoc
  "Untrusted DLL Loaded From User-Writable Path (Side-Loading)"
  "Detects loading of an unsigned or invalidly-signed DLL from a user-writable location (Temp/AppData/ProgramData/Downloads), a hallmark of DLL side-loading."
  "stable" "high"
  ["attack.t1574.002"; "attack.defense_evasion"; "attack.persistence"]
  (one_of ["In-house software shipping unsigned DLLs in user directories"])
  [("product", "windows"); ("category", "image_load")]
  [("dll", VMap
      [("ImageLoaded|contains", VStr ".dll")]);
   ("untrusted", VMap
      [("SignatureStatus|contains", one_of
        ["unsigned"; "invalid"; "expired"])]);
   ("userpath", VMap
      [("ImageLoaded|contains", one_of
        ["\temp\"; "\appdata\"; "\programdata\"; "\downloads\"; "\public\"])]);
   ("condition", VStr "dll and untrusted and userpath")].

Definition shared_object_loaded_from_world_writable_path : sigmaYAMLDoc := mkYAMLDoc
  "Shared Object Loaded From World-Writable Path (Linux Side-Loading)"
  "Detects a process dlopen()ing a shared object from /tmp, /var/tmp, /dev/shm or /run/shm. Legitimate software installs its libraries under /lib, /usr/lib or its own prefix; loading one from a world-writable directory is a hallmark of side-loading and of post-exploitation payload staging."
  "stable" "high"
  ["attack.t1574.006"; "attack.defense_evasion"; "attack.persistence"; "attack.privilege_escalation"]
  (one_of ["Build systems and package managers that compile and dlopen from a temporary directory"; "Self-extracting installers that stage their libraries in /tmp before moving them"])
  [("product", "linux"); ("category", "image_load")]
  [("sharedobject", VMap
      [("ImageLoaded|contains", VStr ".so")]);
   ("worldwritable", VMap
      [("ImageLoaded|startswith", one_of
        ["/tmp/"; "/var/tmp/"; "/dev/shm/"; "/run/shm/"])]);
   ("condition", VStr "sharedobject and worldwritable")].

Definition malicious_powershell_script_content : sigmaYAMLDoc := mkYAMLDoc
  "Malicious PowerShell/Script Content"
  "Detects known offensive tradecraft in deobfuscated script content (ScriptBlock logging / AMSI), including download cradles, AMSI bypass, reflection loaders and in-memory tooling."
  "stable" "high"
  ["attack.t1059.001"; "attack.t1027"; "attack.defense_evasion"; "attack.execution"]
  (one_of ["Administrative scripts that legitimately use reflection or web downloads"])
  [("product", "windows"); ("category", "ps_script")]
  [("selection", VMap
      [("ScriptBlockText|contains", one_of
        ["FromBase64String"; "IEX("; "IEX ("; "Invoke-Expression"; "DownloadString";
         "DownloadFile"; "Net.WebClient"; "Invoke-WebRequest"; "Invoke-Mimikatz";
         "Invoke-Shellcode"; "amsiInitFailed"; "AmsiUtils"; "VirtualProtect";
         "[Reflection.Assembly]"; "[Ref].Assembly.GetType"; "Add-Type -TypeDefinition";
         "System.Reflection.AssemblyName"])]);
   ("condition", VStr "selection")].

Definition builtins1 : list sigmaYAMLDoc :=
  [mimikatz_credential_dumping_tool_detected; lsass_memory_dump_via_process_access;
   psexec_remote_execution; impacket_remote_execution; wmi_spawning_command_shell;
   suspicious_scheduled_task_via_network_path; scheduled_task_creation_via_schtasks;
   windows_event_log_cleared; security_audit_log_cleared; certutil_used_for_file_download;
   certutil_used_for_local_base64_decode; bitsadmin_used_for_file_download;
   registry_run_key_persistence; registry_modification_via_reg_exe;
   windows_defender_real_time_protection_disabled; windows_firewall_disabled_via_netsh;
   suid_bit_set_on_non_standard_binary; pkexec_exploitation_attempt_cve_2021_4034;
   suspicious_read_of_etc_shadow; etc_passwd; bash; ssh_authorized_keys; curl_wget_tmp; base64;
   netcat_ncat; tmp_dev_shm; linux_cron; encoded_powershell_command_execution;
   volume_shadow_copy_deletion; windows_service_creation_via_sc_exe; local_account_creation;
   mshta_suspicious_remote_execution; rundll32_suspicious_proxy_execution;
   lsass_memory_dump_via_comsvcs_dll; lsass_memory_dump_via_tool_or_powershell;
   registry_hive_dump_for_credential_access; lsa_secrets_dump_via_reg_save_security_hive;
   cached_domain_credentials_dump_dcc2; private_key_file_access_ssh_ppk;
   llmnr_nbt_ns_poisoning_tool_responder_inveigh; ntds_dit_extraction_via_ntdsutil;
   powershell_web_download_cradle; dns_tunneling_and_c2; ftp_tftp_exfiltration_channel;
   mail_protocol_exfiltration; data_destruction_via_wiping_utility;
   credential_harvesting_via_file_search; regsvr32_scriptlet_remote_proxy_execution;
   wmic_process_call_create; wmi_event_subscription_registered_etw; cmstp_suspicious_execution;
   mavinject_process_injection; installutil_proxy_execution;
   usn_change_journal_deletion_via_fsutil; esentutl_shadow_copy_sensitive_file_extraction;
   odbcconf_proxy_execution; wscript_cscript_executing_script_from_temp;
   lsass_memory_dump_via_procdump; msiexec_remote_msi_execution;
   data_staged_in_password_protected_archive; data_exfiltration_via_rclone_or_megacmd;
   follina_msdt_code_execution; data_exfiltration_over_alternative_protocol;
   network_tunneling_tool_execution; remote_access_software_execution; kerberoasting_via_rubeus;
   as_rep_roasting; shell_history_credential_search; backup_catalog_deletion_via_wbadmin;
   security_or_backup_service_tampering; wmi_event_subscription_persistence;
   browser_credential_store_access; uac_bypass_via_registry_hijack;
   signed_script_proxy_execution_via_pubprn; compiled_html_help_remote_execution_hh_exe;
   office_application_spawning_script_interpreter; untrusted_dll_loaded_from_user_writable_path;
   shared_object_loaded_from_world_writable_path; malicious_powershell_script_content].

(** For each of them an event it is meant to catch. *)
Definition caught1 : list event :=
  [[("type", VStr "process"); ("CommandLine", VStr "sekurlsa")];
   [("type", VStr "credential_access"); ("TargetImage", VStr "lsass.exe");
    ("GrantedAccess", VStr "0x1FFFFF")];
   [("type", VStr "process"); ("Image", VStr "psexec.exe")];
   [("type", VStr "process"); ("CommandLine", VStr "psexec.py")];
   [("type", VStr "process"); ("ParentImage", VStr "wmiprvse.exe"); ("Image", VStr "cmd.exe")];
   [("type", VStr "process"); ("Image", VStr "schtasks.exe"); ("CommandLine", VStr "/create \\")];
   [("type", VStr "process"); ("Image", VStr "schtasks"); ("CommandLine", VStr "/create")];
   [("type", VStr "process"); ("Image", VStr "wevtutil.exe"); ("CommandLine", VStr " cl ")];
   [("EventID", VStr "1102")];
   [("type", VStr "process"); ("Image", VStr "certutil.exe"); ("CommandLine", VStr "-urlcache")];
   [("type", VStr "process"); ("Image", VStr "certutil.exe"); ("CommandLine", VStr "-decode")];
   [("type", VStr "process"); ("Image", VStr "bitsadmin.exe"); ("CommandLine", VStr "/transfer")];
   [("type", VStr "process"); ("Image", VStr "reg.exe");
    ("CommandLine", VStr "add CurrentVersion\Run")];
   [("type", VStr "process"); ("Image", VStr "reg.exe"); ("CommandLine", VStr " add  HKCU")];
   [("type", VStr "process");
    ("CommandLine", VStr "Set-MpPreference DisableRealtimeMonitoring true")];
   [("type", VStr "process"); ("Image", VStr "netsh.exe");
    ("CommandLine", VStr "advfirewall allprofiles state off")];
   [("type", VStr "process"); ("Image", VStr "chmod"); ("CommandLine", VStr "+s")];
   [("type", VStr "process"); ("Image", VStr "pkexec"); ("CommandLine", VStr "GCONV_PATH")];
   [("type", VStr "file"); ("TargetFilename", VStr "/etc/shadow")];
   [("type", VStr "file"); ("TargetFilename", VStr "/etc/passwd"); ("Operation", VStr "write")];
   [("type", VStr "process"); ("CommandLine", VStr "/dev/tcp/")];
   [("type", VStr "file"); ("TargetFilename", VStr ".ssh/authorized_keys")];
   [("type", VStr "process"); ("Image", VStr "curl"); ("CommandLine", VStr "/tmp/")];
   [("type", VStr "process"); ("CommandLine", VStr "base64 -d")];
   [("type", VStr "process"); ("Image", VStr "/nc")];
   [("type", VStr "process"); ("Image", VStr "/tmp/")];
   [("type", VStr "file"); ("TargetFilename", VStr "/etc/cron"); ("Contents", VStr "curl ")];
   [("type", VStr "process"); ("Image", VStr "powershell"); ("CommandLine", VStr " -e ")];
   [("type", VStr "process"); ("Image", VStr "vssadmin.exe");
    ("CommandLine", VStr "delete shadows")];
   [("type", VStr "process"); ("Image", VStr "sc.exe"); ("CommandLine", VStr "create binpath")];
   [("type", VStr "process"); ("Image", VStr "net"); ("CommandLine", VStr "user /add")];
   [("type", VStr "process"); ("Image", VStr "mshta.exe"); ("CommandLine", VStr "http")];
   [("type", VStr "process"); ("Image", VStr "rundll32.exe"); ("CommandLine", VStr "javascript")];
   [("type", VStr "process"); ("CommandLine", VStr "comsvcs MiniDump")];
   [("type", VStr "process"); ("CommandLine", VStr "nanodump")];
   [("type", VStr "process"); ("Image", VStr "reg"); ("CommandLine", VStr "save hklm\sam")];
   [("type", VStr "process"); ("Image", VStr "reg"); ("CommandLine", VStr "save hklm\security")];
   [("type", VStr "process"); ("CommandLine", VStr "cachedump")];
   [("type", VStr "process"); ("CommandLine", VStr "id_rsa")];
   [("type", VStr "process"); ("CommandLine", VStr "Responder.py")];
   [("type", VStr "process"); ("Image", VStr "ntdsutil"); ("CommandLine", VStr "ifm")];
   [("type", VStr "process"); ("Image", VStr "powershell");
    ("CommandLine", VStr "downloadstring")];
   [("type", VStr "process"); ("CommandLine", VStr "dnscat")];
   [("type", VStr "process"); ("CommandLine", VStr "ftp -s:")];
   [("type", VStr "process"); ("CommandLine", VStr "Send-MailMessage -Attachment")];
   [("type", VStr "process"); ("Image", VStr "cipher.exe"); ("CommandLine", VStr "/w")];
   [("type", VStr "process"); ("Image", VStr "findstr.exe"); ("CommandLine", VStr "password /s")];
   [("type", VStr "process"); ("Image", VStr "regsvr32.exe"); ("CommandLine", VStr "scrobj.dll")];
   [("type", VStr "process"); ("Image", VStr "wmic.exe");
    ("CommandLine", VStr "process call create")];
   [("type", VStr "wmi_activity"); ("event_type", VStr "WmiBindingEvent");
    ("consumer", VStr "CommandLineEventConsumer")];
   [("type", VStr "process"); ("Image", VStr "cmstp.exe"); ("CommandLine", VStr "/s")];
   [("type", VStr "process"); ("Image", VStr "mavinject.exe");
    ("CommandLine", VStr "INJECTRUNNING")];
   [("type", VStr "process"); ("Image", VStr "installutil.exe");
    ("CommandLine", VStr "/logfile=")];
   [("type", VStr "process"); ("Image", VStr "fsutil.exe");
    ("CommandLine", VStr "usn deletejournal")];
   [("type", VStr "process"); ("Image", VStr "esentutl.exe"); ("CommandLine", VStr "/vss")];
   [("type", VStr "process"); ("Image", VStr "odbcconf.exe"); ("CommandLine", VStr "regsvr")];
   [("type", VStr "process"); ("Image", VStr "wscript.exe"); ("CommandLine", VStr ".vbs \temp\")];
   [("type", VStr "process"); ("Image", VStr "procdump"); ("CommandLine", VStr "lsass")];
   [("type", VStr "process"); ("Image", VStr "msiexec.exe"); ("CommandLine", VStr "http://")];
   [("type", VStr "process"); ("Image", VStr "rar.exe"); ("CommandLine", VStr " -hp")];
   [("type", VStr "process"); ("Image", VStr "rclone"); ("CommandLine", VStr "copy")];
   [("type", VStr "process"); ("CommandLine", VStr "msdt IT_BrowseForFile")];
   [("type", VStr "process"); ("Image", VStr "curl"); ("CommandLine", VStr " -T ")];
   [("type", VStr "process"); ("Image", VStr "ngrok")];
   [("type", VStr "process"); ("Image", VStr "anydesk")];
   [("type", VStr "process"); ("Image", VStr "rubeus")];
   [("type", VStr "process"); ("CommandLine", VStr "Invoke-ASREPRoast")];
   [("type", VStr "process"); ("CommandLine", VStr ".bash_history pass")];
   [("type", VStr "process"); ("Image", VStr "wbadmin.exe");
    ("CommandLine", VStr "delete catalog")];
   [("type", VStr "process"); ("Image", VStr "net.exe"); ("CommandLine", VStr "stop defender")];
   [("type", VStr "process"); ("CommandLine", VStr "__EventConsumer")];
   [("type", VStr "process"); ("CommandLine", VStr "Login Data")];
   [("type", VStr "registry"); ("TargetObject", VStr "\ms-settings\shell\open\command")];
   [("type", VStr "process"); ("CommandLine", VStr "pubprn.vbs")];
   [("type", VStr "process"); ("Image", VStr "hh.exe"); ("CommandLine", VStr "http://")];
   [("type", VStr "process"); ("ParentImage", VStr "winword.exe"); ("Image", VStr "powershell")];
   [("type", VStr "image_load"); ("ImageLoaded", VStr ".dll \temp\");
    ("SignatureStatus", VStr "unsigned")];
   [("type", VStr "image_load"); ("ImageLoaded", VStr "/tmp/.so")];
   [("type", VStr "script"); ("ScriptBlockText", VStr "FromBase64String")]].
