(* ===== verification/Builtins2.v ===== *)
(** * Built-in Sigma rules 80 to 158

    The literals 80 to 158 of [builtinSigmaRules] in
    [server/internal/detection/sigma_builtins.go], each as the document
    [yaml.Unmarshal] makes of it: comments are gone, scalars are strings unless
    they read as a number, the keys keep their order. *)

From Stdlib Require Import Ascii.
From S2P Require Import Prelude GoStrings Event Base64 Sigma.
From S2P Require Import Builtins1.

#[local] Open Scope string_scope.
#[local] Open Scope list_scope.
#[local] Open Scope Z_scope.

Definition dynamic_linker_hijacking_via_ld_preload_ld : sigmaYAMLDoc := mkYAMLDoc
  "Dynamic Linker Hijacking via LD_PRELOAD/LD_LIBRARY_PATH"
  "Detects a process launched with LD_PRELOAD/LD_LIBRARY_PATH/LD_AUDIT referencing a user-writable location, a hallmark of shared-object injection on Linux."
  "stable" "high"
  ["attack.t1574.006"; "attack.persistence"; "attack.privilege_escalation"; "attack.defense_evasion"]
  (one_of ["Developer/build environments setting LD_LIBRARY_PATH to project directories"])
  [("product", "linux"); ("category", "process_creation")]
  [("ldvars", VMap
      [("environment|contains", one_of
        ["LD_PRELOAD="; "LD_LIBRARY_PATH="; "LD_AUDIT="])]);
   ("writable", VMap
      [("environment|contains", one_of
        ["/tmp/"; "/dev/shm/"; "/var/tmp/"; "/home/"])]);
   ("condition", VStr "ldvars and writable")].

Definition msbuild_proxy_execution : sigmaYAMLDoc := mkYAMLDoc
  "MSBuild Proxy Execution"
  "Detects msbuild.exe execution — a signed developer utility abused to compile and run inline C# tasks, bypassing application allowlisting (proxy execution)."
  "stable" "medium"
  ["attack.t1127.001"; "attack.defense_evasion"]
  (one_of ["Developer or CI build machines running legitimate builds"])
  [("product", "windows"); ("category", "process_creation")]
  [("selection", VMap
      [("Image|contains", VStr "msbuild")]);
   ("condition", VStr "selection")].

Definition registry_run_key_persistence_to_suspicious : sigmaYAMLDoc := mkYAMLDoc
  "Registry Run Key Persistence to Suspicious Location"
  "Detects a value written to a Run/RunOnce autostart key whose data points to a user-writable directory or a script interpreter, a hallmark of malware persistence."
  "experimental" "high"
  ["attack.t1547.001"; "attack.persistence"]
  (one_of ["Some legitimate installers stage launchers in ProgramData"])
  [("product", "windows"); ("category", "registry_event")]
  [("selection_key", VMap
      [("TargetObject|contains", one_of
        ["CurrentVersion\Run"; "CurrentVersion\RunOnce"; "Policies\Explorer\Run"])]);
   ("selection_data", VMap
      [("Details|contains", one_of
        ["\AppData\"; "\Temp\"; "\Users\Public\"; "\ProgramData\"; "powershell"; "cmd /c";
         "mshta"; "wscript"; "cscript"; "rundll32"; "regsvr32"])]);
   ("condition", VStr "selection_key and selection_data")].

Definition image_file_execution_options_debugger : sigmaYAMLDoc := mkYAMLDoc
  "Image File Execution Options Debugger Persistence"
  "Detects setting a Debugger value under Image File Execution Options, hijacking execution of a target program for persistence or privilege escalation."
  "stable" "high"
  ["attack.t1546.012"; "attack.persistence"; "attack.privilege_escalation"]
  (one_of ["GFlags or debugging tools configuring a debugger intentionally"])
  [("product", "windows"); ("category", "process_creation")]
  [("selection", VMap
      [("Image|contains", VStr "reg");
       ("CommandLine|contains|all", one_of
        ["Image File Execution Options"; "Debugger"])]);
   ("condition", VStr "selection")].

Definition windows_defender_tampering_via_registry : sigmaYAMLDoc := mkYAMLDoc
  "Windows Defender Tampering via Registry"
  "Detects registry edits that disable Windows Defender or its tamper protection (DisableAntiSpyware / DisableAntiVirus / TamperProtection), distinct from the Set-MpPreference vector."
  "stable" "critical"
  ["attack.t1562.001"; "attack.defense_evasion"]
  (one_of ["Enterprise policy management of Defender"])
  [("product", "windows"); ("category", "process_creation")]
  [("reg", VMap
      [("Image|contains", VStr "reg");
       ("CommandLine|contains", VStr "Windows Defender")]);
   ("disable", VMap
      [("CommandLine|contains", one_of
        ["DisableAntiSpyware"; "DisableAntiVirus"; "TamperProtection"])]);
   ("condition", VStr "reg and disable")].

Definition web_server_spawning_command_shell_web_shell : sigmaYAMLDoc := mkYAMLDoc
  "Web Server Spawning Command Shell (Web Shell)"
  "Detects a web server worker process spawning a command or script interpreter — a classic web shell indicator. Relies on parent-process resolution (ParentImage from ppid)."
  "stable" "high"
  ["attack.t1505.003"; "attack.persistence"]
  (one_of ["Legitimate web applications shelling out (e.g. some CGI or admin tooling)"])
  [("product", "windows"); ("category", "process_creation")]
  [("parent", VMap
      [("ParentImage|contains", one_of
        ["w3wp.exe"; "httpd.exe"; "nginx.exe"; "php-cgi.exe"; "tomcat"; "ws_tomcatservice.exe"])]);
   ("child", VMap
      [("Image|contains", one_of
        ["cmd.exe"; "powershell"; "\wscript.exe"; "\cscript.exe"; "\bash.exe"])]);
   ("condition", VStr "parent and child")].

Definition hidden_file_or_directory_via_attrib : sigmaYAMLDoc := mkYAMLDoc
  "Hidden File or Directory via attrib"
  "Detects attrib.exe setting the hidden+system attributes, used to conceal malicious files and directories."
  "stable" "medium"
  ["attack.t1564.001"; "attack.defense_evasion"]
  (one_of ["Some installers mark configuration files hidden+system"])
  [("product", "windows"); ("category", "process_creation")]
  [("selection", VMap
      [("Image|contains", VStr "attrib");
       ("CommandLine|contains|all", one_of
        ["+h"; "+s"])]);
   ("condition", VStr "selection")].

Definition broad_file_permission_change_via_icacls_takeown : sigmaYAMLDoc := mkYAMLDoc
  "Broad File Permission Change via icacls/takeown"
  "Detects icacls/cacls/takeown granting broad access or seizing ownership — common in ransomware staging and persistence to make files attacker-controlled."
  "stable" "medium"
  ["attack.t1222.001"; "attack.defense_evasion"]
  (one_of ["Administrative ACL maintenance scripts"])
  [("product", "windows"); ("category", "process_creation")]
  [("icacls", VMap
      [("Image|contains", one_of
        ["icacls"; "cacls.exe"]);
       ("CommandLine|contains", one_of
        ["/grant Everyone"; "/grant *S-1-1-0"; " /grant:r everyone"; "/T /C /grant"])]);
   ("takeown", VMap
      [("Image|contains", VStr "takeown");
       ("CommandLine|contains", VStr "/f")]);
   ("condition", VStr "icacls or takeown")].

Definition domain_account_creation_via_net_exe : sigmaYAMLDoc := mkYAMLDoc
  "Domain Account Creation via net.exe"
  "Detects creation of a domain account via net user /add /domain — persistence or lateral movement on a domain."
  "stable" "high"
  ["attack.t1136.002"; "attack.persistence"]
  (one_of ["Legitimate domain administration"])
  [("product", "windows"); ("category", "process_creation")]
  [("selection", VMap
      [("Image|contains", one_of
        ["\net.exe"; "\net1.exe"]);
       ("CommandLine|contains|all", one_of
        ["user"; "/add"; "/domain"])]);
   ("condition", VStr "selection")].

Definition dcsync_credential_replication : sigmaYAMLDoc := mkYAMLDoc
  "DCSync Credential Replication"
  "Detects DCSync — abusing directory replication (DRSUAPI) to pull password hashes for any account, typically via mimikatz lsadump::dcsync or PowerShell Invoke-DCSync. Extremely high signal."
  "stable" "critical"
  ["attack.t1003.006"; "attack.credential_access"]
  (one_of ["None expected; DCSync from a non-DC host is essentially always malicious"])
  [("product", "windows"); ("category", "process_creation")]
  [("selection", VMap
      [("CommandLine|contains", one_of
        ["lsadump::dcsync"; "/dcsync"; "Invoke-DCSync"; "-just-dc"; "--just-dc"])]);
   ("condition", VStr "selection")].

Definition windows_credential_manager_access : sigmaYAMLDoc := mkYAMLDoc
  "Windows Credential Manager Access"
  "Detects enumeration/harvesting of stored credentials via cmdkey /list or vaultcmd, used to pull cached credentials from the Windows Credential Manager / vault."
  "stable" "medium"
  ["attack.t1555.004"; "attack.credential_access"]
  (one_of ["Administrators auditing stored credentials"])
  [("product", "windows"); ("category", "process_creation")]
  [("cmdkey", VMap
      [("Image|contains", VStr "cmdkey");
       ("CommandLine|contains", VStr "/list")]);
   ("vaultcmd", VMap
      [("Image|contains", VStr "vaultcmd");
       ("CommandLine|contains", one_of
        ["/list"; "/listcreds"])]);
   ("condition", VStr "cmdkey or vaultcmd")].

Definition rdp_enabled_or_session_hijack : sigmaYAMLDoc := mkYAMLDoc
  "RDP Enabled or Session Hijack"
  "Detects enabling Remote Desktop by clearing fDenyTSConnections, or hijacking an existing RDP session via tscon /dest — both used for lateral movement."
  "stable" "high"
  ["attack.t1021.001"; "attack.lateral_movement"]
  (one_of ["Administrators legitimately enabling RDP or reconnecting sessions"])
  [("product", "windows"); ("category", "process_creation")]
  [("enable_rdp", VMap
      [("Image|contains", VStr "reg");
       ("CommandLine|contains|all", one_of
        ["fDenyTSConnections"; "/d 0"])]);
   ("tscon", VMap
      [("Image|contains", VStr "tscon");
       ("CommandLine|contains", VStr "/dest")]);
   ("condition", VStr "enable_rdp or tscon")].

Definition winrm_lateral_movement_winrs_powershell_remoting : sigmaYAMLDoc := mkYAMLDoc
  "WinRM Lateral Movement (winrs / PowerShell Remoting)"
  "Detects remote command execution over Windows Remote Management — winrs.exe, or PowerShell remoting (Enter-PSSession/New-PSSession) which establishes a remote session for lateral movement."
  "stable" "medium"
  ["attack.t1021.006"; "attack.lateral_movement"]
  (one_of ["Administrators using PowerShell remoting / winrs for management"])
  [("product", "windows"); ("category", "process_creation")]
  [("winrs", VMap
      [("Image|contains", VStr "winrs")]);
   ("winrs_cmdline", VMap
      [("CommandLine|contains", VStr "winrs")]);
   ("pssession", VMap
      [("CommandLine|contains", one_of
        ["Enter-PSSession"; "New-PSSession"])]);
   ("evil_winrm", VMap
      [("CommandLine|contains", VStr "evil-winrm")]);
   ("condition", VStr "winrs or winrs_cmdline or pssession or evil_winrm")].

Definition ad_cs_certificate_abuse : sigmaYAMLDoc := mkYAMLDoc
  "AD CS Certificate Abuse"
  "Detects Active Directory Certificate Services abuse via Certipy or Certify — requesting, forging, or relaying certificates for authentication and privilege escalation (ESC1-16), a common modern path to Domain Admin."
  "stable" "high"
  ["attack.t1649"; "attack.credential_access"]
  (one_of ["Authorised AD CS security assessments using Certipy or Certify"])
  [("category", "process_creation")]
  [("certipy", VMap
      [("CommandLine|contains", VStr "certipy")]);
   ("certify", VMap
      [("CommandLine|contains", VStr "Certify.exe")]);
   ("condition", VStr "certipy or certify")].

Definition authentication_coercion : sigmaYAMLDoc := mkYAMLDoc
  "Authentication Coercion"
  "Detects forced-authentication coercion tools (PetitPotam, Coercer, PrinterBug/Dementor, DFSCoerce, ShadowCoerce) that force a victim host to authenticate to an attacker for NTLM relay — a key step in AD CS/relay attacks toward Domain Admin."
  "stable" "high"
  ["attack.t1187"; "attack.credential_access"]
  (one_of ["Authorised AD relay/coercion assessments"])
  [("category", "process_creation")]
  [("coercion", VMap
      [("CommandLine|contains", one_of
        ["PetitPotam"; "Coercer"; "printerbug"; "dfscoerce"; "shadowcoerce"; "dementor"])]);
   ("condition", VStr "coercion")].

Definition kerberos_brute_force_and_user_enumeration : sigmaYAMLDoc := mkYAMLDoc
  "Kerberos Brute-Force and User Enumeration"
  "Detects Kerbrute — Kerberos pre-authentication username enumeration and password spraying (kerbrute userenum/passwordspray/bruteuser/bruteforce) against a KDC, which does not generate failed-logon events on the target host."
  "stable" "high"
  ["attack.t1110"; "attack.credential_access"]
  (one_of ["Authorised password-strength / spray assessments"])
  [("category", "process_creation")]
  [("kerbrute", VMap
      [("CommandLine|contains", VStr "kerbrute")]);
   ("condition", VStr "kerbrute")].

Definition internal_proxy_via_netsh_portproxy : sigmaYAMLDoc := mkYAMLDoc
  "Internal Proxy via netsh portproxy"
  "Detects creation of a netsh portproxy rule, used to relay/pivot traffic through a compromised host (internal proxy) — a common C2 pivoting technique."
  "stable" "high"
  ["attack.t1090.001"; "attack.command_and_control"]
  (one_of ["Rare legitimate port-forwarding configured by administrators"])
  [("product", "windows"); ("category", "process_creation")]
  [("selection", VMap
      [("Image|contains", VStr "netsh");
       ("CommandLine|contains|all", one_of
        ["portproxy"; "add"])]);
   ("condition", VStr "selection")].

Definition regsvcs_regasm_proxy_execution : sigmaYAMLDoc := mkYAMLDoc
  "Regsvcs/Regasm Proxy Execution"
  "Detects regsvcs.exe or regasm.exe — signed .NET utilities abused to execute attacker code via ComRegisterFunction/UnRegister hooks, bypassing application control (LOLBin proxy execution)."
  "stable" "medium"
  ["attack.t1218.009"; "attack.defense_evasion"]
  (one_of ["Legitimate .NET assembly registration by developers or installers"])
  [("product", "windows"); ("category", "process_creation")]
  [("selection", VMap
      [("Image|contains", one_of
        ["regsvcs.exe"; "regasm.exe"])]);
   ("condition", VStr "selection")].

Definition root_certificate_installation_via_certutil : sigmaYAMLDoc := mkYAMLDoc
  "Root Certificate Installation via certutil"
  "Detects installation of a certificate into the Root/AuthRoot trust store via certutil -addstore, which can enable adversary-in-the-middle interception or trust of malicious code-signing certificates."
  "stable" "high"
  ["attack.t1553.004"; "attack.defense_evasion"]
  (one_of ["Enterprise PKI deployment of internal root/intermediate certificates"])
  [("product", "windows"); ("category", "process_creation")]
  [("certutil", VMap
      [("Image|contains", VStr "certutil");
       ("CommandLine|contains", VStr "-addstore")]);
   ("store", VMap
      [("CommandLine|contains", one_of
        ["root"; "authroot"])]);
   ("condition", VStr "certutil and store")].

Definition xsl_script_processing_proxy_execution : sigmaYAMLDoc := mkYAMLDoc
  "XSL Script Processing Proxy Execution"
  "Detects execution of scripts embedded in XSL stylesheets — msxsl.exe, or wmic referencing an .xsl format file — a LOLBin proxy-execution / application-control-bypass technique."
  "stable" "high"
  ["attack.t1220"; "attack.defense_evasion"]
  (one_of ["Rare legitimate XSLT transformation tooling"])
  [("product", "windows"); ("category", "process_creation")]
  [("msxsl", VMap
      [("Image|contains", VStr "msxsl")]);
   ("wmic_xsl", VMap
      [("Image|contains", VStr "wmic");
       ("CommandLine|contains", VStr ".xsl")]);
   ("condition", VStr "msxsl or wmic_xsl")].

Definition clipboard_data_collection : sigmaYAMLDoc := mkYAMLDoc
  "Clipboard Data Collection"
  "Detects reading of clipboard contents via PowerShell Get-Clipboard or the .NET Clipboard class, a collection technique for harvesting copied credentials/data."
  "stable" "medium"
  ["attack.t1115"; "attack.collection"]
  (one_of ["Clipboard-manager utilities or legitimate automation reading the clipboard"])
  [("product", "windows"); ("category", "process_creation")]
  [("selection", VMap
      [("CommandLine|contains", one_of
        ["Get-Clipboard"; "System.Windows.Forms.Clipboard"; "Windows.Clipboard]::GetText"])]);
   ("condition", VStr "selection")].

Definition screen_capture_via_copyfromscreen_screenshot : sigmaYAMLDoc := mkYAMLDoc
  "Screen Capture via CopyFromScreen / Screenshot Tool"
  "Detects screen capture through the .NET Graphics.CopyFromScreen API or known screenshot LOLBins (nircmd savescreenshot), used to collect visual data from a victim."
  "stable" "high"
  ["attack.t1113"; "attack.collection"]
  (one_of ["Legitimate screenshot/remote-support tooling"])
  [("product", "windows"); ("category", "process_creation")]
  [("api", VMap
      [("CommandLine|contains", VStr "CopyFromScreen")]);
   ("nircmd", VMap
      [("Image|contains", VStr "nircmd");
       ("CommandLine|contains", VStr "savescreenshot")]);
   ("condition", VStr "api or nircmd")].

Definition keylogging_via_windows_hook_async_key_state : sigmaYAMLDoc := mkYAMLDoc
  "Keylogging via Windows Hook / Async Key State"
  "Detects keylogging tradecraft — capturing keystrokes via GetAsyncKeyState, SetWindowsHookEx or GetKeyboardState, typically invoked from inline PowerShell/C#."
  "stable" "high"
  ["attack.t1056.001"; "attack.collection"; "attack.credential_access"]
  (one_of ["Rare; these APIs are seldom used in benign command-line invocations"])
  [("product", "windows"); ("category", "process_creation")]
  [("selection", VMap
      [("CommandLine|contains", one_of
        ["GetAsyncKeyState"; "SetWindowsHookEx"; "GetKeyboardState"])]);
   ("condition", VStr "selection")].

Definition email_collection_via_mailbox_export : sigmaYAMLDoc := mkYAMLDoc
  "Email Collection via Mailbox Export"
  "Detects bulk email collection — Exchange mailbox export/search (New-MailboxExportRequest / Search-Mailbox) or Outlook automation via the Interop COM object."
  "stable" "high"
  ["attack.t1114"; "attack.collection"]
  (one_of ["Authorised Exchange administration or eDiscovery exports"])
  [("product", "windows"); ("category", "process_creation")]
  [("exchange", VMap
      [("CommandLine|contains", one_of
        ["New-MailboxExportRequest"; "Search-Mailbox"])]);
   ("outlook", VMap
      [("CommandLine|contains", VStr "Microsoft.Office.Interop.Outlook")]);
   ("condition", VStr "exchange or outlook")].

Definition email_forwarding_rule : sigmaYAMLDoc := mkYAMLDoc
  "Email Forwarding Rule"
  "Detects creation of mail forwarding/redirection rules used to silently exfiltrate a victim's email — Exchange/M365 New-InboxRule with -ForwardTo/-RedirectTo, Set-Mailbox -ForwardingSMTPAddress, or New-TransportRule with BlindCopyTo."
  "stable" "high"
  ["attack.t1114.003"; "attack.collection"; "attack.exfiltration"]
  (one_of ["Users legitimately configuring mail forwarding (review destination domain)"])
  [("product", "windows"); ("category", "process_creation")]
  [("inbox_rule", VMap
      [("CommandLine|contains|all", one_of ["New-InboxRule"]);
       ("CommandLine|contains", one_of
        ["-ForwardTo"; "-ForwardAsAttachmentTo"; "-RedirectTo"])]);
   ("mailbox_fwd", VMap
      [("CommandLine|contains", one_of
        ["ForwardingSMTPAddress"; "DeliverToMailboxAndForward"])]);
   ("transport_rule", VMap
      [("CommandLine|contains|all", one_of ["New-TransportRule"]);
       ("CommandLine|contains", one_of
        ["BlindCopyTo"; "RedirectMessageTo"])]);
   ("condition", VStr "inbox_rule or mailbox_fwd or transport_rule")].

Definition office_application_startup_persistence : sigmaYAMLDoc := mkYAMLDoc
  "Office Application Startup Persistence"
  "Detects persistence via Microsoft Office startup locations and add-ins — dropping templates/add-ins into Excel XLSTART, Word STARTUP, the AddIns folder, or Normal.dotm, or registering an Office add-in, so attacker code runs whenever Office launches."
  "stable" "high"
  ["attack.t1137"; "attack.persistence"]
  (one_of ["Office add-in installers writing to startup/add-in locations"])
  [("product", "windows"); ("category", "process_creation")]
  [("office_startup_path", VMap
      [("CommandLine|contains", one_of
        ["\Excel\XLSTART"; "\Word\STARTUP"; "\Microsoft\AddIns"; "\Templates\Normal.dotm"])]);
   ("office_addin_reg", VMap
      [("CommandLine|contains|all", one_of
        ["\Office\"; "\Addins"])]);
   ("condition", VStr "office_startup_path or office_addin_reg")].

Definition control_panel_item_execution : sigmaYAMLDoc := mkYAMLDoc
  "Control Panel Item Execution"
  "Detects execution of Control Panel items (.cpl) as a proxy for running malicious code — control.exe launching a .cpl (often from a user/temp path) or rundll32 shell32.dll,Control_RunDLL against an attacker-supplied file."
  "stable" "medium"
  ["attack.t1218.002"; "attack.defense_evasion"]
  (one_of ["Legitimate Control Panel applets launched from System32"])
  [("product", "windows"); ("category", "process_creation")]
  [("control_cpl", VMap
      [("CommandLine|contains|all", one_of
        ["control"; ".cpl"])]);
   ("rundll_control", VMap
      [("CommandLine|contains", VStr "Control_RunDLL")]);
   ("condition", VStr "control_cpl or rundll_control")].

Definition lsa_secrets_dump : sigmaYAMLDoc := mkYAMLDoc
  "LSA Secrets Dump"
  "Detects extraction of LSA secrets — saving the SECURITY registry hive, mimikatz lsadump::secrets/lsa, or Impacket secretsdump — used to recover service-account and machine credentials."
  "stable" "high"
  ["attack.t1003.004"; "attack.credential_access"]
  (one_of ["Rare legitimate backup of the SECURITY hive"])
  [("product", "windows"); ("category", "process_creation")]
  [("regsave", VMap
      [("Image|contains", VStr "reg");
       ("CommandLine|contains|all", one_of
        ["save"; "hklm\security"])]);
   ("tooling", VMap
      [("CommandLine|contains", one_of
        ["lsadump::secrets"; "lsadump::lsa"; "secretsdump"])]);
   ("condition", VStr "regsave or tooling")].

Definition cached_domain_credentials_dump : sigmaYAMLDoc := mkYAMLDoc
  "Cached Domain Credentials Dump"
  "Detects dumping of cached domain logon credentials (MSCACHE/DCC2) via mimikatz lsadump::cache, cachedump or gsecdump — used for offline cracking when a DC is unreachable."
  "stable" "high"
  ["attack.t1003.005"; "attack.credential_access"]
  (one_of ["None expected"])
  [("product", "windows"); ("category", "process_creation")]
  [("selection", VMap
      [("CommandLine|contains", one_of
        ["lsadump::cache"; "cachedump"; "gsecdump"])]);
   ("condition", VStr "selection")].

Definition private_key_harvesting : sigmaYAMLDoc := mkYAMLDoc
  "Private Key Harvesting"
  "Detects recursive search/collection of private key material (SSH id_rsa, .ppk, .pem, .pfx), a common unsecured-credentials harvesting step."
  "stable" "medium"
  ["attack.t1552.004"; "attack.credential_access"]
  (one_of ["DevOps/CI scripts inventorying certificates or keys"])
  [("product", "windows"); ("category", "process_creation")]
  [("harvest", VMap
      [("CommandLine|contains", one_of
        ["dir /s"; "-recurse"; "Get-ChildItem"; "findstr"; "ls -r"; "find /"])]);
   ("keyfile", VMap
      [("CommandLine|contains", one_of
        ["id_rsa"; "id_dsa"; "id_ecdsa"; ".ppk"; ".pem"; ".pfx"])]);
   ("condition", VStr "harvest and keyfile")].

Definition llmnr_nbt_ns_poisoning_tool_responder_inveigh_2 : sigmaYAMLDoc := mkYAMLDoc
  "LLMNR/NBT-NS Poisoning Tool (Responder/Inveigh)"
  "Detects execution of LLMNR/NBT-NS/mDNS poisoning and credential-relay tools (Responder, Inveigh) used to capture NetNTLM hashes on the local network."
  "stable" "high"
  ["attack.t1557.001"; "attack.credential_access"]
  (one_of ["Authorised network security assessments"])
  [("product", "windows"); ("category", "process_creation")]
  [("cmd", VMap
      [("CommandLine|contains", one_of
        ["Invoke-Inveigh"; "Inveigh.ps1"; "responder.py"])]);
   ("image", VMap
      [("Image|contains", one_of
        ["responder"; "inveigh"])]);
   ("condition", VStr "cmd or image")].

Definition group_policy_preferences_password_retrieval : sigmaYAMLDoc := mkYAMLDoc
  "Group Policy Preferences Password Retrieval"
  "Detects retrieval of Group Policy Preferences credentials — searching SYSVOL for the cpassword attribute or running Get-GPPPassword — which yields AES-decryptable domain passwords."
  "stable" "high"
  ["attack.t1552.006"; "attack.credential_access"]
  (one_of ["Rare legitimate GPP auditing"])
  [("product", "windows"); ("category", "process_creation")]
  [("selection", VMap
      [("CommandLine|contains", one_of
        ["cpassword"; "Get-GPPPassword"])]);
   ("condition", VStr "selection")].

Definition system_process_name_from_non_standard_path : sigmaYAMLDoc := mkYAMLDoc
  "System Process Name From Non-Standard Path (Masquerading)"
  ("Detects a process using a core Windows system-process name (svchost/lsass/services/…) running from outside System32/SysWOW64/WinSxS — a hallmark of masquerading. Uses the SigmaEvaluator's " +:+ dquote +:+ "not" +:+ dquote +:+ " operator to exclude the legitimate paths.")
  "stable" "high"
  ["attack.t1036.003"; "attack.defense_evasion"]
  (one_of ["Rare third-party software shipping a binary with a system-process name"])
  [("product", "windows"); ("category", "process_creation")]
  [("sysname", VMap
      [("Image|endswith", one_of
        ["\svchost.exe"; "\lsass.exe"; "\services.exe"; "\csrss.exe"; "\winlogon.exe";
         "\wininit.exe"; "\smss.exe"; "\spoolsv.exe"; "\taskhostw.exe"; "\dllhost.exe";
         "\conhost.exe"])]);
   ("legit", VMap
      [("Image|contains", one_of
        ["\windows\system32\"; "\windows\syswow64\"; "\windows\winsxs\"])]);
   ("haspath", VMap
      [("Image|contains", one_of
        [":\"; "\device\"])]);
   ("condition", VStr "sysname and haspath and not legit")].

Definition hidden_window_execution : sigmaYAMLDoc := mkYAMLDoc
  "Hidden Window Execution"
  "Detects launching a process with a hidden window (PowerShell -WindowStyle Hidden / -w hidden), a common technique to run payloads without a visible UI."
  "stable" "medium"
  ["attack.t1564.003"; "attack.defense_evasion"]
  (one_of ["Some legitimate maintenance scripts run hidden"])
  [("product", "windows"); ("category", "process_creation")]
  [("selection", VMap
      [("CommandLine|contains", one_of
        ["-windowstyle hidden"; "-window hidden"; " -w hidden"; " -w 1 "])]);
   ("condition", VStr "selection")].

Definition ntfs_alternate_data_stream_manipulation : sigmaYAMLDoc := mkYAMLDoc
  "NTFS Alternate Data Stream Manipulation"
  "Detects use of NTFS alternate data streams to hide data/code — the :$DATA attribute or PowerShell's -Stream parameter on *-Content cmdlets."
  "stable" "medium"
  ["attack.t1564.004"; "attack.defense_evasion"]
  (one_of ["Rare legitimate use of alternate data streams"])
  [("product", "windows"); ("category", "process_creation")]
  [("selection", VMap
      [("CommandLine|contains", one_of
        [" -Stream "; ":$DATA"; "::$DATA"])]);
   ("condition", VStr "selection")].

Definition timestomping_file_time_modification : sigmaYAMLDoc := mkYAMLDoc
  "Timestomping (File Time Modification)"
  "Detects modification of file MACE timestamps to hinder forensics — timestomp/SetMace tools or PowerShell assigning CreationTime/LastWriteTime/LastAccessTime."
  "stable" "medium"
  ["attack.t1070.006"; "attack.defense_evasion"]
  (one_of ["Build/packaging scripts that legitimately set file times"])
  [("product", "windows"); ("category", "process_creation")]
  [("tool", VMap
      [("Image|contains", one_of
        ["timestomp"; "setmace"])]);
   ("pscmd", VMap
      [("CommandLine|contains", one_of
        [".creationtime ="; ".lastwritetime ="; ".lastaccesstime ="; "setlastwritetime";
         "setfiletime"])]);
   ("condition", VStr "tool or pscmd")].

Definition windows_event_logging_disabled : sigmaYAMLDoc := mkYAMLDoc
  "Windows Event Logging Disabled"
  "Detects disabling of Windows auditing/event logging — auditpol disabling categories, wevtutil disabling a log (/e:false), or stopping the EventLog service."
  "stable" "high"
  ["attack.t1562.002"; "attack.defense_evasion"]
  (one_of ["Authorised audit-policy maintenance"])
  [("product", "windows"); ("category", "process_creation")]
  [("auditpol", VMap
      [("Image|contains", VStr "auditpol");
       ("CommandLine|contains", one_of
        ["/success:disable"; "/failure:disable"])]);
   ("wevtutil", VMap
      [("Image|contains", VStr "wevtutil");
       ("CommandLine|contains|all", one_of
        ["sl"; "/e:false"])]);
   ("service", VMap
      [("CommandLine|contains", one_of
        ["stop-service eventlog"; "sc stop eventlog"; "stop-service -name eventlog"])]);
   ("condition", VStr "auditpol or wevtutil or service")].

Definition ssh_lateral_movement_with_inline_credentials : sigmaYAMLDoc := mkYAMLDoc
  "SSH Lateral Movement with Inline Credentials"
  "Detects automated/scripted SSH to another host with the password supplied on the command line (plink -pw, sshpass -p) — a hallmark of credentialed lateral movement rather than interactive admin use."
  "stable" "medium"
  ["attack.t1021.004"; "attack.lateral_movement"]
  (one_of ["Legitimate automation that embeds SSH credentials (discouraged)"])
  [("product", "windows"); ("category", "process_creation")]
  [("plink", VMap
      [("Image|contains", VStr "plink");
       ("CommandLine|contains", VStr " -pw ")]);
   ("sshpass", VMap
      [("Image|contains", VStr "sshpass");
       ("CommandLine|contains", VStr " -p ")]);
   ("condition", VStr "plink or sshpass")].

Definition dcom_lateral_movement : sigmaYAMLDoc := mkYAMLDoc
  "DCOM Lateral Movement"
  "Detects lateral movement via DCOM objects (MMC20.Application, ShellWindows, ShellBrowserWindow, Excel DDE) or remote COM instantiation through GetTypeFromProgID, commonly used to execute code on a remote host."
  "stable" "high"
  ["attack.t1021.003"; "attack.lateral_movement"]
  (one_of ["Rare legitimate administrative COM automation"])
  [("product", "windows"); ("category", "process_creation")]
  [("com", VMap
      [("CommandLine|contains", one_of
        ["MMC20.Application"; "ShellWindows"; "ShellBrowserWindow"; "GetTypeFromProgID";
         "9BA05972-F6A8-11CF"; "C08AFD90-F2A1-11D1"])]);
   ("dde", VMap
      [("CommandLine|contains", VStr "DDEInitiate")]);
   ("condition", VStr "com or dde")].

Definition pass_the_ticket_kerberos_ticket_injection : sigmaYAMLDoc := mkYAMLDoc
  "Pass-the-Ticket (Kerberos Ticket Injection)"
  "Detects Kerberos ticket injection/forging for lateral movement — mimikatz kerberos::ptt, Rubeus ptt/asktgt, or use of exported .kirbi ticket files."
  "stable" "high"
  ["attack.t1550.003"; "attack.lateral_movement"; "attack.credential_access"]
  (one_of ["Authorised red-team / AD security assessments"])
  [("product", "windows"); ("category", "process_creation")]
  [("selection", VMap
      [("CommandLine|contains", one_of
        ["kerberos::ptt"; ".kirbi"; " /ptt"; "ptt /ticket"; "asktgt"; "tgtdeleg"])]);
   ("condition", VStr "selection")].

Definition golden_or_silver_ticket_forging : sigmaYAMLDoc := mkYAMLDoc
  "Golden or Silver Ticket Forging"
  "Detects Kerberos golden/silver ticket forging with tools other than the generic mimikatz path — Rubeus golden/silver subcommands, Impacket ticketer, or krbtgt/service hash injection — used for durable domain persistence and privilege escalation."
  "stable" "critical"
  ["attack.t1558.001"; "attack.credential_access"]
  (one_of ["Authorised AD security assessments forging test tickets"])
  [("product", "windows"); ("category", "process_creation")]
  [("rubeus_forge", VMap
      [("CommandLine|contains|all", one_of
        ["rubeus"; "golden"])]);
   ("rubeus_silver", VMap
      [("CommandLine|contains|all", one_of
        ["rubeus"; "silver"])]);
   ("krbtgt_hash", VMap
      [("CommandLine|contains", one_of
        ["/krbtgt:"; "kerberos::golden"])]);
   ("impacket_ticketer", VMap
      [("CommandLine|contains", one_of
        ["ticketer.py"; "ticketer "])]);
   ("silver_service", VMap
      [("CommandLine|contains|all", one_of
        ["silver"; "/service:"])]);
   ("condition", VStr "rubeus_forge or rubeus_silver or krbtgt_hash or impacket_ticketer or silver_service")].

Definition pass_the_hash : sigmaYAMLDoc := mkYAMLDoc
  "Pass-the-Hash"
  "Detects pass-the-hash lateral movement with NTLM hashes via tooling the generic mimikatz rule misses — Invoke-TheHash (Invoke-SMBExec/Invoke-WMIExec), CrackMapExec/NetExec hash auth, Impacket -hashes, or pth-winexe."
  "stable" "high"
  ["attack.t1550.002"; "attack.lateral_movement"; "attack.credential_access"]
  (one_of ["Authorised red-team / lateral-movement assessments"])
  [("product", "windows"); ("category", "process_creation")]
  [("mimikatz_pth", VMap
      [("CommandLine|contains", VStr "sekurlsa::pth")]);
   ("invoke_thehash", VMap
      [("CommandLine|contains", one_of
        ["Invoke-SMBExec"; "Invoke-WMIExec"; "Invoke-TheHash"; "Invoke-SMBClient"])]);
   ("cme_hash", VMap
      [("CommandLine|contains|all", one_of
        ["crackmapexec"; "-H "])]);
   ("cme_hash_shortform", VMap
      [("CommandLine|contains|all", one_of
        ["cme "; "-H "])]);
   ("netexec_hash", VMap
      [("CommandLine|contains|all", one_of
        ["nxc "; "-H "])]);
   ("impacket_hashes", VMap
      [("CommandLine|contains", VStr "-hashes ")]);
   ("pth_toolkit", VMap
      [("CommandLine|contains", one_of
        ["pth-winexe"; "pth-smbclient"])]);
   ("condition", VStr "mimikatz_pth or invoke_thehash or cme_hash or cme_hash_shortform or netexec_hash or impacket_hashes or pth_toolkit")].

Definition access_token_manipulation : sigmaYAMLDoc := mkYAMLDoc
  "Access Token Manipulation"
  "Detects token theft/impersonation tradecraft — Invoke-TokenManipulation, Meterpreter incognito/getsystem, runas /netonly, or direct token-duplication APIs — used to escalate or move laterally under another identity."
  "stable" "high"
  ["attack.t1134"; "attack.privilege_escalation"; "attack.defense_evasion"]
  (one_of ["Rare legitimate use of runas /netonly by administrators"])
  [("product", "windows"); ("category", "process_creation")]
  [("selection", VMap
      [("CommandLine|contains", one_of
        ["Invoke-TokenManipulation"; " incognito"; "runas /netonly"; "getsystem"; "steal_token";
         "make_token"; "ImpersonateLoggedOnUser"; "DuplicateTokenEx"])]);
   ("condition", VStr "selection")].

Definition sid_history_added_to_account_security_event_4765 : sigmaYAMLDoc := mkYAMLDoc
  "SID-History Added to Account (Security Event 4765/4766)"
  "Detects a SID being grafted onto an account's sIDHistory attribute, which grants that account the privileges of the added SID without any group membership change. Attackers use it to persist elevated or cross-domain access; the only routine source is a domain migration. Unlike the tooling rule for this technique it matches the result rather than the tool, so DCShadow and API-driven grafting are covered too."
  "stable" "high"
  ["attack.t1134.005"; "attack.privilege_escalation"; "attack.defense_evasion"]
  (one_of ["An Active Directory domain migration (ADMT) legitimately adding SID history to migrated accounts"])
  [("product", "windows"); ("service", "security")]
  [("selection", VMap
      [("EventID", one_of
        ["4765"; "4766"])]);
   ("condition", VStr "selection")].

Definition cryptocurrency_mining_resource_hijacking : sigmaYAMLDoc := mkYAMLDoc
  "Cryptocurrency Mining (Resource Hijacking)"
  "Detects coin-mining software or mining-pool connection patterns (stratum protocol, donate-level), a common monetisation impact technique."
  "stable" "high"
  ["attack.t1496"; "attack.impact"]
  (one_of ["Sanctioned mining on dedicated hardware"])
  [("product", "windows"); ("category", "process_creation")]
  [("tool", VMap
      [("Image|contains", one_of
        ["xmrig"; "minerd"; "cpuminer"; "xmr-stak"; "nbminer"; "phoenixminer"])]);
   ("cmd", VMap
      [("CommandLine|contains", one_of
        ["stratum+tcp"; "stratum+ssl"; "--donate-level"; "--cpu-priority"; "nicehash";
         "nanopool"])]);
   ("condition", VStr "tool or cmd")].

Definition disk_wipe_destruction : sigmaYAMLDoc := mkYAMLDoc
  "Disk Wipe / Destruction"
  "Detects destructive disk operations — Clear-Disk -RemoveData, raw physical-drive writes, diskpart clean, or multi-pass format — used to render systems unrecoverable."
  "stable" "high"
  ["attack.t1561"; "attack.impact"]
  (one_of ["Authorised disk provisioning or secure decommissioning"])
  [("product", "windows"); ("category", "process_creation")]
  [("clear", VMap
      [("CommandLine|contains", one_of
        ["Clear-Disk"; "\\.\PHYSICALDRIVE"])]);
   ("diskpart", VMap
      [("Image|contains", VStr "diskpart");
       ("CommandLine|contains", VStr "clean")]);
   ("format", VMap
      [("Image|contains", VStr "format.com");
       ("CommandLine|contains", VStr "/p:")]);
   ("condition", VStr "clear or diskpart or format")].

Definition account_access_removal : sigmaYAMLDoc := mkYAMLDoc
  "Account Access Removal"
  "Detects deletion or disabling of accounts (net user /delete, /active:no, Remove/Disable-AD/LocalUser) — used to lock legitimate users out during an impact phase."
  "stable" "high"
  ["attack.t1531"; "attack.impact"]
  (one_of ["Routine deprovisioning of departed users"])
  [("product", "windows"); ("category", "process_creation")]
  [("netuser", VMap
      [("Image|contains", one_of
        ["\net.exe"; "\net1.exe"]);
       ("CommandLine|contains|all", one_of
        ["user"; "/delete"])]);
   ("disable", VMap
      [("CommandLine|contains", one_of
        ["/active:no"; "Disable-ADAccount"; "Remove-ADUser"; "Remove-LocalUser"])]);
   ("condition", VStr "netuser or disable")].

Definition sudo_privilege_escalation_via_shell_escape : sigmaYAMLDoc := mkYAMLDoc
  "Sudo Privilege Escalation via Shell Escape (GTFOBins)"
  "Detects abuse of sudo-permitted binaries to spawn a privileged shell (GTFOBins) — editors, find -exec, interpreters, or a preserve-privilege shell — a common Linux privilege-escalation step."
  "stable" "high"
  ["attack.t1548.003"; "attack.privilege_escalation"; "attack.defense_evasion"]
  (one_of ["Rare legitimate administrative one-liners"])
  [("product", "linux"); ("category", "process_creation")]
  [("selection", VMap
      [("CommandLine|contains", one_of
        ["sudo vim -c"; "sudo vi -c"; "sudo nmap --interactive"; "sudo find / -exec";
         "sudo find . -exec"; "sudo awk 'BEGIN"; "sudo python -c"; "sudo perl -e"; "/bin/sh -p";
         "/bin/bash -p"; "sudo env "; "sudo gdb"; "sudo less "; "sudo more "; "sudo man ";
         "sudo ftp"; "sudo ed "; "sudo vim.tiny"; "--checkpoint-action=exec"])]);
   ("condition", VStr "selection")].

Definition clear_linux_command_history : sigmaYAMLDoc := mkYAMLDoc
  "Clear Linux Command History"
  "Detects clearing or disabling of shell command history (history -c, unset HISTFILE, redirecting ~/.bash_history to /dev/null) used to cover tracks."
  "stable" "medium"
  ["attack.t1070.003"; "attack.defense_evasion"]
  (one_of ["Rare; users seldom wipe history deliberately"])
  [("product", "linux"); ("category", "process_creation")]
  [("selection", VMap
      [("CommandLine|contains", one_of
        ["history -c"; "unset HISTFILE"; "HISTFILE=/dev/null"; "HISTSIZE=0";
         "rm ~/.bash_history"; "rm -f ~/.bash_history"; "ln -sf /dev/null ~/.bash_history";
         "truncate -s0 ~/.bash_history"])]);
   ("condition", VStr "selection")].

Definition linux_shadow_file_credential_dump : sigmaYAMLDoc := mkYAMLDoc
  "Linux Shadow File Credential Dump"
  "Detects reading/copying of /etc/shadow or combining passwd+shadow (unshadow) for offline password cracking."
  "stable" "high"
  ["attack.t1003.008"; "attack.credential_access"]
  (one_of ["Authorised account-management tooling"])
  [("product", "linux"); ("category", "process_creation")]
  [("selection", VMap
      [("CommandLine|contains", one_of
        ["cat /etc/shadow"; "cp /etc/shadow"; "/etc/shadow /tmp"; "unshadow"; "cat /etc/gshadow"])]);
   ("condition", VStr "selection")].

Definition linux_systemd_service_persistence : sigmaYAMLDoc := mkYAMLDoc
  "Linux systemd Service Persistence"
  "Detects systemd-based persistence — a transient unit via systemd-run, or writing a unit file into a systemd directory."
  "stable" "medium"
  ["attack.t1543.002"; "attack.persistence"; "attack.privilege_escalation"]
  (one_of ["Package installers writing systemd units"])
  [("product", "linux"); ("category", "process_creation")]
  [("systemdrun", VMap
      [("Image|contains", VStr "systemd-run")]);
   ("unitwrite", VMap
      [("Image|contains", one_of
        ["tee"; "cp"; "mv"]);
       ("CommandLine|contains", one_of
        ["/etc/systemd/system/"; "/.config/systemd/user/"; "/lib/systemd/system/"])]);
   ("condition", VStr "systemdrun or unitwrite")].

Definition linux_shell_init_persistence_bashrc_profile : sigmaYAMLDoc := mkYAMLDoc
  "Linux Shell Init Persistence (.bashrc / profile)"
  "Detects appending to shell init files (.bashrc/.bash_profile/.profile/profile.d/.zshrc) via tee, a common Linux persistence/triggered-execution mechanism."
  "stable" "medium"
  ["attack.t1546.004"; "attack.persistence"; "attack.privilege_escalation"]
  (one_of ["Legitimate provisioning scripts customising shells"])
  [("product", "linux"); ("category", "process_creation")]
  [("selection", VMap
      [("Image|contains", VStr "tee");
       ("CommandLine|contains", one_of
        [".bashrc"; ".bash_profile"; ".bash_login"; ".profile"; "/etc/profile.d/"; ".zshrc"])]);
   ("condition", VStr "selection")].

Definition container_escape_to_host : sigmaYAMLDoc := mkYAMLDoc
  "Container Escape to Host"
  "Detects container-breakout tradecraft — entering host namespaces via nsenter --target 1, a privileged container, host-root mounts, or accessing /proc/1/root."
  "stable" "high"
  ["attack.t1611"; "attack.privilege_escalation"]
  (one_of ["Legitimate privileged container operations by platform admins"])
  [("product", "linux"); ("category", "process_creation")]
  [("nsenter", VMap
      [("Image|contains", VStr "nsenter");
       ("CommandLine|contains", one_of
        ["--target 1"; "-t 1"])]);
   ("privileged", VMap
      [("CommandLine|contains", one_of
        ["--privileged"; "/proc/1/root"; "unshare -r"; "cap_sys_admin"])]);
   ("hostmount", VMap
      [("CommandLine|contains", one_of
        ["-v /:/"; "-v /:/host"])]);
   ("runc_escape", VMap
      [("CommandLine|contains", one_of
        ["/proc/self/exe"; "release_agent"; "docker.sock"])]);
   ("condition", VStr "nsenter or privileged or hostmount or runc_escape")].

Definition suid_or_capability_enumeration_linux : sigmaYAMLDoc := mkYAMLDoc
  "SUID or Capability Enumeration (Linux)"
  "Detects enumeration of setuid/setgid binaries or file capabilities (find -perm -4000, getcap -r), the standard reconnaissance before Linux privilege escalation."
  "stable" "medium"
  ["attack.t1548.001"; "attack.privilege_escalation"]
  (one_of ["Security auditing / hardening scans"])
  [("product", "linux"); ("category", "process_creation")]
  [("find_suid", VMap
      [("CommandLine|contains", one_of
        ["-perm -4000"; "-perm -2000"; "-perm -6000"; "-perm -u=s"; "-perm -g=s"; "-perm /4000";
         "-perm /6000"])]);
   ("getcap", VMap
      [("CommandLine|contains", one_of
        ["getcap -r"; "getcap -a"])]);
   ("condition", VStr "find_suid or getcap")].

Definition macos_dylib_injection_via_dyld_environment : sigmaYAMLDoc := mkYAMLDoc
  "macOS Dylib Injection via DYLD Environment Variable"
  "Detects use of DYLD_INSERT_LIBRARIES / DYLD_LIBRARY_PATH / DYLD_FRAMEWORK_PATH to force a process to load an attacker-controlled dynamic library."
  "stable" "high"
  ["attack.t1574.006"; "attack.privilege_escalation"; "attack.defense_evasion"]
  (one_of ["Some debugging/profiling tools set DYLD_INSERT_LIBRARIES (rare on a command line)"])
  [("product", "macos"); ("category", "process_creation")]
  [("selection", VMap
      [("CommandLine|contains", one_of
        ["DYLD_INSERT_LIBRARIES="; "DYLD_LIBRARY_PATH="; "DYLD_FRAMEWORK_PATH="])]);
   ("condition", VStr "selection")].

Definition linux_destructive_disk_file_wipe : sigmaYAMLDoc := mkYAMLDoc
  "Linux Destructive Disk/File Wipe"
  "Detects destructive operations — rm with --no-preserve-root or system directories, mkfs/shred/wipefs, or dd overwriting a block device."
  "stable" "high"
  ["attack.t1485"; "attack.impact"]
  (one_of ["Authorised disk provisioning / secure wipe"])
  [("product", "linux"); ("category", "process_creation")]
  [("rmroot", VMap
      [("CommandLine|contains", one_of
        ["--no-preserve-root"; "rm -rf /*"; "rm -rf /bin"; "rm -rf /etc"; "rm -rf /boot";
         "rm -rf /var"])]);
   ("tools", VMap
      [("Image|contains", one_of
        ["mkfs"; "shred"; "wipefs"])]);
   ("ddwipe", VMap
      [("Image|contains", VStr "dd");
       ("CommandLine|contains", VStr "of=/dev/")]);
   ("condition", VStr "rmroot or tools or ddwipe")].

Definition ssh_private_key_file_read : sigmaYAMLDoc := mkYAMLDoc
  "SSH Private Key File Read"
  "Detects a read of an SSH/PEM private key file (~/.ssh/id_rsa etc.), surfaced via file-access auditing — a credential-theft signal independent of the reading process's command line."
  "stable" "medium"
  ["attack.t1552.004"; "attack.credential_access"]
  (one_of ["ssh/scp legitimately using the key (correlate with destination)"])
  [("product", "linux"); ("category", "file_access")]
  [("selection", VMap
      [("TargetFilename|contains", one_of
        ["/.ssh/id_rsa"; "/.ssh/id_dsa"; "/.ssh/id_ecdsa"; "/.ssh/id_ed25519"])]);
   ("condition", VStr "selection")].

Definition ssh_private_key_access_linux : sigmaYAMLDoc := mkYAMLDoc
  "SSH Private Key Access (Linux)"
  "Detects reading or searching for SSH/PEM private keys (id_rsa/id_ed25519/*.pem) via cat/cp/scp/base64 or find, a credential-harvesting step."
  "stable" "medium"
  ["attack.t1552.004"; "attack.credential_access"]
  (one_of ["Backup or key-rotation automation"])
  [("product", "linux"); ("category", "process_creation")]
  [("reader", VMap
      [("Image|contains", one_of
        ["cat"; "cp"; "scp"; "base64"]);
       ("CommandLine|contains", one_of
        ["id_rsa"; "id_dsa"; "id_ed25519"; "/.ssh/id"])]);
   ("finder", VMap
      [("Image|contains", VStr "find");
       ("CommandLine|contains", one_of
        ["id_rsa"; ".pem"])]);
   ("condition", VStr "reader or finder")].

Definition malicious_applescript_execution_osascript : sigmaYAMLDoc := mkYAMLDoc
  "Malicious AppleScript Execution (osascript)"
  "Detects osascript invoking a shell, downloading, or decoding — AppleScript abuse for execution on macOS."
  "stable" "high"
  ["attack.t1059.002"; "attack.execution"]
  (one_of ["Legitimate automation using AppleScript"])
  [("product", "macos"); ("category", "process_creation")]
  [("selection", VMap
      [("Image|contains", VStr "osascript");
       ("CommandLine|contains", one_of
        ["do shell script"; "do JavaScript"; "curl"; "base64"])]);
   ("condition", VStr "selection")].

Definition macos_launch_agent_daemon_persistence : sigmaYAMLDoc := mkYAMLDoc
  "macOS Launch Agent/Daemon Persistence"
  "Detects persistence via launchd — loading/bootstrapping a service or writing a plist into a LaunchAgents/LaunchDaemons directory."
  "stable" "high"
  ["attack.t1543.001"; "attack.t1547.011"; "attack.persistence"]
  (one_of ["Installers registering legitimate launch services"])
  [("product", "macos"); ("category", "process_creation")]
  [("launchctl", VMap
      [("Image|contains", VStr "launchctl");
       ("CommandLine|contains", one_of
        ["LaunchDaemons"; "LaunchAgents"; "bootstrap"; "load -w"])]);
   ("plistwrite", VMap
      [("Image|contains", one_of
        ["tee"; "cp"; "mv"]);
       ("CommandLine|contains", one_of
        ["/Library/LaunchDaemons/"; "/Library/LaunchAgents/"])]);
   ("condition", VStr "launchctl or plistwrite")].

Definition macos_keychain_credential_access : sigmaYAMLDoc := mkYAMLDoc
  "macOS Keychain Credential Access"
  "Detects dumping or extracting credentials from the macOS keychain via the security tool."
  "stable" "high"
  ["attack.t1555.001"; "attack.credential_access"]
  (one_of ["Administrative credential retrieval"])
  [("product", "macos"); ("category", "process_creation")]
  [("selection", VMap
      [("Image|contains", VStr "security");
       ("CommandLine|contains", one_of
        ["dump-keychain"; "find-generic-password"; "find-internet-password"])]);
   ("condition", VStr "selection")].

Definition macos_gatekeeper_bypass : sigmaYAMLDoc := mkYAMLDoc
  "macOS Gatekeeper Bypass"
  "Detects disabling Gatekeeper (spctl --master-disable) or stripping the com.apple.quarantine attribute (xattr) to run unsigned/downloaded code."
  "stable" "high"
  ["attack.t1553.001"; "attack.defense_evasion"]
  (one_of ["Developers clearing quarantine on their own builds"])
  [("product", "macos"); ("category", "process_creation")]
  [("spctl", VMap
      [("Image|contains", VStr "spctl");
       ("CommandLine|contains", one_of
        ["--master-disable"; "--global-disable"])]);
   ("xattr", VMap
      [("Image|contains", VStr "xattr");
       ("CommandLine|contains", VStr "com.apple.quarantine")]);
   ("condition", VStr "spctl or xattr")].

Definition macos_login_item_persistence : sigmaYAMLDoc := mkYAMLDoc
  "macOS Login Item Persistence"
  "Detects creation of a Login Item via AppleScript (System Events make login item), a user-scope persistence mechanism."
  "stable" "medium"
  ["attack.t1547.015"; "attack.persistence"]
  (one_of ["Apps legitimately registering a login item"])
  [("product", "macos"); ("category", "process_creation")]
  [("selection", VMap
      [("Image|contains", VStr "osascript");
       ("CommandLine|contains", one_of
        ["login item"; "make login item"; "make new login item"])]);
   ("condition", VStr "selection")].

Definition macos_screen_capture_screencapture : sigmaYAMLDoc := mkYAMLDoc
  "macOS Screen Capture (screencapture)"
  "Detects use of the screencapture utility, especially silent (-x) captures, to collect visual data on macOS."
  "stable" "medium"
  ["attack.t1113"; "attack.collection"]
  (one_of ["Users taking screenshots via the command line"])
  [("product", "macos"); ("category", "process_creation")]
  [("selection", VMap
      [("Image|contains", VStr "screencapture")]);
   ("condition", VStr "selection")].

Definition bits_job_abuse_for_download_or_persistence : sigmaYAMLDoc := mkYAMLDoc
  "BITS Job Abuse for Download or Persistence"
  "Detects bitsadmin or PowerShell BITS transfers used to download payloads or persist as a stealthy living-off-the-land technique."
  "stable" "medium"
  ["attack.t1197"; "attack.defense_evasion"; "attack.persistence"]
  (one_of ["Legitimate software updaters that use BITS"])
  [("product", "windows"); ("category", "process_creation")]
  [("bitsadmin", VMap
      [("Image|endswith", VStr "\bitsadmin.exe");
       ("CommandLine|contains", one_of
        ["/transfer"; "/create"; "/addfile"; "/setnotifycmdline"])]);
   ("powershell_bits", VMap
      [("CommandLine|contains", one_of
        ["Start-BitsTransfer"; "Import-Module BitsTransfer"])]);
   ("condition", VStr "bitsadmin or powershell_bits")].

Definition accessibility_feature_backdoor_sticky_keys : sigmaYAMLDoc := mkYAMLDoc
  "Accessibility Feature Backdoor (Sticky Keys)"
  "Detects an accessibility binary (sethc/utilman/osk/magnify/narrator/displayswitch/atbroker) spawning a command shell — the classic pre-logon backdoor for code execution as SYSTEM."
  "stable" "high"
  ["attack.t1546.008"; "attack.privilege_escalation"; "attack.persistence"]
  (one_of ["Extremely rare; accessibility tools do not normally spawn shells"])
  [("product", "windows"); ("category", "process_creation")]
  [("selection", VMap
      [("ParentImage|endswith", one_of
        ["\sethc.exe"; "\utilman.exe"; "\osk.exe"; "\magnify.exe"; "\narrator.exe";
         "\displayswitch.exe"; "\atbroker.exe"]);
       ("Image|endswith", one_of
        ["\cmd.exe"; "\powershell.exe"; "\pwsh.exe"; "\cscript.exe"; "\wscript.exe"])]);
   ("condition", VStr "selection")].

Definition appinit_dlls_persistence : sigmaYAMLDoc := mkYAMLDoc
  "AppInit DLLs Persistence"
  "Detects setting the AppInit_DLLs or LoadAppInit_DLLs registry values, which force every user-mode process that loads user32.dll to also load an attacker DLL — a stealthy system-wide persistence and privilege-escalation foothold."
  "stable" "high"
  ["attack.t1546.001"; "attack.persistence"; "attack.privilege_escalation"]
  (one_of ["Rare legacy software that legitimately registers an AppInit DLL"])
  [("product", "windows"); ("category", "process_creation")]
  [("appinit", VMap
      [("CommandLine|contains", one_of
        ["AppInit_DLLs"; "LoadAppInit_DLLs"])]);
   ("condition", VStr "appinit")].

Definition logon_script_persistence_userinitmprlogonscript : sigmaYAMLDoc := mkYAMLDoc
  "Logon Script Persistence (UserInitMprLogonScript)"
  "Detects setting the UserInitMprLogonScript registry value under the user Environment key, which runs an attacker-specified script at every interactive logon — a classic user-scoped persistence mechanism."
  "stable" "high"
  ["attack.t1037.001"; "attack.persistence"; "attack.privilege_escalation"]
  (one_of ["Rare legitimate logon-script configuration by administrators"])
  [("product", "windows"); ("category", "process_creation")]
  [("logon_script", VMap
      [("CommandLine|contains", VStr "UserInitMprLogonScript")]);
   ("condition", VStr "logon_script")].

Definition winlogon_helper_persistence_shell_userinit : sigmaYAMLDoc := mkYAMLDoc
  "Winlogon Helper Persistence (Shell/Userinit)"
  "Detects modification of the Winlogon Shell, Userinit, or Notify registry values, used to persist and execute code at every interactive logon."
  "stable" "high"
  ["attack.t1547.004"; "attack.persistence"; "attack.privilege_escalation"]
  (one_of ["Rare legitimate shell/userinit replacement by management software"])
  [("product", "windows"); ("category", "registry_event")]
  [("selection", VMap
      [("TargetObject|contains", one_of
        ["\Microsoft\Windows NT\CurrentVersion\Winlogon\Shell";
         "\Microsoft\Windows NT\CurrentVersion\Winlogon\Userinit";
         "\Microsoft\Windows NT\CurrentVersion\Winlogon\Notify"])]);
   ("condition", VStr "selection")].

Definition security_software_discovery : sigmaYAMLDoc := mkYAMLDoc
  "Security Software Discovery"
  "Detects enumeration of installed security/EDR products via tasklist/wmic/sc/Get-Service filtered for AV vendor names — common attacker reconnaissance before defense evasion."
  "experimental" "medium"
  ["attack.t1518.001"; "attack.discovery"]
  (one_of ["IT inventory or monitoring scripts that enumerate security products"])
  [("product", "windows"); ("category", "process_creation")]
  [("tooling", VMap
      [("Image|endswith", one_of
        ["\tasklist.exe"; "\wmic.exe"; "\sc.exe"; "\powershell.exe"; "\pwsh.exe"; "\net.exe"])]);
   ("products", VMap
      [("CommandLine|contains", one_of
        ["windefend"; "mssense"; "msmpeng"; "sentinel"; "crowdstrike"; "csagent"; "carbonblack";
         "cylance"; "cybereason"; "sophos"; "sysmon"; "mcafee"; "symantec"; "trendmicro";
         "trend micro"; "eset"; "bitdefender"; "kaspersky"; "malwarebytes"; "fireeye";
         "forcepoint"; "tanium"; "huntress"; "cynet"])]);
   ("condition", VStr "tooling and products")].

Definition netsh_helper_dll_persistence : sigmaYAMLDoc := mkYAMLDoc
  "Netsh Helper DLL Persistence"
  "Detects registration of a netsh helper DLL (netsh add helper), which loads attacker code whenever netsh runs — a stealthy persistence and privilege-escalation technique."
  "stable" "high"
  ["attack.t1546.007"; "attack.persistence"; "attack.privilege_escalation"]
  (one_of ["Rare legitimate netsh helper installations by network software"])
  [("product", "windows"); ("category", "process_creation")]
  [("selection", VMap
      [("Image|endswith", VStr "\netsh.exe");
       ("CommandLine|contains|all", one_of
        ["add"; "helper"])]);
   ("condition", VStr "selection")].

Definition psexec_service_execution : sigmaYAMLDoc := mkYAMLDoc
  "PsExec Service Execution"
  "Detects PsExec remote execution via its service (PSEXESVC) or client, used for lateral movement and SYSTEM-level command execution."
  "stable" "medium"
  ["attack.t1569.002"; "attack.execution"; "attack.lateral_movement"]
  (one_of ["Legitimate administrative use of PsExec"])
  [("product", "windows"); ("category", "process_creation")]
  [("service", VMap
      [("Image|endswith", VStr "\PSEXESVC.exe")]);
   ("client", VMap
      [("Image|endswith", one_of
        ["\psexec.exe"; "\psexec64.exe"]);
       ("CommandLine|contains", VStr "accepteula")]);
   ("condition", VStr "service or client")].

Definition at_exe_legacy_job_scheduling : sigmaYAMLDoc := mkYAMLDoc
  "At.exe Legacy Job Scheduling"
  "Detects use of the legacy at.exe scheduler — uncommon on modern Windows and favored by attackers for persistence and lateral movement."
  "stable" "medium"
  ["attack.t1053.002"; "attack.execution"; "attack.persistence"]
  (one_of ["Legacy administration scripts still using at"])
  [("product", "windows"); ("category", "process_creation")]
  [("selection", VMap
      [("Image|endswith", VStr "\at.exe");
       ("CommandLine|contains", one_of
        [".exe"; ".bat"; "cmd"; "powershell"])]);
   ("condition", VStr "selection")].

Definition system_log_clearing_linux_macos : sigmaYAMLDoc := mkYAMLDoc
  "System Log Clearing (Linux/macOS)"
  "Detects deletion or truncation of system logs (rm/truncate of /var/log, journalctl vacuum, redirecting empty output into a log file) — anti-forensics to cover tracks."
  "stable" "high"
  ["attack.t1070.002"; "attack.defense_evasion"]
  (one_of ["Aggressive log-rotation or cleanup scripts (rare for direct rm of /var/log)"])
  [("product", "linux"); ("category", "process_creation")]
  [("rm_logs", VMap
      [("CommandLine|contains", one_of
        ["rm -rf /var/log"; "rm -f /var/log"; "rm /var/log"])]);
   ("truncate_logs", VMap
      [("CommandLine|contains", one_of
        ["truncate -s 0 /var/log"; "truncate -s0 /var/log"])]);
   ("journal", VMap
      [("CommandLine|contains", VStr "journalctl --vacuum")]);
   ("redirect", VMap
      [("CommandLine|contains", one_of
        ["> /var/log/"; ": > /var/log"])]);
   ("condition", VStr "rm_logs or truncate_logs or journal or redirect")].

Definition setuid_setgid_permission_modification_linux : sigmaYAMLDoc := mkYAMLDoc
  "Setuid/Setgid Permission Modification (Linux/macOS)"
  "Detects chmod setting the setuid or setgid bit on a file, a common privilege-escalation and persistence step that lets an attacker run code with elevated rights."
  "experimental" "medium"
  ["attack.t1222.002"; "attack.defense_evasion"; "attack.privilege_escalation"]
  (one_of ["Package or build scripts setting setuid on legitimate binaries (e.g. ping, sudo)"])
  [("product", "linux"); ("category", "process_creation")]
  [("selection", VMap
      [("Image|endswith", VStr "/chmod");
       ("CommandLine|contains", one_of
        [" u+s"; " g+s"; " +s"; " 4755"; " 4777"; " 2755"; " 6755"])]);
   ("condition", VStr "selection")].

Definition office_application_spawning_a_script_interpreter : sigmaYAMLDoc := mkYAMLDoc
  "Office Application Spawning a Script Interpreter"
  "Detects a Microsoft Office application (Word/Excel/PowerPoint/Outlook/Publisher) launching a command shell or script interpreter — the hallmark of malicious macro or document execution."
  "stable" "high"
  ["attack.t1204.002"; "attack.execution"]
  (one_of ["Rare legitimate Office add-ins that shell out"])
  [("product", "windows"); ("category", "process_creation")]
  [("selection", VMap
      [("ParentImage|endswith", one_of
        ["\winword.exe"; "\excel.exe"; "\powerpnt.exe"; "\outlook.exe"; "\mspub.exe";
         "\visio.exe"; "\onenote.exe"]);
       ("Image|endswith", one_of
        ["\cmd.exe"; "\powershell.exe"; "\pwsh.exe"; "\wscript.exe"; "\cscript.exe";
         "\mshta.exe"; "\rundll32.exe"; "\regsvr32.exe"; "\bitsadmin.exe"; "\certutil.exe"])]);
   ("condition", VStr "selection")].

Definition kernel_module_loading_linux : sigmaYAMLDoc := mkYAMLDoc
  "Kernel Module Loading (Linux)"
  "Detects loading a kernel module via insmod/modprobe, especially from a user-writable path — used to install rootkits and kernel-level persistence."
  "stable" "high"
  ["attack.t1547.006"; "attack.persistence"; "attack.privilege_escalation"]
  (one_of ["Legitimate driver/module installation by package managers or administrators"])
  [("product", "linux"); ("category", "process_creation")]
  [("insmod", VMap
      [("Image|endswith", VStr "/insmod")]);
   ("suspicious_path", VMap
      [("CommandLine|contains", one_of
        ["insmod /tmp/"; "insmod /dev/shm/"; "insmod /var/tmp/"; "modprobe ./"])]);
   ("condition", VStr "insmod or suspicious_path")].

Definition privileged_or_host_escape_container_deployment : sigmaYAMLDoc := mkYAMLDoc
  "Privileged or Host-Escape Container Deployment"
  "Detects launching a container with host-escape options (--privileged, host PID/network namespace, mounting the host root, or the docker socket) — a common container breakout and host-compromise setup."
  "stable" "high"
  ["attack.t1610"; "attack.execution"; "attack.privilege_escalation"]
  (one_of ["Legitimate privileged containers (CI runners, monitoring/security agents)"])
  [("product", "linux"); ("category", "process_creation")]
  [("runner", VMap
      [("Image|endswith", one_of
        ["/docker"; "/podman"; "/nerdctl"]);
       ("CommandLine|contains", VStr " run ")]);
   ("danger", VMap
      [("CommandLine|contains", one_of
        ["--privileged"; "--pid=host"; "--net=host"; "-v /:/"; "--volume=/:/";
         "/var/run/docker.sock"])]);
   ("condition", VStr "runner and danger")].

Definition container_administration_command_execution : sigmaYAMLDoc := mkYAMLDoc
  "Container Administration Command Execution"
  "Detects entering a running container via kubectl/docker/podman exec — used to run commands inside containers, including by attackers who have compromised the orchestration plane."
  "experimental" "medium"
  ["attack.t1609"; "attack.execution"]
  (one_of ["Legitimate operator or CI access into containers"])
  [("product", "linux"); ("category", "process_creation")]
  [("selection", VMap
      [("Image|endswith", one_of
        ["/kubectl"; "/docker"; "/podman"]);
       ("CommandLine|contains", VStr " exec ")]);
   ("cmdline_only", VMap
      [("CommandLine|contains|all", one_of [" exec "]);
       ("CommandLine|contains", one_of
        ["kubectl"; "docker"; "podman"; "crictl"])]);
   ("condition", VStr "selection or cmdline_only")].

Definition builtins2 : list sigmaYAMLDoc :=
  [dynamic_linker_hijacking_via_ld_preload_ld; msbuild_proxy_execution;
   registry_run_key_persistence_to_suspicious; image_file_execution_options_debugger;
   windows_defender_tampering_via_registry; web_server_spawning_command_shell_web_shell;
   hidden_file_or_directory_via_attrib; broad_file_permission_change_via_icacls_takeown;
   domain_account_creation_via_net_exe; dcsync_credential_replication;
   windows_credential_manager_access; rdp_enabled_or_session_hijack;
   winrm_lateral_movement_winrs_powershell_remoting; ad_cs_certificate_abuse;
   authentication_coercion; kerberos_brute_force_and_user_enumeration;
   internal_proxy_via_netsh_portproxy; regsvcs_regasm_proxy_execution;
   root_certificate_installation_via_certutil; xsl_script_processing_proxy_execution;
   clipboard_data_collection; screen_capture_via_copyfromscreen_screenshot;
   keylogging_via_windows_hook_async_key_state; email_collection_via_mailbox_export;
   email_forwarding_rule; office_application_startup_persistence; control_panel_item_execution;
   lsa_secrets_dump; cached_domain_credentials_dump; private_key_harvesting;
   llmnr_nbt_ns_poisoning_tool_responder_inveigh_2; group_policy_preferences_password_retrieval;
   system_process_name_from_non_standard_path; hidden_window_execution;
   ntfs_alternate_data_stream_manipulation; timestomping_file_time_modification;
   windows_event_logging_disabled; ssh_lateral_movement_with_inline_credentials;
   dcom_lateral_movement; pass_the_ticket_kerberos_ticket_injection;
   golden_or_silver_ticket_forging; pass_the_hash; access_token_manipulation;
   sid_history_added_to_account_security_event_4765; cryptocurrency_mining_resource_hijacking;
   disk_wipe_destruction; account_access_removal; sudo_privilege_escalation_via_shell_escape;
   clear_linux_command_history; linux_shadow_file_credential_dump;
   linux_systemd_service_persistence; linux_shell_init_persistence_bashrc_profile;
   container_escape_to_host; suid_or_capability_enumeration_linux;
   macos_dylib_injection_via_dyld_environment; linux_destructive_disk_file_wipe;
   ssh_private_key_file_read; ssh_private_key_access_linux;
   malicious_applescript_execution_osascript; macos_launch_agent_daemon_persistence;
   macos_keychain_credential_access; macos_gatekeeper_bypass; macos_login_item_persistence;
   macos_screen_capture_screencapture; bits_job_abuse_for_download_or_persistence;
   accessibility_feature_backdoor_sticky_keys; appinit_dlls_persistence;
   logon_script_persistence_userinitmprlogonscript; winlogon_helper_persistence_shell_userinit;
   security_software_discovery; netsh_helper_dll_persistence; psexec_service_execution;
   at_exe_legacy_job_scheduling; system_log_clearing_linux_macos;
   setuid_setgid_permission_modification_linux;
   office_application_spawning_a_script_interpreter; kernel_module_loading_linux;
   privileged_or_host_escape_container_deployment; container_administration_command_execution].

(** For each of them an event it is meant to catch. *)
Definition caught2 : list event :=
  [[("type", VStr "process"); ("environment", VStr "LD_PRELOAD= /tmp/")];
   [("type", VStr "process"); ("Image", VStr "msbuild")];
   [("type", VStr "registry"); ("TargetObject", VStr "CurrentVersion\Run");
    ("Details", VStr "\AppData\")];
   [("type", VStr "process"); ("Image", VStr "reg");
    ("CommandLine", VStr "Image File Execution Options Debugger")];
   [("type", VStr "process"); ("Image", VStr "reg");
    ("CommandLine", VStr "Windows Defender DisableAntiSpyware")];
   [("type", VStr "process"); ("ParentImage", VStr "w3wp.exe"); ("Image", VStr "cmd.exe")];
   [("type", VStr "process"); ("Image", VStr "attrib"); ("CommandLine", VStr "+h +s")];
   [("type", VStr "process"); ("Image", VStr "icacls"); ("CommandLine", VStr "/grant Everyone")];
   [("type", VStr "process"); ("Image", VStr "\net.exe");
    ("CommandLine", VStr "user /add /domain")];
   [("type", VStr "process"); ("CommandLine", VStr "lsadump::dcsync")];
   [("type", VStr "process"); ("Image", VStr "cmdkey"); ("CommandLine", VStr "/list")];
   [("type", VStr "process"); ("Image", VStr "reg");
    ("CommandLine", VStr "fDenyTSConnections /d 0")];
   [("type", VStr "process"); ("Image", VStr "winrs")];
   [("type", VStr "process"); ("CommandLine", VStr "certipy")];
   [("type", VStr "process"); ("CommandLine", VStr "PetitPotam")];
   [("type", VStr "process"); ("CommandLine", VStr "kerbrute")];
   [("type", VStr "process"); ("Image", VStr "netsh"); ("CommandLine", VStr "portproxy add")];
   [("type", VStr "process"); ("Image", VStr "regsvcs.exe")];
   [("type", VStr "process"); ("Image", VStr "certutil"); ("CommandLine", VStr "-addstore root")];
   [("type", VStr "process"); ("Image", VStr "msxsl")];
   [("type", VStr "process"); ("CommandLine", VStr "Get-Clipboard")];
   [("type", VStr "process"); ("CommandLine", VStr "CopyFromScreen")];
   [("type", VStr "process"); ("CommandLine", VStr "GetAsyncKeyState")];
   [("type", VStr "process"); ("CommandLine", VStr "New-MailboxExportRequest")];
   [("type", VStr "process"); ("CommandLine", VStr "New-InboxRule -ForwardTo")];
   [("type", VStr "process"); ("CommandLine", VStr "\Excel\XLSTART")];
   [("type", VStr "process"); ("CommandLine", VStr "control .cpl")];
   [("type", VStr "process"); ("Image", VStr "reg"); ("CommandLine", VStr "save hklm\security")];
   [("type", VStr "process"); ("CommandLine", VStr "lsadump::cache")];
   [("type", VStr "process"); ("CommandLine", VStr "dir /s id_rsa")];
   [("type", VStr "process"); ("CommandLine", VStr "Invoke-Inveigh")];
   [("type", VStr "process"); ("CommandLine", VStr "cpassword")];
   [("type", VStr "process"); ("Image", VStr ":\\svchost.exe")];
   [("type", VStr "process"); ("CommandLine", VStr "-windowstyle hidden")];
   [("type", VStr "process"); ("CommandLine", VStr " -Stream ")];
   [("type", VStr "process"); ("Image", VStr "timestomp")];
   [("type", VStr "process"); ("Image", VStr "auditpol");
    ("CommandLine", VStr "/success:disable")];
   [("type", VStr "process"); ("Image", VStr "plink"); ("CommandLine", VStr " -pw ")];
   [("type", VStr "process"); ("CommandLine", VStr "MMC20.Application")];
   [("type", VStr "process"); ("CommandLine", VStr "kerberos::ptt")];
   [("type", VStr "process"); ("CommandLine", VStr "rubeus golden")];
   [("type", VStr "process"); ("CommandLine", VStr "sekurlsa::pth")];
   [("type", VStr "process"); ("CommandLine", VStr "Invoke-TokenManipulation")];
   [("EventID", VStr "4765")];
   [("type", VStr "process"); ("Image", VStr "xmrig")];
   [("type", VStr "process"); ("CommandLine", VStr "Clear-Disk")];
   [("type", VStr "process"); ("Image", VStr "\net.exe"); ("CommandLine", VStr "user /delete")];
   [("type", VStr "process"); ("CommandLine", VStr "sudo vim -c")];
   [("type", VStr "process"); ("CommandLine", VStr "history -c")];
   [("type", VStr "process"); ("CommandLine", VStr "cat /etc/shadow")];
   [("type", VStr "process"); ("Image", VStr "systemd-run")];
   [("type", VStr "process"); ("Image", VStr "tee"); ("CommandLine", VStr ".bashrc")];
   [("type", VStr "process"); ("Image", VStr "nsenter"); ("CommandLine", VStr "--target 1")];
   [("type", VStr "process"); ("CommandLine", VStr "-perm -4000")];
   [("type", VStr "process"); ("CommandLine", VStr "DYLD_INSERT_LIBRARIES=")];
   [("type", VStr "process"); ("CommandLine", VStr "--no-preserve-root")];
   [("type", VStr "file"); ("TargetFilename", VStr "/.ssh/id_rsa")];
   [("type", VStr "process"); ("Image", VStr "cat"); ("CommandLine", VStr "id_rsa")];
   [("type", VStr "process"); ("Image", VStr "osascript");
    ("CommandLine", VStr "do shell script")];
   [("type", VStr "process"); ("Image", VStr "launchctl"); ("CommandLine", VStr "LaunchDaemons")];
   [("type", VStr "process"); ("Image", VStr "security"); ("CommandLine", VStr "dump-keychain")];
   [("type", VStr "process"); ("Image", VStr "spctl"); ("CommandLine", VStr "--master-disable")];
   [("type", VStr "process"); ("Image", VStr "osascript"); ("CommandLine", VStr "login item")];
   [("type", VStr "process"); ("Image", VStr "screencapture")];
   [("type", VStr "process"); ("Image", VStr "\bitsadmin.exe");
    ("CommandLine", VStr "/transfer")];
   [("type", VStr "process"); ("ParentImage", VStr "\sethc.exe"); ("Image", VStr "\cmd.exe")];
   [("type", VStr "process"); ("CommandLine", VStr "AppInit_DLLs")];
   [("type", VStr "process"); ("CommandLine", VStr "UserInitMprLogonScript")];
   [("type", VStr "registry");
    ("TargetObject", VStr "\Microsoft\Windows NT\CurrentVersion\Winlogon\Shell")];
   [("type", VStr "process"); ("Image", VStr "\tasklist.exe"); ("CommandLine", VStr "windefend")];
   [("type", VStr "process"); ("Image", VStr "\netsh.exe"); ("CommandLine", VStr "add helper")];
   [("type", VStr "process"); ("Image", VStr "\PSEXESVC.exe")];
   [("type", VStr "process"); ("Image", VStr "\at.exe"); ("CommandLine", VStr ".exe")];
   [("type", VStr "process"); ("CommandLine", VStr "rm -rf /var/log")];
   [("type", VStr "process"); ("Image", VStr "/chmod"); ("CommandLine", VStr " u+s")];
   [("type", VStr "process"); ("ParentImage", VStr "\winword.exe"); ("Image", VStr "\cmd.exe")];
   [("type", VStr "process"); ("Image", VStr "/insmod")];
   [("type", VStr "process"); ("Image", VStr "/docker");
    ("CommandLine", VStr " run  --privileged")];
   [("type", VStr "process"); ("Image", VStr "/kubectl"); ("CommandLine", VStr " exec ")]].
