(* ===== verification/Builtins3.v ===== *)
(** * Built-in Sigma rules 159 to 237

    The literals 159 to 237 of [builtinSigmaRules] in
    [server/internal/detection/sigma_builtins.go], each as the document
    [yaml.Unmarshal] makes of it: comments are gone, scalars are strings unless
    they read as a number, the keys keep their order. *)

From Stdlib Require Import Ascii.
From S2P Require Import Prelude GoStrings Event Base64 Sigma.
From S2P Require Import Builtins1.

#[local] Open Scope string_scope.
#[local] Open Scope list_scope.
#[local] Open Scope Z_scope.

Definition container_image_build_on_host : sigmaYAMLDoc := mkYAMLDoc
  "Container Image Build on Host"
  "Detects building a container image directly on a host (docker/podman/nerdctl build, buildah bud/build, kaniko executor, or img build). Adversaries build malicious images locally to bypass registry-side image scanning and admission controls before deploying them."
  "stable" "medium"
  ["attack.t1612"; "attack.defense_evasion"]
  (one_of ["Legitimate CI/CD image builds on build agents"])
  [("product", "linux"); ("category", "process_creation")]
  [("build_cli", VMap
      [("Image|endswith", one_of
        ["/docker"; "/podman"; "/nerdctl"]);
       ("CommandLine|contains", VStr " build")]);
   ("buildah", VMap
      [("CommandLine|contains", one_of
        ["buildah bud"; "buildah build"])]);
   ("kaniko", VMap
      [("CommandLine|contains", one_of
        ["/kaniko/executor"; "kaniko-project"])]);
   ("img_build", VMap
      [("Image|endswith", VStr "/img");
       ("CommandLine|contains", VStr " build")]);
   ("cmdline_only", VMap
      [("CommandLine|contains|all", one_of [" build"]);
       ("CommandLine|contains", one_of
        ["docker"; "podman"; "nerdctl"])]);
   ("condition", VStr "build_cli or buildah or kaniko or img_build or cmdline_only")].

Definition process_memory_credential_access_via_proc_linux : sigmaYAMLDoc := mkYAMLDoc
  "Process Memory Credential Access via /proc (Linux)"
  "Detects reading another process's memory through the proc filesystem (/proc/<pid>/mem or maps) with dd/cat/gdb/gcore — used to scrape credentials from memory (e.g. sshd, gnome-keyring)."
  "stable" "high"
  ["attack.t1003.007"; "attack.credential_access"]
  (one_of ["Debugging or memory-forensics tooling"])
  [("product", "linux"); ("category", "process_creation")]
  [("reader", VMap
      [("Image|endswith", one_of
        ["/dd"; "/cat"; "/gdb"; "/gcore"])]);
   ("proc_mem", VMap
      [("CommandLine|contains", VStr "/proc/")]);
   ("region", VMap
      [("CommandLine|contains", one_of
        ["/mem"; "/maps"])]);
   ("condition", VStr "reader and proc_mem and region")].

Definition tor_anonymity_client_execution : sigmaYAMLDoc := mkYAMLDoc
  "Tor Anonymity Client Execution"
  "Detects execution of the Tor client or references to .onion services — used for anonymized C2 and exfiltration, and rarely legitimate on managed endpoints."
  "stable" "medium"
  ["attack.t1090.003"; "attack.command_and_control"]
  (one_of ["Privacy-conscious users intentionally running Tor"])
  [("product", "windows"); ("category", "process_creation")]
  [("tor_binary", VMap
      [("Image|endswith", one_of
        ["\tor.exe"; "\tor-browser.exe"; "/tor"])]);
   ("onion", VMap
      [("CommandLine|contains", VStr ".onion")]);
   ("condition", VStr "tor_binary or onion")].

Definition browser_cookie_or_login_database_access : sigmaYAMLDoc := mkYAMLDoc
  "Browser Cookie or Login Database Access"
  "Detects a process copying or reading a browser cookie/credential database (Chrome/Edge Network Cookies and Login Data, Firefox cookies.sqlite/logins.json), used to steal session tokens and saved passwords."
  "experimental" "high"
  ["attack.t1539"; "attack.credential_access"]
  (one_of ["Backup software touching browser profiles"])
  [("product", "windows"); ("category", "process_creation")]
  [("store", VMap
      [("CommandLine|contains", one_of
        ["\Network\Cookies"; "Login Data"; "cookies.sqlite"; "logins.json"])]);
   ("tool", VMap
      [("Image|endswith", one_of
        ["\cmd.exe"; "\powershell.exe"; "\pwsh.exe"; "\xcopy.exe"; "\robocopy.exe";
         "\esentutl.exe"; "\sqlite3.exe"; "/cat"; "/cp"; "/sqlite3"])]);
   ("condition", VStr "store and tool")].

Definition rc_script_persistence_linux : sigmaYAMLDoc := mkYAMLDoc
  "RC Script Persistence (Linux)"
  "Detects modification of init/RC startup scripts (/etc/rc.local, /etc/init.d, /etc/rc.d) to run code at boot — a classic Linux persistence mechanism."
  "stable" "high"
  ["attack.t1037.004"; "attack.persistence"; "attack.privilege_escalation"]
  (one_of ["Administrators legitimately editing boot scripts"])
  [("product", "linux"); ("category", "process_creation")]
  [("write", VMap
      [("CommandLine|contains", one_of
        ["> /etc/rc.local"; ">> /etc/rc.local"; "tee /etc/rc.local"; "tee -a /etc/rc.local"])]);
   ("edit", VMap
      [("Image|endswith", one_of
        ["/vi"; "/vim"; "/nano"]);
       ("CommandLine|contains", VStr "/etc/rc.local")]);
   ("initd", VMap
      [("CommandLine|contains", one_of
        ["> /etc/init.d/"; "tee /etc/init.d/"])]);
   ("condition", VStr "write or edit or initd")].

Definition systemd_timer_persistence_linux : sigmaYAMLDoc := mkYAMLDoc
  "Systemd Timer Persistence (Linux)"
  "Detects creating or enabling a systemd timer unit, which can schedule attacker code to run repeatedly — a stealthier alternative to cron for persistence."
  "experimental" "medium"
  ["attack.t1053.006"; "attack.persistence"; "attack.privilege_escalation"]
  (one_of ["Legitimate software installing systemd timers"])
  [("product", "linux"); ("category", "process_creation")]
  [("systemctl_timer", VMap
      [("Image|endswith", VStr "/systemctl");
       ("CommandLine|contains", VStr ".timer")]);
   ("write_timer", VMap
      [("CommandLine|contains|all", one_of
        [".timer"; "/systemd/system/"])]);
   ("condition", VStr "systemctl_timer or write_timer")].

Definition startup_folder_persistence : sigmaYAMLDoc := mkYAMLDoc
  "Startup Folder Persistence"
  "Detects a process dropping a file (shortcut, script, or executable) into a user or common Startup folder, which runs automatically at logon — a simple, common persistence technique."
  "stable" "medium"
  ["attack.t1547.009"; "attack.persistence"]
  (one_of ["Legitimate installers that add startup shortcuts"])
  [("product", "windows"); ("category", "process_creation")]
  [("startup", VMap
      [("CommandLine|contains", VStr "\Start Menu\Programs\Startup")]);
   ("writers", VMap
      [("Image|endswith", one_of
        ["\cmd.exe"; "\powershell.exe"; "\pwsh.exe"; "\xcopy.exe"; "\robocopy.exe";
         "\certutil.exe"; "\cscript.exe"; "\wscript.exe"])]);
   ("condition", VStr "startup and writers")].

Definition verclsid_com_object_proxy_execution : sigmaYAMLDoc := mkYAMLDoc
  "Verclsid COM Object Proxy Execution"
  "Detects verclsid.exe invoked with /S /C to validate (and thereby execute) a COM/shell object — a signed LOLBin used to proxy execution and bypass application control."
  "stable" "high"
  ["attack.t1218.012"; "attack.defense_evasion"]
  (one_of ["Rare legitimate shell extension validation"])
  [("product", "windows"); ("category", "process_creation")]
  [("selection", VMap
      [("Image|endswith", VStr "\verclsid.exe");
       ("CommandLine|contains|all", one_of
        ["/S"; "/C"])]);
   ("condition", VStr "selection")].

Definition registry_credential_hunting : sigmaYAMLDoc := mkYAMLDoc
  "Registry Credential Hunting"
  "Detects reg.exe or PowerShell searching the registry for stored passwords or credentials (reg query ... /f password /s), a common post-exploitation credential-access step."
  "stable" "medium"
  ["attack.t1552.002"; "attack.credential_access"]
  (one_of ["Administrators auditing for plaintext passwords in the registry"])
  [("product", "windows"); ("category", "process_creation")]
  [("reg_search", VMap
      [("Image|endswith", VStr "\reg.exe");
       ("CommandLine|contains|all", one_of
        ["query"; "/f"]);
       ("CommandLine|contains", one_of
        ["password"; "passwd"; "pwd"; "credential"])]);
   ("ps_search", VMap
      [("CommandLine|contains|all", one_of
        ["Get-ItemProperty"; "password"])]);
   ("condition", VStr "reg_search or ps_search")].

Definition compile_after_delivery : sigmaYAMLDoc := mkYAMLDoc
  "Compile After Delivery"
  "Detects on-host compilation of source by gcc/cc/clang/csc/cl from a temporary or world-writable directory — used to build payloads on the victim to evade signature-based detection."
  "experimental" "medium"
  ["attack.t1027.004"; "attack.defense_evasion"]
  (one_of ["Build systems that compile in temporary directories"])
  [("product", "linux"); ("category", "process_creation")]
  [("compiler", VMap
      [("Image|endswith", one_of
        ["/gcc"; "/cc"; "/g++"; "/clang"; "\csc.exe"; "\cl.exe"])]);
   ("temp_src", VMap
      [("CommandLine|contains", one_of
        ["/tmp/"; "/dev/shm/"; "/var/tmp/"; "\AppData\Local\Temp"; "\Windows\Temp"])]);
   ("condition", VStr "compiler and temp_src")].

Definition powershell_profile_persistence : sigmaYAMLDoc := mkYAMLDoc
  "PowerShell Profile Persistence"
  "Detects writing to a PowerShell profile script (profile.ps1 / Microsoft.PowerShell_profile.ps1), which runs every time PowerShell starts — a stealthy persistence and code-injection vector."
  "stable" "high"
  ["attack.t1546.013"; "attack.persistence"; "attack.privilege_escalation"]
  (one_of ["Users or tooling customizing their PowerShell profile"])
  [("product", "windows"); ("category", "process_creation")]
  [("profile", VMap
      [("CommandLine|contains", one_of
        ["profile.ps1"; "Microsoft.PowerShell_profile.ps1"])]);
   ("write", VMap
      [("CommandLine|contains", one_of
        ["Add-Content"; "Set-Content"; "Out-File"; ">>"; " > "; "echo"; "copy"])]);
   ("condition", VStr "profile and write")].

Definition suspicious_python_one_liner_execution : sigmaYAMLDoc := mkYAMLDoc
  "Suspicious Python One-Liner Execution"
  "Detects python -c one-liners performing risky operations (decode+exec, raw socket C2, os.system shelling, pty spawning) — common in cross-platform malware loaders and reverse shells."
  "experimental" "medium"
  ["attack.t1059.006"; "attack.execution"]
  (one_of ["Developer or automation one-liners that use these constructs"])
  [("product", "linux"); ("category", "process_creation")]
  [("python", VMap
      [("Image|endswith", one_of
        ["/python"; "/python2"; "/python3"; "\python.exe"]);
       ("CommandLine|contains", VStr " -c ")]);
   ("risky", VMap
      [("CommandLine|contains", one_of
        ["base64"; "exec("; "eval("; "socket.socket"; "os.system"; "pty.spawn"; "__import__"])]);
   ("condition", VStr "python and risky")].

Definition ssh_authorized_keys_modification : sigmaYAMLDoc := mkYAMLDoc
  "SSH Authorized Keys Modification"
  "Detects appending to or editing an authorized_keys file, a very common Linux/macOS persistence and backdoor technique that grants an attacker passwordless SSH access."
  "stable" "high"
  ["attack.t1098.004"; "attack.persistence"]
  (one_of ["Configuration management (Ansible/Puppet) deploying SSH keys"])
  [("product", "linux"); ("category", "process_creation")]
  [("authkeys", VMap
      [("CommandLine|contains", VStr "authorized_keys")]);
   ("redirect", VMap
      [("CommandLine|contains", one_of
        [">>"; " > "; "tee"; "echo"; "curl"; "wget"])]);
   ("editors", VMap
      [("Image|endswith", one_of
        ["/tee"; "/vi"; "/vim"; "/nano"]);
       ("CommandLine|contains", VStr "authorized_keys")]);
   ("condition", VStr "(authkeys and redirect) or editors")].

Definition pam_configuration_or_module_tampering : sigmaYAMLDoc := mkYAMLDoc
  "PAM Configuration or Module Tampering"
  "Detects modification of PAM configuration (/etc/pam.d) or PAM shared modules (pam_*.so), used to backdoor authentication or silently capture credentials."
  "stable" "high"
  ["attack.t1556.003"; "attack.credential_access"; "attack.persistence"; "attack.defense_evasion"]
  (one_of ["Legitimate PAM configuration by administrators or package managers"])
  [("product", "linux"); ("category", "process_creation")]
  [("pam_target", VMap
      [("CommandLine|contains", one_of
        ["/etc/pam.d/"; "/lib/security/pam_"; "/lib64/security/pam_"; "pam_unix.so"])]);
   ("modify", VMap
      [("Image|endswith", one_of
        ["/tee"; "/vi"; "/vim"; "/nano"; "/sed"; "/cp"; "/mv"; "/dd"])]);
   ("redirect", VMap
      [("CommandLine|contains", one_of
        [">>"; " > "])]);
   ("condition", VStr "pam_target and (modify or redirect)")].

Definition macos_login_or_logout_hook_persistence : sigmaYAMLDoc := mkYAMLDoc
  "macOS Login or Logout Hook Persistence"
  "Detects setting a LoginHook or LogoutHook via defaults write com.apple.loginwindow — a script that runs at login/logout, used for persistence."
  "stable" "high"
  ["attack.t1037.002"; "attack.persistence"; "attack.privilege_escalation"]
  (one_of ["Rare legitimate login hooks (deprecated by Apple)"])
  [("product", "macos"); ("category", "process_creation")]
  [("selection", VMap
      [("Image|endswith", VStr "/defaults");
       ("CommandLine|contains", VStr "com.apple.loginwindow")]);
   ("hook", VMap
      [("CommandLine|contains", one_of
        ["LoginHook"; "LogoutHook"])]);
   ("condition", VStr "selection and hook")].

Definition applescript_elevated_execution_prompt : sigmaYAMLDoc := mkYAMLDoc
  "AppleScript Elevated Execution Prompt"
  ("Detects osascript running " +:+ dquote +:+ "do shell script ... with administrator privileges" +:+ dquote +:+ ", which raises a credential prompt to execute a command as root — used for privilege escalation and credential phishing.")
  "stable" "high"
  ["attack.t1548.004"; "attack.privilege_escalation"]
  (one_of ["Legitimate installers requesting elevation via AppleScript"])
  [("product", "macos"); ("category", "process_creation")]
  [("selection", VMap
      [("Image|endswith", VStr "/osascript");
       ("CommandLine|contains", VStr "administrator privileges")]);
   ("shell", VMap
      [("CommandLine|contains", VStr "do shell script")]);
   ("condition", VStr "selection and shell")].

Definition macos_hidden_account_creation_via_dscl : sigmaYAMLDoc := mkYAMLDoc
  "macOS Hidden Account Creation via dscl"
  "Detects creating a local account hidden from the login window using dscl with IsHidden or an empty home directory — used to maintain stealthy persistence."
  "experimental" "medium"
  ["attack.t1564.002"; "attack.persistence"; "attack.defense_evasion"]
  (one_of ["Legitimate hidden service-account creation"])
  [("product", "macos"); ("category", "process_creation")]
  [("dscl", VMap
      [("Image|endswith", VStr "/dscl");
       ("CommandLine|contains", VStr "create")]);
   ("hidden", VMap
      [("CommandLine|contains", one_of
        ["IsHidden"; "/var/empty"])]);
   ("condition", VStr "dscl and hidden")].

Definition com_object_hijacking_via_suspicious_server_path : sigmaYAMLDoc := mkYAMLDoc
  "COM Object Hijacking via Suspicious Server Path"
  "Detects a COM server registration (CLSID InprocServer32/LocalServer32) whose DLL/EXE path points to a user-writable location — the hallmark of COM hijacking for stealthy persistence and defense evasion. Requires the COM registry telemetry enabled in the registry ETW collector."
  "experimental" "high"
  ["attack.t1546.015"; "attack.persistence"; "attack.privilege_escalation"; "attack.defense_evasion"]
  (one_of ["Portable applications registering COM servers from user directories"])
  [("product", "windows"); ("category", "registry_event")]
  [("com_server", VMap
      [("TargetObject|contains", one_of
        ["\InprocServer32"; "\LocalServer32"])]);
   ("suspicious_path", VMap
      [("Details|contains", one_of
        ["\AppData\"; "\Temp\"; "\Users\Public\"; "\Downloads\"; "\ProgramData\"])]);
   ("condition", VStr "com_server and suspicious_path")].

Definition lsa_authentication_package_or_password_filter : sigmaYAMLDoc := mkYAMLDoc
  "LSA Authentication Package or Password Filter Registration"
  "Detects modification of the LSA package lists (Notification Packages = password filter, Security Packages = SSP, Authentication Packages) used to load attacker DLLs into LSASS for credential capture and persistence. Requires LSA registry telemetry enabled in the registry ETW collector."
  "experimental" "high"
  ["attack.t1547.005"; "attack.t1556.002"; "attack.t1547.002"; "attack.persistence"; "attack.credential_access"; "attack.privilege_escalation"]
  (one_of ["Installation of legitimate security products that register LSA packages"])
  [("product", "windows"); ("category", "registry_event")]
  [("selection", VMap
      [("TargetObject|contains", one_of
        ["\Lsa\Notification Packages"; "\Lsa\Security Packages"; "\Lsa\Authentication Packages";
         "\Lsa\OSConfig\Security Packages"])]);
   ("condition", VStr "selection")].

Definition appcert_dll_persistence : sigmaYAMLDoc := mkYAMLDoc
  "AppCert DLL Persistence"
  "Detects modification of the AppCertDlls registry value, which loads a DLL into every process that calls the Win32 process-creation APIs — a stealthy persistence and privilege-escalation mechanism. Requires AppCertDlls registry telemetry enabled in the registry ETW collector."
  "experimental" "high"
  ["attack.t1546.009"; "attack.persistence"; "attack.privilege_escalation"]
  (one_of ["Very rare; few legitimate products use AppCert DLLs"])
  [("product", "windows"); ("category", "registry_event")]
  [("selection", VMap
      [("TargetObject|contains", VStr "\Session Manager\AppCertDlls")]);
   ("condition", VStr "selection")].

Definition appinit_dll_persistence : sigmaYAMLDoc := mkYAMLDoc
  "AppInit DLL Persistence"
  "Detects modification of the AppInit_DLLs registry value, which loads a DLL into every process that links user32.dll — a classic persistence and code-injection mechanism."
  "stable" "high"
  ["attack.t1546.010"; "attack.persistence"; "attack.privilege_escalation"]
  (one_of ["Legacy software that legitimately uses AppInit DLLs"])
  [("product", "windows"); ("category", "registry_event")]
  [("selection", VMap
      [("TargetObject|contains", one_of
        ["\Windows\AppInit_DLLs"; "\Windows NT\CurrentVersion\Windows\AppInit_DLLs"])]);
   ("condition", VStr "selection")].

Definition msiexec_remote_or_unc_package_execution : sigmaYAMLDoc := mkYAMLDoc
  "Msiexec Remote or UNC Package Execution"
  "Detects msiexec installing a package from a remote URL or UNC path — used to download and execute payloads while proxying through a signed, trusted Windows binary."
  "stable" "high"
  ["attack.t1218.007"; "attack.defense_evasion"]
  (one_of ["Enterprise software deployment from internal URLs or UNC shares"])
  [("product", "windows"); ("category", "process_creation")]
  [("msiexec", VMap
      [("Image|endswith", VStr "\msiexec.exe")]);
   ("remote", VMap
      [("CommandLine|contains", one_of
        ["http://"; "https://"; "ftp://"; "\\"])]);
   ("condition", VStr "msiexec and remote")].

Definition application_shim_database_installation : sigmaYAMLDoc := mkYAMLDoc
  "Application Shim Database Installation"
  "Detects sdbinst.exe installing a shim database (.sdb), a stealthy persistence and privilege-escalation technique that injects code via the Application Compatibility framework."
  "stable" "high"
  ["attack.t1546.011"; "attack.persistence"; "attack.privilege_escalation"]
  (one_of ["Legitimate application-compatibility fixes deployed by IT"])
  [("product", "windows"); ("category", "process_creation")]
  [("selection", VMap
      [("Image|endswith", VStr "\sdbinst.exe");
       ("CommandLine|contains", VStr ".sdb")]);
   ("condition", VStr "selection")].

Definition mmc_spawning_a_command_shell : sigmaYAMLDoc := mkYAMLDoc
  "MMC Spawning a Command Shell"
  "Detects mmc.exe (Microsoft Management Console) launching a command shell or script interpreter — abused to proxy execution via malicious .msc snap-ins."
  "stable" "high"
  ["attack.t1218.014"; "attack.defense_evasion"; "attack.execution"]
  (one_of ["Rare administrative snap-ins that legitimately shell out"])
  [("product", "windows"); ("category", "process_creation")]
  [("selection", VMap
      [("ParentImage|endswith", VStr "\mmc.exe");
       ("Image|endswith", one_of
        ["\cmd.exe"; "\powershell.exe"; "\pwsh.exe"; "\wscript.exe"; "\cscript.exe";
         "\mshta.exe"; "\rundll32.exe"])]);
   ("condition", VStr "selection")].

Definition sql_server_spawning_a_command_shell : sigmaYAMLDoc := mkYAMLDoc
  "SQL Server Spawning a Command Shell"
  "Detects the SQL Server process (sqlservr.exe) launching a command shell or script interpreter — the signature of xp_cmdshell abuse following SQL injection or credentialed database access."
  "stable" "high"
  ["attack.t1505.001"; "attack.execution"; "attack.persistence"]
  (one_of ["Rare legitimate xp_cmdshell use by DBAs"])
  [("product", "windows"); ("category", "process_creation")]
  [("selection", VMap
      [("ParentImage|endswith", VStr "\sqlservr.exe");
       ("Image|endswith", one_of
        ["\cmd.exe"; "\powershell.exe"; "\pwsh.exe"; "\wscript.exe"; "\cscript.exe";
         "\bitsadmin.exe"])]);
   ("condition", VStr "selection")].

Definition web_server_process_spawning_a_shell : sigmaYAMLDoc := mkYAMLDoc
  "Web Server Process Spawning a Shell"
  "Detects a web/application server process (w3wp, httpd, apache2, nginx, php-fpm) spawning a command shell — a strong indicator of a web shell or exploitation of a public-facing application."
  "stable" "high"
  ["attack.t1190"; "attack.t1505.003"; "attack.initial_access"; "attack.execution"]
  (one_of ["CGI or automation that legitimately invokes shells (tune per environment)"])
  [("product", "linux"); ("category", "process_creation")]
  [("webserver", VMap
      [("ParentImage|endswith", one_of
        ["\w3wp.exe"; "/httpd"; "/apache2"; "/nginx"; "/php-fpm"; "/php"])]);
   ("shell", VMap
      [("Image|endswith", one_of
        ["\cmd.exe"; "\powershell.exe"; "/sh"; "/bash"; "/dash"; "/zsh"; "\whoami.exe";
         "/whoami"; "/id"])]);
   ("condition", VStr "webserver and shell")].

Definition active_setup_installed_components_persistence : sigmaYAMLDoc := mkYAMLDoc
  "Active Setup Installed Components Persistence"
  "Detects setting a StubPath under Active Setup\Installed Components, which runs a command for each user at first logon — a stealthy persistence mechanism. Requires Active Setup registry telemetry."
  "stable" "high"
  ["attack.t1547.014"; "attack.persistence"; "attack.privilege_escalation"]
  (one_of ["Legitimate software registering Active Setup components on install"])
  [("product", "windows"); ("category", "registry_event")]
  [("selection", VMap
      [("TargetObject|contains", VStr "\Active Setup\Installed Components\");
       ("TargetObject|endswith", VStr "\StubPath")]);
   ("condition", VStr "selection")].

Definition service_imagepath_or_servicedll_hijack_to : sigmaYAMLDoc := mkYAMLDoc
  "Service ImagePath or ServiceDll Hijack to Suspicious Path"
  "Detects modifying a service's ImagePath or ServiceDll to a user-writable or LOLBin path — service-based persistence and privilege escalation. Requires services registry telemetry."
  "experimental" "high"
  ["attack.t1543.003"; "attack.persistence"; "attack.privilege_escalation"]
  (one_of ["Legitimate service installs from non-standard paths"])
  [("product", "windows"); ("category", "registry_event")]
  [("service_value", VMap
      [("TargetObject|contains", VStr "\Services\");
       ("TargetObject|endswith", one_of
        ["\ImagePath"; "\ServiceDll"])]);
   ("suspicious", VMap
      [("Details|contains", one_of
        ["\AppData\"; "\Temp\"; "\Users\Public\"; "\ProgramData\"; "\Downloads\"; "powershell";
         "cmd.exe"; "rundll32"])]);
   ("condition", VStr "service_value and suspicious")].

Definition windows_load_or_run_value_persistence : sigmaYAMLDoc := mkYAMLDoc
  "Windows Load or Run Value Persistence"
  "Detects writing the Load or Run value under Windows NT\CurrentVersion\Windows, a legacy auto-start location that launches a program at logon. Requires registry telemetry."
  "stable" "high"
  ["attack.t1547.001"; "attack.persistence"]
  (one_of ["Rare legitimate use of these legacy values"])
  [("product", "windows"); ("category", "registry_event")]
  [("selection", VMap
      [("TargetObject|contains", one_of
        ["\CurrentVersion\Windows\Load"; "\CurrentVersion\Windows\Run"])]);
   ("condition", VStr "selection")].

Definition indirect_command_execution_via_trusted_utility : sigmaYAMLDoc := mkYAMLDoc
  "Indirect Command Execution via Trusted Utility"
  "Detects forfiles, pcalua, or scriptrunner launching a command shell or executable — indirect execution that breaks the expected parent-child chain to evade detection."
  "stable" "medium"
  ["attack.t1202"; "attack.defense_evasion"]
  (one_of ["Legitimate maintenance scripts using forfiles"])
  [("product", "windows"); ("category", "process_creation")]
  [("selection", VMap
      [("Image|endswith", one_of
        ["\forfiles.exe"; "\pcalua.exe"; "\scriptrunner.exe"]);
       ("CommandLine|contains", one_of
        ["cmd"; "powershell"; ".exe"; ".bat"; ".vbs"])]);
   ("condition", VStr "selection")].

Definition local_administrators_group_addition_via_net_exe : sigmaYAMLDoc := mkYAMLDoc
  "Local Administrators Group Addition via net.exe"
  "Detects adding an account to the local Administrators group with net localgroup — a common privilege-escalation and persistence step after gaining a foothold."
  "stable" "high"
  ["attack.t1098"; "attack.persistence"; "attack.privilege_escalation"]
  (one_of ["Administrators legitimately managing local group membership"])
  [("product", "windows"); ("category", "process_creation")]
  [("selection", VMap
      [("Image|endswith", one_of
        ["\net.exe"; "\net1.exe"]);
       ("CommandLine|contains|all", one_of
        ["localgroup"; "/add"]);
       ("CommandLine|contains", one_of ["administ"])]);
   ("condition", VStr "selection")].

Definition cloud_account_creation : sigmaYAMLDoc := mkYAMLDoc
  "Cloud Account Creation"
  "Detects creation of cloud identities for persistence — aws iam create-user / create-login-profile, az ad user create, gcloud iam service-accounts create — establishing durable attacker-controlled access after cloud compromise."
  "stable" "high"
  ["attack.t1136.003"; "attack.persistence"]
  (one_of ["Cloud administrators or IaC provisioning new identities"])
  [("category", "process_creation")]
  [("aws_create", VMap
      [("CommandLine|contains", one_of
        ["iam create-user"; "iam create-login-profile"])]);
   ("az_create", VMap
      [("CommandLine|contains|all", one_of
        ["az ad"; "create"]);
       ("CommandLine|contains", one_of
        ["user"; "sp"; "app"])]);
   ("gcloud_create", VMap
      [("CommandLine|contains", VStr "iam service-accounts create")]);
   ("condition", VStr "aws_create or az_create or gcloud_create")].

Definition additional_cloud_credentials : sigmaYAMLDoc := mkYAMLDoc
  "Additional Cloud Credentials"
  "Detects attaching new long-lived credentials to a cloud identity for persistence — aws iam create-access-key / create-login-profile, az ad app|sp credential reset, gcloud iam service-accounts keys create — so the attacker retains access even if the initial credential is revoked."
  "stable" "high"
  ["attack.t1098.001"; "attack.persistence"]
  (one_of ["Legitimate key rotation by cloud administrators or IaC"])
  [("category", "process_creation")]
  [("aws_key", VMap
      [("CommandLine|contains", one_of
        ["iam create-access-key"; "iam create-login-profile"])]);
   ("az_cred", VMap
      [("CommandLine|contains|all", one_of
        ["az ad"; "credential"]);
       ("CommandLine|contains", VStr "reset")]);
   ("gcloud_key", VMap
      [("CommandLine|contains", VStr "service-accounts keys create")]);
   ("condition", VStr "aws_key or az_cred or gcloud_key")].

Definition additional_cloud_roles : sigmaYAMLDoc := mkYAMLDoc
  "Additional Cloud Roles"
  "Detects granting elevated permissions to a cloud identity — aws iam attach-user-policy / attach-role-policy / put-user-policy / add-user-to-group, az role assignment create, gcloud add-iam-policy-binding — used for privilege escalation and persistence."
  "stable" "high"
  ["attack.t1098.003"; "attack.privilege_escalation"; "attack.persistence"]
  (one_of ["Cloud administrators or IaC assigning roles"])
  [("category", "process_creation")]
  [("aws_grant", VMap
      [("CommandLine|contains", one_of
        ["iam attach-user-policy"; "iam attach-role-policy"; "iam put-user-policy";
         "iam add-user-to-group"])]);
   ("az_grant", VMap
      [("CommandLine|contains", VStr "role assignment create")]);
   ("gcloud_grant", VMap
      [("CommandLine|contains", VStr "add-iam-policy-binding")]);
   ("condition", VStr "aws_grant or az_grant or gcloud_grant")].

Definition vnc_remote_access_tool_execution : sigmaYAMLDoc := mkYAMLDoc
  "VNC Remote Access Tool Execution"
  "Detects execution of VNC clients/servers used for interactive remote control (lateral movement) — vncviewer/tvnviewer/winvnc/tvnserver."
  "experimental" "medium"
  ["attack.t1021.005"; "attack.lateral_movement"]
  (one_of ["Sanctioned VNC-based remote administration"])
  [("category", "process_creation")]
  [("selection", VMap
      [("Image|endswith", one_of
        ["\vncviewer.exe"; "\tvnviewer.exe"; "\winvnc.exe"; "\tvnserver.exe"; "\vncserver.exe"])]);
   ("condition", VStr "selection")].

Definition direct_volume_access_raw_disk_read : sigmaYAMLDoc := mkYAMLDoc
  "Direct Volume Access (Raw Disk Read)"
  "Detects raw volume/device access that bypasses the file system to read locked files (SAM/NTDS) — the \\.\ device path, \\.\PHYSICALDRIVE, or \\?\GLOBALROOT."
  "experimental" "high"
  ["attack.t1006"; "attack.defense_evasion"]
  (one_of ["Backup/imaging tools that access raw volumes"])
  [("category", "process_creation")]
  [("selection", VMap
      [("CommandLine|contains", one_of
        ["\\.\C:"; "\\.\PHYSICALDRIVE"; "\\?\GLOBALROOT"])]);
   ("condition", VStr "selection")].

Definition rdp_session_hijack_via_tscon : sigmaYAMLDoc := mkYAMLDoc
  "RDP Session Hijack via tscon"
  "Detects tscon.exe redirecting another user's disconnected RDP session to the current session (credential-free session hijacking), typically run as SYSTEM."
  "experimental" "high"
  ["attack.t1563.002"; "attack.lateral_movement"]
  (one_of ["Rare legitimate session redirection by administrators"])
  [("product", "windows"); ("category", "process_creation")]
  [("selection", VMap
      [("Image|endswith", VStr "\tscon.exe");
       ("CommandLine|contains", VStr "/dest")]);
   ("condition", VStr "selection")].

Definition group_policy_modification_for_code_execution : sigmaYAMLDoc := mkYAMLDoc
  "Group Policy Modification for Code Execution"
  "Detects abuse of Group Policy to push code — New-GPImmediateTask (SharpGPOAbuse), Set-GPPrefRegistryValue, or editing GptTmpl.inf / ScheduledTasks.xml in SYSVOL."
  "experimental" "high"
  ["attack.t1484.001"; "attack.privilege_escalation"; "attack.defense_evasion"]
  (one_of ["Authorised Group Policy administration"])
  [("category", "process_creation")]
  [("selection", VMap
      [("CommandLine|contains", one_of
        ["New-GPImmediateTask"; "SharpGPOAbuse"; "Set-GPPrefRegistryValue"; "GptTmpl.inf"])]);
   ("condition", VStr "selection")].

Definition audio_capture_via_recording_api_or_tool : sigmaYAMLDoc := mkYAMLDoc
  "Audio Capture via Recording API or Tool"
  "Detects audio/microphone capture — waveInOpen API, Get-AudioDevice, Windows.Media.Capture, or ffmpeg capturing a dshow audio device."
  "experimental" "medium"
  ["attack.t1123"; "attack.collection"]
  (one_of ["Legitimate audio/conferencing software"])
  [("category", "process_creation")]
  [("api", VMap
      [("CommandLine|contains", one_of
        ["waveInOpen"; "Get-AudioDevice"; "Windows.Media.Capture"])]);
   ("ffmpeg", VMap
      [("CommandLine|contains|all", one_of
        ["ffmpeg"; "audio="])]);
   ("condition", VStr "api or ffmpeg")].

Definition network_service_scanning_linux : sigmaYAMLDoc := mkYAMLDoc
  "Network Service Scanning (Linux)"
  "Detects active network service/port scanning tools used for reconnaissance and lateral-movement targeting."
  "stable" "medium"
  ["attack.t1046"; "attack.discovery"]
  (one_of ["Authorised vulnerability scanning / asset inventory"])
  [("product", "linux"); ("category", "process_creation")]
  [("scanners", VMap
      [("Image|endswith", one_of
        ["/nmap"; "/masscan"; "/zmap"; "/rustscan"])]);
   ("ncscan", VMap
      [("CommandLine|contains|all", one_of
        ["nc"; "-z"])]);
   ("condition", VStr "scanners or ncscan")].

Definition security_software_discovery_linux : sigmaYAMLDoc := mkYAMLDoc
  "Security Software Discovery (Linux)"
  "Detects enumeration of host EDR/AV/audit tooling by name, used to fingerprint defenses before evasion."
  "stable" "low"
  ["attack.t1518.001"; "attack.discovery"]
  (one_of ["Monitoring agents performing self health-checks"])
  [("product", "linux"); ("category", "process_creation")]
  [("selection", VMap
      [("CommandLine|contains", one_of
        ["falcon-sensor"; "crowdstrike"; "sentinelone"; "carbon-black"; "cbagent"; "osqueryd";
         "clamscan"; "wazuh"; "ossec"])]);
   ("condition", VStr "selection")].

Definition impair_defenses_via_firewall_selinux_audit : sigmaYAMLDoc := mkYAMLDoc
  "Impair Defenses via Firewall/SELinux/Audit Disable (Linux)"
  "Detects disabling of host protections — SELinux/AppArmor enforcement, the firewall, or the audit daemon — a common pre-attack evasion step."
  "stable" "high"
  ["attack.t1562.001"; "attack.defense_evasion"]
  (one_of ["Legitimate host reconfiguration by administrators"])
  [("product", "linux"); ("category", "process_creation")]
  [("selection", VMap
      [("CommandLine|contains", one_of
        ["setenforce 0"; "setenforce Permissive"; "systemctl stop firewalld";
         "systemctl disable firewalld"; "systemctl stop auditd"; "service auditd stop";
         "ufw disable"; "iptables -F"; "iptables --flush"; "aa-teardown"])]);
   ("condition", VStr "selection")].

Definition secure_file_deletion_anti_forensic_wipe_linux : sigmaYAMLDoc := mkYAMLDoc
  "Secure File Deletion / Anti-Forensic Wipe (Linux)"
  "Detects use of secure-deletion utilities to destroy files and remove evidence of activity."
  "stable" "medium"
  ["attack.t1070.004"; "attack.defense_evasion"]
  (one_of ["Administrators securely wiping decommissioned data"])
  [("product", "linux"); ("category", "process_creation")]
  [("shredtools", VMap
      [("Image|endswith", one_of
        ["/shred"; "/srm"; "/wipe"])]);
   ("shredcmd", VMap
      [("CommandLine|contains", one_of
        ["shred -u"; "shred -z"])]);
   ("condition", VStr "shredtools or shredcmd")].

Definition local_account_creation_linux : sigmaYAMLDoc := mkYAMLDoc
  "Local Account Creation (Linux)"
  "Detects creation of a new local user account, a common persistence and backdoor-access step after compromise."
  "stable" "medium"
  ["attack.t1136.001"; "attack.persistence"]
  (one_of ["Legitimate provisioning / configuration management"])
  [("product", "linux"); ("category", "process_creation")]
  [("addusers", VMap
      [("Image|endswith", one_of
        ["/useradd"; "/adduser"])]);
   ("sudoadd", VMap
      [("CommandLine|contains|all", one_of
        ["usermod"; "sudo"])]);
   ("condition", VStr "addusers or sudoadd")].

Definition macos_disable_gatekeeper_or_sip : sigmaYAMLDoc := mkYAMLDoc
  "macOS Disable Gatekeeper or SIP"
  "Detects disabling of macOS platform protections — Gatekeeper (spctl) or System Integrity Protection (csrutil) — enabling unsigned/malicious code execution."
  "stable" "high"
  ["attack.t1562.001"; "attack.defense_evasion"]
  (one_of ["Developers disabling Gatekeeper on a dev machine (rare, high-signal)"])
  [("product", "macos"); ("category", "process_creation")]
  [("selection", VMap
      [("CommandLine|contains", one_of
        ["spctl --master-disable"; "spctl --disable"; "csrutil disable"; "csrutil clear"])]);
   ("condition", VStr "selection")].

Definition macos_ingress_tool_transfer_via_curl_osascript : sigmaYAMLDoc := mkYAMLDoc
  "macOS Ingress Tool Transfer via curl/osascript"
  "Detects downloading of a remote payload to disk via curl/wget or an AppleScript shell-script download cradle."
  "stable" "medium"
  ["attack.t1105"; "attack.command_and_control"]
  (one_of ["Package managers / build scripts fetching artifacts"])
  [("product", "macos"); ("category", "process_creation")]
  [("curl_dl", VMap
      [("Image|endswith", one_of
        ["/curl"; "/wget"]);
       ("CommandLine|contains", one_of
        ["-o "; "-O "; "--output"])]);
   ("osa_dl", VMap
      [("CommandLine|contains|all", one_of
        ["osascript"; "do shell script"; "curl"])]);
   ("condition", VStr "curl_dl or osa_dl")].

Definition macos_virtualization_sandbox_evasion_checks : sigmaYAMLDoc := mkYAMLDoc
  "macOS Virtualization/Sandbox Evasion Checks"
  "Detects querying hardware/platform artifacts and matching them against VM vendor strings to detect a sandbox or analysis VM before executing."
  "stable" "medium"
  ["attack.t1497"; "attack.defense_evasion"]
  (one_of ["Inventory tooling reading hardware model on virtualized hosts"])
  [("product", "macos"); ("category", "process_creation")]
  [("probe", VMap
      [("CommandLine|contains", one_of
        ["system_profiler SPHardwareDataType"; "ioreg -l"; "ioreg -rd1"; "sysctl hw.model"])]);
   ("vmvendor", VMap
      [("CommandLine|contains", one_of
        ["VirtualBox"; "VMware"; "vmware"; "QEMU"; "Parallels"])]);
   ("condition", VStr "probe and vmvendor")].

Definition cloud_instance_metadata_service_access : sigmaYAMLDoc := mkYAMLDoc
  "Cloud Instance Metadata Service Access"
  "Detects a process querying the cloud instance metadata service (169.254.169.254 / metadata endpoints), commonly abused to steal instance credentials/role tokens (SSRF or on-host)."
  "stable" "high"
  ["attack.t1552.005"; "attack.credential_access"]
  (one_of ["Legitimate cloud-init / instance bootstrap tooling"])
  [("product", "linux"); ("category", "process_creation")]
  [("tool", VMap
      [("Image|endswith", one_of
        ["/curl"; "/wget"])]);
   ("target", VMap
      [("CommandLine|contains", one_of
        ["169.254.169.254"; "metadata.google.internal"; "metadata.goog"; "100.100.100.200";
         "/latest/meta-data"; "/computeMetadata/"; "Metadata-Flavor"])]);
   ("condition", VStr "tool and target")].

Definition container_and_orchestration_discovery : sigmaYAMLDoc := mkYAMLDoc
  "Container and Orchestration Discovery"
  "Detects enumeration of containers, pods, and cluster resources via kubectl/docker/crictl — reconnaissance after landing in a containerized environment."
  "stable" "medium"
  ["attack.t1613"; "attack.discovery"]
  (one_of ["Operators inspecting cluster state"])
  [("product", "linux"); ("category", "process_creation")]
  [("kubectl", VMap
      [("CommandLine|contains|all", one_of
        ["kubectl"; "get"])]);
   ("kubectl_targets", VMap
      [("CommandLine|contains", one_of
        ["pods"; "secrets"; "nodes"; "namespaces"; "deployments"])]);
   ("docker_ps", VMap
      [("CommandLine|contains", one_of
        ["docker ps"; "crictl ps"; "docker images"; "podman ps"])]);
   ("condition", VStr "(kubectl and kubectl_targets) or docker_ps")].

Definition system_location_and_timezone_discovery : sigmaYAMLDoc := mkYAMLDoc
  "System Location and Timezone Discovery"
  "Detects discovery of the host timezone/locale, used to fingerprint the victim's geographic location (sometimes to skip execution in certain regions)."
  "stable" "low"
  ["attack.t1614.001"; "attack.discovery"]
  (one_of ["Time-synchronization / provisioning tooling"])
  [("category", "process_creation")]
  [("selection", VMap
      [("CommandLine|contains", one_of
        ["timedatectl"; "/etc/timezone"; "/etc/localtime"; "systemsetup -gettimezone";
         "systemsetup -getnetworktimeserver"])]);
   ("condition", VStr "selection")].

Definition password_policy_discovery : sigmaYAMLDoc := mkYAMLDoc
  "Password Policy Discovery"
  "Detects reading of the system password policy or per-account aging, used to tune brute-force/spray attempts to avoid lockout."
  "stable" "low"
  ["attack.t1201"; "attack.discovery"]
  (one_of ["Configuration management reading password policy"])
  [("product", "linux"); ("category", "process_creation")]
  [("selection", VMap
      [("CommandLine|contains", one_of
        ["/etc/login.defs"; "/etc/security/pwquality"; "chage -l"; "passwd -S";
         "passwd --status"; "pwpolicy -getaccountpolicies"])]);
   ("condition", VStr "selection")].

Definition domain_trust_discovery : sigmaYAMLDoc := mkYAMLDoc
  "Domain Trust Discovery"
  "Detects enumeration of Active Directory domain trusts (nltest, dsquery, PowerView Get-DomainTrust, .NET GetAllTrustRelationships), a common precursor to cross-domain lateral movement and Kerberos trust attacks."
  "stable" "medium"
  ["attack.t1482"; "attack.discovery"]
  (one_of ["Domain administrators auditing trust relationships"])
  [("product", "windows"); ("category", "process_creation")]
  [("nltest_trust", VMap
      [("CommandLine|contains", one_of
        ["/domain_trusts"; "/trusted_domains"])]);
   ("dsquery_trust", VMap
      [("CommandLine|contains", VStr "objectClass=trustedDomain")]);
   ("powerview_trust", VMap
      [("CommandLine|contains", one_of
        ["Get-ADTrust"; "Get-DomainTrust"; "Get-NetDomainTrust"; "GetAllTrustRelationships"])]);
   ("condition", VStr "nltest_trust or dsquery_trust or powerview_trust")].

Definition domain_account_discovery : sigmaYAMLDoc := mkYAMLDoc
  "Domain Account Discovery"
  "Detects enumeration of Active Directory user accounts (net user /domain, dsquery user, PowerView Get-DomainUser, Get-ADUser) and BloodHound/SharpHound AD collectors, used to map targets before privilege escalation and lateral movement."
  "stable" "medium"
  ["attack.t1087.002"; "attack.discovery"]
  (one_of ["Help-desk or identity-management tooling enumerating directory users"])
  [("product", "windows"); ("category", "process_creation")]
  [("net_user_domain", VMap
      [("CommandLine|contains|all", one_of
        ["net"; " user "; "/domain"])]);
   ("dsquery_user", VMap
      [("CommandLine|contains", VStr "dsquery user")]);
   ("powerview_user", VMap
      [("CommandLine|contains", one_of
        ["Get-ADUser"; "Get-DomainUser"; "Get-NetUser"])]);
   ("bloodhound", VMap
      [("CommandLine|contains", one_of
        ["Invoke-BloodHound"; "SharpHound"; "-CollectionMethod"; "--collectionmethods";
         "bloodhound-python"; "bloodhound.py"])]);
   ("adsi_ldap", VMap
      [("CommandLine|contains", one_of
        ["adsisearcher"; "DirectorySearcher"; "System.DirectoryServices"])]);
   ("condition", VStr "net_user_domain or dsquery_user or powerview_user or bloodhound or adsi_ldap")].

Definition local_account_discovery : sigmaYAMLDoc := mkYAMLDoc
  "Local Account Discovery"
  "Detects enumeration of LOCAL user accounts (net user, net accounts, Get-LocalUser, wmic useraccount, query user) — the first thing an attacker inventories after landing on a host that is not domain-joined, and the precursor to picking a local account to escalate into."
  "stable" "low"
  ["attack.t1087.001"; "attack.discovery"]
  (one_of ["Administrators and inventory/helpdesk tooling listing local accounts"; "Login scripts querying the local user database"])
  [("product", "windows"); ("category", "process_creation")]
  [("net_user", VMap
      [("CommandLine|contains", one_of
        ["net user"; "net1 user"; "net accounts"; "net1 accounts"])]);
   ("powershell_localuser", VMap
      [("CommandLine|contains", one_of
        ["Get-LocalUser"; "Get-WmiObject -Class Win32_UserAccount";
         "Get-CimInstance -ClassName Win32_UserAccount"])]);
   ("wmic_useraccount", VMap
      [("CommandLine|contains|all", one_of
        ["wmic"; "useraccount"])]);
   ("domain_form", VMap
      [("CommandLine|contains", VStr "/domain")]);
   ("condition", VStr "(net_user or powershell_localuser or wmic_useraccount) and not domain_form")].

Definition local_permission_groups_discovery : sigmaYAMLDoc := mkYAMLDoc
  "Local Permission Groups Discovery"
  "Detects enumeration of LOCAL group membership (net localgroup, Get-LocalGroupMember, whoami /groups, wmic group) — used to find which accounts hold local Administrators rights before privilege escalation."
  "stable" "low"
  ["attack.t1069.001"; "attack.discovery"]
  (one_of ["Administrators auditing local Administrators membership"; "Configuration management verifying group membership"])
  [("product", "windows"); ("category", "process_creation")]
  [("net_localgroup", VMap
      [("CommandLine|contains", one_of
        ["net localgroup"; "net1 localgroup"])]);
   ("powershell_localgroup", VMap
      [("CommandLine|contains", one_of
        ["Get-LocalGroupMember"; "Get-LocalGroup"])]);
   ("wmic_group", VMap
      [("CommandLine|contains|all", one_of
        ["wmic"; "group get"])]);
   ("write_form", VMap
      [("CommandLine|contains", one_of
        ["/add"; "/delete"])]);
   ("condition", VStr "(net_localgroup or powershell_localgroup or wmic_group) and not write_form")].

Definition remote_system_and_domain_controller_discovery : sigmaYAMLDoc := mkYAMLDoc
  "Remote System and Domain Controller Discovery"
  "Detects enumeration of remote hosts and domain controllers (nltest /dclist, net view /domain, dsquery computer, PowerView Get-DomainComputer, Get-ADComputer), used to select lateral-movement targets."
  "stable" "medium"
  ["attack.t1018"; "attack.discovery"]
  (one_of ["Administrators enumerating domain hosts or locating domain controllers"])
  [("product", "windows"); ("category", "process_creation")]
  [("nltest_dc", VMap
      [("CommandLine|contains", one_of
        ["/dclist"; "/dsgetdc"])]);
   ("net_view_domain", VMap
      [("CommandLine|contains|all", one_of
        ["net view"; "/domain"])]);
   ("net_view_all", VMap
      [("CommandLine|contains", VStr "net view /all")]);
   ("dsquery_computer", VMap
      [("CommandLine|contains", VStr "dsquery computer")]);
   ("powerview_computer", VMap
      [("CommandLine|contains", one_of
        ["Get-ADComputer"; "Get-DomainComputer"; "Get-NetComputer"])]);
   ("adsi_computer", VMap
      [("CommandLine|contains|all", one_of ["DirectoryServices"]);
       ("CommandLine|contains", one_of
        ["objectClass=computer"; "objectCategory=computer"])]);
   ("adsi_computer2", VMap
      [("CommandLine|contains|all", one_of ["adsisearcher"]);
       ("CommandLine|contains", one_of
        ["objectClass=computer"; "objectCategory=computer"])]);
   ("condition", VStr "nltest_dc or net_view_domain or net_view_all or dsquery_computer or powerview_computer or adsi_computer or adsi_computer2")].

Definition domain_group_discovery : sigmaYAMLDoc := mkYAMLDoc
  "Domain Group Discovery"
  "Detects enumeration of Active Directory groups and privileged group membership (net group /domain, Get-ADGroupMember, PowerView Get-DomainGroup, dsquery group), used to locate Domain/Enterprise Admins before escalation."
  "stable" "medium"
  ["attack.t1069.002"; "attack.discovery"]
  (one_of ["Administrators auditing privileged group membership"])
  [("product", "windows"); ("category", "process_creation")]
  [("net_group_domain", VMap
      [("CommandLine|contains|all", one_of
        ["net group"; "/domain"])]);
   ("net_group_privileged", VMap
      [("CommandLine|contains", one_of
        ["domain admins"; "enterprise admins"; "domain controllers"])]);
   ("dsquery_group", VMap
      [("CommandLine|contains", VStr "dsquery group")]);
   ("powerview_group", VMap
      [("CommandLine|contains", one_of
        ["Get-ADGroupMember"; "Get-DomainGroup"; "Get-NetGroupMember"])]);
   ("adsi_group", VMap
      [("CommandLine|contains|all", one_of ["DirectoryServices"]);
       ("CommandLine|contains", one_of
        ["objectClass=group"; "objectCategory=group"])]);
   ("adsi_group2", VMap
      [("CommandLine|contains|all", one_of ["adsisearcher"]);
       ("CommandLine|contains", one_of
        ["objectClass=group"; "objectCategory=group"])]);
   ("condition", VStr "net_group_domain or net_group_privileged or dsquery_group or powerview_group or adsi_group or adsi_group2")].

Definition network_share_discovery : sigmaYAMLDoc := mkYAMLDoc
  "Network Share Discovery"
  "Detects enumeration of network shares (net view of remote hosts, net share, Get-SmbShare, PowerView Invoke-ShareFinder/Find-DomainShare, Snaffler), used to locate data to collect and lateral-movement footholds."
  "stable" "medium"
  ["attack.t1135"; "attack.discovery"]
  (one_of ["Administrators auditing share exposure"])
  [("product", "windows"); ("category", "process_creation")]
  [("net_view_host", VMap
      [("CommandLine|contains|all", one_of
        ["net view"; "\\"])]);
   ("net_share", VMap
      [("CommandLine|contains", VStr "net share")]);
   ("smb_share_ps", VMap
      [("CommandLine|contains", one_of
        ["Get-SmbShare"; "Get-WmiObject Win32_Share"; "Get-CimInstance Win32_Share"])]);
   ("powerview_share", VMap
      [("CommandLine|contains", one_of
        ["Invoke-ShareFinder"; "Find-DomainShare"; "Find-InterestingDomainShareFile"])]);
   ("snaffler", VMap
      [("CommandLine|contains", VStr "snaffler")]);
   ("condition", VStr "net_view_host or net_share or smb_share_ps or powerview_share or snaffler")].

Definition group_policy_discovery : sigmaYAMLDoc := mkYAMLDoc
  "Group Policy Discovery"
  "Detects enumeration of Active Directory Group Policy (gpresult, Get-GPO/Get-GPOReport, PowerView Get-DomainGPO/Get-DomainGPOLocalGroup), used to find misconfigurations, delegated rights, and privileged-access paths."
  "stable" "medium"
  ["attack.t1615"; "attack.discovery"]
  (one_of ["Administrators troubleshooting applied Group Policy"])
  [("product", "windows"); ("category", "process_creation")]
  [("gpresult", VMap
      [("CommandLine|contains", VStr "gpresult")]);
   ("gpo_cmdlets", VMap
      [("CommandLine|contains", one_of
        ["Get-GPO"; "Get-GPOReport"; "Get-GPResultantSetOfPolicy"])]);
   ("powerview_gpo", VMap
      [("CommandLine|contains", one_of
        ["Get-DomainGPO"; "Get-NetGPO"; "Get-DomainGPOLocalGroup";
         "Get-DomainGPOUserLocalGroupMapping"])]);
   ("condition", VStr "gpresult or gpo_cmdlets or powerview_gpo")].

Definition cloud_service_and_iam_discovery : sigmaYAMLDoc := mkYAMLDoc
  "Cloud Service and IAM Discovery"
  "Detects enumeration of cloud identity, organization, and service configuration via cloud CLIs (aws sts get-caller-identity, aws iam/organizations list, az ad / az role assignment list, gcloud iam / projects list), a common first step after cloud credential compromise."
  "stable" "medium"
  ["attack.t1526"; "attack.discovery"]
  (one_of ["Cloud administrators or IaC tooling auditing identity and org structure"])
  [("category", "process_creation")]
  [("aws_identity", VMap
      [("CommandLine|contains", one_of
        ["sts get-caller-identity"; "iam list-users"; "iam list-roles";
         "iam get-account-authorization-details"; "organizations list-accounts";
         "organizations describe-organization"])]);
   ("az_identity", VMap
      [("CommandLine|contains|all", one_of
        ["az "; "list"]);
       ("CommandLine|contains", one_of
        ["ad user"; "ad group"; "role assignment"; "account list"])]);
   ("gcloud_identity", VMap
      [("CommandLine|contains|all", one_of ["gcloud "]);
       ("CommandLine|contains", one_of
        ["iam service-accounts"; "projects list"; "organizations list";
         "projects get-iam-policy"])]);
   ("condition", VStr "aws_identity or az_identity or gcloud_identity")].

Definition cloud_infrastructure_discovery : sigmaYAMLDoc := mkYAMLDoc
  "Cloud Infrastructure Discovery"
  "Detects enumeration of cloud compute and network infrastructure via cloud CLIs (aws ec2 describe-instances/security-groups/vpcs, az vm/network list, gcloud compute instances list), used to map lateral-movement and pivot targets."
  "stable" "low"
  ["attack.t1580"; "attack.discovery"]
  (one_of ["DevOps / IaC tooling inventorying cloud resources"])
  [("category", "process_creation")]
  [("aws_infra", VMap
      [("CommandLine|contains", one_of
        ["ec2 describe-instances"; "ec2 describe-security-groups"; "ec2 describe-vpcs";
         "ec2 describe-subnets"; "rds describe-db-instances"])]);
   ("az_infra", VMap
      [("CommandLine|contains|all", one_of ["az "]);
       ("CommandLine|contains", one_of
        ["vm list"; "network nic list"; "network vnet list"])]);
   ("gcloud_infra", VMap
      [("CommandLine|contains|all", one_of
        ["gcloud compute"; "list"])]);
   ("condition", VStr "aws_infra or az_infra or gcloud_infra")].

Definition cloud_storage_object_discovery : sigmaYAMLDoc := mkYAMLDoc
  "Cloud Storage Object Discovery"
  "Detects enumeration of cloud object storage buckets and objects (aws s3 ls / s3api list-buckets / list-objects, az storage container/blob list, gsutil ls, gcloud storage ls), used to locate data for collection and exfiltration."
  "stable" "low"
  ["attack.t1619"; "attack.discovery"]
  (one_of ["Backup / data-pipeline jobs listing buckets"])
  [("category", "process_creation")]
  [("aws_s3", VMap
      [("CommandLine|contains", one_of
        ["s3 ls"; "s3api list-buckets"; "s3api list-objects"])]);
   ("az_storage", VMap
      [("CommandLine|contains|all", one_of
        ["az storage"; "list"])]);
   ("gcp_storage", VMap
      [("CommandLine|contains", one_of
        ["gsutil ls"; "gcloud storage ls"])]);
   ("condition", VStr "aws_s3 or az_storage or gcp_storage")].

Definition cloud_logging_tampering : sigmaYAMLDoc := mkYAMLDoc
  "Cloud Logging Tampering"
  "Detects disabling or deleting cloud audit/threat logging to blind defenders — aws cloudtrail stop-logging/delete-trail, aws guardduty delete-detector, az monitor diagnostic-settings delete, gcloud logging sinks delete — an early defense-evasion step after cloud compromise."
  "stable" "critical"
  ["attack.t1562.008"; "attack.defense_evasion"]
  (one_of ["Rare; cloud administrators decommissioning logging (should be change-controlled)"])
  [("category", "process_creation")]
  [("aws_trail", VMap
      [("CommandLine|contains", one_of
        ["cloudtrail stop-logging"; "cloudtrail delete-trail"; "guardduty delete-detector"])]);
   ("aws_trail_modify", VMap
      [("CommandLine|contains|all", one_of
        ["cloudtrail update-trail"; "no-is-multi-region"])]);
   ("az_diag", VMap
      [("CommandLine|contains|all", one_of
        ["monitor diagnostic-settings"; "delete"])]);
   ("gcloud_sink", VMap
      [("CommandLine|contains|all", one_of
        ["logging sinks"; "delete"])]);
   ("condition", VStr "aws_trail or aws_trail_modify or az_diag or gcloud_sink")].

Definition cloud_firewall_opening : sigmaYAMLDoc := mkYAMLDoc
  "Cloud Firewall Opening"
  "Detects opening cloud network controls to the internet for attacker access or persistence — aws ec2 authorize-security-group-ingress with 0.0.0.0/0, az network nsg rule create allow-any, gcloud compute firewall-rules create allowing 0.0.0.0/0."
  "stable" "high"
  ["attack.t1562.007"; "attack.defense_evasion"]
  (one_of ["Administrators intentionally exposing a service (should be reviewed)"])
  [("category", "process_creation")]
  [("aws_sg", VMap
      [("CommandLine|contains|all", one_of
        ["ec2 authorize-security-group-ingress"; "0.0.0.0/0"])]);
   ("az_nsg", VMap
      [("CommandLine|contains|all", one_of
        ["network nsg rule create"; "0.0.0.0/0"])]);
   ("gcloud_fw", VMap
      [("CommandLine|contains|all", one_of
        ["compute firewall-rules create"; "0.0.0.0/0"])]);
   ("condition", VStr "aws_sg or az_nsg or gcloud_fw")].

Definition cloud_compute_infrastructure_modification : sigmaYAMLDoc := mkYAMLDoc
  "Cloud Compute Infrastructure Modification"
  "Detects abuse of cloud compute APIs for data theft or persistence — creating and sharing disk snapshots to an attacker-controlled account (aws ec2 create-snapshot / modify-snapshot-attribute --create-volume-permission, az snapshot create, gcloud compute disks snapshot) or modifying instance attributes."
  "stable" "high"
  ["attack.t1578"; "attack.defense_evasion"]
  (one_of ["Backup automation creating snapshots (sharing snapshots externally is the higher-signal case)"])
  [("category", "process_creation")]
  [("aws_snapshot_share", VMap
      [("CommandLine|contains", one_of
        ["modify-snapshot-attribute"; "modify-image-attribute"])]);
   ("aws_snapshot_create", VMap
      [("CommandLine|contains", VStr "ec2 create-snapshot")]);
   ("aws_instance_modify", VMap
      [("CommandLine|contains", VStr "modify-instance-attribute")]);
   ("az_snapshot", VMap
      [("CommandLine|contains|all", one_of
        ["az snapshot"; "create"])]);
   ("gcloud_snapshot", VMap
      [("CommandLine|contains|all", one_of ["compute disks snapshot"])]);
   ("condition", VStr "aws_snapshot_share or aws_snapshot_create or aws_instance_modify or az_snapshot or gcloud_snapshot")].

Definition browser_bookmark_and_history_discovery : sigmaYAMLDoc := mkYAMLDoc
  "Browser Bookmark and History Discovery"
  "Detects reading of browser bookmark/history stores, used to profile the user and discover internal URLs, cloud consoles, and infrastructure."
  "stable" "medium"
  ["attack.t1217"; "attack.discovery"]
  (one_of ["Browser sync or backup utilities"])
  [("category", "process_creation")]
  [("reader", VMap
      [("Image|endswith", one_of
        ["/cat"; "/sqlite3"; "/strings"; "/grep"; "/find"])]);
   ("store", VMap
      [("CommandLine|contains", one_of
        ["Safari/Bookmarks.plist"; "Safari/History.db"; "Google/Chrome/Default/History";
         "Google/Chrome/Default/Bookmarks"; "Firefox/Profiles"; "places.sqlite";
         ".mozilla/firefox"])]);
   ("condition", VStr "reader and store")].

Definition credentials_from_web_browsers : sigmaYAMLDoc := mkYAMLDoc
  "Credentials from Web Browsers"
  "Detects access to browser credential stores (Login Data, cookies, key databases), used to harvest saved passwords and session tokens."
  "stable" "high"
  ["attack.t1555.003"; "attack.credential_access"]
  (one_of ["Browser backup/migration tooling"])
  [("category", "process_creation")]
  [("reader", VMap
      [("Image|endswith", one_of
        ["/cat"; "/cp"; "/sqlite3"; "/strings"; "/python"; "/python3"])]);
   ("store", VMap
      [("CommandLine|contains", one_of
        ["Chrome/Default/Login Data"; "Chrome/Default/Cookies"; "Chrome/Default/Web Data";
         "Login Data"; "Local State"; "key4.db"; "logins.json"; "cookies.sqlite"])]);
   ("condition", VStr "reader and store")].

Definition macos_local_account_discovery_via_dscl : sigmaYAMLDoc := mkYAMLDoc
  "macOS Local Account Discovery via dscl"
  "Detects enumeration of local user accounts via the Directory Service command line (dscl) or dscacheutil, a macOS-native discovery step."
  "stable" "low"
  ["attack.t1087.001"; "attack.discovery"]
  (one_of ["Administrative user management / directory tooling"])
  [("product", "macos"); ("category", "process_creation")]
  [("dscl_list", VMap
      [("CommandLine|contains|all", one_of
        ["dscl"; "/Users"])]);
   ("dscl_read", VMap
      [("CommandLine|contains", one_of
        ["dscacheutil -q user"; "dscl . -read /Users"; "dscl . list /Users"])]);
   ("condition", VStr "dscl_list or dscl_read")].

Definition macos_local_account_creation : sigmaYAMLDoc := mkYAMLDoc
  "macOS Local Account Creation"
  "Detects creation of a new local user account via sysadminctl or dscl, a common backdoor-access persistence step on macOS."
  "stable" "medium"
  ["attack.t1136.001"; "attack.persistence"]
  (one_of ["Legitimate provisioning / MDM enrollment"])
  [("product", "macos"); ("category", "process_creation")]
  [("sysadminctl", VMap
      [("CommandLine|contains", one_of ["sysadminctl -addUser"])]);
   ("dscl_create", VMap
      [("CommandLine|contains|all", one_of
        ["dscl"; "-create"; "/Users/"])]);
   ("condition", VStr "sysadminctl or dscl_create")].

Definition c2_over_legitimate_web_service : sigmaYAMLDoc := mkYAMLDoc
  "C2 over Legitimate Web Service"
  "Detects command-line tools contacting popular legitimate web services (paste sites, code hosts, chat webhooks, bot APIs) commonly abused as C2 or dead-drop resolvers."
  "stable" "high"
  ["attack.t1102"; "attack.command_and_control"]
  (one_of ["Developer tooling fetching gists / raw files"; "Legitimate chat integrations"])
  [("category", "process_creation")]
  [("tool", VMap
      [("Image|endswith", one_of
        ["/curl"; "/wget"; "\powershell.exe"; "\pwsh.exe"; "/python"; "/python3"])]);
   ("service", VMap
      [("CommandLine|contains", one_of
        ["pastebin.com/raw"; "raw.githubusercontent.com"; "gist.githubusercontent.com";
         "api.telegram.org/bot"; "discord.com/api/webhooks"; "discordapp.com/api/webhooks";
         "hooks.slack.com/services"; "transfer.sh"; "anonfiles"])]);
   ("condition", VStr "tool and service")].

Definition reflective_code_loading_in_memory_assembly : sigmaYAMLDoc := mkYAMLDoc
  "Reflective Code Loading (In-Memory Assembly)"
  "Detects loading of code directly into memory (reflective .NET assembly load, in-memory PE execution) that bypasses on-disk AV inspection."
  "stable" "high"
  ["attack.t1620"; "attack.defense_evasion"]
  (one_of ["Some .NET developer / build automation"])
  [("product", "windows"); ("category", "process_creation")]
  [("selection", VMap
      [("CommandLine|contains", one_of
        ["[Reflection.Assembly]::Load"; "[System.Reflection.Assembly]::Load";
         "Assembly]::Load("; "System.Reflection.Assembly]::LoadWithPartialName";
         "[AppDomain]::CurrentDomain.Load"; "InvokeReturnAsIs"])]);
   ("condition", VStr "selection")].

Definition password_manager_vault_access : sigmaYAMLDoc := mkYAMLDoc
  "Password Manager Vault Access"
  "Detects access to password-manager vault files (KeePass, 1Password, Bitwarden, KeePassXC), a high-value credential-theft target."
  "stable" "high"
  ["attack.t1555.005"; "attack.credential_access"]
  (one_of ["The password manager application itself opening its vault"])
  [("category", "process_creation")]
  [("reader", VMap
      [("Image|endswith", one_of
        ["/cat"; "/cp"; "/curl"; "\powershell.exe"; "/python"; "/python3"; "/strings"])]);
   ("vault", VMap
      [("CommandLine|contains", one_of
        [".kdbx"; ".kdb"; "1Password"; "Bitwarden"; "data.json"; ".opvault"; "keepass";
         "keepassxc"])]);
   ("condition", VStr "reader and vault")].

Definition traffic_tunneling_via_proxy_tool : sigmaYAMLDoc := mkYAMLDoc
  "Traffic Tunneling via Proxy Tool"
  "Detects use of proxy/pivot tooling (proxychains, chisel, socat relays) to route traffic through a compromised host — a lateral-movement/exfil channel."
  "stable" "medium"
  ["attack.t1090.002"; "attack.command_and_control"]
  (one_of ["Administrators using SSH tunnels for legitimate access"])
  [("product", "linux"); ("category", "process_creation")]
  [("tools", VMap
      [("Image|endswith", one_of
        ["/proxychains"; "/proxychains4"; "/chisel"])]);
   ("socat_relay", VMap
      [("CommandLine|contains|all", one_of
        ["socat"; "TCP-LISTEN"])]);
   ("ssh_dynamic", VMap
      [("CommandLine|contains", one_of
        ["ssh -D "; "ssh -R "; "ssh -L "])]);
   ("condition", VStr "tools or socat_relay or ssh_dynamic")].

Definition local_email_store_collection : sigmaYAMLDoc := mkYAMLDoc
  "Local Email Store Collection"
  "Detects reading or copying of local email data stores (Outlook PST/OST, mbox/maildir), used to harvest correspondence for espionage."
  "stable" "medium"
  ["attack.t1114.001"; "attack.collection"]
  (one_of ["Backup / archival tooling handling mail stores"])
  [("category", "process_creation")]
  [("reader", VMap
      [("Image|endswith", one_of
        ["/cat"; "/cp"; "\xcopy.exe"; "\robocopy.exe"; "/tar"; "\powershell.exe"; "/python";
         "/python3"])]);
   ("maildata", VMap
      [("CommandLine|contains", one_of
        [".pst"; ".ost"; ".mbox"; "/Mail/"; ".msg"; "Outlook Files"; ".olm"])]);
   ("condition", VStr "reader and maildata")].

Definition kubernetes_service_account_token_access : sigmaYAMLDoc := mkYAMLDoc
  "Kubernetes Service Account Token Access"
  "Detects reading of the in-pod Kubernetes service-account token or kubelet credentials, used to escalate from a compromised container to the cluster API."
  "stable" "high"
  ["attack.t1552.007"; "attack.credential_access"]
  (one_of ["In-cluster tooling reading its own service-account token"])
  [("product", "linux"); ("category", "process_creation")]
  [("reader", VMap
      [("Image|endswith", one_of
        ["/cat"; "/cp"; "/curl"; "/python"; "/python3"; "/base64"])]);
   ("token", VMap
      [("CommandLine|contains", one_of
        ["/var/run/secrets/kubernetes.io/serviceaccount"; "/var/lib/kubelet/pki";
         "/etc/kubernetes/admin.conf"; "serviceaccount/token"; "kubelet.conf"])]);
   ("condition", VStr "reader and token")].

Definition rogue_domain_controller_dcshadow : sigmaYAMLDoc := mkYAMLDoc
  "Rogue Domain Controller (DCShadow)"
  "Detects DCShadow — registering a rogue domain controller to push malicious directory replication, a stealthy AD persistence/tampering technique."
  "stable" "critical"
  ["attack.t1207"; "attack.defense_evasion"]
  (one_of ["Extremely rare; DCShadow has no legitimate use"])
  [("product", "windows"); ("category", "process_creation")]
  [("selection", VMap
      [("CommandLine|contains", one_of
        ["lsadump::dcshadow"; "!+ stealth"; "/object:"])]);
   ("dcshadow_mimikatz", VMap
      [("CommandLine|contains", one_of ["dcshadow"])]);
   ("condition", VStr "selection or dcshadow_mimikatz")].

Definition userland_rootkit_via_ld_so_preload : sigmaYAMLDoc := mkYAMLDoc
  "Userland Rootkit via ld.so.preload"
  "Detects writing to /etc/ld.so.preload or setting a global LD_PRELOAD — a classic Linux userland rootkit that injects a shared object into every dynamically-linked process to hide files/processes."
  "stable" "high"
  ["attack.t1014"; "attack.defense_evasion"]
  (one_of ["Rare legitimate use of LD_PRELOAD for debugging/profiling"])
  [("product", "linux"); ("category", "process_creation")]
  [("preload_file", VMap
      [("CommandLine|contains", one_of ["/etc/ld.so.preload"])]);
   ("ld_env", VMap
      [("CommandLine|contains", one_of
        ["export LD_PRELOAD="; "echo /tmp/"])]);
   ("ld_env2", VMap
      [("CommandLine|contains", one_of ["ld.so.preload"])]);
   ("condition", VStr "preload_file or (ld_env and ld_env2)")].

Definition bootloader_or_boot_configuration_tampering : sigmaYAMLDoc := mkYAMLDoc
  "Bootloader or Boot Configuration Tampering"
  "Detects modification of the boot configuration or bootloader (bcdedit recovery/safeboot changes, GRUB rewrite) used for bootkit persistence or to disable recovery."
  "stable" "high"
  ["attack.t1542.003"; "attack.persistence"]
  (one_of ["Legitimate OS/boot maintenance by administrators"])
  []
  [("bcdedit", VMap
      [("Image|endswith", VStr "\bcdedit.exe");
       ("CommandLine|contains", one_of
        ["safeboot"; "bootstatuspolicy"; "recoveryenabled"; "/set"])]);
   ("grub", VMap
      [("CommandLine|contains", one_of
        ["grub-install"; "grub-mkconfig"; "/boot/grub"; "update-grub"])]);
   ("condition", VStr "bcdedit or grub")].

Definition removable_media_replication_autorun_usb_drop : sigmaYAMLDoc := mkYAMLDoc
  "Removable Media Replication (autorun / USB drop)"
  "Detects staging of an autorun payload or copying executables onto removable media, used to spread across air-gapped or USB-connected hosts."
  "stable" "medium"
  ["attack.t1091"; "attack.lateral_movement"]
  (one_of ["Legitimate software distribution to external drives"])
  [("product", "windows"); ("category", "process_creation")]
  [("autorun", VMap
      [("CommandLine|contains", one_of ["autorun.inf"])]);
   ("copy_tool", VMap
      [("CommandLine|contains", one_of
        ["copy"; "xcopy"; "Copy-Item"])]);
   ("is_exe", VMap
      [("CommandLine|contains", one_of [".exe"])]);
   ("removable_target", VMap
      [("CommandLine|contains", one_of
        ["D:\"; "E:\"; "F:\"])]);
   ("condition", VStr "autorun or (copy_tool and is_exe and removable_target)")].

Definition builtins3 : list sigmaYAMLDoc :=
  [container_image_build_on_host; process_memory_credential_access_via_proc_linux;
   tor_anonymity_client_execution; browser_cookie_or_login_database_access;
   rc_script_persistence_linux; systemd_timer_persistence_linux; startup_folder_persistence;
   verclsid_com_object_proxy_execution; registry_credential_hunting; compile_after_delivery;
   powershell_profile_persistence; suspicious_python_one_liner_execution;
   ssh_authorized_keys_modification; pam_configuration_or_module_tampering;
   macos_login_or_logout_hook_persistence; applescript_elevated_execution_prompt;
   macos_hidden_account_creation_via_dscl; com_object_hijacking_via_suspicious_server_path;
   lsa_authentication_package_or_password_filter; appcert_dll_persistence;
   appinit_dll_persistence; msiexec_remote_or_unc_package_execution;
   application_shim_database_installation; mmc_spawning_a_command_shell;
   sql_server_spawning_a_command_shell; web_server_process_spawning_a_shell;
   active_setup_installed_components_persistence; service_imagepath_or_servicedll_hijack_to;
   windows_load_or_run_value_persistence; indirect_command_execution_via_trusted_utility;
   local_administrators_group_addition_via_net_exe; cloud_account_creation;
   additional_cloud_credentials; additional_cloud_roles; vnc_remote_access_tool_execution;
   direct_volume_access_raw_disk_read; rdp_session_hijack_via_tscon;
   group_policy_modification_for_code_execution; audio_capture_via_recording_api_or_tool;
   network_service_scanning_linux; security_software_discovery_linux;
   impair_defenses_via_firewall_selinux_audit; secure_file_deletion_anti_forensic_wipe_linux;
   local_account_creation_linux; macos_disable_gatekeeper_or_sip;
   macos_ingress_tool_transfer_via_curl_osascript; macos_virtualization_sandbox_evasion_checks;
   cloud_instance_metadata_service_access; container_and_orchestration_discovery;
   system_location_and_timezone_discovery; password_policy_discovery; domain_trust_discovery;
   domain_account_discovery; local_account_discovery; local_permission_groups_discovery;
   remote_system_and_domain_controller_discovery; domain_group_discovery;
   network_share_discovery; group_policy_discovery; cloud_service_and_iam_discovery;
   cloud_infrastructure_discovery; cloud_storage_object_discovery; cloud_logging_tampering;
   cloud_firewall_opening; cloud_compute_infrastructure_modification;
   browser_bookmark_and_history_discovery; credentials_from_web_browsers;
   macos_local_account_discovery_via_dscl; macos_local_account_creation;
   c2_over_legitimate_web_service; reflective_code_loading_in_memory_assembly;
   password_manager_vault_access; traffic_tunneling_via_proxy_tool;
   local_email_store_collection; kubernetes_service_account_token_access;
   rogue_domain_controller_dcshadow; userland_rootkit_via_ld_so_preload;
   bootloader_or_boot_configuration_tampering; removable_media_replication_autorun_usb_drop].

(** For each of them an event it is meant to catch. *)
Definition caught3 : list event :=
  [[("type", VStr "process"); ("Image", VStr "/docker"); ("CommandLine", VStr " build")];
   [("type", VStr "process"); ("Image", VStr "/dd"); ("CommandLine", VStr "/proc/ /mem")];
   [("type", VStr "process"); ("Image", VStr "\tor.exe")];
   [("type", VStr "process"); ("CommandLine", VStr "\Network\Cookies");
    ("Image", VStr "\cmd.exe")];
   [("type", VStr "process"); ("CommandLine", VStr "> /etc/rc.local")];
   [("type", VStr "process"); ("Image", VStr "/systemctl"); ("CommandLine", VStr ".timer")];
   [("type", VStr "process"); ("CommandLine", VStr "\Start Menu\Programs\Startup");
    ("Image", VStr "\cmd.exe")];
   [("type", VStr "process"); ("Image", VStr "\verclsid.exe"); ("CommandLine", VStr "/S /C")];
   [("type", VStr "process"); ("Image", VStr "\reg.exe");
    ("CommandLine", VStr "query /f password")];
   [("type", VStr "process"); ("Image", VStr "/gcc"); ("CommandLine", VStr "/tmp/")];
   [("type", VStr "process"); ("CommandLine", VStr "profile.ps1 Add-Content")];
   [("type", VStr "process"); ("Image", VStr "/python"); ("CommandLine", VStr " -c  base64")];
   [("type", VStr "process"); ("Image", VStr "/tee"); ("CommandLine", VStr "authorized_keys")];
   [("type", VStr "process"); ("CommandLine", VStr "/etc/pam.d/"); ("Image", VStr "/tee")];
   [("type", VStr "process"); ("Image", VStr "/defaults");
    ("CommandLine", VStr "com.apple.loginwindow LoginHook")];
   [("type", VStr "process"); ("Image", VStr "/osascript");
    ("CommandLine", VStr "administrator privileges do shell script")];
   [("type", VStr "process"); ("Image", VStr "/dscl"); ("CommandLine", VStr "create IsHidden")];
   [("type", VStr "registry"); ("TargetObject", VStr "\InprocServer32");
    ("Details", VStr "\AppData\")];
   [("type", VStr "registry"); ("TargetObject", VStr "\Lsa\Notification Packages")];
   [("type", VStr "registry"); ("TargetObject", VStr "\Session Manager\AppCertDlls")];
   [("type", VStr "registry"); ("TargetObject", VStr "\Windows\AppInit_DLLs")];
   [("type", VStr "process"); ("Image", VStr "\msiexec.exe"); ("CommandLine", VStr "http://")];
   [("type", VStr "process"); ("Image", VStr "\sdbinst.exe"); ("CommandLine", VStr ".sdb")];
   [("type", VStr "process"); ("ParentImage", VStr "\mmc.exe"); ("Image", VStr "\cmd.exe")];
   [("type", VStr "process"); ("ParentImage", VStr "\sqlservr.exe"); ("Image", VStr "\cmd.exe")];
   [("type", VStr "process"); ("ParentImage", VStr "\w3wp.exe"); ("Image", VStr "\cmd.exe")];
   [("type", VStr "registry");
    ("TargetObject", VStr "\Active Setup\Installed Components\\StubPath")];
   [("type", VStr "registry"); ("TargetObject", VStr "\Services\\ImagePath");
    ("Details", VStr "\AppData\")];
   [("type", VStr "registry"); ("TargetObject", VStr "\CurrentVersion\Windows\Load")];
   [("type", VStr "process"); ("Image", VStr "\forfiles.exe"); ("CommandLine", VStr "cmd")];
   [("type", VStr "process"); ("Image", VStr "\net.exe");
    ("CommandLine", VStr "localgroup /add administ")];
   [("type", VStr "process"); ("CommandLine", VStr "iam create-user")];
   [("type", VStr "process"); ("CommandLine", VStr "iam create-access-key")];
   [("type", VStr "process"); ("CommandLine", VStr "iam attach-user-policy")];
   [("type", VStr "process"); ("Image", VStr "\vncviewer.exe")];
   [("type", VStr "process"); ("CommandLine", VStr "\\.\C:")];
   [("type", VStr "process"); ("Image", VStr "\tscon.exe"); ("CommandLine", VStr "/dest")];
   [("type", VStr "process"); ("CommandLine", VStr "New-GPImmediateTask")];
   [("type", VStr "process"); ("CommandLine", VStr "waveInOpen")];
   [("type", VStr "process"); ("Image", VStr "/nmap")];
   [("type", VStr "process"); ("CommandLine", VStr "falcon-sensor")];
   [("type", VStr "process"); ("CommandLine", VStr "setenforce 0")];
   [("type", VStr "process"); ("Image", VStr "/shred")];
   [("type", VStr "process"); ("Image", VStr "/useradd")];
   [("type", VStr "process"); ("CommandLine", VStr "spctl --master-disable")];
   [("type", VStr "process"); ("Image", VStr "/curl"); ("CommandLine", VStr "-o ")];
   [("type", VStr "process");
    ("CommandLine", VStr "system_profiler SPHardwareDataType VirtualBox")];
   [("type", VStr "process"); ("Image", VStr "/curl"); ("CommandLine", VStr "169.254.169.254")];
   [("type", VStr "process"); ("CommandLine", VStr "docker ps")];
   [("type", VStr "process"); ("CommandLine", VStr "timedatectl")];
   [("type", VStr "process"); ("CommandLine", VStr "/etc/login.defs")];
   [("type", VStr "process"); ("CommandLine", VStr "/domain_trusts")];
   [("type", VStr "process"); ("CommandLine", VStr "net  user  /domain")];
   [("type", VStr "process"); ("CommandLine", VStr "net user")];
   [("type", VStr "process"); ("CommandLine", VStr "net localgroup")];
   [("type", VStr "process"); ("CommandLine", VStr "/dclist")];
   [("type", VStr "process"); ("CommandLine", VStr "net group /domain")];
   [("type", VStr "process"); ("CommandLine", VStr "net view \\")];
   [("type", VStr "process"); ("CommandLine", VStr "gpresult")];
   [("type", VStr "process"); ("CommandLine", VStr "sts get-caller-identity")];
   [("type", VStr "process"); ("CommandLine", VStr "ec2 describe-instances")];
   [("type", VStr "process"); ("CommandLine", VStr "s3 ls")];
   [("type", VStr "process"); ("CommandLine", VStr "cloudtrail stop-logging")];
   [("type", VStr "process");
    ("CommandLine", VStr "ec2 authorize-security-group-ingress 0.0.0.0/0")];
   [("type", VStr "process"); ("CommandLine", VStr "modify-snapshot-attribute")];
   [("type", VStr "process"); ("Image", VStr "/cat");
    ("CommandLine", VStr "Safari/Bookmarks.plist")];
   [("type", VStr "process"); ("Image", VStr "/cat");
    ("CommandLine", VStr "Chrome/Default/Login Data")];
   [("type", VStr "process"); ("CommandLine", VStr "dscl /Users")];
   [("type", VStr "process"); ("CommandLine", VStr "sysadminctl -addUser")];
   [("type", VStr "process"); ("Image", VStr "/curl"); ("CommandLine", VStr "pastebin.com/raw")];
   [("type", VStr "process"); ("CommandLine", VStr "[Reflection.Assembly]::Load")];
   [("type", VStr "process"); ("Image", VStr "/cat"); ("CommandLine", VStr ".kdbx")];
   [("type", VStr "process"); ("Image", VStr "/proxychains")];
   [("type", VStr "process"); ("Image", VStr "/cat"); ("CommandLine", VStr ".pst")];
   [("type", VStr "process"); ("Image", VStr "/cat");
    ("CommandLine", VStr "/var/run/secrets/kubernetes.io/serviceaccount")];
   [("type", VStr "process"); ("CommandLine", VStr "lsadump::dcshadow")];
   [("type", VStr "process"); ("CommandLine", VStr "/etc/ld.so.preload")];
   [("Image", VStr "\bcdedit.exe"); ("CommandLine", VStr "safeboot")];
   [("type", VStr "process"); ("CommandLine", VStr "autorun.inf")]].
