(* ===== verification/Builtins4.v ===== *)
(** * Built-in Sigma rules 238 to 314

    The literals 238 to 314 of [builtinSigmaRules] in
    [server/internal/detection/sigma_builtins.go], each as the document
    [yaml.Unmarshal] makes of it: comments are gone, scalars are strings unless
    they read as a number, the keys keep their order. *)

From Stdlib Require Import Ascii.
From S2P Require Import Prelude GoStrings Event Base64 Sigma.
From S2P Require Import Builtins1.

#[local] Open Scope string_scope.
#[local] Open Scope list_scope.
#[local] Open Scope Z_scope.

Definition software_packing_via_upx : sigmaYAMLDoc := mkYAMLDoc
  "Software Packing via UPX"
  "Detects use of the UPX executable packer to compress/obfuscate a binary, a common way to evade static AV signatures and hinder analysis."
  "stable" "medium"
  ["attack.t1027.002"; "attack.defense_evasion"]
  (one_of ["Legitimate developers packing their own release binaries"])
  [("category", "process_creation")]
  [("upx", VMap
      [("Image|contains", one_of ["upx"])]);
   ("upx_cmd", VMap
      [("CommandLine|contains", one_of
        ["upx "; "upx.exe"; "upx -d"; "upx --best"; "upx -o"])]);
   ("condition", VStr "upx or upx_cmd")].

Definition mark_of_the_web_bypass : sigmaYAMLDoc := mkYAMLDoc
  "Mark-of-the-Web Bypass"
  "Detects removal of the Zone.Identifier alternate data stream (Mark-of-the-Web) so a downloaded file runs without SmartScreen/Office protected-view warnings."
  "stable" "high"
  ["attack.t1553.005"; "attack.defense_evasion"]
  (one_of ["Rare admin scripting that legitimately unblocks trusted files"])
  [("product", "windows"); ("category", "process_creation")]
  [("unblock", VMap
      [("CommandLine|contains", one_of ["Unblock-File"])]);
   ("strip_zone", VMap
      [("CommandLine|contains", one_of ["Zone.Identifier"])]);
   ("strip_zone_ops", VMap
      [("CommandLine|contains", one_of
        ["Remove-Item"; "Clear-Content"; ":Zone.Identifier"; "streams -d"])]);
   ("condition", VStr "unblock or (strip_zone and strip_zone_ops)")].

Definition macos_re_opened_applications_persistence : sigmaYAMLDoc := mkYAMLDoc
  "macOS Re-opened Applications Persistence"
  ("Detects persistence via the macOS " +:+ dquote +:+ "reopen windows on login" +:+ dquote +:+ " mechanism — writing a malicious entry into com.apple.loginwindow so an app relaunches at every login.")
  "stable" "medium"
  ["attack.t1547.007"; "attack.persistence"]
  (one_of ["System preferences UI writing login-window state"])
  [("product", "macos"); ("category", "process_creation")]
  [("writer", VMap
      [("Image|endswith", one_of
        ["/defaults"; "/plutil"; "/tee"; "/cp"])]);
   ("loginwindow", VMap
      [("CommandLine|contains", one_of
        ["com.apple.loginwindow"; "loginwindow.plist"; "ByHost/com.apple.loginwindow"])]);
   ("condition", VStr "writer and loginwindow")].

Definition macos_emond_rule_persistence : sigmaYAMLDoc := mkYAMLDoc
  "macOS Emond Rule Persistence"
  "Detects creation of an Event Monitor (emond) rule plist, an under-watched macOS persistence mechanism that runs commands on system events."
  "stable" "high"
  ["attack.t1546.014"; "attack.persistence"]
  (one_of ["Essentially none; emond is deprecated and rarely used legitimately"])
  [("product", "macos"); ("category", "process_creation")]
  [("selection", VMap
      [("CommandLine|contains", one_of
        ["/etc/emond.d/rules"; "/private/var/db/emondClients"; "emond.d/rules"])]);
   ("condition", VStr "selection")].

Definition macos_startup_items_persistence : sigmaYAMLDoc := mkYAMLDoc
  "macOS Startup Items Persistence"
  "Detects creation of a legacy macOS StartupItem (a script + plist under /Library/StartupItems) used to run code at boot."
  "stable" "medium"
  ["attack.t1037.005"; "attack.persistence"]
  (one_of ["Legacy installers using the deprecated StartupItems mechanism"])
  [("product", "macos"); ("category", "process_creation")]
  [("writer", VMap
      [("Image|endswith", one_of
        ["/cp"; "/mv"; "/tee"; "/mkdir"; "/touch"])]);
   ("startupitem", VMap
      [("CommandLine|contains", one_of
        ["/Library/StartupItems"; "/System/Library/StartupItems"])]);
   ("condition", VStr "writer and startupitem")].

Definition windows_defender_disable_via_exclusion_service : sigmaYAMLDoc := mkYAMLDoc
  "Windows Defender Disable via Exclusion, Service, or MpCmdRun"
  "Detects broad Windows Defender tampering — adding exclusions to blind the scanner, disabling protection features, stopping the Defender services, or removing signature definitions."
  "stable" "critical"
  ["attack.t1562.001"; "attack.defense_evasion"]
  (one_of ["Authorised AV administration / security testing"])
  [("product", "windows"); ("category", "process_creation")]
  [("setmp", VMap
      [("CommandLine|contains", VStr "Set-MpPreference")]);
   ("addmp", VMap
      [("CommandLine|contains", VStr "Add-MpPreference")]);
   ("mp_evasion", VMap
      [("CommandLine|contains", one_of
        ["-Disable"; "-ExclusionPath"; "-ExclusionProcess"; "-ExclusionExtension";
         "-MAPSReporting Disabled"; "-SubmitSamplesConsent NeverSend"])]);
   ("svc_name", VMap
      [("CommandLine|contains", one_of
        ["windefend"; "wdnissvc"; " sense"; "wdboot"; "wscsvc"])]);
   ("svc_verb", VMap
      [("CommandLine|contains", one_of
        ["net stop"; "sc stop"; "sc.exe stop"; "Stop-Service"; "sc config"; "sc.exe config"])]);
   ("mpcmdrun", VMap
      [("CommandLine|contains", VStr "MpCmdRun")]);
   ("removedef", VMap
      [("CommandLine|contains", VStr "RemoveDefinitions")]);
   ("condition", VStr "((setmp or addmp) and mp_evasion) or (svc_name and svc_verb) or (mpcmdrun and removedef)")].

Definition amsi_bypass_via_inline_command : sigmaYAMLDoc := mkYAMLDoc
  "AMSI Bypass via Inline Command"
  "Detects Anti-Malware Scan Interface (AMSI) bypass patterns on the process command line — patching amsiInitFailed / AmsiScanBuffer so in-memory scripts run unscanned."
  "stable" "high"
  ["attack.t1562.001"; "attack.defense_evasion"]
  (one_of ["Security research / AV testing"])
  [("product", "windows"); ("category", "process_creation")]
  [("amsi", VMap
      [("CommandLine|contains", one_of
        ["amsiInitFailed"; "AmsiUtils"; "AmsiScanBuffer"; "AmsiScanString"; "AmsiOpenSession";
         "AmsiInitialize"; "amsi.dll"])]);
   ("condition", VStr "amsi")].

Definition etw_bypass_event_tracing_tampering : sigmaYAMLDoc := mkYAMLDoc
  "ETW Bypass / Event Tracing Tampering"
  "Detects disabling or patching of Event Tracing for Windows (ETW), used to blind EDR/telemetry — patching EtwEventWrite, tampering with the .NET EventProvider, or stopping ETW trace sessions via logman."
  "stable" "high"
  ["attack.t1562.006"; "attack.defense_evasion"]
  (one_of ["Administrators managing ETW trace sessions"])
  [("product", "windows"); ("category", "process_creation")]
  [("etw_api", VMap
      [("CommandLine|contains", one_of
        ["EtwEventWrite"; "EtwpEnableTrace"; "EtwEventUnregister"; "NtTraceEvent";
         "NtTraceControl"])]);
   ("etw_provider", VMap
      [("CommandLine|contains", one_of
        ["System.Diagnostics.Eventing.EventProvider"; "m_enabled"])]);
   ("logman", VMap
      [("CommandLine|contains|all", one_of ["logman"]);
       ("CommandLine|contains", one_of
        ["stop"; "delete"])]);
   ("condition", VStr "etw_api or etw_provider or logman")].

Definition linux_reverse_shell_via_interpreter_or_tool : sigmaYAMLDoc := mkYAMLDoc
  "Linux Reverse Shell via Interpreter or Tool"
  "Detects reverse-shell one-liners using perl/ruby/php sockets, socat EXEC, an mkfifo backpipe, nc -e, or awk's /inet network extension."
  "stable" "critical"
  ["attack.t1059.004"; "attack.execution"]
  (one_of ["Rare legitimate use of socat EXEC / gawk networking by administrators"])
  [("product", "linux"); ("category", "process_creation")]
  [("perl_sock", VMap
      [("CommandLine|contains|all", one_of
        ["perl"; "Socket"])]);
   ("perl_exec", VMap
      [("CommandLine|contains", one_of
        ["exec("; "/bin/sh"; "/bin/bash"])]);
   ("ruby_sock", VMap
      [("CommandLine|contains", one_of
        ["ruby -rsocket"; "TCPSocket"])]);
   ("php_sock", VMap
      [("CommandLine|contains|all", one_of
        ["php"; "fsockopen"])]);
   ("socat_exec", VMap
      [("CommandLine|contains|all", one_of
        ["socat"; "EXEC:"])]);
   ("fifo", VMap
      [("CommandLine|contains", VStr "mkfifo")]);
   ("fifo_net", VMap
      [("CommandLine|contains", one_of
        ["nc "; "ncat"; "/dev/tcp"])]);
   ("nc_exec", VMap
      [("CommandLine|contains", one_of
        ["nc -e"; "ncat -e"; "nc.traditional -e"])]);
   ("awk_inet", VMap
      [("CommandLine|contains", VStr "/inet/tcp/")]);
   ("condition", VStr "(perl_sock and perl_exec) or ruby_sock or php_sock or socat_exec or (fifo and fifo_net) or nc_exec or awk_inet")].

Definition download_or_decode_piped_to_shell_linux : sigmaYAMLDoc := mkYAMLDoc
  "Download or Decode Piped to Shell (Linux)"
  "Detects a remote fetch (curl/wget) or a base64 decode piped directly into a shell — LOLBin-free download-and-execute."
  "stable" "high"
  ["attack.t1059.004"; "attack.execution"]
  (one_of ["Some software install instructions legitimately use curl | bash (still risky)"])
  [("product", "linux"); ("category", "process_creation")]
  [("source", VMap
      [("CommandLine|contains", one_of
        ["curl"; "wget"; "base64 -d"; "base64 --decode"; "fetch"])]);
   ("pipe_shell", VMap
      [("CommandLine|contains", one_of
        ["| bash"; "|bash"; "| sh"; "|sh"; "| /bin/bash"; "|/bin/bash"; "| /bin/sh"; "|/bin/sh";
         "| zsh"; "|zsh"])]);
   ("condition", VStr "source and pipe_shell")].

Definition windows_privilege_escalation_enumeration_tool : sigmaYAMLDoc := mkYAMLDoc
  "Windows Privilege Escalation Enumeration Tool Execution"
  "Detects execution of common local-privilege-escalation enumeration tools/scripts (WinPEAS, Seatbelt, PowerUp, SharpUp, Watson, Sherlock, PrivescCheck) used to find misconfigurations worth exploiting for SYSTEM/Admin access."
  "stable" "high"
  ["attack.t1082"; "attack.discovery"; "attack.privilege_escalation"]
  (one_of ["Authorised penetration testing / red-team privilege-escalation assessments"])
  [("product", "windows"); ("category", "process_creation")]
  [("selection", VMap
      [("CommandLine|contains", one_of
        ["winpeas"; "Seatbelt"; "Invoke-AllChecks"; "PowerUp.ps1"; "SharpUp"; "Watson.exe";
         "Sherlock.ps1"; "Find-AllVulns"; "Invoke-PrivescCheck"; "PrivescCheck.ps1"])]);
   ("condition", VStr "selection")].

Definition forced_system_shutdown_or_reboot_via_shutdown : sigmaYAMLDoc := mkYAMLDoc
  "Forced System Shutdown or Reboot via shutdown.exe"
  "Detects forced system shutdown or reboot via shutdown.exe (/r or /s with /f), used to disrupt operations or to force a reboot after wiper/ransomware activity."
  "stable" "low"
  ["attack.t1529"; "attack.impact"]
  (one_of ["An administrator force-rebooting an unresponsive host"])
  [("product", "windows"); ("category", "process_creation")]
  [("tool", VMap
      [("Image|endswith", VStr "\shutdown.exe")]);
   ("action", VMap
      [("CommandLine|contains", one_of
        [" /r"; " /s"; " -r"; " -s"])]);
   ("forced", VMap
      [("CommandLine|contains", one_of
        [" /f"; " -f"; " /t 0"; " -t 0"])]);
   ("condition", VStr "tool and action and forced")].

Definition lateral_tool_transfer_to_administrative_share : sigmaYAMLDoc := mkYAMLDoc
  "Lateral Tool Transfer to Administrative Share"
  "Detects copying files to a remote Windows administrative share (C$, ADMIN$, IPC$) via a copy utility — a common lateral-movement staging step for spreading tooling to other hosts."
  "stable" "medium"
  ["attack.t1570"; "attack.lateral_movement"]
  (one_of ["Administrative deployment scripts that stage files to admin shares"])
  [("product", "windows"); ("category", "process_creation")]
  [("tool", VMap
      [("Image|endswith", one_of
        ["\xcopy.exe"; "\robocopy.exe"; "\cmd.exe"; "\powershell.exe"; "\pwsh.exe"])]);
   ("share", VMap
      [("CommandLine|contains", one_of
        ["C$"; "ADMIN$"; "IPC$"])]);
   ("condition", VStr "tool and share")].

Definition virtualization_or_sandbox_discovery_via_wmic : sigmaYAMLDoc := mkYAMLDoc
  "Virtualization or Sandbox Discovery via WMIC Hardware Query"
  "Detects WMIC queries that read virtualization-revealing hardware properties (model, manufacturer, serial, baseboard product) or filter hardware output for hypervisor vendor strings — used by malware to identify a VM or sandbox before detonating. Queries that read non-revealing properties such as name/domain are ordinary asset inventory and are deliberately NOT matched."
  "stable" "low"
  ["attack.t1497"; "attack.defense_evasion"; "attack.discovery"]
  (one_of ["Asset-management tooling that specifically collects hardware model or serial for inventory"])
  [("product", "windows"); ("category", "process_creation")]
  [("tool", VMap
      [("Image|endswith", VStr "\WMIC.exe")]);
   ("class", VMap
      [("CommandLine|contains", one_of
        ["computersystem"; "win32_computersystem"; "bios"; "baseboard"; "csproduct"])]);
   ("revealing_property", VMap
      [("CommandLine|contains", one_of
        ["model"; "manufacturer"; "serialnumber"; " product"; "smbiosbiosversion"; "uuid";
         "identifyingnumber"; "vendor"])]);
   ("vmvendor", VMap
      [("CommandLine|contains", one_of
        ["vmware"; "virtualbox"; "vbox"; "qemu"; "parallels"; "innotek"; "hyper-v"])]);
   ("condition", VStr "tool and ((class and revealing_property) or vmvendor)")].

Definition security_tooling_registry_tampering_direct_write : sigmaYAMLDoc := mkYAMLDoc
  "Security Tooling Registry Tampering (Direct Write)"
  ("Detects direct registry writes that DISABLE Windows Defender or widen its exclusions (not via reg.exe) — DisableAntiSpyware / DisableRealtimeMonitoring / TamperProtection / \Exclusions\ set through the registry API — which the process_creation rules do not see. Requires a tamper-indicating policy path or value name in addition to the Defender key. Matching the Defender key ALONE made this fire on MsMpEng.exe writing its own " +:+ dquote +:+ "Signature Updates\SignatureLastUpdated" +:+ dquote +:+ " — Defender doing its job was reported as security-tooling tampering, and it was the second-largest false positive in the 2026-08-02 FP soak (24 alerts).")
  "stable" "high"
  ["attack.t1562.001"; "attack.t1112"; "attack.defense_evasion"]
  (one_of ["Enterprise policy management of Defender via GPO (writes the policy subtree by design)"])
  [("product", "windows"); ("category", "registry_set")]
  [("defender_key", VMap
      [("TargetObject|contains", one_of
        ["\Windows Defender"; "\Microsoft\Windows Defender";
         "\Windows Advanced Threat Protection"])]);
   ("tamper", VMap
      [("TargetObject|contains", one_of
        ["\Policies\Microsoft\Windows Defender"; "DisableAntiSpyware"; "DisableAntiVirus";
         "DisableRealtimeMonitoring"; "DisableBehaviorMonitoring"; "DisableIOAVProtection";
         "DisableScriptScanning"; "DisableOnAccessProtection"; "DisableScanOnRealtimeEnable";
         "DisableBlockAtFirstSeen"; "TamperProtection"; "\Exclusions\"])]);
   ("condition", VStr "defender_key and tamper")].

Definition ingress_tool_transfer_via_interpreter : sigmaYAMLDoc := mkYAMLDoc
  "Ingress Tool Transfer via Interpreter"
  "Detects a scripting interpreter (python/perl/ruby/php) downloading a payload over HTTP — a common way to evade curl/wget-based ingress-tool-transfer rules."
  "stable" "medium"
  ["attack.t1105"; "attack.command_and_control"]
  (one_of ["Legitimate scripts that fetch resources over HTTP via an interpreter"])
  [("product", "linux"); ("category", "process_creation")]
  [("interp", VMap
      [("CommandLine|contains", one_of
        ["urllib"; "urlretrieve"; "requests.get"; "LWP::Simple"; "Net::HTTP";
         "file_get_contents"; "open-uri"])]);
   ("url", VMap
      [("CommandLine|contains", one_of
        ["http://"; "https://"])]);
   ("condition", VStr "interp and url")].

Definition base64_payload_decoded_and_piped_to_a_shell_or : sigmaYAMLDoc := mkYAMLDoc
  "Base64 Payload Decoded and Piped to a Shell or Interpreter"
  "Detects a base64 blob decoded and piped into a shell/interpreter (base64 -d | sh, python b64decode+exec) — a common deobfuscation/evasion step on Linux that the Windows -enc/certutil rules do not cover."
  "stable" "medium"
  ["attack.t1140"; "attack.t1027"; "attack.defense_evasion"]
  (one_of ["Packaging or build scripts that legitimately decode embedded base64 data"])
  [("product", "linux"); ("category", "process_creation")]
  [("decode", VMap
      [("CommandLine|contains", one_of
        ["base64 -d"; "base64 --decode"; "b64decode"; "openssl enc -base64 -d";
         "openssl base64 -d"])]);
   ("execute", VMap
      [("CommandLine|contains", one_of
        ["| sh"; "|sh"; "| bash"; "|bash"; "exec("; "eval("; "system("; "popen("; "| python";
         "|python"])]);
   ("condition", VStr "decode and execute")].

Definition setuid_setgid_binary_enumeration : sigmaYAMLDoc := mkYAMLDoc
  "Setuid/Setgid Binary Enumeration"
  "Detects enumeration of setuid/setgid binaries via find -perm, a common Linux privilege-escalation reconnaissance step used to locate GTFOBins candidates for exploitation."
  "stable" "medium"
  ["attack.t1548.001"; "attack.privilege_escalation"; "attack.discovery"]
  (one_of ["Authorised security audits enumerating setuid binaries"])
  [("product", "linux"); ("category", "process_creation")]
  [("tool", VMap
      [("Image|endswith", VStr "/find")]);
   ("perm", VMap
      [("CommandLine|contains", one_of
        ["-perm -4000"; "-perm -2000"; "-perm -u=s"; "-perm -g=s"; "-perm /4000"; "-perm 4000";
         "-perm /6000"])]);
   ("condition", VStr "tool and perm")].

Definition network_service_scanning_tool_execution : sigmaYAMLDoc := mkYAMLDoc
  "Network Service Scanning Tool Execution"
  "Detects execution of network-scanning tools (nmap/masscan/rustscan/zmap) or netcat connect-scan sweeps (-z), used to discover reachable services for lateral movement."
  "stable" "medium"
  ["attack.t1046"; "attack.discovery"]
  (one_of ["Authorised vulnerability scanning or network inventory"])
  [("product", "linux"); ("category", "process_creation")]
  [("scanner", VMap
      [("Image|endswith", one_of
        ["/nmap"; "/masscan"; "/rustscan"; "/zmap"; "/zgrab"])]);
   ("nc_sweep", VMap
      [("Image|endswith", one_of
        ["/nc"; "/ncat"; "/netcat"]);
       ("CommandLine|contains", one_of [" -z"])]);
   ("condition", VStr "scanner or nc_sweep")].

Definition macos_virtualization_sandbox_discovery : sigmaYAMLDoc := mkYAMLDoc
  "macOS Virtualization/Sandbox Discovery"
  "Detects hypervisor-presence probes on macOS — the kern.hv_vmm_present / kern.hv_support sysctls, the CPUID hypervisor (VMM) feature bit, and ioreg queries filtered for hypervisor artifacts — used by malware to identify an analysis VM before executing. Deliberately does NOT match bare system_profiler/ioreg hardware reads, which are how every MDM inventory agent obtains a Mac's serial and UUID and carry no virtualization signal on their own."
  "stable" "low"
  ["attack.t1497"; "attack.defense_evasion"; "attack.discovery"]
  (one_of ["Virtualization tooling legitimately checking hypervisor availability before starting a VM"])
  [("product", "macos"); ("category", "process_creation")]
  [("sysctl_hypervisor", VMap
      [("CommandLine|contains", one_of
        ["kern.hv_vmm_present"; "kern.hv_support"])]);
   ("cpuid_vmm_bit", VMap
      [("CommandLine|contains|all", one_of
        ["machdep.cpu.features"; "VMM"])]);
   ("ioreg_hypervisor", VMap
      [("CommandLine|contains|all", one_of
        ["ioreg"; "hypervisor"])]);
   ("condition", VStr "sysctl_hypervisor or cpuid_vmm_bit or ioreg_hypervisor")].

Definition macos_log_clearing : sigmaYAMLDoc := mkYAMLDoc
  "macOS Log Clearing"
  "Detects clearing of macOS unified/system logs (log erase, deletion of /var/log or diagnostic stores) used to remove evidence of activity."
  "stable" "medium"
  ["attack.t1070.002"; "attack.defense_evasion"]
  (one_of ["Administrative log rotation or cleanup"])
  [("product", "macos"); ("category", "process_creation")]
  [("logerase", VMap
      [("Image|endswith", VStr "/log");
       ("CommandLine|contains", VStr "erase")]);
   ("rmlogs", VMap
      [("CommandLine|contains", one_of
        ["rm -rf /private/var/log"; "rm -rf /var/log"; "rm /var/log";
         "/private/var/db/diagnostics"])]);
   ("condition", VStr "logerase or rmlogs")].

Definition macos_tcc_privacy_protection_tampering : sigmaYAMLDoc := mkYAMLDoc
  "macOS TCC Privacy Protection Tampering"
  "Detects resetting or direct manipulation of the macOS TCC privacy database (tccutil reset, access to TCC.db) to grant unauthorized access to protected resources such as the camera, microphone or full disk."
  "stable" "high"
  ["attack.t1548.006"; "attack.privilege_escalation"; "attack.defense_evasion"]
  (one_of ["Authorised MDM/privacy management tooling"])
  [("product", "macos"); ("category", "process_creation")]
  [("tccutil", VMap
      [("Image|endswith", VStr "/tccutil");
       ("CommandLine|contains", VStr "reset")]);
   ("tccdb", VMap
      [("CommandLine|contains", one_of
        ["TCC.db"; "com.apple.TCC"])]);
   ("condition", VStr "tccutil or tccdb")].

Definition anti_recovery_free_space_wipe_or_usn_journal : sigmaYAMLDoc := mkYAMLDoc
  "Anti-Recovery Free-Space Wipe or USN Journal Deletion"
  "Detects wiping of free disk space (cipher /w) or deletion of the NTFS USN change journal (fsutil usn deletejournal) — anti-forensic / anti-recovery steps run by ransomware and wipers to prevent file carving and undelete after encryption."
  "stable" "high"
  ["attack.t1490"; "attack.impact"; "attack.defense_evasion"]
  (one_of ["Rare legitimate secure-wipe of free space by an administrator"])
  [("product", "windows"); ("category", "process_creation")]
  [("cipher_wipe", VMap
      [("Image|endswith", VStr "\cipher.exe");
       ("CommandLine|contains", VStr "/w")]);
   ("usn", VMap
      [("Image|endswith", VStr "\fsutil.exe");
       ("CommandLine|contains|all", one_of
        ["usn"; "deletejournal"])]);
   ("condition", VStr "cipher_wipe or usn")].

Definition capsh_privilege_escalation_linux : sigmaYAMLDoc := mkYAMLDoc
  "Capsh Privilege Escalation (Linux)"
  "Detects capsh used to drop into a root shell (capsh --gid=0 --uid=0 -- , or --) — a GTFOBins privilege-escalation technique when capsh is sudo-allowed or SUID."
  "stable" "high"
  ["attack.t1548.003"; "attack.privilege_escalation"]
  (one_of ["Rare legitimate capsh usage in container tooling"])
  [("product", "linux"); ("category", "process_creation")]
  [("selection", VMap
      [("Image|endswith", VStr "/capsh");
       ("CommandLine|contains", one_of
        ["--gid=0"; "--uid=0"; "-- "])]);
   ("condition", VStr "selection")].

Definition cloud_backdoor_account_creation_iam_user_service : sigmaYAMLDoc := mkYAMLDoc
  "Cloud Backdoor Account Creation (IAM User / Service Principal)"
  "Detects creation of a new cloud identity — AWS IAM user, GCP service account (plus a key for it), or an Azure AD user/service principal — a durable backdoor that survives credential rotation on the original compromised identity and often goes unnoticed among routine IAM activity."
  "stable" "high"
  ["attack.t1136.003"; "attack.persistence"]
  (one_of ["Authorised onboarding automation / IaC pipelines creating service accounts"])
  []
  [("aws", VMap
      [("CommandLine|contains", VStr "iam create-user")]);
   ("gcp", VMap
      [("CommandLine|contains", one_of
        ["iam service-accounts create"; "iam service-accounts keys create"])]);
   ("az", VMap
      [("CommandLine|contains", one_of
        ["ad user create"; "ad sp create-for-rbac"; "ad app credential reset"])]);
   ("condition", VStr "aws or gcp or az")].

Definition cloud_iam_privilege_escalation_via_cli : sigmaYAMLDoc := mkYAMLDoc
  "Cloud IAM Privilege Escalation via CLI"
  "Detects granting elevated cloud privileges — attaching AdministratorAccess/creating access keys/inline admin policies on AWS IAM, or binding Owner/Editor roles on GCP/Azure — a post-compromise persistence and escalation step."
  "stable" "high"
  ["attack.t1098"; "attack.privilege_escalation"; "attack.persistence"]
  (one_of ["Authorised IAM administration / IaC pipelines"])
  []
  [("aws", VMap
      [("CommandLine|contains", one_of
        ["iam attach-user-policy"; "iam attach-role-policy"; "iam create-access-key";
         "iam put-user-policy"; "iam create-login-profile"])]);
   ("aws_admin", VMap
      [("CommandLine|contains", one_of
        ["AdministratorAccess"; "iam create-access-key"; "iam put-user-policy";
         "iam create-login-profile"])]);
   ("gcp", VMap
      [("CommandLine|contains", one_of ["add-iam-policy-binding"])]);
   ("gcp_role", VMap
      [("CommandLine|contains", one_of
        ["roles/owner"; "roles/editor"; "roles/iam.serviceAccountTokenCreator"])]);
   ("az", VMap
      [("CommandLine|contains|all", one_of
        ["role assignment create"; "Owner"])]);
   ("condition", VStr "(aws and aws_admin) or (gcp and gcp_role) or az")].

Definition cloud_instance_metadata_service_imds_credential : sigmaYAMLDoc := mkYAMLDoc
  "Cloud Instance Metadata Service (IMDS) Credential Access"
  "Detects access to the cloud instance-metadata service (AWS/Azure/OCI 169.254.169.254, GCP metadata.google.internal, Alibaba 100.100.100.200) from a command-line tool — the classic path for stealing instance IAM/role credentials via SSRF or after a foothold (e.g. …/latest/meta-data/iam/security-credentials/, Azure …/identity/oauth2/token)."
  "stable" "high"
  ["attack.t1552.005"; "attack.credential_access"]
  (one_of ["Instance bootstrap / cloud-init or monitoring agents that query metadata by shell"])
  []
  [("endpoint", VMap
      [("CommandLine|contains", one_of
        ["169.254.169.254"; "metadata.google.internal"; "100.100.100.200"])]);
   ("intent", VMap
      [("CommandLine|contains", one_of
        ["security-credentials"; "/identity/oauth2/token"; "/computeMetadata/";
         "/metadata/instance"; "meta-data"])]);
   ("condition", VStr "endpoint and intent")].

Definition cloud_logging_disabled_via_cli : sigmaYAMLDoc := mkYAMLDoc
  "Cloud Logging Disabled via CLI"
  "Detects disabling or deleting cloud audit logging — AWS CloudTrail stop-logging/delete-trail, or Azure/GCP equivalents — a defense-evasion step to blind detection before further activity."
  "stable" "high"
  ["attack.t1562.008"; "attack.defense_evasion"]
  (one_of ["Authorised logging reconfiguration / decommissioning"])
  []
  [("selection", VMap
      [("CommandLine|contains", one_of
        ["cloudtrail stop-logging"; "cloudtrail delete-trail"; "cloudtrail update-trail";
         "monitor diagnostic-settings delete"; "logging sinks delete"; "logging buckets update"])]);
   ("condition", VStr "selection")].

Definition cloud_persistence_via_scheduled_event_trigger : sigmaYAMLDoc := mkYAMLDoc
  "Cloud Persistence via Scheduled Event Trigger (EventBridge/Cloud Scheduler)"
  "Detects wiring a cloud event-scheduling service to invoke a compute target — AWS EventBridge/CloudWatch Events put-targets pointing at a Lambda/SSM/Step-Functions ARN, or GCP Cloud Scheduler job creation — the cloud analogue of a scheduled task, letting an implant re-trigger itself independent of the original access path."
  "stable" "high"
  ["attack.t1053.005"; "attack.persistence"]
  (one_of ["Authorised automation wiring EventBridge rules to Lambda/SSM/Step Functions"])
  []
  [("put_targets", VMap
      [("CommandLine|contains", VStr "events put-targets")]);
   ("target_arn", VMap
      [("CommandLine|contains", one_of
        ["arn:aws:lambda"; "arn:aws:ssm"; "arn:aws:states"])]);
   ("gcp", VMap
      [("CommandLine|contains", VStr "scheduler jobs create")]);
   ("condition", VStr "(put_targets and target_arn) or gcp")].

Definition cloud_security_service_disabled_via_cli : sigmaYAMLDoc := mkYAMLDoc
  "Cloud Security Service Disabled via CLI"
  "Detects disabling a cloud threat-detection service — AWS GuardDuty/SecurityHub, Azure Defender/Security Center, or GCP Security Command Center — to remove monitoring before or during an intrusion."
  "stable" "high"
  ["attack.t1562.001"; "attack.defense_evasion"]
  (one_of ["Authorised security-tooling changes / cost management"])
  []
  [("selection", VMap
      [("CommandLine|contains", one_of
        ["guardduty delete-detector"; "guardduty update-detector";
         "securityhub disable-security-hub"; "securityhub update-standards-control";
         "security pricing create --tier free"; "scc settings";
         "config delete-configuration-recorder"])]);
   ("condition", VStr "selection")].

Definition cloud_serverless_function_tampering_via_cli : sigmaYAMLDoc := mkYAMLDoc
  "Cloud Serverless Function Tampering via CLI"
  "Detects modification or creation of a serverless function's code — AWS Lambda update-function-code/create-function, GCP functions deploy, or Azure functionapp deployment — a stealthy cloud persistence/backdoor and execution vector (implant code that runs on a trigger)."
  "stable" "high"
  ["attack.t1525"; "attack.persistence"]
  (one_of ["CI/CD pipelines deploying serverless code"])
  []
  [("selection", VMap
      [("CommandLine|contains", one_of
        ["lambda update-function-code"; "lambda create-function";
         "lambda update-function-configuration"; "functions deploy"; "functionapp deployment";
         "functionapp create"])]);
   ("condition", VStr "selection")].

Definition cloud_service_discovery_or_secret_enumeration : sigmaYAMLDoc := mkYAMLDoc
  "Cloud Service Discovery or Secret Enumeration via CLI"
  "Detects post-compromise cloud reconnaissance and secret enumeration through the provider CLIs — aws sts/iam/secretsmanager, az account/role, gcloud auth/projects — used to map the account and pull stored credentials after gaining a foothold."
  "experimental" "medium"
  ["attack.t1526"; "attack.discovery"]
  (one_of ["Legitimate cloud administration and CI/CD pipelines"])
  []
  [("aws", VMap
      [("CommandLine|contains|all", one_of
        ["aws"; " sts get-caller-identity"])]);
   ("aws_enum", VMap
      [("CommandLine|contains", one_of
        ["secretsmanager get-secret-value"; "iam list-access-keys"; "iam list-users";
         "ec2 describe-instances"])]);
   ("az", VMap
      [("CommandLine|contains", one_of
        ["az account list"; "az role assignment list"; "az ad"])]);
   ("gcloud", VMap
      [("CommandLine|contains", one_of
        ["gcloud auth list"; "gcloud projects list"; "gcloud secrets versions access"])]);
   ("condition", VStr "aws or aws_enum or az or gcloud")].

Definition container_breakout_via_proc_self_exe_overwrite : sigmaYAMLDoc := mkYAMLDoc
  "Container Breakout via /proc/self/exe Overwrite (Linux)"
  "Detects a command that writes to or copies over /proc/self/exe (or a /proc/<pid>/exe handle) — the runc/container-runtime overwrite primitive (CVE-2019-5736) used to escape a container and gain host code execution."
  "stable" "critical"
  ["attack.t1611"; "attack.privilege_escalation"]
  (one_of ["Rare debugging that legitimately reads /proc/<pid>/exe (write pattern reduces this)"])
  [("product", "linux"); ("category", "process_creation")]
  [("target", VMap
      [("CommandLine|contains", VStr "/proc/self/exe")]);
   ("writeverb", VMap
      [("CommandLine|contains", one_of
        [" > "; " dd "; " cp "; " cat "; " tee "; "O_WRONLY"])]);
   ("condition", VStr "target and writeverb")].

Definition cron_or_at_job_spawning_a_reverse_shell_linux : sigmaYAMLDoc := mkYAMLDoc
  "Cron or At Job Spawning a Reverse Shell (Linux)"
  "Detects a cron/at daemon child whose command line carries a reverse-shell / remote-exec pattern (/dev/tcp, nc -e, bash -i, python socket, socat, mkfifo) — scheduled-task persistence used to run an interactive C2 shell rather than a benign maintenance job."
  "stable" "high"
  ["attack.t1053.003"; "attack.execution"; "attack.persistence"]
  (one_of ["Rare maintenance jobs that legitimately use netcat/socat"])
  [("product", "linux"); ("category", "process_creation")]
  [("cron", VMap
      [("ParentImage|endswith", one_of
        ["/cron"; "/crond"; "/atd"])]);
   ("revshell", VMap
      [("CommandLine|contains", one_of
        ["/dev/tcp/"; "nc -e"; "ncat -e"; "bash -i"; "sh -i"; "socat "; "mkfifo ";
         "import socket"])]);
   ("condition", VStr "cron and revshell")].

Definition dpapi_master_key_or_secret_extraction : sigmaYAMLDoc := mkYAMLDoc
  "DPAPI Master Key or Secret Extraction"
  "Detects abuse of the Windows Data Protection API (DPAPI) to decrypt stored secrets — mimikatz dpapi::, SharpDPAPI, or a /masterkey argument — used to recover browser passwords, saved credentials, and certificates offline."
  "stable" "high"
  ["attack.t1555.003"; "attack.credential_access"]
  (one_of ["Rare legitimate DPAPI backup/recovery tooling"])
  [("product", "windows"); ("category", "process_creation")]
  [("selection", VMap
      [("CommandLine|contains", one_of
        ["dpapi::"; "SharpDPAPI"; "/masterkey:"; "/rpc /server"; "dpapi::masterkey";
         "dpapi::cred"])]);
   ("condition", VStr "selection")].

Definition dangerous_capability_assignment_via_setcap_linux : sigmaYAMLDoc := mkYAMLDoc
  "Dangerous Capability Assignment via setcap (Linux)"
  "Detects granting a dangerous Linux capability (cap_setuid, cap_setgid, cap_dac_read_search, cap_sys_admin, cap_sys_ptrace) to a binary via setcap — a stealthy privilege-escalation/persistence primitive that lets an unprivileged user run the binary with elevated powers without a SUID bit."
  "stable" "high"
  ["attack.t1548"; "attack.privilege_escalation"; "attack.persistence"]
  (one_of ["Legitimate software installers that grant a capability (e.g. ping cap_net_raw is different and not matched)"])
  [("product", "linux"); ("category", "process_creation")]
  [("setcap", VMap
      [("Image|endswith", VStr "/setcap")]);
   ("danger", VMap
      [("CommandLine|contains", one_of
        ["cap_setuid"; "cap_setgid"; "cap_dac_read_search"; "cap_sys_admin"; "cap_sys_ptrace"])]);
   ("condition", VStr "setcap and danger")].

Definition data_exfiltration_via_rclone : sigmaYAMLDoc := mkYAMLDoc
  "Data Exfiltration via Rclone"
  "Detects rclone copying/syncing data to cloud storage backends, a common exfiltration tool in ransomware intrusions."
  "stable" "high"
  ["attack.t1567.002"; "attack.exfiltration"]
  (one_of ["Sanctioned backup workflows that use rclone"])
  [("product", "windows"); ("category", "process_creation")]
  [("selection", VMap
      [("Image|contains", VStr "rclone");
       ("CommandLine|contains", one_of
        ["copy"; "sync"; " mega"; ":b2"; ":s3"; "--transfers"; "--multi-thread"])]);
   ("condition", VStr "selection")].

Definition database_daemon_spawning_a_shell_linux : sigmaYAMLDoc := mkYAMLDoc
  "Database Daemon Spawning a Shell (Linux)"
  "Detects a database server process (mysqld/mariadbd/postgres/mongod) spawning a shell or interpreter — a strong indicator of SQL-injection-to-RCE or abuse of a DB user-defined function/COPY TO PROGRAM to execute OS commands."
  "stable" "high"
  ["attack.t1190"; "attack.execution"]
  (one_of ["Rare DB maintenance jobs that legitimately shell out"])
  [("product", "linux"); ("category", "process_creation")]
  [("db", VMap
      [("ParentImage|endswith", one_of
        ["/mysqld"; "/mariadbd"; "/postgres"; "/mongod"])]);
   ("shell", VMap
      [("Image|endswith", one_of
        ["/sh"; "/bash"; "/dash"; "/zsh"; "/python"; "/python3"; "/perl"; "/nc"; "/ncat"])]);
   ("condition", VStr "db and shell")].

Definition disk_image_mounted_for_container_smuggling_iso : sigmaYAMLDoc := mkYAMLDoc
  "Disk Image Mounted for Container Smuggling (ISO/IMG/VHD)"
  "Detects mounting a disk image (Mount-DiskImage / PowerShell -ImagePath, or diskpart attach) referencing an .iso/.img/.vhd — the container-smuggling technique that ships a payload inside an image to bypass Mark-of-the-Web and email gateways, then runs a LNK/exe from the mounted volume."
  "stable" "high"
  ["attack.t1553.005"; "attack.defense_evasion"]
  (one_of ["Legitimate software distribution or VM tooling that mounts images"])
  [("product", "windows"); ("category", "process_creation")]
  [("mount", VMap
      [("CommandLine|contains", one_of
        ["Mount-DiskImage"; "-ImagePath"; "attach vdisk"])]);
   ("image", VMap
      [("CommandLine|contains", one_of
        [".iso"; ".img"; ".vhd"])]);
   ("condition", VStr "mount and image")].

Definition domain_controller_authentication_tampering : sigmaYAMLDoc := mkYAMLDoc
  "Domain Controller Authentication Tampering (DCShadow/AdminSDHolder Abuse)"
  "Detects rogue-DC replication abuse (mimikatz lsadump::dcshadow) that injects attacker-controlled changes directly into AD replication, or ACL manipulation on the AdminSDHolder object (dsacls) — both grant a persistent, hard-to-revoke path back to Domain Admin privileges."
  "stable" "critical"
  ["attack.t1556.001"; "attack.credential_access"; "attack.persistence"]
  (one_of ["Rare legitimate AdminSDHolder ACL review or maintenance by AD administrators"])
  [("product", "windows"); ("category", "process_creation")]
  [("dcshadow", VMap
      [("CommandLine|contains", one_of
        ["lsadump::dcshadow"; "/pushmode"])]);
   ("adminsdholder", VMap
      [("CommandLine|contains|all", one_of
        ["dsacls"; "AdminSDHolder"])]);
   ("condition", VStr "dcshadow or adminsdholder")].

Definition domain_policy_modification_via_gpo_tampering : sigmaYAMLDoc := mkYAMLDoc
  "Domain Policy Modification via GPO Tampering"
  "Detects creating or modifying a Group Policy Object (New-GPO / Set-GPRegistryValue / Set-GPPrefRegistryValue) or using the offensive SharpGPOAbuse tool — a domain-wide persistence and defense-evasion technique that can push a malicious scheduled task, registry value or script to every computer in an OU without touching each host individually."
  "stable" "high"
  ["attack.t1484.001"; "attack.defense_evasion"; "attack.privilege_escalation"]
  (one_of ["Authorised Group Policy administration via PowerShell AD/GPO modules"])
  [("product", "windows"); ("category", "process_creation")]
  [("selection", VMap
      [("CommandLine|contains", one_of
        ["New-GPO"; "Set-GPRegistryValue"; "Set-GPPrefRegistryValue"; "SharpGPOAbuse"])]);
   ("condition", VStr "selection")].

Definition execution_from_deleted_binary_linux : sigmaYAMLDoc := mkYAMLDoc
  "Execution From Deleted Binary (Linux)"
  ("Detects a process running from a binary that has been unlinked from disk — the kernel marks such an executable path " +:+ dquote +:+ "(deleted)" +:+ dquote +:+ ". Dropping, executing, then deleting a payload (or running an already-unlinked file) is a classic anti-forensic / fileless persistence trick.")
  "stable" "high"
  ["attack.t1620"; "attack.defense_evasion"]
  (one_of ["A binary updated/replaced while still running (e.g. package upgrade) can briefly appear deleted"])
  [("product", "linux"); ("category", "process_creation")]
  [("selection", VMap
      [("Image|endswith", VStr " (deleted)")]);
   ("condition", VStr "selection")].

Definition execution_from_shared_memory_path_linux : sigmaYAMLDoc := mkYAMLDoc
  "Execution From Shared-Memory Path (Linux)"
  "Detects a process whose executable lives under a memory-backed filesystem (/dev/shm, /run/shm) — code staged in shared memory and executed to avoid touching disk, a fileless/reflective-loading pattern."
  "stable" "high"
  ["attack.t1620"; "attack.defense_evasion"]
  (one_of ["Rare software that legitimately runs helpers from shared memory"])
  [("product", "linux"); ("category", "process_creation")]
  [("selection", VMap
      [("Image|contains", one_of
        ["/dev/shm/"; "/run/shm/"])]);
   ("condition", VStr "selection")].

Definition kerberos_golden_or_silver_ticket_forgery : sigmaYAMLDoc := mkYAMLDoc
  "Kerberos Golden or Silver Ticket Forgery"
  "Detects forging of Kerberos tickets — mimikatz kerberos::golden / kerberos::silver, or Rubeus golden/silver — using a stolen krbtgt or service account hash to mint arbitrary tickets for domain-wide, long-lived access."
  "stable" "critical"
  ["attack.t1558.001"; "attack.credential_access"]
  (one_of ["Authorised red-team / AD security assessments"])
  [("product", "windows"); ("category", "process_creation")]
  [("selection", VMap
      [("CommandLine|contains", one_of
        ["kerberos::golden"; "kerberos::silver"; "/krbtgt:"; "golden /user:"; " silver /";
         "/ticket:golden"])]);
   ("condition", VStr "selection")].

Definition lsa_protection_disabled_via_registry_value : sigmaYAMLDoc := mkYAMLDoc
  "LSA Protection Disabled via Registry Value"
  "Detects clearing of the LSASS run-as-PPL protection (HKLM\SYSTEM\CurrentControlSet\Control\Lsa\RunAsPPL=0) or the Credential Guard flag (LsaCfgFlags=0) — removing the OS defence that blocks LSASS memory reads, a common precursor staged before credential dumping."
  "stable" "high"
  ["attack.t1562.001"; "attack.defense_evasion"]
  (one_of ["Rare legitimate rollback of an LSA-protection hardening change"])
  [("product", "windows"); ("category", "registry_event")]
  [("runasppl", VMap
      [("TargetObject|endswith", VStr "\Control\Lsa\RunAsPPL");
       ("Details", VStr "0")]);
   ("credguard", VMap
      [("TargetObject|endswith", VStr "\Control\Lsa\LsaCfgFlags");
       ("Details", VStr "0")]);
   ("condition", VStr "runasppl or credguard")].

Definition lsass_spawning_anomalous_child_process : sigmaYAMLDoc := mkYAMLDoc
  "LSASS Spawning Anomalous Child Process"
  "Detects lsass.exe spawning a child process other than the Windows Error Reporting crash handler (werfault/wermgr). LSASS does not normally launch children; a child indicates credential-access tooling, process-tree masquerading, or injected code executing under the security process."
  "stable" "critical"
  ["attack.t1036"; "attack.defense_evasion"; "attack.credential_access"]
  (one_of ["None expected outside a WER crash (excluded)"])
  [("product", "windows"); ("category", "process_creation")]
  [("parent", VMap
      [("ParentImage|endswith", VStr "\lsass.exe")]);
   ("wer", VMap
      [("Image|endswith", one_of
        ["\werfault.exe"; "\wermgr.exe"])]);
   ("condition", VStr "parent and not wer")].

Definition network_logon_script_deployment_via_netlogon_or : sigmaYAMLDoc := mkYAMLDoc
  "Network Logon Script Deployment via NETLOGON or SYSVOL Share"
  "Detects copying a script into a domain's NETLOGON or SYSVOL\...\scripts share — the staging step for a network logon script that every domain user or an entire OU will execute at next logon, giving domain-wide persistence from a single write."
  "stable" "high"
  ["attack.t1037.003"; "attack.persistence"; "attack.lateral_movement"]
  (one_of ["Legitimate IT administration deploying or updating logon scripts"])
  [("product", "windows"); ("category", "process_creation")]
  [("tool", VMap
      [("Image|endswith", one_of
        ["\xcopy.exe"; "\robocopy.exe"; "\cmd.exe"; "\powershell.exe"])]);
   ("target", VMap
      [("CommandLine|contains", one_of
        ["\NETLOGON\"; "\SYSVOL\"])]);
   ("condition", VStr "tool and target")].

Definition office_application_spawning_a_shell_or_script : sigmaYAMLDoc := mkYAMLDoc
  "Office Application Spawning a Shell or Script Interpreter (macOS)"
  "Detects a macOS Microsoft Office application (Word/Excel/PowerPoint) spawning a shell, osascript, or scripting interpreter — the macOS equivalent of a malicious-macro drop, commonly used to fetch and run a second stage."
  "stable" "high"
  ["attack.t1059.002"; "attack.execution"]
  (one_of ["Rare legitimate Office automation via AppleScript"])
  [("product", "macos"); ("category", "process_creation")]
  [("office", VMap
      [("ParentImage|contains", one_of
        ["Microsoft Word"; "Microsoft Excel"; "Microsoft PowerPoint"])]);
   ("interp", VMap
      [("Image|endswith", one_of
        ["/bash"; "/sh"; "/zsh"; "/osascript"; "/python"; "/python3"; "/curl"; "/perl"])]);
   ("condition", VStr "office and interp")].

Definition powershell_remote_command_execution_via_invoke : sigmaYAMLDoc := mkYAMLDoc
  "PowerShell Remote Command Execution via Invoke-Command"
  "Detects Invoke-Command targeting a remote computer or an existing PSSession — PowerShell remoting lateral movement that does not require an interactive Enter-PSSession, often scripted for one-shot execution across many hosts."
  "stable" "medium"
  ["attack.t1021.006"; "attack.lateral_movement"]
  (one_of ["Legitimate administrative automation using PowerShell remoting"])
  [("product", "windows"); ("category", "process_creation")]
  [("invcmd", VMap
      [("Image|endswith", one_of
        ["\powershell.exe"; "\pwsh.exe"]);
       ("CommandLine|contains", VStr "Invoke-Command")]);
   ("target", VMap
      [("CommandLine|contains", one_of
        ["-ComputerName"; "-Session"])]);
   ("condition", VStr "invcmd and target")].

Definition print_spooler_spawning_shell_or_lolbin : sigmaYAMLDoc := mkYAMLDoc
  "Print Spooler Spawning Shell or LOLBin"
  "Detects spoolsv.exe (the Windows Print Spooler service) spawning a command shell or LOLBin — the execution primitive of PrintNightmare and related spooler exploits, yielding SYSTEM code execution."
  "stable" "high"
  ["attack.t1068"; "attack.privilege_escalation"; "attack.execution"]
  (one_of ["Rare printer-driver installers that legitimately shell out"])
  [("product", "windows"); ("category", "process_creation")]
  [("selection", VMap
      [("ParentImage|endswith", VStr "\spoolsv.exe");
       ("Image|endswith", one_of
        ["\cmd.exe"; "\powershell.exe"; "\pwsh.exe"; "\wscript.exe"; "\cscript.exe";
         "\mshta.exe"; "\rundll32.exe"; "\regsvr32.exe"])]);
   ("condition", VStr "selection")].

Definition process_spawned_by_psexec_service_attacker : sigmaYAMLDoc := mkYAMLDoc
  "Process Spawned by PsExec Service (Attacker Payload)"
  "Detects a process launched with PSEXESVC.exe as its parent — the actual command the operator ran remotely via PsExec, executing as SYSTEM. Higher-fidelity than merely seeing PSEXESVC.exe itself, since it reveals the payload."
  "stable" "high"
  ["attack.t1569.002"; "attack.lateral_movement"; "attack.execution"]
  (one_of ["Administrators running expected commands through PsExec sessions"])
  [("product", "windows"); ("category", "process_creation")]
  [("selection", VMap
      [("ParentImage|endswith", VStr "\PSEXESVC.exe")]);
   ("condition", VStr "selection")].

Definition process_spawned_by_winrm_remote_shell_host : sigmaYAMLDoc := mkYAMLDoc
  "Process Spawned by WinRM Remote Shell Host (Attacker Payload)"
  "Detects a process launched with wsmprovhost.exe as its parent — the command an operator ran remotely via WS-Management (WinRM/PowerShell Remoting), the WinRM analogue of a PSEXESVC child process."
  "stable" "high"
  ["attack.t1021.006"; "attack.lateral_movement"; "attack.execution"]
  (one_of ["Administrators running expected commands through PowerShell remoting sessions"])
  [("product", "windows"); ("category", "process_creation")]
  [("selection", VMap
      [("ParentImage|endswith", VStr "\wsmprovhost.exe")]);
   ("condition", VStr "selection")].

Definition psexec_alternative_remote_execution_tool_paexec : sigmaYAMLDoc := mkYAMLDoc
  "PsExec-Alternative Remote Execution Tool (PAExec/RemCom)"
  "Detects PAExec or RemCom, open-source clones of PsExec that implement the same remote-service-execution protocol but with a different binary signature, commonly used to evade detections keyed only on psexec.exe/PSEXESVC.exe."
  "stable" "high"
  ["attack.t1569.002"; "attack.lateral_movement"; "attack.defense_evasion"]
  (one_of ["Rare legitimate administrative use of these open-source tools"])
  [("product", "windows"); ("category", "process_creation")]
  [("selection", VMap
      [("Image|contains", one_of
        ["paexec.exe"; "paexecsvc.exe"; "remcom.exe"; "remcomsvc.exe"])]);
   ("condition", VStr "selection")].

Definition remote_scheduled_task_creation_via_schtasks : sigmaYAMLDoc := mkYAMLDoc
  "Remote Scheduled Task Creation via schtasks"
  "Detects schtasks targeting a REMOTE system (/s \\host or /s host) to create or run a task — scheduled-task lateral movement / remote code execution."
  "stable" "high"
  ["attack.t1053.005"; "attack.lateral_movement"; "attack.execution"]
  (one_of ["Administrative remote task scheduling"])
  [("product", "windows"); ("category", "process_creation")]
  [("sch", VMap
      [("Image|endswith", VStr "\schtasks.exe");
       ("CommandLine|contains", VStr " /s ")]);
   ("action", VMap
      [("CommandLine|contains", one_of
        ["/create"; "/run"])]);
   ("condition", VStr "sch and action")].

Definition remote_service_creation_via_sc_exe : sigmaYAMLDoc := mkYAMLDoc
  "Remote Service Creation via sc.exe"
  "Detects sc.exe creating or configuring a service on a REMOTE host (\\host syntax) — a lateral-movement / remote-execution primitive (create a service pointing at a payload, then start it) used by operators and worms."
  "stable" "high"
  ["attack.t1021.002"; "attack.lateral_movement"]
  (one_of ["Administrative remote service management"])
  [("product", "windows"); ("category", "process_creation")]
  [("scbin", VMap
      [("Image|endswith", VStr "\sc.exe")]);
   ("unc", VMap
      [("CommandLine|contains", VStr "\\")]);
   ("action", VMap
      [("CommandLine|contains", one_of
        [" create"; " config"; "binpath="])]);
   ("condition", VStr "scbin and unc and action")].

Definition remote_wmi_process_creation_via_wmic : sigmaYAMLDoc := mkYAMLDoc
  "Remote WMI Process Creation via wmic"
  "Detects wmic invoking process creation on a REMOTE node (wmic /node:host process call create) — WMI lateral movement that spawns a process on another host without dropping a service."
  "stable" "high"
  ["attack.t1047"; "attack.lateral_movement"; "attack.execution"]
  (one_of ["Administrative remote WMI automation"])
  [("product", "windows"); ("category", "process_creation")]
  [("wmicbin", VMap
      [("Image|endswith", VStr "\wmic.exe")]);
   ("node", VMap
      [("CommandLine|contains", VStr "/node:")]);
   ("createproc", VMap
      [("CommandLine|contains", VStr "process call create")]);
   ("condition", VStr "wmicbin and node and createproc")].

Definition suid_sgid_or_capabilities_discovery_linux : sigmaYAMLDoc := mkYAMLDoc
  "SUID/SGID or Capabilities Discovery (Linux)"
  "Detects enumeration of SUID/SGID binaries or file capabilities (find -perm -4000 / -u=s, getcap -r) — the reconnaissance step attackers run to locate a local privilege-escalation vector."
  "stable" "medium"
  ["attack.t1083"; "attack.discovery"]
  (one_of ["Security auditing / hardening scans"])
  [("product", "linux"); ("category", "process_creation")]
  [("find_suid", VMap
      [("CommandLine|contains", one_of
        ["-perm -4000"; "-perm -u=s"; "-perm -2000"; "-perm -g=s"; "-perm /6000"])]);
   ("getcap", VMap
      [("CommandLine|contains", one_of
        ["getcap -r"; "getcap -r /"])]);
   ("condition", VStr "find_suid or getcap")].

Definition service_control_manager_spawning_shell_or_lolbin : sigmaYAMLDoc := mkYAMLDoc
  "Service Control Manager Spawning Shell or LOLBin"
  "Detects services.exe (the Service Control Manager) directly spawning a command shell or LOLBin (cmd/powershell/wscript/cscript/mshta/rundll32/regsvr32) rather than a service executable — abused by a service configured to run an interpreter directly for execution/persistence as SYSTEM."
  "stable" "high"
  ["attack.t1036"; "attack.defense_evasion"; "attack.execution"]
  (one_of ["Rare services legitimately configured to run an interpreter directly"])
  [("product", "windows"); ("category", "process_creation")]
  [("selection", VMap
      [("ParentImage|endswith", VStr "\services.exe");
       ("Image|endswith", one_of
        ["\cmd.exe"; "\powershell.exe"; "\pwsh.exe"; "\wscript.exe"; "\cscript.exe";
         "\mshta.exe"; "\rundll32.exe"; "\regsvr32.exe"])]);
   ("condition", VStr "selection")].

Definition session_manager_or_csrss_spawning_anomalous : sigmaYAMLDoc := mkYAMLDoc
  "Session Manager or CSRSS Spawning Anomalous Child"
  "Detects smss.exe or csrss.exe spawning a command shell or LOLBin. These Session Manager / client-server runtime processes launch only a fixed set of system children (csrss/winlogon/autochk); a shell or interpreter child indicates process-tree hollowing or injected code running under an early-boot trusted process."
  "stable" "high"
  ["attack.t1055"; "attack.defense_evasion"]
  (one_of ["None expected"])
  [("product", "windows"); ("category", "process_creation")]
  [("selection", VMap
      [("ParentImage|endswith", one_of
        ["\smss.exe"; "\csrss.exe"]);
       ("Image|endswith", one_of
        ["\cmd.exe"; "\powershell.exe"; "\pwsh.exe"; "\wscript.exe"; "\cscript.exe";
         "\mshta.exe"; "\rundll32.exe"])]);
   ("condition", VStr "selection")].

Definition svchost_with_non_standard_parent_process : sigmaYAMLDoc := mkYAMLDoc
  "Svchost With Non-Standard Parent (Process Hollowing / Masquerade)"
  "Detects svchost.exe spawned by an interactive or user-writable-path process (explorer/powershell/cmd/office, or a binary under Users/Temp/AppData) instead of services.exe — a hallmark of a hollowed or masqueraded svchost used to blend malicious code into a trusted system-process name."
  "stable" "high"
  ["attack.t1055.012"; "attack.defense_evasion"; "attack.privilege_escalation"]
  (one_of ["Rare third-party software that legitimately launches its own svchost-named helper"])
  [("product", "windows"); ("category", "process_creation")]
  [("svchost", VMap
      [("Image|endswith", VStr "\svchost.exe")]);
   ("interactive_parent", VMap
      [("ParentImage|endswith", one_of
        ["\explorer.exe"; "\powershell.exe"; "\pwsh.exe"; "\cmd.exe"; "\winword.exe";
         "\excel.exe"; "\outlook.exe"; "\wscript.exe"; "\cscript.exe"; "\mshta.exe";
         "\rundll32.exe"])]);
   ("userpath_parent", VMap
      [("ParentImage|contains", one_of
        ["\Users\"; "\Temp\"; "\AppData\"; "\Downloads\"; "\ProgramData\"])]);
   ("condition", VStr "svchost and (interactive_parent or userpath_parent)")].

Definition uac_disabled_or_weakened_via_registry_value : sigmaYAMLDoc := mkYAMLDoc
  "UAC Disabled or Weakened via Registry Value"
  "Detects registry value edits that turn off or weaken User Account Control — EnableLUA=0 (UAC off), LocalAccountTokenFilterPolicy=1 (remote UAC token-filtering off, enabling PtH with local admins), FilterAdministratorToken=0, or ConsentPromptBehaviorAdmin=0 (no elevation prompt). Distinct from the auto-elevate handler-hijack vector."
  "stable" "high"
  ["attack.t1548.002"; "attack.defense_evasion"; "attack.privilege_escalation"]
  (one_of ["Enterprise hardening/relaxation pushed via GPO (correlate with the writing tool)"])
  [("product", "windows"); ("category", "registry_event")]
  [("disable_lua", VMap
      [("TargetObject|endswith", VStr "\Policies\System\EnableLUA");
       ("Details", VStr "0")]);
   ("token_filter", VMap
      [("TargetObject|endswith", VStr "\Policies\System\LocalAccountTokenFilterPolicy");
       ("Details", VStr "1")]);
   ("admin_token", VMap
      [("TargetObject|endswith", VStr "\Policies\System\FilterAdministratorToken");
       ("Details", VStr "0")]);
   ("consent", VMap
      [("TargetObject|endswith", VStr "\Policies\System\ConsentPromptBehaviorAdmin");
       ("Details", VStr "0")]);
   ("condition", VStr "disable_lua or token_filter or admin_token or consent")].

Definition web_browser_spawning_a_shell_or_interpreter : sigmaYAMLDoc := mkYAMLDoc
  "Web Browser Spawning a Shell or Interpreter (macOS)"
  "Detects a macOS web browser (Safari/Chrome/Firefox/Edge) spawning a shell, osascript, or scripting interpreter — a drive-by / exploitation indicator, since browsers spawn sandboxed helpers but never an interactive shell."
  "stable" "high"
  ["attack.t1203"; "attack.execution"]
  (one_of ["Rare developer tooling launched from a browser download"])
  [("product", "macos"); ("category", "process_creation")]
  [("browser", VMap
      [("ParentImage|contains", one_of
        ["Safari"; "Google Chrome"; "Firefox"; "Microsoft Edge"; "Brave Browser"])]);
   ("interp", VMap
      [("Image|endswith", one_of
        ["/bash"; "/sh"; "/zsh"; "/osascript"; "/python"; "/python3"; "/perl"])]);
   ("condition", VStr "browser and interp")].

Definition winrm_remote_management_enabled : sigmaYAMLDoc := mkYAMLDoc
  "WinRM Remote Management Enabled"
  "Detects enabling the WinRM service or relaxing its transport security (winrm quickconfig, Enable-PSRemoting, allowing unencrypted traffic) — often a precursor step before PowerShell-remoting lateral movement on a host where it was not already configured."
  "stable" "low"
  ["attack.t1021.006"; "attack.lateral_movement"]
  (one_of ["Administrators legitimately enabling remote management"])
  [("product", "windows"); ("category", "process_creation")]
  [("selection", VMap
      [("CommandLine|contains", one_of
        ["winrm quickconfig"; "winrm qc"; "Enable-PSRemoting"; "AllowUnencrypted"])]);
   ("condition", VStr "selection")].

Definition windows_firewall_disabled_via_registry_value : sigmaYAMLDoc := mkYAMLDoc
  "Windows Firewall Disabled via Registry Value"
  ("Detects the Windows Firewall being turned off through its registry profile (…\SharedAccess\Parameters\FirewallPolicy\<Profile>\EnableFirewall=0), the persistent equivalent of " +:+ dquote +:+ "netsh advfirewall set … state off" +:+ dquote +:+ ".")
  "stable" "high"
  ["attack.t1562.004"; "attack.defense_evasion"]
  (one_of ["Administrators disabling the built-in firewall in favour of a third-party product"])
  [("product", "windows"); ("category", "registry_event")]
  [("selection", VMap
      [("TargetObject|contains", VStr "\FirewallPolicy\");
       ("TargetObject|endswith", VStr "\EnableFirewall");
       ("Details", VStr "0")]);
   ("condition", VStr "selection")].

Definition windows_logon_script_persistence_via_registry : sigmaYAMLDoc := mkYAMLDoc
  "Windows Logon Script Persistence via Registry"
  "Detects setting the UserInitMprLogonScript registry value, which runs an attacker-specified script every time the user logs on — a classic, low-visibility Windows logon-script persistence mechanism most environments configure via GPO rather than this registry value directly."
  "stable" "high"
  ["attack.t1037.001"; "attack.persistence"]
  (one_of ["Rare legitimate logon-script configuration via this registry value instead of GPO"])
  [("product", "windows"); ("category", "registry_event")]
  [("selection", VMap
      [("TargetObject|contains", VStr "\Environment\UserInitMprLogonScript")]);
   ("condition", VStr "selection")].

Definition winlogon_spawning_command_shell : sigmaYAMLDoc := mkYAMLDoc
  "Winlogon Spawning Command Shell"
  "Detects winlogon.exe spawning a command or script interpreter (cmd/powershell/wscript/cscript), distinct from its normal userinit/dwm children — an indicator of Winlogon-helper persistence, shell hijack, or injection into the logon process."
  "stable" "high"
  ["attack.t1036"; "attack.defense_evasion"]
  (one_of ["Rare; some remote-management tooling injects into winlogon"])
  [("product", "windows"); ("category", "process_creation")]
  [("selection", VMap
      [("ParentImage|endswith", VStr "\winlogon.exe");
       ("Image|endswith", one_of
        ["\cmd.exe"; "\powershell.exe"; "\pwsh.exe"; "\wscript.exe"; "\cscript.exe"])]);
   ("condition", VStr "selection")].

Definition wmi_remote_command_execution : sigmaYAMLDoc := mkYAMLDoc
  "WMI Remote Command Execution"
  "Detects remote command execution via Windows Management Instrumentation"
  "stable" "high"
  ["attack.t1021.006"; "attack.t1047"; "attack.lateral_movement"; "attack.execution"]
  (one_of ["Legitimate WMI administration"])
  [("category", "process_creation"); ("product", "windows")]
  [("selection_wmic", VMap
      [("Image|endswith", VStr "\wmic.exe");
       ("CommandLine|contains", one_of ["/node:"])]);
   ("selection_wmi_spawn", VMap
      [("ParentImage|endswith", VStr "\WmiPrvSE.exe");
       ("Image|endswith", one_of
        ["\cmd.exe"; "\powershell.exe"; "\wscript.exe"; "\cscript.exe"])]);
   ("condition", VStr "selection_wmic or selection_wmi_spawn")].

Definition powershell : sigmaYAMLDoc := mkYAMLDoc
  "疑わしいPowerShell実行"
  "PowerShell の難読化実行・リモートダウンロード・実行ポリシー回避を検出する"
  "stable" "high"
  ["attack.t1059.001"; "attack.execution"]
  (one_of ["管理スクリプトによる正規のダウンロードや実行ポリシー指定"])
  [("category", "process_creation"); ("product", "windows")]
  [("selection", VMap
      [("Image|endswith", one_of
        ["\powershell.exe"; "\pwsh.exe"]);
       ("CommandLine|contains", one_of
        [" -enc "; "DownloadString"; "DownloadFile"; "-ExecutionPolicy Bypass"])]);
   ("condition", VStr "selection")].

Definition suspicious_chmod_of_executable_in_tmp : sigmaYAMLDoc := mkYAMLDoc
  "Suspicious chmod of Executable in /tmp"
  "Detects chmod granting execute permission to a file in a world-writable directory (/tmp, /dev/shm) — the step that makes a downloaded payload runnable. Low severity by design; developers do this constantly and a single process_creation event cannot tell the two apart. Its value is as an input to the download→chmod→execute kill chain, which is where the actual detection happens."
  "stable" "low"
  ["attack.t1222.002"; "attack.defense_evasion"]
  (one_of ["Developers marking downloaded installers or build scripts executable under /tmp — indistinguishable from the technique in a single event"])
  [("product", "linux"); ("category", "process_creation")]
  [("chmod_bin", VMap
      [("Image|contains", VStr "/chmod")]);
   ("mode_bits", VMap
      [("CommandLine|contains", one_of
        ["+x"; "755"; "777"])]);
   ("staging_dir", VMap
      [("CommandLine|contains", one_of
        ["/tmp/"; "/dev/shm/"])]);
   ("condition", VStr "chmod_bin and mode_bits and staging_dir")].

Definition script_execution_from_world_writable_directory : sigmaYAMLDoc := mkYAMLDoc
  "Script Execution from World-Writable Directory (Linux)"
  "Detects execution of a shell script from a world-writable temp directory (/tmp, /dev/shm, /var/tmp), a common User Execution vector for downloaded payloads."
  "stable" "low"
  ["attack.t1204.002"; "attack.execution"]
  (one_of ["Package installers and build systems running helper scripts from temp"])
  [("category", "process_creation"); ("product", "linux")]
  [("selection", VMap
      [("CommandLine|contains", one_of
        ["sh /tmp/"; "sh /dev/shm/"; "sh /var/tmp/"; "bash /tmp/"; "bash /dev/shm/";
         "bash /var/tmp/"])]);
   ("condition", VStr "selection")].

Definition linux_shell_init_file_modification_fim : sigmaYAMLDoc := mkYAMLDoc
  "Linux Shell Init File Modification (FIM)"
  ("Detects creation or modification of a user shell-init file (.bashrc/.bash_profile/.bash_login/.profile/.zshrc or /etc/profile.d) observed directly by file integrity monitoring. These files are sourced on every interactive login/shell, making them a common persistence and triggered-execution vector (T1546.004). Complements the process_creation rule that catches the " +:+ dquote +:+ "echo >> .bashrc / tee" +:+ dquote +:+ " idiom by also catching writes that never appear on a monitored command line.")
  "stable" "medium"
  ["attack.t1546.004"; "attack.persistence"; "attack.privilege_escalation"]
  (one_of ["Users legitimately editing their shell rc files"; "Package managers writing /etc/profile.d drop-ins"])
  [("product", "linux"); ("category", "file_event")]
  [("selection", VMap
      [("TargetFilename|contains", one_of
        ["/.bashrc"; "/.bash_profile"; "/.bash_login"; "/.profile"; "/.zshrc"; "/etc/profile.d/"])]);
   ("condition", VStr "selection")].

Definition edr_agent_killed_by_signal : sigmaYAMLDoc := mkYAMLDoc
  "EDR Agent Killed by Signal"
  "The EDR agent process was terminated by a signal the watchdog did not send. Nothing inside the agent signals itself, and an operator stop goes through the service manager, which cancels the watchdog first and is therefore never reported here. A signalled death is external interference with the sensor."
  "stable" "critical"
  ["attack.t1562.001"; "attack.defense_evasion"]
  (one_of ["An out-of-band kill issued by an administrator debugging the agent"])
  [("category", "tamper")]
  [("selection", VMap
      [("tamper_type", VStr "agent_killed")]);
   ("condition", VStr "selection")].

Definition edr_agent_unexpected_exit : sigmaYAMLDoc := mkYAMLDoc
  "EDR Agent Unexpected Exit"
  "The EDR agent exited without a signal and without the watchdog asking it to — either a crash or, on Windows, a TerminateProcess the exit code cannot be distinguished from. Scored below the signalled case precisely because a crash looks identical; the endpoint was still unmonitored until the watchdog restarted it."
  "stable" "medium"
  ["attack.t1562.001"; "attack.defense_evasion"]
  (one_of ["A genuine agent crash. Check the agent log before treating it as an attack."])
  [("category", "tamper")]
  [("selection", VMap
      [("tamper_type", VStr "agent_exited")]);
   ("condition", VStr "selection")].

Definition edr_agent_binary_modified : sigmaYAMLDoc := mkYAMLDoc
  "EDR Agent Binary Modified"
  "The on-disk EDR agent binary no longer matches its recorded digest. Reported by the start-up integrity check (a swap while the agent was down) or by the running agent re-hashing itself against an in-memory baseline (a swap underneath it). Updates go through the updater, which re-records the digest, so a legitimate upgrade does not produce this."
  "stable" "critical"
  ["attack.t1554"; "attack.t1562.001"; "attack.defense_evasion"; "attack.persistence"]
  (one_of ["A binary replaced by hand, outside the updater"])
  [("category", "tamper")]
  [("selection", VMap
      [("tamper_type", VStr "binary_modified")]);
   ("condition", VStr "selection")].

Definition edr_agent_config_modified : sigmaYAMLDoc := mkYAMLDoc
  "EDR Agent Config Modified"
  "The EDR agent config file changed while the agent was running. Rewriting the config defeats the sensor without touching its code — repointing it at another server or disabling collectors leaves a healthy-looking agent that reports nothing useful."
  "stable" "high"
  ["attack.t1562.001"; "attack.defense_evasion"]
  (one_of ["Configuration management (Ansible/Puppet/Chef) rewriting the file in place"])
  [("category", "tamper")]
  [("selection", VMap
      [("tamper_type", VStr "config_modified")]);
   ("condition", VStr "selection")].

Definition edr_watchdog_missing : sigmaYAMLDoc := mkYAMLDoc
  "EDR Watchdog Missing"
  "The agent is running but the watchdog process supervising it is gone. Killing the supervisor first is what makes killing the agent stick, so this tends to precede the agent's own death rather than follow it. The agent is the only half of the pair still alive to report it."
  "stable" "high"
  ["attack.t1562.001"; "attack.defense_evasion"]
  (one_of ["The watchdog crashed on its own"])
  [("category", "tamper")]
  [("selection", VMap
      [("tamper_type", VStr "watchdog_missing")]);
   ("condition", VStr "selection")].

Definition edr_agent_termination_attempt : sigmaYAMLDoc := mkYAMLDoc
  "EDR Agent Termination Attempt"
  "Something tried to terminate the EDR agent and the kernel layer saw it — a kill against the protected PID (Linux eBPF LSM task_kill) or a handle carrying terminate/inject rights opened against it (Windows ObRegisterCallbacks). Unlike the watchdog's after-the-fact report this names the process that tried, and fires whether or not the attempt succeeded. Only produced by builds carrying the prevention tag."
  "stable" "critical"
  ["attack.t1562.001"; "attack.defense_evasion"]
  (one_of ["Process management tooling enumerating handles across all processes"])
  [("category", "tamper")]
  [("selection", VMap
      [("tamper_type", one_of
        ["kill_attempt"; "handle_open_attempt"])]);
   ("condition", VStr "selection")].

Definition builtins4 : list sigmaYAMLDoc :=
  [software_packing_via_upx; mark_of_the_web_bypass; macos_re_opened_applications_persistence;
   macos_emond_rule_persistence; macos_startup_items_persistence;
   windows_defender_disable_via_exclusion_service; amsi_bypass_via_inline_command;
   etw_bypass_event_tracing_tampering; linux_reverse_shell_via_interpreter_or_tool;
   download_or_decode_piped_to_shell_linux; windows_privilege_escalation_enumeration_tool;
   forced_system_shutdown_or_reboot_via_shutdown; lateral_tool_transfer_to_administrative_share;
   virtualization_or_sandbox_discovery_via_wmic;
   security_tooling_registry_tampering_direct_write; ingress_tool_transfer_via_interpreter;
   base64_payload_decoded_and_piped_to_a_shell_or; setuid_setgid_binary_enumeration;
   network_service_scanning_tool_execution; macos_virtualization_sandbox_discovery;
   macos_log_clearing; macos_tcc_privacy_protection_tampering;
   anti_recovery_free_space_wipe_or_usn_journal; capsh_privilege_escalation_linux;
   cloud_backdoor_account_creation_iam_user_service; cloud_iam_privilege_escalation_via_cli;
   cloud_instance_metadata_service_imds_credential; cloud_logging_disabled_via_cli;
   cloud_persistence_via_scheduled_event_trigger; cloud_security_service_disabled_via_cli;
   cloud_serverless_function_tampering_via_cli; cloud_service_discovery_or_secret_enumeration;
   container_breakout_via_proc_self_exe_overwrite;
   cron_or_at_job_spawning_a_reverse_shell_linux; dpapi_master_key_or_secret_extraction;
   dangerous_capability_assignment_via_setcap_linux; data_exfiltration_via_rclone;
   database_daemon_spawning_a_shell_linux; disk_image_mounted_for_container_smuggling_iso;
   domain_controller_authentication_tampering; domain_policy_modification_via_gpo_tampering;
   execution_from_deleted_binary_linux; execution_from_shared_memory_path_linux;
   kerberos_golden_or_silver_ticket_forgery; lsa_protection_disabled_via_registry_value;
   lsass_spawning_anomalous_child_process; network_logon_script_deployment_via_netlogon_or;
   office_application_spawning_a_shell_or_script;
   powershell_remote_command_execution_via_invoke; print_spooler_spawning_shell_or_lolbin;
   process_spawned_by_psexec_service_attacker; process_spawned_by_winrm_remote_shell_host;
   psexec_alternative_remote_execution_tool_paexec; remote_scheduled_task_creation_via_schtasks;
   remote_service_creation_via_sc_exe; remote_wmi_process_creation_via_wmic;
   suid_sgid_or_capabilities_discovery_linux; service_control_manager_spawning_shell_or_lolbin;
   session_manager_or_csrss_spawning_anomalous; svchost_with_non_standard_parent_process;
   uac_disabled_or_weakened_via_registry_value; web_browser_spawning_a_shell_or_interpreter;
   winrm_remote_management_enabled; windows_firewall_disabled_via_registry_value;
   windows_logon_script_persistence_via_registry; winlogon_spawning_command_shell;
   wmi_remote_command_execution; powershell; suspicious_chmod_of_executable_in_tmp;
   script_execution_from_world_writable_directory; linux_shell_init_file_modification_fim;
   edr_agent_killed_by_signal; edr_agent_unexpected_exit; edr_agent_binary_modified;
   edr_agent_config_modified; edr_watchdog_missing; edr_agent_termination_attempt].

(** For each of them an event it is meant to catch. *)
Definition caught4 : list event :=
  [[("type", VStr "process"); ("Image", VStr "upx")];
   [("type", VStr "process"); ("CommandLine", VStr "Unblock-File")];
   [("type", VStr "process"); ("Image", VStr "/defaults");
    ("CommandLine", VStr "com.apple.loginwindow")];
   [("type", VStr "process"); ("CommandLine", VStr "/etc/emond.d/rules")];
   [("type", VStr "process"); ("Image", VStr "/cp");
    ("CommandLine", VStr "/Library/StartupItems")];
   [("type", VStr "process"); ("CommandLine", VStr "Set-MpPreference -Disable")];
   [("type", VStr "process"); ("CommandLine", VStr "amsiInitFailed")];
   [("type", VStr "process"); ("CommandLine", VStr "EtwEventWrite")];
   [("type", VStr "process"); ("CommandLine", VStr "ruby -rsocket")];
   [("type", VStr "process"); ("CommandLine", VStr "curl | bash")];
   [("type", VStr "process"); ("CommandLine", VStr "winpeas")];
   [("type", VStr "process"); ("Image", VStr "\shutdown.exe"); ("CommandLine", VStr " /r  /f")];
   [("type", VStr "process"); ("Image", VStr "\xcopy.exe"); ("CommandLine", VStr "C$")];
   [("type", VStr "process"); ("Image", VStr "\WMIC.exe"); ("CommandLine", VStr "vmware")];
   [("type", VStr "registry"); ("TargetObject", VStr "\Policies\Microsoft\Windows Defender")];
   [("type", VStr "process"); ("CommandLine", VStr "urllib http://")];
   [("type", VStr "process"); ("CommandLine", VStr "base64 -d | sh")];
   [("type", VStr "process"); ("Image", VStr "/find"); ("CommandLine", VStr "-perm -4000")];
   [("type", VStr "process"); ("Image", VStr "/nmap")];
   [("type", VStr "process"); ("CommandLine", VStr "kern.hv_vmm_present")];
   [("type", VStr "process"); ("Image", VStr "/log"); ("CommandLine", VStr "erase")];
   [("type", VStr "process"); ("Image", VStr "/tccutil"); ("CommandLine", VStr "reset")];
   [("type", VStr "process"); ("Image", VStr "\cipher.exe"); ("CommandLine", VStr "/w")];
   [("type", VStr "process"); ("Image", VStr "/capsh"); ("CommandLine", VStr "--gid=0")];
   [("CommandLine", VStr "iam create-user")];
   [("CommandLine", VStr "role assignment create Owner")];
   [("CommandLine", VStr "169.254.169.254 security-credentials")];
   [("CommandLine", VStr "cloudtrail stop-logging")];
   [("CommandLine", VStr "scheduler jobs create")];
   [("CommandLine", VStr "guardduty delete-detector")];
   [("CommandLine", VStr "lambda update-function-code")];
   [("CommandLine", VStr "aws  sts get-caller-identity")];
   [("type", VStr "process"); ("CommandLine", VStr "/proc/self/exe  > ")];
   [("type", VStr "process"); ("ParentImage", VStr "/cron"); ("CommandLine", VStr "/dev/tcp/")];
   [("type", VStr "process"); ("CommandLine", VStr "dpapi::")];
   [("type", VStr "process"); ("Image", VStr "/setcap"); ("CommandLine", VStr "cap_setuid")];
   [("type", VStr "process"); ("Image", VStr "rclone"); ("CommandLine", VStr "copy")];
   [("type", VStr "process"); ("ParentImage", VStr "/mysqld"); ("Image", VStr "/sh")];
   [("type", VStr "process"); ("CommandLine", VStr "Mount-DiskImage .iso")];
   [("type", VStr "process"); ("CommandLine", VStr "lsadump::dcshadow")];
   [("type", VStr "process"); ("CommandLine", VStr "New-GPO")];
   [("type", VStr "process"); ("Image", VStr " (deleted)")];
   [("type", VStr "process"); ("Image", VStr "/dev/shm/")];
   [("type", VStr "process"); ("CommandLine", VStr "kerberos::golden")];
   [("type", VStr "registry"); ("TargetObject", VStr "\Control\Lsa\RunAsPPL");
    ("Details", VStr "0")];
   [("type", VStr "process"); ("ParentImage", VStr "\lsass.exe")];
   [("type", VStr "process"); ("Image", VStr "\xcopy.exe"); ("CommandLine", VStr "\NETLOGON\")];
   [("type", VStr "process"); ("ParentImage", VStr "Microsoft Word"); ("Image", VStr "/bash")];
   [("type", VStr "process"); ("Image", VStr "\powershell.exe");
    ("CommandLine", VStr "Invoke-Command -ComputerName")];
   [("type", VStr "process"); ("ParentImage", VStr "\spoolsv.exe"); ("Image", VStr "\cmd.exe")];
   [("type", VStr "process"); ("ParentImage", VStr "\PSEXESVC.exe")];
   [("type", VStr "process"); ("ParentImage", VStr "\wsmprovhost.exe")];
   [("type", VStr "process"); ("Image", VStr "paexec.exe")];
   [("type", VStr "process"); ("Image", VStr "\schtasks.exe");
    ("CommandLine", VStr " /s  /create")];
   [("type", VStr "process"); ("Image", VStr "\sc.exe"); ("CommandLine", VStr "\\  create")];
   [("type", VStr "process"); ("Image", VStr "\wmic.exe");
    ("CommandLine", VStr "/node: process call create")];
   [("type", VStr "process"); ("CommandLine", VStr "-perm -4000")];
   [("type", VStr "process"); ("ParentImage", VStr "\services.exe"); ("Image", VStr "\cmd.exe")];
   [("type", VStr "process"); ("ParentImage", VStr "\smss.exe"); ("Image", VStr "\cmd.exe")];
   [("type", VStr "process"); ("Image", VStr "\svchost.exe");
    ("ParentImage", VStr "\explorer.exe")];
   [("type", VStr "registry"); ("TargetObject", VStr "\Policies\System\EnableLUA");
    ("Details", VStr "0")];
   [("type", VStr "process"); ("ParentImage", VStr "Safari"); ("Image", VStr "/bash")];
   [("type", VStr "process"); ("CommandLine", VStr "winrm quickconfig")];
   [("type", VStr "registry"); ("TargetObject", VStr "\FirewallPolicy\\EnableFirewall");
    ("Details", VStr "0")];
   [("type", VStr "registry"); ("TargetObject", VStr "\Environment\UserInitMprLogonScript")];
   [("type", VStr "process"); ("ParentImage", VStr "\winlogon.exe"); ("Image", VStr "\cmd.exe")];
   [("type", VStr "process"); ("Image", VStr "\wmic.exe"); ("CommandLine", VStr "/node:")];
   [("type", VStr "process"); ("Image", VStr "\powershell.exe"); ("CommandLine", VStr " -enc ")];
   [("type", VStr "process"); ("Image", VStr "/chmod"); ("CommandLine", VStr "+x /tmp/")];
   [("type", VStr "process"); ("CommandLine", VStr "sh /tmp/")];
   [("type", VStr "file"); ("TargetFilename", VStr "/.bashrc")];
   [("type", VStr "tamper"); ("tamper_type", VStr "agent_killed")];
   [("type", VStr "tamper"); ("tamper_type", VStr "agent_exited")];
   [("type", VStr "tamper"); ("tamper_type", VStr "binary_modified")];
   [("type", VStr "tamper"); ("tamper_type", VStr "config_modified")];
   [("type", VStr "tamper"); ("tamper_type", VStr "watchdog_missing")];
   [("type", VStr "tamper"); ("tamper_type", VStr "kill_attempt")]].
