(* ===== verification/BuiltinRules.v ===== *)
(** * The built-in rules work

    The rule set of [server/internal/detection/sigma_builtins.go], its loading, and
    what the evaluator makes of it: every rule loads and keeps its title, level and
    tags, every rule can fire, and none fires on an event that carries none of the
    fields its selections name.  The YAML parser is still a parameter: it is
    assumed to return, for each literal, the document of [Builtins1.v] to
    [Builtins4.v] with its mappings in any order. *)

From Stdlib Require Import Ascii.
From S2P Require Import Prelude GoStrings Event Base64 Sigma SigmaProofs.
From S2P Require Import Builtins1 Builtins2 Builtins3 Builtins4.

#[local] Open Scope string_scope.
#[local] Open Scope list_scope.
#[local] Open Scope Z_scope.

(** ** The rule set and its loading *)
Definition builtinSigmaRules : list sigmaYAMLDoc :=
  builtins1 ++ builtins2 ++ builtins3 ++ builtins4.

(** What each of them is meant to catch. *)
Definition caught : list event := caught1 ++ caught2 ++ caught3 ++ caught4.

(** [builtinRuleTitle], of the text of a literal. *)
Definition builtinRuleTitle (ruleYAML : string) : string :=
  match list_find (λ l, has_prefix (trim_space l) "title:" = true) (split_on (chr 10) ruleYAML) with
  | Some (_, l) => trim_space (trim_prefix (trim_space l) "title:")
  | None => "(title 不明)"
  end.

Definition LoadBuiltinRules rc pc ip yu (texts : list string) (e : list CompiledSigmaRule)
    : list CompiledSigmaRule * Z :=
  let '(e, loaded, _) := loadSigmaRuleSet rc pc ip yu e texts in (e, loaded).

(** ** Documents up to the order of their mappings *)
Record same_document (d d' : sigmaYAMLDoc) : Prop := {
  sd_Title : y_Title d' = y_Title d;
  sd_Description : y_Description d' = y_Description d;
  sd_Status : y_Status d' = y_Status d;
  sd_Level : y_Level d' = y_Level d;
  sd_Tags : y_Tags d' = y_Tags d;
  sd_FalsePositives : y_FalsePositives d' = y_FalsePositives d;
  sd_LogSource : y_LogSource d ≡ₚ y_LogSource d';
  sd_Detection : ∃ mid, y_Detection d ≡ₚ mid ∧
    Forall2 (λ p q, p.1 = q.1 ∧ body_perm p.2 q.2) mid (y_Detection d')
}.

Definition is_selection (p : string * value) : bool :=
  negb (String.eqb p.1 "condition") && negb (String.eqb p.1 "timeframe").

(** The rule a document with distinct keys is parsed to. *)
Definition rule_of (d : sigmaYAMLDoc) : SigmaRule :=
  let src k := default "" (get (y_LogSource d) k) in
  let text k := match get (y_Detection d) k with Some (VStr s) => s | _ => "" end in
  mkSigmaRule (y_Title d) (y_Description d) (y_Status d) (to_lower (y_Level d)) (y_Tags d)
    (mkLogSource (src "product") (src "category") (src "service"))
    (mkDetection (filter is_selection (y_Detection d)) (text "condition") (text "timeframe"))
    (false_positives (y_FalsePositives d)) 0 [].

Lemma get_absent {A} (m : list (string * A)) k : k ∉ keys m → get m k = None.
Proof.
  induction m as [|[k' v] m IH]; simpl; [done|]. intros H.
  destruct (String.eqb_spec k' k) as [->|]; [|apply IH]; set_solver.
Qed.

Lemma fold_detection l d : NoDup (keys l) →
  foldl detection_step d l =
  mkDetection (Selections d ++ filter is_selection l)
    (match get l "condition" with Some v => string_value v (Condition d) | None => Condition d end)
    (match get l "timeframe" with Some v => string_value v (Timeframe d) | None => Timeframe d end).
Proof.
  revert d. induction l as [|[k v] l IH]; intros d Hd; simpl.
  { rewrite app_nil_r. by destruct d. }
  apply NoDup_cons in Hd as [Hk Hd]. rewrite IH by done. rewrite filter_cons.
  destruct (String.eqb_spec k "condition") as [->|Hc]; simpl;
    [|destruct (String.eqb_spec k "timeframe") as [->|Ht]; simpl].
  - by rewrite (get_absent l "condition" Hk).
  - by rewrite (get_absent l "timeframe" Hk).
  - rewrite decide_True, <-app_assoc; [done|]. unfold is_selection. simpl.
    by destruct (String.eqb_spec k "condition"), (String.eqb_spec k "timeframe").
Qed.

Section Load.
Context (rc : string → option (string → bool)) (pc : string → option (string → bool)).
Context (ip : string → bool) (yu : string → res sigmaYAMLDoc).

Lemma parse_document text d : yu text = Ok d → NoDup (keys (y_Detection d)) →
  y_Title d ≠ "" → Condition (Detection (rule_of d)) ≠ "" →
  parseSigmaYAML yu text = Ok (rule_of d).
Proof.
  intros E Hd Ht Hc. unfold parseSigmaYAML. rewrite E. cbn zeta. rewrite fold_detection by done.
  destruct (String.eqb_spec (y_Title d) ""); [done|].
  assert (∀ k, match get (y_Detection d) k with Some v => string_value v "" | None => "" end
    = match get (y_Detection d) k with Some (VStr s) => s | _ => "" end) as Ek
    by (intros k; by destruct (get _ k) as [[]|]).
  cbn [Selections Condition Timeframe]. rewrite !Ek. simpl in Hc.
  by destruct (String.eqb_spec (match get (y_Detection d) "condition" with
    | Some (VStr s) => s | _ => "" end) "").
Qed.

(** ** Order does not matter *)
Lemma body_perm_string v v' s : body_perm v v' → v = VStr s ∨ v' = VStr s → v = v'.
Proof. by destruct 1; intros [|]. Qed.

Lemma get_same_text (l mid l' : list (string * value)) k : NoDup (keys l) → l ≡ₚ mid →
  Forall2 (λ p q, p.1 = q.1 ∧ body_perm p.2 q.2) mid l' →
  match get l' k with Some (VStr s) => s | _ => "" end
  = match get l k with Some (VStr s) => s | _ => "" end.
Proof.
  intros Hd Hp Hf. rewrite (get_perm l mid) by done. clear -Hf.
  induction Hf as [|[k1 v] [k2 v'] m m' [Hk Hv] _ IH]; simpl in *; [done|]. subst k2.
  destruct (String.eqb k1 k); [|done].
  destruct v; inversion Hv; subst; try done; by destruct v'.
Qed.

Lemma selections_same (l mid l' : list (string * value)) : l ≡ₚ mid →
  Forall2 (λ p q, p.1 = q.1 ∧ body_perm p.2 q.2) mid l' →
  ∃ smid, filter is_selection l ≡ₚ smid ∧
    Forall2 (λ p q, p.1 = q.1 ∧ body_perm p.2 q.2) smid (filter is_selection l').
Proof.
  intros Hp Hf. exists (filter is_selection mid). split; [by rewrite Hp|]. clear -Hf.
  induction Hf as [|[k1 v] [k2 v'] m m' [Hk Hv] _ IH]; simpl in *; [constructor|]. subst k2.
  rewrite !filter_cons. change (is_selection (k1, v')) with (is_selection (k1, v)).
  case_decide; [by constructor|done].
Qed.

Lemma same_keys (mid l' : list (string * value)) :
  Forall2 (λ p q, p.1 = q.1 ∧ body_perm p.2 q.2) mid l' → keys mid = keys l'.
Proof. unfold keys. induction 1 as [|x y l k [E _] _ IH]; simpl; [done|]. by f_equal. Qed.

(** ** What is checked of each rule *)
Definition works (p : sigmaYAMLDoc * event) : bool :=
  let '(d, ev) := p in
  bool_decide (NoDup (to_lower <$> keys (y_Detection d))) &&
  bool_decide (NoDup (keys (y_LogSource d))) &&
  negb (String.eqb (y_Title d) "") && negb (String.eqb (Condition (Detection (rule_of d))) "") &&
  match compileSigmaCondition rc pc ip (rule_of d) with
  | Ok f => f ev && negb (f [])
  | Err _ => false
  end &&
  bool_decide (NoDup (to_lower <$> keys ev)).

(** A loaded rule is the one of the document. *)
Record carries (d : sigmaYAMLDoc) (cr : CompiledSigmaRule) : Prop := {
  ca_Title : s_Title (Rule cr) = y_Title d;
  ca_Level : s_Level (Rule cr) = to_lower (y_Level d);
  ca_Tags : s_Tags (Rule cr) = y_Tags d;
  ca_LogSource : LogSource (Rule cr) = LogSource (rule_of d);
  ca_Platform : s_Platform (Rule cr) = [];
  ca_DBSeverity : DBSeverity (Rule cr) = 0;
  ca_Evaluate : ∃ f, compileSigmaCondition rc pc ip (rule_of d) = Ok f ∧ agree f (Evaluate cr)
}.

Lemma sublist_fmap_mono {A B} (f : A → B) l l' :
  l `sublist_of` l' → f <$> l `sublist_of` f <$> l'.
Proof. induction 1; simpl; by constructor. Qed.

Lemma filter_fold_distinct (l : list (string * value)) :
  fold_distinct l → fold_distinct (filter is_selection l).
Proof.
  unfold fold_distinct, keys. intros H. eapply sublist_NoDup; [exact H|].
  do 2 apply sublist_fmap_mono. apply sublist_filter.
Qed.

Lemma load_one text d d' ev e : yu text = Ok d' → same_document d d' → works (d, ev) = true →
  ∃ cr, LoadRule rc pc ip yu text e = Ok (e ++ [cr]) ∧ carries d cr.
Proof.
  intros E [H1 H2 H3 H4 H5 H6 Hl (mid & Hp & Hf)] Hw. unfold works in Hw.
  rewrite !andb_true_iff, !negb_true_iff, !bool_decide_eq_true, !String.eqb_neq in Hw.
  destruct Hw as [[[[[Hd Hs] Ht] Hc] Hm] _].
  pose proof (fold_distinct_keys _ Hd) as Hk.
  assert (NoDup (keys (y_Detection d'))) as Hk'.
  { rewrite <- (same_keys _ _ Hf). unfold keys in *. by rewrite <-Hp. }
  pose proof (get_same_text _ _ _ "condition" Hk Hp Hf) as Ec.
  destruct (compileSigmaCondition rc pc ip (rule_of d)) as [f|] eqn:Ef; [|done].
  destruct (selections_same _ _ _ Hp Hf) as (smid & Hp' & Hf').
  destruct (compiled_reordered rc pc ip (rule_of d) (rule_of d') smid f) as (f' & Ef' & Ha); [..|].
  - simpl. exact Ec.
  - simpl. by apply filter_fold_distinct.
  - done.
  - done.
  - done.
  - exists (mkCompiled (rule_of d') f'). split.
    + unfold LoadRule. rewrite (parse_document text d' E Hk'), Ef'; [done|congruence|].
      simpl in *. by rewrite Ec.
    + split; simpl; try congruence; [|by exists f].
      unfold rule_of. simpl. by rewrite !(get_perm _ _ _ Hs Hl).
Qed.

Lemma load_all docs evs texts e k n : length docs = length evs →
  forallb works (zip docs evs) = true →
  Forall2 (λ text d, ∃ d', yu text = Ok d' ∧ same_document d d') texts docs →
  ∃ crs, foldl (λ '(e, loaded, failures) '(i, content),
      match LoadRule rc pc ip yu content e with
      | Ok e' => (e', loaded + 1, failures)
      | Err _ => (e, loaded, failures ++ [i])
      end) (e, n, []) (imap (λ i c, (Z.of_nat (k + i), c)) texts)
    = (e ++ crs, n + zlen docs, []) ∧ Forall2 carries docs crs.
Proof.
  intros Hlen Hw Hf. revert evs e k n Hlen Hw.
  induction Hf as [|text d texts docs (d' & E & Hs) _ IH]; intros [|ev evs] e k n Hlen Hw;
    try discriminate Hlen.
  - exists []. simpl. by rewrite app_nil_r, Z.add_0_r.
  - injection Hlen as Hlen. simpl in Hw. apply andb_true_iff in Hw as [Hw1 Hw].
    destruct (load_one text d d' ev e E Hs Hw1) as (cr & El & Hc).
    destruct (IH evs (e ++ [cr]) (S k) (n + 1) Hlen Hw) as (crs & Ef & Hcs).
    exists (cr :: crs). split; [|by constructor]. cbn [imap foldl]. rewrite El.
    rewrite <-app_assoc in Ef. simpl in Ef.
    replace (n + zlen (d :: docs)) with (n + 1 + zlen docs) by (unfold zlen; simpl; lia).
    rewrite <-Ef. f_equal. apply imap_ext. intros i x _. simpl. f_equal. lia.
Qed.
End Load.

(** ** The whole set *)
Lemma all_work rc pc ip : forallb (works rc pc ip) (zip builtinSigmaRules caught) = true.
Proof. vm_compute. reflexivity. Qed.

Section Whole.
Context (rc : string → option (string → bool)) (pc : string → option (string → bool)).
Context (ip : string → bool) (yu : string → res sigmaYAMLDoc).

(** The parser reads each literal as its document, the mappings in some order. *)
Definition decodes (texts : list string) : Prop :=
  Forall2 (λ text d, ∃ d', yu text = Ok d' ∧ same_document d d') texts builtinSigmaRules.

Lemma builtins_loaded texts : decodes texts → ∃ crs,
  loadSigmaRuleSet rc pc ip yu [] texts = (crs, zlen builtinSigmaRules, []) ∧
  Forall2 (carries rc pc ip) builtinSigmaRules crs.
Proof.
  intros H. destruct (load_all rc pc ip yu builtinSigmaRules caught texts [] 0 0) as (crs & E & Hc);
    [by vm_compute|apply all_work|exact H|].
  exists crs. split; [exact E|done].
Qed.

Lemma caught_at k d ev : builtinSigmaRules !! k = Some d → caught !! k = Some ev →
  (d, ev) ∈ zip builtinSigmaRules caught.
Proof. intros Hk Hev. apply list_elem_of_lookup. exists k. by rewrite lookup_zip_with, Hk, Hev. Qed.

Lemma builtin_works k d : builtinSigmaRules !! k = Some d →
  ∃ ev f, caught !! k = Some ev ∧ compileSigmaCondition rc pc ip (rule_of d) = Ok f ∧
    f ev = true ∧ f [] = false ∧ fold_distinct ev ∧
    fold_distinct (Selections (Detection (rule_of d))).
Proof.
  intros Hk. destruct (lookup_lt_is_Some_2 caught k) as [ev Hev].
  { apply lookup_lt_Some in Hk. eapply Nat.lt_le_trans; [exact Hk|]. by apply Nat.leb_le; vm_compute. }
  pose proof (all_work rc pc ip) as Hall. rewrite forallb_forall in Hall.
  specialize (Hall (d, ev)). rewrite <- list_elem_of_In in Hall.
  assert (works rc pc ip (d, ev) = true) as Hw by by eapply Hall, caught_at.
  unfold works in Hw. rewrite !andb_true_iff, !bool_decide_eq_true in Hw.
  destruct Hw as [[[[[Hd _] _] _] Hm] He].
  destruct (compileSigmaCondition rc pc ip (rule_of d)) as [f|]; [|done].
  apply andb_true_iff in Hm as [H1 H2%negb_true_iff].
  exists ev, f. split_and!; try done. by apply filter_fold_distinct.
Qed.

(** Given a parser that reads the literals as the documents they are, in
    whatever order it lists a mapping, every built-in rule loads, none is reported
    as broken, and the evaluator holds each with its title, level and tags, no
    platform restriction and no severity of its own. *)
Theorem builtin_rules_load texts : decodes texts → ∃ crs,
  loadSigmaRuleSet rc pc ip yu [] texts = (crs, 314, []) ∧
  LoadBuiltinRules rc pc ip yu texts [] = (crs, 314) ∧
  Forall2 (λ d cr, s_Title (Rule cr) = y_Title d ∧ s_Level (Rule cr) = to_lower (y_Level d) ∧
             s_Tags (Rule cr) = y_Tags d ∧ s_Platform (Rule cr) = [] ∧
             DBSeverity (Rule cr) = 0) builtinSigmaRules crs.
Proof.
  intros H. destruct (builtins_loaded texts H) as (crs & E & Hc).
  assert (zlen builtinSigmaRules = 314) as En by by vm_compute. rewrite En in E.
  exists crs. split; [done|]. unfold LoadBuiltinRules. rewrite E. split; [done|].
  eapply Forall2_impl; [exact Hc|]. by intros d cr [].
Qed.

(** C13: every built-in rule can fire: for each there is an event, of a type the
    rule's category covers unless the category is one no event type has, under
    which the evaluator reports the rule's title. *)
Theorem every_builtin_can_fire texts crs n d : decodes texts →
  LoadBuiltinRules rc pc ip yu texts [] = (crs, n) → d ∈ builtinSigmaRules →
  ∃ ev, y_Title d ∈ (λ m, RuleTitle m) <$> (EvaluateEvent crs ev).1 ∧
    (categoryCompatible (str_or_empty ev "type") (Category (LogSource (rule_of d))) = true ∨
     ∀ ty, ty ∈ keys eventTypeCategories →
       categoryCompatible ty (Category (LogSource (rule_of d))) = false).
Proof.
  intros H El Hin. destruct (builtins_loaded texts H) as (crs' & E & Hc).
  unfold LoadBuiltinRules in El. rewrite E in El. injection El as <- _.
  apply list_elem_of_lookup in Hin as [k Hk].
  destruct (builtin_works k d Hk) as (ev & f & Hev & Ef & Hf & _ & Hd & _).
  destruct (Forall2_lookup_l _ _ _ _ _ Hc Hk) as (cr & Hcr & [Ht _ _ _ Hp _ (f' & Ef' & Ha)]).
  rewrite Ef in Ef'. injection Ef' as <-. exists ev. split.
  - apply list_elem_of_fmap. eexists (mkSigmaMatch _ _ _ _ _). split; [symmetry; exact Ht|].
    apply evaluate_event_matches. exists cr. split; [by eapply list_elem_of_lookup_2|].
    split; [apply gated_iff; by left|]. split; [|done].
    rewrite <- (Ha ev ev); [done|]. by split.
  - assert (forallb (λ p : sigmaYAMLDoc * event,
      categoryCompatible (str_or_empty p.2 "type") (Category (LogSource (rule_of p.1)))
      || forallb (λ ty, negb (categoryCompatible ty (Category (LogSource (rule_of p.1)))))
           (keys eventTypeCategories)) (zip builtinSigmaRules caught) = true) as Hall
      by by vm_compute.
    rewrite forallb_forall in Hall. specialize (Hall (d, ev)). rewrite <- list_elem_of_In in Hall.
    apply orb_true_iff in Hall as [?|Hall]; [by left|right|by eapply caught_at].
    intros ty Hty. rewrite forallb_forall in Hall.
    by apply list_elem_of_In, Hall, negb_true_iff in Hty.
Qed.

(** A built-in rule is silent about an event that carries none of the fields
    its selections name: no rule fires on absence alone. *)
Theorem builtins_need_their_fields texts crs n k d cr ev : decodes texts →
  LoadBuiltinRules rc pc ip yu texts [] = (crs, n) →
  builtinSigmaRules !! k = Some d → crs !! k = Some cr → fold_distinct ev →
  (∀ f, f ∈ rule_fields (Selections (Detection (rule_of d))) → field_value ev f = None) →
  Evaluate cr ev = false.
Proof.
  intros H El Hk Hcr Hd Hnone. destruct (builtins_loaded texts H) as (crs' & E & Hc).
  unfold LoadBuiltinRules in El. rewrite E in El. injection El as <- _.
  destruct (builtin_works k d Hk) as (_ & f & _ & Ef & _ & Hf & _ & Hs).
  destruct (Forall2_lookup_lr _ _ _ _ _ _ Hc Hk Hcr) as [_ _ _ _ _ _ (f' & Ef' & Ha)].
  rewrite Ef in Ef'. injection Ef' as <-. rewrite <- (Ha ev ev) by by split. rewrite <- Hf.
  apply (compiled_fields rc pc ip (rule_of d) f Hs Ef). intros fd Hfd. by rewrite Hnone.
Qed.
End Whole.

(** ** What the rule set shows *)

(** The category of this rule is one no event type has. *)
Lemma registry_set_has_no_event_type ty : ty ∈ keys eventTypeCategories →
  categoryCompatible ty
    (Category (LogSource (rule_of security_tooling_registry_tampering_direct_write))) = false.
Proof.
  intros Hty. assert (forallb (λ ty, negb (categoryCompatible ty
    (Category (LogSource (rule_of security_tooling_registry_tampering_direct_write)))))
    (keys eventTypeCategories) = true) as Hall by by vm_compute.
  rewrite forallb_forall in Hall. by apply list_elem_of_In, Hall, negb_true_iff in Hty.
Qed.

(** Two rules have one title, the name under which alerts are deduplicated. *)
Lemma builtins_share_a_title : ∃ (i j : nat) d1 d2, i ≠ j ∧ builtinSigmaRules !! i = Some d1 ∧
  builtinSigmaRules !! j = Some d2 ∧ y_Title d1 = y_Title d2.
Proof.
  exists 39%nat, 109%nat. eexists _, _. split; [done|].
  split; [vm_compute; reflexivity|]. by split; [vm_compute; reflexivity|].
Qed.

(** The product of the log source is parsed and never looked at: a Windows rule
    holds of an event of a Linux host. *)
Lemma product_is_not_checked rc pc ip yu texts crs n : decodes yu texts →
  LoadBuiltinRules rc pc ip yu texts [] = (crs, n) →
  Product (LogSource (rule_of psexec_remote_execution)) = "windows" ∧
  y_Title psexec_remote_execution ∈ (λ m, RuleTitle m) <$> (EvaluateEvent crs
    [("type", VStr "process"); ("platform", VStr "linux");
     ("CommandLine", VStr "grep PSEXESVC notes.txt")]).1.
Proof.
  intros H El. split; [by vm_compute|].
  destruct (builtins_loaded rc pc ip yu texts H) as (crs' & E & Hc).
  unfold LoadBuiltinRules in El. rewrite E in El. injection El as <- _.
  assert (builtinSigmaRules !! 2%nat = Some psexec_remote_execution) as H2 by by vm_compute.
  destruct (Forall2_lookup_l _ _ _ _ _ Hc H2) as (cr & Hcr & [Ht _ _ _ Hp _ (f & Ef & Ha)]).
  apply list_elem_of_fmap. eexists (mkSigmaMatch _ _ _ _ _). split; [symmetry; exact Ht|].
  apply evaluate_event_matches. exists cr. split; [by eapply list_elem_of_lookup_2|].
  split; [apply gated_iff; by left|]. split; [|done].
  set (ev := [_; _; _]).
  assert (match compileSigmaCondition rc pc ip (rule_of psexec_remote_execution) with
    | Ok g => g ev | Err _ => false end = true) as Hev by by vm_compute.
  rewrite Ef in Hev. rewrite <- (Ha ev ev); [done|]. split; [|done]. apply (bool_decide_eq_true_1 _). by vm_compute.
Qed.

(** ** A parser that reads them *)
Definition toy_texts : list string := (λ k, itoa (Z.of_nat k)) <$> seq 0 314.
Definition toy_parser (s : string) : res sigmaYAMLDoc :=
  match get (zip toy_texts builtinSigmaRules) s with Some d => Ok d | None => Err "no such rule" end.

Lemma same_document_refl d : same_document d d.
Proof.
  split; try done. exists (y_Detection d). split; [done|].
  apply Forall_Forall2_diag, Forall_true. intros p. split; [done|apply bp_refl].
Qed.

Lemma get_zip {A} (ks : list string) (vs : list A) k a v : NoDup ks → ks !! k = Some a →
  vs !! k = Some v → get (zip ks vs) a = Some v.
Proof.
  intros Hd. revert k vs. induction Hd as [|b ks Hb Hd IH]; intros k [|w vs] Hk Hv; [done..|].
  destruct k as [|k]; simplify_eq/=; [by rewrite String.eqb_refl|].
  destruct (String.eqb_spec b a) as [->|]; [|by eapply IH].
  by apply list_elem_of_lookup_2 in Hk.
Qed.

Lemma toy_decodes : decodes toy_parser toy_texts.
Proof.
  assert (NoDup toy_texts) as Hd by (apply (bool_decide_eq_true_1 _); vm_compute; reflexivity).
  apply Forall2_same_length_lookup. split; [by vm_compute|]. intros k a d Ha Hk.
  exists d. split; [|apply same_document_refl]. unfold toy_parser. by rewrite (get_zip _ _ k a d).
Qed.

Lemma toy_loaded : ∃ crs,
  LoadBuiltinRules toy_regexp toy_cidr toy_is_ip toy_parser toy_texts [] = (crs, 314) ∧
  Forall2 (carries toy_regexp toy_cidr toy_is_ip) builtinSigmaRules crs.
Proof.
  destruct (builtins_loaded toy_regexp toy_cidr toy_is_ip toy_parser toy_texts toy_decodes)
    as (crs & E & Hc).
  exists crs. split; [|exact Hc]. unfold LoadBuiltinRules. by rewrite E.
Qed.

Lemma builtin_rules_load_witness : decodes toy_parser toy_texts ∧ ∃ crs,
  loadSigmaRuleSet toy_regexp toy_cidr toy_is_ip toy_parser [] toy_texts = (crs, 314, []) ∧
  LoadBuiltinRules toy_regexp toy_cidr toy_is_ip toy_parser toy_texts [] = (crs, 314) ∧
  Forall2 (λ d cr, s_Title (Rule cr) = y_Title d ∧ s_Level (Rule cr) = to_lower (y_Level d) ∧
             s_Tags (Rule cr) = y_Tags d ∧ s_Platform (Rule cr) = [] ∧
             DBSeverity (Rule cr) = 0) builtinSigmaRules crs.
Proof.
  split; [exact toy_decodes|].
  apply (builtin_rules_load toy_regexp toy_cidr toy_is_ip toy_parser toy_texts toy_decodes).
Defined.

Lemma every_builtin_can_fire_witness : ∃ crs ev,
  y_Title psexec_remote_execution ∈ (λ m, RuleTitle m) <$> (EvaluateEvent crs ev).1 ∧
  (categoryCompatible (str_or_empty ev "type")
     (Category (LogSource (rule_of psexec_remote_execution))) = true ∨
   ∀ ty, ty ∈ keys eventTypeCategories →
     categoryCompatible ty (Category (LogSource (rule_of psexec_remote_execution))) = false).
Proof.
  destruct toy_loaded as (crs & E & _). exists crs.
  apply (every_builtin_can_fire toy_regexp toy_cidr toy_is_ip toy_parser toy_texts crs 314
    psexec_remote_execution toy_decodes E).
  apply list_elem_of_lookup. exists 2%nat. vm_compute. reflexivity.
Defined.

(** A connection carries no command line: the Mimikatz rule says nothing. *)
Lemma builtins_need_their_fields_witness : ∃ (crs : list CompiledSigmaRule) cr, crs !! 0%nat = Some cr ∧
  s_Title (Rule cr) = "Mimikatz Credential Dumping Tool Detected" ∧
  Evaluate cr [("type", VStr "network"); ("DestinationIp", VStr "10.0.0.1")] = false.
Proof.
  destruct toy_loaded as (crs & E & Hc).
  assert (builtinSigmaRules !! 0%nat = Some mimikatz_credential_dumping_tool_detected) as H0
    by (vm_compute; reflexivity).
  destruct (Forall2_lookup_l _ _ _ _ _ Hc H0) as (cr & Hcr & [Ht _ _ _ _ _ _]).
  exists crs, cr. split; [exact Hcr|]. split; [exact Ht|].
  apply (builtins_need_their_fields toy_regexp toy_cidr toy_is_ip toy_parser toy_texts crs 314 0%nat
    mimikatz_credential_dumping_tool_detected cr _ toy_decodes E H0 Hcr).
  - apply (bool_decide_eq_true_1 _). vm_compute. reflexivity.
  - intros f Hf.
    assert (rule_fields (Selections (Detection (rule_of mimikatz_credential_dumping_tool_detected)))
            = ["CommandLine"; "Image"]) as Er by (vm_compute; reflexivity).
    rewrite Er in Hf. apply elem_of_cons in Hf as [->|Hf]; [vm_compute; reflexivity|].
    apply list_elem_of_singleton in Hf as ->. vm_compute. reflexivity.
Defined.
