(* ===== verification/RuleEngine.v ===== *)
(** * The rule engine and its logsource index

    [server/internal/detection/rules/rule_engine.go], [logsource_index.go] and
    [condition_wildcard.go]: loading, the narrowing of the candidate rules by
    event type, and the evaluation of one event.  The third-party Sigma library
    and the YAML parser are parameters. *)

From Stdlib Require Import Ascii.
From S2P Require Import Prelude GoStrings Event Sequence.

#[local] Open Scope string_scope.
#[local] Open Scope list_scope.
#[local] Open Scope Z_scope.

(** ** Sorted strings *)
Fixpoint insert_string (x : string) (l : list string) : list string :=
  match l with
  | [] => [x]
  | y :: l' => if String.leb x y then x :: l else y :: insert_string x l'
  end.
(** [sort.Strings]. *)
Definition sort_strings (l : list string) : list string := foldr insert_string [] l.

(** ** [expandAllOfWildcards] *)
Definition word_char (c : ascii) : bool :=
  is_digit c || Ascii.eqb c "_" || negb (Ascii.eqb (lower_char c) (upper_char c)).
Definition re_space (c : ascii) : bool := is_space c && negb (Ascii.eqb c (chr 11)).

Fixpoint span (f : ascii → bool) (s : string) : string * string :=
  match s with
  | String c s' => if f c then let '(a, b) := span f s' in (String c a, b) else (EmptyString, s)
  | EmptyString => (EmptyString, EmptyString)
  end.

(** [all\s+of\s+([A-Za-z0-9_]+)\*] at the head of [s]: the matched text, the
    prefix and what follows. *)
Definition match_all_of (s : string) : option (string * string * string) :=
  if negb (has_prefix s "all") then None else
  let '(sp1, r) := span re_space (sdrop 3 s) in
  if String.eqb sp1 "" || negb (has_prefix r "of") then None else
  let '(sp2, r) := span re_space (sdrop 2 r) in
  let '(w, r) := span word_char r in
  if String.eqb sp2 "" || String.eqb w "" || negb (has_prefix r "*") then None else
  Some ("all" +:+ sp1 +:+ "of" +:+ sp2 +:+ w +:+ "*", w, sdrop 1 r).

Definition expand_match (names : list string) (matched prefix : string) : string :=
  match filter (λ n, has_prefix n prefix = true) names with
  | [] => matched
  | l => "(" +:+ join " and " (sort_strings l) +:+ ")"
  end.

Fixpoint replace_all_of (fuel : nat) (names : list string) (prev_word : bool) (s : string) : string :=
  match fuel, s with
  | S f, String c s' =>
      match (if prev_word then None else match_all_of s) with
      | Some (m, prefix, rest) => expand_match names m prefix +:+ replace_all_of f names false rest
      | None => String c (replace_all_of f names (word_char c) s')
      end
  | _, _ => s
  end.

(** ** [stripDetectionTimeframe] *)
Definition keeps_line (ln : string) : bool :=
  negb (has_prefix (trim_space ln) "timeframe:" && negb (String.eqb ln (trim_space ln))).

Definition stripDetectionTimeframe (content : string) : string :=
  if negb (contains content "timeframe:") then content else
  join (String newline "") (filter (λ ln, keeps_line ln = true) (split_on newline content)).

(** ** Compiled rules *)
Inductive Verdict := Matched (b : bool) | EvalError | EvalPanic.

(** What the Sigma library makes of a rule. *)
Record SigmaParsed := mkSigmaParsed {
  p_category : string;
  p_aggregation : bool;
  p_matches : event → Verdict
}.

Record compiledSigmaRule := mkCompiledSigma { category : string; evaluator : event → Verdict }.

(** ** The index *)
Definition eventTypeCategories : gomap (list string) :=
  [("process", ["process_creation"; "ps_script"; "ps_module"; "create_remote_thread"]);
   ("script", ["ps_script"; "process_creation"; "ps_module"]);
   ("ps_module", ["ps_module"; "ps_script"; "process_creation"]);
   ("file", ["file_event"; "file_change"; "file_delete"; "file_rename"; "file_access"]);
   ("image_load", ["image_load"]);
   ("network", ["network_connection"; "firewall"]);
   ("dns", ["dns_query"; "dns"]);
   ("registry", ["registry_set"; "registry_event"; "registry_add"; "registry_delete"; "registry_rename"]);
   ("create_remote_thread", ["create_remote_thread"]);
   ("pipe_created", ["pipe_created"]);
   ("driver_load", ["driver_load"]);
   ("wmi", ["wmi_event"])].

Definition knownCategories : list string := mjoin eventTypeCategories.*2.

Record logsourceIndex := mkIndex {
  byEventType : gomap (list string);
  always : list string;
  all_ids : list string
}.

(** The category the index files a rule under; [None]: always evaluated. *)
Definition index_category (sigma : gmap string compiledSigmaRule) (id : string) : option string :=
  match sigma !! id with
  | None => None
  | Some cs =>
      if String.eqb (category cs) "" || negb (existsb (String.eqb (category cs)) knownCategories)
      then None else Some (category cs)
  end.

(** [ids] are the keys of the rule map in iteration order. *)
Definition buildLogsourceIndex (ids : list string) (sigma : gmap string compiledSigmaRule)
    : logsourceIndex :=
  let always := sort_strings (filter (λ id, index_category sigma id = None) ids) in
  let byCategory c := filter (λ id, index_category sigma id = Some c) ids in
  mkIndex ((λ p : string * list string,
              (p.1, sort_strings (always ++ mjoin (byCategory <$> p.2)))) <$> eventTypeCategories)
    always (sort_strings ids).

Definition candidates (i : logsourceIndex) (eventType : string) : list string :=
  match get (byEventType i) eventType with Some ids => ids | None => all_ids i end.

(** ** The engine *)
Record RuleEngine := mkRuleEngine {
  e_rules : gmap string DetectionRule;
  sigma : gmap string compiledSigmaRule;
  sequence : SequenceEngine;
  platformGate : bool;
  dbSigmaOwned : bool;
  index : logsourceIndex;
  logsourceIndexGate : bool
}.

Definition NewRuleEngine : RuleEngine :=
  mkRuleEngine ∅ ∅ NewSequenceEngine true true (mkIndex [] [] []) true.

Definition SetDBSigmaEvaluation (own : bool) (e : RuleEngine) : RuleEngine :=
  mkRuleEngine (e_rules e) (sigma e) (sequence e) (platformGate e) own (index e) (logsourceIndexGate e).
Definition SetPlatformGate (on : bool) (e : RuleEngine) : RuleEngine :=
  mkRuleEngine (e_rules e) (sigma e) (sequence e) on (dbSigmaOwned e) (index e) (logsourceIndexGate e).
Definition SetLogsourceIndex (on : bool) (e : RuleEngine) : RuleEngine :=
  mkRuleEngine (e_rules e) (sigma e) (sequence e) (platformGate e) (dbSigmaOwned e) (index e) on.
Definition GetRule (e : RuleEngine) (id : string) : option DetectionRule := e_rules e !! id.

Section Engine.
Context (yaml_detection_keys : string → option (list string)).
Context (sigma_parse : string → option SigmaParsed).

Definition expandAllOfWildcards (content : string) : string :=
  if negb (contains content "all of ") then content else
  match yaml_detection_keys content with
  | None | Some [] => content
  | Some ks =>
      replace_all_of (String.length content) (filter (λ k, k ≠ "condition") ks) false content
  end.

Definition compileSigmaRule (r : DetectionRule) : option compiledSigmaRule :=
  let content := stripDetectionTimeframe (expandAllOfWildcards (r_Content r)) in
  match sigma_parse content with
  | None => None
  | Some p =>
      if p_aggregation p then None
      else Some (mkCompiledSigma (to_lower (trim_space (p_category p))) (p_matches p))
  end.

Definition load_rule (owned : bool) (acc : gmap string DetectionRule * gmap string compiledSigmaRule)
    (r : DetectionRule) : gmap string DetectionRule * gmap string compiledSigmaRule :=
  let '(rs, sg) := acc in
  let rs := <[r_ID r := r]> rs in
  if String.eqb (r_Type r) "sigma" && owned then
    match compileSigmaRule r with
    | Some cs => (rs, <[r_ID r := cs]> sg)
    | None => (rs, sg)
    end
  else (rs, sg).

Definition LoadRules (rs : list DetectionRule) (e : RuleEngine) : RuleEngine :=
  let '(m, sg) := foldl (load_rule (dbSigmaOwned e)) (∅, ∅) rs in
  mkRuleEngine m sg (Sequence.LoadRules rs (sequence e)) (platformGate e) (dbSigmaOwned e)
    (buildLogsourceIndex (map_to_list m).*1 sg) (logsourceIndexGate e).
End Engine.

(** ** Evaluation *)
Definition evaluateSigma (e : RuleEngine) (id : string) (ev : event) : res bool :=
  match sigma e !! id with
  | None => Ok false
  | Some cs =>
      match evaluator cs ev with
      | Matched b => Ok b
      | EvalError => Err "evaluation error"
      | EvalPanic => Err ("sigma rule " +:+ id +:+ " panicked")
      end
  end.

Definition behavioral_line (ev : event) (line : string) : bool :=
  let line := trim_space line in
  if String.eqb line "" || has_prefix line "#" then true else
  match cut ":" line with
  | None => true
  | Some (f, v) =>
      match get ev (trim_space f) with
      | None => false
      | Some x => contains (to_lower (sprint x)) (to_lower (trim_space v))
      end
  end.
Definition evaluateBehavioral (r : DetectionRule) (ev : event) : bool :=
  forallb (behavioral_line ev) (split_on newline (r_Content r)).

Definition rule_match (r : DetectionRule) : RuleMatch :=
  mkRuleMatch (r_ID r) (r_Name r) (r_Type r) (r_Severity r)
    ("[" +:+ to_upper (r_Type r) +:+ "] " +:+ r_Name r)
    ("ルール '" +:+ r_Name r +:+ "' に一致しました") (r_MITRETags r)
    (r_AutoIsolate r) (r_AutoKill r) "".

(** The verdict on one rule: an error is reported and counts as no match. *)
Definition rule_verdict (e : RuleEngine) (id : string) (r : DetectionRule) (ev : event) : res bool :=
  if String.eqb (r_Type r) "sigma" then evaluateSigma e id ev
  else if String.eqb (r_Type r) "behavioral" then Ok (evaluateBehavioral r ev)
  else Ok false.

Definition evaluate_candidate (e : RuleEngine) (ev : event) (id : string) : option RuleMatch :=
  match e_rules e !! id with
  | None => None
  | Some r =>
      if negb (r_Enabled r) then None else
      if platformGate e && negb (platformMatchesEvent (r_Platform r) (str_or_empty ev "platform"))
      then None else
      match rule_verdict e id r ev with
      | Ok true => Some (rule_match r)
      | _ => None
      end
  end.

Definition candidate_ids (e : RuleEngine) (ev : event) : list string :=
  if logsourceIndexGate e then candidates (index e) (str_or_empty ev "type") else all_ids (index e).

(** [Evaluate] up to the network detectors. *)
Definition evaluate_rules (e : RuleEngine) (ev : event) : list RuleMatch :=
  omap (evaluate_candidate e ev) (candidate_ids e ev).

Definition Evaluate (e : RuleEngine) (now : time) (ev : event) : RuleEngine * list RuleMatch :=
  let ms := evaluate_rules e ev in
  let '(sq, seqMatches) :=
    observeAt (sequence e) (str_or_empty ev "agent_id") (str_or_empty ev "type") ev now in
  (mkRuleEngine (e_rules e) (sigma e) sq (platformGate e) (dbSigmaOwned e) (index e)
     (logsourceIndexGate e), ms ++ seqMatches).

(** *** Fields of network events *)
Fixpoint first_nonempty (ev : event) (ks : list string) : string :=
  match ks with
  | [] => ""
  | k :: ks' =>
      match get_str ev k with
      | Some s => if String.eqb s "" then first_nonempty ev ks' else s
      | None => first_nonempty ev ks'
      end
  end.
Definition beaconDstIP (ev : event) : string :=
  first_nonempty ev ["dstIp"; "dst_ip"; "DestinationIp"; "destinationIp"].

(** ** Lemmas *)
Lemma insert_string_perm x l : insert_string x l ≡ₚ x :: l.
Proof.
  induction l as [|y l IH]; simpl; [done|]. destruct (String.leb x y); [done|].
  rewrite IH. constructor.
Qed.

Lemma sort_strings_perm l : sort_strings l ≡ₚ l.
Proof. induction l as [|x l IH]; simpl; [done|]. by rewrite insert_string_perm, IH. Qed.

Lemma get_fmap {A B} (f : string * A → B) (m : gomap A) k :
  get ((λ p, (p.1, f p)) <$> m) k = match get m k with Some v => Some (f (k, v)) | None => None end.
Proof.
  induction m as [|[k' v] m IH]; simpl; [done|].
  destruct (String.eqb_spec k' k) as [->|]; [done|apply IH].
Qed.

(** Does the index keep the rule for events of this type? *)
Definition indexed (sg : gmap string compiledSigmaRule) (eventType id : string) : Prop :=
  match get eventTypeCategories eventType with
  | None => True
  | Some cats => match index_category sg id with None => True | Some c => c ∈ cats end
  end.

Lemma candidates_spec ids sg et id :
  id ∈ candidates (buildLogsourceIndex ids sg) et ↔ id ∈ ids ∧ indexed sg et id.
Proof.
  unfold candidates, buildLogsourceIndex, indexed. cbn [byEventType all_ids]. rewrite get_fmap.
  destruct (get eventTypeCategories et) as [cats|]; cbn [snd]; rewrite sort_strings_perm; [|tauto].
  rewrite elem_of_app, sort_strings_perm, list_elem_of_filter, list_elem_of_join.
  setoid_rewrite list_elem_of_fmap. split.
  - intros [[-> Hid]|(l & Hid & c & -> & Hc)]; [done|].
    apply list_elem_of_filter in Hid as [-> Hid]. done.
  - intros [Hid H]. destruct (index_category sg id) as [c|] eqn:E; [right|by left].
    eexists. split; [|by exists c]. by apply list_elem_of_filter.
Qed.

Lemma categories_nodup et cats : get eventTypeCategories et = Some cats → NoDup cats.
Proof.
  intros H. apply get_Some_elem in H. revert H.
  assert (Forall (λ p : string * list string, NoDup p.2) eventTypeCategories) as F.
  { unfold eventTypeCategories. repeat constructor; set_solver. }
  rewrite Forall_forall in F. intros H. exact (F _ H).
Qed.

Lemma nodup_by_category (ids : list string) sg cats : NoDup ids → NoDup cats →
  NoDup (mjoin ((λ c, filter (λ id, index_category sg id = Some c) ids) <$> cats)).
Proof.
  intros Hi. induction 1 as [|c cats Hc _ IH]; [constructor|]. simpl. apply NoDup_app.
  split_and!; [by apply NoDup_filter| |done].
  intros id Hid Hj. apply list_elem_of_filter in Hid as [Hid _].
  apply list_elem_of_join in Hj as (l & Hl & Hj). apply list_elem_of_fmap in Hj as (c' & -> & Hc').
  apply list_elem_of_filter in Hl as [Hl _]. congruence.
Qed.

Lemma candidates_nodup ids sg et : NoDup ids → NoDup (candidates (buildLogsourceIndex ids sg) et).
Proof.
  intros Hi. unfold candidates, buildLogsourceIndex. cbn [byEventType all_ids]. rewrite get_fmap.
  destruct (get eventTypeCategories et) as [cats|] eqn:E; cbn [snd]; rewrite sort_strings_perm; [|done].
  apply NoDup_app. rewrite sort_strings_perm. split_and!.
  - by apply NoDup_filter.
  - intros id Hid Hj. rewrite sort_strings_perm in Hid. apply list_elem_of_filter in Hid as [Hid _].
    apply list_elem_of_join in Hj as (l & Hl & Hj). apply list_elem_of_fmap in Hj as (c' & -> & _).
    apply list_elem_of_filter in Hl as [Hl _]. congruence.
  - apply nodup_by_category; [done|]. by eapply categories_nodup.
Qed.

Section Properties.
Context (yaml_detection_keys : string → option (list string)).
Context (sigma_parse : string → option SigmaParsed).

Lemma loaded_index rs e : let e' := LoadRules yaml_detection_keys sigma_parse rs e in
  index e' = buildLogsourceIndex (map_to_list (e_rules e')).*1 (sigma e') ∧
  logsourceIndexGate e' = logsourceIndexGate e.
Proof. cbn zeta. unfold LoadRules. by destruct (foldl _ _ _). Qed.

Lemma rules_key_elem (m : gmap string DetectionRule) id :
  id ∈ (map_to_list m).*1 ↔ is_Some (m !! id).
Proof.
  rewrite list_elem_of_fmap. split.
  - intros ([k r] & -> & H). apply elem_of_map_to_list in H. by exists r.
  - intros [r H]. exists (id, r). split; [done|]. by apply elem_of_map_to_list.
Qed.

Lemma candidate_ids_spec rs e ev id : let e' := LoadRules yaml_detection_keys sigma_parse rs e in
  id ∈ candidate_ids e' ev ↔ is_Some (e_rules e' !! id) ∧
    (logsourceIndexGate e = false ∨ indexed (sigma e') (str_or_empty ev "type") id).
Proof.
  cbn zeta. set (e' := LoadRules _ _ _ _). destruct (loaded_index rs e) as [Ei Eg].
  fold e' in Ei, Eg. unfold candidate_ids. rewrite Eg, Ei. destruct (logsourceIndexGate e).
  - rewrite candidates_spec, rules_key_elem. naive_solver.
  - unfold buildLogsourceIndex. cbn [all_ids]. rewrite sort_strings_perm, rules_key_elem. naive_solver.
Qed.

(** C23: after a load, one event is reported under a rule exactly when the rule is
    enabled, passes the platform gate, is kept by the index (always, when the
    index is off, the event type is unknown to it or the rule has no category it
    knows) and its own verdict is a match; an error or a panic in the evaluation
    of one rule changes nothing for the others. *)
Theorem evaluate_reports_iff rs e ev m :
  let e' := LoadRules yaml_detection_keys sigma_parse rs e in
  m ∈ evaluate_rules e' ev ↔
  ∃ id r, e_rules e' !! id = Some r ∧ r_Enabled r = true ∧
    (platformGate e' = true →
       platformMatchesEvent (r_Platform r) (str_or_empty ev "platform") = true) ∧
    (logsourceIndexGate e = false ∨ indexed (sigma e') (str_or_empty ev "type") id) ∧
    rule_verdict e' id r ev = Ok true ∧ m = rule_match r.
Proof.
  cbn zeta. unfold evaluate_rules. rewrite list_elem_of_omap.
  setoid_rewrite candidate_ids_spec. set (e' := LoadRules _ _ _ _).
  unfold evaluate_candidate. split.
  - intros (id & [[r Hr] Hi] & H). rewrite Hr in H. exists id, r.
    destruct (r_Enabled r); [|done]. cbn [negb] in H.
    destruct (platformGate e'), (platformMatchesEvent _ _); simpl in H; try done;
      destruct (rule_verdict e' id r ev) as [[]|]; simplify_eq; by split_and!.
  - intros (id & r & Hr & He & Hp & Hi & Hv & ->). exists id. split; [by split; [exists r|]|].
    rewrite Hr, He, Hv. cbn [negb].
    destruct (platformGate e'); [|done]. by rewrite Hp.
Qed.

(** No rule is evaluated twice for one event, whatever the event's type and
    whether the index is on or off. *)
Theorem candidates_distinct rs e ev :
  NoDup (candidate_ids (LoadRules yaml_detection_keys sigma_parse rs e) ev).
Proof.
  destruct (loaded_index rs e) as [Ei Eg]. unfold candidate_ids. rewrite Ei.
  pose proof (NoDup_fst_map_to_list (e_rules (LoadRules yaml_detection_keys sigma_parse rs e))) as Hn.
  destruct (logsourceIndexGate _); [by apply candidates_nodup|].
  unfold buildLogsourceIndex. cbn [all_ids]. by rewrite sort_strings_perm.
Qed.
End Properties.
