(* ===== verification/Digest.v ===== *)
(** * Digests and hexadecimal output

    The functions of Go's [crypto/md5], [crypto/sha256] and [encoding/hex] that the
    code calls (RFC 1321, FIPS 180-4), on byte lists: padding, the 64 rounds on 32-bit
    words, and lower-case hexadecimal. *)

From Stdlib Require Import Ascii.
From S2P Require Import Prelude GoStrings.

#[local] Open Scope string_scope.
#[local] Open Scope list_scope.
#[local] Open Scope Z_scope.

Definition wrap_u32 (z : Z) : Z := z mod 2 ^ 32.

Definition rotl32 (x s : Z) : Z :=
  Z.lor (wrap_u32 (Z.shiftl x s)) (Z.shiftr x (32 - s)).

Definition not32 (x : Z) : Z := 2 ^ 32 - 1 - x.

(** The constants floor(2^32 * |sin (i + 1)|). *)
Definition md5_table : list Z :=
  [3614090360; 3905402710; 606105819; 3250441966;
   4118548399; 1200080426; 2821735955; 4249261313;
   1770035416; 2336552879; 4294925233; 2304563134;
   1804603682; 4254626195; 2792965006; 1236535329;
   4129170786; 3225465664; 643717713; 3921069994;
   3593408605; 38016083; 3634488961; 3889429448;
   568446438; 3275163606; 4107603335; 1163531501;
   2850285829; 4243563512; 1735328473; 2368359562;
   4294588738; 2272392833; 1839030562; 4259657740;
   2763975236; 1272893353; 4139469664; 3200236656;
   681279174; 3936430074; 3572445317; 76029189;
   3654602809; 3873151461; 530742520; 3299628645;
   4096336452; 1126891415; 2878612391; 4237533241;
   1700485571; 2399980690; 4293915773; 2240044497;
   1873313359; 4264355552; 2734768916; 1309151649;
   4149444226; 3174756917; 718787259; 3951481745].

Definition md5_shifts : list Z :=
  let r a b c d := [a; b; c; d; a; b; c; d; a; b; c; d; a; b; c; d] in
  r 7 12 17 22 ++ r 5 9 14 20 ++ r 4 11 16 23 ++ r 6 10 15 21.

Definition md5_state : Type := Z * Z * Z * Z.
Definition md5_init : md5_state := (1732584193, 4023233417, 2562383102, 271733878).

Definition md5_round (words : list Z) (st : md5_state) (i : nat) : md5_state :=
  let '(a, b, c, d) := st in
  let zi := Z.of_nat i in
  let '(f, g) :=
    if zi <? 16 then (Z.lor (Z.land b c) (Z.land (not32 b) d), zi)
    else if zi <? 32 then (Z.lor (Z.land d b) (Z.land (not32 d) c), (5 * zi + 1) mod 16)
    else if zi <? 48 then (Z.lxor b (Z.lxor c d), (3 * zi + 5) mod 16)
    else (Z.lxor c (Z.lor b (not32 d)), (7 * zi) mod 16) in
  let sum := wrap_u32 (f + a + nth i md5_table 0 + nth (Z.to_nat g) words 0) in
  (d, wrap_u32 (b + rotl32 sum (nth i md5_shifts 0)), b, c).

(** Little-endian words of a block. *)
Fixpoint le_words (b : list Z) : list Z :=
  match b with
  | x0 :: x1 :: x2 :: x3 :: b' =>
      x0 + 2 ^ 8 * x1 + 2 ^ 16 * x2 + 2 ^ 24 * x3 :: le_words b'
  | _ => []
  end.

Fixpoint le_bytes (n : nat) (v : Z) : list Z :=
  match n with O => [] | S n' => v mod 256 :: le_bytes n' (v / 256) end.

Definition md5_block (st : md5_state) (block : list Z) : md5_state :=
  let '(a, b, c, d) := st in
  let '(a', b', c', d') := foldl (md5_round (le_words block)) st (seq 0 64) in
  (wrap_u32 (a + a'), wrap_u32 (b + b'), wrap_u32 (c + c'), wrap_u32 (d + d')).

Definition md5_pad (msg : list Z) : list Z :=
  let n := zlen msg in
  msg ++ [128] ++ replicate (Z.to_nat ((55 - n) mod 64)) 0 ++ le_bytes 8 (8 * n).

Fixpoint md5_blocks (n : nat) (st : md5_state) (b : list Z) : md5_state :=
  match n with
  | O => st
  | S n' => md5_blocks n' (md5_block st (take 64 b)) (drop 64 b)
  end.

Definition md5_sum (msg : list Z) : list Z :=
  let p := md5_pad msg in
  let '(a, b, c, d) := md5_blocks (length p / 64) md5_init p in
  le_bytes 4 a ++ le_bytes 4 b ++ le_bytes 4 c ++ le_bytes 4 d.

Definition hex_digit (v : Z) : ascii :=
  chr (Z.to_nat (if v <? 10 then 48 + v else 87 + v)).

(** [hex.EncodeToString]. *)
Fixpoint hex_encode (b : list Z) : string :=
  match b with
  | [] => ""
  | x :: b' => String (hex_digit (x / 16)) (String (hex_digit (x mod 16)) (hex_encode b'))
  end.

(** [[]byte(s)] and [string(b)]. *)
Fixpoint bytes_of (s : string) : list Z :=
  match s with
  | EmptyString => []
  | String c s' => Z.of_nat (nat_of_ascii c) :: bytes_of s'
  end.

Fixpoint string_of (b : list Z) : string :=
  match b with
  | [] => ""
  | x :: b' => String (chr (Z.to_nat x)) (string_of b')
  end.

Example md5_vectors :
  hex_encode (md5_sum (bytes_of "")) = "d41d8cd98f00b204e9800998ecf8427e" /\
  hex_encode (md5_sum (bytes_of "abc")) = "900150983cd24fb0d6963f7d28e17f72" /\
  hex_encode (md5_sum (bytes_of (repeat_char "a" 56))) = "3b0c8ac703f828b04c6c197006d17218" /\
  hex_encode (md5_sum (bytes_of (repeat_char "b" 64))) = "0b649bcb5a82868817fec9a6e709d233".
Proof. by vm_compute. Qed.

(** ** SHA-256 *)
Definition rotr32 (x n : Z) : Z := Z.lor (Z.shiftr x n) (wrap_u32 (Z.shiftl x (32 - n))).

(** The fractional parts of the cube roots of the first 64 primes. *)
Definition sha256_table : list Z :=
  [1116352408; 1899447441; 3049323471; 3921009573;
   961987163; 1508970993; 2453635748; 2870763221;
   3624381080; 310598401; 607225278; 1426881987;
   1925078388; 2162078206; 2614888103; 3248222580;
   3835390401; 4022224774; 264347078; 604807628;
   770255983; 1249150122; 1555081692; 1996064986;
   2554220882; 2821834349; 2952996808; 3210313671;
   3336571891; 3584528711; 113926993; 338241895;
   666307205; 773529912; 1294757372; 1396182291;
   1695183700; 1986661051; 2177026350; 2456956037;
   2730485921; 2820302411; 3259730800; 3345764771;
   3516065817; 3600352804; 4094571909; 275423344;
   430227734; 506948616; 659060556; 883997877;
   958139571; 1322822218; 1537002063; 1747873779;
   1955562222; 2024104815; 2227730452; 2361852424;
   2428436474; 2756734187; 3204031479; 3329325298].

Definition sha256_init : list Z :=
  [1779033703; 3144134277; 1013904242; 2773480762; 1359893119; 2600822924; 528734635; 1541459225].

Definition big_sigma0 (x : Z) : Z := Z.lxor (rotr32 x 2) (Z.lxor (rotr32 x 13) (rotr32 x 22)).
Definition big_sigma1 (x : Z) : Z := Z.lxor (rotr32 x 6) (Z.lxor (rotr32 x 11) (rotr32 x 25)).
Definition small_sigma0 (x : Z) : Z := Z.lxor (rotr32 x 7) (Z.lxor (rotr32 x 18) (Z.shiftr x 3)).
Definition small_sigma1 (x : Z) : Z := Z.lxor (rotr32 x 17) (Z.lxor (rotr32 x 19) (Z.shiftr x 10)).

(** Big-endian words of a block. *)
Fixpoint be_words (b : list Z) : list Z :=
  match b with
  | x0 :: x1 :: x2 :: x3 :: b' => 2 ^ 24 * x0 + 2 ^ 16 * x1 + 2 ^ 8 * x2 + x3 :: be_words b'
  | _ => []
  end.

(** The schedule, last word first. *)
Fixpoint sha256_schedule (n : nat) (w : list Z) : list Z :=
  match n with
  | O => w
  | S n' =>
      let at_ i := nth i w 0 in
      sha256_schedule n'
        (wrap_u32 (small_sigma1 (at_ 1%nat) + at_ 6%nat + small_sigma0 (at_ 14%nat) + at_ 15%nat) :: w)
  end.

Definition sha256_round (st : list Z) (kw : Z * Z) : list Z :=
  match st with
  | [a; b; c; d; e; f; g; h] =>
      let ch := Z.lxor (Z.land e f) (Z.land (not32 e) g) in
      let t1 := h + big_sigma1 e + ch + kw.1 + kw.2 in
      let maj := Z.lxor (Z.land a b) (Z.lxor (Z.land a c) (Z.land b c)) in
      [wrap_u32 (t1 + big_sigma0 a + maj); a; b; c; wrap_u32 (d + t1); e; f; g]
  | _ => st
  end.

Definition sha256_block (st : list Z) (block : list Z) : list Z :=
  let w := rev (sha256_schedule 48 (rev (be_words block))) in
  zip_with (λ x y, wrap_u32 (x + y)) st (foldl sha256_round st (zip sha256_table w)).

Definition sha256_pad (msg : list Z) : list Z :=
  let n := zlen msg in
  msg ++ [128] ++ replicate (Z.to_nat ((55 - n) mod 64)) 0 ++ rev (le_bytes 8 (8 * n)).

Fixpoint sha256_blocks (n : nat) (st : list Z) (b : list Z) : list Z :=
  match n with
  | O => st
  | S n' => sha256_blocks n' (sha256_block st (take 64 b)) (drop 64 b)
  end.

(** [sha256.Sum256]. *)
Definition sha256_sum (msg : list Z) : list Z :=
  let p := sha256_pad msg in
  sha256_blocks (length p / 64) sha256_init p ≫= λ w, rev (le_bytes 4 w).

Example sha256_vectors :
  hex_encode (sha256_sum (bytes_of "abc")) = "ba7816bf8f01cfea414140de5dae2223b00361a396177a9cb410ff61f20015ad" /\
  hex_encode (sha256_sum (bytes_of (repeat_char (chr 97) 64))) =
    "ffe054fe7ae0cb6dc65c3af9b61d5209f439851db43d0ba5997337df154668eb" /\
  hex_encode (sha256_sum (bytes_of "")) = "e3b0c44298fc1c149afbf4c8996fb92427ae41e4649b934ca495991b7852b855".
Proof. by vm_compute. Qed.
