(* ===== verification/Ja3.v ===== *)
(** * TLS fingerprints: agent/internal/ja3 and agent/internal/netparse

    [ja3.go] (the bounds-checked cursor, the handshake header, [FromClientHello],
    [FromServerHello], [ServerName] and the extension walk) and [tlspacket.go]
    (the IPv4/TCP packet that carries a ClientHello), on byte lists.  Every index
    and slice of the code is a checked operation that may panic ([go_index],
    [go_slice]); a slice is given no spare capacity, so a slice the model allows
    is one the code allows.  The extension loops run with fuel: the number of
    bytes of the record and one, each turn consuming at least four bytes.
    Theorems are in [Ja3Proofs.v]. *)

From Stdlib Require Import Ascii.
From S2P Require Import Prelude GoStrings Digest.

#[local] Open Scope string_scope.
#[local] Open Scope list_scope.
#[local] Open Scope Z_scope.

Definition is_byte (b : Z) : Prop := 0 <= b < 256.

Definition recordTypeHandshake : Z := 22.
Definition handshakeClientHello : Z := 1.
Definition handshakeServerHello : Z := 2.
Definition extSupportedGroups : Z := 10.
Definition extECPointFormats : Z := 11.

Definition ErrNotHandshake : string := "ja3: not a TLS handshake record".
Definition ErrTruncated : string := "ja3: truncated record".
Definition ErrWrongMessage : string := "ja3: unexpected handshake message type".

(** [binary.BigEndian.Uint16] of two bytes. *)
Definition be_u16 (hi lo : Z) : Z := Z.lor (Z.shiftl hi 8) lo.

Definition isGREASE (v : Z) : bool :=
  let hi := Z.land (Z.shiftr v 8) 255 in
  let lo := Z.land v 255 in
  (hi =? lo) && (Z.land lo 15 =? 10).

(** ** The cursor *)
Record reader : Type := Reader { rb : list Z; pos : Z }.

(** A read gives nothing ([ok] false, the cursor where it was) when it would pass
    the end. *)
Definition u8 (r : reader) : go (option (Z * reader)) :=
  if zlen (rb r) <? pos r + 1 then Ret None
  else v ← go_index (rb r) (pos r); Ret (Some (v, Reader (rb r) (pos r + 1))).

Definition u16 (r : reader) : go (option (Z * reader)) :=
  if zlen (rb r) <? pos r + 2 then Ret None
  else
    s ← go_slice (rb r) (pos r) (zlen (rb r));
    lo ← go_index s 1; hi ← go_index s 0;
    Ret (Some (be_u16 hi lo, Reader (rb r) (pos r + 2))).

Definition u24 (r : reader) : go (option (Z * reader)) :=
  if zlen (rb r) <? pos r + 3 then Ret None
  else
    a ← go_index (rb r) (pos r); b ← go_index (rb r) (pos r + 1);
    c ← go_index (rb r) (pos r + 2);
    Ret (Some (Z.lor (Z.lor (Z.shiftl a 16) (Z.shiftl b 8)) c, Reader (rb r) (pos r + 3))).

Definition bytes (n : Z) (r : reader) : go (option (list Z * reader)) :=
  if (n <? 0) || (zlen (rb r) <? pos r + n) then Ret None
  else s ← go_slice (rb r) (pos r) (pos r + n);
       Ret (Some (s, Reader (rb r) (pos r + n))).

(** ** Results

    A function with an [error] result that may panic; [let?] returns the error. *)
Definition need {A} (e : string) (m : go (option A)) : go (res A) :=
  o ← m; Ret (match o with Some a => Ok a | None => Err e end).

Definition gr_bind {A B} (m : go (res A)) (k : A → go (res B)) : go (res B) :=
  r ← m; match r with Ok a => k a | Err e => Ret (Err e) end.

Notation "'let?' x ':=' m 'in' k" := (gr_bind m (λ x, k))
  (at level 200, x pattern, k at level 200, right associativity) : kz_scope.
Open Scope kz_scope.

Definition fail {A} (e : string) : go (res A) := Ret (Err e).
Definition ok {A} (a : A) : go (res A) := Ret (Ok a).

(** ** The handshake *)
Definition handshakeBody (record : list Z) : go (res (reader * Z)) :=
  let r := Reader record 0 in
  let? (ct, r) := need ErrTruncated (u8 r) in
  if negb (ct =? recordTypeHandshake) then fail ErrNotHandshake else
  let? (_, r) := need ErrTruncated (u16 r) in
  let? (recLen, r) := need ErrTruncated (u16 r) in
  let end_ := pos r + recLen in
  let end_ := if zlen record <? end_ then zlen record else end_ in
  let? (msgType, r) := need ErrTruncated (u8 r) in
  let? (bodyLen, r) := need ErrTruncated (u24 r) in
  let bodyEnd := pos r + bodyLen in
  let bodyEnd := if end_ <? bodyEnd then end_ else bodyEnd in
  body ← go_slice record 0 bodyEnd;
  ok (Reader body (pos r), msgType).

(** A field of [n] bytes that the code skips. *)
Definition skip (n : Z) (r : reader) : go (res reader) :=
  let? (_, r) := need ErrTruncated (bytes n r) in ok r.

(** [u16ListNoGREASE], two bytes at a turn. *)
Fixpoint u16ListNoGREASE (b : list Z) : list Z :=
  match b with
  | hi :: lo :: b' =>
      let v := be_u16 hi lo in
      if isGREASE v then u16ListNoGREASE b' else v :: u16ListNoGREASE b'
  | _ => []
  end.

Definition joinUint16 (vs : list Z) : string := join "-" (map itoa vs).

Definition md5Hex (s : string) : string := hex_encode (md5_sum (bytes_of s)).

(** ** The extension block *)
Record ext_acc : Type := ExtAcc { exts : list Z; curves : list Z; pointFormats : list Z }.

(** The body of the loop on one extension that was read in full. *)
Definition collect_ext (collectCurves : bool) (etype : Z) (data : list Z) (a : ext_acc) : go ext_acc :=
  if isGREASE etype then Ret a else
  let a := ExtAcc (exts a ++ [etype]) (curves a) (pointFormats a) in
  if negb collectCurves then Ret a else
  if etype =? extSupportedGroups then
    if 2 <=? zlen data then
      d ← go_slice data 2 (zlen data);
      Ret (ExtAcc (exts a) (u16ListNoGREASE d) (pointFormats a))
    else Ret a
  else if etype =? extECPointFormats then
    if 1 <=? zlen data then
      n ← go_index data 0;
      let n := if zlen data - 1 <? n then zlen data - 1 else n in
      d ← go_slice data 1 (1 + n);
      Ret (ExtAcc (exts a) (curves a) (pointFormats a ++ d))
    else Ret a
  else Ret a.

Fixpoint ext_loop (fuel : nat) (collectCurves : bool) (extEnd : Z) (r : reader) (a : ext_acc) : go ext_acc :=
  match fuel with
  | O => Ret a
  | S fuel =>
      if pos r <? extEnd then
        o ← u16 r;
        match o with None => Ret a | Some (etype, r) =>
        o ← u16 r;
        match o with None => Ret a | Some (elen, r) =>
        o ← bytes elen r;
        match o with None => Ret a | Some (data, r) =>
        a ← collect_ext collectCurves etype data a;
        ext_loop fuel collectCurves extEnd r a
        end end end
      else Ret a
  end.

Definition loop_fuel (r : reader) : nat := S (length (rb r)).

Definition clamp_end (r : reader) (extTotal : Z) : Z :=
  let extEnd := pos r + extTotal in
  if zlen (rb r) <? extEnd then zlen (rb r) else extEnd.

Definition parseExtensions (r : reader) (collectCurves : bool) : go ext_acc :=
  o ← u16 r;
  match o with
  | None => Ret (ExtAcc [] [] [])
  | Some (extTotal, r) =>
      ext_loop (loop_fuel r) collectCurves (clamp_end r extTotal) r (ExtAcc [] [] [])
  end.

(** ** The entry points *)
Definition FromClientHello (record : list Z) : go (res (string * string)) :=
  let? (r, msgType) := handshakeBody record in
  if negb (msgType =? handshakeClientHello) then fail ErrWrongMessage else
  let? (version, r) := need ErrTruncated (u16 r) in
  let? r := skip 32 r in
  let? (sidLen, r) := need ErrTruncated (u8 r) in
  let? r := skip sidLen r in
  let? (csLen, r) := need ErrTruncated (u16 r) in
  let? (csRaw, r) := need ErrTruncated (bytes csLen r) in
  let ciphers := u16ListNoGREASE csRaw in
  let? (cmLen, r) := need ErrTruncated (u8 r) in
  let? r := skip cmLen r in
  e ← parseExtensions r true;
  let ja3 := join "," [itoa version; joinUint16 ciphers; joinUint16 (exts e);
                       joinUint16 (curves e); joinUint16 (pointFormats e)] in
  ok (ja3, md5Hex ja3).

Definition FromServerHello (record : list Z) : go (res (string * string)) :=
  let? (r, msgType) := handshakeBody record in
  if negb (msgType =? handshakeServerHello) then fail ErrWrongMessage else
  let? (version, r) := need ErrTruncated (u16 r) in
  let? r := skip 32 r in
  let? (sidLen, r) := need ErrTruncated (u8 r) in
  let? r := skip sidLen r in
  let? (cipher, r) := need ErrTruncated (u16 r) in
  let? (_, r) := need ErrTruncated (u8 r) in
  e ← parseExtensions r false;
  let ja3s := join "," [itoa version; itoa cipher; joinUint16 (exts e)] in
  ok (ja3s, md5Hex ja3s).

(** The server_name extension's data: list length, entry type, name length and
    the name; any other shape gives no name. *)
Definition sni_name (data : list Z) : go string :=
  if zlen data <? 5 then Ret "" else
  nameType ← go_index data 2;
  hi ← go_index data 3; lo ← go_index data 4;
  let nameLen := Z.lor (Z.shiftl hi 8) lo in
  if negb (nameType =? 0) || (zlen data <? 5 + nameLen) then Ret ""
  else d ← go_slice data 5 (5 + nameLen); Ret (string_of d).

Fixpoint sni_loop (fuel : nat) (extEnd : Z) (r : reader) : go string :=
  match fuel with
  | O => Ret ""
  | S fuel =>
      if pos r <? extEnd then
        o ← u16 r;
        match o with None => Ret "" | Some (etype, r) =>
        o ← u16 r;
        match o with None => Ret "" | Some (elen, r) =>
        o ← bytes elen r;
        match o with None => Ret "" | Some (data, r) =>
        if negb (etype =? 0) then sni_loop fuel extEnd r else sni_name data
        end end end
      else Ret ""
  end.

(** [ServerName]: every [return ""] of a failed read is an error here. *)
Definition server_name (record : list Z) : go (res string) :=
  let? (r, msgType) := handshakeBody record in
  if negb (msgType =? handshakeClientHello) then fail ErrWrongMessage else
  let? (_, r) := need ErrTruncated (u16 r) in
  let? r := skip 32 r in
  let? (sidLen, r) := need ErrTruncated (u8 r) in
  let? r := skip sidLen r in
  let? (csLen, r) := need ErrTruncated (u16 r) in
  let? r := skip csLen r in
  let? (cmLen, r) := need ErrTruncated (u8 r) in
  let? r := skip cmLen r in
  let? (extTotal, r) := need ErrTruncated (u16 r) in
  s ← sni_loop (loop_fuel r) (clamp_end r extTotal) r; ok s.

Definition ServerName (record : list Z) : go string :=
  r ← server_name record; Ret (match r with Ok s => s | Err _ => "" end).

(** ** Captured packets: netparse *)
Record TLSPacket : Type := {
  SrcIP : string; DstIP : string; SrcPort : Z; DstPort : Z; TLSRecord : list Z }.

(** [itoa] of netparse: the digits go into a 3-byte buffer from its end; writing
    before its start panics. *)
Fixpoint itoa3_loop (fuel : nat) (i n : Z) (buf : list Z) : go (list Z * Z) :=
  match fuel with
  | O => Ret (buf, i)
  | S fuel =>
      if 0 <? n then
        let i := i - 1 in
        if (i <? 0) || (zlen buf <=? i) then Panic else
        itoa3_loop fuel i (n / 10) (<[Z.to_nat i := 48 + n mod 10]> buf)
      else Ret (buf, i)
  end.

Definition itoa3 (n : Z) : go string :=
  if n =? 0 then Ret "0" else
  '(buf, i) ← itoa3_loop 4 3 n [0; 0; 0];
  d ← go_slice buf i 3; Ret (string_of d).

Definition ipv4String (b : list Z) : go string :=
  b0 ← go_index b 0; b1 ← go_index b 1; b2 ← go_index b 2; b3 ← go_index b 3;
  s0 ← itoa3 b0; s1 ← itoa3 b1; s2 ← itoa3 b2; s3 ← itoa3 b3;
  Ret (s0 +:+ "." +:+ s1 +:+ "." +:+ s2 +:+ "." +:+ s3).

Definition ipProtoTCP : Z := 6.
Definition tlsRecordHandshake : Z := 22.
Definition tlsHandshakeClientHi : Z := 1.

Definition ClientHelloFromIPv4TCP (pkt : list Z) : go (option TLSPacket) :=
  if zlen pkt <? 20 then Ret None else
  b0 ← go_index pkt 0;
  if negb (Z.shiftr b0 4 =? 4) then Ret None else
  let ihl := Z.land b0 15 * 4 in
  if (ihl <? 20) || (zlen pkt <? ihl + 20) then Ret None else
  b9 ← go_index pkt 9;
  if negb (b9 =? ipProtoTCP) then Ret None else
  b6 ← go_index pkt 6; b7 ← go_index pkt 7;
  let fragBits := Z.land (Z.lor (Z.shiftl b6 8) b7) 16383 in
  if negb (fragBits =? 0) then Ret None else
  src ← go_slice pkt 12 16; srcIP ← ipv4String src;
  dst ← go_slice pkt 16 20; dstIP ← ipv4String dst;
  tcp ← go_slice pkt ihl (zlen pkt);
  t0 ← go_index tcp 0; t1 ← go_index tcp 1;
  t2 ← go_index tcp 2; t3 ← go_index tcp 3;
  t12 ← go_index tcp 12;
  let srcPort := Z.lor (Z.shiftl t0 8) t1 in
  let dstPort := Z.lor (Z.shiftl t2 8) t3 in
  let dataOff := Z.shiftr t12 4 * 4 in
  if (dataOff <? 20) || (zlen tcp <? dataOff) then Ret None else
  payload ← go_slice tcp dataOff (zlen tcp);
  if zlen payload <? 6 then Ret None else
  p0 ← go_index payload 0; p1 ← go_index payload 1; p5 ← go_index payload 5;
  if negb (p0 =? tlsRecordHandshake) || negb (p1 =? 3) || negb (p5 =? tlsHandshakeClientHi)
  then Ret None
  else Ret (Some {| SrcIP := srcIP; DstIP := dstIP; SrcPort := srcPort;
                    DstPort := dstPort; TLSRecord := payload |}).

(** [payload[0] != ... || ...] is evaluated left to right; the three bytes exist
    when the first is read, so reading all three first changes nothing. *)
Example itoa3_examples :
  itoa3 0 = Ret "0" /\ itoa3 7 = Ret "7" /\ itoa3 255 = Ret "255" /\ itoa3 1000 = Panic.
Proof. by vm_compute. Qed.
