(* ===== verification/Ja3Proofs.v ===== *)
(** * TLS fingerprints: theorems

    A small Hoare logic for computations that may panic ([safe]), the safety of
    the handshake and packet parsers on every input, and the fingerprint of every
    well-formed ClientHello: the wire format is written as an encoder, and the
    parsers are its inverse. *)

From Stdlib Require Import Ascii.
From S2P Require Import Prelude GoStrings Digest Ja3.

#[local] Open Scope string_scope.
#[local] Open Scope list_scope.
#[local] Open Scope Z_scope.
#[local] Open Scope kz_scope.

(** ** Safety *)

(** [m] does not panic and what it returns satisfies [Q]. *)
Definition safe {A} (m : go A) (Q : A → Prop) : Prop :=
  match m with Ret a => Q a | Panic => False end.

Definition on_some {A} (Q : A → Prop) (o : option A) : Prop :=
  match o with Some a => Q a | None => True end.
Definition on_ok {A} (Q : A → Prop) (r : res A) : Prop :=
  match r with Ok a => Q a | Err _ => True end.

Lemma safe_bind {A B} (m : go A) (k : A → go B) Q R :
  safe m Q → (∀ a, Q a → safe (k a) R) → safe (m ≫= k) R.
Proof. destruct m; simpl; [eauto|done]. Qed.

Lemma safe_mono {A} (m : go A) (Q R : A → Prop) :
  safe m Q → (∀ a, Q a → R a) → safe m R.
Proof. destruct m; simpl; eauto. Qed.

Lemma safe_returns {A} (m : go A) Q : safe m Q → returns m.
Proof. destruct m; [intros _; by eexists|done]. Qed.

Lemma safe_gr_bind {A B} (m : go (res A)) (k : A → go (res B)) Q R :
  safe m (on_ok Q) → (∀ a, Q a → safe (k a) (on_ok R)) → safe (gr_bind m k) (on_ok R).
Proof. destruct m as [[a|e]|]; simpl; eauto. Qed.

Lemma safe_need {A} e (m : go (option A)) Q :
  safe m (on_some Q) → safe (need e m) (on_ok Q).
Proof. destruct m as [[a|]|]; simpl; eauto. Qed.

Lemma safe_index {A} (b : list A) i : 0 <= i < zlen b → safe (go_index b i) (λ x, x ∈ b).
Proof.
  unfold go_index, zlen. intros Hi. case_cmp; [lia|].
  destruct (b !! Z.to_nat i) eqn:E; simpl; [by eapply list_elem_of_lookup_2|].
  apply lookup_ge_None in E. lia.
Qed.

Lemma safe_slice {A} (b : list A) i j :
  0 <= i → i <= j → j <= zlen b →
  safe (go_slice b i j) (λ s, zlen s = j - i ∧ ∀ x, x ∈ s → x ∈ b).
Proof.
  intros. pose proof (go_slice_returns b i j) as E.
  destruct (go_slice b i j) eqn:G; simpl.
  - split; [by eapply go_slice_length|]. intros x Hx.
    injection (E ltac:(done) ltac:(done) ltac:(done)) as ->.
    apply elem_of_take in Hx as (k & Hk & _). rewrite lookup_drop in Hk.
    by eapply list_elem_of_lookup_2.
  - specialize (E ltac:(done) ltac:(done) ltac:(done)). done.
Qed.

(** A cursor that reads can move: its buffer is unchanged and it is not before
    the start. *)
Definition advanced (r : reader) (n : Z) {A} (p : A * reader) : Prop :=
  rb p.2 = rb r ∧ pos p.2 = pos r + n ∧ pos p.2 <= zlen (rb r).

Ltac adv := unfold advanced; simpl; split_and!; (done || lia).

Lemma u8_safe r : 0 <= pos r →
  safe (u8 r) (on_some (λ p, advanced r 1 p ∧ p.1 ∈ rb r)).
Proof.
  intros. unfold u8. case_cmp; [done|].
  eapply safe_bind; [apply safe_index; lia|]. intros v Hv. simpl.
  split; [adv|done].
Qed.

Lemma u16_safe r : 0 <= pos r →
  safe (u16 r) (on_some (λ p, advanced r 2 p ∧ (Forall is_byte (rb r) → 0 <= p.1))).
Proof.
  intros. unfold u16. case_cmp; [done|].
  eapply safe_bind; [apply safe_slice; lia|]. intros s [Hs Hin].
  eapply safe_bind; [apply safe_index; lia|]. intros lo Hlo%Hin.
  eapply safe_bind; [apply safe_index; lia|]. intros hi Hhi%Hin.
  split; [adv|]. rewrite Forall_forall. intros HF.
  pose proof (HF _ Hlo); pose proof (HF _ Hhi). unfold is_byte, be_u16 in *.
  simpl. rewrite Z.lor_nonneg, Z.shiftl_nonneg. lia.
Qed.

Lemma u24_safe r : 0 <= pos r →
  safe (u24 r) (on_some (λ p, advanced r 3 p ∧ (Forall is_byte (rb r) → 0 <= p.1))).
Proof.
  intros. unfold u24. case_cmp; [done|].
  eapply safe_bind; [apply safe_index; lia|]. intros a Ha.
  eapply safe_bind; [apply safe_index; lia|]. intros b Hb.
  eapply safe_bind; [apply safe_index; lia|]. intros c Hc.
  split; [adv|]. rewrite Forall_forall. intros HF.
  pose proof (HF _ Ha); pose proof (HF _ Hb); pose proof (HF _ Hc). unfold is_byte in *.
  simpl. rewrite !Z.lor_nonneg, !Z.shiftl_nonneg. lia.
Qed.

Lemma bytes_safe n r : 0 <= pos r →
  safe (bytes n r) (on_some (λ p, 0 <= n ∧ advanced r n p ∧ ∀ x, x ∈ p.1 → x ∈ rb r)).
Proof.
  intros. unfold bytes. destruct (_ || _) eqn:E; [done|].
  apply orb_false_iff in E as [En Ep]. apply Z.ltb_ge in En, Ep.
  eapply safe_bind; [apply safe_slice; lia|]. intros s [Hs Hin].
  split; [lia|]. split; [adv|done].
Qed.

(** A cursor over bytes that is not before the start. *)
Definition cursor_ok (r : reader) : Prop := Forall is_byte (rb r) ∧ 0 <= pos r.

(** The cursor after a read is one that can read on. *)
Ltac step_read lem :=
  eapply safe_gr_bind; [apply safe_need, lem; simpl; lia|];
  let v := fresh "v" in let r := fresh "r" in let Hv := fresh "Hv" in
  intros [v r] Hv; simpl in Hv; unfold advanced in Hv; simpl in Hv.

Lemma skip_safe n r : 0 <= pos r →
  safe (skip n r) (on_ok (λ r', rb r' = rb r ∧ 0 <= pos r')).
Proof.
  intros. unfold skip. step_read bytes_safe. simpl. split; [tauto|lia].
Qed.

Ltac step_skip :=
  eapply safe_gr_bind; [apply skip_safe; simpl; lia|];
  let r := fresh "r" in let Hr := fresh "Hr" in intros r Hr; simpl in Hr.

Lemma handshakeBody_safe record : Forall is_byte record →
  safe (handshakeBody record) (on_ok (λ p, cursor_ok p.1)).
Proof.
  intros HF. unfold handshakeBody.
  step_read u8_safe. destruct (negb _); [done|].
  do 2 step_read u16_safe. step_read u8_safe. step_read u24_safe.
  destruct_and!.
  assert (rb r0 = record ∧ rb r2 = record) as [E0 E2] by (split; congruence).
  rewrite E0, E2 in *.
  assert (0 <= v1 ∧ 0 <= v3) as [??] by auto.
  pose proof (zlen_nonneg record).
  eapply safe_bind; [apply safe_slice; case_cmp; lia|]. intros body [_ Hin].
  split; simpl; [|lia]. rewrite Forall_forall in *. auto.
Qed.

Lemma collect_ext_safe cc t d a :
  (∀ x, x ∈ d → is_byte x) → safe (collect_ext cc t d a) (λ _, True).
Proof.
  intros Hd. unfold collect_ext.
  destruct (isGREASE t); [done|]. destruct (negb cc); [done|].
  destruct (t =? extSupportedGroups).
  - case_cmp; [|done]. eapply safe_bind; [apply safe_slice; lia|done].
  - destruct (t =? extECPointFormats); [|done].
    destruct (Z.leb_spec 1 (zlen d)); [|done].
    eapply safe_bind; [apply safe_index; lia|]. intros n [Hn _]%Hd.
    eapply safe_bind; [apply safe_slice; case_cmp; lia|done].
Qed.

(** What a read leaves is a cursor that can read on. *)
Lemma u8_ok r : cursor_ok r → safe (u8 r) (on_some (λ p, cursor_ok p.2)).
Proof.
  intros [HF Hp]. eapply safe_mono; [by apply u8_safe|].
  intros [[v r']|] HQ; [|done]. destruct HQ as [(E & ? & ?) _]. simpl in *.
  split; [by rewrite E|lia].
Qed.

Lemma u16_ok r : cursor_ok r → safe (u16 r) (on_some (λ p, cursor_ok p.2)).
Proof.
  intros [HF Hp]. eapply safe_mono; [by apply u16_safe|].
  intros [[v r']|] HQ; [|done]. destruct HQ as [(E & ? & ?) _]. simpl in *.
  split; [by rewrite E|lia].
Qed.

Lemma bytes_ok n r : cursor_ok r →
  safe (bytes n r) (on_some (λ p, cursor_ok p.2 ∧ ∀ x, x ∈ p.1 → is_byte x)).
Proof.
  intros [HF Hp]. eapply safe_mono; [by apply bytes_safe|].
  intros [[v r']|] HQ; [|done]. destruct HQ as (? & (E & ? & ?) & Hin). simpl in *.
  split; [split; [by rewrite E|lia]|]. rewrite Forall_forall in HF. auto.
Qed.

Lemma skip_ok n r : cursor_ok r → safe (skip n r) (on_ok cursor_ok).
Proof.
  intros. unfold skip. eapply safe_gr_bind; [by apply safe_need, bytes_ok|].
  intros [v r'] [? _]. done.
Qed.

Lemma need_u8_ok r : cursor_ok r → safe (need ErrTruncated (u8 r)) (on_ok (λ p, cursor_ok p.2)).
Proof. intros. by apply safe_need, u8_ok. Qed.

Lemma need_u16_ok r : cursor_ok r → safe (need ErrTruncated (u16 r)) (on_ok (λ p, cursor_ok p.2)).
Proof. intros. by apply safe_need, u16_ok. Qed.

Lemma need_bytes_ok n r : cursor_ok r →
  safe (need ErrTruncated (bytes n r)) (on_ok (λ p, cursor_ok p.2)).
Proof.
  intros. eapply safe_mono; [by apply safe_need, bytes_ok|].
  intros [[v r']|] HQ; [|done]. simpl in *. tauto.
Qed.

#[local] Hint Resolve need_u8_ok need_u16_ok need_bytes_ok skip_ok handshakeBody_safe
  u8_ok u16_ok bytes_ok collect_ext_safe : kz.

(** One step of a parser whose cursor is fine. *)
Ltac parse_step :=
  match goal with
  | |- safe (gr_bind _ _) _ =>
      eapply safe_gr_bind; [by eauto with kz|]; simpl; intros
  | |- safe (_ ≫= _) _ => eapply safe_bind; [by eauto with kz|]; simpl; intros
  | p : (_ * _)%type |- _ => destruct p; simpl in *
  | o : option _ |- safe match ?o with Some _ => _ | None => _ end _ =>
      destruct o; simpl in *; [|done]
  | H : _ ∧ _ |- _ => destruct H
  | |- safe (if ?b then _ else _) _ => destruct b; try done
  end.

Lemma ext_loop_safe fuel cc e r a : cursor_ok r → safe (ext_loop fuel cc e r a) (λ _, True).
Proof.
  revert r a. induction fuel as [|fuel IH]; intros r a Hr; cbn [ext_loop]; [done|].
  repeat parse_step. by apply IH.
Qed.

Lemma parseExtensions_safe r cc : cursor_ok r → safe (parseExtensions r cc) (λ _, True).
Proof. intros. unfold parseExtensions. repeat parse_step. by apply ext_loop_safe. Qed.

Lemma sni_name_safe d : (∀ x, x ∈ d → is_byte x) → safe (sni_name d) (λ _, True).
Proof.
  intros Hd. unfold sni_name. case_cmp; [done|].
  eapply safe_bind; [apply safe_index; lia|]. intros t _.
  eapply safe_bind; [apply safe_index; lia|]. intros hi [Hhi _]%Hd.
  eapply safe_bind; [apply safe_index; lia|]. intros lo [Hlo _]%Hd.
  destruct (negb _); [done|]. simpl. case_cmp; [done|].
  assert (0 <= Z.lor (Z.shiftl hi 8) lo) by (rewrite Z.lor_nonneg, Z.shiftl_nonneg; lia).
  eapply safe_bind; [apply safe_slice; lia|done].
Qed.

Lemma sni_loop_safe fuel e r : cursor_ok r → safe (sni_loop fuel e r) (λ _, True).
Proof.
  revert r. induction fuel as [|fuel IH]; intros r Hr; cbn [sni_loop]; [done|].
  repeat parse_step; [by apply IH|by apply sni_name_safe].
Qed.

Section entry_points.
#[local] Arguments sni_loop : simpl never.
#[local] Arguments ext_loop : simpl never.
#[local] Hint Resolve parseExtensions_safe sni_loop_safe : kz.

Lemma FromClientHello_safe record : Forall is_byte record →
  safe (FromClientHello record) (on_ok (λ _, True)).
Proof. intros. unfold FromClientHello. 
  by repeat parse_step.
Qed.

Lemma FromServerHello_safe record : Forall is_byte record →
  safe (FromServerHello record) (on_ok (λ _, True)).
Proof. intros. unfold FromServerHello. by repeat parse_step. Qed.

Lemma server_name_safe record : Forall is_byte record →
  safe (server_name record) (on_ok (λ _, True)).
Proof. intros. unfold server_name. by repeat parse_step. Qed.

Lemma ServerName_safe record : Forall is_byte record → safe (ServerName record) (λ _, True).
Proof.
  intros Hb. unfold ServerName.
  eapply safe_bind; [exact (server_name_safe record Hb)|intros; exact I].
Qed.

End entry_points.

(** *** Packets *)
Lemma itoa3_safe n : is_byte n → safe (itoa3 n) (λ _, True).
Proof.
  intros Hn. unfold itoa3. case_cmp; [done|]. unfold is_byte in Hn.
  assert (n / 10 / 10 / 10 = 0) as H3.
  { rewrite !Z.div_div by lia. apply Z.div_small. lia. }
  cbn [itoa3_loop]. rewrite H3. clear H3.
  repeat (cbn; case_match; try done).
Qed.

Lemma ipv4String_safe b : zlen b = 4 → Forall is_byte b → safe (ipv4String b) (λ _, True).
Proof.
  intros Hb HF. rewrite Forall_forall in HF. unfold ipv4String.
  do 4 (eapply safe_bind; [apply safe_index; lia|]; intros ? ?%HF).
  do 4 (eapply safe_bind; [by apply itoa3_safe|]; intros ? _). done.
Qed.

Lemma ClientHelloFromIPv4TCP_safe pkt : Forall is_byte pkt →
  safe (ClientHelloFromIPv4TCP pkt) (on_some (λ p, Forall is_byte (TLSRecord p))).
Proof.
  intros HF. unfold ClientHelloFromIPv4TCP. rewrite Forall_forall in HF.
  case_cmp; [done|].
  eapply safe_bind; [apply safe_index; lia|]. intros b0 [Hb0 _]%HF.
  destruct (negb _); [done|].
  destruct (_ || _) eqn:E; [done|]. apply orb_false_iff in E as [E1 E2].
  apply Z.ltb_ge in E1, E2.
  eapply safe_bind; [apply safe_index; lia|]. intros b9 _.
  destruct (negb _); [done|].
  do 2 (eapply safe_bind; [apply safe_index; lia|]; intros ? _).
  cbv zeta. destruct (negb _); [done|].
  do 2 (eapply safe_bind; [apply safe_slice; lia|]; intros ? [? ?];
        eapply safe_bind; [apply ipv4String_safe; [lia|apply Forall_forall; auto]|]; intros ? _).
  eapply safe_bind; [apply safe_slice; lia|]. intros tcp [Htcp HinT].
  do 4 (eapply safe_bind; [apply safe_index; lia|]; intros ? _).
  eapply safe_bind; [apply safe_index; lia|]. intros t12 _.
  destruct (_ || _) eqn:E; [done|]. apply orb_false_iff in E as [E3 E4].
  apply Z.ltb_ge in E3, E4.
  eapply safe_bind; [apply safe_slice; lia|]. intros payload [Hpl HinP].
  case_cmp; [done|].
  do 3 (eapply safe_bind; [apply safe_index; lia|]; intros ? _).
  destruct (_ || _); [done|]. simpl. apply Forall_forall. auto.
Qed.

(** C6: no input makes the TLS fingerprint code panic: on every byte sequence the
    two JA3 functions, the SNI lookup and the packet parser return, and so does
    fingerprinting the record a packet carries.  Truncated, malformed and hostile
    captures give an error or an empty result. *)
Theorem tls_parsers_never_panic (b : list Z) : Forall is_byte b →
  returns (FromClientHello b) ∧ returns (FromServerHello b) ∧ returns (ServerName b) ∧
  returns (o ← ClientHelloFromIPv4TCP b;
           match o with
           | Some p => r ← FromClientHello (TLSRecord p); n ← ServerName (TLSRecord p);
                       Ret (Some (r, n))
           | None => Ret None
           end).
Proof.
  intros HF. split_and!.
  - eapply safe_returns, FromClientHello_safe, HF.
  - eapply safe_returns, FromServerHello_safe, HF.
  - eapply safe_returns, ServerName_safe, HF.
  - eapply (safe_returns _ (λ _, True)), safe_bind; [by apply ClientHelloFromIPv4TCP_safe|].
    intros [p|] Hp; [|done].
    eapply safe_bind; [by apply FromClientHello_safe|]. intros r _.
    eapply safe_bind; [by apply ServerName_safe|done].
Qed.

Lemma tls_parsers_never_panic_witness :
  Forall is_byte [22; 3; 1; 255; 255; 1; 255; 255; 255; 3] ∧
  returns (FromClientHello [22; 3; 1; 255; 255; 1; 255; 255; 255; 3]).
Proof.
  assert (Forall is_byte [22; 3; 1; 255; 255; 1; 255; 255; 255; 3]) as HF.
  { repeat constructor; lia. }
  split; [exact HF|]. exact (proj1 (tls_parsers_never_panic _ HF)).
Defined.

(** ** The wire format *)
Definition be16b (v : Z) : list Z := [v / 256; v mod 256].
Definition be24b (v : Z) : list Z := [v / 65536; v / 256 mod 256; v mod 256].

Definition groups_data (gs : list Z) : list Z := be16b (2 * zlen gs) ++ (gs ≫= be16b).

(** The extensions JA3 looks into, and any other. *)
Inductive extension : Type :=
| ExtGroups (gs : list Z)
| ExtFormats (fs : list Z)
| ExtOther (t : Z) (d : list Z).

Definition ext_type (e : extension) : Z :=
  match e with ExtGroups _ => 10 | ExtFormats _ => 11 | ExtOther t _ => t end.
Definition ext_data (e : extension) : list Z :=
  match e with
  | ExtGroups gs => groups_data gs
  | ExtFormats fs => zlen fs :: fs
  | ExtOther _ d => d
  end.
Definition ext_bytes (e : extension) : list Z :=
  be16b (ext_type e) ++ be16b (zlen (ext_data e)) ++ ext_data e.

Record hello : Type := {
  h_version : Z; h_random : list Z; h_session : list Z; h_ciphers : list Z;
  h_compression : list Z; h_exts : list extension }.

Definition hello_body (h : hello) : list Z :=
  be16b (h_version h) ++ h_random h ++ [zlen (h_session h)] ++ h_session h ++
  be16b (2 * zlen (h_ciphers h)) ++ (h_ciphers h ≫= be16b) ++
  [zlen (h_compression h)] ++ h_compression h ++
  be16b (zlen (h_exts h ≫= ext_bytes)) ++ (h_exts h ≫= ext_bytes).

Definition hello_record (h : hello) : list Z :=
  let hs := [1] ++ be24b (zlen (hello_body h)) ++ hello_body h in
  [22; 3; 1] ++ be16b (zlen hs) ++ hs.

Definition u16_range (v : Z) : Prop := 0 <= v < 65536.

Definition wf_ext (e : extension) : Prop :=
  u16_range (zlen (ext_data e)) ∧
  match e with
  | ExtGroups gs => Forall u16_range gs
  | ExtFormats fs => zlen fs < 256
  | ExtOther t _ => u16_range t ∧ t ≠ 10 ∧ t ≠ 11
  end.

Definition wf_hello (h : hello) : Prop :=
  u16_range (h_version h) ∧ zlen (h_random h) = 32 ∧
  zlen (h_session h) < 256 ∧ zlen (h_compression h) < 256 ∧
  Forall u16_range (h_ciphers h) ∧ 2 * zlen (h_ciphers h) < 65536 ∧
  Forall wf_ext (h_exts h) ∧ zlen (h_exts h ≫= ext_bytes) < 65536 ∧
  zlen (hello_body h) + 4 < 65536.

(** ** The fingerprint a hello should have *)
Definition not_grease (vs : list Z) : list Z := filter (λ v, isGREASE v = false) vs.

Definition last_groups (es : list extension) : list Z :=
  foldl (λ acc e, match e with ExtGroups gs => gs | _ => acc end) [] es.
Definition all_formats (es : list extension) : list Z :=
  es ≫= λ e, match e with ExtFormats fs => fs | _ => [] end.

Definition ja3_of (h : hello) : string :=
  join "," [itoa (h_version h); joinUint16 (not_grease (h_ciphers h));
            joinUint16 (not_grease (map ext_type (h_exts h)));
            joinUint16 (not_grease (last_groups (h_exts h)));
            joinUint16 (all_formats (h_exts h))].

(** ** Reading what was written *)
Lemma lor_shift a b k : 0 <= k → 0 <= b < 2 ^ k → Z.lor (Z.shiftl a k) b = a * 2 ^ k + b.
Proof.
  intros Hk Hb. rewrite <- Z.shiftl_mul_pow2 by done. symmetry. apply Z.add_nocarry_lor.
  apply Z.bits_inj'. intros n Hn. rewrite Z.land_spec, Z.bits_0.
  destruct (Z.lt_ge_cases n k).
  - by rewrite Z.shiftl_spec_low by lia.
  - destruct (Z.eq_dec b 0) as [->|]; [by rewrite Z.bits_0, andb_false_r|].
    rewrite (Z.bits_above_log2 b n), andb_false_r; [done|lia|].
    apply Z.lt_le_trans with k; [apply Z.log2_lt_pow2; lia|done].
Qed.

Lemma be_u16_be16b v : u16_range v → be_u16 (v / 256) (v mod 256) = v.
Proof.
  unfold u16_range, be_u16. intros. pose proof (Z.mod_pos_bound v 256).
  rewrite lor_shift by (simpl; lia). pose proof (Z.div_mod v 256). lia.
Qed.

(** The cursor between what it has read and what is left. *)
Definition between (pre post : list Z) : reader := Reader (pre ++ post) (zlen pre).

Lemma zlen_cons {A} (x : A) l : zlen (x :: l) = 1 + zlen l.
Proof. unfold zlen. simpl. lia. Qed.
Lemma zlen_nil {A} : zlen (@nil A) = 0.
Proof. done. Qed.

Lemma go_index_at {A} (pre post : list A) x i :
  i = zlen pre → go_index (pre ++ x :: post) i = Ret x.
Proof.
  unfold go_index, zlen. intros ->. case_cmp; [lia|].
  by rewrite Nat2Z.id, list_lookup_middle.
Qed.

Lemma go_slice_at {A} (pre d post : list A) i j :
  i = zlen pre → j = zlen pre + zlen d → go_slice (pre ++ d ++ post) i j = Ret d.
Proof.
  intros -> ->. pose proof (zlen_nonneg pre). pose proof (zlen_nonneg d).
  pose proof (zlen_nonneg post).
  rewrite go_slice_returns by (rewrite ?zlen_app; lia).
  unfold zlen. rewrite Nat2Z.id, drop_app_length.
  replace (Z.to_nat _) with (length d) by lia. by rewrite take_app_length.
Qed.

Lemma u8_between pre x post :
  u8 (between pre (x :: post)) = Ret (Some (x, between (pre ++ [x]) post)).
Proof.
  unfold u8, between. cbn [rb pos]. pose proof (zlen_nonneg post).
  rewrite zlen_app, zlen_cons. case_cmp; [lia|].
  rewrite go_index_at by done. simpl. by rewrite zlen_app, <- app_assoc.
Qed.

Lemma u16_between pre v post : u16_range v →
  u16 (between pre (be16b v ++ post)) = Ret (Some (v, between (pre ++ be16b v) post)).
Proof.
  intros Hv. unfold u16, between. cbn [rb pos]. pose proof (zlen_nonneg post).
  rewrite !zlen_app. change (zlen (be16b v)) with 2. case_cmp; [lia|].
  rewrite <- (app_nil_r (be16b v ++ post)) at 1.
  rewrite (go_slice_at pre) by (rewrite ?zlen_app; change (zlen (be16b v)) with 2; lia).
  cbn [mbind go_bind].
  change (go_index (be16b v ++ post) 1) with (Ret (v mod 256)).
  change (go_index (be16b v ++ post) 0) with (Ret (v / 256)).
  cbn [mbind go_bind]. rewrite be_u16_be16b by done.
  by rewrite app_assoc.
Qed.

Lemma bytes_between pre d post n : n = zlen d →
  bytes n (between pre (d ++ post)) = Ret (Some (d, between (pre ++ d) post)).
Proof.
  intros ->. unfold bytes, between. cbn [rb pos].
  pose proof (zlen_nonneg post); pose proof (zlen_nonneg d).
  rewrite !zlen_app. destruct (_ || _) eqn:E.
  { apply orb_true_iff in E as [E|E]; apply Z.ltb_lt in E; lia. }
  rewrite go_slice_at by done. simpl. by rewrite app_assoc.
Qed.

Lemma skip_between pre d post n : n = zlen d →
  skip n (between pre (d ++ post)) = Ret (Ok (between (pre ++ d) post)).
Proof. intros. unfold skip. by rewrite bytes_between. Qed.

Lemma u24_between pre v post : 0 <= v < 16777216 →
  u24 (between pre (be24b v ++ post)) = Ret (Some (v, between (pre ++ be24b v) post)).
Proof.
  intros Hv. unfold u24, between. cbn [rb pos]. pose proof (zlen_nonneg post).
  rewrite !zlen_app. change (zlen (be24b v)) with 3. case_cmp; [lia|].
  set (a := v / 65536). set (b := v / 256 mod 256). set (c := v mod 256).
  change (be24b v) with [a; b; c].
  assert (go_index (pre ++ [a; b; c] ++ post) (zlen pre) = Ret a) as -> by by apply go_index_at.
  assert (go_index (pre ++ [a; b; c] ++ post) (zlen pre + 1) = Ret b) as ->.
  { change (go_index (pre ++ [a] ++ b :: c :: post) (zlen pre + 1) = Ret b).
    rewrite app_assoc. apply go_index_at. by rewrite zlen_app. }
  assert (go_index (pre ++ [a; b; c] ++ post) (zlen pre + 2) = Ret c) as ->.
  { change (go_index (pre ++ [a; b] ++ c :: post) (zlen pre + 2) = Ret c).
    rewrite app_assoc. apply go_index_at. by rewrite zlen_app. }
  cbn [mbind go_bind]. rewrite app_assoc. do 3 f_equal.
  assert (0 <= c < 256 ∧ 0 <= b < 256) as [??] by (split; apply Z.mod_pos_bound; lia).
  rewrite <- Z.lor_assoc, (lor_shift b c 8), (lor_shift a) by lia.
  change (2 ^ 16) with (256 * 256). change (2 ^ 8) with 256.
  pose proof (Z.div_mod v 256). pose proof (Z.div_mod (v / 256) 256) as Hq.
  rewrite (Z.div_div v 256 256) in Hq by lia. subst a b c. change 65536 with (256 * 256). lia.
Qed.

(** ** The round trip of a ClientHello *)
Lemma u16List_be16 vs : Forall u16_range vs →
  u16ListNoGREASE (vs ≫= be16b) = not_grease vs.
Proof.
  unfold not_grease. induction 1 as [|v vs Hv _ IH]; [done|].
  rewrite bind_cons. cbn -[isGREASE be_u16 Z.div Z.modulo].
  rewrite be_u16_be16b by done. change (mbind be16b vs) with (vs ≫= be16b).
  rewrite IH. destruct (isGREASE v); by case_decide.
Qed.

Lemma zlen_be16 vs : zlen (vs ≫= be16b) = 2 * zlen vs.
Proof.
  induction vs as [|v vs IH]; [done|].
  rewrite bind_cons, zlen_app, IH, zlen_cons. change (zlen (be16b v)) with 2. lia.
Qed.

(** What one extension adds to the fields of the fingerprint. *)
Definition add_ext (cc : bool) (a : ext_acc) (e : extension) : ext_acc :=
  if isGREASE (ext_type e) then a else
  let ts := exts a ++ [ext_type e] in
  if negb cc then ExtAcc ts (curves a) (pointFormats a) else
  match e with
  | ExtGroups gs => ExtAcc ts (not_grease gs) (pointFormats a)
  | ExtFormats fs => ExtAcc ts (curves a) (pointFormats a ++ fs)
  | ExtOther _ _ => ExtAcc ts (curves a) (pointFormats a)
  end.

Lemma collect_add cc e a : wf_ext e →
  collect_ext cc (ext_type e) (ext_data e) a = Ret (add_ext cc a e).
Proof.
  intros [Hlen He]. unfold collect_ext, add_ext.
  destruct (isGREASE (ext_type e)); [done|]. destruct cc; [|done].
  destruct e as [gs|fs|t d]; cbn [negb ext_type ext_data exts curves pointFormats].
  - change (10 =? extSupportedGroups) with true. cbn match.
    unfold groups_data. set (w := gs ≫= be16b). rewrite zlen_app.
    change (zlen (be16b _)) with 2. pose proof (zlen_nonneg w).
    destruct (Z.leb_spec 2 (2 + zlen w)); [|lia].
    replace (be16b (2 * zlen gs) ++ w) with (be16b (2 * zlen gs) ++ w ++ [])
      by by rewrite app_nil_r.
    rewrite go_slice_at by done.
    cbn [mbind go_bind]. subst w. by rewrite u16List_be16.
  - change (11 =? extSupportedGroups) with false. change (11 =? extECPointFormats) with true.
    cbn match. pose proof (zlen_nonneg fs). rewrite zlen_cons. case_cmp; [|lia].
    change (go_index (zlen fs :: fs) 0) with (Ret (zlen fs)). cbn [mbind go_bind].
    destruct (Z.ltb_spec (1 + zlen fs - 1) (zlen fs)); [lia|].
    change (zlen fs :: fs) with ([zlen fs] ++ fs). rewrite <- (app_nil_r fs) at 2.
    by rewrite (go_slice_at [zlen fs] fs []).
  - destruct He as (_ & H10 & H11). unfold extSupportedGroups, extECPointFormats.
    by rewrite (proj2 (Z.eqb_neq _ _) H10), (proj2 (Z.eqb_neq _ _) H11).
Qed.

Lemma zlen_ext_bytes e : zlen (ext_bytes e) = 4 + zlen (ext_data e).
Proof. unfold ext_bytes. rewrite !zlen_app. change (zlen (be16b _)) with 2. lia. Qed.

Lemma ext_bytes_app e l :
  ext_bytes e ++ l = be16b (ext_type e) ++ be16b (zlen (ext_data e)) ++ ext_data e ++ l.
Proof. unfold ext_bytes. by rewrite <- !app_assoc. Qed.

Lemma wf_ext_type e : wf_ext e → u16_range (ext_type e).
Proof. intros [_ He]. destruct e; simpl; [..|by apply He]; unfold u16_range; lia. Qed.

Lemma ext_loop_reads cc es : ∀ fuel pre a, Forall wf_ext es → (length es < fuel)%nat →
  ext_loop fuel cc (zlen pre + zlen (es ≫= ext_bytes)) (between pre (es ≫= ext_bytes)) a =
  Ret (foldl (add_ext cc) a es).
Proof.
  induction es as [|e es IH]; intros fuel pre a Hes Hf; (destruct fuel as [|fuel]; [simpl in Hf; lia|]).
  - change ([] ≫= ext_bytes) with (@nil Z). cbn [ext_loop pos between].
    by rewrite zlen_nil, Z.add_0_r, Z.ltb_irrefl.
  - apply Forall_cons in Hes as [He Hes].
    cbn [ext_loop]. rewrite bind_cons, zlen_app, zlen_ext_bytes.
    pose proof (zlen_nonneg (ext_data e)). pose proof (zlen_nonneg (es ≫= ext_bytes)).
    cbn [pos between]. case_cmp; [|lia].
    rewrite ext_bytes_app, u16_between by (by apply wf_ext_type).
    cbn [mbind go_bind]. rewrite u16_between by apply He.
    cbn [mbind go_bind]. rewrite bytes_between by done.
    cbn [mbind go_bind]. rewrite collect_add by done. cbn [mbind go_bind foldl].
    rewrite <- IH with (fuel := fuel) (pre := ((pre ++ be16b (ext_type e)) ++
      be16b (zlen (ext_data e))) ++ ext_data e); [|done|simpl in Hf; lia].
    f_equal. rewrite !zlen_app. change (zlen (be16b _)) with 2. lia.
Qed.

Lemma exts_bytes_length es : (length es <= length (es ≫= ext_bytes))%nat.
Proof.
  induction es as [|e es IH]; [done|]. rewrite bind_cons, length_app.
  assert (1 <= length (ext_bytes e))%nat; [|simpl in *; lia].
  pose proof (zlen_ext_bytes e). unfold zlen in *. lia.
Qed.

(** The extension block is read to its end: the fuel is enough. *)
Lemma parseExtensions_reads cc es pre : Forall wf_ext es → zlen (es ≫= ext_bytes) < 65536 →
  parseExtensions (between pre (be16b (zlen (es ≫= ext_bytes)) ++ (es ≫= ext_bytes))) cc =
  Ret (foldl (add_ext cc) (ExtAcc [] [] []) es).
Proof.
  intros Hes Hlen. pose proof (zlen_nonneg (es ≫= ext_bytes)).
  unfold parseExtensions. rewrite u16_between by (split; lia). cbn [mbind go_bind].
  unfold clamp_end. cbn [pos rb between]. rewrite (zlen_app (pre ++ _)). case_cmp; [lia|].
  apply ext_loop_reads; [done|]. unfold loop_fuel. cbn [rb between].
  rewrite !length_app. pose proof (exts_bytes_length es). lia.
Qed.

(** The fields collected are those of the specification. *)
Lemma add_ext_fold es : ∀ a, Forall wf_ext es →
  foldl (add_ext true) a es =
  ExtAcc (exts a ++ not_grease (map ext_type es))
    (foldl (λ acc e, match e with ExtGroups gs => not_grease gs | _ => acc end) (curves a) es)
    (pointFormats a ++ all_formats es).
Proof.
  unfold not_grease, all_formats. induction es as [|e es IH]; intros a Hes.
  { simpl. rewrite !app_nil_r. by destruct a. }
  apply Forall_cons in Hes as [He Hes]. cbn [foldl map].
  rewrite IH, filter_cons, bind_cons by done. unfold add_ext. clear IH.
  destruct e as [gs|fs|t d]; cbn [ext_type];
    [change (isGREASE 10) with false|change (isGREASE 11) with false|destruct (isGREASE t)];
    case_decide; try done; cbn [negb exts curves pointFormats app]; f_equal;
    by rewrite <- ?app_assoc.
Qed.

Lemma last_groups_fold es : ∀ acc,
  foldl (λ acc e, match e with ExtGroups gs => not_grease gs | _ => acc end) (not_grease acc) es =
  not_grease (foldl (λ acc e, match e with ExtGroups gs => gs | _ => acc end) acc es).
Proof. induction es as [|[]]; intros; simpl; auto. Qed.

(** The headers in front of the handshake message. *)
Definition header (h : hello) : list Z :=
  [22; 3; 1] ++ be16b (zlen (hello_body h) + 4) ++ [1] ++ be24b (zlen (hello_body h)).

Lemma hello_record_eq h : hello_record h = header h ++ hello_body h.
Proof.
  unfold hello_record, header. rewrite !zlen_app.
  change (zlen [1]) with 1. change (zlen (be24b _)) with 3.
  replace (1 + (3 + zlen (hello_body h))) with (zlen (hello_body h) + 4) by lia.
  by rewrite <- !app_assoc.
Qed.

Lemma handshakeBody_reads h rest : zlen (hello_body h) + 4 < 65536 →
  handshakeBody (hello_record h ++ rest) =
  Ret (Ok (between (header h) (hello_body h), 1)).
Proof.
  intros Hlen. rewrite hello_record_eq. set (n := zlen (hello_body h)) in *.
  assert (0 <= n) by apply zlen_nonneg. pose proof (zlen_nonneg rest).
  assert (zlen (header h) = 9) as Hh by done.
  unfold handshakeBody, gr_bind, need.
  change (Reader ((header h ++ hello_body h) ++ rest) 0) with
    (between [] (22 :: (be16b 769 ++ be16b (n + 4) ++ 1 :: (be24b n ++ hello_body h ++ rest)))).
  rewrite u8_between. cbn [mbind go_bind app Z.eqb Pos.eqb negb recordTypeHandshake].
  rewrite u16_between by (unfold u16_range; lia). cbn [mbind go_bind].
  rewrite u16_between by (unfold u16_range; lia). cbn [mbind go_bind].
  rewrite u8_between. cbn [mbind go_bind].
  rewrite u24_between by lia. cbn [mbind go_bind pos between].
  assert (zlen ((header h ++ hello_body h) ++ rest) = 9 + n + zlen rest) as ->.
  { by rewrite !zlen_app, Hh. }
  rewrite !zlen_app. change (zlen (be16b _)) with 2. change (zlen (be24b _)) with 3.
  change (zlen [22]) with 1. change (zlen [1]) with 1.
  destruct (Z.ltb_spec (9 + n + zlen rest) (1 + 2 + 2 + (n + 4))); [lia|].
  destruct (Z.ltb_spec (1 + 2 + 2 + (n + 4)) (1 + 2 + 2 + 1 + 3 + n)); [lia|].
  rewrite (go_slice_at [] (header h ++ hello_body h) rest) by (rewrite ?zlen_app, ?Hh; done || lia).
  done.
Qed.

(** C5: every well-formed ClientHello gets the fingerprint JA3 defines, whatever
    follows it in the record: the version, the cipher suites, the extension types,
    the last supported-groups list and the point formats, in order, without the
    GREASE values, in decimal, and the MD5 of that text.  In particular parsing
    succeeds and reads every extension. *)
Theorem client_hello_fingerprint (h : hello) (rest : list Z) : wf_hello h →
  FromClientHello (hello_record h ++ rest) = Ret (Ok (ja3_of h, md5Hex (ja3_of h))).
Proof.
  intros (Hv & Hr & Hs & Hc & Hci & Hcl & He & Hel & Hb).
  unfold FromClientHello. rewrite handshakeBody_reads by done.
  unfold gr_bind, need. cbn [mbind go_bind Z.eqb Pos.eqb negb handshakeClientHello].
  unfold hello_body. rewrite u16_between by done. cbn [mbind go_bind].
  rewrite skip_between by done. cbn [mbind go_bind app].
  rewrite u8_between. cbn [mbind go_bind]. rewrite skip_between by done. cbn [mbind go_bind].
  pose proof (zlen_nonneg (h_ciphers h)).
  rewrite u16_between by (unfold u16_range; lia). cbn [mbind go_bind].
  rewrite bytes_between by by rewrite zlen_be16. cbn [mbind go_bind].
  rewrite u8_between. cbn [mbind go_bind]. rewrite skip_between by done. cbn [mbind go_bind].
  rewrite parseExtensions_reads by done. cbn [mbind go_bind].
  rewrite add_ext_fold by done. cbn [exts curves pointFormats app].
  rewrite (last_groups_fold _ []), u16List_be16 by done. done.
Qed.

(** The ClientHello of the package's own test: GREASE values in the ciphers, the
    extensions and the groups, and a host name. *)
Definition sni_data (host : list Z) : list Z :=
  be16b (3 + zlen host) ++ [0] ++ be16b (zlen host) ++ host.

Definition test_hello : hello := {|
  h_version := 771; h_random := replicate 32 0; h_session := [];
  h_ciphers := [2570; 49195; 49199]; h_compression := [0];
  h_exts := [ExtOther 6682 []; ExtOther 0 (sni_data (bytes_of "c2.example"));
             ExtGroups [2570; 29; 23]; ExtFormats [0]] |}.

Lemma test_hello_wf : wf_hello test_hello.
Proof. unfold wf_hello, u16_range. split_and!; repeat constructor; vm_compute; congruence. Qed.

Lemma client_hello_fingerprint_witness :
  ja3_of test_hello = "771,49195-49199,0-10-11,29-23,0" ∧
  FromClientHello (hello_record test_hello ++ [20; 3; 3]) =
    Ret (Ok (ja3_of test_hello, md5Hex (ja3_of test_hello))).
Proof.
  split; [by vm_compute|]. exact (client_hello_fingerprint test_hello [20; 3; 3] test_hello_wf).
Defined.

(** ** The server name *)
Fixpoint sni_ext (es : list extension) : go string :=
  match es with
  | [] => Ret ""
  | e :: es => if negb (ext_type e =? 0) then sni_ext es else sni_name (ext_data e)
  end.

Lemma sni_loop_reads es : ∀ fuel pre, Forall wf_ext es → (length es < fuel)%nat →
  sni_loop fuel (zlen pre + zlen (es ≫= ext_bytes)) (between pre (es ≫= ext_bytes)) = sni_ext es.
Proof.
  induction es as [|e es IH]; intros fuel pre Hes Hf; (destruct fuel as [|fuel]; [simpl in Hf; lia|]).
  - change ([] ≫= ext_bytes) with (@nil Z). cbn [sni_loop pos between].
    by rewrite zlen_nil, Z.add_0_r, Z.ltb_irrefl.
  - apply Forall_cons in Hes as [He Hes].
    cbn [sni_loop sni_ext]. rewrite bind_cons, zlen_app, zlen_ext_bytes.
    pose proof (zlen_nonneg (ext_data e)). pose proof (zlen_nonneg (es ≫= ext_bytes)).
    cbn [pos between]. case_cmp; try lia;
    rewrite ext_bytes_app, u16_between by (by apply wf_ext_type);
    cbn [mbind go_bind]; rewrite u16_between by apply He;
    cbn [mbind go_bind]; rewrite bytes_between by done; cbn [mbind go_bind].
    + rewrite (proj2 (Z.eqb_eq _ _)) by done. done.
    + rewrite (proj2 (Z.eqb_neq _ _)) by done. cbn [negb].
      rewrite <- IH with (fuel := fuel) (pre := ((pre ++ be16b (ext_type e)) ++
        be16b (zlen (ext_data e))) ++ ext_data e); [|done|simpl in Hf; lia].
      f_equal. rewrite !zlen_app. change (zlen (be16b _)) with 2. lia.
Qed.

Lemma sni_name_reads host : zlen host + 5 < 65536 → sni_name (sni_data host) = Ret (string_of host).
Proof.
  intros Hlen. pose proof (zlen_nonneg host). unfold sni_name, sni_data.
  rewrite !zlen_app. change (zlen (be16b _)) with 2. change (zlen [0]) with 1.
  destruct (Z.ltb_spec (2 + (1 + (2 + zlen host))) 5); [lia|].
  set (n := zlen host) in *.
  change (be16b (3 + n) ++ [0] ++ be16b n ++ host)
    with ([(3 + n) / 256; (3 + n) mod 256; 0; n / 256; n mod 256] ++ host).
  set (b := [(3 + n) / 256; (3 + n) mod 256; 0; n / 256; n mod 256]).
  change (go_index (b ++ host) 2) with (Ret 0). change (go_index (b ++ host) 3) with (Ret (n / 256)).
  change (go_index (b ++ host) 4) with (Ret (n mod 256)). cbn [mbind go_bind].
  change (Z.lor (Z.shiftl (n / 256) 8) (n mod 256)) with (be_u16 (n / 256) (n mod 256)).
  rewrite be_u16_be16b by (unfold u16_range; lia). cbn [Z.eqb negb orb].
  destruct (Z.ltb_spec (2 + (1 + (2 + n))) (5 + n)); [lia|].
  rewrite <- (app_nil_r host) at 1. by rewrite (go_slice_at b host []).
Qed.

(** The server name of a well-formed ClientHello is found: [ServerName] gives
    the host of the first server_name extension, wherever it stands among the
    others, and the empty string when there is none. *)
Theorem server_name_found (h : hello) (rest : list Z) : wf_hello h →
  (∀ pre host post,
     h_exts h = pre ++ ExtOther 0 (sni_data host) :: post →
     Forall (λ e, ext_type e ≠ 0) pre →
     ServerName (hello_record h ++ rest) = Ret (string_of host)) ∧
  (Forall (λ e, ext_type e ≠ 0) (h_exts h) → ServerName (hello_record h ++ rest) = Ret "").
Proof.
  intros (Hv & Hr & Hs & Hc & Hci & Hcl & He & Hel & Hb).
  assert (ServerName (hello_record h ++ rest) = sni_ext (h_exts h)) as ->.
  { unfold ServerName, server_name. rewrite handshakeBody_reads by done.
    unfold gr_bind, need. cbn [mbind go_bind Z.eqb Pos.eqb negb handshakeClientHello].
    unfold hello_body. rewrite u16_between by done. cbn [mbind go_bind].
    rewrite skip_between by done. cbn [mbind go_bind app].
    rewrite u8_between. cbn [mbind go_bind]. rewrite skip_between by done. cbn [mbind go_bind].
    pose proof (zlen_nonneg (h_ciphers h)).
    rewrite u16_between by (unfold u16_range; lia). cbn [mbind go_bind].
    rewrite skip_between by by rewrite zlen_be16. cbn [mbind go_bind].
    rewrite u8_between. cbn [mbind go_bind]. rewrite skip_between by done. cbn [mbind go_bind].
    set (w := h_exts h ≫= ext_bytes) in *. pose proof (zlen_nonneg w).
    rewrite u16_between by (unfold u16_range; lia). cbn [mbind go_bind].
    unfold clamp_end. cbn [pos rb between]. rewrite (zlen_app (_ ++ be16b _) w).
    case_cmp; [lia|]. subst w. rewrite sni_loop_reads; [|done|].
    - destruct (sni_ext (h_exts h)); done.
    - unfold loop_fuel. cbn [rb between]. rewrite !length_app.
      pose proof (exts_bytes_length (h_exts h)). lia. }
  split.
  - intros pre host post E Hpre. rewrite E in *. clear E Hel.
    apply Forall_app in He as [_ [[Hl _] _]%Forall_cons].
    induction Hpre as [|e pre Hne _ IH]; cbn [app sni_ext].
    + apply sni_name_reads. unfold u16_range, sni_data in Hl. cbn [ext_data] in Hl.
      rewrite !zlen_app in Hl. change (zlen (be16b _)) with 2 in Hl.
      change (zlen [0]) with 1 in Hl. lia.
    + apply Z.eqb_neq in Hne. rewrite Hne. apply IH.
  - clear. generalize (h_exts h). induction 1 as [|e es Hne _ IH]; [done|]. cbn [sni_ext].
    apply Z.eqb_neq in Hne. by rewrite Hne.
Qed.

Lemma server_name_found_witness :
  wf_hello test_hello ∧ ServerName (hello_record test_hello ++ [0]) = Ret "c2.example".
Proof.
  split; [exact test_hello_wf|].
  exact (proj1 (server_name_found test_hello [0] test_hello_wf)
    [ExtOther 6682 []] (bytes_of "c2.example") [ExtGroups [2570; 29; 23]; ExtFormats [0]]
    eq_refl ltac:(repeat constructor; discriminate)).
Defined.
