(* ===== verification/Correlation.v ===== *)
(** * Alert correlation: server/internal/correlation

    [engine.go]: correlation rules, the sliding windows of matching alerts and the
    incidents they open; [classify.go]: the sub-type tokens derived from an alert;
    [builtins.go]: the built-in rules.  The engine is the one without a database
    pool: persisting an incident and reading incidents back from the database are
    not modelled.  One call of [ProcessAlert] reads the clock when the event is
    made ([at_]) and inside the lock ([now], one reading for the whole loop); the
    identifier of a new incident is the argument [uid].  Theorems are in
    [CorrelationProofs.v]. *)

From Stdlib Require Import Ascii.
From S2P Require Import Prelude GoStrings Event.

#[local] Open Scope string_scope.
#[local] Open Scope list_scope.
#[local] Open Scope Z_scope.

(** ** Data *)
Record Condition : Type := Cond { Field : string; Operator : string; Value : string }.

Record CorrelationRule : Type := {
  ID : string; Name : string; Description : string;
  EventTypes : list string; Conditions : list Condition;
  TimeWindow : duration; MinEvents : Z; Severity : Z;
  MITRETactic : string; MITRETech : string }.

Record Incident : Type := {
  inc_id : string; Title : string; inc_description : string; inc_severity : Z;
  Status : string; AlertIDs : list string; AgentIDs : list string;
  inc_tactic : string; inc_tech : string; RuleID : string;
  CreatedAt : time; UpdatedAt : time }.

Record CorrelationStats : Type := {
  TotalIncidents : Z; OpenIncidents : Z; RulesCount : Z; AlertsCorrelated : Z }.

Record alertEvent : Type := {
  AlertID : string; AgentID : string; EventType : string; Subtypes : list string;
  ev_severity : Z; Data : event; At : time }.

Record Engine : Type := {
  rules : list CorrelationRule; incidents : list Incident;
  eventBuffer : gmap string (list alertEvent); totalCorrelated : Z }.

Definition NewEngine : Engine :=
  {| rules := []; incidents := []; eventBuffer := ∅; totalCorrelated := 0 |}.

Definition set_rules (e : Engine) (rs : list CorrelationRule) : Engine :=
  {| rules := rs; incidents := incidents e; eventBuffer := eventBuffer e;
     totalCorrelated := totalCorrelated e |}.
Definition set_buffer (e : Engine) (id : string) (b : list alertEvent) : Engine :=
  {| rules := rules e; incidents := incidents e; eventBuffer := <[id := b]> (eventBuffer e);
     totalCorrelated := totalCorrelated e |}.
Definition set_incidents (e : Engine) (incs : list Incident) (n : Z) : Engine :=
  {| rules := rules e; incidents := incs; eventBuffer := eventBuffer e; totalCorrelated := n |}.

(** ** Classification *)

(** The set of tokens, without duplicates; the empty token is never added. *)
Definition add_token (set : list string) (v : string) : list string :=
  if String.eqb v "" || existsb (String.eqb v) set then set else set ++ [v].
Definition add (vals : list string) (set : list string) : list string :=
  foldl add_token set vals.

Definition one_of (x : string) (l : list string) : bool := existsb (String.eqb x) l.

(** The outcome fields, in the order the code tries them. *)
Fixpoint outcome_of (data : event) (ks : list string) : string :=
  match ks with
  | [] => if get data "failure_reason" then "failure" else ""
  | k :: ks =>
      match get_str data k with
      | Some s =>
          let s := to_lower s in
          if one_of s ["failed"; "failure"; "fail"; "denied"] then "failure"
          else if one_of s ["success"; "succeeded"; "accepted"] then "success"
          else outcome_of data ks
      | None => outcome_of data ks
      end
  end.

Definition authOutcome (data : event) : string :=
  match get data "success" with
  | Some (VBool v) => if v then "success" else "failure"
  | _ => outcome_of data ["action"; "result"; "status"; "outcome"]
  end.

Definition targetIsLSASS (data : event) : bool :=
  existsb (λ k, match get_str data k with
                | Some s => contains (to_lower s) "lsass"
                | None => false
                end) ["target_image"; "TargetImage"; "targetImage"].

(** The technique without its sub-technique, in upper case. *)
Definition base_technique (mitreTech : string) : string :=
  let tech := to_upper (trim_space mitreTech) in
  match cut "." tech with Some (t, _) => t | None => tech end.

Definition credential_techniques : list string :=
  ["T1003"; "T1555"; "T1552"; "T1558"; "T1212"; "T1187"; "T1621"].
Definition impact_techniques : list string := ["T1486"; "T1485"; "T1490"; "T1491"; "T1561"].
Definition c2_techniques : list string :=
  ["T1071"; "T1095"; "T1105"; "T1102"; "T1568"; "T1571"; "T1573"; "T1090"].

Definition persistence_tokens (tech : string) : list string :=
  if one_of tech ["T1053"] then ["scheduled_task_created"]
  else if one_of tech ["T1543"; "T1569"] then ["service_installed"]
  else if one_of tech ["T1547"; "T1546"; "T1037"] then ["startup_item_added"]
  else if one_of tech ["T1112"] then ["registry_modified"]
  else [].

Definition auth_tokens (data : event) : list string :=
  let o := authOutcome data in
  if String.eqb o "failure" then ["auth_failure"; "failed_login"]
  else if String.eqb o "success" then ["auth_success"; "login_success"]
  else ["auth_failure"; "auth_success"].

Definition when (b : bool) (l : list string) : list string := if b then l else [].

(** The calls of [add], in order. *)
Definition DeriveEventSubtypes (baseType mitreTech : string) (severity : Z) (data : event) : list string :=
  let base := to_lower (trim_space baseType) in
  let tech := base_technique mitreTech in
  let set := add [base] [] in
  let set := add (when (String.eqb base "auth") (auth_tokens data)) set in
  let set := add (when (String.eqb tech "T1110") ["auth_failure"; "failed_login"]) set in
  let set := add (when (one_of tech credential_techniques)
                    ["credential_dump"; "lsass_access"; "mimikatz_detected"]) set in
  let set := add (when (targetIsLSASS data) ["credential_dump"; "lsass_access"]) set in
  let set := add (when (one_of tech impact_techniques)
                    ["file_encrypted"; "ransomware_detected"; "file_rename_bulk";
                     "ransom_note_created"]) set in
  let set := add (when (String.eqb base "registry") ["registry_modified"]) set in
  let set := add (persistence_tokens tech) set in
  let set := add (when (String.eqb base "network")
                    ["network_connection"; "outbound_connection"]) set in
  let set := add (when (String.eqb base "dns") ["dns_query"]) set in
  add (when (one_of tech c2_techniques) ["network_connection"]) set.

(** ** Matching *)

(** [fmt.Sscanf(s, "%d", &v)] into a variable holding 0: blanks are skipped, a
    line feed is not; on any error the variable keeps its 0. *)
Fixpoint scan_blank (s : string) : option string :=
  match s with
  | String c s' =>
      if Ascii.eqb c (chr 10) then None
      else if is_space c then scan_blank s' else Some s
  | EmptyString => None
  end.

Definition sscanf_d (s : string) : Z :=
  match scan_blank s with
  | None => 0
  | Some s =>
      let '(neg, s) := scan_sign s in
      if starts_with_digit s then
        let n := (scan_digits s 0).1 in
        let n := if neg : bool then - n else n in
        if (- 2 ^ 63 <=? n) && (n <? 2 ^ 63) then n else 0
      else 0
  end.

Definition containsFold (l : list string) (want : string) : bool :=
  existsb (λ v, equal_fold v want) l.

Definition matchOp (op fieldVal want : string) : bool :=
  if String.eqb op "eq" then equal_fold fieldVal want
  else if String.eqb op "contains" then contains (to_lower fieldVal) (to_lower want)
  else if String.eqb op "gte" then sscanf_d want <=? sscanf_d fieldVal
  else false.

Definition evalCondition (c : Condition) (ev : alertEvent) : bool :=
  if String.eqb (Field c) "event_type" then
    existsb (λ cand, matchOp (Operator c) cand (Value c)) (EventType ev :: Subtypes ev)
  else
    let fieldVal :=
      if String.eqb (Field c) "agent_id" then AgentID ev
      else if String.eqb (Field c) "severity" then itoa (ev_severity ev)
      else match get (Data ev) (Field c) with Some v => sprint v | None => "" end in
    matchOp (Operator c) fieldVal (Value c).

Definition eventMatchesRule (ev : alertEvent) (r : CorrelationRule) : bool :=
  match EventTypes r with
  | [] => true
  | ets => existsb (λ et, equal_fold et (EventType ev) || containsFold (Subtypes ev) et) ets
  end && forallb (λ c, evalCondition c ev) (Conditions r).

(** ** Incidents *)
Definition live_status (s : string) : bool :=
  String.eqb s "open" || String.eqb s "investigating".

(** An incident of the rule that is open or under investigation. *)
Definition open_for (ruleID : string) (i : Incident) : bool :=
  String.eqb (RuleID i) ruleID && live_status (Status i).

Definition hasOpenIncident (e : Engine) (ruleID : string) : bool :=
  existsb (open_for ruleID) (incidents e).

Definition appendUnique (l : list string) (s : string) : list string :=
  if existsb (String.eqb s) l then l else l ++ [s].

Definition add_alert (alertID agentID : string) (now : time) (i : Incident) : Incident :=
  {| inc_id := inc_id i; Title := Title i; inc_description := inc_description i;
     inc_severity := inc_severity i; Status := Status i;
     AlertIDs := appendUnique (AlertIDs i) alertID;
     AgentIDs := appendUnique (AgentIDs i) agentID;
     inc_tactic := inc_tactic i; inc_tech := inc_tech i; RuleID := RuleID i;
     CreatedAt := CreatedAt i; UpdatedAt := now |}.

(** The first incident satisfying [f] is updated. *)
Fixpoint update_first (f : Incident → bool) (g : Incident → Incident) (l : list Incident) : list Incident :=
  match l with
  | [] => []
  | i :: l => if f i then g i :: l else i :: update_first f g l
  end.

Definition appendAlertToIncident (e : Engine) (ruleID alertID agentID : string) (now : time) : Engine :=
  if hasOpenIncident e ruleID then
    set_incidents e (update_first (open_for ruleID) (add_alert alertID agentID now) (incidents e))
      (totalCorrelated e + 1)
  else e.

Definition createIncident (uid : string) (r : CorrelationRule) (evs : list alertEvent) (now : time) : Incident :=
  {| inc_id := uid;
     Title := "[" +:+ MITRETactic r +:+ "] " +:+ Name r;
     inc_description := Description r;
     inc_severity := Severity r;
     Status := "open";
     AlertIDs := foldl appendUnique [] (map AlertID evs);
     AgentIDs := foldl appendUnique [] (map AgentID evs);
     inc_tactic := MITRETactic r;
     inc_tech := MITRETech r;
     RuleID := ID r;
     CreatedAt := now; UpdatedAt := now |}.

(** ** Operations *)
Fixpoint replace_rule (r : CorrelationRule) (rs : list CorrelationRule) : list CorrelationRule :=
  match rs with
  | [] => [r]
  | r' :: rs => if String.eqb (ID r') (ID r) then r :: rs else r' :: replace_rule r rs
  end.

Definition AddRule (e : Engine) (r : CorrelationRule) : Engine :=
  set_rules e (replace_rule r (rules e)).

(** The window of a rule: the buffered events and the new one, those after the
    cutoff. *)
Definition in_window (cutoff : time) (evs : list alertEvent) : list alertEvent :=
  List.filter (λ ev, cutoff <? At ev) evs.

Definition buffer (e : Engine) (id : string) : list alertEvent :=
  default [] (eventBuffer e !! id).

(** One turn of the loop over the rules; a result ends the loop. *)
Definition process_rule (ev : alertEvent) (now : time) (uid : string) (r : CorrelationRule) (e : Engine) :
    Engine * option Incident :=
  if negb (eventMatchesRule ev r) then (e, None) else
  let buf := in_window (now - TimeWindow r) (buffer e (ID r) ++ [ev]) in
  let e := set_buffer e (ID r) buf in
  if zlen buf <? MinEvents r then (e, None) else
  if hasOpenIncident e (ID r) then
    (appendAlertToIncident e (ID r) (AlertID ev) (AgentID ev) now, None)
  else
    let incident := createIncident uid r buf now in
    (set_incidents e (incidents e ++ [incident]) (totalCorrelated e + zlen buf), Some incident).

Fixpoint process_rules (ev : alertEvent) (now : time) (uid : string) (rs : list CorrelationRule) (e : Engine) :
    Engine * option Incident :=
  match rs with
  | [] => (e, None)
  | r :: rs =>
      let '(e, o) := process_rule ev now uid r e in
      match o with
      | Some i => (e, Some i)
      | None => process_rules ev now uid rs e
      end
  end.

Definition make_event (alertID agentID eventType mitreTech : string) (severity : Z) (data : event) (at_ : time) : alertEvent :=
  {| AlertID := alertID; AgentID := agentID; EventType := eventType;
     Subtypes := DeriveEventSubtypes eventType mitreTech severity data;
     ev_severity := severity; Data := data; At := at_ |}.

Definition ProcessAlert (e : Engine) (alertID agentID eventType mitreTech : string) (severity : Z)
    (data : event) (at_ now : time) (uid : string) : Engine * option Incident :=
  process_rules (make_event alertID agentID eventType mitreTech severity data at_) now uid
    (rules e) e.

Definition set_status (status : string) (now : time) (i : Incident) : Incident :=
  {| inc_id := inc_id i; Title := Title i; inc_description := inc_description i;
     inc_severity := inc_severity i; Status := status; AlertIDs := AlertIDs i;
     AgentIDs := AgentIDs i; inc_tactic := inc_tactic i; inc_tech := inc_tech i;
     RuleID := RuleID i; CreatedAt := CreatedAt i; UpdatedAt := now |}.

Definition UpdateIncidentStatus (e : Engine) (id status : string) (now : time) : Engine :=
  set_incidents e
    (map (λ i, if String.eqb (inc_id i) id then set_status status now i else i) (incidents e))
    (totalCorrelated e).

(** Newest first, at most [limit]; a negative limit gives none. *)
Definition GetIncidents (e : Engine) (limit : Z) : list Incident :=
  take (Z.to_nat limit) (reverse (incidents e)).

(** The fallback of the database path makes a slice of capacity [limit], which
    panics on a negative one. *)
Definition localIncidents (e : Engine) (limit : Z) : go (list Incident) :=
  if limit <? 0 then Panic else Ret (take (Z.to_nat limit) (reverse (incidents e))).

Definition GetStats (e : Engine) : CorrelationStats :=
  {| TotalIncidents := zlen (incidents e);
     OpenIncidents := zlen (List.filter (λ i, live_status (Status i)) (incidents e));
     RulesCount := zlen (rules e);
     AlertsCorrelated := totalCorrelated e |}.

Definition ListRules (e : Engine) : list CorrelationRule := rules e.

Definition GetIncidentByID (e : Engine) (id : string) : option Incident :=
  List.find (λ i, String.eqb (inc_id i) id) (incidents e).

(** ** The built-in rules *)
Definition BuiltinRules : list CorrelationRule :=
  [{| ID := "corr-001-lateral-movement";
      Name := "Lateral Movement via Brute Force";
      Description :=
        "Detects multiple authentication failures followed by a success on the same agent within 10 minutes, indicating potential lateral movement.";
      EventTypes := ["auth_failure"; "auth_success"; "failed_login"; "login_success"];
      Conditions := [Cond "severity" "gte" "4"];
      TimeWindow := 10 * minute; MinEvents := 5; Severity := 8;
      MITRETactic := "Lateral Movement"; MITRETech := "T1021" |};
   {| ID := "corr-002-credential-dumping";
      Name := "Credential Dumping Campaign";
      Description :=
        "Detects Mimikatz or LSASS memory access events across multiple agents within 1 hour, indicating a coordinated credential dumping campaign.";
      EventTypes := ["credential_dump"; "lsass_access"; "mimikatz_detected"; "process_access"];
      Conditions := [Cond "event_type" "contains" "credential"; Cond "severity" "gte" "7"];
      TimeWindow := 1 * hour; MinEvents := 3; Severity := 9;
      MITRETactic := "Credential Access"; MITRETech := "T1003.001" |};
   {| ID := "corr-003-ransomware-outbreak";
      Name := "Ransomware Outbreak";
      Description :=
        "Detects mass file encryption events spread across 5 or more agents within 30 minutes, indicating an active ransomware outbreak.";
      EventTypes := ["file_encrypted"; "ransomware_detected"; "file_rename_bulk"; "ransom_note_created"];
      Conditions := [Cond "severity" "gte" "8"];
      TimeWindow := 30 * minute; MinEvents := 5; Severity := 10;
      MITRETactic := "Impact"; MITRETech := "T1486" |};
   {| ID := "corr-004-persistence";
      Name := "Persistence Establishment";
      Description :=
        "Detects combined registry modification and scheduled task creation on the same agent within 5 minutes, indicating persistent access establishment.";
      EventTypes := ["registry_modified"; "scheduled_task_created"; "startup_item_added"; "service_installed"];
      Conditions := [Cond "severity" "gte" "5"];
      TimeWindow := 5 * minute; MinEvents := 2; Severity := 7;
      MITRETactic := "Persistence"; MITRETech := "T1547" |};
   {| ID := "corr-005-c2-beaconing";
      Name := "C2 Beaconing Pattern";
      Description :=
        "Detects repeated outbound network connections at regular intervals (~60s) to the same external IP, indicating Command & Control beaconing activity.";
      EventTypes := ["network_connection"; "outbound_connection"; "dns_query"; "http_request"];
      Conditions := [Cond "event_type" "contains" "network"; Cond "severity" "gte" "4"];
      TimeWindow := 10 * minute; MinEvents := 8; Severity := 8;
      MITRETactic := "Command and Control"; MITRETech := "T1071.001" |};
   {| ID := "corr-006-cloud-attack-chain";
      Name := "Cloud Account Takeover Chain";
      Description :=
        "Detects three or more cloud attack techniques (cloud discovery, persistence, privilege escalation, or defense evasion) within 20 minutes, indicating a multi-stage cloud account takeover.";
      EventTypes := [];
      Conditions := [Cond "_attack_surface" "eq" "cloud"];
      TimeWindow := 20 * minute; MinEvents := 3; Severity := 9;
      MITRETactic := "Multiple (Cloud)"; MITRETech := "T1078.004" |};
   {| ID := "corr-007-ad-compromise-chain";
      Name := "Active Directory Domain Compromise Chain";
      Description :=
        "Detects three or more Active Directory attack techniques (domain reconnaissance, Kerberos credential theft/forging, AD CS abuse, authentication coercion, NTLM relay, or pass-the-hash/ticket lateral movement) within 30 minutes, indicating a multi-stage path toward Domain Admin (including the ESC8 coercion→relay→certificate chain).";
      EventTypes := [];
      Conditions := [Cond "_attack_surface" "eq" "ad"];
      TimeWindow := 30 * minute; MinEvents := 3; Severity := 9;
      MITRETactic := "Multiple (AD)"; MITRETech := "T1078.002" |};
   {| ID := "corr-008-ransomware-preparation";
      Name := "Ransomware Preparation (Pre-Encryption)";
      Description :=
        "Detects two or more destructive ransomware pre-encryption steps (inhibit recovery, stop services, disable defenses, wipe, clear logs) within 10 minutes, indicating imminent encryption — early enough to isolate the host.";
      EventTypes := [];
      Conditions := [Cond "_ransomware_precursor" "eq" "true"];
      TimeWindow := 10 * minute; MinEvents := 2; Severity := 10;
      MITRETactic := "Impact"; MITRETech := "T1486" |};
   {| ID := "corr-009-data-exfiltration";
      Name := "Data Exfiltration in Progress";
      Description :=
        "Detects two or more data collection/exfiltration steps (archive collected data plus upload over FTP, mail, DNS tunneling, or cloud storage) within 15 minutes, indicating an active data breach.";
      EventTypes := [];
      Conditions := [Cond "_exfil_activity" "eq" "true"];
      TimeWindow := 15 * minute; MinEvents := 2; Severity := 8;
      MITRETactic := "Exfiltration"; MITRETech := "T1567" |};
   {| ID := "corr-010-container-breakout";
      Name := "Container Escape / Cluster Breakout";
      Description :=
        "Detects two or more container-escalation steps (privileged container deployment, escape to host, in-container exec, or Kubernetes service-account token theft) within 15 minutes, indicating a container-to-host or container-to-cluster breakout in progress.";
      EventTypes := [];
      Conditions := [Cond "_container_escalation" "eq" "true"];
      TimeWindow := 15 * minute; MinEvents := 2; Severity := 9;
      MITRETactic := "Privilege Escalation"; MITRETech := "T1611" |};
   {| ID := "corr-011-multi-source-credential-theft";
      Name := "Multi-Source Credential Theft";
      Description :=
        "Detects two or more credential-harvesting steps from different sources (OS credential stores, password stores, unsecured credentials, or Kerberos ticket theft) within 15 minutes, indicating a hands-on operator sweeping a host for credentials.";
      EventTypes := [];
      Conditions := [Cond "_credential_theft" "eq" "true"];
      TimeWindow := 15 * minute; MinEvents := 2; Severity := 8;
      MITRETactic := "Credential Access"; MITRETech := "T1003" |};
   {| ID := "corr-012-reconnaissance-burst";
      Name := "Reconnaissance Burst";
      Description :=
        "Detects three or more distinct environment-enumeration commands (account, system, network, domain/AD, share, service, or security-software discovery) within 10 minutes, indicating an operator actively mapping the environment before escalation or lateral movement.";
      EventTypes := [];
      Conditions := [Cond "_discovery_recon" "eq" "true"];
      TimeWindow := 10 * minute; MinEvents := 3; Severity := 6;
      MITRETactic := "Discovery"; MITRETech := "T1087" |}].

Definition LoadBuiltins (e : Engine) : Engine := foldl AddRule e BuiltinRules.
