(* ===== verification/CorrelationProofs.v ===== *)
(** * Alert correlation: theorems

    The windows lose nothing an engine that remembers everything would use, an
    incident is created exactly when a rule's window is full and it has no live
    incident, a rule never has two live incidents, and the tokens of the
    ransomware rule only come from impact techniques. *)

From Stdlib Require Import Ascii.
From S2P Require Import Prelude GoStrings Event Correlation.

#[local] Open Scope string_scope.
#[local] Open Scope list_scope.
#[local] Open Scope Z_scope.

(** ** Lists *)
Lemma filter_filter_le {A} (f g : A → bool) (l : list A) :
  (∀ x, g x = true → f x = true) → List.filter g (List.filter f l) = List.filter g l.
Proof.
  intros Hfg. induction l as [|x l IH]; [done|]. simpl.
  destruct (f x) eqn:Ef; simpl; rewrite IH; [done|].
  destruct (g x) eqn:Eg; [|done]. apply Hfg in Eg. congruence.
Qed.

Lemma in_window_later c c' l : c <= c' → in_window c' (in_window c l) = in_window c' l.
Proof.
  intros Hc. apply filter_filter_le. intros x Hx%Z.ltb_lt. apply Z.ltb_lt. lia.
Qed.

Lemma in_window_app c l l' : in_window c (l ++ l') = in_window c l ++ in_window c l'.
Proof. apply List.filter_app. Qed.

Lemma elem_foldl_unique xs : ∀ acc a,
  a ∈ foldl appendUnique acc xs ↔ a ∈ acc ∨ a ∈ xs.
Proof.
  induction xs as [|x xs IH]; intros acc a; cbn [foldl]; [set_solver|].
  rewrite IH. unfold appendUnique. destruct (existsb _ _) eqn:E; [|set_solver].
  apply existsb_exists in E as (y & Hy & ->%String.eqb_eq).
  apply list_elem_of_In in Hy. set_solver.
Qed.

Lemma NoDup_map_inj {A B} (f : A → B) (l : list A) x y :
  NoDup (map f l) → x ∈ l → y ∈ l → f x = f y → x = y.
Proof.
  induction l as [|z l IH]; [set_solver|]. cbn [map]. intros [Hni Hnd]%NoDup_cons Hx Hy E.
  apply elem_of_cons in Hx as [->|Hx], Hy as [->|Hy]; [done| | |by apply IH];
    exfalso; apply Hni; [rewrite E|rewrite <- E]; by apply (list_elem_of_fmap_2 f).
Qed.

Lemma find_split {A} (f : A → bool) l x : List.find f l = Some x →
  ∃ pre post, l = pre ++ x :: post ∧ f x = true ∧ Forall (λ y, f y = false) pre.
Proof.
  induction l as [|y l IH]; [done|]. simpl. destruct (f y) eqn:E.
  - intros [= ->]. by exists [], l.
  - intros (pre & post & -> & Hx & Hpre)%IH. exists (y :: pre), post. split_and!; [done|done|by constructor].
Qed.

Lemma find_first {A} (f : A → bool) pre x post :
  Forall (λ y, f y = false) pre → f x = true → List.find f (pre ++ x :: post) = Some x.
Proof. induction 1 as [|y pre Hy _ IH]; simpl; intros Hx; [by rewrite Hx|]. rewrite Hy. auto. Qed.

(** ** Rules have distinct identifiers *)
Lemma replace_rule_ids r rs :
  map ID (replace_rule r rs) = map ID rs ∨
  (map ID (replace_rule r rs) = map ID rs ++ [ID r] ∧ ID r ∉ map ID rs).
Proof.
  induction rs as [|r' rs IH]; simpl; [right; split; [done|set_solver]|].
  destruct (String.eqb_spec (ID r') (ID r)) as [E|E]; [left; simpl; congruence|].
  simpl. destruct IH as [->|[-> Hni]]; [by left|right]. split; [done|set_solver].
Qed.

Lemma AddRule_distinct e r : NoDup (map ID (rules e)) → NoDup (map ID (rules (AddRule e r))).
Proof.
  intros Hnd. simpl. destruct (replace_rule_ids r (rules e)) as [->|[-> Hni]]; [done|].
  apply NoDup_app. split_and!; [done|set_solver|apply NoDup_singleton].
Qed.

Lemma loaded_distinct rs : ∀ e, NoDup (map ID (rules e)) →
  NoDup (map ID (rules (foldl AddRule e rs))).
Proof. induction rs; intros e He; [done|]. by apply IHrs, AddRule_distinct. Qed.

(** ** What one rule does to the others *)
Lemma update_first_open id id' a g now l :
  existsb (open_for id) (update_first (open_for id') (add_alert a g now) l) =
  existsb (open_for id) l.
Proof. induction l as [|i l IH]; [done|]. simpl. destruct (open_for id' i); simpl; [done|by rewrite IH]. Qed.

Lemma process_rule_rules ev now uid r e : rules (process_rule ev now uid r e).1 = rules e.
Proof. unfold process_rule, appendAlertToIncident. repeat case_match; done. Qed.

Lemma process_rule_buffer ev now uid r e id : id ≠ ID r →
  buffer (process_rule ev now uid r e).1 id = buffer e id.
Proof.
  intros Hid. unfold process_rule, appendAlertToIncident, buffer.
  repeat case_match; simpl; rewrite ?lookup_insert_ne by congruence; done.
Qed.

Lemma process_rule_open ev now uid r e id : (process_rule ev now uid r e).2 = None →
  hasOpenIncident (process_rule ev now uid r e).1 id = hasOpenIncident e id.
Proof.
  unfold process_rule, appendAlertToIncident.
  repeat case_match; simpl; try done. intros _.
  unfold hasOpenIncident; simpl. apply update_first_open.
Qed.

(** ** Creation *)

(** The window of [r] once the alert is in it. *)
Definition window (e : Engine) (ev : alertEvent) (now : time) (r : CorrelationRule) : list alertEvent :=
  in_window (now - TimeWindow r) (buffer e (ID r) ++ [ev]).

(** The rule opens an incident: the alert matches, the window is full and no
    incident of the rule is live. *)
Definition opens (e : Engine) (ev : alertEvent) (now : time) (r : CorrelationRule) : bool :=
  eventMatchesRule ev r && (MinEvents r <=? zlen (window e ev now r)) &&
  negb (hasOpenIncident e (ID r)).

Lemma process_rule_result ev now uid r e :
  (process_rule ev now uid r e).2 =
  if opens e ev now r then Some (createIncident uid r (window e ev now r) now) else None.
Proof.
  unfold process_rule, opens. destruct (eventMatchesRule ev r); [|done].
  fold (window e ev now r). cbn [negb andb].
  destruct (Z.ltb_spec (zlen (window e ev now r)) (MinEvents r)) as [Hl|Hl];
    destruct (Z.leb_spec (MinEvents r) (zlen (window e ev now r))); try lia; [done|].
  change (hasOpenIncident (set_buffer e (ID r) (window e ev now r)) (ID r))
    with (hasOpenIncident e (ID r)).
  by destruct (hasOpenIncident e (ID r)).
Qed.

(** A rule that opens no incident leaves the other rules' decision as it was. *)
Lemma opens_unaffected ev now uid r r' e : ID r' ≠ ID r → opens e ev now r = false →
  opens (process_rule ev now uid r e).1 ev now r' = opens e ev now r' ∧
  window (process_rule ev now uid r e).1 ev now r' = window e ev now r'.
Proof.
  intros Hid Ho.
  assert ((process_rule ev now uid r e).2 = None) as Hn by by rewrite process_rule_result, Ho.
  unfold opens, window. by rewrite process_rule_buffer, process_rule_open.
Qed.

Lemma process_rules_result ev now uid rs : ∀ e, NoDup (map ID rs) →
  (process_rules ev now uid rs e).2 =
  match List.find (opens e ev now) rs with
  | Some r => Some (createIncident uid r (window e ev now r) now)
  | None => None
  end.
Proof.
  induction rs as [|r rs IH]; intros e Hnd; [done|].
  cbn [map] in Hnd. apply NoDup_cons in Hnd as [Hni Hnd].
  cbn [process_rules List.find].
  pose proof (process_rule_result ev now uid r e) as Hr.
  destruct (process_rule ev now uid r e) as [e' o] eqn:E. cbn in Hr. subst o.
  destruct (opens e ev now r) eqn:Ho; [done|].
  rewrite IH by done.
  assert (∀ r', r' ∈ rs → opens e' ev now r' = opens e ev now r' ∧
                          window e' ev now r' = window e ev now r') as Hsame.
  { intros r' Hr'. assert (ID r' ≠ ID r) as Hne.
    { intros Heq. apply Hni. rewrite <- Heq. by apply list_elem_of_fmap_2. }
    pose proof (opens_unaffected ev now uid r r' e Hne Ho). by rewrite E in *. }
  clear IH Hni Hnd E. induction rs as [|r' rs IH]; [done|].
  cbn [List.find]. destruct (Hsame r') as [-> Hw]; [set_solver|].
  destruct (opens e ev now r'); [by rewrite Hw|]. apply IH. intros. apply Hsame. set_solver.
Qed.

(** ** Runs *)
Record alert : Type := Alert {
  a_id : string; a_agent : string; a_type : string; a_tech : string; a_severity : Z;
  a_data : event; a_at : time; a_now : time; a_uid : string }.

Definition alert_event (a : alert) : alertEvent :=
  make_event (a_id a) (a_agent a) (a_type a) (a_tech a) (a_severity a) (a_data a) (a_at a).

Definition handle (e : Engine) (a : alert) : Engine * option Incident :=
  ProcessAlert e (a_id a) (a_agent a) (a_type a) (a_tech a) (a_severity a) (a_data a)
    (a_at a) (a_now a) (a_uid a).

(** A status change that does not bring a closed incident back to life. *)
Definition keeps_closed (e : Engine) (id status : string) : Prop :=
  live_status status = true →
  Forall (λ i, inc_id i = id → live_status (Status i) = true) (incidents e).

Inductive step : Engine → Engine → Prop :=
| step_alert e a : step e (handle e a).1
| step_rule e r : step e (AddRule e r)
| step_status e id status now :
    keeps_closed e id status → step e (UpdateIncidentStatus e id status now).

Definition reachable (e : Engine) : Prop := rtc step NewEngine e.

Lemma process_rules_rules ev now uid rs : ∀ e, rules (process_rules ev now uid rs e).1 = rules e.
Proof.
  induction rs as [|r rs IH]; intros e; [done|]. cbn [process_rules].
  pose proof (process_rule_rules ev now uid r e) as Hr.
  destruct (process_rule ev now uid r e) as [e' [i|]]; [done|]. by rewrite IH.
Qed.

Lemma reachable_ind_inv (P : Engine → Prop) :
  P NewEngine → (∀ e e', P e → step e e' → P e') → ∀ e, reachable e → P e.
Proof. intros H0 Hs e He. refine (rtc_ind_r P NewEngine H0 _ e He). eauto. Qed.

Lemma reachable_distinct e : reachable e → NoDup (map ID (rules e)).
Proof.
  revert e. apply reachable_ind_inv; [constructor|].
  intros e e' He Hst. destruct Hst; [|by apply AddRule_distinct|done].
  unfold handle, ProcessAlert. by rewrite process_rules_rules.
Qed.

(** An alert creates an incident exactly when some rule matches it, has
    [MinEvents] matching alerts in its window with this one, and has no incident
    that is open or under investigation; the first such rule in loading order
    creates it.  The incident then carries the alerts and the agents of that
    window, and nothing else. *)
Theorem incident_created_iff (e : Engine) (a : alert) (inc : Incident) : reachable e →
  (handle e a).2 = Some inc ↔
  ∃ pre r post,
    rules e = pre ++ r :: post ∧
    Forall (λ r', opens e (alert_event a) (a_now a) r' = false) pre ∧
    opens e (alert_event a) (a_now a) r = true ∧
    RuleID inc = ID r ∧ Status inc = "open" ∧ inc_id inc = a_uid a ∧
    inc_severity inc = Severity r ∧
    inc = createIncident (a_uid a) r (window e (alert_event a) (a_now a) r) (a_now a) ∧
    (∀ s, s ∈ AlertIDs inc ↔ ∃ ev, ev ∈ window e (alert_event a) (a_now a) r ∧ AlertID ev = s) ∧
    (∀ s, s ∈ AgentIDs inc ↔ ∃ ev, ev ∈ window e (alert_event a) (a_now a) r ∧ AgentID ev = s).
Proof.
  intros He%reachable_distinct. unfold handle, ProcessAlert. fold (alert_event a).
  rewrite process_rules_result by done.
  assert (∀ r evs s, (s ∈ AlertIDs (createIncident (a_uid a) r evs (a_now a)) ↔
                      ∃ ev, ev ∈ evs ∧ AlertID ev = s) ∧
                     (s ∈ AgentIDs (createIncident (a_uid a) r evs (a_now a)) ↔
                      ∃ ev, ev ∈ evs ∧ AgentID ev = s)) as Hids.
  { intros r evs s. simpl. rewrite !elem_foldl_unique.
    change (map AlertID evs) with (AlertID <$> evs). change (map AgentID evs) with (AgentID <$> evs).
    rewrite !list_elem_of_fmap. split; set_solver. }
  split.
  - intros Hinc. destruct (List.find _ _) as [r|] eqn:Hf; [|done]. injection Hinc as <-.
    apply find_split in Hf as (pre & post & -> & Ho & Hpre).
    exists pre, r, post. split_and!; try done; intros s; apply Hids.
  - intros (pre & r & post & -> & Hpre & Ho & _ & _ & _ & _ & -> & _).
    by rewrite (find_first _ pre r post).
Qed.

(** A small scenario: a rule that wants two matching alerts within a minute. *)
Definition two_rule : CorrelationRule :=
  {| ID := "r"; Name := "two"; Description := ""; EventTypes := ["file_encrypted"];
     Conditions := [Cond "severity" "gte" "8"]; TimeWindow := minute; MinEvents := 2;
     Severity := 9; MITRETactic := "Impact"; MITRETech := "T1486" |}.

Definition encrypt_alert (id agent : string) (t : time) (uid : string) : alert :=
  Alert id agent "file" "T1486" 9 [] t t uid.

Definition engine_two : Engine :=
  (handle (AddRule NewEngine two_rule) (encrypt_alert "a1" "h1" 0 "u1")).1.

Lemma engine_two_reachable : reachable engine_two.
Proof.
  eapply rtc_l; [apply (step_rule NewEngine two_rule)|]. eapply rtc_once. constructor.
Qed.

Lemma incident_created_iff_witness :
  reachable engine_two ∧
  (∃ inc, (handle engine_two (encrypt_alert "a2" "h2" second "u2")).2 = Some inc ∧
     (∀ s, s ∈ AgentIDs inc ↔ s = "h1" ∨ s = "h2")).
Proof.
  split; [exact engine_two_reachable|].
  destruct (handle engine_two (encrypt_alert "a2" "h2" second "u2")).2 as [inc|] eqn:E;
    [|vm_compute in E; discriminate].
  exists inc. split; [done|].
  pose proof (proj1 (incident_created_iff engine_two (encrypt_alert "a2" "h2" second "u2") inc
    engine_two_reachable) E) as (pre & r & post & Hr & Hpre & _ & _ & _ & _ & _ & _ & _ & Hag).
  assert (rules engine_two = [two_rule]) as Hrs by by vm_compute.
  rewrite Hrs in Hr. destruct pre as [|? [|? ?]]; simpl in Hr; [|congruence..].
  injection Hr as <- _. intros s. rewrite Hag.
  assert (AgentID <$> window engine_two (alert_event (encrypt_alert "a2" "h2" second "u2"))
    (a_now (encrypt_alert "a2" "h2" second "u2")) two_rule = ["h1"; "h2"]) as Hw by by vm_compute.
  transitivity (s ∈ ["h1"; "h2"]); [|by rewrite elem_of_cons, list_elem_of_singleton].
  rewrite <- Hw, list_elem_of_fmap. split; intros (ev & H1 & H2); exists ev; by split.
Defined.

(** ** One live incident *)
Definition live_count (e : Engine) (id : string) : nat :=
  length (List.filter (open_for id) (incidents e)).

Lemma count_zero f (l : list Incident) : existsb f l = false → length (List.filter f l) = 0%nat.
Proof.
  induction l as [|i l IH]; [done|]. simpl. intros [Hi Hl]%orb_false_iff. rewrite Hi. auto.
Qed.

Lemma count_map f g (l : list Incident) :
  Forall (λ i, f (g i) = true → f i = true) l →
  (length (List.filter f (map g l)) <= length (List.filter f l))%nat.
Proof.
  induction 1 as [|i l Hi _ IH]; [done|]. simpl.
  destruct (f (g i)) eqn:E; [rewrite (Hi eq_refl)|destruct (f i)]; simpl; lia.
Qed.

Lemma count_update id id' a g now l :
  length (List.filter (open_for id) (update_first (open_for id') (add_alert a g now) l)) =
  length (List.filter (open_for id) l).
Proof.
  induction l as [|i l IH]; [done|]. simpl. destruct (open_for id' i); simpl.
  - change (open_for id (add_alert a g now i)) with (open_for id i). by destruct (open_for id i).
  - destruct (open_for id i); simpl; by rewrite IH.
Qed.

Lemma process_rule_live ev now uid r e :
  (∀ id, live_count e id <= 1)%nat → (∀ id, live_count (process_rule ev now uid r e).1 id <= 1)%nat.
Proof.
  intros He id. specialize (He id). unfold process_rule, appendAlertToIncident, live_count in *.
  destruct (eventMatchesRule ev r); [|done]. cbn [negb].
  set (buf := in_window _ _). destruct (zlen buf <? MinEvents r); [done|].
  change (hasOpenIncident (set_buffer e (ID r) buf) (ID r)) with (hasOpenIncident e (ID r)).
  destruct (hasOpenIncident e (ID r)) eqn:Ho; cbn [fst incidents set_incidents set_buffer].
  - by rewrite count_update.
  - rewrite List.filter_app, length_app. simpl. unfold open_for at 2. simpl.
    destruct (String.eqb_spec (ID r) id) as [<-|]; simpl; [|lia].
    by rewrite (count_zero _ _ Ho).
Qed.

Lemma process_rules_live ev now uid rs : ∀ e,
  (∀ id, live_count e id <= 1)%nat →
  (∀ id, live_count (process_rules ev now uid rs e).1 id <= 1)%nat.
Proof.
  induction rs as [|r rs IH]; intros e He; [done|]. cbn [process_rules].
  pose proof (process_rule_live ev now uid r e He) as Hr.
  destruct (process_rule ev now uid r e) as [e' [i|]]; auto.
Qed.

(** A rule never has two live incidents: in every engine built by adding and
    replacing rules, processing alerts and changing statuses (without reopening
    a closed incident), at most one incident of each rule is open or under
    investigation, so an attack in progress keeps one ticket. *)
Theorem one_live_incident (e : Engine) : reachable e → ∀ id, (live_count e id <= 1)%nat.
Proof.
  revert e. apply (reachable_ind_inv (λ e, ∀ id, (live_count e id <= 1)%nat));
    [intros id; apply Nat.le_0_l|].
  intros e e' He Hst. revert He. destruct Hst as [e a|e r|e i status now Hkeep]; intros He;
    [exact (process_rules_live _ _ _ _ _ He)|done|].
  intros id. etrans; [|apply (He id)]. unfold live_count. simpl. apply count_map.
  unfold keeps_closed in Hkeep. destruct (live_status status) eqn:Es.
  - specialize (Hkeep eq_refl). eapply Forall_impl; [exact Hkeep|].
    intros j Hj. simpl in Hj. destruct (String.eqb_spec (inc_id j) i) as [E|]; [|done].
    unfold open_for. simpl. rewrite (Hj E), Es. by rewrite !andb_true_r.
  - apply Forall_true. intros j. destruct (String.eqb (inc_id j) i); [|done].
    unfold open_for. simpl. by rewrite Es, andb_false_r.
Qed.

Definition engine_full : Engine :=
  (handle (handle engine_two (encrypt_alert "a2" "h2" second "u2")).1
     (encrypt_alert "a3" "h1" (2 * second) "u3")).1.

Lemma one_live_incident_witness :
  reachable engine_full ∧ (live_count engine_full "r" <= 1)%nat ∧ live_count engine_full "r" = 1%nat.
Proof.
  assert (reachable engine_full) as Hr.
  { eapply rtc_r; [|constructor]. eapply rtc_r; [|constructor]. exact engine_two_reachable. }
  split; [exact Hr|]. split; [exact (one_live_incident engine_full Hr "r")|by vm_compute].
Defined.

(** ** An engine that forgets nothing

    The specification keeps every alert a rule was given and looks at the window
    only to decide; the engine keeps the window. *)
Definition spec_rule (ev : alertEvent) (now : time) (uid : string) (r : CorrelationRule) (e : Engine) :
    Engine * option Incident :=
  if negb (eventMatchesRule ev r) then (e, None) else
  let hist := buffer e (ID r) ++ [ev] in
  let e := set_buffer e (ID r) hist in
  let win := in_window (now - TimeWindow r) hist in
  if zlen win <? MinEvents r then (e, None) else
  if hasOpenIncident e (ID r) then
    (appendAlertToIncident e (ID r) (AlertID ev) (AgentID ev) now, None)
  else
    let incident := createIncident uid r win now in
    (set_incidents e (incidents e ++ [incident]) (totalCorrelated e + zlen win), Some incident).

Fixpoint spec_rules (ev : alertEvent) (now : time) (uid : string) (rs : list CorrelationRule) (e : Engine) :
    Engine * option Incident :=
  match rs with
  | [] => (e, None)
  | r :: rs =>
      let '(e, o) := spec_rule ev now uid r e in
      match o with Some i => (e, Some i) | None => spec_rules ev now uid rs e end
  end.

Definition spec_handle (e : Engine) (a : alert) : Engine * option Incident :=
  spec_rules (alert_event a) (a_now a) (a_uid a) (rules e) e.

Fixpoint run (h : Engine → alert → Engine * option Incident) (e : Engine) (l : list alert) :
    Engine * list (option Incident) :=
  match l with
  | [] => (e, [])
  | a :: l =>
      let '(e, o) := h e a in
      let '(e, os) := run h e l in (e, o :: os)
  end.

(** The engine's buffer of a rule is the part of the specification's history after
    some cutoff the clock has passed. *)
Definition agree (last : time) (e s : Engine) (r : CorrelationRule) : Prop :=
  ∃ c, c <= last - TimeWindow r ∧ buffer e (ID r) = in_window c (buffer s (ID r)).

Definition sim (last : time) (rs : list CorrelationRule) (e s : Engine) : Prop :=
  rules e = rs ∧ rules s = rs ∧ incidents e = incidents s ∧
  totalCorrelated e = totalCorrelated s ∧ Forall (agree last e s) rs.

Lemma buffer_set e id id' b : buffer (set_buffer e id b) id' = if decide (id = id') then b else buffer e id'.
Proof.
  unfold buffer. simpl. destruct (decide (id = id')) as [->|].
  - by rewrite lookup_insert_eq.
  - by rewrite lookup_insert_ne.
Qed.

Lemma agree_later last last' e s r : last <= last' → agree last e s r → agree last' e s r.
Proof. intros Hl (c & Hc & Hb). exists c. split; [lia|done]. Qed.

(** The windows of the two engines are the same. *)
Lemma agree_window last now e s r ev : last <= now → agree last e s r →
  in_window (now - TimeWindow r) (buffer e (ID r) ++ [ev]) =
  in_window (now - TimeWindow r) (buffer s (ID r) ++ [ev]).
Proof.
  intros Hl (c & Hc & ->). rewrite !in_window_app, in_window_later; [done|lia].
Qed.

Lemma agree_set now e s r r' ev : NoDup (map ID (rules e)) → r ∈ rules e → r' ∈ rules e →
  agree now e s r' →
  agree now (set_buffer e (ID r) (in_window (now - TimeWindow r) (buffer s (ID r) ++ [ev])))
    (set_buffer s (ID r) (buffer s (ID r) ++ [ev])) r'.
Proof.
  intros Hnd Hr Hr' (c & Hc & Hb). unfold agree. rewrite !buffer_set.
  destruct (decide (ID r = ID r')) as [E|]; [|by exists c].
  assert (r = r') as <- by by eapply (NoDup_map_inj ID).
  exists (now - TimeWindow r). split; [lia|done].
Qed.

Lemma rule_sim last now ev uid rs r e s : NoDup (map ID rs) → last <= now → r ∈ rs →
  sim last rs e s →
  (process_rule ev now uid r e).2 = (spec_rule ev now uid r s).2 ∧
  sim now rs (process_rule ev now uid r e).1 (spec_rule ev now uid r s).1.
Proof.
  intros Hnd Hl Hr (He & Hs & Hi & Ht & Hag).
  assert (Forall (agree now e s) rs) as Hag'.
  { eapply Forall_impl; [exact Hag|]. intros r'. by apply agree_later. }
  unfold process_rule, spec_rule. destruct (eventMatchesRule ev r); cbn [negb]; [|done].
  rewrite Forall_forall in Hag. rewrite (agree_window last now e s r ev) by auto.
  set (hist := buffer s (ID r) ++ [ev]). set (win := in_window _ hist).
  assert (Forall (agree now (set_buffer e (ID r) win) (set_buffer s (ID r) hist)) rs) as Hset.
  { apply Forall_forall. intros r' Hr'. rewrite Forall_forall in Hag'.
    apply agree_set; rewrite ?He; auto. }
  destruct (zlen win <? MinEvents r); [done|].
  unfold appendAlertToIncident.
  assert (∀ x y, hasOpenIncident (set_buffer x (ID r) y) (ID r) = hasOpenIncident x (ID r)) as Ho
    by done.
  rewrite !Ho. assert (hasOpenIncident e (ID r) = hasOpenIncident s (ID r)) as ->
    by (unfold hasOpenIncident; by rewrite Hi).
  destruct (hasOpenIncident s (ID r)); cbn [fst snd]; (split; [done|]);
    unfold sim; simpl; rewrite ?Hi, ?Ht; done.
Qed.

Lemma rules_sim now ev uid rs : ∀ last sub e s, NoDup (map ID rs) → last <= now → sub ⊆ rs →
  sim last rs e s →
  (process_rules ev now uid sub e).2 = (spec_rules ev now uid sub s).2 ∧
  sim now rs (process_rules ev now uid sub e).1 (spec_rules ev now uid sub s).1.
Proof.
  intros last sub. revert last. induction sub as [|r sub IH]; intros last e s Hnd Hl Hsub Hsim.
  - split; [done|]. destruct Hsim as (? & ? & ? & ? & Hag). split_and!; try done.
    eapply Forall_impl; [exact Hag|]. intros r. by apply agree_later.
  - cbn [process_rules spec_rules].
    destruct (rule_sim last now ev uid rs r e s Hnd Hl ltac:(set_solver) Hsim) as [Ho Hs].
    destruct (process_rule ev now uid r e) as [e' o], (spec_rule ev now uid r s) as [s' o'].
    cbn [fst snd] in *. subst o'. destruct o; [done|].
    apply (IH now); [done|lia|set_solver|done].
Qed.

(** The clock readings of the alerts never go back. *)
Fixpoint clock_from (last : time) (l : list alert) : Prop :=
  match l with [] => True | a :: l => last <= a_now a ∧ clock_from (a_now a) l end.

Lemma run_sim rs l : ∀ last e s, NoDup (map ID rs) → clock_from last l → sim last rs e s →
  (run handle e l).2 = (run spec_handle s l).2 ∧
  incidents (run handle e l).1 = incidents (run spec_handle s l).1.
Proof.
  induction l as [|a l IH]; intros last e s Hnd Hc Hsim; [split; [done|apply Hsim]|].
  destruct Hc as [Hl Hc]. cbn [run].
  destruct (rules_sim (a_now a) (alert_event a) (a_uid a) rs last rs e s Hnd Hl ltac:(done) Hsim)
    as [Ho Hs].
  assert (handle e a = process_rules (alert_event a) (a_now a) (a_uid a) rs e) as ->.
  { destruct Hsim as (<- & _). done. }
  assert (spec_handle s a = spec_rules (alert_event a) (a_now a) (a_uid a) rs s) as ->.
  { destruct Hsim as (_ & <- & _). done. }
  destruct (process_rules _ _ _ _ e) as [e' o], (spec_rules _ _ _ _ s) as [s' o'].
  cbn [fst snd] in *. subst o'. destruct (IH (a_now a) e' s' Hnd Hc Hs) as [H1 H2].
  destruct (run handle e' l), (run spec_handle s' l). cbn [fst snd] in *. by rewrite H1.
Qed.

(** C4: the sliding windows lose nothing: whatever rules are loaded, on every
    sequence of alerts whose clock does not go back, the engine returns the
    incidents, and keeps the incident list, of an engine that never drops an
    alert and counts the ones in the window. *)
Theorem windows_lose_nothing (rs : list CorrelationRule) (start : time) (l : list alert) :
  clock_from start l →
  let e := foldl AddRule NewEngine rs in
  (run handle e l).2 = (run spec_handle e l).2 ∧
  incidents (run handle e l).1 = incidents (run spec_handle e l).1.
Proof.
  intros Hc e. apply (run_sim (rules e) l start); [by apply loaded_distinct; constructor|done|].
  split_and!; try done. apply Forall_forall. intros r _.
  assert (∀ id, buffer e id = []) as Hb.
  { intros id. subst e. assert (buffer NewEngine id = []) as H0 by (unfold buffer; simpl; by rewrite lookup_empty).
    revert H0. generalize NewEngine. induction rs as [|r' rs' IH]; intros e0 H0; [done|]. by apply IH. }
  exists (start - TimeWindow r). rewrite Hb. split; [lia|done].
Qed.

Lemma windows_lose_nothing_witness :
  let l := [encrypt_alert "a1" "h1" 0 "u1"; encrypt_alert "a2" "h2" (2 * minute) "u2";
            encrypt_alert "a3" "h2" (2 * minute + second) "u3"] in
  clock_from 0 l ∧
  (run handle (foldl AddRule NewEngine [two_rule]) l).2 =
  (run spec_handle (foldl AddRule NewEngine [two_rule]) l).2.
Proof.
  intros l. assert (clock_from 0 l) as Hc by (vm_compute; intuition congruence).
  split; [exact Hc|]. exact (proj1 (windows_lose_nothing [two_rule] 0 l Hc)).
Defined.

(** ** Classification *)
Lemma and_iff_compat_both (A B C D : Prop) : (A ↔ C) → (B ↔ D) → A ∧ B ↔ C ∧ D.
Proof. tauto. Qed.

Lemma elem_add_token set v x : x ∈ add_token set v ↔ x ∈ set ∨ (x = v ∧ v ≠ "").
Proof.
  unfold add_token. destruct (String.eqb_spec v "") as [->|Hv]; simpl; [naive_solver|].
  destruct (existsb _ _) eqn:E; [|set_solver].
  apply existsb_exists in E as (y & Hy & <-%String.eqb_eq).
  apply list_elem_of_In in Hy. set_solver.
Qed.

Lemma elem_add vals : ∀ set x, x ∈ add vals set ↔ x ∈ set ∨ (x ∈ vals ∧ x ≠ "").
Proof.
  unfold add. induction vals as [|v vals IH]; intros set x; cbn [foldl]; [set_solver|].
  rewrite IH, elem_add_token. set_solver.
Qed.

Lemma elem_when b l (x : string) : x ∈ when b l ↔ b = true ∧ x ∈ l.
Proof. destruct b; simpl; set_solver. Qed.

Lemma one_of_spec x l : one_of x l = true ↔ x ∈ l.
Proof.
  unfold one_of. rewrite existsb_exists. setoid_rewrite <- list_elem_of_In.
  setoid_rewrite String.eqb_eq. naive_solver.
Qed.

(** The tokens of the ransomware-outbreak rule. *)
Definition outbreak_tokens : list string :=
  ["file_encrypted"; "ransomware_detected"; "file_rename_bulk"; "ransom_note_created"].

Lemma not_in_tokens x l : existsb (λ y, existsb (String.eqb y) l) outbreak_tokens = false →
  x ∈ outbreak_tokens → x ∉ l.
Proof.
  intros He Hx Hl. apply not_true_iff_false in He. apply He.
  apply existsb_exists. exists x. split; [by apply list_elem_of_In|].
  apply existsb_exists. exists x. split; [by apply list_elem_of_In|]. by apply String.eqb_refl.
Qed.

(** The outbreak tokens of an alert: its base category names one, or the technique
    is an impact technique. *)
Lemma outbreak_token_iff base tech sev data x : x ∈ outbreak_tokens →
  x ∈ DeriveEventSubtypes base tech sev data ↔
  x = to_lower (trim_space base) ∨ base_technique tech ∈ impact_techniques.
Proof.
  intros Hx.
  assert (x ≠ "") as Hne by (intros ->; apply (not_in_tokens "" [""] eq_refl Hx); by left).
  unfold DeriveEventSubtypes. rewrite !elem_add, !elem_when.
  assert (∀ l, existsb (λ y, existsb (String.eqb y) l) outbreak_tokens = false → x ∉ l) as Hno
    by (intros l Hl; by apply not_in_tokens).
  assert (x ∉ auth_tokens data) by (unfold auth_tokens; repeat case_match; by apply Hno).
  assert (x ∉ persistence_tokens (base_technique tech))
    by (unfold persistence_tokens; repeat case_match; by apply Hno).
  pose proof (Hno ["auth_failure"; "failed_login"] eq_refl).
  pose proof (Hno ["credential_dump"; "lsass_access"; "mimikatz_detected"] eq_refl).
  pose proof (Hno ["credential_dump"; "lsass_access"] eq_refl).
  pose proof (Hno ["registry_modified"] eq_refl).
  pose proof (Hno ["network_connection"; "outbound_connection"] eq_refl).
  pose proof (Hno ["dns_query"] eq_refl). pose proof (Hno ["network_connection"] eq_refl).
  rewrite one_of_spec with (l := impact_techniques).
  change ["file_encrypted"; "ransomware_detected"; "file_rename_bulk"; "ransom_note_created"]
    with outbreak_tokens.
  rewrite list_elem_of_singleton. pose proof (not_elem_of_nil x). tauto.
Qed.

Lemma subtypes_lower base tech sev data x :
  x ∈ DeriveEventSubtypes base tech sev data → to_lower x = x.
Proof.
  unfold DeriveEventSubtypes. rewrite !elem_add, !elem_when.
  assert (∀ l : list string, forallb (λ y, String.eqb (to_lower y) y) l = true → x ∈ l → to_lower x = x)
    as Hl.
  { intros l Hl Hx. rewrite List.forallb_forall in Hl. apply list_elem_of_In in Hx.
    by apply String.eqb_eq, Hl. }
  assert (x ∈ auth_tokens data → to_lower x = x) by (unfold auth_tokens; repeat case_match; by apply Hl).
  assert (x ∈ persistence_tokens (base_technique tech) → to_lower x = x)
    by (unfold persistence_tokens; repeat case_match; by apply Hl).
  assert (x ∈ [to_lower (trim_space base)] → to_lower x = x)
    by (intros ->%list_elem_of_singleton; apply to_lower_idem).
  pose proof (not_elem_of_nil x).
  intuition eauto; (eapply Hl; [|eassumption]; reflexivity).
Qed.

Lemma digits_go_head fuel n acc : 0 <= n → (fuel ≠ O ∨ starts_with_digit acc = true) →
  starts_with_digit (digits_go fuel n acc) = true.
Proof.
  revert n acc. induction fuel as [|fuel IH]; intros n acc Hn [Hf|Ha]; cbn [digits_go]; try done;
    destruct (digit_char (n mod 10)) as [Hd _]; try (apply Z.mod_pos_bound; lia);
    (destruct (n <? 10); [done|apply IH; [apply Z.div_pos; lia|by right]]).
Qed.

(** [Sscanf("%d")] reads back what [Sprintf("%d")] writes. *)
Lemma sscanf_itoa n : is_i64 n → sscanf_d (itoa n) = n.
Proof.
  unfold is_i64. intros Hn.
  assert (∀ s, starts_with_digit s = true → scan_blank s = Some s ∧ scan_sign s = (false, s)) as Hs.
  { intros [|[[] [] [] [] [] [] [] []] s]; done. }
  assert (∀ m, 0 <= m → starts_with_digit (itoa m) = true ∧ (scan_digits (itoa m) 0).1 = m) as Hm.
  { intros m Hm. split.
    - unfold itoa. destruct (Z.ltb_spec m 0); [lia|]. apply digits_go_head; [done|by left].
    - rewrite <- (append_nil_r (itoa m)), scan_itoa; done. }
  unfold sscanf_d. destruct (Z.lt_ge_cases n 0) as [Hneg|Hpos].
  - assert (itoa n = String "-" (itoa (- n))) as ->.
    { unfold itoa. destruct (Z.ltb_spec n 0), (Z.ltb_spec (- n) 0); try lia. done. }
    destruct (Hm (- n)) as [Hd Hv]; [lia|].
    change (scan_blank (String "-" (itoa (- n)))) with (Some (String "-" (itoa (- n)))).
    cbn [scan_sign]. change (Ascii.eqb "-" "-") with true. cbn match. rewrite Hd, Hv.
    destruct (Z.leb_spec (- 2 ^ 63) (- - n)), (Z.ltb_spec (- - n) (2 ^ 63)); simpl; lia.
  - destruct (Hm n) as [Hd Hv]; [lia|]. destruct (Hs _ Hd) as [-> ->]. rewrite Hd, Hv.
    destruct (Z.leb_spec (- 2 ^ 63) n), (Z.ltb_spec n (2 ^ 63)); simpl; lia.
Qed.

Definition outbreak_rule (r : CorrelationRule) : Prop :=
  List.find (λ r, String.eqb (ID r) "corr-003-ransomware-outbreak") BuiltinRules = Some r.

(** Only an impact technique counts towards the built-in ransomware-outbreak
    incident: an alert whose base category is not itself one of the rule's tokens
    matches the rule exactly when its technique, without the sub-technique, is one
    of the encryption and destruction techniques and its severity is 8 or more.  No
    file, process or other alert is taken for ransomware because of its category or
    its data. *)
Theorem outbreak_needs_impact (r : CorrelationRule) (a : alert) :
  outbreak_rule r → is_i64 (a_severity a) →
  to_lower (a_type a) ∉ outbreak_tokens → to_lower (trim_space (a_type a)) ∉ outbreak_tokens →
  eventMatchesRule (alert_event a) r = true ↔
  base_technique (a_tech a) ∈ impact_techniques ∧ 8 <= a_severity a.
Proof.
  intros Hr Hsev Hraw Hbase. vm_compute in Hr. injection Hr as <-.
  unfold eventMatchesRule. cbn [EventTypes Conditions].
  rewrite andb_true_iff. apply and_iff_compat_both.
  - rewrite existsb_exists. split.
    + intros (et & Het%list_elem_of_In & Hm). change (et ∈ outbreak_tokens) in Het.
      assert (to_lower et = et) as Hlow.
      { revert Het. unfold outbreak_tokens. rewrite !elem_of_cons, elem_of_nil.
        intros [->|[->|[->|[->|[]]]]]; done. }
      apply orb_true_iff in Hm as [Hm|Hm].
      * apply equal_fold_spec in Hm. rewrite Hlow in Hm. simpl in Hm. by rewrite <- Hm in Hraw.
      * apply existsb_exists in Hm as (v & Hv%list_elem_of_In & E%equal_fold_spec).
        rewrite Hlow in E. simpl in Hv. rewrite (subtypes_lower _ _ _ _ _ Hv) in E. subst v.
        apply outbreak_token_iff in Hv as [->|Hv]; done.
    + intros Himp. exists "file_encrypted". split; [by left|]. apply orb_true_iff. right.
      apply existsb_exists. exists "file_encrypted". split; [|apply equal_fold_refl].
      apply list_elem_of_In. simpl. apply outbreak_token_iff; [by left|by right].
  - cbn [forallb]. rewrite andb_true_r. unfold evalCondition. cbn [Field Operator Value].
    change (String.eqb "severity" "event_type") with false.
    change (String.eqb "severity" "agent_id") with false.
    change (String.eqb "severity" "severity") with true. cbn match.
    unfold matchOp. change (String.eqb "gte" "eq") with false.
    change (String.eqb "gte" "contains") with false. change (String.eqb "gte" "gte") with true.
    cbn match. change (sscanf_d "8") with 8. simpl. rewrite sscanf_itoa by done. apply Z.leb_le.
Qed.

Definition sample_alert : alert := Alert "a" "h" " File " " t1486.001 " 9 [] 0 0 "u".

Lemma outbreak_needs_impact_witness :
  ∃ r, outbreak_rule r ∧ eventMatchesRule (alert_event sample_alert) r = true.
Proof.
  destruct (List.find (λ r, String.eqb (ID r) "corr-003-ransomware-outbreak") BuiltinRules)
    as [r|] eqn:Hr; [|vm_compute in Hr; discriminate].
  exists r. split; [exact Hr|].
  apply (outbreak_needs_impact r sample_alert Hr).
  - unfold is_i64; simpl; lia.
  - apply (bool_decide_unpack _). vm_compute. exact I.
  - apply (bool_decide_unpack _). vm_compute. exact I.
  - split; [|simpl; lia]. apply (bool_decide_unpack _). vm_compute. exact I.
Defined.

(** ** What the rules do not ask

    The built-in rules speak of several agents; the engine counts alerts. *)
Definition builtin_engine : Engine := LoadBuiltins NewEngine.

Definition one_host (n : Z) : alert :=
  Alert (itoa n) "host-1" "file" "T1486" 9 [] (n * second) (n * second) ("inc-" +:+ itoa n).

(** Five encryption alerts of one host are an outbreak. *)
Lemma outbreak_on_one_agent :
  omap (λ o, i ← o; Some (RuleID i, AgentIDs i))
    (run handle builtin_engine (map one_host [1; 2; 3; 4; 5])).2 =
  [("corr-003-ransomware-outbreak", ["host-1"])].
Proof. by vm_compute. Qed.

(** The alert that opens an incident is not shown to the rules after it: with two
    rules that both want every alert, the second one needs one alert more. *)
Definition other_rule : CorrelationRule :=
  {| ID := "s"; Name := "same"; Description := ""; EventTypes := ["file_encrypted"];
     Conditions := []; TimeWindow := minute; MinEvents := 2; Severity := 9;
     MITRETactic := "Impact"; MITRETech := "T1486" |}.

Lemma creation_hides_the_alert :
  map (λ o, RuleID <$> o)
    (run handle (AddRule (AddRule NewEngine two_rule) other_rule)
       [encrypt_alert "a1" "h" 0 "u1"; encrypt_alert "a2" "h" second "u2";
        encrypt_alert "a3" "h" (2 * second) "u3"]).2 =
  [None; Some "r"; Some "s"].
Proof. by vm_compute. Qed.
