(* ===== verification/Files.v ===== *)
(** * Files

    The part of a file system that the agent's supervisor and its spools use: a
    file is its contents at a path, and the operations of Go's [os] package that
    the code calls.  Every operation takes a flag that says whether the operating
    system refuses it ([denied]); a refused operation changes nothing. *)

From Stdlib Require Import Ascii.
From S2P Require Import Prelude GoStrings.

#[local] Open Scope string_scope.
#[local] Open Scope list_scope.
#[local] Open Scope Z_scope.

Abbreviation fs := (gmap string string) (only parsing).

Inductive ferr : Type := NotExist | Denied.

(** The outcome of an operation on the file system. *)
Inductive fres (A : Type) : Type :=
| FOk (a : A)
| FErr (e : ferr).
Arguments FOk {A} a.
Arguments FErr {A} e.

(** [os.IsNotExist]. *)
Definition is_not_exist {A} (r : fres A) : bool :=
  match r with FErr NotExist => true | _ => false end.

Definition read_file (denied : bool) (f : fs) (p : string) : fres string :=
  if denied then FErr Denied else
  match f !! p with Some c => FOk c | None => FErr NotExist end.

(** [os.WriteFile]: the file is created or truncated. *)
Definition write_file (denied : bool) (f : fs) (p c : string) : fres fs :=
  if denied then FErr Denied else FOk (<[p := c]> f).

(** [os.Rename]: the target is replaced. *)
Definition rename (denied : bool) (f : fs) (a b : string) : fres fs :=
  if denied then FErr Denied else
  match f !! a with
  | Some c => FOk (<[b := c]> (delete a f))
  | None => FErr NotExist
  end.

(** [os.Remove]. *)
Definition remove (denied : bool) (f : fs) (p : string) : fres fs :=
  if denied then FErr Denied else
  match f !! p with Some _ => FOk (delete p f) | None => FErr NotExist end.

(** A best-effort operation: the file system afterwards. *)
Definition after (f : fs) (r : fres fs) : fs :=
  match r with FOk f' => f' | FErr _ => f end.

(** ** Paths: [filepath.Dir], [filepath.Join], [filepath.Ext] on clean paths *)
Fixpoint dir_go (s : string) : option string :=
  match s with
  | EmptyString => None
  | String c s' =>
      match dir_go s' with
      | Some d => Some (String c d)
      | None => if Ascii.eqb c "/"%char then Some EmptyString else None
      end
  end.

Definition dir (p : string) : string :=
  match dir_go p with
  | None => "."
  | Some d => if String.eqb d "" then "/" else d
  end.

Definition path_join (d n : string) : string :=
  if String.eqb d "." then n else if String.eqb d "/" then "/" +:+ n else d +:+ "/" +:+ n.

(** The extension of the last element, from its last dot. *)
Fixpoint ext (p : string) : string :=
  match p with
  | EmptyString => EmptyString
  | String c p' =>
      if contains_char (λ c, Ascii.eqb c "."%char || Ascii.eqb c "/"%char || Ascii.eqb c "\"%char) p' then ext p'
      else if Ascii.eqb c "."%char then p else EmptyString
  end.

Example path_examples :
  dir "/usr/local/bin/edr-agent" = "/usr/local/bin" ∧ dir "agent" = "." ∧ dir "/agent" = "/" ∧
  path_join "/etc/edr" "x" = "/etc/edr/x" ∧ path_join "." "x" = "x" ∧
  ext "edr-agent.exe" = ".exe" ∧ ext "a.b/c" = "" ∧ ext "a.b.c" = ".c".
Proof. by vm_compute. Qed.
