(* ===== verification/Tamper.v ===== *)
(** * Self-protection findings: agent/internal/tamper

    [payload.go] (the findings), [monitor.go] (the integrity monitor: the baseline
    of hashes and what one pass reports) and [spool.go] (the bounded JSON-Lines
    file through which the watchdog hands findings to the agent).  The file system
    is [Files.v]; the JSON codec and SHA-256 are parameters.  Theorems are in
    [TamperProofs.v]. *)

From Stdlib Require Import Ascii.
From S2P Require Import Prelude GoStrings Files.

#[local] Open Scope string_scope.
#[local] Open Scope list_scope.
#[local] Open Scope Z_scope.

(** ** Findings *)
Definition TypeAgentKilled : string := "agent_killed".
Definition TypeAgentExited : string := "agent_exited".
Definition TypeBinaryModified : string := "binary_modified".
Definition TypeConfigModified : string := "config_modified".
Definition TypeWatchdogMissing : string := "watchdog_missing".
Definition TypeKillAttempt : string := "kill_attempt".
Definition TypeHandleOpenAttempt : string := "handle_open_attempt".

Definition ComponentAgent : string := "edr-agent".
Definition ComponentWatchdog : string := "edr-watchdog".
Definition ComponentConfig : string := "config".
Definition ComponentBinary : string := "binary".

Record Payload : Type := {
  TamperType : string; Component : string; Enforced : bool;
  Path : string; TargetPID : Z; SourcePID : Z; SourceImage : string; Username : string;
  Signal : Z; AccessMask : string; ExitCode : Z;
  ExpectedHash : string; ActualHash : string; Reason : string }.

Definition New (tamperType component : string) (enforced : bool) : Payload :=
  {| TamperType := tamperType; Component := component; Enforced := enforced;
     Path := ""; TargetPID := 0; SourcePID := 0; SourceImage := ""; Username := "";
     Signal := 0; AccessMask := ""; ExitCode := 0;
     ExpectedHash := ""; ActualHash := ""; Reason := "" |}.

Definition WithPath (path : string) (p : Payload) : Payload :=
  {| TamperType := TamperType p; Component := Component p; Enforced := Enforced p;
     Path := path; TargetPID := TargetPID p; SourcePID := SourcePID p;
     SourceImage := SourceImage p; Username := Username p; Signal := Signal p;
     AccessMask := AccessMask p; ExitCode := ExitCode p; ExpectedHash := ExpectedHash p;
     ActualHash := ActualHash p; Reason := Reason p |}.

Definition WithTarget (pid : Z) (p : Payload) : Payload :=
  {| TamperType := TamperType p; Component := Component p; Enforced := Enforced p;
     Path := Path p; TargetPID := pid; SourcePID := SourcePID p;
     SourceImage := SourceImage p; Username := Username p; Signal := Signal p;
     AccessMask := AccessMask p; ExitCode := ExitCode p; ExpectedHash := ExpectedHash p;
     ActualHash := ActualHash p; Reason := Reason p |}.

Definition WithSource (pid : Z) (image username : string) (p : Payload) : Payload :=
  {| TamperType := TamperType p; Component := Component p; Enforced := Enforced p;
     Path := Path p; TargetPID := TargetPID p; SourcePID := pid;
     SourceImage := image; Username := username; Signal := Signal p;
     AccessMask := AccessMask p; ExitCode := ExitCode p; ExpectedHash := ExpectedHash p;
     ActualHash := ActualHash p; Reason := Reason p |}.

Definition WithSignal (sig : Z) (p : Payload) : Payload :=
  {| TamperType := TamperType p; Component := Component p; Enforced := Enforced p;
     Path := Path p; TargetPID := TargetPID p; SourcePID := SourcePID p;
     SourceImage := SourceImage p; Username := Username p; Signal := sig;
     AccessMask := AccessMask p; ExitCode := ExitCode p; ExpectedHash := ExpectedHash p;
     ActualHash := ActualHash p; Reason := Reason p |}.

Definition WithExitCode (code : Z) (p : Payload) : Payload :=
  {| TamperType := TamperType p; Component := Component p; Enforced := Enforced p;
     Path := Path p; TargetPID := TargetPID p; SourcePID := SourcePID p;
     SourceImage := SourceImage p; Username := Username p; Signal := Signal p;
     AccessMask := AccessMask p; ExitCode := code; ExpectedHash := ExpectedHash p;
     ActualHash := ActualHash p; Reason := Reason p |}.

Definition WithAccessMask (mask : string) (p : Payload) : Payload :=
  {| TamperType := TamperType p; Component := Component p; Enforced := Enforced p;
     Path := Path p; TargetPID := TargetPID p; SourcePID := SourcePID p;
     SourceImage := SourceImage p; Username := Username p; Signal := Signal p;
     AccessMask := mask; ExitCode := ExitCode p; ExpectedHash := ExpectedHash p;
     ActualHash := ActualHash p; Reason := Reason p |}.

Definition WithHashes (expected actual : string) (p : Payload) : Payload :=
  {| TamperType := TamperType p; Component := Component p; Enforced := Enforced p;
     Path := Path p; TargetPID := TargetPID p; SourcePID := SourcePID p;
     SourceImage := SourceImage p; Username := Username p; Signal := Signal p;
     AccessMask := AccessMask p; ExitCode := ExitCode p; ExpectedHash := expected;
     ActualHash := actual; Reason := Reason p |}.

Definition WithExpectedOnly (expected : string) (p : Payload) : Payload :=
  WithHashes expected (ActualHash p) p.

Definition WithReason (reason : string) (p : Payload) : Payload :=
  {| TamperType := TamperType p; Component := Component p; Enforced := Enforced p;
     Path := Path p; TargetPID := TargetPID p; SourcePID := SourcePID p;
     SourceImage := SourceImage p; Username := Username p; Signal := Signal p;
     AccessMask := AccessMask p; ExitCode := ExitCode p; ExpectedHash := ExpectedHash p;
     ActualHash := ActualHash p; Reason := reason |}.

(** ** The spool *)
Definition SpoolFileName : string := "tamper-spool.jsonl".
Definition maxSpoolEntries : Z := 200.
Definition maxSpoolBytes : Z := 256 * 1024.
Definition drainingSuffix : string := ".draining".

Definition newline : ascii := chr 10.

Definition nonempty (l : list string) : list string :=
  List.filter (λ s, negb (String.eqb s "")) l.

(** [bufio.Scanner] over lines with a buffer of [maxSpoolBytes]: a line that does
    not fit stops the scan with an error. *)
Definition scan_lines (content : string) : option (list string) :=
  let lines := split_on newline content in
  if existsb (λ l, maxSpoolBytes <=? slen l) lines then None else Some lines.

(** The trimmed, non-empty lines of a file; none when the file does not exist. *)
Definition readLines (denied : bool) (f : fs) (path : string) : res (list string) :=
  match read_file denied f path with
  | FErr NotExist => Ok []
  | FErr Denied => Err "read"
  | FOk content =>
      match scan_lines content with
      | Some lines => Ok (nonempty (map trim_space lines))
      | None => Err "scan"
      end
  end.

Definition spool_size (lines : list string) : Z := sum_Z (map (λ l, slen l + 1) lines).

(** The byte cap: lines go from the front while the total is over it and more than
    one is left. *)
Fixpoint drop_bytes (total : Z) (lines : list string) : list string :=
  match lines with
  | l :: (_ :: _) as rest =>
      if maxSpoolBytes <? total then drop_bytes (total - (slen l + 1)) rest else lines
  | _ => lines
  end.

Definition evictOldest (lines : list string) : list string :=
  let lines :=
    if maxSpoolEntries <? zlen lines then drop (length lines - Z.to_nat maxSpoolEntries) lines
    else lines in
  drop_bytes (spool_size lines) lines.

(** Which operations the operating system refuses during one call. *)
Record spool_io : Type := {
  deny_mkdir : bool; deny_read : bool; deny_write : bool; deny_rename : bool; deny_remove : bool }.

Section spool.
(** [json.Marshal] and [json.Unmarshal] of a finding. *)
Context (marshal : Payload → string) (unmarshal : string → option Payload).

Definition Append (io : spool_io) (f : fs) (dataDir : string) (p : Payload) : fs * res unit :=
  if String.eqb dataDir "" then (f, Err "no directory") else
  let line := marshal p in
  if contains_char (Ascii.eqb newline) line then (f, Err "newline in payload") else
  let path := path_join dataDir SpoolFileName in
  if deny_mkdir io then (f, Err "mkdir") else
  match readLines (deny_read io) f path with
  | Err e => (f, Err e)
  | Ok existing =>
      let existing := evictOldest (existing ++ [line]) in
      let tmp := path +:+ ".tmp" in
      let nl := String newline EmptyString in
      match write_file (deny_write io) f tmp (join nl existing +:+ nl) with
      | FErr _ => (f, Err "write")
      | FOk f =>
          match rename (deny_rename io) f tmp path with
          | FErr _ => (after f (remove (deny_remove io) f tmp), Err "rename")
          | FOk f => (f, Ok tt)
          end
      end
  end.

(** The findings of a drain, the number of lines it skipped, and its error. *)
Record drained : Type := { found : list Payload; skipped : Z; drain_err : option string }.

Fixpoint parse_lines (lines : list string) : list Payload * Z :=
  match lines with
  | [] => ([], 0)
  | line :: lines =>
      let '(ps, n) := parse_lines lines in
      match unmarshal line with
      | None => (ps, n + 1)
      | Some p => if String.eqb (TamperType p) "" then (ps, n + 1) else (p :: ps, n)
      end
  end.

Definition Drain (io : spool_io) (f : fs) (dataDir : string) : fs * drained :=
  if String.eqb dataDir "" then (f, {| found := []; skipped := 0; drain_err := None |}) else
  let path := path_join dataDir SpoolFileName in
  match f !! path with
  | None => (f, {| found := []; skipped := 0; drain_err := None |})
  | Some _ =>
      let staging := path +:+ drainingSuffix in
      match rename (deny_rename io) f path staging with
      | FErr _ => (f, {| found := []; skipped := 0; drain_err := Some "rename" |})
      | FOk f =>
          match readLines (deny_read io) f staging with
          | Err e => (f, {| found := []; skipped := 0; drain_err := Some e |})
          | Ok lines =>
              let '(ps, n) := parse_lines lines in
              match remove (deny_remove io) f staging with
              | FErr Denied => (f, {| found := ps; skipped := n; drain_err := Some "remove" |})
              | FErr NotExist => (f, {| found := ps; skipped := n; drain_err := None |})
              | FOk f => (f, {| found := ps; skipped := n; drain_err := None |})
              end
          end
      end
  end.

End spool.

(** ** The integrity monitor *)
Record watched : Type := Watched { w_path : string; w_component : string; w_type : string }.

Record Monitor : Type := {
  interval : duration; files : list watched; watchdogPID : Z;
  baseline : gmap string string; reported : gset string }.

Definition DefaultInterval : duration := 5 * minute.

Definition NewMonitor : Monitor :=
  {| interval := DefaultInterval; files := []; watchdogPID := 0; baseline := ∅; reported := ∅ |}.

Definition SetInterval (m : Monitor) (d : duration) : Monitor :=
  {| interval := if 0 <? d then d else interval m; files := files m;
     watchdogPID := watchdogPID m; baseline := baseline m; reported := reported m |}.

Definition watch_file (m : Monitor) (w : watched) : Monitor :=
  if String.eqb (w_path w) "" then m else
  {| interval := interval m; files := files m ++ [w]; watchdogPID := watchdogPID m;
     baseline := baseline m; reported := reported m |}.

Definition WatchBinary (m : Monitor) (path : string) : Monitor :=
  watch_file m (Watched path ComponentBinary TypeBinaryModified).
Definition WatchConfig (m : Monitor) (path : string) : Monitor :=
  watch_file m (Watched path ComponentConfig TypeConfigModified).

Definition WatchWatchdog (m : Monitor) (pid : Z) : Monitor :=
  {| interval := interval m; files := files m;
     watchdogPID := if 0 <? pid then pid else watchdogPID m;
     baseline := baseline m; reported := reported m |}.

Definition set_baseline (m : Monitor) (b : gmap string string) : Monitor :=
  {| interval := interval m; files := files m; watchdogPID := watchdogPID m;
     baseline := b; reported := reported m |}.
Definition set_reported (m : Monitor) (r : gset string) : Monitor :=
  {| interval := interval m; files := files m; watchdogPID := watchdogPID m;
     baseline := baseline m; reported := r |}.

(** [parsePID]: decimal digits only; 0 for anything else and beyond 2^31. *)
Fixpoint parsePID_go (s : string) (pid : Z) : Z :=
  match s with
  | EmptyString => pid
  | String c s' =>
      if is_digit c then
        let pid := pid * 10 + digit_value c in
        if 2 ^ 31 <? pid then 0 else parsePID_go s' pid
      else 0
  end.
Definition parsePID (s : string) : Z := parsePID_go s 0.

Section monitor.
(** SHA-256 of a file's contents, in hexadecimal, and the operating system's
    answer whether a process is alive. *)
Context (sha256hex : string → string) (processAlive : Z → bool).

(** [hashFile]: nothing when the file cannot be read ([unreadable] says which
    files the operating system refuses). *)
Definition hashFile (unreadable : string → bool) (f : fs) (path : string) : option string :=
  match read_file (unreadable path) f path with
  | FOk c => Some (sha256hex c)
  | FErr _ => None
  end.

Fixpoint baseline_go (unreadable : string → bool) (f : fs) (ws : list watched) (b : gmap string string) : gmap string string :=
  match ws with
  | [] => b
  | w :: ws =>
      baseline_go unreadable f ws
        (match hashFile unreadable f (w_path w) with
         | Some sum => <[w_path w := sum]> b
         | None => b
         end)
  end.

Definition takeBaseline (unreadable : string → bool) (f : fs) (m : Monitor) : Monitor :=
  set_baseline m (baseline_go unreadable f (files m) (baseline m)).

(** [emitOnce]: the monitor and what it hands to [report]. *)
Definition emitOnce (key : string) (p : Payload) (m : Monitor) : Monitor * list Payload :=
  if decide (key ∈ reported m) then (m, []) else
  (set_reported m ({[key]} ∪ reported m), [p]).

Definition file_key (w : watched) : string := w_type w +:+ ":" +:+ w_path w.

(** The finding of one file in one pass, when there is one. *)
Definition check_file (unreadable : string → bool) (f : fs) (b : gmap string string) (w : watched) : option Payload :=
  match b !! w_path w with
  | None => None
  | Some want =>
      match hashFile unreadable f (w_path w) with
      | None => Some (WithReason "監視対象のファイルを読み取れなくなりました（削除または権限変更の可能性）" (WithExpectedOnly want
                        (WithPath (w_path w) (New (w_type w) (w_component w) false))))
      | Some got =>
          if String.eqb got want then None
          else Some (WithReason "実行中に監視対象のファイルが変更されました" (WithHashes want got
                       (WithPath (w_path w) (New (w_type w) (w_component w) false))))
      end
  end.

Fixpoint check_files (unreadable : string → bool) (f : fs) (ws : list watched) (m : Monitor) : Monitor * list Payload :=
  match ws with
  | [] => (m, [])
  | w :: ws =>
      let '(m, out) :=
        match check_file unreadable f (baseline m) w with
        | Some p => emitOnce (file_key w) p m
        | None => (m, [])
        end in
      let '(m, out') := check_files unreadable f ws m in (m, out ++ out')
  end.

Definition checkOnce (unreadable : string → bool) (f : fs) (m : Monitor) : Monitor * list Payload :=
  let '(m, out) := check_files unreadable f (files m) m in
  if (0 <? watchdogPID m) && negb (processAlive (watchdogPID m)) then
    let '(m, out') :=
      emitOnce TypeWatchdogMissing
        (WithReason "エージェントを監視しているウォッチドッグのプロセスが消滅しました" (WithTarget (watchdogPID m)
           (New TypeWatchdogMissing ComponentWatchdog false))) m in
    (m, out ++ out')
  else (m, out).

End monitor.
