(* ===== verification/TamperProofs.v ===== *)
(** * Self-protection findings: theorems

    What goes through the spool comes out of it, the spool stays within its caps
    and keeps the newest finding, and a pass of the integrity monitor reports
    exactly the changes it has not reported before. *)

From Stdlib Require Import Ascii.
From S2P Require Import Prelude GoStrings Files Tamper.

#[local] Open Scope string_scope.
#[local] Open Scope list_scope.
#[local] Open Scope Z_scope.

(** ** Lines *)
Definition nl : string := String newline EmptyString.
Definition no_newline (s : string) : bool := negb (contains_char (Ascii.eqb newline) s).

Lemma no_newline_cons c s :
  no_newline (String c s) = true → Ascii.eqb newline c = false ∧ no_newline s = true.
Proof. unfold no_newline. simpl. rewrite negb_orb, andb_true_iff, negb_true_iff. done. Qed.

Lemma split_go_line s rest cur : no_newline s = true →
  split_go newline (s +:+ nl +:+ rest) cur = (cur +:+ s) :: split_go newline rest "".
Proof.
  revert cur. induction s as [|c s IH]; intros cur Hs.
  - by rewrite append_nil_r.
  - apply no_newline_cons in Hs as [Hc Hs]. cbn [String.append split_go].
    rewrite Ascii.eqb_sym, Hc, IH by done. unfold snoc. by rewrite <- append_assoc.
Qed.

(** The text of a spool file with the given lines. *)
Definition render (lines : list string) : string := join nl lines +:+ nl.

Lemma render_cons l l' lines : render (l :: l' :: lines) = l +:+ nl +:+ render (l' :: lines).
Proof. unfold render. cbn [join]. by rewrite <- !append_assoc. Qed.

Lemma split_render lines : lines ≠ [] → Forall (λ l, no_newline l = true) lines →
  split_on newline (render lines) = lines ++ [""].
Proof.
  unfold split_on. intros Hne Hl. induction Hl as [|l lines Hl Hls IH]; [done|].
  destruct lines as [|l' lines].
  - unfold render. cbn [join]. rewrite <- (append_nil_r nl) at 1.
    by rewrite split_go_line.
  - rewrite render_cons, split_go_line by done. by rewrite IH.
Qed.

(** A line a reader gets back as it was written. *)
Definition line_ok (l : string) : Prop :=
  no_newline l = true ∧ trim_space l = l ∧ l ≠ "" ∧ slen l < maxSpoolBytes.

Lemma read_render denied f path lines : denied = false → lines ≠ [] → Forall line_ok lines →
  f !! path = Some (render lines) → readLines denied f path = Ok lines.
Proof.
  intros -> Hne Hl Hf. unfold readLines, read_file. rewrite Hf. unfold scan_lines.
  rewrite split_render; [|done|eapply Forall_impl; [exact Hl|]; by intros l (? & _)].
  assert (existsb (λ l, maxSpoolBytes <=? slen l) (lines ++ [""]) = false) as ->.
  { rewrite existsb_app. apply orb_false_iff. split; [|done].
    apply not_true_iff_false. intros (l & Hin%list_elem_of_In & Hb%Z.leb_le)%existsb_exists.
    rewrite Forall_forall in Hl. destruct (Hl l Hin) as (_ & _ & _ & ?). lia. }
  f_equal. rewrite map_app. unfold nonempty. rewrite List.filter_app. simpl. rewrite app_nil_r.
  clear Hne Hf. induction Hl as [|l lines (_ & Ht & Hn & _) _ IH]; [done|].
  simpl. rewrite Ht, IH. by destruct (String.eqb_spec l "").
Qed.

(** ** Eviction *)
Lemma spool_size_cons l lines : spool_size (l :: lines) = slen l + 1 + spool_size lines.
Proof. done. Qed.

Lemma spool_size_nonneg lines : 0 <= spool_size lines.
Proof.
  apply sum_Z_nonneg, Forall_forall. intros x (l & -> & _)%list_elem_of_fmap. unfold slen. lia.
Qed.

Lemma drop_bytes_cons total l l' lines :
  drop_bytes total (l :: l' :: lines) =
  if maxSpoolBytes <? total then drop_bytes (total - (slen l + 1)) (l' :: lines)
  else l :: l' :: lines.
Proof. done. Qed.

(** The byte cap drops a prefix, never the last line, and no more than it must. *)
Lemma drop_bytes_spec lines : ∃ k,
  drop_bytes (spool_size lines) lines = drop k lines ∧ (k < length lines ∨ lines = [])%nat ∧
  (spool_size (drop k lines) <= maxSpoolBytes ∨ length (drop k lines) = 1%nat ∨ lines = []) ∧
  (spool_size lines <= maxSpoolBytes → k = 0%nat).
Proof.
  induction lines as [|l [|l' lines] IH].
  - exists 0%nat. split_and!; auto.
  - exists 0%nat. split_and!; auto; try (left; simpl; lia).
  - rewrite drop_bytes_cons. destruct (Z.ltb_spec maxSpoolBytes (spool_size (l :: l' :: lines))) as [Hgt|Hle].
    + rewrite spool_size_cons. replace (slen l + 1 + spool_size (l' :: lines) - (slen l + 1))
        with (spool_size (l' :: lines)) by lia.
      destruct IH as (k & -> & Hk & Hs & _). exists (S k). split_and!; [done| | |].
      * left. destruct Hk; [simpl in *; lia|done].
      * destruct Hs as [?|[?|?]]; [by left|right; by left|done].
      * rewrite spool_size_cons in Hgt. lia.
    + exists 0%nat. split_and!; auto; try (left; simpl; lia).
Qed.

Lemma evict_spec lines : ∃ k,
  evictOldest lines = drop k lines ∧ (k < length lines ∨ lines = [])%nat ∧
  zlen (evictOldest lines) <= maxSpoolEntries ∧
  (spool_size (evictOldest lines) <= maxSpoolBytes ∨ length (evictOldest lines) = 1%nat) ∧
  (zlen lines <= maxSpoolEntries → spool_size lines <= maxSpoolBytes → k = 0%nat).
Proof.
  unfold evictOldest.
  set (j := if maxSpoolEntries <? zlen lines then (length lines - Z.to_nat maxSpoolEntries)%nat else 0%nat).
  assert ((if maxSpoolEntries <? zlen lines then drop (length lines - Z.to_nat maxSpoolEntries) lines
           else lines) = drop j lines) as -> by (unfold j; by case_match).
  assert (zlen (drop j lines) <= maxSpoolEntries ∧ (j < length lines ∨ lines = [])%nat ∧
          (zlen lines <= maxSpoolEntries → j = 0%nat)) as (Hlen & Hj & Hj0).
  { unfold zlen, j, maxSpoolEntries in *. rewrite length_drop. unfold zlen.
    destruct (Z.ltb_spec 200 (Z.of_nat (length lines))).
    - split_and!; [lia|left; lia|lia].
    - split_and!; [lia|destruct lines; [by right|left; simpl; lia]|done]. }
  destruct (drop_bytes_spec (drop j lines)) as (k & Hd & Hk & Hs & Hk0). rewrite Hd.
  exists (j + k)%nat. rewrite drop_drop in *. rewrite length_drop in Hk.
  assert (drop j lines = [] → lines = []) as Hnil.
  { intros E. apply (f_equal length) in E. rewrite length_drop in E. simpl in E.
    destruct Hj as [Hj|Hj]; [lia|done]. }
  split_and!; [done| | | |].
  - destruct Hj as [Hj|Hj]; [|by right]. destruct Hk as [Hk|Hk]; [left; lia|right; auto].
  - unfold zlen in *. rewrite length_drop in *. lia.
  - destruct Hs as [?|[?|Hs]]; [by left|by right|left]. rewrite (Hnil Hs), drop_nil. done.
  - intros Hl Hb. specialize (Hj0 Hl). rewrite Hj0 in *. rewrite drop_0 in Hk0.
    by rewrite Hk0.
Qed.

(** ** The spool *)
Definition allowed : spool_io :=
  {| deny_mkdir := false; deny_read := false; deny_write := false; deny_rename := false;
     deny_remove := false |}.

Definition spool_path (d : string) : string := path_join d SpoolFileName.

Lemma append_ne s t : t ≠ "" → s +:+ t ≠ s.
Proof.
  intros Ht E. apply (f_equal String.length) in E. rewrite append_length in E.
  destruct t; [done|]. simpl in E. lia.
Qed.

Section spool_proofs.
Context (marshal : Payload → string) (unmarshal : string → option Payload).

(** A finding whose JSON is one line and parses back to it. *)
Definition encodes (p : Payload) : Prop :=
  line_ok (marshal p) ∧ unmarshal (marshal p) = Some p ∧ TamperType p ≠ "".

(** The spool holds these lines: its file has them, or there is no file and no
    line. *)
Definition holds (f : fs) (d : string) (lines : list string) : Prop :=
  (lines = [] ∧ f !! spool_path d = None) ∨ f !! spool_path d = Some (render lines).

Lemma append_step f d lines p : d ≠ "" → holds f d lines → Forall line_ok lines →
  (lines = [] → f !! spool_path d = None) → line_ok (marshal p) →
  ∃ f', Append marshal allowed f d p = (f', Ok tt) ∧
        f' !! spool_path d = Some (render (evictOldest (lines ++ [marshal p]))).
Proof.
  intros Hd Hh Hl Hnil Hp. unfold Append. destruct (String.eqb_spec d ""); [done|].
  destruct Hp as (Hn & _). unfold no_newline in Hn. apply negb_true_iff in Hn. rewrite Hn.
  cbn [deny_mkdir deny_read deny_write deny_rename allowed].
  change (path_join d SpoolFileName) with (spool_path d).
  assert (readLines false f (spool_path d) = Ok lines) as ->.
  { destruct lines as [|l lines].
    - unfold readLines, read_file. by rewrite Hnil.
    - destruct Hh as [[? _]|Hf]; [done|]. by apply read_render. }
  cbn [write_file rename]. unfold rename. rewrite lookup_insert_eq.
  eexists. split; [reflexivity|]. by rewrite lookup_insert_eq.
Qed.

Fixpoint append_all (f : fs) (d : string) (ps : list Payload) : fs * list (res unit) :=
  match ps with
  | [] => (f, [])
  | p :: ps =>
      let '(f, r) := Append marshal allowed f d p in
      let '(f, rs) := append_all f d ps in (f, r :: rs)
  end.

Lemma append_all_app f d ps qs :
  append_all f d (ps ++ qs) =
  let '(f1, r1) := append_all f d ps in
  let '(f2, r2) := append_all f1 d qs in (f2, r1 ++ r2).
Proof.
  revert f. induction ps as [|p ps IH]; intros f; simpl.
  - by destruct (append_all f d qs).
  - destruct (Append _ _ _ _ _) as [f1 r]. rewrite IH.
    destruct (append_all f1 d ps) as [f2 r1]. by destruct (append_all f2 d qs).
Qed.

(** After appending [ps] to an empty spool, the file holds a suffix of them. *)
Lemma append_all_holds f d ps : d ≠ "" → f !! spool_path d = None → Forall encodes ps → ps ≠ [] →
  ∃ k, (k < length ps)%nat ∧
    (append_all f d ps).2 = replicate (length ps) (Ok tt) ∧
    (append_all f d ps).1 !! spool_path d = Some (render (map marshal (drop k ps))) ∧
    zlen (drop k ps) <= maxSpoolEntries ∧
    (zlen ps <= maxSpoolEntries → spool_size (map marshal ps) <= maxSpoolBytes → k = 0%nat).
Proof.
  intros Hd Hf Hps Hne.
  destruct ps as [|p ps _] using rev_ind; [done|]. clear Hne.
  revert p Hps. induction ps as [|q ps IH] using rev_ind; intros p Hps.
  - apply Forall_singleton in Hps as (Hp & _).
    destruct (append_step f d [] p Hd ltac:(by left) ltac:(constructor) ltac:(done) Hp)
      as (f' & E & Hf'). exists 0%nat. cbn [app append_all]. rewrite E. cbn. split_and!; try done; lia.
  - apply Forall_app in Hps as [Hps Hp]. apply Forall_singleton in Hp as (Hp & _).
    destruct (IH q Hps) as (k & Hk & Hr & Hc & Hlen & Hk0).
    rewrite append_all_app. destruct (append_all f d (ps ++ [q])) as [f1 r1]. cbn [fst snd] in *.
    set (ls := map marshal (drop k (ps ++ [q]))) in *.
    assert (Forall line_ok ls) as Hls.
    { subst ls. apply Forall_map, Forall_drop. eapply Forall_impl; [exact Hps|]. by intros x (? & _). }
    assert (ls ≠ []) as Hls0.
    { intros E. apply (f_equal length) in E. unfold ls in E. rewrite length_map, length_drop in E.
      simpl in E. lia. }
    destruct (append_step f1 d ls p Hd ltac:(by right) Hls ltac:(done) Hp) as (f2 & E & Hf2).
    cbn [append_all]. rewrite E. cbn [fst snd].
    destruct (evict_spec (ls ++ [marshal p])) as (j & Hj & Hjl & Hjn & _ & Hj0).
    assert (ls ++ [marshal p] = map marshal (drop k ((ps ++ [q]) ++ [p]))) as Els.
    { rewrite drop_app_le by lia. by rewrite map_app. }
    rewrite Hj in Hf2, Hjn. rewrite Els in *.
    rewrite <- skipn_map, skipn_skipn, skipn_map in Hf2, Hjn.
    exists (j + k)%nat. rewrite !length_app in *. simpl in *.
    destruct Hjl as [Hjl|Hjl]; [|apply (f_equal length) in Hjl; rewrite length_map, length_drop, !length_app in Hjl; simpl in Hjl; lia].
    rewrite length_map, length_drop, !length_app in Hjl. simpl in Hjl.
    split_and!; [lia| | | |].
    + by rewrite Hr, (replicate_add (length ps + 1) 1).
    + done.
    + unfold zlen in *. by rewrite length_map in Hjn.
    + intros H1 H2.
      assert (k = 0)%nat as ->.
      { apply Hk0.
        - unfold zlen in *. rewrite !length_app in *. simpl in *. lia.
        - rewrite map_app in H2. unfold spool_size in *. rewrite map_app, sum_Z_app in H2.
          assert (0 <= sum_Z (map (λ l, slen l + 1) (map marshal [p]))).
          { apply (spool_size_nonneg (map marshal [p])). } lia. }
      rewrite drop_0 in Hj0. rewrite Hj0; [done| |done].
      unfold zlen in *. by rewrite length_map.
Qed.

Lemma parse_all ps : Forall encodes ps → parse_lines unmarshal (map marshal ps) = (ps, 0).
Proof.
  induction 1 as [|p ps (_ & Hu & Ht) _ IH]; [done|]. cbn [map parse_lines]. rewrite IH, Hu.
  by destruct (String.eqb_spec (TamperType p) "").
Qed.

End spool_proofs.

(** C35: the spool delivers: findings appended one after the other to an empty spool
    come out of the next drain in order and unaltered, none skipped, and the
    drain leaves no file behind.  When there are at most 200 of them and they
    take at most 256 KiB none is missing; beyond the caps the oldest are, and
    the newest is always there. *)
Theorem spool_delivers (marshal : Payload → string) (unmarshal : string → option Payload)
    (f : fs) (d : string) (ps : list Payload) :
  d ≠ "" → f !! spool_path d = None → Forall (encodes marshal unmarshal) ps → ps ≠ [] →
  let '(f1, rs) := append_all marshal f d ps in
  let '(f2, out) := Drain unmarshal allowed f1 d in
  Forall (λ r, r = Ok tt) rs ∧ skipped out = 0 ∧ drain_err out = None ∧
  (∃ old, ps = old ++ found out) ∧ last (found out) = last ps ∧ zlen (found out) <= 200 ∧
  (zlen ps <= 200 → spool_size (map marshal ps) <= 256 * 1024 → found out = ps) ∧
  f2 !! spool_path d = None ∧ f2 !! (spool_path d +:+ drainingSuffix) = None.
Proof.
  intros Hd Hf Hps Hne.
  destruct (append_all_holds marshal unmarshal f d ps Hd Hf Hps Hne) as (k & Hk & Hr & Hc & Hlen & Hk0).
  destruct (append_all marshal f d ps) as [f1 rs]. cbn [fst snd] in *. subst rs.
  unfold Drain. destruct (String.eqb_spec d ""); [done|].
  change (path_join d SpoolFileName) with (spool_path d). rewrite Hc. unfold rename.
  cbn [deny_rename deny_read deny_remove allowed]. rewrite Hc.
  assert (spool_path d +:+ drainingSuffix ≠ spool_path d) as Hst by by apply append_ne.
  set (f2 := <[spool_path d +:+ drainingSuffix := render (map marshal (drop k ps))]>
               (delete (spool_path d) f1)).
  assert (Forall (encodes marshal unmarshal) (drop k ps)) as Hdrop by by apply Forall_drop.
  rewrite (read_render _ _ _ (map marshal (drop k ps))); [|done| | |by unfold f2; rewrite lookup_insert_eq].
  2: { intros E. apply (f_equal length) in E. rewrite length_map, length_drop in E. simpl in E. lia. }
  2: { apply Forall_map. eapply Forall_impl; [exact Hdrop|]. by intros x (? & _). }
  rewrite (parse_all marshal unmarshal) by done. unfold remove.
  unfold f2 at 1. rewrite lookup_insert_eq. cbn [found skipped drain_err].
  split_and!; try done.
  - by apply Forall_replicate.
  - exists (take k ps). by rewrite take_drop.
  - rewrite <- (take_drop k ps) at 2. destruct (drop k ps) as [|x l] eqn:E.
    { apply (f_equal length) in E. rewrite length_drop in E. simpl in E. lia. }
    by rewrite last_app_cons.
  - intros H1 H2. rewrite (Hk0 H1 H2). by rewrite drop_0.
  - unfold f2. rewrite lookup_delete_ne, lookup_insert_ne, lookup_delete_eq by done. done.
  - by rewrite lookup_delete_eq.
Qed.

(** A codec for the examples: the type alone, of findings about the agent. *)
Definition toy_marshal (p : Payload) : string := TamperType p.
Definition toy_unmarshal (s : string) : option Payload := Some (New s ComponentAgent false).

Definition killed : Payload := New TypeAgentKilled ComponentAgent false.
Definition exited : Payload := New TypeAgentExited ComponentAgent false.

Lemma spool_delivers_witness :
  let '(f1, _) := append_all toy_marshal ∅ "/etc/edr" [killed; exited] in
  found (Drain toy_unmarshal allowed f1 "/etc/edr").2 = [killed; exited].
Proof.
  assert (Forall (encodes toy_marshal toy_unmarshal) [killed; exited]) as Hps.
  { repeat constructor; try discriminate; by vm_compute. }
  pose proof (spool_delivers toy_marshal toy_unmarshal ∅ "/etc/edr" [killed; exited]
    ltac:(discriminate) ltac:(apply lookup_empty) Hps ltac:(discriminate)) as HT.
  destruct (append_all toy_marshal ∅ "/etc/edr" [killed; exited]) as [f1 rs].
  destruct (Drain toy_unmarshal allowed f1 "/etc/edr") as [f2 out].
  destruct HT as (_ & _ & _ & _ & _ & _ & HT & _). apply HT; by vm_compute.
Defined.

(** The spool is bounded and keeps the newest finding: after any append that
    succeeds, whatever was in the file before, the file has at most 200 lines, and
    at most 256 KiB unless it is a single line, and its last line is the finding
    just appended. *)
Theorem spool_bounded (marshal : Payload → string) (io : spool_io) (f f' : fs) (d : string) (p : Payload) :
  Append marshal io f d p = (f', Ok tt) →
  ∃ lines, f' !! spool_path d = Some (render lines) ∧ zlen lines <= 200 ∧
    (spool_size lines <= 256 * 1024 ∨ length lines = 1%nat) ∧ last lines = Some (marshal p).
Proof.
  unfold Append. destruct (String.eqb d ""); [done|]. destruct (contains_char _ _); [done|].
  destruct (deny_mkdir io); [done|].
  change (path_join d SpoolFileName) with (spool_path d).
  destruct (readLines _ _ _) as [ls|e]; [|done].
  destruct (evict_spec (ls ++ [marshal p])) as (k & Hk & Hkl & Hn & Hb & _).
  set (lines := evictOldest (ls ++ [marshal p])) in *. unfold write_file, rename.
  destruct (deny_write io); [done|]. destruct (deny_rename io); [done|].
  rewrite lookup_insert_eq. intros [= <-]. exists lines.
  split_and!; [by rewrite lookup_insert_eq|done|done|].
  destruct Hkl as [Hkl|Hkl]; [|by destruct ls].
  rewrite Hk, drop_app_le by (rewrite length_app in Hkl; simpl in Hkl; lia). by rewrite last_snoc.
Qed.

Lemma spool_bounded_witness :
  ∃ f' lines, Append toy_marshal allowed ∅ "/etc/edr" killed = (f', Ok tt) ∧
    f' !! spool_path "/etc/edr" = Some (render lines) ∧ last lines = Some (toy_marshal killed).
Proof.
  destruct (Append toy_marshal allowed ∅ "/etc/edr" killed) as [f' [[]|e]] eqn:E;
    [|vm_compute in E; discriminate].
  destruct (spool_bounded toy_marshal allowed ∅ f' "/etc/edr" killed E) as (lines & H1 & _ & _ & H2).
  by exists f', lines.
Defined.

(** What the comments of [Drain] promise and the code does not do: the file a
    drain left behind when it died is not folded in.  Without a new spool it is
    never read, and the next drain with one overwrites it. *)
Lemma drain_ignores_leftover unmarshal f d : f !! spool_path d = None →
  Drain unmarshal allowed f d = (f, {| found := []; skipped := 0; drain_err := None |}).
Proof. intros Hf. unfold Drain. destruct (String.eqb d ""); [done|].
  change (path_join d SpoolFileName) with (spool_path d). by rewrite Hf. Qed.

Lemma drain_overwrites_leftover :
  let sp := spool_path "/etc/edr" in
  let f := <[sp +:+ drainingSuffix := render [toy_marshal killed]]>
             (<[sp := render [toy_marshal exited]]> ∅) in
  let '(f', out) := Drain toy_unmarshal allowed f "/etc/edr" in
  found out = [exited] ∧ f' !! (sp +:+ drainingSuffix) = None.
Proof. by vm_compute. Qed.

(** One line that does not fit the scanner's buffer strands every finding of the
    spool: nothing is found and nothing is counted as skipped. *)
Lemma oversized_line_strands unmarshal f d c : d ≠ "" → f !! spool_path d = Some c →
  Exists (λ l, maxSpoolBytes <= slen l) (split_on newline c) →
  (Drain unmarshal allowed f d).2 = {| found := []; skipped := 0; drain_err := Some "scan" |}.
Proof.
  intros Hd Hf Hl. unfold Drain. destruct (String.eqb_spec d ""); [done|].
  change (path_join d SpoolFileName) with (spool_path d). rewrite Hf. unfold rename.
  cbn [deny_rename allowed]. rewrite Hf.
  unfold readLines, read_file. cbn [deny_read allowed]. rewrite lookup_insert_eq.
  unfold scan_lines.
  assert (existsb (λ l, maxSpoolBytes <=? slen l) (split_on newline c) = true) as ->; [|done].
  apply existsb_exists. apply Exists_exists in Hl as (l & Hin & Hl). exists l.
  split; [by apply list_elem_of_In|by apply Z.leb_le].
Qed.

(** ** The monitor *)
Section monitor_proofs.
Context (sha256hex : string → string) (processAlive : Z → bool).

Lemma check_files_spec unreadable f ws : ∀ m, NoDup (map file_key ws) →
  let out := (check_files sha256hex unreadable f ws m).2 in
  let m' := (check_files sha256hex unreadable f ws m).1 in
  (∀ p, p ∈ out ↔ ∃ w, w ∈ ws ∧ check_file sha256hex unreadable f (baseline m) w = Some p ∧
                       file_key w ∉ reported m) ∧
  (∀ k, k ∈ reported m' ↔ k ∈ reported m ∨
     ∃ w p, w ∈ ws ∧ check_file sha256hex unreadable f (baseline m) w = Some p ∧ file_key w = k) ∧
  baseline m' = baseline m ∧ files m' = files m ∧ watchdogPID m' = watchdogPID m.
Proof.
  induction ws as [|w ws IH]; intros m Hnd; [simpl; set_solver|].
  cbn [map] in Hnd. apply NoDup_cons in Hnd as [Hni Hnd].
  assert (∀ w', w' ∈ ws → file_key w' ≠ file_key w) as Hne.
  { intros w' Hw' E. apply Hni. rewrite <- E. by apply list_elem_of_fmap_2. }
  cbn [check_files].
  destruct (check_file sha256hex unreadable f (baseline m) w) as [p|] eqn:E.
  - unfold emitOnce. destruct (decide (file_key w ∈ reported m)) as [Hr|Hr].
    + specialize (IH m Hnd). destruct (check_files _ _ _ _ m) as [m' out].
      cbn [fst snd app] in *. destruct IH as (Ho & Hk & Hb). split_and!; [| |apply Hb..].
      * intros q. rewrite Ho. set_solver.
      * intros k. rewrite Hk. set_solver.
    + set (m1 := set_reported m ({[file_key w]} ∪ reported m)).
      specialize (IH m1 Hnd). destruct (check_files _ _ _ _ m1) as [m' out].
      cbn [fst snd app] in *. destruct IH as (Ho & Hk & Hb). unfold m1 in *. simpl in *.
      split_and!; [| |apply Hb..].
      * intros q. rewrite elem_of_cons, Ho. set_solver.
      * intros k. rewrite Hk. set_solver.
  - specialize (IH m Hnd). destruct (check_files _ _ _ _ m) as [m' out].
    cbn [fst snd app] in *. destruct IH as (Ho & Hk & Hb). split_and!; [| |apply Hb..].
    + intros q. rewrite Ho. set_solver.
    + intros k. rewrite Hk. set_solver.
Qed.

End monitor_proofs.

(** What one pass finds: a watched file whose contents changed or cannot be read,
    and a watchdog that is gone, each with the key under which it is reported. *)
Definition finds (sha256hex : string → string) (processAlive : Z → bool)
    (unreadable : string → bool) (f : fs) (m : Monitor) (key : string) (p : Payload) : Prop :=
  (∃ w, w ∈ files m ∧ check_file sha256hex unreadable f (baseline m) w = Some p ∧ key = file_key w) ∨
  (0 < watchdogPID m ∧ processAlive (watchdogPID m) = false ∧ key = TypeWatchdogMissing ∧
   p = WithReason "エージェントを監視しているウォッチドッグのプロセスが消滅しました"
         (WithTarget (watchdogPID m) (New TypeWatchdogMissing ComponentWatchdog false))).

(** A pass of the integrity monitor reports exactly what it finds and has not
    reported before: a finding is emitted iff some watched file with a baseline
    has another hash or cannot be read, or the watchdog is gone, and that key was
    not reported yet; the keys it found are reported from then on, so no finding
    is emitted twice and none is held back the first time. *)
Theorem pass_reports_iff (sha256hex : string → string) (processAlive : Z → bool)
    (unreadable : string → bool) (f : fs) (m : Monitor) :
  NoDup (map file_key (files m)) → TypeWatchdogMissing ∉ map file_key (files m) →
  let '(m', out) := checkOnce sha256hex processAlive unreadable f m in
  (∀ p, p ∈ out ↔ ∃ key, finds sha256hex processAlive unreadable f m key p ∧ key ∉ reported m) ∧
  (∀ key, key ∈ reported m' ↔
     key ∈ reported m ∨ ∃ p, finds sha256hex processAlive unreadable f m key p) ∧
  files m' = files m ∧ baseline m' = baseline m ∧ watchdogPID m' = watchdogPID m.
Proof.
  intros Hnd Hni. unfold checkOnce, finds.
  destruct (check_files_spec sha256hex unreadable f (files m) m Hnd) as (Ho & Hk & Hb & Hf & Hw).
  destruct (check_files sha256hex unreadable f (files m) m) as [m1 out]. cbn [fst snd] in *.
  rewrite Hw. destruct (_ && _) eqn:E.
  - apply andb_true_iff in E as [Hpid%Z.ltb_lt Hdead%negb_true_iff].
    assert (TypeWatchdogMissing ∈ reported m1 ↔ TypeWatchdogMissing ∈ reported m) as Hr1.
    { rewrite Hk. split; [|by left]. intros [?|(w & p & Hw' & _ & E)]; [done|].
      exfalso. apply Hni. rewrite <- E. by apply list_elem_of_fmap_2. }
    unfold emitOnce. destruct (decide (TypeWatchdogMissing ∈ reported m1)) as [Hr|Hr].
    + rewrite Hr1 in Hr. split_and!; [..|done|done|done].
      * intros p. rewrite app_nil_r, Ho. split; [naive_solver|].
        intros (key & [(w & ? & ? & ->)|(_ & _ & -> & _)] & Hn); [eauto|done].
      * intros key. rewrite Hk. split; [naive_solver|].
        intros [?|(p & [(w & ? & ? & ->)|(_ & _ & -> & _)])]; [by left|eauto 6|by left].
    + rewrite Hr1 in Hr. cbn [files baseline watchdogPID set_reported reported].
      split_and!; [..|done|done|done].
      * intros p. rewrite elem_of_app, Ho, list_elem_of_singleton. split.
        -- intros [(w & ? & ? & ?)|Hp]; [eauto 8|]. exists TypeWatchdogMissing.
           split; [right; by split_and!|done].
        -- intros (key & [(w & ? & ? & ->)|(_ & _ & -> & Hp)] & Hn); [eauto|by right].
      * intros key. rewrite elem_of_union, elem_of_singleton, Hk. split.
        -- intros [->|[?|(w & p & ? & ? & <-)]]; [|by left|eauto 8].
           right. eexists. right. by split_and!.
        -- intros [?|(p & [(w & ? & ? & ->)|(_ & _ & -> & _)])]; [by right; left|eauto 8|by left].
  - assert (¬ (0 < watchdogPID m ∧ processAlive (watchdogPID m) = false)) as Hno.
    { intros [Hp Hd]. rewrite Hd in E. apply Z.ltb_lt in Hp. by rewrite Hp in E. }
    split_and!; [..|done|done|done].
    + intros p. rewrite Ho. split; [naive_solver|].
      intros (key & [(w & ? & ? & ->)|(? & ? & _)] & Hn); [eauto|tauto].
    + intros key. rewrite Hk. split; [naive_solver|].
      intros [?|(p & [(w & ? & ? & ->)|(? & ? & _)])]; [by left|eauto 6|tauto].
Qed.

Definition sample_fs (config : string) : fs := <["/etc/edr/agent.toml" := config]> ∅.
Definition sample_monitor : Monitor :=
  takeBaseline (λ s, s) (λ _, false) (sample_fs "server = a")
    (WatchWatchdog (WatchConfig NewMonitor "/etc/edr/agent.toml") 42).

Lemma pass_reports_iff_witness :
  map TamperType (checkOnce (λ s, s) (λ _, true) (λ _, false) (sample_fs "server = b") sample_monitor).2
    = [TypeConfigModified] ∧
  let '(m', _) := checkOnce (λ s, s) (λ _, true) (λ _, false) (sample_fs "server = b") sample_monitor in
  files m' = files sample_monitor.
Proof.
  split; [by vm_compute|].
  assert (NoDup (map file_key (files sample_monitor))) as Hnd
    by (apply (bool_decide_unpack _); vm_compute; exact I).
  assert (TypeWatchdogMissing ∉ map file_key (files sample_monitor)) as Hni
    by (apply (bool_decide_unpack _); vm_compute; exact I).
  pose proof (pass_reports_iff (λ s, s) (λ _, true) (λ _, false) (sample_fs "server = b")
    sample_monitor Hnd Hni) as HT.
  destruct (checkOnce _ _ _ _ _) as [m' out]. apply HT.
Defined.
