(* ===== verification/Watchdog.v ===== *)
(** * The supervisor: agent/cmd/watchdog

    [main.go]: applying a pending update, rolling it back, and the supervision
    loop with its backoff, its crash limit and its reports; [tamper_report.go]: the
    finding recorded for an agent death; [exitreason_unix.go] and
    [exitreason_windows.go].  One turn of the loop is the function [turn] of the
    supervisor's state and of what the world does during the turn ([world]): the
    operations the operating system refuses, how the agent ran and ended, and
    when the context is cancelled.  The JSON of the update marker and of a finding
    are parameters; starting the process, signals and PID files are not modelled.
    Theorems are in [WatchdogProofs.v]. *)

From Stdlib Require Import Ascii.
From S2P Require Import Prelude GoStrings Files Tamper.

#[local] Open Scope string_scope.
#[local] Open Scope list_scope.
#[local] Open Scope Z_scope.

Definition minRestartDelay : duration := 2 * second.
Definition maxRestartDelay : duration := 5 * minute.
Definition stableThreshold : duration := 30 * second.
Definition updateStableThreshold : duration := 60 * second.

Record updateMarker : Type := { NewBinary : string; Version : string; Timestamp : string }.

(** [agentBin[:len(agentBin)-len(filepath.Ext(agentBin))] + ".bak.exe"] on Windows. *)
Definition backupBinPath (windows : bool) (agentBin : string) : string :=
  if windows then stake (String.length agentBin - String.length (ext agentBin)) agentBin +:+ ".bak.exe"
  else agentBin +:+ ".bak".

(** How the agent process ended: [run_signal] is the signal that killed it, where
    the platform can tell; [run_error] is the error of the wait. *)
Record agent_run : Type := {
  run_pid : Z; run_exit : Z; run_error : bool; run_signal : option Z; run_duration : duration }.

(** What the world does in one turn of the loop. *)
Record world : Type := {
  w_deny_read : bool; w_deny_stat : bool; w_deny_backup : bool; w_deny_install : bool;
  w_deny_restore : bool; w_deny_marker : bool; w_deny_unlink : bool; w_deny_rollback : bool;
  w_spool : spool_io;
  w_run : agent_run;
  cancel_before : bool; cancel_running : bool; cancel_waiting : bool }.

Section watchdog.
(** [json.Unmarshal] of the update marker, [json.Marshal] of a finding, and
    whether the platform is Windows. *)
Context (parse_marker : string → option updateMarker) (marshal : Payload → string)
        (windows : bool).

(** The file system, whether a swap was performed, and the error. *)
Definition checkAndApplyUpdate (w : world) (f : fs) (agentBin : string) : fs * bool * option string :=
  let dataDir := dir agentBin in
  let markerPath := path_join dataDir ".update-pending" in
  match read_file (w_deny_read w) f markerPath with
  | FErr NotExist => (f, false, None)
  | FErr Denied => (f, false, Some "read marker")
  | FOk data =>
      match parse_marker data with
      | None => (f, false, Some "parse marker")
      | Some marker =>
          let newBin := if String.eqb (NewBinary marker) ""
                        then path_join dataDir "edr-agent.new" else NewBinary marker in
          match read_file (w_deny_stat w) f newBin with
          | FErr _ => (f, false, Some "no new binary")
          | FOk _ =>
              let bakBin := backupBinPath windows agentBin in
              match rename (w_deny_backup w) f agentBin bakBin with
              | FErr _ => (f, false, Some "backup")
              | FOk f =>
                  match rename (w_deny_install w) f newBin agentBin with
                  | FErr _ =>
                      (after f (rename (w_deny_restore w) f bakBin agentBin), false, Some "install")
                  | FOk f => (after f (remove (w_deny_marker w) f markerPath), true, None)
                  end
              end
          end
      end
  end.

Definition rollbackUpdate (w : world) (f : fs) (agentBin : string) : fs :=
  let bakBin := backupBinPath windows agentBin in
  let f := after f (remove (w_deny_unlink w) f agentBin) in
  after f (rename (w_deny_rollback w) f bakBin agentBin).

(** [classifyExit]: the signal on Unix, never one on Windows. *)
Definition classifyExit (r : agent_run) : option Z := if windows then None else run_signal r.

(** The finding of an agent death. *)
Definition death_finding (r : agent_run) : Payload :=
  let tamperType := match classifyExit r with Some _ => TypeAgentKilled | None => TypeAgentExited end in
  let p := WithExitCode (run_exit r) (WithTarget (run_pid r) (New tamperType ComponentAgent false)) in
  match classifyExit r with
  | Some sig => WithReason "エージェントプロセスがシグナルで終了しました" (WithSignal sig p)
  | None =>
      if windows
      then WithReason "エージェントプロセスが予期せず終了しました（Windows では終了コードから強制終了とクラッシュを区別できません）" p
      else WithReason "エージェントプロセスが予期せず終了しました（シグナルによらない終了）" p
  end.

Definition recordAgentDeath (w : world) (f : fs) (configFile : string) : fs :=
  (Append marshal (w_spool w) f (dir configFile) (death_finding (w_run w))).1.

(** ** The supervision loop *)
Record supervisor : Type := { delay : duration; crashes : Z; disk : fs }.

Definition initial (f : fs) : supervisor := {| delay := minRestartDelay; crashes := 0; disk := f |}.

(** What a turn did, for the statements: the agent was started, a swap was
    rolled back, the death was recorded, and the wait before the next turn. *)
Record outcome : Type := {
  started : bool; rolled_back : bool; recorded : bool; waited : option duration }.

Definition nothing : outcome :=
  {| started := false; rolled_back := false; recorded := false; waited := None |}.

(** The delay of the next turn. *)
Definition next_delay (d : duration) : duration :=
  let d := d * 2 in if maxRestartDelay <? d then maxRestartDelay else d.

(** One turn of [runSupervisor]: the next state, or none when it returns. *)
Definition turn (agentBin configFile : string) (maxCrashes : Z) (s : supervisor) (w : world) :
    outcome * option supervisor :=
  if cancel_before w then (nothing, None) else
  if (0 <? maxCrashes) && (maxCrashes <=? crashes s) then (nothing, None) else
  let '(f, updated, _) := checkAndApplyUpdate w (disk s) agentBin in
  let r := w_run w in
  if cancel_running w
  then ({| started := true; rolled_back := false; recorded := false; waited := None |}, None) else
  let rolledBack := updated && (run_duration r <? updateStableThreshold) in
  let f := if rolledBack then rollbackUpdate w f agentBin else f in
  let records := negb rolledBack && ((crashes s =? 0) || (stableThreshold <=? run_duration r)) in
  let f := if records then recordAgentDeath w f configFile else f in
  let crashes' := crashes s + 1 in
  let stable := stableThreshold <=? run_duration r in
  let delay' := if stable then minRestartDelay else delay s in
  let crashes' := if stable then 1 else crashes' in
  let out := {| started := true; rolled_back := rolledBack; recorded := records;
                waited := Some delay' |} in
  if cancel_waiting w then (out, None) else
  (out, Some {| delay := next_delay delay'; crashes := crashes'; disk := f |}).

(** [runSupervisor] for as many turns as [ws] has: what each turn did, and the
    state if it is still running. *)
Fixpoint runSupervisor (agentBin configFile : string) (maxCrashes : Z) (s : supervisor) (ws : list world) :
    list outcome * option supervisor :=
  match ws with
  | [] => ([], Some s)
  | w :: ws =>
      let '(o, s') := turn agentBin configFile maxCrashes s w in
      match s' with
      | None => ([o], None)
      | Some s' =>
          let '(os, s'') := runSupervisor agentBin configFile maxCrashes s' ws in (o :: os, s'')
      end
  end.

End watchdog.
