(* ===== verification/WatchdogProofs.v ===== *)
(** * The supervisor: theorems

    An update never loses the agent and a failed one is undone, the restart delay
    follows its schedule, the crash limit stops a crash loop and only that, and
    which deaths become findings. *)

From Stdlib Require Import Ascii.
From S2P Require Import Prelude GoStrings Files Tamper TamperProofs Watchdog.

#[local] Open Scope string_scope.
#[local] Open Scope list_scope.
#[local] Open Scope Z_scope.

Section watchdog_proofs.
Context (parse_marker : string → option updateMarker) (marshal : Payload → string)
        (windows : bool).
Notation update := (checkAndApplyUpdate parse_marker windows).
Notation rollback := (rollbackUpdate windows).
Notation turn := (turn parse_marker marshal windows).
Notation run := (runSupervisor parse_marker marshal windows).

(** ** Updates *)

(** The paths of an update are four different files. *)
Definition new_path (agentBin : string) (mk : updateMarker) : string :=
  if String.eqb (NewBinary mk) "" then path_join (dir agentBin) "edr-agent.new" else NewBinary mk.
Definition marker_path (agentBin : string) : string := path_join (dir agentBin) ".update-pending".

Definition distinct_paths (agentBin : string) (mk : updateMarker) : Prop :=
  NoDup [agentBin; backupBinPath windows agentBin; new_path agentBin mk; marker_path agentBin].

Lemma update_cases w f agentBin old :
  f !! agentBin = Some old →
  (∀ data mk, f !! marker_path agentBin = Some data → parse_marker data = Some mk →
     distinct_paths agentBin mk) →
  let '(f', updated, err) := update w f agentBin in
  if updated : bool then
    err = None ∧ f' !! backupBinPath windows agentBin = Some old ∧
    ∃ data mk new, f !! marker_path agentBin = Some data ∧ parse_marker data = Some mk ∧
      f !! new_path agentBin mk = Some new ∧ f' !! agentBin = Some new ∧
      (w_deny_marker w = false → f' !! marker_path agentBin = None)
  else
    f' !! agentBin = Some old ∨
    (w_deny_install w = true ∧ w_deny_restore w = true ∧
     f' !! backupBinPath windows agentBin = Some old).
Proof.
  intros Hold Hpaths. unfold checkAndApplyUpdate.
  change (path_join (dir agentBin) ".update-pending") with (marker_path agentBin).
  unfold read_file. destruct (w_deny_read w); [by left|].
  destruct (f !! marker_path agentBin) as [data|] eqn:Em; [|by left].
  destruct (parse_marker data) as [mk|] eqn:Ep; [|by left].
  fold (new_path agentBin mk). destruct (w_deny_stat w); [by left|].
  destruct (f !! new_path agentBin mk) as [new|] eqn:En; [|by left].
  specialize (Hpaths data mk eq_refl Ep). unfold distinct_paths in Hpaths.
  set (bak := backupBinPath windows agentBin) in *. set (nb := new_path agentBin mk) in *.
  set (mp := marker_path agentBin) in *.
  rewrite !NoDup_cons, !elem_of_cons, elem_of_nil in Hpaths.
  assert (agentBin ≠ bak ∧ agentBin ≠ nb ∧ agentBin ≠ mp ∧ bak ≠ nb ∧ bak ≠ mp) as
    (H1 & H2 & H3 & H4 & H5) by tauto. clear Hpaths.
  unfold rename. destruct (w_deny_backup w); [by left|]. rewrite Hold.
  destruct (w_deny_install w) eqn:Ei.
  - destruct (w_deny_restore w) eqn:Er; cbn [after].
    + right. by rewrite lookup_insert_eq.
    + rewrite lookup_insert_eq. cbn [after]. left. by rewrite lookup_insert_eq.
  - rewrite (lookup_insert_ne _ bak nb) by congruence.
    rewrite (lookup_delete_ne _ agentBin nb) by congruence. rewrite En.
    set (f1 := <[agentBin := new]> _).
    assert (f1 !! agentBin = Some new) as F1 by apply lookup_insert_eq.
    assert (f1 !! bak = Some old) as F2.
    { unfold f1. rewrite lookup_insert_ne, lookup_delete_ne by congruence.
      apply lookup_insert_eq. }
    unfold remove. destruct (w_deny_marker w); cbn [after].
    + split_and!; try done. exists data, mk, new. by split_and!.
    + destruct (f1 !! mp) eqn:Ef; cbn [after].
      * rewrite !lookup_delete_ne by congruence. split_and!; [done|done|].
        exists data, mk, new. rewrite lookup_delete_eq. by split_and!.
      * split_and!; try done. exists data, mk, new. by split_and!.
Qed.

Lemma rollback_restores w f agentBin old :
  f !! backupBinPath windows agentBin = Some old → backupBinPath windows agentBin ≠ agentBin →
  w_deny_rollback w = false →
  rollback w f agentBin !! agentBin = Some old.
Proof.
  intros Hb Hne Hd. unfold rollbackUpdate.
  set (bak := backupBinPath windows agentBin) in *.
  assert (after f (remove (w_deny_unlink w) f agentBin) !! bak = Some old) as Ha.
  { unfold remove. destruct (w_deny_unlink w); [done|].
    destruct (f !! agentBin); cbn [after]; [by rewrite lookup_delete_ne|done]. }
  unfold rename. rewrite Hd, Ha. cbn [after]. apply lookup_insert_eq.
Qed.

(** ** Turns *)

(** A turn in which the supervisor is not asked to stop. *)
Definition uninterrupted (w : world) : Prop :=
  cancel_before w = false ∧ cancel_running w = false ∧ cancel_waiting w = false.

Definition is_stable (w : world) : bool := stableThreshold <=? run_duration (w_run w).

(** What a turn does to the counters, when it is not the last. *)
Lemma turn_continues agentBin cfg maxC s w o s' :
  turn agentBin cfg maxC s w = (o, Some s') →
  started o = true ∧
  waited o = Some (if is_stable w then minRestartDelay else delay s) ∧
  delay s' = next_delay (if is_stable w then minRestartDelay else delay s) ∧
  crashes s' = (if is_stable w then 1 else crashes s + 1) ∧
  recorded o = negb (rolled_back o) && ((crashes s =? 0) || is_stable w).
Proof.
  unfold Watchdog.turn. destruct (cancel_before w); [done|]. destruct (_ && _); [done|].
  destruct (update w (disk s) agentBin) as [[f u] e].
  destruct (cancel_running w); [done|]. destruct (cancel_waiting w); [done|].
  intros [= <- <-]. cbn. by rewrite Z.eqb_sym.
Qed.

Lemma turn_outcome agentBin cfg maxC s w : uninterrupted w →
  (0 < maxC ∧ maxC <= crashes s ∧ turn agentBin cfg maxC s w = (nothing, None)) ∨
  ((maxC <= 0 ∨ crashes s < maxC) ∧
   ∃ o s', turn agentBin cfg maxC s w = (o, Some s')).
Proof.
  intros (Hb & Hr & Hw). unfold Watchdog.turn. rewrite Hb, Hr, Hw.
  destruct (Z.ltb_spec 0 maxC), (Z.leb_spec maxC (crashes s)); cbn [andb];
    try (left; done); right; (split; [lia|]);
    destruct (update w (disk s) agentBin) as [[f u] e]; eauto.
Qed.

End watchdog_proofs.

(** C27: an update never loses the agent.  However the operating system refuses the
    steps of applying a pending update: if it is reported as applied, the agent's
    path holds the new binary and the backup the old one, and rolling back puts the
    old binary in place again; otherwise the old binary is still at the agent's
    path, or, only when both installing the new one and restoring the old one were
    refused, in the backup. *)
Theorem update_never_loses_the_agent (parse_marker : string → option updateMarker) (windows : bool)
    (w : world) (f : fs) (agentBin old : string) :
  f !! agentBin = Some old →
  (∀ data mk, f !! marker_path agentBin = Some data → parse_marker data = Some mk →
     distinct_paths windows agentBin mk) →
  let '(f', updated, err) := checkAndApplyUpdate parse_marker windows w f agentBin in
  if updated : bool then
    (∃ data mk, f !! marker_path agentBin = Some data ∧ parse_marker data = Some mk ∧
       f' !! agentBin = f !! new_path agentBin mk) ∧
    f' !! backupBinPath windows agentBin = Some old ∧
    (w_deny_marker w = false → f' !! marker_path agentBin = None) ∧
    (w_deny_rollback w = false → rollbackUpdate windows w f' agentBin !! agentBin = Some old)
  else
    f' !! agentBin = Some old ∨
    (w_deny_install w = true ∧ w_deny_restore w = true ∧
     f' !! backupBinPath windows agentBin = Some old).
Proof.
  intros Hold Hp. pose proof (update_cases parse_marker windows w f agentBin old Hold Hp) as HU.
  destruct (checkAndApplyUpdate parse_marker windows w f agentBin) as [[f' [|]] err]; [|exact HU].
  destruct HU as (_ & Hb & data & mk & new & Hm & Hpm & Hn & Ha & Hmk).
  split_and!; [|done|done|].
  - exists data, mk. by rewrite Hn.
  - intros Hd. apply rollback_restores; [done| |done].
    specialize (Hp data mk Hm Hpm). unfold distinct_paths in Hp.
    rewrite !NoDup_cons, !elem_of_cons in Hp. intros E. rewrite E in Hp. tauto.
Qed.

Definition sample_world (d : duration) : world :=
  {| w_deny_read := false; w_deny_stat := false; w_deny_backup := false; w_deny_install := false;
     w_deny_restore := false; w_deny_marker := false; w_deny_unlink := false;
     w_deny_rollback := false; w_spool := allowed;
     w_run := {| run_pid := 7; run_exit := -1; run_error := true; run_signal := Some 9;
                 run_duration := d |};
     cancel_before := false; cancel_running := false; cancel_waiting := false |}.

(** A marker whose text is the path of the new binary. *)
Definition toy_marker (s : string) : option updateMarker :=
  Some {| NewBinary := s; Version := "2"; Timestamp := "" |}.

Definition sample_disk : fs :=
  <["/opt/edr-agent" := "old"]> (<["/opt/edr-agent.new" := "new"]>
    (<["/opt/.update-pending" := ""]> ∅)).

Lemma update_never_loses_the_agent_witness :
  let '(f', updated, _) := checkAndApplyUpdate toy_marker false (sample_world second) sample_disk "/opt/edr-agent" in
  updated = true ∧ rollbackUpdate false (sample_world second) f' "/opt/edr-agent" !! "/opt/edr-agent" = Some "old".
Proof.
  assert (sample_disk !! "/opt/edr-agent" = Some "old") as Hold by by vm_compute.
  assert (∀ data mk, sample_disk !! marker_path "/opt/edr-agent" = Some data →
    toy_marker data = Some mk → distinct_paths false "/opt/edr-agent" mk) as Hp.
  { intros data mk Hd Hm. vm_compute in Hd. injection Hd as <-. injection Hm as <-.
    apply (bool_decide_unpack _). vm_compute. exact I. }
  pose proof (update_never_loses_the_agent toy_marker false (sample_world second) sample_disk
    "/opt/edr-agent" "old" Hold Hp) as HT.
  destruct (checkAndApplyUpdate toy_marker false (sample_world second) sample_disk "/opt/edr-agent")
    as [[f' [|]] err] eqn:E.
  - split; [done|]. apply HT. done.
  - vm_compute in E. discriminate.
Defined.

(** ** The backoff *)

(** The number of turns since the last stable run, or since the start. *)
Fixpoint turns_since_stable (e : Z) (ws : list world) : list Z :=
  match ws with
  | [] => []
  | w :: ws => let k := if is_stable w then 0 else e in k :: turns_since_stable (k + 1) ws
  end.

Definition backoff (k : Z) : duration := Z.min (minRestartDelay * 2 ^ k) maxRestartDelay.

Lemma next_delay_backoff k : 0 <= k → next_delay (backoff k) = backoff (k + 1).
Proof.
  intros Hk. unfold next_delay, backoff. rewrite Z.pow_add_r, Z.pow_1_r by lia.
  assert (0 < 2 ^ k) by (apply Z.pow_pos_nonneg; lia).
  unfold minRestartDelay, maxRestartDelay, minute, second, millisecond in *. case_cmp; lia.
Qed.

Lemma run_backoff pm ms win agentBin cfg maxC ws : ∀ k s i o k', 0 <= k → delay s = backoff k →
  (runSupervisor pm ms win agentBin cfg maxC s ws).1 !! i = Some o →
  turns_since_stable k ws !! i = Some k' → 0 <= k' ∧ ∀ d, waited o = Some d → d = backoff k'.
Proof.
  induction ws as [|w ws IH]; intros k s i o k' Hk Hd Ho Hk'; [done|].
  cbn [runSupervisor turns_since_stable] in *.
  assert (0 <= (if is_stable w then 0 else k)) as Hk0 by (destruct (is_stable w); lia).
  assert ((if is_stable w then minRestartDelay else delay s) =
          backoff (if is_stable w then 0 else k)) as Hw by by destruct (is_stable w).
  destruct (turn pm ms win agentBin cfg maxC s w) as [o1 s'] eqn:E.
  destruct i as [|i].
  - assert (o = o1) as -> by (destruct s'; [destruct (runSupervisor _ _ _ _ _ _ _ _)|]; by simplify_eq/=).
    simpl in Hk'. injection Hk' as <-. split; [done|]. intros d Hwait. rewrite <- Hw.
    revert E Hwait. unfold turn, nothing. fold (is_stable w). clear.
    destruct (cancel_before w); [intros [= <- _]; done|].
    destruct (_ && _); [intros [= <- _]; done|].
    destruct (checkAndApplyUpdate _ _ _ _ _) as [[f u] e].
    destruct (cancel_running w); [intros [= <- _]; done|].
    destruct (cancel_waiting w); intros [= <- _] [= <-]; done.
  - destruct s' as [s'|]; [|done].
    destruct (turn_continues _ _ _ _ _ _ _ _ _ _ E) as (_ & _ & Hd' & _ & _).
    rewrite Hw, next_delay_backoff in Hd' by done.
    destruct (runSupervisor pm ms win agentBin cfg maxC s' ws) as [os s''] eqn:Er.
    simpl in Ho, Hk'. eapply (IH _ s' i o k'); [|exact Hd'|by rewrite Er|exact Hk']. lia.
Qed.

(** The restart delay follows its schedule: in every run of the supervisor,
    the wait after a turn is two seconds doubled once for each turn since the last
    run that lasted thirty seconds (or since the start), and at most five minutes.
    In particular a crash loop is slowed down to one start in five minutes and a
    stable run is followed by a restart after two seconds. *)
Theorem backoff_schedule (parse_marker : string → option updateMarker) (marshal : Payload → string)
    (windows : bool) (agentBin cfg : string) (maxC : Z) (f : fs) (ws : list world)
    (i : nat) (o : outcome) (k : Z) (d : duration) :
  (runSupervisor parse_marker marshal windows agentBin cfg maxC (initial f) ws).1 !! i = Some o →
  turns_since_stable 0 ws !! i = Some k → waited o = Some d →
  d = Z.min (2 * second * 2 ^ k) (5 * minute) ∧ 2 * second <= d <= 5 * minute.
Proof.
  intros Ho Hk Hd.
  destruct (run_backoff _ _ _ _ _ _ ws 0 (initial f) i o k ltac:(lia) ltac:(by vm_compute) Ho Hk)
    as [Hk0 Hw]. specialize (Hw d Hd). subst d.
  split; [done|]. unfold backoff, minRestartDelay, maxRestartDelay.
  assert (0 < 2 ^ k) by (apply Z.pow_pos_nonneg; lia).
  unfold minute, second, millisecond. lia.
Qed.

Lemma backoff_schedule_witness :
  ∃ o, (runSupervisor toy_marker toy_marshal false "/opt/edr-agent" "/etc/edr/agent.toml" 0
          (initial ∅) [sample_world second; sample_world second; sample_world second]).1 !! 2%nat = Some o ∧
       waited o = Some (8 * second) ∧ 8 * second = Z.min (2 * second * 2 ^ 2) (5 * minute).
Proof.
  set (ws := [sample_world second; sample_world second; sample_world second]).
  destruct ((runSupervisor toy_marker toy_marshal false "/opt/edr-agent" "/etc/edr/agent.toml" 0
    (initial ∅) ws).1 !! 2%nat) as [o|] eqn:E; [|vm_compute in E; discriminate].
  exists o. assert (waited o = Some (8 * second)) as Hw by (vm_compute in E; by injection E as <-).
  split; [done|]. split; [done|].
  exact (proj1 (backoff_schedule toy_marker toy_marshal false "/opt/edr-agent" "/etc/edr/agent.toml" 0
    ∅ ws 2%nat o 2 (8 * second) E eq_refl Hw)).
Defined.

(** ** The crash limit *)

(** The number of crashes counted when each turn starts. *)
Fixpoint crash_counts (c : Z) (ws : list world) : list Z :=
  match ws with
  | [] => []
  | w :: ws => c :: crash_counts (if is_stable w then 1 else c + 1) ws
  end.

Lemma run_stops_iff pm ms win agentBin cfg maxC ws : ∀ s, Forall uninterrupted ws →
  (runSupervisor pm ms win agentBin cfg maxC s ws).2 = None ↔
  0 < maxC ∧ Exists (λ c, maxC <= c) (crash_counts (crashes s) ws).
Proof.
  induction ws as [|w ws IH]; intros s Hun.
  - simpl. rewrite Exists_nil. split; [done|tauto].
  - apply Forall_cons in Hun as [Hw Hun]. cbn [runSupervisor crash_counts].
    rewrite Exists_cons.
    destruct (turn_outcome pm ms win agentBin cfg maxC s w Hw)
      as [(H1 & H2 & ->)|(Hle & o & s' & E)]; [simpl; tauto|].
    rewrite E. specialize (IH s' Hun).
    destruct (turn_continues _ _ _ _ _ _ _ _ _ _ E) as (_ & _ & _ & Hc & _). rewrite Hc in IH.
    destruct (runSupervisor pm ms win agentBin cfg maxC s' ws) as [os s'']. cbn [snd] in *.
    rewrite IH. intuition lia.
Qed.

Lemma run_quick_starts pm ms win agentBin cfg maxC ws : ∀ s, Forall uninterrupted ws →
  Forall (λ w, is_stable w = false) ws → 0 < maxC → crashes s <= maxC → 
  maxC - crashes s < zlen ws →
  zlen (List.filter started (runSupervisor pm ms win agentBin cfg maxC s ws).1) = maxC - crashes s ∧
  (runSupervisor pm ms win agentBin cfg maxC s ws).2 = None.
Proof.
  unfold zlen. induction ws as [|w ws IH]; intros s Hun Hq Hm Hc Hlen; [simpl in Hlen; lia|].
  apply Forall_cons in Hun as [Hw Hun]. apply Forall_cons in Hq as [Hqw Hq]. cbn [runSupervisor].
  destruct (turn_outcome pm ms win agentBin cfg maxC s w Hw)
    as [(H1 & H2 & ->)|(Hle & o & s' & E)]; [simpl; split; [lia|done]|].
  rewrite E. destruct (turn_continues _ _ _ _ _ _ _ _ _ _ E) as (Hst & _ & _ & Hc' & _).
  rewrite Hqw in Hc'. destruct (IH s' Hun Hq Hm) as [H1 H2]; [lia|cbn [length] in Hlen; lia|].
  destruct (runSupervisor pm ms win agentBin cfg maxC s' ws) as [os s'']. cbn [fst snd] in *.
  split; [|done]. simpl. rewrite Hst. cbn [length]. lia.
Qed.

(** C40: the crash limit stops a crash loop and nothing else: while it is not asked
    to stop, the supervisor returns exactly when the limit is set and the crashes
    counted since the last stable run (which counts as one) reach it; so without a
    limit it never returns, with a limit of two or more it survives any number of
    stable runs, and an agent that only crashes is started exactly as many times
    as the limit says. *)
Theorem crash_limit_exact (parse_marker : string → option updateMarker) (marshal : Payload → string)
    (windows : bool) (agentBin cfg : string) (maxC : Z) (f : fs) (ws : list world) :
  Forall uninterrupted ws →
  let '(outs, s') := runSupervisor parse_marker marshal windows agentBin cfg maxC (initial f) ws in
  (s' = None ↔ 0 < maxC ∧ Exists (λ c, maxC <= c) (crash_counts 0 ws)) ∧
  (maxC <= 0 → s' ≠ None) ∧
  (2 <= maxC → Forall (λ w, is_stable w = true) ws → s' ≠ None) ∧
  (0 < maxC < zlen ws → Forall (λ w, is_stable w = false) ws →
     zlen (List.filter started outs) = maxC ∧ s' = None).
Proof.
  intros Hun.
  pose proof (run_stops_iff parse_marker marshal windows agentBin cfg maxC ws (initial f) Hun) as Hs.
  pose proof (run_quick_starts parse_marker marshal windows agentBin cfg maxC ws (initial f) Hun) as Hq.
  destruct (runSupervisor _ _ _ _ _ _ _ _) as [outs s']. cbn [fst snd crashes initial] in *.
  split_and!; [done| | |].
  - intros Hm [? _]%Hs. lia.
  - intros Hm Hst [_ Hex]%Hs. cut (∀ c, 0 <= c <= 1 → ¬ Exists (λ c, maxC <= c) (crash_counts c ws)).
    { intros Hc. by apply (Hc 0). }
    clear -Hm Hst. induction Hst as [|w ws Hw _ IH]; intros c Hc He; cbn [crash_counts] in He.
    + by apply Exists_nil in He.
    + rewrite Hw in He. apply Exists_cons in He as [?|He]; [lia|]. by apply (IH 1).
  - intros [H1 H2] Hst. destruct (Hq Hst H1) as [H3 H4]; [lia|lia|]. split; [lia|done].
Qed.

Lemma crash_limit_exact_witness :
  let ws := [sample_world second; sample_world second; sample_world second] in
  let '(outs, s') := runSupervisor toy_marker toy_marshal false "/opt/edr-agent" "/etc/edr/agent.toml" 2
                       (initial ∅) ws in
  zlen (List.filter started outs) = 2 ∧ s' = None.
Proof.
  intros ws.
  assert (Forall uninterrupted ws) as Hun by (repeat constructor).
  pose proof (crash_limit_exact toy_marker toy_marshal false "/opt/edr-agent" "/etc/edr/agent.toml" 2
    ∅ ws Hun) as HT.
  destruct (runSupervisor _ _ _ _ _ _ _ _) as [outs s'].
  destruct HT as (_ & _ & _ & HT). apply HT; [vm_compute; split; done|repeat constructor].
Defined.

(** With a limit of one, a run of any length is the last: the stable run that
    resets the count sets it to one. *)
Lemma limit_of_one_stops_after_a_stable_run :
  (runSupervisor toy_marker toy_marshal false "/opt/edr-agent" "/etc/edr/agent.toml" 1 (initial ∅)
     [sample_world (24 * hour); sample_world second]).2 = None.
Proof. by vm_compute. Qed.

(** ** Reported deaths *)
Lemma run_recorded pm ms win agentBin cfg maxC ws : ∀ s i o w, Forall uninterrupted ws →
  0 <= crashes s →
  (runSupervisor pm ms win agentBin cfg maxC s ws).1 !! i = Some o → ws !! i = Some w →
  started o = true →
  recorded o = negb (rolled_back o) && (((Z.of_nat i =? 0) && (crashes s =? 0)) || is_stable w).
Proof.
  induction ws as [|w0 ws IH]; intros s i o w Hun Hc Ho Hw Hst; [done|].
  apply Forall_cons in Hun as [Hw0 Hun]. cbn [runSupervisor] in Ho.
  destruct (turn_outcome pm ms win agentBin cfg maxC s w0 Hw0)
    as [(_ & _ & E)|(_ & o1 & s' & E)]; rewrite E in Ho.
  - destruct i; simpl in Ho; simplify_eq; done.
  - destruct (turn_continues _ _ _ _ _ _ _ _ _ _ E) as (_ & _ & _ & Hc' & Hr).
    destruct (runSupervisor pm ms win agentBin cfg maxC s' ws) as [os s''] eqn:Er.
    destruct i as [|i]; simpl in Ho, Hw; simplify_eq; [done|].
    assert (1 <= crashes s') as H1 by (rewrite Hc'; destruct (is_stable w0); lia).
    rewrite (IH s' i o w Hun ltac:(lia) ltac:(by rewrite Er) Hw Hst).
    destruct (Z.eqb_spec (crashes s') 0); [lia|]. rewrite andb_false_r.
    by destruct (Z.eqb_spec (Z.of_nat (S i)) 0); [lia|].
Qed.

(** Which deaths become findings: in a run that is not asked to stop, the death
    that ends a turn is recorded exactly when it was not undone by a rollback and
    it is the first of the run or follows at least thirty seconds of running; a
    crash loop spools one finding however long it lasts. *)
Theorem deaths_recorded (parse_marker : string → option updateMarker) (marshal : Payload → string)
    (windows : bool) (agentBin cfg : string) (maxC : Z) (f : fs) (ws : list world)
    (i : nat) (o : outcome) (w : world) :
  Forall uninterrupted ws →
  (runSupervisor parse_marker marshal windows agentBin cfg maxC (initial f) ws).1 !! i = Some o →
  ws !! i = Some w → started o = true →
  recorded o = true ↔
  rolled_back o = false ∧ (i = 0%nat ∨ 30 * second <= run_duration (w_run w)).
Proof.
  intros Hun Ho Hw Hst.
  rewrite (run_recorded _ _ _ _ _ _ _ (initial f) i o w Hun ltac:(simpl; lia) Ho Hw Hst).
  rewrite andb_true_iff, negb_true_iff, orb_true_iff. unfold is_stable.
  rewrite Z.leb_le. simpl. rewrite andb_true_r, Z.eqb_eq. unfold stableThreshold.
  assert (Z.of_nat i = 0 ↔ i = 0%nat) as -> by lia. done.
Qed.

Lemma deaths_recorded_witness :
  ∃ o, (runSupervisor toy_marker toy_marshal false "/opt/edr-agent" "/etc/edr/agent.toml" 0 (initial ∅)
          [sample_world second; sample_world minute]).1 !! 1%nat = Some o ∧ recorded o = true.
Proof.
  set (ws := [sample_world second; sample_world minute]).
  destruct ((runSupervisor toy_marker toy_marshal false "/opt/edr-agent" "/etc/edr/agent.toml" 0
    (initial ∅) ws).1 !! 1%nat) as [o|] eqn:E; [|vm_compute in E; discriminate].
  exists o. split; [done|].
  assert (started o = true ∧ rolled_back o = false) as [Hst Hrb]
    by (vm_compute in E; by injection E as <-).
  apply (deaths_recorded toy_marker toy_marshal false "/opt/edr-agent" "/etc/edr/agent.toml" 0 ∅ ws
    1%nat o (sample_world minute)); [by repeat constructor|exact E|done|done|].
  split; [exact Hrb|right; by vm_compute].
Defined.

(** A first crash that is rolled back counts as the first death: when the old
    agent is then killed at once, nothing is recorded. *)
Lemma kill_after_rollback_unrecorded :
  map (λ o, (rolled_back o, recorded o))
    (runSupervisor toy_marker toy_marshal false "/opt/edr-agent" "/etc/edr/agent.toml" 0
       (initial sample_disk) [sample_world second; sample_world second]).1 =
  [(true, false); (false, false)].
Proof. by vm_compute. Qed.
