(* ===== verification/Access.v ===== *)
(** * Access control state: server/internal/auth

    [ratelimit.go] (the fixed-window rate limiter), [blocklist.go] (revoked tokens)
    and [usercache.go] (the cache of account status), each with the clean-up that
    runs beside it, and their theorems.  The database behind the user cache is a
    parameter; a request's clock reading is an argument; a critical section is one
    step, and [IsActive], which holds no lock while it asks the database, is two. *)

From S2P Require Import Prelude GoStrings.

#[local] Open Scope string_scope.
#[local] Open Scope list_scope.
#[local] Open Scope Z_scope.

(** ** The rate limiter *)
Record windowEntry : Type := Entry { count : Z; resetAt : time }.

Record RateLimiter : Type := Limiter {
  entries : gmap string windowEntry; limit : Z; rl_window : duration }.

Definition NewRateLimiter (limit : Z) (window : duration) : RateLimiter := Limiter ∅ limit window.

Definition set_entry (rl : RateLimiter) (key : string) (e : windowEntry) : RateLimiter :=
  Limiter (<[key := e]> (entries rl)) (limit rl) (rl_window rl).

Definition Allow (rl : RateLimiter) (key : string) (now : time) : RateLimiter * bool :=
  match entries rl !! key with
  | None => (set_entry rl key (Entry 1 (now + rl_window rl)), true)
  | Some e =>
      if resetAt e <? now then (set_entry rl key (Entry 1 (now + rl_window rl)), true)
      else if limit rl <=? count e then (rl, false)
      else (set_entry rl key (Entry (count e + 1) (resetAt e)), true)
  end.

(** One pass of [cleanupLoop]. *)
Definition cleanup (rl : RateLimiter) (now : time) : RateLimiter :=
  Limiter (filter (λ p, ¬ resetAt p.2 < now) (entries rl)) (limit rl) (rl_window rl).

(** [Middleware]: whether the request is passed on (otherwise it gets 429). *)
Definition Middleware (rateLimitDisabled : bool) (rl : RateLimiter) (clientIP : string) (now : time) :
    RateLimiter * bool :=
  if rateLimitDisabled then (rl, true) else Allow rl clientIP now.

(** ** Revoked tokens *)
Abbreviation blocklist := (gmap string time) (only parsing).
Definition NewTokenBlocklist : blocklist := ∅.
Definition Revoke (b : blocklist) (jti : string) (expiry : time) : blocklist := <[jti := expiry]> b.

Definition IsRevoked (b : blocklist) (jti : string) (now : time) : bool :=
  if String.eqb jti "" then false else
  match b !! jti with None => false | Some exp => now <? exp end.

Definition pruneExpired (b : blocklist) (now : time) : blocklist :=
  filter (λ p, ¬ p.2 < now) b.

(** ** Account status *)
Definition userCacheTTL : duration := 5 * minute.

Record userStatusEntry : Type := Status { active : bool; loadedAt : time }.

Abbreviation user_cache := (gmap string userStatusEntry) (only parsing).

(** The database's answer for a user: no such row, an error, or the flag. *)
Inductive db_answer : Type := NoRows | DbError | IsActiveFlag (active : bool).

(** The cached answer, while it is fresh. *)
Definition cached (c : user_cache) (userID : string) (now : time) : option bool :=
  match c !! userID with
  | Some e => if now - loadedAt e <? userCacheTTL then Some (active e) else None
  | None => None
  end.

(** What follows the query: the cache and the answer. *)
Definition after_query (c : user_cache) (userID : string) (answer : db_answer) (now : time) :
    user_cache * bool :=
  match answer with
  | NoRows => (c, false)
  | DbError => (c, true)
  | IsActiveFlag a => (<[userID := Status a now]> c, a)
  end.

Definition IsActive (c : user_cache) (userID : string) (answer : db_answer) (now : time) :
    user_cache * bool :=
  match cached c userID now with
  | Some a => (c, a)
  | None => after_query c userID answer now
  end.

Definition Invalidate (c : user_cache) (userID : string) : user_cache := delete userID c.

(** ** Theorems: the rate limiter *)
Inductive rl_event : Type := Request (key : string) (now : time) | Cleanup (now : time).

Definition event_time (ev : rl_event) : time :=
  match ev with Request _ t => t | Cleanup t => t end.

(** The times at which requests of [key] are allowed. *)
Fixpoint allowed_times (rl : RateLimiter) (key : string) (evs : list rl_event) : list time :=
  match evs with
  | [] => []
  | Cleanup t :: evs => allowed_times (cleanup rl t) key evs
  | Request k t :: evs =>
      let '(rl, ok) := Allow rl k t in
      let rest := allowed_times rl key evs in
      if ok && String.eqb k key then t :: rest else rest
  end.

(** The clock does not go back. *)
Fixpoint times_from (last : time) (evs : list rl_event) : Prop :=
  match evs with [] => True | ev :: evs => last <= event_time ev ∧ times_from (event_time ev) evs end.

Definition upto (x : time) (ts : list time) : Z := zlen (List.filter (λ t, t <=? x) ts).

Lemma upto_cons x t ts : upto x (t :: ts) = (if t <=? x then 1 else 0) + upto x ts.
Proof. unfold upto, zlen. simpl. destruct (t <=? x); simpl length; lia. Qed.

Lemma upto_nonneg x ts : 0 <= upto x ts.
Proof. apply zlen_nonneg. Qed.

Lemma times_from_weaken last last' evs : last' <= last → times_from last evs → times_from last' evs.
Proof. destruct evs; simpl; [done|]. intros ? [? ?]. split; [lia|done]. Qed.

Lemma upto_late rl key evs : ∀ x last, x < last → times_from last evs →
  upto x (allowed_times rl key evs) = 0.
Proof.
  revert rl. induction evs as [|ev evs IH]; intros rl x last Hx Ht; [done|].
  destruct Ht as [Hl Ht]. destruct ev as [k t|t]; cbn [allowed_times event_time] in *.
  - destruct (Allow rl k t) as [rl' ok]. destruct (ok && String.eqb k key).
    + rewrite upto_cons. destruct (Z.leb_spec t x); [lia|]. rewrite (IH rl' x t); [done|lia|done].
    + apply (IH rl' x t); [lia|done].
  - apply (IH _ x t); [lia|done].
Qed.

(** Another key's request does not touch the entry. *)
Lemma Allow_other rl k key t : k ≠ key →
  entries (Allow rl k t).1 !! key = entries rl !! key ∧
  limit (Allow rl k t).1 = limit rl ∧ rl_window (Allow rl k t).1 = rl_window rl.
Proof.
  intros Hk. unfold Allow, set_entry. repeat case_match; simpl; rewrite ?lookup_insert_ne by done; done.
Qed.

Lemma Allow_params rl k t :
  limit (Allow rl k t).1 = limit rl ∧ rl_window (Allow rl k t).1 = rl_window rl.
Proof. unfold Allow, set_entry. repeat case_match; done. Qed.

(** Within a window that is open until [x] or later, what is left of the limit. *)
Lemma upto_open key x evs : ∀ rl e last, times_from last evs →
  entries rl !! key = Some e → x <= resetAt e →
  upto x (allowed_times rl key evs) <= Z.max 0 (limit rl - count e).
Proof.
  induction evs as [|ev evs IH]; intros rl e last Ht He Hx.
  { change (upto x (allowed_times rl key [])) with 0. lia. }
  destruct Ht as [Hl Ht]. destruct ev as [k t|t]; cbn [allowed_times event_time] in *.
  - destruct (decide (k = key)) as [->|Hk].
    + unfold Allow. rewrite He, String.eqb_refl.
      destruct (Z.ltb_spec (resetAt e) t); cbn [andb].
      * rewrite upto_cons. destruct (Z.leb_spec t x); [lia|].
        rewrite (upto_late _ _ _ x t); [lia|lia|done].
      * destruct (Z.leb_spec (limit rl) (count e)); cbn [andb]; [by apply (IH rl e t)|].
        rewrite upto_cons.
        specialize (IH (set_entry rl key (Entry (count e + 1) (resetAt e))) (Entry (count e + 1) (resetAt e)) t Ht).
        simpl in IH. rewrite lookup_insert_eq in IH. specialize (IH eq_refl Hx).
        destruct (t <=? x); lia.
    + destruct (Allow_other rl k key t Hk) as (H1 & H2 & _).
      apply String.eqb_neq in Hk. rewrite Hk, <- H2.
      destruct (Allow rl k t) as [rl' ok]. rewrite andb_false_r. cbn [fst] in *.
      apply (IH rl' e t); [done|congruence|done].
  - destruct (decide (resetAt e < t)).
    + rewrite (upto_late _ _ _ x t); [lia|lia|done].
    + apply (IH (cleanup rl t) e t); [done| |done].
      simpl. apply map_lookup_filter_Some. done.
Qed.

(** What is left of the window that is open at [last]. *)
Definition remaining (rl : RateLimiter) (key : string) (last : time) : Z :=
  match entries rl !! key with
  | None => 0
  | Some e => if resetAt e <? last then 0 else Z.max 0 (limit rl - count e)
  end.

(** During one window length: the rest of the open window and one more. *)
Lemma upto_two_windows key x evs : ∀ rl last, times_from last evs → x - rl_window rl <= last →
  upto x (allowed_times rl key evs) <= remaining rl key last + Z.max 1 (limit rl).
Proof.
  induction evs as [|ev evs IH]; intros rl last Ht Hw.
  { change (upto x (allowed_times rl key [])) with 0. unfold remaining. repeat case_match; lia. }
  destruct Ht as [Hl Ht]. destruct ev as [k t|t]; cbn [allowed_times event_time] in *.
  - destruct (decide (k = key)) as [->|Hk].
    + rewrite String.eqb_refl.
      assert (upto x (t :: allowed_times (set_entry rl key (Entry 1 (t + rl_window rl))) key evs)
              <= Z.max 1 (limit rl)) as Hopen.
      { rewrite upto_cons.
        pose proof (upto_open key x evs (set_entry rl key (Entry 1 (t + rl_window rl)))
          (Entry 1 (t + rl_window rl)) t Ht) as Ho. simpl in Ho. rewrite lookup_insert_eq in Ho.
        specialize (Ho eq_refl ltac:(lia)). destruct (t <=? x); lia. }
      unfold Allow, remaining. destruct (entries rl !! key) as [e|] eqn:He; cbn [andb]; [|lia].
      destruct (Z.ltb_spec (resetAt e) t); cbn [andb]; [destruct (resetAt e <? last); lia|].
      destruct (Z.ltb_spec (resetAt e) last); [lia|].
      destruct (Z.leb_spec (limit rl) (count e)); cbn [andb].
      * specialize (IH rl t Ht ltac:(lia)). unfold remaining in IH. rewrite He in IH.
        destruct (Z.ltb_spec (resetAt e) t); lia.
      * rewrite upto_cons.
        specialize (IH (set_entry rl key (Entry (count e + 1) (resetAt e))) t Ht ltac:(simpl; lia)).
        unfold remaining in IH. simpl in IH. rewrite lookup_insert_eq in IH. simpl in IH.
        destruct (Z.ltb_spec (resetAt e) t), (t <=? x); lia.
    + destruct (Allow_other rl k key t Hk) as (H1 & H2 & H3).
      apply String.eqb_neq in Hk. rewrite Hk. destruct (Allow rl k t) as [rl' ok].
      rewrite andb_false_r. cbn [fst] in *.
      specialize (IH rl' t Ht ltac:(lia)). unfold remaining in *. rewrite H1, H2 in IH.
      destruct (entries rl !! key) as [e|]; [|lia].
      destruct (Z.ltb_spec (resetAt e) t), (Z.ltb_spec (resetAt e) last); lia.
  - specialize (IH (cleanup rl t) t Ht ltac:(simpl; lia)). unfold remaining in *. simpl in IH.
    destruct (entries rl !! key) as [e|] eqn:He.
    + destruct (decide (resetAt e < t)) as [Hd|Hd].
      * rewrite (proj2 (map_lookup_filter_None _ _ _)) in IH
          by (right; intros e' He' Hn; simplify_eq; simpl in Hn; lia).
        destruct (Z.ltb_spec (resetAt e) last); lia.
      * rewrite (proj2 (map_lookup_filter_Some _ _ key e)) in IH by (split; [done|simpl; lia]).
        destruct (Z.ltb_spec (resetAt e) t), (Z.ltb_spec (resetAt e) last); lia.
    + rewrite (proj2 (map_lookup_filter_None _ _ _)) in IH by by left. lia.
Qed.

(** The requests of [key] allowed in the window length that ends at [x]. *)
Definition allowed_within (w x : time) (ts : list time) : Z :=
  zlen (List.filter (λ t, (x - w <? t) && (t <=? x)) ts).

Lemma allowed_within_cons w x t ts :
  allowed_within w x (t :: ts) =
  (if (x - w <? t) && (t <=? x) then 1 else 0) + allowed_within w x ts.
Proof. unfold allowed_within, zlen. simpl. destruct (_ && _); simpl length; lia. Qed.

Lemma allowed_within_upto w x ts : allowed_within w x ts <= upto x ts.
Proof.
  induction ts as [|t ts IH]; [done|]. rewrite allowed_within_cons, upto_cons.
  destruct (x - w <? t), (t <=? x); simpl; lia.
Qed.

Definition counts_positive (rl : RateLimiter) : Prop :=
  ∀ key e, entries rl !! key = Some e → 1 <= count e.

Lemma set_entry_positive rl k e : 1 <= count e → counts_positive rl → counts_positive (set_entry rl k e).
Proof.
  intros He Hp key e'. simpl. destruct (decide (k = key)) as [->|].
  - rewrite lookup_insert_eq. by intros [= <-].
  - rewrite lookup_insert_ne by done. apply Hp.
Qed.

Lemma Allow_positive rl k t : counts_positive rl → counts_positive (Allow rl k t).1.
Proof.
  intros Hp. unfold Allow. destruct (entries rl !! k) as [e|] eqn:He.
  - pose proof (Hp k e He). destruct (resetAt e <? t); [apply set_entry_positive; [simpl; lia|done]|].
    destruct (limit rl <=? count e); [done|]. apply set_entry_positive; [simpl; lia|done].
  - apply set_entry_positive; [simpl; lia|done].
Qed.

Lemma cleanup_positive rl t : counts_positive rl → counts_positive (cleanup rl t).
Proof. intros Hp key e He. simpl in He. apply map_lookup_filter_Some in He as [He _]. by eapply Hp. Qed.

Lemma allowed_bound key x evs : ∀ rl last, counts_positive rl → times_from last evs →
  allowed_within (rl_window rl) x (allowed_times rl key evs) <= 2 * Z.max 1 (limit rl).
Proof.
  induction evs as [|ev evs IH]; intros rl last Hp Ht; [change (allowed_within (rl_window rl) x (allowed_times rl key [])) with 0; lia|].
  destruct Ht as [Hl Ht].
  destruct (Z.le_gt_cases (event_time ev) (x - rl_window rl)) as [Hle|Hgt].
  - destruct ev as [k t|t]; cbn [allowed_times event_time] in *.
    + pose proof (Allow_positive rl k t Hp) as Hp'. destruct (Allow_params rl k t) as [H1 H2].
      destruct (Allow rl k t) as [rl' ok]. cbn [fst] in *.
      specialize (IH rl' t Hp' Ht). rewrite H1, H2 in IH.
      destruct (ok && String.eqb k key); [|done]. rewrite allowed_within_cons.
      destruct (Z.ltb_spec (x - rl_window rl) t); [lia|]. simpl. lia.
    + by apply (IH (cleanup rl t) t (cleanup_positive rl t Hp)).
  - etrans; [apply allowed_within_upto|].
    pose proof (upto_two_windows key x (ev :: evs) rl (event_time ev) (conj (Z.le_refl _) Ht)
      ltac:(lia)) as Hu.
    unfold remaining in Hu. destruct (entries rl !! key) as [e|] eqn:He; [|lia].
    apply Hp in He. destruct (resetAt e <? event_time ev); lia.
Qed.

(** ** No false refusal *)
Fixpoint limiter_after (rl : RateLimiter) (evs : list rl_event) : RateLimiter :=
  match evs with
  | [] => rl
  | Request k t :: evs => limiter_after (Allow rl k t).1 evs
  | Cleanup t :: evs => limiter_after (cleanup rl t) evs
  end.

(** [h] are the allowed requests of [key] so far, up to [last]: each one the entry
    counts was made since its window opened. *)
Definition accounted (rl : RateLimiter) (key : string) (last : time) (h : list time) : Prop :=
  ∀ e, entries rl !! key = Some e →
    resetAt e - rl_window rl <= last ∧
    count e <= zlen (List.filter (λ t, resetAt e - rl_window rl <=? t) h).

Lemma accounted_later rl key last last' h : last <= last' → accounted rl key last h → accounted rl key last' h.
Proof. intros Hl Ha e He. destruct (Ha e He). split; [lia|done]. Qed.

Lemma accounted_snoc rl key t h e c : accounted rl key t h →
  (resetAt e = t + rl_window rl ∧ c = 0 ∨ (∃ e0, entries rl !! key = Some e0 ∧ resetAt e0 = resetAt e ∧ c = count e0)) →
  0 <= rl_window rl → count e = c + 1 →
  accounted (set_entry rl key e) key t (h ++ [t]).
Proof.
  intros Ha Hcase Hw Hc e' He'. simpl in He'. rewrite lookup_insert_eq in He'. injection He' as <-.
  simpl. rewrite List.filter_app, zlen_app. simpl.
  pose proof (zlen_nonneg (List.filter (λ t0, resetAt e - rl_window rl <=? t0) h)).
  destruct Hcase as [[Hr ->]|(e0 & He0 & Hr & ->)].
  - destruct (Z.leb_spec (resetAt e - rl_window rl) t); [|lia]. change (zlen [t]) with 1. lia.
  - destruct (Ha e0 He0) as [H1 H2]. rewrite Hr in *.
    destruct (Z.leb_spec (resetAt e - rl_window rl) t); [|lia]. change (zlen [t]) with 1. lia.
Qed.

Lemma accounted_run key evs : ∀ rl last h, 0 <= rl_window rl → times_from last evs →
  accounted rl key last h →
  ∃ last', (∀ t, (∀ ev, ev ∈ evs → event_time ev <= t) → last <= t → last' <= t) ∧
  accounted (limiter_after rl evs) key last' (h ++ allowed_times rl key evs) ∧
  rl_window (limiter_after rl evs) = rl_window rl ∧ limit (limiter_after rl evs) = limit rl.
Proof.
  induction evs as [|ev evs IH]; intros rl last h Hw Ht Ha.
  { exists last. rewrite app_nil_r. auto. }
  destruct Ht as [Hl Ht]. apply (accounted_later _ _ _ (event_time ev)) in Ha; [|done].
  assert (∃ rl' h', limiter_after rl (ev :: evs) = limiter_after rl' evs ∧
    h ++ allowed_times rl key (ev :: evs) = h' ++ allowed_times rl' key evs ∧
    rl_window rl' = rl_window rl ∧ limit rl' = limit rl ∧ accounted rl' key (event_time ev) h')
    as (rl' & h' & -> & -> & Hw' & Hl' & Ha').
  { destruct ev as [k t|t]; cbn [limiter_after allowed_times event_time] in *.
    - destruct (Allow_params rl k t) as [Hli Hwi]. exists (Allow rl k t).1.
      destruct (decide (k = key)) as [->|Hk].
      + rewrite String.eqb_refl. unfold Allow in *. destruct (entries rl !! key) as [e|] eqn:He.
        * destruct (resetAt e <? t); cbn [fst andb] in *.
          { exists (h ++ [t]). rewrite <- app_assoc. split_and!; try done.
            apply (accounted_snoc _ _ _ _ _ 0); auto. }
          destruct (limit rl <=? count e); cbn [fst andb] in *; [by exists h|].
          exists (h ++ [t]). rewrite <- app_assoc. split_and!; try done.
          apply (accounted_snoc _ _ _ _ _ (count e)); eauto 6.
        * cbn [fst andb] in *. exists (h ++ [t]). rewrite <- app_assoc. split_and!; try done.
          apply (accounted_snoc _ _ _ _ _ 0); auto.
      + destruct (Allow_other rl k key t Hk) as (He & _).
        apply String.eqb_neq in Hk. rewrite Hk. exists h.
        destruct (Allow rl k t) as [rl' ok]. cbn [fst] in *. rewrite andb_false_r.
        split_and!; try done. intros e He'. rewrite He in He'. rewrite Hwi. by apply Ha.
    - exists (cleanup rl t), h. split_and!; try done. intros e He. simpl in He.
      apply map_lookup_filter_Some in He as [He _]. by apply Ha. }
  destruct (IH rl' (event_time ev) h') as (last' & Hlast & Hacc & Hw2 & Hl2); [lia|done|done|].
  exists last'. rewrite Hw2, Hl2. split_and!; try done.
  intros t Hts Hlt. apply Hlast; [intros ev' Hin; apply Hts; set_solver|apply Hts; set_solver].
Qed.

(** C30: the rate limiter admits at most twice its limit, and refuses only at its
    limit.  On every sequence of requests and clean-up passes whose clock does
    not go back: in any span of one window length at most twice the limit (at
    least one) of one key's requests are allowed; and a request is refused only
    when that many, the limit, of the same key's requests were allowed in the
    window length before it.  Clean-up and other keys change neither. *)
Theorem rate_limit_bounds (lim : Z) (window : duration) (start : time) (evs : list rl_event)
    (key : string) (x : time) :
  0 <= window → times_from start evs →
  let rl := NewRateLimiter lim window in
  allowed_within window x (allowed_times rl key evs) <= 2 * Z.max 1 lim ∧
  ((∀ ev, ev ∈ evs → event_time ev <= x) → start <= x →
   (Allow (limiter_after rl evs) key x).2 = false →
   lim <= zlen (List.filter (λ t, x - window <=? t) (allowed_times rl key evs))).
Proof.
  intros Hw Ht rl. split.
  - apply (allowed_bound key x evs rl start); [|done]. intros k e. simpl. by rewrite lookup_empty.
  - intros Hts Hx. destruct (accounted_run key evs rl start [] Hw Ht) as (last & Hlast & Ha & Hw' & Hl').
    { intros e. simpl. by rewrite lookup_empty. }
    unfold Allow. destruct (entries (limiter_after rl evs) !! key) as [e|] eqn:He; [|done].
    destruct (Z.ltb_spec (resetAt e) x); [done|].
    destruct (Z.leb_spec (limit (limiter_after rl evs)) (count e)) as [Hc|]; [intros _|done].
    destruct (Ha e He) as [_ Hcount]. rewrite Hl' in Hc. rewrite Hw' in Hcount. simpl in Hc, Hcount.
    etrans; [exact Hc|]. etrans; [exact Hcount|]. unfold zlen. apply inj_le.
    clear -H. induction (allowed_times rl key evs) as [|t ts IH]; [done|]. simpl.
    destruct (Z.leb_spec (resetAt e - window) t), (Z.leb_spec (x - window) t); simpl; lia.
Qed.

Lemma rate_limit_bounds_witness :
  let evs := [Request "10.0.0.1" 0; Request "10.0.0.1" 1; Cleanup 2; Request "10.0.0.1" 3] in
  let rl := NewRateLimiter 2 minute in
  allowed_times rl "10.0.0.1" evs = [0; 1] ∧
  allowed_within minute 3 (allowed_times rl "10.0.0.1" evs) <= 4.
Proof.
  intros evs rl. split; [by vm_compute|].
  refine (proj1 (rate_limit_bounds 2 minute 0 evs "10.0.0.1" 3 _ _)).
  - by vm_compute.
  - vm_compute. intuition congruence.
Defined.

(** Around the turn of a window twice the limit gets through in two nanoseconds. *)
Lemma rate_limit_burst :
  allowed_times (NewRateLimiter 2 minute) "a"
    [Request "a" 0; Request "a" minute; Request "a" (minute + 1); Request "a" (minute + 1);
     Request "a" (minute + 1)] = [0; minute; minute + 1; minute + 1].
Proof. by vm_compute. Qed.

(** ** Theorems: revoked tokens *)
Inductive bl_event : Type := Revoked (jti : string) (expiry now : time) | Pruned (now : time).

Definition bl_time (ev : bl_event) : time := match ev with Revoked _ _ t => t | Pruned t => t end.

Definition bl_step (b : blocklist) (ev : bl_event) : blocklist :=
  match ev with Revoked j exp _ => Revoke b j exp | Pruned t => pruneExpired b t end.

(** The expiry of the last revocation of the token. *)
Fixpoint last_revocation (jti : string) (evs : list bl_event) (acc : option time) : option time :=
  match evs with
  | [] => acc
  | Revoked j exp _ :: evs => last_revocation jti evs (if String.eqb j jti then Some exp else acc)
  | Pruned _ :: evs => last_revocation jti evs acc
  end.

Fixpoint bl_clock (last : time) (evs : list bl_event) (now : time) : Prop :=
  match evs with
  | [] => last <= now
  | ev :: evs => last <= bl_time ev ∧ bl_clock (bl_time ev) evs now
  end.

(** The list agrees with the history on what is not expired. *)
Lemma bl_agree jti evs : ∀ (b : blocklist) acc last now,
  bl_clock last evs now →
  (∀ t, last <= t → (∃ e, b !! jti = Some e ∧ t < e) ↔ (∃ e, acc = Some e ∧ t < e)) →
  (∃ e, foldl bl_step b evs !! jti = Some e ∧ now < e) ↔
  (∃ e, last_revocation jti evs acc = Some e ∧ now < e).
Proof.
  induction evs as [|ev evs IH]; intros b acc last now Hc Hag; [by apply Hag|].
  destruct Hc as [Hl Hc]. destruct ev as [j exp t|t]; cbn [foldl bl_step last_revocation].
  - apply (IH _ _ _ _ Hc). intros u Hu. simpl in *. unfold Revoke.
    destruct (String.eqb_spec j jti) as [->|Hj]; [by setoid_rewrite lookup_insert_eq|].
    setoid_rewrite (lookup_insert_ne b j jti exp Hj). apply Hag. lia.
  - apply (IH _ _ _ _ Hc). intros u Hu. simpl in *. rewrite <- Hag by lia.
    unfold pruneExpired. setoid_rewrite map_lookup_filter_Some. simpl. split.
    + intros (e & [? ?] & ?). eauto.
    + intros (e & ? & ?). exists e. split_and!; [done|lia|done].
Qed.

(** Revocation is exact: whatever was revoked and pruned before, with a clock
    that does not go back, a token is reported as revoked exactly when it has an
    identifier and its last revocation has not expired; pruning never lets a
    revoked token through and never keeps one past its expiry. *)
Theorem revocation_exact (evs : list bl_event) (start now : time) (jti : string) :
  bl_clock start evs now →
  IsRevoked (foldl bl_step NewTokenBlocklist evs) jti now = true ↔
  jti ≠ "" ∧ ∃ e, last_revocation jti evs None = Some e ∧ now < e.
Proof.
  intros Hc.
  rewrite <- (bl_agree jti evs NewTokenBlocklist None start now Hc).
  - unfold IsRevoked. destruct (String.eqb_spec jti ""); [naive_solver|].
    destruct (foldl bl_step NewTokenBlocklist evs !! jti) as [e|]; [|naive_solver].
    rewrite Z.ltb_lt. naive_solver.
  - intros t _. unfold NewTokenBlocklist. setoid_rewrite lookup_empty. naive_solver.
Qed.

Lemma revocation_exact_witness :
  let evs := [Revoked "t" 100 0; Pruned 50; Revoked "u" 60 55; Pruned 70] in
  bl_clock 0 evs 80 ∧ IsRevoked (foldl bl_step NewTokenBlocklist evs) "t" 80 = true.
Proof.
  intros evs. assert (bl_clock 0 evs 80) as Hc by (vm_compute; intuition congruence).
  split; [exact Hc|]. apply (proj2 (revocation_exact evs 0 80 "t" Hc)).
  split; [discriminate|]. exists 100. split; [done|lia].
Defined.

(** ** Theorems: account status *)

(** Steps of the cache: a request that is answered in one piece, the two halves of
    one that asks the database and stores later, and an invalidation. *)
Inductive uc_event : Type :=
| Ask (userID : string) (answer : db_answer) (now : time)
| StoreLate (userID : string) (answered : bool) (now : time)
| Drop (userID : string).

Definition uc_step (c : user_cache) (ev : uc_event) : user_cache :=
  match ev with
  | Ask u a t => (IsActive c u a t).1
  | StoreLate u a t => (after_query c u (IsActiveFlag a) t).1
  | Drop u => Invalidate c u
  end.

(** The database answered that the flag of [u] is [a], and the answer was stored
    at [t]. *)
Definition answered (evs : list uc_event) (u : string) (a : bool) (t : time) : Prop :=
  Ask u (IsActiveFlag a) t ∈ evs ∨ StoreLate u a t ∈ evs.

Lemma cache_answered evs : ∀ (c : user_cache) u e,
  foldl uc_step c evs !! u = Some e → c !! u = Some e ∨ answered evs u (active e) (loadedAt e).
Proof.
  unfold answered. induction evs as [|ev evs IH] using rev_ind; intros c u e; [by left|].
  rewrite foldl_app. cbn [foldl]. set (c1 := foldl uc_step c evs).
  assert (c1 !! u = Some e →
          c !! u = Some e ∨ Ask u (IsActiveFlag (active e)) (loadedAt e) ∈ evs ++ [ev] ∨
          StoreLate u (active e) (loadedAt e) ∈ evs ++ [ev]) as Hold.
  { intros H%IH. destruct H as [?|[?|?]]; [by left|right; left|right; right]; set_solver. }
  destruct ev as [v a t|v a t|v]; cbn [uc_step].
  - unfold IsActive. destruct (cached c1 v t); [exact Hold|].
    destruct a as [| |a]; [exact Hold|exact Hold|]. cbn [after_query fst].
    destruct (decide (v = u)) as [->|]; [|rewrite lookup_insert_ne by done; exact Hold].
    rewrite lookup_insert_eq. intros [= <-]. right; left. set_solver.
  - cbn [after_query fst].
    destruct (decide (v = u)) as [->|]; [|rewrite lookup_insert_ne by done; exact Hold].
    rewrite lookup_insert_eq. intros [= <-]. right; right. set_solver.
  - unfold Invalidate. destruct (decide (v = u)) as [->|]; [by rewrite lookup_delete_eq|].
    rewrite lookup_delete_ne by done. exact Hold.
Qed.

(** An account's status is never older than the cache's five minutes: a request
    that is answered without an error of the database is let through only if the
    database says now, or said in an answer stored less than five minutes ago,
    that the account is active; a user that does not exist and is not cached is
    refused, and only an error of the database lets an unknown status through. *)
Theorem status_at_most_five_minutes_old (evs : list uc_event) (u : string) (a : db_answer) (now : time) :
  let c := foldl uc_step ∅ evs in
  (IsActive c u a now).2 = true →
  a = IsActiveFlag true ∨ a = DbError ∨
  ∃ t, answered evs u true t ∧ now - t < 5 * minute.
Proof.
  intros c. unfold IsActive, cached. destruct (c !! u) as [e|] eqn:He.
  - destruct (Z.ltb_spec (now - loadedAt e) userCacheTTL) as [Hlt|].
    + intros Ha. simpl in Ha. apply cache_answered in He as [He|He]; [by rewrite lookup_empty in He|].
      rewrite Ha in He. eauto.
    + destruct a as [| |[]]; simpl; auto; done.
  - destruct a as [| |[]]; simpl; auto; done.
Qed.

Lemma status_at_most_five_minutes_old_witness :
  (∃ t, answered [Ask "u" (IsActiveFlag true) 0] "u" true t ∧ minute - t < 5 * minute).
Proof.
  destruct (status_at_most_five_minutes_old [Ask "u" (IsActiveFlag true) 0] "u" NoRows minute)
    as [H|[H|H]]; [by vm_compute|discriminate|discriminate|exact H].
Defined.

(** Invalidating does not reach a request that has asked the database and not yet
    stored the answer: the account that was deactivated in between is let through
    from the cache afterwards. *)
Lemma invalidate_races_with_a_query :
  let c := foldl uc_step ∅ [Drop "u"; StoreLate "u" true second] in
  (IsActive c "u" (IsActiveFlag false) (2 * minute)).2 = true.
Proof. by vm_compute. Qed.
