(* ===== verification/AlertPipeline.v ===== *)
(** * The alert pipeline of the API server

    [server/internal/detection/alert_pipeline.go]: an event delivered by the
    message bus is flattened, its parent is looked up, and the Sigma evaluator,
    the indicator matcher, the user-defined rules and the anomaly detector speak
    in turn; a match becomes a row of [alerts] unless it repeats within five
    minutes, follows from the product's own containment, or is suppressed.  The
    goroutines an alert starts are recorded as effects with their arguments and
    run on the engines of [Remediation.v] and [Correlation.v], in any order.
    What the database answers and the clock are data. *)

From S2P Require Import Prelude GoStrings Event Binary64 Isolation Isolator CommandLine.
From S2P Require Import ProcessChain SigmaFields CustomRules StatAnomaly Ip IocMatcher Suppression.
From S2P Require Import Sigma.
From S2P Require Remediation Correlation Detection.

#[local] Open Scope string_scope.
#[local] Open Scope list_scope.
#[local] Open Scope Z_scope.

(** ** Rows *)
Record insertAlertParams := mkParams {
  q_AgentID : string;
  q_Hostname : string;
  q_RuleName : string;
  q_Severity : Z;
  q_Title : string;
  q_Description : string;
  q_Status : string;
  q_MITRETech : string;
  q_EventIDs : list string;
  q_Suppression : SuppressionContext
}.

(** What the filters look at. *)
Definition candidate (q : insertAlertParams) : StoredAlert :=
  mkStoredAlert (q_RuleName q) (q_Hostname q) (q_Severity q) (q_MITRETech q) (q_AgentID q).

Definition candidate_alert (q : insertAlertParams) : Detection.Alert :=
  Detection.mkAlert "" (q_AgentID q) (q_Hostname q) "" "" (q_RuleName q) (q_Severity q) ""
    (q_Title q) "" [] (q_MITRETech q) [] false fzero 0.

Inductive AlertEffect :=
| RowInserted (q : insertAlertParams) (id : string)
| RowRefused (q : insertAlertParams) (err : string)
| HitCounted (ruleID : string)
| AlertPublished (subject id : string)
| AlertBroadcast (id severity title agent : string)
| RemediationSpawned (id agent hostname : string) (severity : Z) (tags : list string)
| CorrelationSpawned (id agent eventType tech : string) (severity : Z) (data : event)
| AnomalySaved (user : string) (r : AnomalyResult).

(** The outside while one match is handled: the clock, whether the product
    contained the host recently, and what the insertion answers. *)
Record MatchAnswers := mkAnswers {
  at_clock : time;
  at_containment : res bool;
  at_insert : res string
}.

(** ** The pipeline *)
Record AlertPipeline := mkPipeline {
  p_sigma : list CompiledSigmaRule;
  p_ioc : option IOCMatcher;
  p_anomaly : baselines;
  p_parents : option parentResolver;
  p_custom : option CustomRuleEvaluator;
  p_suppression : option SuppressionMatcher;
  p_suppressionHit : bool;
  p_selfRemediation : bool;
  p_nats : bool;
  p_remediation : bool;
  p_corr : bool;
  p_dedupCache : gmap string time;
  p_effects : list AlertEffect
}.

Definition NewAlertPipeline (nats : bool) : AlertPipeline :=
  mkPipeline [] None ∅ (Some ∅) (Some NewCustomRuleEvaluator) None false false nats false false
    ∅ [].

Definition log (xs : list AlertEffect) (p : AlertPipeline) : AlertPipeline :=
  mkPipeline (p_sigma p) (p_ioc p) (p_anomaly p) (p_parents p) (p_custom p) (p_suppression p)
    (p_suppressionHit p) (p_selfRemediation p) (p_nats p) (p_remediation p) (p_corr p)
    (p_dedupCache p) (p_effects p ++ xs).
Definition with_cache (d : gmap string time) (p : AlertPipeline) : AlertPipeline :=
  mkPipeline (p_sigma p) (p_ioc p) (p_anomaly p) (p_parents p) (p_custom p) (p_suppression p)
    (p_suppressionHit p) (p_selfRemediation p) (p_nats p) (p_remediation p) (p_corr p)
    d (p_effects p).
Definition with_detectors (a : baselines) (r : option parentResolver)
    (c : option CustomRuleEvaluator) (p : AlertPipeline) : AlertPipeline :=
  mkPipeline (p_sigma p) (p_ioc p) a r c (p_suppression p)
    (p_suppressionHit p) (p_selfRemediation p) (p_nats p) (p_remediation p) (p_corr p)
    (p_dedupCache p) (p_effects p).
Definition SetSuppressionMatcher (m : option SuppressionMatcher) (hits : bool) (p : AlertPipeline)
    : AlertPipeline :=
  mkPipeline (p_sigma p) (p_ioc p) (p_anomaly p) (p_parents p) (p_custom p) m
    hits (p_selfRemediation p) (p_nats p) (p_remediation p) (p_corr p)
    (p_dedupCache p) (p_effects p).
Definition SetSelfRemediationSuppressor (s : bool) (p : AlertPipeline) : AlertPipeline :=
  mkPipeline (p_sigma p) (p_ioc p) (p_anomaly p) (p_parents p) (p_custom p) (p_suppression p)
    (p_suppressionHit p) s (p_nats p) (p_remediation p) (p_corr p)
    (p_dedupCache p) (p_effects p).
Definition SetRemediationEngine (r : bool) (p : AlertPipeline) : AlertPipeline :=
  mkPipeline (p_sigma p) (p_ioc p) (p_anomaly p) (p_parents p) (p_custom p) (p_suppression p)
    (p_suppressionHit p) (p_selfRemediation p) (p_nats p) r (p_corr p)
    (p_dedupCache p) (p_effects p).
Definition SetCorrelationEngine (c : bool) (p : AlertPipeline) : AlertPipeline :=
  mkPipeline (p_sigma p) (p_ioc p) (p_anomaly p) (p_parents p) (p_custom p) (p_suppression p)
    (p_suppressionHit p) (p_selfRemediation p) (p_nats p) (p_remediation p) c
    (p_dedupCache p) (p_effects p).

(** The subjects consumed: one for each event type a rule may match, sorted. *)
Definition pipelineSubjects : list string :=
  keys (sort_keys ((λ kc, ("events.*." +:+ kc.1, tt)) <$> eventTypeCategories)).

(** ** Repeated alerts *)
Definition isDuplicate (now : time) (key : string) (window : duration) (d : gmap string time)
    : gmap string time * bool :=
  if match d !! key with Some last => now - last <? window | None => false end
  then (d, true) else (<[key := now]> d, false).

(** ** Severities and techniques *)
Definition severityIntToLabel (sev : Z) : string :=
  if 9 <=? sev then "critical" else if 7 <=? sev then "high" else
  if 4 <=? sev then "medium" else "low".

Definition sigmaLevelToInt (level : string) : Z :=
  if String.eqb level "critical" then 10 else if String.eqb level "high" then 8 else
  if String.eqb level "medium" then 5 else if String.eqb level "low" then 3 else
  if String.eqb level "informational" then 1 else 3.

Definition listed (ts : list string) (tech : string) : bool :=
  existsb (String.eqb (to_upper tech)) ts.

Definition cloudAttackTechniques : list string :=
  ["T1526"; "T1580"; "T1619"; "T1136.003"; "T1098.001"; "T1098.003"; "T1562.008"; "T1562.007";
   "T1578"; "T1552.005"; "T1552.007"; "T1078.004"].
Definition isCloudTechnique : string → bool := listed cloudAttackTechniques.

Definition adAttackTechniques : list string :=
  ["T1482"; "T1087.002"; "T1018"; "T1069.002"; "T1135"; "T1615"; "T1558.003"; "T1558.004";
   "T1558.001"; "T1550.002"; "T1550.003"; "T1003.006"; "T1207"; "T1649"; "T1187"; "T1557.001"].
Definition isADTechnique : string → bool := listed adAttackTechniques.

Definition ransomwarePrecursorTechniques : list string :=
  ["T1490"; "T1489"; "T1562.001"; "T1562.004"; "T1485"; "T1561"; "T1070.001"].
Definition isRansomwarePrecursor : string → bool := listed ransomwarePrecursorTechniques.

Definition exfilTechniques : list string :=
  ["T1560.001"; "T1071.002"; "T1071.003"; "T1071.004"; "T1048"; "T1567.002"].
Definition isExfilTechnique : string → bool := listed exfilTechniques.

Definition containerEscalationTechniques : list string :=
  ["T1610"; "T1611"; "T1609"; "T1552.007"; "T1613"].
Definition isContainerEscalation : string → bool := listed containerEscalationTechniques.

Definition credentialTheftTechniques : list string :=
  ["T1003.001"; "T1003.002"; "T1003.003"; "T1003.004"; "T1003.005"; "T1003.006"; "T1003.007";
   "T1003.008"; "T1555.001"; "T1555.003"; "T1555.004"; "T1555.005"; "T1552.001"; "T1552.002";
   "T1552.003"; "T1552.004"; "T1552.005"; "T1552.006"; "T1558.001"; "T1558.003"; "T1558.004"].
Definition isCredentialTheft : string → bool := listed credentialTheftTechniques.

Definition discoveryReconTechniques : list string :=
  ["T1087"; "T1087.001"; "T1087.002"; "T1082"; "T1016"; "T1018"; "T1046"; "T1057"; "T1069";
   "T1069.001"; "T1069.002"; "T1049"; "T1033"; "T1007"; "T1012"; "T1518"; "T1518.001"; "T1615";
   "T1482"; "T1135"; "T1201"; "T1613"].
Definition isDiscoveryRecon : string → bool := listed discoveryReconTechniques.

(** The copy of the event the correlation engine gets. *)
Definition mark (b : bool) (k v : string) (d : event) : event :=
  if b then set_key d k (VStr v) else d.

Definition corr_data (tech : string) (ev : event) : event :=
  let d := set_key ev "_matched_technique" (VStr tech) in
  let d := if isCloudTechnique tech then set_key d "_attack_surface" (VStr "cloud")
           else mark (isADTechnique tech) "_attack_surface" "ad" d in
  let d := mark (isRansomwarePrecursor tech) "_ransomware_precursor" "true" d in
  let d := mark (isExfilTechnique tech) "_exfil_activity" "true" d in
  let d := mark (isContainerEscalation tech) "_container_escalation" "true" d in
  let d := mark (isCredentialTheft tech) "_credential_theft" "true" d in
  mark (isDiscoveryRecon tech) "_discovery_recon" "true" d.

(** ** Saving *)
Inductive insert_outcome := Inserted (id : string) | Suppressed | InsertFailed.

Section Pipeline.
Context (regexp_compile : string → option (string → bool)).
Context (is_print : Z → bool).

Definition insertAlert (t : MatchAnswers) (q : insertAlertParams) (p : AlertPipeline)
    : AlertPipeline * insert_outcome :=
  if Detection.IsSelfInflicted (p_selfRemediation p) (at_containment t) (candidate_alert q)
  then (p, Suppressed) else
  let '(hit, _, ruleID) :=
    match p_suppression p with
    | Some m => IsSuppressed regexp_compile (at_clock t) m (candidate q) (q_Suppression q)
    | None => (false, "", "")
    end in
  if hit : bool then
    (log (if p_suppressionHit p then [HitCounted ruleID] else []) p, Suppressed)
  else
    match at_insert t with
    | Ok id => (log [RowInserted q id] p, Inserted id)
    | Err err => (log [RowRefused q err] p, InsertFailed)
    end.

Definition publishAlertCreated (id : string) (p : AlertPipeline) : AlertPipeline :=
  if p_nats p then log [AlertPublished "alert.created" id; AlertPublished "alerts.new" id] p
  else p.

Definition when (b : bool) (x : AlertEffect) : list AlertEffect := if b then [x] else [].

(** ** A match of a Sigma rule *)
Definition sigma_severity (m : SigmaMatch) : Z :=
  if s_Severity m =? 0 then sigmaLevelToInt (Level m) else s_Severity m.

Definition sigma_params (m : SigmaMatch) (ev : event) (evidence : string) : insertAlertParams :=
  mkParams (str_or_empty ev "agent_id") (str_or_empty ev "hostname") (RuleTitle m)
    (sigma_severity m) ("[Sigma] " +:+ RuleTitle m)
    ("Sigma rule '" +:+ RuleTitle m +:+ "' matched (level: " +:+ Level m +:+ ")") "open"
    (parseMITRETechFromTags (Tags m)) (Detection.evidenceEventIDs evidence)
    (SuppressionContextFrom ev).

Definition after_sigma_row (m : SigmaMatch) (ev : event) (id : string) (p : AlertPipeline)
    : AlertPipeline :=
  let agent := str_or_empty ev "agent_id" in
  let tech := parseMITRETechFromTags (Tags m) in
  log ([AlertBroadcast id (Level m) ("[Sigma] " +:+ RuleTitle m) agent] ++
       when (p_remediation p)
         (RemediationSpawned id agent (str_or_empty ev "hostname") (sigma_severity m) (Tags m)) ++
       when (p_corr p)
         (CorrelationSpawned id agent (str_or_empty ev "type") tech (sigma_severity m)
            (corr_data tech ev)))
    (publishAlertCreated id p).

Definition createAlertFromSigma (t : MatchAnswers) (m : SigmaMatch) (ev : event)
    (evidence : string) (p : AlertPipeline) : AlertPipeline :=
  let key := str_or_empty ev "agent_id" +:+ ":" +:+ RuleTitle m in
  let '(d, dup) := isDuplicate (at_clock t) key (5 * minute) (p_dedupCache p) in
  let p := with_cache d p in
  if dup : bool then p else
  let '(p, o) := insertAlert t (sigma_params m ev evidence) p in
  match o with
  | Inserted id => after_sigma_row m ev id p
  | _ => p
  end.

(** ** A match of an indicator: no check for repetitions *)
Definition IOCAlertTitlePrefixEN : string := "Known IOC detected: ".

Definition ioc_params (h : IOCMatch) (ev : event) (evidence : string) : insertAlertParams :=
  mkParams (str_or_empty ev "agent_id") (str_or_empty ev "hostname")
    ("IOC Match: " +:+ ioc_Type (im_IOC h)) (ioc_Severity (im_IOC h))
    (IOCAlertTitlePrefixEN +:+ im_Value h)
    ("Field '" +:+ MatchedOn h +:+ "' matched " +:+ ioc_Type (im_IOC h) +:+ " IOC: "
       +:+ ioc_Description (im_IOC h)) "open" "" (Detection.evidenceEventIDs evidence)
    (SuppressionContextFrom ev).

Definition after_ioc_row (h : IOCMatch) (ev : event) (id : string) (p : AlertPipeline)
    : AlertPipeline :=
  let agent := str_or_empty ev "agent_id" in
  let sev := ioc_Severity (im_IOC h) in
  log ([AlertBroadcast id (severityIntToLabel sev) (IOCAlertTitlePrefixEN +:+ im_Value h) agent] ++
       when (p_remediation p)
         (RemediationSpawned id agent (str_or_empty ev "hostname") sev ["ioc"; ioc_Type (im_IOC h)]) ++
       when (p_corr p)
         (CorrelationSpawned id agent (str_or_empty ev "type") "" sev ev))
    (publishAlertCreated id p).

Definition createAlertFromIOC (t : MatchAnswers) (h : IOCMatch) (ev : event) (evidence : string)
    (p : AlertPipeline) : AlertPipeline :=
  let '(p, o) := insertAlert t (ioc_params h ev evidence) p in
  match o with
  | Inserted id => after_ioc_row h ev id p
  | _ => p
  end.

(** ** A match of a user-defined rule: saved and published, nothing more *)
Definition custom_params (m : CustomRuleMatch) (ev : event) (evidence : string)
    : insertAlertParams :=
  let r := cm_Rule m in
  let title := if String.eqb (cr_AlertTitle r) "" then cr_Name r else cr_AlertTitle r in
  let desc :=
    if 1 <? cm_Count m then
      cr_AlertDescription r +:+ " (" +:+ itoa (cm_Count m) +:+ "件/" +:+ itoa (cr_TimeWindowSeconds r)
        +:+ "秒)"
    else cr_AlertDescription r in
  mkParams (str_or_empty ev "agent_id") (str_or_empty ev "hostname") (cr_Name r) (cr_Severity r)
    title desc "open" (match cr_MitreTags r with t :: _ => t | [] => "" end)
    (Detection.evidenceEventIDs evidence) (SuppressionContextFrom ev).

Definition createAlertFromCustomRule (t : MatchAnswers) (m : CustomRuleMatch) (ev : event)
    (evidence : string) (p : AlertPipeline) : AlertPipeline :=
  let key := "custom:" +:+ str_or_empty ev "agent_id" +:+ ":" +:+ cr_ID (cm_Rule m) in
  let '(d, dup) := isDuplicate (at_clock t) key (5 * minute) (p_dedupCache p) in
  let p := with_cache d p in
  if dup : bool then p else
  let '(p, o) := insertAlert t (custom_params m ev evidence) p in
  match o with
  | Inserted id => publishAlertCreated id p
  | _ => p
  end.

(** ** An event *)
Fixpoint for_each {A} (f : MatchAnswers → A → AlertPipeline → AlertPipeline)
    (ts : nat → MatchAnswers) (k : nat) (l : list A) (p : AlertPipeline) : AlertPipeline :=
  match l with
  | [] => p
  | x :: l' => for_each f ts (S k) l' (f (ts k) x p)
  end.

(** One delivery: the envelope ([None]: not JSON), the orders in which the alias
    table is visited, the clocks and the answers. *)
Record Delivery := mkDelivery {
  dv_envelope : option event;
  dv_order : list alias;
  dv_order_again : list alias;
  dv_parents_at : time;
  dv_sigma : nat → MatchAnswers;
  dv_ioc : nat → MatchAnswers;
  dv_custom_at : time;
  dv_custom : nat → MatchAnswers;
  dv_ueba_at : time;
  dv_hour : Z
}.

(** The event the detectors see. *)
Definition seen_event (v : Delivery) (envelope : event) (parents : option parentResolver)
    : event * option parentResolver :=
  let ev := flattenNormalizedEvent is_print (dv_order v) envelope in
  match parents with
  | None => (ev, None)
  | Some r =>
      let '(ev, r) := enrich_parent (dv_parents_at v) ev r in
      (addPipelineSigmaAliases is_print (dv_order_again v) ev, Some r)
  end.

Definition evaluate_custom (now : time) (ev : event) (c : option CustomRuleEvaluator)
    : option CustomRuleEvaluator * list CustomRuleMatch :=
  match c with
  | None => (None, [])
  | Some e => let '(e, ms) := evaluateAt regexp_compile now ev e in (Some e, ms)
  end.

Definition handleEvent (v : Delivery) (p : AlertPipeline) : AlertPipeline :=
  match dv_envelope v with
  | None => p
  | Some envelope =>
      let '(ev, r) := seen_event v envelope (p_parents p) in
      let p := with_detectors (p_anomaly p) r (p_custom p) p in
      let evidence := str_or_empty envelope "event_id" in
      let p := for_each (λ t m, createAlertFromSigma t m ev evidence) (dv_sigma v) 0
                 (EvaluateEvent (p_sigma p) ev).1 p in
      let p := for_each (λ t h, createAlertFromIOC t h ev evidence) (dv_ioc v) 0
                 (match p_ioc p with Some m => IocMatcher.CheckEvent m ev | None => [] end) p in
      let '(c, ms) := evaluate_custom (dv_custom_at v) ev (p_custom p) in
      let p := with_detectors (p_anomaly p) (p_parents p) c p in
      let p := for_each (λ t m, createAlertFromCustomRule t m ev evidence) (dv_custom v) 0 ms p in
      let '(a, rs) := checkUEBAAnomaly (dv_ueba_at v) (dv_hour v) ev (p_anomaly p) in
      log (AnomalySaved (user_of ev) <$> rs) (with_detectors a (p_parents p) (p_custom p) p)
  end.

Definition handleEvents (vs : list Delivery) (p : AlertPipeline) : AlertPipeline :=
  foldl (λ p v, handleEvent v p) p vs.
End Pipeline.

(** ** The goroutines *)
Definition run_correlation (at_ now : time) (uid : string) (x : AlertEffect) (e : Correlation.Engine)
    : Correlation.Engine * option Correlation.Incident :=
  match x with
  | CorrelationSpawned id agent eventType tech severity data =>
      Correlation.ProcessAlert e id agent eventType tech severity data at_ now uid
  | _ => (e, None)
  end.

Section Goroutines.
Context {I : Type} `{!Isolator I}.

Definition run_remediation (vs : nat → Remediation.Env) (x : AlertEffect) (e : Remediation.Engine I)
    : Remediation.Engine I * list Remediation.ExecutionLog :=
  match x with
  | RemediationSpawned id agent hostname severity tags =>
      Remediation.TriggerOnAlert vs id agent hostname severity tags e
  | _ => (e, [])
  end.
End Goroutines.

Example subjects_sorted :
  pipelineSubjects = (λ t, "events.*." +:+ t) <$>
    ["auth"; "create_remote_thread"; "credential_access"; "device_event"; "dns"; "file";
     "image_load"; "memory"; "named_pipe"; "network"; "pipe_created"; "process"; "ps_classic";
     "ps_module"; "registry"; "script"; "tamper"; "wmi_activity"].
Proof. by vm_compute. Qed.
