(* ===== verification/AlertPipelineProofs.v ===== *)
(** * The alert pipeline: theorems

    Every announcement of an alert follows its row and agrees with it; the chains
    of techniques the correlation rules look for never pass in silence, in
    whatever order the goroutines run. *)

From S2P Require Import Prelude GoStrings Event Binary64 Isolation Isolator CommandLine.
From S2P Require Import CommandLineProofs.
From S2P Require Import ProcessChain SigmaFields CustomRules StatAnomaly Ip IocMatcher Suppression.
From S2P Require Import Sigma AlertPipeline.
From S2P Require Remediation Correlation CorrelationProofs Detection.

#[local] Open Scope string_scope.
#[local] Open Scope list_scope.
#[local] Open Scope Z_scope.

(** ** Effects are appended in orderly blocks *)
Definition announces (x : AlertEffect) : option string :=
  match x with
  | AlertPublished _ id | AlertBroadcast id _ _ _ | RemediationSpawned id _ _ _ _
  | CorrelationSpawned id _ _ _ _ _ => Some id
  | _ => None
  end.

(** What an announcement says is what the row holds. *)
Definition agrees (q : insertAlertParams) (x : AlertEffect) : Prop :=
  match x with
  | AlertBroadcast _ _ title agent => title = q_Title q ∧ agent = q_AgentID q
  | RemediationSpawned _ agent host sev _ =>
      agent = q_AgentID q ∧ host = q_Hostname q ∧ sev = q_Severity q
  | CorrelationSpawned _ agent _ tech sev _ =>
      agent = q_AgentID q ∧ tech = q_MITRETech q ∧ sev = q_Severity q
  | _ => True
  end.

Definition follows_row (es : list AlertEffect) : Prop :=
  ∀ l1 x l2 id, es = l1 ++ x :: l2 → announces x = Some id →
    ∃ q, RowInserted q id ∈ l1 ∧ agrees q x.

Definition both_subjects (id : string) : list AlertEffect :=
  [AlertPublished "alert.created" id; AlertPublished "alerts.new" id].

Definition rows_published (nats : bool) (es : list AlertEffect) : Prop :=
  ∀ l1 q id l2, es = l1 ++ RowInserted q id :: l2 → nats = true →
    both_subjects id `prefix_of` l2.

(** The data of a correlation carry the markers of its technique. *)
Definition marked (x : AlertEffect) : Prop :=
  match x with
  | CorrelationSpawned _ _ _ tech _ data => tech = "" ∨ ∃ ev, data = corr_data tech ev
  | _ => True
  end.

Record orderly (nats : bool) (es : list AlertEffect) : Prop := {
  orderly_follows : follows_row es;
  orderly_published : rows_published nats es;
  orderly_marked : Forall marked es
}.

Lemma split_app {A} (es es' l1 : list A) x l2 : es ++ es' = l1 ++ x :: l2 →
  (∃ l2', es = l1 ++ x :: l2' ∧ l2 = l2' ++ es') ∨ (∃ l1', es' = l1' ++ x :: l2 ∧ l1 = es ++ l1').
Proof.
  revert l1. induction es as [|y es IH]; intros l1 H; [right; exists l1; auto|].
  destruct l1 as [|z l1]; injection H as -> H; [left; exists es; subst; auto|].
  destruct (IH l1 H) as [(l2' & -> & ->)|(l1' & -> & ->)]; [left|right]; eauto.
Qed.

Lemma orderly_nil nats : orderly nats [].
Proof. split; [..|constructor]; intros l1; intros; destruct l1; discriminate. Qed.

Lemma orderly_app nats es es' : orderly nats es → orderly nats es' → orderly nats (es ++ es').
Proof.
  intros [Hf Hp Hm] [Hf' Hp' Hm']. split; [..|by apply Forall_app].
  - intros l1 x l2 id [(l2' & E & ->)|(l1' & E & ->)]%split_app Hx.
    + apply (Hf l1 x l2' id E Hx).
    + destruct (Hf' l1' x l2 id E Hx) as (q & Hq & Ha). exists q. set_solver.
  - intros l1 q id l2 [(l2' & E & ->)|(l1' & E & ->)]%split_app Hn.
    + apply prefix_app_r, (Hp _ _ _ _ E Hn).
    + apply (Hp' _ _ _ _ E Hn).
Qed.

(** Effects that are neither rows nor announcements. *)
Definition quiet (x : AlertEffect) : bool :=
  match x with RowInserted _ _ => false | _ => bool_decide (announces x = None) end.

Lemma orderly_quiet nats es : forallb quiet es = true → orderly nats es.
Proof.
  intros Hq. assert (∀ l1 x l2, es = l1 ++ x :: l2 → quiet x = true) as Hx.
  { intros l1 x l2 ->. rewrite forallb_app in Hq. simpl in Hq.
    by apply andb_true_iff in Hq as [_ [? _]%andb_true_iff]. }
  split; [intros l1 x l2 id E Ha|intros l1 x l2 id E|].
  - apply Hx in E. by destruct x.
  - apply Hx in E. done.
  - apply Forall_forall. intros x (l1 & l2 & E)%list_elem_of_split. apply Hx in E.
    by destruct x.
Qed.

Definition speaks_of (q : insertAlertParams) (id : string) (x : AlertEffect) : Prop :=
  announces x = Some id ∧ agrees q x ∧ marked x.

Lemma orderly_block (nats : bool) q id es : Forall (speaks_of q id) es →
  (nats = true → both_subjects id `prefix_of` es) → orderly nats (RowInserted q id :: es).
Proof.
  intros Hes Hn. split; [..|constructor; [done|]; eapply Forall_impl; [exact Hes|]; by intros x (_ & _ & ?)].
  - intros [|y l1] x l2 id' E Hx; injection E as <- E; [discriminate|].
    assert (x ∈ es) as Hin by (rewrite E; set_solver).
    rewrite Forall_forall in Hes. destruct (Hes x Hin) as (Hx' & Ha & _).
    exists q. split; [|done]. rewrite Hx in Hx'. injection Hx' as ->. set_solver.
  - intros [|y l1] q' id' l2 E Hnats; [injection E as <- <- <-; auto|].
    injection E as _ E. assert (RowInserted q' id' ∈ es) as Hin by (rewrite E; set_solver).
    rewrite Forall_forall in Hes. by destruct (Hes _ Hin).
Qed.

(** ** What each step appends *)
Section Effects.
Context (regexp_compile : string → option (string → bool)) (is_print : Z → bool).

(** A step keeps the wiring and appends an orderly block. *)
Definition well_behaved (p p' : AlertPipeline) : Prop :=
  p_nats p' = p_nats p ∧ p_corr p' = p_corr p ∧ p_remediation p' = p_remediation p ∧
  p_sigma p' = p_sigma p ∧
  ∃ es, p_effects p' = p_effects p ++ es ∧ orderly (p_nats p) es.

#[export] Instance well_behaved_preorder : PreOrder well_behaved.
Proof.
  split.
  - intros p. repeat split. exists []. rewrite app_nil_r. split; [done|apply orderly_nil].
  - intros p p2 p3 (Hn & Hc & Hr & Hs & es & E & Ho) (Hn' & Hc' & Hr' & Hs' & es' & E' & Ho').
    repeat split; try congruence. exists (es ++ es'). rewrite E', E, app_assoc.
    split; [done|]. apply orderly_app; [done|congruence].
Qed.

Lemma well_behaved_log p es : orderly (p_nats p) es → well_behaved p (log es p).
Proof. intros. repeat split. by exists es. Qed.

Lemma well_behaved_cache p d : well_behaved p (with_cache d p).
Proof. repeat split. exists []. rewrite app_nil_r. split; [done|apply orderly_nil]. Qed.

Lemma well_behaved_detectors p a r c : well_behaved p (with_detectors a r c p).
Proof. repeat split. exists []. rewrite app_nil_r. split; [done|apply orderly_nil]. Qed.

Lemma log_log xs ys p : log ys (log xs p) = log (xs ++ ys) p.
Proof. unfold log. simpl. by rewrite app_assoc. Qed.

(** An insertion either leaves quiet effects and no row, or the row alone. *)
Lemma insertAlert_effects t q p :
  let '(p', o) := insertAlert regexp_compile t q p in
  match o with
  | Inserted id => p' = log [RowInserted q id] p
  | _ => ∃ es, p' = log es p ∧ forallb quiet es = true
  end.
Proof.
  unfold insertAlert. destruct (Detection.IsSelfInflicted _ _ _).
  { exists []. split; [|done]. unfold log. rewrite app_nil_r. by destruct p. }
  destruct (match p_suppression p with Some _ => _ | None => _ end) as [[hit ?] rid].
  destruct hit.
  - destruct (p_suppressionHit p); eexists; split; done.
  - destruct (at_insert t); [done|]. by eexists.
Qed.

Lemma publish_log id p :
  publishAlertCreated id p = log (if p_nats p then both_subjects id else []) p.
Proof.
  unfold publishAlertCreated. destruct (p_nats p); [done|].
  unfold log. rewrite app_nil_r. by destruct p.
Qed.

(** The common shape of the three ways to save an alert. *)
Lemma insert_then_announce t q p (after : string → AlertPipeline → AlertPipeline) :
  (∀ id p, ∃ es, after id p = log es (publishAlertCreated id p) ∧ Forall (speaks_of q id) es) →
  well_behaved p
    (let '(p', o) := insertAlert regexp_compile t q p in
     match o with Inserted id => after id p' | _ => p' end).
Proof.
  intros Hafter. pose proof (insertAlert_effects t q p) as Hi.
  destruct (insertAlert regexp_compile t q p) as [p' o]. destruct o as [id| |].
  - subst p'. destruct (Hafter id (log [RowInserted q id] p)) as (es & -> & Hes).
    rewrite publish_log, !log_log. apply well_behaved_log. simpl. apply orderly_block.
    + apply Forall_app. split; [|done]. destruct (p_nats p); [|done].
      repeat constructor.
    + intros ->. apply prefix_app_r. done.
  - destruct Hi as (es & -> & Hq). by apply well_behaved_log, orderly_quiet.
  - destruct Hi as (es & -> & Hq). by apply well_behaved_log, orderly_quiet.
Qed.

Ltac speaks :=
  unfold when; rewrite !Forall_app; split_and!; repeat case_match; try apply Forall_nil_2;
  apply Forall_singleton; split_and!; try done; simpl.

Lemma createAlertFromSigma_well_behaved t m ev evidence p :
  well_behaved p (createAlertFromSigma regexp_compile t m ev evidence p).
Proof.
  unfold createAlertFromSigma. destruct (isDuplicate _ _ _ _) as [d dup].
  destruct dup; [apply well_behaved_cache|]. etransitivity; [apply well_behaved_cache|].
  apply (insert_then_announce t (sigma_params m ev evidence) _ (λ id, after_sigma_row m ev id)).
  intros id p'. eexists. split; [done|]. speaks.
  right. by exists ev.
Qed.

Lemma createAlertFromIOC_well_behaved t h ev evidence p :
  well_behaved p (createAlertFromIOC regexp_compile t h ev evidence p).
Proof.
  apply (insert_then_announce t (ioc_params h ev evidence) _ (λ id, after_ioc_row h ev id)).
  intros id p'. eexists. split; [done|]. speaks. by left.
Qed.

Lemma createAlertFromCustomRule_well_behaved t m ev evidence p :
  well_behaved p (createAlertFromCustomRule regexp_compile t m ev evidence p).
Proof.
  unfold createAlertFromCustomRule. destruct (isDuplicate _ _ _ _) as [d dup].
  destruct dup; [apply well_behaved_cache|]. etransitivity; [apply well_behaved_cache|].
  apply (insert_then_announce t (custom_params m ev evidence) _ publishAlertCreated).
  intros id p'. exists []. split; [|done]. unfold log. rewrite app_nil_r.
  by destruct (publishAlertCreated id p').
Qed.

Lemma for_each_well_behaved {A} (f : MatchAnswers → A → AlertPipeline → AlertPipeline) ts k l p :
  (∀ t x p, well_behaved p (f t x p)) → well_behaved p (for_each f ts k l p).
Proof.
  intros Hf. revert k p. induction l as [|x l IH]; intros k p; [done|].
  simpl. etransitivity; [apply Hf|apply IH].
Qed.

Lemma well_behaved_trans_log p p' es : well_behaved p p' → (∀ nats, orderly nats es) →
  well_behaved p (log es p').
Proof. intros H Ho. etransitivity; [exact H|]. by apply well_behaved_log. Qed.

Lemma handleEvent_well_behaved v p : well_behaved p (handleEvent regexp_compile is_print v p).
Proof.
  unfold handleEvent. destruct (dv_envelope v) as [envelope|]; [|done].
  destruct (seen_event _ _ _ _) as [ev r]. cbv zeta.
  destruct (evaluate_custom _ _ _ _) as [c ms].
  destruct (checkUEBAAnomaly _ _ _ _) as [a rs].
  repeat first
    [ eapply well_behaved_trans_log
    | eapply transitivity; [|apply well_behaved_detectors]
    | eapply transitivity; [|apply for_each_well_behaved; intros;
        first [apply createAlertFromSigma_well_behaved | apply createAlertFromIOC_well_behaved
              | apply createAlertFromCustomRule_well_behaved]] ]; [reflexivity|].
  intros nats. apply orderly_quiet, forallb_forall. intros x Hx%list_elem_of_In.
  apply list_elem_of_fmap in Hx as (y & -> & _). done.
Qed.

Lemma handleEvents_well_behaved vs p : well_behaved p (handleEvents regexp_compile is_print vs p).
Proof.
  revert p. induction vs as [|v vs IH]; intros p; [done|].
  etransitivity; [apply handleEvent_well_behaved|apply IH].
Qed.
End Effects.

(** Whatever events arrive, every message, broadcast, remediation and
    correlation about an alert comes after the row of that alert was stored and
    says what the row says; and every stored row is at once published on both
    subjects, when there is a message bus. *)
Theorem announced_alerts_are_stored (regexp_compile : string → option (string → bool))
    (is_print : Z → bool) (vs : list Delivery) (p : AlertPipeline) : p_effects p = [] →
  let es := p_effects (handleEvents regexp_compile is_print vs p) in
  (∀ l1 x l2 id, es = l1 ++ x :: l2 → announces x = Some id →
     ∃ q, RowInserted q id ∈ l1 ∧ agrees q x) ∧
  (p_nats p = true → ∀ l1 q id l2, es = l1 ++ RowInserted q id :: l2 →
     both_subjects id `prefix_of` l2).
Proof.
  intros Hp. destruct (handleEvents_well_behaved regexp_compile is_print vs p)
    as (_ & _ & _ & _ & es & -> & [Hf Hr _]).
  rewrite Hp. split; [exact Hf|]. intros Hn l1 q id l2 E. apply (Hr _ _ _ _ E Hn).
Qed.

(** A pipeline with one rule, the bus and both engines, and one event. *)
Definition demo_rule : CompiledSigmaRule :=
  mkCompiled (mkSigmaRule "Cloud listing" "" "" "high" ["attack.discovery"; "attack.t1526"]
                (mkLogSource "" "process_creation" "") (mkDetection [] "" "") [] 0 [])
    (λ ev, bool_decide (str_or_empty ev "command_line" = "aws iam list-users")).

Definition demo (rules : list CompiledSigmaRule) : AlertPipeline :=
  mkPipeline rules None ∅ (Some ∅) (Some NewCustomRuleEvaluator) None false false true true true
    ∅ [].

Definition answers (now : time) (id : string) : MatchAnswers := mkAnswers now (Ok false) (Ok id).

Definition cloud_event (host : string) : event :=
  [("agent_id", VStr host); ("hostname", VStr "web-1"); ("type", VStr "process");
   ("data", VMap [("process", VMap [("command_line", VStr "aws iam list-users")])])].

Definition delivery (now : time) (id host : string) : Delivery :=
  mkDelivery (Some (cloud_event host)) aliases aliases now (λ _, answers now id)
    (λ _, answers now id) now (λ _, answers now id) now 12.

Definition demo_effects : list AlertEffect :=
  p_effects (handleEvents (λ _, None) (λ _, true) [delivery 0 "alert-1" "host-1"] (demo [demo_rule])).

Lemma announced_alerts_are_stored_witness :
  p_effects (demo [demo_rule]) = [] ∧ length demo_effects = 6%nat ∧
  ∃ q, RowInserted q "alert-1" ∈ take 5 demo_effects ∧ q_MITRETech q = "T1526" ∧ q_Severity q = 8.
Proof.
  destruct (announced_alerts_are_stored (λ _, None) (λ _, true) [delivery 0 "alert-1" "host-1"]
              (demo [demo_rule]) eq_refl) as [Hf _].
  destruct (Hf (take 5 demo_effects) (List.nth 5 demo_effects (HitCounted "")) [] "alert-1")
    as (q & Hq & Ha); [vm_compute; reflexivity..|].
  split; [done|]. split; [vm_compute; reflexivity|]. exists q. split; [exact Hq|].
  vm_compute in Ha. destruct Ha as (_ & Ht & Hs). by split; [rewrite Ht|rewrite Hs].
Defined.

(** ** Chains of techniques *)

(** The correlation rules that chain techniques, with the techniques each
    chains. *)
Definition chains : list (Correlation.CorrelationRule * (string → bool)) :=
  zip (drop 5 Correlation.BuiltinRules)
    [isCloudTechnique; isADTechnique; isRansomwarePrecursor; isExfilTechnique;
     isContainerEscalation; isCredentialTheft; isDiscoveryRecon].

Lemma get_mark_other b k v d k' : k' ≠ k → get (mark b k v d) k' = get d k'.
Proof. intros. unfold mark. destruct b; [by apply get_set_other|done]. Qed.

Lemma get_mark_same k v d : get (mark true k v d) k = Some (VStr v).
Proof. apply get_set_same. Qed.

Lemma ad_not_cloud tech : isADTechnique tech = true → isCloudTechnique tech = false.
Proof.
  unfold isADTechnique, isCloudTechnique, listed. intros (x & Hx & <-%String.eqb_eq)%existsb_exists.
  assert (forallb (λ t, negb (existsb (String.eqb t) cloudAttackTechniques)) adAttackTechniques = true)
    as Hd by by vm_compute.
  rewrite forallb_forall in Hd. by apply negb_true_iff, Hd.
Qed.

(** A rule that only asks for a marker holds of every alert that carries it. *)
Lemma marker_matches ev r k v :
  Correlation.EventTypes r = [] → Correlation.Conditions r = [Correlation.Cond k "eq" v] →
  String.eqb k "event_type" = false → String.eqb k "agent_id" = false →
  String.eqb k "severity" = false → equal_fold v v = true →
  get (Correlation.Data ev) k = Some (VStr v) → Correlation.eventMatchesRule ev r = true.
Proof.
  intros He Hc H1 H2 H3 Hv Hk. unfold Correlation.eventMatchesRule. rewrite He, Hc. simpl.
  unfold Correlation.evalCondition. simpl. rewrite H1, H2, H3, Hk. simpl.
  unfold Correlation.matchOp. simpl. by rewrite Hv.
Qed.

Ltac read_marker :=
  unfold corr_data;
  repeat first
    [ rewrite get_mark_same
    | rewrite get_mark_other by discriminate ].

Lemma chained_technique_matches r techs id agent et tech sev ev t : (r, techs) ∈ chains →
  techs tech = true →
  Correlation.eventMatchesRule
    (Correlation.make_event id agent et tech sev (corr_data tech ev) t) r = true.
Proof.
  intros Hr Ht. unfold chains in Hr. cbn [zip_with zip drop Correlation.BuiltinRules] in Hr.
  repeat (apply elem_of_cons in Hr as [[= -> ->]|Hr]; [|]); [..|by apply elem_of_nil in Hr].
  { eapply marker_matches; try reflexivity. simpl. read_marker. rewrite Ht. apply get_set_same. }
  { eapply marker_matches; try reflexivity. simpl. read_marker. rewrite (ad_not_cloud _ Ht), Ht.
    apply get_mark_same. }
  all: eapply marker_matches; try reflexivity; simpl; read_marker; rewrite Ht; apply get_mark_same.
Qed.

(** *** Running the goroutines *)
Record goroutine := mkGoroutine {
  g_effect : AlertEffect;
  g_at : time;
  g_now : time;
  g_uid : string
}.

Definition spawned_event (x : AlertEffect) (t : time) : option Correlation.alertEvent :=
  match x with
  | CorrelationSpawned id agent et tech sev data =>
      Some (Correlation.make_event id agent et tech sev data t)
  | _ => None
  end.

Fixpoint run_goroutines (gs : list goroutine) (e : Correlation.Engine)
    : Correlation.Engine * list Correlation.Incident :=
  match gs with
  | [] => (e, [])
  | g :: gs' =>
      let '(e, o) := run_correlation (g_at g) (g_now g) (g_uid g) (g_effect g) e in
      let '(e, incs) := run_goroutines gs' e in
      (e, match o with Some i => i :: incs | None => incs end)
  end.

Lemma process_rules_open ev now uid id rs : ∀ e,
  (Correlation.process_rules ev now uid rs e).2 = None →
  Correlation.hasOpenIncident (Correlation.process_rules ev now uid rs e).1 id =
  Correlation.hasOpenIncident e id.
Proof.
  induction rs as [|r rs IH]; intros e Hn; [done|]. cbn [Correlation.process_rules] in *.
  pose proof (CorrelationProofs.process_rule_open ev now uid r e id) as Ho.
  destruct (Correlation.process_rule ev now uid r e) as [e1 [i|]]; [done|].
  rewrite IH by done. by apply Ho.
Qed.

Lemma process_rules_other ev now uid id rs : ∀ e, id ∉ map Correlation.ID rs →
  Correlation.buffer (Correlation.process_rules ev now uid rs e).1 id = Correlation.buffer e id.
Proof.
  induction rs as [|r rs IH]; intros e Hi; [done|]. cbn [map Correlation.process_rules] in *.
  apply not_elem_of_cons in Hi as [Hne Hi].
  pose proof (CorrelationProofs.process_rule_buffer ev now uid r e id Hne) as Hb.
  destruct (Correlation.process_rule ev now uid r e) as [e1 [i|]]; [done|].
  by rewrite IH by done.
Qed.

Lemma process_rule_window ev now uid r e : (Correlation.process_rule ev now uid r e).2 = None →
  Correlation.buffer (Correlation.process_rule ev now uid r e).1 (Correlation.ID r) =
  if Correlation.eventMatchesRule ev r then CorrelationProofs.window e ev now r
  else Correlation.buffer e (Correlation.ID r).
Proof.
  unfold Correlation.process_rule, Correlation.appendAlertToIncident, CorrelationProofs.window.
  repeat case_match; try done; intros _; unfold Correlation.buffer at 1; simpl;
    by rewrite lookup_insert_eq.
Qed.

Lemma process_rules_silent ev now uid r rs : ∀ e, NoDup (map Correlation.ID rs) →
  (Correlation.process_rules ev now uid rs e).2 = None → r ∈ rs →
  Correlation.buffer (Correlation.process_rules ev now uid rs e).1 (Correlation.ID r) =
    if Correlation.eventMatchesRule ev r then CorrelationProofs.window e ev now r
    else Correlation.buffer e (Correlation.ID r).
Proof.
  induction rs as [|r0 rs IH]; intros e Hnd Hn Hr; [by apply elem_of_nil in Hr|].
  cbn [map] in Hnd. apply NoDup_cons in Hnd as [Hni Hnd]. cbn [Correlation.process_rules] in *.
  pose proof (process_rule_window ev now uid r0 e) as Hw.
  pose proof (CorrelationProofs.process_rule_buffer ev now uid r0 e (Correlation.ID r)) as Hb.
  destruct (Correlation.process_rule ev now uid r0 e) as [e1 [i|]]; [done|]. cbn [fst snd] in *.
  apply elem_of_cons in Hr as [->|Hr]; [by rewrite process_rules_other, Hw by done|].
  assert (Correlation.ID r ≠ Correlation.ID r0) as Hne.
  { intros Heq. apply Hni. rewrite <- Heq. by apply list_elem_of_fmap_2. }
  rewrite IH by done. unfold CorrelationProofs.window. by rewrite Hb.
Qed.

(** The matching alerts of a run, with a rule. *)
Definition hits_of (r : Correlation.CorrelationRule) (g : goroutine) : list Correlation.alertEvent :=
  match spawned_event (g_effect g) (g_at g) with
  | Some ev => if Correlation.eventMatchesRule ev r then [ev] else []
  | None => []
  end.

Lemma run_correlation_none at_ now uid x e : spawned_event x at_ = None →
  run_correlation at_ now uid x e = (e, None).
Proof. by destruct x. Qed.

Lemma run_correlation_some at_ now uid x e ev : spawned_event x at_ = Some ev →
  run_correlation at_ now uid x e = Correlation.process_rules ev now uid (Correlation.rules e) e.
Proof. destruct x; try done. by intros [= <-]. Qed.

Lemma spawned_at x t ev : spawned_event x t = Some ev → Correlation.At ev = t.
Proof. destruct x; try done. by intros [= <-]. Qed.

Lemma in_window_all c evs : Forall (λ ev, c < Correlation.At ev) evs →
  Correlation.in_window c evs = evs.
Proof.
  unfold Correlation.in_window. induction 1 as [|ev evs He _ IH]; [done|].
  simpl. destruct (Z.ltb_spec c (Correlation.At ev)); [by rewrite IH|lia].
Qed.

(** One alert that brings no incident: it joins the window if it matches, and the
    window is not full. *)
Lemma silent_turn r ev now uid e old seen (own := if Correlation.eventMatchesRule ev r then [ev] else [])
    (e' := (Correlation.process_rules ev now uid (Correlation.rules e) e).1) :
  NoDup (map Correlation.ID (Correlation.rules e)) → r ∈ Correlation.rules e →
  Correlation.hasOpenIncident e (Correlation.ID r) = false →
  (Correlation.process_rules ev now uid (Correlation.rules e) e).2 = None →
  Correlation.buffer e (Correlation.ID r) = old ++ seen →
  Forall (λ ev', now - Correlation.TimeWindow r < Correlation.At ev') (seen ++ [ev]) →
  zlen seen < Correlation.MinEvents r →
  (∃ old', Correlation.buffer e' (Correlation.ID r) = old' ++ seen ++ own) ∧
  Correlation.rules e' = Correlation.rules e ∧
  Correlation.hasOpenIncident e' (Correlation.ID r) = false ∧
  zlen (seen ++ own) < Correlation.MinEvents r.
Proof.
  intros Hnd Hr Ho Hn Hb Hin Hlen. subst e'.
  pose proof (CorrelationProofs.process_rules_result ev now uid _ e Hnd) as Hres. rewrite Hn in Hres.
  rewrite process_rules_silent, process_rules_open, CorrelationProofs.process_rules_rules by done.
  subst own. destruct (Correlation.eventMatchesRule ev r) eqn:Em;
    [|rewrite app_nil_r; split_and!; try done; by exists old].
  assert (CorrelationProofs.window e ev now r =
          Correlation.in_window (now - Correlation.TimeWindow r) old ++ seen ++ [ev]) as Hw.
  { unfold CorrelationProofs.window. rewrite Hb, <- app_assoc, CorrelationProofs.in_window_app.
    f_equal. by apply in_window_all. }
  split_and!; try done; [eexists; exact Hw|].
  assert (CorrelationProofs.opens e ev now r = false) as Hno.
  { destruct (List.find _ _) eqn:Ef in Hres; [done|].
    apply (List.find_none _ _ Ef). by apply list_elem_of_In. }
  unfold CorrelationProofs.opens in Hno. rewrite Em, Ho, Hw in Hno. simpl in Hno.
  rewrite andb_true_r in Hno. apply Z.leb_gt in Hno.
  unfold zlen in *. rewrite !length_app in *. lia.
Qed.

(** While no goroutine returns an incident and none is live, the window of the
    rule keeps the matching alerts and never fills up. *)
Lemma silent_run r gs : ∀ e old seen,
  NoDup (map Correlation.ID (Correlation.rules e)) → r ∈ Correlation.rules e →
  Correlation.hasOpenIncident e (Correlation.ID r) = false →
  (run_goroutines gs e).2 = [] →
  Correlation.buffer e (Correlation.ID r) = old ++ seen →
  Forall (λ ev, Forall (λ g, g_now g - Correlation.TimeWindow r < Correlation.At ev) gs) seen →
  (∀ g g', g ∈ gs → g' ∈ gs → g_now g - Correlation.TimeWindow r < g_at g') →
  zlen seen < Correlation.MinEvents r →
  zlen (seen ++ (gs ≫= hits_of r)) < Correlation.MinEvents r.
Proof.
  induction gs as [|g gs IH]; intros e old seen Hnd Hr Ho Hs Hb Hseen Hpair Hlen.
  { simpl. by rewrite app_nil_r. }
  cbn [run_goroutines] in Hs. simpl. unfold hits_of at 1.
  assert (∀ g g', g ∈ gs → g' ∈ gs → g_now g - Correlation.TimeWindow r < g_at g') as Hpair'
    by set_solver.
  rewrite Forall_forall in Hseen.
  assert (Forall (λ ev, Forall (λ g, g_now g - Correlation.TimeWindow r < Correlation.At ev) gs) seen)
    as Hrest by (apply Forall_forall; intros ev Hev; by destruct (proj1 (Forall_cons _ _ _) (Hseen ev Hev))).
  destruct (spawned_event (g_effect g) (g_at g)) as [ev|] eqn:Eev.
  - rewrite (run_correlation_some _ _ _ _ _ _ Eev) in Hs.
    pose proof (silent_turn r ev (g_now g) (g_uid g) e old seen Hnd Hr Ho) as Ht.
    destruct (Correlation.process_rules ev (g_now g) (g_uid g) (Correlation.rules e) e) as [e' o].
    cbn [fst snd] in *. destruct (run_goroutines gs e') as [e'' incs] eqn:Erun.
    destruct o as [i|]; [done|]. simpl in Hs. subst incs.
    assert (∀ g', g' ∈ g :: gs → g_now g' - Correlation.TimeWindow r < Correlation.At ev) as Hev.
    { intros g' Hg'. rewrite (spawned_at _ _ _ Eev). apply Hpair; set_solver. }
    destruct Ht as ((old' & Hb') & Hrules & Ho' & Hlen'); try done.
    { apply Forall_app. split; [|constructor; [|done]; apply Hev; set_solver].
      apply Forall_forall. intros ev' Hev'. by destruct (proj1 (Forall_cons _ _ _) (Hseen ev' Hev')). }
    rewrite app_assoc. apply (IH e' old'); rewrite ?Hrules; try done; [by rewrite Erun|].
    apply Forall_app. split; [done|]. apply Forall_forall. intros ev' Hev'. apply Forall_forall.
    intros g' Hg'. destruct (Correlation.eventMatchesRule ev r); [|by apply elem_of_nil in Hev'].
    apply list_elem_of_singleton in Hev' as ->. apply Hev. set_solver.
  - rewrite (run_correlation_none _ _ _ _ _ Eev) in Hs.
    destruct (run_goroutines gs e) as [e'' incs] eqn:Erun. simpl in Hs. subst incs.
    apply (IH e old); try done. by rewrite Erun.
Qed.

Definition is_correlation (x : AlertEffect) : bool :=
  match x with CorrelationSpawned _ _ _ _ _ _ => true | _ => false end.

(** An alert whose technique belongs to the chain. *)
Definition chained (techs : string → bool) (x : AlertEffect) : bool :=
  match x with CorrelationSpawned _ _ _ tech _ _ => techs tech | _ => false end.

Lemma chains_need_a_technique r techs : (r, techs) ∈ chains → techs "" = false.
Proof.
  intros Hr. assert (forallb (λ c, negb (c.2 "")) chains = true) as H by by vm_compute.
  rewrite forallb_forall in H. apply list_elem_of_In, H in Hr. by apply negb_true_iff in Hr.
Qed.

Lemma chains_want_alerts r techs : (r, techs) ∈ chains → 0 < Correlation.MinEvents r.
Proof.
  intros Hr. assert (forallb (λ c, 0 <? Correlation.MinEvents c.1) chains = true) as H by by vm_compute.
  rewrite forallb_forall in H. apply list_elem_of_In, H in Hr. by apply Z.ltb_lt in Hr.
Qed.

Lemma chained_hits r techs gs : (r, techs) ∈ chains → Forall (marked ∘ g_effect) gs →
  zlen (List.filter (chained techs) (map g_effect gs)) <= zlen (gs ≫= hits_of r).
Proof.
  intros Hr. induction 1 as [|g gs Hg _ IH]; [done|]. cbn [map List.filter].
  rewrite bind_cons. unfold zlen in *. rewrite length_app. unfold hits_of at 1. simpl in Hg.
  destruct (g_effect g) as [| | | | | |? ? ? tech ? ?|] eqn:Eg;
    cbn [chained spawned_event]; try (simpl length; lia).
  destruct (techs tech) eqn:Et; [|lia].
  destruct Hg as [->|(ev & ->)]; [by rewrite (chains_need_a_technique _ _ Hr) in Et|].
  rewrite (chained_technique_matches r techs) by done. simpl. lia.
Qed.

Lemma filter_permutation {A} (f : A → bool) (l l' : list A) : l ≡ₚ l' →
  List.filter f l ≡ₚ List.filter f l'.
Proof.
  induction 1 as [|x l l' _ IH|x y l|l l' l'' _ IH _ IH']; simpl; [done| | |by etransitivity].
  - destruct (f x); by rewrite ?IH.
  - destruct (f x), (f y); try done. apply Permutation_swap.
Qed.

(** C16: alerts on techniques of one chain, raised by any events and saved, never
    pass in silence: run their correlations in any order on an engine that holds
    the rule of the chain, and as soon as there are as many as the rule wants
    within its window, either one of them opens an incident or an incident of the
    rule was live already. *)
Theorem chains_are_never_silent (regexp_compile : string → option (string → bool))
    (is_print : Z → bool) (vs : list Delivery) (p : AlertPipeline) (e : Correlation.Engine)
    (r : Correlation.CorrelationRule) (techs : string → bool) (gs : list goroutine) :
  p_effects p = [] → (r, techs) ∈ chains →
  CorrelationProofs.reachable e → r ∈ Correlation.rules e →
  map g_effect gs ≡ₚ
    List.filter is_correlation (p_effects (handleEvents regexp_compile is_print vs p)) →
  (∀ g g', g ∈ gs → g' ∈ gs → g_now g - Correlation.TimeWindow r < g_at g') →
  Correlation.MinEvents r <=
    zlen (List.filter (chained techs) (p_effects (handleEvents regexp_compile is_print vs p))) →
  (∃ inc, inc ∈ (run_goroutines gs e).2) ∨ Correlation.hasOpenIncident e (Correlation.ID r) = true.
Proof.
  intros Hp Hr He Hre Hgs Hpair Hn.
  destruct (Correlation.hasOpenIncident e (Correlation.ID r)) eqn:Ho; [by right|left].
  destruct ((run_goroutines gs e).2) as [|i incs] eqn:Es; [exfalso|exists i; set_solver].
  destruct (handleEvents_well_behaved regexp_compile is_print vs p)
    as (_ & _ & _ & _ & es & Ees & [_ _ Hm]). rewrite Ees, Hp in *. cbn [app] in *.
  assert (Forall (marked ∘ g_effect) gs) as Hmg.
  { apply Forall_fmap. change (g_effect <$> gs) with (map g_effect gs). rewrite Hgs.
    apply Forall_forall. intros x [Hx _]%list_elem_of_In%List.filter_In.
    rewrite Forall_forall in Hm. apply Hm. by apply list_elem_of_In. }
  pose proof (chained_hits r techs gs Hr Hmg) as Hhits.
  pose proof (silent_run r gs e (Correlation.buffer e (Correlation.ID r)) []
                (CorrelationProofs.reachable_distinct e He) Hre Ho Es) as Hlt.
  rewrite app_nil_r in Hlt. specialize (Hlt eq_refl (Forall_nil_2 _) Hpair).
  assert (List.filter (chained techs) es ≡ₚ List.filter (chained techs) (map g_effect gs)) as Hf.
  { rewrite (filter_permutation _ _ _ Hgs), CorrelationProofs.filter_filter_le; [done|].
    by intros []. }
  unfold zlen in *. rewrite Hf in Hn. pose proof (chains_want_alerts r techs Hr). simpl in Hlt. lia.
Qed.


Lemma loaded_reachable rs : ∀ e, CorrelationProofs.reachable e →
  CorrelationProofs.reachable (foldl Correlation.AddRule e rs).
Proof.
  induction rs as [|r rs IH]; intros e He; [done|]. simpl. apply IH.
  eapply rtc_r; [exact He|]. constructor.
Qed.

(** Three hosts list cloud accounts within two minutes; the three goroutines run
    in the opposite order. *)
Definition three_events : list Delivery :=
  [delivery 0 "a1" "host-1"; delivery minute "a2" "host-2"; delivery (2 * minute) "a3" "host-3"].

Definition three_effects : list AlertEffect :=
  p_effects (handleEvents (λ _, None) (λ _, true) three_events (demo [demo_rule])).

Definition three_goroutines : list goroutine :=
  (λ x, mkGoroutine x (2 * minute) (2 * minute) "inc-1") <$>
    rev (List.filter is_correlation three_effects).

Definition cloud_chain : Correlation.CorrelationRule :=
  List.nth 5 Correlation.BuiltinRules CorrelationProofs.other_rule.

Lemma all_started at_ now uid (l : list AlertEffect) :
  map g_effect ((λ x, mkGoroutine x at_ now uid) <$> rev l) ≡ₚ l.
Proof.
  change (map g_effect ?l) with (g_effect <$> l).
  rewrite <- list_fmap_compose, <- Permutation_rev. apply reflexive_eq, list_fmap_id.
Qed.

Lemma builtin_engine_rules :
  Correlation.rules CorrelationProofs.builtin_engine = Correlation.BuiltinRules.
Proof. vm_compute. reflexivity. Qed.

Lemma cloud_chain_builtin : cloud_chain ∈ Correlation.BuiltinRules.
Proof.
  unfold cloud_chain, Correlation.BuiltinRules. cbn [List.nth].
  do 5 (apply elem_of_cons; right). apply elem_of_cons. by left.
Qed.

Lemma chains_are_never_silent_witness :
  Correlation.ID cloud_chain = "corr-006-cloud-attack-chain" ∧
  (∃ inc, inc ∈ (run_goroutines three_goroutines CorrelationProofs.builtin_engine).2).
Proof.
  split; [done|].
  destruct (chains_are_never_silent (λ _, None) (λ _, true) three_events (demo [demo_rule])
              CorrelationProofs.builtin_engine cloud_chain isCloudTechnique three_goroutines)
    as [H|H].
  - reflexivity.
  - apply elem_of_cons. by left.
  - apply loaded_reachable. apply rtc_refl.
  - rewrite builtin_engine_rules. exact cloud_chain_builtin.
  - unfold three_goroutines, three_effects.
    exact (all_started (2 * minute) (2 * minute) "inc-1" _).
  - assert (∀ g, g ∈ three_goroutines → g_at g = 2 * minute ∧ g_now g = 2 * minute) as Hc.
    { unfold three_goroutines. generalize (rev (List.filter is_correlation three_effects)).
      intros l g (x & -> & _)%list_elem_of_fmap. split; reflexivity. }
    intros g g' [_ Hn]%Hc [Ha _]%Hc. rewrite Ha, Hn. by vm_compute.
  - vm_compute. discriminate.
  - exact H.
  - vm_compute in H. discriminate.
Defined.

(** ** What modelling showed *)

(** A user-defined rule's alert is saved and published, and that is all: no
    remediation, no correlation, no broadcast. *)
Definition reaches_an_engine (x : AlertEffect) : bool :=
  match x with
  | AlertBroadcast _ _ _ _ | RemediationSpawned _ _ _ _ _ | CorrelationSpawned _ _ _ _ _ _ => true
  | _ => false
  end.

Lemma custom_alerts_trigger_nothing regexp_compile t m ev evidence p :
  List.filter reaches_an_engine
    (p_effects (createAlertFromCustomRule regexp_compile t m ev evidence p)) =
  List.filter reaches_an_engine (p_effects p).
Proof.
  unfold createAlertFromCustomRule. destruct (isDuplicate _ _ _ _) as [d dup].
  destruct dup; [done|].
  unfold insertAlert. destruct (Detection.IsSelfInflicted _ _ _); [done|].
  destruct (match p_suppression _ with Some _ => _ | None => _ end) as [[hit ?] rid].
  destruct hit; [destruct (p_suppressionHit _)|destruct (at_insert t)]; simpl;
    rewrite ?publish_log; simpl; rewrite ?filter_app, ?List.filter_app; simpl; rewrite ?app_nil_r; try done.
  destruct (p_nats p); simpl; by rewrite ?app_nil_r.
Qed.

(** The window of repetitions is opened before the row is stored: a match whose
    row was refused silences the next ones for five minutes. *)
Definition refused (now : time) (host : string) : Delivery :=
  let t := mkAnswers now (Ok false) (Err "connection refused") in
  mkDelivery (Some (cloud_event host)) aliases aliases now (λ _, t) (λ _, t) now (λ _, t) now 12.

Definition stored_ids (es : list AlertEffect) : list string :=
  omap (λ x, match x with RowInserted _ id => Some id | _ => None end) es.

Lemma refused_row_silences :
  stored_ids (p_effects (handleEvents (λ _, None) (λ _, true)
    [refused 0 "host-1"; delivery (4 * minute) "a1" "host-1"] (demo [demo_rule]))) = [].
Proof. by vm_compute. Qed.

(** An event delivered again to a restarted server becomes a second alert. *)
Lemma redelivery_after_restart :
  let again p := handleEvents (λ _, None) (λ _, true) [delivery second "a2" "host-1"] p in
  let first := handleEvents (λ _, None) (λ _, true) [delivery 0 "a1" "host-1"] (demo [demo_rule]) in
  stored_ids (p_effects (again first)) = ["a1"] ∧
  stored_ids (p_effects first ++ p_effects (again (demo [demo_rule]))) = ["a1"; "a2"].
Proof. split; by vm_compute. Qed.

(** Events of type [memory] are subscribed. *)
Lemma memory_is_subscribed : "events.*.memory" ∈ pipelineSubjects.
Proof. rewrite subjects_sorted. simpl. set_solver. Qed.
