(* ===== verification/DnsHeuristics.v ===== *)
(** * Names that carry data, names that were generated

    [server/internal/detection/dns_exfil.go], [dns_exfil_suffix.go] and
    [dns_dga.go]: the structure of a queried name is scored for data carried in
    its labels, and its registrable domain for having been generated.  Entropies
    and ratios are IEEE doubles in the order in which the code computes them. *)

From Stdlib Require Import Ascii.
From S2P Require Import Prelude GoStrings Binary64.

#[local] Open Scope string_scope.
#[local] Open Scope list_scope.
#[local] Open Scope Z_scope.

(** ** Measures *)
Fixpoint occurrences (c : ascii) (s : string) : Z :=
  match s with
  | EmptyString => 0
  | String d s' => (if Ascii.eqb c d then 1 else 0) + occurrences c s'
  end.

Definition byte_values : list ascii := ascii_of_nat <$> seq 0 256.

(** One turn of the loop over the byte values. *)
Definition entropy_turn (s : string) (h : f64) (c : ascii) : f64 :=
  let n := occurrences c s in
  if n =? 0 then h else
  let p := fdiv (fint n) (fint (slen s)) in fsub h (fmul p (flog2 p)).

Definition shannonEntropy (s : string) : f64 :=
  if String.eqb s "" then fzero else foldl (entropy_turn s) fzero byte_values.

Fixpoint count_chars (f : ascii → bool) (s : string) : Z :=
  match s with
  | EmptyString => 0
  | String c s' => (if f c then 1 else 0) + count_chars f s'
  end.

Definition ratio (f : ascii → bool) (s : string) : f64 :=
  if String.eqb s "" then fzero else fdiv (fint (count_chars f s)) (fint (slen s)).

Definition is_letter (c : ascii) : bool :=
  let n := nat_of_ascii (lower_char c) in (97 <=? n)%nat && (n <=? 122)%nat.

Definition is_encoded (c : ascii) : bool := is_letter c || is_digit c.

Definition hexBase32Ratio : string → f64 := ratio is_encoded.

Definition isVowel (c : ascii) : bool :=
  Ascii.eqb c "a" || Ascii.eqb c "e" || Ascii.eqb c "i" || Ascii.eqb c "o" || Ascii.eqb c "u".

Definition vowelRatio : string → f64 := ratio isVowel.
Definition digitRatio : string → f64 := ratio is_digit.

Definition is_lower_letter (c : ascii) : bool :=
  let n := nat_of_ascii c in (97 <=? n)%nat && (n <=? 122)%nat.

Fixpoint consonant_run (s : string) (best cur : Z) : Z :=
  match s with
  | EmptyString => best
  | String c s' =>
      if is_lower_letter c && negb (isVowel c)
      then consonant_run s' (if best <? cur + 1 then cur + 1 else best) (cur + 1)
      else consonant_run s' best 0
  end.
Definition maxConsonantRun (s : string) : Z := consonant_run s 0 0.

(** ** Data in a name *)
Record DNSExfilVerdict := mkExfil { x_Suspicious : bool; x_Score : Z; x_Reasons : list string }.
Definition no_exfil : DNSExfilVerdict := mkExfil false 0 [].

Definition dnsExfilThreshold : Z := 3.

Definition benignDNSSuffixes : list string :=
  [".compute.internal"; ".ec2.internal"; ".svc.cluster.local"; ".cluster.local";
   ".in-addr.arpa"; ".ip6.arpa"; "metadata.google.internal"; "metadata.goog"].

Definition serviceEndpointSuffixes : list (list string) :=
  [["s3"; "dualstack"; "*"; "amazonaws"; "com"];
   ["s3"; "*"; "amazonaws"; "com"];
   ["s3-accelerate"; "amazonaws"; "com"];
   ["s3"; "amazonaws"; "com"];
   ["blob"; "core"; "windows"; "net"];
   ["file"; "core"; "windows"; "net"];
   ["queue"; "core"; "windows"; "net"];
   ["table"; "core"; "windows"; "net"];
   ["storage"; "googleapis"; "com"];
   ["r2"; "cloudflarestorage"; "com"]].

Fixpoint suffixMatches (tail pattern : list string) : bool :=
  match pattern, tail with
  | [], _ => true
  | want :: pattern', l :: tail' =>
      (if String.eqb want "*" then negb (String.eqb l "") else String.eqb l want) &&
      suffixMatches tail' pattern'
  | _ :: _, [] => false
  end.

Fixpoint match_suffix (sufs : list (list string)) (labels : list string) : nat :=
  match sufs with
  | [] => 0
  | suf :: sufs' =>
      if (length labels <=? length suf)%nat then match_suffix sufs' labels else
      if suffixMatches (drop (length labels - length suf) labels) suf then length suf
      else match_suffix sufs' labels
  end.
Definition matchServiceSuffix : list string → nat := match_suffix serviceEndpointSuffixes.

Definition exfilPayloadLabels (q : string) : list string :=
  let labels := split_on "." q in
  let n := matchServiceSuffix labels in
  if (0 <? n)%nat && (n <? length labels)%nat then take (length labels - n) labels else
  if (2 <? length labels)%nat then take (length labels - 2) labels else [].

(** The first of the longest labels. *)
Fixpoint longest_label (ls : list string) (best : string) : string :=
  match ls with
  | [] => best
  | l :: ls' => longest_label ls' (if slen best <? slen l then l else best)
  end.

(** The name as the analysers read it. *)
Definition canonical_name (query : string) : string :=
  trim_suffix (to_lower (trim_space query)) ".".

Definition internal_name (q : string) : bool :=
  existsb (λ suf, String.eqb q (trim_prefix suf ".") || has_suffix q suf) benignDNSSuffixes.

(** A reason with its points. *)
Abbreviation scored := (list (Z * string)) (only parsing).
Definition if_scored (b : bool) (pts : Z) (reason : string) : scored :=
  if b then [(pts, reason)] else [].

Definition exfil_signals (q : string) : scored :=
  let labels := exfilPayloadLabels q in
  let payload := join "" labels in
  let longest := longest_label labels "" in
  let e := shannonEntropy payload in
  (if 80 <? slen q then [(2, "query length >80")]
   else if_scored (52 <? slen q) 1 "query length >52") ++
  if_scored ((40 <? slen longest) && flt (fdec 92 100) (hexBase32Ratio longest))
    1 "encoded-looking label >40" ++
  if_scored (4 <=? zlen labels) 1 "≥4 payload labels" ++
  (if 25 <=? slen payload then
     if flt (fint 4) e then [(2, "high payload entropy >4.0")]
     else if_scored (flt (fdec 35 10) e) 1 "elevated payload entropy >3.5"
   else if_scored ((20 <=? slen payload) && flt (fdec 35 10) e)
          1 "elevated payload entropy >3.5") ++
  if_scored ((20 <=? slen payload) && flt (fdec 92 100) (hexBase32Ratio payload) && flt (fint 3) e)
    1 "encoded-charset payload".

Definition score (l : scored) : Z := foldr (λ s n, s.1 + n) 0 l.

Definition AnalyzeDNSQuery (query : string) : DNSExfilVerdict :=
  let q := canonical_name query in
  if String.eqb q "" then no_exfil else
  if internal_name q then no_exfil else
  let l := exfil_signals q in
  mkExfil (dnsExfilThreshold <=? score l) (score l) l.*2.

(** ** Generated domains *)
Record DGAVerdict := mkDGA {
  g_Suspicious : bool;
  g_Score : Z;
  g_Domain : string;
  g_Reasons : list string
}.

Definition dgaThreshold : Z := 4.

Definition dga_signals (sld : string) : scored :=
  let e := shannonEntropy sld in
  let cons := maxConsonantRun sld in
  let vr := vowelRatio sld in
  (if fle (fdec 36 10) e then [(2, "high entropy ≥3.6")]
   else if_scored (fle (fdec 32 10) e) 1 "entropy ≥3.2") ++
  (if 5 <=? cons then [(2, "consonant run ≥5")]
   else if_scored (4 <=? cons) 1 "consonant run ≥4") ++
  (if flt vr (fdec 15 100) then [(2, "very few vowels")]
   else if_scored (flt vr (fdec 26 100)) 1 "few vowels") ++
  if_scored (fle (fdec 30 100) (digitRatio sld)) 1 "high digit ratio".

(** The label that is scored: the second from the last. *)
Definition sld_of (labels : list string) : string := List.nth (length labels - 2) labels "".

Definition dga_verdict (sld : string) : DGAVerdict :=
  if (slen sld <? 8) || (30 <? slen sld) then mkDGA false 0 sld [] else
  let l := dga_signals sld in
  mkDGA (dgaThreshold <=? score l) (score l) sld l.*2.

Definition AnalyzeDGA (query : string) : DGAVerdict :=
  let q := canonical_name query in
  if String.eqb q "" then mkDGA false 0 "" [] else
  let labels := split_on "." q in
  if (length labels <? 2)%nat then mkDGA false 0 "" [] else dga_verdict (sld_of labels).

(** Examples of the code's comments. *)
Example dns_examples :
  x_Suspicious (AnalyzeDNSQuery "metadata.google.internal.ap-northeast-1.compute.internal") = false ∧
  x_Suspicious (AnalyzeDNSQuery
    "inspector2-oval-prod-ap-northeast-1.s3.dualstack.ap-northeast-1.amazonaws.com") = false ∧
  g_Suspicious (AnalyzeDGA "kq3v9z7x1p.com") = true ∧
  g_Suspicious (AnalyzeDGA "d3akx9p2qz.cloudfront.net") = false.
Proof. vm_compute. done. Qed.
