(* ===== verification/Findings.v ===== *)
(** * Findings that need no rule

    [typedFindings] of [server/internal/detection/engine.go] with its allow
    lists, the fingerprint list of [ja3_blocklist.go] and the cloud patterns of
    [cloud_rule.go]: what is reported from the type and the fields of an event
    alone. *)

From Stdlib Require Import Ascii.
From S2P Require Import Prelude GoStrings Event ProcessChain Sequence DnsHeuristics.

#[local] Open Scope string_scope.
#[local] Open Scope list_scope.
#[local] Open Scope Z_scope.

(** ** Fields *)
(** [v, _ := m[k].(bool)]. *)
Definition flag (ev : event) (k : string) : bool :=
  match get ev k with Some (VBool b) => b | _ => false end.

(** [%v] of [m[k]]. *)
Definition shown (ev : event) (k : string) : string := sprint (default VNil (get ev k)).

Definition unknown : string := "不明".
Definition or_unknown (s : string) : string := if String.eqb s "" then unknown else s.

(** A match of no rule. *)
Definition found (name type : string) (severity : Z) (title description : string)
    (tags : list string) : RuleMatch :=
  mkRuleMatch "" name type severity title description tags false false "".

(** ** DNS *)
Definition dns_tunnel_finding (q : string) : list RuleMatch :=
  let v := AnalyzeDNSQuery q in
  if x_Suspicious v then
    [found "DNSトンネリング/データ流出の疑い" "heuristic" 7
       "[HEURISTIC] DNSトンネリング/データ流出の疑い"
       ("DNSクエリの構造（長さ・高エントロピー・エンコード文字列）がDNSトンネリング/データ流出に合致: "
          +:+ join ", " (x_Reasons v))
       ["T1048.003"; "T1071.004"]]
  else [].

Definition dga_finding (q : string) : list RuleMatch :=
  let v := AnalyzeDGA q in
  if g_Suspicious v then
    [found "DGA（アルゴリズム生成ドメイン）の疑い" "heuristic" 6
       "[HEURISTIC] DGA（アルゴリズム生成C2ドメイン）の疑い"
       ("ドメイン '" +:+ g_Domain v +:+ "' がアルゴリズム生成の特徴に合致（DGA型C2の疑い）: "
          +:+ join ", " (g_Reasons v))
       ["T1568.002"; "T1071.004"]]
  else [].

Definition agent_dns_finding (ev : event) : list RuleMatch :=
  if flag ev "is_suspicious" then
    let q := or_unknown (str_or_empty ev "query") in
    [found "エージェントDNS判定: DGA/ホモグラフの疑い" "heuristic" 5
       ("[HEURISTIC] エージェント側DNS判定で不審と判定: " +:+ q)
       ("エージェントがDNSクエリ '" +:+ q +:+ "' をDGA/ホモグラフ（類似綴りドメイン）としてオンホストで不審と判定しました。サーバ側ヒューリスティックが検出しない信号（IDN/ホモグラフ等）を回収。")
       ["T1568.002"; "T1071.004"]]
  else [].

Definition dns_findings (ev : event) : list RuleMatch :=
  let q := str_or_empty ev "query" in
  let server := if String.eqb q "" then [] else dns_tunnel_finding q ++ dga_finding q in
  match server with [] => agent_dns_finding ev | _ => server end.

(** ** TLS fingerprints *)
Record JA3Signature := mkJA3 {
  j_MD5 : string;
  j_Tool : string;
  j_Kind : string;
  j_Severity : Z;
  j_MITRETags : list string
}.

Definition builtinJA3Blocklist : list JA3Signature :=
  [mkJA3 "a0e9f5d64349fb13191bc781f81f42e1" "Metasploit Meterpreter" "ja3" 9 ["T1071.001"; "T1573.002"];
   mkJA3 "72a589da586844d7f0818ce684948eea" "Cobalt Strike Beacon" "ja3" 9 ["T1071.001"; "T1573.002"];
   mkJA3 "5d65ea3fb1d4aa7d826733d2f2cbbb1d" "PowerShell Empire" "ja3" 8 ["T1071.001"; "T1573.002"];
   mkJA3 "6734f37431670b3ab4292b8f60f29984" "Trickbot" "ja3" 8 ["T1071.001"];
   mkJA3 "3fed133de60c35724739b913924b6c24" "Sliver Implant" "ja3" 9 ["T1071.001"; "T1573.002"];
   mkJA3 "ec74a5c51106f0419184d0dd08fb05bc" "Cobalt Strike Team Server" "ja3s" 9
     ["T1071.001"; "T1573.002"];
   mkJA3 "80b3a14bccc8598a1f3bbe83e71f735f" "Metasploit Handler" "ja3s" 9
     ["T1071.001"; "T1573.002"]].

(** The map holds the last signature of a fingerprint. *)
Definition ja3Index : gmap string JA3Signature :=
  foldl (λ m s, <[to_lower (j_MD5 s) := s]> m) ∅ builtinJA3Blocklist.

Definition matchJA3 (md5hex : string) : option JA3Signature :=
  if String.eqb md5hex "" then None else ja3Index !! to_lower (trim_space md5hex).

Definition fingerprint_finding (dst : string) (fp kind : string) : list RuleMatch :=
  match matchJA3 fp with
  | Some sig =>
      [found ("C2ツール既知TLSフィンガープリント(" +:+ kind +:+ ")一致: " +:+ j_Tool sig) "behavioral"
         (j_Severity sig)
         ("[BEHAVIORAL] 既知C2の" +:+ kind +:+ "フィンガープリント一致: " +:+ j_Tool sig)
         (dst +:+ " への TLS ハンドシェイクの " +:+ kind +:+ " フィンガープリント(" +:+ fp
            +:+ ")が既知の " +:+ j_Tool sig +:+ " と一致（プロセス署名なきC2の疑い）")
         (j_MITRETags sig)]
  | None => []
  end.

Definition tls_findings (ev : event) : list RuleMatch :=
  let ip := str_or_empty ev "dst_ip" in
  let sni := str_or_empty ev "sni" in
  let dst := if String.eqb sni "" then ip else sni +:+ " (" +:+ ip +:+ ")" in
  fingerprint_finding dst (str_or_empty ev "ja3") "JA3" ++
  fingerprint_finding dst (str_or_empty ev "ja3s") "JA3S".

(** ** Verdicts of the agent *)
Definition yara_finding (ev : event) : list RuleMatch :=
  if flag ev "yara_matched" then
    let ids := match get ev "yara_rule_ids" with Some (VList l) => l | _ => [] end in
    [found "エージェントYARA検知" "yara" 8 "[YARA] エージェント上でYARAルールに一致"
       ("エージェントがファイルをYARAルールに一致と判定しました (rules: " +:+ sprint (VList ids) +:+ ")")
       ["T1204"]]
  else [].

Definition threat_intel_finding (ev : event) : list RuleMatch :=
  if flag ev "threat_intel_matched" then
    [found "脅威インテリジェンス一致" "ioc" 7 "[THREAT-INTEL] 既知の悪性インフラへの通信"
       ("エージェントの脅威インテリ照合に一致 (category: " +:+ str_or_empty ev "threat_intel_category"
          +:+ ", source: " +:+ str_or_empty ev "threat_intel_source" +:+ ")")
       ["T1071"]]
  else [].

(** ** Memory regions *)
Definition benignMemoryRegionProcesses : list string :=
  ["unattended-upgr"; "networkd-dispat"; "update-notifier"; "update-manager"; "cloud-init";
   "landscape-sysin"; "apport"; "packagekitd"; "fwupd"].

Definition isBenignMemoryRegionProcess (proc : string) : bool :=
  let c := to_lower (trim_space proc) in
  if String.eqb c "" then false
  else existsb (has_prefix (trim_prefix c "\")) benignMemoryRegionProcesses.

Definition memory_findings (ev : event) : list RuleMatch :=
  let proc := str_or_empty ev "process_name" in
  let writable := contains (to_lower (str_or_empty ev "perms")) "w" in
  let unbacked := flag ev "unbacked" in
  if unbacked && negb (flag ev "rwx") && negb writable && negb (flag ev "yara_matched")
     && isBenignMemoryRegionProcess proc
  then []
  else
    [found "メモリ検知: 不審な実行メモリ領域" "memory" (if unbacked then 7 else 6)
       ("[MEMORY] 不審な実行メモリ領域: " +:+ proc)
       (str_or_empty ev "reason" +:+ " (process=" +:+ proc +:+ " addr=" +:+ str_or_empty ev "address"
          +:+ ")")
       ["T1055"]].

(** ** Access to the memory of another process *)
Definition benignLinuxTracerPrefixes : list string :=
  ["systemd"; "runc"; "containerd"; "dockerd"; "docker-"; "moby"; "landscape"; "snapd"; "snap-";
   "polkitd"; "packagekitd"; "udevadm"; "dbus-daemon"; "kizashi-agent"; "gmain"; "gdbus"; "pool-"].

Definition isBenignLinuxTracer (comm : string) : bool :=
  let c := to_lower (trim_space comm) in
  if String.eqb c "" || String.eqb c unknown then true
  else existsb (has_prefix c) benignLinuxTracerPrefixes.

Definition sensitiveCredTargetPrefixes : list string :=
  ["sshd"; "ssh-agent"; "gpg-agent"; "gnome-keyring"; "polkitd"; "vaultd"; "vault";
   "systemd-logind"; "login"; "sudo"; "su"; "kizashi-agent"].

Definition isSensitiveCredTarget (comm : string) : bool :=
  existsb (has_prefix (to_lower (trim_space comm))) sensitiveCredTargetPrefixes.

(** [strconv.ParseUint(s, 0, 64)] without its errors: the base from the prefix,
    underscores between digits. *)
Definition digit_of (c : ascii) : option Z :=
  if is_digit c then Some (digit_value c) else
  let n := nat_of_ascii (lower_char c) in
  if (97 <=? n)%nat && (n <=? 122)%nat then Some (Z.of_nat n - 87) else None.

Fixpoint parse_base (base : Z) (s : string) (acc : Z) : option Z :=
  match s with
  | EmptyString => Some acc
  | String c s' =>
      if Ascii.eqb c "_" then parse_base base s' acc else
      match digit_of c with
      | Some d => if d <? base then parse_base base s' (acc * base + d) else None
      | None => None
      end
  end.

Inductive last_seen := Start | Digit | Underscore | Other.

Definition is_hex_letter (c : ascii) : bool :=
  let n := nat_of_ascii (lower_char c) in (97 <=? n)%nat && (n <=? 102)%nat.

Fixpoint underscores_ok (hex : bool) (saw : last_seen) (s : string) : bool :=
  match s with
  | EmptyString => match saw with Underscore => false | _ => true end
  | String c s' =>
      if is_digit c || (hex && is_hex_letter c) then underscores_ok hex Digit s' else
      if Ascii.eqb c "_" then
        match saw with Digit => underscores_ok hex Underscore s' | _ => false end
      else match saw with Underscore => false | _ => underscores_ok hex Other s' end
  end.

(** The base and the digits after its prefix. *)
Definition base_of (s : string) : Z * string :=
  match s with
  | String c0 s1 =>
      if Ascii.eqb c0 "0" then
        match s1 with
        | String c1 s2 =>
            let b := lower_char c1 in
            if negb (String.eqb s2 "") && Ascii.eqb b "b" then (2, s2) else
            if negb (String.eqb s2 "") && Ascii.eqb b "o" then (8, s2) else
            if negb (String.eqb s2 "") && Ascii.eqb b "x" then (16, s2) else (8, s1)
        | EmptyString => (8, s1)
        end
      else (10, s)
  | EmptyString => (10, s)
  end.

Definition underscoreOK (s : string) : bool :=
  match s with
  | String c0 (String c1 s2) =>
      let b := lower_char c1 in
      if Ascii.eqb c0 "0" && (Ascii.eqb b "b" || Ascii.eqb b "o" || Ascii.eqb b "x")
      then underscores_ok (Ascii.eqb b "x") Digit s2
      else underscores_ok false Start s
  | _ => underscores_ok false Start s
  end.

Definition parse_uint_auto (s : string) : option Z :=
  if String.eqb s "" then None else
  let '(base, digits) := base_of s in
  match parse_base base digits 0 with
  | Some n =>
      if contains_char (Ascii.eqb "_") s && negb (underscoreOK s) then None
      else if n <? 2 ^ 64 then Some n else None
  | None => None
  end.

Definition ptraceModeIsAttach (accessMask : string) : bool :=
  match parse_uint_auto (trim_space (trim_prefix accessMask "ptrace_mode=")) with
  | None => true
  | Some n => negb (Z.land n 2 =? 0)
  end.

Definition linux_access_finding (ev : event) (src tgt mask : string) : list RuleMatch :=
  if ptraceModeIsAttach mask && negb (isBenignLinuxTracer src) then
    [found "認証情報/メモリアクセス: プロセス間ptrace/mem読取 (Linux)" "credential_access"
       (if isSensitiveCredTarget tgt then 8 else 6)
       ("[CRED] プロセスメモリ・アクセス（認証情報ダンプ/インジェクションの疑い）: " +:+ src +:+ " → " +:+ tgt)
       ("プロセス " +:+ src +:+ " (pid=" +:+ shown ev "source_pid" +:+ ") が " +:+ tgt +:+ " (pid="
          +:+ shown ev "target_pid" +:+ ") のメモリに " +:+ mask +:+ " でアクセス")
       ["T1003"; "T1055"]]
  else [].

Definition lsass_finding (ev : event) (src mask : string) : list RuleMatch :=
  let verdict := if flag ev "enforced" then "拒否（VM_READ剥奪・ダンプ阻止）"
                 else "検知（audit・許可）" in
  [found "認証情報アクセス: LSASSハンドル(PROCESS_VM_READ)" "credential_access" 8
     ("[CRED] LSASSメモリ・アクセス（認証情報ダンプの疑い）: " +:+ src)
     ("プロセス " +:+ src +:+ " (pid=" +:+ shown ev "source_pid" +:+ ") が lsass.exe (pid="
        +:+ shown ev "target_pid" +:+ ") を " +:+ mask +:+ " で開封 [" +:+ verdict +:+ "]")
     ["T1003.001"]].

Definition credential_findings (ev : event) : list RuleMatch :=
  let src := or_unknown (str_or_empty ev "source_image") in
  let tgt := or_unknown (str_or_empty ev "target_image") in
  let mask := str_or_empty ev "access_mask" in
  if has_prefix mask "ptrace_mode=" then linux_access_finding ev src tgt mask
  else lsass_finding ev src mask.

(** ** Blocked processes, cleared logs *)
(** The severity the agent gave, if it is a positive number. *)
Definition block_severity (ev : event) : Z :=
  match get ev "severity" with
  | Some (VFloat m e) => if 0 <? m then trunc_dec m e else 7
  | Some (VInt z) => if 0 <? z then z else 7
  | _ => 7
  end.

Definition block_findings (ev : event) : list RuleMatch :=
  let proc := str_or_empty ev "process_name" in
  [found "プロセス実行ブロック（予防）" "process_block" (block_severity ev)
     ("[BLOCKED] プロセス実行を阻止: " +:+ proc)
     ("エージェントがプロセスの実行を阻止しました (process=" +:+ proc +:+ " action="
        +:+ str_or_empty ev "action" +:+ " rule=" +:+ str_or_empty ev "rule_name" +:+ " pid="
        +:+ shown ev "pid" +:+ ")")
     ["T1059"]].

Definition eventlog_findings (ev : event) : list RuleMatch :=
  let channel := or_unknown (str_or_empty ev "channel") in
  let user := or_unknown (str_or_empty ev "user") in
  [found "防御回避: Windowsイベントログの消去" "eventlog_cleared" 8
     ("[EVASION] イベントログが消去されました: " +:+ channel)
     (channel +:+ " のイベントログが消去されました (実行ユーザー=" +:+ user
        +:+ ")。監査証跡の破壊による痕跡隠蔽の疑い。")
     ["T1070.001"]].

(** ** Installed services *)
Definition quote : ascii := chr 34.

Fixpoint before_first (f : ascii → bool) (s : string) : string :=
  match s with
  | EmptyString => ""
  | String c s' => if f c then "" else String c (before_first f s')
  end.

Definition is_slash (c : ascii) : bool := Ascii.eqb c "\" || Ascii.eqb c "/".
Definition is_blank (c : ascii) : bool := Ascii.eqb c " " || Ascii.eqb c (chr 9).

(** [strings.TrimRight(s, …)] for a set of characters. *)
Fixpoint trim_right_of (f : ascii → bool) (s : string) : string :=
  match s with
  | EmptyString => ""
  | String c s' =>
      match trim_right_of f s' with
      | EmptyString => if f c then "" else String c ""
      | t => String c t
      end
  end.

Definition serviceImageBase (lowerImagePath : string) : string :=
  let s := trim_space lowerImagePath in
  let token :=
    match s with
    | EmptyString => ""
    | String c s' =>
        if Ascii.eqb c quote then before_first (Ascii.eqb quote) s' else before_first is_blank s
    end in
  after_last is_slash token.

Definition encoded_fragments : list string :=
  ["-enc"; "-encodedcommand"; "-e "; "iex"; "downloadstring"; "frombase64string";
   "invoke-expression"].
Definition service_lolbins : list string :=
  ["cmd.exe"; "powershell.exe"; "pwsh.exe"; "rundll32.exe"; "regsvr32.exe"; "mshta.exe";
   "wscript.exe"; "cscript.exe"; "msbuild.exe"; "installutil.exe"].
Definition script_extensions : list string := [".ps1"; ".bat"; ".cmd"; ".vbs"; ".js"; ".hta"].
Definition writable_directories : list string :=
  ["\temp\"; "\tmp\"; "\appdata\"; "\users\public\"; "\programdata\"; "\windows\temp\";
   "\downloads\"].

Definition suspiciousServiceImage (imagePath : string) : string :=
  if String.eqb (trim_space imagePath) "" then "ImagePath が空" else
  let lower := to_lower imagePath in
  if existsb (contains lower) encoded_fragments
  then "エンコード/難読化されたコマンドをサービスバイナリに指定" else
  if existsb (String.eqb (serviceImageBase lower)) service_lolbins
  then "LOLBin/スクリプトホストをサービスバイナリに指定" else
  let trimmed := trim_right_of (λ c, Ascii.eqb c quote || Ascii.eqb c " ") lower in
  if existsb (has_suffix trimmed) script_extensions
  then "スクリプトファイルをサービスバイナリに指定" else
  if existsb (contains lower) writable_directories
  then "書込可能/一時ディレクトリからサービスを起動" else "".

Definition service_findings (ev : event) : list RuleMatch :=
  let img := str_or_empty ev "image_path" in
  let reason := suspiciousServiceImage img in
  if String.eqb reason "" then [] else
  let svc := or_unknown (str_or_empty ev "service_name") in
  [found "永続化/横展開: 不審なサービスのインストール" "service_installed" 8
     ("[PERSIST] 不審なサービスがインストールされました: " +:+ svc)
     ("サービス '" +:+ svc +:+ "' がインストールされました (ImagePath=" +:+ img +:+ ")。" +:+ reason
        +:+ "。PsExec/Cobalt Strike 等の横展開・永続化の疑い。")
     ["T1543.003"]].

(** ** Removable devices *)
Definition device_findings (ev : event) : list RuleMatch :=
  let devType := str_or_empty ev "type" in
  if String.eqb (str_or_empty ev "action") "connected" &&
     (String.eqb devType "storage" || String.eqb devType "usb") then
    let name := str_or_empty ev "name" in
    let name := if String.eqb name "" then "不明なデバイス" else name in
    [found "リムーバブルデバイスの接続" "device_event" (if String.eqb devType "storage" then 5 else 3)
       ("[DEVICE] リムーバブルデバイスが接続されました: " +:+ name)
       ("デバイス '" +:+ name +:+ "' (type=" +:+ devType +:+ " vendor=" +:+ str_or_empty ev "vendor_id"
          +:+ " product=" +:+ str_or_empty ev "product_id"
          +:+ ") が接続されました。リムーバブルメディア経由の感染拡大(T1091)/USBデータ持ち出し(T1052)の監視対象イベント。")
       ["T1091"; "T1200"; "T1052.001"]]
  else [].

(** ** All of them, in the order of the code *)
Definition on_type (eventType t : string) (l : list RuleMatch) : list RuleMatch :=
  if String.eqb eventType t then l else [].

Definition typedFindings (eventType : string) (ev : event) : list RuleMatch :=
  on_type eventType "dns" (dns_findings ev) ++
  on_type eventType "tls_handshake" (tls_findings ev) ++
  yara_finding ev ++
  threat_intel_finding ev ++
  on_type eventType "memory" (memory_findings ev) ++
  on_type eventType "credential_access" (credential_findings ev) ++
  on_type eventType "process_block" (block_findings ev) ++
  on_type eventType "eventlog_cleared" (eventlog_findings ev) ++
  on_type eventType "service_installed" (service_findings ev) ++
  on_type eventType "device_event" (device_findings ev).

(** ** Cloud operations *)
Record cloudPattern := mkCloudPattern {
  c_match : string;
  c_technique : string;
  c_severity : Z;
  c_label : string
}.

Record CloudVerdict := mkCloudVerdict {
  v_Suspicious : bool;
  v_Reason : string;
  v_Technique : string;
  v_Severity : Z
}.
Definition no_verdict : CloudVerdict := mkCloudVerdict false "" "" 0.

Record CloudEventPayload := mkCloudPayload {
  p_EventType : string;
  p_Hostname : string
}.

Definition defaultCloudPatterns : list cloudPattern :=
  [mkCloudPattern "DeleteTrail" "T1562.008" 9 "CloudTrail 証跡の削除";
   mkCloudPattern "StopLogging" "T1562.008" 9 "CloudTrail ロギングの停止";
   mkCloudPattern "UpdateTrail" "T1562.008" 7 "CloudTrail 証跡の改変";
   mkCloudPattern "DeleteFlowLogs" "T1562.008" 8 "VPC フローログの削除";
   mkCloudPattern "DeleteDetector" "T1562.008" 9 "GuardDuty 検出器の削除";
   mkCloudPattern "StopMonitoringMembers" "T1562.008" 8 "GuardDuty 監視の停止";
   mkCloudPattern "StopConfigurationRecorder" "T1562.008" 8 "AWS Config 記録の停止";
   mkCloudPattern "DeleteConfigRule" "T1562.008" 7 "AWS Config ルールの削除";
   mkCloudPattern "DisableAlarmActions" "T1562.008" 7 "CloudWatch アラームの無効化";
   mkCloudPattern "diagnosticsettings/delete" "T1562.008" 8 "Azure 診断設定の削除";
   mkCloudPattern "logging.sinks.delete" "T1562.008" 8 "GCP ログシンクの削除";
   mkCloudPattern "GetSecretValue" "T1555.006" 6 "Secrets Manager シークレットの取得";
   mkCloudPattern "BatchGetSecretValue" "T1555.006" 7 "Secrets Manager 一括シークレット取得";
   mkCloudPattern "keyvault/vaults/secrets/read" "T1555.006" 6 "Azure Key Vault シークレットの読取";
   mkCloudPattern "GetPasswordData" "T1555.006" 6 "EC2 パスワードデータの取得";
   mkCloudPattern "CreateUser" "T1136.003" 7 "IAM ユーザーの作成";
   mkCloudPattern "CreateAccessKey" "T1098.001" 8 "アクセスキーの作成(追加認証情報)";
   mkCloudPattern "CreateLoginProfile" "T1098" 8 "ログインプロファイルの作成";
   mkCloudPattern "UpdateLoginProfile" "T1098" 7 "ログインプロファイルの更新";
   mkCloudPattern "CreateServiceAccountKey" "T1098.001" 8 "GCP サービスアカウント鍵の作成";
   mkCloudPattern "AttachUserPolicy" "T1098" 8 "IAM ユーザーへのポリシー付与";
   mkCloudPattern "AttachRolePolicy" "T1098" 8 "IAM ロールへのポリシー付与";
   mkCloudPattern "PutUserPolicy" "T1098" 8 "IAM インラインポリシーの付与";
   mkCloudPattern "PutRolePolicy" "T1098" 8 "IAM ロールインラインポリシーの付与";
   mkCloudPattern "CreatePolicyVersion" "T1098" 7 "IAM ポリシーバージョンの作成";
   mkCloudPattern "AddUserToGroup" "T1098" 7 "IAM グループへのユーザー追加";
   mkCloudPattern "UpdateAssumeRolePolicy" "T1098" 8 "AssumeRole ポリシーの改変";
   mkCloudPattern "roleassignments/write" "T1098" 8 "Azure ロール割り当ての書込";
   mkCloudPattern "SetIamPolicy" "T1098" 8 "GCP IAM ポリシーの設定";
   mkCloudPattern "microsoft.security/policies/write" "T1098" 7 "Azure セキュリティポリシーの書込";
   mkCloudPattern "GetFederationToken" "T1550.001" 6 "フェデレーショントークンの取得";
   mkCloudPattern "PutBucketAcl" "T1530" 8 "S3 バケット ACL の変更(公開の恐れ)";
   mkCloudPattern "PutBucketPolicy" "T1530" 8 "S3 バケットポリシーの変更(公開の恐れ)";
   mkCloudPattern "PutBucketPublicAccessBlock" "T1530" 7 "S3 パブリックアクセスブロックの変更";
   mkCloudPattern "storage.setIamPermissions" "T1530" 7 "GCS バケット IAM の変更(公開の恐れ)";
   mkCloudPattern "DeleteBucket" "T1485" 8 "S3 バケットの削除";
   mkCloudPattern "ScheduleKeyDeletion" "T1486" 9 "KMS 鍵の削除予約";
   mkCloudPattern "DisableKey" "T1486" 8 "KMS 鍵の無効化";
   mkCloudPattern "TerminateInstances" "T1485" 8 "EC2 インスタンスの終了"].

Definition pattern_matches (et : string) (p : cloudPattern) : bool :=
  contains et (to_lower (c_match p)).

Definition cloud_verdict (patterns : list cloudPattern) (eventType : string) : CloudVerdict :=
  let et := to_lower (trim_space eventType) in
  if String.eqb et "" then no_verdict else
  match List.find (pattern_matches et) patterns with
  | Some p => mkCloudVerdict true ("不審なクラウド操作: " +:+ eventType +:+ " — " +:+ c_label p)
                (c_technique p) (c_severity p)
  | None => no_verdict
  end.

Definition EvaluateCloud (patterns : list cloudPattern) (payload : option CloudEventPayload)
    : CloudVerdict :=
  match payload with
  | None => no_verdict
  | Some p => cloud_verdict patterns (p_EventType p)
  end.

Definition IsSuspiciousCloud (patterns : list cloudPattern) (payload : option CloudEventPayload)
    : bool * string :=
  let v := EvaluateCloud patterns payload in (v_Suspicious v, v_Reason v).
