(* ===== verification/FindingsProofs.v ===== *)
(** * Findings that need no rule: theorems

    A finding carries no rule id and asks for no isolation, so none is made for
    it; the memory accesses that are reported are those with the attach bit; a
    generated domain is judged by its registrable label alone. *)

From Stdlib Require Import Ascii.
From S2P Require Import Prelude GoStrings Event Binary64 Ueba Isolation Isolator Suppression.
From S2P Require Import CommandLine CommandLineProofs SigmaFields CustomRules.
From S2P Require Import Sequence Detection DetectionProofs DnsHeuristics Findings.

#[local] Open Scope string_scope.
#[local] Open Scope list_scope.
#[local] Open Scope Z_scope.

(** ** The shape of a finding *)
Record plain_finding (m : RuleMatch) : Prop := {
  plain_id : Sequence.RuleID m = "";
  plain_isolate : Sequence.AutoIsolate m = false;
  plain_kill : Sequence.AutoKill m = false;
  plain_tags : Sequence.MITRETags m ≠ []
}.

Lemma found_plain name type sev title desc t tags : plain_finding (found name type sev title desc (t :: tags)).
Proof. by split. Qed.

Create HintDb findings.
#[local] Hint Resolve found_plain Forall_nil_2 Forall_cons_2 Forall_app_2 : findings.

Lemma ja3_has_tags fp sig : matchJA3 fp = Some sig → j_MITRETags sig ≠ [].
Proof.
  unfold matchJA3. destruct (String.eqb fp ""); [done|]. intros Hs.
  assert (Forall (λ kv, j_MITRETags kv.2 ≠ []) (map_to_list ja3Index)) as H
    by (vm_compute; repeat constructor; discriminate).
  rewrite Forall_forall in H. by apply elem_of_map_to_list, H in Hs.
Qed.

Lemma fingerprint_plain dst fp kind : Forall plain_finding (fingerprint_finding dst fp kind).
Proof.
  unfold fingerprint_finding. destruct (matchJA3 fp) as [sig|] eqn:E; [|constructor].
  apply Forall_singleton. split; try done. by apply ja3_has_tags in E.
Qed.
#[local] Hint Resolve fingerprint_plain : findings.

Lemma on_type_plain et t l : Forall plain_finding l → Forall plain_finding (on_type et t l).
Proof. unfold on_type. destruct (String.eqb et t); auto with findings. Qed.

Ltac plain_by_cases := repeat case_match; simplify_eq; auto with findings.

Lemma dns_plain ev : Forall plain_finding (dns_findings ev).
Proof.
  unfold dns_findings. cbv zeta.
  assert (Forall plain_finding (agent_dns_finding ev)) as Ha by (unfold agent_dns_finding; plain_by_cases).
  destruct (if String.eqb _ _ then _ else _) as [|m ms] eqn:E; [done|]. rewrite <- E.
  destruct (String.eqb _ _); [constructor|].
  apply Forall_app_2; [unfold dns_tunnel_finding|unfold dga_finding]; plain_by_cases.
Qed.
#[local] Hint Resolve dns_plain : findings.

Lemma typedFindings_plain et ev : Forall plain_finding (typedFindings et ev).
Proof.
  unfold typedFindings. repeat apply Forall_app_2; try apply on_type_plain; auto with findings;
    unfold tls_findings, yara_finding, threat_intel_finding, memory_findings, credential_findings,
      linux_access_finding, lsass_finding, block_findings, eventlog_findings, service_findings,
      device_findings; plain_by_cases.
Qed.

(** ** No isolation for a finding *)
Section NoIsolation.
Context {I : Type} `{!Isolator I}.
Context (regexp_compile : string → option (string → bool)) (exp2 : f64 → f64) (hour_of : time → Z).
Abbreviation handle_match := (Detection.handle_match regexp_compile exp2 hour_of).
Abbreviation handle_matches := (Detection.handle_matches regexp_compile exp2 hour_of).

Lemma unauthorised_response w a m (e : Detection.Engine I) :
  w_GetRule w (al_RuleID a) = None → al_AutoIsolate a = false → Sequence.AutoIsolate m = false →
  applyRuleBasedResponse w a m e = e.
Proof.
  intros Hr Ha Hm. unfold applyRuleBasedResponse, isolation_authority. rewrite Hr, Ha, Hm. simpl.
  by destruct (AutoResponseEnabled _).
Qed.

Lemma enrich_keeps w t a (e : Detection.Engine I) :
  let '(e', b) := enrichAnomalyScore exp2 hour_of w t a e in
  isolator e' = isolator e ∧ al_RuleID b = al_RuleID a ∧ al_AutoIsolate b = al_AutoIsolate a.
Proof.
  pose proof (DetectionProofs.enrich_spec exp2 hour_of w t a e) as H.
  destruct (enrichAnomalyScore _ _ _ _ _ _) as [e' b]. by destruct H as (s & u & -> & _ & -> & _).
Qed.

Lemma plain_match_isolator w env flat t m (e : Detection.Engine I) : w_GetRule w "" = None →
  plain_finding m → isolator (handle_match w env flat t m e) = isolator e.
Proof.
  intros Hw [Hid Hiso _ _]. unfold Detection.handle_match.
  destruct (isDuplicateAlert _ _ _) as [d dup]. destruct dup; [done|].
  destruct (IsSelfInflicted _ _ _); [done|]. destruct (suppressed_by _ _ _ _ _) as [id|]; [done|].
  pose proof (enrich_keeps w t (alert_of (new_id t) (clock t) env m) (set_dedup e d)) as H.
  destruct (enrichAnomalyScore _ _ _ _ _ _) as [e1 b]. destruct H as (Hi & Hr & Ha).
  destruct (save_error t); [exact Hi|]. unfold after_save.
  rewrite unauthorised_response; [exact Hi|by rewrite Hr; simpl; rewrite Hid|by rewrite Ha|done].
Qed.

Lemma plain_matches_isolator w env flat ts ms : w_GetRule w "" = None → Forall plain_finding ms →
  ∀ k (e : Detection.Engine I), isolator (handle_matches w env flat ts k ms e) = isolator e.
Proof.
  intros Hw. induction 1 as [|m ms Hm _ IH]; intros k e; [done|].
  cbn [Detection.handle_matches]. by rewrite IH, plain_match_isolator.
Qed.
End NoIsolation.

(** No finding of the server's own heuristics or of the agent's verdicts, at
    whatever severity the agent reports it, makes the engine isolate an endpoint:
    handling the findings of an event leaves the isolator as it was, unless a rule
    with an empty identifier is loaded. *)
Theorem findings_never_isolate {I : Type} `{!Isolator I}
    (regexp_compile : string → option (string → bool)) (exp2 : f64 → f64) (hour_of : time → Z)
    (w : Wiring) (env : Envelope) (flat : event) (ts : nat → Turn) (e : Detection.Engine I) :
  w_GetRule w "" = None →
  isolator (handle_matches regexp_compile exp2 hour_of w env flat ts 0
              (typedFindings (ev_Type env) flat) e) = isolator e ∧
  Forall (λ m, Sequence.RuleID m = "" ∧ Sequence.MITRETags m ≠ []) (typedFindings (ev_Type env) flat).
Proof.
  intros Hw. pose proof (typedFindings_plain (ev_Type env) flat) as Hp.
  split; [by apply plain_matches_isolator|]. eapply Forall_impl; [exact Hp|]. by intros m [].
Qed.

Lemma findings_never_isolate_witness :
  let env := mkEnvelope "a1" "web-1" "windows" "tls_handshake" "" in
  let flat := [("ja3", VStr "72A589DA586844D7F0818CE684948EEA")] in
  length (typedFindings (ev_Type env) flat) = 1%nat ∧
  isolator (Detection.handle_matches (λ _, None) (λ x, x) (λ _, 0) toy_wiring env flat toy_answer 0
              (typedFindings (ev_Type env) flat) toy_detector) = isolator toy_detector.
Proof.
  intros env flat. split; [vm_compute; reflexivity|].
  apply (findings_never_isolate (λ _, None) (λ x, x) (λ _, 0) toy_wiring env flat toy_answer
           toy_detector eq_refl).
Defined.

(** ** Masks of memory accesses *)

(** [%x] of a number that is not negative. *)
Definition hex_digit (d : Z) : ascii :=
  ascii_of_nat (Z.to_nat (if d <? 10 then 48 + d else 87 + d)).

Fixpoint hex_go (fuel : nat) (n : Z) (acc : string) : string :=
  match fuel with
  | O => acc
  | S fuel =>
      let acc := String (hex_digit (n mod 16)) acc in
      if n / 16 =? 0 then acc else hex_go fuel (n / 16) acc
  end.

(** Sixteen digits are enough below [2^64]. *)
Definition hex (n : Z) : string := hex_go 16 n "".

Lemma hex_digit_spec d : 0 <= d < 16 → digit_of (hex_digit d) = Some d ∧
  Ascii.eqb (hex_digit d) "_" = false ∧ is_space (hex_digit d) = false.
Proof.
  intros Hd.
  assert (forallb (λ d, match digit_of (hex_digit d) with Some x => x =? d | None => false end &&
            negb (Ascii.eqb (hex_digit d) "_") && negb (is_space (hex_digit d)))
            (Z.of_nat <$> seq 0 16) = true) as H by (vm_compute; reflexivity).
  rewrite forallb_forall in H. specialize (H d). rewrite !andb_true_iff, !negb_true_iff in H.
  destruct H as [[Hx Hu] Hs].
  { apply list_elem_of_In, list_elem_of_fmap. exists (Z.to_nat d). rewrite elem_of_seq. lia. }
  destruct (digit_of (hex_digit d)); [|done]. by apply Z.eqb_eq in Hx as ->.
Qed.

Lemma hex_parses fuel : ∀ n acc, (0 < fuel)%nat → 0 <= n < 16 ^ Z.of_nat fuel →
  parse_base 16 (hex_go fuel n acc) 0 = parse_base 16 acc n.
Proof.
  induction fuel as [|fuel IH]; intros n acc Hf Hn; [lia|]. cbn [hex_go].
  destruct (hex_digit_spec (n mod 16)) as (Hd & Hu & _); [apply Z.mod_pos_bound; lia|].
  pose proof (Z.div_mod n 16 ltac:(lia)) as Hdm. pose proof (Z.mod_pos_bound n 16 ltac:(lia)) as Hm.
  rewrite Nat2Z.inj_succ, Z.pow_succ_r in Hn by lia.
  destruct (Z.eqb_spec (n / 16) 0) as [Hz|Hz].
  - cbn [parse_base]. rewrite Hu, Hd. destruct (Z.ltb_spec (n mod 16) 16); [|lia]. f_equal. lia.
  - assert (0 < n / 16 < 16 ^ Z.of_nat fuel) as Hq.
    { split; [pose proof (Z.div_pos n 16); lia|]. apply Z.div_lt_upper_bound; lia. }
    rewrite IH; [|destruct fuel; [simpl in Hq|]; lia|lia]. cbn [parse_base]. rewrite Hu, Hd.
    destruct (Z.ltb_spec (n mod 16) 16); [|lia]. f_equal. lia.
Qed.

Lemma hex_plain f fuel : (∀ d, 0 <= d < 16 → f (hex_digit d) = false) → ∀ n acc,
  contains_char f acc = false → contains_char f (hex_go fuel n acc) = false.
Proof.
  intros Hf. induction fuel as [|fuel IH]; intros n acc Ha; [done|]. cbn [hex_go].
  assert (contains_char f (String (hex_digit (n mod 16)) acc) = false) as Hc.
  { simpl. rewrite Hf by (apply Z.mod_pos_bound; lia). done. }
  destruct (n / 16 =? 0); [done|by apply IH].
Qed.

Lemma hex_go_longer fuel : ∀ n acc, (0 < slen acc) → 0 < slen (hex_go fuel n acc).
Proof.
  induction fuel as [|fuel IH]; intros n acc Ha; [done|]. cbn [hex_go].
  assert (0 < slen (String (hex_digit (n mod 16)) acc)) as Hc by (unfold slen in *; simpl; lia).
  destruct (n / 16 =? 0); [exact Hc|by apply IH].
Qed.

Lemma hex_nonempty n : String.eqb (hex n) "" = false.
Proof.
  assert (0 < slen (hex n)) as H.
  { unfold hex. change (hex_go 16 n "") with
      (let acc := String (hex_digit (n mod 16)) "" in if n / 16 =? 0 then acc else hex_go 15 (n / 16) acc).
    cbv zeta. destruct (n / 16 =? 0); [done|by apply hex_go_longer]. }
  by destruct (hex n).
Qed.

Definition ptrace_mask (mode : Z) : string := "ptrace_mode=0x" +:+ hex mode.

Lemma mask_read_back mode : 0 <= mode < 2 ^ 64 →
  parse_uint_auto (trim_space (trim_prefix (ptrace_mask mode) "ptrace_mode=")) = Some mode.
Proof.
  intros Hm. assert (trim_prefix (ptrace_mask mode) "ptrace_mode=" = "0x" +:+ hex mode) as -> by done.
  rewrite trim_space_id.
  2:{ simpl. apply hex_plain; [|done]. intros d Hd. by destruct (hex_digit_spec d Hd) as (_ & _ & ?). }
  unfold parse_uint_auto, base_of. simpl. rewrite hex_nonempty. simpl.
  unfold hex at 1. rewrite hex_parses by lia. simpl.
  assert (contains_char (Ascii.eqb "_") (hex mode) = false) as Hu.
  { apply hex_plain; [|done]. intros d Hd. rewrite Ascii.eqb_sym.
    by destruct (hex_digit_spec d Hd) as (_ & ? & _). }
  rewrite Hu. simpl. by destruct (Z.ltb_spec mode (2 ^ 64)); [|lia].
Qed.

Lemma attach_bit mode : negb (Z.land mode 2 =? 0) = Z.testbit mode 1.
Proof.
  change 2 with (2 ^ 1). destruct (Z.testbit mode 1) eqn:E.
  - apply negb_true_iff, Z.eqb_neq. intros H.
    assert (Z.testbit (Z.land mode (2 ^ 1)) 1 = true) as Ht.
    { rewrite Z.land_spec, E, Z.pow2_bits_true by lia. done. }
    by rewrite H, Z.bits_0 in Ht.
  - apply negb_false_iff, Z.eqb_eq, Z.bits_inj'. intros n Hn. rewrite Z.land_spec, Z.bits_0.
    rewrite Z.pow2_bits_eqb by lia. destruct (Z.eqb_spec 1 n) as [<-|]; [by rewrite E|apply andb_false_r].
Qed.

Lemma credential_only flat : flag flat "yara_matched" = false →
  flag flat "threat_intel_matched" = false →
  typedFindings "credential_access" flat = credential_findings flat.
Proof.
  intros Hy Ht. unfold typedFindings, yara_finding, threat_intel_finding. rewrite Hy, Ht.
  unfold on_type. cbn [String.eqb Ascii.eqb Bool.eqb andb app]. apply app_nil_r.
Qed.

(** An access to the memory of a Linux process, reported with its mode in
    hexadecimal, becomes a finding exactly when the mode has the attach bit and
    the accessor is named and not one of the listed system processes; the target
    decides the severity alone. *)
Theorem memory_access_reported_iff (flat : event) (mode : Z) :
  0 <= mode < 2 ^ 64 → str_or_empty flat "access_mask" = ptrace_mask mode →
  flag flat "yara_matched" = false → flag flat "threat_intel_matched" = false →
  let src := str_or_empty flat "source_image" in
  let tgt := or_unknown (str_or_empty flat "target_image") in
  (typedFindings "credential_access" flat ≠ [] ↔
     Z.testbit mode 1 = true ∧ isBenignLinuxTracer (or_unknown src) = false) ∧
  Forall (λ m, Sequence.Severity m = if isSensitiveCredTarget tgt then 8 else 6)
    (typedFindings "credential_access" flat).
Proof.
  intros Hm Hmask Hy Ht src tgt. rewrite credential_only by done.
  unfold credential_findings. rewrite Hmask.
  change (has_prefix (ptrace_mask mode) "ptrace_mode=") with true. cbv iota.
  unfold linux_access_finding, ptraceModeIsAttach. rewrite mask_read_back by done.
  fold src. fold tgt.
  rewrite attach_bit. generalize (Z.testbit mode 1) (isBenignLinuxTracer (or_unknown src)).
  intros [] []; cbn [andb negb].
  all: split; [split; [intros H|intros [H1 H2]]|].
  all: first [done | by split | apply Forall_nil_2 | by apply Forall_singleton].
Qed.

Lemma memory_access_reported_iff_witness :
  let flat := [("access_mask", VStr "ptrace_mode=0x12"); ("source_image", VStr "gdb");
               ("target_image", VStr "sshd")] in
  typedFindings "credential_access" flat ≠ [] ∧
  Forall (λ m, Sequence.Severity m = 8) (typedFindings "credential_access" flat).
Proof.
  intros flat. destruct (memory_access_reported_iff flat 18) as [Hiff Hall];
    [lia|vm_compute; reflexivity..|].
  split; [apply Hiff; split; vm_compute; reflexivity|exact Hall].
Defined.

(** ** Generated domains *)
Definition plain_char (c : ascii) : bool := negb (is_space c) && negb (Ascii.eqb c ".").
Definition plain_label (l : string) : bool :=
  negb (String.eqb l "") && negb (contains_char (λ c, negb (plain_char c)) l).

Lemma contains_char_join f sep ls : contains_char f sep = false →
  Forall (λ l, contains_char f l = false) ls → contains_char f (join sep ls) = false.
Proof.
  intros Hs. induction 1 as [|l ls Hl Hls IH]; [done|]. destruct ls as [|l' ls]; [done|].
  change (join sep (l :: l' :: ls)) with (l +:+ sep +:+ join sep (l' :: ls)).
  by rewrite !contains_char_append, Hl, Hs, IH.
Qed.

Lemma lower_join sep ls : to_lower (join sep ls) = join (to_lower sep) (to_lower <$> ls).
Proof.
  induction ls as [|l ls IH]; [done|]. destruct ls as [|l' ls]; [done|].
  change (join sep (l :: l' :: ls)) with (l +:+ sep +:+ join sep (l' :: ls)).
  by rewrite !to_lower_append, IH.
Qed.

Lemma plain_lower c : plain_char (lower_char c) = plain_char c.
Proof. by destruct c as [[] [] [] [] [] [] [] []]; vm_compute. Qed.

Lemma contains_plain f l : (∀ c, f c = true → plain_char c = false) → plain_label l = true →
  contains_char f l = false ∧ contains_char f (to_lower l) = false.
Proof.
  intros Hf [_ Hl%negb_true_iff]%andb_true_iff.
  induction l as [|c l IH]; [done|]. cbn [contains_char] in Hl. apply orb_false_iff in Hl as [Hc Hl].
  change (to_lower (String c l)) with (String (lower_char c) (to_lower l)). cbn [contains_char].
  destruct (IH Hl) as [-> ->].
  destruct (f c) eqn:E1; [by rewrite (Hf _ E1) in Hc|].
  destruct (f (lower_char c)) eqn:E2; [|done]. apply Hf in E2. by rewrite plain_lower, E2 in *.
Qed.

Lemma space_not_plain c : is_space c = true → plain_char c = false.
Proof. intros H. unfold plain_char. by rewrite H. Qed.

Lemma dot_not_plain c : Ascii.eqb "." c = true → plain_char c = false.
Proof. by intros <-%Ascii.eqb_eq. Qed.

Lemma split_go_snoc sep t cur : split_go sep (t +:+ String sep "") cur = split_go sep t cur ++ [""].
Proof.
  revert cur. induction t as [|c t IH]; intros cur.
  - simpl. by rewrite Ascii.eqb_refl.
  - cbn [String.append split_go]. destruct (Ascii.eqb c sep); by rewrite IH.
Qed.

Lemma plain_labels_split ls : ls ≠ [] → Forall (λ l, plain_label l = true) ls →
  split_on "." (join "." (to_lower <$> ls)) = to_lower <$> ls.
Proof.
  intros Hne Hls. apply split_join; [by destruct ls|]. apply Forall_fmap.
  eapply Forall_impl; [exact Hls|]. intros l Hl. by apply (contains_plain _ l dot_not_plain Hl).
Qed.

Lemma canonical_plain ls : ls ≠ [] → Forall (λ l, plain_label l = true) ls →
  canonical_name (join "." ls) = join "." (to_lower <$> ls).
Proof.
  intros Hne Hls. unfold canonical_name. rewrite trim_space_id.
  2:{ apply contains_char_join; [done|]. eapply Forall_impl; [exact Hls|].
      intros l Hl. by apply (contains_plain _ l space_not_plain Hl). }
  rewrite lower_join. change (to_lower ".") with ".". unfold trim_suffix.
  destruct (has_suffix _ _) eqn:E; [exfalso|done].
  apply has_suffix_spec in E as (t & E).
  pose proof (plain_labels_split ls Hne Hls) as Hs. rewrite E in Hs. unfold split_on in Hs.
  rewrite split_go_snoc in Hs. assert ("" ∈ to_lower <$> ls) as (l & Hl & Hin)%list_elem_of_fmap
    by (rewrite <- Hs; set_solver).
  symmetry in Hl. apply to_lower_empty in Hl as ->.
  rewrite Forall_forall in Hls. by apply Hls in Hin.
Qed.

(** Whether a queried name is taken for a generated one depends on the label
    below its last one alone, in whatever case the name is written and whatever
    subdomains precede it: the random subdomains of a provider are not judged. *)
Theorem generated_domain_judged_by_label (pre : list string) (sld tld : string) :
  Forall (λ l, plain_label l = true) (pre ++ [sld; tld]) →
  AnalyzeDGA (join "." (pre ++ [sld; tld])) = dga_verdict (to_lower sld).
Proof.
  intros Hls. unfold AnalyzeDGA.
  assert (pre ++ [sld; tld] ≠ []) as Hne by by destruct pre.
  rewrite canonical_plain by done. rewrite plain_labels_split by done.
  assert (length (to_lower <$> pre ++ [sld; tld]) = (length pre + 2)%nat) as Hlen
    by (rewrite length_fmap, length_app; done).
  destruct (String.eqb _ "") eqn:E.
  { apply String.eqb_eq in E. pose proof (plain_labels_split _ Hne Hls) as Hs. rewrite E in Hs.
    apply (f_equal length) in Hs. rewrite Hlen in Hs. simpl in Hs. lia. }
  rewrite Hlen. destruct (Nat.ltb_spec (length pre + 2) 2); [lia|].
  unfold sld_of. rewrite Hlen, fmap_app, List.app_nth2; rewrite length_fmap; [|lia].
  by replace (length pre + 2 - 2 - length pre)%nat with 0%nat by lia.
Qed.

Lemma generated_domain_judged_by_label_witness :
  AnalyzeDGA "d3akx9p2qz.CloudFront.net" = dga_verdict "cloudfront" ∧
  g_Suspicious (AnalyzeDGA "d3akx9p2qz.CloudFront.net") = false.
Proof.
  assert (AnalyzeDGA "d3akx9p2qz.CloudFront.net" = dga_verdict "cloudfront") as H.
  { apply (generated_domain_judged_by_label ["d3akx9p2qz"] "CloudFront" "net").
    repeat constructor. }
  rewrite H. split; [reflexivity|vm_compute; reflexivity].
Defined.

(** ** What modelling showed *)

(** One random label of a content network is reported as carrying data. *)
Lemma cdn_label_is_reported :
  let q := "abcdefghijklmnopqrstuvwxyz012345.cloudfront.net" in
  slen q = 47 ∧ AnalyzeDNSQuery q =
    mkExfil true 3 ["high payload entropy >4.0"; "encoded-charset payload"].
Proof. split; vm_compute; reflexivity. Qed.

(** A service of a program in [Program Files] is reported for letters in its
    name. *)
Lemma ordinary_service_is_reported :
  suspiciousServiceImage "C:\Program Files\Apiex\agent.exe" =
    "エンコード/難読化されたコマンドをサービスバイナリに指定" ∧
  suspiciousServiceImage "C:\Program Files\Backup\svc.exe -e production" =
    "エンコード/難読化されたコマンドをサービスバイナリに指定" ∧
  suspiciousServiceImage
    "C:\ProgramData\Microsoft\Windows Defender\Platform\4.18\MsMpEng.exe" =
    "書込可能/一時ディレクトリからサービスを起動".
Proof. split_and!; vm_compute; reflexivity. Qed.

(** Every cloud pattern can be the one reported, except one: it contains the text
    of a pattern before it. *)
Lemma shadowed_cloud_pattern :
  List.filter (λ p, negb (v_Severity (cloud_verdict defaultCloudPatterns (c_match p)) =? c_severity p))
    defaultCloudPatterns =
  [mkCloudPattern "BatchGetSecretValue" "T1555.006" 7 "Secrets Manager 一括シークレット取得"].
Proof. vm_compute. reflexivity. Qed.

Lemma batch_secrets_never_reported et p :
  List.find (pattern_matches et) defaultCloudPatterns = Some p → c_match p ≠ "BatchGetSecretValue".
Proof.
  intros Hf Hp. assert (pattern_matches et p = true) as Hm by by apply List.find_some in Hf as [_ ?].
  unfold pattern_matches in Hm. rewrite Hp in Hm.
  assert (pattern_matches et (mkCloudPattern "GetSecretValue" "T1555.006" 6
            "Secrets Manager シークレットの取得") = true) as Hg
    by (unfold pattern_matches; eapply contains_trans; [exact Hm|vm_compute; reflexivity]).
  unfold defaultCloudPatterns in Hf. clear Hm.
  repeat (cbn [List.find] in Hf;
    first [rewrite Hg in Hf; injection Hf as <-; discriminate Hp
          |destruct (pattern_matches et _) eqn:? in Hf; [injection Hf as <-; discriminate Hp|]]).
Qed.

(** The kind of a device takes the place of the type of its event: a user-defined
    rule for [device_event] does not see the events of devices. *)
Definition usb_event : event :=
  [("agent_id", VStr "a1"); ("type", VStr "device_event");
   ("data", VMap [("action", VStr "connected"); ("type", VStr "storage"); ("name", VStr "disk")])].

Definition device_rule (eventType : string) : CustomRule :=
  mkCustomRule "r" "USB" eventType [mkCondition "action" "eq" "connected"] 1 0 5 "" "" [].

Lemma device_kind_hides_event_type :
  let flat := flattenNormalizedEvent (λ _, true) aliases usb_event in
  get flat "type" = Some (VStr "storage") ∧
  ruleMatchesEvent (λ _, None) (device_rule "device_event") flat = false ∧
  ruleMatchesEvent (λ _, None) (device_rule "") flat = true.
Proof. split_and!; vm_compute; reflexivity. Qed.
