(* ===== verification/Baseline.v ===== *)
(** * Behavioural baselines of the endpoints

    [server/internal/behavioral/baseline.go] and the computations of
    [enrich.go]: what is typical of an endpoint, computed from the rows of its
    events, and what departs from it.  The rows a query returns are data; a
    [Detail] text is the data it is printed from. *)

From Stdlib Require Import Ascii.
From S2P Require Import Prelude GoStrings Binary64 StatAnomaly.

#[local] Open Scope string_scope.
#[local] Open Scope list_scope.
#[local] Open Scope Z_scope.

(** ** Names and places *)
Definition kernelThreadPrefixes : list string :=
  ["kworker/"; "ksoftirqd/"; "migration/"; "rcu_"; "kthreadd"; "kswapd"; "kcompactd"; "ksmd";
   "khugepaged"; "kintegrityd"; "kblockd"; "kdevtmpfs"; "watchdog/"; "irq/"; "cpuhp/"; "kauditd";
   "khungtaskd"; "oom_reaper"; "writeback"; "kthrotld"; "scsi_eh_"; "scsi_tmf_"; "jbd2/"; "ext4-";
   "kdmflush"; "nfsd"; "lockd"; "kverityd"; "cryptd"; "charger_manager"].

Definition isLinuxKernelThread (name : string) : bool :=
  let name := trim_suffix (trim_prefix (trim_space name) "[") "]" in
  if String.eqb name "" then false else existsb (has_prefix name) kernelThreadPrefixes.

Definition suspiciousExecPrefixes : list string :=
  ["/tmp/"; "/var/tmp/"; "/dev/shm/"; "/run/shm/"; "/run/user/"; "/home/"; "/root/"; "/mnt/";
   "/media/"].
Definition suspiciousExecPrefixesWindows : list string :=
  ["/appdata/local/temp/"; "/appdata/roaming/"; "/windows/temp/"; "/users/public/"; "/downloads/";
   "/programdata/"; "/$recycle.bin/"; "\temp\"].

(** [strings.ReplaceAll(s, `\`, `/`)]. *)
Definition forward_slashes (s : string) : string :=
  string_map (λ c, if Ascii.eqb c "\" then "/"%char else c) s.

Definition second_is_colon (p : string) : bool :=
  match p with String _ (String c _) => Ascii.eqb c ":" | _ => false end.

Definition isSuspiciousExecPath (imagePath : string) : bool :=
  let p := trim_space imagePath in
  if String.eqb p "" then false else
  if second_is_colon p || contains p "\" then
    let w := to_lower (forward_slashes p) in
    existsb (λ pref, contains w (to_lower (forward_slashes pref))) suspiciousExecPrefixesWindows
  else if negb (has_prefix p "/") then false
  else existsb (has_prefix p) suspiciousExecPrefixes.

(** ** Baselines *)
Inductive ActivityCategory :=
  CategoryProcess | CategoryNetwork | CategoryFile | CategoryAuth | CategoryDNS.

#[export] Instance category_eq_dec : EqDecision ActivityCategory.
Proof. solve_decision. Defined.
#[export] Instance category_countable : Countable ActivityCategory.
Proof.
  refine (inj_countable' (λ c, match c with CategoryProcess => 0%nat | CategoryNetwork => 1%nat
      | CategoryFile => 2%nat | CategoryAuth => 3%nat | CategoryDNS => 4%nat end)
    (λ n, match n with 0%nat => CategoryProcess | 1%nat => CategoryNetwork
      | 2%nat => CategoryFile | 3%nat => CategoryAuth | _ => CategoryDNS end) _). by intros [].
Defined.

Definition eventTypeToCategory (evtType : string) : ActivityCategory :=
  if String.eqb evtType "process" then CategoryProcess else
  if String.eqb evtType "network" then CategoryNetwork else
  if String.eqb evtType "file" then CategoryFile else
  if String.eqb evtType "auth" then CategoryAuth else
  if String.eqb evtType "dns" then CategoryDNS else CategoryProcess.

Record BaselineMetric := mkMetric {
  bm_Mean : f64;
  bm_StdDev : f64;
  bm_Min : f64;
  bm_Max : f64;
  bm_Count : Z
}.

Definition computeMetric (samples : list f64) : BaselineMetric :=
  match samples with
  | [] => mkMetric fzero fzero fzero fzero 0
  | s0 :: _ =>
      let sum := foldl fadd fzero samples in
      let lo := foldl (λ m s, if flt s m then s else m) s0 samples in
      let hi := foldl (λ m s, if flt m s then s else m) s0 samples in
      let n := fint (zlen samples) in
      let mean := fdiv sum n in
      let variance := foldl (λ v s, let d := fsub s mean in fadd v (fmul d d)) fzero samples in
      mkMetric mean (fsqrt (fdiv variance n)) lo hi (zlen samples)
  end.

Record AgentBaseline := mkAgentBaseline {
  ab_AgentID : string;
  ab_Hostname : string;
  ab_UpdatedAt : time;
  ab_Metrics : gmap ActivityCategory BaselineMetric;
  ab_TypicalProcesses : gmap string f64;
  ab_TypicalDomains : gmap string f64
}.

(** What an anomaly's text is printed from. *)
Inductive anomaly_detail :=
| HourlyCount (c : ActivityCategory) (current times mean stddev : f64)
| UnknownProcess (name shown : string).

Record AnomalyEvent := mkAnomalyEvent {
  ae_AgentID : string;
  ae_Category : ActivityCategory;
  ae_EventType : string;
  ae_Score : f64;
  ae_Detail : anomaly_detail;
  ae_Timestamp : time;
  ae_Severity : Z
}.

Record BaselineEngine := mkBaselineEngine {
  agent_baselines : gmap string AgentBaseline;
  recent_anomalies : list AnomalyEvent
}.

Definition NewBaselineEngine : BaselineEngine := mkBaselineEngine ∅ [].

(** *** Building *)
(** The answers of the queries: the host name, the hourly counts by type, the
    most frequent process names and domains. *)
Record history := mkHistory {
  h_hostname : option string;
  h_hourly : list (string * Z);
  h_processes : list (string * Z);
  h_domains : list (string * Z)
}.

Definition add_sample (m : gmap ActivityCategory (list f64)) (r : string * Z)
    : gmap ActivityCategory (list f64) :=
  let c := eventTypeToCategory r.1 in <[c := default [] (m !! c) ++ [fint r.2]]> m.

Definition add_frequency (keep : string → bool) (hours : f64) (m : gmap string f64) (r : string * Z)
    : gmap string f64 :=
  if negb (String.eqb r.1 "") && keep r.1 then <[r.1 := fdiv (fint r.2) hours]> m else m.

Definition lookback (days : Z) : Z := if days <=? 0 then 14 else days.

(** [None]: no such endpoint, or a query failed; the engine keeps what it has. *)
Definition BuildBaseline (now : time) (agentID : string) (lookbackDays : Z) (h : history)
    (e : BaselineEngine) : BaselineEngine * option AgentBaseline :=
  match h_hostname h with
  | None => (e, None)
  | Some host =>
      let hours := fint (lookback lookbackDays * 24) in
      let b := mkAgentBaseline agentID host now
        (computeMetric <$> foldl add_sample ∅ (h_hourly h))
        (foldl (add_frequency (λ n, negb (isLinuxKernelThread n)) hours) ∅ (h_processes h))
        (foldl (add_frequency (λ _, true) hours) ∅ (h_domains h)) in
      (mkBaselineEngine (<[agentID := b]> (agent_baselines e)) (recent_anomalies e), Some b)
  end.

(** ** Departures *)
Definition keep_recent (l : list AnomalyEvent) : list AnomalyEvent :=
  if 1000 <? zlen l then drop 100 l else l.

Definition zscore_of (m : BaselineMetric) (current : f64) : f64 :=
  if flt fzero (bm_StdDev m) then fdiv (fsub current (bm_Mean m)) (bm_StdDev m) else fzero.

Definition hourly_anomaly (now : time) (agentID eventType : string) (m : BaselineMetric)
    (current z : f64) : AnomalyEvent :=
  let score := fmin (fint 1) (fdiv (fsub z (fint 3)) (fint 7)) in
  let cat := eventTypeToCategory eventType in
  mkAnomalyEvent agentID cat eventType score
    (HourlyCount cat current (fdiv current (bm_Mean m)) (bm_Mean m) (bm_StdDev m)) now
    (ftrunc (fmul score (fint 80)) + 20).

Definition DetectAnomaly (now : time) (agentID eventType : string) (current : f64)
    (e : BaselineEngine) : BaselineEngine * option AnomalyEvent :=
  match agent_baselines e !! agentID with
  | None => (e, None)
  | Some b =>
      match ab_Metrics b !! eventTypeToCategory eventType with
      | None => (e, None)
      | Some m =>
          if bm_Count m <? 10 then (e, None) else
          let z := zscore_of m current in
          if flt z (fint 3) then (e, None) else
          let a := hourly_anomaly now agentID eventType m current z in
          (mkBaselineEngine (agent_baselines e) (keep_recent (recent_anomalies e ++ [a])), Some a)
      end
  end.

Definition CheckProcessAnomaly (now : time) (agentID processName imagePath : string)
    (e : BaselineEngine) : option AnomalyEvent :=
  match agent_baselines e !! agentID with
  | None => None
  | Some b =>
      if bool_decide (is_Some (ab_TypicalProcesses b !! processName)) then None else
      if isLinuxKernelThread processName then None else
      if Z.of_nat (size (ab_TypicalProcesses b)) <? 5 then None else
      if negb (isSuspiciousExecPath imagePath) then None else
      Some (mkAnomalyEvent agentID CategoryProcess "process" (fdec 7 10)
              (UnknownProcess processName (if String.eqb imagePath "" then processName else imagePath))
              now 65)
  end.

Definition GetBaseline (e : BaselineEngine) (agentID : string) : option AgentBaseline :=
  agent_baselines e !! agentID.

Definition GetRecentAnomalies (e : BaselineEngine) (limit : Z) : list AnomalyEvent :=
  let n := zlen (recent_anomalies e) in
  let limit := if (limit <=? 0) || (n <? limit) then n else limit in
  drop (Z.to_nat (n - limit)) (recent_anomalies e).

(** ** The enriched baseline *)
Definition confidence (dataPoints lookbackDays : Z) : Z :=
  let days := if lookbackDays <=? 0 then 30 else lookbackDays in
  ftrunc (fmin (fint 100) (fmul (fdiv (fint dataPoints) (fint (days * 24 * 100))) (fint 100))).

Definition baseline_status (confidenceScore anomalyCount : Z) : string :=
  if confidenceScore <? 20 then "insufficient_data" else
  if confidenceScore <? 70 then "learning" else
  if 3 <? anomalyCount then "anomalous" else "established".

Definition zScoreToSeverity (z : f64) : string :=
  if fle (fint 9) z then "critical" else if fle (fint 6) z then "high" else
  if fle (fint 4) z then "medium" else "low".

(** The heat map: the counts by day of the week and hour, then shares of the
    greatest. *)
Definition heat_cell (m : gmap (Z * Z) Z) (r : Z * Z * Z) : gmap (Z * Z) Z :=
  let '(dow, hr, cnt) := r in
  if (0 <=? dow) && (dow <? 7) && (0 <=? hr) && (hr <? 24) then <[(dow, hr) := cnt]> m else m.

Definition heat_max (acc : Z) (r : Z * Z * Z) : Z :=
  let '(dow, hr, cnt) := r in
  if (0 <=? dow) && (dow <? 7) && (0 <=? hr) && (hr <? 24) && (acc <? cnt) then cnt else acc.

Definition heat_share (m x : Z) : Z := ftrunc (fmul (fdiv (fint x) (fint m)) (fint 100)).

Definition buildHeatmap (rows : list (Z * Z * Z)) : gmap (Z * Z) Z :=
  let m := foldl heat_cell ∅ rows in
  let top := foldl heat_max 0 rows in
  if 0 <? top then heat_share top <$> m else m.

(** ** Theorems *)

(** Any run of hourly checks. *)
Fixpoint detect_all (qs : list (time * string * string * f64)) (e : BaselineEngine)
    : BaselineEngine * list AnomalyEvent :=
  match qs with
  | [] => (e, [])
  | (now, agent, ty, c) :: qs' =>
      let '(e, o) := DetectAnomaly now agent ty c e in
      let '(e, l) := detect_all qs' e in
      (e, match o with Some a => a :: l | None => l end)
  end.

Lemma keep_recent_spec l : zlen l <= 1001 →
  zlen (keep_recent l) <= 1000 ∧ ∃ old, l = old ++ keep_recent l ∧
  (old = [] ∨ 900 <= zlen (keep_recent l)).
Proof.
  intros Hl. unfold keep_recent. destruct (Z.ltb_spec 1000 (zlen l)).
  - split; [unfold zlen in *; rewrite length_drop; lia|].
    exists (take 100 l). rewrite take_drop. split; [done|right].
    unfold zlen in *. rewrite length_drop. lia.
  - split; [done|]. exists []. auto.
Qed.

(** The list of recent anomalies is bounded and holds the latest ones: it is the
    end of all that was ever detected, and nothing is missing from it as long as
    it has fewer than 900 entries. *)
Lemma recent_anomalies_are_the_latest qs : ∀ e seen,
  zlen (recent_anomalies e) <= 1000 →
  (∃ old, seen = old ++ recent_anomalies e ∧ (old = [] ∨ 900 <= zlen (recent_anomalies e))) →
  let '(e', l) := detect_all qs e in
  zlen (recent_anomalies e') <= 1000 ∧
  ∃ old, seen ++ l = old ++ recent_anomalies e' ∧ (old = [] ∨ 900 <= zlen (recent_anomalies e')).
Proof.
  induction qs as [|[[[now agent] ty] c] qs IH]; intros e seen Hlen Hseen.
  { simpl. by rewrite app_nil_r. }
  cbn [detect_all].
  destruct (DetectAnomaly now agent ty c e) as [e1 o] eqn:E.
  assert (recent_anomalies e1 = match o with
            | Some a => keep_recent (recent_anomalies e ++ [a]) | None => recent_anomalies e end) as Hr.
  { unfold DetectAnomaly in E. repeat case_match; by simplify_eq. }
  destruct o as [a|].
  - destruct (keep_recent_spec (recent_anomalies e ++ [a])) as (Hb & old2 & Eo & Hold2).
    { unfold zlen in *. rewrite length_app. simpl. lia. }
    rewrite <- Hr in *. destruct Hseen as (old & -> & Hold).
    specialize (IH e1 (old ++ recent_anomalies e ++ [a]) Hb).
    destruct (detect_all qs e1) as [e' l].
    rewrite <- app_assoc. change (recent_anomalies e ++ a :: l) with (recent_anomalies e ++ [a] ++ l).
    rewrite (app_assoc _ [a]), app_assoc. apply IH. exists (old ++ old2). rewrite Eo, app_assoc. split; [done|].
    destruct Hold2 as [->|]; [|by right]. rewrite app_nil_r. destruct Hold as [->|Hge]; [by left|right].
    rewrite <- (app_nil_l (recent_anomalies e1)), <- Eo. unfold zlen in *. rewrite length_app. simpl. lia.
  - rewrite <- Hr in Hseen, Hlen. specialize (IH e1 seen Hlen Hseen). by destruct (detect_all qs e1).
Qed.

(** ** What modelling showed *)
Definition typical_five : gmap string f64 :=
  list_to_map ((λ n, (n, fint 1)) <$> ["bash"; "sshd"; "cron"; "nginx"; "python3"]).
Definition known_host : BaselineEngine :=
  mkBaselineEngine {["a1" := mkAgentBaseline "a1" "web-1" 0 ∅ typical_five ∅]} [].

(** A program that runs from [/tmp] under the name of a kernel thread is not
    reported. *)
Lemma kernel_name_hides_dropper :
  is_Some (CheckProcessAnomaly 0 "a1" "xmrig" "/tmp/xmrig" known_host) ∧
  CheckProcessAnomaly 0 "a1" "kswapd0" "/tmp/kswapd0" known_host = None ∧
  CheckProcessAnomaly 0 "a1" "kworker/u4:1" "/tmp/.x/kworker" known_host = None.
Proof. split_and!; [eexists; vm_compute; reflexivity|vm_compute; reflexivity..]. Qed.

(** A perfectly regular activity has no spread, and then no burst of it is an
    anomaly. *)
Lemma regular_activity_never_anomalous now agent ty current e b m :
  agent_baselines e !! agent = Some b → ab_Metrics b !! eventTypeToCategory ty = Some m →
  bm_StdDev m = fzero → DetectAnomaly now agent ty current e = (e, None).
Proof.
  intros Hb Hm Hs. unfold DetectAnomaly, zscore_of. rewrite Hb, Hm, Hs.
  destruct (bm_Count m <? 10); [done|]. by replace (flt fzero fzero) with false by (vm_compute; done).
Qed.

Lemma twelve_regular_hours : bm_StdDev (computeMetric (repeat (fint 40) 12)) = fzero.
Proof. vm_compute. reflexivity. Qed.
