(* ===== verification/Beacon.v ===== *)
(** * Periodic connections and their destinations

    [server/internal/detection/rules/beacon_detector.go] and [c2_fusion.go]: the
    connections of an endpoint to a destination are kept with their sizes, a
    regular cadence is recognised after folding the intervals onto multiples of
    the median, and a recognised cadence is fused with what is known of the
    destination.  Seconds, means and deviations are IEEE doubles in the order of
    the code. *)

From Stdlib Require Import Ascii SpecFloat.
From S2P Require Import Prelude GoStrings Event Binary64 StatAnomaly Sequence RuleEngine.

#[local] Open Scope string_scope.
#[local] Open Scope list_scope.
#[local] Open Scope Z_scope.

(** ** Floating point *)
Definition fabs (x : f64) : f64 := SFabs x.

(** [math.Round]: the nearest integer, halves away from zero. *)
Definition fround (x : f64) : f64 :=
  match x with
  | S754_finite s m e =>
      if 0 <=? e then x else
      let q := (Z.pos m + 2 ^ (- e - 1)) / 2 ^ (- e) in fint (if s then - q else q)
  | _ => x
  end.

(** [%.0f]: the nearest integer, halves to even. *)
Definition fmt0 (x : f64) : string :=
  match x with
  | S754_finite s m e =>
      let q :=
        if 0 <=? e then Z.pos m * 2 ^ e else
        let d := 2 ^ (- e) in
        let q := Z.pos m / d in
        let r := 2 * (Z.pos m mod d) in
        if (r <? d) || ((r =? d) && Z.even q) then q else q + 1 in
      if s then "-" +:+ itoa q else itoa q
  | S754_zero s => if s then "-0" else "0"
  | S754_infinity s => if s then "-Inf" else "+Inf"
  | S754_nan => "NaN"
  end.

(** [Duration.Seconds] of a duration that is not negative. *)
Definition seconds (d : duration) : f64 :=
  fadd (fint (d / second)) (fdiv (fint (d mod second)) (fint second)).

(** [Duration.Round(m)] of a duration that is not negative. *)
Definition round_duration (d m : duration) : duration :=
  let r := d mod m in if r + r <? m then d - r else d + (m - r).

Fixpoint insert_by_less {A} (lt : A → A → bool) (x : A) (l : list A) : list A :=
  match l with
  | [] => [x]
  | y :: l' => if lt y x then y :: insert_by_less lt x l' else x :: l
  end.
Definition sort_by {A} (lt : A → A → bool) (l : list A) : list A := foldr (insert_by_less lt) [] l.

Definition medianFloat (xs : list f64) : f64 :=
  let c := sort_by flt xs in
  let n := length c in
  match n with
  | O => fzero
  | _ => if Nat.odd n then List.nth (n / 2) c fzero
         else fdiv (fadd (List.nth (n / 2 - 1) c fzero) (List.nth (n / 2) c fzero)) (fint 2)
  end.

Definition fsum (xs : list f64) : f64 := foldl fadd fzero xs.
Definition fmean (xs : list f64) : f64 := fdiv (fsum xs) (fint (zlen xs)).
Definition fspread (xs : list f64) (mean : f64) : f64 :=
  fsqrt (fdiv (foldl (λ sq v, let d := fsub v mean in fadd sq (fmul d d)) fzero xs)
              (fint (zlen xs))).

(** ** The detector *)
Record BeaconConfig := mkBeaconConfig {
  MinEvents : Z;
  Window : duration;
  MinInterval : duration;
  MaxInterval : duration;
  MaxJitterCV : f64;
  HarmonicTol : f64;
  MinCleanFrac : f64;
  Cooldown : duration;
  SizeRegularCV : f64;
  JitterRelaxFactor : f64
}.

Definition DefaultBeaconConfig : BeaconConfig :=
  mkBeaconConfig 8 (2 * hour) (10 * second) (2 * hour) (fdec 30 100) (fdec 35 100) (fdec 75 100)
    (1 * hour) (fdec 15 100) (fdec 15 10).

Record BeaconMatch := mkBeaconMatch {
  b_AgentID : string;
  b_DstIP : string;
  b_Count : Z;
  MeanInterval : duration;
  JitterCV : f64;
  MissedBeats : Z;
  PayloadCV : f64;
  SizeRegular : bool;
  JitterRelax : bool
}.

Record BeaconDetector := mkBeaconDetector {
  b_cfg : BeaconConfig;
  conns : gmap string (list time);
  sizes : gmap string (list Z);
  lastFire : gmap string time
}.

Definition NewBeaconDetector : BeaconDetector := mkBeaconDetector DefaultBeaconConfig ∅ ∅ ∅.

(** *** Periodicity *)
Record beaconResult := mkResult {
  r_period : duration;
  r_foldedCV : f64;
  r_missed : Z;
  r_cleanFrac : f64;
  r_inBand : bool;
  r_ok : bool
}.
Definition no_result : beaconResult := mkResult 0 fzero 0 fzero false false.

Fixpoint gaps (ts : list time) : list f64 :=
  match ts with
  | t :: ((t' :: _) as ts') => if 0 <? t' - t then seconds (t' - t) :: gaps ts' else gaps ts'
  | _ => []
  end.

(** The multiple of the period an interval is folded onto. *)
Definition harmonic (period d : f64) : f64 :=
  let k := fround (fdiv d period) in if flt k (fint 1) then fint 1 else k.

Definition folds_cleanly (cfg : BeaconConfig) (period d : f64) : bool :=
  fle (fdiv (fabs (fsub (fdiv d (harmonic period d)) period)) period) (HarmonicTol cfg).

Definition count_if {A} (f : A → bool) (l : list A) : Z := zlen (List.filter f l).

(** The analysis of intervals, in seconds. *)
Definition analyze_intervals (cfg : BeaconConfig) (intervals : list f64) : beaconResult :=
  if zlen intervals <? MinEvents cfg - 1 then no_result else
  let period := medianFloat intervals in
  if fle period fzero then no_result else
  let folded := (λ d, fdiv d (harmonic period d)) <$> intervals in
  let clean := count_if (folds_cleanly cfg period) intervals in
  let missed := count_if (λ d, folds_cleanly cfg period d && fle (fint 2) (harmonic period d))
                  intervals in
  let cleanFrac := fdiv (fint clean) (fint (zlen intervals)) in
  let mean := fmean folded in
  let foldedCV := fdiv (fspread folded mean) mean in
  let p := ftrunc (fmul period (fint second)) in
  let inBand := (MinInterval cfg <=? p) && (p <=? MaxInterval cfg) in
  mkResult p foldedCV missed cleanFrac inBand
    (inBand && negb (flt cleanFrac (MinCleanFrac cfg) || flt (MaxJitterCV cfg) foldedCV)).

Definition analyzeBeacon (ts : list time) (cfg : BeaconConfig) : beaconResult :=
  if (length ts <? 2)%nat then no_result else analyze_intervals cfg (gaps (sort_by Z.ltb ts)).

(** *** Sizes *)
Definition payloadRegularity (szs : list Z) : option f64 :=
  let vals := fint <$> List.filter (Z.ltb 0) szs in
  if (length vals <? 3)%nat then None else
  let mean := fmean vals in
  if fle mean fzero then None else Some (fdiv (fspread vals mean) mean).

(** *** A connection *)
Definition beacon_key (agentID dstIP : string) : string := agentID +:+ "|" +:+ dstIP.

(** How many of the oldest connections fall out: those before the window, then
    those beyond 512. *)
Fixpoint stale (cutoff : time) (ts : list time) : nat :=
  match ts with
  | t :: ts' => if t <? cutoff then S (stale cutoff ts') else O
  | [] => O
  end.

Definition trim (cutoff : time) (ts : list time) : nat :=
  let i := stale cutoff ts in
  let n := (length ts - i)%nat in
  if (512 <? n)%nat then (i + (n - 512))%nat else i.

Definition relaxed_gate (cfg : BeaconConfig) (sizeRegular : bool) (res : beaconResult) : bool :=
  negb (r_ok res) && sizeRegular && r_inBand res && fle (MinCleanFrac cfg) (r_cleanFrac res) &&
  fle (r_foldedCV res) (fmul (MaxJitterCV cfg) (JitterRelaxFactor cfg)).

Definition observeAt (agentID dstIP : string) (bytesSent : Z) (now : time) (b : BeaconDetector)
    : BeaconDetector * option BeaconMatch :=
  if String.eqb dstIP "" then (b, None) else
  let gk := beacon_key agentID dstIP in
  let cfg := b_cfg b in
  let buf := default [] (conns b !! gk) ++ [now] in
  let szBuf := default [] (sizes b !! gk) ++ [bytesSent] in
  let i := trim (now - Window cfg) buf in
  let buf := drop i buf in
  let szBuf := drop i szBuf in
  let b := mkBeaconDetector cfg (<[gk := buf]> (conns b)) (<[gk := szBuf]> (sizes b)) (lastFire b) in
  if zlen buf <? MinEvents cfg then (b, None) else
  if match lastFire b !! gk with Some last => now - last <? Cooldown cfg | None => false end
  then (b, None) else
  let res := analyzeBeacon buf cfg in
  let payload := payloadRegularity szBuf in
  let sizeRegular := match payload with Some cv => fle cv (SizeRegularCV cfg) | None => false end in
  let relaxed := relaxed_gate cfg sizeRegular res in
  if negb (r_ok res) && negb relaxed then (b, None) else
  (mkBeaconDetector cfg (conns b) (sizes b) (<[gk := now]> (lastFire b)),
   Some (mkBeaconMatch agentID dstIP (zlen buf) (r_period res) (r_foldedCV res) (r_missed res)
           (default (fint (-1)) payload) sizeRegular relaxed)).

Definition ToRuleMatch (m : BeaconMatch) : RuleMatch :=
  let missedNote :=
    if 0 <? MissedBeats m then "・欠落チェックイン " +:+ itoa (MissedBeats m) +:+ " 回を調和折り畳みで補正"
    else "" in
  let sizeNote :=
    if SizeRegular m then
      "・ペイロード均一(サイズ変動 " +:+ fmt0 (fmul (PayloadCV m) (fint 100)) +:+ "%)" +:+
      (if JitterRelax m then "→ジッタ大でもサイズ均一によりビーコン判定" else "")
    else "" in
  mkRuleMatch "" "C2ビーコン疑い（定期的な外部通信）" "behavioral" (if SizeRegular m then 8 else 7)
    "[BEHAVIORAL] C2ビーコン疑い（定期的な外部通信）"
    (b_DstIP m +:+ " への通信が " +:+ itoa (b_Count m) +:+ " 回、基本周期 "
       +:+ duration_string (round_duration (MeanInterval m) second) +:+ "・ジッタ "
       +:+ fmt0 (fmul (JitterCV m) (fint 100)) +:+ "%" +:+ missedNote +:+ sizeNote
       +:+ " で観測されました（ビーコン型C2の疑い）")
    ["T1071"; "T1571"] false false "".

(** ** The fusion of weak network signals *)

(** *** The scorer *)
Record TISignal := mkTISignal { ti_Matched : bool; ti_Category : string; ti_Source : string }.

Definition c2FusionMaxKeys : nat := 100000.
Definition rareAgentThreshold : nat := 2.

Record C2FusionScorer := mkScorer {
  tiSeen : gmap string TISignal;
  dstAgents : gmap string (gset string);
  resolved : gset string;
  agentDNS : gset string;
  dgaIP : gset string
}.

Definition NewC2FusionScorer : C2FusionScorer := mkScorer ∅ ∅ ∅ ∅ ∅.

(** A map that has reached its bound starts over. *)
Definition bounded_map {A} (m : gmap string A) : gmap string A :=
  if bool_decide (c2FusionMaxKeys <= size m)%nat then ∅ else m.

Definition ObserveNetwork (agentID dstIP : string) (s : C2FusionScorer) : C2FusionScorer :=
  if String.eqb dstIP "" then s else
  let m := bounded_map (dstAgents s) in
  let set := default ∅ (m !! dstIP) in
  let set := if bool_decide (size set <= rareAgentThreshold + 1)%nat then {[agentID]} ∪ set else set in
  mkScorer (tiSeen s) (<[dstIP := set]> m) (resolved s) (agentDNS s) (dgaIP s).

Definition observe_answer (agentID : string) (dgaSuspicious : bool) (s : C2FusionScorer) (ip : string)
    : C2FusionScorer :=
  if String.eqb ip "" then s else
  let key := beacon_key agentID ip in
  mkScorer (tiSeen s) (dstAgents s) ({[key]} ∪ resolved s) (agentDNS s)
    (if dgaSuspicious then {[key]} ∪ dgaIP s else dgaIP s).

Definition ObserveDNS (agentID : string) (answers : list string) (dgaSuspicious : bool)
    (s : C2FusionScorer) : C2FusionScorer :=
  if String.eqb agentID "" || (length answers =? 0)%nat then s else
  let full := bool_decide (c2FusionMaxKeys <= size (resolved s))%nat in
  let s := mkScorer (tiSeen s) (dstAgents s) (if full then ∅ else resolved s)
             ({[agentID]} ∪ agentDNS s) (if full then ∅ else dgaIP s) in
  foldl (observe_answer agentID dgaSuspicious) s answers.

Definition ObserveTI (agentID dstIP : string) (ti : TISignal) (s : C2FusionScorer) : C2FusionScorer :=
  if String.eqb dstIP "" || negb (ti_Matched ti) then s else
  mkScorer (<[beacon_key agentID dstIP := ti]> (bounded_map (tiSeen s)))
    (dstAgents s) (resolved s) (agentDNS s) (dgaIP s).

Definition tiOrUnknown (s : string) : string := if String.eqb s "" then "unknown" else s.

(** *** The signals of a destination *)
Definition reputation (s : C2FusionScorer) (agentID dstIP : string) : option TISignal :=
  match tiSeen s !! beacon_key agentID dstIP with
  | Some ti => if ti_Matched ti then Some ti else None
  | None => None
  end.
Definition from_dga (s : C2FusionScorer) (agentID dstIP : string) : bool :=
  bool_decide (beacon_key agentID dstIP ∈ dgaIP s).
Definition fleet_rare (s : C2FusionScorer) (dstIP : string) : bool :=
  let agents := size (default ∅ (dstAgents s !! dstIP)) in
  (0 <? agents)%nat && (agents <=? rareAgentThreshold)%nat.
Definition raw_address (s : C2FusionScorer) (agentID dstIP : string) : bool :=
  bool_decide (agentID ∈ agentDNS s) && negb (bool_decide (beacon_key agentID dstIP ∈ resolved s)).

Definition with_verdict (m : RuleMatch) (severity : Z) (title description : string) : RuleMatch :=
  mkRuleMatch (RuleID m) (RuleName m) (RuleType m) severity title description
    (MITRETags m) (AutoIsolate m) (AutoKill m) (DedupKey m).

Definition Fuse (s : C2FusionScorer) (bm : BeaconMatch) : RuleMatch :=
  let base := ToRuleMatch bm in
  let agent := b_AgentID bm in
  let dst := b_DstIP bm in
  match reputation s agent dst with
  | Some ti =>
      with_verdict base 9 "[BEHAVIORAL] C2ビーコン確度高（周期通信＋既知の悪性インフラ）"
        (Description base +:+ "。宛先は脅威インテリで既知の悪性インフラと一致（category: "
           +:+ tiOrUnknown (ti_Category ti) +:+ ", source: " +:+ tiOrUnknown (ti_Source ti)
           +:+ "）。周期性(S1)＋レピュテーション(S2)一致でC2確度高。")
  | None =>
      let s4 := from_dga s agent dst in
      let s5 := fleet_rare s dst in
      let s6 := raw_address s agent dst in
      let signals :=
        (if s4 then ["DGA由来ドメイン(S4)"] else []) ++ (if s5 then ["宛先の希少性(S5)"] else []) ++
        (if s6 then ["DNS解決を経ない生IP直結(S6)"] else []) in
      if negb (s4 || (s5 && s6)) then base else
      with_verdict base 8 "[BEHAVIORAL] C2ビーコン確度中（周期通信＋C2的振る舞い）"
        (Description base +:+ "。周期性(S1)に加え " +:+ join "・" signals
           +:+ " が一致（複数信号でC2の疑いを強化）。")
  end.

Definition tiSignalFromEvent (ev : event) : TISignal :=
  match get ev "threat_intel_matched" with
  | Some (VBool true) =>
      mkTISignal true (str_or_empty ev "threat_intel_category") (str_or_empty ev "threat_intel_source")
  | _ => mkTISignal false "" ""
  end.

(** ** The size of a connection
    A [float64] counts up to its integer part. *)
Definition positive_count (v : value) : Z :=
  match v with
  | VInt z => if 0 <? z then z else 0
  | VFloat m e => if 0 <? m then (if 0 <=? e then m * 10 ^ e else m / 10 ^ (- e)) else 0
  | _ => 0
  end.
Definition is_count (v : value) : bool :=
  match v with VInt z => 0 <? z | VFloat m _ => 0 <? m | _ => false end.

Fixpoint first_count (ev : event) (ks : list string) : Z :=
  match ks with
  | [] => 0
  | k :: ks' =>
      match get ev k with
      | Some v => if is_count v then positive_count v else first_count ev ks'
      | None => first_count ev ks'
      end
  end.
Definition beaconBytesSent (ev : event) : Z := first_count ev ["bytes_sent"; "bytesSent"; "BytesSent"].

(** ** The network part of [Evaluate] *)
Record NetworkDetectors := mkNetworkDetectors { beacon : BeaconDetector; c2fusion : C2FusionScorer }.

Definition NewNetworkDetectors : NetworkDetectors :=
  mkNetworkDetectors NewBeaconDetector NewC2FusionScorer.

Definition ObserveDNSForFusion (agentID : string) (answers : list string) (dgaSuspicious : bool)
    (n : NetworkDetectors) : NetworkDetectors :=
  mkNetworkDetectors (beacon n) (ObserveDNS agentID answers dgaSuspicious (c2fusion n)).

Definition network_matches (n : NetworkDetectors) (now : time) (ev : event)
    : NetworkDetectors * list RuleMatch :=
  if negb (String.eqb (str_or_empty ev "type") "network") then (n, []) else
  let agentID := str_or_empty ev "agent_id" in
  let dst := beaconDstIP ev in
  let s := ObserveTI agentID dst (tiSignalFromEvent ev) (c2fusion n) in
  let s := ObserveNetwork agentID dst s in
  let '(b, bm) := Beacon.observeAt agentID dst (beaconBytesSent ev) now (beacon n) in
  (mkNetworkDetectors b s, match bm with Some bm => [Fuse s bm] | None => [] end).

(** [Evaluate] with the network detectors. *)
Definition evaluate_event (e : RuleEngine) (n : NetworkDetectors) (now : time) (ev : event)
    : RuleEngine * NetworkDetectors * list RuleMatch :=
  let '(e, ms) := RuleEngine.Evaluate e now ev in
  let '(n, bs) := network_matches n now ev in
  (e, n, ms ++ bs).
