(* ===== verification/BeaconProofs.v ===== *)
(** * Theorems about periodic connections

    Which cadences are reported, what the buffers hold, and what the fusion
    scorer's counters say of the fleet. *)

From Stdlib Require Import Ascii.
From S2P Require Import Prelude GoStrings Event Binary64 StatAnomaly Sequence RuleEngine Beacon.

#[local] Open Scope string_scope.
#[local] Open Scope list_scope.
#[local] Open Scope Z_scope.

(** ** Sorting what is sorted *)
Fixpoint ordered {A} (lt : A → A → bool) (l : list A) : bool :=
  match l with
  | x :: ((y :: _) as l') => negb (lt y x) && ordered lt l'
  | _ => true
  end.

Lemma sort_by_ordered {A} (lt : A → A → bool) l : ordered lt l = true → sort_by lt l = l.
Proof.
  induction l as [|x [|y l] IH]; [done|done|]. intros H. cbn [ordered] in H.
  apply andb_true_iff in H as [Hxy H]. unfold sort_by in *. cbn [foldr] in *. rewrite IH by done.
  cbn [insert_by_less]. by apply negb_true_iff in Hxy as ->.
Qed.

(** ** Steady cadences: [k] connections from [t] on, [P] apart *)
Fixpoint steady (t : time) (P : duration) (k : nat) : list time :=
  match k with O => [] | S k' => t :: steady (t + P) P k' end.

Lemma steady_length t P k : length (steady t P k) = k.
Proof. revert t. induction k; intros t; simpl; auto. Qed.

Lemma steady_snoc t P k : steady t P k ++ [t + Z.of_nat k * P] = steady t P (S k).
Proof.
  revert t. induction k as [|k IH]; intros t; [simpl; f_equal; lia|].
  change (steady t P (S k)) with (t :: steady (t + P) P k). cbn [app].
  change (steady t P (S (S k))) with (t :: steady (t + P) P (S k)). f_equal.
  rewrite <- IH. f_equal. f_equal. lia.
Qed.

Lemma steady_drop i t P k : drop i (steady t P k) = steady (t + Z.of_nat i * P) P (k - i).
Proof.
  revert t k. induction i as [|i IH]; intros t k; [rewrite drop_0, Nat.sub_0_r; f_equal; lia|].
  destruct k as [|k]; [done|]. cbn [steady drop]. rewrite IH. cbn [Nat.sub]. f_equal. lia.
Qed.

Lemma steady_ordered t P k : 0 <= P → ordered Z.ltb (steady t P k) = true.
Proof.
  intros HP. revert t. induction k as [|k IH]; intros t; [done|]. cbn [steady].
  destruct k as [|k]; [done|]. specialize (IH (t + P)). cbn [steady ordered] in *.
  rewrite IH. assert (t + P <? t = false) as -> by lia. done.
Qed.

Lemma gaps_steady t P k : 0 < P → gaps (steady t P (S k)) = repeat (seconds P) k.
Proof.
  intros HP. revert t. induction k as [|k IH]; intros t; [done|].
  change (steady t P (S (S k))) with (t :: steady (t + P) P (S k)).
  specialize (IH (t + P)). cbn [steady] in *. cbn [gaps] in *.
  assert (0 <? t + P - t = true) as -> by lia. rewrite IH. cbn [repeat]. f_equal. f_equal. lia.
Qed.

Lemma analyze_steady t P k cfg : 0 < P → (1 <= k)%nat →
  analyzeBeacon (steady t P (S k)) cfg = analyze_intervals cfg (repeat (seconds P) k).
Proof.
  intros HP Hk. unfold analyzeBeacon. rewrite steady_length, sort_by_ordered by (apply steady_ordered; lia).
  rewrite gaps_steady by done. by destruct k; [lia|].
Qed.

(** *** The median of equal intervals *)
Lemma repeat_ordered x n : ordered flt (repeat x n) = true.
Proof.
  induction n as [|[|n] IH]; [done|done|]. cbn [repeat ordered] in *. by rewrite flt_irrefl_false, IH.
Qed.

Lemma nth_repeat_lt {A} (x d : A) n i : (i < n)%nat → List.nth i (repeat x n) d = x.
Proof. revert i. induction n; intros [|i] H; simpl; try lia; [done|]. apply IHn. lia. Qed.

Lemma medianFloat_repeat x n :
  medianFloat (repeat x (S n)) = if Nat.odd (S n) then x else fdiv (fadd x x) (fint 2).
Proof.
  unfold medianFloat. rewrite sort_by_ordered by apply repeat_ordered. rewrite repeat_length.
  pose proof (Nat.div_lt (S n) 2 ltac:(lia) ltac:(lia)). destruct (Nat.odd (S n)).
  - by apply nth_repeat_lt.
  - rewrite !nth_repeat_lt by lia. done.
Qed.

(** Periods of whole seconds. *)
Definition periods (lo : Z) (n : nat) : list Z := (λ i, lo + Z.of_nat i) <$> seq 0 n.

Lemma elem_of_periods lo n P : lo <= P < lo + Z.of_nat n → P ∈ periods lo n.
Proof.
  intros H. apply list_elem_of_fmap. exists (Z.to_nat (P - lo)).
  split; [lia|]. apply elem_of_seq. lia.
Qed.

Lemma periods_forallb (f : Z → bool) lo n P :
  forallb f (periods lo n) = true → lo <= P < lo + Z.of_nat n → f P = true.
Proof.
  intros H HP. rewrite forallb_forall in H. apply H.
  apply list_elem_of_In, elem_of_periods, HP.
Qed.

Lemma analyze_reported P : 10 <= P <= 1028 →
  r_ok (analyze_intervals DefaultBeaconConfig (repeat (seconds (P * second)) 7)) = true.
Proof.
  intros HP. apply (periods_forallb (λ P, r_ok (analyze_intervals DefaultBeaconConfig
    (repeat (seconds (P * second)) 7))) 10 1019); [|lia].
  by vm_compute.
Qed.

Definition below_band (x : f64) : bool := ftrunc (fmul x (fint second)) <? 10 * second.

Lemma analyze_too_fast P k : 1 <= P < 10 →
  let r := analyze_intervals DefaultBeaconConfig (repeat (seconds (P * second)) (S k)) in
  r_ok r = false ∧ r_inBand r = false.
Proof.
  intros HP. cbv zeta. unfold analyze_intervals. rewrite medianFloat_repeat.
  assert (below_band (seconds (P * second)) = true ∧
          below_band (fdiv (fadd (seconds (P * second)) (seconds (P * second))) (fint 2)) = true)
    as [Ha Hb].
  { split.
    - apply (periods_forallb (λ P, below_band (seconds (P * second))) 1 9); [by vm_compute|lia].
    - apply (periods_forallb (λ P, below_band (fdiv (fadd (seconds (P * second))
        (seconds (P * second))) (fint 2))) 1 9); [by vm_compute|lia]. }
  case_match; [done|]. unfold below_band in *.
  set (x := if Nat.odd (S k) then _ else _).
  assert (ftrunc (fmul x (fint second)) <? 10 * second = true) as Hx by (unfold x; by case_match).
  case_match; [done|]. cbn [r_ok r_inBand MinInterval DefaultBeaconConfig].
  apply Z.ltb_lt in Hx. assert (10 * second <=? ftrunc (fmul x (fint second)) = false) as -> by lia.
  done.
Qed.

(** ** The buffers *)
Lemma stale_length cutoff ts : (stale cutoff ts <= length ts)%nat.
Proof. induction ts as [|t ts IH]; simpl; [lia|]. destruct (t <? cutoff); lia. Qed.

Lemma trim_bound cutoff ts : (length ts - trim cutoff ts <= 512)%nat ∧ (stale cutoff ts <= trim cutoff ts)%nat.
Proof. unfold trim. pose proof (stale_length cutoff ts). destruct (Nat.ltb_spec 512 (length ts - stale cutoff ts)); lia. Qed.

(** Connections and sizes of a destination stand in lockstep, and are bounded. *)
Definition lockstep (b : BeaconDetector) : Prop :=
  ∀ gk, length (default [] (conns b !! gk)) = length (default [] (sizes b !! gk)) ∧
        (length (default [] (conns b !! gk)) <= 512)%nat.

Lemma new_lockstep : lockstep NewBeaconDetector.
Proof. intros gk. simpl. rewrite !lookup_empty. simpl. lia. Qed.

(** The buffers after a connection, whatever is reported. *)
Lemma observeAt_buffers agent dst n now b : dst ≠ "" →
  let b' := (Beacon.observeAt agent dst n now b).1 in
  let gk := beacon_key agent dst in
  let buf := default [] (conns b !! gk) ++ [now] in
  let i := trim (now - Window (b_cfg b)) buf in
  b_cfg b' = b_cfg b ∧ conns b' = <[gk := drop i buf]> (conns b) ∧
  sizes b' = <[gk := drop i (default [] (sizes b !! gk) ++ [n])]> (sizes b).
Proof.
  intros Hd. cbv zeta. unfold Beacon.observeAt.
  apply String.eqb_neq in Hd as ->. repeat case_match; done.
Qed.

Lemma observeAt_lockstep agent dst n now b :
  lockstep b → lockstep (Beacon.observeAt agent dst n now b).1.
Proof.
  intros Hl. destruct (decide (dst = "")) as [->|Hd]; [done|].
  destruct (observeAt_buffers agent dst n now b Hd) as (_ & Ec & Es).
  intros gk. rewrite Ec, Es. destruct (decide (gk = beacon_key agent dst)) as [->|Hk].
  - rewrite !lookup_insert_eq.
    repeat match goal with |- context [default [] (Some ?x)] => change (default [] (Some x)) with x end.
    pose proof (trim_bound (now - Window (b_cfg b)) (default [] (conns b !! beacon_key agent dst) ++ [now])) as [Ht _].
    destruct (Hl (beacon_key agent dst)) as [El _].
    rewrite !length_drop. rewrite !length_app in *. cbn [length] in *. lia.
  - rewrite !lookup_insert_ne by done. apply Hl.
Qed.

(** ** One destination, a steady cadence *)
Section Steady.
Context (agent dst : string) (P : Z).

#[local] Abbreviation gk := (beacon_key agent dst).
#[local] Abbreviation period := (P * second).

(** The reports of a destination's connections, each a size and a time. *)
Fixpoint reports (l : list (Z * time)) (b : BeaconDetector) : list (option BeaconMatch) :=
  match l with
  | [] => []
  | (n, now) :: l' =>
      let '(b, m) := Beacon.observeAt agent dst n now b in m :: reports l' b
  end.

(** The buffer of a destination connected to steadily, [last] being due next. *)
Definition steady_until (b : BeaconDetector) (last : time) : Prop :=
  b_cfg b = DefaultBeaconConfig ∧
  ∃ k, default [] (conns b !! gk) = steady (last - Z.of_nat k * period) period k.

Lemma steady_append b last k : 
  default [] (conns b !! gk) = steady (last - Z.of_nat k * period) period k →
  default [] (conns b !! gk) ++ [last] = steady (last - Z.of_nat k * period) period (S k).
Proof. intros ->. rewrite <- steady_snoc. do 2 f_equal. lia. Qed.

Lemma steady_kept last k i : (i <= S k)%nat →
  drop i (steady (last - Z.of_nat k * period) period (S k)) =
  steady (last + period - Z.of_nat (S k - i) * period) period (S k - i).
Proof. intros Hi. rewrite steady_drop, Nat2Z.inj_sub, Nat2Z.inj_succ by done. f_equal. ring. Qed.

Lemma trim_le cutoff ts : (trim cutoff ts <= length ts)%nat.
Proof.
  unfold trim. pose proof (stale_length cutoff ts).
  destruct (Nat.ltb_spec 512 (length ts - stale cutoff ts)); lia.
Qed.

Lemma steady_step n b last : dst ≠ "" → steady_until b last →
  steady_until (Beacon.observeAt agent dst n last b).1 (last + period).
Proof.
  intros Hd (Hc & k & Hk). destruct (observeAt_buffers agent dst n last b Hd) as (Ec & Eb & _).
  split; [congruence|]. rewrite Eb, lookup_insert_eq, (steady_append _ _ _ Hk).
  eexists. cbn [default from_option].
  match goal with |- context [trim ?c ?l] =>
    pose proof (trim_le c l) as Hi; rewrite steady_length in Hi; set (i := trim c l) in * end.
  exact (steady_kept _ _ _ Hi).
Qed.

Lemma stale_steady cutoff t Q k :
  stale cutoff (steady t Q k) = k ∨ cutoff <= t + Z.of_nat (stale cutoff (steady t Q k)) * Q.
Proof.
  revert t. induction k as [|k IH]; intros t; [by left|]. cbn [steady stale].
  destruct (Z.ltb_spec t cutoff); [|right; lia].
  destruct (IH (t + Q)) as [E|E]; [left; lia|right]. rewrite Nat2Z.inj_succ. lia.
Qed.

(** At most seven connections of a slow cadence lie within the window. *)
Lemma slow_window last k : 1029 <= P →
  (S k - trim (last - 2 * hour) (steady (last - Z.of_nat k * period) period (S k)) <= 7)%nat.
Proof.
  intros HP. set (ts := steady _ _ _).
  destruct (trim_bound (last - 2 * hour) ts) as [_ Hi].
  destruct (stale_steady (last - 2 * hour) (last - Z.of_nat k * period) period (S k)) as [E|E];
    fold ts in E; [lia|].
  pose proof (stale_length (last - 2 * hour) ts) as Hl. unfold ts at 2 in Hl. rewrite steady_length in Hl.
  set (i := stale _ ts) in *. destruct (decide (i <= k)%nat); [|lia].
  assert (Z.of_nat (k - i) * P * second <= 7200 * second) as H.
  { rewrite Nat2Z.inj_sub by done. unfold hour, minute in E. lia. }
  apply Z.mul_le_mono_pos_r in H; [|done].
  assert (Z.of_nat (k - i) <= 6) by nia. lia.
Qed.

Lemma silent_step n b last : dst ≠ "" → 0 < P → P < 10 ∨ 1028 < P → steady_until b last →
  (Beacon.observeAt agent dst n last b).2 = None.
Proof.
  intros Hd HP Hout (Hc & k & Hk). unfold Beacon.observeAt.
  apply String.eqb_neq in Hd as ->. rewrite (steady_append _ _ _ Hk), Hc.
  cbn [Window DefaultBeaconConfig MinEvents].
  set (i := trim _ _). case_match eqn:El; [done|]. apply Z.ltb_ge in El.
  assert (i <= S k)%nat as Hi.
  { unfold i. pose proof (trim_le (last - 2 * hour) (steady (last - Z.of_nat k * period) period (S k))) as H.
    by rewrite steady_length in H. }
  rewrite steady_kept in * by done.
  case_match; [done|]. destruct Hout as [Hfast|Hslow].
  - destruct (S k - i)%nat as [|[|m]] eqn:Em; [unfold zlen in El; rewrite steady_length in El; lia|unfold zlen in El; rewrite steady_length in El; lia|].
    rewrite analyze_steady by (unfold second, millisecond; lia).
    destruct (analyze_too_fast P m ltac:(lia)) as [E1 E2]. unfold relaxed_gate.
    rewrite E1, E2. by rewrite !andb_false_r.
  - pose proof (slow_window last k ltac:(lia)) as Hw. fold i in Hw.
    unfold zlen in El. rewrite steady_length in El. lia.
Qed.

(** The connections of a cadence: the sizes are arbitrary. *)
Definition cadence (t0 : time) (ns : list Z) : list (Z * time) :=
  zip ns (steady t0 period (length ns)).

Lemma silent_reports ns t0 b : dst ≠ "" → 0 < P → P < 10 ∨ 1028 < P → steady_until b t0 →
  ∀ m, Some m ∉ reports (cadence t0 ns) b.
Proof.
  intros Hd HP Hout. revert t0 b. induction ns as [|n ns IH]; intros t0 b Hs m; [set_solver|].
  unfold cadence. cbn [length steady zip zip_with reports].
  pose proof (silent_step n b t0 Hd HP Hout Hs) as Hn. pose proof (steady_step n b t0 Hd Hs) as Hs'.
  destruct (Beacon.observeAt agent dst n t0 b) as [b' o]. cbn [fst snd] in *. subst o.
  intros [?|Hin]%elem_of_cons; [done|]. exact (IH _ _ Hs' m Hin).
Qed.

(** Up to the eighth connection nothing falls out of the window. *)
Lemma trim_within last j : 10 <= P <= 1028 → (j <= 7)%nat →
  trim (last - 2 * hour) (steady (last - Z.of_nat j * period) period (S j)) = 0%nat.
Proof.
  intros HP Hj. unfold trim.
  assert (stale (last - 2 * hour) (steady (last - Z.of_nat j * period) period (S j)) = 0%nat) as ->.
  { cbn [steady stale]. assert (last - Z.of_nat j * period <? last - 2 * hour = false) as ->; [|done].
    unfold hour, minute, second, millisecond. assert (Z.of_nat j * P <= 7 * 1028) by nia. lia. }
  rewrite steady_length. destruct (Nat.ltb_spec 512 (S j - 0)); [lia|done].
Qed.

(** The state after [j] connections, the next being due at [last]. *)
Definition recorded (j : nat) (b : BeaconDetector) (last : time) : Prop :=
  b_cfg b = DefaultBeaconConfig ∧ lastFire b !! gk = None ∧
  default [] (conns b !! gk) = steady (last - Z.of_nat j * period) period j.

Lemma early_step n j b last : dst ≠ "" → 10 <= P <= 1028 → (j < 7)%nat → recorded j b last →
  recorded (S j) (Beacon.observeAt agent dst n last b).1 (last + period).
Proof.
  intros Hd HP Hj (Hc & Hf & Hk). destruct (observeAt_buffers agent dst n last b Hd) as (Ec & Eb & _).
  split_and!; [congruence| |].
  - unfold Beacon.observeAt. apply String.eqb_neq in Hd as ->.
    rewrite (steady_append _ _ _ Hk), Hc. cbn [Window DefaultBeaconConfig MinEvents].
    rewrite trim_within by lia. rewrite drop_0. unfold zlen. rewrite steady_length.
    assert (Z.of_nat (S j) <? 8 = true) as -> by (apply Z.ltb_lt; lia). done.
  - rewrite Eb, Hc, lookup_insert_eq, (steady_append _ _ _ Hk). cbn [Window DefaultBeaconConfig].
    rewrite trim_within, drop_0 by lia. cbn [default from_option]. unfold id. f_equal. rewrite Nat2Z.inj_succ. ring.
Qed.

Lemma eighth_step n b last : dst ≠ "" → 10 <= P <= 1028 → recorded 7 b last →
  is_Some (Beacon.observeAt agent dst n last b).2.
Proof.
  intros Hd HP (Hc & Hf & Hk). unfold Beacon.observeAt. apply String.eqb_neq in Hd as ->.
  rewrite (steady_append _ _ _ Hk), Hc. cbn [Window DefaultBeaconConfig MinEvents].
  rewrite trim_within, !drop_0 by lia. unfold zlen. rewrite steady_length. cbn [lastFire]. rewrite Hf.
  change (Z.of_nat 8 <? 8) with false. cbv iota.
  rewrite analyze_steady by (unfold second, millisecond; lia). rewrite analyze_reported by lia.
  cbn [negb andb]. eexists. reflexivity.
Qed.

Lemma reported_by_the_eighth ns j t b : dst ≠ "" → 10 <= P <= 1028 → recorded j b t → (j <= 7)%nat →
  (8 <= j + length ns)%nat → ∃ m, Some m ∈ reports (cadence t ns) b.
Proof.
  intros Hd HP. revert j t b. induction ns as [|n ns IH]; intros j t b Hr Hj Hl; [simpl in Hl; lia|].
  unfold cadence. cbn [length steady zip zip_with reports].
  destruct (decide (j = 7%nat)) as [->|].
  - destruct (eighth_step n b t Hd HP Hr) as [m Hm]. exists m.
    destruct (Beacon.observeAt agent dst n t b) as [b' o]. cbn [snd] in Hm. subst. by left.
  - pose proof (early_step n j b t Hd HP ltac:(lia) Hr) as Hr'.
    destruct (Beacon.observeAt agent dst n t b) as [b' o]. cbn [fst] in Hr'.
    destruct (IH (S j) (t + period) b' Hr' ltac:(lia)) as [m Hm]; [cbn [length] in Hl; lia|].
    exists m. by right.
Qed.
End Steady.

(** C20: an endpoint that connects to a destination every [P] seconds, with
    connections of whatever sizes, is reported - at the eighth connection at the
    latest - exactly when [P] is from 10 to 1028: above that fewer than eight
    connections lie within the two-hour window, although the configuration names
    two hours as the longest period. *)
Theorem steady_beacon_reported_iff agent dst P t0 ns b :
  dst ≠ "" → 0 < P → b_cfg b = DefaultBeaconConfig →
  conns b !! beacon_key agent dst = None → lastFire b !! beacon_key agent dst = None →
  (8 <= length ns)%nat →
  (∃ m, Some m ∈ reports agent dst (cadence P t0 ns) b) ↔ 10 <= P <= 1028.
Proof.
  intros Hd HP Hc Hb Hf Hl. split.
  - intros [m Hm]. destruct (decide (10 <= P <= 1028)) as [|Hout]; [done|].
    exfalso. apply (silent_reports agent dst P ns t0 b Hd HP ltac:(lia)) in Hm; [done|].
    split; [done|]. exists 0%nat. by rewrite Hb.
  - intros HP'. apply (reported_by_the_eighth agent dst P ns 0 t0 b); [done|done| |lia|lia].
    split_and!; [done|done|by rewrite Hb].
Qed.

Lemma steady_beacon_reported_iff_witness :
  ∃ m, Some m ∈ reports "a" "203.0.113.9" (cadence 60 0 [0; 0; 0; 0; 0; 0; 0; 0]) NewBeaconDetector.
Proof.
  apply (steady_beacon_reported_iff "a" "203.0.113.9" 60 0 [0; 0; 0; 0; 0; 0; 0; 0] NewBeaconDetector);
    first [reflexivity | done | simpl; lia | lia].
Defined.

(** ** The fleet's contacts *)
(** The endpoints that contacted [dst], by the history of contacts. *)
Definition contacts (h : list (string * string)) (dst : string) : gset string :=
  list_to_set (filter (λ p, p.2 = dst) h).*1.

(** How many destinations a history names. *)
Definition destinations (h : list (string * string)) : nat := size (list_to_set h.*2 : gset string).

Definition observe_contacts (h : list (string * string)) (s : C2FusionScorer) : C2FusionScorer :=
  foldl (λ s p, ObserveNetwork p.1 p.2 s) s h.

Lemma contacts_snoc h p dst :
  contacts (h ++ [p]) dst = if decide (p.2 = dst) then {[p.1]} ∪ contacts h dst else contacts h dst.
Proof.
  unfold contacts. rewrite filter_app, fmap_app, list_to_set_app_L, filter_cons, filter_nil.
  case_decide; set_solver.
Qed.

(** The kept set of a destination is the set of its contacts until it has grown
    past the threshold. *)
Definition counted (h : list (string * string)) (s : C2FusionScorer) : Prop :=
  (∀ d, is_Some (dstAgents s !! d) → d ∈ h.*2) ∧
  ∀ d, let kept := default ∅ (dstAgents s !! d) in
       d ≠ "" → kept ⊆ contacts h d ∧ (kept = contacts h d ∨ (rareAgentThreshold < size kept)%nat).

Lemma size_dst_bound h s : counted h s → (size (dstAgents s) <= destinations h)%nat.
Proof.
  intros [H _]. unfold destinations. rewrite <- (size_dom (D := gset string)). apply subseteq_size. intros d.
  rewrite elem_of_dom, elem_of_list_to_set. apply H.
Qed.

Lemma observe_counted h s p : (destinations h < c2FusionMaxKeys)%nat → counted h s →
  counted (h ++ [p]) (ObserveNetwork p.1 p.2 s).
Proof.
  intros Hsz Hc. pose proof (size_dst_bound h s Hc) as Hb. destruct Hc as [Hd Hk], p as [a d].
  cbn [fst snd]. unfold ObserveNetwork. destruct (String.eqb_spec d "") as [->|Hne].
  - split.
    + intros d' Hd'. rewrite fmap_app. apply elem_of_app. left. by apply Hd.
    + intros d' kept Hd'. rewrite contacts_snoc. cbn [snd]. rewrite decide_False by congruence. by apply Hk.
  - assert (bounded_map (dstAgents s) = dstAgents s) as ->.
    { unfold bounded_map. rewrite bool_decide_eq_false_2 by lia. done. }
    split; intros d'; cbn [dstAgents].
    + rewrite fmap_app. destruct (decide (d = d')) as [->|Hdd]; [set_solver|].
      rewrite lookup_insert_ne by done. intros H%Hd. set_solver.
    + cbv zeta. intros Hd'. rewrite contacts_snoc. cbn [fst snd]. destruct (decide (d = d')) as [->|Hdd].
      * rewrite lookup_insert_eq. match goal with |- context [default ∅ (Some ?x)] => change (default ∅ (Some x)) with x end.
        destruct (Hk d' Hd') as [Hsub Heq]. set (k := default ∅ (dstAgents s !! d')) in *. clearbody k.
        case_bool_decide as Hle; [|split; [set_solver|right; lia]].
        split; [set_solver|]. destruct Heq as [->|Hgt]; [by left|right].
        assert (k ⊆ {[a]} ∪ k) as Hs by set_solver. apply subseteq_size in Hs. lia.
      * rewrite lookup_insert_ne by done. by apply Hk.
Qed.

Lemma contacts_counted h : (destinations h < c2FusionMaxKeys)%nat →
  counted h (observe_contacts h NewC2FusionScorer).
Proof.
  induction h as [|p h IH] using rev_ind; intros Hl.
  - split; [|intros d kept _; unfold kept]; simpl.
    + intros d. rewrite lookup_empty. by intros [? ?].
    + rewrite lookup_empty. by split; [|left].
  - assert (destinations h <= destinations (h ++ [p]))%nat.
    { unfold destinations. apply subseteq_size. rewrite fmap_app. set_solver. }
    unfold observe_contacts. rewrite foldl_snoc. apply observe_counted; [lia|]. apply IH. lia.
Qed.

(** As long as the fleet has named fewer than 100000 destinations, a
    destination counts as rare exactly when one or two endpoints of the fleet have
    contacted it, although no more than four endpoints are kept for any
    destination. *)
Theorem rare_destination_iff h dst :
  (destinations h < c2FusionMaxKeys)%nat → dst ≠ "" →
  let s := observe_contacts h NewC2FusionScorer in
  fleet_rare s dst = true ↔ (1 <= size (contacts h dst) <= 2)%nat.
Proof.
  intros Hl Hd s. destruct (contacts_counted h Hl) as [_ Hk]. destruct (Hk dst Hd) as [Hsub Heq].
  fold s in Hsub, Heq. unfold fleet_rare. set (kept := default ∅ (dstAgents s !! dst)) in *.
  rewrite andb_true_iff, Nat.ltb_lt, Nat.leb_le. unfold rareAgentThreshold in *.
  apply subseteq_size in Hsub. destruct Heq as [->|]; lia.
Qed.

Lemma rare_destination_iff_witness :
  fleet_rare (observe_contacts [("a", "x"); ("b", "y"); ("a", "x"); ("b", "x")] NewC2FusionScorer) "x" = true.
Proof.
  apply (rare_destination_iff [("a", "x"); ("b", "y"); ("a", "x"); ("b", "x")] "x").
  - unfold destinations, c2FusionMaxKeys. apply Nat.lt_le_trans with 5%nat; [vm_compute; lia|].
    apply Nat.leb_le. reflexivity.
  - done.
  - vm_compute. lia.
Defined.

(** ** Names resolved by an endpoint
    The network part of an evaluation is all that reaches the scorer. *)
Definition no_dns (s : C2FusionScorer) : Prop := agentDNS s = ∅ ∧ dgaIP s = ∅.

Lemma observe_ti_no_dns a d ti s : no_dns s → no_dns (ObserveTI a d ti s).
Proof. intros H. unfold ObserveTI. by destruct (_ || _). Qed.

Lemma observe_network_no_dns a d s : no_dns s → no_dns (ObserveNetwork a d s).
Proof. intros H. unfold ObserveNetwork. by destruct (String.eqb d ""). Qed.

Lemma network_matches_no_dns n now ev :
  no_dns (c2fusion n) → no_dns (c2fusion (network_matches n now ev).1).
Proof.
  intros H. unfold network_matches. case_match; [done|].
  destruct (Beacon.observeAt _ _ _ _ _) as [b bm]. cbn [fst c2fusion].
  apply observe_network_no_dns, observe_ti_no_dns, H.
Qed.

(** Without resolved names a cadence is raised by the reputation of its
    destination or by nothing. *)
Lemma fuse_without_dns s bm : no_dns s →
  match reputation s (b_AgentID bm) (b_DstIP bm) with
  | Some _ => Severity (Fuse s bm) = 9
  | None => Fuse s bm = ToRuleMatch bm
  end.
Proof.
  intros [Ha Hg]. unfold Fuse, from_dga, raw_address. rewrite Ha, Hg.
  destruct (reputation _ _ _) as [ti|]; [done|].
  rewrite !bool_decide_eq_false_2 by set_solver. by rewrite andb_false_r.
Qed.

Definition middle_verdict : string := "[BEHAVIORAL] C2ビーコン確度中（周期通信＋C2的振る舞い）".

Lemma fuse_title s bm : no_dns s → Title (Fuse s bm) ≠ middle_verdict.
Proof.
  intros Hn. pose proof (fuse_without_dns s bm Hn) as H.
  destruct (reputation s _ _) as [ti|] eqn:E; [|by rewrite H].
  unfold Fuse. by rewrite E.
Qed.

Fixpoint network_run (n : NetworkDetectors) (l : list (time * event)) : list RuleMatch :=
  match l with
  | [] => []
  | (now, ev) :: l' => let '(n, ms) := network_matches n now ev in ms ++ network_run n l'
  end.

(** However many events are evaluated, the middle verdict of the fusion - a
    generated name, or a rare address reached without a name - is never given:
    nothing feeds the scorer with resolved names. *)
Theorem middle_verdict_never_given l m :
  m ∈ network_run NewNetworkDetectors l →
  Title m ≠ middle_verdict.
Proof.
  assert (no_dns (c2fusion NewNetworkDetectors)) as Hn by done.
  revert Hn. generalize NewNetworkDetectors. induction l as [|[now ev] l IH]; intros n Hn; [set_solver|].
  cbn [network_run]. pose proof (network_matches_no_dns n now ev Hn) as Hn'.
  destruct (network_matches n now ev) as [n' ms] eqn:E. rewrite elem_of_app. intros [Hm|Hm]; [|by apply (IH n')].
  unfold network_matches in E. case_match; [simplify_eq; set_solver|].
  destruct (Beacon.observeAt _ _ _ _ _) as [b [bm|]]; simplify_eq; [|set_solver].
  apply list_elem_of_singleton in Hm as ->. exact (fuse_title _ bm Hn').
Qed.
