(* ===== verification/EnginePipeline.v ===== *)
(** * An event through the detection server

    [server/internal/detection/engine.go]: from the envelope of a message to the
    alerts.  The event is flattened and its command line de-obfuscated; the
    indicators are looked up; a process is entered into the caches and followed
    through its ancestors; then the rules, the sequences and the network detectors
    are evaluated, the typed findings are added, and each match is handled.  With
    the subscription to the operations of cloud accounts.  The stateful detectors
    of [engine_stateful.go] are empty in this edition. *)

From S2P Require Import Prelude GoStrings Event Binary64 Ueba Isolator Suppression Sequence.
From S2P Require Import CommandLine ProcessChain SigmaFields IocMatcher Detection RuleEngine.
From S2P Require Import Beacon Findings Baseline.

#[local] Open Scope string_scope.
#[local] Open Scope list_scope.
#[local] Open Scope Z_scope.

(** ** The event the detectors see *)
(** [EventEnvelope] with its [Data] decoded: [None] for bytes that are no object. *)
Record EventEnvelope := mkEventEnvelope { envelope :> Envelope; ev_Data : option event }.

Definition envelope_fields (v : Envelope) : event :=
  [("agent_id", VStr (ev_AgentID v)); ("hostname", VStr (ev_Hostname v));
   ("platform", VStr (ev_Platform v)); ("type", VStr (ev_Type v))].

(** The time of the event, or of its processing where the producer sent none. *)
Definition EventTime (timestamp : option time) (now : time) : time := default now timestamp.

Section Fields.
Context (is_print : Z → bool).

(** [mergeProtoEvent]: one of the three formats, then the aliases. *)
Definition mergeProtoEvent (order : list alias) (flat inner : event) : event :=
  addPipelineSigmaAliases is_print order (merge flat (payload_of inner)).

Definition FlatMap (order : list alias) (v : EventEnvelope) : event :=
  match ev_Data v with
  | None => envelope_fields v
  | Some inner => mergeProtoEvent order (envelope_fields v) inner
  end.
End Fields.

(** [uint32] of a number; what is outside its range is taken modulo 2^32. *)
Definition process_number (ev : event) (k : string) : Z :=
  match get ev k with
  | Some (VInt z) => z mod 2 ^ 32
  | Some (VFloat m e) => trunc_dec m e mod 2 ^ 32
  | _ => 0
  end.

(** The strings among the answers of a name query. *)
Definition nonempty_text (v : value) : option string :=
  match v with VStr s => if String.eqb s "" then None else Some s | _ => None end.
Definition dnsAnswerIPs (ev : event) : list string :=
  match get ev "answers" with Some (VList l) => omap nonempty_text l | _ => [] end.

(** ** Alerts without a match *)
Definition ioc_hit (h : IOCMatch) : IOCHit :=
  mkIOCHit (IocMatcher.ioc_Type (im_IOC h)) (IocMatcher.ioc_Severity (im_IOC h))
    (IocMatcher.ioc_Confidence (im_IOC h)) (IocMatcher.ioc_Description (im_IOC h))
    (IocMatcher.MatchedOn h) (im_Value h).

Definition lineage_alert (id : string) (created : time) (v : Envelope) (d : BehavioralDetection) : Alert :=
  let chain := String.eqb (bd_Type d) "suspicious_process_chain" in
  let technique := default "" (get (bd_Details d) "mitre") in
  mkAlert id (ev_AgentID v) (ev_Hostname v) (ev_Platform v) ""
    (if chain then "プロセスチェーン検知: " +:+ technique else "ML行動分析: 不審なプロセス系統")
    (severityStringToInt (bd_Severity d)) "open" ("不審なプロセス系統を検出: " +:+ bd_Message d)
    (bd_Message d) [] (if chain then technique else "T1059") [] false fzero created.

Definition anomaly_text (d : anomaly_detail) : string :=
  match d with
  | UnknownProcess name shown =>
      "未知のプロセスが不審な場所から実行: " +:+ name +:+ " (ベースライン未登録・実行元=" +:+ shown +:+ ")"
  | HourlyCount _ _ _ _ _ => ""
  end.

Definition baseline_alert (id : string) (created : time) (v : Envelope) (child : string)
    (a : AnomalyEvent) : Alert :=
  mkAlert id (ev_AgentID v) (ev_Hostname v) (ev_Platform v) ""
    "行動ベースライン: 未知のプロセスが不審な場所から実行" 4 "open"
    ("通常見られないプロセスが不審な場所から実行: " +:+ child) (anomaly_text (ae_Detail a))
    [] "T1059" [] false fzero created.

Definition cloud_alert (id : string) (created : time) (p : CloudEventPayload) (v : CloudVerdict) : Alert :=
  mkAlert id "" (p_Hostname p) "" "" "クラウド不審操作検知" (v_Severity v) "open"
    ("不審なクラウド操作を検出: " +:+ p_EventType p) (v_Reason v) [] (v_Technique v) [] false fzero created.

(** ** What the outside answers while one event is handled *)
Record EventTurn := mkEventTurn {
  order : list alias;
  ioc_turns : nat → Turn;
  parents_at : time;
  chain_at : time;
  chain_turns : nat → Turn;
  baseline_at : time;
  baseline_turn : Turn;
  rules_at : time;
  match_turns : nat → Turn
}.

Section Server.
Context {I : Type} `{!Isolator I}.
Context (regexp_compile : string → option (string → bool)).
Context (exp2 : f64 → f64) (hour_of : time → Z).
Context (is_print : Z → bool).

#[local] Abbreviation engine := (Detection.Engine I).
#[local] Abbreviation enrich := (Detection.enrichAnomalyScore exp2 hour_of).

Record Server := mkServer {
  core : Detection.Engine I;
  rules : RuleEngine;
  network : NetworkDetectors;
  iocs : option IOCMatcher;
  behavioral : option Behavioral;
  parents : gmap string (gmap Z parentEntry);
  baseline : option BaselineEngine;
  baselineAlerts : bool;
  baselineSeen : gset string
}.

Definition set_core (e : engine) (s : Server) : Server :=
  mkServer e (rules s) (network s) (iocs s) (behavioral s) (parents s) (baseline s)
    (baselineAlerts s) (baselineSeen s).
Definition set_rules (r : RuleEngine) (n : NetworkDetectors) (s : Server) : Server :=
  mkServer (core s) r n (iocs s) (behavioral s) (parents s) (baseline s) (baselineAlerts s)
    (baselineSeen s).
Definition set_behavioral (b : Behavioral) (s : Server) : Server :=
  mkServer (core s) (rules s) (network s) (iocs s) (Some b) (parents s) (baseline s)
    (baselineAlerts s) (baselineSeen s).
Definition set_parents (p : gmap string (gmap Z parentEntry)) (s : Server) : Server :=
  mkServer (core s) (rules s) (network s) (iocs s) (behavioral s) p (baseline s)
    (baselineAlerts s) (baselineSeen s).
Definition set_seen (b : gset string) (s : Server) : Server :=
  mkServer (core s) (rules s) (network s) (iocs s) (behavioral s) (parents s) (baseline s)
    (baselineAlerts s) b.

Definition SetBaselineEngine (b : BaselineEngine) (enabled : bool) (s : Server) : Server :=
  mkServer (core s) (rules s) (network s) (iocs s) (behavioral s) (parents s) (Some b) enabled ∅.
Definition SetBehavioralEngine (b : option Behavioral) (s : Server) : Server :=
  mkServer (core s) (rules s) (network s) (iocs s) b (parents s) (baseline s)
    (baselineAlerts s) (baselineSeen s).

(** The wiring, its rule lookup being that of the loaded rules. *)
Definition wired (w : Wiring) (s : Server) : Wiring :=
  mkWiring (w_nats w) (w_siem w) (w_notifier w) (w_playbooks w) (w_ai w) (w_suppressionHit w)
    (w_selfRemediation w) (w_suppression w) (RuleEngine.GetRule (rules s)) (w_config w).

(** An alert saved as it is: no duplicate window, no suppression rule. *)
Definition save_direct (w : Wiring) (notify : bool) (t : Turn) (a : Alert) (e : engine) : engine :=
  let '(e, a) := enrich w t a e in
  let e := emit e [SaveAlert a (save_error t)] in
  match save_error t with
  | Some _ => e
  | None => emit e (when (w_nats w) (PublishAlert a) ++
                    when (notify && w_notifier w && (5 <=? al_Severity a)) (NotifyAlert a))
  end.

(** A loop over findings, each with its own answers. *)
Fixpoint each {A} (f : Turn → A → engine → engine) (ts : nat → Turn) (k : nat) (l : list A) (e : engine)
    : engine :=
  match l with
  | [] => e
  | x :: l' => each f ts (S k) l' (f (ts k) x e)
  end.

Definition ioc_step (w : Wiring) (v : Envelope) (t : EventTurn) (flat : event) (s : Server) : Server :=
  match iocs s with
  | None => s
  | Some m =>
      set_core (each (λ t h, handle_ioc_hit regexp_compile exp2 hour_of w v flat t (ioc_hit h))
                  (ioc_turns t) 0 (IocMatcher.CheckEvent m flat) (core s)) s
  end.

(** ** A process *)
Definition child_of (flat : event) : string :=
  let c := str_or_empty flat "process_name" in
  if String.eqb c "" then str_or_empty flat "Image" else c.

Definition parent_of (v : Envelope) (b : Behavioral) (flat : event) (s : Server) : string :=
  let p := str_or_empty flat "parent_process" in
  let ppid := process_number flat "ppid" in
  if negb (String.eqb p "") || (ppid =? 0) then p else
  let q := lookup_parent (parents s) (ev_AgentID v) ppid in
  if String.eqb q "" then LookupName (Chain b) (ev_AgentID v) ppid else q.

Definition expose_parent (parent : string) (flat : event) : event :=
  if String.eqb parent "" || has_key flat "parent_image_path" then flat
  else set_key flat "parent_image_path" (VStr parent).

Definition image_path (flat : event) : string :=
  let p := str_or_empty flat "image_path" in
  if String.eqb p "" then str_or_empty flat "imagePath" else p.

Definition baseline_step (w : Wiring) (v : Envelope) (t : EventTurn) (flat : event) (child : string)
    (s : Server) : Server :=
  match baseline s with
  | None => s
  | Some b =>
      if negb (baselineAlerts s) then s else
      match CheckProcessAnomaly (baseline_at t) (ev_AgentID v) child (image_path flat) b with
      | None => s
      | Some a =>
          let '(seen, first) := markBaselineSeen (ev_AgentID v +:+ "|" +:+ child) (baselineSeen s) in
          let s := set_seen seen s in
          if first : bool then
            let bt := baseline_turn t in
            set_core (save_direct w false bt (baseline_alert (new_id bt) (clock bt) v child a) (core s)) s
          else s
      end
  end.

Definition lineage_step (w : Wiring) (v : Envelope) (t : EventTurn) (b : Behavioral) (flat : event)
    (parent child : string) (s : Server) : Server :=
  let '(b, ds) := ProcessEvent (chain_at t) (ev_AgentID v) parent child (process_number flat "pid")
                    (process_number flat "ppid") (str_or_empty flat "command_line") b in
  let s := set_behavioral b s in
  set_core (each (λ t d, save_direct w true t (lineage_alert (new_id t) (clock t) v d))
              (chain_turns t) 0 ds (core s)) s.

(** A process event: the event as the rules see it, [None] for a process that was
    already running when its endpoint began to watch. *)
Definition process_step (w : Wiring) (v : Envelope) (t : EventTurn) (flat : event) (s : Server)
    : Server * option event :=
  match behavioral s with
  | None => (s, Some flat)
  | Some b =>
      if negb (String.eqb (ev_Type v) "process") then (s, Some flat) else
      let child := child_of flat in
      let pid := process_number flat "pid" in
      let existing := String.eqb (str_or_empty flat "action") "existing" in
      let s := set_parents (record_parent (parents_at t) (ev_AgentID v) pid
                              (str_or_empty flat "Image") (parents s)) s in
      if existing && negb (String.eqb child "") && negb (pid =? 0) then
        let ch := (Analyze (chain_at t) (ev_AgentID v) pid (process_number flat "ppid") child
                     (str_or_empty flat "command_line") (Chain b)).1 in
        (set_behavioral (mkBehavioralEngine (ProcessLineage b) ch) s, None)
      else
        let parent := parent_of v b flat s in
        let flat := expose_parent parent flat in
        if String.eqb child "" then (s, Some flat) else
        let s := lineage_step w v t b flat parent child s in
        (if existing then s else baseline_step w v t flat child s, Some flat)
  end.

(** ** The whole event *)
(** The matches of the rules and the findings of the type. *)
Definition event_matches (v : Envelope) (t : EventTurn) (flat : event) (s : Server)
    : RuleEngine * NetworkDetectors * list RuleMatch :=
  let '(r, n, ms) := evaluate_event (rules s) (network s) (rules_at t) flat in
  (r, n, ms ++ typedFindings (ev_Type v) flat).

Definition rules_step (w : Wiring) (v : Envelope) (t : EventTurn) (flat : event) (s : Server) : Server :=
  let '(r, n, ms) := event_matches v t flat s in
  let s := set_rules r n s in
  set_core (handle_matches regexp_compile exp2 hour_of (wired w s) v flat (match_turns t) 0 ms (core s)) s.

(** The event after the flattening and the second pass over its command line. *)
Definition seen (t : EventTurn) (v : EventEnvelope) : event :=
  normalizeCommandLine is_print (FlatMap is_print (order t) v).

Definition processEventData (w : Wiring) (t : EventTurn) (v : EventEnvelope) (s : Server) : Server :=
  let flat := seen t v in
  let s := ioc_step w v t flat s in
  match process_step w v t flat s with
  | (s, None) => s
  | (s, Some flat) => rules_step w v t flat s
  end.

(** A message: acknowledged when it was an envelope, given back otherwise. *)
Inductive delivery := Acked | Naked.

Definition processMessage (w : Wiring) (t : EventTurn) (data : option EventEnvelope) (s : Server)
    : Server * delivery :=
  match data with
  | None => (s, Naked)
  | Some v => (processEventData w t v s, Acked)
  end.

Definition processMessages (w : Wiring) (l : list (EventTurn * option EventEnvelope)) (s : Server) : Server :=
  foldl (λ s p, (processMessage w p.1 p.2 s).1) s l.

(** ** Cloud operations *)
Definition handle_cloud (w : Wiring) (t : Turn) (payload : option CloudEventPayload) (s : Server) : Server :=
  match payload with
  | None => s
  | Some p =>
      let v := EvaluateCloud defaultCloudPatterns (Some p) in
      if negb (v_Suspicious v) then s else
      set_core (save_direct w true t (cloud_alert (new_id t) (clock t) p v) (core s)) s
  end.
End Server.

Arguments Server : clear implicits.
