(* ===== verification/EnginePipelineProofs.v ===== *)
(** * Theorems about an event's way through the detection server

    Both servers evaluate the same fields; a match of a rule that is new, not the
    engine's own doing and not suppressed is saved; and over any number of
    messages the isolations of the engine's own response are those it records. *)

From Stdlib Require Import Ascii.
From S2P Require Import Prelude GoStrings Event Binary64 Ueba Isolation Isolator Suppression Sequence.
From S2P Require Import CommandLine CommandLineProofs ProcessChain SigmaFields SigmaFieldsProofs.
From S2P Require Import IocMatcher Detection DetectionProofs RuleEngine Beacon Findings Baseline.
From S2P Require Import CustomRules CustomRulesProofs EnginePipeline.

#[local] Open Scope string_scope.
#[local] Open Scope list_scope.
#[local] Open Scope Z_scope.

(** ** Events that agree but for one field *)
Definition agree (x : string) (e e' : event) : Prop := ∀ k, k ≠ x → get e k = get e' k.

#[export] Instance agree_equivalence x : Equivalence (agree x).
Proof.
  split; [done|intros e e' H k Hk; by rewrite H|intros a b c H1 H2 k Hk; by rewrite H1, H2].
Qed.

Section Agreement.
Context (x : string).

Lemma agree_set_key e e' k v : agree x e e' → agree x (set_key e k v) (set_key e' k v).
Proof.
  intros H j Hj. destruct (decide (j = k)) as [->|Hne]; [by rewrite !get_set_same|].
  rewrite !get_set_other by done. by apply H.
Qed.

Lemma agree_has e e' k : k ≠ x → agree x e e' → has_key e k = has_key e' k.
Proof. intros Hk H. unfold has_key. by rewrite H. Qed.

Lemma agree_first_text e e' ks : x ∉ ks → agree x e e' → first_text e ks = first_text e' ks.
Proof.
  intros Hx H. unfold first_text. do 3 f_equal. induction ks as [|k ks IH]; [done|].
  cbn [fmap list_fmap]. f_equal; [|apply IH; set_solver].
  unfold str_or_empty, get_str. by rewrite H by set_solver.
Qed.

Lemma agree_write e e' ks v : x ∉ ks → agree x e e' →
  agree x (foldl (λ ev k, if has_key ev k then set_key ev k v else ev) e ks)
          (foldl (λ ev k, if has_key ev k then set_key ev k v else ev) e' ks).
Proof.
  revert e e'. induction ks as [|k ks IH]; intros e e' Hx H; [done|]. cbn [foldl].
  apply IH; [set_solver|]. rewrite (agree_has e e' k) by (done || set_solver).
  destruct (has_key e' k); [by apply agree_set_key|done].
Qed.

Lemma agree_alias order e e' : x ∉ order.*1 → agree x e e' →
  agree x (apply_aliases order e) (apply_aliases order e').
Proof.
  revert e e'. unfold apply_aliases. induction order as [|a order IH]; intros e e' Hx H; [done|].
  cbn [foldl]. rewrite fmap_cons in Hx. apply IH; [set_solver|].
  intros k Hk. rewrite !alias_step_get, H by done. destruct (get e' k); [done|].
  by rewrite H by set_solver.
Qed.

Lemma agree_derive ds e e' : Forall well_declared ds → Forall (λ d, x ∉ d_reads d) ds →
  agree x e e' → agree x (foldl derive e ds) (foldl derive e' ds).
Proof.
  intros Hw. revert e e'. induction Hw as [|d ds [Hd _] _ IH]; intros e e' Hx H; [done|].
  apply Forall_cons in Hx as [Hxd Hx]. cbn [foldl]. apply (IH _ _ Hx). unfold derive.
  rewrite (Hd e e') by (intros k Hk; apply H; set_solver).
  destruct (d_value d e'); [by apply agree_set_key|done].
Qed.

Lemma agree_normalize is_print e e' : x ∉ mark :: cmdlineKeys → agree x e e' →
  agree x (normalizeCommandLine is_print e) (normalizeCommandLine is_print e').
Proof.
  intros Hx H. unfold normalizeCommandLine. fold mark.
  rewrite (agree_has e e') by (done || set_solver). destruct (has_key e' mark); [done|].
  rewrite (agree_first_text e e') by (done || set_solver).
  destruct (String.eqb (first_text e' cmdlineKeys) ""); [done|].
  destruct (String.eqb _ _); [by apply agree_set_key|].
  apply agree_set_key, agree_write; [set_solver|by apply agree_set_key].
Qed.

Lemma agree_merge sub e e' : agree x e e' → agree x (merge e sub) (merge e' sub).
Proof.
  revert e e'. unfold merge. induction sub as [|p sub IH]; intros e e' H; [done|].
  cbn [foldl]. by apply IH, agree_set_key.
Qed.
End Agreement.

(** ** Two flattenings *)
Lemma pick_get_aux envelope ks acc k :
  get (foldl (λ f k, match get envelope k with Some v => set_key f k v | None => f end) acc ks) k =
  if decide (k ∈ ks) then match get envelope k with Some v => Some v | None => get acc k end
  else get acc k.
Proof.
  revert acc. induction ks as [|j ks IH]; intros acc; [by rewrite decide_False by set_solver|].
  cbn [foldl]. rewrite IH. destruct (decide (k = j)) as [->|Hne].
  - rewrite (decide_True (P := j ∈ j :: ks)) by by left.
    destruct (get envelope j); [rewrite get_set_same|]; by destruct (decide _).
  - assert (get match get envelope j with Some v => set_key acc j v | None => acc end k = get acc k)
      as -> by (destruct (get envelope j); [by rewrite get_set_other|done]).
    destruct (decide (k ∈ ks)); [by rewrite decide_True by by right|].
    rewrite decide_False; [done|]. by intros [?|?]%elem_of_cons.
Qed.

Lemma pick_get envelope ks k :
  get (pick envelope ks) k = if decide (k ∈ ks) then get envelope k else None.
Proof. unfold pick. rewrite pick_get_aux. case_decide; [by destruct (get envelope k)|done]. Qed.

(** The JSON object an envelope was decoded from. *)
Definition decoded_from (v : EventEnvelope) (json : event) : Prop :=
  (∀ p, p ∈ envelope_fields v → get json p.1 = Some p.2) ∧ get_map json "data" = ev_Data v.

Lemma envelope_agree v json : decoded_from v json →
  agree "timestamp" (envelope_fields v) (pick json metadata).
Proof.
  intros [Hf _] k Hk. rewrite pick_get. unfold metadata.
  destruct (decide (k ∈ (envelope_fields v).*1)) as [Hin|Hout].
  - apply list_elem_of_fmap in Hin as (p & -> & Hp). rewrite (Hf p Hp).
    unfold envelope_fields in Hp. apply list_elem_of_In in Hp.
    repeat destruct Hp as [<-|Hp]; [done..|]. done.
  - rewrite decide_False by (cbn in Hout |- *; set_solver).
    unfold envelope_fields in *. cbn in Hout. cbn [get].
    repeat (rewrite (proj2 (String.eqb_neq _ k)) by set_solver). done.
Qed.

Lemma timestamp_unread :
  "timestamp" ∉ aliases.*1 ∧ Forall (λ d, "timestamp" ∉ d_reads d) derivations ∧
  "timestamp" ∉ mark :: cmdlineKeys.
Proof. split_and!; apply (bool_decide_eq_true_1 _); vm_compute; reflexivity. Qed.

Section Fields.
Context (is_print : Z → bool).

Lemma pass_agree order e e' : order ≡ₚ aliases → agree "timestamp" e e' →
  agree "timestamp" (addPipelineSigmaAliases is_print order e)
                    (addPipelineSigmaAliases is_print order e').
Proof.
  intros Ho H. destruct timestamp_unread as (Ha & Hd & Hm). rewrite !pass_unfold.
  apply agree_derive; [apply derivations_well_declared|done|].
  apply agree_alias; [by rewrite Ho|]. by apply agree_normalize.
Qed.

(** The fields of the message before the aliases. *)
Definition arrived (v : EventEnvelope) : event :=
  match ev_Data v with
  | None => envelope_fields v
  | Some inner => merge (envelope_fields v) (payload_of inner)
  end.

(** In one order, both servers read every field but the time alike. *)
Lemma servers_agree o v json k : o ≡ₚ aliases → decoded_from v json → k ≠ "timestamp" →
  get (FlatMap is_print o v) k = get (flattenNormalizedEvent is_print o json) k.
Proof.
  intros Ho Hj Hk. pose proof (envelope_agree v json Hj) as H. destruct Hj as [_ Hd].
  unfold FlatMap, flattenNormalizedEvent. rewrite Hd. destruct (ev_Data v) as [inner|]; [|by apply H].
  apply (pass_agree o _ _ Ho (agree_merge _ _ _ _ H) k Hk).
Qed.

Lemma seen_normalized t v : order t ≡ₚ aliases → seen is_print t v = FlatMap is_print (order t) v.
Proof.
  intros Ho. unfold seen, FlatMap. destruct (ev_Data v) as [inner|].
  - apply normalized_id, pass_normalized, Ho.
  - apply normalized_id. right. apply first_text_none. intros k Hk.
    unfold cmdlineKeys in Hk. repeat (apply elem_of_cons in Hk as [->|Hk]; [reflexivity|]). set_solver.
Qed.

End Fields.

(** ** The log of the isolations *)
Section Server.
Context {I : Type} `{!Isolator I, !IsolatorOk I}.
Context (regexp_compile : string → option (string → bool)).
Context (exp2 : f64 → f64) (hour_of : time → Z).
Context (is_print : Z → bool).

#[local] Abbreviation save_direct := (save_direct exp2 hour_of).
#[local] Abbreviation process_step := (process_step exp2 hour_of).
#[local] Abbreviation ioc_step := (ioc_step regexp_compile exp2 hour_of).
#[local] Abbreviation rules_step := (rules_step regexp_compile exp2 hour_of).
#[local] Abbreviation processEventData := (processEventData regexp_compile exp2 hour_of is_print).
#[local] Abbreviation processMessages := (processMessages regexp_compile exp2 hour_of is_print).

Lemma accounted_each {A} (f : Turn → A → Detection.Engine I → Detection.Engine I) ts k l e :
  (∀ t x e, accounted e (f t x e)) → accounted e (each f ts k l e).
Proof.
  intros Hf. revert k e. induction l as [|x l IH]; intros k e; [apply accounted_refl|].
  cbn [each]. eapply accounted_trans; [apply Hf|apply IH].
Qed.

Lemma accounted_direct w n t a (e : Detection.Engine I) : accounted e (save_direct w n t a e).
Proof.
  unfold EnginePipeline.save_direct. pose proof (accounted_enrich exp2 hour_of w t a e) as H.
  destruct (enrichAnomalyScore _ _ _ _ _ _) as [e1 b]. eapply accounted_trans; [exact H|].
  pose proof (accounted_emit e1 [SaveAlert b (save_error t)] eq_refl) as Hs.
  destruct (save_error t); [done|]. eapply accounted_trans; [exact Hs|].
  apply accounted_emit. by rewrite logged_app, !logged_when by done.
Qed.

Lemma accounted_ioc_step w v t flat (s : Server I) :
  accounted (core s) (core (ioc_step w v t flat s)).
Proof.
  unfold EnginePipeline.ioc_step. destruct (iocs s); [|apply accounted_refl]. cbn [core set_core].
  apply accounted_each. intros. apply accounted_ioc.
Qed.

Lemma accounted_baseline w v t flat child (s : Server I) :
  accounted (core s) (core (baseline_step exp2 hour_of w v t flat child s)).
Proof.
  unfold baseline_step. destruct (baseline s); [|apply accounted_refl].
  destruct (negb _); [apply accounted_refl|]. destruct (CheckProcessAnomaly _ _ _ _ _); [|apply accounted_refl].
  destruct (markBaselineSeen _ _) as [seen' []]; [|apply accounted_refl].
  cbn [core set_core set_seen]. apply accounted_direct.
Qed.

Lemma accounted_lineage w v t b flat parent child (s : Server I) :
  accounted (core s) (core (lineage_step exp2 hour_of w v t b flat parent child s)).
Proof.
  unfold lineage_step. destruct (ProcessEvent _ _ _ _ _ _ _ _) as [b' ds]. cbn [core set_core set_behavioral].
  apply accounted_each. intros. apply accounted_direct.
Qed.

Lemma accounted_process w v t flat (s : Server I) :
  accounted (core s) (core (process_step w v t flat s).1).
Proof.
  unfold EnginePipeline.process_step. destruct (behavioral s) as [b|]; [|apply accounted_refl].
  destruct (negb _); [apply accounted_refl|]. destruct (_ && _ && _); [apply accounted_refl|].
  destruct (String.eqb (child_of flat) ""); [apply accounted_refl|]. cbn [fst].
  set (s1 := set_parents _ s). change (core s) with (core s1).
  destruct (String.eqb _ "existing"); [apply accounted_lineage|].
  eapply accounted_trans; [apply accounted_lineage|apply accounted_baseline].
Qed.

Lemma accounted_rules w v t flat (s : Server I) :
  accounted (core s) (core (rules_step w v t flat s)).
Proof.
  unfold EnginePipeline.rules_step. destruct (event_matches _ _ _ _) as [[r n] ms].
  cbn [core set_core set_rules]. apply accounted_matches.
Qed.

Lemma accounted_event w t v (s : Server I) : accounted (core s) (core (processEventData w t v s)).
Proof.
  unfold EnginePipeline.processEventData. eapply accounted_trans; [apply accounted_ioc_step|].
  pose proof (accounted_process w v t (seen is_print t v) (ioc_step w v t (seen is_print t v) s)) as H.
  destruct (process_step _ _ _ _ _) as [s2 [flat|]]; [|exact H].
  eapply accounted_trans; [exact H|apply accounted_rules].
Qed.

(** Over any number of messages - indicators, process chains, baselines, rules
    and findings together - the endpoints that the engine's own response cuts off
    are, in order, those of the records it hands to the store. What playbooks and
    triage do with the same gatekeeper is [Containment.process_step]. *)
Theorem server_isolations_are_logged w l (s : Server I) :
  let s' := processMessages w l s in
  ∃ xs, effects (core s') = effects (core s) ++ xs ∧ cut_by (core s') = cut_by (core s) ++ logged xs.
Proof.
  cbn zeta. change (accounted (core s) (core (processMessages w l s))).
  unfold EnginePipeline.processMessages. revert s. induction l as [|[t [v|]] l IH]; intros s.
  - apply accounted_refl.
  - cbn [foldl processMessage fst snd]. eapply accounted_trans; [apply accounted_event|apply IH].
  - apply IH.
Qed.

(** *** A match reaches the store *)
Definition fresh (key : string) (e : Detection.Engine I) : Prop := alertDedup e !! key = None.

Definition appends (e e' : Detection.Engine I) : Prop := ∃ xs, effects e' = effects e ++ xs.

Lemma accounted_appends e e' : accounted e e' → appends e e'.
Proof. intros (xs & H & _). by exists xs. Qed.

Lemma isDuplicate_absent now k key (d : gmap string time) :
  d !! key = None → k ≠ key → (isDuplicateAlert now k d).1 !! key = None.
Proof.
  intros H Hk. unfold isDuplicateAlert.
  destruct (match d !! k with Some _ => _ | None => _ end); [done|]. cbn [fst].
  rewrite lookup_insert_ne by done. by destruct (_ <? _).
Qed.

Lemma enrich_fresh w t a key (e : Detection.Engine I) : ueba_key (al_AgentID a) ≠ key → fresh key e →
  fresh key (enrichAnomalyScore exp2 hour_of w t a e).1.
Proof.
  intros Hk Hf. unfold enrichAnomalyScore. destruct (_ || _); [done|].
  destruct (ueba e); [|done]. cbn [fst]. unfold maybeEmitUEBAAnomaly.
  destruct (_ || _); [done|]. cbn [alertDedup set_ueba].
  pose proof (isDuplicate_absent (clock t) (ueba_key (al_AgentID a)) key (alertDedup e) Hf Hk) as H.
  unfold ueba_key in H. destruct (isDuplicateAlert _ _ _) as [d []]; exact H.
Qed.

Lemma after_save_fresh w a m key (e : Detection.Engine I) : fresh key e → fresh key (after_save w a m e).
Proof.
  intros Hf. unfold after_save, applyRuleBasedResponse.
  destruct (negb _); [done|]. destruct (isolation_authority w a m) as [auto label].
  destruct (auto && _); [|done]. cbn [isolator emit]. destruct (isolator e); [|done].
  destruct (isolate _ _) as [i' r]. destruct (Isolation.error r); [done|]. by destruct (Executed _).
Qed.

Lemma handle_match_fresh w v flat t m key e :
  ueba_key (ev_AgentID v) ≠ key → dedup_key (alert_of (new_id t) (clock t) v m) m ≠ key →
  fresh key e → fresh key (handle_match regexp_compile exp2 hour_of w v flat t m e).
Proof.
  intros Hu Hk Hf. unfold handle_match. set (a := alert_of _ _ _ _) in *.
  pose proof (isDuplicate_absent (clock t) (dedup_key a m) key (alertDedup e) Hf Hk) as Hd.
  destruct (isDuplicateAlert _ _ _) as [d []]; [exact Hd|]. cbn [fst] in Hd.
  destruct (IsSelfInflicted _ _ _); [exact Hd|]. destruct (suppressed_by _ _ _ _ _); [exact Hd|].
  pose proof (enrich_fresh w t a key (set_dedup e d) Hu Hd) as H.
  destruct (enrichAnomalyScore _ _ _ _ _ _) as [e1 b]. cbn [fst] in H.
  destruct (save_error t); [exact H|]. by apply after_save_fresh.
Qed.

Lemma each_fresh {A} (f : Turn → A → Detection.Engine I → Detection.Engine I) key ts k l e :
  (∀ t x e, fresh key e → fresh key (f t x e)) → fresh key e → fresh key (each f ts k l e).
Proof. intros Hf. revert k e. induction l as [|x l IH]; intros k e H; [done|]. by apply IH, Hf. Qed.

Lemma direct_fresh w n t a key (e : Detection.Engine I) : ueba_key (al_AgentID a) ≠ key → fresh key e →
  fresh key (save_direct w n t a e).
Proof.
  intros Hk Hf. unfold EnginePipeline.save_direct. pose proof (enrich_fresh w t a key e Hk Hf) as H.
  destruct (enrichAnomalyScore _ _ _ _ _ _) as [e1 b]. by destruct (save_error t).
Qed.

Lemma ioc_fresh w v flat t h key e : ueba_key (ev_AgentID v) ≠ key → fresh key e →
  fresh key (handle_ioc_hit regexp_compile exp2 hour_of w v flat t h e).
Proof.
  intros Hk Hf. unfold handle_ioc_hit. destruct (suppressed_by _ _ _ _ _); [done|].
  pose proof (enrich_fresh w t (ioc_alert (new_id t) (clock t) v h) key e Hk Hf) as H.
  destruct (enrichAnomalyScore _ _ _ _ _ _) as [e1 b]. by destruct (save_error t).
Qed.

Lemma ioc_step_fresh w v t flat key (s : Server I) : ueba_key (ev_AgentID v) ≠ key →
  fresh key (core s) → fresh key (core (ioc_step w v t flat s)).
Proof.
  intros Hk Hf. unfold EnginePipeline.ioc_step. destruct (iocs s); [|done]. cbn [core set_core].
  apply each_fresh; [|done]. intros. by apply ioc_fresh.
Qed.

Lemma process_fresh w v t flat key (s : Server I) : ueba_key (ev_AgentID v) ≠ key →
  fresh key (core s) → fresh key (core (process_step w v t flat s).1).
Proof.
  intros Hk Hf. unfold EnginePipeline.process_step. destruct (behavioral s) as [b|]; [|done].
  destruct (negb _); [done|]. destruct (_ && _ && _); [done|].
  destruct (String.eqb (child_of flat) ""); [done|]. cbn [fst]. set (s1 := set_parents _ s).
  assert (∀ f p c, fresh key (core (lineage_step exp2 hour_of w v t b f p c s1))) as Hl.
  { intros f p c. unfold lineage_step. destruct (ProcessEvent _ _ _ _ _ _ _ _) as [b' ds].
    cbn [core set_core set_behavioral]. apply each_fresh; [|done]. intros. by apply direct_fresh. }
  destruct (String.eqb _ "existing"); [apply Hl|].
  unfold baseline_step. destruct (baseline _); [|apply Hl]. destruct (negb _); [apply Hl|].
  destruct (CheckProcessAnomaly _ _ _ _ _); [|apply Hl].
  destruct (markBaselineSeen _ _) as [seen' []]; [|apply Hl].
  cbn [core set_core set_seen]. apply direct_fresh; [done|apply Hl].
Qed.

(** The key under which repeats of a match are recognised. *)
Definition match_key (v : Envelope) (m : RuleMatch) : string := dedup_key (alert_of "" 0 v m) m.

Lemma matches_before_fresh w v flat ts k ms m key (e : Detection.Engine I) :
  ueba_key (ev_AgentID v) ≠ key → Forall (λ m', match_key v m' ≠ key) ms → fresh key e →
  key = match_key v m →
  fresh key (handle_matches regexp_compile exp2 hour_of w v flat ts k ms e).
Proof.
  intros Hu Hms Hf Hk. revert k e Hf. induction Hms as [|m' ms Hm' _ IH]; intros k e Hf; [done|].
  cbn [handle_matches]. apply IH. by apply handle_match_fresh.
Qed.

(** A fresh match that nothing holds back is saved. *)
Lemma handle_match_saves w v flat t m (e : Detection.Engine I) :
  let a := alert_of (new_id t) (clock t) v m in
  fresh (match_key v m) e → IsSelfInflicted (w_selfRemediation w) (recent_containment t) a = false →
  suppressed_by regexp_compile w t flat a = None →
  ∃ score, SaveAlert (with_score a score) (save_error t) ∈
    effects (handle_match regexp_compile exp2 hour_of w v flat t m e).
Proof.
  intros a Hf Hs Hn. unfold handle_match. fold a.
  assert (isDuplicateAlert (clock t) (dedup_key a m) (alertDedup e) =
          ((isDuplicateAlert (clock t) (dedup_key a m) (alertDedup e)).1, false)) as ->.
  { unfold isDuplicateAlert. unfold fresh, match_key in Hf.
    change (dedup_key a m) with (dedup_key (alert_of "" 0 v m) m). by rewrite Hf. }
  rewrite Hs, Hn.
  pose proof (enrich_spec exp2 hour_of w t a (set_dedup e (isDuplicateAlert (clock t) (dedup_key a m) (alertDedup e)).1)) as H.
  destruct (enrichAnomalyScore _ _ _ _ _ _) as [e1 b]. destruct H as (score & u & -> & _).
  exists score. destruct (save_error t) as [err|].
  - cbn [effects emit]. set_solver.
  - destruct (accounted_after_save w (with_score a score) m
      (emit e1 [SaveAlert (with_score a score) None])) as (xs & -> & _).
    cbn [effects emit]. set_solver.
Qed.

Lemma handle_matches_saves w v flat ts l1 m l2 k (e : Detection.Engine I) :
  let t := ts (k + length l1)%nat in
  let a := alert_of (new_id t) (clock t) v m in
  ueba_key (ev_AgentID v) ≠ match_key v m → fresh (match_key v m) e →
  Forall (λ m', match_key v m' ≠ match_key v m) l1 →
  IsSelfInflicted (w_selfRemediation w) (recent_containment t) a = false →
  suppressed_by regexp_compile w t flat a = None →
  ∃ score, SaveAlert (with_score a score) (save_error t) ∈
    effects (handle_matches regexp_compile exp2 hour_of w v flat ts k (l1 ++ m :: l2) e).
Proof.
  revert k e. induction l1 as [|m' l1 IH]; intros k e t a Hu Hf Hl Hs Hn.
  - cbn [app handle_matches]. subst t a. cbn [length] in *. rewrite Nat.add_0_r in *.
    destruct (handle_match_saves w v flat (ts k) m e Hf Hs Hn) as [score H]. exists score.
    destruct (accounted_matches regexp_compile exp2 hour_of w v flat ts (S k) l2
      (handle_match regexp_compile exp2 hour_of w v flat (ts k) m e)) as (xs & -> & _). set_solver.
  - cbn [app handle_matches]. apply Forall_cons in Hl as [Hm' Hl].
    subst t a. cbn [length] in *. rewrite <-Nat.add_succ_comm in *.
    apply IH; [done| |done..]. by apply handle_match_fresh.
Qed.

(** C14: whatever rule, sequence, network detector or finding an event matches, its
    alert is saved, as long as the match is the first of its title and key for this
    endpoint, is not the engine's own containment and no suppression rule applies;
    neither the matches before it nor the alerts of indicators, process chains and
    baselines for the same event can hold it back. *)
Theorem matches_are_alerted w t (v : EventEnvelope) (s s1 : Server I) flat r n l1 m l2 :
  let tm := match_turns t (length l1) in
  let a := alert_of (new_id tm) (clock tm) v m in
  process_step w v t (seen is_print t v) (ioc_step w v t (seen is_print t v) s) = (s1, Some flat) →
  event_matches v t flat s1 = (r, n, l1 ++ m :: l2) →
  no_nul (ev_AgentID v) = true → alertDedup (core s) !! match_key v m = None →
  Forall (λ m', match_key v m' ≠ match_key v m) l1 →
  IsSelfInflicted (w_selfRemediation w) (recent_containment tm) a = false →
  suppressed_by regexp_compile w tm flat a = None →
  ∃ score, SaveAlert (with_score a score) (save_error tm) ∈ effects (core (processEventData w t v s)).
Proof.
  intros tm a Hp Hm Hn Hf Hl Hs Hsup.
  pose proof (ueba_key_ne v m Hn) as Hu.
  pose proof (process_fresh w v t (seen is_print t v) (match_key v m) _ Hu
    (ioc_step_fresh w v t (seen is_print t v) (match_key v m) s Hu Hf)) as Hf1.
  rewrite Hp in Hf1. cbn [fst] in Hf1.
  unfold EnginePipeline.processEventData. rewrite Hp.
  unfold EnginePipeline.rules_step. rewrite Hm. cbn [core set_core set_rules].
  exact (handle_matches_saves (wired w (set_rules r n s1)) v flat (match_turns t) l1 m l2 0
    (core s1) Hu Hf1 Hl Hs Hsup).
Qed.
End Server.

(** ** What the suppression rules do not reach *)
Section Direct.
Context {I : Type} `{!Isolator I}.
Context (exp2 : f64 → f64) (hour_of : time → Z).

Definition without_suppression (w : Wiring) : Wiring :=
  mkWiring (w_nats w) (w_siem w) (w_notifier w) (w_playbooks w) (w_ai w) (w_suppressionHit w)
    (w_selfRemediation w) None (w_GetRule w) (w_config w).

(** The alerts of process chains and baselines are the same with and without
    suppression rules, and those of cloud operations are too. *)
Lemma direct_alerts_not_suppressed w v t flat (s : Server I) :
  process_step exp2 hour_of w v t flat s = process_step exp2 hour_of (without_suppression w) v t flat s.
Proof. reflexivity. Qed.

(** A process whose baseline alert could not be saved is not reported again. *)
Lemma unsaved_baseline_alert_is_lost w v t flat child (s : Server I) :
  (ev_AgentID v +:+ "|" +:+ child) ∈ baselineSeen s →
  core (baseline_step exp2 hour_of w v t flat child s) = core s.
Proof.
  intros H. unfold baseline_step. destruct (baseline s); [|done]. destruct (negb _); [done|].
  destruct (CheckProcessAnomaly _ _ _ _ _); [|done]. unfold markBaselineSeen.
  by rewrite decide_True.
Qed.
End Direct.

(** ** Concrete runs *)
Definition toy_rule : DetectionRule :=
  mkDetectionRule "r1" "mimikatz" "behavioral" [] 9 "CommandLine: mimikatz" true true false ["T1003"].
Definition toy_server : Server Live :=
  mkServer toy_detector (RuleEngine.LoadRules (λ _, None) (λ _, None) [toy_rule] NewRuleEngine)
    NewNetworkDetectors None (Some (mkBehavioralEngine builtinLineageRules NewProcessChainEngine)) ∅
    None false ∅.
Definition toy_turn : EventTurn :=
  mkEventTurn aliases toy_answer 0 0 toy_answer 0 (toy_answer 0) 0 toy_answer.
Definition toy_event : EventEnvelope :=
  mkEventEnvelope (toy_endpoint "a1")
    (Some [("process", VMap [("process_name", VStr "x.exe"); ("pid", VInt 7);
                             ("command_line", VStr "mimi^katz")])]).

Definition toy_json : event :=
  [("agent_id", VStr "a1"); ("hostname", VStr "h"); ("platform", VStr "linux");
   ("type", VStr "process"); ("timestamp", VStr "2026-01-01T00:00:00Z"); ("event_id", VStr "e1");
   ("data", VMap [("process", VMap [("process_name", VStr "x.exe"); ("pid", VInt 7);
                                    ("command_line", VStr "mimi^katz")])])].


(** The command line is de-obfuscated, the rule matches, and its host is cut off
    once for two deliveries. *)
Lemma server_isolations_are_logged_witness :
  let s' := processMessages (λ _, None) (λ x, x) (λ _, 0) (λ _, true) toy_wiring
              [(toy_turn, Some toy_event); (toy_turn, None); (toy_turn, Some toy_event)] toy_server in
  cut_by (core s') = [Cut "a1"] ∧
  ∃ xs, effects (core s') = effects (core toy_server) ++ xs ∧
    cut_by (core s') = cut_by (core toy_server) ++ logged xs.
Proof.
  split; [vm_compute; reflexivity|].
  apply (server_isolations_are_logged (λ _, None) (λ x, x) (λ _, 0) (λ _, true) toy_wiring
    [(toy_turn, Some toy_event); (toy_turn, None); (toy_turn, Some toy_event)] toy_server).
Defined.

Definition toy_match_of_rule : RuleMatch := rule_match toy_rule.

Lemma matches_are_alerted_witness :
  ∃ score, SaveAlert (with_score (alert_of "a" 0 (toy_endpoint "a1") toy_match_of_rule) score) None ∈
    effects (core (processEventData (λ _, None) (λ x, x) (λ _, 0) (λ _, true) toy_wiring toy_turn
                     toy_event toy_server)).
Proof.
  pose (p := process_step (λ x, x) (λ _, 0) toy_wiring toy_event toy_turn
               (seen (λ _, true) toy_turn toy_event) toy_server).
  pose (q := event_matches toy_event toy_turn (default [] p.2) p.1).
  apply (matches_are_alerted (λ _, None) (λ x, x) (λ _, 0) (λ _, true) toy_wiring toy_turn toy_event
    toy_server p.1 (default [] p.2) q.1.1 q.1.2 [] toy_match_of_rule []).
  - vm_compute. reflexivity.
  - vm_compute. reflexivity.
  - reflexivity.
  - reflexivity.
  - constructor.
  - reflexivity.
  - reflexivity.
Defined.
