(* ===== verification/BlockRanges.v ===== *)
(** * Which addresses an isolated endpoint may reach

    [server/internal/ingestion/allow_ips.go]: the addresses an operator keeps
    reachable, checked when the server starts.
    [agent/internal/platform/windows/isolate_wfp.go]: the same entries on the
    endpoint, and the ranges of IPv4 addresses that are blocked around them. *)

From Stdlib Require Import Ascii.
From stdpp Require Import sorting.
From S2P Require Import Prelude GoStrings Ip.

#[local] Open Scope string_scope.

#[local] Open Scope list_scope.
#[local] Open Scope Z_scope.

(** ** The server: [ISOLATION_ALLOW_IPS] *)
Definition validateAllowIP (entry : string) : option string :=
  if contains entry "/" then
    match cut "/" entry, ParseCIDR entry with
    | Some (addr, _), Some ipnet =>
        match To4 (default [] (ParseIP addr)), To4 (net_IP ipnet) with
        | Some _, Some _ => None
        | _, _ => Some "IPv4 の CIDR ではありません"
        end
    | _, _ => Some ("invalid CIDR address: " +:+ entry)
    end
  else
    match ParseIP entry with
    | None => Some "IP アドレスとして解釈できません"
    | Some ip => match To4 ip with None => Some "IPv4 アドレスではありません" | Some _ => None end
    end.

Definition ParseAllowIPs (raw : string) : list string * list string :=
  foldl (λ acc e,
    let entry := trim_space e in
    if String.eqb entry "" then acc else
    match validateAllowIP entry with
    | Some err => (acc.1, acc.2 ++ [entry +:+ " (" +:+ err +:+ ")"])
    | None => (acc.1 ++ [entry], acc.2)
    end) ([], []) (split_on "," raw).

(** ** The endpoint: ranges of 32-bit addresses *)
Definition max_u32 : Z := 0xFFFFFFFF.
Definition wrap_u32 (z : Z) : Z := z mod 2 ^ 32.

Definition ipToUint32 (ip : bytes) : Z :=
  match To4 ip with Some b => number b | None => 0 end.

Definition uint32ToIPStr (n : Z) : string :=
  join "." (itoa <$> [Z.shiftr n 24; Z.land (Z.shiftr n 16) 255; Z.land (Z.shiftr n 8) 255; Z.land n 255]).

Record ipv4Range := mkRange { start : Z; end_ : Z }.

#[export] Instance ipv4Range_eq_dec : EqDecision ipv4Range.
Proof. solve_decision. Defined.

Definition allowedRange (entry : string) : res ipv4Range :=
  if contains entry "/" then
    match ParseCIDR entry with
    | None => Err ("invalid CIDR address: " +:+ entry)
    | Some ipnet =>
        match To4 (net_IP ipnet), To4 (net_Mask ipnet) with
        | Some base, Some mask =>
            let first := ipToUint32 base in
            Ok (mkRange first (Z.lor first (Z.lxor (number mask) max_u32)))
        | _, _ => Err ("IPv4 の CIDR ではありません: " +:+ entry)
        end
    end
  else
    match ParseIP entry with
    | None => Err ("IP アドレスとして解釈できません: " +:+ entry)
    | Some ip =>
        match To4 ip with
        | None => Err ("IPv4 アドレスではありません: " +:+ entry)
        | Some v4 => Ok (mkRange (ipToUint32 v4) (ipToUint32 v4))
        end
    end.

Definition loopback : ipv4Range :=
  mkRange (ipToUint32 (default [] (ParseIP "127.0.0.0")))
    (ipToUint32 (default [] (ParseIP "127.255.255.255"))).

(** An entry that cannot be read is logged and left out. *)
Definition allowed_entry (e : string) : option ipv4Range :=
  let entry := trim_space e in
  if String.eqb entry "" then None else res_option (allowedRange entry).

Definition excluded (allowedIPs : list string) : list ipv4Range :=
  loopback :: omap allowed_entry allowedIPs.

(** [sort.Slice] by start: ranges with one start may end up in any order, and the
    order chosen here is one of them. *)
Definition by_start (r s : ipv4Range) : Prop := start r <= start s.

#[export] Instance by_start_dec r s : Decision (by_start r s).
Proof. unfold by_start. apply _. Defined.

(** [merged] is built from its end: the last range is the one that grows. *)
Definition merge_into (last r : ipv4Range) (rest : list ipv4Range) : list ipv4Range :=
  if start r <=? wrap_u32 (end_ last + 1)
  then (if end_ last <? end_ r then mkRange (start last) (end_ r) else last) :: rest
  else r :: last :: rest.

Definition merge_step (merged : list ipv4Range) (r : ipv4Range) : list ipv4Range :=
  match merged with [] => [r] | last :: rest => merge_into last r rest end.

Definition merge_ranges (sorted : list ipv4Range) : list ipv4Range :=
  rev (foldl merge_step [] sorted).

(** The complement of the merged ranges, from [current] on. *)
Fixpoint complement (merged : list ipv4Range) (current : Z) : list ipv4Range :=
  match merged with
  | [] => if current =? 0 then [] else [mkRange current max_u32]
  | r :: merged' =>
      let before := if current <? start r then [mkRange current (start r - 1)] else [] in
      if end_ r =? max_u32 then before else before ++ complement merged' (end_ r + 1)
  end.

Definition block_ranges (allowedIPs : list string) : list ipv4Range :=
  complement (merge_ranges (merge_sort by_start (excluded allowedIPs))) 0.

Definition range_string (r : ipv4Range) : string :=
  uint32ToIPStr (start r) +:+ "-" +:+ uint32ToIPStr (end_ r).

Definition computeBlockRanges (allowedIPs : list string) : list string :=
  range_string <$> block_ranges allowedIPs.

Example block_examples :
  computeBlockRanges ["10.0.0.5"; " 10.0.0.0/24 "; ""; "edr.example.com"] =
    ["0.0.0.0-9.255.255.255"; "10.0.1.0-126.255.255.255"; "128.0.0.0-255.255.255.255"] ∧
  computeBlockRanges ["0.0.0.0/0"] = [] ∧
  computeBlockRanges ["255.255.255.255"; "192.0.0.0/2"] =
    ["0.0.0.0-126.255.255.255"; "128.0.0.0-191.255.255.255"] ∧
  ParseAllowIPs "10.0.1.10, 192.168.100.0/24,,fe80::1" =
    (["10.0.1.10"; "192.168.100.0/24"], ["fe80::1 (IPv4 アドレスではありません)"]).
Proof. by vm_compute. Qed.
