(* ===== verification/BlockRangesProofs.v ===== *)
(** * Which addresses an isolated endpoint may reach: theorems

    The blocked ranges are well formed and cover exactly the addresses that are
    neither loopback nor in an entry of the allow list; the text handed to the
    firewall denotes them; and the entries the server accepts are the ones the
    endpoint can use. *)

From Stdlib Require Import Ascii.
From stdpp Require Import sorting.
From S2P Require Import Prelude GoStrings CommandLine Ip BlockRanges.

#[local] Open Scope string_scope.
#[local] Open Scope list_scope.
#[local] Open Scope Z_scope.

(** ** Ranges *)
Definition in_range (r : ipv4Range) (a : Z) : Prop := start r <= a <= end_ r.
Definition wf_range (r : ipv4Range) : Prop := 0 <= start r <= end_ r ∧ end_ r <= max_u32.
Definition covered (l : list ipv4Range) (a : Z) : Prop := ∃ r, r ∈ l ∧ in_range r a.

#[export] Instance by_start_transitive : Transitive by_start.
Proof. unfold by_start. intros ???. lia. Qed.
#[export] Instance by_start_total : Total by_start.
Proof. unfold by_start. intros ??. lia. Qed.

Lemma covered_cons r l a : covered (r :: l) a ↔ in_range r a ∨ covered l a.
Proof. unfold covered. setoid_rewrite elem_of_cons. naive_solver. Qed.
Lemma covered_nil a : covered [] a ↔ False.
Proof. split; [|done]. intros (r & Hr & _). by apply elem_of_nil in Hr. Qed.
Lemma covered_app l1 l2 a : covered (l1 ++ l2) a ↔ covered l1 a ∨ covered l2 a.
Proof. unfold covered. setoid_rewrite elem_of_app. naive_solver. Qed.
Lemma covered_if (b : bool) r a : covered (if b then [r] else []) a ↔ b = true ∧ in_range r a.
Proof. destruct b; rewrite ?covered_cons, covered_nil; naive_solver. Qed.

(** The loop over the sorted ranges, with the range that still grows in front. *)
Fixpoint merge_rec (last : ipv4Range) (l : list ipv4Range) : list ipv4Range :=
  match l with
  | [] => [last]
  | r :: l' =>
      match merge_into last r [] with
      | [last'] => merge_rec last' l'
      | _ => last :: merge_rec r l'
      end
  end.

Lemma merge_rec_fold l last rest :
  rev (foldl merge_step (last :: rest) l) = rev rest ++ merge_rec last l.
Proof.
  revert last rest. induction l as [|r l IH]; intros last rest; [done|].
  cbn [foldl merge_rec merge_step]. unfold merge_into. destruct (start r <=? _).
  - destruct (end_ last <? end_ r); apply IH.
  - rewrite IH. cbn [rev]. by rewrite <-app_assoc.
Qed.

Lemma complement_wf l c : 0 <= c <= max_u32 → Forall wf_range l → Forall wf_range (complement l c).
Proof.
  intros Hc Hl. revert c Hc. induction Hl as [|r l [Hr Hm] Hl IH]; intros c Hc; cbn [complement].
  - destruct (c =? 0); repeat constructor; simpl; lia.
  - assert (Forall wf_range (if c <? start r then [mkRange c (start r - 1)] else [])) as Hb.
    { destruct (Z.ltb_spec c (start r)); repeat constructor; simpl; lia. }
    destruct (Z.eqb_spec (end_ r) max_u32); [done|]. apply Forall_app. split; [done|]. apply IH. lia.
Qed.

Lemma merge_rec_wf last l : Forall wf_range (last :: l) → Forall wf_range (merge_rec last l).
Proof.
  revert last. induction l as [|r l IH]; intros last Hl; [done|].
  apply Forall_cons in Hl as [Hlast Hl]. pose proof Hl as [Hr Hl']%Forall_cons.
  cbn [merge_rec]. unfold merge_into. destruct (start r <=? _).
  - destruct (Z.ltb_spec (end_ last) (end_ r)); apply IH; constructor; try done.
    destruct Hlast, Hr. split; simpl; lia.
  - constructor; [done|]. by apply IH.
Qed.

(** Merging and complementing sorted ranges leaves exactly what they do not cover. *)
Lemma complement_merge l last c a : Forall wf_range (last :: l) →
  StronglySorted by_start (last :: l) → 0 <= c <= start last →
  covered (complement (merge_rec last l) c) a ↔ c <= a <= max_u32 ∧ ¬ covered (last :: l) a.
Proof.
  revert last c. induction l as [|r l IH]; intros last c Hwf Hs Hc.
  - apply Forall_cons in Hwf as [[Hw Hm] _]. cbn [merge_rec complement].
    rewrite covered_cons, covered_nil. destruct (Z.eqb_spec (end_ last) max_u32) as [He|He].
    + rewrite covered_if, Z.ltb_lt. unfold in_range. cbn [start end_]. lia.
    + rewrite covered_app, covered_if, Z.ltb_lt. destruct (Z.eqb_spec (end_ last + 1) 0); [lia|].
      rewrite covered_cons, covered_nil. unfold in_range. cbn [start end_]. lia.
  - apply Forall_cons in Hwf as [Hw Hwf]. pose proof Hwf as [Hr Hwf']%Forall_cons.
    apply StronglySorted_inv in Hs as [Hs Hlast]. pose proof Hs as [Hs' Hrl]%StronglySorted_inv.
    pose proof Hlast as [Hlr Hll]%Forall_cons. unfold by_start in Hlr.
    destruct Hw as [Hw Hm], Hr as [Hrw Hrm]. cbn [merge_rec]. unfold merge_into.
    destruct (Z.leb_spec (start r) (wrap_u32 (end_ last + 1))) as [Hj|Hj].
    + (* joined *)
      assert (start r <= end_ last + 1) as Hj'.
      { unfold wrap_u32, max_u32 in *. pose proof (Z.mod_le (end_ last + 1) (2 ^ 32)). lia. }
      destruct (Z.ltb_spec (end_ last) (end_ r)) as [Hlt|Hge]; rewrite IH.
      * rewrite !covered_cons. unfold in_range at 1 2 3. cbn [start end_]. split; intros [? H]; (split; [done|]);
          contradict H; intuition lia.
      * constructor; [split; simpl; lia|done].
      * constructor; [done|]. apply Forall_forall. intros x Hx. unfold by_start. cbn [start].
        rewrite Forall_forall in Hll. by apply Hll.
      * done.
      * rewrite !covered_cons. unfold in_range at 1 2 3. split; intros [? H]; (split; [done|]);
          contradict H; intuition lia.
      * by constructor.
      * by constructor.
      * done.
    + (* apart *)
      cbn [complement]. destruct (Z.eqb_spec (end_ last) max_u32) as [He|He].
      * rewrite covered_if, Z.ltb_lt, !covered_cons. unfold in_range at 1 2. cbn [start end_].
        split; [|intros [? H]; assert (¬ (start last <= a)); [|lia]; contradict H; left; lia].
        intros [? ?]. split; [lia|]. intros [?|[Hin|(x & Hx & Hin)]]; [lia|unfold in_range in Hin; lia|].
        rewrite Forall_forall in Hll. specialize (Hll x Hx). unfold by_start, in_range in *. lia.
      * assert (wrap_u32 (end_ last + 1) = end_ last + 1) as Hwr.
        { unfold wrap_u32, max_u32 in *. apply Z.mod_small. lia. }
        rewrite Hwr in Hj. rewrite covered_app, covered_if, Z.ltb_lt, IH by (done || lia).
        rewrite (covered_cons last (r :: l)). unfold in_range at 1 2. cbn [start end_].
        split; [|intros [? H]; destruct (decide (a < start last)); [left; lia|right; split; [|tauto]];
          assert (¬ a <= end_ last); [|lia]; contradict H; left; lia].
        intros [[? ?]|[? H]]; (split; [lia|]); (intros [?|(x & Hx & Hin)]; [lia|]).
        -- apply elem_of_cons in Hx as [->|Hx]; [unfold in_range in Hin; lia|].
           rewrite Forall_forall in Hll. specialize (Hll x Hx). unfold by_start, in_range in *. lia.
        -- apply H. by exists x.
Qed.

(** ** The entries *)
Lemma number_mask a n : Forall is_byte a → 0 <= n <= 8 * Z.of_nat (length a) →
  number (zip_with Z.land a (CIDRMask n (length a))) =
  number a / 2 ^ (8 * Z.of_nat (length a) - n) * 2 ^ (8 * Z.of_nat (length a) - n).
Proof.
  revert n. induction a as [|x a IH]; intros n Ha Hn.
  - cbn in *. by replace n with 0 by lia.
  - apply Forall_cons in Ha as [Hx Ha]. pose proof (number_range a Ha) as Ra.
    cbn [number length CIDRMask] in *. set (L := Z.of_nat (length a)) in *.
    replace (Z.of_nat (S (length a))) with (1 + L) in * by lia.
    destruct (Z.leb_spec 8 n) as [H8|H8]; cbn [zip_with number].
    + rewrite length_zip_with, CIDRMask_length, Nat.min_id, IH by (done || lia). fold L.
      assert (Z.land x 255 = x) as ->
        by (change 255 with (Z.ones 8); rewrite Z.land_ones by lia; by apply Z.mod_small).
      replace (8 * (1 + L) - n) with (8 * L - (n - 8)) by lia. set (k := 8 * L - (n - 8)).
      replace (2 ^ (8 * L)) with (2 ^ (8 * L - k) * 2 ^ k)
        by (rewrite <-Z.pow_add_r by lia; f_equal; lia).
      rewrite Z.mul_assoc, Z.div_add_l by lia.
      generalize (2 ^ (8 * L - k)) (2 ^ k) (number a / 2 ^ k). intros A B C. ring.
    + rewrite mask_byte, mask_zero by (done || lia). rewrite length_replicate, Nat.min_id.
      assert (number (replicate (length a) 0) = 0) as ->.
      { clear. induction (length a) as [|m IHm]; [done|]. cbn [replicate number]. by rewrite IHm. }
      fold L. replace (8 * (1 + L) - n) with (8 * L + (8 - n)) by lia.
      rewrite Z.pow_add_r, <-Z.div_div, Z.div_add_l, (Z.div_small (number _)) by lia.
      rewrite !Z.add_0_r. generalize (2 ^ (8 * L)) (2 ^ (8 - n)) (x / 2 ^ (8 - n)). intros A B C. ring.
Qed.

Lemma ipv4_mask n : 0 <= n <= 32 → number (CIDRMask n 4) = 2 ^ 32 - 2 ^ (32 - n).
Proof.
  intros Hn. assert (forallb (λ i, number (CIDRMask (Z.of_nat i) 4) =? 2 ^ 32 - 2 ^ (32 - Z.of_nat i))
    (seq 0 33) = true) as H by (vm_compute; reflexivity).
  rewrite forallb_forall in H. specialize (H (Z.to_nat n) ltac:(apply in_seq; lia)).
  rewrite Z2Nat.id in H by lia. by apply Z.eqb_eq.
Qed.

(** A mask of an IPv6 network is never read as an IPv4 mask. *)
Lemma ipv6_mask n : 0 <= n <= 128 → To4 (CIDRMask n 16) = None.
Proof.
  intros Hn. assert (forallb (λ i, bool_decide (To4 (CIDRMask (Z.of_nat i) 16) = None)) (seq 0 129) = true)
    as H by (vm_compute; reflexivity).
  rewrite forallb_forall in H. specialize (H (Z.to_nat n) ltac:(apply in_seq; lia)).
  rewrite Z2Nat.id in H by lia. by apply bool_decide_eq_true in H.
Qed.

Lemma last_address p k : 0 <= p → 0 <= k → Z.lor (p * 2 ^ k) (2 ^ k - 1) = p * 2 ^ k + (2 ^ k - 1).
Proof.
  intros Hp Hk. replace (2 ^ k - 1) with (Z.ones k) by (rewrite Z.ones_equiv; lia).
  rewrite <-Z.lxor_lor, <-Z.add_nocarry_lxor; [done|..];
    by rewrite Z.land_ones, Z.mod_mul by lia.
Qed.

Lemma flip_mask k : 0 <= k <= 32 → Z.lxor (2 ^ 32 - 2 ^ k) max_u32 = 2 ^ k - 1.
Proof.
  intros Hk. assert (forallb (λ i, Z.lxor (2 ^ 32 - 2 ^ Z.of_nat i) max_u32 =? 2 ^ Z.of_nat i - 1)
    (seq 0 33) = true) as H by (vm_compute; reflexivity).
  rewrite forallb_forall in H. specialize (H (Z.to_nat k) ltac:(apply in_seq; lia)).
  rewrite Z2Nat.id in H by lia. by apply Z.eqb_eq.
Qed.

Lemma scan_digits_nonneg s acc : 0 <= acc → 0 <= (scan_digits s acc).1.
Proof.
  revert acc. induction s as [|c s IH]; intros acc Ha; [done|]. cbn [scan_digits].
  destruct (is_digit c) eqn:E; [|done]. apply IH. unfold is_digit, digit_value in *.
  apply andb_true_iff in E as [E%Nat.leb_le _]. lia.
Qed.

Lemma prefix_length_nonneg s n : prefix_length s = Some n → 0 <= n.
Proof.
  unfold prefix_length. destruct (_ || _); [done|]. cbv zeta. destruct (_ <=? _); [done|].
  intros [= <-]. by apply scan_digits_nonneg.
Qed.

(** What an entry of the list names: one address, or the addresses of a network
    with a mask of 32 bits. *)
Definition entry_names (entry : string) (b : bytes) : Prop :=
  let e := trim_space entry in
  if contains e "/" then
    ∃ net, ParseCIDR e = Some net ∧ length (net_Mask net) = 4%nat ∧ Contains net (v4in6 ++ b) = true
  else ParseIP e = Some (v4in6 ++ b).

Lemma ip_mask_mapped a m : length m = 4%nat → ip_mask (v4in6 ++ a) m = zip_with Z.land a m.
Proof.
  intros Hm. unfold ip_mask. rewrite Hm. change (4 =? 4)%nat with true. cbn [andb].
  rewrite take_app_length' by done. rewrite bool_decide_eq_true_2 by done. by rewrite drop_app_length' by done.
Qed.

Lemma parse_cidr_cases e net : ParseCIDR e = Some net →
  (∃ addr mask a n, cut "/" e = Some (addr, mask) ∧ parse_addr addr = Some (inl a) ∧
    prefix_length mask = Some n ∧ 0 <= n <= 32 ∧ length a = 4%nat ∧ Forall is_byte a ∧
    net = mkIPNet (zip_with Z.land a (CIDRMask n 4)) (CIDRMask n 4)) ∨
  (∃ ip n, 0 <= n <= 128 ∧ net = mkIPNet ip (CIDRMask n 16)).
Proof.
  unfold ParseCIDR. destruct (cut "/" e) as [[addr mask]|]; [|done].
  destruct (parse_addr addr) as [a|] eqn:Ea; [|done].
  destruct (prefix_length mask) as [n|] eqn:En; [|done]. pose proof (prefix_length_nonneg _ _ En) as Hn.
  cbv zeta. destruct (Z.ltb_spec (8 * Z.of_nat (match a with inl _ => 4 | inr _ => 16 end)) n); [done|].
  intros [= <-]. destruct a as [a|a]; [left|right].
  - exists addr, mask, a, n. rewrite Ea, En. pose proof (parse_addr_v4 _ _ Ea) as [Hla Hba].
    change (8 * Z.of_nat 4) with 32 in *. do 6 (split; [done || lia|]). f_equal.
    unfold as16. apply ip_mask_mapped, CIDRMask_length.
  - eexists _, n. split; [|done]. change (8 * Z.of_nat 16) with 128 in *. lia.
Qed.

(** A network of [n] bits becomes the range of the numbers with its prefix. *)
Lemma allowed_v4_cidr e a n : contains e "/" = true → length a = 4%nat → Forall is_byte a → 0 <= n <= 32 →
  ParseCIDR e = Some (mkIPNet (zip_with Z.land a (CIDRMask n 4)) (CIDRMask n 4)) →
  let k := 32 - n in let p := number a / 2 ^ k in
  allowedRange e = Ok (mkRange (p * 2 ^ k) (p * 2 ^ k + (2 ^ k - 1))).
Proof.
  intros He Hla Hba Hn Ep. cbv zeta. unfold allowedRange. rewrite He, Ep. cbn [net_IP net_Mask].
  assert (∀ l : bytes, length l = 4%nat → To4 l = Some l) as H4 by (intros l Hl; unfold To4; by rewrite Hl).
  assert (length (zip_with Z.land a (CIDRMask n 4)) = 4%nat) as Hz
    by (by rewrite length_zip_with, CIDRMask_length, Hla).
  rewrite (H4 _ Hz), (H4 (CIDRMask n 4)) by apply CIDRMask_length. cbv zeta. unfold ipToUint32. rewrite (H4 _ Hz).
  pose proof (number_mask a n Hba) as Hm. rewrite Hla in Hm. change (8 * Z.of_nat 4) with 32 in Hm.
  rewrite Hm by lia. rewrite ipv4_mask, flip_mask by lia.
  pose proof (number_range a Hba) as Ra. rewrite last_address; [done| |lia]. apply Z.div_pos; lia.
Qed.

Lemma allowed_v6_cidr e ip n : contains e "/" = true → 0 <= n <= 128 →
  ParseCIDR e = Some (mkIPNet ip (CIDRMask n 16)) → res_option (allowedRange e) = None.
Proof.
  intros He Hn Ep. unfold allowedRange. rewrite He, Ep. cbn [net_IP net_Mask].
  rewrite ipv6_mask by done. by destruct (To4 ip).
Qed.

Lemma cidr_names e b : length b = 4%nat → Forall is_byte b → contains e "/" = true →
  (∃ r, res_option (allowedRange e) = Some r ∧ in_range r (number b)) ↔
  ∃ net, ParseCIDR e = Some net ∧ length (net_Mask net) = 4%nat ∧ Contains net (v4in6 ++ b) = true.
Proof.
  intros Hb Hbb He. destruct (ParseCIDR e) as [net|] eqn:Ep.
  2: { unfold allowedRange. rewrite He, Ep. split; [by intros (? & [=] & _)|by intros (? & [=] & _)]. }
  destruct (parse_cidr_cases _ _ Ep)
    as [(addr & mask & a & n & Ec & Ea & En & Hn & Hla & Hba & ->)|(ip & n & Hn & ->)].
  - rewrite (allowed_v4_cidr e a n) by done. cbn [res_option].
    destruct (ipv4_range_is_prefix e addr mask a n Ec Ea En Hn) as (net & Ep' & Hc). rewrite Ep in Ep'.
    injection Ep' as <-. pose proof (number_range a Hba) as Ra. set (k := 32 - n) in *.
    set (p := number a / 2 ^ k) in *.
    assert (0 < 2 ^ k) as Hk by (apply Z.pow_pos_nonneg; lia). split.
    + intros (r & [= <-] & Hr). unfold in_range in Hr. cbn [start end_] in Hr.
      eexists. split; [done|]. split; [apply CIDRMask_length|]. apply Hc; [done..|]. fold k p.
      apply Z.div_unique_pos with (number b - p * 2 ^ k); nia.
    + intros (net & [= <-] & _ & Hin). apply Hc in Hin; [|done..]. fold k p in Hin.
      eexists. split; [done|]. unfold in_range. cbn [start end_]. rewrite Hin.
      pose proof (Z.div_mod (number b) (2 ^ k) ltac:(lia)). pose proof (Z.mod_pos_bound (number b) (2 ^ k) Hk). nia.
  - rewrite (allowed_v6_cidr e ip n) by done. split; [by intros (? & [=] & _)|].
    intros (? & <-%(inj Some) & Hl & _). cbn [net_Mask] in Hl. by rewrite CIDRMask_length in Hl.
Qed.

Lemma address_names e b : length b = 4%nat → Forall is_byte b → contains e "/" = false →
  (∃ r, res_option (allowedRange e) = Some r ∧ in_range r (number b)) ↔ ParseIP e = Some (v4in6 ++ b).
Proof.
  intros Hb Hbb He. unfold allowedRange. rewrite He.
  destruct (ParseIP e) as [ip|] eqn:Ep; [|split; [by intros (? & [=] & _)|done]].
  pose proof (parse_ip_bytes _ _ Ep) as [Hl Hip].
  destruct (To4 ip) as [v4|] eqn:E4.
  - assert (ip = v4in6 ++ v4 ∧ length v4 = 4%nat) as [-> Hl4].
    { unfold To4 in E4. rewrite Hl in E4. cbn [Nat.eqb andb] in E4.
      destruct (bool_decide_reflect (take 12 ip = v4in6)) as [Ht|]; [|done].
      injection E4 as <-. rewrite <-Ht, take_drop, length_drop, Hl. done. }
    apply Forall_app in Hip as [_ Hv4].
    assert (ipToUint32 v4 = number v4) as -> by (unfold ipToUint32, To4; by rewrite Hl4). split.
    + intros (r & [= <-] & Hr). unfold in_range in Hr. cbn [start end_] in Hr. do 2 f_equal.
      apply number_inj; [lia|done..|lia].
    + intros [= ->]. eexists. split; [done|]. unfold in_range. cbn [start end_]. lia.
  - split; [by intros (? & [=] & _)|]. intros ->%(inj Some). by rewrite to4_mapped in E4.
Qed.

Lemma allowed_names entry b : length b = 4%nat → Forall is_byte b →
  (∃ r, allowed_entry entry = Some r ∧ in_range r (number b)) ↔ entry_names entry b.
Proof.
  intros Hb Hbb. unfold allowed_entry, entry_names. cbv zeta.
  destruct (String.eqb_spec (trim_space entry) "") as [->|_].
  { split; [by intros (? & [=] & _)|by intros [=]]. }
  destruct (contains _ "/") eqn:E; [by apply cidr_names|by apply address_names].
Qed.

Lemma allowed_range_wf entry r : allowed_entry entry = Some r → wf_range r.
Proof.
  unfold allowed_entry. cbv zeta. destruct (String.eqb _ ""); [done|].
  assert (∀ l : bytes, Forall is_byte l → length l = 4%nat → 0 <= ipToUint32 l <= max_u32) as Hrange.
  { intros l Hl Hlen. unfold ipToUint32, To4. rewrite Hlen. cbn [Nat.eqb].
    pose proof (number_range l Hl) as R. rewrite Hlen in R. change (8 * Z.of_nat 4) with 32 in R. unfold max_u32. lia. }
  destruct (contains (trim_space entry) "/") eqn:E.
  - destruct (ParseCIDR (trim_space entry)) as [net|] eqn:Ep; [|unfold allowedRange; by rewrite E, Ep].
    destruct (parse_cidr_cases _ _ Ep) as [(_ & _ & a & n & _ & _ & _ & Hn & Hla & Hba & ->)|(ip & n & Hn & ->)].
    + rewrite (allowed_v4_cidr _ a n) by done. intros [= <-].
      pose proof (number_range a Hba) as Ra. rewrite Hla in Ra. change (8 * Z.of_nat 4) with 32 in Ra.
      assert (2 ^ 32 = 2 ^ n * 2 ^ (32 - n)) as Hsplit by (rewrite <-Z.pow_add_r by lia; f_equal; lia).
      set (k := 32 - n) in *. assert (0 < 2 ^ k) as Hk by (apply Z.pow_pos_nonneg; lia).
      assert (0 <= number a / 2 ^ k < 2 ^ n) as Hp.
      { split; [apply Z.div_pos; lia|]. apply Z.div_lt_upper_bound; lia. }
      unfold wf_range, max_u32. cbn [start end_]. nia.
    + by rewrite (allowed_v6_cidr _ ip n).
  - unfold allowedRange. rewrite E.
    destruct (ParseIP _) as [ip|] eqn:Ep; [|done]. pose proof (parse_ip_bytes _ _ Ep) as [Hl Hip].
    destruct (To4 ip) as [v4|] eqn:E4; [|done]. intros [= <-]. unfold To4 in E4. rewrite Hl in E4.
    cbn [Nat.eqb andb] in E4. destruct (bool_decide _); [|done]. injection E4 as <-.
    assert (0 <= ipToUint32 (drop 12 ip) <= max_u32).
    { apply Hrange; [by apply Forall_drop|]. rewrite length_drop, Hl. done. }
    unfold wf_range. cbn [start end_]. lia.
Qed.

(** ** What is blocked *)
Lemma excluded_covered l b : length b = 4%nat → Forall is_byte b →
  covered (excluded l) (number b) ↔ in_range loopback (number b) ∨ ∃ e, e ∈ l ∧ entry_names e b.
Proof.
  intros Hb Hbb. unfold excluded. rewrite covered_cons. apply or_iff_compat_l. unfold covered.
  setoid_rewrite list_elem_of_omap. setoid_rewrite <-(λ e, allowed_names e b Hb Hbb). naive_solver.
Qed.

Lemma loopback_iff b0 b : length b = 3%nat → Forall is_byte (b0 :: b) →
  in_range loopback (number (b0 :: b)) ↔ b0 = 127.
Proof.
  intros Hl [H0 Hb]%Forall_cons. pose proof (number_range b Hb) as R. cbn [number]. rewrite Hl in *.
  change loopback with (mkRange (127 * 2 ^ 24) (127 * 2 ^ 24 + (2 ^ 24 - 1))).
  unfold in_range, is_byte in *. cbn [start end_]. change (8 * Z.of_nat 3) with 24 in *. lia.
Qed.

Lemma excluded_wf l : Forall wf_range (excluded l).
Proof.
  constructor; [by vm_compute|]. apply Forall_forall. intros r (e & _ & He)%list_elem_of_omap.
  by apply (allowed_range_wf e).
Qed.

Lemma sorted_excluded l : ∃ last rest, merge_sort by_start (excluded l) = last :: rest ∧
  StronglySorted by_start (last :: rest) ∧ Forall wf_range (last :: rest) ∧
  ∀ a, covered (last :: rest) a ↔ covered (excluded l) a.
Proof.
  pose proof (merge_sort_Permutation by_start (excluded l)) as Hp.
  pose proof (StronglySorted_merge_sort by_start (excluded l)) as Hs.
  destruct (merge_sort by_start (excluded l)) as [|last rest].
  { apply Permutation_nil in Hp. done. }
  exists last, rest. split; [done|]. split; [apply Hs|]. split; [rewrite Hp; apply excluded_wf|].
  intros a. unfold covered. setoid_rewrite Hp. done.
Qed.

Lemma block_ranges_exact l a : covered (block_ranges l) a ↔ 0 <= a <= max_u32 ∧ ¬ covered (excluded l) a.
Proof.
  destruct (sorted_excluded l) as (last & rest & Hm & Hs & Hwf & Hc). unfold block_ranges. rewrite Hm.
  unfold merge_ranges. cbn [foldl]. change (merge_step [] last) with [last]. rewrite merge_rec_fold. cbn [rev app].
  rewrite complement_merge; [by rewrite Hc|done|done|].
  apply Forall_cons in Hwf as [[Hw _] _]. lia.
Qed.

Lemma block_ranges_wf l : Forall wf_range (block_ranges l).
Proof.
  destruct (sorted_excluded l) as (last & rest & Hm & _ & Hwf & _). unfold block_ranges. rewrite Hm.
  unfold merge_ranges. cbn [foldl]. change (merge_step [] last) with [last]. rewrite merge_rec_fold. cbn [rev app].
  apply complement_wf; [by vm_compute|]. by apply merge_rec_wf.
Qed.

(** C10: an isolated endpoint is cut off from exactly the addresses that are neither
    loopback nor named by an entry of the allow list, whatever the entries are and
    however they overlap; and every blocked range is a range of 32-bit addresses. *)
Theorem blocked_iff_not_allowed l b0 b1 b2 b3 : Forall is_byte [b0; b1; b2; b3] →
  covered (block_ranges l) (number [b0; b1; b2; b3]) ↔
  b0 ≠ 127 ∧ ∀ e, e ∈ l → ¬ entry_names e [b0; b1; b2; b3].
Proof.
  intros Hb. rewrite block_ranges_exact, excluded_covered, loopback_iff by done.
  pose proof (number_range _ Hb) as R. change (8 * Z.of_nat (length [b0; b1; b2; b3])) with 32 in R.
  unfold max_u32. split; [intros [_ H]; naive_solver|]. intros [H0 H]. split; [lia|]. naive_solver.
Qed.

Lemma blocked_iff_not_allowed_witness :
  Forall is_byte [10; 0; 1; 0] ∧
  (covered (block_ranges ["10.0.0.0/24"; "edr.example.com"]) (number [10; 0; 1; 0]) ↔
   10 ≠ 127 ∧ ∀ e, e ∈ ["10.0.0.0/24"; "edr.example.com"] → ¬ entry_names e [10; 0; 1; 0]).
Proof.
  assert (Forall is_byte [10; 0; 1; 0]) as H by (repeat constructor; discriminate).
  split; [exact H|]. by apply blocked_iff_not_allowed.
Defined.

(** ** The text of a range *)
Lemma octet_itoa n : 0 <= n < 256 → octet (itoa n) = Some n ∧ contains_char (Ascii.eqb ".") (itoa n) = false.
Proof.
  intros Hn. assert (forallb (λ i, bool_decide (octet (itoa (Z.of_nat i)) = Some (Z.of_nat i)) &&
    negb (contains_char (Ascii.eqb ".") (itoa (Z.of_nat i)))) (seq 0 256) = true) as H by (vm_compute; reflexivity).
  rewrite forallb_forall in H. specialize (H (Z.to_nat n) ltac:(apply in_seq; lia)).
  rewrite Z2Nat.id in H by lia. apply andb_true_iff in H as [H1%bool_decide_eq_true H2%negb_true_iff]. done.
Qed.

Lemma byte_of z i : 0 <= i → 0 <= Z.land (Z.shiftr z i) 255 < 256.
Proof. intros Hi. change 255 with (Z.ones 8). rewrite Z.land_ones by lia. by apply Z.mod_pos_bound. Qed.

Lemma parse_addr_dotted a t : contains_char (λ c, negb (is_digit c)) a = false →
  parse_addr (a +:+ String "." t) = inl <$> parse_ipv4 (a +:+ String "." t).
Proof.
  unfold parse_addr. set (family := fix family t := match t with EmptyString => None | String _ _ => _ end).
  intros Ha. assert (family (a +:+ String "." t) = Some true) as ->; [|done].
  induction a as [|c a IH]; [done|]. cbn [contains_char] in Ha. apply orb_false_iff in Ha as [Hc Ha].
  cbn [String.append family]. specialize (IH Ha).
  destruct (Ascii.eqb_spec c "."); [by subst|]. destruct (Ascii.eqb_spec c ":"); [by subst|].
  destruct (Ascii.eqb_spec c "%"); [by subst|]. done.
Qed.

(** what the firewall is told denotes the range: the text of an address parses to
    the address. *)
Theorem address_text_roundtrip n : 0 <= n <= max_u32 →
  ∃ ip, ParseIP (uint32ToIPStr n) = Some ip ∧ ipToUint32 ip = n.
Proof.
  intros Hn. unfold max_u32 in Hn.
  set (b := [Z.shiftr n 24; Z.land (Z.shiftr n 16) 255; Z.land (Z.shiftr n 8) 255; Z.land n 255]).
  assert (Forall (λ x, 0 <= x < 256) b) as Hb.
  { repeat constructor; try (apply byte_of; lia).
    - apply Z.shiftr_nonneg. lia.
    - rewrite Z.shiftr_div_pow2 by lia. apply Z.div_lt_upper_bound; lia.
    - rewrite <-(Z.shiftr_0_r n). by apply byte_of.
    - rewrite <-(Z.shiftr_0_r n). by apply byte_of. }
  assert (split_on "." (uint32ToIPStr n) = itoa <$> b) as Hs.
  { unfold uint32ToIPStr. apply split_join; [done|]. apply Forall_fmap. eapply Forall_impl; [exact Hb|].
    intros x Hx. by apply octet_itoa. }
  assert (parse_ipv4 (uint32ToIPStr n) = Some b) as Hp.
  { unfold parse_ipv4. rewrite Hs. subst b. cbn [fmap list_fmap]. rewrite !Forall_cons in Hb.
    destruct Hb as (H0 & H1 & H2 & H3 & _).
    by rewrite (proj1 (octet_itoa _ H0)), (proj1 (octet_itoa _ H1)), (proj1 (octet_itoa _ H2)), (proj1 (octet_itoa _ H3)). }
  exists (v4in6 ++ b). split.
  - unfold ParseIP, uint32ToIPStr in *. cbn [fmap list_fmap join] in *.
    change (?a +:+ "." +:+ ?t) with (a +:+ String "." t) in *. rewrite parse_addr_dotted, Hp; [done|].
    rewrite Forall_forall in Hb. specialize (Hb (Z.shiftr n 24) ltac:(by left)).
    pose proof (proj1 (octet_itoa _ Hb)) as Ho. unfold octet in Ho. destruct (_ || _) eqn:E; [done|].
    by apply orb_false_iff in E as [_ E].
  - unfold ipToUint32. rewrite to4_mapped by done. subst b. cbn [number length].
    replace 255 with (Z.ones 8) by done. rewrite !Z.land_ones, !Z.shiftr_div_pow2 by lia.
    change (2 ^ (8 * Z.of_nat 3)) with 16777216. change (2 ^ (8 * Z.of_nat 2)) with 65536.
    change (2 ^ (8 * Z.of_nat 1)) with 256. change (2 ^ (8 * Z.of_nat 0)) with 1.
    change (2 ^ 24) with 16777216. change (2 ^ 16) with 65536. change (2 ^ 8) with 256.
    replace (n / 16777216) with (n / 256 / 256 / 256) by (rewrite !Z.div_div by lia; done).
    replace (n / 65536) with (n / 256 / 256) by (rewrite Z.div_div by lia; done).
    Z.to_euclidean_division_equations. lia.
Qed.

Lemma address_text_roundtrip_witness : 0 <= 0x7EFFFFFF <= max_u32 ∧
  ∃ ip, ParseIP (uint32ToIPStr 0x7EFFFFFF) = Some ip ∧ ipToUint32 ip = 0x7EFFFFFF.
Proof. split; [by vm_compute|]. apply (address_text_roundtrip 0x7EFFFFFF). by vm_compute. Defined.

(** ** The two ends *)
Lemma accepted_entries_usable e : validateAllowIP e = None →
  (∀ net, ParseCIDR e = Some net → length (net_Mask net) = 4%nat) → ∃ r, allowedRange e = Ok r.
Proof.
  unfold validateAllowIP. intros Hv Hm. destruct (contains e "/") eqn:E.
  - destruct (cut "/" e) as [[addr ?]|]; [|done]. destruct (ParseCIDR e) as [net|] eqn:Ep; [|done].
    specialize (Hm net eq_refl).
    destruct (parse_cidr_cases _ _ Ep) as [(_ & _ & a & n & _ & _ & _ & Hn & Hla & Hba & ->)|(ip & n & Hn & ->)].
    + eexists. by apply (allowed_v4_cidr e a n).
    + cbn [net_Mask] in Hm. by rewrite CIDRMask_length in Hm.
  - unfold allowedRange. rewrite E. destruct (ParseIP e) as [ip|]; [|done]. destruct (To4 ip); [by eexists|done].
Qed.

(** A network written in its IPv6-mapped form passes the check of the server and is
    dropped on the endpoint: its addresses are cut off. *)
Lemma mapped_network_is_dropped :
  ParseAllowIPs "::ffff:10.0.0.0/104" = (["::ffff:10.0.0.0/104"], []) ∧
  allowedRange "::ffff:10.0.0.0/104" = Err "IPv4 の CIDR ではありません: ::ffff:10.0.0.0/104" ∧
  block_ranges ["::ffff:10.0.0.0/104"] = block_ranges [].
Proof. by vm_compute. Qed.
