(* ===== verification/Wfp.v ===== *)
(** * Isolation on Windows

    [agent/internal/platform/windows/isolate_wfp.go] and
    [isolate_firewall_policy.go]: the manager that blocks every address but a few
    with rules of the Windows firewall, keeps the default policy it relaxes for that,
    and puts it back; and what it finds after the agent was restarted.

    The host is the environment ([WindowsHost]): [netsh], the registry and the
    listing of the rules.  The saved policy is a file of the agent; its contents are
    kept as the value that is encoded, since the decoder gives it back. *)

From Stdlib Require Import Ascii.
From stdpp Require Import sorting.
From S2P Require Import Prelude GoStrings Ip BlockRanges.

#[local] Open Scope string_scope.
#[local] Open Scope list_scope.
#[local] Open Scope Z_scope.

(** ** The host *)
Class WindowsHost (H : Type) := {
  netsh : list string → H → H * option (string * string);  (** the error and the output *)
  open_key : H → string → bool;                            (** a key of a profile can be read *)
  reg_value : H → string → string → option Z;
  show_rules : H → string                                  (** [show rule name=all] *)
}.

(** ** The policy of a profile *)
Definition fwDefaultEnabled : Z := 1.
Definition fwDefaultInbound : Z := 1.
Definition fwDefaultOutbound : Z := 0.

Record fwProfile := mkProfile { regKey : string; netsh_token : string }.
Definition fwProfiles : list fwProfile :=
  [mkProfile "DomainProfile" "domainprofile"; mkProfile "StandardProfile" "privateprofile";
   mkProfile "PublicProfile" "publicprofile"].

Record fwPolicy := mkPolicy { Enabled : Z; Inbound : Z; Outbound : Z; NoExceptions : Z }.
Abbreviation fwSnapshot := (gmap string fwPolicy) (only parsing).

Definition netshPolicyTokens (p : fwPolicy) : string :=
  let in_ := if Inbound p =? 1
             then if NoExceptions p =? 1 then "blockinboundalways" else "blockinbound"
             else "allowinbound" in
  let out := if Outbound p =? 1 then "blockoutbound" else "allowoutbound" in
  in_ +:+ "," +:+ out.

Definition netshStateToken (p : fwPolicy) : string := if Enabled p =? 1 then "on" else "off".

(** ** The rules *)
Definition isolateRulePrefix : string := "EDR-ISOLATE-".

Fixpoint span_digits (s : string) : string * string :=
  match s with
  | String c s' => if is_digit c then let '(d, r) := span_digits s' in (String c d, r) else ("", s)
  | EmptyString => ("", "")
  end.

(** [isolationRuleNameRe] at the start of a text: the name and what follows. *)
Definition rule_name_at (s : string) : option (string * string) :=
  let lit := isolateRulePrefix +:+ "BLOCK-RANGE-" in
  if has_prefix s lit then
    let '(ds, rest) := span_digits (sdrop (String.length lit) s) in
    if String.eqb ds "" then None else
    if has_prefix rest "-IN" then Some (lit +:+ ds +:+ "-IN", sdrop 3 rest) else
    if has_prefix rest "-OUT" then Some (lit +:+ ds +:+ "-OUT", sdrop 4 rest) else None
  else None.

(** [FindAllString]: the matches from the left; the fuel is the length of the text. *)
Fixpoint find_names (fuel : nat) (s : string) : list string :=
  match fuel with
  | O => []
  | S f =>
      match rule_name_at s with
      | Some (name, rest) => name :: find_names f rest
      | None => match s with EmptyString => [] | String _ s' => find_names f s' end
      end
  end.

Definition string_le (a b : string) : Prop := String.leb a b = true.

#[export] Instance string_le_dec a b : Decision (string_le a b).
Proof. unfold string_le. apply _. Defined.

Definition parseIsolationRuleNames (out : string) : list string :=
  merge_sort string_le (foldl (λ acc n, if decide (n ∈ acc) then acc else acc ++ [n]) []
    (find_names (S (String.length out)) out)).

Example parse_names_example :
  parseIsolationRuleNames ("Rule Name: EDR-ISOLATE-BLOCK-RANGE-10-OUT" +:+ String (chr 13) "" +:+
    "Regelname: EDR-ISOLATE-BLOCK-RANGE-1-IN, EDR-ISOLATE-BLOCK-RANGE--IN EDR-ISOLATE-BLOCK-RANGE-1-IN") =
  ["EDR-ISOLATE-BLOCK-RANGE-1-IN"; "EDR-ISOLATE-BLOCK-RANGE-10-OUT"].
Proof. by vm_compute. Qed.

(** ** The manager *)
Record WFPIsolationManager := mkWFP {
  isolated : bool;
  ruleNames : list string;
  allowedIPs : list string;
  savedPolicy : option fwSnapshot
}.

(** What [NewWFPIsolationManager] returns; [reconcile] is started beside it. *)
Definition NewWFPIsolationManager : WFPIsolationManager := mkWFP false [] [] None.

Section Manager.
Context {H : Type} `{WindowsHost H}.

(** The host, the file with the saved policy, and whether it can be written. *)
Record World := mkWorld { host : H; policy_file : option fwSnapshot; file_writable : bool }.

Definition set_host (w : World) (h : H) : World := mkWorld h (policy_file w) (file_writable w).

Definition run (args : list string) (w : World) : World * option (string * string) :=
  let '(h, err) := netsh args (host w) in (set_host w h, err).

(** *** The default policy *)
Definition reg_or (w : World) (key name : string) (def : Z) : Z :=
  default def (reg_value (host w) key name).

Definition read_profile (w : World) (p : fwProfile) : fwPolicy :=
  if open_key (host w) (regKey p) then
    mkPolicy (reg_or w (regKey p) "EnableFirewall" fwDefaultEnabled)
      (reg_or w (regKey p) "DefaultInboundAction" fwDefaultInbound)
      (reg_or w (regKey p) "DefaultOutboundAction" fwDefaultOutbound)
      (reg_or w (regKey p) "DoNotAllowExceptions" 0)
  else mkPolicy fwDefaultEnabled fwDefaultInbound fwDefaultOutbound 0.

(** It never fails. *)
Definition readFirewallPolicy (w : World) : fwSnapshot :=
  foldl (λ snap p, <[netsh_token p := read_profile w p]> snap) ∅ fwProfiles.

Definition saveFirewallPolicy (snap : fwSnapshot) (w : World) : World :=
  if file_writable w then mkWorld (host w) (Some snap) true else w.

Definition loadFirewallPolicy (w : World) : option fwSnapshot :=
  match policy_file w with
  | Some snap => if decide (snap = ∅) then None else Some snap
  | None => None
  end.

Definition clearFirewallPolicyState (w : World) : World := mkWorld (host w) None (file_writable w).

Definition policy_args (p : fwProfile) (pol : fwPolicy) : list string :=
  ["advfirewall"; "set"; netsh_token p; "firewallpolicy"; netshPolicyTokens pol].
Definition state_args (p : fwProfile) (pol : fwPolicy) : list string :=
  ["advfirewall"; "set"; netsh_token p; "state"; netshStateToken pol].

(** One command, and the line it adds to the errors. *)
Definition attempt (args : list string) (what : string) (s : World * list string) : World * list string :=
  match run args s.1 with
  | (w, Some (err, _)) => (w, s.2 ++ [what +:+ ": " +:+ err])
  | (w, None) => (w, s.2)
  end.

Definition restore_profile (snap : fwSnapshot) (s : World * list string) (p : fwProfile) : World * list string :=
  match snap !! netsh_token p with
  | None => s
  | Some pol =>
      attempt (state_args p pol) ("restore " +:+ netsh_token p +:+ " state")
        (attempt (policy_args p pol) ("restore " +:+ netsh_token p +:+ " policy") s)
  end.

Definition restoreFirewallPolicy (snap : fwSnapshot) (w : World) : World * list string :=
  foldl (restore_profile snap) (w, []) fwProfiles.

(** *** The rules *)
Definition existingIsolationRules (w : World) : list string :=
  parseIsolationRuleNames (show_rules (host w)).

Definition delete_args (name : string) : list string :=
  ["advfirewall"; "firewall"; "delete"; "rule"; "name=" +:+ name].

Definition delete_rules (names : list string) (w : World) : World * list string :=
  foldl (λ s name, attempt (delete_args name) ("remove rule " +:+ name) s) (w, []) names.

Definition rollback (m : WFPIsolationManager) (w : World) : WFPIsolationManager * World * option string :=
  let '(w, errs) := delete_rules (ruleNames m) w in
  let snap := match savedPolicy m with Some s => Some s | None => loadFirewallPolicy w end in
  let '(w, errs) :=
    match snap with
    | None => (w, errs)
    | Some snap =>
        let '(w, more) := restoreFirewallPolicy snap w in (clearFirewallPolicyState w, errs ++ more)
    end in
  (mkWFP false [] [] None, w,
   match errs with [] => None | _ => Some ("rollback errors: " +:+ join "; " errs) end).

Definition in_name (i : nat) : string := isolateRulePrefix +:+ "BLOCK-RANGE-" +:+ itoa (Z.of_nat i) +:+ "-IN".
Definition out_name (i : nat) : string := isolateRulePrefix +:+ "BLOCK-RANGE-" +:+ itoa (Z.of_nat i) +:+ "-OUT".

Definition add_args (name dir range : string) : list string :=
  ["advfirewall"; "firewall"; "add"; "rule"; "name=" +:+ name; "action=block"; "protocol=any";
   "dir=" +:+ dir; "enable=yes"; "profile=any"; "remoteip=" +:+ range].

(** The rules of all ranges, in the order in which they are added. *)
Definition rules_of (ranges : list string) : list (string * list string) :=
  concat (imap (λ i range, [(in_name i, add_args (in_name i) "in" range);
                            (out_name i, add_args (out_name i) "out" range)]) ranges).

Definition add_name (m : WFPIsolationManager) (name : string) : WFPIsolationManager :=
  mkWFP (isolated m) (ruleNames m ++ [name]) (allowedIPs m) (savedPolicy m).

(** The first failure undoes the rules added so far. *)
Fixpoint add_rules (rules : list (string * list string)) (m : WFPIsolationManager) (w : World)
    : WFPIsolationManager * World * option string :=
  match rules with
  | [] => (m, w, None)
  | (name, args) :: rules' =>
      match run args w with
      | (w, Some (err, out)) =>
          let '(m, w, _) := rollback m w in
          (m, w, Some ("add block rule " +:+ name +:+ ": " +:+ err +:+ ": " +:+ out))
      | (w, None) => add_rules rules' (add_name m name) w
      end
  end.

Definition relax_args : list string :=
  ["advfirewall"; "set"; "allprofiles"; "firewallpolicy"; "allowinbound,allowoutbound"].
Definition enable_args : list string := ["advfirewall"; "set"; "allprofiles"; "state"; "on"].

Definition Isolate (ips : list string) (m : WFPIsolationManager) (w : World)
    : WFPIsolationManager * World * option string :=
  if isolated m then (m, w, None) else
  let snap := readFirewallPolicy w in
  let m := mkWFP (isolated m) (ruleNames m) (allowedIPs m) (Some snap) in
  let w := saveFirewallPolicy snap w in
  let w := (run relax_args w).1 in
  let w := (run enable_args w).1 in
  match add_rules (rules_of (computeBlockRanges ips)) m w with
  | (m, w, None) => (mkWFP true (ruleNames m) ips (savedPolicy m), w, None)
  | failed => failed
  end.

Definition Unisolate (m : WFPIsolationManager) (w : World) : WFPIsolationManager * World * option string :=
  if isolated m then rollback m w else (m, w, None).

Definition IsIsolated (m : WFPIsolationManager) : bool := isolated m.

Definition VerifyIsolation (w : World) : res bool :=
  Ok (0 <? zlen (existingIsolationRules w)).

(** [reconcile], with the names it listed before it took the lock. *)
Definition reconcile (names : list string) (m : WFPIsolationManager) : WFPIsolationManager :=
  match names with
  | [] => m
  | _ => if isolated m then m else mkWFP true names (allowedIPs m) (savedPolicy m)
  end.
End Manager.

Arguments World H : clear implicits.
