(* ===== verification/WfpProofs.v ===== *)
(** * Isolation on Windows: theorems

    [WindowsHostOk]: what [netsh] and the registry are documented to do, in the words
    of the command line and the values of the registry, over the rules of a host and
    the state of its three profiles.  On such a host, releasing an isolated endpoint
    puts back the rules and the default policy of every profile, in the same process or
    after a restart.  A release that failed is never tried again, an
    isolation that lands before the restarted agent has read the rules loses the
    policy, and an isolated manager leaves the host alone. *)

From Stdlib Require Import Ascii.
From stdpp Require Import sorting.
From S2P Require Import Prelude GoStrings Ip BlockRanges Wfp.

#[local] Open Scope string_scope.
#[local] Open Scope list_scope.
#[local] Open Scope Z_scope.

(** ** Rule names *)
Lemma itoa_inj i j : 0 <= i → 0 <= j → itoa i = itoa j → i = j.
Proof.
  intros Hi Hj E. pose proof (scan_itoa i "" Hi eq_refl) as H1. pose proof (scan_itoa j "" Hj eq_refl) as H2.
  rewrite E in H1. congruence.
Qed.

Lemma append_inj_tail a b t : a +:+ t = b +:+ t → a = b.
Proof.
  intros E. assert (String.length a = String.length b) as Hl.
  { pose proof (f_equal String.length E) as H. rewrite !append_length in H. lia. }
  by rewrite <-(stake_append a t), <-(stake_append b t), E, Hl.
Qed.

Lemma append_inj_head a b t : t +:+ a = t +:+ b → a = b.
Proof. intros E. by rewrite <-(sdrop_append t a), <-(sdrop_append t b), E. Qed.

Lemma in_name_inj i j : in_name i = in_name j → i = j.
Proof. unfold in_name. intros E%append_inj_head%append_inj_head%append_inj_tail%itoa_inj; lia. Qed.
Lemma out_name_inj i j : out_name i = out_name j → i = j.
Proof. unfold out_name. intros E%append_inj_head%append_inj_head%append_inj_tail%itoa_inj; lia. Qed.

Lemma itoa_digits n : 0 <= n → contains_char (λ c, negb (is_digit c)) (itoa n) = false.
Proof.
  intros Hn. unfold itoa. destruct (Z.ltb_spec n 0); [lia|].
  enough (∀ fuel m acc, 0 <= m → contains_char (λ c, negb (is_digit c)) acc = false →
    contains_char (λ c, negb (is_digit c)) (digits_go fuel m acc) = false) as H' by (by apply H').
  induction fuel as [|f IH]; intros m acc Hm Ha; [done|]. cbn [digits_go].
  destruct (digit_char (m mod 10)) as [Hd _]; [apply Z.mod_pos_bound; lia|].
  assert (contains_char (λ c, negb (is_digit c)) (String (ascii_of_nat (Z.to_nat (48 + m mod 10))) acc) = false)
    as Hc by (cbn [contains_char]; by rewrite Hd).
  destruct (m <? 10); [done|]. apply IH; [|done]. apply Z.div_pos; lia.
Qed.

Lemma span_digits_app ds rest : contains_char (λ c, negb (is_digit c)) ds = false →
  starts_with_digit rest = false → span_digits (ds +:+ rest) = (ds, rest).
Proof.
  intros Hd Hr. induction ds as [|c ds IH].
  - destruct rest as [|c r]; [done|]. cbn in *. by rewrite Hr.
  - cbn [contains_char] in Hd. apply orb_false_iff in Hd as [Hc%negb_false_iff Hd].
    cbn [String.append span_digits]. by rewrite Hc, IH.
Qed.

Lemma itoa_nonempty n : 0 <= n → String.eqb (itoa n) "" = false.
Proof.
  intros Hn. apply String.eqb_neq. intros E. pose proof (scan_itoa n "x" Hn eq_refl) as H.
  rewrite E in H. cbn in H. injection H as _. 
  pose proof (scan_itoa n "" Hn eq_refl) as H'. rewrite E in H'. cbn in H'. injection H' as <-. done.
Qed.

(** The names [Isolate] gives are found in a listing that shows them. *)
Lemma in_name_found i rest : rule_name_at (in_name i +:+ rest) = Some (in_name i, rest).
Proof.
  unfold in_name, rule_name_at. set (lit := isolateRulePrefix +:+ "BLOCK-RANGE-").
  replace ((isolateRulePrefix +:+ "BLOCK-RANGE-" +:+ itoa (Z.of_nat i) +:+ "-IN") +:+ rest)
    with (lit +:+ (itoa (Z.of_nat i) +:+ ("-IN" +:+ rest))) by (subst lit; by rewrite <-!append_assoc).
  rewrite has_prefix_app, sdrop_append, span_digits_app; [|apply itoa_digits; lia|done].
  rewrite itoa_nonempty by lia. rewrite has_prefix_app. subst lit. by rewrite <-!append_assoc.
Qed.

Lemma out_name_found i rest : rule_name_at (out_name i +:+ rest) = Some (out_name i, rest).
Proof.
  unfold out_name, rule_name_at. set (lit := isolateRulePrefix +:+ "BLOCK-RANGE-").
  replace ((isolateRulePrefix +:+ "BLOCK-RANGE-" +:+ itoa (Z.of_nat i) +:+ "-OUT") +:+ rest)
    with (lit +:+ (itoa (Z.of_nat i) +:+ ("-OUT" +:+ rest))) by (subst lit; by rewrite <-!append_assoc).
  rewrite has_prefix_app, sdrop_append, span_digits_app; [|apply itoa_digits; lia|done].
  rewrite itoa_nonempty by lia. change (has_prefix ("-OUT" +:+ rest) "-IN") with false. cbv iota.
  rewrite has_prefix_app. subst lit. by rewrite <-!append_assoc.
Qed.

Definition names_in (s : string) : list string := find_names (S (String.length s)) s.

Lemma own_names i : names_in (in_name i) ≠ [] ∧ names_in (out_name i) ≠ [].
Proof.
  pose proof (in_name_found i "") as H1. pose proof (out_name_found i "") as H2.
  rewrite append_nil_r in H1. rewrite append_nil_r in H2.
  unfold names_in. cbn [find_names]. by rewrite H1, H2.
Qed.

Lemma in_out_differ i j : in_name i ≠ out_name j.
Proof.
  intros E. pose proof (in_name_found i "") as H1. pose proof (out_name_found j "x") as H2.
  unfold in_name, out_name in E. apply append_inj_head, append_inj_head in E.
  pose proof (span_digits_app (itoa (Z.of_nat i)) "-IN" (itoa_digits (Z.of_nat i) ltac:(lia)) eq_refl) as S1.
  pose proof (span_digits_app (itoa (Z.of_nat j)) "-OUT" (itoa_digits (Z.of_nat j) ltac:(lia)) eq_refl) as S2.
  rewrite E in S1. congruence.
Qed.

Lemma rules_of_names ranges : 
  (rules_of ranges).*1 = concat (imap (λ i _, [in_name i; out_name i]) ranges).
Proof.
  unfold rules_of. assert (∀ ls : list (list (string * list string)), (concat ls).*1 = concat ((λ l, l.*1) <$> ls)) as ->.
  { induction ls as [|l ls IH]; [done|]. cbn [concat fmap list_fmap]. by rewrite fmap_app, IH. }
  by rewrite fmap_imap.
Qed.

Lemma rules_of_nodup ranges : NoDup (rules_of ranges).*1.
Proof.
  rewrite rules_of_names.
  enough (∀ k, NoDup (concat (imap (λ i _, [in_name (k + i); out_name (k + i)]) ranges)) ∧
    ∀ n, n ∈ concat (imap (λ i _, [in_name (k + i); out_name (k + i)]) ranges) →
      ∃ j, (k <= j)%nat ∧ (n = in_name j ∨ n = out_name j)) as H by (apply (H 0%nat)).
  induction ranges as [|r rs IH]; intros k; cbn [imap concat].
  - split; [constructor|]. intros n Hn. by apply elem_of_nil in Hn.
  - assert (imap ((λ i (_ : string), [in_name (k + i); out_name (k + i)]) ∘ S) rs =
      imap (λ i _, [in_name (S k + i); out_name (S k + i)]) rs) as ->.
    { apply imap_ext. intros i x _. cbn. by rewrite Nat.add_succ_r. }
    destruct (IH (S k)) as [Hnd Hin]. rewrite Nat.add_0_r. cbn [app]. split.
    + constructor.
      * intros [E|(j & Hj & [E|E])%Hin]%elem_of_cons; [by apply in_out_differ in E| |].
        -- apply in_name_inj in E. lia.
        -- by apply in_out_differ in E.
      * constructor; [|done]. intros (j & Hj & [E|E])%Hin.
        -- symmetry in E. by apply in_out_differ in E.
        -- apply out_name_inj in E. lia.
    + intros n [->|[->|Hn]%elem_of_cons]%elem_of_cons; [exists k; naive_solver lia..|].
      destruct (Hin n Hn) as (j & ? & ?). exists j. split; [lia|done].
Qed.

Lemma rules_of_own ranges n : n ∈ (rules_of ranges).*1 → names_in n ≠ [].
Proof.
  rewrite rules_of_names. rewrite list_elem_of_In. intros (l & Hl & Hn)%in_concat.
  apply list_elem_of_In in Hn. apply list_elem_of_In, elem_of_lookup_imap in Hl as (i & x & -> & _).
  apply elem_of_cons in Hn as [->|Hn]; [apply own_names|]. apply list_elem_of_singleton in Hn as ->. apply own_names.
Qed.

(** ** What [netsh] and the registry are documented to do *)
Inductive FirewallProfile := Domain | Private | Public.
Inductive InboundAction := AllowInbound | BlockInbound | BlockInboundAlways.

(** The default policy of a profile. *)
Record ProfileState := mkState { on : bool; inbound : InboundAction; outbound_blocked : bool }.

Record FwRule := mkFwRule { fr_name : string; fr_action : string; fr_dir : string; fr_remote : string }.

#[export] Instance FirewallProfile_eq_dec : EqDecision FirewallProfile.
Proof. solve_decision. Defined.

(** The words of the command line and the keys and values of the registry. *)
Definition profile_word (p : FirewallProfile) : string :=
  match p with Domain => "domainprofile" | Private => "privateprofile" | Public => "publicprofile" end.
Definition profile_key (p : FirewallProfile) : string :=
  match p with Domain => "DomainProfile" | Private => "StandardProfile" | Public => "PublicProfile" end.
Definition inbound_word (a : InboundAction) : string :=
  match a with
  | AllowInbound => "allowinbound"
  | BlockInbound => "blockinbound"
  | BlockInboundAlways => "blockinboundalways"
  end.
Definition outbound_word (blocked : bool) : string := if blocked then "blockoutbound" else "allowoutbound".
Definition power_word (o : bool) : string := if o then "on" else "off".

(** What a value that is not there stands for. *)
Definition registry_default (name : string) : Z :=
  if String.eqb name "EnableFirewall" then 1
  else if String.eqb name "DefaultInboundAction" then 1 else 0.

Definition encodes (value : string → Z) (s : ProfileState) : Prop :=
  value "EnableFirewall" = (if on s then 1 else 0) ∧
  match inbound s with
  | AllowInbound => value "DefaultInboundAction" = 0
  | BlockInbound => value "DefaultInboundAction" = 1 ∧ value "DoNotAllowExceptions" = 0
  | BlockInboundAlways => value "DefaultInboundAction" = 1 ∧ value "DoNotAllowExceptions" = 1
  end ∧
  value "DefaultOutboundAction" = (if outbound_blocked s then 1 else 0).

(** A listing: lines that end in a carriage return and a line feed. *)
Definition unlines (lines : list string) : string :=
  foldr (λ l acc, l +:+ String (chr 13) (String (chr 10) acc)) "" lines.

(** [netsh] writes a localised label, blanks and the name. *)
Definition names_line (name line : string) : Prop :=
  ∃ label, contains label "EDR-ISOLATE-" = false ∧ line = label +:+ String " " name.

Class WindowsHostOk (H : Type) `{WindowsHost H} := {
  fw_rules : H → list FwRule;
  fw_state : H → FirewallProfile → ProfileState;
  add_ok h n d r : ∃ h',
    netsh ["advfirewall"; "firewall"; "add"; "rule"; "name=" +:+ n; "action=block"; "protocol=any";
           "dir=" +:+ d; "enable=yes"; "profile=any"; "remoteip=" +:+ r] h = (h', None) ∧
    fw_rules h' = fw_rules h ++ [mkFwRule n "block" d r] ∧ ∀ q, fw_state h' q = fw_state h q;
  delete_ok h n : n ∈ fr_name <$> fw_rules h → ∃ h',
    netsh ["advfirewall"; "firewall"; "delete"; "rule"; "name=" +:+ n] h = (h', None) ∧
    fw_rules h' = filter (λ x, fr_name x ≠ n) (fw_rules h) ∧ ∀ q, fw_state h' q = fw_state h q;
  set_policy_ok h p a b : ∃ h',
    netsh ["advfirewall"; "set"; profile_word p; "firewallpolicy";
           inbound_word a +:+ "," +:+ outbound_word b] h = (h', None) ∧
    fw_rules h' = fw_rules h ∧
    ∀ q, fw_state h' q = if decide (q = p) then mkState (on (fw_state h q)) a b else fw_state h q;
  set_power_ok h p o : ∃ h',
    netsh ["advfirewall"; "set"; profile_word p; "state"; power_word o] h = (h', None) ∧
    fw_rules h' = fw_rules h ∧
    ∀ q, fw_state h' q = if decide (q = p)
      then mkState o (inbound (fw_state h q)) (outbound_blocked (fw_state h q)) else fw_state h q;
  set_policies_ok h a b : ∃ h',
    netsh ["advfirewall"; "set"; "allprofiles"; "firewallpolicy";
           inbound_word a +:+ "," +:+ outbound_word b] h = (h', None) ∧
    fw_rules h' = fw_rules h ∧ ∀ q, fw_state h' q = mkState (on (fw_state h q)) a b;
  set_powers_ok h o : ∃ h',
    netsh ["advfirewall"; "set"; "allprofiles"; "state"; power_word o] h = (h', None) ∧
    fw_rules h' = fw_rules h ∧
    ∀ q, fw_state h' q = mkState o (inbound (fw_state h q)) (outbound_blocked (fw_state h q));
  registry_ok h p : encodes
    (λ name, if open_key h (profile_key p)
             then default (registry_default name) (reg_value h (profile_key p) name)
             else registry_default name) (fw_state h p);
  listing_ok h : ∃ lines, show_rules h = unlines lines ∧
    (∀ r, r ∈ fw_rules h → ∃ l, l ∈ lines ∧ names_line (fr_name r) l) ∧
    (∀ l, l ∈ lines → contains l "EDR-ISOLATE-" = false ∨
       ∃ r, r ∈ fw_rules h ∧ names_line (fr_name r) l)
}.

(** The names of the rules. *)
Definition rules {H} `{WindowsHostOk H} (h : H) : list string := fr_name <$> fw_rules h.

(** ** Listings

    No name holds a blank or the end of a line, so the names of a text are those of
    the parts between them. *)
Lemma sdrop_prefix n a b : (n <= String.length a)%nat → sdrop n (a +:+ b) = sdrop n a +:+ b.
Proof.
  revert a. induction n as [|n IH]; intros [|x a] Hn; try done; cbn in *; [lia|]. apply IH. lia.
Qed.

Lemma prefix_len a p : has_prefix a p = true → (String.length p <= String.length a)%nat.
Proof. intros (t & ->)%has_prefix_spec. rewrite append_length. lia. Qed.

Lemma span_shorter s : (String.length (span_digits s).2 <= String.length s)%nat.
Proof.
  induction s as [|x s IH]; [done|]. cbn [span_digits]. destruct (is_digit x); [|done].
  destruct (span_digits s); cbn in *. lia.
Qed.

Lemma rule_name_shorter s n r : rule_name_at s = Some (n, r) → (String.length r < String.length s)%nat.
Proof.
  assert (∀ k t, String.length (sdrop k t) <= String.length t)%nat as Hd.
  { induction k as [|k IH]; intros [|c t]; cbn; try lia. specialize (IH t). lia. }
  unfold rule_name_at. set (lit := isolateRulePrefix +:+ "BLOCK-RANGE-").
  destruct (has_prefix s lit) eqn:E; [|done]. apply has_prefix_spec in E as (t & ->).
  rewrite sdrop_append. pose proof (span_shorter t) as Hs. destruct (span_digits t) as [ds rest].
  destruct (String.eqb ds ""); [done|]. cbn [snd] in Hs. rewrite append_length.
  assert (0 < String.length lit)%nat by (subst lit; cbn; lia).
  destruct (has_prefix rest "-IN"); [intros Er; assert (r = sdrop 3 rest) as -> by congruence; specialize (Hd 3%nat rest); lia|].
  destruct (has_prefix rest "-OUT"); [intros Er; assert (r = sdrop 4 rest) as -> by congruence; specialize (Hd 4%nat rest); lia|done].
Qed.

Lemma names_fuel f g s : (String.length s < f)%nat → (String.length s < g)%nat →
  find_names f s = find_names g s.
Proof.
  revert g s. induction f as [|f IH]; intros [|g] s Hf Hg; try lia. cbn [find_names].
  destruct (rule_name_at s) as [[n r]|] eqn:E.
  - apply rule_name_shorter in E. f_equal. apply IH; lia.
  - destruct s; [done|]. cbn in *. apply IH; lia.
Qed.

Section Separator.
Variable c : ascii.
Hypothesis c_prefix : contains_char (Ascii.eqb c) (isolateRulePrefix +:+ "BLOCK-RANGE-") = false.
Hypothesis c_in : contains_char (Ascii.eqb c) "-IN" = false.
Hypothesis c_out : contains_char (Ascii.eqb c) "-OUT" = false.
Hypothesis c_digit : is_digit c = false.

Lemma prefix_sep a b p : contains_char (Ascii.eqb c) p = false →
  has_prefix (a +:+ String c b) p = has_prefix a p.
Proof.
  revert p. induction a as [|x a IH]; intros [|d p] Hp; cbn [contains_char] in Hp; try done.
  - apply orb_false_iff in Hp as [Hd _]. rewrite Ascii.eqb_sym in Hd. cbn [String.append has_prefix]. by rewrite Hd.
  - apply orb_false_iff in Hp as [Hd Hp]. cbn. by rewrite IH.
Qed.

Lemma span_sep a b : span_digits (a +:+ String c b) =
  ((span_digits a).1, (span_digits a).2 +:+ String c b).
Proof.
  induction a as [|x a IH]; cbn [String.append span_digits]; [by rewrite c_digit|]. rewrite IH.
  destruct (is_digit x); [|done]. by destruct (span_digits a).
Qed.

Lemma rule_name_sep a b : rule_name_at (a +:+ String c b) =
  match rule_name_at a with Some (n, r) => Some (n, r +:+ String c b) | None => None end.
Proof.
  unfold rule_name_at. set (lit := isolateRulePrefix +:+ "BLOCK-RANGE-").
  rewrite prefix_sep by done. destruct (has_prefix a lit) eqn:E; [|done].
  rewrite sdrop_prefix by (by apply prefix_len). rewrite span_sep.
  destruct (span_digits (sdrop (String.length lit) a)) as [ds rest]. cbn [fst snd].
  destruct (String.eqb ds ""); [done|]. rewrite !prefix_sep by done.
  destruct (has_prefix rest "-IN") eqn:E1; [by rewrite sdrop_prefix by (by apply (prefix_len _ "-IN"))|].
  destruct (has_prefix rest "-OUT") eqn:E2; [by rewrite sdrop_prefix by (by apply (prefix_len _ "-OUT"))|done].
Qed.

Lemma find_sep f1 f2 f3 a b : (String.length a < f2)%nat → (String.length b < f3)%nat →
  (String.length (a +:+ String c b) < f1)%nat →
  find_names f1 (a +:+ String c b) = find_names f2 a ++ find_names f3 b.
Proof.
  revert f1 f2 a. induction f1 as [|f1 IH]; intros f2 a H2 H3 H1; [lia|]. destruct f2 as [|f2]; [lia|].
  rewrite append_length in H1. cbn [String.length] in H1.
  cbn [find_names]. rewrite rule_name_sep. destruct (rule_name_at a) as [[n r]|] eqn:E.
  - apply rule_name_shorter in E. cbn [app]. f_equal. apply IH; [lia|done|]. rewrite append_length. cbn. lia.
  - destruct a as [|x a]; cbn [String.append app].
    + cbn in E, H1. apply names_fuel; lia.
    + cbn in H1, H2. apply IH; [lia|done|]. rewrite append_length. cbn. lia.
Qed.

Lemma names_sep a b : names_in (a +:+ String c b) = names_in a ++ names_in b.
Proof. unfold names_in. apply find_sep; lia. Qed.
End Separator.

Lemma names_silent s : contains s "EDR-ISOLATE-" = false → names_in s = [].
Proof.
  unfold names_in. generalize (S (String.length s)). intros f. revert s.
  induction f as [|f IH]; intros s Hs; [done|]. cbn [find_names].
  assert (rule_name_at s = None) as ->.
  { unfold rule_name_at. destruct (has_prefix s _) eqn:E; [|done]. exfalso.
    apply has_prefix_spec in E as (t & ->). apply not_true_iff_false in Hs. apply Hs.
    apply contains_spec. exists "", ("BLOCK-RANGE-" +:+ t). unfold isolateRulePrefix.
    by rewrite <-!append_assoc. }
  destruct s as [|x s]; [done|]. apply IH. apply not_true_iff_false in Hs. apply not_true_iff_false.
  intros Hc. apply Hs. apply (contains_app_l s (String x "")). exact Hc.
Qed.

Lemma names_of_line n l : names_line n l → names_in l = names_in n.
Proof.
  intros (label & Hl & ->). rewrite (names_sep " "%char) by done. by rewrite names_silent.
Qed.

Lemma names_of_lines lines n : n ∈ names_in (unlines lines) ↔ ∃ l, l ∈ lines ∧ n ∈ names_in l.
Proof.
  induction lines as [|l lines IH]; cbn [unlines foldr].
  - split; [by intros ?%elem_of_nil|by intros (l & ?%elem_of_nil & _)].
  - fold (unlines lines). rewrite (names_sep (chr 13)) by done.
    pose proof (names_sep (chr 10) eq_refl eq_refl eq_refl eq_refl "" (unlines lines)) as E.
    cbn [String.append] in E. rewrite E, !elem_of_app, IH. change (names_in "") with (@nil string).
    rewrite elem_of_nil. setoid_rewrite elem_of_cons. naive_solver.
Qed.

(** The profiles of the code are the three documented ones. *)
Definition profile_of (p : FirewallProfile) : fwProfile := mkProfile (profile_key p) (profile_word p).

Lemma profiles_are : fwProfiles = profile_of <$> [Domain; Private; Public].
Proof. done. Qed.

Lemma profile_in p : p ∈ [Domain; Private; Public].
Proof. destruct p; set_solver. Qed.

(** The state a saved policy stands for. *)
Definition state_of (pol : fwPolicy) : ProfileState :=
  mkState (Enabled pol =? 1)
    (if Inbound pol =? 1 then if NoExceptions pol =? 1 then BlockInboundAlways else BlockInbound
     else AllowInbound) (Outbound pol =? 1).

Lemma policy_words pol : netshPolicyTokens pol =
  inbound_word (inbound (state_of pol)) +:+ "," +:+ outbound_word (outbound_blocked (state_of pol)).
Proof.
  unfold netshPolicyTokens, state_of. cbn [inbound outbound_blocked].
  by destruct (Inbound pol =? 1), (NoExceptions pol =? 1), (Outbound pol =? 1).
Qed.

Lemma state_words pol : netshStateToken pol = power_word (on (state_of pol)).
Proof. unfold netshStateToken, state_of. cbn [on]. by destruct (Enabled pol =? 1). Qed.

Section Laws.
Context {H : Type} `{WindowsHostOk H}.
Implicit Types (m : WFPIsolationManager) (w : World H).

(** What is saved of a profile stands for its state. *)
Lemma read_profile_ok w p : state_of (read_profile w (profile_of p)) = fw_state (host w) p.
Proof.
  pose proof (registry_ok (host w) p) as (E1 & E2 & E3). cbv beta in *.
  unfold state_of, read_profile, reg_or. cbn [regKey profile_of].
  unfold fwDefaultEnabled, fwDefaultInbound, fwDefaultOutbound.
  change (registry_default "EnableFirewall") with 1 in *.
  change (registry_default "DefaultInboundAction") with 1 in *.
  change (registry_default "DefaultOutboundAction") with 0 in *.
  change (registry_default "DoNotAllowExceptions") with 0 in *.
  destruct (fw_state (host w) p) as [o i b]. cbn [on inbound outbound_blocked] in *.
  destruct (open_key (host w) (profile_key p)); cbn [Enabled Inbound Outbound NoExceptions];
    [rewrite E1, E3|].
  - f_equal; [by destruct o| |by destruct b].
    destruct i; [by rewrite E2|by destruct E2 as [-> ->]..].
  - destruct o, b, i; destruct_and?; simplify_eq; done.
Qed.

Lemma snapshot_lookup w p : p ∈ fwProfiles → readFirewallPolicy w !! netsh_token p = Some (read_profile w p).
Proof.
  unfold readFirewallPolicy, fwProfiles. rewrite !elem_of_cons, elem_of_nil.
  intros [->|[->|[->|[]]]]; cbn [foldl netsh_token]; by simplify_map_eq.
Qed.

(** A saved policy that stands for a state of the three profiles. *)
Definition saves (snap : fwSnapshot) (f : FirewallProfile → ProfileState) : Prop :=
  ∀ p, ∃ pol, snap !! profile_word p = Some pol ∧ state_of pol = f p.

Lemma snapshot_saves w : saves (readFirewallPolicy w) (fw_state (host w)).
Proof.
  intros p. exists (read_profile w (profile_of p)). split; [|apply read_profile_ok].
  apply (snapshot_lookup w (profile_of p)). rewrite profiles_are. apply list_elem_of_fmap_2, profile_in.
Qed.

(** The file of the agent is not touched by a command. *)
Definition same_file w w' : Prop := policy_file w' = policy_file w ∧ file_writable w' = file_writable w.

Lemma run_spec args w : run args w = (set_host w (netsh args (host w)).1, (netsh args (host w)).2).
Proof. unfold run. by destruct (netsh args (host w)). Qed.

Lemma delete_rules_ok names w errs : NoDup names → (∀ n, n ∈ names → n ∈ rules (host w)) →
  ∃ w', foldl (λ s name, attempt (delete_args name) ("remove rule " +:+ name) s) (w, errs) names = (w', errs) ∧
    fw_rules (host w') = filter (λ x, fr_name x ∉ names) (fw_rules (host w)) ∧ same_file w w'.
Proof.
  intros Hnd. revert w. induction Hnd as [|n names Hn Hnd IH]; intros w Hin; cbn [foldl].
  - exists w. split; [done|]. split; [|done]. symmetry. apply filter_all, Forall_forall. intros x _. apply not_elem_of_nil.
  - destruct (delete_ok (host w) n (Hin n ltac:(by left))) as (h & Ed & Hr & _).
    unfold attempt at 2. rewrite run_spec. cbn [fst]. fold (delete_args n) in Ed. rewrite Ed. cbn [fst snd].
    destruct (IH (set_host w h)) as (w' & E & Hr' & Hf).
    { intros x Hx. cbn [host set_host]. unfold rules. rewrite Hr. specialize (Hin x ltac:(by right)).
      apply list_elem_of_fmap in Hin as (y & -> & Hy). apply list_elem_of_fmap_2, list_elem_of_filter.
      split; [|done]. congruence. }
    exists w'. split; [done|]. split; [|exact Hf].
    rewrite Hr'. cbn [host set_host]. rewrite Hr, list_filter_filter. apply list_filter_iff. intros x.
    rewrite elem_of_cons. naive_solver.
Qed.

Lemma restore_profile_ok snap w errs p pol : snap !! profile_word p = Some pol →
  ∃ w', restore_profile snap (w, errs) (profile_of p) = (w', errs) ∧ fw_rules (host w') = fw_rules (host w) ∧
    (∀ q, fw_state (host w') q = if decide (q = p) then state_of pol else fw_state (host w) q) ∧ same_file w w'.
Proof.
  intros Hs. unfold restore_profile. cbn [netsh_token profile_of]. rewrite Hs. unfold attempt, policy_args, state_args.
  rewrite !run_spec. cbn [fst netsh_token profile_of]. rewrite policy_words, state_words.
  destruct (set_policy_ok (host w) p (inbound (state_of pol)) (outbound_blocked (state_of pol)))
    as (h1 & -> & R1 & P1). cbn [fst snd]. cbn [host set_host].
  destruct (set_power_ok h1 p (on (state_of pol))) as (h2 & -> & R2 & P2). cbn [fst snd].
  exists (set_host (set_host w h1) h2). split; [done|]. cbn [host set_host].
  split; [by rewrite R2|]. split; [|done]. intros q. rewrite P2, P1.
  by destruct (decide (q = p)).
Qed.

Lemma restore_ok snap w f : saves snap f →
  ∃ w', restoreFirewallPolicy snap w = (w', []) ∧ fw_rules (host w') = fw_rules (host w) ∧ same_file w w' ∧
    ∀ p, fw_state (host w') p = f p.
Proof.
  intros Hall. unfold restoreFirewallPolicy. rewrite profiles_are. cbn [fmap list_fmap foldl].
  destruct (Hall Domain) as (q1 & Q1 & S1), (Hall Private) as (q2 & Q2 & S2), (Hall Public) as (q3 & Q3 & S3).
  destruct (restore_profile_ok snap w [] Domain q1 Q1) as (w1 & -> & R1 & P1 & F1).
  destruct (restore_profile_ok snap w1 [] Private q2 Q2) as (w2 & -> & R2 & P2 & F2).
  destruct (restore_profile_ok snap w2 [] Public q3 Q3) as (w3 & -> & R3 & P3 & F3).
  exists w3. split; [done|]. split; [by rewrite R3, R2|].
  split; [unfold same_file in *; intuition congruence|].
  intros p. rewrite P3, P2, P1. by destruct p.
Qed.

(** The rules of a list of commands. *)
Definition blocks_of (l : list (string * list string)) (rs : list FwRule) : Prop :=
  Forall2 (λ x r, x.2 = add_args x.1 (fr_dir r) (fr_remote r) ∧ fr_name r = x.1 ∧ fr_action r = "block") l rs.

Lemma blocks_names l rs : blocks_of l rs → fr_name <$> rs = l.*1.
Proof. induction 1 as [|x r l rs (_ & E & _) _ IH]; [done|]. cbn. by rewrite E, IH. Qed.

Lemma add_rules_ok l rs m w : blocks_of l rs →
  ∃ w', add_rules l m w = (mkWFP (isolated m) (ruleNames m ++ l.*1) (allowedIPs m) (savedPolicy m), w', None) ∧
    fw_rules (host w') = fw_rules (host w) ++ rs ∧ (∀ q, fw_state (host w') q = fw_state (host w) q) ∧
    same_file w w'.
Proof.
  intros Hl. revert m w. induction Hl as [|[n args] r l rs (Ha & Hn & Hb) Hl IH]; intros m w; cbn [add_rules].
  - exists w. rewrite !app_nil_r. by destruct m.
  - cbn [fst snd] in *. subst args. rewrite run_spec.
    destruct (add_ok (host w) n (fr_dir r) (fr_remote r)) as (h & E & R & P).
    fold (add_args n (fr_dir r) (fr_remote r)) in E. rewrite E. cbn [fst snd].
    destruct (IH (add_name m n) (set_host w h)) as (w' & -> & R' & P' & F').
    exists w'. cbn [isolated ruleNames allowedIPs savedPolicy add_name fmap list_fmap fst].
    rewrite <-app_assoc. split; [done|]. cbn [host set_host] in *. split; [|split; [|done]].
    + rewrite R', R, <-app_assoc. destruct r; cbn in *. by subst.
    + intros q. by rewrite P', P.
Qed.

(** Each range is blocked in both directions. *)
Definition both_ways (range : string) : list (string * string * string) :=
  [("block", "in", range); ("block", "out", range)].

Definition effect_of (r : FwRule) : string * string * string := (fr_action r, fr_dir r, fr_remote r).

Definition isolation_rules (ranges : list string) : list FwRule :=
  concat (imap (λ i range, [mkFwRule (in_name i) "block" "in" range;
                            mkFwRule (out_name i) "block" "out" range]) ranges).

Lemma rules_of_blocks ranges : blocks_of (rules_of ranges) (isolation_rules ranges).
Proof.
  unfold rules_of, isolation_rules, blocks_of. generalize in_name, out_name.
  induction ranges as [|r rs IH]; intros f g; cbn [imap concat]; [constructor|].
  apply Forall2_app; [by repeat constructor|]. apply (IH (f ∘ S) (g ∘ S)).
Qed.

Lemma isolation_effects ranges : effect_of <$> isolation_rules ranges = concat (both_ways <$> ranges).
Proof.
  unfold isolation_rules. generalize in_name, out_name.
  induction ranges as [|r rs IH]; intros f g; [done|]. cbn [imap concat fmap list_fmap both_ways].
  cbn. do 2 f_equal. apply (IH (f ∘ S) (g ∘ S)).
Qed.

(** The names of the rules [Isolate] adds. *)
Definition rule_names (ips : list string) : list string := (rules_of (computeBlockRanges ips)).*1.

Lemma isolation_names ips : fr_name <$> isolation_rules (computeBlockRanges ips) = rule_names ips.
Proof. apply blocks_names, rules_of_blocks. Qed.

Lemma isolate_rules_ok ips m w : isolated m = false → ruleNames m = [] →
  ∃ w', Isolate ips m w = (mkWFP true (rule_names ips) ips (Some (readFirewallPolicy w)), w', None) ∧
    fw_rules (host w') = fw_rules (host w) ++ isolation_rules (computeBlockRanges ips) ∧
    (∀ q, fw_state (host w') q = mkState true AllowInbound false) ∧
    file_writable w' = file_writable w ∧
    (file_writable w = true → policy_file w' = Some (readFirewallPolicy w)).
Proof.
  intros Hm Hn. unfold Isolate. rewrite Hm, Hn. cbv zeta.
  set (w0 := saveFirewallPolicy (readFirewallPolicy w) w). rewrite !run_spec. cbn [fst host set_host].
  destruct (set_policies_ok (host w0) AllowInbound false) as (h1 & E1 & R1 & P1).
  change (netsh relax_args (host w0) = (h1, None)) in E1. rewrite E1. cbn [fst].
  destruct (set_powers_ok h1 true) as (h2 & E2 & R2 & P2).
  change (netsh enable_args h1 = (h2, None)) in E2. rewrite E2. cbn [fst].
  set (w2 := set_host (set_host w0 h1) h2).
  destruct (add_rules_ok (rules_of (computeBlockRanges ips)) _
    (mkWFP false [] (allowedIPs m) (Some (readFirewallPolicy w))) w2 (rules_of_blocks _)) as (w' & -> & R & P & F1 & F2).
  exists w'. split; [done|]. subst w2. cbn [host set_host policy_file file_writable] in *.
  assert (host w0 = host w ∧ file_writable w0 = file_writable w ∧
    (file_writable w = true → policy_file w0 = Some (readFirewallPolicy w))) as (G1 & G2 & G3).
  { subst w0. unfold saveFirewallPolicy. destruct (file_writable w) eqn:Ew; by rewrite ?Ew. }
  split; [by rewrite R, R2, R1, G1|]. split; [intros q; by rewrite P, P2, P1|].
  rewrite F2, G2. split; [done|]. intros Hw. by rewrite F1, G3.
Qed.

Lemma isolate_ok ips m w : isolated m = false → ruleNames m = [] →
  ∃ w', Isolate ips m w = (mkWFP true (rule_names ips) ips (Some (readFirewallPolicy w)), w', None) ∧
    rules (host w') = rules (host w) ++ rule_names ips ∧
    file_writable w' = file_writable w ∧
    (file_writable w = true → policy_file w' = Some (readFirewallPolicy w)).
Proof.
  intros Hm Hn. destruct (isolate_rules_ok ips m w Hm Hn) as (w' & E & R & _ & F1 & F2).
  exists w'. split; [done|]. split; [|done]. unfold rules. by rewrite R, fmap_app, isolation_names.
Qed.

Lemma filter_names (names : list string) (l : list FwRule) :
  fr_name <$> filter (λ x, fr_name x ∉ names) l = filter (λ x, x ∉ names) (fr_name <$> l).
Proof.
  induction l as [|r l IH]; [done|]. cbn [fmap list_fmap]. rewrite !filter_cons.
  destruct (decide (fr_name r ∉ names)); cbn [fmap list_fmap]; by rewrite <-IH.
Qed.

(** Deleting what was added and restoring what was saved. *)
Lemma rollback_rules_ok names snap f m w : NoDup names → (∀ n, n ∈ names → n ∈ rules (host w)) →
  ruleNames m = names → savedPolicy m = Some snap ∨ savedPolicy m = None ∧ policy_file w = Some snap →
  saves snap f →
  ∃ w', rollback m w = (NewWFPIsolationManager, w', None) ∧
    fw_rules (host w') = filter (λ x, fr_name x ∉ names) (fw_rules (host w)) ∧ policy_file w' = None ∧
    ∀ p, fw_state (host w') p = f p.
Proof.
  intros Hnd Hin Hm Hsnap Hall. unfold rollback, delete_rules. rewrite Hm.
  destruct (delete_rules_ok names w [] Hnd Hin) as (w1 & -> & R1 & F1 & F1').
  assert (match savedPolicy m with Some s => Some s | None => loadFirewallPolicy w1 end = Some snap) as ->.
  { destruct Hsnap as [->|[-> Hf]]; [done|]. unfold loadFirewallPolicy. rewrite F1, Hf.
    destruct (decide (snap = ∅)) as [->|]; [|done].
    destruct (Hall Domain) as (? & Hq & _). by rewrite lookup_empty in Hq. }
  destruct (restore_ok snap w1 f Hall) as (w2 & -> & R2 & F2 & P2). cbn [app].
  exists (clearFirewallPolicyState w2). split; [done|]. cbn [host clearFirewallPolicyState policy_file].
  split; [by rewrite R2, R1|]. split; [done|]. exact P2.
Qed.

Lemma rollback_ok names snap f m w : NoDup names → (∀ n, n ∈ names → n ∈ rules (host w)) →
  ruleNames m = names → savedPolicy m = Some snap ∨ savedPolicy m = None ∧ policy_file w = Some snap →
  saves snap f →
  ∃ w', rollback m w = (NewWFPIsolationManager, w', None) ∧
    rules (host w') = filter (λ x, x ∉ names) (rules (host w)).
Proof.
  intros Hnd Hin Hm Hsnap Hall.
  destruct (rollback_rules_ok names snap f m w Hnd Hin Hm Hsnap Hall) as (w' & E & R & _).
  exists w'. split; [done|]. unfold rules. rewrite R. by rewrite filter_names.
Qed.

(** The names found in a listing are those of the rules. *)
Lemma listing_names h n : n ∈ names_in (show_rules h) ↔ ∃ r, r ∈ rules h ∧ n ∈ names_in r.
Proof.
  destruct (listing_ok h) as (lines & -> & Hall & Hsome). rewrite names_of_lines. unfold rules. split.
  - intros (l & Hl & Hn). destruct (Hsome l Hl) as [Hs|(r & Hr & Hline)].
    + rewrite names_silent in Hn by done. by apply elem_of_nil in Hn.
    + exists (fr_name r). split; [by apply list_elem_of_fmap_2|]. by rewrite <-(names_of_line _ l).
  - intros (r & Hr & Hn). apply list_elem_of_fmap in Hr as (x & -> & Hx).
    destruct (Hall x Hx) as (l & Hl & Hline). exists l. split; [done|]. by rewrite (names_of_line _ l Hline).
Qed.
End Laws.

(** ** What the agent finds after a restart *)
Lemma dedup_spec (l acc : list string) : NoDup acc →
  NoDup (foldl (λ acc n, if decide (n ∈ acc) then acc else acc ++ [n]) acc l) ∧
  ∀ n, n ∈ foldl (λ acc n, if decide (n ∈ acc) then acc else acc ++ [n]) acc l ↔ n ∈ acc ∨ n ∈ l.
Proof.
  revert acc. induction l as [|x l IH]; intros acc Ha; cbn [foldl].
  - split; [done|]. intros n. rewrite elem_of_nil. naive_solver.
  - destruct (decide (x ∈ acc)) as [Hx|Hx].
    + destruct (IH acc Ha) as [? E]. split; [done|]. intros n. rewrite E, elem_of_cons. naive_solver.
    + destruct (IH (acc ++ [x])) as [? E].
      { apply NoDup_app. split; [done|]. split; [|apply NoDup_singleton].
        intros y Hy ->%list_elem_of_singleton. done. }
      split; [done|]. intros n. rewrite E, elem_of_app, list_elem_of_singleton, elem_of_cons. naive_solver.
Qed.

Lemma parse_names_spec out : NoDup (parseIsolationRuleNames out) ∧
  ∀ n, n ∈ parseIsolationRuleNames out ↔ n ∈ find_names (S (String.length out)) out.
Proof.
  unfold parseIsolationRuleNames.
  destruct (dedup_spec (find_names (S (String.length out)) out) [] ltac:(constructor)) as [Hnd Hin].
  split; [by rewrite merge_sort_Permutation|]. intros n. rewrite merge_sort_Permutation, Hin, elem_of_nil.
  naive_solver.
Qed.

Lemma own_name_itself ips n : n ∈ rule_names ips → names_in n = [n].
Proof.
  assert (∀ n, rule_name_at (n +:+ "") = Some (n, "") → names_in n = [n]) as E.
  { intros x Hx. rewrite append_nil_r in Hx. unfold names_in. cbn [find_names]. rewrite Hx.
    by destruct (String.length x). }
  unfold rule_names. rewrite rules_of_names, list_elem_of_In. intros (l & Hl & Hn)%in_concat.
  apply list_elem_of_In in Hn. apply list_elem_of_In, elem_of_lookup_imap in Hl as (i & x & -> & _).
  apply elem_of_cons in Hn as [->|Hn]; [apply E, in_name_found|].
  apply list_elem_of_singleton in Hn as ->. apply E, out_name_found.
Qed.

Section Release.
Context {H : Type} `{WindowsHostOk H}.
Implicit Types (m : WFPIsolationManager) (w : World H).

(** No rule of the host uses the prefix of the agent's rules. *)
Definition foreign w : Prop := ∀ r, r ∈ fw_rules (host w) → contains (fr_name r) "EDR-ISOLATE-" = false.

(** No name of a rule of the agent is found in the rules of the host. *)
Definition clean w : Prop := ∀ n, n ∈ rules (host w) → names_in n = [].

Lemma foreign_clean w : foreign w → clean w.
Proof.
  intros Hf n Hn. apply list_elem_of_fmap in Hn as (r & -> & Hr). apply names_silent, (Hf r Hr).
Qed.

Lemma clean_disjoint ips w n : clean w → n ∈ rule_names ips → n ∉ rules (host w).
Proof. intros Hc Hn Hr. specialize (Hc n Hr). by rewrite (own_name_itself ips n Hn) in Hc. Qed.

Lemma own_rules_removed ips w (l : list string) : clean w → (∀ n, n ∈ l ↔ n ∈ rule_names ips) →
  filter (λ x, x ∉ l) (rules (host w) ++ rule_names ips) = rules (host w).
Proof.
  intros Hc Hl. rewrite filter_app, filter_all, filter_none, app_nil_r; [done|..]; apply Forall_forall; intros n Hn.
  - rewrite Hl. naive_solver.
  - rewrite Hl. intros Hn'. by apply (clean_disjoint ips w n).
Qed.

Lemma listed_own ips w w' : clean w → rules (host w') = rules (host w) ++ rule_names ips →
  ∀ n, n ∈ existingIsolationRules w' ↔ n ∈ rule_names ips.
Proof.
  intros Hc Hr n. unfold existingIsolationRules. rewrite (proj2 (parse_names_spec _)).
  change (find_names _ _) with (names_in (show_rules (host w'))). rewrite listing_names, Hr.
  setoid_rewrite elem_of_app. split.
  - intros (r & [Hin|Hin] & Hn); [rewrite (Hc r Hin) in Hn; by apply elem_of_nil in Hn|].
    rewrite (own_name_itself ips r Hin) in Hn. by apply list_elem_of_singleton in Hn as ->.
  - intros Hn. exists n. split; [by right|]. rewrite (own_name_itself ips n Hn). by left.
Qed.

Definition restart w : WFPIsolationManager := reconcile (existingIsolationRules w) NewWFPIsolationManager.

Lemma own_fw_rules_removed ips w (l : list string) : clean w → (∀ n, n ∈ l ↔ n ∈ rule_names ips) →
  filter (λ x, fr_name x ∉ l) (fw_rules (host w) ++ isolation_rules (computeBlockRanges ips)) = fw_rules (host w).
Proof.
  intros Hc Hl. rewrite filter_app, filter_all, filter_none, app_nil_r; [done|..]; apply Forall_forall; intros r Hr.
  - rewrite Hl, <-isolation_names. intros Hn. apply Hn. by apply list_elem_of_fmap_2.
  - rewrite Hl. intros Hn. apply (clean_disjoint ips w (fr_name r) Hc Hn). by apply list_elem_of_fmap_2.
Qed.

(** What a manager of an isolated host can undo. *)
Lemma can_release ips m w w1 restarted : clean w → rules (host w1) = rules (host w) ++ rule_names ips →
  rule_names ips ≠ [] → m = mkWFP true (rule_names ips) ips (Some (readFirewallPolicy w)) →
  (restarted = true → policy_file w1 = Some (readFirewallPolicy w)) →
  let m1 := if restarted : bool then restart w1 else m in
  isolated m1 = true ∧ NoDup (ruleNames m1) ∧ (∀ n, n ∈ ruleNames m1 ↔ n ∈ rule_names ips) ∧
    (savedPolicy m1 = Some (readFirewallPolicy w) ∨
     savedPolicy m1 = None ∧ policy_file w1 = Some (readFirewallPolicy w)).
Proof.
  intros Hc R Hne -> Hw. pose proof (listed_own ips w w1 Hc R) as Hlist. cbv zeta. destruct restarted.
  - unfold restart, reconcile.
    destruct (existingIsolationRules w1) as [|x l] eqn:El.
    { destruct (rule_names ips) as [|y l'] eqn:Er; [done|]. exfalso.
      apply (not_elem_of_nil y), Hlist. by left. }
    cbn [isolated NewWFPIsolationManager ruleNames savedPolicy].
    split; [done|]. split; [rewrite <-El; apply parse_names_spec|]. split; [done|]. right. split; [done|]. by apply Hw.
  - cbn. split; [done|]. split; [apply rules_of_nodup|]. split; [done|]. by left.
Qed.

(** C8: on a host whose [netsh] and registry do what they are documented to do, an
    isolation leaves every rule of the host in place and adds, for each blocked range,
    one rule that blocks it inwards and one that blocks it outwards, under a firewall
    that is on in every profile; the release then gives back exactly the rules there
    were and, in every profile, the state of the firewall, its action on inbound
    connections (allowed, blocked, or blocked whatever the rules say) and its action
    on outbound ones, whether the same process does it or the agent was restarted in
    between and has found its rules; the saved policy is gone afterwards. *)
Theorem release_restores_host ips m w (restarted : bool) : isolated m = false → ruleNames m = [] →
  foreign w → computeBlockRanges ips ≠ [] → (restarted = true → file_writable w = true) →
  ∃ m1 w1 w2 added, Isolate ips m w = (m1, w1, None) ∧ IsIsolated m1 = true ∧
    fw_rules (host w1) = fw_rules (host w) ++ added ∧
    effect_of <$> added = concat (both_ways <$> computeBlockRanges ips) ∧
    (∀ p, fw_state (host w1) p = mkState true AllowInbound false) ∧
    Unisolate (if restarted then restart w1 else m1) w1 = (NewWFPIsolationManager, w2, None) ∧
    fw_rules (host w2) = fw_rules (host w) ∧ policy_file w2 = None ∧
    ∀ p, fw_state (host w2) p = fw_state (host w) p.
Proof.
  intros Hm Hn Hf Hne Hw. apply foreign_clean in Hf as Hc.
  destruct (isolate_rules_ok ips m w Hm Hn) as (w1 & E & R & P & Fw & Ff).
  assert (rules (host w1) = rules (host w) ++ rule_names ips) as Rn.
  { unfold rules. by rewrite R, fmap_app, isolation_names. }
  assert (rule_names ips ≠ []) as Hne'.
  { unfold rule_names, rules_of. by destruct (computeBlockRanges ips). }
  destruct (can_release ips _ w w1 restarted Hc Rn Hne' eq_refl) as (Hi & Hnd & Hin & Hsnap).
  { intros Hr. by apply Ff, Hw. }
  set (m1 := mkWFP true (rule_names ips) ips (Some (readFirewallPolicy w))) in *.
  set (m1' := if restarted then restart w1 else m1) in *.
  destruct (rollback_rules_ok (ruleNames m1') (readFirewallPolicy w) (fw_state (host w)) m1' w1)
    as (w2 & Er & R2 & F2 & P2); [done| |done|done|apply snapshot_saves|].
  { intros n Hn'. rewrite Rn, elem_of_app, <-Hin. by right. }
  exists m1, w1, w2, (isolation_rules (computeBlockRanges ips)).
  split_and!; [done|done|done|apply isolation_effects|done| | |done|done].
  - unfold Unisolate. fold m1'. by rewrite Hi.
  - rewrite R2, R. by apply own_fw_rules_removed.
Qed.
End Release.

(** ** What goes wrong *)
Section Wrong.
Context {H : Type} `{WindowsHost H}.

(** An isolated manager does nothing: not when its rules are gone, and not for
    other addresses. *)
Lemma isolated_manager_is_inert ips m (w : World H) : isolated m = true → Isolate ips m w = (m, w, None).
Proof. unfold Isolate. by intros ->. Qed.

(** A release that failed leaves the manager not isolating; the rules it could not
    delete are out of its reach. *)
Lemma failed_release_is_final m (w : World H) m1 w1 e : Unisolate m w = (m1, w1, e) →
  Unisolate m1 w1 = (m1, w1, None).
Proof.
  unfold Unisolate. destruct (isolated m) eqn:E; [|intros [= <- <- _]; by rewrite E].
  unfold rollback. destruct (delete_rules _ _) as [w' errs].
  destruct (match savedPolicy m with Some s => _ | None => _ end).
  - destruct (restoreFirewallPolicy _ _). by intros [= <- _ _].
  - by intros [= <- _ _].
Qed.
End Wrong.

(** ** A host *)
Module ToyHost.

Record Toy := mkToy { t_rules : list FwRule; t_state : FirewallProfile → ProfileState }.

Definition toy_update (f : FirewallProfile → ProfileState → ProfileState) (h : Toy) : Toy :=
  mkToy (t_rules h) (λ p, f p (t_state h p)).

Definition word_of_profile (p : FirewallProfile) (w : string) : bool :=
  String.eqb w (profile_word p) || String.eqb w "allprofiles".

Definition actions_of (v : string) : option (InboundAction * bool) :=
  List.find (λ x, String.eqb v (inbound_word x.1 +:+ "," +:+ outbound_word x.2))
    (a ← [AllowInbound; BlockInbound; BlockInboundAlways]; b ← [true; false]; [(a, b)]).

Definition toy_fails (h : Toy) : Toy * option (string * string) := (h, Some ("exit status 1", "")).

Definition toy_netsh (args : list string) (h : Toy) : Toy * option (string * string) :=
  match args with
  | [_; _; w; c; v] =>
      if String.eqb c "firewallpolicy" then
        match actions_of v with
        | Some (a, b) => (toy_update (λ p s, if word_of_profile p w then mkState (on s) a b else s) h, None)
        | None => toy_fails h
        end
      else if String.eqb c "state" then
        (toy_update (λ p s, if word_of_profile p w
                            then mkState (String.eqb v "on") (inbound s) (outbound_blocked s) else s) h, None)
      else if decide (sdrop 5 v ∈ fr_name <$> t_rules h)
           then (mkToy (filter (λ x, fr_name x ≠ sdrop 5 v) (t_rules h)) (t_state h), None)
           else (h, Some ("exit status 1", "No rules match the specified criteria."))
  | [_; _; _; _; n; a; _; d; _; _; r] =>
      (mkToy (t_rules h ++ [mkFwRule (sdrop 5 n) (sdrop 7 a) (sdrop 4 d) (sdrop 9 r)]) (t_state h), None)
  | _ => toy_fails h
  end.

Definition toy_value (s : ProfileState) (name : string) : Z :=
  if String.eqb name "EnableFirewall" then if on s then 1 else 0
  else if String.eqb name "DefaultInboundAction" then match inbound s with AllowInbound => 0 | _ => 1 end
  else if String.eqb name "DefaultOutboundAction" then if outbound_blocked s then 1 else 0
  else match inbound s with BlockInboundAlways => 1 | _ => 0 end.

Definition toy_line (r : FwRule) : string := "Rule Name:                           " +:+ String " " (fr_name r).

#[export] Instance toy_host : WindowsHost Toy := {
  netsh := toy_netsh;
  open_key _ _ := true;
  reg_value h key name :=
    p ← List.find (λ p, String.eqb (profile_key p) key) [Domain; Private; Public];
    Some (toy_value (t_state h p) name);
  show_rules h := unlines (toy_line <$> t_rules h)
}.

#[export] Instance toy_host_ok : WindowsHostOk Toy.
Proof.
  refine {| fw_rules := t_rules; fw_state := t_state |}.
  - intros h n d r. by eexists.
  - intros h n Hn. cbn [netsh toy_host toy_netsh].
    change (String.eqb "rule" "firewallpolicy") with false. change (String.eqb "rule" "state") with false.
    cbv iota. change (sdrop 5 ("name=" +:+ n)) with n. rewrite decide_True by done. by eexists.
  - intros h p a b. eexists. split; [by destruct a, b|]. split; [done|]. intros q. by destruct p, q.
  - intros h p o. eexists. split; [done|]. split; [done|]. intros q. by destruct p, q, o.
  - intros h a b. eexists. split; [by destruct a, b|]. split; [done|]. intros q. by destruct q.
  - intros h o. eexists. split; [done|]. split; [done|]. intros q. by destruct q, o.
  - intros h p. unfold encodes. cbn [open_key reg_value toy_host].
    destruct p; cbn; (split; [|split]); try done; by destruct (inbound _).
  - intros h. exists (toy_line <$> t_rules h). split; [done|].
    assert (∀ r, names_line (fr_name r) (toy_line r)) as Hl.
    { intros r. by exists "Rule Name:                           ". }
    split.
    + intros r Hr. exists (toy_line r). split; [by apply list_elem_of_fmap_2|done].
    + intros l (r & -> & Hr)%list_elem_of_fmap. right. by exists r.
Defined.
End ToyHost.
Import ToyHost.

(** A host that blocks inbound connections, with one rule of its own. *)
Definition blocking : World Toy :=
  mkWorld (mkToy [mkFwRule "RemoteDesktop-UserMode-In-TCP" "allow" "in" "any"]
             (λ p, mkState true (if decide (p = Public) then BlockInboundAlways else BlockInbound) false))
    None true.
Definition fresh : WFPIsolationManager := NewWFPIsolationManager.

Lemma release_restores_host_witness : foreign blocking ∧
  ∃ m1 w1 w2 added, Isolate ["10.0.0.5"] fresh blocking = (m1, w1, None) ∧ IsIsolated m1 = true ∧
    fw_rules (host w1) = fw_rules (host blocking) ++ added ∧
    effect_of <$> added = concat (both_ways <$> computeBlockRanges ["10.0.0.5"]) ∧
    (∀ p, fw_state (host w1) p = mkState true AllowInbound false) ∧
    Unisolate (restart w1) w1 = (NewWFPIsolationManager, w2, None) ∧
    fw_rules (host w2) = fw_rules (host blocking) ∧ policy_file w2 = None ∧
    ∀ p, fw_state (host w2) p = fw_state (host blocking) p.
Proof.
  assert (foreign blocking) as Hc.
  { intros n Hn. apply list_elem_of_singleton in Hn as ->. by vm_compute. }
  split; [exact Hc|].
  apply (release_restores_host ["10.0.0.5"] fresh blocking true); [done|done|exact Hc|by vm_compute|done].
Defined.

(** An isolation that lands before [reconcile] (the answer to the first heartbeat of
    a restarted agent does) saves the relaxed policy over the one that was saved, and
    the release then leaves the host open: it blocked inbound connections before. *)
Lemma early_isolation_loses_the_policy :
  let '(_, w1, _) := Isolate ["10.0.0.5"] fresh blocking in
  let '(m2, w2, e2) := Isolate ["10.0.0.5"] fresh w1 in
  let '(_, w3, e3) := Unisolate m2 w2 in
  e2 = None ∧ e3 = None ∧ fw_rules (host w3) = fw_rules (host blocking) ∧
  fw_state (host blocking) <$> [Domain; Private; Public] =
    [mkState true BlockInbound false; mkState true BlockInbound false; mkState true BlockInboundAlways false] ∧
  fw_state (host w3) <$> [Domain; Private; Public] = replicate 3 (mkState true AllowInbound false).
Proof. by vm_compute. Qed.
