(* ===== verification/AgentIsolation.v ===== *)
(** * Commands and heartbeats on the endpoint

    [agent/internal/response/executor.go]: the commands of the server, carried out
    and acknowledged, and the check that the isolation still stands.
    [agent/internal/heartbeat]: what one heartbeat does with the answer of the
    server.  [agent/cmd/agent/main.go]: how the two are wired.
    [server/internal/ingestion/handler.go] and [server/internal/api/handlers/agents_handler.go]:
    what the server answers, over gRPC and over HTTP.

    The isolation manager is an interface ([IsolationManager]); the one of Windows
    implements it.  Killing a process, the quarantine and the requests to the server
    are the environment: each command is given what they answer. *)

From S2P Require Import Prelude GoStrings Ip Wfp.

#[local] Open Scope string_scope.
#[local] Open Scope list_scope.
#[local] Open Scope Z_scope.

(** ** [collector.IsolationManager] *)
Class IsolationManager (M : Type) := {
  mgr_Isolate : list string → M → M * option string;
  mgr_Unisolate : M → M * option string;
  mgr_IsIsolated : M → bool;
  mgr_VerifyIsolation : M → res bool
}.

#[export] Instance wfp_manager {H} `{WindowsHost H} : IsolationManager (WFPIsolationManager * World H) := {
  mgr_Isolate ips s := let '(m, w, e) := Wfp.Isolate ips s.1 s.2 in ((m, w), e);
  mgr_Unisolate s := let '(m, w, e) := Wfp.Unisolate s.1 s.2 in ((m, w), e);
  mgr_IsIsolated s := IsIsolated s.1;
  mgr_VerifyIsolation s := VerifyIsolation s.2
}.

(** ** Commands *)
Record IsolateCmd := mkIsolateCmd {
  iso_CommandID : string; iso_Reason : string; iso_AlertID : string; iso_AllowedIPs : list string
}.
Record UnisolateCmd := mkUnisolateCmd { uniso_CommandID : string; uniso_Reason : string }.
Record KillProcessCmd := mkKillCmd {
  kill_CommandID : string; kill_PID : Z; kill_ProcessName : string; kill_Reason : string
}.
Record QuarantineFileCmd := mkQuarantineCmd {
  qf_CommandID : string; qf_Path : string; qf_Reason : string; qf_AlertID : string
}.
Record RestoreFileCmd := mkRestoreCmd {
  rf_CommandID : string; rf_QuarantineID : string; rf_RestorePath : string
}.

Record Ack := mkAck { ack_CommandID : string; ack_success : bool; ack_err : string; ack_result : string }.
Definition ackSuccess (id result : string) : Ack := mkAck id true "" result.
Definition ackError (id err : string) : Ack := mkAck id false err "".

(** *** Sending an acknowledgement *)
Definition ackMaxRetries : nat := 3.
Definition ackRetryBaseWait : duration := second.

(** [answers]: what [SendAck] returns, attempt by attempt; [cancelled]: the context
    ends during the wait after an attempt.  The waits, and whether the
    acknowledgement went out. *)
Fixpoint ack_attempts (left attempt : nat) (wait : duration) (answers cancelled : nat → bool)
    : list duration * bool :=
  match left with
  | O => ([], false)
  | S left' =>
      if answers attempt then ([], true) else
      if (attempt <? ackMaxRetries)%nat then
        if cancelled attempt then ([wait], false)
        else let '(ws, ok) := ack_attempts left' (S attempt) (wait * 2) answers cancelled in (wait :: ws, ok)
      else ack_attempts left' (S attempt) wait answers cancelled
  end.

Definition sendAckWithRetry (answers cancelled : nat → bool) : list duration * bool :=
  ack_attempts ackMaxRetries 1 ackRetryBaseWait answers cancelled.

(** *** The address to keep reachable *)
Definition ServerHost (serverURL : string) : string :=
  match url_host serverURL with
  | None => serverURL
  | Some h => if String.eqb (url_hostname h) "" then serverURL else url_hostname h
  end.
Definition extractIP : string → string := ServerHost.

(** ** The executor *)
Section Agent.
Context {M : Type} `{IsolationManager M}.

Record Agent := mkAgent {
  edrServer : string;
  manager : M;
  lastIsolate : option IsolateCmd
}.

Definition set_manager (a : Agent) (m : M) : Agent := mkAgent (edrServer a) m (lastIsolate a).
Definition set_last (a : Agent) (c : option IsolateCmd) : Agent := mkAgent (edrServer a) (manager a) c.

Definition exec_Isolate (cmd : IsolateCmd) (a : Agent) : Agent * Ack :=
  let id := iso_CommandID cmd in
  match mgr_Isolate (iso_AllowedIPs cmd ++ [extractIP (edrServer a)]) (manager a) with
  | (m, Some err) => (set_manager a m, ackError id ("isolate failed: " +:+ err))
  | (m, None) =>
      let a := set_manager a m in
      match mgr_VerifyIsolation m with
      | Err e => (a, ackError id ("isolate applied but verification failed: " +:+ e))
      | Ok false => (a, ackError id "isolate reported success but no firewall rules are present")
      | Ok true => (set_last a (Some cmd), ackSuccess id "")
      end
  end.

Definition exec_Unisolate (cmd : UnisolateCmd) (a : Agent) : Agent * Ack :=
  let id := uniso_CommandID cmd in
  match mgr_Unisolate (manager a) with
  | (m, Some err) => (set_manager a m, ackError id ("unisolate failed: " +:+ err))
  | (m, None) =>
      let a := set_manager a m in
      match mgr_VerifyIsolation m with
      | Err e => (a, ackError id ("unisolate applied but verification failed: " +:+ e))
      | Ok true => (a, ackError id "unisolate reported success but firewall rules are still present")
      | Ok false => (set_last a None, ackSuccess id "")
      end
  end.

(** [killed]: the error of the process manager. *)
Definition KillProcess (cmd : KillProcessCmd) (killed : option string) : Ack :=
  match killed with
  | Some err => ackError (kill_CommandID cmd) ("kill PID " +:+ itoa (kill_PID cmd) +:+ ": " +:+ err)
  | None => ackSuccess (kill_CommandID cmd) ""
  end.

(** What [reportQuarantineToServer] posts. *)
Record QuarantineReport := mkQuarantineReport {
  qr_alert_id : string; qr_path : string; qr_file_size : Z; qr_hash_sha256 : string; qr_quarantine_id : string
}.

(** [stat], [hash]: size and digest of the file before it is moved; [posted]: the
    error of the report. *)
Definition QuarantineFile (cmd : QuarantineFileCmd) (server : string) (stat : option Z) (hash : option string)
    (quarantined : res string) (posted : QuarantineReport → option string) : option QuarantineReport * Ack :=
  let id := qf_CommandID cmd in
  match quarantined with
  | Err err => (None, ackError id ("quarantine " +:+ qf_Path cmd +:+ ": " +:+ err))
  | Ok qid =>
      let report := mkQuarantineReport (qf_AlertID cmd) (qf_Path cmd) (default 0 stat) (default "" hash) qid in
      if String.eqb server "" then (None, ackSuccess id qid) else
      (Some report,
       ackSuccess id (match posted report with
                      | Some _ => qid +:+ " (未記録: サーバの隔離一覧に出ません)"
                      | None => qid
                      end))
  end.

Definition RestoreFile (cmd : RestoreFileCmd) (restored : option string) : Ack :=
  match restored with
  | Some err => ackError (rf_CommandID cmd) ("restore " +:+ rf_QuarantineID cmd +:+ ": " +:+ err)
  | None => ackSuccess (rf_CommandID cmd) ""
  end.

(** The rules are gone though the last command isolated the endpoint: they are
    applied again, under the conditions of that command.  Rules nobody asked for are
    reported and kept. *)
Definition CheckIsolationDrift (a : Agent) : Agent :=
  match mgr_VerifyIsolation (manager a) with
  | Err _ => a
  | Ok actual =>
      match lastIsolate a with
      | Some want =>
          if actual then a
          else set_manager a (mgr_Isolate (iso_AllowedIPs want ++ [extractIP (edrServer a)]) (manager a)).1
      | None => a
      end
  end.

(** ** The heartbeat *)
Record HeartbeatResponse := mkHeartbeatResponse { ShouldUnisolate : bool; ShouldIsolate : bool }.

Definition heartbeat_status (a : Agent) : string :=
  if mgr_IsIsolated (manager a) then "isolated" else "online".

(** What [main] gives the reporter: the manager itself, and the server as the only
    address to keep. *)
Definition heartbeat_isolate (a : Agent) : Agent :=
  set_manager a (mgr_Isolate [ServerHost (edrServer a)] (manager a)).1.
Definition heartbeat_unisolate (a : Agent) : Agent :=
  set_manager a (mgr_Unisolate (manager a)).1.

(** [sendOnce]: the answer is a function of the status that was reported; [None]
    when neither way reached the server. *)
Definition sendOnce (server : string → option HeartbeatResponse) (a : Agent) : Agent :=
  match server (heartbeat_status a) with
  | None => a
  | Some resp =>
      let a := if ShouldIsolate resp then heartbeat_isolate a else a in
      if ShouldUnisolate resp then heartbeat_unisolate a else a
  end.
End Agent.

Arguments Agent M : clear implicits.

(** ** The answer of the server *)
(** [FallbackSender]: gRPC first, HTTP when that fails. *)
Definition FallbackSender (primary secondary : option HeartbeatResponse) : option HeartbeatResponse :=
  match primary with Some r => Some r | None => secondary end.

(** gRPC: keys of the response metadata. *)
Definition isolationHeaders (dbStatus reportedStatus : string) : list string :=
  let dbIsolated := String.eqb dbStatus "isolated" in
  let reportedIsolated := String.eqb reportedStatus "isolated" in
  if dbIsolated && negb reportedIsolated then ["x-edr-should-isolate"]
  else if negb dbIsolated && reportedIsolated then ["x-edr-should-unisolate"] else [].

Definition headerSaysIsolate (md : list string) : bool := bool_decide ("x-edr-should-isolate" ∈ md).
Definition headerSaysUnisolate (md : list string) : bool := bool_decide ("x-edr-should-unisolate" ∈ md).

(** The status as an enumeration of the protocol, and as the server reads it. *)
Inductive AgentStatus := AGENT_STATUS_ONLINE | AGENT_STATUS_ISOLATED | AGENT_STATUS_ERROR.
Definition proto_status (status : string) : AgentStatus :=
  if String.eqb status "isolated" then AGENT_STATUS_ISOLATED
  else if String.eqb status "error" then AGENT_STATUS_ERROR else AGENT_STATUS_ONLINE.
Definition reported_status (s : AgentStatus) : string :=
  match s with AGENT_STATUS_ISOLATED => "isolated" | _ => "online" end.

(** [db]: the status of the agent in the database, [None] when it cannot be read. *)
Definition grpc_heartbeat (db : option string) (status : string) : HeartbeatResponse :=
  let md := match db with
            | Some s => "x-edr-keepalive" :: isolationHeaders s (reported_status (proto_status status))
            | None => ["x-edr-keepalive"]
            end in
  mkHeartbeatResponse (headerSaysUnisolate md) (headerSaysIsolate md).

(** HTTP: fields of the body. *)
Definition reconcileIsolation (dbStatus reportedStatus : string) : bool * bool :=
  let dbIsolated := String.eqb dbStatus "isolated" in
  let reportedIsolated := String.eqb reportedStatus "isolated" in
  if dbIsolated && negb reportedIsolated then (true, false)
  else if negb dbIsolated && reportedIsolated then (false, true) else (false, false).

Definition http_heartbeat (db : option string) (status : string) : HeartbeatResponse :=
  let '(iso, uniso) := match db with Some s => reconcileIsolation s status | None => (false, false) end in
  mkHeartbeatResponse uniso iso.
