(* ===== verification/AgentIsolationProofs.v ===== *)
(** * Commands and heartbeats on the endpoint: theorems

    A command is acknowledged as done exactly when the rules were read back; the
    answer of a heartbeat brings the endpoint to the state the database asks for,
    over either transport; a release by command stays.  A release by heartbeat is
    undone by the next check of the rules, and a server known by its name is not
    among the addresses that stay reachable. *)

From S2P Require Import Prelude GoStrings Ip BlockRanges BlockRangesProofs Wfp WfpProofs AgentIsolation.

#[local] Open Scope string_scope.
#[local] Open Scope list_scope.
#[local] Open Scope Z_scope.

(** ** Acknowledgements *)
Section Reports.
Context {M : Type} `{IsolationManager M}.

(** C11: a command to isolate or to release is acknowledged as a success exactly when the
    manager returned no error and the rules, read back, are there or are gone; only
    then is it remembered or forgotten as the isolation to keep; and every
    acknowledgement carries the id of its command. *)
Theorem commands_report_the_truth (a : Agent M) cmd rel :
  (let '(a', ack) := exec_Isolate cmd a in
   ack_CommandID ack = iso_CommandID cmd ∧
   (ack_success ack = true ↔
    (mgr_Isolate (iso_AllowedIPs cmd ++ [extractIP (edrServer a)]) (manager a)).2 = None ∧
    mgr_VerifyIsolation (manager a') = Ok true) ∧
   lastIsolate a' = if ack_success ack then Some cmd else lastIsolate a) ∧
  (let '(a', ack) := exec_Unisolate rel a in
   ack_CommandID ack = uniso_CommandID rel ∧
   (ack_success ack = true ↔
    (mgr_Unisolate (manager a)).2 = None ∧ mgr_VerifyIsolation (manager a') = Ok false) ∧
   lastIsolate a' = if ack_success ack then None else lastIsolate a).
Proof.
  unfold exec_Isolate, exec_Unisolate. split.
  - destruct (mgr_Isolate _ _) as [m [e|]]; cbn; [naive_solver|].
    destruct (mgr_VerifyIsolation m) as [[]|] eqn:E; cbn; rewrite E; naive_solver.
  - destruct (mgr_Unisolate _) as [m [e|]]; cbn; [naive_solver|].
    destruct (mgr_VerifyIsolation m) as [[]|] eqn:E; cbn; rewrite E; naive_solver.
Qed.
End Reports.

Lemma ack_delivered_iff answers cancelled :
  (sendAckWithRetry answers cancelled).2 = true ↔
  answers 1%nat = true ∨ cancelled 1%nat = false ∧
    (answers 2%nat = true ∨ cancelled 2%nat = false ∧ answers 3%nat = true).
Proof.
  unfold sendAckWithRetry. cbn [ack_attempts ackMaxRetries].
  destruct (answers 1%nat); [cbn; naive_solver|]. change (1 <? ackMaxRetries)%nat with true. cbv iota.
  destruct (cancelled 1%nat); [cbn; naive_solver|].
  destruct (answers 2%nat); [cbn; naive_solver|]. change (2 <? ackMaxRetries)%nat with true. cbv iota.
  destruct (cancelled 2%nat); [cbn; naive_solver|].
  destruct (answers 3%nat); cbn; naive_solver.
Qed.

Lemma ack_waits answers cancelled :
  (sendAckWithRetry answers cancelled).1 `prefix_of` [second; 2 * second].
Proof.
  assert (∀ l, [] `prefix_of` (l : list duration)) as Hn by (intros l; by exists l).
  unfold sendAckWithRetry. cbn [ack_attempts ackMaxRetries]. unfold ackRetryBaseWait.
  destruct (answers 1%nat); [apply Hn|]. change (1 <? ackMaxRetries)%nat with true. cbv iota.
  destruct (cancelled 1%nat); [by exists [2 * second]|].
  destruct (answers 2%nat); [by exists [2 * second]|]. change (2 <? ackMaxRetries)%nat with true. cbv iota.
  destruct (cancelled 2%nat); [by exists []|]. destruct (answers 3%nat); by exists [].
Qed.

(** ** The contract of a manager *)
Class IsolationManagerOk (M : Type) `{IsolationManager M} := {
  coherent : M → Prop;            (** its memory agrees with the rules of the host *)
  blocks : list string → Prop;    (** there is something to block *)
  mgr_isolate_ok m ips : coherent m → blocks ips →
    ∃ m', mgr_Isolate ips m = (m', None) ∧ coherent m' ∧ mgr_IsIsolated m' = true;
  mgr_unisolate_ok m : coherent m →
    ∃ m', mgr_Unisolate m = (m', None) ∧ coherent m' ∧ mgr_IsIsolated m' = false;
  mgr_verify_ok m : coherent m → mgr_VerifyIsolation m = Ok (mgr_IsIsolated m)
}.

(** *** Windows keeps it *)
Section Windows.
Context {H : Type} `{WindowsHostOk H}.

Definition wfp_coherent (s : WFPIsolationManager * World H) : Prop :=
  if isolated s.1 then
    ∃ w ips snap, clean w ∧ rules (host s.2) = rules (host w) ++ rule_names ips ∧ rule_names ips ≠ [] ∧
      NoDup (ruleNames s.1) ∧ (∀ n, n ∈ ruleNames s.1 ↔ n ∈ rule_names ips) ∧
      savedPolicy s.1 = Some snap ∧ (∃ f, saves snap f)
  else ruleNames s.1 = [] ∧ clean s.2.

Lemma listed_none (w : World H) : clean w → existingIsolationRules w = [].
Proof.
  intros Hc. destruct (existingIsolationRules w) as [|n l] eqn:E; [done|]. exfalso.
  assert (n ∈ existingIsolationRules w) as Hn by (rewrite E; by left).
  unfold existingIsolationRules in Hn. rewrite (proj2 (parse_names_spec _)) in Hn.
  apply listing_names in Hn.
  destruct Hn as (r & Hr & Hn). rewrite (Hc r Hr) in Hn. by apply elem_of_nil in Hn.
Qed.

#[export] Instance wfp_manager_ok : IsolationManagerOk (WFPIsolationManager * World H).
Proof.
  refine {| coherent := wfp_coherent; blocks := λ ips, rule_names ips ≠ [] |}.
  - intros [m w] ips Hc Hb. unfold wfp_coherent in Hc. cbn [fst snd mgr_Isolate mgr_Unisolate mgr_VerifyIsolation mgr_IsIsolated wfp_manager isolated ruleNames savedPolicy NewWFPIsolationManager] in *. destruct (isolated m) eqn:Ei.
    + rewrite isolated_manager_is_inert by done. exists (m, w). split; [done|]. split; [unfold wfp_coherent; cbn [fst snd isolated ruleNames savedPolicy NewWFPIsolationManager IsIsolated]; by rewrite Ei|done].
    + destruct Hc as [Hn Hc]. destruct (isolate_ok ips m w Ei Hn) as (w' & -> & R & _).
      eexists. split; [done|]. split; [|done]. unfold wfp_coherent. cbn [fst snd isolated ruleNames savedPolicy NewWFPIsolationManager IsIsolated].
      exists w, ips, (readFirewallPolicy w). split; [done|]. split; [done|]. split; [done|].
      split; [apply rules_of_nodup|]. split; [done|]. split; [done|].
      eexists. apply snapshot_saves.
  - intros [m w] Hc. unfold wfp_coherent in Hc. cbn [fst snd mgr_Isolate mgr_Unisolate mgr_VerifyIsolation mgr_IsIsolated wfp_manager isolated ruleNames savedPolicy NewWFPIsolationManager] in *. unfold Wfp.Unisolate. destruct (isolated m) eqn:Ei.
    + destruct Hc as (w0 & ips & snap & Hc & R & Hne & Hnd & Hin & Hs & f & Hf).
      destruct (rollback_ok (ruleNames m) snap f m w Hnd) as (w' & -> & R');
        [intros n Hn; rewrite R, elem_of_app, <-Hin; by right|done|by left|done|].
      eexists. split; [done|]. split; [|done]. unfold wfp_coherent. cbn [fst snd isolated ruleNames savedPolicy NewWFPIsolationManager IsIsolated]. split; [done|].
      unfold clean. rewrite R', R, (own_rules_removed ips w0) by done. exact Hc.
    + exists (m, w). split; [done|]. split; [unfold wfp_coherent; cbn [fst snd isolated ruleNames savedPolicy NewWFPIsolationManager IsIsolated]; by rewrite Ei|done].
  - intros [m w] Hc. unfold wfp_coherent in Hc. cbn [fst snd mgr_Isolate mgr_Unisolate mgr_VerifyIsolation mgr_IsIsolated wfp_manager isolated ruleNames savedPolicy NewWFPIsolationManager] in *. unfold VerifyIsolation, IsIsolated.
    destruct (isolated m).
    + destruct Hc as (w0 & ips & snap & Hc & R & Hne & _). pose proof (listed_own ips w0 w Hc R) as Hl.
      destruct (rule_names ips) as [|n l]; [done|].
      assert (n ∈ existingIsolationRules w) as Hn by (apply Hl; by left).
      destruct (existingIsolationRules w); [by apply elem_of_nil in Hn|]. done.
    + destruct Hc as [_ Hc]. by rewrite listed_none.
Defined.
End Windows.

(** ** Heartbeats *)
Lemma transports_agree db status : grpc_heartbeat db status = http_heartbeat db status.
Proof.
  unfold grpc_heartbeat, http_heartbeat. destruct db as [s|]; [|done].
  unfold isolationHeaders, reconcileIsolation, proto_status.
  destruct (String.eqb status "isolated") eqn:E.
  - cbn [reported_status]. change (String.eqb "isolated" "isolated") with true.
    by destruct (String.eqb s "isolated").
  - assert (reported_status (if String.eqb status "error" then AGENT_STATUS_ERROR else AGENT_STATUS_ONLINE) = "online")
      as -> by (by destruct (String.eqb status "error")).
    change (String.eqb "online" "isolated") with false. by destruct (String.eqb s "isolated").
Qed.

Section Heartbeats.
Context {M : Type} `{IsolationManagerOk M}.

(** What the agent is told: over gRPC where that works, over HTTP otherwise. *)
Definition exchange (grpc_up http_up : bool) (db : option string) (status : string) : option HeartbeatResponse :=
  FallbackSender (if grpc_up then Some (grpc_heartbeat db status) else None)
    (if http_up then Some (http_heartbeat db status) else None).

Lemma exchange_told grpc_up http_up s status : grpc_up || http_up = true →
  exchange grpc_up http_up (Some s) status = Some (http_heartbeat (Some s) status).
Proof. unfold exchange. rewrite transports_agree. by destruct grpc_up, http_up. Qed.

Lemma reconciled_manager (a : Agent M) s : coherent (manager a) → blocks [ServerHost (edrServer a)] →
  let a' := sendOnce (λ st, Some (http_heartbeat (Some s) st)) a in
  coherent (manager a') ∧ mgr_IsIsolated (manager a') = String.eqb s "isolated" ∧
  edrServer a' = edrServer a ∧ lastIsolate a' = lastIsolate a.
Proof.
  intros Hc Hb. cbv zeta. unfold sendOnce, heartbeat_status, http_heartbeat, reconcileIsolation.
  destruct (mgr_IsIsolated (manager a)) eqn:Ei; change (String.eqb "isolated" "isolated") with true;
    change (String.eqb "online" "isolated") with false; destruct (String.eqb s "isolated"); cbn [andb negb ShouldIsolate ShouldUnisolate].
  - done.
  - unfold heartbeat_unisolate. destruct (mgr_unisolate_ok (manager a) Hc) as (m & -> & ? & ?). done.
  - unfold heartbeat_isolate. destruct (mgr_isolate_ok (manager a) _ Hc Hb) as (m & -> & ? & ?). done.
  - done.
Qed.

(** C9: one heartbeat that reaches the server brings the endpoint to the state the
    database holds, over gRPC or over HTTP, whatever it was before. *)
Theorem heartbeat_reconciles (a : Agent M) grpc_up http_up s : coherent (manager a) →
  blocks [ServerHost (edrServer a)] → grpc_up || http_up = true →
  let a' := sendOnce (exchange grpc_up http_up (Some s)) a in
  coherent (manager a') ∧ mgr_IsIsolated (manager a') = String.eqb s "isolated" ∧
  mgr_VerifyIsolation (manager a') = Ok (String.eqb s "isolated").
Proof.
  intros Hc Hb Hup. cbv zeta.
  assert (sendOnce (exchange grpc_up http_up (Some s)) a = sendOnce (λ st, Some (http_heartbeat (Some s) st)) a)
    as -> by (unfold sendOnce; by rewrite exchange_told).
  destruct (reconciled_manager a s Hc Hb) as (Hc' & Hi & _). split; [done|]. split; [done|].
  by rewrite mgr_verify_ok, Hi.
Qed.

(** *** Released by command, and by heartbeat *)
Lemma drift_idle (a : Agent M) : lastIsolate a = None → CheckIsolationDrift a = a.
Proof. unfold CheckIsolationDrift. intros ->. by destruct (mgr_VerifyIsolation _). Qed.

Lemma drift_reapplies (a : Agent M) c : coherent (manager a) → lastIsolate a = Some c →
  blocks (iso_AllowedIPs c ++ [extractIP (edrServer a)]) →
  let a' := CheckIsolationDrift a in
  coherent (manager a') ∧ mgr_IsIsolated (manager a') = true ∧ lastIsolate a' = Some c ∧ edrServer a' = edrServer a.
Proof.
  intros Hc Hl Hb. cbv zeta. unfold CheckIsolationDrift. rewrite mgr_verify_ok, Hl by done.
  destruct (mgr_IsIsolated (manager a)) eqn:Ei; [done|].
  destruct (mgr_isolate_ok (manager a) _ Hc Hb) as (m & -> & ? & ?). done.
Qed.

(** A release by command stays: no check of the rules brings the isolation back. *)
Theorem command_release_stays (a : Agent M) rel n : coherent (manager a) →
  let '(a', ack) := exec_Unisolate rel a in
  ack_success ack = true ∧ Nat.iter n CheckIsolationDrift a' = a' ∧ mgr_IsIsolated (manager a') = false.
Proof.
  intros Hc. unfold exec_Unisolate. destruct (mgr_unisolate_ok (manager a) Hc) as (m & -> & Hm & Hi).
  cbn [manager set_manager]. rewrite mgr_verify_ok, Hi by done. split; [done|]. split; [|done].
  induction n as [|n IH]; [done|]. rewrite Nat.iter_succ, IH. by apply drift_idle.
Qed.

(** A release by heartbeat does not: the executor still holds the isolation it
    carried out, so the next check applies it again, and the next heartbeat releases
    it again, for ever. *)
Lemma heartbeat_release_is_undone (a : Agent M) c s n : coherent (manager a) → lastIsolate a = Some c →
  blocks [ServerHost (edrServer a)] → blocks (iso_AllowedIPs c ++ [extractIP (edrServer a)]) →
  String.eqb s "isolated" = false →
  let beat := sendOnce (λ st, Some (http_heartbeat (Some s) st)) in
  let a' := Nat.iter n (λ a, CheckIsolationDrift (beat a)) a in
  mgr_IsIsolated (manager (beat a')) = false ∧ mgr_IsIsolated (manager (CheckIsolationDrift (beat a'))) = true.
Proof.
  intros Hc Hl Hb Hb' Hs beat a'.
  assert (coherent (manager a') ∧ lastIsolate a' = Some c ∧ edrServer a' = edrServer a) as (Hc' & Hl' & He').
  { subst a'. induction n as [|n (IHc & IHl & IHe)]; [done|]. rewrite Nat.iter_succ.
    set (b := Nat.iter n _ a) in *.
    destruct (reconciled_manager b s IHc ltac:(by rewrite IHe)) as (C1 & _ & E1 & L1). fold beat in C1, E1, L1.
    destruct (drift_reapplies (beat b) c C1 ltac:(by rewrite L1) ltac:(by rewrite E1, IHe)) as (C2 & _ & L2 & E2).
    split; [done|]. split; [done|]. by rewrite E2, E1. }
  destruct (reconciled_manager a' s Hc' ltac:(by rewrite He')) as (C1 & I1 & E1 & L1). fold beat in C1, I1, E1, L1.
  split; [by rewrite I1|].
  by destruct (drift_reapplies (beat a') c C1 ltac:(by rewrite L1) ltac:(by rewrite E1, He')) as (_ & I2 & _).
Qed.
End Heartbeats.

Import ToyHost.

Definition toy_agent : Agent (WFPIsolationManager * World Toy) :=
  mkAgent "https://203.0.113.10:8443" (fresh, blocking) None.

Lemma toy_coherent : coherent (manager toy_agent).
Proof.
  split; [reflexivity|]. intros n Hn. apply list_elem_of_singleton in Hn as ->. by vm_compute.
Defined.

Lemma heartbeat_reconciles_witness :
  coherent (manager toy_agent) ∧ blocks [ServerHost (edrServer toy_agent)] ∧
  let a' := sendOnce (exchange false true (Some "isolated")) toy_agent in
  coherent (manager a') ∧ mgr_IsIsolated (manager a') = true ∧ mgr_VerifyIsolation (manager a') = Ok true.
Proof.
  assert (blocks [ServerHost (edrServer toy_agent)]) as Hb by (cbn; intros E; vm_compute in E; discriminate E).
  split; [exact toy_coherent|]. split; [exact Hb|].
  apply (heartbeat_reconciles toy_agent false true "isolated" toy_coherent Hb). reflexivity.
Defined.

Lemma command_release_stays_witness : coherent (manager toy_agent) ∧
  let '(a', ack) := exec_Unisolate (mkUnisolateCmd "7" "done") toy_agent in
  ack_success ack = true ∧ Nat.iter 3 CheckIsolationDrift a' = a' ∧ mgr_IsIsolated (manager a') = false.
Proof. split; [exact toy_coherent|]. apply (command_release_stays toy_agent (mkUnisolateCmd "7" "done") 3 toy_coherent). Defined.

(** The release by heartbeat, on a host: isolated by command, released in the
    database, and isolated again after every check. *)
Lemma released_endpoint_stays_isolated n :
  let a := (exec_Isolate (mkIsolateCmd "1" "ransomware" "a1" []) toy_agent).1 in
  let beat := sendOnce (λ st, Some (http_heartbeat (Some "online") st)) in
  mgr_IsIsolated (manager (CheckIsolationDrift (beat (Nat.iter n (λ a, CheckIsolationDrift (beat a)) a)))) = true.
Proof.
  intros a beat. set (c := mkIsolateCmd "1" "ransomware" "a1" []) in *.
  assert (∀ ips, rule_names ips ≠ [] → blocks (M := WFPIsolationManager * World Toy) ips) as Hb by done.
  destruct (mgr_isolate_ok (manager toy_agent) (iso_AllowedIPs c ++ [extractIP (edrServer toy_agent)]) toy_coherent)
    as (m & Em & Cm & Im); [apply Hb; intros E; vm_compute in E; discriminate E|].
  assert (a = mkAgent (edrServer toy_agent) m (Some c)) as Ha.
  { unfold a, exec_Isolate. rewrite Em. by rewrite mgr_verify_ok, Im by exact Cm. }
  rewrite Ha.
  apply (heartbeat_release_is_undone (mkAgent (edrServer toy_agent) m (Some c)) c "online" n Cm eq_refl);
    [apply Hb; intros E; vm_compute in E; discriminate E..|reflexivity].
Qed.

(** ** The check of the rules, and the address of the server *)
(** On Windows the check cannot put the rules back: the manager still says that it is
    isolating. *)
Lemma drift_cannot_reapply {H} `{WindowsHost H} (a : Agent (WFPIsolationManager * World H)) :
  isolated (manager a).1 = true → CheckIsolationDrift a = a.
Proof.
  intros Hi. unfold CheckIsolationDrift. destruct a as [srv [m w] last]. cbn [manager fst snd edrServer lastIsolate] in *.
  cbn [mgr_VerifyIsolation mgr_Isolate wfp_manager fst snd]. unfold VerifyIsolation.
  destruct last as [c|]; [|done]. destruct (0 <? _); [done|]. by rewrite isolated_manager_is_inert.
Qed.

(** a server that is known by its name is not kept reachable: the name is no address,
    so the list stands as if the server were not on it. *)
Lemma named_server_is_cut_off url ips : ParseIP (trim_space (ServerHost url)) = None →
  contains (trim_space (ServerHost url)) "/" = false → block_ranges (ips ++ [extractIP url]) = block_ranges ips.
Proof.
  intros Hp Hs. unfold block_ranges, excluded, extractIP.
  assert (omap allowed_entry (ips ++ [ServerHost url]) = omap allowed_entry ips) as ->; [|done].
  rewrite omap_app. cbn [omap list_omap]. unfold allowed_entry at 2. cbv zeta.
  destruct (String.eqb _ ""); [by rewrite app_nil_r|]. unfold allowedRange. rewrite Hs, Hp. cbn [res_option].
  by rewrite app_nil_r.
Qed.

(** The only addresses such an endpoint reaches are its own. *)
Lemma named_server_example :
  let a := mkAgent "https://edr.example.com:8443" (fresh, blocking) None in
  ServerHost (edrServer a) = "edr.example.com" ∧
  (exec_Isolate (mkIsolateCmd "1" "ransomware" "a1" []) a).2 = ackSuccess "1" "" ∧
  computeBlockRanges [extractIP (edrServer a)] = ["0.0.0.0-126.255.255.255"; "128.0.0.0-255.255.255.255"].
Proof. by vm_compute. Qed.
