(* ===== verification/FileQuarantine.v ===== *)
(** * The quarantine of files

    [WindowsFileQuarantine] of [agent/internal/platform/windows/isolate_wfp.go]: a
    suspicious file is moved into the quarantine directory and entered into an index,
    which is kept on disk, and can be moved back.  The files are a map from paths to
    contents; what a move meets on the way (another volume, a full disk, a file that
    cannot be removed) is an input.  The directory is a clean path without a trailing
    separator. *)

From S2P Require Import Prelude GoStrings.

#[local] Open Scope string_scope.
#[local] Open Scope list_scope.
#[local] Open Scope Z_scope.

(** What the operating system answers during one move. *)
Record Answers := mkAnswers { rename_ok : bool; create_ok : bool; copy_ok : bool; remove_ok : bool }.
Definition all_well : Answers := mkAnswers true true true true.

Abbreviation Files := (gmap string string) (only parsing).

(** [moveFile]: a rename, or a copy and the removal of the source. *)
Definition moveFile (a : Answers) (src dst : string) (fs : Files) : Files * option string :=
  match fs !! src with
  | None => (fs, Some ("open " +:+ src +:+ ": The system cannot find the file specified."))
  | Some c =>
      if rename_ok a then (<[dst := c]> (delete src fs), None) else
      if negb (create_ok a) then (fs, Some ("open " +:+ dst)) else
      if negb (copy_ok a) then (delete dst fs, Some ("write " +:+ dst)) else
      if remove_ok a then (delete src (<[dst := c]> fs), None)
      else (<[dst := c]> fs, Some ("remove " +:+ src))
  end.

Record QuarantinedFile (Hashes : Type) := mkQuarantined {
  q_ID : string; q_OriginalPath : string; q_QuarantinedAt : time; q_Hashes : Hashes
}.
Arguments mkQuarantined {Hashes}.
Arguments q_ID {Hashes}.
Arguments q_OriginalPath {Hashes}.

Section Quarantine.
Context {Hashes : Type} (computeHashes : option string → Hashes).

(** The index in memory, the index on disk (its contents are kept as the value that
    is encoded) and whether it can be written. *)
Record WindowsFileQuarantine := mkFileQuarantine {
  quarantineDir : string;
  index : gmap string (QuarantinedFile Hashes);
  index_file : option (gmap string (QuarantinedFile Hashes));
  index_writable : bool
}.

Definition quarantine_path (dir id : string) : string := dir +:+ "\" +:+ id +:+ ".quarantine".

Definition saveIndex (q : WindowsFileQuarantine) : WindowsFileQuarantine :=
  if index_writable q then mkFileQuarantine (quarantineDir q) (index q) (Some (index q)) true else q.

Definition loadIndex (q : WindowsFileQuarantine) : WindowsFileQuarantine :=
  match index_file q with
  | Some i => mkFileQuarantine (quarantineDir q) (i ∪ index q) (index_file q) (index_writable q)
  | None => q
  end.

Definition NewWindowsFileQuarantine (dir : string) (file : option (gmap string (QuarantinedFile Hashes)))
    (writable : bool) : WindowsFileQuarantine :=
  loadIndex (mkFileQuarantine dir ∅ file writable).

Definition generateID (now : time) : string := itoa now.

Definition set_index (q : WindowsFileQuarantine) (i : gmap string (QuarantinedFile Hashes)) : WindowsFileQuarantine :=
  mkFileQuarantine (quarantineDir q) i (index_file q) (index_writable q).

Definition Quarantine (a : Answers) (now : time) (path : string) (q : WindowsFileQuarantine) (fs : Files)
    : WindowsFileQuarantine * Files * res string :=
  let id := generateID now in
  let dest := quarantine_path (quarantineDir q) id in
  match moveFile a path dest fs with
  | (fs, Some err) => (q, fs, Err ("move to quarantine: " +:+ err))
  | (fs, None) =>
      let entry := mkQuarantined id path now (computeHashes (fs !! dest)) in
      (saveIndex (set_index q (<[id := entry]> (index q))), fs, Ok id)
  end.

Definition Restore (a : Answers) (quarantineID restorePath : string) (q : WindowsFileQuarantine) (fs : Files)
    : WindowsFileQuarantine * Files * option string :=
  match index q !! quarantineID with
  | None => (q, fs, Some ("quarantine ID " +:+ quarantineID +:+ " not found"))
  | Some entry =>
      let dest := if String.eqb restorePath "" then q_OriginalPath entry else restorePath in
      match moveFile a (quarantine_path (quarantineDir q) quarantineID) dest fs with
      | (fs, Some err) => (q, fs, Some ("restore file: " +:+ err))
      | (fs, None) => (saveIndex (set_index q (delete quarantineID (index q))), fs, None)
      end
  end.

Definition List_ (q : WindowsFileQuarantine) : list (QuarantinedFile Hashes) := (map_to_list (index q)).*2.

(** ** Theorems *)
Lemma moved a src dst fs c : fs !! src = Some c → src ≠ dst → rename_ok a || create_ok a && copy_ok a && remove_ok a = true →
  moveFile a src dst fs = (<[dst := c]> (delete src fs), None).
Proof.
  intros Hs Hne Ha. unfold moveFile. rewrite Hs. destruct (rename_ok a); [done|]. cbn in Ha.
  destruct (create_ok a); [|done]. destruct (copy_ok a); [|done]. destruct (remove_ok a); [|done]. cbn.
  by rewrite delete_insert_ne.
Qed.

(** A move that fails keeps the source. *)
Lemma failed_move_keeps_source a src dst fs c fs' err : fs !! src = Some c → src ≠ dst →
  moveFile a src dst fs = (fs', Some err) → fs' !! src = Some c.
Proof.
  intros Hs Hne. unfold moveFile. rewrite Hs.
  destruct (rename_ok a), (create_ok a), (copy_ok a), (remove_ok a); cbn; intros [= <-];
    rewrite ?lookup_insert_ne, ?lookup_delete_ne by done; done.
Qed.

(** A quarantine that can move its files. *)
Definition movable (a : Answers) : Prop := rename_ok a || create_ok a && copy_ok a && remove_ok a = true.

(** C12: a file that was quarantined comes back with its contents, to where it was, and
    leaves nothing behind, over a rename or a copy, and also when the agent was
    restarted in between and has read its index. *)
Theorem quarantine_roundtrip a b now path q fs c (restarted : bool) : movable a → movable b →
  fs !! path = Some c → index q !! generateID now = None →
  path ≠ quarantine_path (quarantineDir q) (generateID now) →
  fs !! quarantine_path (quarantineDir q) (generateID now) = None →
  (restarted = true → index_writable q = true) →
  ∃ q1 fs1 q2, Quarantine a now path q fs = (q1, fs1, Ok (generateID now)) ∧ fs1 !! path = None ∧
    Restore b (generateID now) "" 
      (if restarted then NewWindowsFileQuarantine (quarantineDir q1) (index_file q1) (index_writable q1) else q1)
      fs1 = (q2, fs, None) ∧ index q2 = index q.
Proof.
  intros Ha Hb Hf Hi Hne Hd Hw. unfold Quarantine. cbv zeta. set (id := generateID now) in *.
  set (dest := quarantine_path (quarantineDir q) id) in *. rewrite (moved a path dest fs c) by done.
  set (entry := mkQuarantined id path now _). set (fs1 := <[dest := c]> (delete path fs)) in *.
  set (q1 := saveIndex (set_index q (<[id := entry]> (index q)))).
  set (q1' := if restarted
    then NewWindowsFileQuarantine (quarantineDir q1) (index_file q1) (index_writable q1) else q1).
  assert (quarantineDir q1' = quarantineDir q ∧ index q1' = <[id := entry]> (index q)) as [Hdir Hidx].
  { subst q1' q1. unfold saveIndex. cbn [index_writable set_index]. destruct restarted.
    - rewrite (Hw eq_refl). cbn. by rewrite map_union_empty.
    - by destruct (index_writable q). }
  exists q1, fs1, (saveIndex (set_index q1' (delete id (index q1')))). split; [done|].
  split; [unfold fs1; by rewrite lookup_insert_ne, lookup_delete_eq by done|].
  assert (index (saveIndex (set_index q1' (delete id (index q1')))) = index q) as Hend.
  { unfold saveIndex. cbn [index_writable set_index]. rewrite Hidx.
    by destruct (index_writable q1'); cbn; rewrite delete_insert_id. }
  split; [|exact Hend]. unfold Restore. fold q1'. rewrite Hidx, lookup_insert_eq. cbv zeta. cbn [q_OriginalPath entry String.eqb].
  rewrite Hdir. fold dest. rewrite (moved b dest path fs1 c); [|by apply lookup_insert_eq|done|done].
  f_equal. f_equal. unfold fs1. apply map_eq. intros k.
  destruct (decide (k = path)) as [->|Hp]; [by rewrite lookup_insert_eq|]. rewrite lookup_insert_ne by done.
  destruct (decide (k = dest)) as [->|Hk]; [by rewrite lookup_delete_eq|].
  by rewrite lookup_delete_ne, lookup_insert_ne, lookup_delete_ne by done.
Qed.
End Quarantine.

Lemma quarantine_roundtrip_witness : movable (mkAnswers false true true true) ∧
  let q := mkFileQuarantine "C:\ProgramData\EDRAgent\quarantine" (∅ : gmap string (QuarantinedFile (option string))) None true in
  let fs := {["C:\Temp\a.exe" := "MZ"; "C:\b.txt" := "b"]} : gmap string string in
  ∃ q1 fs1 q2, Quarantine id (mkAnswers false true true true) 17 "C:\Temp\a.exe" q fs = (q1, fs1, Ok (generateID 17)) ∧
    fs1 !! "C:\Temp\a.exe" = None ∧
    Restore all_well (generateID 17) ""
      (NewWindowsFileQuarantine (quarantineDir q1) (index_file q1) (index_writable q1)) fs1 = (q2, fs, None) ∧
    index q2 = index q.
Proof.
  split; [reflexivity|]. intros q fs.
  apply (quarantine_roundtrip id (mkAnswers false true true true) all_well 17 "C:\Temp\a.exe" q fs "MZ" true);
    try reflexivity. discriminate.
Defined.
