(* ===== verification/Commands.v ===== *)
(** * Commands from the server to the endpoint

    [server/internal/store/rules.go] ([CommandStore]) publishes a command;
    [server/cmd/ingestion/main.go] relays it to the dispatcher
    ([server/internal/ingestion/command_dispatcher.go]); [EventStream] of
    [server/internal/ingestion/handler.go] sends it down the stream of its agent;
    and [agent/internal/transport/grpc_client.go] turns it into a command of the
    executor.

    A JSON document is kept as its value, with the text that stands for it where
    the code looks into the text.  Publishing and the database are the
    environment. *)

From Stdlib Require Import Ascii.
From S2P Require Import Prelude GoStrings AgentIsolation.

#[local] Open Scope string_scope.
#[local] Open Scope list_scope.
#[local] Open Scope Z_scope.

(** ** JSON objects *)
Inductive jval := JStr (s : string) | JNum (z : Z) | JStrs (l : list string) | JNull.
Abbreviation json := (list (string * jval)) (only parsing).

(** The last member whose name is the one of the field, but for the case. *)
Definition member (k : string) (o : json) : option jval :=
  snd <$> List.find (λ kv, equal_fold kv.1 k) (rev o).

(** A field and whether it could be read; a field that is missing or null keeps its
    zero value. *)
Definition str_field (k : string) (o : json) : string * bool :=
  match member k o with Some (JStr s) => (s, true) | None | Some JNull => ("", true) | Some _ => ("", false) end.
Definition u32_field (k : string) (o : json) : Z * bool :=
  match member k o with
  | Some (JNum z) => if (0 <=? z) && (z <? 2 ^ 32) then (z, true) else (0, false)
  | None | Some JNull => (0, true)
  | Some _ => (0, false)
  end.
Definition int_field (k : string) (o : json) : Z * bool :=
  match member k o with
  | Some (JNum z) => if (- 2 ^ 63 <=? z) && (z <? 2 ^ 63) then (z, true) else (0, false)
  | None | Some JNull => (0, true)
  | Some _ => (0, false)
  end.
Definition strs_field (k : string) (o : json) : list string * bool :=
  match member k o with Some (JStrs l) => (l, true) | None | Some JNull => ([], true) | Some _ => ([], false) end.

(** *** The text of a document *)
Definition dquote : ascii := chr 34.
Definition hex_digit (n : nat) : ascii := ascii_of_nat (if (n <? 10)%nat then 48 + n else 87 + n).

(** One byte of a string as [json.Marshal] writes it. *)
Definition json_char (c : ascii) : string :=
  let n := nat_of_ascii c in
  if (n =? 34)%nat then String "\" (String dquote "") else
  if (n =? 92)%nat then "\\" else
  if (n =? 8)%nat then "\b" else if (n =? 9)%nat then "\t" else if (n =? 10)%nat then "\n" else
  if (n =? 12)%nat then "\f" else if (n =? 13)%nat then "\r" else
  if (n <? 32)%nat || (n =? 38)%nat || (n =? 60)%nat || (n =? 62)%nat
  then "\u00" +:+ String (hex_digit (n / 16)) (String (hex_digit (n mod 16)) "")
  else String c "".

Fixpoint json_escape (s : string) : string :=
  match s with EmptyString => "" | String c s' => json_char c +:+ json_escape s' end.
Definition json_string (s : string) : string := String dquote (json_escape s +:+ String dquote "").

Definition jval_text (v : jval) : string :=
  match v with
  | JStr s => json_string s
  | JNum z => itoa z
  | JStrs l => "[" +:+ join "," (json_string <$> l) +:+ "]"
  | JNull => "null"
  end.
Definition json_text (o : json) : string :=
  "{" +:+ join "," ((λ kv, json_string kv.1 +:+ ":" +:+ jval_text kv.2) <$> o) +:+ "}".

(** A text together with the object [json.Unmarshal] reads from it. *)
Record document := mkDocument { doc_text : string; doc_value : option json }.
Definition marshal (o : json) : document := mkDocument (json_text o) (Some o).

(** [p] after [json.Unmarshal] whose error is ignored. *)
Definition fields_of (d : document) : json := default [] (doc_value d).

(** ** [CommandStore] *)
(** What a command does to the outside, in order. *)
Inductive Effect :=
| DB_IsolateAgent (agent reason by_ : string)
| DB_UnisolateAgent (agent : string)
| Publish (subject : string) (data : document).

Definition subject_of (agent kind : string) : string := "commands." +:+ agent +:+ "." +:+ kind.

(** [db], [pub]: the errors of the database and of the publication. *)
Definition cs_IsolateEndpoint (db pub : option string) (agent reason alert command actor : string)
    : list Effect * option string :=
  match db with
  | Some e => ([DB_IsolateAgent agent reason actor], Some e)
  | None =>
      ([DB_IsolateAgent agent reason actor;
        Publish (subject_of agent "isolate")
          (marshal [("agent_id", JStr agent); ("command_id", JStr command); ("reason", JStr reason);
                    ("alert_id", JStr alert)])], pub)
  end.

Definition cs_KillProcess (pub : option string) (agent : string) (pid : Z) (reason command : string)
    : list Effect * option string :=
  ([Publish (subject_of agent "kill_process")
      (marshal [("agent_id", JStr agent); ("command_id", JStr command); ("pid", JNum pid); ("reason", JStr reason)])],
   pub).

Definition cs_QuarantineFile (pub : option string) (agent path alert command : string)
    : list Effect * option string :=
  ([Publish (subject_of agent "quarantine_file")
      (marshal [("agent_id", JStr agent); ("command_id", JStr command); ("path", JStr path); ("alert_id", JStr alert)])],
   pub).

Definition cs_RestoreFile (pub : option string) (agent quarantineID restorePath command : string)
    : list Effect * option string :=
  ([Publish (subject_of agent "restore_file")
      (marshal [("agent_id", JStr agent); ("command_id", JStr command); ("quarantine_id", JStr quarantineID);
                ("restore_path", JStr restorePath)])], pub).

Definition cs_DeleteFile (pub : option string) (agent path reason command : string)
    : list Effect * option string :=
  ([Publish (subject_of agent "delete_file")
      (marshal [("agent_id", JStr agent); ("command_id", JStr command); ("path", JStr path); ("reason", JStr reason)])],
   pub).

Definition cs_UnisolateEndpoint (db pub : option string) (agent reason command : string)
    : list Effect * option string :=
  let published := Publish (subject_of agent "unisolate")
    (marshal [("agent_id", JStr agent); ("command_id", JStr command); ("reason", JStr reason)]) in
  match pub with
  | Some e => ([published], Some e)
  | None => ([published; DB_UnisolateAgent agent], db)
  end.

Record ApplyPolicyPayload := mkApplyPolicy {
  ap_PolicyID : string; ap_ScanIntervalMin : Z; ap_CPULimitPct : Z; ap_EnabledModules : list string
}.

Definition EnqueueApplyPolicy (pub : option string) (agent : string) (p : ApplyPolicyPayload)
    : list Effect * option string :=
  ([Publish (subject_of agent "apply_policy")
      (marshal [("agent_id", JStr agent); ("policy_id", JStr (ap_PolicyID p));
                ("scan_interval_min", JNum (ap_ScanIntervalMin p)); ("cpu_limit_pct", JNum (ap_CPULimitPct p));
                ("enabled_modules", JStrs (ap_EnabledModules p))])], pub).

Definition cs_Scan (pub : option string) (agent scanType triggeredBy command : string)
    : list Effect * option string :=
  ([Publish (subject_of agent "scan")
      (marshal [("agent_id", JStr agent); ("command_id", JStr command); ("scan_type", JStr scanType);
                ("triggered_by", JStr triggeredBy)])], pub).

(** The id of the command is not put into the message. *)
Definition ScanCancel (pub : option string) (agent triggeredBy command : string)
    : list Effect * option string :=
  ([Publish (subject_of agent "scan")
      (marshal [("agent_id", JStr agent); ("command_id", JStr ""); ("scan_type", JStr "full");
                ("target", JStr "__cancel__"); ("triggered_by", JStr triggeredBy)])], pub).

Definition EnqueueLiveResponseStart (pub : option string) (agent session token callback : string)
    : list Effect * option string :=
  ([Publish (subject_of agent "live_response_start")
      (marshal [("type", JStr "live_response"); ("session_id", JStr session); ("token", JStr token);
                ("callback_url", JStr callback)])], pub).

(** ** The dispatcher *)
Record Command := mkCommand { c_ID : string; c_Type : string; c_Payload : document; c_IssuedAt : time }.

Abbreviation Dispatcher := (gmap string (list Command)) (only parsing).

Definition pending (d : Dispatcher) (agent : string) : list Command := default [] (d !! agent).

Definition Enqueue (agent : string) (cmd : Command) (d : Dispatcher) : Dispatcher * option string :=
  if String.eqb agent "" then (d, Some "agentID は必須です")
  else (<[agent := pending d agent ++ [cmd]]> d, None).

Definition Dequeue (agent : string) (d : Dispatcher) : Dispatcher * list Command :=
  match pending d agent with
  | [] => (d, [])
  | cmds => (<[agent := []]> d, cmds)
  end.

Definition generateCommandID (now : time) : string := "cmd-" +:+ itoa now.

Definition EnqueueIsolate (now : time) (agent reason alert : string) (ips : list string) (command : string)
    (d : Dispatcher) : Dispatcher * option string :=
  let id := if String.eqb command "" then generateCommandID now else command in
  Enqueue agent (mkCommand id "isolate"
    (marshal [("alert_id", JStr alert); ("allowed_ips", JStrs ips); ("reason", JStr reason)]) now) d.

(** ** The bridge *)
(** [SplitN(subject, ".", 3)]. *)
Definition subject_parts (subject : string) : option (string * string * string) :=
  match cut "." subject with
  | None => None
  | Some (a, rest) => match cut "." rest with None => None | Some (b, c) => Some (a, b, c) end
  end.

(** [relay]: the dispatcher afterwards, and the error that is logged; without one the
    command is logged as relayed, whatever its type. *)
Definition relay (now : time) (subject : string) (data : document) (d : Dispatcher) : Dispatcher * option string :=
  match subject_parts subject with
  | None => (d, None)
  | Some (_, agentID, cmdType) =>
      let p := fields_of data in
      let str k := (str_field k p).1 in
      let enqueue kind payload := Enqueue agentID (mkCommand ("nats-" +:+ subject) kind payload now) d in
      if String.eqb cmdType "isolate" then
        EnqueueIsolate now agentID (str "reason") (str "alert_id") (strs_field "allow_ips" p).1 (str "command_id") d
      else if String.eqb cmdType "unisolate" then
        enqueue "unisolate" (marshal [("reason", JStr (str "reason"))])
      else if String.eqb cmdType "kill_process" then
        enqueue "kill_process" (marshal [("pid", JNum (u32_field "pid" p).1); ("reason", JStr (str "reason"))])
      else if String.eqb cmdType "quarantine_file" then
        enqueue "quarantine_file" (marshal [("alert_id", JStr (str "alert_id")); ("path", JStr (str "path"))])
      else if String.eqb cmdType "restore_file" then
        enqueue "restore_file"
          (marshal [("quarantine_id", JStr (str "quarantine_id")); ("restore_path", JStr (str "restore_path"))])
      else if String.eqb cmdType "scan" then
        let scan_type := str "scan_type" in
        enqueue "scan" (marshal [("scan_type", JStr (if String.eqb scan_type "" then "full" else scan_type));
                                 ("target", JStr (str "target"))])
      else if String.eqb cmdType "cert_renew" then
        enqueue "cert_renew" (marshal [("renewal_token", JStr (str "renewal_token")); ("type", JStr "cert_renew")])
      else if String.eqb cmdType "live_response_start" then enqueue "live_response_start" data
      else (d, None)
  end.

(** ** The protocol message *)
Inductive ScanType := SCAN_TYPE_UNSPECIFIED | SCAN_TYPE_FILE | SCAN_TYPE_MEMORY | SCAN_TYPE_FULL_DISK.
Inductive ArtifactType :=
| ARTIFACT_TYPE_UNSPECIFIED | ARTIFACT_TYPE_FILE | ARTIFACT_TYPE_MEMORY_DUMP | ARTIFACT_TYPE_PROCESS_LIST
| ARTIFACT_TYPE_NETWORK_CONN | ARTIFACT_TYPE_REGISTRY | ARTIFACT_TYPE_LOGS.

#[export] Instance ArtifactType_eq_dec : EqDecision ArtifactType.
Proof. solve_decision. Defined.

Inductive ServerCommandBody :=
| PReloadConfig
| PIsolate (reason alert_id : string) (allow_ips : list string)
| PUnisolate (reason : string)
| PKillProcess (pid : Z) (process_name reason : string)
| PQuarantineFile (path reason alert_id : string)
| PRestoreFile (quarantine_id restore_path : string)
| PScan (type : ScanType) (target : string)
| PCollectArtifact (type : ArtifactType) (target : document).

(** A keepalive carries no command. *)
Record ServerCommand := mkServerCommand { sc_CommandId : string; sc_Command : option ServerCommandBody }.

Definition keepalivePingID : string := "__edr_keepalive__".

(** [commandToProto]; [None] for a payload that cannot be read. *)
Definition commandToProto (cmd : Command) (allowIPs : list string) : option ServerCommand :=
  let sc body := Some (mkServerCommand (c_ID cmd) (Some body)) in
  let t := c_Type cmd in
  let read {A} (f : json → A * bool) (k : A → option ServerCommand) : option ServerCommand :=
    match doc_value (c_Payload cmd) with
    | Some o => match f o with (v, true) => k v | (_, false) => None end
    | None => None
    end in
  if String.eqb t "isolate" then
    read (str_field "reason") (λ r, read (str_field "alert_id") (λ a, sc (PIsolate r a allowIPs)))
  else if String.eqb t "unisolate" then read (str_field "reason") (λ r, sc (PUnisolate r))
  else if String.eqb t "kill_process" then
    read (u32_field "pid") (λ pid, read (str_field "reason") (λ r, sc (PKillProcess pid "" r)))
  else if String.eqb t "quarantine_file" then
    read (str_field "path") (λ p, read (str_field "alert_id") (λ a, sc (PQuarantineFile p "" a)))
  else if String.eqb t "restore_file" then
    read (str_field "quarantine_id") (λ q, read (str_field "restore_path") (λ p, sc (PRestoreFile q p)))
  else if String.eqb t "scan" then
    read (str_field "scan_type") (λ st, read (str_field "target") (λ tg,
      sc (PScan (if String.eqb st "file" then SCAN_TYPE_FILE
                 else if String.eqb st "memory" then SCAN_TYPE_MEMORY else SCAN_TYPE_FULL_DISK) tg)))
  else if String.eqb t "reload_config" then sc PReloadConfig
  else if String.eqb t "live_response_start" then sc (PCollectArtifact ARTIFACT_TYPE_LOGS (c_Payload cmd))
  else if String.eqb t "apply_policy" then sc (PCollectArtifact ARTIFACT_TYPE_UNSPECIFIED (c_Payload cmd))
  else if String.eqb t "cert_renew" then sc (PCollectArtifact ARTIFACT_TYPE_UNSPECIFIED (c_Payload cmd))
  else None.

(** ** One tick of [EventStream] *)
(** [send_ok n]: the [n]-th message of the tick is sent.  The messages sent, and
    whether the stream goes on. *)
Fixpoint send_commands (send_ok : nat → bool) (n : nat) (allowIPs : list string) (cmds : list Command)
    : list ServerCommand * nat * bool :=
  match cmds with
  | [] => ([], n, true)
  | cmd :: cmds' =>
      match commandToProto cmd allowIPs with
      | None => send_commands send_ok n allowIPs cmds'
      | Some sc =>
          if send_ok n
          then let '(sent, m, up) := send_commands send_ok (S n) allowIPs cmds' in (sc :: sent, m, up)
          else ([], n, false)
      end
  end.

Definition stream_tick (send_ok : nat → bool) (allowIPs : list string) (agent : string) (d : Dispatcher)
    : Dispatcher * list ServerCommand * bool :=
  let '(d, cmds) := Dequeue agent d in
  match send_commands send_ok 0 allowIPs cmds with
  | (sent, _, false) => (d, sent, false)
  | (sent, n, true) =>
      if send_ok n then (d, sent ++ [mkServerCommand keepalivePingID None], true) else (d, sent, false)
  end.

(** ** On the endpoint *)
(** [fixWindowsPath]: the characters a path lost to escapes are put back. *)
Fixpoint fixWindowsPath (p : string) : string :=
  match p with
  | EmptyString => ""
  | String c p' =>
      let n := nat_of_ascii c in
      (if (n =? 9)%nat then "\t" else if (n =? 10)%nat then "\n" else if (n =? 13)%nat then "\r"
       else if (n =? 12)%nat then "\f" else if (n =? 8)%nat then "\b" else String c "") +:+ fixWindowsPath p'
  end.

Definition scan_type_string (t : ScanType) : string :=
  match t with
  | SCAN_TYPE_UNSPECIFIED => "SCAN_TYPE_UNSPECIFIED" | SCAN_TYPE_FILE => "SCAN_TYPE_FILE"
  | SCAN_TYPE_MEMORY => "SCAN_TYPE_MEMORY" | SCAN_TYPE_FULL_DISK => "SCAN_TYPE_FULL_DISK"
  end.

Inductive AgentCommand :=
| CmdReloadConfig
| CmdIsolate (c : IsolateCmd)
| CmdUnisolate (c : UnisolateCmd)
| CmdKillProcess (c : KillProcessCmd)
| CmdQuarantineFile (c : QuarantineFileCmd)
| CmdRestoreFile (c : RestoreFileCmd)
| CmdScan (id type target : string)
| CmdLiveResponseStart (session token callback : string)
| CmdForensicsJob (job_id job_type : string) (process_id : Z)
| CmdCertRenew (id token : string)
| CmdApplyPolicy (id : string) (p : ApplyPolicyPayload)
| CmdCollectArtifact.

Definition quoted (s : string) : string := String dquote (s +:+ String dquote "").

(** All fields of a document, when every one could be read. *)
Definition decode {A} (d : document) (f : json → A * bool) : option A :=
  match doc_value d with
  | Some o => match f o with (v, true) => Some v | (_, false) => None end
  | None => None
  end.
Definition both {A B} (f : json → A * bool) (g : json → B * bool) (o : json) : (A * B) * bool :=
  ((f o).1, (g o).1, (f o).2 && (g o).2).

Definition live_response_of (d : document) : option AgentCommand :=
  match decode d (both (both (str_field "type") (str_field "session_id"))
                       (both (str_field "token") (str_field "callback_url"))) with
  | Some ((t, s), (tok, cb)) => if String.eqb t "live_response" then Some (CmdLiveResponseStart s tok cb) else None
  | None => None
  end.
Definition forensics_of (d : document) : option AgentCommand :=
  match decode d (both (both (str_field "type") (str_field "job_id"))
                       (both (str_field "job_type") (int_field "process_id"))) with
  | Some ((t, j), (jt, pid)) => if String.eqb t "forensics_job" then Some (CmdForensicsJob j jt pid) else None
  | None => None
  end.
Definition cert_renew_of (id : string) (d : document) : option AgentCommand :=
  match decode d (both (str_field "type") (str_field "renewal_token")) with
  | Some (t, tok) => if String.eqb t "cert_renew" then Some (CmdCertRenew id tok) else None
  | None => None
  end.
Definition policy_of (id : string) (d : document) : option AgentCommand :=
  match decode d (both (both (str_field "policy_id") (int_field "scan_interval_min"))
                       (both (int_field "cpu_limit_pct") (strs_field "enabled_modules"))) with
  | Some ((p, si), (cpu, ms)) =>
      if String.eqb p "" then None else Some (CmdApplyPolicy id (mkApplyPolicy p si cpu ms))
  | None => None
  end.

(** The first of the readings that applies. *)
Definition artifact_command (id : string) (type : ArtifactType) (d : document) : AgentCommand :=
  let when (b : bool) (o : option AgentCommand) := if b then o else None in
  let lr := when (bool_decide (type = ARTIFACT_TYPE_LOGS) && contains (doc_text d) (quoted "live_response"))
              (live_response_of d) in
  let fj := when (contains (doc_text d) (quoted "forensics_job")) (forensics_of d) in
  let cr := when (contains (doc_text d) (quoted "cert_renew")) (cert_renew_of id d) in
  let ap := when (bool_decide (type = ARTIFACT_TYPE_UNSPECIFIED)) (policy_of id d) in
  match lr with Some c => c | None =>
  match fj with Some c => c | None =>
  match cr with Some c => c | None =>
  match ap with Some c => c | None => CmdCollectArtifact end end end end.

Definition convertServerCommand (cmd : ServerCommand) : option AgentCommand :=
  let id := sc_CommandId cmd in
  match sc_Command cmd with
  | None => None
  | Some body =>
      Some match body with
      | PIsolate reason alert ips => CmdIsolate (mkIsolateCmd id reason alert ips)
      | PUnisolate reason => CmdUnisolate (mkUnisolateCmd id reason)
      | PKillProcess pid name reason => CmdKillProcess (mkKillCmd id pid name reason)
      | PQuarantineFile path reason alert => CmdQuarantineFile (mkQuarantineCmd id (fixWindowsPath path) reason alert)
      | PRestoreFile qid path => CmdRestoreFile (mkRestoreCmd id qid (fixWindowsPath path))
      | PReloadConfig => CmdReloadConfig
      | PScan t target => CmdScan id (scan_type_string t) target
      | PCollectArtifact t d => artifact_command id t d
      end
  end.
