(* ===== verification/CommandsProofs.v ===== *)
(** * Commands from the server to the endpoint: theorems

    Each command of the store arrives at the executor of its agent as the command it
    is, in order; a policy and a deletion never arrive; and what follows a message
    that could not be sent is lost. *)

From Stdlib Require Import Ascii.
From S2P Require Import Prelude GoStrings AgentIsolation Commands.

#[local] Open Scope string_scope.
#[local] Open Scope list_scope.
#[local] Open Scope Z_scope.

(** ** Subjects *)
Definition dotless (s : string) : Prop := contains_char (Ascii.eqb ".") s = false.

Lemma subject_parts_of agent kind : dotless agent →
  subject_parts (subject_of agent kind) = Some ("commands", agent, kind).
Proof.
  intros Ha. unfold subject_parts, subject_of.
  change ("commands." +:+ agent +:+ "." +:+ kind) with ("commands" +:+ String "." (agent +:+ String "." kind)).
  rewrite cut_clean by done. by rewrite cut_clean.
Qed.

(** ** From the store to the executor *)
(** What the agent receives of the effects of one call: relayed, dequeued, sent and
    converted, with nothing lost on the way. *)
Definition deliver (now : time) (allowIPs : list string) (agent : string) (effs : list Effect) : list AgentCommand :=
  let d := foldl (λ d e, match e with Publish s data => (relay now s data d).1 | _ => d end)
             (∅ : gmap string (list Command)) effs in
  omap convertServerCommand (stream_tick (λ _, true) allowIPs agent d).1.2.

(** The id under which the bridge relays everything but an isolation. *)
Definition relayed_id (agent kind : string) : string := "nats-" +:+ subject_of agent kind.

Lemma enqueued_one agent cmd : agent ≠ "" →
  Dequeue agent (Enqueue agent cmd ∅).1 = (<[agent := []]> (<[agent := [cmd]]> ∅), [cmd]).
Proof.
  intros Hne. unfold Enqueue. apply String.eqb_neq in Hne. rewrite Hne. cbn [fst].
  unfold Dequeue, pending. rewrite lookup_empty, lookup_insert_eq. done.
Qed.

Lemma tick_one agent cmd allowIPs sc : agent ≠ "" → commandToProto cmd allowIPs = Some sc →
  (stream_tick (λ _, true) allowIPs agent (Enqueue agent cmd ∅).1).1.2 =
    [sc; mkServerCommand keepalivePingID None].
Proof. intros Hne Hp. unfold stream_tick. rewrite enqueued_one by done. cbn [send_commands]. by rewrite Hp. Qed.

Lemma delivered_one allowIPs agent cmd sc ac : agent ≠ "" →
  commandToProto cmd allowIPs = Some sc → convertServerCommand sc = Some ac →
  omap convertServerCommand (stream_tick (λ _, true) allowIPs agent (Enqueue agent cmd ∅).1).1.2 = [ac].
Proof. intros Hne Hp Hc. rewrite (tick_one agent cmd allowIPs sc) by done. cbn. by rewrite Hc. Qed.

Lemma u32_read k o z : member k o = Some (JNum z) → 0 <= z < 2 ^ 32 → u32_field k o = (z, true).
Proof.
  intros Hm Hz. unfold u32_field. rewrite Hm.
  destruct (Z.leb_spec 0 z), (Z.ltb_spec z (2 ^ 32)); cbn [andb]; done || lia.
Qed.

Ltac relay_with agent :=
  unfold deliver, cs_IsolateEndpoint, cs_UnisolateEndpoint, cs_KillProcess, cs_QuarantineFile, cs_RestoreFile,
    cs_Scan, ScanCancel, EnqueueLiveResponseStart, cs_DeleteFile, EnqueueApplyPolicy;
  cbn [fst snd foldl app]; unfold relay; rewrite (subject_parts_of agent) by done;
  cbn [fields_of marshal doc_value default from_option id].

Lemma live_response_read cid session token callback :
  artifact_command cid ARTIFACT_TYPE_LOGS
    (marshal [("type", JStr "live_response"); ("session_id", JStr session); ("token", JStr token);
              ("callback_url", JStr callback)]) = CmdLiveResponseStart session token callback.
Proof.
  unfold artifact_command. cbv zeta. rewrite bool_decide_eq_true_2 by done.
  assert (contains (doc_text (marshal [("type", JStr "live_response"); ("session_id", JStr session);
    ("token", JStr token); ("callback_url", JStr callback)])) (quoted "live_response") = true) as ->; [|done].
  unfold marshal, json_text. cbn [doc_text fmap list_fmap join fst snd jval_text].
  apply contains_app_l, contains_app_r, contains_app_r, contains_app_l, contains_app_l. by vm_compute.
Qed.

(** C38: every command the store publishes, a policy and a deletion apart, arrives at
    the executor of its agent as itself: an isolation with its own id and the
    addresses the server was configured with, the others under the id of the bridge;
    paths get their separators back; a scan of files or of memory is one, and a scan
    of any other kind is one of the full disk. *)
Theorem commands_arrive now allowIPs agent : dotless agent → agent ≠ "" →
  (∀ reason alert command actor,
    deliver now allowIPs agent (cs_IsolateEndpoint None None agent reason alert command actor).1 =
    [CmdIsolate (mkIsolateCmd (if String.eqb command "" then generateCommandID now else command) reason alert allowIPs)]) ∧
  (∀ reason command, deliver now allowIPs agent (cs_UnisolateEndpoint None None agent reason command).1 =
    [CmdUnisolate (mkUnisolateCmd (relayed_id agent "unisolate") reason)]) ∧
  (∀ pid reason command, 0 <= pid < 2 ^ 32 →
    deliver now allowIPs agent (cs_KillProcess None agent pid reason command).1 =
    [CmdKillProcess (mkKillCmd (relayed_id agent "kill_process") pid "" reason)]) ∧
  (∀ path alert command, deliver now allowIPs agent (cs_QuarantineFile None agent path alert command).1 =
    [CmdQuarantineFile (mkQuarantineCmd (relayed_id agent "quarantine_file") (fixWindowsPath path) "" alert)]) ∧
  (∀ qid path command, deliver now allowIPs agent (cs_RestoreFile None agent qid path command).1 =
    [CmdRestoreFile (mkRestoreCmd (relayed_id agent "restore_file") qid (fixWindowsPath path))]) ∧
  (∀ kind by_ command, deliver now allowIPs agent (cs_Scan None agent kind by_ command).1 =
    [CmdScan (relayed_id agent "scan")
       (if String.eqb kind "file" then "SCAN_TYPE_FILE" else if String.eqb kind "memory" then "SCAN_TYPE_MEMORY"
        else "SCAN_TYPE_FULL_DISK") ""]) ∧
  (∀ by_ command, deliver now allowIPs agent (ScanCancel None agent by_ command).1 =
    [CmdScan (relayed_id agent "scan") "SCAN_TYPE_FULL_DISK" "__cancel__"]) ∧
  (∀ session token callback,
    deliver now allowIPs agent (EnqueueLiveResponseStart None agent session token callback).1 =
    [CmdLiveResponseStart session token callback]).
Proof.
  intros Hd Hne. split; [|split; [|split; [|split; [|split; [|split; [|split]]]]]]; intros.
  - relay_with agent. unfold EnqueueIsolate. by eapply delivered_one.
  - relay_with agent. by eapply delivered_one.
  - relay_with agent. eapply (delivered_one _ _ _ (mkServerCommand _ (Some (PKillProcess pid "" reason)))); [done| |done].
    unfold commandToProto. cbn [c_Type c_Payload c_ID String.eqb Ascii.eqb Bool.eqb marshal doc_value].
    rewrite (u32_read "pid" [("agent_id", JStr agent); ("command_id", JStr command); ("pid", JNum pid);
      ("reason", JStr reason)] pid) by done.
    cbn [fst]. by rewrite (u32_read "pid" _ pid) by done.
  - relay_with agent. by eapply delivered_one.
  - relay_with agent. by eapply delivered_one.
  - relay_with agent. eapply delivered_one; [done|reflexivity|].
    cbn [convertServerCommand sc_Command sc_CommandId]. do 2 f_equal.
    change (str_field "scan_type" _).1 with kind.
    destruct (String.eqb_spec kind "") as [->|]; [reflexivity|].
    destruct (String.eqb kind "file"); [reflexivity|]. by destruct (String.eqb kind "memory").
  - relay_with agent. by eapply delivered_one.
  - relay_with agent.
    eapply (delivered_one _ _ _ (mkServerCommand _ (Some (PCollectArtifact ARTIFACT_TYPE_LOGS _))));
      [done|reflexivity|]. cbn [convertServerCommand sc_Command sc_CommandId]. apply (f_equal Some), live_response_read.
Qed.

Lemma commands_arrive_witness : dotless "5f1c" ∧ "5f1c" ≠ "" ∧
  (∀ pid reason command, 0 <= pid < 2 ^ 32 →
    deliver 7 [] "5f1c" (cs_KillProcess None "5f1c" pid reason command).1 =
    [CmdKillProcess (mkKillCmd (relayed_id "5f1c" "kill_process") pid "" reason)]).
Proof.
  assert (dotless "5f1c") as Hd by reflexivity. assert ("5f1c" ≠ "") as Hn by discriminate.
  split; [exact Hd|]. split; [exact Hn|]. apply (commands_arrive 7 [] "5f1c" Hd Hn).
Defined.

(** *** What never arrives *)
(** A policy and a deletion are published and logged as relayed; the bridge has no
    case for them. *)
Lemma policies_never_arrive now allowIPs agent p : dotless agent →
  deliver now allowIPs agent (EnqueueApplyPolicy None agent p).1 = [] ∧
  ∀ d data, relay now (subject_of agent "apply_policy") data d = (d, None).
Proof.
  intros Hd. assert (∀ d data, relay now (subject_of agent "apply_policy") data d = (d, None)) as Hr.
  { intros d data. unfold relay. by rewrite subject_parts_of. }
  split; [|done]. unfold deliver, EnqueueApplyPolicy. cbn [fst foldl]. by rewrite Hr.
Qed.

Lemma deletions_never_arrive now allowIPs agent path reason command : dotless agent →
  deliver now allowIPs agent (cs_DeleteFile None agent path reason command).1 = [].
Proof.
  intros Hd. unfold deliver, cs_DeleteFile. cbn [fst foldl]. unfold relay. by rewrite subject_parts_of.
Qed.

(** The endpoint would understand the policy. *)
Lemma policy_understood :
  artifact_command "9" ARTIFACT_TYPE_UNSPECIFIED
    (marshal [("agent_id", JStr "5f1c"); ("policy_id", JStr "p1"); ("scan_interval_min", JNum 30);
              ("cpu_limit_pct", JNum 20); ("enabled_modules", JStrs ["yara"])]) =
  CmdApplyPolicy "9" (mkApplyPolicy "p1" 30 20 ["yara"]).
Proof. by vm_compute. Qed.

(** ** The queue of an agent *)
Lemma send_all allowIPs cmds n : (send_commands (λ _, true) n allowIPs cmds).1.1 = omap (λ c, commandToProto c allowIPs) cmds ∧
  (send_commands (λ _, true) n allowIPs cmds).2 = true.
Proof.
  revert n. induction cmds as [|c cmds IH]; intros n; [done|]. cbn [send_commands omap list_omap].
  destruct (commandToProto c allowIPs) as [sc|]; [|apply IH].
  specialize (IH (S n)). destruct (send_commands _ (S n) allowIPs cmds) as [[sent m] up]. cbn in *.
  destruct IH as [-> ->]. done.
Qed.

Definition enqueue_all (agent : string) (cmds : list Command) (d : gmap string (list Command)) : gmap string (list Command) :=
  foldl (λ d c, (Enqueue agent c d).1) d cmds.

Lemma enqueued_in_order agent cmds d : agent ≠ "" →
  pending (enqueue_all agent cmds d) agent = pending d agent ++ cmds ∧
  ∀ a, a ≠ agent → pending (enqueue_all agent cmds d) a = pending d a.
Proof.
  intros Hne. apply String.eqb_neq in Hne. unfold enqueue_all. revert d.
  induction cmds as [|c cmds IH]; intros d; cbn [foldl]; [by rewrite app_nil_r|].
  destruct (IH (Enqueue agent c d).1) as [-> Hother]. split.
  - unfold Enqueue. rewrite Hne. cbn [fst]. unfold pending. rewrite lookup_insert_eq. cbn [default from_option id]. by rewrite <-app_assoc.
  - intros a Ha. rewrite Hother by done.
    unfold Enqueue. rewrite Hne. cbn [fst]. unfold pending. by rewrite lookup_insert_ne by done.
Qed.

(** Commands leave in the order in which they came, each once: a tick that can send
    sends what was queued for its agent and a keepalive, leaves nothing behind, and
    does not touch the queues of other agents. *)
Theorem commands_leave_in_order agent cmds d allowIPs : agent ≠ "" → pending d agent = [] →
  let '(d', sent, up) := stream_tick (λ _, true) allowIPs agent (enqueue_all agent cmds d) in
  sent = omap (λ c, commandToProto c allowIPs) cmds ++ [mkServerCommand keepalivePingID None] ∧ up = true ∧
  pending d' agent = [] ∧ ∀ a, a ≠ agent → pending d' a = pending d a.
Proof.
  intros Hne Hd. destruct (enqueued_in_order agent cmds d Hne) as [Hp Ho]. rewrite Hd in Hp. cbn [app] in Hp.
  unfold stream_tick, Dequeue. rewrite Hp. destruct cmds as [|c cmds].
  - cbn [send_commands]. by rewrite Hp.
  - destruct (send_all allowIPs (c :: cmds) 0) as [Hs Hu].
    destruct (send_commands _ 0 allowIPs (c :: cmds)) as [[sent m] up]. cbn [fst snd] in Hs, Hu. subst.
    split; [done|]. split; [done|]. unfold pending at 1. rewrite lookup_insert_eq. split; [done|].
    intros a Ha. rewrite <-Ho by done. unfold pending. by rewrite lookup_insert_ne by done.
Qed.

Lemma commands_leave_in_order_witness : "a" ≠ "" ∧ pending ∅ "a" = [] ∧
  let '(d', sent, up) := stream_tick (λ _, true) [] "a"
    (enqueue_all "a" [mkCommand "1" "reload_config" (marshal []) 0; mkCommand "2" "unisolate" (marshal []) 0] ∅) in
  sent = [mkServerCommand "1" (Some PReloadConfig); mkServerCommand "2" (Some (PUnisolate ""));
          mkServerCommand keepalivePingID None] ∧ up = true ∧
  pending d' "a" = [] ∧ ∀ a, a ≠ "a" → pending d' a = pending ∅ a.
Proof.
  split; [discriminate|]. split; [reflexivity|].
  apply (commands_leave_in_order "a" [mkCommand "1" "reload_config" (marshal []) 0; mkCommand "2" "unisolate" (marshal []) 0]
    ∅ []); [discriminate|reflexivity].
Defined.

(** A message that cannot be sent takes the commands behind it along: they have left
    the queue and are sent on no later stream. *)
Lemma unsent_commands_are_lost agent c1 c2 d allowIPs sc : agent ≠ "" → pending d agent = [c1; c2] →
  commandToProto c1 allowIPs = Some sc →
  let '(d', sent, up) := stream_tick (λ _, false) allowIPs agent d in
  sent = [] ∧ up = false ∧ pending d' agent = [].
Proof.
  intros Hne Hp Hc. unfold stream_tick, Dequeue. rewrite Hp. cbn [send_commands]. rewrite Hc.
  split; [done|]. split; [done|]. unfold pending. by rewrite lookup_insert_eq.
Qed.

(** ** Paths *)
Lemma fix_plain_path p : contains_char (λ c, (nat_of_ascii c <? 32)%nat) p = false → fixWindowsPath p = p.
Proof.
  induction p as [|c p IH]; [done|]. cbn [contains_char fixWindowsPath]. intros [Hc Hp]%orb_false_iff.
  rewrite IH by done. apply Nat.ltb_ge in Hc.
  destruct (Nat.eqb_spec (nat_of_ascii c) 9); [lia|]. destruct (Nat.eqb_spec (nat_of_ascii c) 10); [lia|].
  destruct (Nat.eqb_spec (nat_of_ascii c) 13); [lia|]. destruct (Nat.eqb_spec (nat_of_ascii c) 12); [lia|].
  destruct (Nat.eqb_spec (nat_of_ascii c) 8); [lia|]. done.
Qed.
