(* ===== verification/ResponseActions.v ===== *)
(** * The record of response actions

    [server/internal/store/response_actions.go]: the table that says what was done to
    an endpoint and how it ended, with [applyCommandAcks] of
    [server/internal/ingestion/handler.go], which closes its rows when the endpoint
    has answered.  Each SQL statement is the change it makes to the table; the id of
    a new row is the database's choice. *)

From S2P Require Import Prelude GoStrings Binary64 Isolator Suppression Detection.

#[local] Open Scope string_scope.
#[local] Open Scope list_scope.
#[local] Open Scope Z_scope.

Definition StatusPending : string := "pending".
Definition StatusDispatched : string := "dispatched".
Definition StatusRunning : string := "running".
Definition StatusSuccess : string := "success".
Definition StatusFailure : string := "failure".
Definition StatusTimeout : string := "timeout".

Record ResponseAction := mkResponseAction {
  act_AgentID : string;
  act_ActionType : string;
  act_Status : string;
  act_TriggeredBy : string;
  act_TriggeredAt : time;
  act_Error : option string
}.

Abbreviation Table := (gmap string ResponseAction) (only parsing).

(** [status_text = …, error_msg = COALESCE(…, error_msg)]. *)
Definition set_status (status : string) (err : option string) (r : ResponseAction) : ResponseAction :=
  mkResponseAction (act_AgentID r) (act_ActionType r) status (act_TriggeredBy r) (act_TriggeredAt r)
    (match err with Some e => Some e | None => act_Error r end).

(** Not yet in a terminal state. *)
Definition open_action (r : ResponseAction) : bool :=
  String.eqb (act_Status r) StatusPending || String.eqb (act_Status r) StatusDispatched
  || String.eqb (act_Status r) StatusRunning.

Definition Record_action (id : string) (now : time) (agent action status by_ : string) (t : Table) : Table :=
  <[id := mkResponseAction agent action (if String.eqb status "" then StatusPending else status) by_ now None]> t.

Definition RecordFailure (id : string) (now : time) (agent action by_ err : string) (t : Table) : Table :=
  <[id := mkResponseAction agent action StatusFailure by_ now (Some err)]> t.

(** Whatever the row says. *)
Definition Complete_action (id status err : string) (t : Table) : Table :=
  alter (set_status status (if String.eqb err "" then None else Some err)) id t.

Definition stale_action (now : time) (olderThan : duration) (r : ResponseAction) : bool :=
  open_action r && (act_TriggeredAt r <? now - Z.quot olderThan second * second).

Definition expire (r : ResponseAction) : ResponseAction :=
  mkResponseAction (act_AgentID r) (act_ActionType r) StatusTimeout (act_TriggeredBy r) (act_TriggeredAt r)
    (Some (default "結果が返らないまま期限切れになりました" (act_Error r))).

(** The table, and the number of rows that changed. *)
Definition ExpireStale (now : time) (olderThan : duration) (t : Table) : Table * Z :=
  ((λ r, if stale_action now olderThan r then expire r else r) <$> t,
   Z.of_nat (length (filter (λ kv, stale_action now olderThan kv.2 = true) (map_to_list t)))).

(** Actions of the containment of one endpoint. *)
Definition containment_action (r : ResponseAction) : bool :=
  String.eqb (act_ActionType r) "isolate" || String.eqb (act_ActionType r) "unisolate".

Definition RecentContainment (now : time) (agent : string) (within : duration) (t : Table) : bool :=
  existsb (λ r, String.eqb (act_AgentID r) agent && containment_action r
                && String.eqb (act_Status r) StatusDispatched && (now - within <? act_TriggeredAt r))
    (map_to_list t).*2.

(** ** Acknowledgements *)
Inductive AckStatus := ACK_STATUS_UNSPECIFIED | ACK_STATUS_SUCCESS | ACK_STATUS_FAILED | ACK_STATUS_PARTIAL.
Record CommandAck := mkCommandAck {
  ca_CommandId : string; ca_Status : AckStatus; ca_Error : string; ca_Result : string   (** the server leaves it unread *)
}.

Definition ack_status_text (s : AckStatus) : string :=
  match s with ACK_STATUS_SUCCESS => "success" | _ => "failure" end.

Definition applyCommandAck (t : Table) (ack : CommandAck) : Table :=
  let id := ca_CommandId ack in
  if String.eqb id "" then t else
  match t !! id with
  | Some r =>
      if open_action r
      then <[id := set_status (ack_status_text (ca_Status ack))
                     (if String.eqb (ca_Error ack) "" then None else Some (ca_Error ack)) r]> t
      else t
  | None => t
  end.

(** The agent that sent them is not looked at. *)
Definition applyCommandAcks (agentID : string) (acks : list CommandAck) (t : Table) : Table :=
  foldl applyCommandAck t acks.

(** ** Theorems *)
Definition terminal (r : ResponseAction) : Prop := open_action r = false.

Lemma ack_keeps_terminal t ack id r : t !! id = Some r → terminal r → applyCommandAck t ack !! id = Some r.
Proof.
  intros Ht Hr. unfold applyCommandAck. cbv zeta. destruct (String.eqb _ ""); [done|].
  destruct (decide (ca_CommandId ack = id)) as [<-|Hne].
  - rewrite Ht, Hr. done.
  - destruct (t !! ca_CommandId ack) as [r'|]; [|done]. destruct (open_action r'); [|done].
    by rewrite lookup_insert_ne.
Qed.

Lemma ack_lookup t ack id : id ≠ "" → ca_CommandId ack ≠ id → applyCommandAck t ack !! id = t !! id.
Proof.
  intros Hid Hne. unfold applyCommandAck. cbv zeta. destruct (String.eqb _ ""); [done|].
  destruct (t !! ca_CommandId ack) as [r'|]; [|done]. destruct (open_action r'); [|done].
  by rewrite lookup_insert_ne.
Qed.

Lemma terminal_text s err r : terminal (set_status (ack_status_text s) err r).
Proof. by destruct s. Qed.

Lemma acks_keep_terminal acks t id r : t !! id = Some r → terminal r →
  foldl applyCommandAck t acks !! id = Some r.
Proof.
  revert t. induction acks as [|a acks IH]; intros t Ht Hr; [done|]. cbn [foldl].
  apply IH; [by apply ack_keeps_terminal|done].
Qed.

(** The first answer counts: an open action ends with the first acknowledgement that
    names it, later ones, of the same batch or of another, and the worker that
    expires old actions leave it as it is; other actions are not touched. *)
Theorem first_ack_decides agent before ack after t id r now olderThan : id ≠ "" →
  t !! id = Some r → open_action r = true → ca_CommandId ack = id →
  Forall (λ a, ca_CommandId a ≠ id) before →
  let t' := (ExpireStale now olderThan (applyCommandAcks agent (before ++ ack :: after) t)).1 in
  t' !! id = Some (set_status (ack_status_text (ca_Status ack))
                     (if String.eqb (ca_Error ack) "" then None else Some (ca_Error ack)) r).
Proof.
  intros Hid Ht Ho Hack Hb. cbv zeta. unfold applyCommandAcks. rewrite foldl_app. cbn [foldl].
  assert (foldl applyCommandAck t before !! id = Some r) as H1.
  { revert t Ht. induction Hb as [|a before Ha Hb IH]; intros t Ht; [done|]. cbn [foldl].
    apply IH. by rewrite ack_lookup. }
  set (t1 := foldl applyCommandAck t before) in *.
  set (r' := set_status _ _ r).
  assert (applyCommandAck t1 ack !! id = Some r') as H2.
  { unfold applyCommandAck. cbv zeta. apply String.eqb_neq in Hid. rewrite Hack, Hid, H1, Ho.
    by rewrite lookup_insert_eq. }
  assert (terminal r') as Hr' by apply terminal_text.
  unfold ExpireStale. cbn [fst]. rewrite lookup_fmap, (acks_keep_terminal after _ id r' H2 Hr').
  cbn [fmap option_fmap option_map]. unfold stale_action. by rewrite Hr'.
Qed.

Lemma first_ack_decides_witness :
  let t := Record_action "u1" 100 "a" "isolate" StatusDispatched "manual" ∅ in
  (∃ r, t !! "u1" = Some r ∧ open_action r = true) ∧
  (act_Status <$> (ExpireStale (100 + hour) (5 * minute)
     (applyCommandAcks "a" ([] ++ mkCommandAck "u1" ACK_STATUS_SUCCESS "" "" :: [mkCommandAck "u1" ACK_STATUS_FAILED "late" ""]) t)).1 !! "u1")
    = Some "success".
Proof.
  intros t. split; [by eexists|].
  rewrite (first_ack_decides "a" [] (mkCommandAck "u1" ACK_STATUS_SUCCESS "" "") [mkCommandAck "u1" ACK_STATUS_FAILED "late" ""] t "u1"
    (mkResponseAction "a" "isolate" StatusDispatched "manual" 100 None) (100 + hour) (5 * minute));
    [reflexivity|discriminate|reflexivity|reflexivity|reflexivity|apply Forall_nil_2].
Defined.

(** An action expires exactly when it is still open after the time it was given. *)
Lemma expired_iff now olderThan t id r : t !! id = Some r → act_Status r ≠ StatusTimeout →
  (act_Status <$> (ExpireStale now olderThan t).1 !! id = Some StatusTimeout) ↔
  open_action r = true ∧ act_TriggeredAt r < now - Z.quot olderThan second * second.
Proof.
  intros Ht Hs. unfold ExpireStale. cbn [fst]. rewrite lookup_fmap, Ht. cbn [fmap option_fmap option_map].
  unfold stale_action. destruct (open_action r), (Z.ltb_spec (act_TriggeredAt r) (now - Z.quot olderThan second * second));
    cbn [andb expire act_Status]; naive_solver lia.
Qed.

(** ** What goes wrong *)
(** The dispatcher of the command completes its row without looking at it: an answer
    that is faster than that is overwritten, and the action expires though it was
    carried out. *)
Lemma fast_answer_is_overwritten :
  let t0 := Record_action "u1" 0 "a" "isolate" StatusPending "manual" ∅ in
  let t1 := applyCommandAcks "a" [mkCommandAck "u1" ACK_STATUS_SUCCESS "" ""] t0 in
  let t2 := Complete_action "u1" StatusDispatched "" t1 in
  act_Status <$> t1 !! "u1" = Some "success" ∧ act_Status <$> t2 !! "u1" = Some "dispatched" ∧
  act_Status <$> (ExpireStale hour (5 * minute) t2).1 !! "u1" = Some "timeout".
Proof. by vm_compute. Qed.

(** The answer of the endpoint takes an isolation out of the recent containments, so
    the alert about the firewall that the isolation changed is reported as foreign
    from then on, well within the time it is meant to be expected. *)
Lemma answered_isolation_is_foreign agent t id r now a : id ≠ "" →
  t !! id = Some r → act_Status r = StatusDispatched → act_AgentID r = agent →
  (∀ id' r', t !! id' = Some r' → act_AgentID r' = agent → containment_action r' = true → id' = id) →
  IsSelfInflicted true
    (Ok (RecentContainment now agent selfRemediationWindow (applyCommandAcks agent [mkCommandAck id ACK_STATUS_SUCCESS "" ""] t))) a = false.
Proof.
  intros Hid Ht Hs Ha Honly. unfold IsSelfInflicted. destruct (_ || _); [done|]. destruct (negb _); [done|].
  unfold RecentContainment. apply not_true_iff_false. rewrite existsb_exists. intros (r' & Hin & Hr').
  apply list_elem_of_In, list_elem_of_fmap in Hin as ([id' r''] & -> & Hin). apply elem_of_map_to_list in Hin. cbn [snd] in Hr'.
  unfold applyCommandAcks in Hin. cbn [foldl] in Hin. unfold applyCommandAck in Hin. cbn [ca_CommandId ca_Status ca_Error] in Hin.
  apply String.eqb_neq in Hid. rewrite Hid, Ht in Hin. unfold open_action in Hin. rewrite Hs in Hin.
  change (String.eqb StatusDispatched StatusPending || String.eqb StatusDispatched StatusDispatched
    || String.eqb StatusDispatched StatusRunning) with true in Hin. cbv iota in Hin.
  rewrite !andb_true_iff in Hr'. destruct Hr' as [[[Hag Hc] Hst] _].
  apply lookup_insert_Some in Hin as [[-> <-]|[Hne Hin]].
  - cbn in Hst. done.
  - apply Hne. symmetry. apply (Honly id' r''); [done| |done]. by apply String.eqb_eq.
Qed.

Lemma answered_isolation_example :
  let a := mkAlert "x" "a" "h" "windows" "r" "Netsh Firewall Rule Added" 5 "open" "" "" [] "" [] false fzero 110 in
  let t := Record_action "u1" (100 * second) "a" "isolate" StatusDispatched "manual" ∅ in
  let answered := applyCommandAcks "a" [mkCommandAck "u1" ACK_STATUS_SUCCESS "" ""] t in
  let hidden t := IsSelfInflicted true (Ok (RecentContainment (110 * second) "a" selfRemediationWindow t)) a in
  hidden t = true ∧ hidden answered = false.
Proof. by vm_compute. Qed.
