(* ===== verification/Transport.v ===== *)
(** * The agent's connection to the server

    [agent/internal/transport/grpc_client.go]: the loop that reconnects and its
    backoff, the watchdog of the receiving half of the stream, and the way of a
    batch with its acknowledgements to the stream or to the spool of
    [RingBuffer.v].

    gRPC is the environment: what a dial, a stream or a send does is an input.  The
    JSON form of a batch ([protojson]) is a parameter. *)

From S2P Require Import Prelude GoStrings Binary64 Ip RingBuffer ResponseActions.

#[local] Open Scope string_scope.
#[local] Open Scope list_scope.
#[local] Open Scope Z_scope.

(** ** Backoff *)
Record exponentialBackoff := mkBackoff { b_min : duration; b_max : duration; attempt : nat }.

(** [math.Pow(2, n)], exact until it is infinite. *)
Definition fpow2 (n : nat) : f64 := fbin 1 (Z.of_nat n).

(** [time.Duration(f)]; [oob]: what the processor makes of a number that is not an
    [int64], which the language leaves open. *)
Definition float_to_int64 (oob : f64 → Z) (f : f64) : Z :=
  match f with
  | S754_zero _ => 0
  | S754_finite _ _ _ => let z := ftrunc f in if (- 2 ^ 63 <=? z) && (z <? 2 ^ 63) then z else oob f
  | _ => oob f
  end.

(** The conversion of amd64, and the saturating one of arm64. *)
Definition amd64_oob (f : f64) : Z := - 2 ^ 63.
Definition arm64_oob (f : f64) : Z :=
  match f with
  | S754_infinity s | S754_finite s _ _ => if s then - 2 ^ 63 else 2 ^ 63 - 1
  | _ => 0
  end.

Definition Next (oob : f64 → Z) (b : exponentialBackoff) : duration * exponentialBackoff :=
  let d := float_to_int64 oob (fmul (fint (b_min b)) (fpow2 (attempt b))) in
  (if b_max b <? d then b_max b else d, mkBackoff (b_min b) (b_max b) (S (attempt b))).

Definition backoff_Reset (b : exponentialBackoff) : exponentialBackoff := mkBackoff (b_min b) (b_max b) 0.

(** ** [RunWithReconnect] *)
Definition stableConnThreshold : duration := 30 * second.
Definition reconnect_backoff : exponentialBackoff := mkBackoff (5 * second) (5 * minute) 0.

(** One turn of the loop: how long the dial took, and how far it came. *)
Inductive Session :=
| DialFailed (took : duration)
| StreamFailed (took : duration)
| Connected (took lasted : duration).

(** The wait before the next turn, none for a connection that held. *)
Definition reconnect_turn (oob : f64 → Z) (b : exponentialBackoff) (s : Session)
    : option duration * exponentialBackoff :=
  match s with
  | Connected _ lasted =>
      if stableConnThreshold <=? lasted then (None, backoff_Reset b)
      else let '(w, b) := Next oob b in (Some w, b)
  | _ => let '(w, b) := Next oob b in (Some w, b)
  end.

(** How long a turn takes; [time.After] of a negative wait fires at once. *)
Definition session_time (s : Session) : duration :=
  match s with DialFailed t | StreamFailed t => t | Connected t l => t + l end.
Definition wait_time (w : option duration) : duration := Z.max 0 (default 0 w).

Fixpoint RunWithReconnect (oob : f64 → Z) (b : exponentialBackoff) (ss : list Session)
    : duration * exponentialBackoff :=
  match ss with
  | [] => (0, b)
  | s :: ss' =>
      let '(w, b) := reconnect_turn oob b s in
      let '(t, b) := RunWithReconnect oob b ss' in
      (session_time s + wait_time w + t, b)
  end.

(** ** The watchdog of the receiving half *)
Definition defaultRecvTimeout : duration := 30 * second.
Definition recv_timeout (configured : duration) : duration :=
  if configured <=? 0 then defaultRecvTimeout else configured.

(** What happens while the stream is open: a frame arrives, or the reply to a
    heartbeat says that the server sends keepalives. *)
Inductive StreamEvent := Frame (keepalive : bool) | KeepaliveHeader.

Definition latches (e : StreamEvent) : bool := match e with Frame k => k | KeepaliveHeader => true end.
Definition is_frame (e : StreamEvent) : bool := match e with Frame _ => true | KeepaliveHeader => false end.

(** The timer until [now], at which it fires before anything else happens: the time
    of the disconnect, or the new deadline. *)
Fixpoint poll (fuel : nat) (timeout : duration) (latched : bool) (deadline now : time) : time + time :=
  match fuel with
  | O => inr deadline
  | S f =>
      if deadline <=? now then
        if latched then inl deadline else poll f timeout latched (deadline + timeout) now
      else inr deadline
  end.
Definition poll_fuel (timeout : duration) (deadline now : time) : nat := S (Z.to_nat ((now - deadline) / timeout + 1)).

(** When [runRecvWatchdog] disconnects, within [horizon]; the events are in the order
    of their times. *)
Fixpoint runRecvWatchdog (timeout : duration) (horizon deadline : time) (latched : bool)
    (evs : list (time * StreamEvent)) : option time :=
  match evs with
  | [] =>
      match poll (poll_fuel timeout deadline horizon) timeout latched deadline horizon with
      | inl d => Some d
      | inr _ => None
      end
  | (t, e) :: evs' =>
      match poll (poll_fuel timeout deadline t) timeout latched deadline t with
      | inl d => Some d
      | inr deadline =>
          runRecvWatchdog timeout horizon (if is_frame e then t + timeout else deadline) (latched || latches e) evs'
      end
  end.

(** The stream is opened at [start]. *)
Definition recv_watchdog (configured : duration) (start horizon : time) (latched : bool)
    (evs : list (time * StreamEvent)) : option time :=
  let timeout := recv_timeout configured in
  runRecvWatchdog timeout horizon (start + timeout) latched evs.

(** ** Batches *)
Inductive WirePlatform := PLATFORM_UNSPECIFIED | PLATFORM_WINDOWS | PLATFORM_LINUX | PLATFORM_DARWIN.

Definition batchPlatform (goos : string) : WirePlatform :=
  if String.eqb goos "windows" then PLATFORM_WINDOWS
  else if String.eqb goos "linux" then PLATFORM_LINUX
  else if String.eqb goos "darwin" then PLATFORM_DARWIN
  else PLATFORM_UNSPECIFIED.

Record EventBatch := mkEventBatch {
  eb_AgentId : string;
  eb_Platform : WirePlatform;
  eb_Events : list bytes;
  eb_Acks : list CommandAck
}.

(** ** The client *)
Record GRPCClient := mkGRPCClient {
  cl_AgentID : string;
  connected : bool;
  has_stream : bool;
  scope_live : bool;     (** the connection scope is not cancelled *)
  cl_buffer : RingBuffer;
  pendingAcks : list CommandAck
}.

Definition with_acks (acks : list CommandAck) (c : GRPCClient) : GRPCClient :=
  mkGRPCClient (cl_AgentID c) (connected c) (has_stream c) (scope_live c) (cl_buffer c) acks.
Definition with_buffer (rb : RingBuffer) (c : GRPCClient) : GRPCClient :=
  mkGRPCClient (cl_AgentID c) (connected c) (has_stream c) (scope_live c) rb (pendingAcks c).

Definition signalDisconnect (c : GRPCClient) : GRPCClient :=
  mkGRPCClient (cl_AgentID c) false (has_stream c) false (cl_buffer c) (pendingAcks c).

Definition closeConn (c : GRPCClient) : GRPCClient :=
  mkGRPCClient (cl_AgentID c) false false (scope_live c) (cl_buffer c) (pendingAcks c).

Definition SendAck (id : string) (success : bool) (err result : string) (c : GRPCClient) : GRPCClient :=
  if String.eqb id "" then c
  else with_acks (pendingAcks c ++
         [mkCommandAck id (if success then ACK_STATUS_SUCCESS else ACK_STATUS_FAILED) err result]) c.

Definition drainAcks (c : GRPCClient) : list CommandAck * GRPCClient := (pendingAcks c, with_acks [] c).

Definition requeueAcks (acks : list CommandAck) (c : GRPCClient) : GRPCClient :=
  with_acks (acks ++ pendingAcks c) c.

(** What a send does: it returns, with or without an error, or blocks until the
    watchdog of the send disconnects. *)
Inductive SendOutcome := SendOk | SendError (e : string) | SendStuck.

Definition sendWithWatchdog (o : SendOutcome) (c : GRPCClient) : option string * GRPCClient :=
  match o with
  | SendOk => (None, c)
  | SendError e => (Some e, c)
  | SendStuck => (Some "stream send timeout", signalDisconnect c)
  end.

Section Sending.
Context (gcm_seal : bytes → bytes → bytes → bytes).
Context (marshal_batch : EventBatch → res bytes).

Definition bufferBatch (φ : Faults) (b : EventBatch) (c : GRPCClient) : option string * GRPCClient :=
  match marshal_batch b with
  | Err e => (Some ("marshal batch for buffer: " +:+ e), c)
  | Ok data => let '(rb, err) := write gcm_seal φ (cl_buffer c) data in (err, with_buffer rb c)
  end.

(** The batch with its platform and the queued acknowledgements. *)
Definition outgoing (goos : string) (b : EventBatch) (c : GRPCClient) : EventBatch * GRPCClient :=
  let platform := match eb_Platform b with PLATFORM_UNSPECIFIED => batchPlatform goos | p => p end in
  match eb_Acks b with
  | [] => let '(acks, c) := drainAcks c in (mkEventBatch (eb_AgentId b) platform (eb_Events b) acks, c)
  | acks => (mkEventBatch (eb_AgentId b) platform (eb_Events b) acks, c)
  end.

(** [o]: the outcome of the send, if there is one.  The error, the client and the
    batches that went up the stream. *)
Definition SendEvents (goos : string) (φ : Faults) (o : SendOutcome) (b : EventBatch) (c : GRPCClient)
    : option string * GRPCClient * list EventBatch :=
  let '(b, c) := outgoing goos b c in
  if negb (connected c) || negb (has_stream c) then (bufferBatch φ b c, []) else
  match sendWithWatchdog o c with
  | (None, c) => (None, c, [b])
  | (Some _, c) =>
      let c := signalDisconnect c in
      match bufferBatch φ b c with
      | (Some e, c) => (Some e, requeueAcks (eb_Acks b) c, [])
      | (None, c) => (None, c, [])
      end
  end.

Definition FlushAcks (goos : string) (φ : Faults) (o : SendOutcome) (c : GRPCClient)
    : option string * GRPCClient * list EventBatch :=
  match pendingAcks c with
  | [] => (None, c, [])
  | _ => SendEvents goos φ o (mkEventBatch (cl_AgentID c) PLATFORM_UNSPECIFIED [] []) c
  end.
End Sending.

(** ** A connection *)
(** [Connect] and [openStream] succeed. *)
Definition open_connection (c : GRPCClient) : GRPCClient :=
  mkGRPCClient (cl_AgentID c) true true true (cl_buffer c) (pendingAcks c).

(** The drain of a connection whose sends go as [send] says; [unmarshal]: the batch
    of a text. *)
Definition drainBuffer (gcm_open : bytes → bytes → bytes → option bytes) (unmarshal : bytes → option EventBatch)
    (φ : Faults) (fuel : nat) (send : list (option bool)) (c : GRPCClient) : go (GRPCClient * list EventBatch) :=
  match drain gcm_open (λ raw, bool_decide (is_Some (unmarshal raw))) φ fuel send (cl_buffer c) with
  | Ret (rb, out) => Ret (with_buffer rb c, omap unmarshal (out : list bytes))
  | Panic => Panic
  end.

(** ** The address *)
Fixpoint after_scheme (s : string) : option string :=
  if has_prefix s "://" then Some (sdrop 3 s)
  else match s with EmptyString => None | String _ s' => after_scheme s' end.

Definition extractHost (rawURL : string) : string :=
  let u := default rawURL (after_scheme rawURL) in
  let u := match cut (chr 47) u with Some (h, _) => h | None => u end in
  match cut_last (chr 58) u with Some (h, _) => h | None => u end.
