(* ===== verification/TransportProofs.v ===== *)
(** * The agent's connection to the server: theorems

    Reconnecting never becomes a storm as long as the backoff has not run out of
    numbers; the watchdog of the receiving half disconnects exactly after a silence
    that means something; and an acknowledgement is held, by the client, the spool
    or the stream, until the server has it. *)

From S2P Require Import Prelude GoStrings Binary64 Ip RingBuffer RingBufferProofs ResponseActions Transport.

#[local] Open Scope string_scope.
#[local] Open Scope list_scope.
#[local] Open Scope Z_scope.

(** ** Backoff *)
Definition exact_wait (n : nat) : duration := Z.min (5 * second * 2 ^ Z.of_nat n) (5 * minute).

Lemma Next_exact oob n : (n < 31)%nat →
  Next oob (mkBackoff (5 * second) (5 * minute) n) = (exact_wait n, mkBackoff (5 * second) (5 * minute) (S n)).
Proof.
  intros Hn. do 31 (destruct n as [|n]; [by vm_compute|]). lia.
Qed.

Lemma exact_wait_bounds n : 5 * second <= exact_wait n <= 5 * minute.
Proof.
  unfold exact_wait. pose proof (Z.pow_pos_nonneg 2 (Z.of_nat n) ltac:(lia) ltac:(lia)).
  unfold minute, second, millisecond. lia.
Qed.

(** Sessions of which never more than 31 in a row are unstable, [n] of them already. *)
Definition stable (s : Session) : bool :=
  match s with Connected _ lasted => stableConnThreshold <=? lasted | _ => false end.
Fixpoint calm (n : nat) (ss : list Session) : Prop :=
  match ss with
  | [] => True
  | s :: ss' => if stable s then calm 0 ss' else (n < 31)%nat ∧ calm (S n) ss'
  end.
Definition real_session (s : Session) : Prop :=
  match s with DialFailed t | StreamFailed t => 0 <= t | Connected t l => 0 <= t ∧ 0 <= l end.

Definition backoff_at (n : nat) : exponentialBackoff := mkBackoff (5 * second) (5 * minute) n.

Lemma turn_stable oob n s : stable s = true → reconnect_turn oob (backoff_at n) s = (None, backoff_at 0).
Proof. destruct s as [| |t l]; [done..|]. cbn [stable]. intros Hs. unfold reconnect_turn. by rewrite Hs. Qed.
Lemma turn_unstable oob n s : stable s = false → (n < 31)%nat →
  reconnect_turn oob (backoff_at n) s = (Some (exact_wait n), backoff_at (S n)).
Proof.
  intros Hs Hn. unfold reconnect_turn, backoff_at. rewrite !Next_exact by done.
  destruct s as [| |t l]; [done..|]. cbn [stable] in Hs. by rewrite Hs.
Qed.

Lemma reconnect_time oob n ss : Forall real_session ss → calm n ss →
  5 * second * Z.of_nat (length ss) <= (RunWithReconnect oob (backoff_at n) ss).1.
Proof.
  intros Hr. revert n. induction Hr as [|s ss Hs Hr IH]; intros n Hc; [done|].
  cbn [RunWithReconnect calm length] in *. destruct (stable s) eqn:Hst.
  - rewrite turn_stable by done. specialize (IH 0%nat Hc).
    destruct (RunWithReconnect oob (backoff_at 0) ss) as [t b]. cbn [fst] in *.
    destruct s as [| |took lasted]; [done..|]. cbn [stable] in Hst. apply Z.leb_le in Hst.
    change (wait_time None) with 0. cbn [real_session session_time] in *.
    unfold stableConnThreshold, second, millisecond in *. lia.
  - destruct Hc as [Hn Hc]. rewrite turn_unstable by done. specialize (IH (S n) Hc).
    destruct (RunWithReconnect oob (backoff_at (S n)) ss) as [t b]. cbn [fst] in *.
    pose proof (exact_wait_bounds n). unfold wait_time. cbn [default from_option id].
    assert (0 <= session_time s) by (destruct s; cbn [real_session session_time] in *; lia).
    unfold second, millisecond in *. lia.
Qed.

(** C22: an agent does not storm the server: on every processor, as long as at most 31
    turns in a row fail to hold a connection, the loop dials no more often than every
    five seconds on average from any point, and the waits of a row of failures double
    from five seconds to five minutes. *)
Theorem no_reconnect_storm oob ss : Forall real_session ss → calm 0 ss →
  5 * second * Z.of_nat (length ss) <= (RunWithReconnect oob reconnect_backoff ss).1 ∧
  ∀ n s, (n < 31)%nat → stable s = false →
    reconnect_turn oob (backoff_at n) s = (Some (Z.min (5 * second * 2 ^ Z.of_nat n) (5 * minute)), backoff_at (S n)).
Proof.
  intros Hr Hc. split; [by apply (reconnect_time oob 0)|]. intros n s Hn Hs. by apply turn_unstable.
Qed.

Lemma no_reconnect_storm_witness :
  Forall real_session (replicate 20 (DialFailed (10 * second)) ++ [Connected second hour; StreamFailed 0]) ∧
  calm 0 (replicate 20 (DialFailed (10 * second)) ++ [Connected second hour; StreamFailed 0]) ∧
  5 * second * 22 <= (RunWithReconnect amd64_oob reconnect_backoff
     (replicate 20 (DialFailed (10 * second)) ++ [Connected second hour; StreamFailed 0])).1.
Proof.
  assert (Forall real_session (replicate 20 (DialFailed (10 * second)) ++ [Connected second hour; StreamFailed 0])) as Hr.
  { repeat constructor; vm_compute; discriminate. }
  assert (calm 0 (replicate 20 (DialFailed (10 * second)) ++ [Connected second hour; StreamFailed 0])) as Hc.
  { cbn. repeat split; lia. }
  split; [exact Hr|]. split; [exact Hc|]. apply (no_reconnect_storm amd64_oob _ Hr Hc).
Defined.

(** After 31 failures in a row, about two hours and ten minutes, the product is no
    [int64] any more: on amd64 it becomes negative and the loop does not wait at all,
    until a connection holds; on arm64 it stays at five minutes. *)
Lemma backoff_runs_out :
  forallb (λ n, let w k := (Next k (backoff_at n)).1 in (w amd64_oob <? 0) && (w arm64_oob =? 5 * minute))
    (seq 31 1100) = true ∧
  (∀ s, stable s = false → wait_time (reconnect_turn amd64_oob (backoff_at 31) s).1 = 0) ∧
  (RunWithReconnect amd64_oob reconnect_backoff (replicate 31 (DialFailed 0))).1 = 7815 * second.
Proof.
  split; [by vm_compute|]. split; [|by vm_compute].
  intros [| |t l] Hs; [by vm_compute..|]. cbn [stable] in Hs. unfold reconnect_turn. rewrite Hs. by vm_compute.
Qed.

(** ** The watchdog of the receiving half *)
Section Watchdog.
Context (timeout : duration) (Htimeout : 0 < timeout).

Lemma poll_latched n d now : (0 < n)%nat →
  poll n timeout true d now = if d <=? now then inl d else inr d.
Proof. destruct n; [lia|done]. Qed.

Lemma poll_unlatched n d now : now < d + Z.of_nat n * timeout →
  ∃ d', poll n timeout false d now = inr d' ∧ d <= d' ∧ now < d' ∧ d' <= Z.max d (now + timeout).
Proof.
  revert d. induction n as [|n IH]; intros d Hn; cbn [poll]; [exists d; split; [done|lia]|].
  destruct (Z.leb_spec d now) as [Hd|Hd]; [|exists d; split; [done|lia]].
  destruct (IH (d + timeout) ltac:(lia)) as (d' & -> & ? & ? & ?). exists d'. split; [done|lia].
Qed.

Lemma poll_fuel_enough d now : now < d + Z.of_nat (poll_fuel timeout d now) * timeout.
Proof.
  unfold poll_fuel. pose proof (Z.div_mod (now - d) timeout ltac:(lia)).
  pose proof (Z.mod_pos_bound (now - d) timeout Htimeout). nia.
Qed.

(** What one poll of the timer comes to. *)
Lemma poll_cases latched d now :
  (latched = true ∧ d <= now ∧ poll (poll_fuel timeout d now) timeout latched d now = inl d) ∨
  ∃ d', poll (poll_fuel timeout d now) timeout latched d now = inr d' ∧ d <= d' ∧ now < d' ∧
    d' <= Z.max d (now + timeout) ∧ (latched = true → d' = d).
Proof.
  destruct latched.
  - rewrite poll_latched by (unfold poll_fuel; lia). destruct (Z.leb_spec d now); [by left|].
    right. exists d. split; [done|lia].
  - right. destruct (poll_unlatched (poll_fuel timeout d now) d now (poll_fuel_enough d now)) as (d' & ? & ? & ? & ?).
    exists d'. done.
Qed.

(** The events come after [now], in order. *)
Fixpoint ordered (now : time) (evs : list (time * StreamEvent)) : Prop :=
  match evs with [] => True | (t, _) :: evs' => now <= t ∧ ordered t evs' end.

Lemma ordered_after now evs t e : ordered now evs → (t, e) ∈ evs → now <= t.
Proof.
  revert now. induction evs as [|[u f] evs IH]; intros now Ho Hin; [by apply not_elem_of_nil in Hin|].
  destruct Ho as [Hu Ho]. apply elem_of_cons in Hin as [[= -> ->]|Hin]; [done|]. specialize (IH u Ho Hin). lia.
Qed.

Lemma latched_disconnects horizon d evs limit : d <= limit → limit <= horizon →
  (∀ t e, (t, e) ∈ evs → is_frame e = true → t + timeout <= limit) →
  ∃ x, runRecvWatchdog timeout horizon d true evs = Some x ∧ x <= limit.
Proof.
  intros Hd Hh. revert d Hd. induction evs as [|[t e] evs IH]; intros d Hd Hf; cbn [runRecvWatchdog].
  - destruct (poll_cases true d horizon) as [(_ & _ & ->)|(d' & _ & _ & Hlt & _ & He)]; [by exists d|].
    specialize (He eq_refl). lia.
  - destruct (poll_cases true d t) as [(_ & _ & ->)|(d' & -> & _ & _ & _ & He)]; [by exists d|].
    rewrite (He eq_refl). cbn [orb]. apply IH.
    + destruct (is_frame e) eqn:Hfr; [|done]. apply (Hf t e); [by left|done].
    + intros u f Hin. apply Hf. by right.
Qed.

Lemma silence_disconnects horizon now d latched evs l f : d <= now + timeout → ordered now evs →
  (latched = true ∧ now <= l ∨ ∃ e, (l, e) ∈ evs ∧ latches e = true) →
  (∀ t e, (t, e) ∈ evs → is_frame e = true → t <= f) → Z.max l f + timeout <= horizon →
  ∃ x, runRecvWatchdog timeout horizon d latched evs = Some x ∧ x <= Z.max l f + timeout.
Proof.
  intros Hd Ho Hl Hf Hh. revert now d latched Hd Ho Hl. induction evs as [|[t e] evs IH]; intros now d latched Hd Ho Hl.
  - destruct Hl as [[-> Hl]|(e & Hin & _)]; [|by apply not_elem_of_nil in Hin].
    apply latched_disconnects; [lia|done|]. intros t e Hin. by apply not_elem_of_nil in Hin.
  - destruct latched.
    { assert (now <= l).
      { destruct Hl as [[_ Hl]|(g & Hin & _)]; [done|]. by eapply ordered_after. }
      apply latched_disconnects; [lia|done|]. intros u g Hin Hg. specialize (Hf u g Hin Hg). lia. }
    destruct Hl as [[? _]|(g & Hin & Hg)]; [done|].
    destruct Ho as [Ht Ho]. cbn [runRecvWatchdog].
    destruct (poll_cases false d t) as [(? & _)|(d' & -> & _ & _ & Hd' & _)]; [done|]. cbn [orb].
    assert ((if is_frame e then t + timeout else d') <= t + timeout) as Hnew by (destruct (is_frame e); lia).
    apply (IH (λ u h Hu, Hf u h (list_elem_of_further _ _ _ Hu)) t); [done|done|].
    apply elem_of_cons in Hin as [[= <- <-]|Hin]; [left; split; [done|lia]|right; by exists g].
Qed.

Lemma disconnect_needs horizon now d latched evs x : d <= now + timeout → ordered now evs →
  runRecvWatchdog timeout horizon d latched evs = Some x →
  d <= x ∧ (∀ t e, (t, e) ∈ evs → is_frame e = true → t < x → t + timeout <= x) ∧
  (latched = true ∨ ∃ l e, (l, e) ∈ evs ∧ latches e = true ∧ l <= x).
Proof.
  revert now d latched. induction evs as [|[t e] evs IH]; intros now d latched Hd Ho; cbn [runRecvWatchdog].
  - destruct (poll_cases latched d horizon) as [(-> & _ & ->)|(d' & -> & _)]; [intros [= <-]|done].
    split; [done|]. split; [|by left]. intros t e Hin. by apply not_elem_of_nil in Hin.
  - destruct Ho as [Ht Ho]. destruct (poll_cases latched d t) as [(-> & Hle & ->)|(d' & -> & Hdd & Hlt & Hmax & _)].
    + intros [= <-]. split; [done|]. split; [|by left]. intros u g Hin _ Hu.
      apply elem_of_cons in Hin as [[= -> ->]|Hin]; [lia|]. pose proof (ordered_after t evs u g Ho Hin). lia.
    + assert ((if is_frame e then t + timeout else d') <= t + timeout) as Hnew by (destruct (is_frame e); lia).
      intros Hx. destruct (IH t _ _ Hnew Ho Hx) as (Hge & Hfr & Hla).
      assert (t < x ∧ d <= x) as [? ?] by (destruct (is_frame e); lia).
      split; [done|]. split.
      * intros u g Hin Hg Hu. apply elem_of_cons in Hin as [[= -> ->]|Hin]; [|by apply (Hfr u g)].
        rewrite Hg in Hge. lia.
      * destruct Hla as [Hla|(l & g & Hin & Hg & Hl)]; [|right; exists l, g; split; [by right|done]].
        apply orb_true_iff in Hla as [->|He]; [by left|]. right. exists t, e. split; [by left|]. split; [done|lia].
Qed.
End Watchdog.

Lemma recv_timeout_pos c : 0 < recv_timeout c.
Proof. unfold recv_timeout. destruct (Z.leb_spec c 0); [done|lia]. Qed.

(** C21: a half-open stream is noticed, and only that: when the agent knows (at [l]) that
    the server sends keepalives and no frame comes after [f], the watchdog disconnects
    within the timeout of the later of the two, also when no frame ever came; and when
    it disconnects, the stream had been open and silent for the whole timeout before
    and the keepalives were known of, so a stream whose frames keep coming, or one of
    a server that sends none, is never given up. *)
Theorem half_open_noticed configured start horizon latched evs :
  let timeout := recv_timeout configured in
  ordered start evs →
  (∀ l f, (latched = true ∧ l = start ∨ ∃ e, (l, e) ∈ evs ∧ latches e = true) → start <= f →
     (∀ t e, (t, e) ∈ evs → is_frame e = true → t <= f) → Z.max l f + timeout <= horizon →
     ∃ x, recv_watchdog configured start horizon latched evs = Some x ∧ x <= Z.max l f + timeout) ∧
  (∀ x, recv_watchdog configured start horizon latched evs = Some x →
     start + timeout <= x ∧ (∀ t e, (t, e) ∈ evs → is_frame e = true → t < x → t + timeout <= x) ∧
     (latched = true ∨ ∃ l e, (l, e) ∈ evs ∧ latches e = true ∧ l <= x)).
Proof.
  intros timeout Ho. pose proof (recv_timeout_pos configured) as Hp. fold timeout in Hp. split.
  - intros l f Hl Hsf Hf Hh. apply (silence_disconnects timeout Hp horizon start (start + timeout) latched evs l f);
      [done|done| |done|done]. destruct Hl as [[? ->]|Hl]; [by left; split|by right].
  - intros x Hx. by apply (disconnect_needs timeout Hp horizon start (start + timeout) latched evs x).
Qed.

Lemma half_open_noticed_witness :
  let evs := [(3 * second, KeepaliveHeader)] in
  ordered 0 evs ∧ (∃ x, recv_watchdog 0 0 minute false evs = Some x ∧ x <= 3 * second + 30 * second) ∧
  (∀ x, recv_watchdog 0 0 minute false evs = Some x → 0 + recv_timeout 0 <= x).
Proof.
  intros evs. assert (ordered 0 evs) as Ho by (split; [by vm_compute|done]). split; [exact Ho|].
  destruct (half_open_noticed 0 0 minute false evs Ho) as [Hlive Hsafe]. split.
  - apply (Hlive (3 * second) 0).
    + right. exists KeepaliveHeader. split; [by left|done].
    + lia.
    + intros t e Hin. apply elem_of_cons in Hin as [[= -> ->]|Hin]; [done|by apply not_elem_of_nil in Hin].
    + by vm_compute.
  - intros x Hx. apply (Hsafe x Hx).
Defined.

(** *** An agent without a server that sends keepalives polls on for ever. *)
Lemma old_server_is_kept configured start horizon evs : ordered start evs →
  Forall (λ te, latches te.2 = false) evs → recv_watchdog configured start horizon false evs = None.
Proof.
  intros Ho Hl. destruct (recv_watchdog configured start horizon false evs) as [x|] eqn:Hx; [|done].
  destruct (disconnect_needs _ (recv_timeout_pos configured) horizon start _ false evs x ltac:(done) Ho Hx)
    as (_ & _ & [?|(l & e & Hin & He & _)]); [done|].
  rewrite Forall_forall in Hl. specialize (Hl _ Hin). cbn in Hl. congruence.
Qed.

(** ** Acknowledgements *)
Lemma omap_filter_some {A B} (f : A → option B) (l : list A) :
  omap f (filter (λ x, bool_decide (is_Some (f x))) l) = omap f l.
Proof.
  induction l as [|x l IH]; [done|]. rewrite filter_cons. cbn [omap list_omap].
  destruct (f x) as [y|] eqn:Hx.
  - rewrite decide_True by (by rewrite bool_decide_eq_true_2). cbn [omap list_omap]. rewrite Hx. by f_equal.
  - rewrite decide_False; [done|]. rewrite bool_decide_eq_false_2 by (by intros []). by intros [].
Qed.

Section Acks.
Context (gcm_seal : bytes → bytes → bytes → bytes).
Context (gcm_open : bytes → bytes → bytes → option bytes).
Context `{!GCM gcm_seal gcm_open}.
Context (marshal_batch : EventBatch → res bytes) (unmarshal : bytes → option EventBatch).
(** [protojson] reads back what it wrote. *)
Context (unmarshal_marshal : ∀ b d, marshal_batch b = Ok d → unmarshal d = Some b).
Context (goos : string) (n : bytes).

Definition spooled (rb : RingBuffer) : list EventBatch := omap unmarshal (contents gcm_open rb).
Definition acks_of (bs : list EventBatch) : list CommandAck := mjoin (eb_Acks <$> bs).
(** The acknowledgements the agent still owes. *)
Definition held_acks (c : GRPCClient) : list CommandAck := pendingAcks c ++ acks_of (spooled (cl_buffer c)).

(** The disk works and the batch fits without dropping another. *)
Definition room_for (rb : RingBuffer) (b : EventBatch) : Prop :=
  ∃ d, marshal_batch b = Ok d ∧ writable n rb d ∧ fits rb d.

Lemma acks_of_app bs bs' : acks_of (bs ++ bs') = acks_of bs ++ acks_of bs'.
Proof. unfold acks_of. by rewrite fmap_app, join_app. Qed.

Lemma bufferBatch_spec b c : wf gcm_open (cl_buffer c) → room_for (cl_buffer c) b →
  ∃ rb, bufferBatch gcm_seal marshal_batch (no_faults n) b c = (None, with_buffer rb c) ∧
    wf gcm_open rb ∧ spooled rb = spooled (cl_buffer c) ++ [b] ∧
    length (contents gcm_open rb) = S (length (contents gcm_open (cl_buffer c))).
Proof.
  intros Hw (d & Hd & Hwr & Hf). destruct (write_spec gcm_seal gcm_open n (cl_buffer c) d Hw Hwr)
    as (rb & k & E & Hw' & Hc & Hk & _). specialize (Hk Hf). subst k. rewrite drop_0 in Hc.
  exists rb. unfold bufferBatch. rewrite Hd, E. split; [done|]. split; [done|]. unfold spooled. rewrite Hc. split.
  - rewrite omap_app. cbn [omap list_omap]. by rewrite (unmarshal_marshal b d Hd).
  - rewrite length_app. cbn. lia.
Qed.

Lemma outgoing_acks b c : 
  eb_Acks (outgoing goos b c).1 ++ pendingAcks (outgoing goos b c).2 = eb_Acks b ++ pendingAcks c ∧
  cl_buffer (outgoing goos b c).2 = cl_buffer c ∧ connected (outgoing goos b c).2 = connected c ∧
  has_stream (outgoing goos b c).2 = has_stream c.
Proof. unfold outgoing. destruct (eb_Acks b) eqn:Hb; cbn; [by rewrite app_nil_r|done]. Qed.

(** No acknowledgement is lost or made up: with a working disk that has room, the
    agent reports no error, and what it holds afterwards, in its queue and its spool,
    together with what went up the stream, is what it held and was given before,
    whether it was connected or not and whether the send returned, failed or got
    stuck. *)
Theorem acks_are_kept o b c : wf gcm_open (cl_buffer c) → room_for (cl_buffer c) (outgoing goos b c).1 →
  let '(err, c', sent) := SendEvents gcm_seal marshal_batch goos (no_faults n) o b c in
  err = None ∧ wf gcm_open (cl_buffer c') ∧
  held_acks c' ++ acks_of sent ≡ₚ eb_Acks b ++ held_acks c ∧
  (sent = [] → spooled (cl_buffer c') = spooled (cl_buffer c) ++ [(outgoing goos b c).1]).
Proof.
  intros Hw Hr. unfold SendEvents. destruct (outgoing_acks b c) as (Ha & Hb & _).
  destruct (outgoing goos b c) as [b' c']. cbn [fst snd] in *.
  assert (∀ c2, cl_buffer c2 = cl_buffer c → pendingAcks c2 = pendingAcks c' →
    ∃ rb, bufferBatch gcm_seal marshal_batch (no_faults n) b' c2 = (None, with_buffer rb c2) ∧ wf gcm_open rb ∧
      held_acks (with_buffer rb c2) ++ [] ≡ₚ eb_Acks b ++ held_acks c ∧
      spooled rb = spooled (cl_buffer c) ++ [b']) as Hbuf.
  { intros c2 Hb2 Hp2. rewrite <-Hb2 in Hw, Hr.
    destruct (bufferBatch_spec b' c2 Hw Hr) as (rb & -> & Hw' & Hs & _).
    exists rb. split; [done|]. split; [done|]. rewrite Hb2 in Hs. split; [|done].
    unfold held_acks. cbn [with_buffer pendingAcks cl_buffer]. rewrite Hs, acks_of_app, Hp2, app_nil_r.
    unfold acks_of at 2. cbn. rewrite app_nil_r, (app_assoc (eb_Acks b)), <-Ha. solve_Permutation. }
  destruct (negb (connected c') || negb (has_stream c')).
  { destruct (Hbuf c' Hb eq_refl) as (rb & -> & ? & ? & ?). done. }
  destruct o as [|e|]; cbn [sendWithWatchdog].
  - split; [done|]. rewrite Hb. split; [done|]. split; [|done].
    unfold held_acks. rewrite Hb. unfold acks_of at 2. cbn. rewrite app_nil_r, (app_assoc (eb_Acks b)), <-Ha.
    solve_Permutation.
  - destruct (Hbuf (signalDisconnect c') Hb eq_refl) as (rb & -> & ? & ? & ?). done.
  - destruct (Hbuf (signalDisconnect (signalDisconnect c')) Hb eq_refl) as (rb & -> & ? & ? & ?). done.
Qed.
(** C33: what an agent did while it was cut off is known after it is back: results taken
    offline leave the queue with the next flush, which reports no error, and one
    connection that can send empties the spool, oldest batch first, with the results
    in the last batch, in the order in which the commands ended. *)
Theorem acks_reach_the_server o fuel m c :
  let results := mkEventBatch (cl_AgentID c) (batchPlatform goos) [] (pendingAcks c) in
  wf gcm_open (cl_buffer c) → connected c = false → pendingAcks c ≠ [] →
  room_for (cl_buffer c) results →
  (S (length (contents gcm_open (cl_buffer c))) <= m)%nat →
  (S (length (contents gcm_open (cl_buffer c))) < fuel * batch_size)%nat →
  let '(err, c1, _) := FlushAcks gcm_seal marshal_batch goos (no_faults n) o c in
  err = None ∧ pendingAcks c1 = [] ∧
  ∃ c2, drainBuffer gcm_open unmarshal (no_faults n) fuel (replicate m (Some true)) (open_connection c1) =
          Ret (c2, spooled (cl_buffer c) ++ [results]) ∧
    contents gcm_open (cl_buffer c2) = [] ∧ held_acks c2 = [].
Proof.
  intros results Hw Hc Hp Hr Hm Hf. unfold FlushAcks. destruct (pendingAcks c) as [|a acks] eqn:Hpa; [done|].
  unfold SendEvents, outgoing, drainAcks. cbn [eb_Acks eb_Platform eb_AgentId eb_Events].
  cbn [connected with_acks]. rewrite Hc. cbn [negb orb]. rewrite Hpa. fold results.
  destruct (bufferBatch_spec results (with_acks [] c) Hw Hr) as (rb & -> & Hw1 & Hs & Hl).
  split; [done|]. split; [done|]. cbn [with_acks cl_buffer] in Hs, Hl.
  destruct (drain_empties gcm_seal gcm_open n (λ raw, bool_decide (is_Some (unmarshal raw))) fuel m rb Hw1)
    as (rb2 & Hd & He); [lia|lia|].
  eexists. unfold drainBuffer. cbn [open_connection with_buffer cl_buffer with_acks]. rewrite Hd. split.
  - f_equal. f_equal. rewrite <-Hs. unfold spooled. apply omap_filter_some.
  - cbn [with_buffer cl_buffer pendingAcks held_acks]. rewrite He. split; [done|].
    unfold held_acks, spooled. cbn [with_buffer cl_buffer pendingAcks open_connection with_acks]. by rewrite He.
Qed.

(** *** When the disk fails *)
(** After a send that failed the results go back into the queue, in front; without a
    connection they are gone. *)
Lemma failed_send_requeues φ o b c e c' sent : connected c = true → has_stream c = true →
  SendEvents gcm_seal marshal_batch goos φ o b c = (Some e, c', sent) →
  pendingAcks c' = eb_Acks b ++ pendingAcks c ∧ sent = [] ∧ connected c' = false.
Proof.
  intros Hc Hs. unfold SendEvents. destruct (outgoing_acks b c) as (Ha & _ & Hc2 & Hs2).
  destruct (outgoing goos b c) as [b' c2]. cbn [fst snd] in *. rewrite Hc2, Hs2, Hc, Hs. cbn [negb orb].
  unfold bufferBatch.
  destruct o; cbn [sendWithWatchdog]; [done|..]; destruct (marshal_batch b') as [d|e'];
    cbn [signalDisconnect cl_buffer]; try destruct (write gcm_seal φ (cl_buffer c2) d) as [rb [e'|]];
    intros [= <- <- <-]; cbn; by rewrite Ha.
Qed.

Lemma offline_write_failure_loses_results φ o c e c' sent : connected c = false →
  FlushAcks gcm_seal marshal_batch goos φ o c = (Some e, c', sent) →
  pendingAcks c' = [] ∧ sent = [].
Proof.
  intros Hc. unfold FlushAcks. destruct (pendingAcks c) as [|a acks] eqn:Hp; [done|].
  unfold SendEvents, outgoing, drainAcks. cbn [eb_Acks eb_Platform eb_AgentId eb_Events connected with_acks].
  rewrite Hc. cbn [negb orb]. unfold bufferBatch. destruct (marshal_batch _) as [d|e'].
  - cbn [cl_buffer with_acks]. destruct (write gcm_seal φ (cl_buffer c) d) as [rb [e'|]]; [|done].
    by intros [= <- <- <-].
  - by intros [= <- <- <-].
Qed.
End Acks.

(** ** Addresses *)
(** The port is whatever follows the last colon, so an IPv6 address needs one. *)
Lemma extractHost_examples :
  extractHost "https://edr.example.com:8443/api" = "edr.example.com" ∧ extractHost "10.0.0.5" = "10.0.0.5" ∧
  extractHost "https://[2001:db8::1]:8443" = "[2001:db8::1]" ∧ extractHost "https://[2001:db8::1]/" = "[2001:db8:".
Proof. by vm_compute. Qed.

(** ** A batch that is dropped while the spool is drained *)
(** The drain reads its batches, and a full spool drops its oldest batch for a new one
    before they are acknowledged: the acknowledgement then removes a batch that was
    never sent. *)
Lemma write_during_drain_loses_a_batch :
  let rb0 := toy_empty None in
  let put rb d := (write toy_seal (no_faults toy_nonce) rb d).1 in
  let rb := put (put rb0 [1]) [2] in
  read_batch toy_open batch_size (no_faults []) rb = Ret [[1]; [2]] ∧
  (let during := put rb [3] in
   let after_send_of_1 := ack 1 (no_faults []) during in
   contents toy_open during = [[2]; [3]] ∧ contents toy_open after_send_of_1 = [[3]] ∧
   contents toy_open (ack 1 (no_faults []) after_send_of_1) = []).
Proof. by vm_compute. Qed.

(** ** Witnesses *)
#[export] Instance AckStatus_eq_dec : EqDecision AckStatus.
Proof. solve_decision. Defined.
#[export] Instance CommandAck_eq_dec : EqDecision CommandAck.
Proof. solve_decision. Defined.
#[export] Instance WirePlatform_eq_dec : EqDecision WirePlatform.
Proof. solve_decision. Defined.
#[export] Instance EventBatch_eq_dec : EqDecision EventBatch.
Proof. solve_decision. Defined.

#[export] Instance AckStatus_countable : Countable AckStatus.
Proof.
  refine (inj_countable' (λ s, match s with ACK_STATUS_UNSPECIFIED => 0 | ACK_STATUS_SUCCESS => 1
                                          | ACK_STATUS_FAILED => 2 | ACK_STATUS_PARTIAL => 3 end)
    (λ n, if n =? 0 then ACK_STATUS_UNSPECIFIED else if n =? 1 then ACK_STATUS_SUCCESS
          else if n =? 2 then ACK_STATUS_FAILED else ACK_STATUS_PARTIAL) _). by intros [].
Defined.
#[export] Instance CommandAck_countable : Countable CommandAck.
Proof.
  refine (inj_countable' (λ a, (ca_CommandId a, ca_Status a, ca_Error a, ca_Result a)) (λ '(i, s, e, r), mkCommandAck i s e r) _).
  by intros [].
Defined.
#[export] Instance WirePlatform_countable : Countable WirePlatform.
Proof.
  refine (inj_countable' (λ s, match s with PLATFORM_UNSPECIFIED => 0 | PLATFORM_WINDOWS => 1
                                          | PLATFORM_LINUX => 2 | PLATFORM_DARWIN => 3 end)
    (λ n, if n =? 0 then PLATFORM_UNSPECIFIED else if n =? 1 then PLATFORM_WINDOWS
          else if n =? 2 then PLATFORM_LINUX else PLATFORM_DARWIN) _). by intros [].
Defined.
#[export] Instance EventBatch_countable : Countable EventBatch.
Proof.
  refine (inj_countable' (λ b, (eb_AgentId b, eb_Platform b, eb_Events b, eb_Acks b))
    (λ '(i, p, e, a), mkEventBatch i p e a) _). by intros [].
Defined.

(** A text format of batches. *)
Definition toy_marshal (b : EventBatch) : res bytes := Ok [Z.pos (encode b)].
Definition toy_unmarshal (d : bytes) : option EventBatch :=
  match d with [Z.pos p] => decode p | _ => None end.

Lemma toy_roundtrip b d : toy_marshal b = Ok d → toy_unmarshal d = Some b.
Proof. intros [= <-]. apply decode_encode. Qed.

Definition toy_client : GRPCClient :=
  mkGRPCClient "a" false false false (toy_empty None)
    [mkCommandAck "u1" ACK_STATUS_SUCCESS "" ""; mkCommandAck "u2" ACK_STATUS_FAILED "denied" ""].

Lemma toy_room b : room_for toy_marshal toy_nonce (cl_buffer toy_client) b.
Proof. eexists. split; [reflexivity|]. split; [split; vm_compute; done|reflexivity]. Qed.

Lemma acks_are_kept_witness :
  wf toy_open (cl_buffer toy_client) ∧
  let '(err, c', sent) := SendEvents toy_seal toy_marshal "linux" (no_faults toy_nonce) SendStuck
    (mkEventBatch "a" PLATFORM_UNSPECIFIED [[1; 2]] []) (open_connection toy_client) in
  err = None ∧ wf toy_open (cl_buffer c') ∧
  held_acks toy_open toy_unmarshal c' ++ acks_of sent ≡ₚ [] ++ held_acks toy_open toy_unmarshal (open_connection toy_client) ∧
  (sent = [] → spooled toy_open toy_unmarshal (cl_buffer c') =
     spooled toy_open toy_unmarshal (cl_buffer (open_connection toy_client)) ++
     [(outgoing "linux" (mkEventBatch "a" PLATFORM_UNSPECIFIED [[1; 2]] []) (open_connection toy_client)).1]).
Proof.
  assert (wf toy_open (cl_buffer toy_client)) as Hw by (apply toy_empty_wf; done).
  split; [exact Hw|].
  apply (acks_are_kept toy_seal toy_open toy_marshal toy_unmarshal toy_roundtrip "linux" toy_nonce SendStuck
    (mkEventBatch "a" PLATFORM_UNSPECIFIED [[1; 2]] []) (open_connection toy_client) Hw).
  apply toy_room.
Defined.

Lemma acks_reach_the_server_witness :
  wf toy_open (cl_buffer toy_client) ∧ pendingAcks toy_client ≠ [] ∧
  let '(err, c1, _) := FlushAcks toy_seal toy_marshal "linux" (no_faults toy_nonce) SendOk toy_client in
  err = None ∧ pendingAcks c1 = [] ∧
  ∃ c2, drainBuffer toy_open toy_unmarshal (no_faults toy_nonce) 1 (replicate 1 (Some true)) (open_connection c1) =
          Ret (c2, [mkEventBatch "a" PLATFORM_LINUX [] (pendingAcks toy_client)]) ∧
    contents toy_open (cl_buffer c2) = [] ∧ held_acks toy_open toy_unmarshal c2 = [].
Proof.
  assert (wf toy_open (cl_buffer toy_client)) as Hw by (apply toy_empty_wf; done).
  assert (pendingAcks toy_client ≠ []) as Hp by discriminate.
  split; [exact Hw|]. split; [exact Hp|].
  apply (acks_reach_the_server toy_seal toy_open toy_marshal toy_unmarshal toy_roundtrip "linux" toy_nonce SendOk 1 1
    toy_client Hw eq_refl Hp).
  - apply toy_room.
  - vm_compute. lia.
  - vm_compute. lia.
Defined.
