(* ===== verification/Ingestion.v ===== *)
(** * Event ingestion

    [server/internal/ingestion/handler.go]: what the server makes of a batch of an
    agent.  Each event gets a type and a flat payload, is stored as a row and is
    published for detection; a removable device gets a row of its own; command
    results close their rows in [ResponseActions.v].

    The messages of [proto/agent/v1/events.proto] are records.  A payload that is
    kept as it came is its text, any other is the map that is marshalled.  The
    database and the broker are the environment, and so are new ids. *)

From Stdlib Require Import Ascii.
From S2P Require Import Prelude GoStrings Event Binary64 Digest ResponseActions Transport.

#[local] Open Scope string_scope.
#[local] Open Scope list_scope.
#[local] Open Scope Z_scope.

(** ** Messages *)
Inductive EventType :=
| EVENT_TYPE_UNSPECIFIED | EVENT_TYPE_PROCESS | EVENT_TYPE_FILE | EVENT_TYPE_NETWORK | EVENT_TYPE_LOG
| EVENT_TYPE_DNS | EVENT_TYPE_REGISTRY | EVENT_TYPE_AUTH | EVENT_TYPE_IMAGE_LOAD | EVENT_TYPE_SCRIPT.

Record FileHashes := mkFileHashes { h_Md5 : string; h_Sha1 : string; h_Sha256 : string }.
Record ThreatIntelHit := mkThreatIntelHit {
  ti_Matched : bool; ti_Source : string; ti_Category : string; ti_Confidence : Z }.

Inductive ProcessAction :=
| PROCESS_ACTION_UNSPECIFIED | PROCESS_ACTION_CREATE | PROCESS_ACTION_TERMINATE | PROCESS_ACTION_INJECT
| PROCESS_ACTION_HOLLOW.
Record ProcessEvent := mkProcessEvent {
  pe_Pid : Z; pe_Ppid : Z; pe_ProcessName : string; pe_CommandLine : string; pe_ImagePath : string;
  pe_Username : string; pe_Hashes : option FileHashes; pe_Action : ProcessAction; pe_EnvVars : list string;
  pe_OriginalFileName : string; pe_FileDescription : string; pe_ProductName : string; pe_CompanyName : string;
  pe_IntegrityLevel : string; pe_LogonId : string; pe_ParentName : string; pe_ParentImage : string;
  pe_ContainerId : string; pe_ContainerPrivileged : bool; pe_ContainerHostNetwork : bool }.

Inductive FileAction :=
| FILE_ACTION_UNSPECIFIED | FILE_ACTION_CREATE | FILE_ACTION_MODIFY | FILE_ACTION_DELETE | FILE_ACTION_RENAME
| FILE_ACTION_EXECUTE.
Record FileEvent := mkFileEvent {
  fe_Path : string; fe_OldPath : string; fe_Action : FileAction; fe_Hashes : option FileHashes; fe_Pid : Z;
  fe_ProcessName : string; fe_FileSize : Z; fe_YaraMatched : bool; fe_YaraRuleIds : list string }.

Inductive NetworkDirection :=
| NETWORK_DIRECTION_UNSPECIFIED | NETWORK_DIRECTION_INBOUND | NETWORK_DIRECTION_OUTBOUND.
Record NetworkEvent := mkNetworkEvent {
  ne_SrcIp : string; ne_SrcPort : Z; ne_DstIp : string; ne_DstPort : Z; ne_Protocol : string;
  ne_Direction : NetworkDirection; ne_BytesSent : Z; ne_BytesRecv : Z; ne_Pid : Z; ne_ProcessName : string;
  ne_Hostname : string; ne_IsEncrypted : bool; ne_CountryCode : string; ne_ThreatIntel : option ThreatIntelHit }.

Record DnsEvent := mkDnsEvent {
  de_Query : string; de_QueryType : string; de_Answers : list string; de_Pid : Z; de_ProcessName : string;
  de_IsSuspicious : bool }.

Inductive RegistryAction :=
| REGISTRY_ACTION_UNSPECIFIED | REGISTRY_ACTION_CREATE | REGISTRY_ACTION_MODIFY | REGISTRY_ACTION_DELETE
| REGISTRY_ACTION_QUERY.
Record RegistryEvent := mkRegistryEvent {
  re_KeyPath : string; re_ValueName : string; re_ValueData : string; re_Action : RegistryAction; re_Pid : Z;
  re_ProcessName : string }.

Inductive AuthAction :=
| AUTH_ACTION_UNSPECIFIED | AUTH_ACTION_LOGIN | AUTH_ACTION_LOGOUT | AUTH_ACTION_PRIVILEGE | AUTH_ACTION_FAILED
| AUTH_ACTION_SERVICE_TICKET.
Record AuthEvent := mkAuthEvent {
  ae_Username : string; ae_Action : AuthAction; ae_Success : bool; ae_SourceIp : string; ae_AuthMethod : string;
  ae_FailureReason : string; ae_LogonType : string; ae_EventId : Z; ae_TargetSpn : string;
  ae_TicketEncryptionType : string }.

Record ImageLoadEvent := mkImageLoadEvent {
  il_ImagePath : string; il_Pid : Z; il_ProcessName : string; il_Signed : bool; il_SignatureStatus : string;
  il_Signer : string; il_Hashes : option FileHashes }.

Record ScriptContentEvent := mkScriptContentEvent {
  sce_Engine : string; sce_Content : string; sce_Pid : Z; sce_ProcessName : string; sce_ContentHash : string }.

Inductive WirePayload :=
| PProcess (p : ProcessEvent) | PFile (f : FileEvent) | PNetwork (n : NetworkEvent) | PDns (d : DnsEvent)
| PRegistry (r : RegistryEvent) | PAuth (a : AuthEvent) | PImageLoad (i : ImageLoadEvent)
| PScript (s : ScriptContentEvent).

Record WireEvent := mkWireEvent {
  we_Id : string;
  we_Timestamp : option time;
  we_Type : EventType;
  we_Payload : option WirePayload
}.

(** [GetTimestamp().AsTime()] is the epoch for an event without one. *)
Definition as_time (e : WireEvent) : time := default 0 (we_Timestamp e).

Definition GetProcess (e : WireEvent) := match we_Payload e with Some (PProcess p) => Some p | _ => None end.
Definition GetFile (e : WireEvent) := match we_Payload e with Some (PFile p) => Some p | _ => None end.
Definition GetNetwork (e : WireEvent) := match we_Payload e with Some (PNetwork p) => Some p | _ => None end.
Definition GetDns (e : WireEvent) := match we_Payload e with Some (PDns p) => Some p | _ => None end.
Definition GetRegistry (e : WireEvent) := match we_Payload e with Some (PRegistry p) => Some p | _ => None end.
Definition GetAuth (e : WireEvent) := match we_Payload e with Some (PAuth p) => Some p | _ => None end.
Definition GetImageLoad (e : WireEvent) := match we_Payload e with Some (PImageLoad p) => Some p | _ => None end.
Definition GetScript (e : WireEvent) := match we_Payload e with Some (PScript p) => Some p | _ => None end.

(** ** Types *)
Definition eventTypeByIDPrefix : list (string * string) :=
  [("fim_change:", "file"); ("process_stats:", "process_stats"); ("process_block:", "process_block");
   ("memory:", "memory"); ("credential_access:", "credential_access"); ("host_integrity:", "host_integrity");
   ("create_remote_thread:", "create_remote_thread"); ("tls_handshake:", "tls_handshake");
   ("ps_module:", "ps_module"); ("pipe_created:", "pipe_created"); ("wmi_activity:", "wmi_activity");
   ("eventlog_cleared:", "eventlog_cleared"); ("service_installed:", "service_installed");
   ("device_event:", "device_event"); ("tamper:", "tamper")].

Definition eventTypeString (t : EventType) : string :=
  match t with
  | EVENT_TYPE_PROCESS => "process" | EVENT_TYPE_FILE => "file" | EVENT_TYPE_NETWORK => "network"
  | EVENT_TYPE_DNS => "dns" | EVENT_TYPE_REGISTRY => "registry" | EVENT_TYPE_AUTH => "auth"
  | EVENT_TYPE_IMAGE_LOAD => "image_load" | EVENT_TYPE_SCRIPT => "script"
  | EVENT_TYPE_UNSPECIFIED | EVENT_TYPE_LOG => ""
  end.

Definition promoteEventType (e : WireEvent) : string :=
  let t := eventTypeString (we_Type e) in
  if negb (String.eqb t "") then t
  else match List.find (λ m, has_prefix (we_Id e) m.1) eventTypeByIDPrefix with
       | Some m => m.2
       | None => ""
       end.

Definition all_types : list EventType :=
  [EVENT_TYPE_UNSPECIFIED; EVENT_TYPE_PROCESS; EVENT_TYPE_FILE; EVENT_TYPE_NETWORK; EVENT_TYPE_LOG; EVENT_TYPE_DNS;
   EVENT_TYPE_REGISTRY; EVENT_TYPE_AUTH; EVENT_TYPE_IMAGE_LOAD; EVENT_TYPE_SCRIPT].

(** Each type once, in the order of [sort.Strings]. *)
Fixpoint insert_type (x : string) (l : list string) : list string :=
  match l with
  | [] => [x]
  | y :: l' => if String.eqb x y then l else if String.leb x y then x :: l else y :: insert_type x l'
  end.
Definition producibleEventTypes : list string :=
  foldr insert_type [] (filter (λ t, t ≠ "") (eventTypeString <$> all_types) ++ eventTypeByIDPrefix.*2).

Definition platformString (p : WirePlatform) : string :=
  match p with
  | PLATFORM_LINUX => "linux" | PLATFORM_WINDOWS => "windows" | PLATFORM_DARWIN => "darwin"
  | PLATFORM_UNSPECIFIED => "unknown"
  end.

Definition registryActionString (a : RegistryAction) : string :=
  match a with
  | REGISTRY_ACTION_CREATE => "create" | REGISTRY_ACTION_MODIFY => "modify" | REGISTRY_ACTION_DELETE => "delete"
  | REGISTRY_ACTION_QUERY => "query" | REGISTRY_ACTION_UNSPECIFIED => "unknown"
  end.
Definition authActionString (a : AuthAction) : string :=
  match a with
  | AUTH_ACTION_LOGIN => "login" | AUTH_ACTION_LOGOUT => "logout" | AUTH_ACTION_PRIVILEGE => "privilege"
  | AUTH_ACTION_FAILED => "failed" | AUTH_ACTION_SERVICE_TICKET => "kerberos_service_ticket"
  | AUTH_ACTION_UNSPECIFIED => "unknown"
  end.
Definition processActionString (a : ProcessAction) : string :=
  match a with
  | PROCESS_ACTION_CREATE => "create" | PROCESS_ACTION_TERMINATE => "terminate" | PROCESS_ACTION_INJECT => "inject"
  | PROCESS_ACTION_HOLLOW => "hollow" | PROCESS_ACTION_UNSPECIFIED => "existing"
  end.
Definition fileActionString (a : FileAction) : string :=
  match a with
  | FILE_ACTION_UNSPECIFIED => "FILE_ACTION_UNSPECIFIED" | FILE_ACTION_CREATE => "FILE_ACTION_CREATE"
  | FILE_ACTION_MODIFY => "FILE_ACTION_MODIFY" | FILE_ACTION_DELETE => "FILE_ACTION_DELETE"
  | FILE_ACTION_RENAME => "FILE_ACTION_RENAME" | FILE_ACTION_EXECUTE => "FILE_ACTION_EXECUTE"
  end.

(** ** Payloads *)
(** Entries that are only there for a value that is not empty. *)
Definition opt_str (k v : string) : event := if String.eqb v "" then [] else [(k, VStr v)].
Definition opt_true (k : string) (b : bool) : event := if b then [(k, VBool true)] else [].
Definition strs (l : list string) : value := VList (VStr <$> l).

Definition addHashes (h : option FileHashes) : event :=
  match h with
  | None => []
  | Some h => opt_str "sha256" (h_Sha256 h) ++ opt_str "md5" (h_Md5 h) ++ opt_str "sha1" (h_Sha1 h)
  end.

Definition network_payload (n : NetworkEvent) : event :=
  [("src_ip", VStr (ne_SrcIp n)); ("src_port", VInt (ne_SrcPort n)); ("dst_ip", VStr (ne_DstIp n));
   ("dst_port", VInt (ne_DstPort n)); ("protocol", VStr (ne_Protocol n));
   ("direction", VStr (match ne_Direction n with NETWORK_DIRECTION_INBOUND => "inbound" | _ => "outbound" end));
   ("bytes_sent", VInt (ne_BytesSent n)); ("bytes_recv", VInt (ne_BytesRecv n)); ("pid", VInt (ne_Pid n));
   ("process_name", VStr (ne_ProcessName n)); ("state", VStr "ESTABLISHED")]
  ++ opt_str "hostname" (ne_Hostname n) ++ opt_str "country_code" (ne_CountryCode n)
  ++ opt_true "is_encrypted" (ne_IsEncrypted n)
  ++ match ne_ThreatIntel n with
     | Some ti =>
         if ti_Matched ti
         then [("threat_intel_matched", VBool true); ("threat_intel_source", VStr (ti_Source ti));
               ("threat_intel_category", VStr (ti_Category ti)); ("threat_intel_confidence", VInt (ti_Confidence ti))]
         else []
     | None => []
     end.

Definition process_payload (p : ProcessEvent) : event :=
  [("process_name", VStr (pe_ProcessName p)); ("pid", VInt (pe_Pid p)); ("ppid", VInt (pe_Ppid p));
   ("command_line", VStr (pe_CommandLine p)); ("image_path", VStr (pe_ImagePath p));
   ("username", VStr (pe_Username p)); ("action", VStr (processActionString (pe_Action p)))]
  ++ addHashes (pe_Hashes p)
  ++ opt_str "original_file_name" (pe_OriginalFileName p) ++ opt_str "file_description" (pe_FileDescription p)
  ++ opt_str "product_name" (pe_ProductName p) ++ opt_str "company_name" (pe_CompanyName p)
  ++ opt_str "integrity_level" (pe_IntegrityLevel p) ++ opt_str "logon_id" (pe_LogonId p)
  ++ opt_str "parent_name" (pe_ParentName p) ++ opt_str "parent_image" (pe_ParentImage p)
  ++ (if String.eqb (pe_ContainerId p) "" then []
      else [("container_id", VStr (pe_ContainerId p)); ("privileged", VBool (pe_ContainerPrivileged p));
            ("host_network", VBool (pe_ContainerHostNetwork p))])
  ++ match pe_EnvVars p with
     | [] => []
     | env => [("env_vars", strs env); ("environment", VStr (join " " env))]
     end.

Definition file_payload (f : FileEvent) : event :=
  [("path", VStr (fe_Path f)); ("old_path", VStr (fe_OldPath f)); ("operation", VStr (fileActionString (fe_Action f)));
   ("process_name", VStr (fe_ProcessName f)); ("pid", VInt (fe_Pid f)); ("file_size", VInt (fe_FileSize f))]
  ++ addHashes (fe_Hashes f)
  ++ (if fe_YaraMatched f
      then ("yara_matched", VBool true) :: match fe_YaraRuleIds f with [] => [] | ids => [("yara_rule_ids", strs ids)] end
      else []).

Definition dns_payload (d : DnsEvent) : event :=
  [("query", VStr (de_Query d)); ("query_type", VStr (de_QueryType d));
   ("answers", match de_Answers d with [] => VNil | l => strs l end);
   ("process_name", VStr (de_ProcessName d)); ("pid", VInt (de_Pid d))]
  ++ opt_true "is_suspicious" (de_IsSuspicious d).

Definition registry_payload (r : RegistryEvent) : event :=
  [("key_path", VStr (re_KeyPath r)); ("keyPath", VStr (re_KeyPath r)); ("value_name", VStr (re_ValueName r));
   ("value_data", VStr (re_ValueData r)); ("operation", VStr (registryActionString (re_Action r)));
   ("pid", VInt (re_Pid r)); ("process_name", VStr (re_ProcessName r))].

Definition auth_payload (a : AuthEvent) : event :=
  [("username", VStr (ae_Username a)); ("action", VStr (authActionString (ae_Action a)));
   ("success", VBool (ae_Success a)); ("source_ip", VStr (ae_SourceIp a)); ("auth_method", VStr (ae_AuthMethod a));
   ("failure_reason", VStr (ae_FailureReason a))]
  ++ opt_str "logon_type" (ae_LogonType a)
  ++ (if ae_EventId a =? 0 then [] else [("event_id", VInt (ae_EventId a))])
  ++ opt_str "target_spn" (ae_TargetSpn a) ++ opt_str "ticket_encryption_type" (ae_TicketEncryptionType a).

Definition image_load_payload (i : ImageLoadEvent) : event :=
  [("image_loaded", VStr (il_ImagePath i)); ("process_name", VStr (il_ProcessName i)); ("pid", VInt (il_Pid i));
   ("signed", VBool (il_Signed i)); ("signature_status", VStr (il_SignatureStatus i)); ("signer", VStr (il_Signer i))]
  ++ addHashes (il_Hashes i).

Definition script_payload (s : ScriptContentEvent) : event :=
  [("script_block_text", VStr (sce_Content s)); ("engine", VStr (sce_Engine s));
   ("process_name", VStr (sce_ProcessName s)); ("pid", VInt (sce_Pid s)); ("content_hash", VStr (sce_ContentHash s))].

(** A payload: a text that is passed on, a map that is marshalled, or the message
    itself, marshalled. *)
Inductive raw_data := RawText (s : string) | RawObject (m : event) | RawMessage (e : WireEvent).

(** [SplitN(id, ":", 3)[2]]. *)
Definition third_part (id : string) : option string :=
  match cut (chr 58) id with
  | None => None
  | Some (_, rest) => match cut (chr 58) rest with None => None | Some (_, p) => Some p end
  end.

(** The prefixes that the default case decodes, in its order. *)
Definition decoded_prefixes : list string :=
  ["process_stats:"; "process_block:"; "memory:"; "credential_access:"; "host_integrity:"; "create_remote_thread:";
   "tls_handshake:"; "ps_module:"; "wmi_activity:"; "pipe_created:"; "eventlog_cleared:"; "service_installed:";
   "device_event:"; "tamper:"].

Definition of_message {A} (m : option A) (f : A → event) : raw_data :=
  RawObject (match m with Some x => f x | None => [] end).

Section Normalize.
(** The object that [json.Unmarshal] reads from a text. *)
Context (json_object : string → option event).

Definition fim_payload (e : WireEvent) : option event :=
  if has_prefix (we_Id e) "fim_change:"
  then match third_part (we_Id e) with Some p => json_object p | None => None end
  else None.

Definition normalizeEventData (e : WireEvent) : raw_data :=
  match we_Type e with
  | EVENT_TYPE_NETWORK => of_message (GetNetwork e) network_payload
  | EVENT_TYPE_PROCESS => of_message (GetProcess e) process_payload
  | EVENT_TYPE_FILE =>
      match fim_payload e with
      | Some m => RawObject m
      | None => of_message (GetFile e) file_payload
      end
  | EVENT_TYPE_DNS => of_message (GetDns e) dns_payload
  | EVENT_TYPE_REGISTRY => of_message (GetRegistry e) registry_payload
  | EVENT_TYPE_AUTH => of_message (GetAuth e) auth_payload
  | EVENT_TYPE_IMAGE_LOAD => of_message (GetImageLoad e) image_load_payload
  | EVENT_TYPE_SCRIPT => of_message (GetScript e) script_payload
  | EVENT_TYPE_UNSPECIFIED | EVENT_TYPE_LOG =>
      match omap (λ p, if has_prefix (we_Id e) p then third_part (we_Id e) else None) decoded_prefixes with
      | p :: _ => RawText p
      | [] => RawMessage e
      end
  end.

(** ** Events on their way *)
Record preppedEvent := mkPrepped {
  pp_evtType : string; pp_evtTime : time; pp_raw : raw_data; pp_evt : WireEvent; pp_idx : nat; pp_eventID : string }.

(** [IsZero] is never true of a time of a message. *)
Definition prep (mint : nat → string) (i : nat) (e : WireEvent) : option preppedEvent :=
  let t := promoteEventType e in
  if String.eqb t "" then None
  else Some (mkPrepped t (as_time e) (normalizeEventData e) e i (mint i)).

Definition prep_all (mint : nat → string) (es : list WireEvent) : list preppedEvent :=
  omap (λ ie, prep mint ie.1 ie.2) (imap pair es).

(** *** The database *)
Definition eventInsertChunk : nat := 500.

(** [bulk], [single]: whether the database takes a statement; one of many rows is
    atomic. *)
Record EventsDB := mkEventsDB { db_bulk : list preppedEvent → bool; db_single : preppedEvent → bool }.

(** The rows that one chunk adds. *)
Definition insert_chunk (db : EventsDB) (chunk : list preppedEvent) : list preppedEvent :=
  if match chunk with [] => true | _ => db_bulk db chunk end then chunk
  else filter (λ p, db_single db p = true) chunk.

Fixpoint insert_loop (fuel : nat) (db : EventsDB) (prepped : list preppedEvent) : list preppedEvent :=
  match fuel, prepped with
  | S f, _ :: _ => insert_chunk db (take eventInsertChunk prepped) ++ insert_loop f db (drop eventInsertChunk prepped)
  | _, _ => []
  end.

(** A turn of the loop takes an event or more. *)
Definition insertEvents (db : EventsDB) (prepped : list preppedEvent) : list preppedEvent :=
  insert_loop (length prepped) db prepped.

(** The statement of a chunk and the number of its arguments. *)
Definition row_text (n : Z) : string :=
  "($" +:+ itoa (n + 1) +:+ ", $" +:+ itoa (n + 2) +:+ "::uuid, $" +:+ itoa (n + 3) +:+ ", $" +:+ itoa (n + 4)
  +:+ "::jsonb, $" +:+ itoa (n + 5) +:+ "::uuid)".
Inductive sql_arg := ArgTime (t : time) | ArgText (s : string) | ArgJson (r : raw_data).
Definition row_args (agentID : string) (p : preppedEvent) : list sql_arg :=
  [ArgTime (pp_evtTime p); ArgText agentID; ArgText (pp_evtType p); ArgJson (pp_raw p); ArgText (pp_eventID p)].
Definition buildEventsInsert (agentID : string) (chunk : list preppedEvent) : string * list sql_arg :=
  ("INSERT INTO events (time, agent_id, event_type, raw_data, event_id) VALUES "
   +:+ join "," (imap (λ i _, row_text (Z.of_nat i * 5)) chunk),
   chunk ≫= row_args agentID).

(** *** Devices *)
Record deviceEventRow := mkDeviceRow {
  dr_evtTime : time; dr_action : string; dr_deviceID : string; dr_deviceName : option string;
  dr_deviceType : option string; dr_vendorID : option string; dr_productID : option string; dr_raw : raw_data }.

Definition nullIfEmpty (s : string) : option string := if String.eqb s "" then None else Some s.

(** The text field of a decoded object: its value, and whether it could be decoded. *)
Definition text_field (m : event) (k : string) : option string :=
  match get_fold (rev m) k with Some (VStr s) => Some s | Some VNil | None => Some "" | _ => None end.

Definition object_of (r : raw_data) : option event :=
  match r with RawText s => json_object s | RawObject m => Some m | RawMessage _ => None end.

Definition parseDeviceEvent (r : raw_data) (t : time) : option deviceEventRow :=
  m ← object_of r;
  action ← text_field m "action"; id ← text_field m "device_id"; name ← text_field m "name";
  vendor ← text_field m "vendor_id"; product ← text_field m "product_id"; type ← text_field m "type";
  if negb (String.eqb action "connected" || String.eqb action "disconnected") || String.eqb id "" then None
  else Some (mkDeviceRow t action id (nullIfEmpty name) (nullIfEmpty type) (nullIfEmpty vendor)
               (nullIfEmpty product) r).

Definition insertDeviceEvents (takes : deviceEventRow → bool) (prepped : list preppedEvent) : list deviceEventRow :=
  filter (λ r, takes r = true)
    (omap (λ p, if String.eqb (pp_evtType p) "device_event" then parseDeviceEvent (pp_raw p) (pp_evtTime p) else None)
       prepped).

(** *** The broker *)
Record NormalizedEvent := mkNormalized {
  nv_AgentID : string; nv_Hostname : string; nv_Platform : string; nv_Type : string; nv_EventID : string;
  nv_Timestamp : time; nv_Data : raw_data }.

Record message := mkMessage { msg_topic : string; msg_event : NormalizedEvent; msg_id : option string }.

Definition nul : string := String (chr 0) "".

Definition eventMsgID (agentID evtType : string) (e : WireEvent) (idx : nat) : string :=
  if negb (String.eqb (we_Id e) "") then
    let sum := sha256_sum (bytes_of (agentID +:+ nul +:+ evtType +:+ nul +:+ we_Id e)) in
    agentID +:+ "-" +:+ evtType +:+ "-" +:+ hex_encode (take 8 sum)
  else agentID +:+ "-" +:+ evtType +:+ "-" +:+ itoa (default 0 (we_Timestamp e) / second) +:+ "-"
       +:+ itoa (Z.of_nat idx).

(** A text that is no JSON cannot be put into the message. *)
Definition marshalEventPayload (valid_json : string → bool) (hostnames : gmap string string)
    (agentID platform evtType eventID : string) (e : WireEvent) : option NormalizedEvent :=
  let data := normalizeEventData e in
  if match data with RawText s => valid_json s | _ => true end
  then Some (mkNormalized agentID (default "" (hostnames !! agentID)) platform evtType eventID (as_time e) data)
  else None.

(** [js]: JetStream is there and takes the message; [plain]: NATS does. *)
Definition publishEvent (js plain : bool) (topic : string) (data : NormalizedEvent) (id : string) : list message :=
  if js then [mkMessage topic data (Some id)] else if plain then [mkMessage topic data None] else [].

(** ** A batch *)
Record IngestEnv := mkIngestEnv {
  in_mint : nat → string;
  in_db : EventsDB;
  in_takes_device : deviceEventRow → bool;
  in_js : nat → bool;
  in_plain : nat → bool;
  in_valid_json : string → bool
}.

Record Stores := mkStores {
  st_actions : gmap string ResponseAction;
  st_rows : list preppedEvent;
  st_devices : list deviceEventRow;
  st_messages : list message
}.

Definition publish_prepped (v : IngestEnv) (hostnames : gmap string string) (agentID platform : string)
    (p : preppedEvent) : list message :=
  match marshalEventPayload (in_valid_json v) hostnames agentID platform (pp_evtType p) (pp_eventID p) (pp_evt p) with
  | None => []
  | Some data =>
      publishEvent (in_js v (pp_idx p)) (in_plain v (pp_idx p)) ("events." +:+ agentID +:+ "." +:+ pp_evtType p) data
        (eventMsgID agentID (pp_evtType p) (pp_evt p) (pp_idx p))
  end.

Definition publishEventBatch (v : IngestEnv) (hostnames : gmap string string) (agentID : string)
    (platform : WirePlatform) (events : list WireEvent) (acks : list CommandAck) (s : Stores) : Stores :=
  let prepped := prep_all (in_mint v) events in
  mkStores (applyCommandAcks agentID acks (st_actions s))
    (st_rows s ++ insertEvents (in_db v) prepped)
    (st_devices s ++ insertDeviceEvents (in_takes_device v) prepped)
    (st_messages s ++ (prepped ≫= publish_prepped v hostnames agentID (platformString platform))).
End Normalize.

(** ** What detection decodes *)
(** A number of JSON as [float64], by its shortest decimal. *)
Definition shortest (z : Z) : Z * Z :=
  let r := ftrunc (fint z) in
  let same j := let m := (r + 10 ^ j / 2) / 10 ^ j in
                if feq (fint (m * 10 ^ j)) (fint z) then Some (m, j) else None in
  match omap same (rev (seqZ 0 20)) with x :: _ => x | [] => (z, 0) end.
Definition decoded_number (z : Z) : value :=
  if z =? 0 then VFloat 0 0
  else let '(m, e) := shortest (Z.abs z) in VFloat (if z <? 0 then - m else m) e.

Example decoded_numbers :
  decoded_number 443 = VFloat 443 0 ∧ decoded_number 5000 = VFloat 5 3 ∧ decoded_number (-120) = VFloat (-12) 1 ∧
  decoded_number (2 ^ 53 + 1) = VFloat 9007199254740992 0 ∧ decoded_number (2 ^ 64 - 1) = VFloat 18446744073709552 3.
Proof. by vm_compute. Qed.

Definition decoded (v : value) : value := match v with VInt z => decoded_number z | _ => v end.
Definition decoded_event (m : event) : event := (λ p : string * value, (p.1, decoded p.2)) <$> m.
