(* ===== verification/IngestionProofs.v ===== *)
(** * Event ingestion: theorems

    What a sensor encodes in the id of an event is decoded under its type; a bad event
    costs nothing but itself; every row is published under its own id; and the fields
    of an event reach the rules as the endpoint wrote them. *)

From Stdlib Require Import Ascii.
From S2P Require Import Prelude GoStrings Event Binary64 Digest ResponseActions Transport.
From S2P Require Import CommandLine CommandLineProofs SigmaFields SigmaFieldsProofs Detection EnginePipeline Ingestion.

#[local] Open Scope string_scope.
#[local] Open Scope list_scope.
#[local] Open Scope Z_scope.

(** ** Findings in the id of an event *)
Definition colonless (s : string) : Prop := contains_char (Ascii.eqb (chr 58)) s = false.

(** The id a sensor gives its finding: the prefix, a fresh id and the finding as JSON. *)
Definition encoded_id (prefix uuid json : string) : string := prefix +:+ uuid +:+ ":" +:+ json.

Lemma third_part_of kind uuid json : colonless kind → colonless uuid →
  third_part (kind +:+ ":" +:+ uuid +:+ ":" +:+ json) = Some json.
Proof.
  intros Hk Hu. unfold third_part. change (":" +:+ uuid +:+ ":" +:+ json) with (String (chr 58) (uuid +:+ String (chr 58) json)).
  rewrite cut_clean by done. by rewrite cut_clean.
Qed.

Section Ingest.
Context (json_object : string → option event).

(** C37: what a sensor finds arrives as it was written: a finding encoded in the id of an
    event is decoded, whatever its JSON, under the type of its prefix, which is one
    the table of types and the decoder agree on; a change of a watched file arrives as
    the object its JSON stands for. *)
Theorem findings_survive_the_wire mint i ts uuid json : colonless uuid →
  (∀ prefix type, (prefix, type) ∈ eventTypeByIDPrefix → prefix ≠ "fim_change:" →
     let e := mkWireEvent (encoded_id prefix uuid json) ts EVENT_TYPE_LOG None in
     prep json_object mint i e = Some (mkPrepped type (default 0 ts) (RawText json) e i (mint i))) ∧
  (∀ m, json_object json = Some m →
     let e := mkWireEvent (encoded_id "fim_change:" uuid json) ts EVENT_TYPE_FILE None in
     prep json_object mint i e = Some (mkPrepped "file" (default 0 ts) (RawObject m) e i (mint i))).
Proof.
  intros Hu. split.
  - intros prefix type Hin Hfim e.
    assert (∃ kind, colonless kind ∧ prefix = kind +:+ ":") as (kind & Hk & Hp).
    { exists (trim_suffix prefix ":"). revert Hin. unfold eventTypeByIDPrefix. rewrite !elem_of_cons. intros Hin.
      repeat destruct Hin as [[= -> ->]|Hin]; [split; reflexivity..|by apply not_elem_of_nil in Hin]. }
    assert (third_part (we_Id e) = Some json) as H3.
    { cbn [we_Id e]. unfold encoded_id. rewrite Hp, <-append_assoc. by apply third_part_of. }
    clear Hk Hp. subst e. revert Hin. unfold eventTypeByIDPrefix. rewrite !elem_of_cons. intros Hin.
    repeat destruct Hin as [[= -> ->]|Hin]; [done|..|by apply not_elem_of_nil in Hin];
      unfold prep, normalizeEventData, promoteEventType; cbn [we_Type we_Id] in *;
      cbn -[third_part] in H3 |- *; by rewrite H3.
  - intros m Hm e. assert (third_part (we_Id e) = Some json) as H3.
    { cbn [we_Id e]. unfold encoded_id. change ("fim_change:" +:+ uuid +:+ ":" +:+ json) with ("fim_change" +:+ ":" +:+ uuid +:+ ":" +:+ json).
      by apply third_part_of. }
    subst e. unfold prep, normalizeEventData, promoteEventType, fim_payload; cbn [we_Type we_Id] in *.
    cbn -[third_part] in H3 |- *. by rewrite H3, Hm.
Qed.

(** ** Rows *)
Lemma filter_forallb {A} (f : A → bool) (l : list A) : forallb f l = true → filter (λ x, f x = true) l = l.
Proof.
  induction l as [|x l IH]; [done|]. cbn [forallb]. intros [Hx Hl]%andb_true_iff.
  rewrite filter_cons_True by done. by rewrite IH.
Qed.

(** A database that refuses a statement exactly when it refuses one of its rows. *)
Definition honest (db : EventsDB) : Prop := ∀ chunk, chunk ≠ [] → db_bulk db chunk = forallb (db_single db) chunk.

Lemma insert_chunk_each db chunk : honest db → insert_chunk db chunk = filter (λ p, db_single db p = true) chunk.
Proof.
  intros Hdb. unfold insert_chunk. destruct chunk as [|p chunk]; [done|]. rewrite Hdb by done.
  destruct (forallb _ _) eqn:Hf; [|done]. by rewrite filter_forallb.
Qed.

Lemma insert_loop_each db n prepped : honest db → (length prepped <= n)%nat →
  insert_loop n db prepped = filter (λ p, db_single db p = true) prepped.
Proof.
  intros Hdb. revert prepped. induction n as [|n IH]; intros prepped Hn; (destruct prepped as [|p prepped]; [done|]).
  - cbn [length] in Hn. lia.
  - cbn [insert_loop]. rewrite insert_chunk_each by done. rewrite IH, <-filter_app, take_drop; [done|].
    rewrite length_drop. unfold eventInsertChunk. cbn [length] in *. lia.
Qed.

(** Inserting in bulk stores what inserting one by one would: the rows the database
    takes, all of them, in order, however many there are and wherever the ones it
    refuses stand. *)
Theorem bad_events_are_isolated db prepped : honest db →
  insertEvents db prepped = filter (λ p, db_single db p = true) prepped.
Proof.
  intros Hdb. apply (insert_loop_each db (length prepped)); done.
Qed.

Lemma statement_bounds agentID chunk : (length chunk <= eventInsertChunk)%nat →
  length (buildEventsInsert agentID chunk).2 = (5 * length chunk)%nat ∧
  (length (buildEventsInsert agentID chunk).2 < Z.to_nat 65535)%nat.
Proof.
  intros Hc. assert (length (buildEventsInsert agentID chunk).2 = 5 * length chunk)%nat as ->.
  { unfold buildEventsInsert. cbn [snd]. clear Hc. induction chunk as [|p chunk IH]; [done|].
    rewrite bind_cons, length_app, IH. cbn. lia. }
  unfold eventInsertChunk in Hc. lia.
Qed.

(** ** A batch *)
Lemma prep_evt mint i e p : prep json_object mint i e = Some p →
  pp_evt p = e ∧ pp_evtType p = promoteEventType e ∧ pp_raw p = normalizeEventData json_object e ∧ pp_idx p = i ∧
  pp_eventID p = mint i ∧ promoteEventType e ≠ "".
Proof.
  unfold prep. destruct (String.eqb_spec (promoteEventType e) ""); [done|]. by intros [= <-].
Qed.

Lemma prep_all_events mint es :
  pp_evt <$> prep_all json_object mint es = filter (λ e, promoteEventType e ≠ "") es.
Proof.
  unfold prep_all.
  assert (∀ k, pp_evt <$> omap (λ ie, prep json_object mint ie.1 ie.2) (imap (λ i e, ((k + i)%nat, e)) es) =
    filter (λ e, promoteEventType e ≠ "") es) as H.
  { induction es as [|e es IH]; intros k; [done|]. cbn [imap omap list_omap].
    rewrite filter_cons. cbn [fst snd]. specialize (IH (S k)).
    erewrite (imap_ext _ (λ i e, ((S k + i)%nat, e)) es) by (intros; cbn; f_equal; lia).
    unfold prep at 1. destruct (String.eqb_spec (promoteEventType e) "") as [->|Hne].
    - rewrite decide_False by (intros []; done). apply IH.
    - rewrite decide_True by done. cbn [fmap list_fmap pp_evt]. by f_equal. }
  apply (H 0%nat).
Qed.

Lemma prep_all_from mint es p : p ∈ prep_all json_object mint es →
  pp_evtType p = promoteEventType (pp_evt p) ∧ pp_raw p = normalizeEventData json_object (pp_evt p) ∧
  pp_eventID p = mint (pp_idx p).
Proof.
  unfold prep_all. intros Hp. apply list_elem_of_omap in Hp as ([i e] & _ & Hp). cbn [fst snd] in Hp.
  apply prep_evt in Hp as (<- & -> & -> & -> & -> & _). done.
Qed.

(** The broker takes every event and the findings are JSON. *)
Definition broker_takes (v : IngestEnv) (es : list WireEvent) : Prop :=
  (∀ i, in_js v i = true ∨ in_plain v i = true) ∧
  (∀ e s, e ∈ es → normalizeEventData json_object e = RawText s → in_valid_json v s = true).

(** What a message and a row have in common. *)
Definition of_row (p : preppedEvent) := (pp_eventID p, pp_evtType p, pp_raw p).
Definition of_published (m : message) := (nv_EventID (msg_event m), nv_Type (msg_event m), nv_Data (msg_event m)).

Lemma publish_one v hostnames agentID platform mint es p : broker_takes v es → p ∈ prep_all json_object mint es →
  of_published <$> publish_prepped json_object v hostnames agentID platform p = [of_row p].
Proof.
  intros [Hb Hj] Hp. destruct (prep_all_from _ _ _ Hp) as (_ & Hr & _).
  assert (pp_evt p ∈ es) as Hin.
  { assert (pp_evt p ∈ pp_evt <$> prep_all json_object mint es) as H by (apply list_elem_of_fmap; by exists p).
    rewrite prep_all_events in H. by apply list_elem_of_filter in H as [_ H]. }
  unfold publish_prepped, marshalEventPayload. specialize (Hj (pp_evt p)).
  assert ((match normalizeEventData json_object (pp_evt p) with RawText s => in_valid_json v s | _ => true end) = true) as ->.
  { destruct (normalizeEventData json_object (pp_evt p)) eqn:Hn; [by apply Hj|done..]. }
  unfold publishEvent, of_row, of_published. rewrite Hr.
  destruct (in_js v (pp_idx p)) eqn:Hjs; [done|]. destruct (Hb (pp_idx p)) as [?| ->]; [congruence|done].
Qed.

(** C36: an event is stored and published once and as the same thing: of a batch, the
    events that have a type, all of them and in their order, are published under the
    id, the type and the payload of their row; the rows are those of them that the
    database takes; and the results of commands that came along are applied. *)
Theorem rows_are_published v hostnames agentID platform es acks :
  honest (in_db v) → broker_takes v es →
  let s' := publishEventBatch json_object v hostnames agentID platform es acks (mkStores ∅ [] [] []) in
  let prepped := prep_all json_object (in_mint v) es in
  of_published <$> st_messages s' = of_row <$> prepped ∧
  pp_evt <$> prepped = filter (λ e, promoteEventType e ≠ "") es ∧
  st_rows s' = filter (λ p, db_single (in_db v) p = true) prepped ∧
  ∀ t, st_actions (publishEventBatch json_object v hostnames agentID platform es acks (mkStores t [] [] [])) =
       applyCommandAcks agentID acks t.
Proof.
  intros Hdb Hb s' prepped. split; [|split; [apply prep_all_events|split; [|done]]].
  - cbn [s' publishEventBatch st_messages app]. fold prepped.
    assert (∀ p, p ∈ prepped → of_published <$> publish_prepped json_object v hostnames agentID (platformString platform) p = [of_row p]) as H.
    { intros p Hp. by apply (publish_one v _ _ _ (in_mint v) es). }
    clear -H. induction prepped as [|p ps IH]; [done|]. rewrite bind_cons, fmap_app, H by by left.
    cbn [fmap list_fmap app]. f_equal. apply IH. intros q Hq. apply H. by right.
  - cbn [s' publishEventBatch st_rows app]. by apply bad_events_are_isolated.
Qed.

(** ** Retransmission *)
(** An agent sends a batch again when it does not know whether it arrived: the broker
    gets the same ids and can drop the second copy, the table gets new rows. *)
Lemma retransmission v v' hostnames agentID platform e s : we_Id e ≠ "" → promoteEventType e ≠ "" →
  (∀ i, in_js v i = true ∧ in_js v' i = true) → honest (in_db v) → (∀ p, db_single (in_db v) p = true) →
  in_db v' = in_db v → in_valid_json v' = in_valid_json v →
  let send v s := publishEventBatch json_object v hostnames agentID platform [e] [] s in
  length (st_rows (send v' (send v s))) = S (S (length (st_rows s))) ∧
  ∃ ms, (length ms <= 1)%nat ∧
    msg_id <$> st_messages (send v' (send v s)) = (msg_id <$> st_messages s) ++ ms ++ ms.
Proof.
  intros Hid Ht Hjs Hdb Hall Hdb' Hvj send. unfold send, publishEventBatch. cbn [st_rows st_messages].
  unfold prep_all. cbn [imap omap list_omap fst snd]. unfold prep. apply String.eqb_neq in Ht, Hid. rewrite Ht.
  split.
  - rewrite Hdb'. rewrite !bad_events_are_isolated by done. rewrite !filter_cons_True by done.
    rewrite !length_app. cbn. lia.
  - cbn [bind_cons mbind list_bind]. rewrite !app_nil_r. unfold publish_prepped, marshalEventPayload. cbn [pp_evt pp_evtType pp_eventID pp_idx].
    rewrite Hvj. destruct (match normalizeEventData json_object e with RawText s0 => in_valid_json v s0 | _ => true end).
    + unfold publishEvent. destruct (Hjs 0%nat) as [-> ->].
      exists [Some (eventMsgID agentID (promoteEventType e) e 0)]. split; [done|]. rewrite !fmap_app. by rewrite <-app_assoc.
    + exists []. split; [cbn; lia|]. by rewrite !app_nil_r.
Qed.
End Ingest.

(** ** Fields *)
Lemma keys_app (a b : event) : keys (a ++ b) = keys a ++ keys b.
Proof. unfold keys. apply fmap_app. Qed.

Lemma opt_str_keys k v : keys (opt_str k v) `sublist_of` [k].
Proof. unfold opt_str. destruct (String.eqb v ""); [apply sublist_nil_l|done]. Qed.
Lemma opt_true_keys k b : keys (opt_true k b) `sublist_of` [k].
Proof. unfold opt_true. destruct b; [done|apply sublist_nil_l]. Qed.
Lemma hash_keys h : keys (addHashes h) `sublist_of` ["sha256"; "md5"; "sha1"].
Proof.
  destruct h as [h|]; [|apply sublist_nil_l]. unfold addHashes. rewrite !keys_app.
  apply (sublist_app _ ["sha256"] _ ["md5"; "sha1"]); [apply opt_str_keys|].
  apply (sublist_app _ ["md5"] _ ["sha1"]); apply opt_str_keys.
Qed.
Lemma if_keys (b : bool) (m : event) l : keys m `sublist_of` l → keys (if b then [] else m) `sublist_of` l.
Proof. destruct b; [intros; apply sublist_nil_l|done]. Qed.

Lemma threat_intel_keys o :
  keys (match o with
        | Some ti => if ti_Matched ti
            then [("threat_intel_matched", VBool true); ("threat_intel_source", VStr (ti_Source ti));
                  ("threat_intel_category", VStr (ti_Category ti)); ("threat_intel_confidence", VInt (ti_Confidence ti))]
            else []
        | None => [] end)
  `sublist_of` ["threat_intel_matched"; "threat_intel_source"; "threat_intel_category"; "threat_intel_confidence"].
Proof. destruct o as [h|]; [destruct (ti_Matched h); [done|]|]; apply sublist_nil_l. Qed.
Lemma environment_keys vars :
  keys (match vars with
        | [] => []
        | s :: l => [("env_vars", strs (s :: l)); ("environment", VStr (join " " (s :: l)))]
        end)
  `sublist_of` ["env_vars"; "environment"].
Proof. destruct vars; [apply sublist_nil_l|done]. Qed.
Lemma yara_keys (b : bool) rules :
  keys (if b then ("yara_matched", VBool true) :: match rules with
        | [] => []
        | s :: l => [("yara_rule_ids", strs (s :: l))]
        end else [])
  `sublist_of` ["yara_matched"; "yara_rule_ids"].
Proof. destruct b; [|apply sublist_nil_l]. cbn. apply sublist_skip. destruct rules; [apply sublist_nil_l|done]. Qed.

Lemma keys_within (m : event) l : keys m `sublist_of` l → NoDup l → NoDup (keys m).
Proof. intros Hs Hl. by eapply sublist_NoDup. Qed.

(** Collect the keys there can be, part by part; they are distinct. *)
Ltac key_part :=
  first [apply opt_str_keys | apply opt_true_keys | apply hash_keys | apply threat_intel_keys | apply environment_keys
        | apply yara_keys | apply if_keys; reflexivity | reflexivity].
Ltac distinct_keys :=
  eapply keys_within;
    [repeat (rewrite keys_app; eapply sublist_app; [key_part|]); key_part
    |by apply (bool_decide_eq_true_1 _); vm_compute].

Lemma payload_keys_distinct :
  (∀ n, NoDup (keys (network_payload n))) ∧ (∀ p, NoDup (keys (process_payload p))) ∧
  (∀ f, NoDup (keys (file_payload f))) ∧ (∀ d, NoDup (keys (dns_payload d))) ∧
  (∀ r, NoDup (keys (registry_payload r))) ∧ (∀ a, NoDup (keys (auth_payload a))) ∧
  (∀ i, NoDup (keys (image_load_payload i))) ∧ (∀ s, NoDup (keys (script_payload s))).
Proof.
  split_and!; intros x; unfold network_payload, process_payload, file_payload, dns_payload, registry_payload,
    auth_payload, image_load_payload, script_payload; distinct_keys.
Qed.

(** *** Nothing is nested *)
Definition scalar (p : string * value) : bool := match p.2 with VMap _ => false | _ => true end.

Lemma opt_str_scalar k v : forallb scalar (opt_str k v) = true.
Proof. unfold opt_str. by destruct (String.eqb v ""). Qed.
Lemma opt_true_scalar k b : forallb scalar (opt_true k b) = true.
Proof. by destruct b. Qed.
Lemma hashes_scalar h : forallb scalar (addHashes h) = true.
Proof. destruct h as [h|]; [|done]. unfold addHashes. by rewrite !forallb_app, !opt_str_scalar. Qed.

Ltac scalar_parts :=
  rewrite ?forallb_app, ?hashes_scalar, ?opt_str_scalar, ?opt_true_scalar;
  repeat case_match; done.

Lemma payload_scalar :
  (∀ n, forallb scalar (network_payload n) = true) ∧ (∀ p, forallb scalar (process_payload p) = true) ∧
  (∀ f, forallb scalar (file_payload f) = true) ∧ (∀ d, forallb scalar (dns_payload d) = true) ∧
  (∀ r, forallb scalar (registry_payload r) = true) ∧ (∀ a, forallb scalar (auth_payload a) = true) ∧
  (∀ i, forallb scalar (image_load_payload i) = true) ∧ (∀ s, forallb scalar (script_payload s) = true).
Proof.
  split_and!; intros x; unfold network_payload, process_payload, file_payload, dns_payload, registry_payload,
    auth_payload, image_load_payload, script_payload; scalar_parts.
Qed.

(** *** Merging *)
Lemma get_merge (flat sub : event) k : NoDup (keys sub) →
  get (merge flat sub) k = match get sub k with Some v => Some v | None => get flat k end.
Proof.
  unfold merge. revert flat. induction sub as [|[j v] sub IH]; intros flat Hnd; [done|].
  cbn [keys fmap list_fmap fst] in Hnd. apply NoDup_cons in Hnd as [Hj Hnd]. cbn [foldl fst snd get]. rewrite IH by done.
  destruct (String.eqb_spec j k) as [->|Hne].
  - apply get_None_keys in Hj. rewrite Hj. apply get_set_same.
  - by rewrite get_set_other.
Qed.

Lemma flat_payload m : forallb scalar m = true → payload_of m = m.
Proof.
  intros Hs. assert (∀ k, get_map m k = None) as H.
  { intros k. unfold get_map. destruct (get m k) as [v|] eqn:Hg; [|done].
    apply get_Some_elem in Hg. rewrite forallb_forall in Hs. apply list_elem_of_In in Hg. specialize (Hs _ Hg).
    by destruct v. }
  unfold payload_of, first_map. cbn [omap list_omap]. by rewrite !H.
Qed.

Lemma keys_decoded m : keys (decoded_event m) = keys m.
Proof. unfold keys, decoded_event. rewrite <-list_fmap_compose. by apply list_fmap_ext. Qed.

Lemma get_decoded m k : get (decoded_event m) k = decoded <$> get m k.
Proof.
  induction m as [|[j v] m IH]; [done|]. cbn [decoded_event fmap list_fmap get fst snd].
  destruct (String.eqb j k); [done|apply IH].
Qed.

Lemma decoded_scalar m : forallb scalar m = true → forallb scalar (decoded_event m) = true.
Proof.
  unfold decoded_event. induction m as [|[j v] m IH]; [done|]. cbn [fmap list_fmap forallb fst snd].
  intros [Hv Hm]%andb_true_iff. apply andb_true_iff. split; [|by apply IH].
  unfold scalar, decoded, decoded_number in *. destruct v; try done. cbn [snd].
  destruct (z =? 0); [done|]. by destruct (shortest _).
Qed.

(** *** What the rules read of a message *)
Lemma get_app {A} (l l' : list (string * A)) k :
  get (l ++ l') k = match get l k with Some x => Some x | None => get l' k end.
Proof. induction l as [|[k0 x] l IH]; [done|]. cbn [app get]. by destruct (String.eqb k0 k). Qed.

Lemma get_opt_str k k' s : k' ≠ k → get (opt_str k' s) k = None.
Proof. unfold opt_str. intros H%String.eqb_neq. destruct (String.eqb s ""); cbn [get]; by rewrite ?H. Qed.

Lemma get_opt_str_same k s : s ≠ "" → get (opt_str k s) k = Some (VStr s).
Proof. unfold opt_str. intros H%String.eqb_neq. rewrite H. cbn [get]. by rewrite String.eqb_refl. Qed.

Lemma get_hashes h k : k ∉ ["sha256"; "md5"; "sha1"] → get (addHashes h) k = None.
Proof.
  intros Hk. destruct h as [h|]; [|done]. unfold addHashes.
  by rewrite !get_app, !get_opt_str by set_solver.
Qed.

(** The names under which Sigma rules read a message, with the values of the endpoint
    that the message carries. *)
Definition file_hash_fields (h : option FileHashes) : list (string * value) :=
  match h with
  | Some h => opt_str "sha256" (h_Sha256 h) ++ opt_str "md5" (h_Md5 h) ++ opt_str "sha1" (h_Sha1 h)
  | None => []
  end.

Definition rule_fields (p : WirePayload) : list (string * value) :=
  match p with
  | PProcess p =>
      [("ProcessName", VStr (pe_ProcessName p)); ("ProcessId", VInt (pe_Pid p));
       ("ParentProcessId", VInt (pe_Ppid p)); ("User", VStr (pe_Username p))]
      ++ (if String.eqb (pe_ImagePath p) "" then []
          else [("Image", VStr (if contains_char is_separator (pe_ImagePath p) then pe_ImagePath p
                                else "\" +:+ pe_ImagePath p))])
      ++ file_hash_fields (pe_Hashes p)
      ++ opt_str "OriginalFileName" (pe_OriginalFileName p) ++ opt_str "Description" (pe_FileDescription p)
      ++ opt_str "Product" (pe_ProductName p) ++ opt_str "Company" (pe_CompanyName p)
      ++ opt_str "IntegrityLevel" (pe_IntegrityLevel p) ++ opt_str "LogonId" (pe_LogonId p)
  | PFile f =>
      [("TargetFilename", VStr (fe_Path f)); ("FilePath", VStr (fe_Path f)); ("old_path", VStr (fe_OldPath f));
       ("ProcessName", VStr (fe_ProcessName f)); ("ProcessId", VInt (fe_Pid f)); ("file_size", VInt (fe_FileSize f))]
      ++ file_hash_fields (fe_Hashes f)
  | PNetwork n =>
      [("SourceIp", VStr (ne_SrcIp n)); ("SourcePort", VInt (ne_SrcPort n)); ("DestinationIp", VStr (ne_DstIp n));
       ("DestinationPort", VInt (ne_DstPort n)); ("Protocol", VStr (ne_Protocol n));
       ("ProcessName", VStr (ne_ProcessName n)); ("ProcessId", VInt (ne_Pid n));
       ("bytes_sent", VInt (ne_BytesSent n)); ("bytes_recv", VInt (ne_BytesRecv n))]
      ++ opt_str "hostname" (ne_Hostname n) ++ opt_str "country_code" (ne_CountryCode n)
  | PDns d =>
      [("QueryName", VStr (de_Query d)); ("QueryType", VStr (de_QueryType d)); ("record_type", VStr (de_QueryType d));
       ("ProcessName", VStr (de_ProcessName d)); ("ProcessId", VInt (de_Pid d));
       ("answers", match de_Answers d with [] => VNil | l => VList (VStr <$> l) end)]
  | PRegistry r =>
      [("Details", VStr (re_ValueData r)); ("ProcessName", VStr (re_ProcessName r)); ("ProcessId", VInt (re_Pid r));
       ("Operation", VStr (match re_Action r with
                           | REGISTRY_ACTION_CREATE => "create" | REGISTRY_ACTION_MODIFY => "modify"
                           | REGISTRY_ACTION_DELETE => "delete" | REGISTRY_ACTION_QUERY => "query"
                           | REGISTRY_ACTION_UNSPECIFIED => "unknown" end))]
      ++ (if String.eqb (re_KeyPath r) "" || String.eqb (re_ValueName r) "" then []
          else [("TargetObject", VStr (re_KeyPath r +:+ "\" +:+ re_ValueName r))])
  | PAuth a =>
      [("User", VStr (ae_Username a)); ("SubjectUserName", VStr (ae_Username a)); ("success", VBool (ae_Success a));
       ("source_ip", VStr (ae_SourceIp a)); ("auth_method", VStr (ae_AuthMethod a));
       ("failure_reason", VStr (ae_FailureReason a));
       ("Operation", VStr (match ae_Action a with
                           | AUTH_ACTION_LOGIN => "login" | AUTH_ACTION_LOGOUT => "logout"
                           | AUTH_ACTION_PRIVILEGE => "privilege" | AUTH_ACTION_FAILED => "failed"
                           | AUTH_ACTION_SERVICE_TICKET => "kerberos_service_ticket"
                           | AUTH_ACTION_UNSPECIFIED => "unknown" end))]
      ++ opt_str "LogonType" (ae_LogonType a) ++ opt_str "target_spn" (ae_TargetSpn a)
  | PImageLoad i =>
      [("ImageLoaded", VStr (il_ImagePath i)); ("Signed", VBool (il_Signed i));
       ("SignatureStatus", VStr (il_SignatureStatus i)); ("Signer", VStr (il_Signer i));
       ("Signature", VStr (il_Signer i)); ("ProcessName", VStr (il_ProcessName i)); ("ProcessId", VInt (il_Pid i))]
      ++ file_hash_fields (il_Hashes i)
  | PScript s =>
      [("ScriptBlockText", VStr (sce_Content s)); ("engine", VStr (sce_Engine s));
       ("ProcessName", VStr (sce_ProcessName s)); ("ProcessId", VInt (sce_Pid s));
       ("content_hash", VStr (sce_ContentHash s))]
  end.

(** A message of the type of its payload that is no report of the file watcher. *)
Definition typed (e : WireEvent) (p : WirePayload) : Prop :=
  we_Payload e = Some p ∧ has_prefix (we_Id e) "fim_change:" = false ∧
  we_Type e = match p with
              | PProcess _ => EVENT_TYPE_PROCESS | PFile _ => EVENT_TYPE_FILE | PNetwork _ => EVENT_TYPE_NETWORK
              | PDns _ => EVENT_TYPE_DNS | PRegistry _ => EVENT_TYPE_REGISTRY | PAuth _ => EVENT_TYPE_AUTH
              | PImageLoad _ => EVENT_TYPE_IMAGE_LOAD | PScript _ => EVENT_TYPE_SCRIPT
              end.

Definition payload_map (p : WirePayload) : event :=
  match p with
  | PProcess p => process_payload p | PFile f => file_payload f | PNetwork n => network_payload n
  | PDns d => dns_payload d | PRegistry r => registry_payload r | PAuth a => auth_payload a
  | PImageLoad i => image_load_payload i | PScript s => script_payload s
  end.

Lemma typed_payload json_object e p : typed e p →
  normalizeEventData json_object e = RawObject (payload_map p) ∧ fim_payload json_object e = None.
Proof.
  intros (Hp & Hf & Ht). assert (fim_payload json_object e = None) as Hfim by (unfold fim_payload; by rewrite Hf).
  split; [|done]. unfold normalizeEventData. rewrite Ht, Hfim.
  destruct p; unfold GetProcess, GetFile, GetNetwork, GetDns, GetRegistry, GetAuth, GetImageLoad, GetScript;
    by rewrite Hp.
Qed.

Section Read.
Context (is_print : Z → bool) (order : list (string * list string)) (Horder : order ≡ₚ aliases) (v : Envelope).
Context (m : event) (Hnd : NoDup (keys m)) (Hs : forallb scalar m = true).

Abbreviation flat := (FlatMap is_print order (mkEventEnvelope v (Some (decoded_event m)))).

Lemma get_arrived k :
  get (merge (envelope_fields v) (payload_of (decoded_event m))) k =
  match get m k with Some x => Some (decoded x) | None => get (envelope_fields v) k end.
Proof.
  rewrite flat_payload by by apply decoded_scalar. rewrite get_merge by by rewrite keys_decoded.
  rewrite get_decoded. by destruct (get m k).
Qed.

(** Its own name. *)
Lemma reads_own k x : get m k = Some x → k ∉ ["Image"; "ParentImage"; "TargetObject"] → k ∉ cmdlineKeys →
  get flat k = Some (decoded x).
Proof.
  intros Hx Hk Hc. unfold FlatMap, mergeProtoEvent. cbn [ev_Data envelope]. apply pass_keeps_fields; [done..|].
  by rewrite get_arrived, Hx.
Qed.

Definition not_metadata (ks : list string) : bool :=
  forallb (λ k, bool_decide (k ∉ ["agent_id"; "hostname"; "platform"; "type"])) ks.

Lemma get_no_metadata k ks : not_metadata ks = true → k ∈ ks →
  get (merge (envelope_fields v) (payload_of (decoded_event m))) k = decoded <$> get m k.
Proof.
  unfold not_metadata. rewrite forallb_forall. intros H Hk%list_elem_of_In. specialize (H k Hk).
  apply bool_decide_eq_true_1 in H. rewrite get_arrived. destruct (get m k); [done|].
  unfold envelope_fields. cbn [get]. by repeat (rewrite (proj2 (String.eqb_neq _ k)) by set_solver).
Qed.

Lemma arrived_agree ks x : not_metadata ks = true → Forall (λ k, get m k = None ∨ get m k = Some x) ks →
  Forall (λ k, get (merge (envelope_fields v) (payload_of (decoded_event m))) k = None ∨
    get (merge (envelope_fields v) (payload_of (decoded_event m))) k = Some (decoded x)) ks.
Proof.
  intros Hks H. rewrite Forall_forall in H |- *. intros k Hk. rewrite (get_no_metadata k ks Hks Hk).
  destruct (H k Hk) as [-> | ->]; auto.
Qed.

Lemma arrived_some ks x : not_metadata ks = true → Exists (λ k, get m k = Some x) ks →
  Exists (λ k, get (merge (envelope_fields v) (payload_of (decoded_event m))) k = Some (decoded x)) ks.
Proof.
  intros Hks (k & Hk & H)%Exists_exists. apply Exists_exists. exists k. split; [done|].
  by rewrite (get_no_metadata k ks Hks Hk), H.
Qed.

(** Another name. *)
Lemma reads_alias t x : plain_alias t && not_metadata (t :: sources t) = true → get m t = None →
  Forall (λ k, get m k = None ∨ get m k = Some x) (sources t) → Exists (λ k, get m k = Some x) (sources t) →
  get flat t = Some (decoded x).
Proof.
  intros [Hp Hm]%andb_true_iff Hn Hall Hex. unfold FlatMap, mergeProtoEvent. cbn [ev_Data envelope].
  assert (not_metadata (sources t) = true) as Hm' by (unfold not_metadata in *; by apply andb_true_iff in Hm as [_ ?]).
  apply pass_alias; [done|done| |by apply arrived_agree|by apply arrived_some].
  rewrite (get_no_metadata t _ Hm) by by left. by rewrite Hn.
Qed.

Lemma reads_image n : n ≠ "" → get m "Image" = None → get m "imagePath" = None →
  get m "image_path" = Some (VStr n) →
  get flat "Image" = Some (VStr (if contains_char is_separator n then n else "\" +:+ n)).
Proof.
  intros Hn H1 H2 H3. unfold FlatMap, mergeProtoEvent. cbn [ev_Data envelope].
  assert (sources "Image" = ["imagePath"; "image_path"]) as Hso by (vm_compute; reflexivity).
  apply image_aliased; [done| |done| |]; rewrite ?Hso.
  - by rewrite get_arrived, H1.
  - apply (arrived_agree ["imagePath"; "image_path"] (VStr n)); [reflexivity|].
    constructor; [by left|]. constructor; [by right|constructor].
  - apply (arrived_some ["imagePath"; "image_path"] (VStr n)); [reflexivity|]. right. by left.
Qed.

Lemma reads_registry kp vn : kp ≠ "" → vn ≠ "" → get m "key_path" = Some (VStr kp) →
  get m "value_name" = Some (VStr vn) → get flat "TargetObject" = Some (VStr (kp +:+ "\" +:+ vn)).
Proof.
  intros Hk Hv H1 H2. unfold FlatMap, mergeProtoEvent. cbn [ev_Data envelope].
  by apply registry_value_named; [| | |rewrite get_arrived, H1|rewrite get_arrived, H2].
Qed.

Lemma reads_command c : get m "command_line" = Some (VStr c) → get m "commandLine" = None →
  get m "CommandLine" = None → get m mark = None →
  ∃ s, get flat "CommandLine" = Some (VStr s) ∧ has_prefix s c = true.
Proof.
  intros H1 H2 H3 H4. unfold FlatMap, mergeProtoEvent. cbn [ev_Data envelope].
  apply command_line_extended; [done|by rewrite get_arrived, ?H1, ?H2, ?H3, ?H4..|].
  unfold first_text, str_or_empty, get_str, cmdlineKeys. cbn [fmap list_fmap].
  rewrite !get_arrived, H1, H2, H3. cbn. by destruct (String.eqb_spec c "").
Qed.
End Read.

Lemma payload_flat p : NoDup (keys (payload_map p)) ∧ forallb scalar (payload_map p) = true.
Proof.
  destruct payload_keys_distinct as (K1 & K2 & K3 & K4 & K5 & K6 & K7 & K8).
  destruct payload_scalar as (S1 & S2 & S3 & S4 & S5 & S6 & S7 & S8).
  destruct p; cbn [payload_map]; auto.
Qed.

Lemma Forall_opt_str (P : string * value → Prop) k s : (s ≠ "" → P (k, VStr s)) → Forall P (opt_str k s).
Proof.
  intros H. unfold opt_str. destruct (String.eqb_spec s ""); [constructor|]. constructor; [auto|constructor].
Qed.

Lemma get_not_listed (l : event) ks k : keys l `sublist_of` ks → k ∉ ks → get l k = None.
Proof.
  intros Hl Hk. apply get_None_keys. intros Hin. apply Hk. by eapply sublist_subseteq in Hl; apply Hl.
Qed.

(** Read an entry of a payload, part by part. *)
Ltac entry :=
  unfold payload_map, network_payload, process_payload, file_payload, dns_payload, registry_payload, auth_payload,
    image_load_payload, script_payload;
  cbn [app get String.eqb Ascii.eqb Bool.eqb];
  rewrite ?get_app, ?get_opt_str_same by assumption; rewrite ?get_opt_str by discriminate;
  rewrite ?get_hashes by (apply (bool_decide_eq_true_1 _); vm_compute; reflexivity);
  repeat (erewrite get_not_listed; [|key_part|apply (bool_decide_eq_true_1 _); vm_compute; reflexivity]);
  reflexivity.

(** An entry stands under its own name. *)
Ltac own := apply reads_own; [apply payload_flat|apply payload_flat|entry
  |apply (bool_decide_eq_true_1 _); vm_compute; reflexivity|apply (bool_decide_eq_true_1 _); vm_compute; reflexivity].

(** An entry is given under another name by the aliases. *)
Ltac aliased :=
  match goal with
  | |- get _ ?t = Some _ =>
      let l := eval vm_compute in (sources t) in
      let H := fresh in assert (sources t = l) as H by (vm_compute; reflexivity);
      apply reads_alias; [done|apply payload_flat|apply payload_flat|vm_compute; reflexivity|entry
        |rewrite H; repeat (apply Forall_cons_2 || apply Forall_nil_2); first [left; entry; fail|right; entry]
        |rewrite H; repeat first [left; entry; fail|right]]
  end.

Lemma hashes_read is_print order v p h : order ≡ₚ aliases →
  (∀ k x, get (addHashes h) k = Some x → get (payload_map p) k = Some x) →
  Forall (λ kx, get (FlatMap is_print order (mkEventEnvelope v (Some (decoded_event (payload_map p))))) kx.1 =
    Some (decoded kx.2)) (file_hash_fields h).
Proof.
  intros Ho Hh. destruct h as [h|]; [|constructor]. unfold file_hash_fields.
  repeat apply Forall_app_2; apply Forall_opt_str; intros Hne; cbn [fst snd];
    (apply reads_own; [apply payload_flat|apply payload_flat|apply Hh
      |apply (bool_decide_eq_true_1 _); vm_compute; reflexivity|apply (bool_decide_eq_true_1 _); vm_compute; reflexivity]);
    unfold addHashes; rewrite ?get_app, ?get_opt_str_same by done; rewrite ?get_opt_str by done;
    rewrite ?get_opt_str_same by done; reflexivity.
Qed.

Lemma hash_names h k x : get (addHashes h) k = Some x → k ∈ ["sha256"; "md5"; "sha1"].
Proof.
  intros H. destruct (decide (k ∈ ["sha256"; "md5"; "sha1"])) as [|Hk]; [done|].
  by rewrite get_hashes in H.
Qed.

(** The hashes of a payload are entries of it. *)
Ltac hash_entry :=
  let k := fresh in let x := fresh in let H := fresh in let Hk := fresh in
  intros k x H; pose proof (hash_names _ _ _ H) as Hk;
  unfold payload_map, process_payload, file_payload, image_load_payload;
  rewrite !elem_of_cons in Hk; destruct Hk as [->|[->|[->|Hk]]]; [..|by apply not_elem_of_nil in Hk];
  cbn [app get String.eqb Ascii.eqb Bool.eqb]; by rewrite ?get_app, H.

Section Fields.
Context (is_print : Z → bool) (order : list (string * list string)) (Horder : order ≡ₚ aliases) (v : Envelope).

Abbreviation read p :=
  (λ kx : string * value, get (FlatMap is_print order (mkEventEnvelope v (Some (decoded_event (payload_map p))))) kx.1 =
    Some (decoded kx.2)).

(** Every entry of a list of fields. *)
Ltac fields :=
  cbn [rule_fields app]; repeat first
    [ apply Forall_cons_2; [cbn [fst snd]; first [own|aliased]|]
    | apply Forall_app_2 | apply Forall_opt_str; intros ?; cbn [fst snd]; first [own|aliased] | apply Forall_nil_2 ].

Lemma network_read n : Forall (read (PNetwork n)) (rule_fields (PNetwork n)).
Proof. fields. Qed.
Lemma dns_read d : Forall (read (PDns d)) (rule_fields (PDns d)).
Proof. fields. Qed.
Lemma script_read t : Forall (read (PScript t)) (rule_fields (PScript t)).
Proof. fields. Qed.
Lemma auth_read a : Forall (read (PAuth a)) (rule_fields (PAuth a)).
Proof. fields. Qed.
Lemma file_read f : Forall (read (PFile f)) (rule_fields (PFile f)).
Proof. fields. apply hashes_read; [done|hash_entry]. Qed.
Lemma image_load_read i : Forall (read (PImageLoad i)) (rule_fields (PImageLoad i)).
Proof. fields. apply hashes_read; [done|hash_entry]. Qed.
Lemma registry_read r : Forall (read (PRegistry r)) (rule_fields (PRegistry r)).
Proof.
  fields. destruct (String.eqb_spec (re_KeyPath r) ""), (String.eqb_spec (re_ValueName r) ""); cbn [orb];
    [constructor..|]. constructor; [|constructor]. cbn [fst snd decoded].
  by apply (reads_registry is_print order Horder v _ (proj1 (payload_flat _)) (proj2 (payload_flat _))).
Qed.
Lemma process_read p : Forall (read (PProcess p)) (rule_fields (PProcess p)).
Proof.
  fields; [|apply hashes_read; [done|hash_entry]].
  destruct (String.eqb_spec (pe_ImagePath p) ""); [constructor|]. constructor; [|constructor]. cbn [fst snd decoded].
  apply (reads_image is_print order Horder v _ (proj1 (payload_flat _)) (proj2 (payload_flat _))); [done|entry..].
Qed.
End Fields.

(** C32: what the endpoint saw is what the rules read: of a typed message, every field
    of [rule_fields] - addresses and ports, the query of a name, the image, user, pids
    and hashes of a process, paths, registry keys and values, the signature of an image,
    the text of a script - stands in the flat event under the name that Sigma rules
    use, with the value in the message (a number as the float it is decoded to),
    whatever the order of the aliases; the command line is read with at most something
    appended. *)
Theorem fields_reach_the_rules json_object is_print order v e p :
  order ≡ₚ aliases → typed e p →
  ∃ m, normalizeEventData json_object e = RawObject m ∧
    let flat := FlatMap is_print order (mkEventEnvelope v (Some (decoded_event m))) in
    (∀ k x, (k, x) ∈ rule_fields p → get flat k = Some (decoded x)) ∧
    (∀ q, p = PProcess q → ∃ s, get flat "CommandLine" = Some (VStr s) ∧ has_prefix s (pe_CommandLine q) = true).
Proof.
  intros Ho Ht. destruct (typed_payload json_object e p Ht) as [Hn _]. exists (payload_map p).
  split; [exact Hn|]. cbn zeta. split.
  - intros k x Hkx.
    enough (Forall (λ kx : string * value,
      get (FlatMap is_print order (mkEventEnvelope v (Some (decoded_event (payload_map p))))) kx.1 = Some (decoded kx.2))
      (rule_fields p)) as H by (rewrite Forall_forall in H; apply (H (k, x) Hkx)).
    destruct p; [apply process_read|apply file_read|apply network_read|apply dns_read|apply registry_read
      |apply auth_read|apply image_load_read|apply script_read]; done.
  - intros q ->.
    apply (reads_command is_print order Ho v _ (proj1 (payload_flat _)) (proj2 (payload_flat _))); entry.
Qed.

(** *** Platforms *)
Lemma platform_arrives goos : goos ∈ ["windows"; "linux"; "darwin"] → platformString (batchPlatform goos) = goos.
Proof. rewrite !elem_of_cons. intros [->|[->|[->|H]]]; [done..|by apply not_elem_of_nil in H]. Qed.

Lemma producible :
  producibleEventTypes =
    ["auth"; "create_remote_thread"; "credential_access"; "device_event"; "dns"; "eventlog_cleared"; "file";
     "host_integrity"; "image_load"; "memory"; "network"; "pipe_created"; "process"; "process_block"; "process_stats";
     "ps_module"; "registry"; "script"; "service_installed"; "tamper"; "tls_handshake"; "wmi_activity"] ∧
  ∀ e, promoteEventType e = "" ∨ promoteEventType e ∈ producibleEventTypes.
Proof.
  assert (Forall (λ t, t = "" ∨ t ∈ producibleEventTypes) (eventTypeString <$> all_types)) as Ht
    by (apply (bool_decide_eq_true_1 _); vm_compute; reflexivity).
  assert (Forall (λ m, m.2 ∈ producibleEventTypes) eventTypeByIDPrefix) as Hp
    by (apply (bool_decide_eq_true_1 _); vm_compute; reflexivity).
  split; [by vm_compute|]. intros e. unfold promoteEventType. destruct (String.eqb_spec (eventTypeString (we_Type e)) "") as [_|Hne]; cbn [negb].
  - destruct (List.find _ eventTypeByIDPrefix) as [m|] eqn:Hf; [right|by left].
    apply find_some in Hf as [Hin _]. apply list_elem_of_In in Hin. rewrite Forall_forall in Hp. by apply Hp.
  - rewrite Forall_forall in Ht. apply Ht, list_elem_of_fmap. exists (we_Type e). split; [done|].
    unfold all_types. destruct (we_Type e); repeat first [apply list_elem_of_here | apply list_elem_of_further].
Qed.

(** ** What is lost *)
(** What the collector of resource usage sends every thirty seconds has no type. *)
Lemma resource_usage_is_dropped json_object mint i ts uuid json :
  prep json_object mint i (mkWireEvent (encoded_id "resource_usage:" uuid json) ts EVENT_TYPE_LOG None) = None.
Proof. done. Qed.

(** An event without a time is one of 1970, not of now. *)
Lemma untimed_event_is_old json_object mint i e p : we_Timestamp e = None → prep json_object mint i e = Some p →
  pp_evtTime p = 0.
Proof. intros Ht. unfold prep. destruct (String.eqb _ ""); [done|]. intros [= <-]. cbn. unfold as_time. by rewrite Ht. Qed.

(** A change of a watched file that comes as a log event gets its type, not its payload. *)
Lemma logged_file_change_is_not_decoded json_object ts uuid json :
  let e := mkWireEvent (encoded_id "fim_change:" uuid json) ts EVENT_TYPE_LOG None in
  promoteEventType e = "file" ∧ normalizeEventData json_object e = RawMessage e.
Proof. done. Qed.

(** ** Witnesses *)
Definition toy_finding : WireEvent :=
  mkWireEvent (encoded_id "memory:" "11-22" "{}") (Some (5 * second)) EVENT_TYPE_LOG None.
Definition toy_dns : WireEvent :=
  mkWireEvent "e2" (Some (6 * second)) EVENT_TYPE_DNS
    (Some (PDns (mkDnsEvent "evil.example" "A" ["10.0.0.1"] 4242 "curl" true))).
Definition toy_unknown : WireEvent := mkWireEvent "resource_usage:1:{}" None EVENT_TYPE_LOG None.
Definition toy_object (s : string) : option event := if String.eqb s "{}" then Some [] else None.

(** A database that refuses findings of the memory scanner. *)
Definition toy_db : EventsDB :=
  let ok p := negb (String.eqb (pp_evtType p) "memory") in mkEventsDB (forallb ok) ok.
Definition toy_env : IngestEnv :=
  mkIngestEnv (λ i, "id" +:+ itoa (Z.of_nat i)) toy_db (λ _, true) (λ i, Nat.eqb i 0) (λ _, true) (λ _, true).

Lemma findings_survive_the_wire_witness : colonless "11-22" ∧
  prep toy_object (λ _, "id") 0 toy_finding =
    Some (mkPrepped "memory" (5 * second) (RawText "{}") toy_finding 0 "id").
Proof.
  assert (colonless "11-22") as Hu by reflexivity. split; [exact Hu|].
  apply (findings_survive_the_wire toy_object (λ _, "id") 0 (Some (5 * second)) "11-22" "{}" Hu).
  - unfold eventTypeByIDPrefix. do 3 right. left.
  - discriminate.
Defined.

Lemma toy_honest : honest toy_db.
Proof. intros chunk _. reflexivity. Qed.

Lemma bad_events_are_isolated_witness : honest toy_db ∧
  pp_evtType <$> insertEvents toy_db (prep_all toy_object (λ _, "id") [toy_dns; toy_finding; toy_dns]) = ["dns"; "dns"].
Proof.
  split; [exact toy_honest|]. rewrite (bad_events_are_isolated toy_db _ toy_honest). reflexivity.
Defined.

Lemma rows_are_published_witness : honest (in_db toy_env) ∧ broker_takes toy_object toy_env [toy_unknown; toy_finding; toy_dns] ∧
  let s' := publishEventBatch toy_object toy_env ∅ "a" PLATFORM_LINUX [toy_unknown; toy_finding; toy_dns] [] (mkStores ∅ [] [] []) in
  of_published <$> st_messages s' = of_row <$> prep_all toy_object (in_mint toy_env) [toy_unknown; toy_finding; toy_dns] ∧
  pp_evtType <$> st_rows s' = ["dns"].
Proof.
  assert (broker_takes toy_object toy_env [toy_unknown; toy_finding; toy_dns]) as Hb.
  { split; [by right|]. intros e s _ _. reflexivity. }
  split; [exact toy_honest|]. split; [exact Hb|].
  destruct (rows_are_published toy_object toy_env ∅ "a" PLATFORM_LINUX [toy_unknown; toy_finding; toy_dns] [] toy_honest Hb)
    as (Hm & _ & Hr & _).
  split; [exact Hm|]. rewrite Hr. reflexivity.
Defined.

(** A query reaches the rules under their name for it, in another order of the aliases. *)
Lemma fields_reach_the_rules_witness :
  let p := PDns (mkDnsEvent "evil.example" "A" ["10.0.0.1"] 4242 "curl" true) in
  typed toy_dns p ∧
  ∃ m, normalizeEventData toy_object toy_dns = RawObject m ∧
    let flat := FlatMap (λ _, true) (reverse aliases)
      (mkEventEnvelope (mkEnvelope "a" "h" "linux" "dns" "id") (Some (decoded_event m))) in
    get flat "QueryName" = Some (VStr "evil.example") ∧ get flat "ProcessId" = Some (VFloat 4242 0).
Proof.
  intros p. assert (typed toy_dns p) as Ht by (split; [reflexivity|split; reflexivity]).
  split; [exact Ht|].
  destruct (fields_reach_the_rules toy_object (λ _, true) (reverse aliases) (mkEnvelope "a" "h" "linux" "dns" "id")
    toy_dns p (reverse_Permutation _) Ht) as (m & Hm & Hr & _).
  exists m. split; [exact Hm|]. split.
  - apply (Hr "QueryName" (VStr "evil.example")). unfold p. cbn [rule_fields]. left.
  - change (VFloat 4242 0) with (decoded (VInt 4242)). apply (Hr "ProcessId" (VInt 4242)).
    unfold p. cbn [rule_fields de_Pid]. do 4 right. left.
Defined.
