(* ===== verification/Dedup.v ===== *)
(** * Merging duplicate alerts

    [server/internal/dedup/alert_dedup.go]: the worker that, every two minutes, merges
    open alerts of the same title, and those of the same technique that two engines
    raised.  The table is a list of rows with distinct ids, in the order in which the
    database happens to return them; each SQL statement is what it selects or changes.
    The database may refuse the update of a row. *)

From Stdlib Require Import Ascii.
From S2P Require Import Prelude GoStrings Digest.

#[local] Open Scope string_scope.
#[local] Open Scope list_scope.
#[local] Open Scope Z_scope.

(** ** Rows *)
Record AlertRow := mkAlertRow {
  ar_id : string;
  ar_title : string;
  ar_severity : Z;
  ar_source : string;
  ar_agent : string;                (** [COALESCE(agent_id::TEXT, '')] *)
  ar_status : string;
  ar_technique : option string;
  ar_created : time;
  ar_dedup_key : option string;
  ar_dedup_count : Z;
  ar_description : string
}.

Definition windowSize : duration := hour.
Definition techniqueWindow : duration := 6 * minute.
Definition max_groups : nat := 100.

Definition TechniqueDedupKey (technique agent : string) : string :=
  hex_encode (md5_sum (bytes_of ("tech|" +:+ to_lower (trim_space technique) +:+ "|" +:+ agent))).

Definition DedupKey (title severity source agent : string) : string :=
  hex_encode (md5_sum (bytes_of
    (to_lower (trim_space title) +:+ "|" +:+ to_lower severity +:+ "|" +:+ to_lower source +:+ "|" +:+ agent))).

Definition is_open (r : AlertRow) : bool := String.eqb (ar_status r) "open".

(** ** What the queries select *)
Definition title_group (r : AlertRow) : string * Z * string * string :=
  (to_lower (ar_title r), ar_severity r, ar_source r, ar_agent r).
Definition title_eligible (now : time) (r : AlertRow) : bool :=
  is_open r && (now - windowSize <=? ar_created r) && bool_decide (ar_dedup_key r = None).

Definition technique_of (r : AlertRow) : string := default "" (ar_technique r).
Definition technique_group (r : AlertRow) : string * string := (technique_of r, ar_agent r).
Definition technique_eligible (now : time) (r : AlertRow) : bool :=
  is_open r && negb (String.eqb (technique_of r) "") && (now - techniqueWindow <=? ar_created r).

(** The rows of each group, the groups in the order of their first rows. *)
Fixpoint distinct {K} `{EqDecision K} (l : list K) : list K :=
  match l with
  | [] => []
  | k :: l' => k :: filter (λ k', k' ≠ k) (distinct l')
  end.
Definition group_by {K} `{EqDecision K} (key : AlertRow → K) (l : list AlertRow) : list (list AlertRow) :=
  (λ k, filter (λ r, key r = k) l) <$> distinct (key <$> l).

(** The row that comes first. *)
Fixpoint first_by (before : AlertRow → AlertRow → bool) (r : AlertRow) (l : list AlertRow) : AlertRow :=
  match l with
  | [] => r
  | r' :: l' => first_by before (if before r' r then r' else r) l'
  end.
Definition oldest (a b : AlertRow) : bool :=
  (ar_created a <? ar_created b) || ((ar_created a =? ar_created b) && String.ltb (ar_id a) (ar_id b)).
Definition gravest (a b : AlertRow) : bool :=
  (ar_severity b <? ar_severity a) || ((ar_severity a =? ar_severity b) && (ar_created a <? ar_created b)).

(** A group of rows: the one that is kept, the others, and the key of the group. *)
Record DupGroup := mkDupGroup { dg_keep : AlertRow; dg_ids : list string; dg_key : string }.

Definition dup_ids (g : DupGroup) : list string := filter (λ id, id ≠ ar_id (dg_keep g)) (dg_ids g).

Definition dup_group (before : AlertRow → AlertRow → bool) (key : AlertRow → string) (l : list AlertRow)
    : option DupGroup :=
  match l with
  | [] => None
  | r :: l' => let keep := first_by before r l' in Some (mkDupGroup keep (ar_id <$> l) (key keep))
  end.

Definition title_key (r : AlertRow) : string :=
  DedupKey (ar_title r) (itoa (ar_severity r)) (ar_source r) (ar_agent r).
Definition technique_key (r : AlertRow) : string := TechniqueDedupKey (technique_of r) (ar_agent r).

Definition several (l : list AlertRow) : bool := (1 <? length l)%nat.
Definition several_titles (l : list AlertRow) : bool := (1 <? length (distinct (ar_title <$> l)))%nat.

Definition title_groups (now : time) (t : list AlertRow) : list DupGroup :=
  take max_groups
    (omap (dup_group oldest title_key) (filter (λ l, several l = true) (group_by title_group (filter (λ r, title_eligible now r = true) t)))).
Definition technique_groups (now : time) (t : list AlertRow) : list DupGroup :=
  take max_groups
    (omap (dup_group gravest technique_key)
       (filter (λ l, several l && several_titles l = true) (group_by technique_group (filter (λ r, technique_eligible now r = true) t)))).

(** ** What the updates change *)
Definition mark_kept (key : string) (n : Z) (r : AlertRow) : AlertRow :=
  mkAlertRow (ar_id r) (ar_title r) (ar_severity r) (ar_source r) (ar_agent r) (ar_status r) (ar_technique r)
    (ar_created r) (Some key) (ar_dedup_count r + n) (ar_description r).
Definition close_into (key note : string) (r : AlertRow) : AlertRow :=
  mkAlertRow (ar_id r) (ar_title r) (ar_severity r) (ar_source r) (ar_agent r) "resolved" (ar_technique r)
    (ar_created r) (Some key) (ar_dedup_count r) (ar_description r +:+ note).

Definition update_row (id : string) (f : AlertRow → AlertRow) (t : list AlertRow) : list AlertRow :=
  (λ r, if String.eqb (ar_id r) id then f r else r) <$> t.

(** [refused]: the updates the database does not carry out. *)
Section Pass.
Context (refused : string → bool).

Definition try_update (id : string) (f : AlertRow → AlertRow) (t : list AlertRow) : list AlertRow :=
  if refused id then t else update_row id f t.

(** The table, and what is reported for the run. *)
Definition merge_group (note : string) (s : list AlertRow * nat) (g : DupGroup) : list AlertRow * nat :=
  let '(t, reports) := s in
  let keep := ar_id (dg_keep g) in
  let dups := dup_ids g in
  match dups with
  | [] => s
  | _ =>
      let t := try_update keep (mark_kept (dg_key g) (zlen dups)) t in
      let t := foldl (λ t id, try_update id (close_into (dg_key g) (" [" +:+ note +:+ ": " +:+ keep +:+ " に統合]")) t) t dups in
      (t, (reports + (if refused keep then 1 else 0) + (if existsb refused dups then 1 else 0))%nat)
  end.

Definition deduplicate (now : time) (t : list AlertRow) : list AlertRow * nat :=
  foldl (merge_group "重複排除") (t, 0%nat) (title_groups now t).
Definition deduplicateByTechnique (now : time) (t : list AlertRow) : list AlertRow * nat :=
  foldl (merge_group "二重エンジン重複排除") (t, 0%nat) (technique_groups now t).

Definition tick (now : time) (t : list AlertRow) : list AlertRow * nat :=
  let '(t, n) := deduplicate now t in
  let '(t, m) := deduplicateByTechnique now t in
  (t, (n + m)%nat).
End Pass.

(** ** What an update leaves alone *)
Definition facts (r : AlertRow) :=
  (ar_id r, ar_title r, ar_severity r, ar_source r, ar_agent r, ar_technique r, ar_created r).

(** [F] changes no fact of a row, and its status only where [P] holds of its id. *)
Definition evolves (P : string → Prop) (F : AlertRow → AlertRow) : Prop :=
  ∀ r, facts (F r) = facts r ∧ (ar_status (F r) = ar_status r ∨ P (ar_id r)).

Lemma facts_id r r' : facts r = facts r' → ar_id r = ar_id r'.
Proof. unfold facts. congruence. Qed.

Lemma evolves_id P : evolves P id.
Proof. intros r. split; [done|by left]. Qed.

Lemma evolves_compose P F G : evolves P F → evolves P G → evolves P (λ r, G (F r)).
Proof.
  intros HF HG r. destruct (HF r) as [Hf Hs], (HG (F r)) as [Hf' Hs'].
  rewrite Hf', Hf. split; [done|]. rewrite (facts_id _ _ Hf) in Hs'.
  destruct Hs' as [->|]; [|by right]. destruct Hs as [->|]; [by left|by right].
Qed.

Lemma evolves_weaken (P Q : string → Prop) F : (∀ id, P id → Q id) → evolves P F → evolves Q F.
Proof. intros H HF r. destruct (HF r) as [Hf Hs]. split; [done|]. destruct Hs; [by left|right; by apply H]. Qed.

(** A change of the rows one after the other. *)
Definition rewrites (P : string → Prop) (t t' : list AlertRow) : Prop := ∃ F, evolves P F ∧ t' = F <$> t.

Lemma rewrites_trans P t1 t2 t3 : rewrites P t1 t2 → rewrites P t2 t3 → rewrites P t1 t3.
Proof.
  intros (F & HF & ->) (G & HG & ->). exists (λ r, G (F r)). split; [by apply evolves_compose|].
  by rewrite <-list_fmap_compose.
Qed.
Lemma rewrites_refl P t : rewrites P t t.
Proof. exists id. split; [apply evolves_id|]. by rewrite list_fmap_id. Qed.

Lemma try_update_rewrites refused (P : string → Prop) id f t :
  (∀ r, facts (f r) = facts r) → (∀ r, ar_status (f r) = ar_status r) ∨ P id → rewrites P t (try_update refused id f t).
Proof.
  intros Hf Hs. unfold try_update. destruct (refused id); [apply rewrites_refl|].
  eexists. split; [|reflexivity]. intros r. destruct (String.eqb_spec (ar_id r) id) as [<-|]; [|split; [done|by left]].
  split; [apply Hf|]. destruct Hs; [left|right]; done.
Qed.

Lemma merge_group_rewrites refused note s g :
  rewrites (λ id, id ∈ dup_ids g) s.1 (merge_group refused note s g).1.
Proof.
  destruct s as [t n]. unfold merge_group. cbn [fst]. assert (∀ l, (∀ id, id ∈ l → id ∈ dup_ids g) → ∀ t,
    rewrites (λ id, id ∈ dup_ids g) t (foldl (λ t id, try_update refused id
      (close_into (dg_key g) (" [" +:+ note +:+ ": " +:+ ar_id (dg_keep g) +:+ " に統合]")) t) t l)) as H.
  { induction l as [|id l IH]; intros Hl t'; [apply rewrites_refl|]. cbn [foldl].
    eapply rewrites_trans; [|apply IH; intros; apply Hl; by right].
    apply try_update_rewrites; [done|]. right. apply Hl. by left. }
  destruct (dup_ids g) as [|d ds] eqn:Hd; [apply rewrites_refl|]. cbn [fst]. rewrite <-Hd in *.
  eapply rewrites_trans; [|apply H; done]. apply try_update_rewrites; [done|by left].
Qed.

Lemma merge_groups_rewrite refused note gs s :
  rewrites (λ id, ∃ g, g ∈ gs ∧ id ∈ dup_ids g) s.1 (foldl (merge_group refused note) s gs).1.
Proof.
  revert s. induction gs as [|g gs IH]; intros s; [apply rewrites_refl|]. cbn [foldl].
  eapply rewrites_trans.
  - destruct (merge_group_rewrites refused note s g) as (F & HF & E). exists F. split; [|exact E].
    eapply evolves_weaken; [|apply HF]. intros id Hid. exists g. split; [by left|done].
  - destruct (IH (merge_group refused note s g)) as (F & HF & E). exists F. split; [|exact E].
    eapply evolves_weaken; [|apply HF]. intros id (g' & Hg & Hid). exists g'. split; [by right|done].
Qed.

(** ** Groups *)
Lemma first_by_in before r l : first_by before r l ∈ r :: l.
Proof.
  revert r. induction l as [|r' l IH]; intros r; [by left|]. cbn [first_by]. specialize (IH (if before r' r then r' else r)).
  destruct (before r' r); rewrite !elem_of_cons in *; tauto.
Qed.

Lemma gravest_step r r' : let c := if gravest r' r then r' else r in
  ar_severity r <= ar_severity c ∧ ar_severity r' <= ar_severity c.
Proof.
  unfold gravest. cbv zeta. destruct (Z.ltb_spec (ar_severity r) (ar_severity r')); cbn [orb]; [lia|].
  destruct (Z.eqb_spec (ar_severity r') (ar_severity r)); cbn [andb]; [|lia]. destruct (_ <? _); lia.
Qed.

Lemma first_by_ge r l : ar_severity r <= ar_severity (first_by gravest r l).
Proof.
  revert r. induction l as [|y l IH]; intros r; cbn [first_by]; [done|].
  destruct (gravest_step r y) as [? _]. etrans; [|apply IH]. done.
Qed.

Lemma first_by_gravest r l x : x ∈ r :: l → ar_severity x <= ar_severity (first_by gravest r l).
Proof.
  rewrite elem_of_cons. revert r. induction l as [|r' l IH]; intros r Hx; cbn [first_by].
  - destruct Hx as [->|Hx]; [done|by apply not_elem_of_nil in Hx].
  - rewrite elem_of_cons in Hx. destruct (gravest_step r r') as [Hr Hr'].
    set (c := if gravest r' r then r' else r) in *.
    pose proof (first_by_ge c l).
    destruct Hx as [->|[->|Hx]]; [lia|lia|]. apply IH. by right.
Qed.

Lemma same_row t r x : NoDup (ar_id <$> t) → r ∈ t → x ∈ t → ar_id r = ar_id x → r = x.
Proof.
  induction t as [|y t IH]; intros Hnd Hr Hx He; [by apply not_elem_of_nil in Hr|].
  cbn [fmap list_fmap] in Hnd. apply NoDup_cons in Hnd as [Hy Hnd].
  apply elem_of_cons in Hr as [->|Hr], Hx as [->|Hx]; [done|..|exact (IH Hnd Hr Hx He)];
    destruct Hy; [rewrite He|rewrite <-He]; apply list_elem_of_fmap; (eexists; split; [reflexivity|done]).
Qed.

(** What is known of a group that a query returns. *)
Definition selected {K} `{EqDecision K} (key : AlertRow → K) (before : AlertRow → AlertRow → bool)
    (rows : list AlertRow) (g : DupGroup) : Prop :=
  ∃ r l, r :: l = filter (λ x, key x = key r) rows ∧ dg_keep g = first_by before r l ∧ dg_ids g = ar_id <$> r :: l.

Lemma selected_group {K} `{EqDecision K} (key : AlertRow → K) before gkey (keepl : list AlertRow → bool) rows g :
  g ∈ take max_groups (omap (dup_group before gkey) (filter (λ l, keepl l = true) (group_by key rows))) →
  selected key before rows g.
Proof.
  intros Hg. assert (g ∈ omap (dup_group before gkey) (filter (λ l, keepl l = true) (group_by key rows))) as Hg'.
  { rewrite <-(take_drop max_groups). apply elem_of_app. by left. }
  apply list_elem_of_omap in Hg' as (l & Hl & Hd). apply list_elem_of_filter in Hl as [_ Hl].
  unfold group_by in Hl. apply list_elem_of_fmap in Hl as (k & -> & _).
  destruct (filter (λ r, key r = k) rows) as [|r l] eqn:Hf; [done|]. cbn [dup_group] in Hd. injection Hd as <-.
  assert (key r = k) as <-.
  { assert (r ∈ filter (λ r, key r = k) rows) as Hr by (rewrite Hf; by left). by apply list_elem_of_filter in Hr as [? _]. }
  exists r, l. done.
Qed.

(** A pass over groups that a query returned closes a row only if one it belongs with
    stays open. *)
Lemma pass_keeps_one {K} `{EqDecision K} (key : AlertRow → K) before (elig : AlertRow → bool) refused note gs t :
  NoDup (ar_id <$> t) → (∀ r, elig r = true → is_open r = true) →
  Forall (selected key before (filter (λ r, elig r = true) t)) gs →
  ∃ F, (foldl (merge_group refused note) (t, 0%nat) gs).1 = F <$> t ∧ (∀ r, facts (F r) = facts r) ∧
    ∀ r, r ∈ t → is_open (F r) = is_open r ∨
      ∃ r0 l, r0 :: l = filter (λ x, key x = key r0) (filter (λ r, elig r = true) t) ∧ r ∈ r0 :: l ∧
        is_open (F (first_by before r0 l)) = true.
Proof.
  intros Hnd Helig Hgs. destruct (merge_groups_rewrite refused note gs (t, 0%nat)) as (F & HF & E).
  exists F. split; [done|]. split; [by intros r; apply HF|].
  assert (∀ g r, g ∈ gs → r ∈ t → ar_id r ∈ dg_ids g →
    ∃ r0 l, r0 :: l = filter (λ x, key x = key r0) (filter (λ r, elig r = true) t) ∧ r ∈ r0 :: l ∧
      dg_keep g = first_by before r0 l) as Hmember.
  { intros g r Hg Hr Hid. rewrite Forall_forall in Hgs. destruct (Hgs g Hg) as (r0 & l & Hl & Hk & Hi).
    exists r0, l. split; [done|]. split; [|done]. rewrite Hi in Hid. apply list_elem_of_fmap in Hid as (x & Hx & Hin).
    assert (x ∈ t) as Hxt. { rewrite Hl in Hin. by apply list_elem_of_filter in Hin as [_ [_ ?]%list_elem_of_filter]. }
    by rewrite (same_row t r x). }
  intros r Hr. destruct (HF r) as [_ [Hs|(g & Hg & Hid)]]; [left; unfold is_open; by rewrite Hs|right].
  apply list_elem_of_filter in Hid as [Hne Hid]. destruct (Hmember g r Hg Hr Hid) as (r0 & l & Hl & Hin & Hk).
  exists r0, l. split; [done|]. split; [done|]. rewrite <-Hk.
  assert (dg_keep g ∈ r0 :: l) as Hkeep by (rewrite Hk; apply first_by_in).
  assert (dg_keep g ∈ t ∧ elig (dg_keep g) = true) as [Hkt Hke].
  { rewrite Hl in Hkeep. by apply list_elem_of_filter in Hkeep as [_ [? ?]%list_elem_of_filter]. }
  destruct (HF (dg_keep g)) as [_ [Hs|(g' & Hg' & Hid')]]; [unfold is_open; rewrite Hs; by apply Helig|].
  exfalso. apply list_elem_of_filter in Hid' as [Hne' Hid'].
  destruct (Hmember g' (dg_keep g) Hg' Hkt Hid') as (r1 & l1 & Hl1 & Hin1 & Hk1).
  assert (key r1 = key r0) as Hkey.
  { rewrite Hl in Hkeep. rewrite Hl1 in Hin1. apply list_elem_of_filter in Hkeep as [<- _], Hin1 as [<- _]. done. }
  rewrite Hkey, <-Hl in Hl1. injection Hl1 as -> ->. congruence.
Qed.

Lemma facts_eq r r' : facts r = facts r' →
  ar_title r = ar_title r' ∧ ar_severity r = ar_severity r' ∧ ar_agent r = ar_agent r' ∧ technique_of r = technique_of r'.
Proof. unfold facts, technique_of. intros [=]. split_and!; congruence. Qed.

Lemma title_pass refused now t : NoDup (ar_id <$> t) →
  ∃ F, (deduplicate refused now t).1 = F <$> t ∧ (∀ r, facts (F r) = facts r) ∧
    ∀ r, r ∈ t → is_open r = true → ∃ k, k ∈ t ∧ title_group k = title_group r ∧ is_open (F k) = true.
Proof.
  intros Hnd. destruct (pass_keeps_one title_group oldest (title_eligible now) refused "重複排除" (title_groups now t) t)
    as (F & HE & HF & H); [done| | |].
  - intros r. unfold title_eligible. by intros [[? _]%andb_true_iff _]%andb_true_iff.
  - apply Forall_forall. intros g Hg. by apply (selected_group _ _ title_key several) in Hg.
  - exists F. split; [done|]. split; [done|]. intros r Hr Ho. destruct (H r Hr) as [E|(r0 & l & Hl & Hin & Hk)].
    + exists r. by rewrite E.
    + exists (first_by oldest r0 l). pose proof (first_by_in oldest r0 l) as Hf. rewrite Hl in Hin, Hf.
      apply list_elem_of_filter in Hin as [Hg1 _], Hf as [Hg2 [_ Hf]%list_elem_of_filter]. split; [done|].
      split; [congruence|done].
Qed.

Lemma technique_pass refused now t : NoDup (ar_id <$> t) →
  ∃ F, (deduplicateByTechnique refused now t).1 = F <$> t ∧ (∀ r, facts (F r) = facts r) ∧
    ∀ r, r ∈ t → is_open r = true → ∃ k, k ∈ t ∧ is_open (F k) = true ∧ ar_agent k = ar_agent r ∧
      ar_severity r <= ar_severity k ∧ (k = r ∨ technique_of k = technique_of r ∧ technique_of k ≠ "").
Proof.
  intros Hnd. destruct (pass_keeps_one technique_group gravest (technique_eligible now) refused "二重エンジン重複排除"
    (technique_groups now t) t) as (F & HE & HF & H); [done| | |].
  - intros r. unfold technique_eligible. by intros [[? _]%andb_true_iff _]%andb_true_iff.
  - apply Forall_forall. intros g Hg.
    by apply (selected_group _ _ technique_key (λ l, several l && several_titles l)) in Hg.
  - exists F. split; [done|]. split; [done|]. intros r Hr Ho. destruct (H r Hr) as [E|(r0 & l & Hl & Hin & Hk)].
    + exists r. rewrite E. split_and!; [done|done|done|lia|by left].
    + exists (first_by gravest r0 l). pose proof (first_by_in gravest r0 l) as Hf. pose proof (first_by_gravest r0 l r Hin) as Hs.
      rewrite Hl in Hin, Hf. apply list_elem_of_filter in Hin as [Hg1 _], Hf as [Hg2 [He Hf]%list_elem_of_filter].
      unfold technique_group in Hg1, Hg2. injection Hg1 as Ht1 Ha1. injection Hg2 as Ht2 Ha2.
      split_and!; [done|done|congruence|done|right]. split; [congruence|].
      unfold technique_eligible in He. rewrite !andb_true_iff, negb_true_iff in He. destruct He as [[_ He] _].
      by apply String.eqb_neq.
Qed.

(** C17: merging loses nothing that matters: whatever the database refuses, after a tick
    every alert that was open is still represented by an open one, of the same agent
    and at least as grave, with its title or with the technique of an alert that has
    its title; and no alert is removed or has its facts changed. *)
Theorem no_alert_vanishes refused now t : NoDup (ar_id <$> t) →
  let t' := (tick refused now t).1 in
  facts <$> t' = facts <$> t ∧
  ∀ r, r ∈ t → is_open r = true → ∃ s, s ∈ t' ∧ is_open s = true ∧ ar_agent s = ar_agent r ∧
    ar_severity r <= ar_severity s ∧
    (to_lower (ar_title s) = to_lower (ar_title r) ∨
     ∃ k, k ∈ t ∧ to_lower (ar_title k) = to_lower (ar_title r) ∧ technique_of s = technique_of k ∧ technique_of s ≠ "").
Proof.
  intros Hnd t'. destruct (title_pass refused now t Hnd) as (F & HF & Hff & Hk).
  assert (facts <$> (deduplicate refused now t).1 = facts <$> t) as Hf1.
  { rewrite HF, <-list_fmap_compose. apply list_fmap_ext. intros i x _. apply Hff. }
  assert (NoDup (ar_id <$> (deduplicate refused now t).1)) as Hnd1.
  { rewrite HF, <-list_fmap_compose. erewrite list_fmap_ext; [exact Hnd|]. intros i x _. by apply facts_id. }
  destruct (technique_pass refused now _ Hnd1) as (G & HG & Hgf & Hl).
  assert (t' = G <$> (F <$> t)) as Ht'.
  { subst t'. unfold tick. destruct (deduplicate refused now t) as [t1 n]. cbn [fst] in *.
    destruct (deduplicateByTechnique refused now t1) as [t2 m]. cbn [fst] in *. by rewrite HG, HF. }
  split.
  - rewrite Ht', <-HF, <-list_fmap_compose, <-Hf1. apply list_fmap_ext. intros i x _. apply Hgf.
  - intros r Hr Ho. destruct (Hk r Hr Ho) as (k & Hkt & Hkg & Hko). unfold title_group in Hkg.
    injection Hkg as Htitle Hsev _ Hag. destruct (Hl (F k)) as (k2 & Hk2 & Hk2o & Hag2 & Hsev2 & Htech).
    { rewrite HF. apply list_elem_of_fmap. by exists k. }
    { done. }
    exists (G k2). destruct (facts_eq _ _ (Hgf k2)) as (T1 & S1 & A1 & Q1), (facts_eq _ _ (Hff k)) as (T2 & S2 & A2 & Q2).
    rewrite S1, A1, T1, Q1. split; [rewrite Ht', <-HF; apply list_elem_of_fmap; by exists k2|]. split; [done|].
    split; [congruence|]. split; [lia|]. destruct Htech as [->|[Hq Hne]]; [left; congruence|].
    right. exists k. split; [done|]. split; [done|]. split; congruence.
Qed.

(** ** What is left open *)
Definition toy_alert (id title : string) (severity created : Z) (technique : option string) : AlertRow :=
  mkAlertRow id title severity "sigma" "a1" "open" technique (created * second) None 0 "".

Definition accepts (id : string) : bool := false.
Definition open_ids (t : list AlertRow) : list string := ar_id <$> filter (λ r, is_open r = true) t.

(** Two engines and two repetitions come to one alert, the gravest. *)
Lemma cross_engine_example :
  open_ids (tick accepts (200 * second)
    [toy_alert "1" "PsExec Remote Execution" 6 100 (Some "T1021.002");
     toy_alert "2" "[SIGMA] PsExec" 8 110 (Some "T1021.002"); toy_alert "3" "[Sigma] psexec" 8 120 (Some "T1021.002");
     toy_alert "4" "Other" 3 130 None]).1 = ["2"; "4"].
Proof. by vm_compute. Qed.

(** The alert that a merge keeps has a key from then on and is not looked at again:
    repetitions of it that come after the tick are merged among themselves or, if
    there is only one, stay open next to it, and so on with every tick. *)
Lemma later_repetitions_pile_up :
  let repetition i := toy_alert (itoa i) "Beacon" 7 (40 * i) None in
  let t1 := (tick accepts (100 * second) (repetition <$> [1; 2])).1 in
  let t2 := (tick accepts (220 * second) (t1 ++ (repetition <$> [3; 4; 5]))).1 in
  let t3 := (tick accepts (340 * second) (t2 ++ (repetition <$> [6]))).1 in
  open_ids t1 = ["1"] ∧ open_ids t2 = ["1"; "3"] ∧ open_ids t3 = ["1"; "3"; "6"] ∧
  open_ids (tick accepts (340 * second) (repetition <$> [1; 2; 3; 4; 5; 6])).1 = ["1"].
Proof. by vm_compute. Qed.

(** When the alert that is kept cannot be marked, its repetitions are closed all the
    same, so there is no group left to merge again and their number is lost. *)
Lemma unmarked_alert_is_not_merged_again :
  let t := [toy_alert "1" "Beacon" 7 40 None; toy_alert "2" "Beacon" 7 50 None] in
  let t1 := (tick (String.eqb "1") (100 * second) t).1 in
  let t2 := (tick accepts (220 * second) t1).1 in
  (tick (String.eqb "1") (100 * second) t).2 = 1%nat ∧ open_ids t1 = ["1"] ∧ t2 = t1 ∧
  ar_dedup_count <$> head t2 = Some 0.
Proof. by vm_compute. Qed.

Lemma no_alert_vanishes_witness :
  let t := [toy_alert "1" "Beacon" 7 40 None; toy_alert "2" "beacon" 7 50 None] in
  NoDup (ar_id <$> t) ∧
  (∃ s, s ∈ (tick accepts (100 * second) t).1 ∧ is_open s = true ∧ ar_agent s = "a1").
Proof.
  intros t. assert (NoDup (ar_id <$> t)) as Hnd by (apply (bool_decide_eq_true_1 _); reflexivity). split; [exact Hnd|].
  destruct (no_alert_vanishes accepts (100 * second) t Hnd) as [_ H].
  destruct (H (toy_alert "2" "beacon" 7 50 None)) as (s & Hs & Ho & Ha & _); [right; left|reflexivity|].
  exists s. split; [exact Hs|]. split; [exact Ho|exact Ha].
Defined.
