(* ===== verification/Updater.v ===== *)
(** * Updating the agent

    [agent/internal/updater/updater.go], the part of an update that runs in the agent:
    asking the server, downloading, checking the digest, and leaving the new binary
    and the marker for the supervisor, which [Watchdog.v] models.  HTTP and what the
    operating system refuses are inputs; the texts of the marker are JSON. *)

From S2P Require Import Prelude GoStrings Digest Files Tamper Watchdog WatchdogProofs.

#[local] Open Scope string_scope.
#[local] Open Scope list_scope.
#[local] Open Scope Z_scope.

(** ** Asking *)
Record UpdateInfo := mkUpdateInfo { ui_Version : string; ui_URL : string; ui_Checksum : string; ui_Force : bool }.

(** An answer: its status, and what can be decoded from its body: the member
    ["up_to_date"] of an object, and the description of an update. *)
Inductive http_answer :=
| NoAnswer (e : string)
| Answer (status : Z) (readable : bool) (up_to_date : option bool) (info : option UpdateInfo).

Definition Check_ (a : http_answer) : res (option UpdateInfo) :=
  match a with
  | NoAnswer e => Err ("update-check request: " +:+ e)
  | Answer status readable up_to_date info =>
      if status =? 204 then Ok None
      else if negb (status =? 200) then Err ("update-check: server returned " +:+ itoa status)
      else if negb readable then Err "read update-check response"
      else match up_to_date with
           | Some true => Ok None
           | _ =>
               match info with
               | None => Err "parse update-check response"
               | Some i => if String.eqb (ui_Version i) "" then Ok None else Ok (Some i)
               end
           end
  end.

(** ** Applying *)
(** The download: no answer, a status other than 200, or what could be read and
    whether that is all. *)
Inductive download := NoDownload | BadStatus (code : Z) | Body (content : string) (complete : bool).

(** What the operating system refuses; a copy that fails leaves what it had written,
    if it could create the file at all. *)
Record UpdaterIO := mkUpdaterIO {
  u_deny_temp : bool;
  u_deny_rename : bool;
  u_copy : option (option string);   (** [None]: it works *)
  u_deny_chmod : bool;
  u_deny_marker : bool
}.

Definition new_binary_path (windows : bool) (dataDir : string) : string :=
  path_join dataDir (if windows then "edr-agent.new.exe" else "edr-agent.new").
Definition pending_path (dataDir : string) : string := path_join dataDir ".update-pending".

Definition digest_hex (content : string) : string := hex_encode (sha256_sum (bytes_of content)).
Definition checksum_ok (content checksum : string) : bool :=
  equal_fold (digest_hex content) (trim_prefix checksum "sha256:").

(** [copyFile]: the file system, and whether it worked. *)
Definition copyFile (io : UpdaterIO) (f : gmap string string) (dst content : string) : gmap string string * bool :=
  match u_copy io with
  | None => (<[dst := content]> f, true)
  | Some None => (f, false)
  | Some (Some partial) => (<[dst := partial]> f, false)
  end.

Section Apply.
Context (windows : bool) (dataDir : string).
(** The text of the marker, with its time. *)
Context (marker_text : string → string → string).

(** [tmp]: the name of the temporary file, which is removed again on every path. *)
Definition Apply (io : UpdaterIO) (dl : download) (tmp : string) (info : UpdateInfo) (f : gmap string string)
    : gmap string string * option string :=
  if u_deny_temp io then (f, Some "create temp file") else
  match dl with
  | NoDownload => (delete tmp f, Some "download binary")
  | BadStatus code => (delete tmp f, Some ("download binary: server returned " +:+ itoa code))
  | Body content complete =>
      if negb complete then (delete tmp f, Some "stream download") else
      if String.eqb content "" then (delete tmp f, Some "downloaded binary is empty") else
      if negb (checksum_ok content (ui_Checksum info)) then (delete tmp f, Some "checksum mismatch") else
      let newBin := new_binary_path windows dataDir in
      let '(f, installed) :=
        if u_deny_rename io
        then let '(f, ok) := copyFile io (<[tmp := content]> f) newBin content in (delete tmp f, ok)
        else (<[newBin := content]> (delete tmp f), true) in
      if negb installed then (f, Some "install new binary") else
      if negb windows && u_deny_chmod io then (f, Some "chmod new binary") else
      if u_deny_marker io then (f, Some "write update-pending marker")
      else (<[pending_path dataDir := marker_text newBin (ui_Version info)]> f, None)
  end.

(** ** Theorems *)
Lemma only_verified io dl tmp info f :
  tmp ≠ new_binary_path windows dataDir → tmp ≠ pending_path dataDir →
  new_binary_path windows dataDir ≠ pending_path dataDir →
  let '(f', err) := Apply io dl tmp info f in
  (f' !! pending_path dataDir = f !! pending_path dataDir ∧ err ≠ None ∨
   err = None ∧ ∃ content, dl = Body content true ∧ content ≠ "" ∧ checksum_ok content (ui_Checksum info) = true ∧
     f' !! new_binary_path windows dataDir = Some content ∧
     f' !! pending_path dataDir = Some (marker_text (new_binary_path windows dataDir) (ui_Version info))) ∧
  ∀ p, p ≠ tmp → p ≠ new_binary_path windows dataDir → p ≠ pending_path dataDir → f' !! p = f !! p.
Proof.
  intros Hn Hp Hnp. unfold Apply, copyFile.
  destruct (u_deny_temp io); [split; [by left|done]|].
  destruct dl as [|code|content complete]; [split; [left|intros]; by rewrite ?lookup_delete_ne by done..|].
  destruct complete; cbn [negb]; [|split; [left|intros]; by rewrite lookup_delete_ne].
  destruct (String.eqb_spec content "") as [|Hne]; [split; [left|intros]; by rewrite lookup_delete_ne|].
  destruct (checksum_ok content (ui_Checksum info)) eqn:Hc; cbn [negb]; [|split; [left|intros]; by rewrite lookup_delete_ne].
  set (new := new_binary_path windows dataDir) in *. set (pend := pending_path dataDir) in *.
  destruct (u_deny_rename io); [destruct (u_copy io) as [[partial|]|]|]; cbn [negb];
    destruct (negb windows && u_deny_chmod io); try destruct (u_deny_marker io);
    (split; [|intros p ???; by rewrite ?lookup_insert_ne, ?lookup_delete_ne, ?lookup_insert_ne by done]);
    first [left; by rewrite ?lookup_insert_ne, ?lookup_delete_ne, ?lookup_insert_ne by done
          |right; split; [done|]; exists content; split; [done|]; split; [done|]; split; [done|]; split; [|by rewrite lookup_insert_eq];
           rewrite lookup_insert_ne by done; rewrite ?lookup_delete_ne by done; by rewrite lookup_insert_eq].
Qed.

(** A binary that was not verified is never announced: however the download and the
    operating system fail, the marker of the supervisor is untouched unless the whole
    file was downloaded, is not empty and has the digest that the server named, and
    then it announces exactly that file, which is in place; no other file of the agent
    changes. *)
Theorem only_verified_updates_are_announced io dl tmp info f :
  tmp ≠ new_binary_path windows dataDir → tmp ≠ pending_path dataDir →
  new_binary_path windows dataDir ≠ pending_path dataDir →
  let '(f', err) := Apply io dl tmp info f in
  (f' !! pending_path dataDir = f !! pending_path dataDir ∧ err ≠ None ∨
   err = None ∧ ∃ content, dl = Body content true ∧ content ≠ "" ∧ checksum_ok content (ui_Checksum info) = true ∧
     f' !! new_binary_path windows dataDir = Some content ∧
     f' !! pending_path dataDir = Some (marker_text (new_binary_path windows dataDir) (ui_Version info))) ∧
  ∀ p, p ≠ tmp → p ≠ new_binary_path windows dataDir → p ≠ pending_path dataDir → f' !! p = f !! p.
Proof. apply only_verified. Qed.
End Apply.

(** ** Together with the supervisor *)
Definition nothing_denied (w : world) : Prop :=
  w_deny_read w = false ∧ w_deny_stat w = false ∧ w_deny_backup w = false ∧ w_deny_install w = false ∧
  w_deny_marker w = false.

Lemma path_join_nonempty d n : n ≠ "" → path_join d n ≠ "".
Proof. intros Hn. unfold path_join. destruct (String.eqb d "."); [done|]. destruct (String.eqb d "/"); [done|]. by destruct d. Qed.

(** C28: what the server named is what runs next: when the updater works in the directory
    of the agent and succeeds, the supervisor, reading the marker, puts exactly the
    verified file at the path of the agent, keeps the old one as a backup and takes
    the marker away. *)
Theorem verified_update_is_installed windows marker_text parse_marker io dl tmp info f f' w agentBin old mk :
  let dataDir := dir agentBin in
  let newBin := new_binary_path windows dataDir in
  NoDup [tmp; newBin; pending_path dataDir; agentBin; backupBinPath windows agentBin] →
  f !! agentBin = Some old → Apply windows dataDir marker_text io dl tmp info f = (f', None) →
  parse_marker (marker_text newBin (ui_Version info)) = Some mk → NewBinary mk = newBin →
  nothing_denied w →
  ∃ f'' content, checkAndApplyUpdate parse_marker windows w f' agentBin = (f'', true, None) ∧
    f'' !! agentBin = Some content ∧ checksum_ok content (ui_Checksum info) = true ∧ content ≠ "" ∧
    f'' !! backupBinPath windows agentBin = Some old ∧ f'' !! pending_path dataDir = None.
Proof.
  intros dataDir newBin Hnd Hold Hap Hpm Hmk (D1 & D2 & D3 & D4 & D5).
  rewrite !NoDup_cons, !not_elem_of_cons in Hnd.
  destruct Hnd as ((N1 & N2 & N3 & N4 & _) & (N5 & N6 & N7 & _) & (N8 & N9 & _) & (N10 & _) & _).
  pose proof (only_verified windows dataDir marker_text io dl tmp info f N1 N2 N5) as H. rewrite Hap in H.
  destruct H as [[[_ ?]|(_ & content & _ & Hne & Hc & Hn & Hm)] Hrest]; [done|].
  assert (f' !! agentBin = Some old) as Hold' by (rewrite Hrest by done; done).
  unfold checkAndApplyUpdate, read_file. rewrite D1. change (path_join (dir agentBin) ".update-pending") with (pending_path dataDir).
  fold newBin in Hn, Hm, Hrest. rewrite Hm, Hpm, Hmk.
  assert (String.eqb newBin "" = false) as ->.
  { apply String.eqb_neq, path_join_nonempty. by destruct windows. }
  rewrite D2, Hn. unfold rename. rewrite D3, Hold', D4. rewrite lookup_insert_ne, lookup_delete_ne, Hn by done.
  unfold remove. rewrite D5. rewrite !lookup_insert_ne, lookup_delete_ne, lookup_insert_ne, lookup_delete_ne, Hm by done.
  cbn [after]. do 2 eexists. split; [reflexivity|].
  split; [by rewrite lookup_delete_ne, lookup_insert_eq by done|]. split; [done|]. split; [done|].
  split; [|by rewrite lookup_delete_eq].
  by rewrite lookup_delete_ne, lookup_insert_ne, lookup_delete_ne, lookup_insert_eq by done.
Qed.

(** The agent gives the updater the directory of its configuration; the supervisor
    looks in the directory of the binary.  Where they differ the update is never
    applied: the agent ends to be restarted, and the old binary runs again. *)
Lemma update_elsewhere_is_ignored windows marker_text parse_marker io dl tmp info f f' w agentBin dataDir :
  Apply windows dataDir marker_text io dl tmp info f = (f', None) →
  marker_path agentBin ∉ [tmp; new_binary_path windows dataDir; pending_path dataDir] →
  NoDup [tmp; new_binary_path windows dataDir; pending_path dataDir] →
  f !! marker_path agentBin = None → w_deny_read w = false →
  checkAndApplyUpdate parse_marker windows w f' agentBin = (f', false, None).
Proof.
  intros Hap Hmp Hnd Hm Hd. rewrite !NoDup_cons, !not_elem_of_cons in Hnd. rewrite !not_elem_of_cons in Hmp.
  destruct Hnd as ((N1 & N2 & _) & (N5 & _) & _), Hmp as (M1 & M2 & M3 & _).
  pose proof (only_verified windows dataDir marker_text io dl tmp info f N1 N2 N5) as H.
  rewrite Hap in H. destruct H as [_ H]. unfold checkAndApplyUpdate, read_file. rewrite Hd. fold (marker_path agentBin).
  by rewrite H, Hm by done.
Qed.

(** The layout of the packages: the binary in /usr/local/bin, the configuration in
    /etc/edr.  The update is downloaded again, and the agent ends again, as often as it
    is started. *)
Definition allowed_update : UpdaterIO := mkUpdaterIO false false None false false.
Definition toy_info : UpdateInfo := mkUpdateInfo "2" "/dl" (digest_hex "new") false.
Definition installed_disk : gmap string string := <["/usr/local/bin/edr-agent" := "old"]> ∅.

Lemma packaged_agent_never_updates :
  let '(f', err) := Apply false "/etc/edr" (λ b v, b) allowed_update (Body "new" true) "/etc/edr/tmp" toy_info installed_disk in
  err = None ∧
  (let '(_, updated, e) := checkAndApplyUpdate toy_marker false (sample_world (31 * second)) f' "/usr/local/bin/edr-agent" in
   updated = false ∧ e = None) ∧
  f' !! "/usr/local/bin/edr-agent" = Some "old" ∧ f' !! "/etc/edr/.update-pending" = Some "/etc/edr/edr-agent.new".
Proof. by vm_compute. Qed.

(** ** Witnesses *)
Lemma only_verified_updates_are_announced_witness :
  "/opt/t" ≠ new_binary_path false "/opt" ∧ "/opt/t" ≠ pending_path "/opt" ∧ new_binary_path false "/opt" ≠ pending_path "/opt" ∧
  let '(f', err) := Apply false "/opt" (λ b v, b) allowed_update (Body "bad" true) "/opt/t" toy_info sample_disk in
  err ≠ None ∧ f' !! "/opt/edr-agent" = Some "old".
Proof.
  assert ("/opt/t" ≠ new_binary_path false "/opt") as H1 by discriminate.
  assert ("/opt/t" ≠ pending_path "/opt") as H2 by discriminate.
  assert (new_binary_path false "/opt" ≠ pending_path "/opt") as H3 by discriminate.
  split; [exact H1|]. split; [exact H2|]. split; [exact H3|].
  pose proof (only_verified_updates_are_announced false "/opt" (λ b v, b) allowed_update (Body "bad" true) "/opt/t" toy_info
    sample_disk H1 H2 H3) as HT.
  destruct (Apply false "/opt" (λ b v, b) allowed_update (Body "bad" true) "/opt/t" toy_info sample_disk) as [f' err] eqn:E.
  destruct HT as [[[_ He]|(_ & content & Hb & _ & Hc & _)] Hrest].
  - split; [exact He|]. rewrite Hrest; [reflexivity|discriminate..].
  - injection Hb as <-. vm_compute in Hc. discriminate.
Defined.

Lemma verified_update_is_installed_witness :
  let f := <["/opt/edr-agent" := "old"]> ∅ : gmap string string in
  ∃ f'' content, checkAndApplyUpdate toy_marker false (sample_world second)
      (Apply false "/opt" (λ b v, b) allowed_update (Body "new" true) "/opt/t" toy_info f).1 "/opt/edr-agent" = (f'', true, None) ∧
    f'' !! "/opt/edr-agent" = Some content ∧ checksum_ok content (ui_Checksum toy_info) = true ∧ content ≠ "" ∧
    f'' !! backupBinPath false "/opt/edr-agent" = Some "old" ∧ f'' !! pending_path "/opt" = None.
Proof.
  intros f. destruct (Apply false "/opt" (λ b v, b) allowed_update (Body "new" true) "/opt/t" toy_info f) as [f' err] eqn:E.
  assert (err = None) as ->.
  { assert ((Apply false "/opt" (λ b v, b) allowed_update (Body "new" true) "/opt/t" toy_info f).2 = None) as H by (vm_compute; reflexivity).
    rewrite E in H. exact H. }
  apply (verified_update_is_installed false (λ b v, b) toy_marker allowed_update (Body "new" true) "/opt/t" toy_info f f'
    (sample_world second) "/opt/edr-agent" "old" {| NewBinary := "/opt/edr-agent.new"; Version := "2"; Timestamp := "" |}).
  - apply (bool_decide_unpack _). vm_compute. exact I.
  - reflexivity.
  - exact E.
  - reflexivity.
  - reflexivity.
  - repeat split.
Defined.
