(* ===== verification/RetroHunt.v ===== *)
(** * Hunting in the past

    [server/internal/scheduler/retro_rule_hunter.go] and [retro_ioc_hunter.go]: the
    detection server looks at an event once, with the rules and indicators it has
    then; these workers look at the stored events with the rules and indicators that
    came later.  Each keeps a watermark in the database.  The tables are lists in the
    order in which the database happens to return rows that compare equal; what the
    database answers to each statement is an input.  With [server/internal/store/ioc.go],
    which fills the table of indicators. *)

From Stdlib Require Import Ascii.
From S2P Require Import Prelude GoStrings Event Sequence RuleEngine Beacon Ingestion.

#[local] Open Scope string_scope.
#[local] Open Scope list_scope.
#[local] Open Scope Z_scope.

(** ** SQL *)

(** The rest of a character whose first byte is gone. *)
Fixpoint char_rest (s : string) : string :=
  match s with
  | String c s' => if (128 <=? nat_of_ascii c)%nat && (nat_of_ascii c <? 192)%nat then char_rest s' else s
  | EmptyString => s
  end.

(** [s LIKE p]: [%] is any text, [_] a character, and a backslash quotes the next
    byte. *)
Fixpoint like (p s : string) : bool :=
  match p with
  | EmptyString => String.eqb s ""
  | String c p' =>
      if Ascii.eqb c (chr 37) then
        (fix skip (s : string) : bool :=
           like p' s || match s with EmptyString => false | String _ s' => skip s' end) s
      else if Ascii.eqb c (chr 95) then
        match s with EmptyString => false | String _ s' => like p' (char_rest s') end
      else if Ascii.eqb c (chr 92) then
        match p', s with
        | String q p'', String x s' => Ascii.eqb q x && like p'' s'
        | _, _ => false
        end
      else match s with String x s' => Ascii.eqb c x && like p' s' | EmptyString => false end
  end.

Example like_examples :
  like "%ab%c%" "xxab--c" = true ∧ like "%ab%c%" "xxa-b-c" = false ∧ like "a_c" "abc" = true ∧
  like "a\_c" "abc" = false ∧ like "_" "é" = true ∧ like "%" "" = true.
Proof. by vm_compute. Qed.

(** [ORDER BY]: rows that compare equal stay in the order of the table. *)
Fixpoint insert_on {A} (key : A → Z) (x : A) (l : list A) : list A :=
  match l with
  | [] => [x]
  | y :: l' => if key x <=? key y then x :: l else y :: insert_on key x l'
  end.
Definition sort_on {A} (key : A → Z) (l : list A) : list A := foldr (insert_on key) [] l.

(** What the database does with a query: it refuses it, it answers with some first
    rows and then an error, or it answers. *)
Inductive answer := Refused | CutAfter (n : nat) | Whole.

(** The rows that a loop sees, and whether [rows.Err()] is nil after the last. *)
Definition rows_of {A} (a : answer) (l : list A) : option (list A * bool) :=
  match a with
  | Refused => None
  | CutAfter n => Some (take n l, false)
  | Whole => Some (l, true)
  end.

(** ** Tables *)
Record EventRow := mkEventRow {
  er_event_id : string;
  er_agent_id : string;
  er_event_type : string;
  er_raw_data : option event;       (** the object in it, if it is one *)
  er_time : time
}.

Record RetroAlertRow := mkRetroAlertRow {
  al_id : string;
  al_title : string;
  al_severity : Z;
  al_agent_id : option string;
  al_description : string;
  al_source : string
}.

Definition blank_line : string := String (chr 10) (String (chr 10) "").
Definition nil_uuid : string := "00000000-0000-0000-0000-000000000000".
Definition agent_column (agentID : string) : option string :=
  if negb (String.eqb agentID "") && negb (String.eqb agentID nil_uuid) then Some agentID else None.

(** Events of a type in the last [lookback], the newest first. *)
Definition recent_events (now : time) (lookback : duration) (eventType : string) (l : list EventRow) : list EventRow :=
  sort_on (λ e, - er_time e)
    (filter (λ e, er_event_type e = eventType ∧ now - lookback < er_time e) l).

(** ** Rules *)
Record RuleRow := mkRuleRow { rr_id : string; rr_enabled : bool; rr_created_at : time }.

Record RetroRuleHunter := mkRetroRuleHunter {
  rh_lookback : duration;
  rh_interval : duration;
  rh_maxEvents : nat;
  rh_maxAlerts : nat
}.

Definition NewRetroRuleHunter (lookbackHours interval : Z) : RetroRuleHunter :=
  let lookbackHours := if lookbackHours <=? 0 then 24 else lookbackHours in
  let interval := if interval <=? 0 then hour else interval in
  mkRetroRuleHunter (lookbackHours * hour) interval (Z.to_nat 5000) 200.

(** [last_rule_ts]: the single row of [retro_rule_state]. *)
Record RuleHuntDB := mkRuleHuntDB {
  rd_last_rule_ts : option time;
  rd_rules : list RuleRow;
  rd_events : list EventRow;
  rd_alerts : list RetroAlertRow
}.

(** What the database answers during one pass, and its clock. *)
Record RuleHuntEnv := mkRuleHuntEnv {
  re_now : time;
  re_seeds : bool;
  re_reads : bool;
  re_rules : answer;
  re_events : answer;
  re_counts : string → string → bool;
  re_inserts : string → string → bool;
  re_mint : string → string → string;
  re_updates : bool
}.

(** What the hunter asks of [*detectionrules.RuleEngine]: it may change while it
    evaluates. *)
Class ruleEvaluator (S : Type) := evaluate : S → event → S * option (list RuleMatch).

Section RuleHunter.
Context {S : Type} `{!ruleEvaluator S}.
(** The time of an event as text. *)
Context (format_time : time → string).

Definition ensureState (v : RuleHuntEnv) (d : RuleHuntDB) : option RuleHuntDB :=
  if re_seeds v
  then Some (mkRuleHuntDB (Some (default (re_now v) (rd_last_rule_ts d))) (rd_rules d) (rd_events d) (rd_alerts d))
  else None.

(** The rules of the query, and the newest time among those read. *)
Definition new_rules (w : time) (l : list RuleRow) : list RuleRow :=
  sort_on rr_created_at (filter (λ r, rr_enabled r = true ∧ w < rr_created_at r) l).
Definition newest (w : time) (l : list RuleRow) : time := foldl (λ t r, Z.max t (rr_created_at r)) w l.

Definition retro_pattern (eventID name : string) : string := "%" +:+ eventID +:+ "%" +:+ name +:+ "%".
Definition retro_description (name : string) (occurredAt : time) (eventID : string) : string :=
  "レトロアクティブ照合: 発生後に追加された検知ルール「" +:+ name +:+ "」が過去の process イベントに一致。発生時刻: "
  +:+ format_time occurredAt +:+ blank_line +:+ "イベントID: " +:+ eventID +:+ " / ルール: " +:+ name.

Definition retro_alert (v : RuleHuntEnv) (e : EventRow) (m : RuleMatch) : RetroAlertRow :=
  mkRetroAlertRow (re_mint v (er_event_id e) (RuleName m))
    ("[RETRO] 過去のイベントに新規ルール一致: " +:+ RuleName m)
    (if Severity m <? 1 then 3 else Severity m)
    (agent_column (er_agent_id e))
    (retro_description (RuleName m) (er_time e) (er_event_id e)) "retro_rule".

(** The alert that an event already has for a rule of that name. *)
Definition retro_known (eventID name : string) (a : RetroAlertRow) : bool :=
  String.eqb (al_source a) "retro_rule" && like (retro_pattern eventID name) (al_description a).

(** The alerts so far, how many of them this pass created, and how often it reported a
    failure. *)
Record Progress := mkProgress { pg_alerts : list RetroAlertRow; pg_created : nat; pg_failures : nat }.

(** A count that fails reads as none. *)
Definition createRetroRuleAlert (v : RuleHuntEnv) (e : EventRow) (m : RuleMatch) (s : Progress) : Progress :=
  if re_counts v (er_event_id e) (RuleName m) && existsb (retro_known (er_event_id e) (RuleName m)) (pg_alerts s)
  then s
  else if re_inserts v (er_event_id e) (RuleName m)
  then mkProgress (pg_alerts s ++ [retro_alert v e m]) (Datatypes.S (pg_created s)) (pg_failures s)
  else mkProgress (pg_alerts s) (pg_created s) (Datatypes.S (pg_failures s)).

Definition hunt_match (v : RuleHuntEnv) (newRules : list string) (e : EventRow) (s : Progress) (m : RuleMatch)
    : Progress :=
  if bool_decide (RuleID m ∈ newRules) then createRetroRuleAlert v e m s else s.

(** An event without a platform counts as one of Linux. *)
Definition with_platform (flat : event) : event :=
  match get flat "platform" with Some _ => flat | None => flat ++ [("platform", VStr "linux")] end.

(** The events in turn: the evaluator, the progress, and whether the loop ran to the
    end. *)
Fixpoint hunt_events (h : RetroRuleHunter) (v : RuleHuntEnv) (newRules : list string) (evs : list EventRow)
    (ev : S) (s : Progress) : S * Progress * bool :=
  match evs with
  | [] => (ev, s, true)
  | e :: evs' =>
      if (rh_maxAlerts h <=? pg_created s)%nat then (ev, s, false) else
      match er_raw_data e with
      | None => hunt_events h v newRules evs' ev s
      | Some flat =>
          let '(ev, r) := evaluate ev (with_platform flat) in
          hunt_events h v newRules evs' ev
            match r with
            | None => mkProgress (pg_alerts s) (pg_created s) (Datatypes.S (pg_failures s))
            | Some ms => foldl (hunt_match v newRules e) s ms
            end
      end
  end.

Definition rule_history (h : RetroRuleHunter) (v : RuleHuntEnv) (d : RuleHuntDB) : list EventRow :=
  take (rh_maxEvents h) (recent_events (re_now v) (rh_lookback h) "process" (rd_events d)).

(** One pass: the evaluator, the database, and how often a failure was reported. *)
Definition RetroRuleHunter_hunt (h : RetroRuleHunter) (v : RuleHuntEnv) (ev : S) (d : RuleHuntDB)
    : S * RuleHuntDB * nat :=
  match ensureState v d with
  | None => (ev, d, 1%nat)
  | Some d =>
      match (if re_reads v then rd_last_rule_ts d else None) with
      | None => (ev, d, 1%nat)
      | Some w =>
          match rows_of (re_rules v) (new_rules w (rd_rules d)) with
          | None => (ev, d, 1%nat)
          | Some (rules, complete) =>
              let n := if complete then 0%nat else 1%nat in
              match rules with
              | [] => (ev, d, n)
              | _ =>
                  match rows_of (re_events v) (rule_history h v d) with
                  | None => (ev, d, Datatypes.S n)
                  | Some (evs, complete) =>
                      let '(ev, s, finished) :=
                        hunt_events h v (rr_id <$> rules) evs ev (mkProgress (rd_alerts d) 0 n) in
                      let d' w := mkRuleHuntDB (Some w) (rd_rules d) (rd_events d) (pg_alerts s) in
                      if finished && negb complete then (ev, d' w, Datatypes.S (pg_failures s))
                      else if re_updates v then (ev, d' (newest w rules), pg_failures s)
                      else (ev, d' w, Datatypes.S (pg_failures s))
                  end
              end
          end
      end
  end.
End RuleHunter.

(** ** Indicators *)
Record IocRow := mkIocRow {
  ioc_id : string;
  ioc_type : string;
  ioc_value : string;
  ioc_severity : Z;
  ioc_is_active : bool;
  ioc_first_seen : option time      (** [NULL] unless a statement sets it *)
}.

(** *** The table: server/internal/store/ioc.go *)

(** An [IOCEntry] as far as the statements write it. *)
Record IOCEntry := mkIOCEntry { en_Type : string; en_Value : string; en_Severity : Z; en_IsActive : bool }.

Definition entry_key (e : IOCEntry) : string * string := (en_Type e, en_Value e).
Definition row_key (r : IocRow) : string * string := (ioc_type r, ioc_value r).
Definition type_known (t : string) : bool := existsb (String.eqb t) ["hash"; "ip"; "domain"; "url"; "email"].
Definition severity_known (z : Z) : bool := (1 <=? z) && (z <=? 10).
Definition insertable (e : IOCEntry) : bool := type_known (en_Type e) && severity_known (en_Severity e).

(** The columns of the statement; [first_seen] is not one of them. *)
Definition new_row (id : string) (active : bool) (e : IOCEntry) : IocRow :=
  mkIocRow id (en_Type e) (en_Value e) (en_Severity e) active None.

Definition taken (t : list IocRow) (e : IOCEntry) : bool := existsb (λ r, bool_decide (row_key r = entry_key e)) t.

Definition Insert (id : string) (e : IOCEntry) (t : list IocRow) : res (list IocRow) :=
  if negb (insertable e) then Err "constraint" else
  if taken t e then Err "duplicate" else Ok (t ++ [new_row id (en_IsActive e) e]).

(** One transaction; a row that is there already is left alone. *)
Fixpoint bulk_insert (mint : nat → string) (i : nat) (es : list IOCEntry) (t : list IocRow) (inserted : Z)
    : res (list IocRow * Z) :=
  match es with
  | [] => Ok (t, inserted)
  | e :: es' =>
      if negb (insertable e) then Err "constraint" else
      if taken t e then bulk_insert mint (S i) es' t inserted
      else bulk_insert mint (S i) es' (t ++ [new_row (mint i) true e]) (inserted + 1)
  end.
Definition BulkInsert (mint : nat → string) (es : list IOCEntry) (t : list IocRow) : res (list IocRow * Z) :=
  bulk_insert mint 0 es t 0.

Definition SetActive (id : string) (active : bool) (t : list IocRow) : list IocRow :=
  (λ r, if String.eqb (ioc_id r) id
        then mkIocRow (ioc_id r) (ioc_type r) (ioc_value r) (ioc_severity r) active (ioc_first_seen r) else r) <$> t.
Definition Delete (id : string) (t : list IocRow) : res (list IocRow) :=
  if existsb (λ r, String.eqb (ioc_id r) id) t then Ok (filter (λ r, ioc_id r ≠ id) t) else Err "not found".

(** *** The hunter *)
Record RetroIOCHunter := mkRetroIOCHunter {
  ih_lookback : duration;
  ih_interval : duration;
  ih_maxNewIOCs : nat;
  ih_maxMatches : nat
}.

Definition NewRetroIOCHunter (lookbackDays interval : Z) : RetroIOCHunter :=
  let lookbackDays := if lookbackDays <=? 0 then 30 else lookbackDays in
  let interval := if interval <=? 0 then 6 * hour else interval in
  mkRetroIOCHunter (lookbackDays * (24 * hour)) interval (Z.to_nat 20000) 500.

Record IocHuntDB := mkIocHuntDB {
  id_last_hunted_at : option time;
  id_iocs : list IocRow;
  id_events : list EventRow;
  id_alerts : list RetroAlertRow;
  id_published : list (string * string * string * Z)   (** [alerts.new]: id, agent, title, severity *)
}.

(** A scan is named by its event type and its field. *)
Record IocHuntEnv := mkIocHuntEnv {
  ie_reads : bool;
  ie_iocs : answer;
  ie_scans : string → string → answer;
  ie_clock : string → string → time;
  ie_counts : string → bool;
  ie_inserts : string → bool;
  ie_mint : string → string;
  ie_connected : bool;              (** [h.nc] is not nil *)
  ie_publishes : string → bool;
  ie_updates : bool;
  ie_end : time                     (** [NOW()] in the last statement *)
}.

Abbreviation iocMeta := (gmap string Z) (only parsing).

Definition ioc_group (names : list string) (fold : string → string) (rows : list IocRow) : iocMeta :=
  foldl (λ m r, let value := trim_space (ioc_value r) in
                if String.eqb value "" then m
                else if existsb (String.eqb (ioc_type r)) names then <[fold value := ioc_severity r]> m else m)
    ∅ rows.

Definition ip_types : list string := ["ip"; "ipv4"; "ipv6"].
Definition domain_types : list string := ["domain"; "hostname"].
Definition hash_types : list string := ["hash"; "md5"; "sha1"; "sha256"].

Definition seen_after (w : time) (r : IocRow) : bool :=
  match ioc_first_seen r with Some t => w <? t | None => false end.
Definition new_iocs (w : time) (l : list IocRow) : list IocRow :=
  sort_on (λ r, default 0 (ioc_first_seen r)) (filter (λ r, ioc_is_active r && seen_after w r = true) l).

Definition loadNewIOCs (h : RetroIOCHunter) (v : IocHuntEnv) (w : time) (d : IocHuntDB)
    : iocMeta * iocMeta * iocMeta * bool :=
  match rows_of (ie_iocs v) (take (ih_maxNewIOCs h) (new_iocs w (id_iocs d))) with
  | None => (∅, ∅, ∅, false)
  | Some (rows, complete) =>
      (ioc_group ip_types id rows, ioc_group domain_types to_lower rows, ioc_group hash_types to_lower rows, complete)
  end.

Section IocHunter.
(** The time of an event as text, and [->>] on what is neither a text nor null. *)
Context (format_time : time → string).
Context (json_text : value → string).

Definition column_text (flat : event) (k : string) : option string :=
  match get flat k with
  | None | Some VNil => None
  | Some (VStr s) => Some s
  | Some x => Some (json_text x)
  end.

(** [raw_data->>'field'], folded if [lower]. *)
Definition scanned (field : string) (lower : bool) (e : EventRow) : option string :=
  match er_raw_data e with
  | None => None
  | Some flat => (if lower then to_lower else id) <$> column_text flat field
  end.

Definition ioc_pattern (eventID : string) : string := "%" +:+ eventID +:+ "%".
Definition ioc_known (eventID : string) (a : RetroAlertRow) : bool := like (ioc_pattern eventID) (al_description a).

Definition ioc_description (eventType field value : string) (occurredAt : time) (eventID : string) : string :=
  "レトロアクティブ照合: " +:+ eventType +:+ " イベント(" +:+ field +:+ "=" +:+ value
  +:+ ")が新規登録IOCと一致しました。" +:+ "発生時刻: " +:+ format_time occurredAt +:+ blank_line
  +:+ "イベントID: " +:+ eventID.

Definition clamp_severity (threat : Z) : Z :=
  let severity := if threat <? 1 then 3 else threat in if 10 <? severity then 10 else severity.

Definition retro_ioc_alert (v : IocHuntEnv) (eventType field value : string) (threat : Z) (e : EventRow) : RetroAlertRow :=
  mkRetroAlertRow (ie_mint v (er_event_id e))
    ("[RETRO] 過去のIOC一致: " +:+ eventType +:+ " に " +:+ value +:+ " へのアクセス")
    (clamp_severity threat) (agent_column (er_agent_id e))
    (ioc_description eventType field value (er_time e) (er_event_id e)) "retro_ioc".

Definition announce (v : IocHuntEnv) (agentID : string) (a : RetroAlertRow) (d : IocHuntDB) : IocHuntDB :=
  mkIocHuntDB (id_last_hunted_at d) (id_iocs d) (id_events d) (id_alerts d ++ [a])
    (if ie_connected v && ie_publishes v (al_id a)
     then id_published d ++ [(al_id a, agentID, al_title a, al_severity a)] else id_published d).

Definition createRetroAlert (v : IocHuntEnv) (eventType field value : string) (threat : Z) (e : EventRow)
    (d : IocHuntDB) : IocHuntDB :=
  if ie_counts v (er_event_id e) && existsb (ioc_known (er_event_id e)) (id_alerts d) then d
  else if ie_inserts v (er_event_id e)
  then announce v (er_agent_id e) (retro_ioc_alert v eventType field value threat e) d
  else d.

Definition threat_of (eventType matched : string) (iocs : iocMeta) : Z :=
  default 0 (iocs !! (if String.eqb eventType "dns" then to_lower matched else matched)).

Definition hunt_row (v : IocHuntEnv) (eventType field : string) (lower : bool) (iocs : iocMeta)
    (d : IocHuntDB) (e : EventRow) : IocHuntDB :=
  match scanned field lower e with
  | Some matched => createRetroAlert v eventType field matched (threat_of eventType matched iocs) e d
  | None => d
  end.

Definition ioc_matches (field : string) (lower : bool) (iocs : iocMeta) (e : EventRow) : bool :=
  match scanned field lower e with Some x => bool_decide (is_Some (iocs !! x)) | None => false end.

Definition huntField (h : RetroIOCHunter) (v : IocHuntEnv) (eventType field : string) (lower : bool)
    (iocs : iocMeta) (d : IocHuntDB) : IocHuntDB * bool :=
  if bool_decide (iocs = ∅) then (d, true) else
  match rows_of (ie_scans v eventType field)
    (take (ih_maxMatches h)
       (filter (λ e, ioc_matches field lower iocs e = true)
          (recent_events (ie_clock v eventType field) (ih_lookback h) eventType (id_events d)))) with
  | None => (d, false)
  | Some (rows, complete) => (foldl (hunt_row v eventType field lower iocs) d rows, complete)
  end.

(** The scans of a pass, in order. *)
Definition scans (ips domains hashes : iocMeta) : list (string * string * bool * iocMeta) :=
  ("network", "dst_ip", false, ips) :: ("dns", "query", true, domains)
  :: (eventType ← ["process"; "file"; "image_load"]; (λ field, (eventType, field, true, hashes)) <$> ["sha256"; "md5"; "sha1"]).

Definition scan (h : RetroIOCHunter) (v : IocHuntEnv) (s : IocHuntDB * bool) (q : string * string * bool * iocMeta)
    : IocHuntDB * bool :=
  let '(eventType, field, lower, iocs) := q in
  let '(d, ok) := huntField h v eventType field lower iocs s.1 in (d, s.2 && ok).

Definition advanceWatermark (v : IocHuntEnv) (d : IocHuntDB) : IocHuntDB :=
  if ie_updates v
  then mkIocHuntDB (Some (ie_end v)) (id_iocs d) (id_events d) (id_alerts d) (id_published d) else d.

Definition RetroIOCHunter_hunt (h : RetroIOCHunter) (v : IocHuntEnv) (d : IocHuntDB) : IocHuntDB :=
  match (if ie_reads v then id_last_hunted_at d else None) with
  | None => d
  | Some w =>
      let '(ips, domains, hashes, complete) := loadNewIOCs h v w d in
      if bool_decide (ips = ∅) && bool_decide (domains = ∅) && bool_decide (hashes = ∅)
      then if complete then advanceWatermark v d else d
      else
        let '(d, complete) := foldl (scan h v) (d, complete) (scans ips domains hashes) in
        if complete then advanceWatermark v d else d
  end.
End IocHunter.

(** What changes the table of indicators, and the passes of the hunter. *)
Inductive ioc_step (format_time : time → string) (json_text : value → string) : IocHuntDB → IocHuntDB → Prop :=
| step_insert id e d t : Insert id e (id_iocs d) = Ok t →
    ioc_step format_time json_text d (mkIocHuntDB (id_last_hunted_at d) t (id_events d) (id_alerts d) (id_published d))
| step_bulk mint es d t n : BulkInsert mint es (id_iocs d) = Ok (t, n) →
    ioc_step format_time json_text d (mkIocHuntDB (id_last_hunted_at d) t (id_events d) (id_alerts d) (id_published d))
| step_active id active d :
    ioc_step format_time json_text d (mkIocHuntDB (id_last_hunted_at d) (SetActive id active (id_iocs d)) (id_events d) (id_alerts d) (id_published d))
| step_delete id d t : Delete id (id_iocs d) = Ok t →
    ioc_step format_time json_text d (mkIocHuntDB (id_last_hunted_at d) t (id_events d) (id_alerts d) (id_published d))
| step_event e d :
    ioc_step format_time json_text d (mkIocHuntDB (id_last_hunted_at d) (id_iocs d) (id_events d ++ [e]) (id_alerts d) (id_published d))
| step_hunt h v d : ioc_step format_time json_text d (RetroIOCHunter_hunt format_time json_text h v d).

(** ** The engine behind the interface *)

(** [*RuleEngine] with what [Evaluate] reads of the clock, call after call. *)
Definition Engine : Type := RuleEngine * NetworkDetectors * list time.

#[export] Instance engine_evaluator : ruleEvaluator Engine := λ s x,
  let '(e, n, clock) := s in
  let '(e, n, ms) := evaluate_event e n (hd 0 clock) x in (e, n, tl clock, Some ms).

(** ** What ingestion stores *)

(** A stored event of [Ingestion.v] in the table. *)
Definition stored (json_object : string → option event) (agentID : string) (p : preppedEvent) : EventRow :=
  mkEventRow (pp_eventID p) agentID (pp_evtType p) (object_of json_object (pp_raw p)) (pp_evtTime p).
