(* ===== verification/RetroHuntProofs.v ===== *)
(** * Hunting in the past: theorems

    A pass over rules, or over indicators, that the database answers and no limit cuts
    finds what it is there to find and moves its watermark past it.  In the program as
    it is, what ingestion stores is taken for events of Linux, and no indicator is ever
    new; what a limit cuts off is lost. *)

From Stdlib Require Import Ascii Sorted.
From S2P Require Import IngestionProofs.
From S2P Require Import Prelude GoStrings Event Sequence RuleEngine Beacon Ingestion RetroHunt.

#[local] Open Scope string_scope.
#[local] Open Scope list_scope.
#[local] Open Scope Z_scope.

(** ** Lists in the order of a query *)
Lemma elem_of_insert_on {A} (key : A → Z) x y l : y ∈ insert_on key x l ↔ y = x ∨ y ∈ l.
Proof.
  induction l as [|z l IH]; cbn [insert_on]; [set_solver|]. destruct (_ <=? _); [set_solver|].
  rewrite elem_of_cons, IH. set_solver.
Qed.

Lemma elem_of_sort_on {A} (key : A → Z) y l : y ∈ sort_on key l ↔ y ∈ l.
Proof.
  induction l as [|x l IH]; [done|]. unfold sort_on in *. cbn [foldr]. rewrite elem_of_insert_on, IH. set_solver.
Qed.

Lemma insert_on_sorted {A} (key : A → Z) x l :
  StronglySorted (λ a b, key a <= key b) l → StronglySorted (λ a b, key a <= key b) (insert_on key x l).
Proof.
  induction 1 as [|y l Hl IH Hy]; cbn [insert_on]; [by repeat constructor|].
  destruct (Z.leb_spec (key x) (key y)).
  - constructor; [by constructor|]. constructor; [done|]. eapply Forall_impl; [exact Hy|]. cbn. lia.
  - constructor; [done|]. apply Forall_forall. intros z Hz. apply elem_of_insert_on in Hz as [->|Hz]; [lia|].
    rewrite Forall_forall in Hy. by apply Hy.
Qed.

(** A query with [ORDER BY] returns its rows, in order. *)
Lemma sort_on_sorted {A} (key : A → Z) l : StronglySorted (λ a b, key a <= key b) (sort_on key l).
Proof. induction l; [constructor|]. by apply insert_on_sorted. Qed.

Lemma length_insert_on {A} (key : A → Z) x l : length (insert_on key x l) = S (length l).
Proof. induction l as [|y l IH]; cbn [insert_on]; [done|]. destruct (_ <=? _); [done|]. cbn [length]. by rewrite IH. Qed.

Lemma length_sort_on {A} (key : A → Z) l : length (sort_on key l) = length l.
Proof.
  induction l as [|x l IH]; [done|]. unfold sort_on in *. cbn [foldr length]. by rewrite length_insert_on, IH.
Qed.

Lemma elem_of_recent now lookback eventType l e :
  e ∈ recent_events now lookback eventType l ↔
  e ∈ l ∧ er_event_type e = eventType ∧ now - lookback < er_time e.
Proof. unfold recent_events. rewrite elem_of_sort_on, list_elem_of_filter. tauto. Qed.

Lemma length_recent now lookback eventType l : (length (recent_events now lookback eventType l) ≤ length l)%nat.
Proof. unfold recent_events. rewrite length_sort_on. apply length_filter. Qed.

Lemma elem_of_new_rules w l r :
  r ∈ new_rules w l ↔ r ∈ l ∧ rr_enabled r = true ∧ w < rr_created_at r.
Proof. unfold new_rules. rewrite elem_of_sort_on, list_elem_of_filter. tauto. Qed.

Lemma newest_bounds w l : w <= newest w l ∧ ∀ r, r ∈ l → rr_created_at r <= newest w l.
Proof.
  revert w. induction l as [|x l IH]; intros w; cbn [newest foldl].
  - split; [unfold newest; simpl; lia|]. intros r Hr. by apply not_elem_of_nil in Hr.
  - destruct (IH (Z.max w (rr_created_at x))) as [H1 H2]. unfold newest in *. split; [lia|].
    intros r [->|Hr]%elem_of_cons; [lia|by apply H2].
Qed.

(** ** What a pattern finds *)
Lemma like_any p s : like p s = true → like (String (chr 37) p) s = true.
Proof. intros H. destruct s; cbn in *; by rewrite H. Qed.

Lemma like_skip p a s : like p s = true → like (String (chr 37) p) (a +:+ s) = true.
Proof.
  intros H. induction a as [|c a IH]; [by apply like_any|].
  change (like p (String c (a +:+ s)) || like (String (chr 37) p) (a +:+ s) = true). by rewrite IH, orb_true_r.
Qed.

(** No quoting and no wild card for a character. *)
Definition plain (s : string) : bool :=
  negb (contains_char (λ c, Ascii.eqb c (chr 92) || Ascii.eqb c (chr 95)) s).

Lemma like_self s p t : plain s = true → like p t = true → like (s +:+ p) (s +:+ t) = true.
Proof.
  unfold plain. intros Hs Hp. induction s as [|c s IH]; [done|]. cbn [contains_char] in Hs.
  rewrite !negb_orb, !andb_true_iff in Hs. destruct Hs as [[H1 H2] Hs].
  apply negb_true_iff in H1, H2.
  specialize (IH Hs).
  cbn [String.append]. destruct (Ascii.eqb c (chr 37)) eqn:E.
  - apply Ascii.eqb_eq in E as ->. apply (like_skip _ (String (chr 37) "")). exact IH.
  - cbn [like]. rewrite E, H2, H1, Ascii.eqb_refl. exact IH.
Qed.

Lemma append_nil s : s +:+ "" = s.
Proof. induction s; [done|]. cbn. by rewrite IHs. Qed.

Lemma retro_pattern_finds a n b time sep c id d : plain id = true → plain n = true →
  like (retro_pattern id n) (a +:+ n +:+ b +:+ time +:+ sep +:+ c +:+ id +:+ d +:+ n) = true.
Proof.
  intros Hid Hn. replace (a +:+ n +:+ b +:+ time +:+ sep +:+ c +:+ id +:+ d +:+ n)
    with ((a +:+ n +:+ b +:+ time +:+ sep +:+ c) +:+ (id +:+ (d +:+ (n +:+ "")))).
  - unfold retro_pattern. by apply like_skip, like_self, like_skip, like_self.
  - by rewrite append_nil, <-!append_assoc.
Qed.

(** An alert of the hunter is found again for its event and its rule. *)
Lemma retro_alert_known format_time v e m :
  plain (er_event_id e) = true → plain (RuleName m) = true →
  retro_known (er_event_id e) (RuleName m) (retro_alert format_time v e m) = true.
Proof.
  intros He Hm. unfold retro_known, retro_alert. cbn [al_source al_description].
  rewrite String.eqb_refl. cbn [andb]. by apply retro_pattern_finds.
Qed.

(** The characters of a text as they are: no wild card, no quoting. *)
Definition literal (s : string) : bool :=
  negb (contains_char (λ c, Ascii.eqb c (chr 37) || Ascii.eqb c (chr 92) || Ascii.eqb c (chr 95)) s).

Lemma like_literal s p t : literal s = true → like (s +:+ p) t = true → ∃ t', t = s +:+ t' ∧ like p t' = true.
Proof.
  unfold literal. revert t. induction s as [|c s IH]; intros t Hs H; [by exists t|]. cbn [contains_char] in Hs.
  rewrite !negb_orb, !andb_true_iff, !negb_true_iff in Hs. destruct Hs as [[[H1 H2] H3] Hs].
  cbn [String.append like] in H. rewrite H1, H2, H3 in H. destruct t as [|x t]; [done|].
  apply andb_true_iff in H as [->%Ascii.eqb_eq H]. rewrite <-negb_true_iff in Hs.
  destruct (IH t) as (t' & -> & Hp); [|done|by exists t']. by rewrite negb_true_iff in Hs; rewrite Hs.
Qed.

Lemma like_anywhere p t : like (String (chr 37) p) t = true → ∃ a t', t = a +:+ t' ∧ like p t' = true.
Proof.
  induction t as [|x t IH]; intros H.
  - exists "", "". split; [done|]. cbn in H. by rewrite orb_false_r in H.
  - change (like p (String x t) || like (String (chr 37) p) t = true) in H. apply orb_true_iff in H as [H|H].
    + by exists "", (String x t).
    + destruct (IH H) as (a & t' & -> & Hp). by exists (String x a), t'.
Qed.

(** The text holds the identifier and, somewhere behind it, the name. *)
Definition mentions (s id name : string) : Prop := ∃ a b c, s = a +:+ id +:+ b +:+ name +:+ c.

Lemma retro_pattern_mentions id name s : literal id = true → literal name = true →
  like (retro_pattern id name) s = true → mentions s id name.
Proof.
  intros Hi Hn H. unfold retro_pattern in H.
  destruct (like_anywhere (id +:+ "%" +:+ name +:+ "%") s H) as (a & t & -> & H1).
  destruct (like_literal _ _ _ Hi H1) as (t1 & -> & H2).
  destruct (like_anywhere (name +:+ "%") t1 H2) as (b & t2 & -> & H3).
  destruct (like_literal _ _ _ Hn H3) as (c & -> & _). by exists a, b, c.
Qed.

(** ** New rules meet the past *)

(** What the hunter relies on: the evaluator answers, and reports of an event at least
    the matches [must_report] and at most those [may_report]. *)
Class RuleEvaluatorOk (S : Type) `{!ruleEvaluator S} := {
  sound_state : S → Prop;
  must_report : event → RuleMatch → Prop;
  may_report : event → RuleMatch → Prop;
  evaluate_law s x : sound_state s →
    ∃ s' ms, evaluate s x = (s', Some ms) ∧ sound_state s' ∧
      (∀ m, must_report x m → m ∈ ms) ∧ (∀ m, m ∈ ms → may_report x m)
}.

Section RuleTheorems.
Context {S : Type} `{!ruleEvaluator S, !RuleEvaluatorOk S}.
Context (format_time : time → string).

(** Alerts are only added, each counted, each for a pair of [src]. *)
Definition grows (v : RuleHuntEnv) (src : EventRow → RuleMatch → Prop) (s s' : Progress) : Prop :=
  ∃ l, pg_alerts s' = pg_alerts s ++ l ∧ pg_created s' = (pg_created s + length l)%nat ∧
    ∀ a, a ∈ l → ∃ e m, src e m ∧ a = retro_alert format_time v e m.

Lemma grows_refl v src s : grows v src s s.
Proof.
  exists []. rewrite app_nil_r, Nat.add_0_r. split_and!; [done..|]. intros a Ha. by apply not_elem_of_nil in Ha.
Qed.

Lemma grows_trans v src s1 s2 s3 : grows v src s1 s2 → grows v src s2 s3 → grows v src s1 s3.
Proof.
  intros (l & E1 & C1 & H1) (l' & E2 & C2 & H2). exists (l ++ l').
  rewrite E2, C2, E1, C1, length_app, app_assoc. split_and!; [done|lia|].
  intros a [Ha|Ha]%elem_of_app; [by apply H1|by apply H2].
Qed.

Lemma grows_weaken v (src src' : EventRow → RuleMatch → Prop) s s' :
  (∀ e m, src e m → src' e m) → grows v src s s' → grows v src' s s'.
Proof.
  intros Hs (l & E & C & H). exists l. split_and!; [done..|]. intros a Ha.
  destruct (H a Ha) as (e & m & Hm & ->). exists e, m. eauto.
Qed.

(** An alert of the hunter for the event and a rule of that name. *)
Definition covers (v : RuleHuntEnv) (e : EventRow) (m : RuleMatch) (a : RetroAlertRow) : Prop :=
  retro_known (er_event_id e) (RuleName m) a = true ∨ a = retro_alert format_time v e m.
Definition covered (v : RuleHuntEnv) (e : EventRow) (m : RuleMatch) (l : list RetroAlertRow) : Prop :=
  ∃ a, a ∈ l ∧ covers v e m a.

Lemma covered_grows v src s s' e m : grows v src s s' → covered v e m (pg_alerts s) → covered v e m (pg_alerts s').
Proof. intros (l & -> & _) (a & Ha & Hc). exists a. split; [set_solver|done]. Qed.

Lemma hunt_match_grows v nr e s m :
  grows v (λ e' m', e' = e ∧ m' = m ∧ RuleID m ∈ nr) s (hunt_match format_time v nr e s m).
Proof.
  unfold hunt_match. case_bool_decide as Hm; [|apply grows_refl]. unfold createRetroRuleAlert.
  destruct (_ && _); [apply grows_refl|]. destruct (re_inserts _ _ _); [|apply (grows_refl v _ s)].
  eexists. cbn [pg_alerts pg_created]. split; [reflexivity|]. cbn [length]. split; [lia|].
  intros a ->%list_elem_of_singleton. by exists e, m.
Qed.

Lemma hunt_match_covers v nr e s m : (∀ x y, re_inserts v x y = true) → RuleID m ∈ nr →
  covered v e m (pg_alerts (hunt_match format_time v nr e s m)).
Proof.
  intros Hi Hm. unfold hunt_match. rewrite bool_decide_eq_true_2 by done. unfold createRetroRuleAlert.
  destruct (_ && existsb _ _) eqn:Hk.
  - apply andb_true_iff in Hk as [_ (a & Ha & Hk)%existsb_exists]. exists a.
    split; [by apply list_elem_of_In|by left].
  - rewrite Hi. eexists. split; [apply elem_of_app; right; by apply list_elem_of_singleton|by right].
Qed.

Lemma hunt_match_quiet v nr e s m : (∀ x y, re_inserts v x y = true) →
  pg_failures (hunt_match format_time v nr e s m) = pg_failures s.
Proof.
  intros Hi. unfold hunt_match, createRetroRuleAlert. rewrite Hi. by repeat case_match.
Qed.

Lemma hunt_matches_grow v nr e ms s :
  grows v (λ e' m', e' = e ∧ m' ∈ ms ∧ RuleID m' ∈ nr) s (foldl (hunt_match format_time v nr e) s ms).
Proof.
  revert s. induction ms as [|m ms IH]; intros s; [apply grows_refl|]. cbn [foldl]. eapply grows_trans.
  - eapply grows_weaken; [|apply hunt_match_grows]. intros e' m' (-> & -> & Hr). split_and!; [done|by left|exact Hr].
  - eapply grows_weaken; [|apply IH]. intros e' m' (-> & Hm & Hr). split_and!; [done|by right|exact Hr].
Qed.

Lemma hunt_matches_cover v nr e ms s : (∀ x y, re_inserts v x y = true) →
  let s' := foldl (hunt_match format_time v nr e) s ms in
  pg_failures s' = pg_failures s ∧ ∀ m, m ∈ ms → RuleID m ∈ nr → covered v e m (pg_alerts s').
Proof.
  intros Hi. revert s. induction ms as [|m' ms IH]; intros s; cbn [foldl].
  - split; [done|]. intros m Hm. by apply not_elem_of_nil in Hm.
  - destruct (IH (hunt_match format_time v nr e s m')) as [Hf Hc]. rewrite Hf, hunt_match_quiet by done. split; [done|].
    intros m [->|Hm]%elem_of_cons Hr; [|by apply Hc].
    eapply covered_grows; [apply hunt_matches_grow|]. by apply hunt_match_covers.
Qed.

(** What a pass may alert on, and what it must. *)
Definition hunted (nr : list string) (evs : list EventRow) (e : EventRow) (m : RuleMatch) : Prop :=
  e ∈ evs ∧ RuleID m ∈ nr ∧ ∃ flat, er_raw_data e = Some flat ∧ may_report (with_platform flat) m.

Lemma hunt_events_grow h v nr evs : ∀ ev s ev' s' fin,
  sound_state ev → hunt_events format_time h v nr evs ev s = (ev', s', fin) →
  grows v (hunted nr evs) s s'.
Proof.
  induction evs as [|e evs IH]; intros ev s ev' s' fin Hev H; cbn in H.
  { simplify_eq. apply grows_refl. }
  destruct (_ <=? _)%nat; [simplify_eq; apply grows_refl|].
  assert (∀ s, grows v (hunted nr evs) s s' → grows v (hunted nr (e :: evs)) s s') as Hw.
  { intros s0. apply grows_weaken. intros e' m (? & ? & ?). split_and!; [by right|done..]. }
  destruct (er_raw_data e) as [flat|] eqn:Hraw; [|by eapply Hw, IH].
  destruct (evaluate_law ev (with_platform flat) Hev) as (ev1 & ms & He & Hs' & _ & Hmay). rewrite He in H.
  eapply grows_trans; [|by eapply Hw, IH]. eapply grows_weaken; [|apply hunt_matches_grow].
  intros e' m (-> & Hm & Hr). split_and!; [by left|done|]. exists flat. auto.
Qed.

Lemma hunt_events_cover h v nr evs : (∀ x y, re_inserts v x y = true) → ∀ ev s ev' s' fin,
  sound_state ev → hunt_events format_time h v nr evs ev s = (ev', s', fin) → (pg_created s' < rh_maxAlerts h)%nat →
  fin = true ∧ pg_failures s' = pg_failures s ∧
  ∀ e flat m, e ∈ evs → er_raw_data e = Some flat → must_report (with_platform flat) m → RuleID m ∈ nr →
    covered v e m (pg_alerts s').
Proof.
  intros Hi. induction evs as [|e evs IH]; intros ev s ev' s' fin Hev H Hlt; cbn in H.
  { simplify_eq. split_and!; [done..|]. intros e flat m He. by apply not_elem_of_nil in He. }
  destruct (Nat.leb_spec (rh_maxAlerts h) (pg_created s)); [simplify_eq; lia|].
  destruct (er_raw_data e) as [flat|] eqn:Hraw.
  - destruct (evaluate_law ev (with_platform flat) Hev) as (ev1 & ms & He & Hs' & Hmust & _). rewrite He in H.
    destruct (hunt_matches_cover v nr e ms s Hi) as [Hq Hm1].
    edestruct IH as (? & Hf & Hcov); [exact Hs'|exact H|done|]. rewrite Hf, Hq. split_and!; [done..|].
    intros e' flat' m [->|He']%elem_of_cons Hraw' Hm Hr; [|by eapply Hcov].
    eapply covered_grows; [by eapply hunt_events_grow|]. simplify_eq. auto.
  - edestruct IH as (? & ? & Hcov); [exact Hev|exact H|done|]. split_and!; [done..|].
    intros e' flat' m [->|He']%elem_of_cons Hraw' Hm Hr; [congruence|by eapply Hcov].
Qed.

Definition answers_all (v : RuleHuntEnv) : Prop :=
  re_seeds v = true ∧ re_reads v = true ∧ re_rules v = Whole ∧ re_events v = Whole ∧
  (∀ x y, re_inserts v x y = true) ∧ re_updates v = true.

Lemma none_newer w l : new_rules (newest w (new_rules w l)) l = [].
Proof.
  destruct (new_rules _ l) as [|r l'] eqn:H; [done|]. assert (r ∈ r :: l') as Hr by (by left).
  rewrite <-H, elem_of_new_rules in Hr. destruct Hr as (Hr & He & Hlt).
  destruct (newest_bounds w (new_rules w l)) as [Hw Hn].
  assert (rr_created_at r <= newest w (new_rules w l)); [|lia]. apply Hn, elem_of_new_rules. split_and!; [done..|lia].
Qed.

(** The alert says of this event that this rule matches it. *)
Definition reports_on (eventID name : string) (a : RetroAlertRow) : Prop :=
  al_source a = "retro_rule" ∧ ∃ at_time, al_description a =
    "レトロアクティブ照合: 発生後に追加された検知ルール「" +:+ name +:+ "」が過去の process イベントに一致。発生時刻: "
    +:+ format_time at_time +:+ String (chr 10) (String (chr 10) "") +:+ "イベントID: " +:+ eventID
    +:+ " / ルール: " +:+ name.

(** The alert of one event for one rule: what it says, to whom it belongs. *)
Definition alert_on (e : EventRow) (m : RuleMatch) (a : RetroAlertRow) : Prop :=
  reports_on (er_event_id e) (RuleName m) a ∧
  al_title a = "[RETRO] 過去のイベントに新規ルール一致: " +:+ RuleName m ∧
  al_severity a = (if Severity m <? 1 then 3 else Severity m) ∧
  al_agent_id a = (if String.eqb (er_agent_id e) "" || String.eqb (er_agent_id e) "00000000-0000-0000-0000-000000000000"
                   then None else Some (er_agent_id e)).

Lemma retro_alert_on v e m : alert_on e m (retro_alert format_time v e m).
Proof.
  split_and!; [split; [done|by exists (er_time e)]|done..|].
  unfold retro_alert, agent_column, nil_uuid. cbn [al_agent_id]. rewrite <-negb_orb. by destruct (_ || _).
Qed.

(** No alert of the hunter mentions the event and the name without being about them. *)
Definition unmistakable (eventID name : string) (l : list RetroAlertRow) : Prop :=
  literal eventID = true ∧ literal name = true ∧
  ∀ a, a ∈ l → al_source a = "retro_rule" → mentions (al_description a) eventID name → reports_on eventID name a.

Lemma covered_reports v e m l : unmistakable (er_event_id e) (RuleName m) l → covered v e m l →
  ∃ a, a ∈ l ∧ reports_on (er_event_id e) (RuleName m) a.
Proof.
  intros (Hi & Hn & Hl) (a & Ha & [Hk| ->]); exists a + eexists; (split; [exact Ha|]); [|apply retro_alert_on].
  unfold retro_known in Hk. apply andb_true_iff in Hk as [Hs%String.eqb_eq Hk].
  apply Hl; [done..|]. by apply retro_pattern_mentions.
Qed.

End RuleTheorems.

(** ** The engine behind the interface *)

(** It reports what the rules loaded at the start of the pass match; the detectors that
    watch several events may add to that. *)
Definition from_detectors (x : event) (m : RuleMatch) : Prop :=
  (∃ sq now, m ∈ (Sequence.observeAt sq (str_or_empty x "agent_id") (str_or_empty x "type") x now).2) ∨
  ∃ n now, m ∈ (network_matches n now x).2.

#[export] Program Instance engine_ok (e0 : RuleEngine) : RuleEvaluatorOk Engine := {
  sound_state := λ s, ∀ x, evaluate_rules s.1.1 x = evaluate_rules e0 x;
  must_report := λ x m, m ∈ evaluate_rules e0 x;
  may_report := λ x m, m ∈ evaluate_rules e0 x ∨ from_detectors x m
}.
Next Obligation.
  intros e0 [[e n] clock] x Hs. unfold evaluate, engine_evaluator, evaluate_event, Evaluate. cbn [fst] in Hs.
  destruct (Sequence.observeAt _ _ _ _ _) as [sq seqs] eqn:Hsq. destruct (network_matches n _ x) as [n' nets] eqn:Hn.
  eexists _, _. split; [reflexivity|]. rewrite Hs. split; [exact Hs|]. split.
  - intros m Hm. rewrite !elem_of_app. tauto.
  - intros m. rewrite !elem_of_app. intros [[Hm|Hm]|Hm]; [by left|right; left|right; right].
    + exists (sequence e), (hd 0 clock). by rewrite Hsq.
    + exists n, (hd 0 clock). by rewrite Hn.
Qed.

(** ** What the hunter takes every event for *)

Lemma promoted_process e : promoteEventType e = "process" → we_Type e = EVENT_TYPE_PROCESS.
Proof.
  unfold promoteEventType. destruct (we_Type e); cbn [eventTypeString String.eqb negb]; try done; (destruct (List.find (λ m : string * string, has_prefix (we_Id e) m.1) eventTypeByIDPrefix) as [m|] eqn:Hf; [|done]);
    apply List.find_some in Hf as [Hin _]; intros Hm; exfalso;
    repeat (destruct Hin as [<-|Hin]; [discriminate Hm|]); destruct Hin.
Qed.

Lemma stored_process_has_no_platform json_object mint i agentID e p flat :
  prep json_object mint i e = Some p → pp_evtType p = "process" →
  er_raw_data (stored json_object agentID p) = Some flat → get flat "platform" = None.
Proof.
  unfold prep. destruct (String.eqb _ ""); [done|]. intros [= <-]. cbn [pp_evtType pp_raw stored er_raw_data].
  intros Ht%promoted_process. unfold normalizeEventData. rewrite Ht. unfold of_message. cbn [object_of].
  intros [= <-]. destruct (GetProcess e) as [q|]; [|done]. unfold process_payload, addHashes.
  destruct (pe_Hashes q); rewrite !get_app, !get_opt_str by done;
    destruct (String.eqb (pe_ContainerId q) ""), (pe_EnvVars q); done.
Qed.

(** Whatever fails, a pass alerts only on a stored process event, for what the
    evaluator may report of it. *)
Lemma hunt_grows {S} `{!ruleEvaluator S, !RuleEvaluatorOk S} format_time h v (ev : S) d : sound_state ev →
  ∃ l, rd_alerts (RetroRuleHunter_hunt format_time h v ev d).1.2 = rd_alerts d ++ l ∧
    ∀ a, a ∈ l → ∃ e flat m, e ∈ rd_events d ∧ er_event_type e = "process" ∧ er_raw_data e = Some flat ∧
      may_report (with_platform flat) m ∧ a = retro_alert format_time v e m.
Proof.
  intros Hev. assert (∀ x, rd_alerts x = rd_alerts d → ∃ l, rd_alerts x = rd_alerts d ++ l ∧
    ∀ a, a ∈ l → ∃ e flat m, e ∈ rd_events d ∧ er_event_type e = "process" ∧ er_raw_data e = Some flat ∧
      may_report (with_platform flat) m ∧ a = retro_alert format_time v e m) as Hsame.
  { intros x Hx. exists []. rewrite app_nil_r. split; [done|]. intros a Ha. by apply not_elem_of_nil in Ha. }
  unfold RetroRuleHunter_hunt, ensureState. destruct (re_seeds v); [|by apply Hsame].
  cbn [rd_last_rule_ts rd_rules rd_events rd_alerts]. destruct (re_reads v); [|by apply Hsame].
  destruct (rows_of (re_rules v) _) as [[[|r rules] complete]|]; [by apply Hsame| |by apply Hsame].
  destruct (rows_of (re_events v) _) as [[evs complete']|] eqn:He; [|by apply Hsame].
  destruct (hunt_events _ _ _ _ _ _ _) as [[ev' s'] fin] eqn:Hh.
  apply hunt_events_grow in Hh as (l & El & _ & Hl); [|done]. cbn [pg_alerts] in El.
  assert (∀ e, e ∈ evs → e ∈ rd_events d ∧ er_event_type e = "process") as Hevs.
  { intros e Hin. assert (e ∈ rule_history h v d) as Hi.
    { unfold rule_history in *. cbn [rd_events] in He. destruct (re_events v) as [|n|]; [done|..]; simplify_eq/=; [|done].
      eapply elem_of_take in Hin as (i & Hi & _). by eapply list_elem_of_lookup_2. }
    unfold rule_history in Hi. apply elem_of_take in Hi as (i & Hi & _).
    apply list_elem_of_lookup_2, elem_of_recent in Hi. tauto. }
  exists l. split; [repeat case_match; done|]. intros a Ha.
  destruct (Hl a Ha) as (e & m & (Hin & _ & flat & Hraw & Hm) & ->). destruct (Hevs e Hin).
  by exists e, flat, m.
Qed.

Lemma linux_platform flat : get flat "platform" = None → str_or_empty (with_platform flat) "platform" = "linux".
Proof. intros H. unfold with_platform, str_or_empty, get_str. by rewrite H, get_app, H. Qed.

Lemma gated_match e x m : platformGate e = true → m ∈ evaluate_rules e x →
  ∃ id r, e_rules e !! id = Some r ∧ m = rule_match r ∧
    platformMatchesEvent (r_Platform r) (str_or_empty x "platform") = true.
Proof.
  intros Hg. unfold evaluate_rules. rewrite list_elem_of_omap. intros (id & _ & Hc). unfold evaluate_candidate in Hc.
  rewrite Hg in Hc. destruct (e_rules e !! id) as [r|] eqn:Hr; [|done]. destruct (negb (r_Enabled r)); [done|].
  destruct (platformMatchesEvent _ _) eqn:Hp; [|done]. cbn [negb andb] in Hc.
  exists id, r. split; [done|]. split; [|done]. by repeat case_match; simplify_eq.
Qed.

(** The rows that ingestion stores do not name the system of their endpoint, so that the
    hunter takes all of them for events of Linux: with the platform gate on, as it is by
    default, what a pass alerts on comes from rules that apply to Linux (or from the
    detectors that watch several events), whatever the endpoint and whatever rules were
    added. *)
Theorem other_platforms_are_never_hunted json_object format_time e0 h v (ev : Engine) d :
  platformGate e0 = true → (∀ x, evaluate_rules ev.1.1 x = evaluate_rules e0 x) →
  (∀ e, e ∈ rd_events d → ∃ agentID mint i w p, prep json_object mint i w = Some p ∧ e = stored json_object agentID p) →
  ∃ l, rd_alerts (RetroRuleHunter_hunt format_time h v ev d).1.2 = rd_alerts d ++ l ∧
    ∀ a, a ∈ l → ∃ e flat m, er_raw_data e = Some flat ∧ a = retro_alert format_time v e m ∧
      ((∃ id r, e_rules e0 !! id = Some r ∧ m = rule_match r ∧ platformMatchesEvent (r_Platform r) "linux" = true)
       ∨ from_detectors (with_platform flat) m).
Proof.
  intros Hg Hev Hst. destruct (hunt_grows (RuleEvaluatorOk0 := engine_ok e0) format_time h v ev d Hev) as (l & El & Hl).
  exists l. split; [done|]. intros a Ha. destruct (Hl a Ha) as (e & flat & m & Hin & Ht & Hraw & Hm & ->).
  exists e, flat, m. split; [done|]. split; [done|]. destruct Hm as [Hm|Hm]; [left|by right].
  destruct (Hst e Hin) as (agentID & mint & i & w & p & Hp & ->).
  rewrite <-(linux_platform flat) by (by eapply stored_process_has_no_platform). by apply gated_match.
Qed.

(** *** Examples *)
Definition past_rule (id name : string) (platforms : list string) (content : string) : DetectionRule :=
  mkDetectionRule id name "behavioral" platforms 7 content true false false [].
Definition past_engine (rules : list DetectionRule) : RuleEngine :=
  RuleEngine.LoadRules (λ _, None) (λ _, None) rules NewRuleEngine.
Definition past_state (rules : list DetectionRule) : Engine := (past_engine rules, NewNetworkDetectors, []).
Definition past_event (id name : string) (at_hour : Z) : EventRow :=
  mkEventRow id "a1" "process" (Some [("process_name", VStr name); ("pid", VInt 7)]) (at_hour * hour).
Definition past_env (now : time) : RuleHuntEnv :=
  mkRuleHuntEnv now true true Whole Whole (λ _ _, true) (λ _ _, true) (λ e n, e +:+ n) true.
Definition past_run (h : RetroRuleHunter) (rules : list DetectionRule) (now : time) (d : RuleHuntDB)
    : RuleHuntDB * nat :=
  let '(_, d, n) := RetroRuleHunter_hunt (λ _, "") h (past_env now) (past_state rules) d in
  (d, n).
Definition alerted (d : RuleHuntDB) : list string := al_title <$> rd_alerts d.
Definition retro_title (name : string) : string := "[RETRO] 過去のイベントに新規ルール一致: " +:+ name.

Definition mimikatz (platforms : list string) : DetectionRule :=
  past_rule "r1" "Mimikatz" platforms "process_name: mimikatz".
Definition past_db : RuleHuntDB :=
  mkRuleHuntDB (Some (10 * hour)) [mkRuleRow "r1" true (20 * hour)]
    [past_event "e1" "Mimikatz.exe" 5; past_event "e2" "bash" 6; past_event "e3" "mimikatz" 7] [].

(** A rule added at hour 20 finds what happened at hours 5 and 7, once. *)
Example hunt_example :
  let run := past_run (NewRetroRuleHunter 24 0) [mimikatz []] in
  let '(d, n) := run (21 * hour) past_db in
  alerted d = [retro_title "Mimikatz"; retro_title "Mimikatz"] ∧ rd_last_rule_ts d = Some (20 * hour) ∧ n = 0%nat ∧
  rd_alerts (run (22 * hour) d).1 = rd_alerts d.
Proof. by vm_compute. Qed.

(** The engine reports this event of a Windows endpoint when it arrives; the hunter does
    not find it in the table. *)
Example windows_example :
  let rule := mimikatz ["windows"] in
  evaluate_rules (past_engine [rule]) [("platform", VStr "windows"); ("type", VStr "process");
    ("process_name", VStr "mimikatz.exe")] = [rule_match rule] ∧
  alerted (past_run (NewRetroRuleHunter 24 0) [rule] (21 * hour) past_db).1 = [] ∧
  rd_last_rule_ts (past_run (NewRetroRuleHunter 24 0) [rule] (21 * hour) past_db).1 = Some (20 * hour).
Proof. by vm_compute. Qed.

(** What a limit cuts off is lost in silence: the watermark moves all the same. *)
Example limits_lose :
  let h := NewRetroRuleHunter 24 0 in
  let few_alerts := mkRetroRuleHunter (rh_lookback h) (rh_interval h) (rh_maxEvents h) 1 in
  let few_events := mkRetroRuleHunter (rh_lookback h) (rh_interval h) 1 (rh_maxAlerts h) in
  (∀ h', h' ∈ [few_alerts; few_events] →
    let '(d, n) := past_run h' [mimikatz []] (21 * hour) past_db in
    al_description <$> rd_alerts d = [retro_description (λ _, "") "Mimikatz" (7 * hour) "e3"] ∧ n = 0%nat ∧
    rd_last_rule_ts d = Some (20 * hour) ∧
    rd_alerts (past_run h' [mimikatz []] (22 * hour) d).1 = rd_alerts d).
Proof.
  intros h few_alerts few_events h' Hh. rewrite !elem_of_cons in Hh.
  destruct Hh as [->|[->|Hh]]; [by vm_compute|by vm_compute|]. by apply not_elem_of_nil in Hh.
Qed.

(** A rule whose name is part of the name of another rule may have no alert of its own,
    depending on the order of the engine. *)
Example name_in_a_name :
  let rules := [past_rule "r1" "PsExec Service" [] "process_name: psexesvc"; past_rule "r2" "PsExec" [] "process_name: psexe"] in
  let d := mkRuleHuntDB (Some 0) [mkRuleRow "r1" true hour; mkRuleRow "r2" true (2 * hour)] [past_event "e1" "psexesvc.exe" 5] [] in
  RuleName <$> evaluate_rules (past_engine rules) (with_platform [("process_name", VStr "psexesvc.exe")])
    = ["PsExec Service"; "PsExec"] ∧
  alerted (past_run (NewRetroRuleHunter 24 0) rules (6 * hour) d).1 = [retro_title "PsExec Service"].
Proof. by vm_compute. Qed.

(** A rule that was created early and enabled late is never hunted, though it was not
    there for the events. *)
Lemma enabled_late w l r : r ∈ l → rr_created_at r <= w → r ∉ new_rules w l.
Proof. intros _ H (_ & _ & Hlt)%elem_of_new_rules. lia. Qed.


(** ** Indicators that nothing hunts *)

Definition unseen (t : list IocRow) : Prop := ∀ r, r ∈ t → ioc_first_seen r = None.

Lemma unseen_snoc t r : unseen t → ioc_first_seen r = None → unseen (t ++ [r]).
Proof. intros Ht Hr x [Hx|Hx]%elem_of_app; [by apply Ht|]. by apply list_elem_of_singleton in Hx as ->. Qed.

Lemma bulk_unseen mint i es t n t' n' : unseen t → bulk_insert mint i es t n = Ok (t', n') → unseen t'.
Proof.
  revert i t n. induction es as [|e es IH]; intros i t n Ht H; cbn [bulk_insert] in H; [by simplify_eq|].
  destruct (negb _); [done|]. destruct (taken t e); eapply IH; [exact Ht|exact H| |exact H]. by apply unseen_snoc.
Qed.

Lemma no_new_iocs w t : unseen t → new_iocs w t = [].
Proof.
  intros Ht. unfold new_iocs. destruct (sort_on _ _) as [|r l] eqn:H; [done|].
  assert (r ∈ r :: l) as Hr by (by left). rewrite <-H, elem_of_sort_on, list_elem_of_filter in Hr.
  destruct Hr as [Hn Hr]. unfold seen_after in Hn. rewrite (Ht r Hr), andb_false_r in Hn. done.
Qed.

(** A pass that finds no indicator changes the watermark at most. *)
Lemma idle_pass format_time json_text h v d : unseen (id_iocs d) →
  ∃ w, RetroIOCHunter_hunt format_time json_text h v d =
    mkIocHuntDB w (id_iocs d) (id_events d) (id_alerts d) (id_published d).
Proof.
  intros Hu. assert (∃ w, d = mkIocHuntDB w (id_iocs d) (id_events d) (id_alerts d) (id_published d)) as Hd
    by (exists (id_last_hunted_at d); by destruct d).
  unfold RetroIOCHunter_hunt. destruct (if ie_reads v then _ else _) as [w|]; [|exact Hd].
  unfold loadNewIOCs. rewrite no_new_iocs, take_nil by done.
  assert (∀ c, ∃ w, (if c : bool then advanceWatermark v d else d) =
    mkIocHuntDB w (id_iocs d) (id_events d) (id_alerts d) (id_published d)) as Hadv.
  { intros []; [|exact Hd]. unfold advanceWatermark. destruct (ie_updates v); [by eexists|exact Hd]. }
  destruct (ie_iocs v) as [|n|]; cbn [rows_of]; rewrite ?take_nil; cbn [ioc_group foldl];
    apply (Hadv false) || apply (Hadv true).
Qed.

(** C19: no statement that adds an indicator gives it the time at which it was first seen, so
    that none is ever newer than the watermark: over any run of additions, changes,
    events and passes, whatever is stored and whatever the database answers, the hunter
    never creates an alert nor announces one. *)
Theorem stored_indicators_are_never_hunted format_time json_text d d' :
  unseen (id_iocs d) → rtc (ioc_step format_time json_text) d d' →
  unseen (id_iocs d') ∧ id_alerts d' = id_alerts d ∧ id_published d' = id_published d.
Proof.
  intros Hu Hr. revert Hu. induction Hr as [d|d d1 d2 Hs _ IH]; intros Hu; [done|].
  assert (unseen (id_iocs d1) ∧ id_alerts d1 = id_alerts d ∧ id_published d1 = id_published d) as (H1 & H2 & H3).
  { destruct Hs as [id e d t H|mint es d t n H|id a d|id d t H|e d|h v d]; cbn [id_iocs id_alerts id_published].
    - split; [|done]. unfold Insert in H. destruct (negb _); [done|]. destruct (taken _ _); [done|].
      injection H as <-. by apply unseen_snoc.
    - split; [|done]. by eapply bulk_unseen.
    - split; [|done]. intros r (x & -> & Hx)%list_elem_of_fmap. destruct (String.eqb _ _); exact (Hu x Hx).
    - split; [|done]. unfold Delete in H. destruct (existsb _ _); [|done]. injection H as <-.
      intros r [_ Hx]%list_elem_of_filter. by apply Hu.
    - done.
    - destruct (idle_pass format_time json_text h v d Hu) as [w ->]. done. }
  destruct (IH H1) as (? & -> & ->). done.
Qed.

(** ** New indicators meet the past *)

(** Where an indicator is looked for. *)
Definition hash_scans : list (string * string * bool) :=
  eventType ← ["process"; "file"; "image_load"]; (λ field, (eventType, field, true)) <$> ["sha256"; "md5"; "sha1"].
Definition scans_for (r : IocRow) : list (string * string * bool) :=
  if existsb (String.eqb (ioc_type r)) ip_types then [("network", "dst_ip", false)]
  else if existsb (String.eqb (ioc_type r)) domain_types then [("dns", "query", true)]
  else if existsb (String.eqb (ioc_type r)) hash_types then hash_scans else [].
Definition folded (lower : bool) (r : IocRow) : string := (if lower then to_lower else id) (trim_space (ioc_value r)).

Lemma ioc_group_has names fold rows r : r ∈ rows → existsb (String.eqb (ioc_type r)) names = true →
  trim_space (ioc_value r) ≠ "" → is_Some (ioc_group names fold rows !! fold (trim_space (ioc_value r))).
Proof.
  intros Hr Ht Hv. unfold ioc_group. generalize (∅ : gmap string Z). induction rows as [|r' rows IH]; intros m.
  { by apply not_elem_of_nil in Hr. }
  cbn [foldl]. apply elem_of_cons in Hr as [<-|Hr]; [|by apply IH].
  apply String.eqb_neq in Hv. rewrite Hv, Ht. set (k := fold _). clear IH Hv Ht.
  assert (is_Some (<[k := ioc_severity r]> m !! k)) as Hk by (rewrite lookup_insert_eq; by eexists).
  revert Hk. generalize (<[k := ioc_severity r]> m). clear m. induction rows as [|x rows IH]; intros m Hk; [done|].
  cbn [foldl]. apply IH. destruct (String.eqb _ ""); [done|]. destruct (existsb _ _); [|done].
  destruct (decide (fold (trim_space (ioc_value x)) = k)) as [->|Hne]; [rewrite lookup_insert_eq; by eexists|].
  by rewrite lookup_insert_ne.
Qed.

Section IocTheorems.
Context (format_time : time → string) (json_text : value → string).

(** An alert for the event: one that names it already, or one of the hunter. *)
Definition retro_found (v : IocHuntEnv) (e : EventRow) (l : list RetroAlertRow) : Prop :=
  ∃ a, a ∈ l ∧ (ioc_known (er_event_id e) a = true ∨
    ∃ eventType field value threat, a = retro_ioc_alert format_time v eventType field value threat e).

Definition extends (d d' : IocHuntDB) : Prop :=
  id_events d' = id_events d ∧ ∃ l, id_alerts d' = id_alerts d ++ l.

Lemma extends_refl d : extends d d.
Proof. split; [done|]. exists []. by rewrite app_nil_r. Qed.

Lemma extends_trans d1 d2 d3 : extends d1 d2 → extends d2 d3 → extends d1 d3.
Proof.
  intros [E1 [l E2]] [E3 [l' E4]]. split; [congruence|]. exists (l ++ l'). by rewrite E4, E2, app_assoc.
Qed.

Lemma found_extends v e d d' : extends d d' → retro_found v e (id_alerts d) → retro_found v e (id_alerts d').
Proof. intros [_ [l ->]] (a & Ha & H). exists a. split; [set_solver|done]. Qed.

Lemma create_extends v eventType field x n e d :
  extends d (createRetroAlert format_time v eventType field x n e d).
Proof.
  unfold createRetroAlert. destruct (_ && _); [apply extends_refl|]. destruct (ie_inserts _ _); [|apply extends_refl].
  split; [done|]. by eexists.
Qed.

Lemma create_finds v eventType field x n e d : ie_inserts v (er_event_id e) = true →
  retro_found v e (id_alerts (createRetroAlert format_time v eventType field x n e d)).
Proof.
  intros Hi. unfold createRetroAlert. destruct (_ && existsb _ _) eqn:Hk.
  - apply andb_true_iff in Hk as [_ (a & Ha & Hk)%existsb_exists]. exists a. split; [by apply list_elem_of_In|by left].
  - rewrite Hi. eexists. split; [apply elem_of_app; right; by apply list_elem_of_singleton|]. right. by eexists _, _, _, _.
Qed.

Lemma hunt_row_extends v eventType field lower iocs d e :
  extends d (hunt_row format_time json_text v eventType field lower iocs d e).
Proof. unfold hunt_row. destruct (scanned _ _ _ _); [apply create_extends|apply extends_refl]. Qed.

Lemma fold_extends {A} (f : IocHuntDB → A → IocHuntDB) l d : (∀ d x, extends d (f d x)) → extends d (foldl f d l).
Proof.
  intros Hf. revert d. induction l as [|x l IH]; intros d; [apply extends_refl|]. cbn [foldl].
  eapply extends_trans; [apply Hf|apply IH].
Qed.

Definition found_by (h : RetroIOCHunter) (v : IocHuntEnv) (evs : list EventRow)
    (q : string * string * bool * gmap string Z) (l : list RetroAlertRow) : Prop :=
  let '(eventType, field, lower, iocs) := q in
  ∀ e x, e ∈ recent_events (ie_clock v eventType field) (ih_lookback h) eventType evs →
    scanned json_text field lower e = Some x → is_Some (iocs !! x) → retro_found v e l.

Definition within (h : RetroIOCHunter) (v : IocHuntEnv) (evs : list EventRow)
    (q : string * string * bool * gmap string Z) : Prop :=
  let '(eventType, field, lower, iocs) := q in
  (length (filter (λ e, ioc_matches json_text field lower iocs e = true)
     (recent_events (ie_clock v eventType field) (ih_lookback h) eventType evs)) ≤ ih_maxMatches h)%nat.

Lemma scan_finds h v d c q : (∀ x, ie_inserts v x = true) → (∀ x y, ie_scans v x y = Whole) →
  within h v (id_events d) q →
  let s' := scan format_time json_text h v (d, c) q in
  extends d s'.1 ∧ s'.2 = c ∧ found_by h v (id_events d) q (id_alerts s'.1).
Proof.
  intros Hi Hw Hlen. destruct q as [[[eventType field] lower] iocs]. unfold scan, huntField. cbn [fst snd].
  case_bool_decide as He.
  { cbn [fst snd]. split; [apply extends_refl|]. split; [by destruct c|]. intros e x _ _ [y Hy]. by rewrite He in Hy. }
  rewrite Hw. cbn [rows_of fst snd]. rewrite take_ge by exact Hlen. set (rows := filter _ _).
  split; [by apply fold_extends, hunt_row_extends|]. split; [by destruct c|]. intros e x Hin Hx Hsome.
  assert (e ∈ rows) as Hrow.
  { apply list_elem_of_filter. split; [|done]. unfold ioc_matches. rewrite Hx. by apply bool_decide_eq_true_2. }
  clear Hlen Hin. clearbody rows. revert d. induction rows as [|e' rows IH]; intros d; [by apply not_elem_of_nil in Hrow|].
  cbn [foldl]. apply elem_of_cons in Hrow as [<-|Hrow]; [|by apply IH].
  eapply found_extends; [by apply fold_extends, hunt_row_extends|]. unfold hunt_row. rewrite Hx. by apply create_finds.
Qed.

Lemma scans_find h v d c qs : (∀ x, ie_inserts v x = true) → (∀ x y, ie_scans v x y = Whole) →
  (∀ q, q ∈ qs → within h v (id_events d) q) →
  let s' := foldl (scan format_time json_text h v) (d, c) qs in
  extends d s'.1 ∧ s'.2 = c ∧ ∀ q, q ∈ qs → found_by h v (id_events d) q (id_alerts s'.1).
Proof.
  intros Hi Hw. revert d. induction qs as [|q qs IH]; intros d Hqs; cbn [foldl].
  { split; [apply extends_refl|]. split; [done|]. intros q Hq. by apply not_elem_of_nil in Hq. }
  destruct (scan_finds h v d c q Hi Hw (Hqs q ltac:(by left))) as (Hx & Hc & Hq).
  destruct (scan format_time json_text h v (d, c) q) as [d1 c1]. cbn [fst snd] in *. subst c1. pose proof Hx as [Hev _].
  destruct (IH d1) as (Hx2 & Hc2 & Hq2); [intros; rewrite Hev; apply Hqs; by right|].
  split; [by eapply extends_trans|]. split; [done|]. rewrite Hev in Hq2.
  intros q' [->|Hq']%elem_of_cons; [|by apply Hq2]. destruct q as [[[eventType field] lower] iocs].
  intros e x H1 H2 H3. eapply found_extends; [done|]. by eapply Hq.
Qed.

Definition all_answered (v : IocHuntEnv) : Prop :=
  ie_reads v = true ∧ ie_iocs v = Whole ∧ (∀ x y, ie_scans v x y = Whole) ∧ (∀ x, ie_inserts v x = true) ∧
  ie_updates v = true.

Definition groups_of (rows : list IocRow) : list (string * string * bool * gmap string Z) :=
  scans (ioc_group ip_types id rows) (ioc_group domain_types to_lower rows) (ioc_group hash_types to_lower rows).

Lemma scan_of_indicator rows r eventType field lower : r ∈ rows → trim_space (ioc_value r) ≠ "" →
  (eventType, field, lower) ∈ scans_for r →
  ∃ iocs, (eventType, field, lower, iocs) ∈ groups_of rows ∧ is_Some (iocs !! folded lower r).
Proof.
  intros Hr Hv Hs. unfold scans_for in Hs.
  destruct (existsb _ ip_types) eqn:H1.
  { apply list_elem_of_singleton in Hs as [= -> -> ->]. eexists. split; [by left|]. by apply ioc_group_has. }
  destruct (existsb _ domain_types) eqn:H2.
  { apply list_elem_of_singleton in Hs as [= -> -> ->]. eexists. split; [right; by left|]. by apply ioc_group_has. }
  destruct (existsb _ hash_types) eqn:H3; [|by apply not_elem_of_nil in Hs].
  exists (ioc_group hash_types to_lower rows). unfold hash_scans in Hs. cbn in Hs.
  rewrite !elem_of_cons in Hs. unfold groups_of, scans. cbn [mbind list_bind fmap list_fmap app].
  pose proof (ioc_group_has hash_types to_lower rows r Hr H3 Hv) as Hg.
  assert (lower = true) as Hl by (repeat (destruct Hs as [Hs|Hs]; [by injection Hs|]); by apply not_elem_of_nil in Hs).
  split; [|unfold folded; by rewrite Hl]. rewrite !elem_of_cons.
  repeat (destruct Hs as [[= -> -> ->]|Hs]; [tauto|]). by apply not_elem_of_nil in Hs.
Qed.

(** A pass to which the database answers, with no more indicators and matching events
    than its limits, finds every stored event of its window that carries an indicator
    seen since the watermark, and moves the watermark to its end. *)
Theorem new_indicators_meet_history h v d w :
  all_answered v → id_last_hunted_at d = Some w →
  (length (new_iocs w (id_iocs d)) ≤ ih_maxNewIOCs h)%nat →
  (∀ q, q ∈ groups_of (new_iocs w (id_iocs d)) → within h v (id_events d) q) →
  let d' := RetroIOCHunter_hunt format_time json_text h v d in
  id_last_hunted_at d' = Some (ie_end v) ∧
  ∀ r e eventType field lower, r ∈ new_iocs w (id_iocs d) → trim_space (ioc_value r) ≠ "" →
    (eventType, field, lower) ∈ scans_for r →
    e ∈ recent_events (ie_clock v eventType field) (ih_lookback h) eventType (id_events d) →
    scanned json_text field lower e = Some (folded lower r) → retro_found v e (id_alerts d').
Proof.
  intros (Hr & Hq & Hs & Hi & Hu) Hw Hlen Hwithin. unfold RetroIOCHunter_hunt, loadNewIOCs.
  rewrite Hr, Hw, Hq, take_ge by done. cbn [rows_of]. set (rows := new_iocs w (id_iocs d)) in *.
  assert (∀ d, id_last_hunted_at (advanceWatermark v d) = Some (ie_end v) ∧ id_alerts (advanceWatermark v d) = id_alerts d)
    as Hadv by (intros x; unfold advanceWatermark; by rewrite Hu).
  destruct (bool_decide _ && _ && _) eqn:He.
  - destruct (Hadv d) as [-> ->]. split; [done|]. intros r e eventType field lower Hin Hv Hsc _ _. exfalso.
    rewrite !andb_true_iff, !bool_decide_eq_true in He. destruct He as [[E1 E2] E3].
    destruct (scan_of_indicator rows r eventType field lower Hin Hv Hsc) as (iocs & Hg & [y Hy]).
    assert (iocs = ∅) as ->; [|by rewrite lookup_empty in Hy].
    unfold groups_of, scans in Hg. rewrite E1, E2, E3 in Hg. cbn [mbind list_bind fmap list_fmap app] in Hg.
    rewrite !elem_of_cons in Hg. repeat (destruct Hg as [Hg|Hg]; [by injection Hg|]). by apply not_elem_of_nil in Hg.
  - destruct (scans_find h v d true (groups_of rows) Hi Hs Hwithin) as (Hx & Hc & Hf). unfold groups_of in *.
    destruct (foldl _ _ _) as [d1 c1]. cbn [fst snd] in *. subst c1. destruct (Hadv d1) as [-> ->]. split; [done|].
    intros r e eventType field lower Hin Hv Hsc Hev Hx'.
    destruct (scan_of_indicator rows r eventType field lower Hin Hv Hsc) as (iocs & Hg & Hsome).
    by apply (Hf _ Hg e (folded lower r)).
Qed.
End IocTheorems.

(** *** Examples *)
Definition past_ioc (id type value : string) (first_seen : option time) : IocRow :=
  mkIocRow id type value 8 true first_seen.
Definition past_query (id name : string) (at_hour : Z) : EventRow :=
  mkEventRow id "a1" "dns" (Some [("query", VStr name)]) (at_hour * hour).
Definition quiet_env (now : time) : IocHuntEnv :=
  mkIocHuntEnv true Whole (λ _ _, Whole) (λ _ _, now) (λ _, true) (λ _, true) (λ e, "alert of " +:+ e) true
    (λ _, true) true (now + minute).
Definition past_pass (h : RetroIOCHunter) (now : time) (d : IocHuntDB) : IocHuntDB :=
  RetroIOCHunter_hunt (λ _, "") (λ _, "") h (quiet_env now) d.
Definition past_queries : list EventRow := [past_query "e1" "Evil.example" 5; past_query "e2" "example.org" 6].

(** With a time in its row an indicator finds the event; added by the store, it has none
    and never does. *)
Example ioc_hunt_example :
  let db iocs := mkIocHuntDB (Some hour) iocs past_queries [] [] in
  let d := past_pass (NewRetroIOCHunter 0 0) (21 * hour) (db [past_ioc "i" "domain" " evil.example" (Some (20 * hour))]) in
  (al_id <$> id_alerts d) = ["alert of e1"] ∧ id_last_hunted_at d = Some (21 * hour + minute) ∧
  match Insert "i" (mkIOCEntry "domain" "evil.example" 8 true) [] with
  | Ok t => id_alerts (past_pass (NewRetroIOCHunter 0 0) (21 * hour) (db t)) = []
  | Err _ => False
  end.
Proof. by vm_compute. Qed.

(** An indicator that arrives while a pass is running, or that the pass leaves out for
    its limit, is behind the watermark when the pass is over. *)
Lemma behind_the_watermark w l r t : r ∈ l → ioc_first_seen r = Some t → t <= w → r ∉ new_iocs w l.
Proof.
  intros _ Ht Hle Hin. unfold new_iocs in Hin. apply elem_of_sort_on, list_elem_of_filter in Hin as [Hn _].
  unfold seen_after in Hn. rewrite Ht in Hn. apply andb_true_iff in Hn as [_ Hn%Z.ltb_lt]. lia.
Qed.

Example limit_loses_indicators :
  let h := mkRetroIOCHunter (30 * 24 * hour) hour 1 500 in
  let d := mkIocHuntDB (Some hour)
    [past_ioc "i1" "domain" "evil.example" (Some (20 * hour)); past_ioc "i2" "domain" "example.org" (Some (20 * hour + 1))]
    past_queries [] [] in
  let d1 := past_pass h (21 * hour) d in
  (al_id <$> id_alerts d1) = ["alert of e1"] ∧ id_alerts (past_pass h (22 * hour) d1) = id_alerts d1.
Proof. by vm_compute. Qed.

Lemma stored_indicators_are_never_hunted_witness :
  let d := mkIocHuntDB (Some hour) [] past_queries [] [] in
  let d' := past_pass (NewRetroIOCHunter 0 0) (21 * hour)
    (mkIocHuntDB (Some hour) [new_row "i" true (mkIOCEntry "domain" "evil.example" 8 true)] past_queries [] []) in
  rtc (ioc_step (λ _, "") (λ _, "")) d d' ∧ id_alerts d' = [].
Proof.
  intros d d'. assert (rtc (ioc_step (λ _, "") (λ _, "")) d d') as H.
  { eapply rtc_l; [apply (step_insert _ _ "i" (mkIOCEntry "domain" "evil.example" 8 true)); reflexivity|].
    eapply rtc_l; [apply (step_hunt _ _ (NewRetroIOCHunter 0 0) (quiet_env (21 * hour)))|]. apply rtc_refl. }
  split; [exact H|]. apply (stored_indicators_are_never_hunted (λ _, "") (λ _, "") d d'); [|exact H].
  intros r Hr. destruct (not_elem_of_nil _ Hr).
Defined.

Lemma new_indicators_meet_history_witness :
  let d := mkIocHuntDB (Some hour) [past_ioc "i" "domain" " evil.example" (Some (20 * hour))] past_queries [] [] in
  retro_found (λ _, "") (quiet_env (21 * hour)) (past_query "e1" "Evil.example" 5)
    (id_alerts (past_pass (NewRetroIOCHunter 0 0) (21 * hour) d)).
Proof.
  intros d.
  assert (new_iocs hour (id_iocs d) = id_iocs d) as Hn by (vm_compute; reflexivity).
  destruct (new_indicators_meet_history (λ _, "") (λ _, "") (NewRetroIOCHunter 0 0) (quiet_env (21 * hour)) d hour) as [_ H].
  - unfold all_answered. split_and!; reflexivity.
  - reflexivity.
  - rewrite Hn. assert (ih_maxNewIOCs (NewRetroIOCHunter 0 0) = Z.to_nat 20000) as -> by reflexivity.
    change (length (id_iocs d)) with 1%nat. lia.
  - intros [[[eventType field] lower] iocs] _. unfold within.
    etrans; [apply length_filter|]. etrans; [apply length_recent|].
    change (length (id_events d)) with 2%nat. change (ih_maxMatches (NewRetroIOCHunter 0 0)) with 500%nat. lia.
  - apply (H (past_ioc "i" "domain" " evil.example" (Some (20 * hour))) _ "dns" "query" true).
    + rewrite Hn. by left.
    + vm_compute. discriminate.
    + by left.
    + apply elem_of_recent. split; [by left|]. split; [reflexivity|]. vm_compute. reflexivity.
    + reflexivity.
Defined.

(** A process of a Windows endpoint on its way from the sensor to the hunter. *)
Definition windows_process : WireEvent :=
  mkWireEvent "e1" (Some (5 * hour)) EVENT_TYPE_PROCESS
    (Some (PProcess (mkProcessEvent 7 1 "mimikatz.exe" "mimikatz.exe" "C:\mimikatz.exe" "u" None PROCESS_ACTION_CREATE []
                       "" "" "" "" "" "" "" "" "" false false))).

Lemma other_platforms_are_never_hunted_witness :
  let row := stored (λ _, None) "a1" (mkPrepped "process" (5 * hour) (normalizeEventData (λ _, None) windows_process) windows_process 0 "e1") in
  let d := mkRuleHuntDB (Some (10 * hour)) [mkRuleRow "r1" true (20 * hour)] [row] [] in
  let rule := mimikatz ["linux"; "windows"] in
  ∃ e flat m, er_raw_data e = Some flat ∧
    rd_alerts (RetroRuleHunter_hunt (λ _, "") (NewRetroRuleHunter 24 0) (past_env (21 * hour)) (past_state [rule]) d).1.2
      = [retro_alert (λ _, "") (past_env (21 * hour)) e m] ∧
    ((∃ id r, e_rules (past_engine [rule]) !! id = Some r ∧ m = rule_match r ∧ platformMatchesEvent (r_Platform r) "linux" = true)
     ∨ from_detectors (with_platform flat) m).
Proof.
  intros row d rule.
  destruct (other_platforms_are_never_hunted (λ _, None) (λ _, "") (past_engine [rule]) (NewRetroRuleHunter 24 0)
    (past_env (21 * hour)) (past_state [rule]) d) as (l & El & Hl).
  - reflexivity.
  - intros x. reflexivity.
  - intros e ->%list_elem_of_singleton. exists "a1", (λ _, "e1"), 0%nat, windows_process. eexists. split; reflexivity.
  - set (l' := rd_alerts _) in *. assert (length l' = 1%nat) as Hlen by (vm_compute; reflexivity).
    rewrite El in Hlen |- *. destruct l as [|a [|]]; [discriminate Hlen| |discriminate Hlen].
    destruct (Hl a) as (e & flat & m & Hraw & -> & Hm); [by left|]. by exists e, flat, m.
Defined.
