(* ===== verification/UninstallGuard.v ===== *)
(** * The uninstall password

    [agent/internal/uninstallguard/guard.go]: the digest of the password on the
    endpoint; [agent/cmd/agent/uninstallauth.go]: the check before an uninstall and the
    guard that a heartbeat brings; [server/internal/store/uninstall_protection.go] with
    the provider of [server/cmd/ingestion/main.go]: where that guard comes from.  JSON
    is a parameter, and what the operating system refuses is an input. *)

From Stdlib Require Import Ascii.
From S2P Require Import Prelude GoStrings Base64 CommandLine CommandLineProofs Digest Files.

#[local] Open Scope string_scope.
#[local] Open Scope list_scope.
#[local] Open Scope Z_scope.

(** ** PBKDF2 with HMAC-SHA-256: packages crypto/hmac and crypto/pbkdf2 *)
Definition hmac_key (key : list Z) : list Z :=
  let k := if 64 <? zlen key then sha256_sum key else key in
  k ++ replicate (64 - length k) 0.

Definition hmac_sha256 (key msg : list Z) : list Z :=
  let k := hmac_key key in
  sha256_sum ((Z.lxor 0x5c <$> k) ++ sha256_sum ((Z.lxor 0x36 <$> k) ++ msg)).

(** The last block of the chain, and the sum of all. *)
Definition pbkdf2_step (key : list Z) (s : list Z * list Z) : list Z * list Z :=
  let u := hmac_sha256 key s.1 in (u, zip_with Z.lxor s.2 u).

(** ** The guard *)
Definition GuardFileName : string := "uninstall.guard".
Definition iterations : Z := 600000.

(** A digest of [keyLen] bytes is the first block. *)
Definition Derive (password salt : string) (iters : Z) : string :=
  let key := bytes_of password in
  let u := hmac_sha256 key (bytes_of salt ++ [0; 0; 0; 1]) in
  string_of (Z.iter (iters - 1) (pbkdf2_step key) (u, u)).2.

Example derive_examples :
  hex_encode (bytes_of (Derive "password" "salt" 1)) = "120fb6cffcf8b32c43e7225256c4f837a86548c92ccc35480805987cb70be17b" ∧
  hex_encode (bytes_of (Derive "password" "salt" 2)) = "ae4d0c95af6b46d32d0adff928f06dd02a303f8ef3c251dfd6e2d85a95474c43".
Proof. by vm_compute. Qed.

Inductive guard_error := ErrNoGuard | ErrWrongPassword | GuardError (text : string).

Record Guard := mkGuard {
  g_Version : Z;
  g_Algorithm : string;
  g_Iterations : Z;
  g_SaltB64 : string;
  g_DigestB64 : string;
  g_UpdatedAt : time
}.

(** [random]: the salt, unless the random generator fails. *)
Definition NewGuard (random : option string) (password : string) (now : time) : res Guard :=
  if String.eqb (trim_space password) "" then Err "uninstall password must not be empty" else
  match random with
  | None => Err "generate salt"
  | Some salt =>
      Ok (mkGuard 1 "pbkdf2-hmac-sha256" iterations (b64 salt) (b64 (Derive password salt iterations)) now)
  end.

(** [base64.StdEncoding.DecodeString], which skips line ends. *)
Definition line_end (c : ascii) : bool := Ascii.eqb c (chr 10) || Ascii.eqb c (chr 13).
Fixpoint without_line_ends (s : string) : string :=
  match s with
  | EmptyString => EmptyString
  | String c s' => if line_end c then without_line_ends s' else String c (without_line_ends s')
  end.
Definition std_decode (s : string) : option string := b64_decode true (without_line_ends s).

(** [None] is a nil error. *)
Definition Verify (g : option Guard) (password : string) : option guard_error :=
  match g with
  | None => Some ErrNoGuard
  | Some g =>
      match std_decode (g_SaltB64 g) with
      | None => Some (GuardError "guard file has an unreadable salt")
      | Some salt =>
          match std_decode (g_DigestB64 g) with
          | None => Some (GuardError "guard file has an unreadable digest")
          | Some want =>
              let iters := if g_Iterations g <=? 0 then iterations else g_Iterations g in
              if String.eqb (Derive password salt iters) want then None else Some ErrWrongPassword
          end
      end
  end.

Definition guard_path (dataDir : string) : string := path_join dataDir GuardFileName.

(** What the system refuses while a guard is written; [sf_write]: how many bytes are
    written before an error. *)
Record SaveFaults := mkSaveFaults {
  sf_mkdir : bool; sf_create : bool; sf_chmod : bool; sf_write : option nat; sf_sync : bool; sf_close : bool;
  sf_rename : bool; sf_remove : bool
}.
Definition no_faults : SaveFaults := mkSaveFaults false false false None false false false false.

Section Files.
Context (guard_json : Guard → option string) (json_guard : string → option Guard).

Definition Load (denied : bool) (f : fs) (dataDir : string) : Guard + guard_error :=
  match read_file denied f (guard_path dataDir) with
  | FErr NotExist => inr ErrNoGuard
  | FErr Denied => inr (GuardError "read guard file")
  | FOk data =>
      match json_guard data with
      | None => inr (GuardError "guard file is corrupt (refusing to treat this as unprotected)")
      | Some g =>
          if String.eqb (g_SaltB64 g) "" || String.eqb (g_DigestB64 g) ""
          then inr (GuardError "guard file is missing its salt or digest (refusing to treat this as unprotected)")
          else inl g
      end
  end.

Definition temp_path (dataDir random : string) : string := path_join dataDir (GuardFileName +:+ ".tmp-" +:+ random).

(** The temporary file when the last step has gone as far as it goes. *)
Definition written (x : SaveFaults) (data : string) : string :=
  match sf_write x with Some n => stake n data | None => data end.

(** [random]: the name that [os.CreateTemp] chooses.  The temporary file is removed at
    the end, whatever happens. *)
Definition Save (x : SaveFaults) (random : string) (f : fs) (dataDir : string) (g : option Guard)
    : fs * option guard_error :=
  match g with
  | None => (f, Some (GuardError "nil guard"))
  | Some g =>
      match guard_json g with
      | None => (f, Some (GuardError "encode guard"))
      | Some data =>
          if sf_mkdir x then (f, Some (GuardError "create guard directory")) else
          if sf_create x then (f, Some (GuardError "create temp guard file")) else
          let tmp := temp_path dataDir random in
          let finish (f : fs) e := (after f (remove (sf_remove x) f tmp), e) in
          let empty := <[tmp := ""]> f in
          let full := <[tmp := written x data]> f in
          if sf_chmod x then finish empty (Some (GuardError "chmod temp guard file")) else
          if bool_decide (is_Some (sf_write x)) then finish full (Some (GuardError "write temp guard file")) else
          if sf_sync x then finish full (Some (GuardError "sync temp guard file")) else
          if sf_close x then finish full (Some (GuardError "close temp guard file")) else
          match rename (sf_rename x) full tmp (guard_path dataDir) with
          | FErr _ => finish full (Some (GuardError "install guard file"))
          | FOk f => finish f None
          end
      end
  end.

Definition Remove (denied : bool) (f : fs) (dataDir : string) : fs * option guard_error :=
  match remove denied f (guard_path dataDir) with
  | FOk f => (f, None)
  | FErr NotExist => (f, None)
  | FErr Denied => (f, Some (GuardError "remove"))
  end.

(** ** The check before an uninstall *)
Definition uninstallExitAuthorised : Z := 0.
Definition uninstallExitDenied : Z := 2.
Definition uninstallExitError : Z := 3.

(** The line of [ReadString], and whether it ended with a line feed. *)
Fixpoint read_line (s : string) : string * bool :=
  match s with
  | EmptyString => (EmptyString, false)
  | String c s' =>
      if Ascii.eqb c (chr 10) then (String c EmptyString, true)
      else let '(l, b) := read_line s' in (String c l, b)
  end.
Fixpoint trim_line_end (s : string) : string :=
  match s with
  | EmptyString => EmptyString
  | String c s' =>
      match trim_line_end s' with
      | EmptyString => if line_end c then EmptyString else String c EmptyString
      | t => String c t
      end
  end.

(** [env]: the variable, if it is set; [stdin]: what can be read, if it can be asked. *)
Definition readUninstallPassword (env stdin : option string) : option string :=
  match env with
  | Some v => Some v
  | None =>
      match stdin with
      | None => None
      | Some s =>
          let '(line, complete) := read_line s in
          if negb complete && String.eqb line "" then None else Some (trim_line_end line)
      end
  end.

(** The exit code, and what is reported to the server. *)
Definition runVerifyUninstall (denied : bool) (f : fs) (configPath : string) (env stdin : option string)
    : Z * option bool :=
  match Load denied f (dir configPath) with
  | inr ErrNoGuard => (uninstallExitAuthorised, None)
  | inr _ => (uninstallExitError, None)
  | inl guard =>
      match readUninstallPassword env stdin with
      | None => (uninstallExitError, None)
      | Some password =>
          match Verify (Some guard) password with
          | Some ErrWrongPassword => (uninstallExitDenied, Some false)
          | Some _ => (uninstallExitError, None)
          | None => (uninstallExitAuthorised, Some true)
          end
      end
  end.

(** ** The guard that a heartbeat brings *)
Definition applyGuard (denied : bool) (x : SaveFaults) (random configPath : string) (f : fs) (m : option Guard)
    : fs * option guard_error :=
  match m with
  | None => (f, None)
  | Some m =>
      if String.eqb (g_SaltB64 m) "" || String.eqb (g_DigestB64 m) "" then (f, None) else
      let save := Save x random f (dir configPath) (Some m) in
      match Load denied f (dir configPath) with
      | inl cur =>
          if String.eqb (g_SaltB64 cur) (g_SaltB64 m) && String.eqb (g_DigestB64 cur) (g_DigestB64 m)
          then (f, None) else save
      | inr _ => save
      end
  end.
End Files.

(** ** The server *)
Record UninstallGuard := mkUninstallGuard { ug_material : Guard; ug_UpdatedBy : option string }.
Abbreviation GuardTable := (gmap string UninstallGuard) (only parsing).

(** The table wants 10000 iterations at least. *)
Definition SetGuard (now : time) (tenant : string) (g : option (Guard * string)) (t : GuardTable) : res GuardTable :=
  match g with
  | None => Err "nil guard"
  | Some (g, updatedBy) =>
      if String.eqb (g_SaltB64 g) "" || String.eqb (g_DigestB64 g) "" || (g_Iterations g <=? 0)
      then Err "guard material is incomplete" else
      if g_Iterations g <? 10000 then Err "set uninstall guard" else
      Ok (<[tenant := mkUninstallGuard
              (mkGuard (g_Version g) (g_Algorithm g) (g_Iterations g) (g_SaltB64 g) (g_DigestB64 g) now)
              (if String.eqb updatedBy "" then None else Some updatedBy)]> t)
  end.

Definition ClearGuard (tenant : string) (t : GuardTable) : GuardTable := delete tenant t.
Definition GetGuard (tenant : string) (t : GuardTable) : option Guard := ug_material <$> t !! tenant.

(** [agents]: the tenant of each agent, empty where it has none; [fails]: a query that
    does not get through. *)
Definition TenantOfAgent (agents : gmap string string) (agentID : string) : option string :=
  if String.eqb agentID "" then None else
  match agents !! agentID with
  | Some tenant => if String.eqb tenant "" then None else Some tenant
  | None => None
  end.

Definition guard_provider (fails : bool) (agents : gmap string string) (t : GuardTable) (agentID : string)
    : option Guard :=
  if fails then None else
  match agents !! agentID with
  | None => None
  | Some tenant => if String.eqb tenant "" then None else GetGuard tenant t
  end.

(** The header of the answer to a heartbeat, and what the agent reads in it. *)
Definition guard_header (guard_json : Guard → option string) (guard : option Guard) : option string :=
  match guard with Some g => guard_json g | None => None end.
Definition headerUninstallGuard (json_guard : string → option Guard) (header : option string) : option Guard :=
  match header with
  | None => None
  | Some v => if String.eqb v "" then None else json_guard v
  end.

(** One attempt to uninstall. *)
Record UninstallAttempt := mkUninstallAttempt {
  ua_TenantID : string; ua_AgentID : option string; ua_Hostname : option string; ua_Authorised : bool;
  ua_OccurredAt : time
}.
Definition RecordAttempt (now : time) (tenant agentID hostname : string) (authorised : bool) (occurred : option time)
    (l : list UninstallAttempt) : list UninstallAttempt :=
  let some s := if String.eqb s "" then None else Some s in
  l ++ [mkUninstallAttempt tenant (some agentID) (some hostname) authorised (default now occurred)].

(** ** Encodings and names *)
Lemma without_line_ends_id s : contains_char line_end s = false → without_line_ends s = s.
Proof.
  induction s as [|c s IH]; [done|]. cbn [contains_char without_line_ends]. intros [Hc Hs]%orb_false_iff.
  rewrite Hc. by rewrite IH.
Qed.

Lemma std_decode_b64 s : std_decode (b64 s) = Some s.
Proof.
  unfold std_decode. rewrite without_line_ends_id; [apply b64_round_trip|].
  apply b64_alphabet; [|done]. apply (sextets line_end). by vm_compute.
Qed.

Lemma b64_nonempty s : s ≠ "" → b64 s ≠ "".
Proof. intros Hs E. pose proof (b64_length_ge s) as H. rewrite E in H. destruct s; [done|]. simpl in H. lia. Qed.

Lemma append_inj a b c : a +:+ b = a +:+ c → b = c.
Proof. induction a as [|x a IH]; [done|]. cbn [String.append]. intros [= H]. by apply IH. Qed.

Lemma path_join_inj d a b : path_join d a = path_join d b → a = b.
Proof.
  unfold path_join. destruct (String.eqb d "."); [done|].
  destruct (String.eqb d "/"); [apply append_inj|]. intros H. by apply append_inj, append_inj in H.
Qed.

Lemma temp_is_not_guard d r : temp_path d r ≠ guard_path d.
Proof. intros H. apply path_join_inj in H. done. Qed.

(** ** Writing the guard *)
Section SaveTheorems.
Context (guard_json : Guard → option string) (json_guard : string → option Guard).

(** The removal at the end takes away the temporary file and nothing else. *)
Lemma after_remove b f p q : after f (remove b f p) !! q = (if bool_decide (q = p) && negb b then None else f !! q).
Proof.
  unfold remove. destruct b; [by rewrite andb_false_r|]. rewrite andb_true_r.
  destruct (f !! p) eqn:E; cbn [after]; case_bool_decide as Hq; subst; [apply lookup_delete_eq| |done|done].
  by rewrite lookup_delete_ne.
Qed.

(** Whatever the system refuses, the guard on disk is the old one or all of the new one,
    the new one exactly when no error is reported; no other file changes, and unless its
    removal is refused the temporary file is gone. *)
Theorem interrupted_update_keeps_the_guard x random f dataDir g data :
  guard_json g = Some data → f !! temp_path dataDir random = None →
  let '(f', e) := Save guard_json x random f dataDir (Some g) in
  f' !! guard_path dataDir = (if e then f !! guard_path dataDir else Some data) ∧
  (∀ p, p ≠ guard_path dataDir → p ≠ temp_path dataDir random → f' !! p = f !! p) ∧
  (sf_remove x = false → f' !! temp_path dataDir random = None).
Proof.
  intros Hj Ht. unfold Save. rewrite Hj. pose proof (temp_is_not_guard dataDir random) as Hne.
  set (tmp := temp_path dataDir random) in *. set (path := guard_path dataDir) in *.
  destruct (sf_mkdir x); [done|]. destruct (sf_create x); [done|].
  assert (∀ c, let f' := after (<[tmp := c]> f) (remove (sf_remove x) (<[tmp := c]> f) tmp) in
    f' !! path = f !! path ∧ (∀ p, p ≠ path → p ≠ tmp → f' !! p = f !! p) ∧ (sf_remove x = false → f' !! tmp = None))
    as Hfail.
  { intros c. cbv zeta. split; [|split].
    - rewrite after_remove, bool_decide_eq_false_2 by done. by rewrite lookup_insert_ne.
    - intros p _ Hp. rewrite after_remove, bool_decide_eq_false_2 by done. by rewrite lookup_insert_ne.
    - intros Hr. by rewrite after_remove, bool_decide_eq_true_2, Hr. }
  destruct (sf_chmod x); [apply Hfail|]. case_bool_decide as Hw; [apply Hfail|].
  destruct (sf_sync x); [apply Hfail|]. destruct (sf_close x); [apply Hfail|].
  unfold rename. destruct (sf_rename x); [apply Hfail|]. rewrite lookup_insert_eq.
  assert (written x data = data) as -> by (unfold written; destruct (sf_write x); [by destruct Hw|done]).
  split; [|split].
  - rewrite after_remove, bool_decide_eq_false_2 by done. apply lookup_insert_eq.
  - intros p H1 H2. rewrite after_remove, bool_decide_eq_false_2 by done. cbn [andb].
    by rewrite lookup_insert_ne, lookup_delete_ne, lookup_insert_ne.
  - intros Hr. by rewrite after_remove, bool_decide_eq_true_2, Hr.
Qed.

End SaveTheorems.

(** ** The password decides *)
#[local] Opaque Derive.
Section UninstallTheorems.
Context (guard_json header_json : Guard → option string) (json_guard json_header : string → option Guard).

(** The codecs carry a guard: what is written of it is read as it was. *)
Definition carried (g : Guard) : Prop :=
  (∃ data, guard_json g = Some data ∧ json_guard data = Some g) ∧
  ∃ h, header_json g = Some h ∧ h ≠ "" ∧ json_header h = Some g.

Definition stamped (now : time) (g : Guard) : Guard :=
  mkGuard (g_Version g) (g_Algorithm g) (g_Iterations g) (g_SaltB64 g) (g_DigestB64 g) now.

(** A guard with the material of [g], as far as the endpoint compares it, has its
    iterations. *)
Definition same_iterations (r : Guard + guard_error) (g : Guard) : Prop :=
  match r with
  | inl cur => g_SaltB64 cur = g_SaltB64 g → g_DigestB64 cur = g_DigestB64 g → g_Iterations cur = g_Iterations g
  | inr _ => True
  end.

Lemma provided_guard agents t a tenant g : agents !! a = Some tenant → tenant ≠ "" → GetGuard tenant t = Some g →
  carried g → headerUninstallGuard json_header (guard_header header_json (guard_provider false agents t a)) = Some g.
Proof.
  intros Ha Hne Hg (_ & h & Hh & Hn & Hd). unfold guard_provider. rewrite Ha.
  apply String.eqb_neq in Hne, Hn. rewrite Hne, Hg. cbn [guard_header]. rewrite Hh. cbn [headerUninstallGuard].
  by rewrite Hn.
Qed.

(** After an update to which nothing is refused, the endpoint has the guard. *)
Lemma applied_guard random f configPath g : f !! temp_path (dir configPath) random = None →
  (∃ data, guard_json g = Some data ∧ json_guard data = Some g) → g_SaltB64 g ≠ "" → g_DigestB64 g ≠ "" →
  same_iterations (Load json_guard false f (dir configPath)) g →
  ∃ cur, Load json_guard false (applyGuard guard_json json_guard false no_faults random configPath f (Some g)).1 (dir configPath)
    = inl cur ∧ g_SaltB64 cur = g_SaltB64 g ∧ g_DigestB64 cur = g_DigestB64 g ∧ g_Iterations cur = g_Iterations g.
Proof.
  intros Ht (data & Hj & Hd) Hs%String.eqb_neq Hdg%String.eqb_neq Hsame.
  assert (Load json_guard false (Save guard_json no_faults random f (dir configPath) (Some g)).1 (dir configPath) = inl g) as Hsave.
  { pose proof (interrupted_update_keeps_the_guard guard_json no_faults random f (dir configPath) g data Hj Ht) as H.
    assert ((Save guard_json no_faults random f (dir configPath) (Some g)).2 = None) as He.
    { unfold Save. rewrite Hj. cbn. unfold rename. by rewrite lookup_insert_eq. }
    destruct (Save _ _ _ _ _ _) as [f' e]. cbn [fst snd] in *. subst e. destruct H as [H _].
    unfold Load, read_file. by rewrite H, Hd, Hs, Hdg. }
  unfold applyGuard. rewrite Hs, Hdg. cbn [orb].
  destruct (Load json_guard false f (dir configPath)) as [cur|e] eqn:Hl; [|by exists g].
  destruct (String.eqb (g_SaltB64 cur) (g_SaltB64 g) && _) eqn:Heq; [|by exists g].
  apply andb_true_iff in Heq as [H1%String.eqb_eq H2%String.eqb_eq]. exists cur. split; [exact Hl|].
  split_and!; [done..|]. by apply Hsame.
Qed.

Lemma iterations_positive : 0 < iterations.
Proof. reflexivity. Qed.

Lemma new_guard salt password now g : NewGuard (Some salt) password now = Ok g →
  g_SaltB64 g = b64 salt ∧ g_DigestB64 g = b64 (Derive password salt iterations) ∧ g_Iterations g = iterations.
Proof.
  unfold NewGuard. destruct (String.eqb (trim_space password) ""); [discriminate|]. intros [= <-].
  cbn [g_SaltB64 g_DigestB64 g_Iterations]. split; [reflexivity|]. split; reflexivity.
Qed.

Lemma set_guard now tenant g updatedBy t t' : SetGuard now tenant (Some (g, updatedBy)) t = Ok t' →
  g_SaltB64 g ≠ "" ∧ g_DigestB64 g ≠ "" ∧ GetGuard tenant t' = Some (stamped now g).
Proof.
  unfold SetGuard. destruct (_ || (_ <=? 0)) eqn:Hinc; [discriminate|]. destruct (_ <? 10000); [discriminate|].
  intros [= <-]. apply orb_false_iff in Hinc as [[H1 H2]%orb_false_iff _]. apply String.eqb_neq in H1, H2.
  split; [exact H1|]. split; [exact H2|]. unfold GetGuard. by rewrite lookup_insert_eq.
Qed.

(** What a guard of a password says of a password. *)
Lemma verify_password g salt password entered n : 0 < n → g_SaltB64 g = b64 salt →
  g_DigestB64 g = b64 (Derive password salt n) → g_Iterations g = n →
  Verify (Some g) entered =
    if String.eqb (Derive entered salt n) (Derive password salt n) then None else Some ErrWrongPassword.
Proof.
  intros Hn E1 E2 E3. unfold Verify. rewrite E1, E2, E3, !std_decode_b64.
  assert ((n <=? 0) = false) as -> by (apply Z.leb_gt; exact Hn). reflexivity.
Qed.

(** A password that an administrator set for the tenant of an endpoint, once a heartbeat
    has brought its guard, decides there, without a server, whether the agent may be
    removed: it is let through itself, and whatever has another digest is refused and
    reported as refused. *)
Theorem password_decides_removal salt password now set_at tenant updatedBy t t' agents a f configPath random g :
  NewGuard (Some salt) password now = Ok g →
  SetGuard set_at tenant (Some (g, updatedBy)) t = Ok t' →
  agents !! a = Some tenant → tenant ≠ "" → carried (stamped set_at g) →
  f !! temp_path (dir configPath) random = None →
  same_iterations (Load json_guard false f (dir configPath)) g →
  let m := headerUninstallGuard json_header (guard_header header_json (guard_provider false agents t' a)) in
  let f' := (applyGuard guard_json json_guard false no_faults random configPath f m).1 in
  ∀ entered stdin,
    runVerifyUninstall json_guard false f' configPath (Some entered) stdin =
      if String.eqb (Derive entered salt iterations) (Derive password salt iterations)
      then (uninstallExitAuthorised, Some true) else (uninstallExitDenied, Some false).
Proof.
  intros Hnew Hset Ha Hne Hc Ht Hsame m f' entered stdin.
  destruct (new_guard _ _ _ _ Hnew) as (G1 & G2 & G3). destruct (set_guard _ _ _ _ _ _ Hset) as (N1 & N2 & Hget).
  assert (m = Some (stamped set_at g)) as Hm by (eapply provided_guard; [exact Ha|exact Hne|exact Hget|exact Hc]).
  subst f'. rewrite Hm. destruct Hc as [Hfile _].
  destruct (applied_guard random f configPath _ Ht Hfile N1 N2 Hsame) as (cur & Hl & E1 & E2 & E3).
  unfold runVerifyUninstall. rewrite Hl. cbn [readUninstallPassword].
  cbn [stamped g_SaltB64 g_DigestB64 g_Iterations] in E1, E2, E3. rewrite G1 in E1. rewrite G2 in E2. rewrite G3 in E3.
  rewrite (verify_password cur salt password entered iterations iterations_positive E1 E2 E3).
  destruct (String.eqb (Derive entered salt iterations) (Derive password salt iterations)); reflexivity.
Qed.

(** An uninstall is let through only if there is no guard on disk, or the password that
    was read is the one of the guard: a file that cannot be read or makes no sense never
    opens the way. *)
Theorem removal_needs_the_password denied f configPath env stdin :
  (runVerifyUninstall json_guard denied f configPath env stdin).1 = uninstallExitAuthorised ↔
  (denied = false ∧ f !! guard_path (dir configPath) = None) ∨
  ∃ g password, Load json_guard denied f (dir configPath) = inl g ∧
    readUninstallPassword env stdin = Some password ∧ Verify (Some g) password = None.
Proof.
  unfold runVerifyUninstall. destruct (Load _ _ _ _) as [g|e] eqn:Hl.
  - assert (¬ (denied = false ∧ f !! guard_path (dir configPath) = None)) as Hno.
    { intros [-> H]. unfold Load, read_file in Hl. by rewrite H in Hl. }
    destruct (readUninstallPassword env stdin) as [p|]; [|split; [done|]; intros [?|(? & ? & _ & ? & _)]; done].
    destruct (Verify (Some g) p) as [v|] eqn:Hv.
    + split; [by destruct v|]. intros [?|(g' & p' & [= <-] & [= <-] & H)]; [done|congruence].
    + split; [|done]. intros _. right. by exists g, p.
  - assert (e = ErrNoGuard ↔ denied = false ∧ f !! guard_path (dir configPath) = None) as He.
    { unfold Load, read_file in Hl. destruct denied; [by split; [congruence|intros [? _]]|].
      destruct (f !! guard_path _); [|by simplify_eq]. split; [|by intros [_ ?]].
      intros ->. by repeat case_match. }
    destruct e; cbn [fst]; [split; [intros _; left; by apply He|done]|..];
      (split; [done|]; intros [H|(? & ? & ? & _)]; [by apply He in H|done]).
Qed.

(** Clearing the password of a tenant sends nothing, and an endpoint that is sent nothing
    keeps what it has: the guard stays, and so does the password. *)
Theorem cleared_guard_stays fails agents t a tenant denied x random configPath f :
  agents !! a = Some tenant →
  let m := headerUninstallGuard json_header
             (guard_header header_json (guard_provider fails agents (ClearGuard tenant t) a)) in
  applyGuard guard_json json_guard denied x random configPath f m = (f, None).
Proof.
  intros Ha m. assert (m = None) as ->; [|done]. subst m. unfold guard_provider. destruct fails; [done|].
  rewrite Ha. destruct (String.eqb tenant ""); [done|]. unfold GetGuard, ClearGuard. by rewrite lookup_delete_eq.
Qed.

(** Material that differs in its iterations alone does not arrive. *)
Lemma iterations_alone_do_not_arrive denied x random configPath f cur m :
  Load json_guard denied f (dir configPath) = inl cur →
  g_SaltB64 m = g_SaltB64 cur → g_DigestB64 m = g_DigestB64 cur →
  applyGuard guard_json json_guard denied x random configPath f (Some m) = (f, None).
Proof.
  intros Hl Hs Hd. unfold applyGuard. rewrite Hl, Hs, Hd, !String.eqb_refl. by destruct (_ || _).
Qed.
End UninstallTheorems.

(** *** Digests *)
#[local] Transparent Derive.

Lemma sha256_state msg st n : length st = 8%nat → length (sha256_blocks n st msg) = 8%nat.
Proof.
  assert (∀ l st, length st = 8%nat → length (foldl sha256_round st l) = 8%nat) as Hround.
  { induction l as [|x l IH]; intros s Hs; [done|]. cbn [foldl]. apply IH.
    do 9 (destruct s as [|? s]; try done). }
  revert msg st. induction n as [|n IH]; intros msg s Hs; [done|]. cbn [sha256_blocks]. apply IH.
  unfold sha256_block. rewrite length_zip_with, Hround by done. by rewrite Hs.
Qed.

Lemma sha256_length msg : length (sha256_sum msg) = 32%nat.
Proof.
  unfold sha256_sum. pose proof (sha256_state (sha256_pad msg) sha256_init (length (sha256_pad msg) / 64) eq_refl) as H.
  cbv zeta. destruct (sha256_blocks _ _ _) as [|? l]; [done|]. do 8 (destruct l as [|? l]; try done).
Qed.

Lemma string_of_length l : String.length (string_of l) = length l.
Proof. induction l as [|x l IH]; [done|]. cbn [string_of String.length length]. by rewrite IH. Qed.

(** A derived key is [keyLen] bytes long. *)
Lemma derive_length password salt iters : String.length (Derive password salt iters) = 32%nat.
Proof.
  unfold Derive. set (key := bytes_of password). set (u := hmac_sha256 _ _).
  assert (length u = 32%nat) as Hu by apply sha256_length.
  assert (∀ s, length s.2 = 32%nat → length (pbkdf2_step key s).2 = 32%nat) as Hstep.
  { intros s Hs. unfold pbkdf2_step. cbn [snd]. rewrite length_zip_with, Hs. unfold hmac_sha256.
    by rewrite sha256_length. }
  assert (length (Z.iter (iters - 1) (pbkdf2_step key) (u, u)).2 = 32%nat) as Hl.
  { destruct (iters - 1) as [|p|p]; [done| |done]. cbn [Z.iter]. rewrite Pos2Nat.inj_iter. unfold Nat.iter.
    induction (Pos.to_nat p) as [|k IH]; [done|]. cbn [nat_rect]. by apply Hstep. }
  by rewrite string_of_length.
Qed.

Lemma bytes_of_app a b : bytes_of (a +:+ b) = bytes_of a ++ bytes_of b.
Proof. induction a as [|c a IH]; [done|]. cbn [String.append bytes_of app]. by rewrite IH. Qed.

Lemma bytes_of_length s : length (bytes_of s) = String.length s.
Proof. induction s as [|c s IH]; [done|]. cbn [bytes_of length String.length]. by rewrite IH. Qed.

(** HMAC fills its key up with zeros, so a zero byte at the end changes nothing. *)
Lemma padded_password password salt iters : (String.length password < 64)%nat →
  Derive (password +:+ String (chr 0) "") salt iters = Derive password salt iters.
Proof.
  intros Hl. assert (∀ m, hmac_sha256 (bytes_of (password +:+ String (chr 0) "")) m = hmac_sha256 (bytes_of password) m) as Hk.
  { intros m. unfold hmac_sha256. assert (hmac_key (bytes_of (password +:+ String (chr 0) "")) = hmac_key (bytes_of password)) as ->; [|done].
    unfold hmac_key. rewrite bytes_of_app. cbn [bytes_of]. unfold zlen. rewrite length_app, bytes_of_length. cbn [length].
    destruct (Z.ltb_spec 64 (Z.of_nat (String.length password + 1))); [lia|].
    destruct (Z.ltb_spec 64 (Z.of_nat (String.length password))); [lia|].
    rewrite length_app, bytes_of_length, <-app_assoc. cbn [length app]. f_equal.
    replace (64 - String.length password)%nat with (S (64 - (String.length password + 1)))%nat by lia. done. }
  unfold Derive. rewrite Hk. do 2 f_equal.
  assert (∀ s, pbkdf2_step (bytes_of (password +:+ String (chr 0) "")) s = pbkdf2_step (bytes_of password) s) as Hstep
    by (intros s; unfold pbkdf2_step; by rewrite Hk).
  destruct (iters - 1) as [|p|p]; [reflexivity| |reflexivity]. cbn [Z.iter].
  rewrite !Pos2Nat.inj_iter. unfold Nat.iter.
  induction (Pos.to_nat p) as [|k IH]; [reflexivity|]. cbn [nat_rect]. by rewrite IH, Hstep.
Qed.

(** *** Examples *)
#[local] Opaque Derive.

(** A codec for the guards of one time. *)
Definition toy_guard (salt digest : string) : Guard := mkGuard 1 "pbkdf2-hmac-sha256" iterations salt digest 0.
Definition toy_guard_json (g : Guard) : option string := Some (g_SaltB64 g +:+ String (chr 44) (g_DigestB64 g)).
Definition toy_json_guard (s : string) : option Guard :=
  match cut (chr 44) s with Some (salt, digest) => Some (toy_guard salt digest) | None => None end.

Lemma toy_carried salt digest : carried toy_guard_json toy_guard_json toy_json_guard toy_json_guard (toy_guard (b64 salt) digest).
Proof.
  assert (toy_json_guard (b64 salt +:+ String (chr 44) digest) = Some (toy_guard (b64 salt) digest)) as H.
  { unfold toy_json_guard. rewrite cut_clean; [reflexivity|]. apply b64_clean; [by vm_compute|done]. }
  split; eexists; (split; [reflexivity|]); [exact H|]. split; [|exact H]. cbn [g_SaltB64 toy_guard]. by destruct (b64 salt).
Qed.

Lemma password_decides_removal_witness :
  let g := toy_guard (b64 "0123456789abcdef") (b64 (Derive "s3cret" "0123456789abcdef" iterations)) in
  let t' : gmap string UninstallGuard := {[ "t1" := mkUninstallGuard g None ]} in
  let agents : gmap string string := {[ "a1" := "t1" ]} in
  let m := headerUninstallGuard toy_json_guard (guard_header toy_guard_json (guard_provider false agents t' "a1")) in
  let f' := (applyGuard toy_guard_json toy_json_guard false no_faults "1" "/etc/edr/agent.toml" ∅ m).1 in
  runVerifyUninstall toy_json_guard false f' "/etc/edr/agent.toml" (Some "s3cret") None = (0, Some true).
Proof.
  intros g t' agents m f'. assert (g_DigestB64 g ≠ "") as Hd.
  { apply b64_nonempty. intros E. pose proof (derive_length "s3cret" "0123456789abcdef" iterations) as H. by rewrite E in H. }
  assert (NewGuard (Some "0123456789abcdef") "s3cret" 0 = Ok g) as Hnew by (unfold NewGuard; reflexivity).
  assert (SetGuard 0 "t1" (Some (g, "")) ∅ = Ok t') as Hset.
  { unfold SetGuard. apply String.eqb_neq in Hd. rewrite Hd. reflexivity. }
  pose proof (password_decides_removal toy_guard_json toy_guard_json toy_json_guard toy_json_guard "0123456789abcdef" "s3cret" 0 0
    "t1" "" ∅ t' agents "a1" ∅ "/etc/edr/agent.toml" "1" g Hnew Hset eq_refl ltac:(discriminate) (toy_carried _ _) eq_refl I
    "s3cret" None) as H.
  rewrite String.eqb_refl in H. exact H.
Defined.

#[local] Transparent Derive.
Example uninstall_examples :
  let g := mkGuard 1 "pbkdf2-hmac-sha256" 1 (b64 "salt") (b64 (Derive "password" "salt" 1)) 0 in
  let json s := if String.eqb s "guard" then Some g else None in
  let run content env stdin :=
    runVerifyUninstall json false {[ "/etc/edr/uninstall.guard" := content ]} "/etc/edr/agent.toml" env stdin in
  run "guard" (Some "password") None = (0, Some true) ∧
  run "guard" None (Some ("password" +:+ String (chr 13) (String (chr 10) "rest"))) = (0, Some true) ∧
  run "guard" (Some "Password") None = (2, Some false) ∧ run "gua" (Some "password") None = (3, None) ∧
  runVerifyUninstall json false ∅ "/etc/edr/agent.toml" None None = (0, None).
Proof. by vm_compute. Qed.
